(* ===== verification/_CoqProject ===== *)
-Q . S2P
Prelude.v
Boost.v
Conversions.v
Json.v
Database.v
DatabaseFacts.v
Query.v
QueryFacts.v
LogItemFacts.v
Host.v
Packs.v
PacksFacts.v
Config.v
ConfigFacts.v
Scheduler.v
SchedulerFacts.v
Events.v
EventsFacts.v
EventFactory.v
Registry.v
RegistryFacts.v
Filesystem.v
FilesystemFacts.v
Decorators.v
DecoratorsFacts.v
Flags.v
Parsers.v
ParsersFacts.v
Scan.v
Buffered.v
BufferedFacts.v
Distributed.v
DistributedFacts.v
Process.v
Watcher.v
Tables.v
TablesFacts.v
VirtualTable.v
VirtualTableFacts.v
AuditRecords.v
AuditFacts.v
AuditReader.v
ProcessFileEvents.v
AuditTables.v
Errors.v
NumericMonitoring.v
Killswitch.v
Logger.v
SqlFunctions.v
Sql.v
Keeps.v
PathSet.v
Inotify.v
Uri.v
Http.v
Remote.v
Carver.v
Extensions.v
Dispatcher.v
RocksDb.v
SqliteDb.v
CoreDatabase.v
MdTables.v
Smbios.v
Hashing.v
Aws.v
Syslog.v
Proc.v
System.v
Init.v
TextTables.v
Printer.v
Shell.v
Docker.v
Witnesses.v
ServiceWitnesses.v
AuditWitnesses.v
TableWitnesses.v
ConfigWitnesses.v
DaemonWitnesses.v
