(* ===== verification/Prelude.v ===== *)
(** * osquery: a verification development

    osquery exposes an operating system as SQL tables. Its daemon runs queries
    on a schedule taken from a configuration, keeps the last results of each in
    a key/value store, and logs what changed; event publishers push rows into
    event subscribers, which buffer them in the same store until a query reads
    them; log lines are buffered in the store until a remote service took them;
    queries also arrive from a server, are run once and reported back; a watcher
    process restarts the worker when it uses too much of the host; plugins of all
    kinds are found through a registry, some of them in extension processes; on
    Linux the audit system is read for process, socket, user and file events; a shell
    runs queries by hand. This library models that core from the C++ sources and proves the properties it
    relies on. Paths below are relative to src/.

    ** How code is modelled

    A C++ function that mutates an object and may throw is a function of the
    monad [M S A := S -> result A * S] of this file: an exception is a value, and
    the state reached is kept. [size_t] and [uint64_t] are [Z] with the wrap-around
    written out ([u64], [u32], [i64]); strings are lists of 8-bit characters;
    [std::map] is [gmap] iterated in key order ([map_sorted]); [float] is the
    24-bit format of SpecFloat. Log messages and mutexes are left out, except where
    the position of a lock matters ([eid_step] in Events.v). Code that is not in
    the repository is a parameter with named laws, which a concrete instance
    satisfies: [Boost] (string algorithms, Boost.v), [RapidJSON] (Json.v), [PTree]
    (Database.v), [Host] and [Build] (clock, random numbers, SQL, version, platform,
    SHA-1, Host.v), [NthElement] (Buffered.v), [UnorderedSet] (the order of a hash
    set, Tables.v), [PTreeWriter] (Buffered.v), [Posix] (system calls on processes,
    Process.v, and on files with Boost.Filesystem, Filesystem.v), [BoostHex]
    (Boost.v), [Libaudit] (AuditReader.v), [Doubles] (texts and doubles,
    VirtualTable.v), [Gflags] (Flags.v). Plugin callbacks, remote services and the SQL engine are arguments
    of the sections that call them.

    ** Files

    Shared:
    - Prelude.v: exceptions and state, integers, strings, [Status]
      (include/osquery/status.h), the scanning functions of the C++ library, the
      tactics and the hint databases [osq] and [safe].
    - Keeps.v: rules for invariants of stateful code, as hints. Errors.v: errors as
      values (include/osquery/error.h, expected.h).
    - Boost.v, Conversions.v, Json.v: string algorithms; osquery/core/conversions.h
      and conversions.cpp with the conversions between texts and integers, [split],
      UTF-8 lengths, unescaping, and the JSON wrapper.
    - Host.v: the environment; the version and platform checks of
      osquery/main/lib.cpp and osquery/core/system.cpp.

    The store:
    - Database.v, DatabaseFacts.v: osquery/database/database.cpp and
      plugins/ephemeral.cpp. [DatabasePlugin] is the plugin interface,
      [DatabaseLaws] what a plugin promises, [Ephemeral] the in-memory plugin,
      [DbState] the process-wide state with the fallback, [DatabaseAPI] and
      [DatabaseAPILaws] the interface the other components are proved against;
      the core process implements it ([core_laws]). Also the requests of an
      extension, reset, and the schema migrations.
    - Scan.v: scanning a domain of the store by prefix in key order, as an
      interface ([DatabaseScan], [DatabaseScanLaws], [DatabaseOrdered]) that the
      in-memory plugin and the core process implement.
    - RocksDb.v, SqliteDb.v, CoreDatabase.v: the plugins for RocksDB and SQLite and
      the typed databases of osquery/core/database.

    Queries, schedule and configuration:
    - Query.v, QueryFacts.v, LogItemFacts.v: osquery/core/query.cpp: the
      differential, serialization of rows, results and log items, and [Query] over
      the store.
    - Packs.v, PacksFacts.v: osquery/config/packs.cpp.
    - Config.v, ConfigFacts.v: osquery/config/config.cpp.
    - Decorators.v, DecoratorsFacts.v, Parsers.v, ParsersFacts.v: the parsers of
      osquery/config/parsers and, in Parsers.v, the filesystem plugin of
      osquery/config/plugins; Flags.v: osquery/core/flags.cpp and the options parser.
    - Scheduler.v, SchedulerFacts.v: osquery/dispatcher/scheduler.cpp and the
      escaping of osquery/sql/sql.cpp.
    - Distributed.v, DistributedFacts.v: osquery/distributed/distributed.cpp.
    - Killswitch.v, NumericMonitoring.v: osquery/killswitch, osquery/numeric_monitoring
      and osquery/profiler.

    SQL and tables:
    - Tables.v, TablesFacts.v: the table plugin interface
      (osquery/core/tables.cpp and include/osquery/tables.h).
    - VirtualTable.v, VirtualTableFacts.v: the SQLite virtual table adapter
      (osquery/sql/virtual_table.cpp): planning, scanning, values, modification,
      creation and attaching.
    - Sql.v, SqlFunctions.v: osquery/sql/sql.cpp, sqlite_util.cpp, and the functions
      osquery adds to SQL.
    - Hashing.v: osquery/core/hashing.cpp and the table of hashes. Proc.v: /proc and
      the process tables. MdTables.v: software RAID. Smbios.v: SMBIOS structures.
      TextTables.v: the tables made of text files. Docker.v: the Docker tables.

    Registry and extensions:
    - Registry.v, RegistryFacts.v: osquery/registry. Extensions.v: osquery/extensions.

    Events:
    - Events.v, EventsFacts.v: the subscriber half of osquery/events/events.cpp;
      EventFactory.v: publishers and the factory, from the same file.
    - AuditReader.v: the netlink service, AuditRecords.v and AuditFacts.v: parsing
      audit records and assembling events (osquery/events/linux/auditdnetlink.cpp,
      auditeventpublisher.cpp).
    - ProcessFileEvents.v: file events, AuditTables.v: process, socket, user and
      SELinux events (osquery/tables/events/linux).
    - PathSet.v, Inotify.v: osquery/events/pathset.h and the inotify publisher with
      its subscriber. Syslog.v: the syslog publisher.

    Logging and the network:
    - Logger.v: osquery/logger/logger.cpp and its plugins; Buffered.v and
      BufferedFacts.v: the buffered log forwarder; Aws.v: the AWS loggers.
    - Uri.v, Http.v, Remote.v: osquery/remote: addresses, the HTTP client, requests,
      enrollment and the plugins that use TLS. Carver.v: osquery/carver.

    The process:
    - Filesystem.v, FilesystemFacts.v: osquery/filesystem/filesystem.cpp and
      posix/fileops.cpp: files, patterns, permissions.
    - Process.v: the POSIX process object (osquery/core/posix). Watcher.v:
      osquery/core/watcher.cpp. System.v: osquery/core/system.cpp. Init.v:
      osquery/core/init.cpp. Dispatcher.v: osquery/dispatcher/dispatcher.cpp.
    - Printer.v, Shell.v: osquery/devtools: the printed table and the shell.

    - Witnesses.v, ServiceWitnesses.v, AuditWitnesses.v, TableWitnesses.v,
      ConfigWitnesses.v, DaemonWitnesses.v: properties with hypotheses applied to a
      concrete input; those of Init.v, TextTables.v, Printer.v, Shell.v and Docker.v
      are at the end of these files.

    ** How the parts interact

    [start] (Init.v) opens the database, activates the plugins and starts the
    threads, which Dispatcher.v runs until they are told to stop.
    [launchQuery] (Scheduler.v) marks the query as executing through
    [recordQueryStart] (Config.v), runs it, records its cost, escapes the rows,
    hands them to [addNewResults] (Query.v), which reads and writes the store
    (Database.v) and computes [diff], and logs the difference. The next start of
    the process reads the mark in [Schedule_new]. [scheduledQueries] (Config.v)
    walks the packs (Packs.v) and the blacklist. [configUpdate] (EventFactory.v)
    derives from the schedule how long subscribers (Events.v) keep their events.
    The forwarder (Buffered.v) and distributed queries (Distributed.v) keep their
    queues in the store through the interface of Scan.v; the results of a
    distributed query use the row serialization of Query.v. RocksDb.v implements the
    plugin interface of Database.v. The watcher (Watcher.v) drives processes through
    Process.v. Tables are registry plugins: their route information (Tables.v) is
    what Registry.v broadcasts, what the adapter (VirtualTable.v) declares to SQLite,
    and the contexts the adapter makes of a [WHERE] clause are those Tables.v sends
    to an extension. The netlink reader (AuditReader.v) queues messages, the parser
    (AuditRecords.v) makes records of them, the publisher assembles events, and the
    subscribers (ProcessFileEvents.v, AuditTables.v) turn these into rows for
    [addBatch] (Events.v). [applyParsers] (Config.v) calls the parsers of
    Decorators.v, Flags.v and Parsers.v; the file paths they register are resolved
    by Filesystem.v, and what decorators yield is what [launchQuery] puts into a log
    item. The plugins of Remote.v send through the client of Http.v, which follows
    the addresses of Uri.v. The shell (Shell.v) prints rows with Printer.v.

    ** What the theorems show

    - Store: an extension sees and writes the same store as the core, except
      that deleting a range from an extension always fails; the RocksDB plugin keeps
      a store whatever RocksDB answers, but does not report a range deletion or an
      iteration that failed; a reset leaves a usable store; an upgrade ends.
    - Results: [diff] is the multiset difference; replaying the logged
      differentials from nothing gives the rows of the last execution; an epoch
      change restarts a query; results and log items survive JSON.
    - Packs: splayed intervals stay near the interval and are drawn once; a pack
      holds well-formed queries only; discovery is cached; the version check is
      numeric.
    - Configuration: a query running at a crash is blacklisted by the next
      process for a day of its clock and one that completed is not; blacklist and backup round trip; one
      pack per name and source; a source that does not parse is reported once
      only; purging can delete the epoch of a live query.
    - Config parsers: decorations of a source are replaced as a whole and a reset
      leaves none, but an interval that is no number ends the process; options
      reach their flags; the views in the store mirror the configuration, but for
      those SQLite refused to create, and are not created again after a restart; the files of a source are replaced.
    - Scheduler: reported differences, nothing logged for unchanged results,
      bounded drift, a loop with a limit stops, and the limit is an absolute time.
    - Events: ids increase across restarts within one thread but can collide
      between two; recorded events read back; upper time bounds are ignored;
      firing reaches exactly the running subscribers; a publisher runs once;
      retention covers the slowest query; every kernel watch has one owner.
    - Registry: removing an extension undoes its broadcast; a refused broadcast
      leaves its route behind.
    - Log forwarding: no line is lost or duplicated whatever the service answers;
      once it answers, the buffer drains; purging deletes the oldest lines; after
      a restart a line can be overwritten; status lines reach the loggers once
      whatever the threads do; when sending to AWS succeeds the service acknowledged
      every line once and has it at least once.
    - Distributed queries: a run ends, executes each pending query once and
      reports every result; discovery selects the queries, and selects all of
      them when nothing matched.
    - Watcher: the latency counter is the last run of busy intervals; restarts that
      come too quickly are counted and at their limit the watcher shuts down; bound fates end the loop; a killed worker is read as a success.
    - Start: no call that needs the database comes before it is open, and it is
      tried a bounded number of times; the first exit code stands; stopping reaches
      every service; dropped privileges come back, and cannot be dropped
      twice.
    - Virtual tables: the terms of a [WHERE] clause reach the table, a scan shows
      every row once and ends, the numbering of columns agrees with SQLite's, the
      values of an [INSERT] arrive and a successful one has a row id; numbers that
      do not fit are cut or lost, and reading through an alias renames it.
    - Table interface: contexts survive the request to an extension; the
      definition derived from a route is that of the table; a value of the types
      matching knows matches exactly when every comparison holds; cached rows are served until they expire.
    - Tables: cached hashes are those of the files; keys are read with the
      effective user and group of their owner; lines of the text tables are read back; the text of
      a query cannot alter a request to the Docker service, though ids the service
      answers with are sent back unchecked; the walk over the SMBIOS
      data stays inside it.
    - Audit: a printed record is read back; interleaved records make whole events,
      reported once; the daemon's own calls are not reported; the reader ends with
      a handle or an error. File events name configured paths only, a write
      through a new descriptor is reported, with the path the open resolved, exactly
      when the descriptor is below ten; a descriptor is reported at most twice;
      rules are never deleted, and the user id of a file event is indeterminate.
    - Files: a file below the limit is read whole, one of the limit is refused; a
      pattern expands depth by depth; a program that is loaded is safe; modes print
      in octal.
    - Network: a printed address is parsed again; connections lead where the options
      say; redirects that lead in a circle are followed without end.
    - Shell: a script runs its statements once and in order; executing ends; quoted
      settings and csv rows are read back; the printed table is rectangular.

    ** Fuel

    [upgradeDatabase] takes fuel and ends for every fuel of at least 3, since
    there are two migrations. [scheduler_loop] takes fuel; one unit for each
    second up to the limit is enough. [run_loop] of a publisher has no bound of its
    own: it runs until the publisher ends or fails. [utf8_loop] has the length of
    the string. [run_pending] (Distributed.v) needs one unit for each pending query,
    and [cleanup_loop] (Process.v) one for each 200 milliseconds of its timeout.
    The read loops of Filesystem.v need one unit more than there are reads, the scan
    of VirtualTableFacts.v one more than there are rows, and say so when they run
    out. The loops of AuditReader.v that wait for the kernel have no bound; each
    has a result for running out, and their theorems hold for every fuel.
    The loops of the forwarder's thread and of the watcher run until the process
    is told to end: their fuel is the number of turns, and their theorems hold for
    every number. The loops over the SMBIOS data have its length, the redirects of
    Http.v have no bound. In Shell.v the fuel of a statement is the length of its
    text and the bound on its rows, that of a file one unit more than its lines;
    running out is a result of its own, which the theorems exclude. Everything else
    recurses on its data.

    ** Not modelled

    SQLite, RocksDB, Thrift, the AWS client and the other libraries, which are
    parameters; most of the several hundred tables, which copy what the system
    answers into rows; SQL's mathematical functions (doubles), udev and the kernel
    extension publishers, and everything for Windows and macOS. *)
From stdpp Require Export base gmap strings list fin_maps sorting pretty.
From Stdlib Require Export ZArith Lia.
From Stdlib Require Ascii String.
Export Stdlib.Strings.Ascii (ascii(..)).
Export (notations) Stdlib.Strings.Ascii.

#[local] Set Default Proof Using "Type".
#[export] Set Default Goal Selector "!".

(** ** Effects: C++ exceptions and mutable state

    A C++ function that mutates an object of type [S] and may throw is a
    function [S -> result A * S]: the state reached is kept when it throws. *)

Inductive exn :=
  | RuntimeError (what : string)
  | InvalidArgument (what : string)
  | OutOfRange (what : string)
  | BadLexicalCast
  | AssertFailure.

Inductive result (A : Type) :=
  | Ok (a : A)
  | Throw (e : exn).
Arguments Ok {A} a.
Arguments Throw {A} e.

Definition M (S A : Type) : Type := S -> result A * S.

Definition ret {S A} (a : A) : M S A := fun s => (Ok a, s).

Definition throw {S A} (e : exn) : M S A := fun s => (Throw e, s).

Definition bind {S A B} (m : M S A) (f : A -> M S B) : M S B :=
  fun s => match m s with
           | (Ok a, s') => f a s'
           | (Throw e, s') => (Throw e, s')
           end.

Definition gets {S A} (f : S -> A) : M S A := fun s => (Ok (f s), s).

Definition modify {S} (f : S -> S) : M S unit := fun s => (Ok tt, f s).

Definition of_result {S A} (r : result A) : M S A := fun s => (r, s).

(** [try { m } catch (const std::exception& e) { h(e) }]. A failed assertion is
    not an exception: it ends the process and no handler sees it. *)
Definition catch {S A} (m : M S A) (h : exn -> M S A) : M S A :=
  fun s => match m s with
           | (Ok a, s') => (Ok a, s')
           | (Throw AssertFailure, s') => (Throw AssertFailure, s')
           | (Throw e, s') => h e s'
           end.

(** Run a computation on a component [T] of a larger state [S]. *)
Definition zoom {S T A} (get : S -> T) (put : T -> S -> S) (m : M T A) : M S A :=
  fun s => match m (get s) with (r, t) => (r, put t s) end.

Declare Scope osq_scope.
Delimit Scope osq_scope with osq.
Notation "'let*' x := c 'in' k" := (bind c (fun x => k))
  (at level 10, x pattern, c at level 100, k at level 200) : osq_scope.
Notation "c ;;; k" := (bind c (fun _ => k))
  (at level 199, right associativity) : osq_scope.
Global Open Scope osq_scope.

(** [for (const auto& x : l) f(x);] *)
Fixpoint for_each {S A} (l : list A) (f : A -> M S unit) : M S unit :=
  match l with
  | [] => ret tt
  | x :: l => f x ;;; for_each l f
  end.

(** The same with an accumulator (a local variable the body assigns). *)
Fixpoint for_fold {S A B} (l : list A) (acc : B) (f : B -> A -> M S B) : M S B :=
  match l with
  | [] => ret acc
  | x :: l => let* acc := f acc x in for_fold l acc f
  end.

(** A loop whose body either goes on with the accumulator or leaves the
    enclosing function ([return] inside the loop). *)
Inductive flow (B R : Type) :=
  | Next (b : B)
  | Return (r : R).
Arguments Next {B R} b.
Arguments Return {B R} r.

Fixpoint for_flow {S A B R} (l : list A) (acc : B) (f : B -> A -> M S (flow B R))
    : M S (flow B R) :=
  match l with
  | [] => ret (Next acc)
  | x :: l =>
      let* o := f acc x in
      match o with
      | Next acc => for_flow l acc f
      | Return r => ret (Return r)
      end
  end.

(** ** [osquery::Status] (include/osquery/status.h) *)

Record Status := mkStatus { code : Z; message : string }.

(** [explicit Status(int c)]: the message defaults to "OK". *)
Definition Status1 (c : Z) : Status := mkStatus c "OK".

Definition Status_success : Status := Status1 0.

Definition Status_failure (m : string) : Status := mkStatus 1 m.

Definition Status_ok (s : Status) : bool := Z.eqb (code s) 0.

#[export] Instance Status_eq_dec : EqDecision Status.
Proof. solve_decision. Defined.

(** ** Machine integers *)

Definition u64 (z : Z) : Z := z mod 2 ^ 64.
Definition u32 (z : Z) : Z := z mod 2 ^ 32.
(** Two's complement reinterpretation as a signed 64-bit integer. *)
Definition i64 (z : Z) : Z := (z + 2 ^ 63) mod 2 ^ 64 - 2 ^ 63.

(** The same at 32 bits, for [int] and [pid_t]. *)
Definition i32 (z : Z) : Z := (z + 2 ^ 31) mod 2 ^ 32 - 2 ^ 31.

Definition in_u64 (z : Z) : Prop := (0 <= z < 2 ^ 64)%Z.

(** ** Strings of 8-bit characters *)

Abbreviation chars := String.list_ascii_of_string.
Abbreviation of_chars := String.string_of_list_ascii.

(** What a [const char*] reader of the string sees: up to the first NUL. *)
Fixpoint c_str (s : string) : string :=
  match s with
  | EmptyString => EmptyString
  | String c r => if decide (c = Ascii.zero) then EmptyString else String c (c_str r)
  end.

Definition all_chars (p : ascii -> bool) (s : string) : bool :=
  forallb p (chars s).

(** [std::string::empty]. *)
Definition is_empty (s : string) : bool :=
  match s with EmptyString => true | _ => false end.

(** [::tolower] / [ctype::tolower] in the classic locale. *)
Definition tolower (c : ascii) : ascii :=
  let n := Ascii.nat_of_ascii c in
  if (65 <=? n)%nat && (n <=? 90)%nat then Ascii.ascii_of_nat (n + 32) else c.

Definition lower (s : string) : string := of_chars (tolower <$> chars s).

(** [s.substr(pos, n)] and [s.substr(pos)]: a position past the end throws. *)
Definition substr_n (s : string) (pos n : nat) : result string :=
  if (String.length s <? pos)%nat then Throw (OutOfRange "basic_string::substr")
  else Ok (String.substring pos n s).

Definition substr (s : string) (pos : nat) : result string :=
  substr_n s pos (String.length s).

(** [s[i]] of a constant string: the character past the end is NUL. *)
Definition char_at (s : string) (i : nat) : ascii := default Ascii.zero (String.get i s).

(** [s.find(t)], where [npos] is [None]. *)
Definition find_str (t s : string) : option nat := String.index 0 t s.

(** [std::to_string] on the integer types. *)
Definition to_string (z : Z) : string := pretty z.

(** [std::map] iteration: by ascending key, keys compared bytewise. *)
Definition key_le {A} (x y : string * A) : Prop := String.le x.1 y.1.
#[export] Instance key_le_dec {A} : RelDecision (@key_le A).
Proof. intros x y. unfold key_le. apply _. Defined.

Definition map_sorted {A} (m : gmap string A) : list (string * A) :=
  merge_sort key_le (map_to_list m).

(** ** [std::stoi], [std::stol], [std::stoll], [std::stoul], [std::stoull] *)

Definition digit_value (base : Z) (c : ascii) : option Z :=
  let n := Z.of_nat (Ascii.nat_of_ascii c) in
  let d := if (48 <=? n)%Z && (n <=? 57)%Z then Some (n - 48)%Z
           else if (97 <=? n)%Z && (n <=? 122)%Z then Some (n - 87)%Z
           else if (65 <=? n)%Z && (n <=? 90)%Z then Some (n - 55)%Z
           else None in
  match d with
  | Some v => if (v <? base)%Z then Some v else None
  | None => None
  end.

Fixpoint skip_space (s : string) : string :=
  match s with
  | String c r => if Ascii.is_space c then skip_space r else s
  | EmptyString => EmptyString
  end.

(** The longest run of digits: [acc] is the value so far, [seen] whether a
    digit was consumed. *)
Fixpoint digits_value (base : Z) (seen : bool) (acc : Z) (s : string) : option Z :=
  match s with
  | String c r =>
      match digit_value base c with
      | Some d => digits_value base true (acc * base + d) r
      | None => if seen then Some acc else None
      end
  | EmptyString => if seen then Some acc else None
  end.

Definition skip_prefix (base : Z) (s : string) : string :=
  match s with
  | String "0" (String x (String c r)) =>
      if (base =? 16)%Z && (bool_decide (x = "x"%char) || bool_decide (x = "X"%char))
         && bool_decide (is_Some (digit_value 16 c))
      then String c r else s
  | _ => s
  end.

(** Base 0 is chosen by the prefix: 0x, 0 or none. *)
Definition detect_base (base : Z) (s : string) : Z :=
  if (base =? 0)%Z then
    match s with
    | String "0" (String x (String c _)) =>
        if (bool_decide (x = "x"%char) || bool_decide (x = "X"%char))
           && bool_decide (is_Some (digit_value 16 c)) then 16 else 8
    | String "0" _ => 8
    | _ => 10
    end
  else base.

(** [strtol]-style scan: sign and magnitude, [None] if nothing converts. *)
Definition strto (base : Z) (s : string) : option (bool * Z) :=
  let s := skip_space s in
  let '(neg, s) := match s with
                   | String "-" r => (true, r)
                   | String "+" r => (false, r)
                   | _ => (false, s)
                   end in
  let base := detect_base base s in
  match digits_value base false 0 (skip_prefix base s) with
  | Some v => Some (neg, v)
  | None => None
  end.

Definition sto_signed (fn : string) (bits : Z) (base : Z) (s : string) : result Z :=
  match strto base s with
  | None => Throw (InvalidArgument fn)
  | Some (neg, v) =>
      let z := if neg then (- v)%Z else v in
      if (- 2 ^ (bits - 1) <=? z)%Z && (z <? 2 ^ (bits - 1))%Z then Ok z
      else Throw (OutOfRange fn)
  end.

Definition sto_unsigned (fn : string) (base : Z) (s : string) : result Z :=
  match strto base s with
  | None => Throw (InvalidArgument fn)
  | Some (neg, v) =>
      if (v <? 2 ^ 64)%Z then Ok (if neg then u64 (- v) else v)
      else Throw (OutOfRange fn)
  end.

Definition stoi (base : Z) (s : string) : result Z := sto_signed "stoi" 32 base s.
Definition stol (base : Z) (s : string) : result Z := sto_signed "stol" 64 base s.
Definition stoll (base : Z) (s : string) : result Z := sto_signed "stoll" 64 base s.
Definition stoul (base : Z) (s : string) : result Z := sto_unsigned "stoul" base s.
Definition stoull (base : Z) (s : string) : result Z := sto_unsigned "stoull" base s.

(** ** Tactics *)

(** Split every [match] and [if] the goal or a hypothesis is stuck on. *)
Ltac split_match :=
  repeat match goal with
         | |- context [match ?x with _ => _ end] => destruct x eqn:?; simplify_eq/=
         end.

(** Decompose a run of the monad in a hypothesis. *)
Ltac inv_run H :=
  unfold bind, ret, gets, modify, throw, of_result in H; simpl in H.

Ltac unfold_M := unfold bind, ret, gets, modify, throw, of_result, catch, zoom.

(** ** Lemmas *)

Create HintDb osq.

Lemma u64_small z : in_u64 z -> u64 z = z.
Proof. unfold u64, in_u64. intros. apply Z.mod_small. lia. Qed.
#[export] Hint Resolve u64_small : osq.

Lemma u64_range z : in_u64 (u64 z).
Proof. unfold u64, in_u64. apply Z.mod_pos_bound. lia. Qed.
#[export] Hint Resolve u64_range : osq.

Lemma Status_ok_iff s : Status_ok s = true <-> code s = 0%Z.
Proof. unfold Status_ok. apply Z.eqb_eq. Qed.

Lemma map_sorted_perm {A} (m : gmap string A) : map_sorted m ≡ₚ map_to_list m.
Proof. apply merge_sort_Permutation. Qed.

Lemma elem_of_map_sorted {A} (m : gmap string A) k v :
  (k, v) ∈ map_sorted m <-> m !! k = Some v.
Proof. rewrite map_sorted_perm. apply elem_of_map_to_list. Qed.

Lemma NoDup_fst_map_sorted {A} (m : gmap string A) : NoDup (map_sorted m).*1.
Proof. rewrite map_sorted_perm. apply NoDup_fst_map_to_list. Qed.

Lemma list_to_map_sorted {A} (m : gmap string A) :
  list_to_map (map_sorted m) = m.
Proof.
  rewrite <- (list_to_map_to_list m) at 2.
  apply list_to_map_proper; [apply NoDup_fst_map_sorted | apply map_sorted_perm].
Qed.

Lemma map_sorted_empty {A} : map_sorted (∅ : gmap string A) = [].
Proof. unfold map_sorted. by rewrite map_to_list_empty. Qed.

Lemma map_sorted_singleton {A} k (v : A) : map_sorted {[k := v]} = [(k, v)].
Proof. unfold map_sorted. by rewrite map_to_list_singleton. Qed.

Lemma map_sorted_inj {A} (m1 m2 : gmap string A) :
  map_sorted m1 = map_sorted m2 -> m1 = m2.
Proof. intros H. by rewrite <- (list_to_map_sorted m1), H, list_to_map_sorted. Qed.

Lemma chars_app s t : chars (s +:+ t) = chars s ++ chars t.
Proof. induction s as [|c s IH]; simpl; [done | by rewrite IH]. Qed.

Lemma of_chars_app s t : of_chars (s ++ t) = of_chars s +:+ of_chars t.
Proof. induction s as [|c s IH]; simpl; [done | by rewrite IH]. Qed.

Lemma chars_inj s t : chars s = chars t -> s = t.
Proof.
  intros H. rewrite <- (String.string_of_list_ascii_of_string s), H.
  apply String.string_of_list_ascii_of_string.
Qed.

Lemma app_cons_str c s t : String c s +:+ t = String c (s +:+ t).
Proof. done. Qed.

Lemma app_nil_r_str s : s +:+ "" = s.
Proof. induction s as [|c s IH]; [done | by rewrite app_cons_str, IH]. Qed.

Lemma app_assoc_str s t u : (s +:+ t) +:+ u = s +:+ (t +:+ u).
Proof. induction s as [|c s IH]; [done | by rewrite !app_cons_str, IH]. Qed.

Lemma app_inj_l_str s t u : s +:+ t = s +:+ u -> t = u.
Proof. apply (inj (String.app s)). Qed.

Lemma app_inj_r_str s t u : s +:+ u = t +:+ u -> s = t.
Proof.
  intros H. apply chars_inj. apply (f_equal chars) in H.
  rewrite !chars_app in H. by apply app_inv_tail in H.
Qed.

Lemma all_chars_app p s t : all_chars p (s +:+ t) = all_chars p s && all_chars p t.
Proof. unfold all_chars. by rewrite chars_app, forallb_app. Qed.

Lemma chars_cons c s : chars (String c s) = c :: chars s.
Proof. done. Qed.

Lemma all_chars_cons p c s : all_chars p (String c s) = p c && all_chars p s.
Proof. done. Qed.

Lemma c_str_idem s : c_str (c_str s) = c_str s.
Proof.
  induction s as [|c s IH]; simpl; [done|]. case_decide; [done|]. simpl.
  rewrite decide_False by done. by rewrite IH.
Qed.

Lemma is_empty_true s : is_empty s = true <-> s = "".
Proof. by destruct s. Qed.

(** *** Decimal printing and scanning *)

Definition is_digit (c : ascii) : bool :=
  bool_decide (is_Some (digit_value 10 c)).

(** The value of a string of decimal digits. *)
Definition dec_value (s : string) : option Z := digits_value 10 false 0 s.

Lemma digit_value_pretty x : (x < 10)%N ->
  digit_value 10 (pretty_N_char x) = Some (Z.of_N x).
Proof.
  intros Hx.
  assert (x = 0 \/ x = 1 \/ x = 2 \/ x = 3 \/ x = 4 \/ x = 5 \/ x = 6 \/ x = 7
          \/ x = 8 \/ x = 9)%N as Hc by lia.
  by repeat destruct Hc as [-> | Hc]; subst.
Qed.

Lemma digits_value_pretty_go x s seen :
  digits_value 10 seen 0 (pretty_N_go x s)
  = digits_value 10 (seen || bool_decide (0 < x)%N) (Z.of_N x) s.
Proof.
  revert s seen. induction (N.lt_wf_0 x) as [x _ IH]. intros s seen.
  destruct (decide (0 < x)%N) as [Hx|Hx].
  - rewrite pretty_N_go_step by done.
    rewrite (IH (x `div` 10)%N ltac:(apply N.div_lt; lia)).
    simpl. rewrite digit_value_pretty by (apply N.mod_lt; lia).
    rewrite (bool_decide_true (0 < x)%N), orb_true_r by done.
    f_equal. rewrite N2Z.inj_div, N2Z.inj_mod. simpl.
    pose proof (Z.div_mod (Z.of_N x) 10 ltac:(lia)). lia.
  - assert (x = 0)%N as -> by lia. rewrite pretty_N_go_0.
    by rewrite bool_decide_false, orb_false_r by lia.
Qed.

Lemma to_string_nonneg z : (0 <= z)%Z -> to_string z = pretty (Z.to_N z).
Proof. intros. unfold to_string. destruct z; [done | done | lia]. Qed.

Lemma dec_value_to_string z : (0 <= z)%Z -> dec_value (to_string z) = Some z.
Proof.
  intros Hz. rewrite to_string_nonneg by done. unfold dec_value, pretty, pretty_N.
  case_decide as H0; [by rewrite <- (Z2N.id z), H0 by done |].
  rewrite digits_value_pretty_go, bool_decide_true by lia. simpl.
  by rewrite Z2N.id.
Qed.

Lemma is_digit_plain c : is_digit c = true ->
  Ascii.is_space c = false /\ c <> "-"%char /\ c <> "+"%char /\ c <> ":"%char /\
  c <> ","%char /\ c <> "."%char.
Proof. destruct c as [[] [] [] [] [] [] [] []]; by vm_compute. Qed.

Definition all_digits (s : string) : bool := all_chars is_digit s.

Lemma all_digits_pretty_go x s : all_digits s = true -> all_digits (pretty_N_go x s) = true.
Proof.
  revert s. induction (N.lt_wf_0 x) as [x _ IH]. intros s Hs.
  destruct (decide (0 < x)%N) as [Hx|Hx].
  - rewrite pretty_N_go_step by done. apply IH; [apply N.div_lt; lia |].
    unfold all_digits, all_chars in *. simpl. apply andb_true_intro. split; [|done].
    unfold is_digit. rewrite digit_value_pretty by (apply N.mod_lt; lia).
    by apply bool_decide_true.
  - assert (x = 0)%N as -> by lia. by rewrite pretty_N_go_0.
Qed.

Lemma all_digits_to_string z : (0 <= z)%Z -> all_digits (to_string z) = true.
Proof.
  intros. rewrite to_string_nonneg by done. unfold pretty, pretty_N.
  case_decide; [done | by apply all_digits_pretty_go].
Qed.

Lemma to_string_nonempty z : (0 <= z)%Z -> to_string z <> "".
Proof. intros Hz E. pose proof (dec_value_to_string z Hz) as H. by rewrite E in H. Qed.

(** On a non-empty string of decimal digits the [strtol] scan is the plain
    decimal value. *)
Lemma strto_digits s v :
  all_digits s = true -> dec_value s = Some v -> strto 10 s = Some (false, v).
Proof.
  intros Hd Hv. destruct s as [|c s]; [done|].
  assert (is_digit c = true) as Hc.
  { unfold all_digits, all_chars in Hd. simpl in Hd. by apply andb_true_iff in Hd as [? _]. }
  apply is_digit_plain in Hc as (Hsp & Hm & Hp & _).
  unfold strto. simpl. rewrite Hsp.
  assert ((match String c s with
           | String "-" r => (true, r)
           | String "+" r => (false, r)
           | _ => (false, String c s)
           end) = (false, String c s)) as ->.
  { destruct c as [[] [] [] [] [] [] [] []]; done. }
  change (detect_base 10 (String c s)) with 10%Z.
  assert (skip_prefix 10 (String c s) = String c s) as ->.
  { unfold skip_prefix. simpl. repeat case_match; simplify_eq; done. }
  unfold dec_value in Hv. by rewrite Hv.
Qed.

Lemma stoull_digits s v :
  all_digits s = true -> dec_value s = Some v -> (v < 2 ^ 64)%Z -> stoull 10 s = Ok v.
Proof.
  intros. unfold stoull, sto_unsigned. erewrite strto_digits by done.
  destruct (Z.ltb_spec v (2 ^ 64)); [done | lia].
Qed.

Lemma stoull_to_string z : in_u64 z -> stoull 10 (to_string z) = Ok z.
Proof.
  intros [??]. apply stoull_digits; [by apply all_digits_to_string | by apply dec_value_to_string | done].
Qed.

Lemma stoul_to_string z : in_u64 z -> stoul 10 (to_string z) = Ok z.
Proof.
  intros [??]. unfold stoul, sto_unsigned.
  rewrite (strto_digits _ z) by (by apply all_digits_to_string || by apply dec_value_to_string).
  destruct (Z.ltb_spec z (2 ^ 64)); [done | lia].
Qed.

Lemma sto_signed_digits fn bits s v :
  all_digits s = true -> dec_value s = Some v -> (0 <= v < 2 ^ (bits - 1))%Z ->
  sto_signed fn bits 10 s = Ok v.
Proof.
  intros. unfold sto_signed. erewrite strto_digits by done.
  destruct (Z.leb_spec (- 2 ^ (bits - 1)) v); [|lia].
  destruct (Z.ltb_spec v (2 ^ (bits - 1))); [done | lia].
Qed.

Lemma sto_signed_to_string fn bits z :
  (0 <= z < 2 ^ (bits - 1))%Z -> sto_signed fn bits 10 (to_string z) = Ok z.
Proof.
  intros. apply sto_signed_digits; [apply all_digits_to_string | apply dec_value_to_string |]; lia.
Qed.

(** *** Loops *)

(** An invariant of the body, kept when it throws as well, is one of the loop. *)
Lemma for_each_inv {S A} (P : S -> Prop) (l : list A) f s :
  (forall x s, x ∈ l -> P s -> P (f x s).2) -> P s -> P (for_each l f s).2.
Proof.
  revert s. induction l as [|x l IH]; intros s Hf Hs; [done|].
  simpl. unfold bind. pose proof (Hf x s ltac:(left) Hs) as Hx.
  destruct (f x s) as [[u|e] s1]; simpl in *; [|done].
  apply IH; [|done]. intros. apply Hf; [by right | done].
Qed.

Lemma for_each_app {S A} (l1 l2 : list A) (f : A -> M S unit) s :
  for_each (l1 ++ l2) f s = (for_each l1 f ;;; for_each l2 f) s.
Proof.
  revert s. induction l1 as [|x l IH]; intros s; [done|].
  simpl. unfold bind in *. destruct (f x s) as [[u|e] s1]; [apply IH | done].
Qed.

(** *** Lists *)

Lemma filter_all {A} (P : A -> Prop) `{forall x, Decision (P x)} l :
  Forall P l -> filter P l = l.
Proof.
  induction 1 as [|x l Hx Hl IH]; [done|]. by rewrite filter_cons_True, IH.
Qed.

Lemma filter_none {A} (P : A -> Prop) `{forall x, Decision (P x)} l :
  Forall (fun x => ~ P x) l -> filter P l = [].
Proof.
  induction 1 as [|x l Hx Hl IH]; [done|]. by rewrite filter_cons_False, IH.
Qed.

Lemma NoDup_snoc {A} (l : list A) x : NoDup l -> x ∉ l -> NoDup (l ++ [x]).
Proof.
  intros Hl Hx. apply NoDup_app. split; [done|]. split; [|apply NoDup_singleton].
  by intros y Hy ->%list_elem_of_singleton.
Qed.

(** A loop whose body always completes and keeps [I] completes and keeps [I]. *)
Lemma for_each_total {S A} (I : S -> Prop) (l : list A) (f : A -> M S unit) s :
  (forall x s, x ∈ l -> I s -> exists s', f x s = (Ok tt, s') /\ I s') -> I s ->
  exists s', for_each l f s = (Ok tt, s') /\ I s'.
Proof.
  revert s. induction l as [|x l IH]; intros s Hf Hs; [by eexists|].
  destruct (Hf x s ltac:(left) Hs) as (s1 & E & Hs1).
  destruct (IH s1) as (s2 & E2 & Hs2); [intros; apply Hf; [by right | done] | done |].
  exists s2. simpl. unfold bind. by rewrite E.
Qed.

(** The same with the effect of each turn on an abstraction of the state. *)
Lemma for_each_fold {S A T} (I : S -> Prop) (abs : S -> T) (step : T -> A -> T)
    (l : list A) (f : A -> M S unit) s :
  (forall x s, x ∈ l -> I s ->
     exists s', f x s = (Ok tt, s') /\ I s' /\ abs s' = step (abs s) x) -> I s ->
  exists s', for_each l f s = (Ok tt, s') /\ I s' /\ abs s' = foldl step (abs s) l.
Proof.
  revert s. induction l as [|x l IH]; intros s Hf Hs; [by eexists|].
  destruct (Hf x s ltac:(left) Hs) as (s1 & E & Hs1 & Ha).
  destruct (IH s1) as (s2 & E2 & Hs2 & Ha2); [intros; apply Hf; [by right | done] | done |].
  exists s2. simpl. unfold bind. rewrite E, <- Ha. done.
Qed.

(** *** Prefixes of strings *)

Lemma prefix_spec p k : String.prefix p k = true <-> exists n, k = p +:+ n.
Proof.
  revert k. induction p as [|c p IH]; intros k.
  { split; [by exists k | by destruct k]. }
  destruct k as [|d k]; simpl.
  { split; [done|]. intros [n Hn]. by rewrite app_cons_str in Hn. }
  destruct (Ascii.ascii_dec c d) as [->|Hne].
  - rewrite IH. setoid_rewrite app_cons_str. naive_solver.
  - split; [done|]. intros [n Hn]. rewrite app_cons_str in Hn. congruence.
Qed.

Lemma substring_all s : String.substring 0 (String.length s) s = s.
Proof. induction s as [|c s IH]; simpl; by rewrite ?IH. Qed.

Lemma substring_app p n :
  String.substring (String.length p) (String.length (p +:+ n) - String.length p) (p +:+ n) = n.
Proof.
  induction p as [|c p IH]; [|rewrite app_cons_str; exact IH].
  change ("" +:+ n) with n. simpl. rewrite Nat.sub_0_r. apply substring_all.
Qed.

(** *** Runs that return *)

Lemma bind_Ok {S A B} (m : M S A) (f : A -> M S B) s b s' :
  bind m f s = (Ok b, s') -> exists a s1, m s = (Ok a, s1) /\ f a s1 = (Ok b, s').
Proof. unfold bind. destruct (m s) as [[a|e] s1]; [eauto | done]. Qed.

Lemma bind_run {S A B} (m : M S A) (f : A -> M S B) s a s1 :
  m s = (Ok a, s1) -> bind m f s = f a s1.
Proof. unfold bind. by intros ->. Qed.

Lemma bind_assoc {S A B C} (m : M S A) (f : A -> M S B) (g : B -> M S C) s :
  bind (bind m f) g s = bind m (fun a => bind (f a) g) s.
Proof. unfold bind. by destruct (m s) as [[a|e] s1]. Qed.

Lemma bind_modify {S B} (g : S -> S) (k : unit -> M S B) s : bind (modify g) k s = k tt (g s).
Proof. done. Qed.

Lemma bind_gets {S A B} (g : S -> A) (k : A -> M S B) s : bind (gets g) k s = k (g s) s.
Proof. done. Qed.

Lemma bind_ret {S A B} (a : A) (k : A -> M S B) s : bind (ret a) k s = k a s.
Proof. done. Qed.

Lemma for_fold_inv {S A B} (I : S -> Prop) (P : B -> Prop) (f : B -> A -> M S B) l acc s r s' :
  (forall acc x s r s', x ∈ l -> I s -> P acc -> f acc x s = (Ok r, s') -> I s' /\ P r) ->
  I s -> P acc -> for_fold l acc f s = (Ok r, s') -> I s' /\ P r.
Proof.
  revert acc s. induction l as [|x l IH]; intros acc s Hf Hs Hacc; simpl.
  { by intros [= <- <-]. }
  intros (a & s1 & E & H)%bind_Ok. destruct (Hf acc x s a s1) as [H1 H2]; [by left|done..|].
  apply (IH a s1); [|done..]. intros. eapply Hf; [by right|done..].
Qed.

(** Decompose a returning run [H : bind m f s = (Ok b, s')] step by step. *)
Tactic Notation "run_step" hyp(H) "as" ident(a) ident(s) ident(E) :=
  apply bind_Ok in H as (a & s & E & H).

(** A computation that only reads: it leaves the state as it was. *)
Ltac run_pure E := unfold ret, gets, of_result in E; simplify_eq/=.

(** *** Total computations *)

(** From every state that satisfies [P], [m] returns and the state it leaves
    satisfies [P] again. *)
Definition safe {S A} (P : S -> Prop) (m : M S A) : Prop :=
  forall s, P s -> exists a s', m s = (Ok a, s') /\ P s'.

Create HintDb safe.

Section Safe.
Context {S : Type} (P : S -> Prop).

Lemma safe_ret {A} (a : A) : safe P (ret a).
Proof. intros s Hs. by exists a, s. Qed.

Lemma safe_gets {A} (f : S -> A) : safe P (gets f).
Proof. intros s Hs. by exists (f s), s. Qed.

Lemma safe_modify (f : S -> S) : (forall s, P s -> P (f s)) -> safe P (modify f).
Proof. intros Hf s Hs. exists tt, (f s). auto. Qed.

Lemma safe_bind {A B} (m : M S A) (k : A -> M S B) :
  safe P m -> (forall a, safe P (k a)) -> safe P (bind m k).
Proof.
  intros Hm Hk s Hs. destruct (Hm s Hs) as (a & s1 & E & H1).
  rewrite (bind_run _ _ _ _ _ E). by apply Hk.
Qed.

Lemma safe_for_each {A} (l : list A) (f : A -> M S unit) :
  (forall x, safe P (f x)) -> safe P (for_each l f).
Proof.
  intros Hf. induction l as [|x l IH]; simpl; [apply safe_ret | by apply safe_bind].
Qed.

Lemma safe_if {A} (b : bool) (m1 m2 : M S A) :
  safe P m1 -> safe P m2 -> safe P (if b then m1 else m2).
Proof. by destruct b. Qed.
End Safe.
#[export] Hint Resolve safe_ret safe_gets safe_modify safe_bind safe_for_each safe_if : safe.

(** *** What holds when a computation returns *)

(** Every state [m] returns in satisfies [Q]. *)
Definition post {S A} (m : M S A) (Q : A -> S -> Prop) (s : S) : Prop :=
  match m s with (Ok a, s') => Q a s' | (Throw _, _) => True end.

Section Post.
Context {S : Type}.

Lemma post_bind {A B} (m : M S A) (k : A -> M S B) Q s :
  post m (fun a => post (k a) Q) s -> post (bind m k) Q s.
Proof. unfold post, bind. by destruct (m s) as [[a|e] s1]. Qed.

Lemma post_ret {A} (a : A) (Q : A -> S -> Prop) s : Q a s -> post (ret a) Q s.
Proof. done. Qed.

Lemma post_gets {A} (f : S -> A) (Q : A -> S -> Prop) s : Q (f s) s -> post (gets f) Q s.
Proof. done. Qed.

Lemma post_modify (f : S -> S) (Q : unit -> S -> Prop) s : Q tt (f s) -> post (modify f) Q s.
Proof. done. Qed.

Lemma post_mono {A} (m : M S A) (Q Q' : A -> S -> Prop) s :
  post m Q s -> (forall a s', Q a s' -> Q' a s') -> post m Q' s.
Proof. unfold post. intros H HQ. destruct (m s) as [[a|e] s1]; auto. Qed.

Lemma post_for_each {A} (I : S -> Prop) (l : list A) (f : A -> M S unit) s :
  (forall x s, I s -> post (f x) (fun _ => I) s) -> I s -> post (for_each l f) (fun _ => I) s.
Proof.
  intros Hf. revert s. induction l as [|x l IH]; intros s Hs; [done|].
  apply post_bind. eapply post_mono; [by apply Hf|]. intros ? s' Hs'. by apply IH.
Qed.

Lemma post_Ok {A} (m : M S A) (Q : A -> S -> Prop) s a s' :
  post m Q s -> m s = (Ok a, s') -> Q a s'.
Proof. unfold post. by intros H E; rewrite E in H. Qed.

Lemma post_intro {A} (m : M S A) (Q : A -> S -> Prop) s :
  (forall a s', m s = (Ok a, s') -> Q a s') -> post m Q s.
Proof. unfold post. intros H. destruct (m s) as [[a|e] s1]; auto. Qed.
End Post.
