(* ===== verification/Boost.v ===== *)
(** * The Boost string algorithms osquery calls

    Boost is a third-party library, so its functions are parameters of the
    model: the class [Boost] holds them, [BoostLaws] states the documented
    behaviour the code relies on, and [boost_exec] is a concrete instance used
    to evaluate the model. *)
From S2P Require Import Prelude.

Class Boost := {
  (** [boost::split(out, s, p)], tokens not compressed. *)
  boost_split : (ascii -> bool) -> string -> list string;
  (** [boost::algorithm::trim(s)] in the classic locale. *)
  boost_trim : string -> string;
  (** [boost::algorithm::join(l, sep)]. *)
  boost_join : list string -> string -> string;
  (** [boost::lexical_cast<size_t>(s)]; [None] is [bad_lexical_cast]. *)
  lexical_cast_size : string -> option Z;
  (** [boost::replace_all(s, from, to)]. *)
  boost_replace_all : string -> string -> string -> string;
  (** [boost::starts_with(s, prefix)], [boost::ends_with(s, suffix)]. *)
  boost_starts_with : string -> string -> bool;
  boost_ends_with : string -> string -> bool;
}.

(** [boost::algorithm::unhex(s)]; [None] is [hex_decode_error]. *)
Class BoostHex := { unhex : string -> option string }.

(** Two digits make a byte; anything else is an error. *)
Class BoostHexLaws (H : BoostHex) := {
  unhex_nil : unhex "" = Some "";
  unhex_pair : forall h l x y s, digit_value 16 h = Some x -> digit_value 16 l = Some y ->
    unhex (String h (String l s)) =
    String (Ascii.ascii_of_nat (Z.to_nat (16 * x + y))) <$> unhex s;
  unhex_bad : forall h s, digit_value 16 h = None -> unhex (String h s) = None;
  unhex_bad_second : forall h l s, digit_value 16 l = None -> unhex (String h (String l s)) = None;
  unhex_odd : forall h, unhex (String h "") = None;
}.

(** A string with no white space at either end. *)
Definition trimmed (s : string) : Prop :=
  (forall c r, s = String c r -> Ascii.is_space c = false) /\
  (forall r c, s = r +:+ String c "" -> Ascii.is_space c = false).

Class BoostLaws (B : Boost) := {
  split_no_delim p s : all_chars (negb ∘ p) s = true -> boost_split p s = [s];
  split_delim p a c b : all_chars (negb ∘ p) a = true -> p c = true ->
    boost_split p (a +:+ String c b) = a :: boost_split p b;
  trim_spec l s r : all_chars Ascii.is_space l = true -> all_chars Ascii.is_space r = true ->
    trimmed s -> boost_trim (l +:+ s +:+ r) = s;
  join_nil d : boost_join [] d = "";
  join_one a d : boost_join [a] d = a;
  join_cons a b l d : boost_join (a :: b :: l) d = a +:+ d +:+ boost_join (b :: l) d;
  lexical_cast_digits s v : all_digits s = true -> dec_value s = Some v ->
    lexical_cast_size s = if (v <? 2 ^ 64)%Z then Some v else None;
  starts_with_spec s p : boost_starts_with s p = true <-> exists t, s = p +:+ t;
  ends_with_spec s p : boost_ends_with s p = true <-> exists t, s = t +:+ p;
}.

(** [boost::is_any_of(set)]. *)
Definition is_any_of (set : string) (c : ascii) : bool :=
  bool_decide (c ∈ chars set).

(** ** A concrete instance *)

Fixpoint exec_split (p : ascii -> bool) (cur : list ascii) (s : string) : list string :=
  match s with
  | EmptyString => [of_chars (rev cur)]
  | String c r => if p c then of_chars (rev cur) :: exec_split p [] r
                  else exec_split p (c :: cur) r
  end.

Fixpoint drop_space (l : list ascii) : list ascii :=
  match l with
  | c :: r => if Ascii.is_space c then drop_space r else l
  | [] => []
  end.

Definition exec_trim (s : string) : string :=
  of_chars (rev (drop_space (rev (drop_space (chars s))))).

Fixpoint exec_join (l : list string) (d : string) : string :=
  match l with
  | [] => ""
  | [a] => a
  | a :: l => a +:+ d +:+ exec_join l d
  end.

Definition exec_lexical_cast (s : string) : option Z :=
  if all_digits s then
    match dec_value s with
    | Some v => if (v <? 2 ^ 64)%Z then Some v else None
    | None => None
    end
  else None.

Fixpoint exec_replace (fuel : nat) (from to : list ascii) (s : list ascii) : list ascii :=
  match fuel with
  | O => s
  | S fuel =>
      match s with
      | [] => []
      | c :: r =>
          if bool_decide (take (length from) s = from) && negb (bool_decide (from = []))
          then to ++ exec_replace fuel from to (drop (length from) s)
          else c :: exec_replace fuel from to r
      end
  end.

#[export] Instance boost_exec : Boost := {
  boost_split p s := exec_split p [] s;
  boost_trim := exec_trim;
  boost_join := exec_join;
  lexical_cast_size := exec_lexical_cast;
  boost_replace_all s from to :=
    of_chars (exec_replace (S (String.length s)) (chars from) (chars to) (chars s));
  boost_starts_with s p := bool_decide (take (String.length p) (chars s) = chars p);
  boost_ends_with s p :=
    bool_decide (take (String.length p) (rev (chars s)) = rev (chars p));
}.

(** ** Lemmas *)

Lemma length_chars s : length (chars s) = String.length s.
Proof. induction s as [|c s IH]; simpl; [done | by rewrite IH]. Qed.

Lemma chars_of_chars l : chars (of_chars l) = l.
Proof. apply String.list_ascii_of_string_of_list_ascii. Qed.

Lemma of_chars_chars s : of_chars (chars s) = s.
Proof. apply String.string_of_list_ascii_of_string. Qed.

Lemma exec_split_no_delim p s cur : all_chars (negb ∘ p) s = true ->
  exec_split p cur s = [of_chars (rev cur ++ chars s)].
Proof.
  revert cur. induction s as [|c s IH]; intros cur H; simpl.
  - by rewrite app_nil_r.
  - unfold all_chars in H. simpl in H. apply andb_true_iff in H as [Hc H].
    apply negb_true_iff in Hc. rewrite Hc, IH by done. simpl. by rewrite <- app_assoc.
Qed.

Lemma exec_split_delim p a c b cur : all_chars (negb ∘ p) a = true -> p c = true ->
  exec_split p cur (a +:+ String c b)
  = of_chars (rev cur ++ chars a) :: exec_split p [] b.
Proof.
  revert cur. induction a as [|x a IH]; intros cur H Hc.
  - simpl. change ("" +:+ String c b) with (String c b). simpl.
    by rewrite Hc, app_nil_r.
  - rewrite app_cons_str. simpl. unfold all_chars in H. simpl in H.
    apply andb_true_iff in H as [Hx H]. apply negb_true_iff in Hx.
    rewrite Hx, IH by done. simpl. by rewrite <- app_assoc.
Qed.

Lemma drop_space_app l s : forallb Ascii.is_space l = true ->
  drop_space (l ++ s) = drop_space s.
Proof.
  induction l as [|c l IH]; simpl; [done|].
  intros [Hc H]%andb_true_iff. rewrite Hc. auto.
Qed.

Lemma drop_space_id l : (forall c r, l = c :: r -> Ascii.is_space c = false) ->
  drop_space l = l.
Proof. destruct l as [|c r]; simpl; [done|]. intros H. by rewrite (H c r). Qed.

Lemma forallb_rev {A} (p : A -> bool) l : forallb p (rev l) = forallb p l.
Proof.
  induction l as [|x l IH]; simpl; [done|].
  rewrite forallb_app, IH. simpl. by rewrite andb_true_r, andb_comm.
Qed.

Lemma exec_trim_spec l s r :
  all_chars Ascii.is_space l = true -> all_chars Ascii.is_space r = true ->
  trimmed s -> exec_trim (l +:+ s +:+ r) = s.
Proof.
  intros Hl Hr [H1 H2]. unfold exec_trim. rewrite !chars_app, drop_space_app by done.
  destruct s as [|c s].
  - simpl. rewrite <- (app_nil_r (chars r)), drop_space_app by done. done.
  - rewrite (drop_space_id (chars (String c s) ++ chars r)).
    2:{ intros ? ? [= <- <-]. by apply (H1 c s). }
    rewrite rev_app_distr, drop_space_app by (unfold all_chars in Hr; by rewrite forallb_rev).
    rewrite drop_space_id.
    { by rewrite rev_involutive, of_chars_chars. }
    intros c0 r0 E. apply (H2 (of_chars (rev r0)) c0).
    apply chars_inj. rewrite chars_app, chars_of_chars.
    apply (f_equal (@rev _)) in E. rewrite rev_involutive in E. by rewrite E.
Qed.

Lemma take_prefix_iff (l p : list ascii) :
  take (length p) l = p <-> exists t, l = p ++ t.
Proof.
  split.
  - intros H. exists (drop (length p) l). rewrite <- H at 1. symmetry. apply take_drop.
  - intros [t ->]. by rewrite take_app_length.
Qed.

#[export] Instance boost_exec_laws : BoostLaws boost_exec.
Proof.
  split; simpl.
  - intros p s H. rewrite exec_split_no_delim by done. simpl. by rewrite of_chars_chars.
  - intros p a c b H Hc. rewrite exec_split_delim by done. simpl. by rewrite of_chars_chars.
  - apply exec_trim_spec.
  - done.
  - done.
  - done.
  - intros s v Hd Hv. unfold exec_lexical_cast. by rewrite Hd, Hv.
  - intros s p. rewrite bool_decide_eq_true, <- length_chars, take_prefix_iff. split.
    + intros [t H]. exists (of_chars t). apply chars_inj. by rewrite chars_app, chars_of_chars.
    + intros [t ->]. exists (chars t). apply chars_app.
  - intros s p. rewrite bool_decide_eq_true, <- length_chars, <- length_rev, take_prefix_iff.
    split.
    + intros [t H]. exists (of_chars (rev t)). apply chars_inj.
      rewrite chars_app, chars_of_chars. apply (f_equal (@rev _)) in H.
      by rewrite rev_involutive, rev_app_distr, rev_involutive in H.
    + intros [t ->]. exists (rev (chars t)). by rewrite chars_app, rev_app_distr.
Qed.

Section BoostFacts.
Context {B : Boost} {BL : BoostLaws B}.

Lemma lexical_cast_to_string z : in_u64 z -> lexical_cast_size (to_string z) = Some z.
Proof.
  intros [Hz1 Hz2].
  rewrite (lexical_cast_digits _ z)
    by (by apply all_digits_to_string || by apply dec_value_to_string).
  destruct (Z.ltb_spec z (2 ^ 64)); [done | lia].
Qed.

Lemma trim_id s : trimmed s -> boost_trim s = s.
Proof.
  intros H. pose proof (trim_spec "" s "" eq_refl eq_refl H) as E.
  by rewrite app_nil_r_str in E.
Qed.

(** Splitting at a character undoes joining with it, on tokens that do not
    contain it. *)
Lemma split_join d l :
  l <> [] -> Forall (fun s => all_chars (negb ∘ is_any_of (String d "")) s = true) l ->
  boost_split (is_any_of (String d "")) (boost_join l (String d "")) = l.
Proof.
  intros Hne Hl. induction Hl as [|a l Ha Hl IH]; [done|].
  destruct l as [|b l].
  - rewrite join_one. by apply split_no_delim.
  - rewrite join_cons. change (String d "" +:+ boost_join (b :: l) (String d ""))
      with (String d (boost_join (b :: l) (String d ""))).
    rewrite split_delim.
    + f_equal. by apply IH.
    + done.
    + apply bool_decide_true. simpl. set_solver.
Qed.
End BoostFacts.

(** ** A concrete [unhex] *)

Fixpoint exec_unhex (s : string) : option string :=
  match s with
  | EmptyString => Some ""
  | String h (String l s) =>
      match digit_value 16 h, digit_value 16 l with
      | Some x, Some y =>
          String (Ascii.ascii_of_nat (Z.to_nat (16 * x + y))) <$> exec_unhex s
      | _, _ => None
      end
  | String _ EmptyString => None
  end.

#[export] Instance boost_hex_exec : BoostHex := { unhex := exec_unhex }.

#[export] Instance boost_hex_exec_laws : BoostHexLaws boost_hex_exec.
Proof.
  split; cbn [unhex boost_hex_exec exec_unhex]; try done.
  - by intros h l x y s -> ->.
  - intros h [|l s] E; cbn; by rewrite ?E.
  - intros h l s E. by destruct (digit_value 16 h); rewrite ?E.
Qed.
