(* ===== verification/Conversions.v ===== *)
(** * String conversions (osquery/core/conversions.h, osquery/core/conversions.cpp)

    [split] in its two forms, [isPrintable], the UTF-8 length, the [tryTo]
    family from strings to integers and booleans, and [unescapeUnicode]. *)
From S2P Require Import Prelude Boost.

(** ** Definitions *)

Section Split.
Context {B : Boost}.

(** [split(s, delim)]: every character of [delim] separates; empty tokens are
    dropped before, not after, the tokens are trimmed. *)
Definition split (s delim : string) : list string :=
  boost_trim <$> filter (fun t => is_empty t = false) (boost_split (is_any_of delim) s).

(** [split(s, delim, occurences)]. *)
Definition split_occurences (s : string) (delim : ascii) (occurences : nat) : list string :=
  let delims := String delim "" in
  let content := split s delims in
  let elems := take occurences content in
  let accumulator := drop occurences content in
  if (0 <? length accumulator)%nat
  then elems ++ [boost_join accumulator delims]
  else elems.
End Split.

Definition isPrintable (check : string) : bool :=
  all_chars (fun ch => let n := Ascii.nat_of_ascii ch in
                       negb ((127 <=? n)%nat || (n <=? 31)%nat)) check.

(** *** UTF-8 *)

Definition byte_of (c : ascii) : Z := Z.of_nat (Ascii.nat_of_ascii c).

(** The loop condition of [incUtf8StringIterator]: a byte that starts a new
    character. *)
Definition utf8_break (c : ascii) : bool :=
  (Z.land (byte_of c) 0x80 =? 0)%Z || (Z.land (byte_of c) 0xC0 =? 0xC0)%Z.

Fixpoint utf8_skip (l : list ascii) (res : nat) : list ascii * nat :=
  match l with
  | [] => ([], res)
  | c :: r => if utf8_break c then (l, res) else utf8_skip r (S res)
  end.

(** The iterator moved past one character, and the number of bytes passed. *)
Definition incUtf8StringIterator (l : list ascii) : list ascii * nat :=
  match l with
  | [] => ([], 0%nat)
  | _ :: r => utf8_skip r 1
  end.

Fixpoint utf8_loop (fuel : nat) (l : list ascii) (res : nat) : option nat :=
  match l, fuel with
  | [], _ => Some res
  | _ :: _, O => None
  | _ :: _, S fuel => utf8_loop fuel (incUtf8StringIterator l).1 (S res)
  end.

Definition utf8StringSize (str : string) : option nat :=
  utf8_loop (String.length str) (chars str) 0.

(** *** [tryTo] *)

Inductive ConversionError := CE_InvalidArgument | CE_OutOfRange | CE_Unknown.

(** [Expected<T, ConversionError>]. *)
Definition Expected (T : Type) : Type := T + ConversionError.

Definition takeOr {T} (e : Expected T) (d : T) : T :=
  match e with inl v => v | inr _ => d end.

(** The integer types [throwingStringToInt] is instantiated for (LP64). *)
Inductive IntType := TInt | TLong | TLongLong | TUInt | TULong | TULongLong.

Definition throwingStringToInt (T : IntType) (base : Z) (from : string) : result Z :=
  match T with
  | TInt => stoi base from
  | TLong => stol base from
  | TLongLong => stoll base from
  | TUInt => match stoul base from with Ok v => Ok (u32 v) | Throw e => Throw e end
  | TULong => stoul base from
  | TULongLong => stoull base from
  end.

Definition tryTo (T : IntType) (from : string) (base : Z) : Expected Z :=
  match throwingStringToInt T base from with
  | Ok v => inl v
  | Throw (InvalidArgument _) => inr CE_InvalidArgument
  | Throw (OutOfRange _) => inr CE_OutOfRange
  | Throw _ => inr CE_Unknown
  end.

Definition bool_table : list (string * bool) :=
  [("1", true); ("0", false); ("y", true); ("yes", true); ("n", false); ("no", false);
   ("t", true); ("true", true); ("f", false); ("false", false); ("ok", true);
   ("disable", false); ("enable", true)].

Definition stringToBool (from : string) : Expected bool :=
  match (list_to_map bool_table : gmap string bool) !! lower from with
  | Some b => inl b
  | None => inr CE_InvalidArgument
  end.

(** *** [unescapeUnicode] *)

(** The loop on the suffix still to be read; [None] is the early [return ""]. *)
Fixpoint unescape_loop (l : list ascii) : option (list ascii) :=
  match l with
  | [] => Some []
  | c0 :: r0 =>
      let plain := cons c0 <$> unescape_loop r0 in
      match l with
      | "\"%char :: "u"%char :: h1 :: h2 :: h3 :: h4 :: rest =>
          match tryTo TLong (of_chars [h1; h2; h3; h4]) 16 with
          | inr _ => None
          | inl value =>
              if (value <? 255)%Z
              then cons (Ascii.ascii_of_nat (Z.to_nat (value mod 256))) <$> unescape_loop rest
              else plain
          end
      | "\"%char :: "\"%char :: rest =>
          (fun t => "\"%char :: "\"%char :: t) <$> unescape_loop rest
      | _ => plain
      end
  end.

Definition unescapeUnicode (escaped : string) : string :=
  if (String.length escaped <? 6)%nat then escaped
  else match unescape_loop (chars escaped) with
       | None => ""
       | Some l => of_chars l
       end.

(** The repository's unit tests, evaluated on the model. *)
Example test_split_occurences :
  split_occurences "T: 'S:S'" ":" 1 = ["T"; "'S:S'"].
Proof. vm_compute. reflexivity. Qed.

Example test_unicode_unescape :
  unescapeUnicode <$> ["\u0025hi"; "hi\u0025"; "\uFFFFhi"; "0000\u"; "hi";
                       "c:\\users\\obelisk\\file.txt"; "Edge case test\";
                       "Edge case test two\\"]
  = ["%hi"; "hi%"; "\uFFFFhi"; "0000\u"; "hi"; "c:\\users\\obelisk\\file.txt";
     "Edge case test\"; "Edge case test two\\"].
Proof. vm_compute. reflexivity. Qed.

Example test_tryTo :
  (tryTo TUInt "0xfb" 16, tryTo TUInt "E1bC2" 16, tryTo TInt "-7A" 16,
   tryTo TInt "--14779" 10, tryTo TInt "- 3" 10)
  = (inl 251%Z, inl 924610%Z, inl (-122)%Z, inr CE_InvalidArgument, inr CE_InvalidArgument).
Proof. vm_compute. reflexivity. Qed.

(** ** Lemmas *)

(** The values each integer type holds. *)
Definition int_range (T : IntType) (z : Z) : Prop :=
  match T with
  | TInt => (- 2 ^ 31 <= z < 2 ^ 31)%Z
  | TLong | TLongLong => (- 2 ^ 63 <= z < 2 ^ 63)%Z
  | TUInt => (0 <= z < 2 ^ 32)%Z
  | TULong | TULongLong => in_u64 z
  end.

Lemma strto_to_string z : strto 10 (to_string z) = Some ((z <? 0)%Z, Z.abs z).
Proof.
  destruct (Z.ltb_spec z 0) as [Hz|Hz].
  - assert (to_string z = String "-" (to_string (- z))) as ->.
    { unfold to_string. destruct z as [|p|p]; [lia | lia | done]. }
    pose proof (all_digits_to_string (- z) ltac:(lia)) as Hd.
    pose proof (dec_value_to_string (- z) ltac:(lia)) as Hv.
    pose proof (to_string_nonempty (- z) ltac:(lia)) as Hne.
    unfold strto. simpl. set (t := to_string (- z)) in *. change (detect_base 10 t) with 10%Z.
    assert (skip_prefix 10 t = t) as ->.
    { unfold skip_prefix. simpl. repeat case_match; done. }
    unfold dec_value in Hv. rewrite Hv. do 2 f_equal. lia.
  - rewrite (strto_digits _ z) by (apply all_digits_to_string || apply dec_value_to_string; lia).
    do 2 f_equal. lia.
Qed.

Lemma sto_signed_print fn bits z : (0 < bits)%Z ->
  (- 2 ^ (bits - 1) <= z < 2 ^ (bits - 1))%Z -> sto_signed fn bits 10 (to_string z) = Ok z.
Proof.
  intros Hb Hz. unfold sto_signed. rewrite strto_to_string.
  replace (if (z <? 0)%Z then (- Z.abs z)%Z else Z.abs z) with z
    by (destruct (Z.ltb_spec z 0); lia).
  destruct (Z.leb_spec (- 2 ^ (bits - 1)) z); [|lia].
  destruct (Z.ltb_spec z (2 ^ (bits - 1))); [done|lia].
Qed.

Lemma tryTo_to_string T z : int_range T z -> tryTo T (to_string z) 10 = inl z.
Proof.
  intros H. unfold tryTo, throwingStringToInt.
  destruct T; simpl in H; unfold stoi, stol, stoll.
  - by rewrite sto_signed_print.
  - by rewrite sto_signed_print.
  - by rewrite sto_signed_print.
  - rewrite stoul_to_string by (unfold in_u64; lia). unfold u32. by rewrite Z.mod_small.
  - by rewrite stoul_to_string.
  - by rewrite stoull_to_string.
Qed.

(** A continuation byte of UTF-8, [10xxxxxx]. *)
Definition utf8_continuation (c : ascii) : bool :=
  (Z.land (byte_of c) 0xC0 =? 0x80)%Z.

Lemma utf8_break_continuation c : utf8_break c = negb (utf8_continuation c).
Proof. destruct c as [[] [] [] [] [] [] [] []]; by vm_compute. Qed.

Lemma utf8_skip_spec l n :
  length (utf8_skip l n).1 <= length l /\
  length (filter (fun c => utf8_break c = true) (utf8_skip l n).1)
  = length (filter (fun c => utf8_break c = true) l) /\
  (forall c r, (utf8_skip l n).1 = c :: r -> utf8_break c = true).
Proof.
  revert n. induction l as [|c l IH]; intros n; simpl; [done|].
  destruct (utf8_break c) eqn:E; simpl.
  - split; [lia|]. split; [done|]. by intros ? ? [= <- <-].
  - destruct (IH (S n)) as (H1 & H2 & H3). split; [lia|]. split; [|done].
    rewrite H2. by rewrite filter_cons_False by congruence.
Qed.

Lemma utf8_loop_spec fuel l res :
  length l <= fuel -> (forall c r, l = c :: r -> utf8_break c = true) ->
  utf8_loop fuel l res = Some (res + length (filter (fun c => utf8_break c = true) l)).
Proof.
  revert l res. induction fuel as [|fuel IH]; intros [|c l] res Hl Hb; simpl in *;
    try (f_equal; lia).
  destruct (utf8_skip_spec l 1) as (H1 & H2 & H3).
  rewrite IH by (done || lia).
  rewrite (filter_cons_True _ c l) by (by apply (Hb c l)). simpl. rewrite H2. f_equal. lia.
Qed.

Lemma digits_value_nonneg base seen acc s v : (0 <= base)%Z -> (0 <= acc)%Z ->
  digits_value base seen acc s = Some v -> (0 <= v)%Z.
Proof.
  intros Hb. revert seen acc. induction s as [|c s IH]; intros seen acc Ha; simpl.
  { by destruct seen; [intros [= <-]|]. }
  destruct (digit_value base c) as [d|] eqn:E; [|by destruct seen; [intros [= <-]|]].
  apply IH. assert (0 <= d)%Z; [|nia]. revert E. unfold digit_value. clear.
  generalize (Ascii.nat_of_ascii c). intros n.
  repeat match goal with |- context [if (?x && ?y)%bool then _ else _] => destruct (x && y)%bool eqn:? end;
    repeat match goal with H : (_ && _)%bool = true |- _ => apply andb_true_iff in H as [?%Z.leb_le ?%Z.leb_le] end;
    try (destruct (_ <? base)%Z; intros [= <-]; lia); done.
Qed.

Lemma detect_base_nonneg base s : (0 <= base)%Z -> (0 <= detect_base base s)%Z.
Proof. unfold detect_base. intros. repeat case_match; lia. Qed.

(** [tryTo] never returns a value its type cannot hold. *)
Lemma tryTo_range T s base v : (0 <= base)%Z -> tryTo T s base = inl v -> int_range T v.
Proof.
  intros Hb. unfold tryTo, throwingStringToInt, stoi, stol, stoll, stoul, stoull.
  assert (forall fn bits r, sto_signed fn bits base s = Ok r ->
    (- 2 ^ (bits - 1) <= r < 2 ^ (bits - 1))%Z) as Hs.
  { intros fn bits r. unfold sto_signed. destruct (strto base s) as [[neg m]|]; [|done].
    destruct (_ && _) eqn:E; [|done]. intros [= <-].
    apply andb_true_iff in E as [?%Z.leb_le ?%Z.ltb_lt]. done. }
  assert (forall fn r, sto_unsigned fn base s = Ok r -> in_u64 r) as Hu.
  { intros fn r. unfold sto_unsigned, strto.
    destruct (match skip_space s with String _ _ => _ | _ => _ end) as [neg s'].
    destruct (digits_value _ _ _ _) as [m|] eqn:E; [|done].
    apply digits_value_nonneg in E; [|by apply detect_base_nonneg | done].
    destruct (Z.ltb_spec m (2 ^ 64)); [|done]. intros [= <-].
    destruct neg; [apply u64_range | unfold in_u64; lia]. }
  unfold int_range. destruct T.
  1-3: destruct (sto_signed _ _ base s) as [r|[]] eqn:E; try done; intros [= <-]; by apply Hs in E.
  - destruct (sto_unsigned _ base s) as [r|[]] eqn:E; try done. intros [= <-].
    unfold u32. apply Z.mod_pos_bound. lia.
  - destruct (sto_unsigned _ base s) as [r|[]] eqn:E; try done. intros [= <-]. by apply Hu in E.
  - destruct (sto_unsigned _ base s) as [r|[]] eqn:E; try done. intros [= <-]. by apply Hu in E.
Qed.

Section SplitFacts.
Context {B : Boost} {BL : BoostLaws B}.

(** Tokens [split] gives back unchanged. *)
Definition token (d : ascii) (s : string) : Prop :=
  s <> "" /\ trimmed s /\ all_chars (negb ∘ is_any_of (String d "")) s = true.

(** A text of digits is a token for any separator that is not a digit. *)
Lemma token_digits d s : is_digit d = false -> all_digits s = true -> s <> "" -> token d s.
Proof.
  intros Hd Ha Hne. split; [done|]. unfold all_digits, all_chars in *. split.
  - split; intros a b E; rewrite E in Ha; rewrite ?chars_app, ?forallb_app in Ha; simpl in Ha.
    + apply andb_true_iff in Ha as [Hc _]. by apply is_digit_plain.
    + apply andb_true_iff in Ha as [_ Hc]. rewrite andb_true_r in Hc. by apply is_digit_plain.
  - apply forallb_forall. intros c Hc. rewrite forallb_forall in Ha. specialize (Ha c Hc).
    simpl. unfold is_any_of. rewrite bool_decide_false; [done|]. simpl.
    intros ->%list_elem_of_singleton. congruence.
Qed.

Lemma token_to_string d z : is_digit d = false -> (0 <= z)%Z -> token d (to_string z).
Proof.
  intros Hd Hz. apply token_digits; [done | by apply all_digits_to_string | by apply to_string_nonempty].
Qed.

(** Trimmed texts with anything between them are trimmed. *)
Lemma trimmed_app a m b : trimmed a -> trimmed b -> a <> "" -> b <> "" -> trimmed (a +:+ m +:+ b).
Proof.
  intros [Ha _] [_ Hb] Hna Hnb. split.
  - intros c r E. destruct a as [|c' a]; [done|]. rewrite app_cons_str in E. simplify_eq.
    by eapply Ha.
  - intros r c E. assert (exists b' d, b = b' +:+ String d "") as (b' & d & ->).
    { destruct (exists_last (l := chars b)) as (l & d & El); [by destruct b|].
      exists (of_chars l), d. apply chars_inj. by rewrite chars_app, chars_of_chars. }
    apply (f_equal chars) in E. rewrite !chars_app, !app_assoc in E. simpl in E.
    apply app_inj_tail in E as [_ ->]. by eapply Hb.
Qed.

Lemma token_app d a m b : token d a -> token d b ->
  all_chars (negb ∘ is_any_of (String d "")) m = true -> token d (a +:+ m +:+ b).
Proof.
  intros (Na & Ta & Ca) (Nb & Tb & Cb) Cm. split; [by destruct a|].
  split; [by apply trimmed_app|]. by rewrite !all_chars_app, Ca, Cm, Cb.
Qed.

(** Joining one more token. *)
Lemma join_snoc (l : list string) x d : l <> [] ->
  boost_join (l ++ [x]) d = boost_join l d +:+ d +:+ x.
Proof.
  induction l as [|a [|b l] IH]; intros Hne; [done| |].
  - simpl. by rewrite join_cons, !join_one.
  - rewrite !join_cons. cbn [app] in IH |- *. rewrite join_cons, IH by done.
    by rewrite !app_assoc_str.
Qed.

Lemma split_join_tokens d l :
  Forall (token d) l -> split (boost_join l (String d "")) (String d "") = l.
Proof.
  intros Hl. unfold split. destruct l as [|a l].
  { rewrite join_nil, split_no_delim by done. done. }
  rewrite split_join.
  - rewrite filter_all.
    + rewrite <- (list_fmap_id (a :: l)) at 2. apply list_fmap_ext.
      intros i x Hx. apply (Forall_lookup_1 _ _ _ _ Hl) in Hx as (_ & Ht & _).
      by apply trim_id.
    + eapply Forall_impl; [exact Hl|]. intros x (Hne & _). by destruct x.
  - done.
  - eapply Forall_impl; [exact Hl|]. by intros x (_ & _ & ?).
Qed.
End SplitFacts.

(** ** Properties *)

(** Integer conversions are exact: the decimal text of every value a type
    holds converts back to that value, and whatever [tryTo] accepts, in any
    base, is a value the type holds. *)
Theorem integer_conversion_exact T :
  (forall z, int_range T z -> tryTo T (to_string z) 10 = inl z) /\
  (forall s base v, (0 <= base)%Z -> tryTo T s base = inl v -> int_range T v).
Proof. split; [apply tryTo_to_string | intros s base v; apply tryTo_range]. Qed.

(** The conversion to [unsigned int] goes through [std::stoul] and keeps only 32
    bits: a text out of range is accepted with another value. *)
Theorem unsigned_conversion_truncates z : (2 ^ 32 <= z < 2 ^ 64)%Z ->
  tryTo TUInt (to_string z) 10 = inl (z mod 2 ^ 32)%Z.
Proof.
  intros Hz. unfold tryTo, throwingStringToInt. by rewrite stoul_to_string by (unfold in_u64; lia).
Qed.
