(* ===== verification/Json.v ===== *)
(** * The JSON wrapper (osquery/core/json.h, osquery/core/conversions.cpp)

    [json] is the value type of RapidJSON. The library itself is a third-party
    package: parsing, printing and the member removal that reorders an object
    are parameters (class [RapidJSON]) with the documented behaviour the code
    relies on as [RapidJSONLaws]. The wrapper class [JSON] of osquery is
    modelled on top of them. *)
From S2P Require Import Prelude Boost Conversions.

(** ** The value type *)

(** A number is kept as an integer when RapidJSON stores it as one; the bits of
    any other number are never inspected by the modelled code. *)
#[warnings="-register-all"]
Inductive json :=
  | JNull
  | JBool (b : bool)
  | JInt (z : Z)
  | JDouble (bits : Z)
  | JString (s : string)
  | JArray (l : list json)
  | JObject (ms : list (string * json)).

Abbreviation members := (list (string * json)).

Definition IsObject (v : json) : bool := match v with JObject _ => true | _ => false end.
Definition IsArray (v : json) : bool := match v with JArray _ => true | _ => false end.
Definition IsString (v : json) : bool := match v with JString _ => true | _ => false end.
Definition IsNull (v : json) : bool := match v with JNull => true | _ => false end.

(** [std::string(v.GetString())] reads up to the first NUL; calling it on any
    other kind of value violates RapidJSON's precondition. *)
Definition GetString (v : json) : result string :=
  match v with JString s => Ok (c_str s) | _ => Throw AssertFailure end.

Definition GetUint64 (v : json) : result Z :=
  match v with
  | JInt z => if (0 <=? z)%Z && (z <? 2 ^ 64)%Z then Ok z else Throw AssertFailure
  | _ => Throw AssertFailure
  end.

Definition GetInt (v : json) : result Z :=
  match v with
  | JInt z => if (- 2 ^ 31 <=? z)%Z && (z <? 2 ^ 31)%Z then Ok z else Throw AssertFailure
  | _ => Throw AssertFailure
  end.

Definition GetArray (v : json) : result (list json) :=
  match v with JArray l => Ok l | _ => Throw AssertFailure end.

Definition GetObject (v : json) : result members :=
  match v with JObject ms => Ok ms | _ => Throw AssertFailure end.

(** [FindMember]: the position of the first member with that name. *)
Fixpoint FindMember (key : string) (ms : members) : option nat :=
  match ms with
  | [] => None
  | (k, _) :: ms => if decide (k = key) then Some O else S <$> FindMember key ms
  end.

(** [obj["key"]] and [HasMember]. *)
Fixpoint member (key : string) (ms : members) : option json :=
  match ms with
  | [] => None
  | (k, v) :: ms => if decide (k = key) then Some v else member key ms
  end.

Definition HasMember (key : string) (ms : members) : bool :=
  match member key ms with Some _ => true | None => false end.

(** Documents RapidJSON prints and reads back exactly: no floating point
    number, integers in the ranges it stores. *)
Fixpoint json_exact (v : json) : bool :=
  match v with
  | JNull | JBool _ | JString _ => true
  | JInt z => (- 2 ^ 63 <=? z)%Z && (z <? 2 ^ 64)%Z
  | JDouble _ => false
  | JArray l => forallb json_exact l
  | JObject ms => forallb (fun kv => json_exact kv.2) ms
  end.

Class RapidJSON := {
  (** [Document::Parse] on a C string; [None] when [HasParseError]. *)
  rj_parse : string -> option json;
  (** [GetParseError_En(code)] and the offset of the failure. *)
  rj_parse_error : string -> string * Z;
  (** [Value::Accept(Writer)]. *)
  rj_write : json -> string;
  (** [RemoveMember(MemberBegin() + i)]. *)
  rj_remove_member : nat -> members -> members;
}.

Class RapidJSONLaws (R : RapidJSON) := {
  rj_roundtrip v : json_exact v = true -> rj_parse (c_str (rj_write v)) = Some v;
  rj_remove_perm i ms : rj_remove_member i ms ≡ₚ delete i ms;
}.

(** ** The wrapper *)

Section Wrapper.
Context {R : RapidJSON}.

Definition JSON_newObject : json := JObject [].
Definition JSON_newArray : json := JArray [].

(** The members of an object after [add], [addRef] or [addCopy] of one key:
    an existing member of that name is removed first. *)
Definition add_member (key : string) (value : json) (ms : members) : members :=
  match FindMember key ms with
  | Some i => rj_remove_member i ms ++ [(key, value)]
  | None => ms ++ [(key, value)]
  end.

(** [JSON::add(key, const rj::Value&, obj)]; the [assert] is [AssertFailure]. *)
Definition JSON_add (key : string) (value : json) (obj : json) : result json :=
  match obj with
  | JObject ms => Ok (JObject (add_member key value ms))
  | _ => Throw AssertFailure
  end.

Definition JSON_addRef (key value : string) (obj : json) : result json :=
  JSON_add key (JString value) obj.

Definition JSON_addCopy (key value : string) (obj : json) : result json :=
  JSON_add key (JString value) obj.

(** [JSON::add] of a C string. *)
Definition JSON_add_cstr (key value : string) (obj : json) : result json :=
  JSON_add key (JString (c_str value)) obj.

Definition JSON_add_size (key : string) (value : Z) (obj : json) : result json :=
  JSON_add key (JInt value) obj.

Definition JSON_add_int (key : string) (value : Z) (obj : json) : result json :=
  JSON_add key (JInt value) obj.

Definition JSON_add_bool (key : string) (value : bool) (obj : json) : result json :=
  JSON_add key (JBool value) obj.

(** [push] of a value and of a [size_t], [pushCopy] of a string. *)
Definition JSON_push (value : json) (arr : json) : result json :=
  match arr with
  | JArray l => Ok (JArray (l ++ [value]))
  | _ => Throw AssertFailure
  end.

Definition JSON_push_size (value : Z) (arr : json) : result json :=
  JSON_push (JInt value) arr.

Definition JSON_pushCopy (value : string) (arr : json) : result json :=
  JSON_push (JString value) arr.

Definition JSON_toString (doc : json) : Status * string :=
  (Status_success, c_str (rj_write doc)).

(** The document is usable only when the status is success. *)
Definition JSON_fromString (str : string) : Status * option json :=
  match rj_parse (c_str str) with
  | Some v => (Status_success, Some v)
  | None =>
      let '(msg, off) := rj_parse_error (c_str str) in
      (mkStatus 1 ("Cannot parse JSON: " +:+ msg +:+ " Offset: " +:+ to_string off), None)
  end.

(** [fromString] followed by the test every caller makes: a document of the
    wanted kind, or nothing. *)
Definition JSON_parse_if (kind : json -> bool) (str : string) : option json :=
  match JSON_fromString str with
  | (st, Some v) => if Status_ok st && kind v then Some v else None
  | (_, None) => None
  end.

Definition merge_members (target source : members) : members :=
  foldl (fun t kv => add_member kv.1 kv.2 t) target source.

Definition JSON_mergeObject (target_obj source_obj : json) : result json :=
  match target_obj, source_obj with
  | JObject t, JObject s => Ok (JObject (merge_members t s))
  | _, _ => Throw AssertFailure
  end.

Definition JSON_mergeArray (target_arr source_arr : json) : result json :=
  match target_arr, source_arr with
  | JArray t, JArray s => Ok (JArray (t ++ s))
  | _, _ => Throw AssertFailure
  end.

Definition JSON_newFromValue (value : json) : result json :=
  if IsObject value || IsArray value then Ok value else Throw AssertFailure.

(** [JSON::valueToSize]. *)
Definition JSON_valueToSize (value : json) : result Z :=
  match value with
  | JString s => Ok (takeOr (tryTo TULong (c_str s) 10) 0%Z)
  | JInt _ | JDouble _ => GetUint64 value
  | _ => Ok 0%Z
  end.

(** [JSON::valueToBool]. *)
Definition JSON_valueToBool (value : json) : result bool :=
  match value with
  | JBool b => Ok b
  | JString s =>
      let b := lower (c_str s) in
      Ok (bool_decide (b = "true") || bool_decide (b = "t"))
  | JInt _ | JDouble _ =>
      match GetInt value with
      | Ok z => Ok (negb (z =? 0)%Z)
      | Throw e => Throw e
      end
  | _ => Ok false
  end.
End Wrapper.

(** ** A concrete instance of the library

    Any injective encoding satisfies the laws; this one prints the bits of the
    canonical [positive] code of the document. *)

Fixpoint json_tree (v : json) : gen_tree (string + Z) :=
  match v with
  | JNull => GenNode 0 []
  | JBool b => GenNode 1 [GenLeaf (inr (if b then 1 else 0)%Z)]
  | JInt z => GenNode 2 [GenLeaf (inr z)]
  | JDouble z => GenNode 3 [GenLeaf (inr z)]
  | JString s => GenLeaf (inl s)
  | JArray l => GenNode 4 (json_tree <$> l)
  | JObject ms => GenNode 5 ((fun kv => GenNode 6 [GenLeaf (inl kv.1); json_tree kv.2]) <$> ms)
  end.

Fixpoint tree_json (t : gen_tree (string + Z)) : json :=
  match t with
  | GenLeaf (inl s) => JString s
  | GenLeaf (inr z) => JInt z
  | GenNode 1 [GenLeaf (inr z)] => JBool (z =? 1)%Z
  | GenNode 2 [GenLeaf (inr z)] => JInt z
  | GenNode 3 [GenLeaf (inr z)] => JDouble z
  | GenNode 4 ts => JArray (tree_json <$> ts)
  | GenNode 5 ts =>
      JObject ((fun t => match t with
                         | GenNode 6 [GenLeaf (inl k); v] => (k, tree_json v)
                         | _ => (EmptyString, JNull)
                         end) <$> ts)
  | _ => JNull
  end.

Fixpoint bits_string (p : positive) : string :=
  match p with
  | xH => ""
  | xO p => String "0" (bits_string p)
  | xI p => String "1" (bits_string p)
  end.

Fixpoint string_bits (s : string) : option positive :=
  match s with
  | EmptyString => Some xH
  | String "0" s => xO <$> string_bits s
  | String "1" s => xI <$> string_bits s
  | _ => None
  end.

(** [RemoveMember] moves the last member into the hole. *)
Definition swap_remove (i : nat) (ms : members) : members :=
  match last ms with
  | Some m => if decide (S i < length ms) then <[i := m]> (take (pred (length ms)) ms)
              else delete i ms
  | None => ms
  end.

#[export] Instance rj_exec : RapidJSON := {
  rj_parse s := p ← string_bits s; tree_json <$> decode p;
  rj_parse_error _ := ("Invalid value.", 0%Z);
  rj_write v := bits_string (encode (json_tree v));
  rj_remove_member := swap_remove;
}.

(** ** Lemmas *)

(** Structural induction that reaches inside arrays and objects. *)
Lemma json_ind' (P : json -> Prop) :
  P JNull -> (forall b, P (JBool b)) -> (forall z, P (JInt z)) -> (forall z, P (JDouble z)) ->
  (forall s, P (JString s)) -> (forall l, Forall P l -> P (JArray l)) ->
  (forall ms, Forall (fun kv => P kv.2) ms -> P (JObject ms)) -> forall v, P v.
Proof.
  intros H1 H2 H3 H4 H5 H6 H7. fix FIX 1. intros [|b|z|z|s|l|ms];
    [apply H1 | apply H2 | apply H3 | apply H4 | apply H5 | apply H6 | apply H7].
  - induction l; constructor; auto.
  - induction ms as [|[k v] ms IH]; constructor; [apply FIX | apply IH].
Qed.

Lemma tree_json_tree v : tree_json (json_tree v) = v.
Proof.
  induction v as [|b|z|z|s|l IH|ms IH] using json_ind'; simpl; try done.
  - by destruct b.
  - f_equal. rewrite <- list_fmap_compose. induction IH as [|v l Hv Hl IH]; simpl; [done|].
    by f_equal.
  - f_equal. rewrite <- list_fmap_compose.
    induction IH as [|[k v] l Hv Hl IH]; simpl in *; [done|].
    f_equal; [by rewrite Hv | exact IH].
Qed.

Lemma string_bits_string p : string_bits (bits_string p) = Some p.
Proof. induction p as [p IH|p IH|]; simpl; by rewrite ?IH. Qed.

Lemma c_str_bits p : c_str (bits_string p) = bits_string p.
Proof. induction p as [p IH|p IH|]; simpl; by rewrite ?IH. Qed.

Lemma swap_remove_perm i ms : swap_remove i ms ≡ₚ delete i ms.
Proof.
  unfold swap_remove. destruct (last ms) as [m|] eqn:E.
  2:{ apply last_None in E as ->. by destruct i. }
  apply last_Some in E as [l ->]. rewrite length_app. simpl.
  rewrite Nat.add_1_r. simpl. case_decide as Hi; [|done].
  rewrite take_app_length.
  assert (is_Some (l !! i)) as [x Hx] by (apply lookup_lt_is_Some; lia).
  rewrite insert_take_drop by (by eapply lookup_lt_Some).
  rewrite delete_take_drop, take_app_le, drop_app_le by (apply lookup_lt_Some in Hx; lia).
  by rewrite Permutation_cons_append.
Qed.

#[export] Instance rj_exec_laws : RapidJSONLaws rj_exec.
Proof.
  split; simpl.
  - intros v _. rewrite c_str_bits, string_bits_string. simpl.
    rewrite decode_encode. simpl. by rewrite tree_json_tree.
  - apply swap_remove_perm.
Qed.

Lemma member_map key ms : member key ms = (list_to_map ms : gmap string json) !! key.
Proof.
  induction ms as [|[k v] ms IH]; simpl; [done|].
  case_decide; subst; [by rewrite lookup_insert_eq | by rewrite lookup_insert_ne].
Qed.

Lemma FindMember_None key ms : FindMember key ms = None <-> key ∉ ms.*1.
Proof.
  induction ms as [|[k v] ms IH]; simpl; [split; [intros _; apply not_elem_of_nil | done]|].
  rewrite not_elem_of_cons. case_decide; subst; [naive_solver|].
  rewrite fmap_None, IH. naive_solver.
Qed.

Lemma FindMember_Some key ms i : FindMember key ms = Some i ->
  exists v, ms !! i = Some (key, v).
Proof.
  revert i. induction ms as [|[k v] ms IH]; intros i; simpl; [done|].
  case_decide; subst; [intros [= <-]; by eexists|].
  intros (j & Hj & ->)%fmap_Some. by apply IH.
Qed.

Lemma delete_keys_NoDup i (ms : members) key v :
  NoDup ms.*1 -> ms !! i = Some (key, v) ->
  NoDup (delete i ms).*1 /\ key ∉ (delete i ms).*1 /\
  (list_to_map (delete i ms) : gmap string json) = delete key (list_to_map ms).
Proof.
  intros Hnd Hi.
  assert (ms ≡ₚ (key, v) :: delete i ms) as Hp.
  { rewrite delete_take_drop, <- (take_drop_middle ms i _ Hi) at 1.
    by rewrite Permutation_middle. }
  assert (NoDup (key :: (delete i ms).*1)) as Hnd'.
  { change (key :: (delete i ms).*1) with (((key, v) :: delete i ms).*1). by rewrite <- Hp. }
  apply NoDup_cons in Hnd' as [Hin Hnd'].
  split; [done|]. split; [done|].
  rewrite (list_to_map_proper ms _ Hnd Hp). simpl.
  rewrite delete_insert_id; [done|]. by apply not_elem_of_list_to_map_1.
Qed.

Section WrapperFacts.
Context {R : RapidJSON} {RL : RapidJSONLaws R}.

Lemma list_to_map_snoc key v (ms : members) : key ∉ ms.*1 ->
  (list_to_map (ms ++ [(key, v)]) : gmap string json) = <[key := v]> (list_to_map ms).
Proof.
  intros Hk. rewrite list_to_map_app. simpl. rewrite insert_empty.
  rewrite <- insert_union_singleton_r; [done|]. by apply not_elem_of_list_to_map_1.
Qed.

(** An object with distinct names keeps them distinct and behaves as a map. *)
Lemma add_member_map key v ms : NoDup ms.*1 ->
  NoDup (add_member key v ms).*1 /\
  (list_to_map (add_member key v ms) : gmap string json) = <[key := v]> (list_to_map ms).
Proof.
  intros Hnd. unfold add_member. destruct (FindMember key ms) as [i|] eqn:E.
  - apply FindMember_Some in E as [x Hx].
    destruct (delete_keys_NoDup _ _ _ _ Hnd Hx) as (H1 & H2 & H3).
    pose proof (rj_remove_perm i ms) as Hp.
    split.
    + rewrite Hp, fmap_app. by apply NoDup_snoc.
    + rewrite list_to_map_snoc by (by rewrite Hp).
      rewrite (list_to_map_proper (rj_remove_member i ms) (delete i ms)).
      * by rewrite H3, insert_delete_eq.
      * by rewrite Hp.
      * done.
  - apply FindMember_None in E. split; [|by apply list_to_map_snoc].
    rewrite fmap_app. by apply NoDup_snoc.
Qed.

Lemma NoDup_add_member key v ms : NoDup ms.*1 -> NoDup (add_member key v ms).*1.
Proof. intros H. by apply add_member_map. Qed.

Lemma member_add_member key key' v ms : NoDup ms.*1 ->
  member key (add_member key' v ms) = if decide (key = key') then Some v else member key ms.
Proof.
  intros H. rewrite !member_map. destruct (add_member_map key' v ms H) as [_ ->].
  case_decide; subst; [by rewrite lookup_insert_eq | by rewrite lookup_insert_ne].
Qed.

Lemma merge_members_map target source : NoDup target.*1 ->
  NoDup (merge_members target source).*1 /\
  (list_to_map (merge_members target source) : gmap string json)
  = list_to_map (reverse source) ∪ list_to_map target.
Proof.
  unfold merge_members. revert target.
  induction source as [|[k v] source IH]; intros target Hnd; simpl.
  { split; [done|]. by rewrite (left_id_L ∅ (∪)). }
  destruct (add_member_map k v target Hnd) as [Hnd' Hm].
  destruct (IH _ Hnd') as [H1 H2]. split; [done|].
  rewrite H2, Hm, reverse_cons, list_to_map_app. simpl. rewrite insert_empty.
  by rewrite <- (assoc_L (∪)), <- insert_union_singleton_l.
Qed.

Lemma Forall_add_member (Q : string * json -> Prop) key v ms :
  Q (key, v) -> Forall Q ms -> Forall Q (add_member key v ms).
Proof.
  intros Hv Hms. unfold add_member. destruct (FindMember key ms) as [i|].
  - apply Forall_app. split; [|by constructor]. rewrite (rj_remove_perm i ms).
    apply Forall_forall. intros x Hx. apply list_elem_of_delete_inv in Hx.
    by eapply Forall_forall in Hms.
  - apply Forall_app. split; [done | by constructor].
Qed.

Lemma Forall_merge_members (Q : string * json -> Prop) target source :
  Forall Q target -> Forall Q source -> Forall Q (merge_members target source).
Proof.
  unfold merge_members. intros Ht Hs. revert target Ht.
  induction Hs as [|[k v] source Hv Hs IH]; intros target Ht; simpl; [done|].
  by apply IH, Forall_add_member.
Qed.

Lemma json_exact_object ms :
  json_exact (JObject ms) = true <-> Forall (fun kv => json_exact kv.2 = true) ms.
Proof.
  simpl. rewrite forallb_forall, Forall_forall.
  split; intros H x Hx; apply H; by apply list_elem_of_In.
Qed.

Lemma fromString_toString v : json_exact v = true ->
  JSON_fromString (JSON_toString v).2 = (Status_success, Some v).
Proof. intros H. unfold JSON_fromString, JSON_toString. simpl. by rewrite c_str_idem, rj_roundtrip. Qed.
End WrapperFacts.
#[export] Hint Resolve NoDup_add_member NoDup_nil_2 : osq.
