(* ===== verification/Database.v ===== *)
(** * The backing store (osquery/database/database.cpp,
      osquery/database/plugins/ephemeral.cpp, include/osquery/database.h)

    [DatabasePlugin] is the interface every backing store implements and
    [DatabaseLaws] what a working store promises. [Ephemeral] is the in-memory
    store of the repository. On top of them: the dispatcher
    [DatabasePlugin::call], the free functions [getDatabaseValue],
    [setDatabaseBatch], ... in their two variants (inside the core process, and
    inside an extension, where they become a registry call), and the schema
    migrations. *)
From S2P Require Import Prelude Boost Conversions Json.

(** ** Domains *)

Definition kPersistentSettings : string := "configurations".
Definition kQueries : string := "queries".
Definition kEvents : string := "events".
Definition kCarves : string := "carves".
Definition kLogs : string := "logs".
Definition kDbEpochSuffix : string := "epoch".
Definition kDbCounterSuffix : string := "counter".
Definition kDbVersionKey : string := "results_version".
Definition kDbCurrentVersion : Z := 2.
Definition kDomains : list string :=
  [kPersistentSettings; kQueries; kEvents; kLogs; kCarves].

Abbreviation DatabaseStringValueList := (list (string * string)).

(** ** The plugin interface *)

Class DatabasePlugin (D : Type) := {
  (** [get(domain, key, value)]: the second component is what was assigned. *)
  db_get : D -> string -> string -> Status * option string;
  db_put : D -> string -> string -> string -> Status * D;
  db_putBatch : D -> string -> DatabaseStringValueList -> Status * D;
  db_remove : D -> string -> string -> Status * D;
  db_removeRange : D -> string -> string -> string -> Status * D;
  (** [scan(domain, results, prefix, max)] on an empty result vector. *)
  db_scan : D -> string -> string -> Z -> Status * list string;
  db_setUp : M D Status;
  db_tearDown : M D unit;
  db_read_only : D -> bool;
}.

(** The map a batch of writes leads to: later pairs win. *)
Definition put_all (m : gmap string string) (data : DatabaseStringValueList)
    : gmap string string :=
  foldl (fun m kv => <[kv.1 := kv.2]> m) m data.

Definition in_range (low high : string) (k : string) : Prop :=
  String.le low k /\ String.le k high.

(** [f] changed at [d] only. *)
Definition update_domain (f : string -> gmap string string) (d : string)
    (m : gmap string string) : string -> gmap string string :=
  fun d' => if decide (d' = d) then m else f d'.

Class DatabaseLaws (D : Type) {P : DatabasePlugin D} := {
  (** The contents of each domain of an opened, writable store. *)
  db_view : D -> string -> gmap string string;
  db_ready : D -> Prop;
  get_law s d k : db_ready s -> d ∈ kDomains ->
    (db_get s d k).2 = db_view s d !! k /\
    (Status_ok (db_get s d k).1 = true <-> is_Some (db_view s d !! k));
  putBatch_law s d data : db_ready s -> d ∈ kDomains ->
    let '(st, s') := db_putBatch s d data in
    db_ready s' /\
    forall d', db_view s' d' =
      if Status_ok st then update_domain (db_view s) d (put_all (db_view s d) data) d'
      else db_view s d';
  put_law s d k v : db_ready s -> d ∈ kDomains ->
    let '(st, s') := db_put s d k v in
    db_ready s' /\
    forall d', db_view s' d' =
      if Status_ok st then update_domain (db_view s) d (<[k := v]> (db_view s d)) d'
      else db_view s d';
  remove_law s d k : db_ready s -> d ∈ kDomains ->
    let '(st, s') := db_remove s d k in
    db_ready s' /\
    forall d', db_view s' d' =
      if Status_ok st then update_domain (db_view s) d (delete k (db_view s d)) d'
      else db_view s d';
  removeRange_law s d low high : db_ready s -> d ∈ kDomains ->
    let '(st, s') := db_removeRange s d low high in
    db_ready s' /\
    forall d' k, db_view s' d' !! k =
      if Status_ok st && bool_decide (d' = d) && bool_decide (String.le low k)
         && bool_decide (String.le k high)
      then None else db_view s d' !! k;
  scan_law s d prefix : db_ready s -> d ∈ kDomains ->
    Status_ok (db_scan s d prefix 0).1 = true ->
    NoDup (db_scan s d prefix 0).2 /\
    forall k, k ∈ (db_scan s d prefix 0).2 <->
      is_Some (db_view s d !! k) /\ String.prefix prefix k = true;
}.

(** A store whose operations do not fail. *)
Class DatabaseReliable (D : Type) {P : DatabasePlugin D} {L : DatabaseLaws D} := {
  putBatch_ok s d data : db_ready s -> d ∈ kDomains ->
    Status_ok (db_putBatch s d data).1 = true;
  put_ok s d k v : db_ready s -> d ∈ kDomains -> Status_ok (db_put s d k v).1 = true;
  remove_ok s d k : db_ready s -> d ∈ kDomains -> Status_ok (db_remove s d k).1 = true;
  removeRange_ok s d low high : db_ready s -> d ∈ kDomains ->
    Status_ok (db_removeRange s d low high).1 = true;
  scan_ok s d prefix : db_ready s -> d ∈ kDomains ->
    Status_ok (db_scan s d prefix 0).1 = true;
}.

(** ** The in-memory store *)

Module Ephemeral.
(** [boost::variant<int, std::string>]. *)
Inductive variant := VInt (z : Z) | VStr (s : string).

Abbreviation DBType := (gmap string (gmap string variant)).

(** [getAny<std::string>]. *)
Definition getAny (db_ : DBType) (domain key : string) : Status * option string :=
  match db_ !! domain with
  | None => (mkStatus 1 ("Domain " +:+ domain +:+ " does not exist"), None)
  | Some m =>
      match m !! key with
      | None => (mkStatus 1 ("Key " +:+ key +:+ " in domain " +:+ domain +:+ " does not exist"), None)
      | Some (VStr v) => (Status1 0, Some v)
      | Some (VInt _) =>
          (mkStatus 1 "EphemeralDatabasePlugin::get was requested incorrect type(string)", None)
      end
  end.

Definition domain_map (db_ : DBType) (domain : string) : gmap string variant :=
  default ∅ (db_ !! domain).

(** [db_[domain][key] = value]. *)
Definition setValue (db_ : DBType) (domain key : string) (value : variant) : DBType :=
  <[domain := <[key := value]> (domain_map db_ domain)]> db_.

Definition put (db_ : DBType) (domain key value : string) : Status * DBType :=
  (Status1 0, setValue db_ domain key (VStr value)).

(** The overload that stores an [int]. *)
Definition put_int (db_ : DBType) (domain key : string) (value : Z) : Status * DBType :=
  (Status1 0, setValue db_ domain key (VInt value)).

Definition putBatch (db_ : DBType) (domain : string) (data : DatabaseStringValueList)
    : Status * DBType :=
  (mkStatus 0 "OK", foldl (fun db kv => setValue db domain kv.1 (VStr kv.2)) db_ data).

(** [db_[domain].erase(k)] creates the domain when it is missing. *)
Definition remove (db_ : DBType) (domain k : string) : Status * DBType :=
  (Status1 0, <[domain := delete k (domain_map db_ domain)]> db_).

Definition removeRange (db_ : DBType) (domain low high : string) : Status * DBType :=
  let keys := filter (in_range low high) (map_sorted (domain_map db_ domain)).*1 in
  (Status1 0, <[domain := foldr delete (domain_map db_ domain) keys]> db_).

(** The scan loop: [results] so far, leaving when [max] is reached. *)
Fixpoint scan_loop (prefix : string) (max : Z) (results : list string) (keys : list string)
    : list string :=
  match keys with
  | [] => results
  | key :: keys =>
      if negb (is_empty prefix) && negb (String.prefix prefix key)
      then scan_loop prefix max results keys
      else
        let results := results ++ [key] in
        if (0 <? max)%Z && (max <=? Z.of_nat (length results))%Z then results
        else scan_loop prefix max results keys
  end.

Definition scan (db_ : DBType) (domain prefix : string) (max : Z) : Status * list string :=
  match db_ !! domain with
  | None => (Status1 0, [])
  | Some m => (Status1 0, scan_loop prefix max [] (map_sorted m).*1)
  end.

(** [DBType().swap(db_)]. *)
Definition setUp : M DBType Status := fun _ => (Ok (Status1 0), ∅).

#[export] Instance plugin : DatabasePlugin DBType := {
  db_get := getAny;
  db_put := put;
  db_putBatch := putBatch;
  db_remove := remove;
  db_removeRange := removeRange;
  db_scan := scan;
  db_setUp := setUp;
  db_tearDown := ret tt;
  db_read_only _ := false;
}.
End Ephemeral.
Export (hints) Ephemeral.

(** ** The active plugin and the dispatcher *)

Abbreviation PluginRequest := (gmap string string).
Abbreviation PluginResponse := (list (gmap string string)).

(** The state database.cpp works on: the configured plugin, the fallback one,
    which of them the "database" registry has active, and [kDBInitialized]. *)
Record DbState (D : Type) := mkDbState {
  plugin : D;
  ephemeral : Ephemeral.DBType;
  active_ephemeral : bool;
  kDBInitialized : bool;
}.
Arguments mkDbState {D}.
Arguments plugin {D}.
Arguments ephemeral {D}.
Arguments active_ephemeral {D}.
Arguments kDBInitialized {D}.

(** [std::map::at]. *)
Definition request_at (request : PluginRequest) (k : string) : result string :=
  match request !! k with
  | Some v => Ok v
  | None => Throw (OutOfRange "map::at")
  end.

Section Core.
Context {D : Type} {P : DatabasePlugin D} {R : RapidJSON} {B : Boost}.

Definition set_plugin (d : D) (s : DbState D) : DbState D :=
  mkDbState d (ephemeral s) (active_ephemeral s) (kDBInitialized s).
Definition set_ephemeral (e : Ephemeral.DBType) (s : DbState D) : DbState D :=
  mkDbState (plugin s) e (active_ephemeral s) (kDBInitialized s).
Definition set_active (a : bool) (s : DbState D) : DbState D :=
  mkDbState (plugin s) (ephemeral s) a (kDBInitialized s).
Definition set_initialized (b : bool) (s : DbState D) : DbState D :=
  mkDbState (plugin s) (ephemeral s) (active_ephemeral s) b.

(** A method call on the active plugin. *)
Definition on_active {A} (main : D -> A * D) (eph : Ephemeral.DBType -> A * Ephemeral.DBType)
    : M (DbState D) A :=
  fun s =>
    if active_ephemeral s
    then let '(a, e) := eph (ephemeral s) in (Ok a, set_ephemeral e s)
    else let '(a, d) := main (plugin s) in (Ok a, set_plugin d s).

Definition active_get (domain key : string) : M (DbState D) (Status * option string) :=
  on_active (fun d => (db_get d domain key, d)) (fun e => (db_get e domain key, e)).
Definition active_put (domain key value : string) : M (DbState D) Status :=
  on_active (fun d => db_put d domain key value) (fun e => db_put e domain key value).
Definition active_putBatch (domain : string) (data : DatabaseStringValueList)
    : M (DbState D) Status :=
  on_active (fun d => db_putBatch d domain data) (fun e => db_putBatch e domain data).
Definition active_remove (domain key : string) : M (DbState D) Status :=
  on_active (fun d => db_remove d domain key) (fun e => db_remove e domain key).
Definition active_removeRange (domain low high : string) : M (DbState D) Status :=
  on_active (fun d => db_removeRange d domain low high)
            (fun e => db_removeRange e domain low high).
Definition active_scan (domain prefix : string) (max : Z)
    : M (DbState D) (Status * list string) :=
  on_active (fun d => (db_scan d domain prefix max, d))
            (fun e => (db_scan e domain prefix max, e)).

(** Run [m] on the active plugin, exceptions included. *)
Definition active_run {A} (main : M D A) (eph : M Ephemeral.DBType A) : M (DbState D) A :=
  fun s => if active_ephemeral s then zoom ephemeral set_ephemeral eph s
           else zoom plugin set_plugin main s.

(** [DatabasePlugin::reset]. *)
Definition DatabasePlugin_reset : M (DbState D) Status :=
  active_run (db_tearDown ;;; db_setUp) (db_tearDown ;;; db_setUp).

(** [setActive("database", "ephemeral")]: the plugin is set up when activated. *)
Definition setActive_ephemeral : M (DbState D) Status :=
  modify (set_active true) ;;; zoom ephemeral set_ephemeral db_setUp.

Definition setActive_internal : M (DbState D) Status :=
  modify (set_active false) ;;; zoom plugin set_plugin db_setUp.

(** [DatabasePlugin::initPlugin]. *)
Definition DatabasePlugin_initPlugin (disable_database : bool) : M (DbState D) Status :=
  let* status := (if disable_database then setActive_ephemeral else setActive_internal) in
  (if Status_ok status then ret tt
   else setActive_ephemeral ;;; ret tt) ;;;
  modify (set_initialized true) ;;;
  ret status.

(** [DatabasePlugin::checkDB]: the value first given to [result] when the store
    is read-only is overwritten by the status of [setUp]. *)
Definition DatabasePlugin_checkDB (kDBRequireWrite : bool) : M D bool :=
  catch
    (let* status := db_setUp in
     let* result := gets (fun d => if kDBRequireWrite && db_read_only d then false else true) in
     db_tearDown ;;;
     let result := Status_ok status in
     ret result)
    (fun _ => ret false).

(** The string pairs of a decoded batch, [None] at the first other value. *)
Fixpoint batch_strings (ms : members) : option DatabaseStringValueList :=
  match ms with
  | [] => Some []
  | (k, JString v) :: ms => cons (c_str k, c_str v) <$> batch_strings ms
  | _ :: _ => None
  end.

(** [DatabasePlugin::call]. *)
Definition DatabasePlugin_call (request : PluginRequest)
    : M (DbState D) (Status * PluginResponse) :=
  match request !! "action" with
  | None => ret (mkStatus 1 "Database plugin must include a request action", [])
  | Some action =>
    let domain := default "" (request !! "domain") in
    let key := default "" (request !! "key") in
    if decide (action = "reset") then
      modify (set_initialized false) ;;;
      let* status := DatabasePlugin_reset in
      (if Status_ok status then ret tt else setActive_ephemeral ;;; ret tt) ;;;
      modify (set_initialized true) ;;;
      ret (status, [])
    else if decide (action = "get") then
      let* (status, value) := active_get domain key in
      ret (status, [{["v" := default "" value]}])
    else if decide (action = "put") then
      match request !! "value" with
      | None => ret (mkStatus 1 "Database plugin put action requires a value", [])
      | Some value =>
          let* status := active_put domain key value in ret (status, [])
      end
    else if decide (action = "putBatch") then
      match request !! "json" with
      | None =>
          ret (mkStatus 1 "Database plugin putBatch action requires a json-encoded value list", [])
      | Some text =>
          match JSON_fromString text with
          | (status, None) => ret (status, [])
          | (status, Some doc) =>
              let* object_list := of_result (GetObject doc) in
              match batch_strings object_list with
              | None =>
                  ret (mkStatus 1 ("Database plugin putBatch action with an invalid json "
                       +:+ "received. Only string values are supported"), [])
              | Some data => let* status := active_putBatch domain data in ret (status, [])
              end
          end
      end
    else if decide (action = "remove") then
      let* status := active_remove domain key in ret (status, [])
    else if decide (action = "remove_range") then
      let* key_high := (match request !! "high" with
                        | Some _ => of_result (request_at request "key_high")
                        | None => ret ""
                        end) in
      if negb (is_empty key_high) && negb (is_empty key)
      then let* status := active_removeRange domain key key_high in ret (status, [])
      else ret (mkStatus 1 "Missing range", [])
    else if decide (action = "scan") then
      let* max := (match request !! "max" with
                   | Some m => of_result (stoul 10 m)
                   | None => ret 0%Z
                   end) in
      let* prefix := of_result (request_at request "prefix") in
      let* (status, keys) := active_scan domain prefix max in
      ret (status, (fun k => {["k" := k]}) <$> keys)
    else ret (mkStatus 1 "Unknown database plugin action", [])
  end.

(** [Registry::call("database", request, response)] in the core process: the
    registry catches what the plugin throws (registry_factory.cpp). *)
Definition exn_what (e : exn) : string :=
  match e with
  | RuntimeError w | InvalidArgument w | OutOfRange w => w
  | BadLexicalCast => "bad lexical cast"
  | AssertFailure => ""
  end.

Definition core_registry_call (request : PluginRequest)
    : M (DbState D) (Status * PluginResponse) :=
  catch (DatabasePlugin_call request) (fun e => ret (mkStatus 1 (exn_what e), [])).
End Core.

(** ** The free functions of database.cpp

    [external] is [RegistryFactory::get().external()]: true inside an extension
    process, where a call becomes a registry call to the core ([registry_call]
    stands for the extension transport and what answers it). *)
Section Api.
Context {D : Type} {P : DatabasePlugin D} {R : RapidJSON} {B : Boost}.
Context (external : bool).
Context (registry_call : PluginRequest -> M (DbState D) (Status * PluginResponse)).

(** Inside the core: throw when the database is not initialized. *)
Definition local_access {A} (what : string) (m : M (DbState D) A) : M (DbState D) A :=
  let* init := gets kDBInitialized in
  if init then m else throw (RuntimeError what).

Definition getDatabaseValue (domain key : string) : M (DbState D) (Status * option string) :=
  if is_empty domain then ret (mkStatus 1 "Missing domain", None)
  else if external then
    let* (status, response) :=
      registry_call {["action" := "get"; "domain" := domain; "key" := key]} in
    if Status_ok status then
      match response with
      | r :: _ => ret (status, r !! "v")
      | [] => ret (status, None)
      end
    else ret (status, None)
  else local_access ("Cannot get database value: " +:+ key) (active_get domain key).

(** The overload that reads an [int]: [std::stoi] may throw. *)
Definition getDatabaseValue_int (domain key : string) : M (DbState D) (Status * option Z) :=
  let* (s, result) := getDatabaseValue domain key in
  if Status_ok s then
    let* value := of_result (stoi 10 (default "" result)) in ret (s, Some value)
  else ret (s, None).

Definition sendPutBatchDatabaseRequest (domain : string) (data : DatabaseStringValueList)
    : M (DbState D) Status :=
  let json_object := foldl (fun ms kv => add_member kv.1 (JString kv.2) ms) [] data in
  let '(status, serialized_data) := JSON_toString (JObject json_object) in
  if negb (Status_ok status) then ret status
  else
    let* (status, _) :=
      registry_call {["action" := "putBatch"; "domain" := domain; "json" := serialized_data]} in
    ret status.

(** [data[0]] on an empty list is undefined behaviour. *)
Definition sendPutDatabaseRequest (domain : string) (data : DatabaseStringValueList)
    : M (DbState D) Status :=
  match data with
  | [] => throw AssertFailure
  | (key, value) :: _ =>
      let* (status, _) :=
        registry_call {["action" := "put"; "domain" := domain; "key" := key; "value" := value]} in
      ret status
  end.

Definition setDatabaseBatch (domain : string) (data : DatabaseStringValueList)
    : M (DbState D) Status :=
  if is_empty domain then ret (mkStatus 1 "Missing domain")
  else if external then
    if (1 <? length data)%nat then sendPutBatchDatabaseRequest domain data
    else sendPutDatabaseRequest domain data
  else local_access "Cannot set database values" (active_putBatch domain data).

Definition setDatabaseValue (domain key value : string) : M (DbState D) Status :=
  setDatabaseBatch domain [(key, value)].

Definition setDatabaseValue_int (domain key : string) (value : Z) : M (DbState D) Status :=
  setDatabaseBatch domain [(key, to_string value)].

Definition deleteDatabaseValue (domain key : string) : M (DbState D) Status :=
  if is_empty domain then ret (mkStatus 1 "Missing domain")
  else if external then
    let* (status, _) :=
      registry_call {["action" := "remove"; "domain" := domain; "key" := key]} in
    ret status
  else local_access ("Cannot delete database value: " +:+ key) (active_remove domain key).

Definition deleteDatabaseRange (domain low high : string) : M (DbState D) Status :=
  if is_empty domain then ret (mkStatus 1 "Missing domain")
  else if external then
    let* (status, _) :=
      registry_call {["action" := "remove_range"; "domain" := domain; "key" := low;
                      "key_high" := high]} in
    ret status
  else local_access ("Cannot delete database values: " +:+ low +:+ " - " +:+ high)
         (active_removeRange domain low high).

Definition scanDatabaseKeys (domain prefix : string) (max : Z)
    : M (DbState D) (Status * list string) :=
  if is_empty domain then ret (mkStatus 1 "Missing domain", [])
  else if external then
    let* (status, response) :=
      registry_call {["action" := "scan"; "domain" := domain; "prefix" := prefix;
                      "max" := to_string max]} in
    ret (status, omap (fun item => item !! "k") response)
  else local_access ("Cannot scan database values: " +:+ prefix) (active_scan domain prefix max).

Definition resetDatabase : M (DbState D) unit :=
  registry_call {["action" := "reset"]} ;;; ret tt.
End Api.

(** ** What the other components rely on *)

Class DatabaseAPI (S : Type) := {
  api_get : string -> string -> M S (Status * option string);
  api_set_batch : string -> DatabaseStringValueList -> M S Status;
  api_delete : string -> string -> M S Status;
  api_delete_range : string -> string -> string -> M S Status;
  api_scan : string -> string -> M S (Status * list string);
}.

Definition api_set {S} `{DatabaseAPI S} (domain key value : string) : M S Status :=
  api_set_batch domain [(key, value)].

(** [std::string v; getDatabaseValue(domain, key, v);] *)
Definition api_get_str {S} `{DatabaseAPI S} (domain key : string) : M S string :=
  let* (_, v) := api_get domain key in ret (default "" v).

Class DatabaseAPILaws (S : Type) {A : DatabaseAPI S} := {
  api_view : S -> string -> gmap string string;
  api_ready : S -> Prop;
  api_get_law s d k : api_ready s -> d ∈ kDomains ->
    exists st, api_get d k s = (Ok (st, api_view s d !! k), s) /\
    (Status_ok st = true <-> is_Some (api_view s d !! k));
  api_set_batch_law s d data : api_ready s -> d ∈ kDomains ->
    exists st s', api_set_batch d data s = (Ok st, s') /\ api_ready s' /\
    forall d', api_view s' d' =
      if Status_ok st then update_domain (api_view s) d (put_all (api_view s d) data) d'
      else api_view s d';
  api_delete_law s d k : api_ready s -> d ∈ kDomains ->
    exists st s', api_delete d k s = (Ok st, s') /\ api_ready s' /\
    forall d', api_view s' d' =
      if Status_ok st then update_domain (api_view s) d (delete k (api_view s d)) d'
      else api_view s d';
  api_delete_range_law s d low high : api_ready s -> d ∈ kDomains ->
    exists st s', api_delete_range d low high s = (Ok st, s') /\ api_ready s' /\
    forall d' k, api_view s' d' !! k =
      if Status_ok st && bool_decide (d' = d) && bool_decide (String.le low k)
         && bool_decide (String.le k high)
      then None else api_view s d' !! k;
  api_scan_law s d prefix : api_ready s -> d ∈ kDomains ->
    exists st keys, api_scan d prefix s = (Ok (st, keys), s) /\
    (Status_ok st = true -> NoDup keys /\
     forall k, k ∈ keys <-> is_Some (api_view s d !! k) /\ String.prefix prefix k = true);
}.

Class DatabaseAPIReliable (S : Type) {A : DatabaseAPI S} {L : DatabaseAPILaws S} := {
  api_set_batch_ok s d data st s' : api_ready s -> d ∈ kDomains ->
    api_set_batch d data s = (Ok st, s') -> Status_ok st = true;
  api_delete_ok s d k st s' : api_ready s -> d ∈ kDomains ->
    api_delete d k s = (Ok st, s') -> Status_ok st = true;
  api_delete_range_ok s d low high st s' : api_ready s -> d ∈ kDomains ->
    api_delete_range d low high s = (Ok st, s') -> Status_ok st = true;
  api_scan_ok s d prefix st keys s' : api_ready s -> d ∈ kDomains ->
    api_scan d prefix s = (Ok (st, keys), s') -> Status_ok st = true;
}.

(** The core process implements the interface. *)
#[export] Instance core_api {D} {P : DatabasePlugin D} {R : RapidJSON} {B : Boost}
    : DatabaseAPI (DbState D) := {
  api_get := getDatabaseValue false core_registry_call;
  api_set_batch := setDatabaseBatch false core_registry_call;
  api_delete := deleteDatabaseValue false core_registry_call;
  api_delete_range := deleteDatabaseRange false core_registry_call;
  api_scan domain prefix := scanDatabaseKeys false core_registry_call domain prefix 0;
}.

(** ** Schema migrations *)

(** boost::property_tree: [read_json] of a text, then [write_json] of every
    child of the root; [None] is a parse error. *)
Class PTree := { pt_children : string -> option (list string) }.

Section Migrations.
Context {S : Type} {A : DatabaseAPI S} {R : RapidJSON} {B : Boost} {PT : PTree}.

Definition ptreeToRapidJSON (text : string) : Status * string :=
  match pt_children text with
  | None => (mkStatus 1 "Failed to parse JSON", "")
  | Some children =>
      match mapM (fun row => rj_parse (c_str row)) children with
      | None => (mkStatus 1 "Failed to serialize JSON", "")
      | Some rows => (Status_success, (JSON_toString (JArray rows)).2)
      end
  end.

Definition migrateV0V1 : M S Status :=
  let* (s, keys) := api_scan kQueries "" in
  if negb (Status_ok s)
  then ret (mkStatus 1 "Failed to lookup legacy query data from database")
  else
    for_each keys (fun key =>
      if boost_ends_with key kDbEpochSuffix || boost_ends_with key kDbCounterSuffix
         || boost_starts_with key "query."
      then ret tt
      else
        let* (got, value) := api_get kQueries key in
        if negb (Status_ok got) then ret tt
        else
          let '(s, out) := ptreeToRapidJSON (default "" value) in
          if negb (Status_ok s) then ret tt
          else api_set kQueries key out ;;; ret tt) ;;;
    ret Status_success.

Definition audit_str : string := ".audit.".

(** [new_key.replace(pos, audit_str.length(), ".auditeventpublisher.")]. *)
Definition audit_rename (pos : nat) (key : string) : string :=
  String.substring 0 pos key +:+ ".auditeventpublisher."
  +:+ String.substring (pos + String.length audit_str)
                       (String.length key - (pos + String.length audit_str)) key.

Definition migrateV1V2 : M S Status :=
  let* (s, keys) := api_scan kEvents "" in
  if negb (Status_ok s)
  then ret (Status_failure ("Failed to scan event keys from database: " +:+ message s))
  else
    for_each keys (fun key =>
      match String.index 0 audit_str key with
      | None => ret tt
      | Some pos =>
          let new_key := audit_rename pos key in
          let* (s, value) := api_get kEvents key in
          if negb (Status_ok s) then ret tt
          else
            let* s := api_set kEvents new_key (default "" value) in
            if negb (Status_ok s) then ret tt
            else api_delete kEvents key ;;; ret tt
      end) ;;;
    ret Status_success.

Definition migrate (db_version : Z) : M S Status :=
  if decide (db_version = 0)%Z then migrateV0V1
  else if decide (db_version = 1)%Z then migrateV1V2
  else ret (Status1 1).

(** The [while (db_version != to_version)] loop; [None] when out of fuel. *)
Fixpoint upgrade_loop (fuel : nat) (db_version to_version : Z) : M S (option Status) :=
  if decide (db_version = to_version) then ret (Some Status_success)
  else match fuel with
  | O => ret None
  | Datatypes.S fuel =>
      let* migrate_status := migrate db_version in
      if negb (Status_ok migrate_status)
      then ret (Some (mkStatus 1 "Database migration failed."))
      else
        let* st := api_set kPersistentSettings kDbVersionKey (to_string (db_version + 1)) in
        if negb (Status_ok st)
        then ret (Some (mkStatus 1 "Database migration failed."))
        else upgrade_loop fuel (db_version + 1) to_version
  end.

Definition upgradeDatabase (fuel : nat) (to_version : Z) : M S (option Status) :=
  let* (st, value) := api_get kPersistentSettings kDbVersionKey in
  if Status_ok st then
    match tryTo TInt (default "" value) 10 with
    | inr _ => ret (Some (mkStatus 1 "Invalid value for database version."))
    | inl db_version => upgrade_loop fuel db_version to_version
    end
  else upgrade_loop fuel 0 to_version.
End Migrations.
