(* ===== verification/DatabaseFacts.v ===== *)
(** * Facts about the backing store

    The in-memory store satisfies the plugin laws, the core process satisfies
    the interface the other components use, an extension sees the same store as
    the core, a failed reset leaves a usable store, and migrations finish. *)
From S2P Require Import Prelude Boost Conversions Json Database.

(** ** The in-memory store *)

Module EphemeralFacts.
Import Ephemeral.

Definition str_of (v : variant) : option string :=
  match v with VStr s => Some s | VInt _ => None end.

Definition view (db : DBType) (d : string) : gmap string string :=
  omap str_of (domain_map db d).

(** Only strings are stored. *)
Definition ready (db : DBType) : Prop :=
  forall d k v, domain_map db d !! k = Some v -> exists s, v = VStr s.

Lemma domain_map_insert db d m d' :
  domain_map (<[d := m]> db) d' = if decide (d' = d) then m else domain_map db d'.
Proof.
  unfold domain_map. case_decide; subst; [by rewrite lookup_insert_eq|].
  by rewrite lookup_insert_ne.
Qed.

Lemma view_lookup db d k : view db d !! k = domain_map db d !! k ≫= str_of.
Proof. apply lookup_omap. Qed.

Lemma setValue_spec db d k s :
  ready db -> ready (setValue db d k (VStr s)) /\
  forall d', view (setValue db d k (VStr s)) d' = update_domain (view db) d (<[k := s]> (view db d)) d'.
Proof.
  intros Hr. unfold setValue. split.
  - intros d' k' v. rewrite domain_map_insert. case_decide; [|apply Hr].
    rewrite lookup_insert. case_decide; [intros [= <-]; eauto | apply Hr].
  - intros d'. unfold view, update_domain. rewrite domain_map_insert.
    case_decide; [|done]. subst. by rewrite omap_insert.
Qed.

Lemma putBatch_spec db d data :
  ready db -> ready (putBatch db d data).2 /\
  forall d', view (putBatch db d data).2 d'
             = update_domain (view db) d (put_all (view db d) data) d'.
Proof.
  unfold putBatch, put_all. simpl. revert db.
  induction data as [|[k v] data IH]; intros db Hr; simpl.
  - split; [done|]. intros d'. unfold update_domain. by case_decide; subst.
  - destruct (setValue_spec db d k v Hr) as [Hr' Hv]. destruct (IH _ Hr') as [Hr'' Hv''].
    split; [done|]. intros d'. rewrite Hv''. unfold update_domain in *.
    case_decide as Hd; rewrite Hv.
    + by case_decide.
    + by case_decide.
Qed.

Lemma foldr_delete_lookup {V} (m : gmap string V) ks k :
  foldr delete m ks !! k = if decide (k ∈ ks) then None else m !! k.
Proof.
  induction ks as [|x ks IH]; [done|]. simpl foldr.
  rewrite lookup_delete, IH.
  destruct (decide (x = k)), (decide (k ∈ ks)), (decide (k ∈ x :: ks)); set_solver.
Qed.

Lemma scan_loop_all prefix results keys :
  scan_loop prefix 0 results keys
  = results ++ filter (fun k => String.prefix prefix k = true) keys.
Proof.
  revert results. induction keys as [|k keys IH]; intros results; simpl; [by rewrite app_nil_r|].
  destruct (String.prefix prefix k) eqn:E.
  - rewrite andb_false_r, IH, filter_cons_True, <- app_assoc by done. done.
  - rewrite filter_cons_False by congruence.
    destruct prefix; [by destruct k|]. simpl. apply IH.
Qed.

#[export] Instance laws : DatabaseLaws DBType.
Proof.
  refine {| db_view := view; db_ready := ready |}.
  - intros s d k Hr _. simpl. rewrite view_lookup. unfold getAny, domain_map.
    unfold ready, domain_map in Hr. specialize (Hr d k).
    destruct (s !! d) as [m|]; simpl in *; [|rewrite lookup_empty; naive_solver].
    destruct (m !! k) as [v|]; simpl in *; [|naive_solver].
    destruct (Hr v eq_refl) as [x ->]. simpl. naive_solver.
  - intros s d data Hr _. exact (putBatch_spec s d data Hr).
  - intros s d k v Hr _. exact (setValue_spec s d k v Hr).
  - intros s d k Hr _. simpl. split.
    + intros d' k' v. rewrite domain_map_insert. case_decide; [|apply Hr].
      rewrite lookup_delete. case_decide; [done | apply Hr].
    + intros d'. unfold view, update_domain. rewrite domain_map_insert.
      case_decide; [|done]. subst. by rewrite omap_delete.
  - intros s d low high Hr _. simpl. split.
    + intros d' k' v. rewrite domain_map_insert. case_decide; [|apply Hr].
      rewrite foldr_delete_lookup. case_decide; [done | apply Hr].
    + intros d' k. rewrite !view_lookup, domain_map_insert.
      case_decide as Hd; subst; simpl; [|by rewrite bool_decide_false].
      rewrite bool_decide_true, foldr_delete_lookup by done. simpl.
      destruct (domain_map s d !! k) as [v|] eqn:E.
      * case_decide as Hin.
        -- apply list_elem_of_filter in Hin as [[H1 H2] _]. by rewrite !bool_decide_true.
        -- destruct (decide (String.le low k)), (decide (String.le k high));
             rewrite ?bool_decide_true, ?bool_decide_false by done; simpl; try done.
           destruct Hin. apply list_elem_of_filter. split; [done|].
           apply list_elem_of_fmap. exists (k, v). split; [done|].
           by apply elem_of_map_sorted.
      * simpl. by repeat case_match.
  - intros s d prefix Hr _ _. simpl. unfold scan.
    destruct (s !! d) as [m|] eqn:E; simpl.
    + rewrite scan_loop_all. simpl. split; [apply NoDup_filter, NoDup_fst_map_sorted|].
      intros k. rewrite list_elem_of_filter, list_elem_of_fmap, view_lookup.
      unfold ready, domain_map in *. specialize (Hr d k). rewrite E in Hr |- *. simpl in *.
      split.
      * intros [Hp ([k' v] & -> & Hin)]. apply elem_of_map_sorted in Hin. simpl in *.
        rewrite Hin. destruct (Hr v Hin) as [x ->]. by eauto.
      * intros [[x Hx] Hp]. split; [done|]. apply bind_Some in Hx as (v & Hv & _).
        exists (k, v). split; [done|]. by apply elem_of_map_sorted.
    + split; [constructor|]. intros k. rewrite view_lookup. unfold domain_map. rewrite E.
      simpl. rewrite lookup_empty. split; [by intros ?%not_elem_of_nil | by intros [[] _]].
Defined.

#[export] Instance reliable : DatabaseReliable DBType.
Proof. split; try done. intros s d prefix _ _. simpl. unfold scan. by case_match. Qed.
End EphemeralFacts.
Export (hints) EphemeralFacts.

(** ** The core process implements the interface *)

Lemma domain_nonempty d : d ∈ kDomains -> is_empty d = false.
Proof.
  intros H. destruct d; [|done]. exfalso. revert H.
  by apply (bool_decide_eq_false_1 _); vm_compute.
Qed.

Section CoreFacts.
Context {D : Type} {P : DatabasePlugin D} {L : DatabaseLaws D} {R : RapidJSON} {B : Boost}.

Definition core_view (s : DbState D) : string -> gmap string string :=
  if active_ephemeral s then EphemeralFacts.view (ephemeral s) else db_view (plugin s).

Definition core_ready (s : DbState D) : Prop :=
  kDBInitialized s = true /\
  if active_ephemeral s then EphemeralFacts.ready (ephemeral s) else db_ready (plugin s).

(** A local access runs when the database is initialized. *)
Lemma local_access_run {A} what (m : M (DbState D) A) s :
  kDBInitialized s = true -> local_access what m s = m s.
Proof. intros H. unfold local_access. unfold_M. by rewrite H. Qed.

#[export] Instance core_laws : DatabaseAPILaws (DbState D).
Proof.
  refine {| api_view := core_view; api_ready := core_ready |}.
  - intros [d e a i] dom k [Hi Hr] Hd. simpl in *. subst i.
    unfold getDatabaseValue. rewrite domain_nonempty, local_access_run by done.
    unfold active_get, on_active, core_view. simpl. destruct a; simpl in *.
    + destruct (@get_law _ _ EphemeralFacts.laws e dom k Hr Hd) as [H1 H2]. change (db_view e) with (EphemeralFacts.view e) in *.
      destruct (Ephemeral.getAny e dom k) as [st o] eqn:E. simpl in *. rewrite E in *. simpl in *.
      subst o. by exists st.
    + destruct (get_law d dom k Hr Hd) as [H1 H2].
      destruct (db_get d dom k) as [st o]. simpl in *. subst o. by exists st.
  - intros [d e a i] dom data [Hi Hr] Hd. simpl in *. subst i.
    unfold setDatabaseBatch. rewrite domain_nonempty, local_access_run by done.
    unfold active_putBatch, on_active, core_view, core_ready. simpl. destruct a; simpl in *.
    + pose proof (@putBatch_law _ _ EphemeralFacts.laws e dom data Hr Hd) as H. simpl in H.
      eexists _, _. split; [done|]. simpl. naive_solver.
    + pose proof (putBatch_law d dom data Hr Hd) as H.
      destruct (db_putBatch d dom data) as [st d']. eexists _, _. split; [done|]. simpl. naive_solver.
  - intros [d e a i] dom k [Hi Hr] Hd. simpl in *. subst i.
    unfold deleteDatabaseValue. rewrite domain_nonempty, local_access_run by done.
    unfold active_remove, on_active, core_view, core_ready. simpl. destruct a; simpl in *.
    + pose proof (@remove_law _ _ EphemeralFacts.laws e dom k Hr Hd) as H. simpl in H.
      eexists _, _. split; [done|]. simpl. naive_solver.
    + pose proof (remove_law d dom k Hr Hd) as H.
      destruct (db_remove d dom k) as [st d']. eexists _, _. split; [done|]. simpl. naive_solver.
  - intros [d e a i] dom low high [Hi Hr] Hd. simpl in *. subst i.
    unfold deleteDatabaseRange. rewrite domain_nonempty, local_access_run by done.
    unfold active_removeRange, on_active, core_view, core_ready. simpl. destruct a; simpl in *.
    + pose proof (@removeRange_law _ _ EphemeralFacts.laws e dom low high Hr Hd) as H. simpl in H.
      eexists _, _. split; [done|]. simpl. naive_solver.
    + pose proof (removeRange_law d dom low high Hr Hd) as H.
      destruct (db_removeRange d dom low high) as [st d']. eexists _, _. split; [done|].
      simpl. naive_solver.
  - intros [d e a i] dom prefix [Hi Hr] Hd. simpl in *. subst i.
    unfold scanDatabaseKeys. rewrite domain_nonempty, local_access_run by done.
    unfold active_scan, on_active, core_view. simpl. destruct a; simpl in *.
    + pose proof (@scan_law _ _ EphemeralFacts.laws e dom prefix Hr Hd) as H. simpl in H.
      destruct (Ephemeral.scan e dom prefix 0) as [st keys]. by exists st, keys.
    + pose proof (scan_law d dom prefix Hr Hd) as H.
      destruct (db_scan d dom prefix 0) as [st keys]. by exists st, keys.
Defined.

#[export] Instance core_reliable {Rel : DatabaseReliable D} : DatabaseAPIReliable (DbState D).
Proof.
  split.
  - intros [d e a i] dom data st s' [Hi Hr] Hd. simpl in *. subst i.
    unfold setDatabaseBatch. rewrite domain_nonempty, local_access_run by done.
    unfold active_putBatch, on_active. simpl. destruct a; simpl in *; [by intros [= <- <-]|].
    pose proof (putBatch_ok d dom data Hr Hd) as H.
    destruct (db_putBatch d dom data). by intros [= <- <-].
  - intros [d e a i] dom k st s' [Hi Hr] Hd. simpl in *. subst i.
    unfold deleteDatabaseValue. rewrite domain_nonempty, local_access_run by done.
    unfold active_remove, on_active. simpl. destruct a; simpl in *; [by intros [= <- <-]|].
    pose proof (remove_ok d dom k Hr Hd) as H.
    destruct (db_remove d dom k). by intros [= <- <-].
  - intros [d e a i] dom low high st s' [Hi Hr] Hd. simpl in *. subst i.
    unfold deleteDatabaseRange. rewrite domain_nonempty, local_access_run by done.
    unfold active_removeRange, on_active. simpl. destruct a; simpl in *; [by intros [= <- <-]|].
    pose proof (removeRange_ok d dom low high Hr Hd) as H.
    destruct (db_removeRange d dom low high). by intros [= <- <-].
  - intros [d e a i] dom prefix st keys s' [Hi Hr] Hd. simpl in *. subst i.
    unfold scanDatabaseKeys. rewrite domain_nonempty, local_access_run by done.
    unfold active_scan, on_active. simpl. destruct a; simpl in *.
    + pose proof (@scan_ok _ _ _ EphemeralFacts.reliable e dom prefix Hr Hd) as H. simpl in H.
      destruct (Ephemeral.scan e dom prefix 0). by intros [= <- <- <-].
    + pose proof (scan_ok d dom prefix Hr Hd) as H.
      destruct (db_scan d dom prefix 0). by intros [= <- <- <-].
Qed.
End CoreFacts.

(** ** An extension sees the core's store *)

Definition nul_free (s : string) : Prop := c_str s = s.

Lemma put_all_union m data : put_all m data = list_to_map (reverse data) ∪ m.
Proof.
  unfold put_all. revert m. induction data as [|[k v] data IH]; intros m; simpl.
  { by rewrite (left_id_L ∅ (∪)). }
  rewrite IH, reverse_cons, list_to_map_app. simpl. rewrite insert_empty.
  by rewrite <- (assoc_L (∪)), <- insert_union_singleton_l.
Qed.

Definition json_str (v : json) : string := match v with JString s => s | _ => "" end.

Definition str_member (kv : string * json) : Prop :=
  nul_free kv.1 /\ exists s, kv.2 = JString s /\ nul_free s.

Lemma batch_strings_str ms :
  Forall str_member ms -> batch_strings ms = Some (prod_map id json_str <$> ms).
Proof.
  induction 1 as [|[k v] ms [Hk (s & Hv & Hs)] Hms IH]; [done|].
  simpl in Hk, Hv. subst v. simpl. by rewrite IH, Hk, Hs.
Qed.

Lemma list_to_map_reverse {V} (l : list (string * V)) :
  NoDup l.*1 -> (list_to_map (reverse l) : gmap string V) = list_to_map l.
Proof.
  intros H. apply list_to_map_proper; [|apply reverse_Permutation].
  by rewrite reverse_Permutation.
Qed.

Lemma update_domain_ne f d m d' : d' <> d -> update_domain f d m d' = f d'.
Proof. intros. unfold update_domain. by case_decide. Qed.

Section Batch.
Context {R : RapidJSON} {RL : RapidJSONLaws R}.

(** The object an extension sends for a batch: its text parses back to string
    members that write the same values. *)
Lemma batch_roundtrip data m :
  Forall (fun kv => nul_free kv.1 /\ nul_free kv.2) data ->
  let ms := foldl (fun ms kv => add_member kv.1 (JString kv.2) ms) [] data in
  json_exact (JObject ms) = true /\
  exists data', batch_strings ms = Some data' /\ put_all m data' = put_all m data.
Proof.
  intros Hd ms.
  set (enc := (prod_map id JString : string * string -> string * json)).
  assert (ms = merge_members [] (enc <$> data)) as Hms.
  { unfold ms, merge_members. generalize (@nil (string * json)). clear Hd ms.
    induction data as [|kv data IH]; intros t; simpl; [done | apply IH]. }
  assert (Forall str_member ms) as Hstr.
  { rewrite Hms. apply Forall_merge_members; [constructor|].
    apply Forall_fmap. eapply Forall_impl; [exact Hd|].
    intros [k v] [H1 H2]. split; simpl in *; eauto. }
  destruct (merge_members_map [] (enc <$> data) (NoDup_nil_2)) as [Hnd Hmap].
  rewrite <- Hms in Hnd, Hmap. simpl in Hmap. rewrite (right_id_L ∅ (∪)) in Hmap.
  split.
  { apply json_exact_object. eapply Forall_impl; [exact Hstr|].
    by intros [k v] (_ & s & -> & _). }
  exists (prod_map id json_str <$> ms). split; [by apply batch_strings_str|].
  rewrite !put_all_union. f_equal. rewrite list_to_map_reverse.
  - rewrite list_to_map_fmap, Hmap, <- list_to_map_fmap, fmap_reverse, <- list_fmap_compose.
    f_equal. rewrite <- (list_fmap_id data) at 2. f_equal.
    apply list_fmap_ext. by intros i [k v] _.
  - by rewrite <- list_fmap_compose.
Qed.
End Batch.

Section ExtensionFacts.
Context {D : Type} {P : DatabasePlugin D} {L : DatabaseLaws D} {Rel : DatabaseReliable D}.
Context {R : RapidJSON} {RL : RapidJSONLaws R} {B : Boost}.

Lemma call_get d k s :
  core_registry_call {["action" := "get"; "domain" := d; "key" := k]} s
  = (let* (st, v) := active_get d k in ret (st, [{["v" := default "" v]}])) (s : DbState D).
Proof.
  unfold core_registry_call, DatabasePlugin_call. simplify_map_eq. simpl.
  unfold_M. unfold active_get, on_active. by repeat case_match; simplify_eq.
Qed.

Lemma call_put d k v s :
  core_registry_call {["action" := "put"; "domain" := d; "key" := k; "value" := v]} s
  = (let* st := active_put d k v in ret (st, [])) (s : DbState D).
Proof.
  unfold core_registry_call, DatabasePlugin_call. simplify_map_eq. simpl.
  unfold_M. unfold active_put, on_active. by repeat case_match; simplify_eq.
Qed.

Lemma call_remove d k s :
  core_registry_call {["action" := "remove"; "domain" := d; "key" := k]} s
  = (let* st := active_remove d k in ret (st, [])) (s : DbState D).
Proof.
  unfold core_registry_call, DatabasePlugin_call. simplify_map_eq. simpl.
  unfold_M. unfold active_remove, on_active. by repeat case_match; simplify_eq.
Qed.

Lemma call_remove_range d low high s :
  core_registry_call {["action" := "remove_range"; "domain" := d; "key" := low;
                       "key_high" := high]} (s : DbState D)
  = (Ok (mkStatus 1 "Missing range", []), s).
Proof. unfold core_registry_call, DatabasePlugin_call. by simplify_map_eq. Qed.

Lemma call_scan d prefix max s : in_u64 max ->
  core_registry_call {["action" := "scan"; "domain" := d; "prefix" := prefix;
                       "max" := to_string max]} s
  = (let* (st, keys) := active_scan d prefix max in
     ret (st, (fun k => {["k" := k]}) <$> keys)) (s : DbState D).
Proof.
  intros Hm. unfold core_registry_call, DatabasePlugin_call, request_at.
  simplify_map_eq. simpl.
  rewrite stoul_to_string by done. unfold_M. unfold active_scan, on_active.
  by repeat case_match; simplify_eq.
Qed.

Lemma call_putBatch d ms data s :
  json_exact (JObject ms) = true -> batch_strings ms = Some data ->
  core_registry_call {["action" := "putBatch"; "domain" := d;
                       "json" := c_str (rj_write (JObject ms))]} s
  = (let* st := active_putBatch d data in ret (st, [])) (s : DbState D).
Proof.
  intros He Hb. unfold core_registry_call, DatabasePlugin_call. simplify_map_eq. simpl.
  unfold JSON_fromString. rewrite c_str_idem, rj_roundtrip by done. unfold_M. simpl. rewrite Hb.
  unfold active_putBatch, on_active. by repeat case_match; simplify_eq.
Qed.

Lemma omap_singleton_k (keys : list string) :
  omap (fun item : gmap string string => item !! "k") ((fun k => {["k" := k]}) <$> keys) = keys.
Proof.
  induction keys as [|k keys IH]; [done|]. rewrite fmap_cons. simpl.
  rewrite lookup_singleton_eq. f_equal. exact IH.
Qed.

Lemma extension_get s d k : core_ready s -> d ∈ kDomains ->
  getDatabaseValue true core_registry_call d k s
  = getDatabaseValue false core_registry_call d k (s : DbState D).
Proof.
  intros Hr Hd. destruct (api_get_law s d k ltac:(exact Hr) Hd) as (st & Hget & Hok).
  pose proof Hget as Hget'. simpl in Hget'. rewrite Hget'.
  unfold getDatabaseValue in *. rewrite domain_nonempty in * by done.
  unfold bind at 1. rewrite call_get.
  destruct Hr as [Hi _]. rewrite local_access_run in Hget' by done.
  unfold bind, ret. rewrite Hget'.
  destruct (Status_ok st) eqn:E.
  - destruct (proj1 Hok eq_refl) as [v Hv]. simpl in Hv. rewrite Hv. simpl.
    by rewrite lookup_singleton_eq.
  - assert (core_view s d !! k = None) as ->; [|done].
    apply eq_None_not_Some. intros H. by apply Hok in H.
Qed.

Lemma extension_scan s d prefix max : core_ready s -> d ∈ kDomains -> in_u64 max ->
  scanDatabaseKeys true core_registry_call d prefix max s
  = scanDatabaseKeys false core_registry_call d prefix max (s : DbState D).
Proof.
  intros Hr Hd Hm. unfold scanDatabaseKeys. rewrite domain_nonempty by done.
  unfold bind at 1. rewrite call_scan by done. destruct Hr as [Hi _].
  rewrite local_access_run by done. unfold bind, ret.
  destruct (active_scan d prefix max s) as [[[st keys]|e] s']; [|done].
  by rewrite omap_singleton_k.
Qed.

Lemma extension_delete s d k : core_ready s -> d ∈ kDomains ->
  deleteDatabaseValue true core_registry_call d k s
  = deleteDatabaseValue false core_registry_call d k (s : DbState D).
Proof.
  intros Hr Hd. unfold deleteDatabaseValue. rewrite domain_nonempty by done.
  unfold bind at 1. rewrite call_remove. destruct Hr as [Hi _].
  rewrite local_access_run by done. unfold bind, ret.
  by destruct (active_remove d k s) as [[st|e] s'].
Qed.

(** The dispatch of one write on the active plugin. *)
Lemma active_put_run s d k v : core_ready s -> d ∈ kDomains ->
  exists st s', active_put d k v s = (Ok st, s') /\ Status_ok st = true /\
    core_ready s' /\
    forall d', core_view s' d' = update_domain (core_view s) d (<[k := v]> (core_view s d)) d'.
Proof.
  intros [Hi Hr] Hd. destruct s as [p e a i]. unfold active_put, on_active, core_ready, core_view in *.
  simpl in *. destruct a; simpl.
  - pose proof (@put_law _ _ EphemeralFacts.laws e d k v Hr Hd) as H. simpl in H.
    eexists _, _. split; [done|]. simpl. naive_solver.
  - pose proof (put_law p d k v Hr Hd) as H. pose proof (put_ok p d k v Hr Hd) as Ho.
    destruct (db_put p d k v) as [st p']. simpl in Ho. rewrite Ho in H.
    eexists _, _. split; [done|]. simpl. naive_solver.
Qed.

Lemma local_batch_run s d data : core_ready s -> d ∈ kDomains ->
  exists st s', active_putBatch d data s = (Ok st, s') /\ Status_ok st = true /\
    core_ready s' /\
    forall d', core_view s' d' = update_domain (core_view s) d (put_all (core_view s d) data) d'.
Proof.
  intros Hr Hd. destruct (api_set_batch_law s d data ltac:(exact Hr) Hd) as (st & s' & Hset & Hr' & Hv).
  pose proof (api_set_batch_ok s d data st s' ltac:(exact Hr) Hd Hset) as Hok.
  simpl in Hset. unfold setDatabaseBatch in Hset.
  rewrite domain_nonempty, local_access_run in Hset by (done || apply Hr).
  exists st, s'. rewrite Hok in Hv. done.
Qed.
End ExtensionFacts.

(** ** Migrations *)

Section MigrationFacts.
Context {S : Type} {A : DatabaseAPI S} {L : DatabaseAPILaws S}.
Context {R : RapidJSON} {B : Boost} {PT : PTree}.

(** Ready, with the settings domain as it was. *)
Definition settings_kept (m : gmap string string) (s : S) : Prop :=
  api_ready s /\ api_view s kPersistentSettings = m.

Lemma api_set_run s d k v : api_ready s -> d ∈ kDomains ->
  exists st s', api_set d k v s = (Ok st, s') /\ api_ready s' /\
    forall d', api_view s' d' =
      if Status_ok st then update_domain (api_view s) d (<[k := v]> (api_view s d)) d'
      else api_view s d'.
Proof. intros Hr Hd. exact (api_set_batch_law s d [(k, v)] Hr Hd). Qed.

Lemma api_set_keeps_settings m s d k v :
  settings_kept m s -> d ∈ kDomains -> d <> kPersistentSettings ->
  exists st s', api_set d k v s = (Ok st, s') /\ settings_kept m s'.
Proof.
  intros [Hr Hm] Hd Hne. destruct (api_set_run s d k v Hr Hd) as (st & s' & E & Hr' & Hv).
  exists st, s'. split; [done|]. split; [done|]. rewrite Hv, <- Hm.
  destruct (Status_ok st); [|done]. unfold update_domain. by case_decide.
Qed.

Lemma api_delete_keeps_settings m s d k :
  settings_kept m s -> d ∈ kDomains -> d <> kPersistentSettings ->
  exists st s', api_delete d k s = (Ok st, s') /\ settings_kept m s'.
Proof.
  intros [Hr Hm] Hd Hne. destruct (api_delete_law s d k Hr Hd) as (st & s' & E & Hr' & Hv).
  exists st, s'. split; [done|]. split; [done|]. rewrite Hv, <- Hm.
  destruct (Status_ok st); [|done]. unfold update_domain. by case_decide.
Qed.

Lemma kQueries_domain : kQueries ∈ kDomains /\ kQueries <> kPersistentSettings.
Proof. split; [by apply (bool_decide_unpack _); vm_compute | done]. Qed.
Lemma kEvents_domain : kEvents ∈ kDomains /\ kEvents <> kPersistentSettings.
Proof. split; [by apply (bool_decide_unpack _); vm_compute | done]. Qed.
Lemma kPersistentSettings_domain : kPersistentSettings ∈ kDomains.
Proof. by apply (bool_decide_unpack _); vm_compute. Qed.

Lemma migrateV0V1_run m s : settings_kept m s ->
  exists st s', migrateV0V1 s = (Ok st, s') /\ settings_kept m s'.
Proof.
  intros Hs. destruct kQueries_domain as [Hd Hne]. unfold migrateV0V1, bind at 1.
  destruct (api_scan_law s kQueries "" ltac:(apply Hs) Hd) as (st & keys & -> & _).
  destruct (Status_ok st); simpl; [|by eexists _, _].
  unfold bind at 1.
  match goal with |- context [for_each keys ?f s] =>
    destruct (for_each_total (settings_kept m) keys f s) as (s' & -> & Hs'); [|done|] end.
  - intros key s1 _ Hs1. destruct (_ || _); [by eexists|].
    unfold bind at 1.
    destruct (api_get_law s1 kQueries key ltac:(apply Hs1) Hd) as (st1 & -> & _).
    destruct (Status_ok st1); simpl; [|by eexists].
    destruct (ptreeToRapidJSON _) as [st2 out]. destruct (Status_ok st2); simpl; [|by eexists].
    destruct (api_set_keeps_settings m s1 kQueries key out Hs1 Hd Hne) as (st3 & s3 & E & Hs3).
    exists s3. unfold bind. by rewrite E.
  - by eexists _, s'.
Qed.

Lemma migrateV1V2_run m s : settings_kept m s ->
  exists st s', migrateV1V2 s = (Ok st, s') /\ settings_kept m s'.
Proof.
  intros Hs. destruct kEvents_domain as [Hd Hne]. unfold migrateV1V2, bind at 1.
  destruct (api_scan_law s kEvents "" ltac:(apply Hs) Hd) as (st & keys & -> & _).
  destruct (Status_ok st); simpl; [|by eexists _, _].
  unfold bind at 1.
  match goal with |- context [for_each keys ?f s] =>
    destruct (for_each_total (settings_kept m) keys f s) as (s' & -> & Hs'); [|done|] end.
  - intros key s1 _ Hs1. destruct (String.index 0 audit_str key) as [pos|]; [|by eexists].
    unfold bind at 1.
    destruct (api_get_law s1 kEvents key ltac:(apply Hs1) Hd) as (st1 & -> & _).
    destruct (Status_ok st1); simpl; [|by eexists]. unfold bind at 1.
    destruct (api_set_keeps_settings m s1 kEvents (audit_rename pos key)
                (default "" (api_view s1 kEvents !! key)) Hs1 Hd Hne) as (st3 & s3 & -> & Hs3).
    destruct (Status_ok st3); simpl; [|by eexists].
    destruct (api_delete_keeps_settings m s3 kEvents key Hs3 Hd Hne) as (st4 & s4 & E & Hs4).
    exists s4. unfold bind. by rewrite E.
  - by eexists _, s'.
Qed.

Lemma migrate_run v m s : settings_kept m s ->
  exists st s', migrate v s = (Ok st, s') /\ settings_kept m s' /\
    (Status_ok st = true -> v = 0 \/ v = 1)%Z.
Proof.
  intros Hs. unfold migrate. repeat case_decide; subst.
  - destruct (migrateV0V1_run m s Hs) as (st & s' & E & Hs'). eexists _, _. naive_solver.
  - destruct (migrateV1V2_run m s Hs) as (st & s' & E & Hs'). eexists _, _. naive_solver.
  - eexists _, _. split; [done|]. split; [done|]. done.
Qed.

(** At most three turns: only versions 0 and 1 go on. *)
Definition upgrade_fuel (v : Z) : nat :=
  if decide (v = 0)%Z then 3 else if decide (v = 1)%Z then 2 else 1.

Lemma upgrade_loop_run fuel v to s :
  (upgrade_fuel v <= fuel)%nat -> api_ready s ->
  exists st s', upgrade_loop fuel v to s = (Ok (Some st), s') /\ api_ready s' /\
    (Status_ok st = true ->
     (v = to /\ s' = s) \/
     api_view s' kPersistentSettings !! kDbVersionKey = Some (to_string to)).
Proof.
  revert v s. induction fuel as [|fuel IH]; intros v s Hf Hr.
  { exfalso. unfold upgrade_fuel in Hf. repeat case_decide; lia. }
  simpl. case_decide as Hv; [by eexists _, _; naive_solver|].
  unfold bind at 1.
  destruct (migrate_run v (api_view s kPersistentSettings) s) as (st & s1 & -> & [Hr1 Hm1] & Hok);
    [done|].
  destruct (Status_ok st); simpl; [|by eexists _, _; naive_solver].
  unfold bind at 1.
  destruct (api_set_run s1 kPersistentSettings kDbVersionKey (to_string (v + 1)) Hr1
              kPersistentSettings_domain) as (st2 & s2 & -> & Hr2 & Hv2).
  destruct (Status_ok st2) eqn:E2; simpl; [|by eexists _, _; naive_solver].
  specialize (Hok eq_refl).
  destruct (IH (v + 1)%Z s2) as (st3 & s3 & E3 & Hr3 & H3); [|done|].
  { unfold upgrade_fuel in *. destruct Hok as [-> | ->]; simpl in *; lia. }
  eexists _, _. split; [exact E3|]. split; [done|]. intros Hst. right.
  destruct (H3 Hst) as [[<- ->]|]; [|done].
  rewrite Hv2. unfold update_domain. case_decide; [|done]. by rewrite lookup_insert_eq.
Qed.

Lemma upgrade_fuel_3 v : (upgrade_fuel v <= 3)%nat.
Proof. unfold upgrade_fuel. repeat case_decide; lia. Qed.
End MigrationFacts.

(** ** Properties *)

Section Properties.
Context {D : Type} {P : DatabasePlugin D} {L : DatabaseLaws D} {Rel : DatabaseReliable D}.
Context {R : RapidJSON} {RL : RapidJSONLaws R} {B : Boost}.

(** C10: Reading, scanning and deleting through an extension gives exactly the
    outcome and the state of the same call inside the core. *)
Theorem extension_reads_refine_core (s : DbState D) d k prefix max :
  core_ready s -> d ∈ kDomains -> in_u64 max ->
  getDatabaseValue true core_registry_call d k s
    = getDatabaseValue false core_registry_call d k s /\
  scanDatabaseKeys true core_registry_call d prefix max s
    = scanDatabaseKeys false core_registry_call d prefix max s /\
  deleteDatabaseValue true core_registry_call d k s
    = deleteDatabaseValue false core_registry_call d k s.
Proof.
  intros Hr Hd Hm.
  split; [by apply extension_get|]. split; [by apply extension_scan | by apply extension_delete].
Qed.

(** C9: A batch written by an extension, sent as one "put" or as a JSON object,
    leaves the store with the same contents as the batch written by the core. *)
Theorem extension_writes_refine_core (s : DbState D) d data :
  core_ready s -> d ∈ kDomains -> data <> [] ->
  Forall (fun kv => nul_free kv.1 /\ nul_free kv.2) data ->
  exists st1 s1 st2 s2,
    setDatabaseBatch true core_registry_call d data s = (Ok st1, s1) /\
    setDatabaseBatch false core_registry_call d data s = (Ok st2, s2) /\
    Status_ok st1 = true /\ Status_ok st2 = true /\ core_ready s1 /\ core_ready s2 /\
    forall d', core_view s1 d' = core_view s2 d'.
Proof.
  intros Hr Hd Hne Hnul.
  destruct (local_batch_run s d data Hr Hd) as (st2 & s2 & E2 & Ho2 & Hr2 & Hv2).
  destruct (batch_roundtrip data (core_view s d) Hnul) as (Hex & data' & Hb & Hput).
  destruct (local_batch_run s d data' Hr Hd) as (st1 & s1 & E1 & Ho1 & Hr1 & Hv1).
  unfold setDatabaseBatch. rewrite domain_nonempty by done.
  rewrite local_access_run by apply Hr.
  destruct data as [|[k v] [|kv data]]; [done| |]; simpl.
  - destruct (active_put_run s d k v Hr Hd) as (st & s' & E & Ho & Hr' & Hv').
    exists st, s', st2, s2. unfold bind at 1. rewrite call_put. unfold bind. rewrite E, E2.
    split; [done|]. repeat (split; [done|]). intros d'. rewrite Hv', Hv2. done.
  - exists st1, s1, st2, s2. unfold sendPutBatchDatabaseRequest, JSON_toString. simpl.
    simpl in Hex, Hb. unfold bind at 1. rewrite (call_putBatch d _ data') by done.
    unfold bind. rewrite E1, E2. repeat (split; [done|]).
    intros d'. rewrite Hv1, Hv2, Hput. done.
Qed.

(** Deleting a key range through an extension never deletes anything: the
    request carries "key_high" while the dispatcher tests for "high", so the
    call always fails with "Missing range" and leaves the store untouched. *)
Theorem extension_range_delete_fails (s : DbState D) d low high :
  is_empty d = false ->
  deleteDatabaseRange true core_registry_call d low high s
  = (Ok (mkStatus 1 "Missing range"), s).
Proof.
  intros Hd. unfold deleteDatabaseRange. rewrite Hd. unfold bind at 1.
  by rewrite call_remove_range.
Qed.

(** After a "reset" action that does not throw the store is initialized and
    usable: the configured plugin when it set up, otherwise the empty in-memory
    store. *)
Theorem reset_leaves_usable_store (s : DbState D) d1 d2 st :
  active_ephemeral s = false -> db_tearDown (plugin s) = (Ok tt, d1) ->
  db_setUp d1 = (Ok st, d2) -> (Status_ok st = true -> db_ready d2) ->
  exists s', DatabasePlugin_call {["action" := "reset"]} s = (Ok (st, []), s') /\
    core_ready s' /\ active_ephemeral s' = negb (Status_ok st) /\
    (Status_ok st = false -> forall d, core_view s' d = ∅).
Proof.
  intros Ha Ht Hs Hrd. unfold DatabasePlugin_call. rewrite lookup_singleton_eq. simpl.
  destruct s as [p e a i]. simpl in *. subst a.
  unfold DatabasePlugin_reset, active_run, bind, modify, zoom, ret. simpl. rewrite Ht, Hs.
  destruct (Status_ok st) eqn:E; simpl.
  - eexists. split; [done|]. split; [|done]. split; [done|]. simpl. auto.
  - eexists. split; [done|]. split; [|split; [done|]].
    + split; [done|]. simpl. intros d k v. unfold Ephemeral.domain_map.
      by rewrite lookup_empty.
    + intros _ d. unfold core_view. simpl. unfold EphemeralFacts.view, Ephemeral.domain_map.
      rewrite lookup_empty. apply omap_empty.
Qed.

(** [checkDB] answers only whether [setUp] succeeded: when a write was
    required and the store opened read-only the answer is still positive. *)
Theorem checkDB_ignores_read_only require_write (d d1 d2 : D) st :
  db_setUp d = (Ok st, d1) -> db_tearDown d1 = (Ok tt, d2) ->
  DatabasePlugin_checkDB require_write d = (Ok (Status_ok st), d2).
Proof.
  intros Hs Ht. unfold DatabasePlugin_checkDB, catch, bind, gets, ret. by rewrite Hs, Ht.
Qed.
End Properties.

(** With three units of fuel an upgrade always ends with a status, on any
    ready store, for any stored and any requested version; when it reports
    success the store either was at that version already (and is unchanged) or
    now records the requested version. *)
Theorem upgrade_terminates {S} {A : DatabaseAPI S} {L : DatabaseAPILaws S}
    {R : RapidJSON} {B : Boost} {PT : PTree} fuel to (s : S) :
  (3 <= fuel)%nat -> api_ready s ->
  exists st s', upgradeDatabase fuel to s = (Ok (Some st), s') /\ api_ready s' /\
    (Status_ok st = true ->
     s' = s \/ api_view s' kPersistentSettings !! kDbVersionKey = Some (to_string to)).
Proof.
  intros Hf Hr. unfold upgradeDatabase, bind at 1.
  destruct (api_get_law s kPersistentSettings kDbVersionKey Hr kPersistentSettings_domain)
    as (st & -> & _).
  assert (forall v, exists st s', upgrade_loop fuel v to s = (Ok (Some st), s') /\ api_ready s' /\
    (Status_ok st = true ->
     s' = s \/ api_view s' kPersistentSettings !! kDbVersionKey = Some (to_string to))) as Hloop.
  { intros v. destruct (upgrade_loop_run fuel v to s) as (st' & s' & E & Hr' & H);
      [pose proof (upgrade_fuel_3 v); lia | done |].
    exists st', s'. naive_solver. }
  destruct (Status_ok st); [|apply Hloop].
  destruct (tryTo TInt _ 10) as [v|e]; [apply Hloop|].
  eexists _, _. split; [done|]. split; [done|]. by left.
Qed.
