(* ===== verification/Query.v ===== *)
(** * Scheduled query results (osquery/core/query.cpp, include/osquery/query.h)

    Rows, their JSON form, the differential between two executions, and the
    database-backed [Query] object that stores the last results of a scheduled
    query, its epoch and its counter. *)
From S2P Require Import Prelude Boost Conversions Json Database.

(** ** Data *)

Abbreviation Row := (gmap string string).
Abbreviation QueryData := (list (gmap string string)).
Abbreviation ColumnNames := (list string).

(** [operator<] of [std::map]: lexicographic on the (key, value) pairs. *)
Fixpoint pairs_lt (a b : list (string * string)) : bool :=
  match a, b with
  | [], [] => false
  | [], _ :: _ => true
  | _ :: _, [] => false
  | (k1, v1) :: a, (k2, v2) :: b =>
      if decide (k1 = k2) then
        if decide (v1 = v2) then pairs_lt a b else String.leb v1 v2
      else String.leb k1 k2
  end.

Definition row_lt (a b : Row) : bool := pairs_lt (map_sorted a) (map_sorted b).

(** [QueryDataSet = std::multiset<Row>], kept in iteration order. *)
Abbreviation QueryDataSet := (list (gmap string string)).

Fixpoint mset_insert (r : Row) (s : QueryDataSet) : QueryDataSet :=
  match s with
  | [] => [r]
  | x :: s' => if row_lt r x then r :: s else x :: mset_insert r s'
  end.

(** [auto item = old.find(i); if (item != end) old.erase(item)]. *)
Fixpoint mset_erase (r : Row) (s : QueryDataSet) : option QueryDataSet :=
  match s with
  | [] => None
  | x :: s => if decide (x = r) then Some s else cons x <$> mset_erase r s
  end.

Record DiffResults := mkDiff { added : QueryData; removed : QueryData }.

Record QueryLogItem := {
  results : DiffResults;
  snapshot_results : QueryData;
  item_name : string;
  identifier : string;
  item_time : Z;
  epoch : Z;
  item_counter : Z;
  calendar_time : string;
  decorations : gmap string string;
  columns : ColumnNames;
}.

(** ** The differential *)

(** The first loop of [diff]: what is left of [old], and the added rows. *)
Fixpoint diff_loop (old : QueryDataSet) (current : QueryData) (acc : QueryData)
    : QueryDataSet * QueryData :=
  match current with
  | [] => (old, acc)
  | i :: current =>
      match mset_erase i old with
      | Some old => diff_loop old current acc
      | None => diff_loop old current (acc ++ [i])
      end
  end.

Definition diff (old : QueryDataSet) (current : QueryData) : DiffResults :=
  let '(old, add) := diff_loop old current [] in mkDiff add old.

Definition addUniqueRowToQueryData (q : QueryData) (r : Row) : bool * QueryData :=
  if decide (r ∈ q) then (false, q) else (true, q ++ [r]).

(** ** Serialization *)

Section Serialize.
Context {R : RapidJSON}.

(** Members of an object after [serializeRow(r, cols, doc, obj)]. *)
Definition serializeRow (r : Row) (cols : ColumnNames) (obj : members) : members :=
  match cols with
  | [] => foldl (fun ms kv => add_member kv.1 (JString kv.2) ms) obj (map_sorted r)
  | _ => foldl (fun ms c => match r !! c with
                            | Some v => add_member c (JString v) ms
                            | None => ms
                            end) obj cols
  end.

Definition serializeRowJSON (r : Row) : Status * string :=
  JSON_toString (JObject (serializeRow r [] [])).

(** One step of the loop of [deserializeRow]. *)
Definition deserialize_member (r : Row) (i : string * json) : Row :=
  let name := c_str i.1 in
  match i.2 with
  | JString v => if is_empty name then r else <[name := c_str v]> r
  | _ => r
  end.

Definition deserializeRow (doc : json) (r : Row) : Status * Row :=
  match doc with
  | JObject ms => (Status_success, foldl deserialize_member r ms)
  | _ => (Status1 1, r)
  end.

Definition deserializeRowJSON (text : string) (r : Row) : Status * Row :=
  match JSON_parse_if IsObject text with
  | None => (mkStatus 1 "Cannot deserializing JSON", r)
  | Some doc => deserializeRow doc r
  end.

(** The elements appended to [arr] by [serializeQueryData(q, cols, doc, arr)]. *)
Definition serializeQueryData (q : QueryData) (cols : ColumnNames) : list json :=
  (fun r => JObject (serializeRow r cols [])) <$> q.

Definition serializeQueryDataJSON (q : QueryData) : Status * string :=
  JSON_toString (JArray (serializeQueryData q [])).

(** The loop of [deserializeQueryData]: the rows read so far are kept when a
    row fails. [ins] is [push_back] or [insert]. *)
Fixpoint deserialize_rows (ins : Row -> QueryData -> QueryData) (arr : list json)
    (qd : QueryData) : Status * QueryData :=
  match arr with
  | [] => (Status_success, qd)
  | i :: arr =>
      match deserializeRow i ∅ with
      | (st, r) => if negb (Status_ok st) then (st, qd)
                   else deserialize_rows ins arr (ins r qd)
      end
  end.

Definition push_back (r : Row) (qd : QueryData) : QueryData := qd ++ [r].

Definition deserializeQueryData (v : json) (qd : QueryData) : Status * QueryData :=
  match v with
  | JArray arr => deserialize_rows push_back arr qd
  | _ => (Status1 1, qd)
  end.

Definition deserializeQueryDataSet (v : json) (qd : QueryDataSet) : Status * QueryDataSet :=
  match v with
  | JArray arr => deserialize_rows mset_insert arr qd
  | _ => (mkStatus 1 "JSON object was not an array", qd)
  end.

Definition deserializeQueryDataJSON (text : string) (qd : QueryData) : Status * QueryData :=
  match JSON_parse_if IsArray text with
  | None => (mkStatus 1 "Cannot deserializing JSON", qd)
  | Some doc => deserializeQueryData doc qd
  end.

(** The overload that fills a [QueryDataSet]. *)
Definition deserializeQueryDataSetJSON (text : string) (qd : QueryDataSet)
    : Status * QueryDataSet :=
  match rj_parse (c_str text) with
  | None => (mkStatus 1 "Error serializing JSON", qd)
  | Some doc => deserializeQueryDataSet doc qd
  end.

(** "removed" is added before "added". *)
Definition serializeDiffResults (d : DiffResults) (cols : ColumnNames) (obj : members)
    : members :=
  let obj := add_member "removed" (JArray (serializeQueryData (removed d) cols)) obj in
  add_member "added" (JArray (serializeQueryData (added d) cols)) obj.

Definition serializeDiffResultsJSON (d : DiffResults) : Status * string :=
  JSON_toString (JObject (serializeDiffResults d [] [])).

Definition deserializeDiffResults (doc : json) (dr : DiffResults) : Status * DiffResults :=
  match doc with
  | JObject ms =>
      let '(st, rem) := match member "removed" ms with
                        | Some v => deserializeQueryData v (removed dr)
                        | None => (Status_success, removed dr)
                        end in
      let dr := mkDiff (added dr) rem in
      if negb (Status_ok st) then (st, dr)
      else
        let '(st, add) := match member "added" ms with
                          | Some v => deserializeQueryData v (added dr)
                          | None => (Status_success, added dr)
                          end in
        (st, mkDiff add (removed dr))
  | _ => (Status1 1, dr)
  end.
End Serialize.

(** ** Log items *)

Section LogItem.
Context {R : RapidJSON}.
Context (FLAGS_decorations_top_level : bool).

Definition add_decorations (decs : gmap string string) (obj : members) : members :=
  foldl (fun ms kv => add_member kv.1 (JString kv.2) ms) obj (map_sorted decs).

Definition addLegacyFieldsAndDecorations (item : QueryLogItem) (obj : members) : members :=
  let obj := add_member "name" (JString (item_name item)) obj in
  let obj := add_member "hostIdentifier" (JString (identifier item)) obj in
  let obj := add_member "calendarTime" (JString (calendar_time item)) obj in
  let obj := add_member "unixTime" (JInt (item_time item)) obj in
  let obj := add_member "epoch" (JInt (epoch item)) obj in
  let obj := add_member "counter" (JInt (item_counter item)) obj in
  if decide (decorations item = ∅) then obj
  else if FLAGS_decorations_top_level then add_decorations (decorations item) obj
  else add_member "decorations" (JObject (add_decorations (decorations item) [])) obj.

(** [obj["key"]] on a missing member is a violated precondition. *)
Definition at_member (key : string) (ms : members) : result json :=
  match member key ms with Some v => Ok v | None => Throw AssertFailure end.

Definition res_bind {A C} (r : result A) (f : A -> result C) : result C :=
  match r with Ok a => f a | Throw e => Throw e end.

Fixpoint read_decorations (ms : members) (acc : gmap string string)
    : result (gmap string string) :=
  match ms with
  | [] => Ok acc
  | (k, v) :: ms =>
      res_bind (GetString v) (fun s => read_decorations ms (<[c_str k := s]> acc))
  end.

Definition getLegacyFieldsAndDecorations (ms : members) (item : QueryLogItem)
    : result QueryLogItem :=
  res_bind (match member "decorations" ms with
            | Some (JObject decs) => read_decorations decs (decorations item)
            | _ => Ok (decorations item)
            end) (fun decs =>
  res_bind (res_bind (at_member "name" ms) GetString) (fun n =>
  res_bind (res_bind (at_member "hostIdentifier" ms) GetString) (fun ident =>
  res_bind (res_bind (at_member "calendarTime" ms) GetString) (fun cal =>
  res_bind (res_bind (at_member "unixTime" ms) GetUint64) (fun t =>
  Ok {| results := results item; snapshot_results := snapshot_results item;
        item_name := n; identifier := ident; item_time := t; epoch := epoch item;
        item_counter := item_counter item; calendar_time := cal; decorations := decs;
        columns := columns item |}))))).

Definition is_nil {A} (l : list A) : bool := match l with [] => true | _ => false end.

Definition has_diff (item : QueryLogItem) : bool :=
  negb (is_nil (added (results item))) || negb (is_nil (removed (results item))).

Definition serializeQueryLogItem (item : QueryLogItem) (doc : members) : members :=
  let doc :=
    if has_diff item then
      add_member "diffResults" (JObject (serializeDiffResults (results item) (columns item) [])) doc
    else
      let doc := add_member "snapshot"
                   (JArray (serializeQueryData (snapshot_results item) (columns item))) doc in
      add_member "action" (JString "snapshot") doc in
  addLegacyFieldsAndDecorations item doc.

Definition serializeQueryLogItemJSON (item : QueryLogItem) : Status * string :=
  JSON_toString (JObject (serializeQueryLogItem item [])).

(** [serializeEvent(item, event_obj, doc, obj)]. *)
Fixpoint event_columns (ms : members) (acc : members) : result members :=
  match ms with
  | [] => Ok acc
  | (k, v) :: ms =>
      res_bind (GetString v) (fun s => event_columns ms (add_member (c_str k) (JString s) acc))
  end.

Definition serializeEvent (item : QueryLogItem) (event_obj : json) (obj : members)
    : result members :=
  let obj := addLegacyFieldsAndDecorations item obj in
  res_bind (GetObject event_obj) (fun ms =>
  res_bind (event_columns ms []) (fun cols =>
  Ok (add_member "columns" (JObject cols) obj))).

(** The rows of one action ("removed", "added" or "snapshot"). *)
Fixpoint action_events (item : QueryLogItem) (action : string) (rows : list json)
    (doc : list json) : result (list json) :=
  match rows with
  | [] => Ok doc
  | row :: rows =>
      res_bind (serializeEvent item row []) (fun obj =>
      action_events item action rows
        (doc ++ [JObject (add_member "action" (JString (c_str action)) obj)]))
  end.

Fixpoint all_events (item : QueryLogItem) (actions : members) (doc : list json)
    : result (list json) :=
  match actions with
  | [] => Ok doc
  | (action, value) :: actions =>
      res_bind (GetArray value) (fun rows =>
      res_bind (action_events item action rows doc) (fun doc => all_events item actions doc))
  end.

Definition serializeQueryLogItemAsEvents (item : QueryLogItem) (doc : list json)
    : result (Status * list json) :=
  let temp :=
    if has_diff item then Some (serializeDiffResults (results item) (columns item) [])
    else if negb (is_nil (snapshot_results item)) then
      Some (add_member "snapshot" (JArray (serializeQueryData (snapshot_results item) [])) [])
    else None in
  match temp with
  | None => Ok (mkStatus 1 "No differential or snapshot results", doc)
  | Some temp_doc =>
      res_bind (all_events item temp_doc doc) (fun doc => Ok (Status_success, doc))
  end.

(** One printed line per event. *)
Definition serializeQueryLogItemAsEventsJSON (item : QueryLogItem)
    : result (Status * list string) :=
  res_bind (serializeQueryLogItemAsEvents item []) (fun r =>
  if negb (Status_ok r.1) then Ok (r.1, [])
  else Ok (Status_success, (fun event => c_str (rj_write event)) <$> r.2)).

Definition set_results (item : QueryLogItem) (d : DiffResults) (snap : QueryData) : QueryLogItem :=
  {| results := d; snapshot_results := snap; item_name := item_name item;
     identifier := identifier item; item_time := item_time item; epoch := epoch item;
     item_counter := item_counter item; calendar_time := calendar_time item;
     decorations := decorations item; columns := columns item |}.

Definition deserializeQueryLogItem (doc : json) (item : QueryLogItem)
    : result (Status * QueryLogItem) :=
  match doc with
  | JObject ms =>
      let '(st, item) :=
        match member "diffResults" ms with
        | Some v =>
            let '(st, d) := deserializeDiffResults v (results item) in
            (st, set_results item d (snapshot_results item))
        | None =>
            match member "snapshot" ms with
            | Some v =>
                let '(st, q) := deserializeQueryData v (snapshot_results item) in
                (st, set_results item (results item) q)
            | None => (Status_success, item)
            end
        end in
      if negb (Status_ok st) then Ok (st, item)
      else res_bind (getLegacyFieldsAndDecorations ms item) (fun item => Ok (Status_success, item))
  | _ => Ok (Status1 1, item)
  end.

Definition deserializeQueryLogItemJSON (text : string) (item : QueryLogItem)
    : result (Status * QueryLogItem) :=
  match JSON_parse_if IsObject text with
  | None => Ok (mkStatus 1 "Cannot deserialize JSON", item)
  | Some doc => deserializeQueryLogItem doc item
  end.
End LogItem.

(** ** The database-backed query *)

Section Query.
Context {S : Type} {A : DatabaseAPI S} {R : RapidJSON}.
(** [Query(name, ScheduledQuery)]. *)
Context (name_ query_ : string).

Definition getPreviousEpoch : M S Z :=
  let* (status, raw) := api_get kQueries (name_ +:+ "epoch") in
  if Status_ok status then of_result (stoull 10 (default "" raw)) else ret 0%Z.

Definition getQueryCounter (new_query : bool) : M S Z :=
  if new_query then ret 0%Z
  else
    let* (status, raw) := api_get kQueries (name_ +:+ "counter") in
    if Status_ok status then
      let* c := of_result (stoull 10 (default "" raw)) in ret (u64 (c + 1))
    else ret 0%Z.

Definition getPreviousQueryResults : M S (Status * QueryDataSet) :=
  let* (status, raw) := api_get kQueries name_ in
  if negb (Status_ok status) then ret (status, [])
  else
    let '(status, rows) := deserializeQueryDataSetJSON (default "" raw) [] in
    if negb (Status_ok status) then ret (status, rows)
    else ret (mkStatus 0 "OK", rows).

Definition getStoredQueryNames : M S (list string) :=
  let* (_, names) := api_scan kQueries "" in ret names.

Definition isQueryNameInDatabase : M S bool :=
  let* names := getStoredQueryNames in ret (bool_decide (name_ ∈ names)).

Definition saveQuery : M S unit :=
  api_set kQueries ("query." +:+ name_) query_ ;;; ret tt.

Definition isNewQuery : M S bool :=
  let* query := api_get_str kQueries ("query." +:+ name_) in
  ret (negb (bool_decide (query = query_))).

(** What the head of [addNewResults] decides: (fresh_results, new_query). *)
Definition classify (current_epoch : Z) (calculate_diff : bool) : M S (bool * bool) :=
  let* known := isQueryNameInDatabase in
  if negb known then saveQuery ;;; ret (true, false)
  else
    let* previous_epoch := getPreviousEpoch in
    if negb (previous_epoch =? current_epoch)%Z then ret (true, false)
    else
      let* changed := isNewQuery in
      if changed then saveQuery ;;; ret (negb calculate_diff, true)
      else ret (negb calculate_diff, false).

(** The tail: store the rows and the epoch. *)
Definition store_results (target : QueryData) (current_epoch : Z) : M S Status :=
  let '(status, text) := serializeQueryDataJSON target in
  if negb (Status_ok status) then ret status
  else
    let* status := api_set kQueries name_ text in
    if negb (Status_ok status) then ret status
    else
      let* status := api_set kQueries (name_ +:+ "epoch") (to_string current_epoch) in
      if negb (Status_ok status) then ret status
      else ret (mkStatus 0 "OK").

(** [addNewResults(current_qd, current_epoch, counter, dr, calculate_diff)]:
    the status with the [counter] and [dr] out-parameters. *)
Definition addNewResults (current_qd : QueryData) (current_epoch : Z) (counter : Z)
    (dr : DiffResults) (calculate_diff : bool) : M S (Status * Z * DiffResults) :=
  let* (fresh_results, new_query) := classify current_epoch calculate_diff in
  let* o :=
    (if negb fresh_results && calculate_diff then
       let* (status, previous_qd) := getPreviousQueryResults in
       if negb (Status_ok status) then ret (Return (status, counter, dr))
       else
         let dr := diff previous_qd current_qd in
         ret (Next (dr, current_qd, negb (is_nil (added dr)) || negb (is_nil (removed dr))))
     else ret (Next (mkDiff current_qd (removed dr), current_qd, true))) in
  match o with
  | Return r => ret r
  | Next (dr, target_gd, update_db) =>
      let* counter := getQueryCounter (fresh_results || new_query) in
      let* status := api_set kQueries (name_ +:+ "counter") (to_string counter) in
      if negb (Status_ok status) then ret (status, counter, dr)
      else if update_db then
        let* status := store_results target_gd current_epoch in
        ret (status, counter, dr)
      else ret (mkStatus 0 "OK", counter, dr)
  end.

(** The overload without a differential. *)
Definition addNewResults_nodiff (qd : QueryData) (ep counter : Z) : M S (Status * Z) :=
  let* (st, c, _) := addNewResults qd ep counter (mkDiff [] []) false in ret (st, c).
End Query.
