(* ===== verification/QueryFacts.v ===== *)
(** * Facts about scheduled query results

    The differential is the multiset difference, rows survive the database,
    a successful [addNewResults] leaves the current rows stored, and replaying
    the differentials of a series of executions rebuilds the last result set. *)
From S2P Require Import Prelude Boost Conversions Json Database DatabaseFacts Query.

(** ** The differential *)

Lemma mset_erase_Some r s s' : mset_erase r s = Some s' -> s ≡ₚ r :: s'.
Proof.
  revert s'. induction s as [|x s IH]; intros s'; simpl; [done|].
  case_decide; subst; [by intros [= <-]|].
  intros (t & Ht & ->)%fmap_Some. rewrite (IH _ Ht). apply Permutation_swap.
Qed.

Lemma mset_erase_None r s : mset_erase r s = None <-> r ∉ s.
Proof.
  induction s as [|x s IH]; simpl; [split; [intros _; apply not_elem_of_nil | done]|].
  rewrite not_elem_of_cons. case_decide; subst; [naive_solver|].
  rewrite fmap_None, IH. naive_solver.
Qed.

Lemma mset_erase_sublist r s s' : mset_erase r s = Some s' -> s' `sublist_of` s.
Proof.
  revert s'. induction s as [|x s IH]; intros s'; simpl; [done|].
  case_decide; subst; [intros [= <-]; by constructor|].
  intros (t & Ht & ->)%fmap_Some. constructor. by apply IH.
Qed.

Lemma diff_loop_spec old current acc old' acc' :
  diff_loop old current acc = (old', acc') ->
  old ++ acc' ≡ₚ current ++ old' ++ acc /\
  (Forall (fun r => r ∉ old) acc -> Forall (fun r => r ∉ old') acc') /\
  old' `sublist_of` old /\
  exists new, acc' = acc ++ new /\ new `sublist_of` current.
Proof.
  revert old acc. induction current as [|i current IH]; intros old acc; simpl.
  { intros [= <- <-]. split; [done|]. split; [done|]. split; [done|].
    exists []. by rewrite app_nil_r. }
  destruct (mset_erase i old) as [old1|] eqn:E; intros H.
  - destruct (IH _ _ H) as (H1 & H2 & H3 & new & Hn & H4).
    pose proof (mset_erase_Some _ _ _ E) as Hp. split; [|split; [|split]].
    + rewrite Hp. simpl. by rewrite H1.
    + intros Hacc. apply H2. eapply Forall_impl; [exact Hacc|]. simpl. intros r Hr Hin.
      apply Hr. rewrite Hp. by right.
    + etrans; [exact H3|]. by eapply mset_erase_sublist.
    + exists new. split; [done|]. by constructor.
  - destruct (IH _ _ H) as (H1 & H2 & H3 & new & -> & H4).
    apply mset_erase_None in E. split; [|split; [|split]].
    + rewrite H1. rewrite !app_assoc. rewrite <- Permutation_cons_append.
      by rewrite <- !app_assoc.
    + intros Hacc. apply H2. apply Forall_app. by split; [|constructor].
    + done.
    + exists (i :: new). rewrite <- app_assoc. split; [done|]. by constructor.
Qed.

Lemma diff_perm old current :
  old ++ added (diff old current) ≡ₚ current ++ removed (diff old current).
Proof.
  unfold diff. destruct (diff_loop old current []) as [old' acc'] eqn:E. simpl.
  apply diff_loop_spec in E as (H & _). by rewrite app_nil_r in H.
Qed.

Lemma diff_disjoint old current r :
  r ∈ added (diff old current) -> r ∉ removed (diff old current).
Proof.
  unfold diff. destruct (diff_loop old current []) as [old' acc'] eqn:E. simpl.
  apply diff_loop_spec in E as (_ & H & _). specialize (H ltac:(constructor)).
  intros Hr. by eapply Forall_forall in H.
Qed.

Lemma diff_sublists old current :
  added (diff old current) `sublist_of` current /\ removed (diff old current) `sublist_of` old.
Proof.
  unfold diff. destruct (diff_loop old current []) as [old' acc'] eqn:E. simpl.
  apply diff_loop_spec in E as (_ & _ & H & new & -> & Hn). by split.
Qed.

(** ** Rows survive the database *)

(** What a row must satisfy to be read back: names are not empty and no text
    contains a NUL. *)
Definition row_wf (r : Row) : Prop :=
  map_Forall (fun k v => k <> "" /\ nul_free k /\ nul_free v) r.

Lemma foldl_deserialize ms r :
  Forall str_member ms -> Forall (fun kv => kv.1 <> "") ms ->
  foldl deserialize_member r ms = put_all r (prod_map id json_str <$> ms).
Proof.
  intros H. revert r. induction H as [|[k v] ms [Hk (s & Hv & Hs)] Hms IH]; intros r Hne; [done|].
  inversion Hne as [|? ? Hk' Hne']; subst. simpl in *. subst v.
  rewrite IH by done. unfold put_all at 2. simpl. unfold deserialize_member. simpl.
  rewrite Hk, Hs. by destruct k.
Qed.

Section Rows.
Context {R : RapidJSON} {RL : RapidJSONLaws R}.

Definition enc_row (l : list (string * string)) : members := prod_map id JString <$> l.

Lemma serializeRow_merge r :
  serializeRow r [] [] = merge_members [] (enc_row (map_sorted r)).
Proof.
  unfold serializeRow, merge_members, enc_row. generalize (@nil (string * json)).
  induction (map_sorted r) as [|kv l IH]; intros t; simpl; [done | apply IH].
Qed.

Lemma serializeRow_members r : row_wf r ->
  Forall (fun kv => str_member kv /\ kv.1 <> "") (serializeRow r [] []).
Proof.
  intros Hr. rewrite serializeRow_merge. apply Forall_merge_members; [constructor|].
  apply Forall_fmap, Forall_forall. intros [k v] Hin. apply elem_of_map_sorted in Hin.
  apply Hr in Hin as (H1 & H2 & H3). simpl. split; [|done]. split; simpl; eauto.
Qed.

Lemma serializeRow_map r :
  NoDup (serializeRow r [] []).*1 /\
  (list_to_map (prod_map id json_str <$> serializeRow r [] []) : gmap string string) = r.
Proof.
  rewrite serializeRow_merge.
  destruct (merge_members_map [] (enc_row (map_sorted r)) NoDup_nil_2) as [Hnd Hm].
  split; [done|]. rewrite list_to_map_fmap, Hm. simpl. rewrite (right_id_L ∅ (∪)).
  unfold enc_row. rewrite <- list_to_map_fmap, fmap_reverse, <- list_fmap_compose.
  rewrite list_to_map_reverse.
  - rewrite <- (list_to_map_sorted r) at 2. f_equal.
    rewrite <- (list_fmap_id (map_sorted r)) at 2. apply list_fmap_ext. by intros i [k v] _.
  - rewrite <- list_fmap_compose. apply NoDup_fst_map_sorted.
Qed.

Lemma deserializeRow_serializeRow r : row_wf r ->
  deserializeRow (JObject (serializeRow r [] [])) ∅ = (Status_success, r).
Proof.
  intros Hr. unfold deserializeRow. pose proof (serializeRow_members r Hr) as Hms.
  apply Forall_and in Hms as [H1 H2].
  rewrite foldl_deserialize by done. f_equal.
  destruct (serializeRow_map r) as [Hnd Hm].
  rewrite put_all_union, list_to_map_reverse, Hm.
  - apply (right_id_L ∅ (∪)).
  - by rewrite <- list_fmap_compose.
Qed.

Lemma serializeQueryData_exact q : Forall row_wf q ->
  json_exact (JArray (serializeQueryData q [])) = true.
Proof.
  intros Hq. simpl. apply forallb_forall. intros v Hv.
  apply list_elem_of_In, list_elem_of_fmap in Hv as (r & -> & Hr).
  eapply Forall_forall in Hq; [|exact Hr]. apply json_exact_object.
  eapply Forall_impl; [apply (serializeRow_members r Hq)|].
  intros [k v] [(_ & s & Hs & _) _]. simpl in *. by subst.
Qed.

Lemma serializeQueryData_cons r q cols :
  serializeQueryData (r :: q) cols
  = JObject (serializeRow r cols []) :: serializeQueryData q cols.
Proof. done. Qed.

Lemma deserialize_rows_push q acc : Forall row_wf q ->
  deserialize_rows push_back (serializeQueryData q []) acc = (Status_success, acc ++ q).
Proof.
  intros Hq. revert acc. induction Hq as [|r q Hr Hq IH]; intros acc.
  - simpl. by rewrite app_nil_r.
  - rewrite serializeQueryData_cons. cbn [deserialize_rows].
    rewrite deserializeRow_serializeRow by done. simpl.
    unfold push_back at 2. rewrite IH. by rewrite <- app_assoc.
Qed.

Lemma mset_insert_perm r s : mset_insert r s ≡ₚ r :: s.
Proof.
  induction s as [|x s IH]; simpl; [done|]. destruct (row_lt r x); [done|].
  rewrite IH. apply Permutation_swap.
Qed.

Lemma deserialize_rows_mset q acc : Forall row_wf q ->
  exists rows, deserialize_rows mset_insert (serializeQueryData q []) acc = (Status_success, rows)
  /\ rows ≡ₚ acc ++ q.
Proof.
  intros Hq. revert acc. induction Hq as [|r q Hr Hq IH]; intros acc.
  - exists acc. simpl. by rewrite app_nil_r.
  - rewrite serializeQueryData_cons. cbn [deserialize_rows].
    rewrite deserializeRow_serializeRow by done. simpl.
    destruct (IH (mset_insert r acc)) as (rows & -> & Hp). exists rows. split; [done|].
    rewrite Hp, mset_insert_perm. simpl. by rewrite Permutation_middle.
Qed.

(** The stored text of a result set reads back as the same multiset of rows. *)
Lemma stored_rows_read_back q : Forall row_wf q ->
  exists rows, deserializeQueryDataSetJSON (serializeQueryDataJSON q).2 [] = (Status_success, rows)
  /\ rows ≡ₚ q.
Proof.
  intros Hq. unfold deserializeQueryDataSetJSON, serializeQueryDataJSON, JSON_toString.
  simpl. rewrite c_str_idem, rj_roundtrip by (by apply serializeQueryData_exact).
  by apply (deserialize_rows_mset q []).
Qed.
End Rows.

(** ** Storing results *)

Lemma app_neq_self s t : t <> "" -> s +:+ t <> s.
Proof.
  intros Ht H. apply Ht. apply (app_inj_l_str s). by rewrite app_nil_r_str.
Qed.

Lemma length_append s t : String.length (s +:+ t) = String.length s + String.length t.
Proof. rewrite <- !length_chars, chars_app. apply length_app. Qed.

(** The four keys of one query are distinct. *)
Lemma query_keys name :
  name <> name +:+ "epoch" /\ name <> name +:+ "counter" /\ name <> "query." +:+ name /\
  name +:+ "epoch" <> name +:+ "counter" /\ name +:+ "epoch" <> "query." +:+ name /\
  name +:+ "counter" <> "query." +:+ name.
Proof.
  assert (forall a b, String.length a <> String.length b -> a <> b) as Hl by congruence.
  split_and!; apply Hl; rewrite ?length_append; simpl; lia.
Qed.

#[local] Arguments getQueryCounter : simpl never.

Section Results.
Context {S : Type} {A : DatabaseAPI S} {L : DatabaseAPILaws S} {Rel : DatabaseAPIReliable S}.
Context {R : RapidJSON} {RL : RapidJSONLaws R}.

Abbreviation queries s := (api_view s kQueries).

Lemma set_query_run s k v : api_ready s ->
  exists st s', api_set kQueries k v s = (Ok st, s') /\ Status_ok st = true /\ api_ready s' /\
    queries s' = <[k := v]> (queries s).
Proof.
  intros Hr. destruct kQueries_domain as [Hd _].
  destruct (api_set_run s kQueries k v Hr Hd) as (st & s' & E & Hr' & Hv).
  pose proof (api_set_batch_ok s kQueries [(k, v)] st s' Hr Hd E) as Hok.
  exists st, s'. split_and!; [done..|]. rewrite Hv, Hok. unfold update_domain. by case_decide.
Qed.

Lemma get_query_run s k : api_ready s ->
  exists st, api_get kQueries k s = (Ok (st, queries s !! k), s) /\
    Status_ok st = bool_decide (is_Some (queries s !! k)).
Proof.
  intros Hr. destruct kQueries_domain as [Hd _].
  destruct (api_get_law s kQueries k Hr Hd) as (st & E & Hok). exists st. split; [done|].
  apply Bool.eq_iff_eq_true. by rewrite bool_decide_eq_true.
Qed.

Lemma known_run name s : api_ready s ->
  isQueryNameInDatabase name s = (Ok (bool_decide (is_Some (queries s !! name))), s).
Proof.
  intros Hr. destruct kQueries_domain as [Hd _].
  unfold isQueryNameInDatabase, getStoredQueryNames, bind, ret.
  destruct (api_scan_law s kQueries "" Hr Hd) as (st & keys & E & Hk). rewrite E.
  destruct (Hk (api_scan_ok s kQueries "" st keys s Hr Hd E)) as [_ Hin].
  do 2 f_equal. apply bool_decide_ext. rewrite Hin. by destruct name; naive_solver.
Qed.

Lemma epoch_run name s e : api_ready s -> in_u64 e ->
  queries s !! (name +:+ "epoch") = Some (to_string e) ->
  getPreviousEpoch name s = (Ok e, s).
Proof.
  intros Hr He Hk. unfold getPreviousEpoch, bind at 1.
  destruct (get_query_run s (name +:+ "epoch") Hr) as (st & -> & ->).
  rewrite Hk, bool_decide_true by by eexists. simpl.
  unfold of_result. by rewrite stoull_to_string.
Qed.

Lemma counter_run name s c : api_ready s -> in_u64 c ->
  queries s !! (name +:+ "counter") = Some (to_string c) ->
  getQueryCounter name false s = (Ok (u64 (c + 1)), s).
Proof.
  intros Hr Hc Hk. unfold getQueryCounter, bind at 1.
  destruct (get_query_run s (name +:+ "counter") Hr) as (st & -> & ->).
  rewrite Hk, bool_decide_true by by eexists. simpl.
  unfold_M. by rewrite stoull_to_string.
Qed.

Lemma counter_fresh name s : getQueryCounter name true s = (Ok 0%Z, s).
Proof. done. Qed.

Lemma new_query_run name query s : api_ready s ->
  isNewQuery name query s
  = (Ok (negb (bool_decide (default "" (queries s !! ("query." +:+ name)) = query))), s).
Proof.
  intros Hr. unfold isNewQuery, api_get_str, bind, ret.
  by destruct (get_query_run s ("query." +:+ name) Hr) as (st & -> & _).
Qed.

Lemma previous_results_run name s text rows : api_ready s ->
  queries s !! name = Some text ->
  deserializeQueryDataSetJSON text [] = (Status_success, rows) ->
  getPreviousQueryResults name s = (Ok (mkStatus 0 "OK", rows), s).
Proof.
  intros Hr Hk Hd. unfold getPreviousQueryResults, bind at 1.
  destruct (get_query_run s name Hr) as (st & -> & ->).
  rewrite Hk, bool_decide_true by by eexists. simpl. by rewrite Hd.
Qed.

Lemma store_results_run name s rows e : api_ready s ->
  exists st s', store_results name rows e s = (Ok st, s') /\ Status_ok st = true /\ api_ready s' /\
    queries s' = <[name +:+ "epoch" := to_string e]>
                   (<[name := (serializeQueryDataJSON rows).2]> (queries s)).
Proof.
  intros Hr. unfold store_results. simpl. unfold bind at 1.
  destruct (set_query_run s name (serializeQueryDataJSON rows).2 Hr) as (st & s1 & E & Hok & Hr1 & Hv1).
  simpl in E. rewrite E, Hok. simpl. unfold bind at 1.
  destruct (set_query_run s1 (name +:+ "epoch") (to_string e) Hr1) as (st2 & s2 & E2 & Hok2 & Hr2 & Hv2).
  rewrite E2, Hok2. simpl. eexists _, s2. split_and!; [done..|]. by rewrite Hv2, Hv1.
Qed.

(** The database holds [rows] as the last results of query [name], with this
    text, epoch and counter. *)
Record holds (name query : string) (e c : Z) (rows : QueryData) (s : S) : Prop := {
  h_ready : api_ready s;
  h_rows : exists text stored, queries s !! name = Some text /\
    deserializeQueryDataSetJSON text [] = (Status_success, stored) /\ stored ≡ₚ rows;
  h_epoch : queries s !! (name +:+ "epoch") = Some (to_string e);
  h_query : queries s !! ("query." +:+ name) = Some query;
  h_counter : queries s !! (name +:+ "counter") = Some (to_string c);
}.

Lemma holds_after_store name query e c rows s s1 s2 : Forall row_wf rows ->
  api_ready s2 -> queries s !! ("query." +:+ name) = Some query ->
  queries s1 = <[name +:+ "counter" := to_string c]> (queries s) ->
  queries s2 = <[name +:+ "epoch" := to_string e]>
                 (<[name := (serializeQueryDataJSON rows).2]> (queries s1)) ->
  holds name query e c rows s2.
Proof.
  intros Hwf Hr Hq H1 H2. pose proof (query_keys name) as (K1 & K2 & K3 & K4 & K5 & K6).
  split; [done|..].
  - destruct (stored_rows_read_back rows Hwf) as (stored & E & Hp).
    exists (serializeQueryDataJSON rows).2, stored. split; [|done].
    rewrite H2, lookup_insert_ne, lookup_insert_eq by done. done.
  - by rewrite H2, lookup_insert_eq.
  - rewrite H2, lookup_insert_ne, lookup_insert_ne, H1, lookup_insert_ne by done. done.
  - rewrite H2, lookup_insert_ne, lookup_insert_ne, H1, lookup_insert_eq by done. done.
Qed.

(** The part of [addNewResults] after the differential: counter, rows, epoch. *)
Lemma finish_run name query e c rows s s1 :
  Forall row_wf rows -> api_ready s -> queries s !! ("query." +:+ name) = Some query ->
  (exists st, api_set kQueries (name +:+ "counter") (to_string c) s = (Ok st, s1) /\
    Status_ok st = true) -> api_ready s1 ->
  queries s1 = <[name +:+ "counter" := to_string c]> (queries s) ->
  exists st s2, store_results name rows e s1 = (Ok st, s2) /\ Status_ok st = true /\
    holds name query e c rows s2.
Proof.
  intros Hwf Hr Hq _ Hr1 H1.
  destruct (store_results_run name s1 rows e Hr1) as (st & s2 & E & Hok & Hr2 & H2).
  exists st, s2. split_and!; [done..|]. by eapply (holds_after_store name query e c rows s s1 s2).
Qed.

(** The first execution of a query stores every row and reports all as added. *)
Lemma first_run name query e c0 dr rows s :
  Forall row_wf rows -> api_ready s -> queries s !! name = None ->
  exists st s', addNewResults name query rows e c0 dr true s
      = (Ok (st, 0%Z, mkDiff rows (removed dr)), s') /\
    Status_ok st = true /\ holds name query e 0 rows s'.
Proof.
  intros Hwf Hr Hn. pose proof (query_keys name) as (K1 & K2 & K3 & K4 & K5 & K6).
  unfold addNewResults, classify.
  unfold bind at 1 2. rewrite known_run, Hn, bool_decide_false by (done || by intros []).
  simpl. unfold saveQuery, bind at 1 2.
  destruct (set_query_run s ("query." +:+ name) query Hr) as (st1 & s1 & -> & _ & Hr1 & H1).
  unfold ret at 1 2. simpl. unfold bind at 1, ret at 1. simpl.
  unfold bind at 1. rewrite counter_fresh. unfold bind at 1.
  destruct (set_query_run s1 (name +:+ "counter") (to_string 0) Hr1) as (st2 & s2 & E2 & Hok2 & Hr2 & H2).
  rewrite E2, Hok2. simpl.
  destruct (finish_run name query e 0 rows s1 s2) as (st3 & s3 & E3 & Hok3 & Hh); [done|done| |by eauto|done|done|].
  { by rewrite H1, lookup_insert_eq. }
  exists st3, s3. unfold bind, ret. rewrite E3. done.
Qed.

(** A later execution in the same epoch reports the difference to the previous
    rows, and counts one more. *)
Lemma next_run name query e c c0 dr old rows s :
  Forall row_wf rows -> in_u64 e -> in_u64 c -> holds name query e c old s ->
  exists st dr' s', addNewResults name query rows e c0 dr true s = (Ok (st, u64 (c + 1), dr'), s') /\
    Status_ok st = true /\ holds name query e (u64 (c + 1)) rows s' /\
    old ++ added dr' ≡ₚ rows ++ removed dr' /\
    (forall r, r ∈ added dr' -> r ∉ removed dr').
Proof.
  intros Hwf He Hc [Hr (text & stored & Hn & Hd & Hp) Hke Hkq Hkc].
  pose proof (query_keys name) as (K1 & K2 & K3 & K4 & K5 & K6).
  unfold addNewResults, classify.
  unfold bind at 1 2. rewrite known_run, Hn, bool_decide_true by (done || by eexists). simpl.
  unfold bind at 1. rewrite (epoch_run name s e) by done. rewrite Z.eqb_refl. simpl.
  unfold bind at 1. rewrite new_query_run, Hkq, bool_decide_true by done. simpl.
  unfold ret at 1. simpl. unfold bind at 1 2.
  rewrite (previous_results_run name s text stored) by done. simpl. unfold ret at 1.
  unfold bind at 1. rewrite (counter_run name s c) by done.
  unfold bind at 1.
  destruct (set_query_run s (name +:+ "counter") (to_string (u64 (c + 1))) Hr)
    as (st2 & s2 & E2 & Hok2 & Hr2 & H2).
  rewrite E2, Hok2. simpl.
  assert (old ++ added (diff stored rows) ≡ₚ rows ++ removed (diff stored rows)) as Hdiff.
  { rewrite <- Hp. apply diff_perm. }
  destruct (is_nil (added (diff stored rows))) eqn:Ea;
    [destruct (is_nil (removed (diff stored rows))) eqn:Er|]; simpl.
  - destruct (added (diff stored rows)) eqn:Ea'; [|done].
    destruct (removed (diff stored rows)) eqn:Er'; [|done].
    rewrite !app_nil_r in Hdiff.
    eexists _, _, s2. split; [done|]. split; [done|]. split; [|rewrite Ea', Er'; split].
    + split; [done|exists text, stored|..];
        rewrite H2, ?lookup_insert_eq, ?lookup_insert_ne by done; try done.
      split_and!; [done..|]. by rewrite Hp.
    + by rewrite !app_nil_r.
    + by intros r Hr'%not_elem_of_nil.
  - destruct (finish_run name query e (u64 (c + 1)) rows s s2) as (st3 & s3 & E3 & Hok3 & Hh);
      [done|done|done|by eauto|done|done|].
    exists st3, (diff stored rows), s3. unfold bind, ret. rewrite E3.
    split_and!; [done..|]. apply diff_disjoint.
  - destruct (finish_run name query e (u64 (c + 1)) rows s s2) as (st3 & s3 & E3 & Hok3 & Hh);
      [done|done|done|by eauto|done|done|].
    exists st3, (diff stored rows), s3. unfold bind, ret. rewrite E3.
    split_and!; [done..|]. apply diff_disjoint.
Qed.

(** ** A series of executions *)

(** Executions of one query in one epoch, each with a fresh [DiffResults]: the
    counter and the differential each of them reports. *)
Fixpoint run_all (name query : string) (e : Z) (runs : list QueryData)
    : M S (list (Status * Z * DiffResults)) :=
  match runs with
  | [] => ret []
  | rows :: runs =>
      let* r := addNewResults name query rows e 0 (mkDiff [] []) true in
      let* rs := run_all name query e runs in
      ret (r :: rs)
  end.

(** What a consumer of the log rebuilds: take the removed rows away, add the
    added ones. *)
Definition erase_row (b : QueryData) (r : Row) : QueryData := default b (mset_erase r b).
Definition apply_diff (base : QueryData) (d : DiffResults) : QueryData :=
  foldl erase_row base (removed d) ++ added d.

(** Replaying depends on the rows only as a multiset. *)
#[local] Instance erase_row_perm : Proper ((≡ₚ) ==> (=) ==> (≡ₚ)) erase_row.
Proof.
  intros b b' Hb r ? <-. unfold erase_row.
  destruct (mset_erase r b) as [c|] eqn:E; destruct (mset_erase r b') as [c'|] eqn:E'; simpl; [|..|done].
  - apply (Permutation_cons_inv (a := r)).
    by rewrite <- (mset_erase_Some _ _ _ E), <- (mset_erase_Some _ _ _ E').
  - apply mset_erase_None in E'. apply mset_erase_Some in E. exfalso. apply E'.
    rewrite <- Hb, E. by left.
  - apply mset_erase_None in E. apply mset_erase_Some in E'. exfalso. apply E.
    rewrite Hb, E'. by left.
Qed.

#[local] Instance apply_diff_proper : Proper ((≡ₚ) ==> (=) ==> (≡ₚ)) apply_diff.
Proof.
  intros b b' Hb d ? <-. unfold apply_diff. f_equiv. revert b b' Hb.
  induction (removed d) as [|r rem IH]; intros b b' Hb; simpl; [done|].
  apply IH. by rewrite Hb.
Qed.

Lemma foldl_apply_diff_perm b b' ds : b ≡ₚ b' ->
  foldl apply_diff b ds ≡ₚ foldl apply_diff b' ds.
Proof. revert b b'. induction ds as [|d ds IH]; intros b b' Hb; simpl; [done|]. apply IH. by rewrite Hb. Qed.

Lemma apply_diff_perm base cur d :
  base ++ added d ≡ₚ cur ++ removed d -> (forall r, r ∈ added d -> r ∉ removed d) ->
  apply_diff base d ≡ₚ cur.
Proof.
  destruct d as [add rem]. unfold apply_diff. simpl. revert base.
  induction rem as [|r rem IH]; intros base Hp Hd; simpl; [by rewrite app_nil_r in Hp|].
  assert (r ∈ base) as Hr.
  { assert (r ∈ base ++ add) as Hin by (rewrite Hp; set_solver). set_solver. }
  unfold erase_row at 2. destruct (mset_erase r base) as [b|] eqn:E.
  2:{ by apply mset_erase_None in E. }
  apply IH; [|set_solver]. apply (Permutation_cons_inv (a := r)).
  rewrite app_comm_cons, <- (mset_erase_Some _ _ _ E), Hp. by rewrite Permutation_middle.
Qed.

(** The counters of executions [k], [k + 1], ... *)
Definition counters_from (k n : nat) : list Z := (fun i => u64 (Z.of_nat i)) <$> seq k n.

Lemma u64_succ k : u64 (u64 (Z.of_nat k) + 1) = u64 (Z.of_nat (1 + k)).
Proof. unfold u64. rewrite Z.add_mod_idemp_l by lia. f_equal. lia. Qed.

Lemma run_all_next name query e runs k old s :
  Forall (Forall row_wf) runs -> in_u64 e -> holds name query e (u64 (Z.of_nat k)) old s ->
  exists log s', run_all name query e runs s = (Ok log, s') /\
    Forall (fun r => Status_ok r.1.1 = true) log /\
    ((fun r => r.1.2) <$> log) = counters_from (1 + k) (length runs) /\
    holds name query e (u64 (Z.of_nat (k + length runs))) (default old (last runs)) s' /\
    foldl apply_diff old ((fun r => r.2) <$> log) ≡ₚ default old (last runs).
Proof.
  intros Hruns He. revert k old s. induction Hruns as [|rows runs Hrows Hruns IH]; intros k old s Hh.
  { exists [], s. simpl. rewrite Nat.add_0_r. by split_and!. }
  destruct (next_run name query e (u64 (Z.of_nat k)) 0 (mkDiff [] []) old rows s)
    as (st & d & s1 & E1 & Hok & Hh1 & Hp & Hdj); [done..|apply u64_range|done|].
  rewrite u64_succ in E1, Hh1.
  destruct (IH (1 + k)%nat rows s1 Hh1) as (log & s' & E & Hall & Hcnt & Hh' & Hrep).
  exists ((st, u64 (Z.of_nat (1 + k)), d) :: log), s'.
  cbn [run_all]. unfold bind, ret. rewrite E1, E.
  assert (default old (last (rows :: runs)) = default rows (last runs)) as ->.
  { rewrite last_cons. by destruct (last runs). }
  split_and!; [done|by constructor|..].
  - by rewrite fmap_cons, Hcnt.
  - simpl length. by replace (k + Datatypes.S (length runs))%nat with (1 + k + length runs)%nat by lia.
  - simpl. rewrite <- Hrep. apply foldl_apply_diff_perm. by apply apply_diff_perm.
Qed.
End Results.

(** ** Properties *)

(** C2: The differential of two executions is the multiset difference: the old
    rows with the added ones are the current rows with the removed ones, no row
    is both added and removed, and both keep the order they come in. *)
Theorem diff_is_multiset_difference old current :
  old ++ added (diff old current) ≡ₚ current ++ removed (diff old current) /\
  (forall r, r ∈ added (diff old current) -> r ∉ removed (diff old current)) /\
  added (diff old current) `sublist_of` current /\
  removed (diff old current) `sublist_of` old.
Proof.
  split; [apply diff_perm|]. split; [intros r; apply diff_disjoint | apply diff_sublists].
Qed.

Section Properties.
Context {S : Type} {A : DatabaseAPI S} {L : DatabaseAPILaws S} {Rel : DatabaseAPIReliable S}.
Context {R : RapidJSON} {RL : RapidJSONLaws R}.

(** Query data printed as JSON parses back to the same rows, in order. *)
Theorem query_data_json_roundtrip q : Forall row_wf q ->
  deserializeQueryDataJSON (serializeQueryDataJSON q).2 [] = (Status_success, q).
Proof.
  intros Hq. unfold deserializeQueryDataJSON, serializeQueryDataJSON, JSON_parse_if.
  rewrite fromString_toString by (by apply serializeQueryData_exact). simpl.
  by apply (deserialize_rows_push q []).
Qed.

(** C1: A series of executions of a query the database has not seen, in one
    epoch: every call succeeds, the counters are 0, 1, 2, ... (64-bit), and a
    consumer that starts from nothing and applies the reported differentials
    holds exactly the rows of the last execution, which is also what the
    database stores. *)
Theorem log_replay_rebuilds_last_results name query e runs (s : S) :
  Forall (Forall row_wf) runs -> runs <> [] -> in_u64 e -> api_ready s ->
  api_view s kQueries !! name = None ->
  exists log s', run_all name query e runs s = (Ok log, s') /\
    Forall (fun r => Status_ok r.1.1 = true) log /\
    ((fun r => r.1.2) <$> log) = counters_from 0 (length runs) /\
    foldl apply_diff [] ((fun r => r.2) <$> log) ≡ₚ default [] (last runs) /\
    holds name query e (u64 (Z.of_nat (pred (length runs)))) (default [] (last runs)) s'.
Proof.
  intros Hruns Hne He Hr Hn. destruct runs as [|rows runs]; [done|].
  inversion Hruns as [|? ? Hrows Hruns']; subst.
  destruct (first_run name query e 0 (mkDiff [] []) rows s) as (st & s1 & E1 & Hok & Hh1); [done..|].
  destruct (run_all_next name query e runs 0 rows s1 Hruns' He Hh1)
    as (log & s' & E & Hall & Hcnt & Hh & Hrep).
  exists ((st, 0%Z, mkDiff rows []) :: log), s'.
  assert (default [] (last (rows :: runs)) = default rows (last runs)) as ->.
  { rewrite last_cons. by destruct (last runs). }
  cbn [run_all]. unfold bind, ret. rewrite E1, E.
  split_and!; [done|by constructor| |done|done]. by rewrite fmap_cons, Hcnt.
Qed.

(** When the epoch changes the next execution reports every row as added
    and restarts the counter; the query text stored before is kept. *)
Theorem epoch_change_resets name query query' e e' c c0 dr old rows (s : S) :
  Forall row_wf rows -> in_u64 e -> e' <> e -> holds name query e c old s ->
  exists st s', addNewResults name query' rows e' c0 dr true s
      = (Ok (st, 0%Z, mkDiff rows (removed dr)), s') /\
    Status_ok st = true /\ holds name query e' 0 rows s'.
Proof.
  intros Hwf He Hne [Hr (text & stored & Hn & Hd & Hp) Hke Hkq Hkc].
  pose proof (query_keys name) as (K1 & K2 & K3 & K4 & K5 & K6).
  unfold addNewResults, classify.
  unfold bind at 1 2. rewrite known_run, Hn, bool_decide_true by (done || by eexists). simpl.
  unfold bind at 1. rewrite (epoch_run name s e) by done.
  rewrite (proj2 (Z.eqb_neq e e')) by done. simpl. unfold ret at 1. simpl.
  unfold bind at 1. unfold ret at 1. unfold bind at 1. rewrite counter_fresh. unfold bind at 1.
  destruct (set_query_run s (name +:+ "counter") (to_string 0) Hr) as (st2 & s2 & E2 & Hok2 & Hr2 & H2).
  rewrite E2, Hok2. simpl.
  destruct (finish_run name query e' 0 rows s s2) as (st3 & s3 & E3 & Hok3 & Hh);
    [done|done|done|by eauto|done|done|].
  exists st3, s3. unfold bind, ret. by rewrite E3.
Qed.

(** When an entry under the epoch key of a known query is not a number (an
    interrupted write, or the results of another query whose name is this name
    followed by "epoch"), the exception of the conversion leaves
    [addNewResults] and the database is untouched. *)
Theorem unreadable_epoch_throws name query e c0 dr rows diffs raw x (s : S) :
  api_ready s -> is_Some (api_view s kQueries !! name) ->
  api_view s kQueries !! (name +:+ "epoch") = Some raw -> stoull 10 raw = Throw x ->
  addNewResults name query rows e c0 dr diffs s = (Throw x, s).
Proof.
  intros Hr Hn Hk Hx. unfold addNewResults, classify.
  unfold bind at 1 2. rewrite known_run, bool_decide_true by done. simpl.
  unfold getPreviousEpoch, bind.
  destruct (get_query_run s (name +:+ "epoch") Hr) as (st & -> & ->).
  rewrite Hk, bool_decide_true by by eexists. simpl. unfold of_result. by rewrite Hx.
Qed.
End Properties.
