(* ===== verification/LogItemFacts.v ===== *)
(** * Facts about result log items

    A result log line parses back to the item it was written from, up to the
    epoch and the counter, which the reader does not restore. *)
From S2P Require Import Prelude Boost Conversions Json Database DatabaseFacts Query QueryFacts.

#[local] Arguments GetUint64 : simpl never.
#[local] Arguments deserializeDiffResults : simpl never.

Section LogItemFacts.
Context {R : RapidJSON} {RL : RapidJSONLaws R}.

Lemma read_decorations_run ms acc : Forall str_member ms ->
  read_decorations ms acc = Ok (put_all acc (prod_map id json_str <$> ms)).
Proof.
  intros H. revert acc. induction H as [|[k v] ms [Hk (s & Hv & Hs)] Hms IH]; intros acc; [done|].
  simpl in *. subst v. simpl. by rewrite IH, Hk, Hs.
Qed.

Lemma read_decorations_roundtrip decs : row_wf decs ->
  read_decorations (add_decorations decs []) ∅ = Ok decs.
Proof.
  intros Hd. change (add_decorations decs []) with (serializeRow decs [] []).
  pose proof (serializeRow_members decs Hd) as Hms. apply Forall_and in Hms as [H1 _].
  rewrite read_decorations_run by done. destruct (serializeRow_map decs) as [Hnd Hm].
  rewrite put_all_union, list_to_map_reverse, Hm by (by rewrite <- list_fmap_compose).
  by rewrite (right_id_L ∅ (∪)).
Qed.

Lemma read_no_decorations : read_decorations [] ∅ = Ok ∅.
Proof. done. Qed.

Lemma diff_results_roundtrip d : Forall row_wf (added d) -> Forall row_wf (removed d) ->
  deserializeDiffResults (JObject (serializeDiffResults d [] [])) (mkDiff [] [])
  = (Status_success, d).
Proof.
  intros Ha Hr. unfold deserializeDiffResults, serializeDiffResults.
  rewrite !member_add_member by auto with osq. simpl.
  rewrite (deserialize_rows_push (removed d) []) by done. simpl.
  rewrite (deserialize_rows_push (added d) []) by done. by destruct d.
Qed.

(** What an item must satisfy to be read back: the fields are text without NUL,
    the rows too, and it carries a differential or a snapshot but not both. *)
Record item_wf (i : QueryLogItem) : Prop := {
  wf_added : Forall row_wf (added (results i));
  wf_removed : Forall row_wf (removed (results i));
  wf_snapshot : Forall row_wf (snapshot_results i);
  wf_one : has_diff i = true -> snapshot_results i = [];
  wf_texts : nul_free (item_name i) /\ nul_free (identifier i) /\ nul_free (calendar_time i);
  wf_time : in_u64 (item_time i);
  wf_epoch : in_u64 (epoch i) /\ in_u64 (item_counter i);
  wf_decorations : row_wf (decorations i);
  wf_columns : columns i = [];
}.

Definition empty_item : QueryLogItem :=
  {| results := mkDiff [] []; snapshot_results := []; item_name := ""; identifier := "";
     item_time := 0; epoch := 0; item_counter := 0; calendar_time := ""; decorations := ∅;
     columns := [] |}.

(** The item without the two fields the reader leaves at their defaults. *)
Definition forget_epoch (i : QueryLogItem) : QueryLogItem :=
  {| results := results i; snapshot_results := snapshot_results i; item_name := item_name i;
     identifier := identifier i; item_time := item_time i; epoch := 0; item_counter := 0;
     calendar_time := calendar_time i; decorations := decorations i; columns := columns i |}.

Lemma exact_u64 z : in_u64 z -> json_exact (JInt z) = true.
Proof.
  intros H. simpl. apply andb_true_intro. unfold in_u64 in H.
  split; [apply Z.leb_le | apply Z.ltb_lt]; lia.
Qed.

Lemma GetUint64_u64 z : in_u64 z -> GetUint64 (JInt z) = Ok z.
Proof.
  intros H. unfold in_u64 in H. unfold GetUint64.
  by rewrite (proj2 (Z.leb_le 0 z)), (proj2 (Z.ltb_lt z _)) by lia.
Qed.

Abbreviation exact_member := (fun kv : string * json => json_exact kv.2 = true).

Lemma add_decorations_exact decs obj : Forall exact_member obj ->
  Forall exact_member (add_decorations decs obj).
Proof.
  unfold add_decorations. revert obj. induction (map_sorted decs) as [|kv l IH]; intros obj H; [done|].
  simpl. apply IH. by apply Forall_add_member.
Qed.

Lemma legacy_fields_exact flag i obj : item_wf i -> Forall exact_member obj ->
  Forall exact_member (addLegacyFieldsAndDecorations flag i obj).
Proof.
  intros Hi Ho. unfold addLegacyFieldsAndDecorations. destruct (wf_epoch _ Hi) as [He Hc].
  assert (forall o, Forall exact_member o -> Forall exact_member
    (add_member "counter" (JInt (item_counter i)) (add_member "epoch" (JInt (epoch i))
      (add_member "unixTime" (JInt (item_time i)) o)))) as Hints.
  { intros o Hob. repeat (apply Forall_add_member; [apply exact_u64; done || by apply wf_time|]). done. }
  case_decide; [|destruct flag].
  - apply Hints. by repeat apply Forall_add_member.
  - apply add_decorations_exact, Hints. by repeat apply Forall_add_member.
  - apply Forall_add_member; [|apply Hints; by repeat apply Forall_add_member].
    apply json_exact_object, add_decorations_exact. constructor.
Qed.

Lemma serializeQueryLogItem_exact flag i : item_wf i ->
  json_exact (JObject (serializeQueryLogItem flag i [])) = true.
Proof.
  intros Hi. apply json_exact_object, legacy_fields_exact; [done|]. rewrite wf_columns by done.
  destruct (has_diff i).
  - apply Forall_add_member; [|done]. apply json_exact_object. unfold serializeDiffResults.
    repeat (apply Forall_add_member;
      [apply serializeQueryData_exact; by (apply wf_added || apply wf_removed)|]). done.
  - apply Forall_add_member; [done|]. apply Forall_add_member; [|done].
    apply serializeQueryData_exact. by apply wf_snapshot.
Qed.

(** The legacy fields are read back from any object that holds them. *)
Lemma legacy_fields_roundtrip i obj j : item_wf i -> NoDup obj.*1 ->
  member "decorations" obj = None -> decorations j = ∅ ->
  getLegacyFieldsAndDecorations (addLegacyFieldsAndDecorations false i obj) j
  = Ok {| results := results j; snapshot_results := snapshot_results j;
          item_name := item_name i; identifier := identifier i; item_time := item_time i;
          epoch := epoch j; item_counter := item_counter j; calendar_time := calendar_time i;
          decorations := decorations i; columns := columns j |}.
Proof.
  intros Hi Hnd Hno Hj. destruct (wf_texts _ Hi) as (H1 & H2 & H3).
  unfold getLegacyFieldsAndDecorations, addLegacyFieldsAndDecorations, at_member.
  case_decide as Hd.
  - rewrite !member_add_member by auto 10 with osq. simpl. rewrite Hno, Hj, Hd. cbn [res_bind GetString].
    rewrite H1, H2, H3, GetUint64_u64 by by apply wf_time. done.
  - rewrite !member_add_member by auto 10 with osq. simpl. rewrite Hj, read_decorations_roundtrip
      by by apply wf_decorations. cbn [res_bind GetString].
    rewrite H1, H2, H3, GetUint64_u64 by by apply wf_time. done.
Qed.

Definition legacy_keys : list string :=
  ["name"; "hostIdentifier"; "calendarTime"; "unixTime"; "epoch"; "counter"; "decorations"].

Lemma member_legacy_other key i obj : NoDup obj.*1 -> bool_decide (key ∈ legacy_keys) = false ->
  member key (addLegacyFieldsAndDecorations false i obj) = member key obj.
Proof.
  intros Hnd Hk%bool_decide_eq_false. unfold addLegacyFieldsAndDecorations, legacy_keys in *.
  case_decide; rewrite !member_add_member by auto 10 with osq;
    repeat (case_decide; [subst; set_solver|]); done.
Qed.

Lemma no_diff_empty i : has_diff i = false -> results i = mkDiff [] [].
Proof. unfold has_diff. destruct (results i) as [[] []]; done. Qed.

(** With decorations kept in their own object, a log item printed as JSON
    parses back to the same item except for its epoch and counter, which come
    back as zero although the printed item carries them. *)
Theorem log_item_json_roundtrip i : item_wf i ->
  deserializeQueryLogItemJSON (serializeQueryLogItemJSON false i).2 empty_item
  = Ok (Status_success, forget_epoch i).
Proof.
  intros Hi. unfold deserializeQueryLogItemJSON, serializeQueryLogItemJSON, JSON_parse_if.
  rewrite fromString_toString by (by apply serializeQueryLogItem_exact). simpl.
  unfold serializeQueryLogItem. rewrite (wf_columns i Hi).
  destruct (has_diff i) eqn:Ed.
  - rewrite !member_legacy_other, !member_add_member by auto with osq. cbn [decide].
    simpl. rewrite diff_results_roundtrip by (by apply wf_added || by apply wf_removed). simpl.
    rewrite legacy_fields_roundtrip; [|done|auto with osq| |done].
    + unfold forget_epoch. simpl. by rewrite (wf_one i Hi Ed), (wf_columns i Hi).
    + by rewrite member_add_member by auto with osq.
  - rewrite !member_legacy_other, !member_add_member by auto with osq. simpl.
    rewrite (deserialize_rows_push (snapshot_results i) []) by by apply wf_snapshot. simpl.
    rewrite legacy_fields_roundtrip; [|done|auto with osq| |done].
    + unfold forget_epoch. simpl. by rewrite (no_diff_empty i Ed), (wf_columns i Hi).
    + by rewrite !member_add_member by auto with osq.
Qed.
End LogItemFacts.
