(* ===== verification/Host.v ===== *)
(** * The host the daemon runs on

    What the components ask of the operating system and of the build: the
    clock, random numbers, SQL, the SHA-1 digest, the version and the platform.
    All of it is outside the repository, so it is the class [Host] with the
    laws [HostLaws]; [sim_host] is a concrete instance. The version and platform
    checks on top of it are osquery's own (osquery/main/lib.cpp,
    osquery/core/system.cpp). *)
From S2P Require Import Prelude Boost Conversions Json Database DatabaseFacts Query.

Class Host (S : Type) := {
  (** [getUnixTime()]. *)
  getUnixTime : M S Z;
  (** One value of a [std::uniform_int_distribution<size_t>(a, b)] drawn from a
      generator seeded with the clock. *)
  uniform_int : Z -> Z -> M S Z;
  (** [SQL results(q)]: its status and rows. *)
  run_sql : string -> M S (Status * QueryData);
}.

Class HostLaws (S : Type) {A : DatabaseAPI S} {L : DatabaseAPILaws S} {H : Host S} := {
  time_law s : api_ready s ->
    exists t s', getUnixTime s = (Ok t, s') /\ in_u64 t /\ api_ready s' /\
    forall d, api_view s' d = api_view s d;
  uniform_law s a b : api_ready s -> (a <= b)%Z ->
    exists v s', uniform_int a b s = (Ok v, s') /\ (a <= v <= b)%Z /\ api_ready s' /\
    forall d, api_view s' d = api_view s d;
}.

(** Constants of the build and of the machine. *)
Class Build := {
  kSDKVersion : string;
  kSDKPlatform : string;
  kPlatformType : Z;
  (** [getHostname()]. *)
  machine_hostname : string;
  (** The hexadecimal digest of [Hash(HASH_TYPE_SHA1)]. *)
  sha1_hex : string -> string;
}.

(** ** A concrete host: a store in memory and a clock that advances by one *)

#[export] Instance pair_api {S T} {A : DatabaseAPI S} : DatabaseAPI (S * T) := {
  api_get d k := zoom fst (fun s p => (s, p.2)) (api_get d k);
  api_set_batch d l := zoom fst (fun s p => (s, p.2)) (api_set_batch d l);
  api_delete d k := zoom fst (fun s p => (s, p.2)) (api_delete d k);
  api_delete_range d l h := zoom fst (fun s p => (s, p.2)) (api_delete_range d l h);
  api_scan d p := zoom fst (fun s p => (s, p.2)) (api_scan d p);
}.

#[export] Instance pair_laws {S T} {A : DatabaseAPI S} {L : DatabaseAPILaws S}
    : DatabaseAPILaws (S * T).
Proof.
  refine {| api_view s := api_view s.1; api_ready s := api_ready s.1 |};
    intros [s t]; simpl; unfold zoom; simpl.
  - intros d k Hr Hd. destruct (api_get_law s d k Hr Hd) as (st & -> & H). by exists st.
  - intros d l Hr Hd. destruct (api_set_batch_law s d l Hr Hd) as (st & s' & -> & H). by exists st, (s', t).
  - intros d k Hr Hd. destruct (api_delete_law s d k Hr Hd) as (st & s' & -> & H). by exists st, (s', t).
  - intros d l h Hr Hd. destruct (api_delete_range_law s d l h Hr Hd) as (st & s' & -> & H).
    by exists st, (s', t).
  - intros d p Hr Hd. destruct (api_scan_law s d p Hr Hd) as (st & keys & -> & H). by exists st, keys.
Defined.

#[export] Instance pair_reliable {S T} {A : DatabaseAPI S} {L : DatabaseAPILaws S}
    {Rel : DatabaseAPIReliable S} : DatabaseAPIReliable (S * T).
Proof.
  split; intros [s t]; simpl; unfold zoom; simpl.
  - intros d l st s' Hr Hd. destruct (api_set_batch d l s) as [[] s1] eqn:E; [|done].
    intros [= -> _]. by eapply api_set_batch_ok.
  - intros d k st s' Hr Hd. destruct (api_delete d k s) as [[] s1] eqn:E; [|done].
    intros [= -> _]. by eapply api_delete_ok.
  - intros d l h st s' Hr Hd. destruct (api_delete_range d l h s) as [[] s1] eqn:E; [|done].
    intros [= -> _]. by eapply api_delete_range_ok.
  - intros d p st keys s' Hr Hd. destruct (api_scan d p s) as [[] s1] eqn:E; [|done].
    intros [= -> _]. by eapply api_scan_ok.
Qed.

Abbreviation Sim := (DbState Ephemeral.DBType * Z)%type.

#[export] Instance sim_host : Host Sim := {
  getUnixTime s := (Ok (u64 s.2), (s.1, (s.2 + 1)%Z));
  uniform_int a b := ret a;
  run_sql q := ret (Status_success, []);
}.

#[export] Instance sim_host_laws {R : RapidJSON} {B : Boost} : HostLaws Sim.
Proof.
  split; intros [s t].
  - intros Hr. eexists _, _. split; [done|]. split; [apply u64_range|]. by split.
  - intros a b Hr Hab. eexists _, _. split; [done|]. split; [lia|]. by split.
Qed.

#[export] Instance sim_build : Build := {
  kSDKVersion := "3.2.6";
  kSDKPlatform := "linux";
  kPlatformType := 9;
  machine_hostname := "host";
  sha1_hex s := s;
}.

(** A freshly initialized daemon on that host. *)
Definition sim0 : Sim := (mkDbState ∅ ∅ false true, 1500000000%Z).

Lemma sim0_ready {R : RapidJSON} {B : Boost} : api_ready sim0.
Proof. split; [done|]. intros d k v. unfold Ephemeral.domain_map. simpl. by rewrite lookup_empty. Qed.

(** ** Version and platform checks *)

Section Checks.
Context {B : Boost} {Bd : Build}.

(** [a.compare(b) < 0]. *)
Definition str_lt (a b : string) : bool := bool_decide (String.le a b) && negb (bool_decide (a = b)).

(** The body of the [try] block of [versionAtLeast]: [Some] is a [return]. *)
Definition compare_chunk (chunk required : string) : result (option bool) :=
  match stoi 10 chunk, stoi 10 required with
  | Ok c, Ok r =>
      if (c <? r)%Z then Ok (Some false) else if (r <? c)%Z then Ok (Some true) else Ok None
  | Throw e, _ => Throw e
  | _, Throw e => Throw e
  end.

Fixpoint version_loop (build required : list string) : result bool :=
  match build with
  | [] => Ok true
  | chunk :: build =>
      match required with
      | [] => Ok true
      | req :: required =>
          match compare_chunk chunk req with
          | Ok (Some b) => Ok b
          | Ok None => version_loop build required
          | Throw (InvalidArgument _) =>
              if str_lt chunk req then Ok false else version_loop build required
          | Throw e => Throw e
          end
      end
  end.

(** Is the [sdk] version at least [v]? *)
Definition versionAtLeast (v sdk : string) : result bool :=
  if bool_decide (v = "0.0.0") || bool_decide (sdk = "0.0.0") then Ok true
  else version_loop (split sdk ".") (split v ".").

Definition TYPE_POSIX : Z := 1.
Definition TYPE_WINDOWS : Z := 2.
Definition TYPE_BSD : Z := 4.
Definition TYPE_LINUX : Z := 8.
Definition TYPE_OSX : Z := 16.
Definition TYPE_FREEBSD : Z := 32.

Definition isPlatform (a t : Z) : bool := negb (Z.land t a =? 0)%Z.

(** [s.find(sub) != std::string::npos]. *)
Definition contains (s sub : string) : bool :=
  match String.index 0 sub s with Some _ => true | None => false end.

Definition checkPlatform (platform : string) : bool :=
  if is_empty platform || bool_decide (platform = "null") then true
  else if contains platform "any" || contains platform "all" then true
  else
    let linux_type := contains platform "linux" || contains platform "ubuntu"
                      || contains platform "centos" in
    if linux_type && isPlatform TYPE_LINUX kPlatformType then true
    else
      let posix_type := contains platform "posix" in
      if posix_type && isPlatform TYPE_POSIX kPlatformType then true
      else contains platform kSDKPlatform.
End Checks.

(** The unit tests of the version comparison. *)
Example version_tests :
  versionAtLeast "1.1.1" "0.0.1" = Ok false /\ versionAtLeast "1.1.1" "1.1.1" = Ok true /\
  versionAtLeast "1.1.1" "1.1.2" = Ok true /\ versionAtLeast "1.1.10" "1.1.9" = Ok false /\
  versionAtLeast "99999999999.0.0" "3.2.6" = Throw (OutOfRange "stoi").
Proof. by vm_compute. Qed.
