(* ===== verification/Packs.v ===== *)
(** * Query packs (osquery/config/packs.cpp, include/osquery/packs.h)

    Splayed intervals, the machine shard, the construction of a pack from its
    JSON description, and the cached discovery check that decides whether a pack
    runs on this host. *)
From Stdlib Require Import SpecFloat.
From S2P Require Import Prelude Boost Conversions Json Database Query Host.

(** ** Data *)

Record ScheduledQuery := {
  query : string;
  interval : Z;
  splayed_interval : Z;
  blacklisted : bool;
  options : gmap string bool;
}.

Record PackStats := mkPackStats { total : Z; hits : Z; misses : Z }.

Record Pack := {
  discovery_queries_ : list string;
  schedule_ : gmap string ScheduledQuery;
  platform_ : string;
  version_ : string;
  shard_ : Z;
  name_ : string;
  source_ : string;
  discovery_cache_ : Z * bool;
  valid_ : bool;
  active_ : bool;
  stats_ : PackStats;
}.

(** The process around the packs: the host, the [static size_t shard] of
    [getMachineShard] and the flag [initialize] may reset. *)
Record Proc (S : Type) := mkProc {
  proc_host : S;
  proc_shard : Z;
  FLAGS_schedule_splay_percent : Z;
}.
Arguments mkProc {S}.
Arguments proc_host {S}.
Arguments proc_shard {S}.
Arguments FLAGS_schedule_splay_percent {S}.

Definition set_proc_host {S} (h : S) (p : Proc S) : Proc S :=
  mkProc h (proc_shard p) (FLAGS_schedule_splay_percent p).

Definition on_host {S A} (m : M S A) : M (Proc S) A := zoom proc_host set_proc_host m.

(** ** Single precision arithmetic, as [float] on the supported targets *)

Definition float_of_Z (z : Z) : spec_float := binary_normalize 24 128 z 0 false.
Definition float_mul : spec_float -> spec_float -> spec_float := SFmul 24 128.
Definition float_div : spec_float -> spec_float -> spec_float := SFdiv 24 128.

(** [static_cast<size_t>] of a non-negative value in range. *)
Definition float_to_size (f : spec_float) : Z :=
  match f with
  | S754_finite false m e => if (0 <=? e)%Z then Z.pos m * 2 ^ e else Z.pos m / 2 ^ (- e)
  | _ => 0
  end.

Definition possible_difference (original splayPercent : Z) : Z :=
  float_to_size (float_mul (float_of_Z original)
                           (float_div (float_of_Z splayPercent) (float_of_Z 100))).

(** ** Splayed intervals *)

Definition kMaxQueryInterval : Z := 604800.

Section Splay.
Context {S : Type} {A : DatabaseAPI S} {H : Host S} {B : Boost} {Bd : Build}.

Definition splayValue (original splayPercent : Z) : M S Z :=
  if (splayPercent =? 0)%Z || (100 <? splayPercent)%Z then ret original
  else
    let possible_difference := possible_difference original splayPercent in
    let max_value := u64 (original + possible_difference) in
    let min_value := Z.max 1 (u64 (original - possible_difference)) in
    if (max_value =? min_value)%Z then ret max_value
    else uniform_int min_value max_value.

(** [getMachineShard(hostname, force)]. *)
Definition getMachineShard (hostname : string) (force : bool) : M (Proc S) Z :=
  let* shard := gets proc_shard in
  if (0 <? shard)%Z && negb force then ret shard
  else
    let hn := if is_empty hostname then machine_hostname else hostname in
    let hn_hash := sha1_hex hn in
    let shard :=
      if (2 <=? String.length hn_hash)%nat then
        match tryTo TLong (String.substring 0 2 hn_hash) 16 with
        | inl hn_num => u64 (Z.quot (hn_num * 100) 255)
        | inr _ => shard
        end
      else shard in
    modify (fun p => mkProc (proc_host p) shard (FLAGS_schedule_splay_percent p)) ;;;
    ret shard.

(** The previously saved splay for this interval, if the stored text has one. *)
Definition saved_splay (content : string) (interval : Z) : option Z :=
  if is_empty content then None
  else
    match split content ":" with
    | [d0; d1] =>
        match tryTo TLong d0 10, tryTo TLong d1 10 with
        | inl last_interval, inl last_splay =>
            if (last_interval =? i64 interval)%Z && (0 <? last_splay)%Z
            then Some (u64 last_splay) else None
        | _, _ => None
        end
    | _ => None
    end.

Definition restoreSplayedValue (name : string) (interval : Z) : M (Proc S) Z :=
  let* content := on_host (api_get_str kPersistentSettings ("interval." +:+ name)) in
  match saved_splay content interval with
  | Some last_splay => ret last_splay
  | None =>
      let* percent := gets FLAGS_schedule_splay_percent in
      let* splay := on_host (splayValue interval percent) in
      let content := to_string interval +:+ ":" +:+ to_string splay in
      on_host (api_set kPersistentSettings ("interval." +:+ name) content) ;;;
      ret splay
  end.

(** ** Packs *)

Definition Pack_checkVersion (version : string) : result bool :=
  if is_empty version || bool_decide (version = "null") then Ok true
  else versionAtLeast version kSDKVersion.

(** [obj.HasMember(key) && obj[key].IsString()], then [GetString()]. *)
Definition string_member (key : string) (ms : members) : option string :=
  match member key ms with Some (JString s) => Some (c_str s) | _ => None end.

(** [shard > 0 && shard < getMachineShard()]. *)
Definition shard_excluded (shard : Z) : M (Proc S) bool :=
  if (0 <? shard)%Z
  then let* m := getMachineShard "" false in ret (shard <? m)%Z
  else ret false.

(** [options["..."]]: the default when the member is missing. *)
Definition bool_option (key : string) (dflt : bool) (ms : members) : M (Proc S) bool :=
  match member key ms with
  | None => ret dflt
  | Some v => of_result (JSON_valueToBool v)
  end.

Context (FLAGS_schedule_default_interval : Z).

(** The platform, version and shard restrictions of one query: [true] when the
    loop goes on to the next query. *)
Definition query_restricted (q : members) : M (Proc S) bool :=
  let* by_shard := (match member "shard" q with
                    | None => ret false
                    | Some v => let* shard := of_result (JSON_valueToSize v) in shard_excluded shard
                    end) in
  if by_shard then ret true
  else if negb (checkPlatform (default "" (string_member "platform" q))) then ret true
  else
    let* ok := of_result (Pack_checkVersion (default "" (string_member "version" q))) in
    ret (negb ok).

(** The body of the loop over "queries". *)
Definition add_query (schedule : gmap string ScheduledQuery) (q : string * json)
    : M (Proc S) (gmap string ScheduledQuery) :=
  match q.2 with
  | JObject ms =>
      let* restricted := query_restricted ms in
      if restricted then ret schedule
      else
        match string_member "query" ms with
        | None => ret schedule
        | Some text =>
            let* interval := (match member "interval" ms with
                              | None => ret FLAGS_schedule_default_interval
                              | Some v => of_result (JSON_valueToSize v)
                              end) in
            if (interval <=? 0)%Z || is_empty text || (kMaxQueryInterval <? interval)%Z
            then ret schedule
            else
              let* splayed := restoreSplayedValue (c_str q.1) interval in
              let* snapshot := bool_option "snapshot" false ms in
              let* removed := bool_option "removed" true ms in
              let* blacklist := bool_option "blacklist" true ms in
              let query := {| query := text; interval := interval; splayed_interval := splayed;
                              blacklisted := false;
                              options := {["snapshot" := snapshot; "removed" := removed;
                                           "blacklist" := blacklist]} |} in
              (* emplace: an existing entry of that name stays *)
              ret (match schedule !! c_str q.1 with
                   | Some _ => schedule
                   | None => <[c_str q.1 := query]> schedule
                   end)
        end
  | _ => ret schedule
  end.

Definition mkPack name source shard platform version discovery schedule valid : Pack :=
  {| discovery_queries_ := discovery; schedule_ := schedule; platform_ := platform;
     version_ := version; shard_ := shard; name_ := name; source_ := source;
     discovery_cache_ := (0%Z, false); valid_ := valid; active_ := false;
     stats_ := mkPackStats 0 0 0 |}.

Fixpoint discovery_strings (l : list json) : result (list string) :=
  match l with
  | [] => Ok []
  | v :: l => res_bind (GetString v) (fun s => res_bind (discovery_strings l) (fun r => Ok (s :: r)))
  end.

(** The constructor [Pack(name, source, obj)], that is [initialize]. *)
Definition Pack_initialize (name source : string) (obj : json) : M (Proc S) Pack :=
  let* ms := of_result (GetObject obj) in
  let* shard := (match member "shard" ms with
                 | None => ret 0%Z
                 | Some v => of_result (JSON_valueToSize v)
                 end) in
  let platform := default "" (string_member "platform" ms) in
  let version := default "" (string_member "version" ms) in
  let* by_shard := shard_excluded shard in
  let* excluded := (if by_shard then ret true
                    else if negb (checkPlatform platform) then ret true
                    else let* ok := of_result (Pack_checkVersion version) in ret (negb ok)) in
  if excluded then ret (mkPack name source shard platform version [] ∅ false)
  else
    let* discovery := of_result (match member "discovery" ms with
                                 | Some (JArray l) => discovery_strings l
                                 | _ => Ok []
                                 end) in
    modify (fun p => if (FLAGS_schedule_splay_percent p <=? 1)%Z
                     then mkProc (proc_host p) (proc_shard p) 10 else p) ;;;
    match member "queries" ms with
    | Some (JObject qs) =>
        let* schedule := for_fold qs ∅ add_query in
        ret (mkPack name source shard platform version discovery schedule true)
    | _ => ret (mkPack name source shard platform version discovery ∅ true)
    end.
End Splay.

(** ** Discovery *)

Section Discovery.
Context {S : Type} {H : Host S}.
Context (FLAGS_pack_refresh_interval : Z).

Definition set_discovery (cache : Z * bool) (stats : PackStats) (p : Pack) : Pack :=
  {| discovery_queries_ := discovery_queries_ p; schedule_ := schedule_ p;
     platform_ := platform_ p; version_ := version_ p; shard_ := shard_ p; name_ := name_ p;
     source_ := source_ p; discovery_cache_ := cache; valid_ := valid_ p;
     active_ := active_ p; stats_ := stats |}.

Definition set_pack_active (b : bool) (p : Pack) : Pack :=
  {| discovery_queries_ := discovery_queries_ p; schedule_ := schedule_ p;
     platform_ := platform_ p; version_ := version_ p; shard_ := shard_ p; name_ := name_ p;
     source_ := source_ p; discovery_cache_ := discovery_cache_ p; valid_ := valid_ p;
     active_ := b; stats_ := stats_ p |}.

Definition set_schedule (sch : gmap string ScheduledQuery) (p : Pack) : Pack :=
  {| discovery_queries_ := discovery_queries_ p; schedule_ := sch;
     platform_ := platform_ p; version_ := version_ p; shard_ := shard_ p; name_ := name_ p;
     source_ := source_ p; discovery_cache_ := discovery_cache_ p; valid_ := valid_ p;
     active_ := active_ p; stats_ := stats_ p |}.

(** Every discovery query succeeds with at least one row. *)
Fixpoint discover (qs : list string) : M S bool :=
  match qs with
  | [] => ret true
  | q :: qs =>
      let* (status, rows) := run_sql q in
      if negb (Status_ok status) then ret false
      else if is_nil rows then ret false
      else discover qs
  end.

(** [checkDiscovery()]: the answer and the pack after it. *)
Definition checkDiscovery (p : Pack) : M S (bool * Pack) :=
  let st := stats_ p in
  let st := mkPackStats (u64 (total st + 1)) (hits st) (misses st) in
  let* current := getUnixTime in
  if (u64 (current - (discovery_cache_ p).1) <? FLAGS_pack_refresh_interval)%Z then
    let st := mkPackStats (total st) (u64 (hits st + 1)) (misses st) in
    ret ((discovery_cache_ p).2, set_discovery (discovery_cache_ p) st p)
  else
    let st := mkPackStats (total st) (hits st) (u64 (misses st + 1)) in
    let* found := discover (discovery_queries_ p) in
    ret (found, set_discovery (current, found) st p).

Definition shouldPackExecute (p : Pack) : M S (bool * Pack) :=
  if valid_ p then
    let* (found, p) := checkDiscovery p in
    ret (found, set_pack_active found p)
  else ret (false, set_pack_active false p).
End Discovery.
