(* ===== verification/PacksFacts.v ===== *)
(** * Facts about packs

    Splayed intervals stay within the interval, are drawn once and then read
    back from the store; a constructed pack holds only well-formed queries; the
    discovery cache answers within its refresh interval; version comparison is
    the numeric order on the common chunks. *)
From Stdlib Require Import SpecFloat.
From S2P Require Import Prelude Boost Conversions Json Database DatabaseFacts Query QueryFacts Host Packs.

#[local] Open Scope Z_scope.

(** ** Rounding never exceeds a representable bound *)

Lemma digits2_bound m : 2 ^ (Z.pos (digits2_pos m) - 1) <= Z.pos m < 2 ^ Z.pos (digits2_pos m).
Proof.
  induction m as [m IH|m IH|]; simpl digits2_pos; [..|done];
    rewrite Pos2Z.inj_succ; replace (Z.succ (Z.pos (digits2_pos m)) - 1)
      with (Z.succ (Z.pos (digits2_pos m) - 1)) by lia;
    rewrite !Z.pow_succ_r by lia; lia.
Qed.

Lemma digits2_le m n : 0 <= n -> Z.pos m < 2 ^ n -> Z.pos (digits2_pos m) <= n.
Proof.
  intros Hn Hm. destruct (Z.le_gt_cases (Z.pos (digits2_pos m)) n) as [|H]; [done|].
  pose proof (digits2_bound m) as [Hb _].
  assert (2 ^ n <= 2 ^ (Z.pos (digits2_pos m) - 1)) by (apply Z.pow_le_mono_r; lia). lia.
Qed.

Lemma iter_xO m d : Z.pos (Pos.iter xO m d) = Z.pos m * 2 ^ Z.pos d /\
  Z.pos (digits2_pos (Pos.iter xO m d)) = Z.pos (digits2_pos m) + Z.pos d.
Proof.
  induction d as [|d [IH1 IH2]] using Pos.peano_ind; [simpl; lia|].
  rewrite Pos.iter_succ. simpl digits2_pos. rewrite !Pos2Z.inj_succ, Z.pow_succ_r, IH2 by lia.
  split; [|lia]. change (Z.pos (xO (Pos.iter xO m d))) with (2 * Z.pos (Pos.iter xO m d)). lia.
Qed.

(** The least integer not below the value a [shr_record] stands for. *)
Definition shr_up (r : shr_record) : Z :=
  if shr_r r || shr_s r then shr_m r + 1 else shr_m r.

Lemma shr_1_spec r : 0 <= shr_m r ->
  0 <= shr_m (shr_1 r) /\ 2 * shr_m (shr_1 r) <= shr_m r /\
  forall K, shr_up r <= 2 * K -> shr_up (shr_1 r) <= K.
Proof.
  destruct r as [m rr s]. unfold shr_up. simpl. intros Hm.
  destruct m as [|[p|p|]|p]; [..|lia]; simpl; split_and!; try lia;
    intros K; destruct rr, s; simpl; lia.
Qed.

Lemma iter_shr_1_spec p r : 0 <= shr_m r ->
  0 <= shr_m (SpecFloat.iter_pos shr_1 p r) /\ 2 ^ Z.pos p * shr_m (SpecFloat.iter_pos shr_1 p r) <= shr_m r /\
  forall K, shr_up r <= 2 ^ Z.pos p * K -> shr_up (SpecFloat.iter_pos shr_1 p r) <= K.
Proof.
  revert r. induction p as [p IH|p IH|]; intros r Hr; simpl SpecFloat.iter_pos.
  - destruct (shr_1_spec r Hr) as (A1 & A2 & A3). destruct (IH _ A1) as (B1 & B2 & B3).
    destruct (IH _ B1) as (C1 & C2 & C3).
    assert (2 ^ Z.pos p~1 = 2 * (2 ^ Z.pos p * 2 ^ Z.pos p)) as E.
    { rewrite <- Z.pow_add_r, <- Z.pow_succ_r by lia. f_equal. lia. }
    rewrite E. split_and!; [done|nia|]. intros K HK. apply C3, B3, A3. lia.
  - destruct (IH _ Hr) as (B1 & B2 & B3). destruct (IH _ B1) as (C1 & C2 & C3).
    assert (2 ^ Z.pos p~0 = 2 ^ Z.pos p * 2 ^ Z.pos p) as E.
    { rewrite <- Z.pow_add_r by lia. f_equal. lia. }
    rewrite E. split_and!; [done|nia|]. intros K HK. apply C3, B3. lia.
  - by apply shr_1_spec.
Qed.

Lemma shr_spec r e n : 0 <= shr_m r ->
  let '(r', e') := shr r e n in
  e' = e + Z.max 0 n /\ 0 <= shr_m r' /\ 2 ^ Z.max 0 n * shr_m r' <= shr_m r /\
  forall K, shr_up r <= 2 ^ Z.max 0 n * K -> shr_up r' <= K.
Proof.
  intros Hr. destruct n as [|p|p]; cbn [shr].
  - rewrite Z.max_id. split_and!; [lia|done|lia|]. intros K. lia.
  - rewrite Z.max_r by lia. split; [done|]. by apply iter_shr_1_spec.
  - rewrite Z.max_l by lia. split_and!; [lia|done|lia|]. intros K. lia.
Qed.

Lemma round_nearest_even_up r : 0 <= shr_m r ->
  0 <= round_nearest_even (shr_m r) (loc_of_shr_record r) <= shr_up r.
Proof. destruct r as [m [] []]; unfold shr_up; simpl; try lia. destruct (Z.even m); lia. Qed.

(** Rounding [P * 2^e], which is at most [K * 2^eo] with [eo] on the grid. *)
Lemma round_aux_le prec emax P e K eo :
  0 < P -> e <= eo -> 0 <= K ->
  e + Z.max 0 (fexp prec emax (Zdigits2 P + e) - e) <= eo ->
  P <= K * 2 ^ (eo - e) ->
  match binary_round_aux prec emax false P e loc_Exact with
  | S754_finite _ m e' => e <= e' /\ Z.pos m * 2 ^ (e' - e) <= K * 2 ^ (eo - e)
  | _ => True
  end.
Proof.
  intros HP Heo HK Hgrid Hle. unfold binary_round_aux, shr_fexp at 1. simpl shr_record_of_loc.
  set (n := fexp prec emax (Zdigits2 P + e) - e) in *.
  pose proof (shr_spec {| shr_m := P; shr_r := false; shr_s := false |} e n ltac:(simpl; lia)) as H1.
  destruct (shr _ e n) as [r1 e1]. destruct H1 as (-> & H1 & _ & Hup).
  assert (shr_up r1 <= K * 2 ^ (eo - (e + Z.max 0 n))) as Hr1.
  { apply Hup. unfold shr_up. simpl. etrans; [exact Hle|].
    replace (eo - e) with (Z.max 0 n + (eo - (e + Z.max 0 n))) by lia.
    rewrite Z.pow_add_r by lia. apply Z.eq_le_incl. ring. }
  pose proof (round_nearest_even_up r1 H1) as [Hm0 Hm1].
  set (m1 := round_nearest_even (shr_m r1) (loc_of_shr_record r1)) in *.
  unfold shr_fexp. simpl shr_record_of_loc.
  set (n2 := fexp prec emax (Zdigits2 m1 + (e + Z.max 0 n)) - (e + Z.max 0 n)).
  pose proof (shr_spec {| shr_m := m1; shr_r := false; shr_s := false |} (e + Z.max 0 n) n2 Hm0) as H2.
  destruct (shr _ (e + Z.max 0 n) n2) as [r2 e2]. destruct H2 as (-> & H2 & Hlow & _). simpl in Hlow.
  destruct (shr_m r2) as [|m|]; [done| |done].
  destruct (_ <=? emax - prec); [|done]. split; [lia|].
  transitivity (m1 * 2 ^ Z.max 0 n).
  - replace (e + Z.max 0 n + Z.max 0 n2 - e) with (Z.max 0 n2 + Z.max 0 n) by lia.
    rewrite Z.pow_add_r, Z.mul_assoc by lia. apply Z.mul_le_mono_nonneg_r; lia.
  - transitivity (K * 2 ^ (eo - (e + Z.max 0 n)) * 2 ^ Z.max 0 n).
    + apply Z.mul_le_mono_nonneg_r; lia.
    + rewrite <- Z.mul_assoc, <- Z.pow_add_r by lia.
      by replace (eo - (e + Z.max 0 n) + Z.max 0 n) with (eo - e) by lia.
Qed.

(** A canonical mantissa passes through rounding unchanged. *)
Lemma round_aux_canonical prec emax m e :
  fexp prec emax (Z.pos (digits2_pos m) + e) = e -> e <= emax - prec ->
  binary_round_aux prec emax false (Z.pos m) e loc_Exact = S754_finite false m e.
Proof.
  intros Hc He. unfold binary_round_aux, shr_fexp at 1. simpl Zdigits2. simpl shr_record_of_loc.
  rewrite Hc, Z.sub_diag. simpl shr. cbn iota beta. unfold shr_fexp. simpl.
  rewrite Hc, Z.sub_diag. simpl. by rewrite (proj2 (Z.leb_le _ _)).
Qed.

(** Integers below 2^24 are represented exactly. *)
Lemma float_of_Z_exact z : 0 < z < 2 ^ 24 ->
  exists m e, float_of_Z z = S754_finite false m e /\ -24 <= e <= 0 /\
    Z.pos m = z * 2 ^ (- e) /\ Z.pos m < 2 ^ 24.
Proof.
  intros Hz. destruct z as [|p|p]; [lia| |lia].
  unfold float_of_Z, binary_normalize, binary_round, shl_align.
  pose proof (digits2_le p 24 ltac:(lia) ltac:(lia)) as Hd.
  assert (fexp 24 128 (Z.pos (digits2_pos p) + 0) = Z.pos (digits2_pos p) - 24) as Hf.
  { unfold fexp, emin. lia. }
  rewrite Hf, Z.sub_0_r.
  destruct (Z.pos (digits2_pos p) - 24) as [|q|q] eqn:E; [|lia|].
  - exists p, 0. rewrite round_aux_canonical by (unfold fexp, emin; lia).
    split_and!; [done|lia|lia|lia|lia].
  - destruct (iter_xO p q) as [H1 H2]. exists (Pos.iter xO p q), (Z.neg q).
    rewrite round_aux_canonical by (unfold fexp, emin; lia).
    split_and!; [done|lia|lia|done|].
    pose proof (digits2_bound (Pos.iter xO p q)) as [_ Hb].
    replace (Z.pos (digits2_pos (Pos.iter xO p q))) with 24 in Hb by lia. done.
Qed.

(** [(float)percent / 100] is at most one. *)
Definition percent_ok (p : Z) : bool :=
  match float_div (float_of_Z p) (float_of_Z 100) with
  | S754_finite false m e => (-64 <=? e) && (e <=? 0) && (Z.pos m <=? 2 ^ (- e))
  | _ => false
  end.

Lemma percent_all p : 1 <= p <= 100 -> percent_ok p = true.
Proof.
  intros Hp. assert (forallb (fun n => percent_ok (Z.of_nat n)) (seq 1 100) = true) as H by by vm_compute.
  rewrite forallb_forall in H. specialize (H (Z.to_nat p)). rewrite Z2Nat.id in H by lia.
  apply H. apply in_seq. lia.
Qed.

(** The splay never exceeds the interval itself. *)
Lemma possible_difference_le o p : 0 < o < 2 ^ 24 -> 1 <= p <= 100 ->
  0 <= possible_difference o p <= o.
Proof.
  intros Ho Hp. unfold possible_difference.
  destruct (float_of_Z_exact o Ho) as (mo & eo & -> & He & Hmo & Hm24).
  pose proof (percent_all p Hp) as Hok. unfold percent_ok in Hok.
  destruct (float_div _ _) as [| | |[] mp ep]; try done.
  apply andb_true_iff in Hok as [Hok H3]. apply andb_true_iff in Hok as [H1 H2].
  apply Z.leb_le in H1, H2, H3. unfold float_mul, SFmul. simpl xorb.
  assert (Z.pos (mo * mp) <= Z.pos mo * 2 ^ (- ep)) as HP by nia.
  assert (Z.pos (digits2_pos (mo * mp)) <= 24 - ep) as Hd.
  { apply digits2_le; [lia|]. rewrite <- Z.add_opp_r, Z.pow_add_r by lia. nia. }
  pose proof (round_aux_le 24 128 (Z.pos (mo * mp)) (eo + ep) (Z.pos mo) eo) as Hr.
  replace (eo - (eo + ep)) with (- ep) in Hr by lia.
  specialize (Hr ltac:(lia) ltac:(lia) ltac:(lia)).
  specialize (Hr ltac:(unfold fexp, emin; simpl Zdigits2; lia) HP).
  destruct (binary_round_aux _ _ _ _ _ _) as [| | |[] m e']; simpl; try lia.
  destruct Hr as [Hee Hr]. rewrite Hmo in Hr.
  assert (Z.pos m * 2 ^ (e' - (eo + ep)) <= o * 2 ^ (- (eo + ep))) as Hv.
  { replace (- (eo + ep)) with (- eo + - ep) at 1 by lia. rewrite Z.pow_add_r by lia. lia. }
  destruct (Z.leb_spec 0 e') as [Hp'|Hn].
  - split; [nia|]. rewrite <- Z.add_opp_r, Z.pow_add_r in Hv by lia.
    apply (Z.mul_le_mono_pos_r _ _ (2 ^ (- (eo + ep)))); [apply Z.pow_pos_nonneg; lia | lia].
  - split; [apply Z.div_pos; [lia | apply Z.pow_pos_nonneg; lia]|].
    apply Z.div_le_upper_bound; [apply Z.pow_pos_nonneg; lia|].
    apply (Z.mul_le_mono_pos_r _ _ (2 ^ (e' - (eo + ep)))); [apply Z.pow_pos_nonneg; lia|].
    etrans; [exact Hv|]. rewrite (Z.mul_comm (2 ^ - e')), <- Z.mul_assoc, <- Z.pow_add_r by lia.
    by replace (- e' + (e' - (eo + ep))) with (- (eo + ep)) by lia.
Qed.

(** ** Splayed intervals *)

Section SplayFacts.
Context {S : Type} {A : DatabaseAPI S} {L : DatabaseAPILaws S} {Rel : DatabaseAPIReliable S}.
Context {H : Host S} {HL : HostLaws S} {B : Boost} {BL : BoostLaws B} {Bd : Build}.

Abbreviation settings s := (api_view s kPersistentSettings).
Abbreviation proc_ready p := (api_ready (proc_host p)).
Abbreviation proc_settings p := (api_view (proc_host p) kPersistentSettings).

(** Nothing the store holds changed. *)
Definition same_store (s s' : S) : Prop :=
  api_ready s' /\ forall d, api_view s' d = api_view s d.

Lemma splayValue_run s o p : api_ready s -> 0 < o < 2 ^ 24 -> 0 <= p ->
  exists v s', splayValue o p s = (Ok v, s') /\ same_store s s' /\ 1 <= v /\
    (if (p =? 0) || (100 <? p) then v = o
     else o - possible_difference o p <= v <= o + possible_difference o p).
Proof.
  intros Hr Ho Hp. unfold splayValue. destruct (_ || _) eqn:E.
  { exists o, s. split_and!; [done|by split|lia|done]. }
  apply orb_false_iff in E as [E1 E2]. apply Z.eqb_neq in E1. apply Z.ltb_ge in E2.
  pose proof (possible_difference_le o p Ho ltac:(lia)) as Hd.
  set (d := possible_difference o p) in *.
  rewrite !u64_small by (unfold in_u64; lia).
  destruct (Z.eqb_spec (o + d) (Z.max 1 (o - d))) as [E|E].
  { exists (o + d), s. split_and!; [done|by split|lia|lia|lia]. }
  destruct (uniform_law s (Z.max 1 (o - d)) (o + d) Hr ltac:(lia)) as (v & s' & Ev & Hv & Hr' & Hs).
  exists v, s'. split_and!; [done|by split|lia|lia|lia].
Qed.

Lemma saved_splay_print i v : 0 <= i < 2 ^ 63 -> 0 < v < 2 ^ 63 ->
  saved_splay (to_string i +:+ ":" +:+ to_string v) i = Some v.
Proof.
  intros Hi Hv. unfold saved_splay.
  assert (to_string i +:+ ":" +:+ to_string v = boost_join [to_string i; to_string v] ":") as ->.
  { by rewrite join_cons, join_one. }
  rewrite split_join_tokens.
  2:{ apply Forall_cons; split; [|apply Forall_singleton]; apply token_to_string; (done || lia). }
  rewrite !tryTo_to_string by (simpl; lia).
  assert (i64 i = i) as ->. { unfold i64. rewrite Z.mod_small by lia. lia. }
  rewrite Z.eqb_refl, (proj2 (Z.ltb_lt 0 v)), u64_small by (unfold in_u64; lia).
  rewrite join_cons. pose proof (to_string_nonempty i ltac:(lia)) as Hne.
  by destruct (to_string i).
Qed.

Lemma saved_splay_pos content i v : saved_splay content i = Some v -> 0 < v < 2 ^ 63.
Proof.
  unfold saved_splay. destruct (is_empty content); [done|].
  destruct (split content ":") as [|d0 [|d1 []]]; try done.
  destruct (tryTo TLong d0 10) as [x|]; [|done]. destruct (tryTo TLong d1 10) as [y|] eqn:Ey; [|done].
  destruct (_ && _) eqn:E; [|done]. intros [= <-].
  apply andb_true_iff in E as [_ E]. apply Z.ltb_lt in E.
  apply tryTo_range in Ey; [|lia]. simpl in Ey. rewrite u64_small; unfold in_u64; lia.
Qed.

(** What [restoreSplayedValue] leaves: an entry it would read back. *)
Lemma restore_run name i p : proc_ready p -> 0 < i <= kMaxQueryInterval ->
  0 <= FLAGS_schedule_splay_percent p ->
  exists v h, let p' := mkProc h (proc_shard p) (FLAGS_schedule_splay_percent p) in
    restoreSplayedValue name i p = (Ok v, p') /\ api_ready h /\ 0 < v < 2 ^ 63 /\
    saved_splay (default "" (settings h !! ("interval." +:+ name))) i = Some v /\
    (forall k, k <> "interval." +:+ name -> settings h !! k = proc_settings p !! k) /\
    (forall d, d <> kPersistentSettings -> api_view h d = api_view (proc_host p) d).
Proof.
  intros Hr Hi Hp. destruct p as [s sh fl]. simpl in *. unfold kMaxQueryInterval in Hi.
  pose proof kPersistentSettings_domain as Hd.
  destruct (api_get_law s _ ("interval." +:+ name) Hr Hd) as (st & Eg & _).
  unfold restoreSplayedValue, on_host, zoom, api_get_str, bind, gets, ret. simpl.
  rewrite Eg. unfold set_proc_host. simpl.
  destruct (saved_splay _ i) as [v|] eqn:Es.
  { exists v, s. split_and!; [done|done|by eapply saved_splay_pos|by eapply saved_splay_pos|done..]. }
  cbn [proc_host proc_shard FLAGS_schedule_splay_percent].
  destruct (splayValue_run s i fl Hr ltac:(lia) Hp) as (v & s1 & -> & [Hr1 Hv1] & Hpos & Hrange).
  simpl. assert (v < 2 ^ 63) as Hv63.
  { destruct (_ || _) eqn:E in Hrange; [lia|].
    apply orb_false_iff in E as [E1 E2]. apply Z.eqb_neq in E1. apply Z.ltb_ge in E2.
    pose proof (possible_difference_le i fl ltac:(lia) ltac:(lia)). lia. }
  destruct (api_set_run s1 _ ("interval." +:+ name) (to_string i +:+ ":" +:+ to_string v) Hr1 Hd)
    as (st2 & s2 & E2 & Hr2 & Hv2).
  pose proof (api_set_batch_ok s1 _ _ st2 s2 Hr1 Hd E2) as Hok. rewrite E2. rewrite Hok in Hv2.
  exists v, s2. split_and!; [done|done|lia|lia|..].
  - rewrite Hv2. unfold update_domain. case_decide; [|done]. rewrite lookup_insert_eq. simpl.
    apply saved_splay_print; lia.
  - intros k Hk. rewrite Hv2. unfold update_domain. case_decide; [|done].
    by rewrite lookup_insert_ne, Hv1.
  - intros d Hd'. rewrite Hv2. unfold update_domain. by case_decide; [|rewrite Hv1].
Qed.

Lemma restore_again name i v p : proc_ready p ->
  saved_splay (default "" (proc_settings p !! ("interval." +:+ name))) i = Some v ->
  restoreSplayedValue name i p = (Ok v, p).
Proof.
  intros Hr Hs. destruct p as [s sh fl]. simpl in *.
  destruct (api_get_law s _ ("interval." +:+ name) Hr kPersistentSettings_domain) as (st & Eg & _).
  unfold restoreSplayedValue, on_host, zoom, api_get_str, bind, gets, ret. simpl.
  rewrite Eg. unfold set_proc_host. simpl. by rewrite Hs.
Qed.
End SplayFacts.

(** ** Well-formed packs *)

Section PackFacts.
Context {S : Type} {A : DatabaseAPI S} {L : DatabaseAPILaws S} {Rel : DatabaseAPIReliable S}.
Context {H : Host S} {HL : HostLaws S} {B : Boost} {BL : BoostLaws B} {Bd : Build}.
Context (dflt : Z).

(** What the scheduler relies on for every query of a pack. *)
Record query_ok (q : ScheduledQuery) : Prop := {
  qo_interval : 1 <= interval q <= kMaxQueryInterval;
  qo_splayed : 0 < splayed_interval q < 2 ^ 63;
  qo_query : query q <> "";
  qo_blacklisted : blacklisted q = false;
  qo_options : dom (options q) = ({["snapshot"; "removed"; "blacklist"]} : gset string);
}.

Abbreviation schedule_ok := (map_Forall (fun _ => query_ok)).

Definition proc_ok (p : Proc S) : Prop :=
  api_ready (proc_host p) /\ 0 <= FLAGS_schedule_splay_percent p.

Lemma shard_excluded_inv n p b p' : proc_ok p -> shard_excluded n p = (Ok b, p') -> proc_ok p'.
Proof.
  intros Hp. unfold shard_excluded, getMachineShard. destruct (0 <? n); [|by intros [= <- <-]].
  unfold bind, gets, ret, modify. repeat case_match; intros; simplify_eq/=; done.
Qed.

Lemma query_restricted_inv ms p b p' : proc_ok p -> query_restricted ms p = (Ok b, p') -> proc_ok p'.
Proof.
  intros Hp Hq. unfold query_restricted in Hq. run_step Hq as ex p1 E1.
  assert (proc_ok p1) as Hs.
  { destruct (member "shard" ms) as [v|]; [|by run_pure E1].
    run_step E1 as n p2 E2. run_pure E2. by eapply shard_excluded_inv. }
  destruct ex; [by run_pure Hq|]. destruct (checkPlatform _); simpl in Hq; [|by run_pure Hq].
  run_step Hq as ok p2 E2. by run_pure E2; run_pure Hq.
Qed.

Lemma bool_option_inv key d ms p b p' : bool_option (S := S) key d ms p = (Ok b, p') -> p' = p.
Proof. unfold bool_option. destruct (member key ms) as [v|]; intros E; by run_pure E. Qed.

Lemma add_query_inv sch q p sch' p' : proc_ok p -> schedule_ok sch ->
  add_query dflt sch q p = (Ok sch', p') -> proc_ok p' /\ schedule_ok sch'.
Proof.
  intros Hp Hsch Hq. unfold add_query in Hq. destruct q.2 as [| | | | | |ms]; try by run_pure Hq.
  run_step Hq as ex p1 E1. apply query_restricted_inv in E1; [|done].
  destruct ex; [by run_pure Hq|]. destruct (string_member "query" ms) as [text|]; [|by run_pure Hq].
  run_step Hq as i p2 E2. assert (p2 = p1) as ->. { destruct (member "interval" ms); by run_pure E2. }
  clear E2. destruct (_ || _) eqn:Ei; [by run_pure Hq|].
  apply orb_false_iff in Ei as [[Ei1%Z.leb_gt Et]%orb_false_iff Ei2%Z.ltb_ge].
  destruct (restore_run (c_str q.1) i p1) as (v & h & Er & Hh & Hv & _); [apply E1|lia|apply E1|].
  run_step Hq as v' p3 E3. rewrite Er in E3. simplify_eq.
  run_step Hq as b1 p4 E4. apply bool_option_inv in E4 as ->.
  run_step Hq as b2 p5 E5. apply bool_option_inv in E5 as ->.
  run_step Hq as b3 p6 E6. apply bool_option_inv in E6 as ->. run_pure Hq.
  split; [by split; [|apply E1]|]. destruct (sch !! c_str q.1); [done|].
  apply map_Forall_insert_2; [|done]. split; simpl; [lia|done| |done|].
  - intros ->. done.
  - rewrite !dom_insert_L, dom_singleton_L. set_solver.
Qed.

Lemma Pack_initialize_inv name source obj p pk p' : proc_ok p ->
  Pack_initialize dflt name source obj p = (Ok pk, p') ->
  proc_ok p' /\ schedule_ok (schedule_ pk) /\ name_ pk = name /\ source_ pk = source /\
  stats_ pk = mkPackStats 0 0 0 /\
  (valid_ pk = false -> schedule_ pk = ∅ /\ discovery_queries_ pk = []) /\
  (valid_ pk = true -> checkPlatform (platform_ pk) = true /\
                       Pack_checkVersion (version_ pk) = Ok true).
Proof.
  intros Hp Hi. unfold Pack_initialize in Hi. run_step Hi as ms p1 E1. run_pure E1.
  run_step Hi as n p2 E2. assert (p2 = p1) as ->. { destruct (member "shard" ms); by run_pure E2. }
  clear E2. run_step Hi as ex p3 E3. apply shard_excluded_inv in E3; [|done].
  set (pf := default "" (string_member "platform" ms)) in *.
  set (ver := default "" (string_member "version" ms)) in *.
  run_step Hi as ex2 p4 E4.
  assert (p4 = p3 /\ (ex2 = false -> checkPlatform pf = true /\ Pack_checkVersion ver = Ok true))
    as [-> Hchk].
  { destruct ex; [by run_pure E4|]. destruct (checkPlatform pf); simpl in E4; [|by run_pure E4].
    run_step E4 as ok p5 E5. run_pure E5. run_pure E4. split; [done|]. by destruct ok. }
  destruct ex2; [run_pure Hi; split_and!; try done; apply map_Forall_empty|].
  specialize (Hchk eq_refl). run_step Hi as disc p5 E5. assert (p5 = p3) as -> by by run_pure E5.
  run_step Hi as u p6 E6. unfold modify in E6.
  assert (proc_ok p6) as Hp2.
  { simplify_eq. destruct (_ <=? 1); [|done]. split; [apply E3 | simpl; lia]. }
  clear E6. destruct (member "queries" ms) as [[| | | | | |qs]|];
    try (run_pure Hi; split_and!; try done; apply map_Forall_empty).
  run_step Hi as sch p7 E7.
  destruct (for_fold_inv proc_ok schedule_ok (add_query dflt) qs ∅ p6 sch p7) as [H1 H2];
    [|done|apply map_Forall_empty|done|].
  - intros acc x t r t' _. apply add_query_inv.
  - run_pure Hi. by split_and!.
Qed.
End PackFacts.

(** ** Versions *)

Section VersionFacts.
Context {B : Boost} {BL : BoostLaws B}.

(** A version number written with dots. *)
Definition dotted (v : list Z) : string := boost_join (to_string <$> v) ".".

(** [sdk] is at least [v] on the chunks they both have. *)
Fixpoint covers (sdk v : list Z) : bool :=
  match sdk, v with
  | s :: sdk, r :: v => if s <? r then false else if r <? s then true else covers sdk v
  | _, _ => true
  end.

Definition chunk_ok (z : Z) : Prop := 0 <= z < 2 ^ 31.

Lemma split_dotted v : Forall chunk_ok v -> split (dotted v) "." = to_string <$> v.
Proof.
  intros Hv. apply split_join_tokens. apply Forall_fmap. eapply Forall_impl; [exact Hv|].
  intros z Hz. unfold chunk_ok in Hz. apply token_to_string; [done|lia].
Qed.

Lemma version_loop_covers sdk v : Forall chunk_ok sdk -> Forall chunk_ok v ->
  version_loop (to_string <$> sdk) (to_string <$> v) = Ok (covers sdk v).
Proof.
  intros Hs. revert v. induction Hs as [|s sdk Hs1 Hs2 IH]; intros v Hv; [done|].
  destruct Hv as [|r v Hr Hv]; [done|]. simpl. unfold compare_chunk, stoi, chunk_ok in *.
  rewrite !sto_signed_to_string by (simpl; lia).
  destruct (s <? r); [done|]. destruct (r <? s); [done|]. by apply IH.
Qed.

End VersionFacts.

(** ** Properties *)

Section Properties.
Context {S : Type} {A : DatabaseAPI S} {L : DatabaseAPILaws S} {Rel : DatabaseAPIReliable S}.
Context {H : Host S} {HL : HostLaws S} {B : Boost} {BL : BoostLaws B} {Bd : Build}.

(** A splayed interval is at least one second, at most the single
    precision fraction away from the interval, hence never more than twice it;
    the subtraction [original - possible_difference] does not wrap around. *)
Theorem splay_stays_near_interval s o p : api_ready s -> 0 < o <= kMaxQueryInterval -> 0 <= p ->
  exists v s', splayValue o p s = (Ok v, s') /\ same_store s s' /\ 1 <= v <= 2 * o /\
    (1 <= p <= 100 -> Z.abs (v - o) <= possible_difference o p <= o).
Proof.
  intros Hr Ho Hp. unfold kMaxQueryInterval in Ho.
  destruct (splayValue_run s o p Hr ltac:(lia) Hp) as (v & s' & E & Hs & Hpos & Hv).
  exists v, s'. split; [done|]. split; [done|].
  destruct (Z.eqb_spec p 0), (Z.ltb_spec 100 p); simpl in Hv; try lia.
  pose proof (possible_difference_le o p ltac:(lia) ltac:(lia)). lia.
Qed.

(** The splay of a query is drawn once: asking again with the same interval
    gives the same value and leaves the process and the store untouched, and the
    first call changes no other entry of the store. *)
Theorem splay_is_sticky name i (p : Proc S) :
  api_ready (proc_host p) -> 0 < i <= kMaxQueryInterval -> 0 <= FLAGS_schedule_splay_percent p ->
  exists v p', restoreSplayedValue name i p = (Ok v, p') /\ 0 < v < 2 ^ 63 /\
    restoreSplayedValue name i p' = (Ok v, p') /\
    forall k, k <> "interval." +:+ name ->
      api_view (proc_host p') kPersistentSettings !! k
      = api_view (proc_host p) kPersistentSettings !! k.
Proof.
  intros Hr Hi Hp. destruct (restore_run name i p Hr Hi Hp) as (v & h & E & Hh & Hv & Hsaved & Hk & _).
  eexists _, _. split; [exact E|]. split; [done|]. split; [|done]. by apply restore_again.
Qed.

(** C35: Every query of a constructed pack has a non-empty text, an interval
    between one second and a week, a positive splayed interval, exactly the
    three options the scheduler reads, and is not blacklisted; a pack whose
    platform, version or shard excludes this host holds no query at all. *)
Theorem pack_queries_well_formed dflt name source obj (p p' : Proc S) pk : proc_ok p ->
  Pack_initialize dflt name source obj p = (Ok pk, p') ->
  proc_ok p' /\ map_Forall (fun _ => query_ok) (schedule_ pk) /\
  (valid_ pk = false -> schedule_ pk = ∅ /\ discovery_queries_ pk = []) /\
  (valid_ pk = true -> checkPlatform (platform_ pk) = true /\
                       Pack_checkVersion (version_ pk) = Ok true).
Proof.
  intros Hp Hi. destruct (Pack_initialize_inv dflt name source obj p pk p' Hp Hi)
    as (H1 & H2 & _ & _ & _ & H3). done.
Qed.

(** The discovery answer is cached: a check leaves the answer it gave in
    the cache with consistent statistics, and any later check whose clock is
    still within the refresh interval gives the same answer, reading nothing but
    the clock and leaving the cache as it is. *)
Theorem discovery_answer_is_cached refresh p (s s' : S) a p' :
  checkDiscovery refresh p s = (Ok (a, p'), s') ->
  total (stats_ p) = u64 (hits (stats_ p) + misses (stats_ p)) ->
  (discovery_cache_ p').2 = a /\
  total (stats_ p') = u64 (hits (stats_ p') + misses (stats_ p')) /\
  forall s2 t s3, getUnixTime s2 = (Ok t, s3) ->
    (discovery_cache_ p').1 <= t < (discovery_cache_ p').1 + refresh -> refresh <= 2 ^ 64 ->
    exists p'', checkDiscovery refresh p' s2 = (Ok (a, p''), s3) /\
      discovery_cache_ p'' = discovery_cache_ p'.
Proof.
  intros Hc Hst. unfold checkDiscovery in Hc. run_step Hc as now s1 E1.
  assert ((discovery_cache_ p').2 = a /\
          total (stats_ p') = u64 (hits (stats_ p') + misses (stats_ p'))) as [Ha Hst'].
  { destruct (_ <? refresh).
    - run_pure Hc. split; [done|]. rewrite Hst. unfold u64.
      rewrite Z.add_mod_idemp_l, (Z.add_mod_idemp_l (hits _ + 1)) by lia. f_equal. lia.
    - run_step Hc as b s2 E2. run_pure Hc. split; [done|]. rewrite Hst. unfold u64.
      rewrite Z.add_mod_idemp_l, Z.add_mod_idemp_r by lia. f_equal. lia. }
  split; [done|]. split; [done|]. intros s2 t s3 Et Ht Hr.
  unfold checkDiscovery, bind. rewrite Et.
  assert (u64 (t - (discovery_cache_ p').1) = t - (discovery_cache_ p').1) as ->.
  { apply u64_small. unfold in_u64. lia. }
  rewrite (proj2 (Z.ltb_lt _ _)) by lia. eexists. split; [by rewrite Ha|done].
Qed.
End Properties.

(** On numeric version strings [versionAtLeast] is the lexicographic order
    on the chunks both versions have, except that "0.0.0" always passes. *)
Theorem version_at_least_is_numeric {B : Boost} {BL : BoostLaws B} v sdk :
  Forall chunk_ok v -> Forall chunk_ok sdk ->
  dotted v <> "0.0.0" -> dotted sdk <> "0.0.0" ->
  versionAtLeast (dotted v) (dotted sdk) = Ok (covers sdk v).
Proof.
  intros Hv Hs Nv Ns. unfold versionAtLeast. rewrite !bool_decide_false by done. simpl.
  rewrite !split_dotted by done. by apply version_loop_covers.
Qed.
