(* ===== verification/Config.v ===== *)
(** * The configuration (osquery/config/config.cpp, include/osquery/config.h)

    The schedule of packs with its blacklist, the watched files, the source
    hashes, query performance, and the update, backup, purge and refresh
    operations. Config parsers, the config plugin (reached through the registry)
    and what an update reconfigures are parameters of the section. *)
From S2P Require Import Prelude Boost Conversions Json Database Query Host Packs.

(** ** State *)

Record QueryPerformance := {
  executions : Z;
  last_executed : Z;
  wall_time : Z;
  user_time : Z;
  system_time : Z;
  average_memory : Z;
  output_size : Z;
}.

Definition QueryPerformance0 : QueryPerformance :=
  {| executions := 0; last_executed := 0; wall_time := 0; user_time := 0; system_time := 0;
     average_memory := 0; output_size := 0 |}.

(** [class Schedule]. *)
Record Schedule := mkSchedule {
  packs_ : list Pack;
  failed_query_ : string;
  blacklist_ : gmap string Z;
}.

Abbreviation FileCategories := (gmap string (list string)).

(** [class Config] with the globals of config.cpp, around the process. *)
Record Config (S : Type) := {
  cfg_proc : Proc S;
  cfg_schedule : Schedule;
  performance_ : gmap string QueryPerformance;
  files_ : gmap string FileCategories;
  hash_ : gmap string string;
  cfg_valid_ : bool;
  loaded_ : bool;
  is_first_time_refresh : bool;
  refresh_sec_ : Z;
  started_thread_ : bool;
  kStartTime : Z;
  shutdown_requested : bool;
}.
Arguments cfg_proc {S}.
Arguments cfg_schedule {S}.
Arguments performance_ {S}.
Arguments files_ {S}.
Arguments hash_ {S}.
Arguments cfg_valid_ {S}.
Arguments loaded_ {S}.
Arguments is_first_time_refresh {S}.
Arguments refresh_sec_ {S}.
Arguments started_thread_ {S}.
Arguments kStartTime {S}.
Arguments shutdown_requested {S}.

Section Setters.
Context {S : Type}.

Definition set_cfg (c : Config S) (proc : Proc S) sch perf files hash : Config S :=
  {| cfg_proc := proc; cfg_schedule := sch; performance_ := perf; files_ := files; hash_ := hash;
     cfg_valid_ := cfg_valid_ c; loaded_ := loaded_ c;
     is_first_time_refresh := is_first_time_refresh c; refresh_sec_ := refresh_sec_ c;
     started_thread_ := started_thread_ c; kStartTime := kStartTime c;
     shutdown_requested := shutdown_requested c |}.

Definition set_proc (p : Proc S) (c : Config S) : Config S :=
  set_cfg c p (cfg_schedule c) (performance_ c) (files_ c) (hash_ c).
Definition set_cfg_schedule (s : Schedule) (c : Config S) : Config S :=
  set_cfg c (cfg_proc c) s (performance_ c) (files_ c) (hash_ c).
Definition set_performance (p : gmap string QueryPerformance) (c : Config S) : Config S :=
  set_cfg c (cfg_proc c) (cfg_schedule c) p (files_ c) (hash_ c).
Definition set_files (f : gmap string FileCategories) (c : Config S) : Config S :=
  set_cfg c (cfg_proc c) (cfg_schedule c) (performance_ c) f (hash_ c).
Definition set_hash (h : gmap string string) (c : Config S) : Config S :=
  set_cfg c (cfg_proc c) (cfg_schedule c) (performance_ c) (files_ c) h.

Definition set_flags (c : Config S) valid loaded first refresh started start shut : Config S :=
  {| cfg_proc := cfg_proc c; cfg_schedule := cfg_schedule c; performance_ := performance_ c;
     files_ := files_ c; hash_ := hash_ c; cfg_valid_ := valid; loaded_ := loaded;
     is_first_time_refresh := first; refresh_sec_ := refresh; started_thread_ := started;
     kStartTime := start; shutdown_requested := shut |}.

Definition set_valid (b : bool) (c : Config S) : Config S :=
  set_flags c b (loaded_ c) (is_first_time_refresh c) (refresh_sec_ c) (started_thread_ c)
    (kStartTime c) (shutdown_requested c).
Definition set_loaded (b : bool) (c : Config S) : Config S :=
  set_flags c (cfg_valid_ c) b (is_first_time_refresh c) (refresh_sec_ c) (started_thread_ c)
    (kStartTime c) (shutdown_requested c).
Definition set_first_time (b : bool) (c : Config S) : Config S :=
  set_flags c (cfg_valid_ c) (loaded_ c) b (refresh_sec_ c) (started_thread_ c)
    (kStartTime c) (shutdown_requested c).
Definition set_refresh_sec (z : Z) (c : Config S) : Config S :=
  set_flags c (cfg_valid_ c) (loaded_ c) (is_first_time_refresh c) z (started_thread_ c)
    (kStartTime c) (shutdown_requested c).
Definition set_started_thread (b : bool) (c : Config S) : Config S :=
  set_flags c (cfg_valid_ c) (loaded_ c) (is_first_time_refresh c) (refresh_sec_ c) b
    (kStartTime c) (shutdown_requested c).
Definition set_start_time (z : Z) (c : Config S) : Config S :=
  set_flags c (cfg_valid_ c) (loaded_ c) (is_first_time_refresh c) (refresh_sec_ c)
    (started_thread_ c) z (shutdown_requested c).
Definition set_shutdown (b : bool) (c : Config S) : Config S :=
  set_flags c (cfg_valid_ c) (loaded_ c) (is_first_time_refresh c) (refresh_sec_ c)
    (started_thread_ c) (kStartTime c) b.

Definition set_packs (l : list Pack) (c : Config S) : Config S :=
  set_cfg_schedule (mkSchedule l (failed_query_ (cfg_schedule c)) (blacklist_ (cfg_schedule c))) c.
Definition set_blacklist (b : gmap string Z) (c : Config S) : Config S :=
  set_cfg_schedule (mkSchedule (packs_ (cfg_schedule c)) (failed_query_ (cfg_schedule c)) b) c.

Definition on_proc {A} (m : M (Proc S) A) : M (Config S) A := zoom cfg_proc set_proc m.
Definition in_host {A} (m : M S A) : M (Config S) A := on_proc (on_host m).
End Setters.

Definition kExecutingQuery : string := "executing_query".
Definition kFailedQueries : string := "failed_queries".
Definition kConfigPersistencePrefix : string := "config_persistence.".

(** ** The blacklist in the store *)

Section Blacklist.
Context {S : Type} {A : DatabaseAPI S} {H : Host S} {B : Boost}.

(** The pairs [name; expiry; name; expiry; ...] still in force. *)
Fixpoint blacklist_pairs (current_time : Z) (l : list string) (blacklist : gmap string Z)
    : gmap string Z :=
  match l with
  | name :: e :: l =>
      let expire := takeOr (tryTo TLongLong e 10) 0%Z in
      blacklist_pairs current_time l
        (if (0 <? expire)%Z && (current_time <? u64 expire)%Z
         then <[name := u64 expire]> blacklist else blacklist)
  | _ => blacklist
  end.

Definition restoreScheduleBlacklist (blacklist : gmap string Z) : M S (gmap string Z) :=
  let* content := api_get_str kPersistentSettings kFailedQueries in
  let pairs := split content ":" in
  if (length pairs =? 0)%nat || negb (length pairs mod 2 =? 0)%nat then ret blacklist
  else
    let* current_time := getUnixTime in
    ret (blacklist_pairs current_time pairs blacklist).

(** The text of the blacklist: the loop over the map. *)
Fixpoint blacklist_text (content : string) (l : list (string * Z)) : string :=
  match l with
  | [] => content
  | (name, expire) :: l =>
      let content := if is_empty content then content else content +:+ ":" in
      blacklist_text (content +:+ name +:+ ":" +:+ to_string expire) l
  end.

Definition saveScheduleBlacklist (blacklist : gmap string Z) : M S unit :=
  api_set kPersistentSettings kFailedQueries (blacklist_text "" (map_sorted blacklist)) ;;;
  ret tt.

(** [Schedule::Schedule()]. *)
Definition Schedule_new (external : bool) : M S Schedule :=
  if external then ret (mkSchedule [] "" ∅)
  else
    let* blacklist := restoreScheduleBlacklist ∅ in
    let* failed_query := api_get_str kPersistentSettings kExecutingQuery in
    if is_empty failed_query then ret (mkSchedule [] failed_query blacklist)
    else
      api_set kPersistentSettings kExecutingQuery "" ;;;
      let* now := getUnixTime in
      let blacklist := <[failed_query := u64 (now + 86400)]> blacklist in
      saveScheduleBlacklist blacklist ;;;
      ret (mkSchedule [] failed_query blacklist).
End Blacklist.

(** ** Schedule, files and hashes *)

Section Tables.
Context {S : Type}.
Context (FLAGS_pack_delimiter : string).

Definition addFile (source category path : string) : M (Config S) unit :=
  modify (fun c =>
    let cats := default ∅ (files_ c !! source) in
    let paths := default [] (cats !! category) in
    set_files (<[source := <[category := paths ++ [path]]> cats]> (files_ c)) c).

Definition removeFiles (source : string) : M (Config S) unit :=
  modify (fun c => match files_ c !! source with
                   | Some _ => set_files (<[source := ∅]> (files_ c)) c
                   | None => c
                   end).

(** [packs_.erase(std::remove_if(...), packs_.end())]: the predicate drops the
    files of a matching pack, registered under [files_of] its name. *)
Definition remove_packs (matches : Pack -> bool) (files_of : string -> string)
    : M (Config S) unit :=
  let* ps := gets (fun c => packs_ (cfg_schedule c)) in
  let* kept := for_fold ps [] (fun kept p =>
    if matches p then removeFiles (files_of (name_ p)) ;;; ret kept
    else ret (kept ++ [p])) in
  modify (set_packs kept).

Definition Schedule_remove (pack source : string) : M (Config S) unit :=
  remove_packs (fun p => bool_decide (name_ p = pack) &&
                         (bool_decide (source_ p = source) || is_empty source))
               (fun name => source +:+ FLAGS_pack_delimiter +:+ name).

Definition Schedule_removeAll (source : string) : M (Config S) unit :=
  remove_packs (fun p => bool_decide (source_ p = source))
               (fun name => source +:+ FLAGS_pack_delimiter +:+ name).

Definition Schedule_add (pack : Pack) : M (Config S) unit :=
  Schedule_remove (name_ pack) (source_ pack) ;;;
  modify (fun c => set_packs (packs_ (cfg_schedule c) ++ [pack]) c).

Definition removePack (pack : string) : M (Config S) unit := Schedule_remove pack "".

Context {Bd : Build}.

(** [true] when the content is new for this source. *)
Definition hashSource (source content : string) : M (Config S) bool :=
  let new_hash := sha1_hex content in
  let* hashes := gets hash_ in
  if decide (default "" (hashes !! source) = new_hash) then
    (* operator[] creates the entry *)
    modify (set_hash (<[source := new_hash]> hashes)) ;;; ret false
  else modify (set_hash (<[source := new_hash]> hashes)) ;;; ret true.

Definition genHash : M (Config S) (Status * option string) :=
  let* valid := gets cfg_valid_ in
  if negb valid then ret (mkStatus 1 "Current config is not valid", None)
  else
    let* hashes := gets hash_ in
    let buffer := foldl (fun b kv => b +:+ kv.2) "" (map_sorted hashes) in
    ret (mkStatus 0 "OK", Some (sha1_hex buffer)).

Definition getHash (source : string) : M (Config S) string :=
  gets (fun c => default "" (hash_ c !! source)).
End Tables.

(** ** Comments in configuration text *)

Section Comments.
Context {B : Boost}.

Definition newline : string := String "010" "".

(** A line the loop of [stripConfigComments] skips. *)
Definition is_comment (line : string) : bool :=
  match line with
  | String "#" _ => true
  | String "/" (String "/" _) => true
  | _ => false
  end.

Fixpoint strip_lines (sink : string) (lines : list string) : string :=
  match lines with
  | [] => sink
  | line :: lines =>
      let line := boost_trim line in
      strip_lines (if is_comment line then sink else sink +:+ line +:+ newline) lines
  end.

Definition stripConfigComments (json : string) : string :=
  let json := boost_replace_all json ("\" +:+ newline) "" in
  strip_lines "" (split json newline).
End Comments.

(** ** Operations *)

(** A config parser plugin: the top-level keys it asks for and its [update]. *)
Record ConfigParser (S : Type) := {
  parser_keys : list string;
  parser_update : string -> gmap string json -> M (Config S) Status;
  parser_reset : M (Config S) unit;
}.
Arguments parser_keys {S}.
Arguments parser_update {S}.
Arguments parser_reset {S}.

Section Operations.
Context {S : Type} {A : DatabaseAPI S} {H : Host S} {B : Boost} {R : RapidJSON} {Bd : Build}.

(** Flags and the other parts of the process. *)
Context (FLAGS_pack_delimiter : string).
Context (FLAGS_pack_refresh_interval FLAGS_schedule_default_interval : Z).
Context (FLAGS_config_refresh FLAGS_config_accelerated_refresh : Z).
Context (FLAGS_config_enable_backup FLAGS_config_check FLAGS_config_dump : bool).
(** [Killswitch::get().isConfigBackupEnabled()]. *)
Context (backup_killswitch : bool).
(** [RegistryFactory::get().external()]. *)
Context (external : bool).
(** The "config_parser" registry, in name order. *)
Context (parsers : list (ConfigParser S)).
(** [Registry::call("config", request, response)]. *)
Context (config_call : PluginRequest -> M (Config S) (Status * PluginResponse)).
(** [Registry::call("config", "update", request)]: an extension asking the core. *)
Context (core_update : PluginRequest -> M (Config S) Status).
(** [configure()] of every registry but the event ones and
    [EventFactory::configUpdate()]; [configure()] of the active loggers. *)
Context (reconfigure reconfigure_loggers : M (Config S) unit).
(** [exists("config", getActive("config"))] and the name for the message. *)
Context (config_plugin_exists : bool) (config_plugin_name : string).

(** [shouldPackExecute()] on the pack at index [i]. *)
Definition pack_should_execute (i : nat) : M (Config S) bool :=
  let* ps := gets (fun c => packs_ (cfg_schedule c)) in
  match ps !! i with
  | None => ret false
  | Some p =>
      let* (b, p') := in_host (shouldPackExecute FLAGS_pack_refresh_interval p) in
      modify (fun c => set_packs (<[i := p']> (packs_ (cfg_schedule c))) c) ;;;
      ret b
  end.

(** The part of the document one parser receives. *)
Definition parser_config (keys : list string) (ms : members) : gmap string json :=
  foldl (fun acc key =>
    match member key ms with
    | Some JNull | None => acc
    | Some v => if IsArray v || IsObject v
                then match acc !! key with Some _ => acc | None => <[key := v]> acc end
                else acc
    end) ∅ keys.

Definition applyParsers (source : string) (obj : json) (pack : bool) : M (Config S) unit :=
  let* ms := of_result (GetObject obj) in
  for_each parsers (fun parser =>
    parser_update parser source (parser_config (parser_keys parser) ms) ;;; ret tt).

Definition addSinglePack (source pack_name : string) (pack_obj : json) : M (Config S) unit :=
  catch
    (let* pack := on_proc (Pack_initialize FLAGS_schedule_default_interval pack_name source pack_obj) in
     Schedule_add FLAGS_pack_delimiter pack ;;;
     let* n := gets (fun c => length (packs_ (cfg_schedule c))) in
     let* execute := pack_should_execute (pred n) in
     if execute then applyParsers (source +:+ FLAGS_pack_delimiter +:+ pack_name) pack_obj true
     else ret tt)
    (fun _ => ret tt).

Definition addPack (name source : string) (obj : json) : M (Config S) unit :=
  let* ms := of_result (GetObject obj) in
  if decide (name = "*") then
    for_each ms (fun pack => addSinglePack source (c_str pack.1) pack.2)
  else addSinglePack source name obj.

(** *** Iterating the schedule *)

Definition blacklistExpired (blt : Z) (query : ScheduledQuery) : M (Config S) bool :=
  let* now := in_host getUnixTime in
  if (blt <? now)%Z then ret true
  else match options query !! "blacklist" with
       | Some false => ret true
       | _ => ret false
       end.

(** The name a query of a pack is scheduled under. *)
Definition scheduled_name (pack_name name : string) : string :=
  if decide (pack_name = "main") then name
  else "pack" +:+ FLAGS_pack_delimiter +:+ pack_name +:+ FLAGS_pack_delimiter +:+ name.

Definition mark_blacklisted (b : bool) (q : ScheduledQuery) : ScheduledQuery :=
  {| query := query q; interval := interval q; splayed_interval := splayed_interval q;
     blacklisted := b; options := options q |}.

(** [it.second.blacklisted = b] on query [name] of the pack at [i]. *)
Definition set_query_blacklisted (i : nat) (name : string) (b : bool) : M (Config S) unit :=
  modify (fun c =>
    set_packs (alter (fun p => set_schedule (alter (mark_blacklisted b) name (schedule_ p)) p)
                     i (packs_ (cfg_schedule c))) c).

Section Scheduled.
Context (predicate : string -> ScheduledQuery -> M (Config S) unit).
Context (with_blacklisted : bool).

(** The body of the inner loop of [scheduledQueries]. *)
Definition visit_query (i : nat) (pack_name : string) (it : string * ScheduledQuery)
    : M (Config S) unit :=
  let name := scheduled_name pack_name it.1 in
  let* blacklist := gets (fun c => blacklist_ (cfg_schedule c)) in
  match blacklist !! name with
  | None => predicate name it.2
  | Some blt =>
      let* expired := blacklistExpired blt it.2 in
      if expired then
        modify (set_blacklist (delete name blacklist)) ;;;
        in_host (saveScheduleBlacklist (delete name blacklist)) ;;;
        set_query_blacklisted i it.1 false ;;;
        predicate name (mark_blacklisted false it.2)
      else
        set_query_blacklisted i it.1 true ;;;
        if negb with_blacklisted then ret tt
        else predicate name (mark_blacklisted true it.2)
  end.

(** The filtered iteration over the packs, and over each pack's queries. *)
Definition scheduledQueries : M (Config S) unit :=
  let* n := gets (fun c => length (packs_ (cfg_schedule c))) in
  for_each (seq 0 n) (fun i =>
    let* execute := pack_should_execute i in
    if negb execute then ret tt
    else
      let* ps := gets (fun c => packs_ (cfg_schedule c)) in
      match ps !! i with
      | None => ret tt
      | Some p => for_each (map_sorted (schedule_ p)) (visit_query i (name_ p))
      end).
End Scheduled.

(** *** Backup *)

Definition drop_prefix (n : nat) (s : string) : string :=
  String.substring n (String.length s - n) s.

(** One turn of the loop of [restoreConfigBackup]. *)
Definition restore_key (config : gmap string string) (key : string)
    : M (Config S) (flow (gmap string string) string) :=
  let* (status, value) := in_host (api_get kPersistentSettings key) in
  if negb (Status_ok status)
  then ret (Return ("Could not retrieve value for the key: " +:+ key))
  else ret (Next (<[drop_prefix (String.length kConfigPersistencePrefix) key
                    := default "" value]> config)).

(** [inr] is the [DatabaseError] with its message. *)
Definition restoreConfigBackup : M (Config S) (gmap string string + string) :=
  let* (_, keys) := in_host (api_scan kPersistentSettings kConfigPersistencePrefix) in
  let* o := for_flow keys ∅ restore_key in
  match o with
  | Next config => ret (inl config)
  | Return e => ret (inr e)
  end.

Definition backupConfig (config : gmap string string) : M (Config S) unit :=
  let* (_, keys) := in_host (api_scan kPersistentSettings kConfigPersistencePrefix) in
  for_each keys (fun key =>
    match config !! drop_prefix (String.length kConfigPersistencePrefix) key with
    | None => in_host (api_delete kPersistentSettings key) ;;; ret tt
    | Some _ => ret tt
    end) ;;;
  for_each (map_sorted config) (fun source =>
    in_host (api_set kPersistentSettings (kConfigPersistencePrefix +:+ source.1) source.2) ;;;
    ret tt).

(** *** Expiring results *)

Definition queryExists (ps : list Pack) (query_name : string) : bool :=
  existsb (fun p => bool_decide (is_Some (schedule_ p !! query_name))) ps.

(** One turn of the loop of [purge]. *)
Definition purge_one (saved_query : string) : M (Config S) unit :=
  let* ps := gets (fun c => packs_ (cfg_schedule c)) in
  if queryExists ps saved_query then ret tt
  else
    let* content := in_host (api_get_str kPersistentSettings ("timestamp." +:+ saved_query)) in
    if is_empty content then
      let* now := in_host getUnixTime in
      in_host (api_set kPersistentSettings ("timestamp." +:+ saved_query) (to_string now)) ;;;
      ret tt
    else
      match lexical_cast_size content with
      | None => in_host (api_delete kPersistentSettings ("timestamp." +:+ saved_query)) ;;; ret tt
      | Some last_executed =>
          let* now := in_host getUnixTime in
          if (last_executed <? u64 (now - 592200))%Z then
            in_host (api_delete kQueries saved_query) ;;;
            in_host (api_delete kQueries (saved_query +:+ "epoch")) ;;;
            in_host (api_delete kPersistentSettings ("interval." +:+ saved_query)) ;;;
            in_host (api_delete kPersistentSettings ("timestamp." +:+ saved_query)) ;;;
            ret tt
          else ret tt
      end.

Definition purge : M (Config S) unit :=
  let* (_, saved_queries) := in_host (api_scan kQueries "") in
  for_each saved_queries purge_one.

(** *** Updating *)

Definition genPack (name source target : string) : M (Config S) Status :=
  let* (_, response) := config_call {["action" := "genPack"; "name" := name; "value" := target]} in
  match response with
  | [] => ret (mkStatus 1 "Invalid plugin response")
  | r :: _ =>
      match r !! name with
      | None => ret (mkStatus 1 "Invalid plugin response")
      | Some clone =>
          if is_empty clone then ret Status_success
          else
            match JSON_parse_if IsObject (stripConfigComments clone) with
            | None => ret tt
            | Some doc => addPack name source doc
            end ;;;
            ret Status_success
      end
  end.

(** The "schedule" and "packs" keys of a source. *)
Definition source_schedule (source : string) (doc : members) : M (Config S) unit :=
  match member "schedule" doc with
  | Some (JObject schedule) =>
      if external then ret tt
      else addPack "main" source (JObject [("queries", JObject schedule)])
  | _ => ret tt
  end.

Definition source_packs (source : string) (doc : members) : M (Config S) unit :=
  match member "packs" doc with
  | Some (JObject packs) =>
      if external then ret tt
      else for_each packs (fun pack =>
        match pack.2 with
        | JObject _ => addPack (c_str pack.1) source pack.2
        | JString target => genPack (c_str pack.1) source (c_str target) ;;; ret tt
        | _ => ret tt
        end)
  | _ => ret tt
  end.

Definition updateSource (source json : string) : M (Config S) Status :=
  let* fresh := hashSource source json in
  if negb fresh then ret (Status1 2)
  else
    Schedule_removeAll FLAGS_pack_delimiter source ;;;
    removeFiles source ;;;
    match JSON_parse_if IsObject (stripConfigComments json) with
    | Some (JObject doc) =>
        source_schedule source doc ;;;
        source_packs source doc ;;;
        applyParsers source (JObject doc) false ;;;
        ret Status_success
    | _ => ret (mkStatus 1 "Error parsing the config JSON")
    end.

(** The loop over the sources: whether any changed, or the failure. *)
Definition update_sources (config : gmap string string) : M (Config S) (flow bool Status) :=
  for_flow (map_sorted config) false (fun needs source =>
    let* status := updateSource source.1 source.2 in
    if (code status =? 2)%Z then ret (Next needs)
    else if negb (Status_ok status) then ret (Return status)
    else ret (Next true)).

(** From an extension every source is first sent to the core. *)
Definition forward_sources (config : gmap string string) : M (Config S) (flow unit Status) :=
  if external then
    for_flow (map_sorted config) tt (fun _ source =>
      let* status := core_update {["action" := "update"; "source" := source.1; "data" := source.2]} in
      if negb (Status_ok status) then ret (Return status) else ret (Next tt))
  else ret (Next tt).

Definition update (config : gmap string string) : M (Config S) Status :=
  let* forwarded := forward_sources config in
  match forwarded with
  | Return status => ret status
  | Next _ =>
      purge ;;;
      let* updated := update_sources config in
      match updated with
      | Return status => ret status
      | Next needs_reconfigure =>
          let* loaded := gets loaded_ in
          (if loaded && needs_reconfigure then reconfigure else ret tt) ;;;
          (if needs_reconfigure then reconfigure_loggers else ret tt) ;;;
          (if FLAGS_config_enable_backup then backupConfig config else ret tt) ;;;
          ret (mkStatus 0 "OK")
      end
  end.

Definition setRefresh (refresh_sec : Z) : M (Config S) unit := modify (set_refresh_sec refresh_sec).

(** The failing branch of [refresh]: the backup is used once. *)
Definition refresh_failed (status : Status) : M (Config S) Status :=
  let* delay := gets refresh_sec_ in
  (if (0 <? FLAGS_config_refresh)%Z && (delay =? FLAGS_config_refresh)%Z
   then setRefresh FLAGS_config_accelerated_refresh else ret tt) ;;;
  modify (set_loaded true) ;;;
  if negb backup_killswitch then ret status
  else if negb FLAGS_config_enable_backup then ret status
  else
    let* first := gets is_first_time_refresh in
    modify (set_first_time false) ;;;
    if negb first then ret status
    else
      let* result := restoreConfigBackup in
      match result with
      | inr e => ret (Status_failure e)
      | inl config => update config ;;; ret status
      end.

Definition refresh : M (Config S) Status :=
  let* (status, response) := config_call {["action" := "genConfig"]} in
  if negb (Status_ok status) then refresh_failed status
  else
    let* delay := gets refresh_sec_ in
    (if negb (delay =? FLAGS_config_refresh)%Z then setRefresh FLAGS_config_refresh else ret tt) ;;;
    modify (set_valid true) ;;;
    match response with
    | r :: _ =>
        if FLAGS_config_dump then modify (set_shutdown true) ;;; ret Status_success
        else
          let* status := update r in
          modify (set_first_time false) ;;; modify (set_loaded true) ;;; ret status
    | [] => modify (set_first_time false) ;;; modify (set_loaded true) ;;; ret status
    end.

Definition load : M (Config S) Status :=
  modify (set_valid false) ;;;
  if negb config_plugin_exists
  then ret (mkStatus 1 ("Missing config plugin " +:+ config_plugin_name))
  else
    setRefresh FLAGS_config_refresh ;;;
    let* started := gets started_thread_ in
    let* delay := gets refresh_sec_ in
    (if negb FLAGS_config_check && negb started && (0 <? delay)%Z
     then modify (set_started_thread true) else ret tt) ;;;
    refresh.

(** [Config::reset()]. *)
Definition reset : M (Config S) unit :=
  let* now := in_host getUnixTime in
  modify (set_start_time now) ;;;
  let* schedule := in_host (Schedule_new external) in
  modify (set_cfg_schedule schedule) ;;;
  modify (set_performance ∅) ;;;
  modify (set_files ∅) ;;;
  modify (set_hash ∅) ;;;
  modify (set_valid false) ;;;
  modify (set_loaded false) ;;;
  modify (set_first_time true) ;;;
  modify (set_refresh_sec 0) ;;;
  modify (set_started_thread false) ;;;
  for_each parsers parser_reset.

(** *** Performance *)

(** The difference of two counters read as [long long], if both are. *)
Definition counter_diff (r0 r1 : Row) (column : string) : M (Config S) Z :=
  let* c1 := of_result (request_at r1 column) in
  if is_empty c1 then ret 0%Z else
  let* c0 := of_result (request_at r0 column) in
  if is_empty c0 then ret 0%Z
  else match tryTo TLongLong c1 10, tryTo TLongLong c0 10 with
       | inl v1, inl v0 => ret (i64 (v1 - v0))
       | _, _ => ret 0%Z
       end.

Definition recordQueryPerformance (name : string) (delay size : Z) (r0 r1 : Row)
    : M (Config S) unit :=
  modify (fun c => match performance_ c !! name with
                   | Some _ => c
                   | None => set_performance (<[name := QueryPerformance0]> (performance_ c)) c
                   end) ;;;
  let upd (f : QueryPerformance -> QueryPerformance) : M (Config S) unit :=
    modify (fun c => set_performance (alter f name (performance_ c)) c) in
  let* ut := counter_diff r0 r1 "user_time" in
  upd (fun q => {| executions := executions q; last_executed := last_executed q;
                   wall_time := wall_time q;
                   user_time := if (0 <? ut)%Z then u64 (user_time q + ut) else user_time q;
                   system_time := system_time q; average_memory := average_memory q;
                   output_size := output_size q |}) ;;;
  let* st := counter_diff r0 r1 "system_time" in
  upd (fun q => {| executions := executions q; last_executed := last_executed q;
                   wall_time := wall_time q; user_time := user_time q;
                   system_time := if (0 <? st)%Z then u64 (system_time q + st) else system_time q;
                   average_memory := average_memory q; output_size := output_size q |}) ;;;
  let* rs := counter_diff r0 r1 "resident_size" in
  upd (fun q => {| executions := executions q; last_executed := last_executed q;
                   wall_time := wall_time q; user_time := user_time q;
                   system_time := system_time q;
                   average_memory :=
                     if (0 <? rs)%Z
                     then u64 (average_memory q * executions q + rs) / u64 (executions q + 1)
                     else average_memory q;
                   output_size := output_size q |}) ;;;
  let* now := in_host getUnixTime in
  upd (fun q => {| executions := u64 (executions q + 1); last_executed := now;
                   wall_time := u64 (wall_time q + delay); user_time := user_time q;
                   system_time := system_time q; average_memory := average_memory q;
                   output_size := u64 (output_size q + size) |}) ;;;
  in_host (api_set kPersistentSettings kExecutingQuery "") ;;; ret tt.

Definition recordQueryStart (name : string) : M (Config S) unit :=
  in_host (api_set kPersistentSettings kExecutingQuery name) ;;;
  let* now := in_host getUnixTime in
  in_host (api_set kPersistentSettings ("timestamp." +:+ name) (to_string now)) ;;;
  ret tt.

(** *** The plugin entry point *)

(** [ConfigPlugin::call] for a plugin with these [genConfig] and [genPack];
    [getFlag] is [Flag::getValue]. *)
Definition ConfigPlugin_call
    (genConfig : M (Config S) (Status * gmap string string))
    (plugin_genPack : string -> string -> M (Config S) (Status * string))
    (getFlag : string -> string) (request : PluginRequest)
    : M (Config S) (Status * PluginResponse) :=
  match request !! "action" with
  | None => ret (Status_failure "Config plugins require an action", [])
  | Some action =>
      if decide (action = "genConfig") then
        let* (stat, config) := genConfig in ret (stat, [config])
      else if decide (action = "genPack") then
        match request !! "name", request !! "value" with
        | Some name, Some value =>
            let* (stat, pack) := plugin_genPack name value in ret (stat, [{[name := pack]}])
        | _, _ => ret (mkStatus 1 "Missing name or value", [])
        end
      else if decide (action = "update") then
        match request !! "source", request !! "data" with
        | Some source, Some data => let* st := update {[source := data]} in ret (st, [])
        | _, _ => ret (mkStatus 1 "Missing source or data", [])
        end
      else if decide (action = "option") then
        match request !! "name" with
        | None => ret (mkStatus 1 "Missing option name", [])
        | Some name => ret (Status_success, [{["name" := name; "value" := getFlag name]}])
        end
      else ret (mkStatus 1 ("Config plugin action unknown: " +:+ action), [])
  end.
End Operations.
