(* ===== verification/ConfigFacts.v ===== *)
(** * Facts about the configuration

    The query blacklist survives a restart, a query that was executing when the
    process died is blacklisted by the next one, the schedule holds one pack per
    name and source, a source that did not change changes nothing, and a backup
    of the configuration is restored exactly. *)
From S2P Require Import Prelude Boost Conversions Json Database DatabaseFacts Query QueryFacts Host Packs.
From S2P Require Import PacksFacts Config.

(** ** The blacklist *)

Section BlacklistFacts.
Context {S : Type} {A : DatabaseAPI S} {L : DatabaseAPILaws S} {Rel : DatabaseAPIReliable S}.
Context {H : Host S} {HL : HostLaws S} {B : Boost} {BL : BoostLaws B}.

Abbreviation settings s := (api_view s kPersistentSettings).

Lemma set_setting_run s k v : api_ready s ->
  exists st s', api_set kPersistentSettings k v s = (Ok st, s') /\ Status_ok st = true /\
    api_ready s' /\ settings s' = <[k := v]> (settings s) /\
    forall d, d <> kPersistentSettings -> api_view s' d = api_view s d.
Proof.
  intros Hr. pose proof kPersistentSettings_domain as Hd.
  destruct (api_set_run s _ k v Hr Hd) as (st & s' & E & Hr' & Hv).
  pose proof (api_set_batch_ok s _ [(k, v)] st s' Hr Hd E) as Hok. rewrite Hok in Hv.
  exists st, s'. split_and!; [done..| |].
  - rewrite Hv. unfold update_domain. by case_decide.
  - intros d Hne. rewrite Hv. unfold update_domain. by case_decide.
Qed.

Lemma get_setting_run s k : api_ready s ->
  api_get_str kPersistentSettings k s = (Ok (default "" (settings s !! k)), s).
Proof.
  intros Hr. unfold api_get_str, bind, ret.
  by destruct (api_get_law s _ k Hr kPersistentSettings_domain) as (st & -> & _).
Qed.

Lemma api_delete_run s d k : api_ready s -> d ∈ kDomains ->
  exists st s', api_delete d k s = (Ok st, s') /\ api_ready s' /\
    forall d', api_view s' d' = update_domain (api_view s) d (delete k (api_view s d)) d'.
Proof.
  intros Hr Hd. destruct (api_delete_law s d k Hr Hd) as (st & s' & E & Hr' & Hv).
  rewrite (api_delete_ok s d k st s' Hr Hd E) in Hv. by exists st, s'.
Qed.

(** A name the stored list keeps apart from its neighbours. *)
Definition blacklist_ok (b : gmap string Z) : Prop :=
  map_Forall (fun name expire => token ":" name /\ (0 < expire < 2 ^ 63)%Z) b.

Definition pair_tokens (l : list (string * Z)) : list string :=
  l ≫= fun kv => [kv.1; to_string kv.2].

Lemma blacklist_text_join l content :
  Forall (fun kv => (0 <= kv.2)%Z) l ->
  blacklist_text content l =
  match l with
  | [] => content
  | _ => (if is_empty content then "" else content +:+ ":") +:+ boost_join (pair_tokens l) ":"
  end.
Proof.
  intros Hl. revert content. induction Hl as [|[k z] l Hz Hl IH]; intros content; [done|].
  cbn [blacklist_text]. rewrite IH.
  set (c := (if is_empty content then content else content +:+ ":") +:+ k +:+ ":" +:+ to_string z).
  assert ((if is_empty content then content else content +:+ ":")
          = (if is_empty content then "" else content +:+ ":")) as Hc by by destruct content.
  destruct l as [|[k2 z2] l].
  - unfold c. rewrite Hc. simpl pair_tokens. by rewrite join_cons, join_one.
  - assert (is_empty c = false) as ->.
    { unfold c. destruct (is_empty _ ); destruct k; simpl; try done; by destruct content. }
    unfold c. rewrite Hc. simpl pair_tokens. rewrite !join_cons. by rewrite !app_assoc_str.
Qed.

Lemma blacklist_pairs_tokens now l acc :
  Forall (fun kv : string * Z => (0 < kv.2 < 2 ^ 63)%Z) l ->
  blacklist_pairs now (pair_tokens l) acc
  = foldl (fun m kv => <[kv.1 := kv.2]> m) acc (filter (fun kv => (now < kv.2)%Z) l).
Proof.
  intros Hl. revert acc. induction Hl as [|[k z] l Hz Hl IH]; intros acc; [done|].
  simpl. rewrite tryTo_to_string by (simpl in *; lia). simpl in *.
  rewrite u64_small by (unfold in_u64; lia). rewrite IH.
  rewrite (proj2 (Z.ltb_lt 0 z)) by lia. simpl.
  destruct (Z.ltb_spec now z); [by rewrite filter_cons_True | by rewrite filter_cons_False by (simpl; lia)].
Qed.

Lemma foldl_insert_list_to_map {V} (l : list (string * V)) : NoDup l.*1 ->
  foldl (fun m kv => <[kv.1 := kv.2]> m) (∅ : gmap string V) l = list_to_map l.
Proof.
  intros Hnd. rewrite <- (list_to_map_reverse l) by done.
  rewrite <- (reverse_involutive l) at 1. generalize (reverse l). clear.
  induction l as [|[k v] l IH]; [done|].
  rewrite reverse_cons, foldl_app. simpl. by rewrite IH.
Qed.

Lemma NoDup_fst_filter {V} (P : string * V -> Prop) `{!forall x, Decision (P x)} l :
  NoDup l.*1 -> NoDup (filter P l).*1.
Proof. intros H1. eapply sublist_NoDup; [exact H1|]. apply fmap_sublist, sublist_filter. Qed.

Lemma list_to_map_filter_sorted {V} (P : string * V -> Prop) `{!forall x, Decision (P x)}
    (m : gmap string V) : list_to_map (filter P (map_sorted m)) = filter P m.
Proof.
  apply map_eq. intros k. apply option_eq. intros v.
  rewrite <- elem_of_list_to_map by (apply NoDup_fst_filter, NoDup_fst_map_sorted).
  rewrite list_elem_of_filter, elem_of_map_sorted, map_lookup_filter_Some. naive_solver.
Qed.

Lemma length_pair_tokens l : length (pair_tokens l) = (2 * length l)%nat.
Proof. induction l as [|kv l IH]; simpl; lia. Qed.

Lemma split_blacklist_text b : blacklist_ok b ->
  split (blacklist_text "" (map_sorted b)) ":" = pair_tokens (map_sorted b).
Proof.
  intros Hb.
  assert (Forall (fun kv => token ":" kv.1 /\ (0 < kv.2 < 2 ^ 63)%Z) (map_sorted b)) as Hf.
  { apply Forall_forall. intros [k z] Hin%elem_of_map_sorted. by apply Hb in Hin. }
  rewrite blacklist_text_join.
  2:{ eapply Forall_impl; [exact Hf|]. simpl. lia. }
  destruct (map_sorted b) as [|kv l].
  { unfold split. by rewrite split_no_delim. }
  change (split (boost_join (pair_tokens (kv :: l)) ":") ":" = pair_tokens (kv :: l)).
  apply split_join_tokens.
  apply Forall_bind. eapply Forall_impl; [exact Hf|]. intros [k z] [Hk Hz]. simpl in *.
  apply Forall_cons. split; [done|]. apply Forall_singleton, token_to_string; [done|lia].
Qed.

Lemma restore_blacklist_text s b : api_ready s -> blacklist_ok b ->
  settings s !! kFailedQueries = Some (blacklist_text "" (map_sorted b)) ->
  exists now s', restoreScheduleBlacklist ∅ s = (Ok (filter (fun kv => (now < kv.2)%Z) b), s') /\
    same_store s s' /\ (b <> ∅ -> getUnixTime s = (Ok now, s')).
Proof.
  intros Hr Hb Hk. unfold restoreScheduleBlacklist, bind at 1.
  rewrite get_setting_run, Hk by done. cbn [from_option id]. rewrite split_blacklist_text by done.
  destruct (time_law s Hr) as (now & s1 & Et & _ & Hr1 & Hv1).
  rewrite length_pair_tokens. destruct (map_sorted b) as [|kv l] eqn:El.
  - assert (b = ∅) as -> by (apply map_sorted_inj; by rewrite El, map_sorted_empty).
    exists 0%Z, s. simpl. rewrite map_filter_empty. by split_and!.
  - rewrite <- El. exists now, s1. split; [|by split_and!].
    assert ((2 * length (map_sorted b) =? 0)%nat = false) as ->.
    { apply Nat.eqb_neq. rewrite El. simpl. lia. }
    assert (((2 * length (map_sorted b)) mod 2 =? 0)%nat = true) as ->.
    { apply Nat.eqb_eq. rewrite Nat.mul_comm. apply Nat.Div0.mod_mul. }
    cbn [orb negb].
    unfold bind, ret. rewrite Et, blacklist_pairs_tokens.
    + rewrite foldl_insert_list_to_map by (apply NoDup_fst_filter, NoDup_fst_map_sorted).
      by rewrite list_to_map_filter_sorted.
    + apply Forall_forall. intros [k z] Hin%elem_of_map_sorted. by apply Hb in Hin as [_ ?].
Qed.
End BlacklistFacts.

(** ** The configuration object over the store *)

Section HostFacts.
Context {S : Type}.

Definition cfg_host (c : Config S) : S := proc_host (cfg_proc c).
Definition with_host (h : S) (c : Config S) : Config S := set_proc (set_proc_host h (cfg_proc c)) c.

Lemma in_host_run {X} (m : M S X) c r h :
  m (cfg_host c) = (r, h) -> in_host m c = (r, with_host h c).
Proof. intros E. unfold in_host, on_proc, on_host, zoom. unfold cfg_host in E. by rewrite E. Qed.

Lemma in_host_with {X} (m : M S X) c r h h' :
  m h = (r, h') -> in_host m (with_host h c) = (r, with_host h' c).
Proof. intros E. by apply (in_host_run m (with_host h c)). Qed.

Lemma cfg_host_with h c : cfg_host (with_host h c) = h.
Proof. done. Qed.

Lemma with_host_with h h' c : with_host h (with_host h' c) = with_host h c.
Proof. done. Qed.

Lemma with_host_id c : with_host (cfg_host c) c = c.
Proof. by destruct c as [[] ? ? ? ? ? ? ? ? ? ? ?]. Qed.
End HostFacts.

Section ConfigStore.
Context {S : Type} {A : DatabaseAPI S} {L : DatabaseAPILaws S} {Rel : DatabaseAPIReliable S}.
Context {H : Host S} {HL : HostLaws S} {B : Boost} {BL : BoostLaws B}.

Abbreviation settings s := (api_view s kPersistentSettings).

(** Restoring the blacklist always completes and only reads. *)
Lemma restore_blacklist_total b s : api_ready s ->
  exists b' s', restoreScheduleBlacklist b s = (Ok b', s') /\ same_store s s'.
Proof.
  intros Hr. unfold restoreScheduleBlacklist, bind at 1. rewrite get_setting_run by done.
  destruct (_ || _); [by exists b, s|].
  destruct (time_law s Hr) as (now & s1 & Et & _ & Hr1 & Hv1). unfold bind. rewrite Et.
  by eexists _, s1.
Qed.

(** A start with nothing executing keeps the restored blacklist. *)
Lemma Schedule_new_clean s : api_ready s -> default "" (settings s !! kExecutingQuery) = "" ->
  exists b s', Schedule_new false s = (Ok (mkSchedule [] "" b), s') /\
    restoreScheduleBlacklist ∅ s = (Ok b, s') /\ same_store s s'.
Proof.
  intros Hr He. destruct (restore_blacklist_total ∅ s Hr) as (b & s1 & E & Hr1 & Hv1).
  exists b, s1. unfold Schedule_new, bind. rewrite E, get_setting_run, Hv1, He by done. done.
Qed.

(** A start that finds an executing query blacklists it for a day. *)
Lemma Schedule_new_failed s name : api_ready s -> name <> "" ->
  settings s !! kExecutingQuery = Some name ->
  exists b st now sa sb sc, restoreScheduleBlacklist ∅ s = (Ok b, sa) /\
    api_set kPersistentSettings kExecutingQuery "" sa = (Ok st, sb) /\
    getUnixTime sb = (Ok now, sc) /\ in_u64 now /\
  exists sch s2, Schedule_new false s = (Ok sch, s2) /\ api_ready s2 /\
    sch = mkSchedule [] name (<[name := u64 (now + 86400)]> b) /\
    settings s2 = <[kFailedQueries := blacklist_text "" (map_sorted (blacklist_ sch))]>
                    (<[kExecutingQuery := ""]> (settings s)).
Proof.
  intros Hr Hn He. destruct (restore_blacklist_total ∅ s Hr) as (b & s1 & E & Hr1 & Hv1).
  destruct (set_setting_run s1 kExecutingQuery "" Hr1) as (st2 & s2 & E2 & _ & Hr2 & Hv2 & _).
  destruct (time_law s2 Hr2) as (now & s3 & Et & Hu & Hr3 & Hv3).
  destruct (set_setting_run s3 kFailedQueries
    (blacklist_text "" (map_sorted (<[name := u64 (now + 86400)]> b))) Hr3)
    as (st4 & s4 & E4 & _ & Hr4 & Hv4 & _).
  exists b, st2, now, s1, s2, s3. do 4 (split; [done|]). eexists _, s4.
  unfold Schedule_new, bind, ret. rewrite E, get_setting_run, Hv1, He by done. simpl.
  destruct name as [|c name]; [done|]. cbn [is_empty].
  rewrite E2, Et. unfold saveScheduleBlacklist, bind, ret. rewrite E4.
  split_and!; [done..|]. simpl. by rewrite Hv4, Hv3, Hv2, Hv1.
Qed.

Lemma recordQueryStart_run name c : api_ready (cfg_host c) ->
  exists now h, recordQueryStart name c = (Ok tt, with_host h c) /\ api_ready h /\
    settings h = <["timestamp." +:+ name := to_string now]>
                   (<[kExecutingQuery := name]> (settings (cfg_host c))).
Proof.
  intros Hr. destruct (set_setting_run _ kExecutingQuery name Hr) as (st1 & s1 & E1 & _ & Hr1 & Hv1 & _).
  destruct (time_law s1 Hr1) as (now & s2 & Et & _ & Hr2 & Hv2).
  destruct (set_setting_run s2 ("timestamp." +:+ name) (to_string now) Hr2)
    as (st3 & s3 & E3 & _ & Hr3 & Hv3 & _).
  exists now, s3. unfold recordQueryStart, bind.
  rewrite (in_host_run _ c _ _ E1), (in_host_with _ c _ _ _ Et), (in_host_with _ c _ _ _ E3).
  split_and!; [done..|]. by rewrite Hv3, Hv2, Hv1.
Qed.
End ConfigStore.

(** ** The schedule holds one pack per name and source *)

Section ScheduleFacts.
Context {S : Type}.
Context (delim : string).

Abbreviation cfg_packs c := (packs_ (cfg_schedule c)).

(** Removing packs filters the list and only touches the files besides. *)
Lemma remove_packs_run matches files_of (c : Config S) :
  exists f, remove_packs matches files_of c
  = (Ok tt, set_packs (filter (fun p => matches p = false) (cfg_packs c)) (set_files f c)).
Proof.
  unfold remove_packs, bind at 1, gets.
  set (body := fun kept (p : Pack) => _).
  assert (forall l kept f, exists f', for_fold l kept body (set_files f c)
    = (Ok (kept ++ filter (fun p => matches p = false) l), set_files f' c)) as Hfold.
  { induction l as [|p l IH]; intros kept f; simpl.
    - exists f. by rewrite app_nil_r.
    - unfold bind, body at 1. destruct (matches p) eqn:E.
      + rewrite filter_cons_False by congruence. unfold removeFiles, bind, modify, ret. simpl.
        destruct (f !! _); apply IH.
      + rewrite filter_cons_True by done. unfold ret.
        destruct (IH (kept ++ [p]) f) as [f' ->]. exists f'. by rewrite <- app_assoc. }
  assert (set_files (files_ c) c = c) as Hc by by destruct c.
  destruct (Hfold (cfg_packs c) [] (files_ c)) as [f' E]. rewrite Hc in E.
  exists f'. unfold bind. rewrite E. done.
Qed.

Definition pack_id (p : Pack) : string * string := (name_ p, source_ p).

Definition unique_packs (c : Config S) : Prop := NoDup (pack_id <$> cfg_packs c).

Lemma unique_filter (P : Pack -> Prop) `{!forall p, Decision (P p)} l :
  NoDup (pack_id <$> l) -> NoDup (pack_id <$> filter P l).
Proof. intros Hn. eapply sublist_NoDup; [exact Hn|]. apply fmap_sublist, sublist_filter. Qed.

Lemma Schedule_add_packs p (c : Config S) :
  exists c', Schedule_add delim p c = (Ok tt, c') /\
    cfg_packs c' = filter (fun q => bool_decide (name_ q = name_ p) &&
      (bool_decide (source_ q = source_ p) || is_empty (source_ p)) = false) (cfg_packs c) ++ [p] /\
    blacklist_ (cfg_schedule c') = blacklist_ (cfg_schedule c) /\ cfg_proc c' = cfg_proc c.
Proof.
  unfold Schedule_add, Schedule_remove, bind at 1.
  match goal with |- context [remove_packs ?m ?f c] => destruct (remove_packs_run m f c) as [f' ->] end.
  eexists. split; [done|]. by split.
Qed.
End ScheduleFacts.

(** ** Backup *)

Section BackupFacts.
Context {S : Type} {A : DatabaseAPI S} {L : DatabaseAPILaws S} {Rel : DatabaseAPIReliable S}.

Abbreviation settings s := (api_view s kPersistentSettings).
Abbreviation backup_key n := (kConfigPersistencePrefix +:+ n).

Lemma drop_backup_prefix n :
  drop_prefix (String.length kConfigPersistencePrefix) (backup_key n) = n.
Proof. apply substring_app. Qed.

(** Ready, and what the rest of the store holds. *)
Definition backup_inv (c0 c : Config S) : Prop :=
  api_ready (cfg_host c) /\ c = with_host (cfg_host c) c0.

Definition drop_stale (config : gmap string string) (m : gmap string string) (key : string) :=
  match config !! drop_prefix (String.length kConfigPersistencePrefix) key with
  | None => delete key m
  | Some _ => m
  end.

Definition write_source (m : gmap string string) (source : string * string) :=
  <[backup_key source.1 := source.2]> m.

Lemma delete_setting_run s k : api_ready s ->
  exists st s', api_delete kPersistentSettings k s = (Ok st, s') /\ api_ready s' /\
    settings s' = delete k (settings s).
Proof.
  intros Hr. destruct (api_delete_run s _ k Hr kPersistentSettings_domain) as (st & s' & E & Hr' & Hv).
  exists st, s'. split_and!; [done..|]. rewrite Hv. unfold update_domain. by case_decide.
Qed.

Lemma scan_settings_run s prefix : api_ready s ->
  exists st keys, api_scan kPersistentSettings prefix s = (Ok (st, keys), s) /\ NoDup keys /\
    forall k, k ∈ keys <-> is_Some (settings s !! k) /\ exists n, k = prefix +:+ n.
Proof.
  intros Hr. pose proof kPersistentSettings_domain as Hd.
  destruct (api_scan_law s _ prefix Hr Hd) as (st & keys & E & Hk).
  destruct (Hk (api_scan_ok s _ prefix st keys s Hr Hd E)) as [Hnd Hin].
  exists st, keys. split_and!; [done..|]. intros k. by rewrite Hin, prefix_spec.
Qed.

Lemma backupConfig_run config c : api_ready (cfg_host c) ->
  exists keys h, backupConfig config c = (Ok tt, with_host h c) /\ api_ready h /\
    (forall k, k ∈ keys <-> is_Some (settings (cfg_host c) !! k) /\ exists n, k = backup_key n) /\
    settings h = foldl write_source
      (foldl (drop_stale config) (settings (cfg_host c)) keys) (map_sorted config).
Proof.
  intros Hr. destruct (scan_settings_run _ kConfigPersistencePrefix Hr) as (st & keys & E & _ & Hin).
  unfold backupConfig, bind at 1. rewrite (in_host_run _ c _ _ E), with_host_id.
  assert (backup_inv c c) as Hc by (split; [done | by rewrite with_host_id]).
  unfold bind at 1.
  match goal with |- context [for_each keys ?f c] =>
    destruct (for_each_fold (backup_inv c) (fun x => settings (cfg_host x)) (drop_stale config)
                keys f c) as (c1 & -> & [Hr1 Hc1] & Hs1); [|done|] end.
  { intros k x _ [Hx Hxc]. unfold drop_stale. destruct (config !! _).
    - by exists x.
    - destruct (delete_setting_run _ k Hx) as (st1 & s1 & E1 & Hr1 & Hv1).
      exists (with_host s1 x). unfold bind, ret. rewrite (in_host_run _ _ _ _ E1).
      split; [done|]. split; [|done]. split; [done|]. by rewrite Hxc. }
  match goal with |- context [for_each (map_sorted config) ?f c1] =>
    destruct (for_each_fold (backup_inv c) (fun x => settings (cfg_host x)) write_source
                (map_sorted config) f c1) as (c2 & -> & [Hr2 Hc2] & Hs2); [|done|] end.
  { intros [n v] x _ [Hx Hxc].
    destruct (set_setting_run _ (backup_key n) v Hx) as (st1 & s1 & E1 & _ & Hr1' & Hv1 & _).
    exists (with_host s1 x). unfold bind, ret. simpl. rewrite (in_host_run _ _ _ _ E1).
    split; [done|]. split; [|done]. split; [done|]. by rewrite Hxc. }
  exists keys, (cfg_host c2). rewrite <- Hc2. split_and!; [done..|]. by rewrite Hs2, Hs1.
Qed.

Lemma drop_stale_lookup config m x k :
  drop_stale config m x !! k
  = if decide (k = x /\ config !! drop_prefix (String.length kConfigPersistencePrefix) x = None)
    then None else m !! k.
Proof.
  unfold drop_stale. destruct (config !! _); case_decide as Hd; try naive_solver.
  - destruct Hd as [-> _]. by rewrite lookup_delete_eq.
  - rewrite lookup_delete_ne; naive_solver.
Qed.

Lemma foldl_drop_stale_lookup config keys m k :
  foldl (drop_stale config) m keys !! k
  = if decide (k ∈ keys /\
      config !! drop_prefix (String.length kConfigPersistencePrefix) k = None)
    then None else m !! k.
Proof.
  revert m. induction keys as [|x keys IH]; intros m; cbn [foldl].
  { case_decide as Hd; [|done]. destruct Hd as [Hd _]. by apply not_elem_of_nil in Hd. }
  rewrite IH, drop_stale_lookup. repeat case_decide; set_solver.
Qed.

Lemma foldl_write_source_key l m n : NoDup l.*1 ->
  foldl write_source m l !! backup_key n
  = match (list_to_map l : gmap string string) !! n with
    | Some v => Some v
    | None => m !! backup_key n
    end.
Proof.
  revert m. induction l as [|[x v] l IH]; intros m Hnd; [done|].
  apply NoDup_cons in Hnd as [Hx Hnd]. simpl. rewrite IH by done. unfold write_source. simpl.
  destruct (decide (n = x)) as [->|Hne].
  - rewrite lookup_insert_eq, (not_elem_of_list_to_map_1 l x), lookup_insert_eq by done. done.
  - rewrite !lookup_insert_ne; [done|done|]. intros E. by apply app_inj_l_str in E.
Qed.

Lemma foldl_write_source_other l m k : (forall n, k <> backup_key n) ->
  foldl write_source m l !! k = m !! k.
Proof.
  intros Hk. revert m. induction l as [|[x v] l IH]; intros m; [done|]. simpl. rewrite IH.
  unfold write_source. by rewrite lookup_insert_ne.
Qed.

(** After a backup the store holds exactly the configuration under the prefix. *)
Lemma backup_contents config keys m m' :
  (forall k, k ∈ keys <-> is_Some (m !! k) /\ exists n, k = backup_key n) ->
  m' = foldl write_source (foldl (drop_stale config) m keys) (map_sorted config) ->
  (forall n, m' !! backup_key n = config !! n) /\
  (forall k, (forall n, k <> backup_key n) -> m' !! k = m !! k).
Proof.
  intros Hkeys ->. split.
  - intros n. rewrite foldl_write_source_key, list_to_map_sorted by apply NoDup_fst_map_sorted.
    destruct (config !! n) as [v|] eqn:E; [done|].
    rewrite foldl_drop_stale_lookup, drop_backup_prefix. case_decide as Hd; [done|].
    apply eq_None_not_Some. intros Hs. apply Hd. split; [|done]. apply Hkeys. eauto.
  - intros k Hk. rewrite foldl_write_source_other by done. rewrite foldl_drop_stale_lookup.
    case_decide as Hd; [|done]. destruct Hd as [[_ [n ->]]%Hkeys _]. by destruct (Hk n).
Qed.

Definition read_source (m acc : gmap string string) (key : string) : gmap string string :=
  <[drop_prefix (String.length kConfigPersistencePrefix) key := default "" (m !! key)]> acc.

Lemma restore_loop_run c keys acc : api_ready (cfg_host c) ->
  (forall k, k ∈ keys -> is_Some (settings (cfg_host c) !! k)) ->
  for_flow keys acc restore_key c
  = (Ok (Next (foldl (read_source (settings (cfg_host c))) acc keys)), c).
Proof.
  intros Hr. revert acc. induction keys as [|k keys IH]; intros acc Hk; [done|]. cbn [for_flow foldl].
  unfold restore_key at 1, bind at 1 2.
  destruct (api_get_law (cfg_host c) _ k Hr kPersistentSettings_domain) as (st & E & Hok).
  rewrite (in_host_run _ c _ _ E), with_host_id.
  rewrite (proj2 Hok (Hk k ltac:(left))). unfold ret. cbn [negb]. apply IH.
  intros k' Hk'. apply Hk. by right.
Qed.

Lemma foldl_restore_lookup (m : gmap string string) keys acc n :
  Forall (fun k => exists n, k = backup_key n) keys ->
  foldl (read_source m) acc keys !! n
  = if decide (backup_key n ∈ keys) then Some (default "" (m !! backup_key n)) else acc !! n.
Proof.
  intros Hk. revert acc. induction Hk as [|k keys [n' ->] Hks IH]; intros acc; cbn [foldl].
  { case_decide as Hd; [by apply not_elem_of_nil in Hd | done]. }
  rewrite IH. unfold read_source. rewrite drop_backup_prefix.
  destruct (decide (n = n')) as [->|Hne].
  - rewrite lookup_insert_eq. repeat case_decide; set_solver.
  - rewrite lookup_insert_ne by done.
    assert (backup_key n <> backup_key n') by (intros E; by apply app_inj_l_str in E).
    repeat case_decide; set_solver.
Qed.

Lemma restoreConfigBackup_run c config : api_ready (cfg_host c) ->
  (forall n, settings (cfg_host c) !! backup_key n = config !! n) ->
  restoreConfigBackup c = (Ok (inl config), c).
Proof.
  intros Hr Hcfg. destruct (scan_settings_run _ kConfigPersistencePrefix Hr) as (st & keys & E & _ & Hin).
  unfold restoreConfigBackup, bind at 1. rewrite (in_host_run _ c _ _ E), with_host_id.
  unfold bind at 1. rewrite restore_loop_run; [|done|by intros k [? _]%Hin].
  unfold ret. do 3 f_equal. apply map_eq. intros n. rewrite foldl_restore_lookup.
  2:{ apply Forall_forall. by intros k [_ ?]%Hin. }
  rewrite lookup_empty. case_decide as Hd.
  - apply Hin in Hd as [[v Hv] _]. rewrite Hv. rewrite <- Hcfg, Hv. done.
  - symmetry. rewrite <- Hcfg. apply eq_None_not_Some. intros Hs. apply Hd, Hin. eauto.
Qed.
End BackupFacts.

(** ** Performance records *)

Section PerformanceFacts.
Context {S : Type} {A : DatabaseAPI S} {L : DatabaseAPILaws S} {Rel : DatabaseAPIReliable S}.
Context {H : Host S} {HL : HostLaws S}.

(** The columns the scheduler selects from the processes table. *)
Definition has_counters (r : Row) : Prop :=
  is_Some (r !! "user_time") /\ is_Some (r !! "system_time") /\ is_Some (r !! "resident_size").

Lemma counter_diff_run (r0 r1 : Row) column (c : Config S) :
  is_Some (r0 !! column) -> is_Some (r1 !! column) ->
  exists d, counter_diff r0 r1 column c = (Ok d, c).
Proof.
  intros [v0 H0] [v1 H1]. unfold counter_diff, request_at, bind, of_result, ret. rewrite H0, H1.
  repeat case_match; eauto.
Qed.

Lemma alter_executions (f : QueryPerformance -> QueryPerformance) n name (m : gmap string QueryPerformance) :
  (forall q, executions (f q) = n (executions q)) ->
  executions <$> (alter f name m !! name) = n <$> (executions <$> (m !! name)).
Proof. intros Hf. rewrite lookup_alter_eq. destruct (m !! name); simpl; [by rewrite Hf | done]. Qed.

Lemma alter_keep_executions (f : QueryPerformance -> QueryPerformance) name
    (m : gmap string QueryPerformance) : (forall q, executions (f q) = executions q) ->
  executions <$> (alter f name m !! name) = executions <$> (m !! name).
Proof. intros Hf. rewrite lookup_alter_eq. destruct (m !! name); simpl; [by rewrite Hf | done]. Qed.

Lemma recordQueryPerformance_run name delay size r0 r1 (c : Config S) :
  api_ready (cfg_host c) -> has_counters r0 -> has_counters r1 ->
  exists c', recordQueryPerformance name delay size r0 r1 c = (Ok tt, c') /\
    api_ready (cfg_host c') /\
    api_view (cfg_host c') kPersistentSettings
    = <[kExecutingQuery := ""]> (api_view (cfg_host c) kPersistentSettings) /\
    executions <$> (performance_ c' !! name)
    = Some (u64 (default 0%Z (executions <$> (performance_ c !! name)) + 1)).
Proof.
  intros Hr (U0 & S0 & R0) (U1 & S1 & R1).
  set (c1 := match performance_ c !! name with
             | Some _ => c
             | None => set_performance (<[name := QueryPerformance0]> (performance_ c)) c end).
  assert (cfg_host c1 = cfg_host c) as Hh1 by (unfold c1; by case_match).
  assert (executions <$> (performance_ c1 !! name)
          = Some (default 0%Z (executions <$> (performance_ c !! name)))) as Hp1.
  { unfold c1. destruct (performance_ c !! name) eqn:E; [by rewrite E|]. simpl.
    by rewrite lookup_insert_eq. }
  unfold recordQueryPerformance. cbv zeta. rewrite bind_modify. fold c1.
  destruct (counter_diff_run r0 r1 "user_time" c1 U0 U1) as [ut Eu].
  rewrite (bind_run _ _ _ _ _ Eu), bind_modify.
  match goal with |- context [bind _ _ ?x] => set (c2 := x) end.
  destruct (counter_diff_run r0 r1 "system_time" c2 S0 S1) as [sy Es].
  rewrite (bind_run _ _ _ _ _ Es), bind_modify.
  match goal with |- context [bind _ _ ?x] => set (c3 := x) end.
  destruct (counter_diff_run r0 r1 "resident_size" c3 R0 R1) as [rs Er].
  rewrite (bind_run _ _ _ _ _ Er), bind_modify.
  match goal with |- context [bind _ _ ?x] => set (c4 := x) end.
  assert (cfg_host c4 = cfg_host c) as Hh4 by by rewrite <- Hh1.
  destruct (time_law (cfg_host c4) ltac:(by rewrite Hh4)) as (now & s5 & Et & _ & Hr5 & Hv5).
  rewrite (bind_run _ _ _ _ _ (in_host_run _ _ _ _ Et)), bind_modify.
  match goal with |- context [bind _ _ ?x] => set (c5 := x) end.
  destruct (set_setting_run (cfg_host c5) kExecutingQuery "" Hr5) as (st & s6 & E6 & _ & Hr6 & Hv6 & _).
  rewrite (bind_run _ _ _ _ _ (in_host_run _ _ _ _ E6)).
  eexists. split; [done|]. split; [done|]. split.
  - rewrite cfg_host_with, Hv6. change (cfg_host c5) with s5. by rewrite Hv5, Hh4.
  - change (performance_ (with_host s6 c5)) with (performance_ c5). unfold c5. simpl performance_.
    rewrite (alter_executions _ (fun e => u64 (e + 1))) by done.
    change (performance_ (with_host s5 c4)) with (performance_ c4). unfold c4. simpl performance_.
    rewrite alter_keep_executions by done. unfold c3. simpl performance_.
    rewrite alter_keep_executions by done. unfold c2. simpl performance_.
    rewrite alter_keep_executions, Hp1 by done. done.
Qed.
End PerformanceFacts.

(** ** Properties *)

Section Properties.
Context {S : Type} {A : DatabaseAPI S} {L : DatabaseAPILaws S} {Rel : DatabaseAPIReliable S}.
Context {H : Host S} {HL : HostLaws S} {B : Boost} {BL : BoostLaws B}.
Context {R : RapidJSON} {Bd : Build}.

Abbreviation settings s := (api_view s kPersistentSettings).

(** The query blacklist survives a restart: what [saveScheduleBlacklist]
    writes, [restoreScheduleBlacklist] reads back, without the entries that have
    expired (for query names without colons and surrounding blanks). *)
Theorem blacklist_roundtrip b (s : S) : api_ready s -> blacklist_ok b ->
  exists s1 now s2, saveScheduleBlacklist b s = (Ok tt, s1) /\
    restoreScheduleBlacklist ∅ s1 = (Ok (filter (fun kv => (now < kv.2)%Z) b), s2) /\
    same_store s1 s2.
Proof.
  intros Hr Hb.
  destruct (set_setting_run s kFailedQueries (blacklist_text "" (map_sorted b)) Hr)
    as (st & s1 & E & _ & Hr1 & Hv & _).
  destruct (restore_blacklist_text s1 b Hr1 Hb) as (now & s2 & E2 & Hs2 & _).
  { by rewrite Hv, lookup_insert_eq. }
  exists s1, now, s2. split; [|done]. unfold saveScheduleBlacklist, bind. by rewrite E.
Qed.

(** C13: A query that was executing when the process died is blacklisted by the
    next process for a day, in memory and in the store: until 86400 seconds after
    what the clock says once the blacklist is read and the mark is cleared. The
    start after that one finds nothing executing, and keeps from the stored
    blacklist (whose names have no colons and no surrounding blanks) exactly the
    entries that end after the time its clock says. *)
Theorem crashed_query_is_blacklisted name (c : Config S) :
  api_ready (cfg_host c) -> name <> "" ->
  exists c1, recordQueryStart name c = (Ok tt, c1) /\
  exists b st now sa sb sc, restoreScheduleBlacklist ∅ (cfg_host c1) = (Ok b, sa) /\
    api_set kPersistentSettings kExecutingQuery "" sa = (Ok st, sb) /\
    getUnixTime sb = (Ok now, sc) /\
  exists sch s2, Schedule_new false (cfg_host c1) = (Ok sch, s2) /\
    failed_query_ sch = name /\ blacklist_ sch = <[name := u64 (now + 86400)]> b /\
    ((now + 86400 < 2 ^ 64)%Z -> blacklist_ sch !! name = Some (now + 86400)%Z) /\
    settings s2 !! kFailedQueries = Some (blacklist_text "" (map_sorted (blacklist_ sch))) /\
  exists sch3 s3, Schedule_new false s2 = (Ok sch3, s3) /\ failed_query_ sch3 = "" /\
    (blacklist_ok (blacklist_ sch) -> exists t, getUnixTime s2 = (Ok t, s3) /\
       blacklist_ sch3 = filter (fun kv => (t < kv.2)%Z) (blacklist_ sch)).
Proof.
  intros Hr Hn. destruct (recordQueryStart_run name c Hr) as (now0 & h & E & Hh & Hv).
  exists (with_host h c). split; [done|]. rewrite cfg_host_with.
  destruct (Schedule_new_failed h name Hh Hn)
    as (b & st & now & sa & sb & sc & Ea & Eb & Ec & Hu & sch & s2 & E2 & Hr2 & -> & Hv2).
  { rewrite Hv, lookup_insert_ne, lookup_insert_eq by done. done. }
  exists b, st, now, sa, sb, sc. do 3 (split; [done|]). eexists _, s2. split; [exact E2|].
  assert (settings s2 !! kFailedQueries
          = Some (blacklist_text "" (map_sorted (<[name := u64 (now + 86400)]> b)))) as Hf
    by (by rewrite Hv2, lookup_insert_eq).
  do 2 (split; [done|]). split.
  { intros Hlt. simpl. rewrite lookup_insert_eq, u64_small; [done|]. unfold in_u64 in *. lia. }
  split; [exact Hf|].
  destruct (Schedule_new_clean s2 Hr2) as (b3 & s3 & E3 & Er & _).
  { by rewrite Hv2, lookup_insert_ne, lookup_insert_eq by done. }
  eexists _, s3. do 2 (split; [done|]). intros Hok.
  destruct (restore_blacklist_text s2 _ Hr2 Hok Hf) as (t & s3' & Er' & _ & Ht).
  rewrite Er in Er'. simplify_eq. exists t. split; [apply Ht, insert_non_empty | done].
Qed.

(** A query whose execution was recorded to its end is not held responsible
    for a later restart: the next process blacklists nothing new. The record
    counts one execution more. *)
Theorem completed_query_is_not_blacklisted name delay size r0 r1 (c : Config S) :
  api_ready (cfg_host c) -> has_counters r0 -> has_counters r1 ->
  exists c1 c2, recordQueryStart name c = (Ok tt, c1) /\
    recordQueryPerformance name delay size r0 r1 c1 = (Ok tt, c2) /\
    executions <$> (performance_ c2 !! name)
    = Some (u64 (default 0%Z (executions <$> (performance_ c !! name)) + 1)) /\
  exists b s3, Schedule_new false (cfg_host c2) = (Ok (mkSchedule [] "" b), s3) /\
    restoreScheduleBlacklist ∅ (cfg_host c2) = (Ok b, s3).
Proof.
  intros Hr H0 H1. destruct (recordQueryStart_run name c Hr) as (now & h & E & Hh & Hv).
  destruct (recordQueryPerformance_run name delay size r0 r1 (with_host h c) Hh H0 H1)
    as (c2 & E2 & Hr2 & Hv2 & Hex).
  exists (with_host h c), c2. split; [done|]. split; [done|]. split; [done|].
  destruct (Schedule_new_clean (cfg_host c2) Hr2) as (b & s3 & E3 & Hb & _).
  { by rewrite Hv2, lookup_insert_eq. }
  by exists b, s3.
Qed.

(** C23: A backup of the configuration restores exactly: whatever an older backup
    left is gone, and settings that are not part of a backup are untouched. *)
Theorem config_backup_roundtrip config (c : Config S) : api_ready (cfg_host c) ->
  exists c', backupConfig config c = (Ok tt, c') /\
    restoreConfigBackup c' = (Ok (inl config), c') /\
    forall k, (forall n, k <> kConfigPersistencePrefix +:+ n) ->
      settings (cfg_host c') !! k = settings (cfg_host c) !! k.
Proof.
  intros Hr. destruct (backupConfig_run config c Hr) as (keys & h & E & Hh & Hkeys & Hv).
  destruct (backup_contents config keys _ _ Hkeys Hv) as [Hin Hout].
  exists (with_host h c). split; [done|]. split; [|done]. by apply restoreConfigBackup_run.
Qed.

(** The schedule keeps one pack per name and source: adding a pack replaces
    the one it had, keeps every pack of another name, and [removeAll] leaves
    none of the source. *)
Theorem schedule_one_pack_per_source delim p (c : Config S) : unique_packs c ->
  (exists c', Schedule_add delim p c = (Ok tt, c') /\ unique_packs c' /\
     p ∈ packs_ (cfg_schedule c') /\
     forall q, name_ q <> name_ p -> q ∈ packs_ (cfg_schedule c) -> q ∈ packs_ (cfg_schedule c')) /\
  forall source, exists c', Schedule_removeAll delim source c = (Ok tt, c') /\ unique_packs c' /\
     forall q, q ∈ packs_ (cfg_schedule c') <-> q ∈ packs_ (cfg_schedule c) /\ source_ q <> source.
Proof.
  intros Hu. split.
  - destruct (Schedule_add_packs delim p c) as (c' & E & Hp & _). exists c'. split; [done|].
    unfold unique_packs. rewrite Hp. split_and!.
    + rewrite fmap_app. apply NoDup_snoc; [by apply unique_filter|].
      intros (q & Hq & Hin)%list_elem_of_fmap. apply list_elem_of_filter in Hin as [Hm _].
      unfold pack_id in Hq. simplify_eq/=.
      rewrite !bool_decide_true in Hm by done. done.
    + apply elem_of_app. right. by apply list_elem_of_singleton.
    + intros q Hne Hin. apply elem_of_app. left. apply list_elem_of_filter. split; [|done].
      by rewrite bool_decide_false.
  - intros source. unfold Schedule_removeAll.
    match goal with |- context [remove_packs ?m ?f c] => destruct (remove_packs_run m f c) as [f' ->] end.
    eexists. split; [done|]. split; [by apply unique_filter|]. intros q. simpl.
    rewrite list_elem_of_filter, bool_decide_eq_false. naive_solver.
Qed.

(** A source that cannot be parsed fails once only: its hash is recorded
    before it is parsed, so sending the same text again reports "unchanged" and
    changes nothing, with the packs of the source already gone. *)
Theorem invalid_source_fails_once delim refresh dflt ext parsers call source json (c : Config S) :
  default "" (hash_ c !! source) <> sha1_hex json ->
  JSON_parse_if IsObject (stripConfigComments json) = None ->
  exists c', updateSource delim refresh dflt ext parsers call source json c
      = (Ok (mkStatus 1 "Error parsing the config JSON"), c') /\
    updateSource delim refresh dflt ext parsers call source json c' = (Ok (Status1 2), c') /\
    forall q, q ∈ packs_ (cfg_schedule c') -> source_ q <> source.
Proof.
  intros Hh Hp.
  set (c1 := set_hash (<[source := sha1_hex json]> (hash_ c)) c).
  destruct (remove_packs_run (fun p => bool_decide (source_ p = source))
    (fun name => source +:+ delim +:+ name) c1) as [f E].
  unfold updateSource, hashSource, bind, gets. case_decide; [done|]. simpl. fold c1.
  unfold Schedule_removeAll. rewrite E, Hp. simpl. eexists. split; [done|].
  set (c3 := match f !! source with Some _ => _ | None => _ end).
  assert (hash_ c3 = <[source := sha1_hex json]> (hash_ c)) as Hc3.
  { unfold c3. by destruct (f !! source). }
  assert (packs_ (cfg_schedule c3)
          = filter (fun p => bool_decide (source_ p = source) = false) (packs_ (cfg_schedule c))) as Hpk.
  { unfold c3. by destruct (f !! source). }
  rewrite Hc3, lookup_insert_eq. simpl. case_decide; [|done]. simpl. split.
  - unfold ret. f_equal. rewrite insert_insert_eq, <- Hc3. by destruct c3.
  - intros q. rewrite Hpk, list_elem_of_filter, bool_decide_eq_false. naive_solver.
Qed.

(** A blacklisted query whose time has not come and that did not opt out is
    not run: what the callback would do makes no difference, and the query is
    marked as blacklisted. *)
Theorem blacklisted_query_is_skipped delim pred i pack_name it blt now h (c : Config S) :
  blacklist_ (cfg_schedule c) !! scheduled_name delim pack_name it.1 = Some blt ->
  getUnixTime (cfg_host c) = (Ok now, h) -> (now <= blt)%Z ->
  options it.2 !! "blacklist" <> Some false ->
  visit_query delim pred false i pack_name it c
  = set_query_blacklisted i it.1 true (with_host h c).
Proof.
  intros Hb Ht Hle Hopt. unfold visit_query, bind at 1, gets. rewrite Hb.
  unfold blacklistExpired, bind at 1 2. rewrite (in_host_run _ _ _ _ Ht).
  rewrite (proj2 (Z.ltb_ge blt now)) by done.
  destruct (options it.2 !! "blacklist") as [[]|]; done.
Qed.

(** Purging looks a stored name up among the unprefixed query names of the
    schedule, so the epoch entry of a scheduled query is taken for the results
    of an unknown query: once its time stamp is old it is deleted although the
    query is scheduled. *)
Theorem purge_expires_live_epoch q p ts now h (c : Config S) :
  api_ready (cfg_host c) -> p ∈ packs_ (cfg_schedule c) -> is_Some (schedule_ p !! q) ->
  Forall (fun p => schedule_ p !! (q +:+ "epoch") = None) (packs_ (cfg_schedule c)) ->
  settings (cfg_host c) !! ("timestamp." +:+ q +:+ "epoch") = Some (to_string ts) ->
  getUnixTime (cfg_host c) = (Ok now, h) -> in_u64 ts -> (592200 <= now < 2 ^ 64)%Z ->
  (ts < now - 592200)%Z ->
  queryExists (packs_ (cfg_schedule c)) q = true /\
  exists c', purge_one (q +:+ "epoch") c = (Ok tt, c') /\
    api_view (cfg_host c') kQueries !! (q +:+ "epoch") = None.
Proof.
  intros Hr Hin Hq Hno Hts Ht Hu Hnow Hlt. split.
  { apply existsb_exists. exists p. split; [by apply list_elem_of_In | by apply bool_decide_true]. }
  unfold purge_one, bind at 1, gets.
  assert (queryExists (packs_ (cfg_schedule c)) (q +:+ "epoch") = false) as ->.
  { apply not_true_is_false. intros (p' & Hp' & Hs)%existsb_exists.
    apply list_elem_of_In in Hp'. eapply Forall_forall in Hno; [|exact Hp'].
    rewrite Hno in Hs. apply bool_decide_eq_true in Hs as []. done. }
  rewrite (bind_run _ _ _ _ _ (in_host_run _ _ _ _ (get_setting_run _ _ Hr))), Hts, with_host_id.
  cbn [from_option id]. unfold in_u64 in Hu.
  pose proof (to_string_nonempty ts ltac:(lia)) as Hne.
  destruct (is_empty (to_string ts)) eqn:Ee; [by apply is_empty_true in Ee|].
  rewrite lexical_cast_to_string by done. cbn iota beta.
  rewrite (bind_run _ _ _ _ _ (in_host_run _ _ _ _ Ht)).
  rewrite u64_small by (unfold in_u64; lia). rewrite (proj2 (Z.ltb_lt _ _)) by done.
  assert (same_store (cfg_host c) h) as [Hrh Hvh].
  { destruct (time_law _ Hr) as (t' & s' & E' & _ & Hr' & Hv'). rewrite Ht in E'. by simplify_eq. }
  destruct kQueries_domain as [Hd Hne'].
  pose proof kPersistentSettings_domain as Hp.
  destruct (api_delete_run h kQueries (q +:+ "epoch") Hrh Hd) as (st1 & s1 & E1 & Hr1 & Hv1).
  destruct (api_delete_run s1 kQueries ((q +:+ "epoch") +:+ "epoch") Hr1 Hd) as (st2 & s2 & E2 & Hr2 & Hv2).
  destruct (api_delete_run s2 kPersistentSettings ("interval." +:+ q +:+ "epoch") Hr2 Hp)
    as (st3 & s3 & E3 & Hr3 & Hv3).
  destruct (api_delete_run s3 kPersistentSettings ("timestamp." +:+ q +:+ "epoch") Hr3 Hp)
    as (st4 & s4 & E4 & Hr4 & Hv4).
  exists (with_host s4 c).
  rewrite (bind_run _ _ _ _ _ (in_host_with _ c _ _ _ E1)), (bind_run _ _ _ _ _ (in_host_with _ c _ _ _ E2)),
    (bind_run _ _ _ _ _ (in_host_with _ c _ _ _ E3)), (bind_run _ _ _ _ _ (in_host_with _ c _ _ _ E4)).
  split; [done|]. rewrite cfg_host_with, Hv4, (update_domain_ne _ _ _ _ Hne'), Hv3, (update_domain_ne _ _ _ _ Hne').
  rewrite Hv2. unfold update_domain. case_decide; [|done].
  rewrite lookup_delete_ne by (apply app_neq_self; done). rewrite Hv1. unfold update_domain.
  case_decide; [|done]. by rewrite lookup_delete_eq.
Qed.
End Properties.
