(* ===== verification/Scheduler.v ===== *)
(** * The scheduler (osquery/dispatcher/scheduler.cpp, osquery/sql/sql.cpp)

    Escaping of results, the monitored execution of one scheduled query, what is
    stored and logged for it, and the scheduler loop with its compensation of
    time drift. The SQL engine, the logger, the decorators and the steady clock
    are parameters. *)
From S2P Require Import Prelude Boost Conversions Json Database Query Host Packs Config.

(** ** Escaping *)

Definition hex_chars : list ascii :=
  ["0"; "1"; "2"; "3"; "4"; "5"; "6"; "7"; "8"; "9"; "A"; "B"; "C"; "D"; "E"; "F"]%char.

Definition hex_char (n : Z) : ascii := nth (Z.to_nat n) hex_chars "0"%char.

Definition needs_escape (c : ascii) : bool := (byte_of c <? 0x20)%Z || (0x80 <=? byte_of c)%Z.

Fixpoint escape_loop (l : list ascii) : list ascii :=
  match l with
  | [] => []
  | c :: l =>
      (if needs_escape c
       then ["\"%char; "x"%char; hex_char (Z.shiftr (byte_of c) 4); hex_char (Z.land (byte_of c) 0x0F)]
       else [c]) ++ escape_loop l
  end.

Definition escapeNonPrintableBytes (data : string) : string :=
  let escaped := of_chars (escape_loop (chars data)) in
  let needs_replacement := existsb needs_escape (chars data) in
  if needs_replacement then escaped else data.

Definition escapeResults (results : QueryData) : QueryData :=
  (fun row : Row => escapeNonPrintableBytes <$> row) <$> results.

(** ** Time drift *)

(** One turn of the compensation: how long to pause, if at all, and the new
    drift (all in milliseconds). *)
Definition drift_step (interval_ max_time_drift_ time_drift_ loop_step_duration : Z)
    : option Z * Z :=
  if (loop_step_duration + time_drift_ <? interval_)%Z then
    (Some (interval_ - loop_step_duration - time_drift_)%Z, 0%Z)
  else
    let time_drift_ := (time_drift_ + (loop_step_duration - interval_))%Z in
    (None, if (max_time_drift_ <? time_drift_)%Z then 0%Z else time_drift_).

(** ** One query *)

(** What [SQLInternal(query, true)] holds after the execution. *)
Record SQLInternal := {
  sql_status : Status;
  sql_rows : QueryData;
  sql_columns : ColumnNames;
  eventBased : bool;
}.

Section Launch.
Context {S : Type} {A : DatabaseAPI S} {H : Host S} {R : RapidJSON}.
Context (FLAGS_schedule_epoch : Z) (FLAGS_events_optimize : bool).
(** [SQLInternal sql(query, true)]. *)
Context (execute_sql : string -> M (Config S) SQLInternal).
(** [SQL::selectFrom({"resident_size", "user_time", "system_time"},
    "processes", "pid", EQUALS, pid)]. *)
Context (process_counters : M (Config S) QueryData).
(** [runDecorators(DECORATE_ALWAYS)] and [getDecorations]. *)
Context (run_decorators_always : M (Config S) unit) (getDecorations : M (Config S) (gmap string string)).
Context (getHostIdentifier getAsciiTime : M (Config S) string).
(** [logSnapshotQuery] and [logQueryLogItem]. *)
Context (logSnapshotQuery logQueryLogItem : QueryLogItem -> M (Config S) Status).

(** The byte size of the rows, names and values. *)
Definition row_size (row : Row) : Z :=
  foldl (fun n kv => u64 (u64 (n + Z.of_nat (String.length kv.1)) + Z.of_nat (String.length kv.2)))
        0%Z (map_sorted row).
Definition results_size (rows : QueryData) : Z :=
  foldl (fun n row => u64 (n + row_size row)) 0%Z rows.

Definition monitor (name : string) (q : ScheduledQuery) : M (Config S) SQLInternal :=
  let* r0 := process_counters in
  let* t0 := in_host getUnixTime in
  recordQueryStart name ;;;
  let* sql := execute_sql (query q) in
  let* t1 := in_host getUnixTime in
  let* r1 := process_counters in
  match r0, r1 with
  | r0 :: _, r1 :: _ =>
      recordQueryPerformance name (u64 (t1 - t0)) (results_size (sql_rows sql)) r0 r1 ;;; ret sql
  | _, _ => ret sql
  end.

(** [Initializer::requestShutdown(EXIT_CATASTROPHIC, ...)]. *)
Definition requestShutdown : M (Config S) unit := modify (set_shutdown true).

(** [options.count(key) && options.at(key)] and its negative form. *)
Definition option_set (key : string) (q : ScheduledQuery) : bool :=
  match options q !! key with Some b => b | None => false end.
Definition option_cleared (key : string) (q : ScheduledQuery) : bool :=
  match options q !! key with Some b => negb b | None => false end.

Definition make_item (name ident : string) (cols : ColumnNames) (time : Z) (cal : string)
    (decs : gmap string string) (d : DiffResults) (counter : Z) (snap : QueryData) : QueryLogItem :=
  {| results := d; snapshot_results := snap; item_name := name; identifier := ident;
     item_time := time; epoch := FLAGS_schedule_epoch; item_counter := counter;
     calendar_time := cal; decorations := decs; columns := cols |}.

(** The differential of this execution: the status, the counter and the diff. *)
Definition query_results (name : string) (q : ScheduledQuery) (sql : SQLInternal)
    : M (Config S) (Status * Z * DiffResults) :=
  let rows := escapeResults (sql_rows sql) in
  if negb FLAGS_events_optimize || negb (eventBased sql) then
    let* (status, counter, d) :=
      in_host (addNewResults name (query q) rows FLAGS_schedule_epoch 0 (mkDiff [] []) true) in
    (if negb (Status_ok status) then requestShutdown else ret tt) ;;;
    ret (status, counter, d)
  else ret (Status_success, 0%Z, mkDiff rows []).

Definition launchQuery (name : string) (q : ScheduledQuery) : M (Config S) Status :=
  run_decorators_always ;;;
  let* sql := monitor name q in
  if negb (Status_ok (sql_status sql)) then ret (Status_failure "Error executing scheduled query")
  else
    let* ident := getHostIdentifier in
    let* time := in_host getUnixTime in
    let* cal := getAsciiTime in
    let* decs := getDecorations in
    if option_set "snapshot" q then
      logSnapshotQuery (make_item name ident (sql_columns sql) time cal decs (mkDiff [] []) 0
                          (sql_rows sql)) ;;;
      ret Status_success
    else
      let* (status, counter, d) := query_results name q sql in
      let d := if option_cleared "removed" q then mkDiff (added d) [] else d in
      if is_nil (added d) && is_nil (removed d) then ret status
      else
        let* status := logQueryLogItem (make_item name ident (sql_columns sql) time cal decs d counter []) in
        (if negb (Status_ok status) then requestShutdown else ret tt) ;;;
        ret status.
End Launch.

(** ** The loop *)

Section Runner.
Context {S : Type} {A : DatabaseAPI S} {H : Host S}.
Context (FLAGS_pack_delimiter : string) (FLAGS_pack_refresh_interval : Z).
Context (FLAGS_schedule_reload : Z).
(** [launchQuery], with the table cache set for this step. *)
Context (launch : Z -> string -> ScheduledQuery -> M (Config S) Status).
(** [runDecorators(DECORATE_INTERVAL, i)], the database reset (with the optional
    reset of the SQL engine) and [relayStatusLogs(true)]. *)
Context (run_decorators_interval : Z -> M (Config S) unit) (reload relay : M (Config S) unit).
(** The measured duration of the step, [pause] and [interrupted()]. *)
Context (step_duration : M (Config S) Z) (pause : Z -> M (Config S) unit)
        (interrupted : M (Config S) bool).
Context (interval_ max_time_drift_ timeout_ : Z).

(** Is a query of this splayed interval due at step [i]? *)
Definition query_due (i : Z) (q : ScheduledQuery) : bool :=
  (0 <? splayed_interval q)%Z && (i mod splayed_interval q =? 0)%Z.

Definition scheduler_callback (i : Z) (name : string) (q : ScheduledQuery) : M (Config S) unit :=
  if query_due i q then launch i name q ;;; ret tt else ret tt.

(** The body of the [for] loop: the new drift. *)
Definition scheduler_step (i time_drift_ : Z) : M (Config S) Z :=
  scheduledQueries FLAGS_pack_delimiter FLAGS_pack_refresh_interval (scheduler_callback i) false ;;;
  (if (i mod 60 =? 0)%Z then run_decorators_interval i else ret tt) ;;;
  (if (0 <? FLAGS_schedule_reload)%Z && (i mod FLAGS_schedule_reload =? 0)%Z then reload else ret tt) ;;;
  (if (i mod 3 =? 0)%Z then relay else ret tt) ;;;
  let* loop_step_duration := step_duration in
  let '(wait, time_drift_) := drift_step interval_ max_time_drift_ time_drift_ loop_step_duration in
  match wait with
  | Some ms => pause ms ;;; ret time_drift_
  | None => ret time_drift_
  end.

(** [None] when out of fuel; otherwise the step the loop left at and the drift. *)
Fixpoint scheduler_loop (fuel : nat) (i time_drift_ : Z) : M (Config S) (option (Z * Z)) :=
  if (timeout_ =? 0)%Z || (i <=? timeout_)%Z then
    match fuel with
    | O => ret None
    | Datatypes.S fuel =>
        let* time_drift_ := scheduler_step i time_drift_ in
        let* stop := interrupted in
        if stop then ret (Some (i, time_drift_))
        else scheduler_loop fuel (u64 (i + 1)) time_drift_
    end
  else ret (Some (i, time_drift_)).

(** [SchedulerRunner::start()]. *)
Definition SchedulerRunner_start (fuel : nat) : M (Config S) (option (Z * Z)) :=
  let* i := in_host getUnixTime in
  scheduler_loop fuel i 0.
End Runner.

(** The unit test of the escaping. *)
Example escape_tests :
  escapeNonPrintableBytes "hello" = "hello" /\
  escapeNonPrintableBytes (String "001" (String "010" "a")) = "\x01\x0Aa" /\
  escapeNonPrintableBytes (String "200" "") = "\xC8".
Proof. by vm_compute. Qed.
