(* ===== verification/SchedulerFacts.v ===== *)
(** * Facts about the scheduler

    Escaped results are printable and therefore survive the store, a scheduled
    query logs the difference to its previous execution and nothing when there
    is none, the compensated drift stays within its bound, and a scheduler with
    a time limit stops. *)
From S2P Require Import Prelude Boost Conversions Json Database DatabaseFacts Query QueryFacts Host Packs.
From S2P Require Import PacksFacts Config ConfigFacts Scheduler.

(** ** Escaping *)

Definition printable (c : ascii) : bool := negb (needs_escape c).

Lemma hex_char_printable n : printable (hex_char n) = true.
Proof.
  unfold hex_char. generalize (Z.to_nat n). intros m.
  do 16 (destruct m as [|m]; [done|]). simpl. by destruct m.
Qed.

Lemma escape_loop_printable l : forallb printable (escape_loop l) = true.
Proof.
  induction l as [|c l IH]; [done|]. simpl. rewrite forallb_app, IH, andb_true_r.
  destruct (needs_escape c) eqn:E; simpl.
  - by rewrite !hex_char_printable.
  - unfold printable. by rewrite E.
Qed.

Lemma escape_printable s : all_chars printable (escapeNonPrintableBytes s) = true.
Proof.
  unfold escapeNonPrintableBytes, all_chars. destruct (existsb needs_escape (chars s)) eqn:E.
  - rewrite chars_of_chars. apply escape_loop_printable.
  - apply forallb_forall. intros c Hc. unfold printable. apply negb_true_iff, not_true_is_false.
    intros Hn. rewrite (proj2 (existsb_exists _ _)) in E; [done|]. by exists c.
Qed.

Lemma printable_existsb s : all_chars printable s = true -> existsb needs_escape (chars s) = false.
Proof.
  intros Hp. apply not_true_is_false. intros (c & Hc & Hn)%existsb_exists.
  unfold all_chars in Hp. rewrite forallb_forall in Hp. specialize (Hp c Hc).
  unfold printable in Hp. by rewrite Hn in Hp.
Qed.

Lemma printable_nul_free s : all_chars printable s = true -> nul_free s.
Proof.
  unfold nul_free, all_chars. induction s as [|c s IH]; simpl; [done|].
  intros [Hc Hs]%andb_true_iff. rewrite decide_False; [by rewrite IH|].
  by intros ->.
Qed.

(** Column names the store keeps: not empty, no NUL. *)
Definition columns_ok (r : Row) : Prop := map_Forall (fun k _ => k <> "" /\ nul_free k) r.

Lemma escaped_row_wf r : columns_ok r -> row_wf (escapeNonPrintableBytes <$> r).
Proof.
  intros Hc k v. rewrite lookup_fmap. intros (x & Hx & ->)%fmap_Some.
  apply Hc in Hx as [H1 H2]. split_and!; [done..|]. apply printable_nul_free, escape_printable.
Qed.

Lemma escapeResults_wf rows : Forall columns_ok rows -> Forall row_wf (escapeResults rows).
Proof. intros Hr. apply Forall_fmap. eapply Forall_impl; [exact Hr|]. apply escaped_row_wf. Qed.

(** ** Launching *)

Section LaunchFacts.
Context {S : Type} {A : DatabaseAPI S} {L : DatabaseAPILaws S} {Rel : DatabaseAPIReliable S}.
Context {H : Host S} {R : RapidJSON} {RL : RapidJSONLaws R}.

Lemma query_results_run e opt name q sql c old (cfg : Config S) :
  Forall columns_ok (sql_rows sql) -> in_u64 e -> in_u64 c ->
  negb opt || negb (eventBased sql) = true ->
  holds name (query q) e c old (cfg_host cfg) ->
  exists st d h, query_results e opt name q sql cfg = (Ok (st, u64 (c + 1), d), with_host h cfg) /\
    Status_ok st = true /\
    holds name (query q) e (u64 (c + 1)) (escapeResults (sql_rows sql)) h /\
    old ++ added d ≡ₚ escapeResults (sql_rows sql) ++ removed d /\
    (forall r, r ∈ added d -> r ∉ removed d).
Proof.
  intros Hw He Hc Hopt Hh. unfold query_results. rewrite Hopt.
  destruct (next_run name (query q) e c 0 (mkDiff [] []) old (escapeResults (sql_rows sql))
              (cfg_host cfg) (escapeResults_wf _ Hw) He Hc Hh)
    as (st & d & h & E & Hok & Hh' & Hp & Hd).
  exists st, d, h. rewrite (bind_run _ _ _ _ _ (in_host_run _ _ _ _ E)). rewrite Hok. done.
Qed.

Lemma same_rows_no_diff (old rows : QueryData) d :
  old ++ added d ≡ₚ rows ++ removed d -> (forall r, r ∈ added d -> r ∉ removed d) ->
  rows ≡ₚ old -> added d = [] /\ removed d = [].
Proof.
  intros Hp Hd Ho. rewrite Ho in Hp. apply Permutation_app_inv_l in Hp.
  destruct (added d) as [|r a] eqn:Ea.
  - apply Permutation_nil_l in Hp. by rewrite Hp.
  - exfalso. apply (Hd r); [by left|]. rewrite <- Hp. by left.
Qed.
End LaunchFacts.

(** ** Steps of the loop *)

Section StepFacts.
Context {S : Type} {A : DatabaseAPI S} {L : DatabaseAPILaws S} {H : Host S} {HL : HostLaws S}.

(** The store under the configuration is usable. *)
Definition cfg_ready (c : Config S) : Prop := api_ready (cfg_host c).

Lemma in_host_safe {X} (m : M S X) : safe api_ready m -> safe cfg_ready (in_host m).
Proof.
  intros Hm c Hc. destruct (Hm _ Hc) as (a & h & E & Hh).
  exists a, (with_host h c). split; [by apply in_host_run | exact Hh].
Qed.

Lemma time_safe : safe (S := S) api_ready getUnixTime.
Proof. intros s Hs. destruct (time_law s Hs) as (t & s' & E & _ & Hr & _). by exists t, s'. Qed.

Lemma save_blacklist_safe b : safe (S := S) api_ready (saveScheduleBlacklist b).
Proof.
  intros s Hs. unfold saveScheduleBlacklist.
  destruct (api_set_batch_law s kPersistentSettings
              [(kFailedQueries, blacklist_text "" (map_sorted b))] Hs) as (st & s' & E & Hr & _);
    [by left|].
  exists tt, s'. split; [|done]. unfold bind, api_set. by rewrite E.
Qed.

#[local] Hint Resolve in_host_safe time_safe save_blacklist_safe : safe.

Context (delim : string) (refresh reload_s : Z).
Context (launch : Z -> string -> ScheduledQuery -> M (Config S) Status).
Context (decs : Z -> M (Config S) unit) (reload relay : M (Config S) unit).
Context (dur : M (Config S) Z) (pause : Z -> M (Config S) unit) (interval max : Z).
Hypothesis sql_safe : forall q, safe (S := S) api_ready (run_sql q).
Hypothesis launch_safe : forall i n q, safe cfg_ready (launch i n q).
Hypothesis decs_safe : forall i, safe cfg_ready (decs i).
Hypothesis reload_safe : safe cfg_ready reload.
Hypothesis relay_safe : safe cfg_ready relay.
Hypothesis dur_safe : safe cfg_ready dur.
Hypothesis pause_safe : forall ms, safe cfg_ready (pause ms).

#[local] Set Default Proof Using "All".

Lemma discover_safe qs : safe (S := S) api_ready (discover qs).
Proof.
  induction qs as [|q qs IH]; simpl; [auto with safe|].
  apply safe_bind; [done|]. intros [st rows]. auto with safe.
Qed.

Lemma should_execute_safe i : safe cfg_ready (pack_should_execute refresh i).
Proof.
  pose proof discover_safe as Hd. unfold pack_should_execute, shouldPackExecute, checkDiscovery.
  apply safe_bind; [auto with safe|]. intros ps. destruct (ps !! i) as [p|]; [|auto with safe].
  apply safe_bind; [apply in_host_safe; destruct (valid_ p) | intros [b p']; auto with safe].
  - apply safe_bind; [auto 6 with safe | intros [b p']; auto with safe].
  - auto with safe.
Qed.

Lemma visit_query_safe i j pack it :
  safe cfg_ready (visit_query delim (scheduler_callback launch i) false j pack it).
Proof.
  assert (forall n q, safe cfg_ready (scheduler_callback launch i n q)) as Hcb
    by (intros; unfold scheduler_callback; auto with safe).
  unfold visit_query, blacklistExpired, set_query_blacklisted. apply safe_bind; [auto with safe|].
  intros b. destruct (b !! _) as [blt|]; [|done].
  apply safe_bind; [|intros []; auto 10 with safe].
  apply safe_bind; [auto with safe|]. intros t. destruct (_ <? _)%Z; [auto with safe|].
  repeat case_match; auto with safe.
Qed.

Lemma scheduler_step_safe i drift : safe cfg_ready
  (scheduler_step delim refresh reload_s launch decs reload relay dur pause interval max i drift).
Proof.
  pose proof should_execute_safe as He. pose proof (visit_query_safe i) as Hv.
  unfold scheduler_step. apply safe_bind.
  - unfold scheduledQueries. apply safe_bind; [auto with safe|]. intros n.
    apply safe_for_each. intros j. apply safe_bind; [done|]. intros []; simpl; [|auto with safe].
    apply safe_bind; [auto with safe|]. intros ps. destruct (ps !! j); auto with safe.
  - intros _. do 3 (apply safe_bind; [auto with safe | intros _]).
    apply safe_bind; [done|]. intros d. destruct (drift_step _ _ _ _) as [[ms|] d']; auto with safe.
Qed.
End StepFacts.

(** ** Properties *)

(** What [escapeResults] leaves is printable ASCII: escaping again changes
    nothing, no value contains a NUL byte, and rows with proper column names can
    be stored and read back. *)
Theorem escaped_results_are_printable rows :
  Forall (map_Forall (fun _ v => all_chars printable v = true)) (escapeResults rows) /\
  escapeResults (escapeResults rows) = escapeResults rows /\
  (Forall columns_ok rows -> Forall row_wf (escapeResults rows)).
Proof.
  split_and!.
  - apply Forall_fmap, Forall_true. intros r k v. simpl. rewrite lookup_fmap.
    intros (x & _ & ->)%fmap_Some. apply escape_printable.
  - unfold escapeResults. rewrite <- list_fmap_compose. apply list_fmap_ext. intros i r _. simpl.
    rewrite <- map_fmap_compose. apply map_fmap_ext. intros k v _. simpl.
    unfold escapeNonPrintableBytes at 1.
    by rewrite printable_existsb by apply escape_printable.
  - apply escapeResults_wf.
Qed.

Section Properties.
Context {S : Type} {A : DatabaseAPI S} {L : DatabaseAPILaws S} {Rel : DatabaseAPIReliable S}.
Context {H : Host S} {R : RapidJSON} {RL : RapidJSONLaws R}.

(** C3: A later execution of a scheduled query stores its escaped rows, counts
    one more and reports exactly the rows that appeared and disappeared since
    the previous execution. *)
Theorem differential_query_reports_difference e opt name q sql c old (cfg : Config S) :
  Forall columns_ok (sql_rows sql) -> in_u64 e -> in_u64 c ->
  negb opt || negb (eventBased sql) = true ->
  holds name (query q) e c old (cfg_host cfg) ->
  exists st d h, query_results e opt name q sql cfg = (Ok (st, u64 (c + 1), d), with_host h cfg) /\
    Status_ok st = true /\
    holds name (query q) e (u64 (c + 1)) (escapeResults (sql_rows sql)) h /\
    old ++ added d ≡ₚ escapeResults (sql_rows sql) ++ removed d /\
    (forall r, r ∈ added d -> r ∉ removed d).
Proof. apply query_results_run. Qed.

(** A scheduled query whose results are those of its previous execution, in
    any order, succeeds without calling a logger and without asking for a
    shutdown, and counts one more execution. *)
Theorem unchanged_results_log_nothing e opt exec counters decs_always get_decs get_ident get_cal
    log_snapshot log_item name q sql c old ident t cal decs (cfg c0 c1 c2 : Config S) :
  decs_always cfg = (Ok tt, c0) -> monitor exec counters name q c0 = (Ok sql, c1) ->
  Status_ok (sql_status sql) = true -> get_ident c1 = (Ok ident, c1) ->
  in_host getUnixTime c1 = (Ok t, c2) -> get_cal c2 = (Ok cal, c2) -> get_decs c2 = (Ok decs, c2) ->
  option_set "snapshot" q = false -> negb opt || negb (eventBased sql) = true ->
  Forall columns_ok (sql_rows sql) -> in_u64 e -> in_u64 c ->
  holds name (query q) e c old (cfg_host c2) -> escapeResults (sql_rows sql) ≡ₚ old ->
  exists st h, launchQuery e opt exec counters decs_always get_decs get_ident get_cal
      log_snapshot log_item name q cfg = (Ok st, with_host h c2) /\
    Status_ok st = true /\ holds name (query q) e (u64 (c + 1)) (escapeResults (sql_rows sql)) h.
Proof.
  intros E0 E1 Hok Ei Et Ec Ed Hsnap Hopt Hcols He Hc Hh Hsame. unfold launchQuery.
  rewrite (bind_run _ _ _ _ _ E0), (bind_run _ _ _ _ _ E1), Hok. cbn [negb].
  rewrite (bind_run _ _ _ _ _ Ei), (bind_run _ _ _ _ _ Et), (bind_run _ _ _ _ _ Ec),
    (bind_run _ _ _ _ _ Ed), Hsnap.
  destruct (query_results_run e opt name q sql c old c2 Hcols He Hc Hopt Hh)
    as (st & d & h & E & Hst & Hh' & Hp & Hdj).
  destruct (same_rows_no_diff _ _ d Hp Hdj Hsame) as [Ha Hr].
  rewrite (bind_run _ _ _ _ _ E). exists st, h. destruct d as [a r]. simpl in Ha, Hr. subst.
  by destruct (option_cleared "removed" q).
Qed.
End Properties.

(** The drift the scheduler carries over stays between zero and its maximum;
    it pauses only for a positive time that completes the interval exactly, and
    then carries nothing over. *)
Theorem drift_is_bounded interval max drift duration :
  (0 <= drift <= max)%Z -> (0 <= duration)%Z ->
  let '(wait, drift') := drift_step interval max drift duration in
  (0 <= drift' <= max)%Z /\
  match wait with
  | Some ms => (0 < ms)%Z /\ (duration + drift + ms = interval)%Z /\ drift' = 0%Z
  | None => (interval <= duration + drift)%Z /\
            (drift' = duration + drift - interval \/ max < duration + drift - interval)%Z
  end.
Proof.
  intros Hd Hdur. unfold drift_step. destruct (Z.ltb_spec (duration + drift) interval).
  - lia.
  - destruct (Z.ltb_spec max (drift + (duration - interval))); lia.
Qed.

(** A scheduler with a time limit stops: when the operations it calls return
    and leave the store usable, every step completes, and fuel for the remaining
    seconds is enough for the loop to end with a result. *)
Theorem scheduler_stops_at_timeout {S} {A : DatabaseAPI S} {L : DatabaseAPILaws S}
    {H : Host S} {HL : HostLaws S}
    delim refresh reload_s launch decs reload relay dur pause intr interval max timeout
    fuel i drift (c : Config S) :
  (forall q, safe (S := S) api_ready (run_sql q)) -> (forall i n q, safe cfg_ready (launch i n q)) ->
  (forall i, safe cfg_ready (decs i)) -> safe cfg_ready reload -> safe cfg_ready relay ->
  safe cfg_ready dur -> (forall ms, safe cfg_ready (pause ms)) -> safe cfg_ready intr ->
  (0 < timeout < 2 ^ 64 - 1)%Z -> (0 <= i)%Z -> (timeout - i < Z.of_nat fuel)%Z -> cfg_ready c ->
  exists i' d' c', scheduler_loop delim refresh reload_s launch decs reload relay dur pause intr
    interval max timeout fuel i drift c = (Ok (Some (i', d')), c') /\ cfg_ready c'.
Proof.
  intros Hsql Hl Hdecs Hrl Hry Hdur Hp Hintr Ht Hi Hf Hc. revert i drift c Hi Hf Hc.
  induction fuel as [|fuel IH]; intros i drift c Hi Hf Hc; simpl;
    rewrite (proj2 (Z.eqb_neq timeout 0)) by lia; simpl;
    destruct (Z.leb_spec i timeout); [lia|by eexists _, _, _| |by eexists _, _, _].
  destruct (scheduler_step_safe delim refresh reload_s launch decs reload relay dur pause interval max
              Hsql Hl Hdecs Hrl Hry Hdur Hp i drift c Hc) as (d' & c1 & E1 & H1).
  rewrite (bind_run _ _ _ _ _ E1).
  destruct (Hintr c1 H1) as (b & c2 & E2 & H2). rewrite (bind_run _ _ _ _ _ E2).
  destruct b; [by eexists _, _, _|].
  rewrite u64_small by (unfold in_u64; lia). apply IH; [lia | lia | done].
Qed.

(** The limit of the scheduler is compared with the Unix time the loop starts
    at, not with a number of steps: with a limit below the current time nothing
    is run at all, whatever the fuel. *)
Theorem scheduler_limit_is_absolute_time {S} {A : DatabaseAPI S} {H : Host S}
    delim refresh reload_s launch decs reload relay dur pause intr interval max timeout
    fuel now h (c : Config S) :
  getUnixTime (cfg_host c) = (Ok now, h) -> (0 < timeout < now)%Z ->
  SchedulerRunner_start delim refresh reload_s launch decs reload relay dur pause intr
    interval max timeout fuel c = (Ok (Some (now, 0%Z)), with_host h c).
Proof.
  intros E Ht. unfold SchedulerRunner_start.
  rewrite (bind_run _ _ _ _ _ (in_host_run _ _ _ _ E)).
  destruct fuel; simpl; rewrite (proj2 (Z.eqb_neq timeout 0)), (proj2 (Z.leb_gt now timeout)) by lia;
    done.
Qed.
