(* ===== verification/Events.v ===== *)
(** * Event subscribers and their store (osquery/events/events.cpp)

    How a subscriber numbers, stores, indexes, expires and reads back events.
    [Sub] is the state of one [EventSubscriberPlugin] around the host; times are
    unsigned 64-bit seconds. *)
From S2P Require Import Prelude Boost Conversions Json Database Query Host Config.

Definition EVENTS_CHECKPOINT : Z := 256.

(** ** State *)

Record Sub (S : Type) := {
  sub_host : S;
  expire_time_ : Z;
  last_eid_ : Z;
  optimize_time_ : Z;
  optimize_eid_ : Z;
  min_expiration_ : Z;
  query_count_ : Z;
  queries_ : gset string;
  event_count_ : Z;
}.
Arguments sub_host {S}.
Arguments expire_time_ {S}.
Arguments last_eid_ {S}.
Arguments optimize_time_ {S}.
Arguments optimize_eid_ {S}.
Arguments min_expiration_ {S}.
Arguments query_count_ {S}.
Arguments queries_ {S}.
Arguments event_count_ {S}.

Section SubSetters.
Context {S : Type}.

Definition set_sub (u : Sub S) h exp eid otime oeid minexp qcount queries : Sub S :=
  {| sub_host := h; expire_time_ := exp; last_eid_ := eid; optimize_time_ := otime;
     optimize_eid_ := oeid; min_expiration_ := minexp; query_count_ := qcount;
     queries_ := queries; event_count_ := event_count_ u |}.

Definition set_sub_host (h : S) (u : Sub S) : Sub S :=
  set_sub u h (expire_time_ u) (last_eid_ u) (optimize_time_ u) (optimize_eid_ u)
    (min_expiration_ u) (query_count_ u) (queries_ u).
Definition set_expire_time (t : Z) (u : Sub S) : Sub S :=
  set_sub u (sub_host u) t (last_eid_ u) (optimize_time_ u) (optimize_eid_ u)
    (min_expiration_ u) (query_count_ u) (queries_ u).
Definition set_last_eid (n : Z) (u : Sub S) : Sub S :=
  set_sub u (sub_host u) (expire_time_ u) n (optimize_time_ u) (optimize_eid_ u)
    (min_expiration_ u) (query_count_ u) (queries_ u).
Definition set_optimize (t n : Z) (u : Sub S) : Sub S :=
  set_sub u (sub_host u) (expire_time_ u) (last_eid_ u) t n
    (min_expiration_ u) (query_count_ u) (queries_ u).
Definition set_expectations (minexp count : Z) (queries : gset string) (u : Sub S) : Sub S :=
  set_sub u (sub_host u) (expire_time_ u) (last_eid_ u) (optimize_time_ u) (optimize_eid_ u)
    minexp count queries.
Definition set_queries (q : gset string) (u : Sub S) : Sub S :=
  set_expectations (min_expiration_ u) (query_count_ u) q u.
Definition add_event_count (u : Sub S) : Sub S :=
  {| sub_host := sub_host u; expire_time_ := expire_time_ u; last_eid_ := last_eid_ u;
     optimize_time_ := optimize_time_ u; optimize_eid_ := optimize_eid_ u;
     min_expiration_ := min_expiration_ u; query_count_ := query_count_ u;
     queries_ := queries_ u; event_count_ := u64 (event_count_ u + 1) |}.

Definition on_sub {A} (m : M S A) : M (Sub S) A := zoom sub_host set_sub_host m.
End SubSetters.

(** ** Text forms *)

Definition timeFromRecord (record : string) : Z :=
  u64 (takeOr (tryTo TLongLong record 10) 0%Z).

Fixpoint zeros (n : nat) : string :=
  match n with O => "" | S n => String "0" (zeros n) end.

(** Ten digits, so that the order of the texts is the order of the numbers. *)
Definition toIndex (i : Z) : string :=
  let str_index := to_string i in
  if (String.length str_index <? 10)%nat
  then zeros (10 - String.length str_index) +:+ str_index
  else str_index.

(** [s.substr(s.find('.') + 1)]. *)
Fixpoint after_first_dot (s : string) : option string :=
  match s with
  | EmptyString => None
  | String c r => if decide (c = "."%char) then Some r else after_first_dot r
  end.

(** [s.substr(s.rfind('.') + 1)]. *)
Fixpoint after_last_dot (s : string) : option string :=
  match s with
  | EmptyString => None
  | String c r =>
      match after_last_dot r with
      | Some t => Some t
      | None => if decide (c = "."%char) then Some r else None
      end
  end.

Inductive ConstraintOperator :=
  | UNIQUE | EQUALS | GREATER_THAN | LESS_THAN_OR_EQUALS | LESS_THAN | GREATER_THAN_OR_EQUALS
  | MATCH | LIKE | GLOB | REGEXP.

Record Constraint := mkConstraint { op : ConstraintOperator; expr : string }.

(** The loop of [genTable] over the "time" constraints: [start] and [stop]. *)
Fixpoint time_window (cs : list Constraint) (start stop : Z) : Z * Z :=
  match cs with
  | [] => (start, stop)
  | c :: cs =>
      let e := timeFromRecord (expr c) in
      match op c with
      | EQUALS => (e, e)
      | GREATER_THAN => time_window cs (Z.max start (u64 (e + 1))) stop
      | GREATER_THAN_OR_EQUALS => time_window cs (Z.max start e) stop
      | LESS_THAN => time_window cs start (Z.min stop (u64 (e - 1)))
      | LESS_THAN_OR_EQUALS => time_window cs start (Z.min stop e)
      | _ => time_window cs start stop
      end
  end.

Definition bin_le (l r : string) : Prop :=
  (timeFromRecord (default l (after_first_dot l)) <= timeFromRecord (default r (after_first_dot r)))%Z.
#[export] Instance bin_le_dec : RelDecision bin_le.
Proof. intros l r. unfold bin_le. apply _. Defined.

(** ** Operations *)

Section Subscriber.
Context {S : Type} {A : DatabaseAPI S} {H : Host S} {B : Boost} {R : RapidJSON}.
(** [dbNamespace()], [getEventsExpiry()], [getEventsMax()] of the subscriber. *)
Context (dbNamespace : string) (events_expiry events_max : Z).
Context (FLAGS_events_optimize isDaemon : bool).
(** [EventFactory::forwardEvent]. *)
Context (forwardEvent : string -> M S unit).

Definition event_get (key : string) : M (Sub S) string := on_sub (api_get_str kEvents key).
Definition event_set (key value : string) : M (Sub S) Status := on_sub (api_set kEvents key value).
Definition event_delete (key : string) : M (Sub S) Status := on_sub (api_delete kEvents key).

Definition getOptimizeData : M (Sub S) (Z * Z * string) :=
  let* query_name := on_sub (api_get_str kPersistentSettings kExecutingQuery) in
  if is_empty query_name then ret (0%Z, 0%Z, query_name)
  else
    let* content := event_get ("optimize." +:+ query_name) in
    let o_time := timeFromRecord content in
    let* content := event_get ("optimize_eid." +:+ query_name) in
    ret (o_time, takeOr (tryTo TULong content 10) 0%Z, query_name).

Definition setOptimizeData (time eid : Z) : M (Sub S) unit :=
  let* query_name := on_sub (api_get_str kPersistentSettings kExecutingQuery) in
  if is_empty query_name then ret tt
  else
    event_set ("optimize." +:+ query_name) (to_string time) ;;;
    event_set ("optimize_eid." +:+ query_name) (toIndex eid) ;;;
    ret tt.

Definition executedAllQueries : M (Sub S) bool :=
  gets (fun u => (query_count_ u <=? Z.of_nat (size (queries_ u)))%Z).

(** One "eid:time" entry of a record list; [None] is skipped. *)
Definition parse_record (optimize : bool) (u : Sub S) (record : string) : option (string * Z) :=
  match split record ":" with
  | [eid; t] =>
      let et := timeFromRecord t in
      if FLAGS_events_optimize && optimize && (et <=? u64 (optimize_time_ u + 1))%Z
         && (timeFromRecord eid <=? optimize_eid_ u)%Z
      then None else Some (eid, et)
  | _ => None
  end.

Definition getRecords (indexes : list string) (optimize : bool) : M (Sub S) (list (string * Z)) :=
  let* u := gets id in
  for_fold indexes [] (fun records index =>
    let* record_value := event_get ("records." +:+ dbNamespace +:+ "." +:+ index) in
    if is_empty record_value then ret records
    else ret (records ++ omap (parse_record optimize u) (split record_value ","))).

(** The texts of the records that persist when a bin is not dropped entirely;
    the others lose their data. *)
Definition expire_some (records : list (string * Z)) : M (Sub S) (list string) :=
  let* expire_time := gets expire_time_ in
  for_fold records [] (fun persisting record =>
    if (record.2 <=? expire_time)%Z
    then event_delete ("data." +:+ dbNamespace +:+ "." +:+ record.1) ;;; ret persisting
    else ret (persisting ++ [record.1 +:+ ":" +:+ to_string record.2])).

Definition expireRecords (list_type index : string) (all : bool) : M (Sub S) unit :=
  let* ready := executedAllQueries in
  if negb ready then ret tt
  else
    let record_key := "records." +:+ dbNamespace +:+ "." +:+ list_type +:+ "." +:+ index in
    let data_key := "data." +:+ dbNamespace +:+ "." in
    let* expired := getRecords [list_type +:+ "." +:+ index] false in
    let* persisting :=
      (match expired, last expired with
       | first :: _ :: _, Some final =>
           if all then
             on_sub (api_delete_range kEvents (data_key +:+ first.1) (data_key +:+ final.1)) ;;; ret []
           else expire_some expired
       | _, _ => expire_some expired
       end) in
    if all then event_delete record_key ;;; ret tt
    else if (length persisting <? length expired)%nat
    then event_set record_key (boost_join persisting ",") ;;; ret tt
    else ret tt.

Definition expireIndexes (list_type : string) (indexes expirations : list string)
    : M (Sub S) unit :=
  let* ready := executedAllQueries in
  if negb ready then ret tt
  else
    let* persisting := for_fold expirations indexes (fun persisting bin =>
      expireRecords list_type bin true ;;;
      ret (filter (fun x => x <> bin) persisting)) in
    event_set ("indexes." +:+ dbNamespace +:+ "." +:+ list_type) (boost_join persisting ",") ;;;
    ret tt.

(** One bin of the index: the expired ones so far and the ones to return. *)
Definition visit_bin (l_start r_stop : Z) (sort : bool) (acc : list string * list string)
    (bin : string) : M (Sub S) (list string * list string) :=
  let '(expirations, indexes) := acc in
  let step := timeFromRecord bin in
  let step_start := u64 (step * 60) in
  let step_stop := u64 (u64 (step + 1) * 60) in
  let* expire_time := gets expire_time_ in
  let* expirations :=
    (if (step_stop <=? expire_time)%Z then ret (expirations ++ [bin])
     else if (step_start <? expire_time)%Z && sort
     then expireRecords "60" bin false ;;; ret expirations
     else ret expirations) in
  if (l_start <=? step)%Z && ((r_stop =? 0)%Z || (step <? r_stop)%Z) && sort
  then ret (expirations, indexes ++ ["60." +:+ bin])
  else ret (expirations, indexes).

Definition getIndexes (start stop : Z) (sort : bool) : M (Sub S) (list string) :=
  let l_start := if (0 <? start)%Z then (start / 60)%Z else 0%Z in
  let r_stop := if (0 <? stop)%Z then (stop / 60 + 1)%Z else 0%Z in
  let* content := event_get ("indexes." +:+ dbNamespace +:+ ".60") in
  if is_empty content then ret []
  else
    let bins := boost_split (is_any_of ",") content in
    let* (expirations, indexes) := for_fold bins ([], []) (visit_bin l_start r_stop sort) in
    (match expirations with
     | [] => ret tt
     | _ => expireIndexes "60" bins expirations
     end) ;;;
    ret (if sort then merge_sort bin_le indexes else indexes).

(** The keys below the threshold: the least and the greatest, with their values. *)
Definition overflow_key (threshold : Z) (acc : (string * Z) * (string * Z)) (key : string)
    : (string * Z) * (string * Z) :=
  let '((min_key, min_value), (max_key, max_value)) := acc in
  let key_value := takeOr (tryTo TULong (default key (after_last_dot key)) 10) 0%Z in
  if (key_value <? threshold)%Z then
    let min_value := if (min_value =? 0)%Z || (key_value <? min_value)%Z then key_value else min_value in
    let min_key := if (min_value =? key_value)%Z then key else min_key in
    let max_value := if (max_value <? key_value)%Z then key_value else max_value in
    let max_key := if (max_value =? key_value)%Z then key else max_key in
    ((min_key, min_value), (max_key, max_value))
  else acc.

(** [boost::lexical_cast<size_t>]. *)
Definition lexical_cast (s : string) : M (Sub S) Z :=
  match lexical_cast_size s with Some v => ret v | None => throw BadLexicalCast end.

Definition expireCheck : M (Sub S) unit :=
  let* (_, keys) := on_sub (api_scan kEvents ("data." +:+ dbNamespace)) in
  if (Z.of_nat (length keys) <=? events_max)%Z then ret tt
  else
    let* last_key := event_get ("eid." +:+ dbNamespace) in
    let* eid := lexical_cast last_key in
    let threshold_key := u64 (eid - events_max) in
    let '((min_key, min_value), (max_key, max_value)) :=
      foldl (overflow_key threshold_key) (("", 0%Z), ("", 0%Z)) keys in
    (if is_empty min_key then ret tt
     else if (max_value =? min_value)%Z then event_delete min_key ;;; ret tt
     else on_sub (api_delete_range kEvents min_key max_key) ;;; ret tt) ;;;
    let* content := event_get ("data." +:+ dbNamespace +:+ "." +:+ toIndex threshold_key) in
    match deserializeRowJSON content ∅ with
    | (st, r) =>
        if negb (Status_ok st) then ret tt
        else match r !! "time" with
             | None => ret tt
             | Some t =>
                 let* last_time := lexical_cast t in
                 (if (0 <? last_time)%Z
                  then modify (set_expire_time (last_time - last_time mod 60)) else ret tt) ;;;
                 let* expire_time := gets expire_time_ in
                 getIndexes expire_time 0 false ;;; ret tt
             end
    end.

(** The loop of [recordEvents]: the batch so far and the record list. *)
Definition record_event (list_id time_value index_key : string)
    (acc : DatabaseStringValueList * string) (eid : string)
    : M (Sub S) (DatabaseStringValueList * string) :=
  let '(data, record_value) := acc in
  if is_empty record_value then
    let* index_value := event_get index_key in
    let index_value := if is_empty index_value then list_id
                       else index_value +:+ "," +:+ list_id in
    ret (data ++ [(index_key, index_value)], eid +:+ ":" +:+ time_value)
  else ret (data, record_value +:+ "," +:+ eid +:+ ":" +:+ time_value).

Definition recordEvents (event_id_list : list string) (event_time : Z) : M (Sub S) Status :=
  let list_id := to_string (event_time / 60) in
  let time_value := to_string event_time in
  let database_key := "records." +:+ dbNamespace +:+ ".60." +:+ list_id in
  let index_key := "indexes." +:+ dbNamespace +:+ ".60" in
  let* record_value := event_get database_key in
  let* (data, record_value) :=
    for_fold event_id_list ([], record_value) (record_event list_id time_value index_key) in
  on_sub (api_set_batch kEvents (data ++ [(database_key, record_value)])).

Definition getEventID : M (Sub S) string :=
  let eid_key := "eid." +:+ dbNamespace in
  let* last_eid := gets last_eid_ in
  (if (last_eid =? 0)%Z then
     let* last_eid_value := event_get eid_key in
     let* v := lexical_cast (if is_empty last_eid_value then "0" else last_eid_value) in
     modify (set_last_eid v)
   else ret tt) ;;;
  let* last_eid := gets last_eid_ in
  (if (last_eid mod 10 =? 0)%Z
   then event_set eid_key (toIndex (u64 (last_eid + 10))) ;;; ret tt else ret tt) ;;;
  modify (set_last_eid (u64 (last_eid + 1))) ;;;
  let* last_eid := gets last_eid_ in
  ret (toIndex last_eid).

(** Drop a trailing newline. *)
Fixpoint chomp (s : string) : string :=
  match s with
  | EmptyString => EmptyString
  | String c EmptyString => if decide (c = "010"%char) then EmptyString else s
  | String c r => String c (chomp r)
  end.

(** One row of [addBatch]: the stored pair and its event id. *)
Definition batch_row (event_time_str : string) (acc : DatabaseStringValueList * list string)
    (row : Row) : M (Sub S) (DatabaseStringValueList * list string) :=
  let row := <["time" := event_time_str]> row in
  let* eid := getEventID in
  let row := <["eid" := eid]> row in
  let '(status, serialized) := serializeRowJSON row in
  if negb (Status_ok status) then ret acc
  else
    let serialized := chomp serialized in
    on_sub (forwardEvent serialized) ;;;
    modify add_event_count ;;;
    ret (acc.1 ++ [("data." +:+ dbNamespace +:+ "." +:+ eid, serialized)], acc.2 ++ [eid]).

Definition addBatch (row_list : list Row) (custom_event_time : Z) : M (Sub S) Status :=
  let* event_time := (if negb (custom_event_time =? 0)%Z then ret custom_event_time
                      else on_sub getUnixTime) in
  let* (data, eids) := for_fold row_list ([], []) (batch_row (to_string event_time)) in
  match data with
  | [] => ret (mkStatus 1 "Failed to process the rows")
  | _ =>
      let* last_eid := gets last_eid_ in
      (if (last_eid mod EVENTS_CHECKPOINT =? 0)%Z then expireCheck else ret tt) ;;;
      let* status := on_sub (api_set_batch kEvents data) in
      if negb (Status_ok status) then ret status
      else recordEvents eids event_time
  end.

Definition add (r : Row) : M (Sub S) Status :=
  let* now := on_sub getUnixTime in addBatch [r] now.

(** [get(yield, start, stop)]: the rows yielded, in order. *)
Definition get (start stop : Z) : M (Sub S) (list Row) :=
  let* indexes := getIndexes start stop true in
  let* records := getRecords indexes true in
  let wanted := filter (fun record => (start <= record.2)%Z /\ ((record.2 <= stop)%Z \/ stop = 0%Z)) records in
  (match last records with
   | Some final =>
       if FLAGS_events_optimize then
         match tryTo TULong final.1 10 with
         | inl eid => modify (fun u => set_optimize (optimize_time_ u) eid u)
         | inr _ => ret tt
         end
       else ret tt
   | None => ret tt
   end) ;;;
  let* rows := for_fold wanted [] (fun rows record =>
    let* data_value := event_get ("data." +:+ dbNamespace +:+ "." +:+ record.1) in
    if is_empty data_value then ret rows
    else match deserializeRowJSON data_value ∅ with
         | (st, r) => if Status_ok st then ret (rows ++ [r]) else ret rows
         end) in
  (if (0 <? events_expiry)%Z then
     let* u := gets id in
     let expiry := if (events_expiry <? min_expiration_ u)%Z then min_expiration_ u else events_expiry in
     let* now := on_sub getUnixTime in
     let t := u64 (now - expiry) in
     modify (set_expire_time (t - t mod 60))
   else ret tt) ;;;
  (if FLAGS_events_optimize then
     let* u := gets id in setOptimizeData (optimize_time_ u) (optimize_eid_ u)
   else ret tt) ;;;
  ret rows.

(** [genTable]: the rows for these "time" constraints. *)
Definition genTable (constraints : list Constraint) : M (Sub S) (list Row) :=
  match constraints with
  | _ :: _ =>
      let '(start, stop) := time_window constraints 0 0 in get start stop
  | [] =>
      if isDaemon && FLAGS_events_optimize then
        let* (o_time, o_eid, query_name) := getOptimizeData in
        modify (set_optimize o_time o_eid) ;;;
        let* now := on_sub getUnixTime in
        modify (set_optimize (u64 (now - 1)) o_eid) ;;;
        (if is_empty query_name then ret tt
         else modify (fun u => set_queries ({[query_name]} ∪ queries_ u) u)) ;;;
        get o_time 0
      else get 0 0
  end.
End Subscriber.

(** ** Two threads numbering events

    [getEventID] increments [last_eid_] under a lock but reads it again for the
    result after the lock is released. A thread is before the critical section,
    past it, or has returned. *)

Inductive eid_pc := Before | Past | Returned (eid : string).

Record eid_state := mkEid { shared_eid : Z; threads : list eid_pc }.

Inductive eid_step : eid_state -> eid_state -> Prop :=
  | step_increment n ts i :
      ts !! i = Some Before -> eid_step (mkEid n ts) (mkEid (u64 (n + 1)) (<[i := Past]> ts))
  | step_return n ts i :
      ts !! i = Some Past -> eid_step (mkEid n ts) (mkEid n (<[i := Returned (toIndex n)]> ts)).
