(* ===== verification/EventsFacts.v ===== *)
(** * Facts about event subscribers

    Event indexes order as the numbers they print, event ids are not reused
    after a restart (but may be handed out twice by concurrent threads), records
    read back in the order they were recorded, and the time window of a query is
    never bounded above. *)
From S2P Require Import Prelude Boost Conversions Json Database DatabaseFacts Query QueryFacts Host PacksFacts.
From S2P Require Import Config ConfigFacts Events.

(** ** Fixed-width indexes *)

Definition digit (c : ascii) : Z := Z.of_nat (Ascii.nat_of_ascii c) - 48.

Fixpoint dval (acc : Z) (s : string) : Z :=
  match s with
  | EmptyString => acc
  | String c r => dval (acc * 10 + digit c) r
  end.

Lemma is_digit_spec c : is_digit c = true ->
  digit_value 10 c = Some (digit c) /\ (0 <= digit c <= 9)%Z.
Proof. destruct c as [[] [] [] [] [] [] [] []]; vm_compute; by intuition. Qed.

Lemma all_digits_cons c s : all_digits (String c s) = true ->
  is_digit c = true /\ all_digits s = true.
Proof. unfold all_digits, all_chars. simpl. apply andb_true_iff. Qed.

Lemma digits_value_dval seen acc s : all_digits s = true ->
  digits_value 10 seen acc s = if seen || negb (is_empty s) then Some (dval acc s) else None.
Proof.
  revert seen acc. induction s as [|c s IH]; intros seen acc Hd; simpl.
  { by destruct seen. }
  apply all_digits_cons in Hd as [Hc Hs]. destruct (is_digit_spec c Hc) as [-> _].
  rewrite IH by done. by rewrite orb_true_r.
Qed.

Lemma dval_shift acc s : dval acc s = (acc * 10 ^ Z.of_nat (String.length s) + dval 0 s)%Z.
Proof.
  revert acc. induction s as [|c s IH]; intros acc; simpl String.length; simpl dval; [lia|].
  rewrite IH, (IH (0 * 10 + digit c)%Z), Nat2Z.inj_succ, Z.pow_succ_r by lia. ring.
Qed.

Lemma dval_bound s : all_digits s = true -> (0 <= dval 0 s < 10 ^ Z.of_nat (String.length s))%Z.
Proof.
  induction s as [|c s IH]; intros Hd; [done|]. apply all_digits_cons in Hd as [Hc Hs].
  destruct (is_digit_spec c Hc) as [_ Hr]. specialize (IH Hs). simpl dval.
  rewrite dval_shift. simpl String.length. rewrite Nat2Z.inj_succ, Z.pow_succ_r by lia. nia.
Qed.

Lemma compare_digit c d : is_digit c = true -> is_digit d = true ->
  Ascii.compare c d = Z.compare (digit c) (digit d).
Proof.
  intros _ _. unfold Ascii.compare, digit, Ascii.nat_of_ascii. rewrite !N_nat_Z, <- N2Z.inj_compare.
  destruct (Z.compare_spec (Z.of_N (Ascii.N_of_ascii c)) (Z.of_N (Ascii.N_of_ascii d)));
    symmetry; [apply Z.compare_eq_iff | apply Z.compare_lt_iff | apply Z.compare_gt_iff]; lia.
Qed.

(** Texts of digits of one length compare as the numbers they write. *)
Lemma compare_digits s t : String.length s = String.length t ->
  all_digits s = true -> all_digits t = true ->
  String.compare s t = Z.compare (dval 0 s) (dval 0 t).
Proof.
  revert t. induction s as [|c s IH]; intros [|d t] Hl Hs Ht; simpl in Hl; try lia; [done|].
  apply all_digits_cons in Hs as [Hc Hs]. apply all_digits_cons in Ht as [Hd Ht].
  simpl String.compare. rewrite compare_digit by done. simpl dval.
  rewrite (dval_shift (0 * 10 + digit c)), (dval_shift (0 * 10 + digit d)).
  pose proof (dval_bound s Hs) as B1. pose proof (dval_bound t Ht) as B2.
  injection Hl as Hl. rewrite Hl in *.
  destruct (Z.compare_spec (digit c) (digit d)) as [E|E|E].
  - rewrite E, IH by done. by rewrite Z.add_compare_mono_l.
  - symmetry. apply Z.compare_lt_iff. nia.
  - symmetry. apply Z.compare_gt_iff. nia.
Qed.

Lemma length_pretty_go k x s : (x < 10 ^ N.of_nat k)%N ->
  (String.length (pretty_N_go x s) <= String.length s + k)%nat.
Proof.
  revert x s. induction k as [|k IH]; intros x s Hx.
  - simpl in Hx. assert (x = 0%N) as -> by lia. rewrite pretty_N_go_0. lia.
  - destruct (decide (0 < x)%N) as [Hp|Hp].
    + rewrite pretty_N_go_step by done.
      etrans; [apply IH|simpl; lia]. apply N.Div0.div_lt_upper_bound.
      rewrite Nat2N.inj_succ, N.pow_succ_r' in Hx. lia.
    + assert (x = 0%N) as -> by lia. rewrite pretty_N_go_0. lia.
Qed.

Lemma length_to_string z : (0 <= z < 10 ^ 10)%Z -> (String.length (to_string z) <= 10)%nat.
Proof.
  intros Hz. rewrite to_string_nonneg by lia. unfold pretty, pretty_N.
  case_decide; [simpl; lia|]. etrans; [apply (length_pretty_go 10)|simpl; lia].
  change (10 ^ N.of_nat 10)%N with (Z.to_N (10 ^ 10)). lia.
Qed.

Lemma length_zeros n : String.length (zeros n) = n.
Proof. induction n as [|n IH]; simpl; by rewrite ?IH. Qed.

Lemma all_digits_app s t : all_digits (s +:+ t) = all_digits s && all_digits t.
Proof. apply all_chars_app. Qed.

Lemma all_digits_zeros n : all_digits (zeros n) = true.
Proof. induction n as [|n IH]; [done|]. exact IH. Qed.

Lemma dval_zeros n s : dval 0 (zeros n +:+ s) = dval 0 s.
Proof. induction n as [|n IH]; [done|]. simpl zeros. rewrite app_cons_str. exact IH. Qed.

Lemma dval_to_string z : (0 <= z)%Z -> dval 0 (to_string z) = z.
Proof.
  intros Hz. pose proof (dec_value_to_string z Hz) as E. unfold dec_value in E.
  rewrite digits_value_dval in E by (by apply all_digits_to_string).
  destruct (false || _); by simplify_eq.
Qed.

Lemma toIndex_digits i : (0 <= i)%Z -> all_digits (toIndex i) = true /\ dval 0 (toIndex i) = i.
Proof.
  intros Hi. unfold toIndex. destruct (_ <? _)%nat.
  - rewrite all_digits_app, all_digits_zeros, all_digits_to_string, dval_zeros, dval_to_string by done.
    done.
  - by rewrite all_digits_to_string, dval_to_string.
Qed.

Lemma toIndex_length i : (0 <= i < 10 ^ 10)%Z -> String.length (toIndex i) = 10%nat.
Proof.
  intros Hi. pose proof (length_to_string i Hi). unfold toIndex.
  destruct (Nat.ltb_spec (String.length (to_string i)) 10); [|lia].
  rewrite length_append, length_zeros. lia.
Qed.

Lemma toIndex_compare a b : (0 <= a < 10 ^ 10)%Z -> (0 <= b < 10 ^ 10)%Z ->
  String.compare (toIndex a) (toIndex b) = Z.compare a b.
Proof.
  intros Ha Hb. destruct (toIndex_digits a ltac:(lia)) as [D1 V1].
  destruct (toIndex_digits b ltac:(lia)) as [D2 V2].
  rewrite compare_digits by (done || by rewrite !toIndex_length). by rewrite V1, V2.
Qed.

Lemma dec_value_toIndex i : (0 <= i)%Z -> dec_value (toIndex i) = Some i.
Proof.
  intros Hi. destruct (toIndex_digits i Hi) as [D V]. unfold dec_value.
  rewrite digits_value_dval by done. rewrite V.
  destruct (toIndex i) eqn:E; [|done]. exfalso. unfold toIndex in E.
  pose proof (to_string_nonempty i Hi). destruct (_ <? _)%nat eqn:E2; [|done].
  destruct (10 - _)%nat eqn:E3 in E; [apply Nat.ltb_lt in E2; lia|done].
Qed.

(** ** Numbering events *)

Section EidFacts.
Context {S : Type} {A : DatabaseAPI S} {L : DatabaseAPILaws S} {Rel : DatabaseAPIReliable S}.
Context {B : Boost} {BL : BoostLaws B}.
Context (ns : string).

Abbreviation events s := (api_view s kEvents).
Abbreviation sub_events u := (api_view (sub_host u) kEvents).

Lemma on_sub_run {X} (m : M S X) u r h :
  m (sub_host u) = (r, h) -> on_sub m u = (r, set_sub_host h u).
Proof. intros E. unfold on_sub, zoom. by rewrite E. Qed.

Lemma set_sub_host_id (u : Sub S) : set_sub_host (sub_host u) u = u.
Proof. by destruct u. Qed.

Lemma event_get_run u k : api_ready (sub_host u) ->
  event_get k u = (Ok (default "" (sub_events u !! k)), u).
Proof.
  intros Hr. unfold event_get.
  destruct (api_get_law (sub_host u) kEvents k Hr (proj1 kEvents_domain)) as (st & E & _).
  erewrite on_sub_run; [rewrite set_sub_host_id; reflexivity|].
  unfold api_get_str, bind. by rewrite E.
Qed.

Lemma event_set_run u k v : api_ready (sub_host u) ->
  exists st h, event_set k v u = (Ok st, set_sub_host h u) /\ Status_ok st = true /\
    api_ready h /\ events h = <[k := v]> (sub_events u).
Proof.
  intros Hr. destruct kEvents_domain as [Hd _].
  destruct (api_set_run (sub_host u) kEvents k v Hr Hd) as (st & h & E & Hh & Hv).
  pose proof (api_set_batch_ok (sub_host u) kEvents [(k, v)] st h Hr Hd E) as Hok. rewrite Hok in Hv.
  exists st, h. unfold event_set. rewrite (on_sub_run _ _ _ _ E). split_and!; [done..|].
  rewrite Hv. unfold update_domain. by case_decide.
Qed.

(** The store reserves ids up to [v], a multiple of ten; every id given out so
    far is at most [hi]. *)
Definition eid_inv (hi v : Z) (u : Sub S) : Prop :=
  api_ready (sub_host u) /\
  (sub_events u !! ("eid." +:+ ns) = Some (toIndex v) \/
   (sub_events u !! ("eid." +:+ ns) = None /\ v = 0%Z)) /\
  (v mod 10 = 0)%Z /\ (0 <= last_eid_ u <= v)%Z /\
  (hi <= if (last_eid_ u =? 0)%Z then v else last_eid_ u)%Z.

Lemma load_eid_run hi v u : eid_inv hi v u -> (v < 2 ^ 64)%Z ->
  (if (last_eid_ u =? 0)%Z then
     let* last_eid_value := event_get ("eid." +:+ ns) in
     let* n := lexical_cast (if is_empty last_eid_value then "0" else last_eid_value) in
     modify (set_last_eid n)
   else ret tt) u = (Ok tt, set_last_eid (if (last_eid_ u =? 0)%Z then v else last_eid_ u) u).
Proof.
  intros (Hr & Hst & Hm & Hl & Hhi) Hv. destruct (Z.eqb_spec (last_eid_ u) 0) as [E|E].
  - rewrite (bind_run _ _ _ _ _ (event_get_run u _ Hr)). unfold lexical_cast.
    destruct Hst as [-> | [-> ->]]; [|by rewrite (lexical_cast_digits "0" 0)].
    cbn [from_option id]. pose proof (dec_value_toIndex v ltac:(lia)) as Hd.
    destruct (is_empty (toIndex v)) eqn:Ee.
    { apply is_empty_true in Ee. by rewrite Ee in Hd. }
    rewrite (lexical_cast_digits _ v) by (done || apply toIndex_digits; lia).
    by rewrite (proj2 (Z.ltb_lt _ _)).
  - by destruct u.
Qed.

Lemma getEventID_run hi v u : eid_inv hi v u -> (v + 20 < 2 ^ 64)%Z ->
  exists n v' u', getEventID ns u = (Ok (toIndex n), u') /\ (hi < n)%Z /\ (v' <= v + 10)%Z /\
    eid_inv n v' u'.
Proof.
  intros Hi Hv. unfold getEventID. rewrite bind_gets.
  rewrite (bind_run _ _ _ _ _ (load_eid_run hi v u Hi ltac:(lia))).
  destruct Hi as (Hr & Hst & Hm & Hl & Hhi).
  set (b := if (last_eid_ u =? 0)%Z then v else last_eid_ u) in *.
  assert (0 <= b <= v)%Z as Hb by (unfold b; destruct (_ =? _)%Z; lia).
  set (u1 := set_last_eid b u). rewrite bind_gets. change (last_eid_ u1) with b.
  destruct (Z.eqb_spec (b mod 10) 0) as [E|E].
  - destruct (event_set_run u1 ("eid." +:+ ns) (toIndex (u64 (b + 10))) Hr) as (st & h & Es & _ & Hh & Hev).
    unfold bind at 1 2. rewrite Es. unfold ret, modify, gets, bind. simpl.
    rewrite !u64_small in * by (unfold in_u64; lia).
    eexists (b + 1)%Z, (b + 10)%Z, _. split; [done|]. split; [lia|]. split; [lia|].
    split_and!; simpl; try done; try lia.
    + left. rewrite Hev, lookup_insert_eq. done.
    + rewrite <- Z.add_mod_idemp_r by lia. simpl. rewrite Z.add_0_r. done.
    + destruct (Z.eqb_spec (b + 1) 0); lia.
  - unfold ret, modify, gets, bind. simpl. rewrite !u64_small by (unfold in_u64; lia).
    assert (b <> v) by (intros ->; done).
    eexists (b + 1)%Z, v, _. split; [done|]. split; [lia|]. split; [lia|].
    split_and!; simpl; try done; try lia.
    destruct (Z.eqb_spec (b + 1) 0); lia.
Qed.

(** Handing out an id, or restarting the process on the same store. *)
Inductive eid_op := Issue | Restart.

Fixpoint issue_all (ops : list eid_op) : M (Sub S) (list string) :=
  match ops with
  | [] => ret []
  | Issue :: ops =>
      let* eid := getEventID ns in
      let* eids := issue_all ops in
      ret (eid :: eids)
  | Restart :: ops => modify (set_last_eid 0) ;;; issue_all ops
  end.

Lemma restart_inv hi v u : eid_inv hi v u -> eid_inv hi v (set_last_eid 0 u).
Proof.
  intros (Hr & Hst & Hm & Hl & Hhi). split_and!; simpl; try done; try lia.
  destruct (Z.eqb_spec (last_eid_ u) 0); lia.
Qed.

Lemma issue_all_run ops hi v u : eid_inv hi v u ->
  (v + 10 * Z.of_nat (length ops) + 20 < 2 ^ 64)%Z ->
  exists nums u', issue_all ops u = (Ok (toIndex <$> nums), u') /\
    Forall (fun n => (hi < n)%Z) nums /\ StronglySorted Z.lt nums.
Proof.
  revert hi v u. induction ops as [|[] ops IH]; intros hi v u Hi Hb; simpl length in Hb.
  - exists [], u. split; [done|]. by split; constructor.
  - destruct (getEventID_run hi v u Hi ltac:(lia)) as (n & v' & u1 & E & Hn & Hv' & Hi1).
    destruct (IH n v' u1 Hi1 ltac:(lia)) as (nums & u2 & E2 & Hall & Hs).
    exists (n :: nums), u2. simpl. unfold bind, ret. rewrite E, E2. split; [done|].
    split; [|by constructor]. constructor; [done|]. eapply Forall_impl; [exact Hall|]. simpl. lia.
  - destruct (IH hi v (set_last_eid 0 u) (restart_inv hi v u Hi) ltac:(lia)) as (nums & u2 & E2 & H2).
    exists nums, u2. simpl. by rewrite bind_modify.
Qed.
End EidFacts.

(** ** Records *)

Section RecordFacts.
Context {S : Type} {A : DatabaseAPI S} {L : DatabaseAPILaws S} {Rel : DatabaseAPIReliable S}.
Context {B : Boost} {BL : BoostLaws B}.
Context (ns : string) (opt : bool).

Abbreviation events s := (api_view s kEvents).
Abbreviation sub_events u := (api_view (sub_host u) kEvents).

(** The text of one record and of the list of a bin. *)
Definition rec_text (r : string * Z) : string := r.1 +:+ ":" +:+ to_string r.2.
Definition bin_text (l : list (string * Z)) : string := boost_join (rec_text <$> l) ",".

Definition rec_ok (r : string * Z) : Prop :=
  token ":" r.1 /\ token "," r.1 /\ (0 <= r.2 < 2 ^ 63)%Z.

Lemma rec_text_token r : rec_ok r -> token "," (rec_text r).
Proof.
  intros (_ & H2 & H3). unfold rec_text. apply token_app; [done| |done].
  apply token_to_string; [done|lia].
Qed.

Lemma rec_text_split r : rec_ok r -> split (rec_text r) ":" = [r.1; to_string r.2].
Proof.
  intros (H1 & _ & H3). assert (rec_text r = boost_join [r.1; to_string r.2] ":") as ->.
  { by rewrite join_cons, join_one. }
  apply split_join_tokens. apply Forall_cons. split; [done|].
  apply Forall_singleton, token_to_string; [done|lia].
Qed.

Lemma timeFromRecord_print t : (0 <= t < 2 ^ 63)%Z -> timeFromRecord (to_string t) = t.
Proof.
  intros Ht. unfold timeFromRecord. rewrite tryTo_to_string by (simpl; lia). simpl.
  apply u64_small. unfold in_u64. lia.
Qed.

Lemma bin_text_nonempty l : l <> [] -> is_empty (bin_text l) = false.
Proof.
  intros Hl. destruct l as [|r l]; [done|]. unfold bin_text. simpl.
  assert (forall s, is_empty (rec_text r +:+ s) = false) as Hne.
  { intros s. unfold rec_text. destruct r as [e t]. simpl. by destruct e. }
  destruct l; simpl; [rewrite join_one, <- (app_nil_r_str (rec_text r)); apply Hne|].
  rewrite join_cons. apply Hne.
Qed.

(** Reading a bin back, when nothing is optimized away. *)
Lemma parse_bin l (u : Sub S) : Forall rec_ok l ->
  omap (parse_record opt false u) (split (bin_text l) ",") = l.
Proof.
  intros Hl. unfold bin_text. rewrite split_join_tokens.
  2:{ apply Forall_fmap. eapply Forall_impl; [exact Hl|]. apply rec_text_token. }
  induction Hl as [|r l Hr Hl IH]; [done|]. rewrite fmap_cons. simpl.
  unfold parse_record at 1. rewrite rec_text_split, andb_false_r by done. simpl.
  rewrite timeFromRecord_print by apply Hr. destruct r. simpl. by f_equal.
Qed.

Definition bin_key (bin : string) : string := "records." +:+ ns +:+ ".60." +:+ bin.

(** The store holds these records in a bin. *)
Definition bin_holds (bin : string) (l : list (string * Z)) (u : Sub S) : Prop :=
  default "" (sub_events u !! bin_key bin) = bin_text l.

Lemma getRecords_bin bin l (u : Sub S) : api_ready (sub_host u) -> Forall rec_ok l ->
  bin_holds bin l u -> getRecords ns opt ["60." +:+ bin] false u = (Ok l, u).
Proof.
  intros Hr Hl Hb. unfold getRecords. rewrite bind_gets. cbn [for_fold id].
  rewrite (bind_run _ _ u l u); [done|].
  rewrite (bind_run _ _ _ _ _ (event_get_run u _ Hr)).
  change ("records." +:+ ns +:+ "." +:+ "60." +:+ bin) with (bin_key bin). rewrite Hb.
  destruct l as [|r l].
  - unfold bin_text. rewrite join_nil. done.
  - rewrite bin_text_nonempty, parse_bin by done. done.
Qed.

(** The loop of [recordEvents] once the list is not empty. *)
Lemma record_loop list_id t index_key eids l data (u : Sub S) : l <> [] ->
  for_fold eids (data, bin_text l) (record_event list_id (to_string t) index_key) u
  = (Ok (data, bin_text (l ++ ((fun e => (e, t)) <$> eids))), u).
Proof.
  revert l. induction eids as [|e eids IH]; intros l Hl; cbn [for_fold].
  { by rewrite app_nil_r. }
  unfold record_event at 1. rewrite bin_text_nonempty by done. rewrite bind_ret.
  assert (bin_text l +:+ "," +:+ e +:+ ":" +:+ to_string t = bin_text (l ++ [(e, t)])) as ->.
  { unfold bin_text. rewrite fmap_app. simpl. rewrite join_snoc; [done|]. by destruct l. }
  rewrite IH by (by destruct l). by rewrite <- app_assoc.
Qed.

Lemma put_all_last (m : gmap string string) data k v : put_all m (data ++ [(k, v)]) !! k = Some v.
Proof. unfold put_all. rewrite foldl_app. simpl. apply lookup_insert_eq. Qed.

Definition index_key : string := "indexes." +:+ ns +:+ ".60".

Lemma bin_index_ne bin : bin_key bin <> index_key.
Proof. unfold bin_key, index_key. intros E. by injection E. Qed.

(** What a call adds to the index: the bin, when it was empty before. *)
Definition index_after (l : list (string * Z)) (bin old : string) : string :=
  if is_nil l then (if is_empty old then bin else old +:+ "," +:+ bin) else old.

Lemma recordEvents_run eids t l (u : Sub S) : api_ready (sub_host u) -> eids <> [] ->
  bin_holds (to_string (t / 60)) l u ->
  exists st h, recordEvents ns eids t u = (Ok st, set_sub_host h u) /\ Status_ok st = true /\
    api_ready h /\
    bin_holds (to_string (t / 60)) (l ++ ((fun e => (e, t)) <$> eids)) (set_sub_host h u) /\
    default "" (events h !! index_key)
    = index_after l (to_string (t / 60)) (default "" (sub_events u !! index_key)).
Proof.
  intros Hr Hne Hb. unfold recordEvents. destruct kEvents_domain as [Hd _].
  rewrite (bind_run _ _ _ _ _ (event_get_run u _ Hr)).
  fold (bin_key (to_string (t / 60))). fold index_key.
  set (bin := to_string (t / 60)) in *. rewrite Hb.
  set (new := l ++ ((fun e => (e, t)) <$> eids)).
  assert (exists data, for_fold eids ([], bin_text l) (record_event bin (to_string t) index_key) u
      = (Ok (data, bin_text new), u) /\
      forall m : gmap string string, default "" (m !! index_key) = default "" (sub_events u !! index_key) ->
        default "" (put_all m data !! index_key)
        = index_after l bin (default "" (sub_events u !! index_key))) as (data & E & Hidx).
  { destruct l as [|r l].
    - destruct eids as [|e eids]; [done|]. cbn [for_fold]. unfold record_event at 1, bin_text at 1.
      simpl fmap. rewrite join_nil. cbn [is_empty].
      eexists. split.
      + erewrite bind_run; [|erewrite bind_run; [reflexivity | apply (event_get_run u _ Hr)]].
        assert (e +:+ ":" +:+ to_string t = bin_text [(e, t)]) as ->.
        { unfold bin_text. simpl. by rewrite join_one. }
        by rewrite record_loop.
      + intros m _. unfold put_all. simpl. rewrite lookup_insert_eq. done.
    - exists []. split; [by rewrite record_loop|]. intros m Hm. done. }
  rewrite (bind_run _ _ _ _ _ E).
  destruct (api_set_batch_law (sub_host u) kEvents (data ++ [(bin_key bin, bin_text new)]) Hr Hd)
    as (st & h & Es & Hh & Hv).
  pose proof (api_set_batch_ok _ _ _ _ _ Hr Hd Es) as Hok. rewrite Hok in Hv.
  exists st, h. rewrite (on_sub_run _ _ _ _ Es). split_and!; [done..| |].
  - unfold bin_holds. simpl. rewrite Hv. unfold update_domain. case_decide; [|done].
    by rewrite put_all_last.
  - rewrite Hv. unfold update_domain. case_decide; [|done].
    unfold put_all. rewrite foldl_app. simpl. rewrite lookup_insert_ne by apply bin_index_ne.
    by apply Hidx.
Qed.
End RecordFacts.

(** ** Properties *)

(** Event indexes of ten digits order as texts exactly as the numbers they
    print, which is what the range deletions of the store rely on. *)
Theorem index_order_is_numeric a b : (0 <= a < 10 ^ 10)%Z -> (0 <= b < 10 ^ 10)%Z ->
  (String.le (toIndex a) (toIndex b) <-> (a <= b)%Z) /\ (toIndex a = toIndex b -> a = b).
Proof.
  intros Ha Hb. split.
  - unfold String.le, Stdlib.Strings.String.leb. rewrite toIndex_compare by done.
    destruct (Z.compare_spec a b); simpl; split; intros; try done; lia.
  - intros E. destruct (toIndex_digits a ltac:(lia)) as [_ <-].
    destruct (toIndex_digits b ltac:(lia)) as [_ <-]. by rewrite E.
Qed.

Section Properties.
Context {S : Type} {A : DatabaseAPI S} {L : DatabaseAPILaws S} {Rel : DatabaseAPIReliable S}.
Context {B : Boost} {BL : BoostLaws B}.

(** C11: One thread never hands out an event id twice, whatever restarts of the
    process lie between: on a store without an id entry the ids strictly
    increase, because ten are reserved in the store at a time. *)
Theorem event_ids_increase_across_restarts ns ops (u : Sub S) :
  api_ready (sub_host u) -> last_eid_ u = 0%Z ->
  api_view (sub_host u) kEvents !! ("eid." +:+ ns) = None ->
  (Z.of_nat (length ops) < 2 ^ 32)%Z ->
  exists nums u', issue_all ns ops u = (Ok (toIndex <$> nums), u') /\
    StronglySorted Z.lt nums /\ Forall (fun n => (0 < n)%Z) nums.
Proof.
  intros Hr Hl Hk Hn.
  destruct (issue_all_run ns ops 0 0 u) as (nums & u' & E & Hpos & Hs); [|lia|by exists nums, u'].
  split_and!; [done|by right|done|lia|lia|]. by rewrite Hl.
Qed.

(** C12: Recorded events read back: after [recordEvents] the bin of the time
    lists its former records followed by the new ones, in order, and the index
    names the bin exactly when it was empty before. *)
Theorem recorded_events_read_back ns opt eids t l (u : Sub S) :
  api_ready (sub_host u) -> eids <> [] -> Forall rec_ok l ->
  Forall (fun e => rec_ok (e, t)) eids -> bin_holds ns (to_string (t / 60)) l u ->
  exists st u', recordEvents ns eids t u = (Ok st, u') /\ Status_ok st = true /\
    getRecords ns opt ["60." +:+ to_string (t / 60)] false u'
    = (Ok (l ++ ((fun e => (e, t)) <$> eids)), u') /\
    default "" (api_view (sub_host u') kEvents !! index_key ns)
    = index_after l (to_string (t / 60))
        (default "" (api_view (sub_host u) kEvents !! index_key ns)).
Proof.
  intros Hr Hne Hl He Hb.
  destruct (recordEvents_run ns eids t l u Hr Hne Hb) as (st & h & E & Hok & Hh & Hb' & Hi).
  exists st, (set_sub_host h u). split; [done|]. split; [done|]. split; [|done].
  apply getRecords_bin; [done| |done]. apply Forall_app. split; [done|].
  by apply Forall_fmap.
Qed.
End Properties.

(** The window of a query on an event table has no upper bound unless the
    time is given exactly: [stop] starts at zero, which already means "no
    bound", so the minimum with an upper constraint stays zero. *)
Theorem upper_time_bounds_are_ignored cs start : (0 <= start)%Z ->
  Forall (fun c => op c <> EQUALS) cs ->
  exists start', time_window cs start 0 = (start', 0%Z) /\ (start <= start')%Z.
Proof.
  intros Hs Hc. revert start Hs.
  induction Hc as [|c cs Hop Hcs IH]; intros start Hs; [by exists start|].
  assert (forall z, in_u64 z -> Z.min 0 z = 0%Z) as Hmin by (unfold in_u64; lia).
  simpl. destruct (op c); try done; try (by apply IH);
    try (rewrite Hmin by apply u64_range; by apply IH).
  - destruct (IH (Z.max start (u64 (timeFromRecord (expr c) + 1)))) as (s & E & Hle); [lia|].
    exists s. split; [done|lia].
  - destruct (IH (Z.max start (timeFromRecord (expr c)))) as (s & E & Hle); [lia|].
    exists s. split; [done|lia].
Qed.

(** Two threads can be handed the same event id: both increments happen
    before either thread reads the shared number for its result. *)
Theorem concurrent_event_ids_collide n :
  rtc eid_step (mkEid n [Before; Before])
    (mkEid (u64 (u64 (n + 1) + 1))
       [Returned (toIndex (u64 (u64 (n + 1) + 1))); Returned (toIndex (u64 (u64 (n + 1) + 1)))]).
Proof.
  eapply rtc_l; [by apply (step_increment _ _ 0)|].
  eapply rtc_l; [by apply (step_increment _ _ 1)|].
  eapply rtc_l; [by apply (step_return _ _ 0)|].
  eapply rtc_l; [by apply (step_return _ _ 1)|]. apply rtc_refl.
Qed.
