(* ===== verification/EventFactory.v ===== *)
(** * The event factory (osquery/events/events.cpp, include/osquery/events.h)

    Publishers, subscribers and subscriptions: registration, the run loop of a
    publisher, firing events, the expectations a configuration sets on the
    subscribers, and shutting down. What a particular publisher or subscriber
    does in [setUp], [run], [init] and so on is a parameter. *)
From S2P Require Import Prelude Boost Conversions Json Database Query Host Packs.

(** ** Data *)

Inductive EventState := EVENT_NONE | EVENT_SETUP | EVENT_RUNNING | EVENT_PAUSED | EVENT_FAILED.

#[export] Instance EventState_eq_dec : EqDecision EventState.
Proof. solve_decision. Defined.

(** [struct Subscription]: the callback is identified by a number. *)
Record Subscription := mkSubscription { subscriber_name : string; callback_id : Z }.

Record Publisher := {
  pub_state : EventState;
  ending_ : bool;
  started_ : bool;
  restart_count_ : Z;
  next_ec_id_ : Z;
  subscriptions_ : list Subscription;
}.

Definition new_publisher : Publisher :=
  {| pub_state := EVENT_NONE; ending_ := false; started_ := false; restart_count_ := 0;
     next_ec_id_ := 0; subscriptions_ := [] |}.

Record Subscriber := {
  es_state : EventState;
  disabled : bool;
  es_min_expiration : Z;
  es_query_count : Z;
  es_queries : gset string;
}.

Record EventContext := mkEC { ec_id : Z; ec_time : Z }.

Record Factory := mkFactory {
  event_pubs_ : gmap string Publisher;
  event_subs_ : gmap string Subscriber;
  threads_ : list string;
  loggers_ : list string;
}.

Definition set_pub_state (st : EventState) (p : Publisher) : Publisher :=
  {| pub_state := st; ending_ := ending_ p; started_ := started_ p;
     restart_count_ := restart_count_ p; next_ec_id_ := next_ec_id_ p;
     subscriptions_ := subscriptions_ p |}.
Definition set_ending (b : bool) (p : Publisher) : Publisher :=
  {| pub_state := pub_state p; ending_ := b; started_ := started_ p;
     restart_count_ := restart_count_ p; next_ec_id_ := next_ec_id_ p;
     subscriptions_ := subscriptions_ p |}.
Definition set_started (b : bool) (p : Publisher) : Publisher :=
  {| pub_state := pub_state p; ending_ := ending_ p; started_ := b;
     restart_count_ := restart_count_ p; next_ec_id_ := next_ec_id_ p;
     subscriptions_ := subscriptions_ p |}.
Definition set_subscriptions (l : list Subscription) (p : Publisher) : Publisher :=
  {| pub_state := pub_state p; ending_ := ending_ p; started_ := started_ p;
     restart_count_ := restart_count_ p; next_ec_id_ := next_ec_id_ p; subscriptions_ := l |}.
Definition add_restart (p : Publisher) : Publisher :=
  {| pub_state := pub_state p; ending_ := ending_ p; started_ := started_ p;
     restart_count_ := u64 (restart_count_ p + 1); next_ec_id_ := next_ec_id_ p;
     subscriptions_ := subscriptions_ p |}.
Definition add_ec (p : Publisher) : Publisher :=
  {| pub_state := pub_state p; ending_ := ending_ p; started_ := started_ p;
     restart_count_ := restart_count_ p; next_ec_id_ := u64 (next_ec_id_ p + 1);
     subscriptions_ := subscriptions_ p |}.

Definition set_es_state (st : EventState) (e : Subscriber) : Subscriber :=
  {| es_state := st; disabled := disabled e; es_min_expiration := es_min_expiration e;
     es_query_count := es_query_count e; es_queries := es_queries e |}.
Definition set_disabled (b : bool) (e : Subscriber) : Subscriber :=
  {| es_state := es_state e; disabled := b; es_min_expiration := es_min_expiration e;
     es_query_count := es_query_count e; es_queries := es_queries e |}.
Definition set_expectation (minexp count : Z) (e : Subscriber) : Subscriber :=
  {| es_state := es_state e; disabled := disabled e; es_min_expiration := minexp;
     es_query_count := count; es_queries := ∅ |}.

Definition set_pubs (m : gmap string Publisher) (f : Factory) : Factory :=
  mkFactory m (event_subs_ f) (threads_ f) (loggers_ f).
Definition set_subs (m : gmap string Subscriber) (f : Factory) : Factory :=
  mkFactory (event_pubs_ f) m (threads_ f) (loggers_ f).
Definition set_threads (l : list string) (f : Factory) : Factory :=
  mkFactory (event_pubs_ f) (event_subs_ f) l (loggers_ f).

(** A change to one publisher object. *)
Definition upd_pub (type_id : string) (g : Publisher -> Publisher) : M Factory unit :=
  modify (fun f => set_pubs (alter g type_id (event_pubs_ f)) f).

(** ** Subscriptions and firing *)

Definition getEventPublisher (type_id : string) : M Factory (option Publisher) :=
  gets (fun f => event_pubs_ f !! type_id).

Definition getEventSubscriber (name_id : string) : M Factory (option Subscriber) :=
  gets (fun f => event_subs_ f !! name_id).

Definition exists_subscriber (name_id : string) : M Factory bool :=
  gets (fun f => bool_decide (is_Some (event_subs_ f !! name_id))).

(** [EventPublisherPlugin::addSubscription] and [removeSubscriptions]. *)
Definition pub_addSubscription (sub : Subscription) (p : Publisher) : Publisher :=
  set_subscriptions (subscriptions_ p ++ [sub]) p.

Definition pub_removeSubscriptions (subscriber : string) (p : Publisher) : Publisher :=
  set_subscriptions (filter (fun s => subscriber_name s <> subscriber) (subscriptions_ p)) p.

(** [EventFactory::addSubscription]. *)
Definition addSubscription (type_id : string) (sub : Subscription) : M Factory Status :=
  let* publisher := getEventPublisher type_id in
  match publisher with
  | None => ret (mkStatus 1 "Unknown event publisher")
  | Some _ => upd_pub type_id (pub_addSubscription sub) ;;; ret (Status1 0)
  end.

Definition numSubscriptions (type_id : string) : M Factory Z :=
  let* publisher := getEventPublisher type_id in
  ret (match publisher with
       | None => 0%Z
       | Some p => Z.of_nat (length (subscriptions_ p))
       end).

(** [EventSubscriberPlugin::removeSubscriptions]. *)
Definition removeSubscriptions (type_id subscriber : string) : M Factory unit :=
  upd_pub type_id (pub_removeSubscriptions subscriber).

(** The event context after [fire] filled it in; [now] is [getUnixTime()]. *)
Definition fill_context (id time now : Z) (ec : option EventContext) : option EventContext :=
  match ec with
  | None => None
  | Some c =>
      Some (mkEC id (if (ec_time c =? 0)%Z then (if (time =? 0)%Z then now else time) else ec_time c))
  end.

(** [fire(ec, time)]: the subscriptions whose callback is called, in order, with
    the context they get. *)
Definition fire (type_id : string) (ec : option EventContext) (time now : Z)
    : M Factory (list (Subscription * option EventContext)) :=
  let* publisher := getEventPublisher type_id in
  match publisher with
  | None => ret []
  | Some p =>
      if ending_ p then ret []
      else
        let id := next_ec_id_ p in
        upd_pub type_id add_ec ;;;
        let ec := fill_context id time now ec in
        let* subs := gets event_subs_ in
        ret ((fun s => (s, ec)) <$>
             filter (fun s => es_state <$> (subs !! subscriber_name s) = Some EVENT_RUNNING)
                    (subscriptions_ p))
  end.

(** ** Registration and the run loop *)

Section Plugins.
Context (FLAGS_disable_events : bool).
(** The virtual functions of the publisher of a type and the subscriber of a
    name. *)
Context (pub_setUp pub_run : string -> M Factory Status).
Context (pub_tearDown pub_stop : string -> M Factory unit).
Context (sub_setUp sub_init : string -> M Factory Status).
Context (sub_tearDown sub_expireCheck : string -> M Factory unit).
(** The "events" section of the configuration: explicitly enabled and disabled
    subscribers, when the parser exists. *)
Context (enable_subscribers disable_subscribers : list string).

Definition registerEventPublisher (type_id : string) (pub : Publisher) : M Factory Status :=
  if is_empty type_id then ret (mkStatus 1 "Publishers must have a type")
  else
    let* pubs := gets event_pubs_ in
    match pubs !! type_id with
    | Some _ => ret (mkStatus 1 "Duplicate publisher type")
    | None =>
        modify (fun f => set_pubs (<[type_id := pub]> (event_pubs_ f)) f) ;;;
        if FLAGS_disable_events then ret (mkStatus 0 "OK")
        else
          (if decide (pub_state pub = EVENT_NONE) then ret tt else pub_tearDown type_id) ;;;
          let* status := pub_setUp type_id in
          upd_pub type_id (set_pub_state EVENT_SETUP) ;;;
          if negb (Status_ok status)
          then upd_pub type_id (set_ending true) ;;; ret status
          else ret (mkStatus 0 "OK")
    end.

(** The explicit enabling, then the disabling, of the configuration. *)
Definition configured_disabled (name : string) (d : bool) : bool :=
  let d := if bool_decide (name ∈ enable_subscribers) then false else d in
  if bool_decide (name ∈ disable_subscribers) then true else d.

Definition registerEventSubscriber (name : string) (sub : Subscriber) : M Factory Status :=
  if is_empty name then ret (mkStatus 1 "Subscribers must have set a name")
  else
    let off := configured_disabled name (disabled sub) in
    (if decide (es_state sub = EVENT_NONE) then ret tt else sub_tearDown name) ;;;
    let* status := sub_setUp name in
    let off := if negb (Status_ok status) then true else off in
    let* (status, st) :=
      (if negb FLAGS_disable_events && negb off then
         sub_expireCheck name ;;;
         let* status := sub_init name in
         ret (status, EVENT_RUNNING)
       else ret (status, EVENT_PAUSED)) in
    let st := if negb (Status_ok status) then EVENT_FAILED else st in
    modify (fun f => set_subs (<[name := set_es_state st (set_disabled off sub)]> (event_subs_ f)) f) ;;;
    if negb (Status_ok status) then ret (mkStatus 1 (message status)) else ret (mkStatus 0 "OK").

(** The [while (!publisher->isEnding())] loop: the last status, [None] when out
    of fuel. *)
Fixpoint run_loop (fuel : nat) (type_id : string) (status : Status) : M Factory (option Status) :=
  let* publisher := getEventPublisher type_id in
  match publisher with
  | None => ret (Some status)
  | Some p =>
      if ending_ p then ret (Some status)
      else match fuel with
      | O => ret None
      | S fuel =>
          let* status := pub_run type_id in
          if negb (Status_ok status) then ret (Some status)
          else upd_pub type_id add_restart ;;; run_loop fuel type_id status
      end
  end.

(** [EventFactory::run]; [None] when out of fuel. *)
Definition run (fuel : nat) (type_id : string) : M Factory (option Status) :=
  if FLAGS_disable_events then ret (Some (mkStatus 0 "Events disabled"))
  else
    let* publisher := getEventPublisher type_id in
    match publisher with
    | None => ret (Some (mkStatus 1 "Event publisher is missing"))
    | Some p =>
        if started_ p then ret (Some (mkStatus 1 "Cannot restart an event publisher"))
        else
          upd_pub type_id (set_started true) ;;;
          let* ended := run_loop fuel type_id (mkStatus 0 "OK") in
          match ended with
          | None => ret None
          | Some _ =>
              pub_tearDown type_id ;;;
              upd_pub type_id (set_pub_state EVENT_NONE) ;;;
              ret (Some (mkStatus 0 "OK"))
          end
    end.

(** [EventFactory::delay]: one thread for each publisher that is not ending. *)
Definition delay : M Factory unit :=
  if FLAGS_disable_events then ret tt
  else modify (fun f =>
    set_threads (threads_ f ++ (filter (fun kv => ending_ kv.2 = false) (map_sorted (event_pubs_ f))).*1) f).

Definition deregisterEventPublisher (type_id : string) : M Factory Status :=
  let* publisher := getEventPublisher type_id in
  match publisher with
  | None => ret (mkStatus 1 "No event publisher to deregister")
  | Some p =>
      (if FLAGS_disable_events then ret tt
       else
         upd_pub type_id (set_ending true) ;;;
         if negb (started_ p) then
           pub_tearDown type_id ;;;
           upd_pub type_id (set_pub_state EVENT_NONE) ;;;
           modify (fun f => set_pubs (delete type_id (event_pubs_ f)) f)
         else pub_stop type_id) ;;;
      ret (mkStatus 0 "OK")
  end.

Definition deregisterEventSubscriber (sub : string) : M Factory Status :=
  let* s := getEventSubscriber sub in
  match s with
  | None => ret (mkStatus 1 "Event subscriber is missing")
  | Some _ =>
      modify (fun f => set_subs (alter (set_es_state EVENT_NONE) sub (event_subs_ f)) f) ;;;
      sub_tearDown sub ;;;
      modify (fun f => set_subs (delete sub (event_subs_ f)) f) ;;;
      ret (Status1 0)
  end.

Definition publisherTypes : M Factory (list string) := gets (fun f => (map_sorted (event_pubs_ f)).*1).
Definition subscriberNames : M Factory (list string) := gets (fun f => (map_sorted (event_subs_ f)).*1).

(** [EventFactory::end]: the threads are joined or detached outside the model. *)
Definition end_factory : M Factory unit :=
  let* types := publisherTypes in
  for_each types (fun type_id => deregisterEventPublisher type_id ;;; ret tt) ;;;
  (if FLAGS_disable_events then ret tt else modify (set_threads [])) ;;;
  modify (set_pubs ∅) ;;;
  modify (set_subs ∅).

(** ** What a configuration expects of the subscribers *)

Record SubscriberExpirationDetails := mkDetails { max_interval : Z; details_query_count : Z }.

(** [getQueryTables] and [Registry::get().exists("event_subscriber", table)]. *)
Context (getQueryTables : string -> option (list string)) (registered : string -> bool).
(** [configure()] of the "event_subscriber" and then the "event_publisher"
    registries. *)
Context (configure_subscribers configure_publishers : M Factory unit).

Definition add_detail (interval : Z) (d : gmap string SubscriberExpirationDetails) (subscriber : string)
    : gmap string SubscriberExpirationDetails :=
  let details := default (mkDetails 0 0) (d !! subscriber) in
  <[subscriber := mkDetails (if (max_interval details <? interval)%Z then interval
                             else max_interval details)
                            (u64 (details_query_count details + 1))]> d.

(** The callback [configUpdate] gives to [scheduledQueries]. *)
Definition count_query (d : gmap string SubscriberExpirationDetails) (q : ScheduledQuery)
    : gmap string SubscriberExpirationDetails :=
  match getQueryTables (query q) with
  | None => d
  | Some tables =>
      let subscribers := elements (list_to_set (filter (fun t => registered t = true) tables) : gset string) in
      foldl (add_detail (interval q)) d subscribers
  end.

(** [min_expiration_]: three intervals, rounded up to whole minutes. *)
Definition expiration_for (max_interval : Z) : Z :=
  let m := u64 (max_interval * 3) in u64 (m + (60 - m mod 60)).

Definition apply_details (details : string * SubscriberExpirationDetails) : M Factory unit :=
  let* known := exists_subscriber details.1 in
  if negb known then ret tt
  else modify (fun f =>
    set_subs (alter (set_expectation (expiration_for (max_interval details.2))
                                     (details_query_count details.2)) details.1 (event_subs_ f)) f).

(** [configUpdate] for the queries the schedule yields. *)
Definition configUpdate (scheduled : list ScheduledQuery) : M Factory unit :=
  let subscriber_details := foldl count_query ∅ scheduled in
  for_each (map_sorted subscriber_details) apply_details ;;;
  if FLAGS_disable_events then ret tt
  else configure_subscribers ;;; configure_publishers.
End Plugins.

(** [attachEvents]: register every plugin, subscribers only when their name ends
    in "_events". *)
Definition attachEvents {B : Boost} (reg_pub reg_sub : string -> M Factory Status)
    (config_update : M Factory unit) (publishers subscribers : list string) : M Factory unit :=
  for_each publishers (fun p => reg_pub p ;;; ret tt) ;;;
  for_each subscribers (fun s =>
    if negb (boost_ends_with s "_events") then ret tt else reg_sub s ;;; ret tt) ;;;
  config_update.

(** * Facts about the event factory

    Events reach exactly the running subscribers in subscription order, a
    publisher's loop runs at most once, and the retention a configuration asks
    of a subscriber covers three of its slowest queries. *)

(** ** Firing *)

Lemma fire_run type_id ec time now f p :
  event_pubs_ f !! type_id = Some p -> ending_ p = false ->
  fire type_id ec time now f
  = (Ok ((fun s => (s, fill_context (next_ec_id_ p) time now ec)) <$>
         filter (fun s => es_state <$> (event_subs_ f !! subscriber_name s) = Some EVENT_RUNNING)
                (subscriptions_ p)),
     set_pubs (<[type_id := add_ec p]> (event_pubs_ f)) f).
Proof.
  intros Hp He. unfold fire, getEventPublisher. rewrite bind_gets, Hp, He.
  unfold upd_pub. rewrite bind_modify, bind_gets. unfold ret. f_equal.
  unfold set_pubs. simpl. f_equal. apply map_eq. intros k.
  destruct (decide (k = type_id)) as [->|Hne].
  - by rewrite lookup_alter_eq, lookup_insert_eq, Hp.
  - by rewrite lookup_alter_ne, lookup_insert_ne by done.
Qed.

(** ** The run loop *)

Section RunFacts.
Context (pub_run : string -> M Factory Status) (pub_tearDown : string -> M Factory unit).
Context (type_id : string).

(** The publisher is registered and marked as started. *)
Definition started_in (f : Factory) : Prop :=
  exists p, event_pubs_ f !! type_id = Some p /\ started_ p = true.

(** A callback that leaves it so. *)
Definition keeps_started {A} (m : M Factory A) : Prop :=
  forall f a f', started_in f -> m f = (Ok a, f') -> started_in f'.

Lemma upd_pub_started g f : (forall p, started_ (g p) = started_ p) -> started_in f ->
  started_in (set_pubs (alter g type_id (event_pubs_ f)) f).
Proof.
  intros Hg (p & Hp & Hs). exists (g p). simpl. rewrite lookup_alter_eq, Hp. simpl.
  by rewrite Hg.
Qed.

Lemma run_loop_started fuel st f o f' : keeps_started (pub_run type_id) -> started_in f ->
  run_loop pub_run fuel type_id st f = (Ok o, f') -> started_in f'.
Proof.
  intros Hk. revert st f. induction fuel as [|fuel IH]; intros st f Hs Hr;
    pose proof Hs as (p & Hp & Hst); simpl in Hr; unfold getEventPublisher in Hr;
    rewrite bind_gets, Hp in Hr; destruct (ending_ p); try by run_pure Hr.
  run_step Hr as st' f1 E1. assert (started_in f1) as Hs1 by by eapply Hk.
  destruct (Status_ok st'); simpl in Hr; [|by run_pure Hr].
  unfold upd_pub in Hr. rewrite bind_modify in Hr. eapply IH; [|exact Hr].
  by apply upd_pub_started.
Qed.
End RunFacts.

(** ** Expectations *)

Section DetailFacts.
Context (getQueryTables : string -> option (list string)) (registered : string -> bool).

(** Does this query read the table of subscriber [s]? *)
Definition touches (s : string) (q : ScheduledQuery) : Prop :=
  registered s = true /\ s ∈ default [] (getQueryTables (query q)).
#[export] Instance touches_dec s q : Decision (touches s q).
Proof. unfold touches. apply _. Defined.

Definition slowest (qs : list ScheduledQuery) : Z := 
  foldr (fun q m => Z.max (interval q) m) 0%Z qs.

Lemma add_details_lookup i l d s : NoDup l ->
  foldl (add_detail i) d l !! s
  = if decide (s ∈ l) then add_detail i d s !! s else d !! s.
Proof.
  intros Hl. revert d. induction Hl as [|x l Hx Hl IH]; intros d; cbn [foldl].
  { case_decide as E; [by apply not_elem_of_nil in E | done]. }
  rewrite IH. unfold add_detail. destruct (decide (s = x)) as [->|Hne].
  - rewrite !lookup_insert_eq. repeat case_decide; set_solver.
  - rewrite !lookup_insert_eq, !lookup_insert_ne by done. repeat case_decide; set_solver.
Qed.

Lemma count_query_lookup d q s :
  count_query getQueryTables registered d q !! s
  = if decide (touches s q) then add_detail (interval q) d s !! s else d !! s.
Proof.
  unfold count_query. destruct (getQueryTables (query q)) as [tables|] eqn:Eq.
  - rewrite add_details_lookup by apply NoDup_elements.
    assert (s ∈ elements (list_to_set (filter (fun t => registered t = true) tables) : gset string)
            <-> touches s q) as Hiff.
    { unfold touches. rewrite Eq. simpl.
      by rewrite elem_of_elements, elem_of_list_to_set, list_elem_of_filter. }
    repeat case_decide; naive_solver.
  - case_decide as E; [|done]. destruct E as [_ E]. rewrite Eq in E. by apply not_elem_of_nil in E.
Qed.

Lemma slowest_nonneg qs : (0 <= slowest qs)%Z.
Proof. unfold slowest. induction qs as [|q qs IH]; simpl; lia. Qed.

Lemma slowest_le k qs : (0 <= k)%Z -> Forall (fun q => interval q <= k)%Z qs -> (slowest qs <= k)%Z.
Proof. intros Hk. unfold slowest. induction 1 as [|x l Hx Hl IH]; simpl in *; lia. Qed.

Lemma slowest_ge q qs : q ∈ qs -> (interval q <= slowest qs)%Z.
Proof.
  unfold slowest. induction qs as [|x qs IH]; [by intros ?%not_elem_of_nil|].
  intros [->|Hin]%elem_of_cons; simpl; [lia|]. specialize (IH Hin). lia.
Qed.

Lemma slowest_snoc qs q : (0 <= interval q)%Z ->
  slowest (qs ++ [q]) = Z.max (slowest qs) (interval q).
Proof. intros Hq. unfold slowest. induction qs as [|x qs IH]; simpl in *; lia. Qed.

Lemma details_lookup qs s : Forall (fun q => (0 <= interval q)%Z) qs ->
  foldl (count_query getQueryTables registered) ∅ qs !! s
  = let mine := filter (touches s) qs in
    if is_nil mine then None
    else Some (mkDetails (slowest mine) (u64 (Z.of_nat (length mine)))).
Proof.
  induction qs as [|q qs IH] using rev_ind; intros Hq; [done|].
  apply Forall_app in Hq as [Hqs Hq]. apply Forall_inv in Hq. specialize (IH Hqs).
  rewrite foldl_app. cbn [foldl]. rewrite count_query_lookup. cbv zeta in IH |- *.
  rewrite filter_app. case_decide as Ht.
  - rewrite (filter_cons_True _ q []) by done. unfold add_detail. rewrite lookup_insert_eq.
    assert (is_nil (filter (touches s) qs ++ [q]) = false) as Hnil by by destruct (filter (touches s) qs).
    rewrite filter_nil, Hnil, slowest_snoc, length_app by exact Hq. rewrite IH.
    destruct (filter (touches s) qs) as [|x l] eqn:E; simpl is_nil; cbn [from_option id].
    + do 2 f_equal; simpl. destruct (Z.ltb_spec 0 (interval q)); unfold slowest; simpl; lia.
    + do 2 f_equal; cbn [max_interval details_query_count].
      * pose proof (slowest_nonneg (x :: l)).
        destruct (Z.ltb_spec (slowest (x :: l)) (interval q)); lia.
      * unfold u64. rewrite Z.add_mod_idemp_l by lia. f_equal. rewrite Nat2Z.inj_add. done.
  - rewrite (filter_cons_False _ q []) by done. rewrite filter_nil, app_nil_r. exact IH.
Qed.
End DetailFacts.

(** ** Properties *)

(** Firing an event calls exactly the subscriptions whose subscriber is
    running, in the order they subscribed, all with the same context, whose id
    is the next number of the publisher; an ending publisher fires nothing. *)
Theorem fire_reaches_running_subscribers type_id ec time now f p :
  event_pubs_ f !! type_id = Some p ->
  exists called f', fire type_id ec time now f = (Ok called, f') /\
    (ending_ p = true -> called = [] /\ f' = f) /\
    (ending_ p = false ->
       called.*1 `sublist_of` subscriptions_ p /\
       (forall s, s ∈ called.*1 <-> s ∈ subscriptions_ p /\
          es_state <$> (event_subs_ f !! subscriber_name s) = Some EVENT_RUNNING) /\
       Forall (fun x => x.2 = fill_context (next_ec_id_ p) time now ec) called /\
       next_ec_id_ <$> (event_pubs_ f' !! type_id) = Some (u64 (next_ec_id_ p + 1))).
Proof.
  intros Hp. destruct (ending_ p) eqn:He.
  - exists [], f. split; [|by split]. unfold fire, getEventPublisher. by rewrite bind_gets, Hp, He.
  - eexists _, _. split; [by apply fire_run|]. split; [done|]. intros _.
    rewrite <- list_fmap_compose. simpl. rewrite list_fmap_id.
    split_and!.
    + apply sublist_filter.
    + intros s. rewrite list_elem_of_filter. naive_solver.
    + apply Forall_fmap, Forall_true. done.
    + by rewrite lookup_insert_eq.
Qed.

(** The loop of a publisher runs once: when it has ended the publisher is
    torn down, in its initial state and still marked as started, so running it
    again is refused and changes nothing. *)
Theorem publisher_runs_once pub_run pub_tearDown type_id fuel fuel' f p st f' :
  keeps_started type_id (pub_run type_id) -> keeps_started type_id (pub_tearDown type_id) ->
  event_pubs_ f !! type_id = Some p -> started_ p = false ->
  run false pub_run pub_tearDown fuel type_id f = (Ok (Some st), f') ->
  st = mkStatus 0 "OK" /\
  (exists p', event_pubs_ f' !! type_id = Some p' /\ pub_state p' = EVENT_NONE) /\
  run false pub_run pub_tearDown fuel' type_id f'
  = (Ok (Some (mkStatus 1 "Cannot restart an event publisher")), f').
Proof.
  intros Hkr Hkt Hp Hs Hr. unfold run in Hr. cbn iota in Hr.
  unfold getEventPublisher at 1 in Hr. rewrite bind_gets, Hp, Hs in Hr.
  unfold upd_pub at 1 in Hr. rewrite bind_modify in Hr.
  assert (started_in type_id (set_pubs (alter (set_started true) type_id (event_pubs_ f)) f)) as H1.
  { exists (set_started true p). simpl. by rewrite lookup_alter_eq, Hp. }
  run_step Hr as o f1 E1. apply run_loop_started in E1; [|done..].
  destruct o as [o|]; [|by run_pure Hr]. run_step Hr as u f2 E2.
  assert (started_in type_id f2) as (p2 & Hp2 & Hs2) by exact (Hkt _ _ _ E1 E2).
  unfold upd_pub in Hr. rewrite bind_modify in Hr. unfold ret in Hr. simplify_eq. split; [done|].
  split.
  - exists (set_pub_state EVENT_NONE p2). simpl. by rewrite lookup_alter_eq, Hp2.
  - unfold run. cbn iota. unfold getEventPublisher at 1. rewrite bind_gets. simpl.
    rewrite lookup_alter_eq, Hp2. simpl. by rewrite Hs2.
Qed.

(** A configuration update asks each subscriber to keep its events for more
    than three intervals of the slowest scheduled query that reads it, in whole
    minutes, and to count exactly those queries. *)
Theorem retention_covers_slowest_query tables registered qs s d :
  Forall (fun q => 0 < interval q <= kMaxQueryInterval)%Z qs ->
  foldl (count_query tables registered) ∅ qs !! s = Some d ->
  (Z.of_nat (length qs) < 2 ^ 64)%Z ->
  details_query_count d = Z.of_nat (length (filter (touches tables registered s) qs)) /\
  (expiration_for (max_interval d) mod 60 = 0)%Z /\
  forall q, q ∈ qs -> touches tables registered s q ->
    (3 * interval q < expiration_for (max_interval d))%Z.
Proof.
  intros Hq Hd Hn. rewrite details_lookup in Hd.
  2:{ eapply Forall_impl; [exact Hq|]. simpl. lia. }
  cbv zeta in Hd. set (mine := filter (touches tables registered s) qs) in *.
  destruct (is_nil mine); [done|]. simplify_eq. simpl.
  assert (length mine <= length qs)%nat as Hl by (apply sublist_length, sublist_filter).
  assert (0 <= slowest mine <= kMaxQueryInterval)%Z as Hm.
  { split; [apply slowest_nonneg|]. apply slowest_le; [done|]. apply Forall_forall.
    intros q [_ Hin]%list_elem_of_filter. eapply Forall_forall in Hq; [|exact Hin]. simpl in Hq. lia. }
  unfold kMaxQueryInterval in *. unfold expiration_for.
  assert (0 <= slowest mine * 3 mod 60 < 60)%Z by (apply Z.mod_pos_bound; lia).
  rewrite (u64_small (Z.of_nat _)), (u64_small (slowest mine * 3)), u64_small by (unfold in_u64; lia). split; [done|]. split.
  - pose proof (Z.div_mod (slowest mine * 3) 60 ltac:(lia)).
    replace (slowest mine * 3 + (60 - slowest mine * 3 mod 60))%Z
      with ((slowest mine * 3 / 60 + 1) * 60)%Z by lia. apply Z.mod_mul. lia.
  - intros q Hin Ht. assert (interval q <= slowest mine)%Z; [|lia].
    apply slowest_ge. by apply list_elem_of_filter.
Qed.
