(* ===== verification/Registry.v ===== *)
(** * The plugin registry (osquery/registry/registry_interface.cpp,
      osquery/registry/registry_factory.cpp, osquery/registry/plugin.cpp)

    A registry of each kind holds local plugins, aliases, the routes extensions
    broadcast and the active plugin; the factory holds the registries and the
    connected extensions. What a plugin does, the extension transport and the
    per-kind hooks for external plugins are parameters. *)
From S2P Require Import Prelude Boost Conversions Json Database.

Abbreviation RegistryRoutes := (gmap string PluginResponse).

(** ** State *)

(** [class RegistryInterface]; a plugin is identified by a number. *)
Record Registry := mkRegistry {
  reg_name : string;
  auto_setup_ : bool;
  items_ : gmap string Z;
  aliases_ : gmap string string;
  external_ : gmap string Z;
  routes_ : RegistryRoutes;
  internal_ : list string;
  active_plugin : string;
}.

(** [class RegistryFactory], with the name each plugin object carries. *)
Record RegistryFactory := mkRF {
  registries_ : gmap string Registry;
  extensions_ : gset Z;
  plugin_names : gmap Z string;
}.

Definition set_items (m : gmap string Z) (r : Registry) : Registry :=
  mkRegistry (reg_name r) (auto_setup_ r) m (aliases_ r) (external_ r) (routes_ r) (internal_ r)
    (active_plugin r).
Definition set_aliases (m : gmap string string) (r : Registry) : Registry :=
  mkRegistry (reg_name r) (auto_setup_ r) (items_ r) m (external_ r) (routes_ r) (internal_ r)
    (active_plugin r).
Definition set_external (m : gmap string Z) (r : Registry) : Registry :=
  mkRegistry (reg_name r) (auto_setup_ r) (items_ r) (aliases_ r) m (routes_ r) (internal_ r)
    (active_plugin r).
Definition set_routes (m : RegistryRoutes) (r : Registry) : Registry :=
  mkRegistry (reg_name r) (auto_setup_ r) (items_ r) (aliases_ r) (external_ r) m (internal_ r)
    (active_plugin r).
Definition set_internal (l : list string) (r : Registry) : Registry :=
  mkRegistry (reg_name r) (auto_setup_ r) (items_ r) (aliases_ r) (external_ r) (routes_ r) l
    (active_plugin r).
Definition set_active_plugin (s : string) (r : Registry) : Registry :=
  mkRegistry (reg_name r) (auto_setup_ r) (items_ r) (aliases_ r) (external_ r) (routes_ r)
    (internal_ r) s.

Definition set_registries (m : gmap string Registry) (f : RegistryFactory) : RegistryFactory :=
  mkRF m (extensions_ f) (plugin_names f).
Definition set_extensions (e : gset Z) (f : RegistryFactory) : RegistryFactory :=
  mkRF (registries_ f) e (plugin_names f).

Abbreviation MR := (M RegistryFactory).

(** A change to one registry object. *)
Definition upd_reg (name : string) (g : Registry -> Registry) : MR unit :=
  modify (fun f => set_registries (alter g name (registries_ f)) f).

(** ** Queries on one registry *)

Definition isInternal_ (item_name : string) (r : Registry) : bool :=
  bool_decide (item_name ∈ internal_ r).

Definition reg_exists (item_name : string) (local : bool) (r : Registry) : bool :=
  let has_local := bool_decide (is_Some (items_ r !! item_name)) in
  let has_external := bool_decide (is_Some (external_ r !! item_name)) in
  let has_route := bool_decide (is_Some (routes_ r !! item_name)) in
  if local then has_local else has_local || has_external || has_route.

Definition reg_names (r : Registry) : list string :=
  (map_sorted (items_ r)).*1 ++ (map_sorted (external_ r)).*1.

Definition reg_getAlias (alias : string) (r : Registry) : string :=
  default alias (aliases_ r !! alias).

(** ** The factory *)

Definition registry (t : string) : MR Registry :=
  let* regs := gets registries_ in
  match regs !! t with
  | Some r => ret r
  | None => throw (RuntimeError ("Unknown registry requested: " +:+ t))
  end.

Definition factory_exists (t : string) : MR bool :=
  gets (fun f => bool_decide (is_Some (registries_ f !! t))).

Definition factory_add (name : string) (r : Registry) : MR unit :=
  let* known := factory_exists name in
  if known then throw (RuntimeError ("Cannot add duplicate registry: " +:+ name))
  else modify (fun f => set_registries (<[name := r]> (registries_ f)) f).

(** [exists(registry_name, item_name, local)]. *)
Definition item_exists (registry_name item_name : string) (local : bool) : MR bool :=
  let* known := factory_exists registry_name in
  if negb known then ret false
  else let* r := registry registry_name in ret (reg_exists item_name local r).

(** [Plugin::setName]. *)
Definition setName (plugin : Z) (name : string) : MR unit :=
  let* names := gets plugin_names in
  let old := default "" (names !! plugin) in
  if negb (is_empty old) && negb (bool_decide (name = old))
  then throw (RuntimeError ("Cannot rename plugin " +:+ old +:+ " to " +:+ name))
  else modify (fun f => mkRF (registries_ f) (extensions_ f) (<[plugin := name]> names)).

Definition addPlugin (reg plugin_name : string) (plugin_item : Z) (internal : bool) : MR Status :=
  let* r := registry reg in
  match items_ r !! plugin_name with
  | Some _ => ret (mkStatus 1 ("Duplicate registry item exists: " +:+ plugin_name))
  | None =>
      setName plugin_item plugin_name ;;;
      upd_reg reg (fun r => set_items (<[plugin_name := plugin_item]> (items_ r)) r) ;;;
      (if internal then upd_reg reg (fun r => set_internal (internal_ r ++ [plugin_name]) r)
       else ret tt) ;;;
      ret (mkStatus 0 "OK")
  end.

Definition addAlias (reg item_name alias : string) : MR Status :=
  let* known := factory_exists reg in
  if negb known then ret (mkStatus 1 ("Unknown registry: " +:+ reg))
  else
    let* r := registry reg in
    match aliases_ r !! alias with
    | Some _ => ret (mkStatus 1 ("Duplicate alias: " +:+ alias))
    | None =>
        upd_reg reg (fun r => set_aliases (<[alias := item_name]> (aliases_ r)) r) ;;;
        ret (mkStatus 0 "OK")
    end.

Definition getAlias (reg alias : string) : MR string :=
  let* regs := gets registries_ in
  ret (match regs !! reg with Some r => reg_getAlias alias r | None => alias end).

Section Plugins.
Context {B : Boost}.
(** The virtual functions of a plugin. *)
(** [call] appends to the response it is given. *)
Context (plugin_call : Z -> PluginRequest -> PluginResponse -> MR (Status * PluginResponse)).
Context (plugin_setUp : Z -> MR Status) (plugin_tearDown plugin_configure : Z -> MR unit).
Context (routeInfo : Z -> PluginResponse).
(** [PluginType::addExternal] and [removeExternal] of the kind of registry. *)
Context (addExternalPlugin : string -> string -> PluginResponse -> MR Status).
Context (removeExternalPlugin : string -> string -> MR unit).
(** The transport: [callExtension(uuid, registry, item, request)] and a ping. *)
Context (callExtension : Z -> string -> string -> PluginRequest -> PluginResponse ->
                         MR (Status * PluginResponse)).
Context (pingExtension : Z -> MR Status).
(** [RegistryFactory::external()], [allowDuplicates()], [FLAGS_registry_exceptions]. *)
Context (external allowDuplicates FLAGS_registry_exceptions : bool).

Definition reg_remove (reg item_name : string) : MR unit :=
  let* r := registry reg in
  (match items_ r !! item_name with
   | Some p =>
       plugin_tearDown p ;;;
       upd_reg reg (fun r => set_items (delete item_name (items_ r)) r)
   | None => ret tt
   end) ;;;
  upd_reg reg (fun r => set_aliases (filter (fun kv => kv.2 <> item_name) (aliases_ r)) r).

Definition getRoutes (r : Registry) : RegistryRoutes :=
  foldl (fun table item =>
    if isInternal_ item.1 r then table
    else
      let masking := filter (fun alias => alias.2 = item.1) (map_sorted (aliases_ r)) in
      match masking with
      | [] => <[item.1 := routeInfo item.2]> table
      | _ => foldl (fun table alias => <[alias.1 := routeInfo item.2]> table) table masking
      end) ∅ (map_sorted (items_ r)).

Definition getBroadcast : MR (gmap string RegistryRoutes) :=
  gets (fun f => getRoutes <$> registries_ f).

(** [setActive]: every item must be known; each is then set up or pinged. *)
Definition setActive (reg item_name : string) : MR Status :=
  let* r := registry reg in
  match list_find (fun item => reg_exists item true r || bool_decide (is_Some (external_ r !! item)) = false)
                  (split item_name ",") with
  | Some (_, item) => ret (mkStatus 1 ("Unknown registry plugin: " +:+ item))
  | None =>
      upd_reg reg (set_active_plugin item_name) ;;;
      let* o := for_flow (split item_name ",") Status_success (fun status item =>
        let* r := registry reg in
        let* status :=
          (match items_ r !! item, external_ r !! item with
           | Some p, _ => plugin_setUp p
           | None, Some uuid => if negb external then pingExtension uuid else ret status
           | None, None =>
               match routes_ r !! item with
               | Some _ => if negb external then throw (OutOfRange "map::at") else ret status
               | None => ret status
               end
           end) in
        if negb (Status_ok status) then ret (Return status) else ret (Next status)) in
      match o with Next status => ret status | Return status => ret status end
  end.

Definition reg_setUp (reg : string) : MR unit :=
  let* r := registry reg in
  if negb (auto_setup_ r) then ret tt
  else
    match (if is_empty (active_plugin r) then None else items_ r !! active_plugin r) with
    | Some p => plugin_setUp p ;;; ret tt
    | None =>
        let* failed := for_fold (map_sorted (items_ r)) [] (fun failed item =>
          let* status := plugin_setUp item.2 in
          ret (if Status_ok status then failed else failed ++ [item.1])) in
        for_each failed (reg_remove reg)
    end.

Definition reg_configure (reg : string) : MR unit :=
  let* r := registry reg in
  match (if is_empty (active_plugin r) then None else items_ r !! active_plugin r) with
  | Some p => plugin_configure p
  | None => for_each (map_sorted (items_ r)) (fun item => plugin_configure item.2)
  end.

(** [RegistryInterface::call]; [response] is what the caller's vector holds. *)
Definition reg_call (reg item_name : string) (request : PluginRequest) (response : PluginResponse)
    : MR (Status * PluginResponse) :=
  let* r := registry reg in
  match items_ r !! item_name with
  | Some p => plugin_call p request response
  | None =>
      match external_ r !! item_name with
      | Some uuid => callExtension uuid (reg_name r) item_name request response
      | None =>
          match routes_ r !! item_name with
          | Some info => ret (mkStatus 0 "Route only", info)
          | None =>
              if external then callExtension 0 (reg_name r) item_name request response
              else ret (mkStatus 1 ("Cannot call registry item: " +:+ item_name), response)
          end
      end
  end.

Definition comma_in (s : string) : bool := bool_decide (","%char ∈ chars s).

(** [RegistryFactory::call(registry_name, item_name, request, response)]: a list
    of items is called one after the other without regard for their statuses. *)
Definition factory_call (registry_name item_name : string) (request : PluginRequest)
    (response : PluginResponse) : MR (Status * PluginResponse) :=
  catch
    (if comma_in item_name then
       let* response := for_fold (split item_name ",") response (fun response item =>
         let* (_, response) := reg_call registry_name item request response in ret response) in
       ret (Status1 0, response)
     else reg_call registry_name item_name request response)
    (fun e => if FLAGS_registry_exceptions then throw e else ret (mkStatus 1 (exn_what e), response)).

(** The overload that calls the active plugin. *)
Definition call_active (registry_name : string) (request : PluginRequest) (response : PluginResponse)
    : MR (Status * PluginResponse) :=
  let* r := registry registry_name in
  factory_call registry_name (active_plugin r) request response.

(** *** Extensions *)

(** [addExternal]: stops at the first route the kind of registry refuses. *)
Definition addExternal (reg : string) (uuid : Z) (routes : RegistryRoutes) : MR Status :=
  let* o := for_flow (map_sorted routes) tt (fun _ route =>
    upd_reg reg (fun r => set_routes (<[route.1 := route.2]> (routes_ r)) r) ;;;
    let* status := addExternalPlugin reg route.1 route.2 in
    if Status_ok status then
      upd_reg reg (fun r => set_external (<[route.1 := uuid]> (external_ r)) r) ;;; ret (Next tt)
    else ret (Return status)) in
  match o with Next _ => ret (mkStatus 0 "OK") | Return status => ret status end.

Definition removeExternal (reg : string) (uuid : Z) : MR unit :=
  let* r := registry reg in
  let removed := (filter (fun kv => kv.2 = uuid) (map_sorted (external_ r))).*1 in
  for_each removed (removeExternalPlugin reg) ;;;
  for_each removed (fun item =>
    upd_reg reg (fun r => set_routes (delete item (routes_ r))
                            (set_external (delete item (external_ r)) r))).

(** The check that no broadcast item exists already. *)
Definition find_duplicate (broadcast : gmap string RegistryRoutes) : MR (flow unit Status) :=
  for_flow (map_sorted broadcast) tt (fun _ reg =>
    for_flow (map_sorted reg.2) tt (fun _ item =>
      let* dup := item_exists reg.1 item.1 false in
      if dup then ret (Return (mkStatus 1 ("Duplicate registry item: " +:+ item.1)))
      else ret (Next tt))).

(** How the loop over the registries ended: unknown registry ([return]), or with
    a status. *)
Definition add_all (uuid : Z) (broadcast : gmap string RegistryRoutes) : MR (flow unit (bool * Status)) :=
  for_flow (map_sorted broadcast) tt (fun _ reg =>
    let* known := factory_exists reg.1 in
    if negb known then ret (Return (true, mkStatus 1 ("Unknown registry: " +:+ reg.1)))
    else
      let* status := addExternal reg.1 uuid reg.2 in
      if negb (Status_ok status) then ret (Return (false, status)) else ret (Next tt)).

Definition addBroadcast (uuid : Z) (broadcast : gmap string RegistryRoutes) : MR Status :=
  let* exts := gets extensions_ in
  if bool_decide (uuid ∈ exts)
  then ret (mkStatus 1 ("Duplicate extension UUID: " +:+ to_string uuid))
  else
    let* dup := (if allowDuplicates then ret (Next tt) else find_duplicate broadcast) in
    match dup with
    | Return status => ret status
    | Next _ =>
        let* o := add_all uuid broadcast in
        match o with
        | Return (true, status) => ret status
        | Return (false, status) =>
            for_each (map_sorted broadcast) (fun reg => removeExternal reg.1 uuid) ;;;
            modify (fun f => set_extensions ({[uuid]} ∪ extensions_ f) f) ;;;
            ret status
        | Next _ =>
            modify (fun f => set_extensions ({[uuid]} ∪ extensions_ f) f) ;;;
            ret Status_success
        end
    end.

Definition removeBroadcast (uuid : Z) : MR Status :=
  let* exts := gets extensions_ in
  if negb (bool_decide (uuid ∈ exts))
  then ret (mkStatus 1 ("Unknown extension UUID: " +:+ to_string uuid))
  else
    let* regs := gets registries_ in
    for_each (map_sorted regs) (fun reg => removeExternal reg.1 uuid) ;;;
    modify (fun f => set_extensions (extensions_ f ∖ {[uuid]}) f) ;;;
    ret (mkStatus 0 "OK").
End Plugins.
