(* ===== verification/RegistryFacts.v ===== *)
(** * Facts about the registry

    Removing the broadcast of an extension undoes adding it, a broadcast that
    fails is not undone completely, and a plugin that throws does not take the
    caller down. *)
From S2P Require Import Prelude Boost Conversions Json Database DatabaseFacts Registry.

(** ** Adding and dropping routes of one registry *)

Definition add_route (uuid : Z) (r : Registry) (route : string * PluginResponse) : Registry :=
  set_external (<[route.1 := uuid]> (external_ r)) (set_routes (<[route.1 := route.2]> (routes_ r)) r).

Definition drop_item (r : Registry) (item : string) : Registry :=
  set_routes (delete item (routes_ r)) (set_external (delete item (external_ r)) r).

Definition uuid_items (uuid : Z) (r : Registry) : list string :=
  (filter (fun kv => kv.2 = uuid) (map_sorted (external_ r))).*1.

Definition drop_uuid (uuid : Z) (r : Registry) : Registry := foldl drop_item r (uuid_items uuid r).

Lemma elem_of_uuid_items uuid r n : n ∈ uuid_items uuid r <-> external_ r !! n = Some uuid.
Proof.
  unfold uuid_items. rewrite list_elem_of_fmap. split.
  - intros ([k v] & -> & [Hv Hin]%list_elem_of_filter). apply elem_of_map_sorted in Hin.
    simpl in *. by subst.
  - intros Hn. exists (n, uuid). split; [done|]. apply list_elem_of_filter. split; [done|].
    by apply elem_of_map_sorted.
Qed.

Lemma add_routes_eq uuid l r : exists E R, foldl (add_route uuid) r l = set_external E (set_routes R r) /\
  (forall n, E !! n = if decide (n ∈ l.*1) then Some uuid else external_ r !! n) /\
  (forall n, n ∉ l.*1 -> R !! n = routes_ r !! n).
Proof.
  revert r. induction l as [|[k v] l IH]; intros r; cbn [foldl].
  - exists (external_ r), (routes_ r). split; [by destruct r|]. split; [|done].
    intros n. case_decide as Hn; [by apply not_elem_of_nil in Hn | done].
  - destruct (IH (add_route uuid r (k, v))) as (E & R & -> & HE & HR). exists E, R. split; [done|].
    split.
    + intros n. rewrite HE. simpl. destruct (decide (n = k)) as [->|Hne].
      * rewrite lookup_insert_eq. repeat case_decide; set_solver.
      * rewrite lookup_insert_ne by done. repeat case_decide; set_solver.
    + intros n Hn. simpl in *. rewrite HR by set_solver. rewrite lookup_insert_ne; set_solver.
Qed.

Lemma drop_items_eq l r : exists E R, foldl drop_item r l = set_external E (set_routes R r) /\
  (forall n, E !! n = if decide (n ∈ l) then None else external_ r !! n) /\
  (forall n, R !! n = if decide (n ∈ l) then None else routes_ r !! n).
Proof.
  revert r. induction l as [|k l IH]; intros r; cbn [foldl].
  - exists (external_ r), (routes_ r). split; [by destruct r|].
    split; intros n; case_decide as Hn; try done; by apply not_elem_of_nil in Hn.
  - destruct (IH (drop_item r k)) as (E & R & -> & HE & HR). exists E, R. split; [done|].
    split; intros n; [rewrite HE | rewrite HR]; simpl; destruct (decide (n = k)) as [->|Hne];
      rewrite ?lookup_delete_eq, ?lookup_delete_ne by done; repeat case_decide; set_solver.
Qed.

(** Dropping the routes of an extension undoes adding them. *)
Lemma drop_add_routes uuid l r :
  (forall n, external_ r !! n <> Some uuid) ->
  Forall (fun route => external_ r !! route.1 = None /\ routes_ r !! route.1 = None) l ->
  drop_uuid uuid (foldl (add_route uuid) r l) = r.
Proof.
  intros Hu Hl. destruct (add_routes_eq uuid l r) as (E & R & Hadd & HE & HR). unfold drop_uuid.
  destruct (drop_items_eq (uuid_items uuid (foldl (add_route uuid) r l)) (foldl (add_route uuid) r l))
    as (E' & R' & -> & HE' & HR'). rewrite Hadd in HE', HR' |- *.
  assert (forall n, n ∈ uuid_items uuid (set_external E (set_routes R r)) <-> n ∈ l.*1) as Hin.
  { intros n. rewrite elem_of_uuid_items. simpl. rewrite HE. case_decide; [done|].
    split; [by intros ?%Hu | done]. }
  assert (forall n, n ∈ l.*1 -> external_ r !! n = None /\ routes_ r !! n = None) as Hnone.
  { intros n (x & -> & Hx)%list_elem_of_fmap. by eapply Forall_forall in Hl. }
  assert (E' = external_ r) as ->.
  { apply map_eq. intros n. rewrite HE'. simpl. rewrite HE. repeat case_decide; try done.
    - symmetry. by apply Hnone, Hin.
    - exfalso. naive_solver. }
  assert (R' = routes_ r) as ->.
  { apply map_eq. intros n. rewrite HR'. simpl. case_decide as Hd.
    - symmetry. by apply Hnone, Hin.
    - apply HR. by rewrite <- Hin. }
  by destruct r.
Qed.

(** ** Runs *)

Lemma alter_compose_insert {V} (g : V -> V) k (m : gmap string V) v :
  m !! k = Some v -> alter g k m = <[k := g v]> m.
Proof.
  intros Hk. apply map_eq. intros n. destruct (decide (n = k)) as [->|Hne].
  - by rewrite lookup_alter_eq, lookup_insert_eq, Hk.
  - by rewrite lookup_alter_ne, lookup_insert_ne.
Qed.

Lemma upd_reg_run {X} reg g (k : unit -> MR X) f r : registries_ f !! reg = Some r ->
  bind (upd_reg reg g) k f = k tt (set_registries (<[reg := g r]> (registries_ f)) f).
Proof. intros Hr. unfold upd_reg. rewrite bind_modify. by rewrite (alter_compose_insert _ _ _ r). Qed.

Lemma registry_run {X} reg (k : Registry -> MR X) f r : registries_ f !! reg = Some r ->
  bind (registry reg) k f = k r f.
Proof. intros Hr. unfold registry, bind, gets. by rewrite Hr. Qed.

Lemma set_registries_set m m' f : set_registries m (set_registries m' f) = set_registries m f.
Proof. done. Qed.

Section ExternalFacts.
Context (addExt : string -> string -> PluginResponse -> MR Status).
Context (removeExt : string -> string -> MR unit).
(** The hooks accept every route and do not touch the registries. *)
Hypothesis add_ok : forall reg n info f, exists st, addExt reg n info f = (Ok st, f) /\ Status_ok st = true.
Hypothesis remove_ok : forall reg n f, removeExt reg n f = (Ok tt, f).

Lemma addExternal_run reg uuid routes f r : registries_ f !! reg = Some r ->
  addExternal addExt reg uuid routes f
  = (Ok (mkStatus 0 "OK"),
     set_registries (<[reg := foldl (add_route uuid) r (map_sorted routes)]> (registries_ f)) f).
Proof.
  unfold addExternal. generalize (map_sorted routes). intros l Hr.
  match goal with |- context [for_flow l tt ?body] => set (b := body) end.
  assert (forall l f r, registries_ f !! reg = Some r -> for_flow l tt b f
    = (Ok (Next tt), set_registries (<[reg := foldl (add_route uuid) r l]> (registries_ f)) f)) as Hl.
  { clear f r Hr. induction l0 as [|x l0 IH]; intros f r Hr; cbn [for_flow foldl].
    - unfold ret. f_equal. rewrite insert_id by done. by destruct f.
    - unfold b at 1. unfold bind at 1. rewrite (upd_reg_run _ _ _ _ r) by done.
      destruct (add_ok reg x.1 x.2
        (set_registries (<[reg := set_routes (<[x.1 := x.2]> (routes_ r)) r]> (registries_ f)) f))
        as (st & Ea & Hok).
      rewrite (bind_run _ _ _ _ _ Ea), Hok.
      rewrite (upd_reg_run _ _ _ _ (set_routes (<[x.1 := x.2]> (routes_ r)) r))
        by (simpl; apply lookup_insert_eq).
      unfold ret. simpl registries_. rewrite insert_insert_eq.
      rewrite (IH _ (add_route uuid r x)) by (simpl; apply lookup_insert_eq).
      simpl registries_. by rewrite insert_insert_eq. }
  unfold bind. by rewrite (Hl l f r Hr).
Qed.

Lemma drop_loop_run reg l f r : registries_ f !! reg = Some r ->
  for_each l (fun item => upd_reg reg (fun r => drop_item r item)) f
  = (Ok tt, set_registries (<[reg := foldl drop_item r l]> (registries_ f)) f).
Proof.
  revert f r. induction l as [|x l IH]; intros f r Hr; cbn [for_each foldl].
  - unfold ret. f_equal. rewrite insert_id by done. by destruct f.
  - rewrite (upd_reg_run _ _ _ _ r) by done.
    rewrite (IH _ (drop_item r x)) by (simpl; apply lookup_insert_eq).
    simpl registries_. by rewrite insert_insert_eq.
Qed.

Lemma removeExternal_run reg uuid f r : registries_ f !! reg = Some r ->
  removeExternal removeExt reg uuid f
  = (Ok tt, set_registries (<[reg := drop_uuid uuid r]> (registries_ f)) f).
Proof.
  intros Hr. unfold removeExternal. rewrite (registry_run _ _ _ r) by done. fold (uuid_items uuid r).
  rewrite (bind_run _ _ f tt f); [by apply drop_loop_run|].
  induction (uuid_items uuid r) as [|x l IH]; [done|]. simpl. unfold bind. by rewrite remove_ok.
Qed.

(** The registries after the broadcast was added. *)
Definition broadcast_into (uuid : Z) (m : gmap string Registry) (b : string * RegistryRoutes)
    : gmap string Registry :=
  alter (fun r => foldl (add_route uuid) r (map_sorted b.2)) b.1 m.

Lemma add_all_run uuid l f :
  Forall (fun b => is_Some (registries_ f !! b.1)) l ->
  for_flow l tt (fun _ reg =>
    let* known := factory_exists reg.1 in
    if negb known then ret (Return (true, mkStatus 1 ("Unknown registry: " +:+ reg.1)))
    else
      let* status := addExternal addExt reg.1 uuid reg.2 in
      if negb (Status_ok status) then ret (Return (false, status)) else ret (Next tt)) f
  = (Ok (Next tt), set_registries (foldl (broadcast_into uuid) (registries_ f) l) f).
Proof.
  revert f. induction l as [|x l IH]; intros f Hl; cbn [for_flow foldl]; [by destruct f|].
  inversion Hl as [|? ? [r Hr] Hl']; subst.
  unfold bind at 1. unfold factory_exists. rewrite bind_gets, bool_decide_true by (by eexists). cbn [negb].
  rewrite (bind_run _ _ _ _ _ (addExternal_run x.1 uuid x.2 f r Hr)). unfold ret at 1.
  cbn [Status_ok code Z.eqb negb]. unfold ret.
  assert (<[x.1 := foldl (add_route uuid) r (map_sorted x.2)]> (registries_ f)
          = broadcast_into uuid (registries_ f) x) as ->.
  { unfold broadcast_into. by rewrite (alter_compose_insert _ _ _ r). }
  rewrite IH; [done|]. simpl. eapply Forall_impl; [exact Hl'|]. intros b [r' Hr'].
  unfold broadcast_into. destruct (decide (b.1 = x.1)) as [->|Hne].
  - rewrite lookup_alter_eq, Hr. by eexists.
  - rewrite lookup_alter_ne by done. by eexists.
Qed.
End ExternalFacts.

(** ** Whole broadcasts *)

Lemma foldl_alter_lookup {V X} (g : string * X -> V -> V) l (m : gmap string V) n : NoDup l.*1 ->
  foldl (fun m x => alter (g x) x.1 m) m l !! n
  = match (list_to_map l : gmap string X) !! n with
    | Some v => g (n, v) <$> m !! n
    | None => m !! n
    end.
Proof.
  revert m. induction l as [|[k v] l IH]; intros m Hnd; [done|]. cbn [foldl].
  apply NoDup_cons in Hnd as [Hk Hnd]. rewrite IH by done. simpl.
  destruct (decide (n = k)) as [->|Hne].
  - rewrite lookup_insert_eq, (not_elem_of_list_to_map_1 l k), lookup_alter_eq by done. done.
  - rewrite lookup_insert_ne, lookup_alter_ne by done. done.
Qed.

Lemma for_flow_next {S A R} (l : list A) (body : unit -> A -> M S (flow unit R)) s :
  (forall x, x ∈ l -> body tt x s = (Ok (Next tt), s)) -> for_flow l tt body s = (Ok (Next tt), s).
Proof.
  induction l as [|x l IH]; intros Hb; [done|]. cbn [for_flow].
  rewrite (bind_run _ _ _ _ _ (Hb x ltac:(left))). apply IH. intros y Hy. apply Hb. by right.
Qed.

(** Every registry of the broadcast is known and none of its items exists. *)
Definition fresh_broadcast (b : gmap string RegistryRoutes) (f : RegistryFactory) : Prop :=
  forall reg routes, b !! reg = Some routes -> exists r, registries_ f !! reg = Some r /\
    forall n info, routes !! n = Some info -> reg_exists n false r = false.

Lemma fresh_absent n r : reg_exists n false r = false ->
  external_ r !! n = None /\ routes_ r !! n = None.
Proof.
  unfold reg_exists. intros [[_ H2]%orb_false_iff H3]%orb_false_iff.
  apply bool_decide_eq_false in H2, H3. by rewrite <- !eq_None_not_Some in *.
Qed.

Lemma find_duplicate_none b f : fresh_broadcast b f -> find_duplicate b f = (Ok (Next tt), f).
Proof.
  intros Hf. unfold find_duplicate. apply for_flow_next. intros [reg routes] Hin.
  apply elem_of_map_sorted in Hin. destruct (Hf _ _ Hin) as (r & Hr & Hn).
  apply for_flow_next. intros [n info] Hin2. apply elem_of_map_sorted in Hin2. simpl.
  unfold item_exists, factory_exists. unfold bind at 1. rewrite bind_gets, bool_decide_true by by eexists.
  cbn [negb]. rewrite (registry_run _ _ _ r) by done. unfold ret. by rewrite (Hn n info).
Qed.

Lemma remove_all_run removeExt uuid l f :
  (forall reg n f, removeExt reg n f = (Ok tt, f)) ->
  Forall (fun x : string * Registry => is_Some (registries_ f !! x.1)) l ->
  for_each l (fun reg => removeExternal removeExt reg.1 uuid) f
  = (Ok tt, set_registries (foldl (fun m x => alter (drop_uuid uuid) x.1 m) (registries_ f) l) f).
Proof.
  intros Hrm. revert f. induction l as [|x l IH]; intros f Hl; cbn [for_each foldl]; [by destruct f|].
  inversion Hl as [|? ? [r Hr] Hl']; subst.
  rewrite (bind_run _ _ _ _ _ (removeExternal_run removeExt Hrm x.1 uuid f r Hr)).
  rewrite IH.
  - simpl registries_. by rewrite (alter_compose_insert _ _ _ r).
  - simpl. eapply Forall_impl; [exact Hl'|]. intros b [r' Hr'].
    destruct (decide (b.1 = x.1)) as [->|Hne]; [rewrite lookup_insert_eq | rewrite lookup_insert_ne by done];
      by eexists.
Qed.

(** ** Properties *)

(** C22: Removing an extension undoes its broadcast: after a broadcast of new
    items was accepted, removing it succeeds and leaves the factory exactly as
    it was, routes, external items and known extensions included. *)
Theorem remove_undoes_broadcast addExt removeExt uuid b f :
  (forall reg n info f, exists st, addExt reg n info f = (Ok st, f) /\ Status_ok st = true) ->
  (forall reg n f, removeExt reg n f = (Ok tt, f)) ->
  uuid ∉ extensions_ f -> fresh_broadcast b f ->
  (forall reg r n, registries_ f !! reg = Some r -> external_ r !! n <> Some uuid) ->
  exists f', addBroadcast addExt removeExt false uuid b f = (Ok Status_success, f') /\
    uuid ∈ extensions_ f' /\
    removeBroadcast removeExt uuid f' = (Ok (mkStatus 0 "OK"), f).
Proof.
  intros Hadd Hrm Hu Hfresh Hext.
  set (m1 := foldl (broadcast_into uuid) (registries_ f) (map_sorted b)).
  exists (set_extensions ({[uuid]} ∪ extensions_ f) (set_registries m1 f)).
  assert (forall n, m1 !! n = (fun r => match b !! n with
                                        | Some routes => foldl (add_route uuid) r (map_sorted routes)
                                        | None => r end) <$> registries_ f !! n) as Hm1.
  { intros n. unfold m1, broadcast_into.
    rewrite (foldl_alter_lookup (fun x r => foldl (add_route uuid) r (map_sorted x.2)))
      by apply NoDup_fst_map_sorted.
    rewrite list_to_map_sorted. destruct (b !! n); [done|]. by rewrite option_fmap_id. }
  split; [|split].
  - unfold addBroadcast. rewrite bind_gets, bool_decide_false by done.
    rewrite (bind_run _ _ f (Next tt) f) by by apply find_duplicate_none.
    unfold add_all. erewrite bind_run; [|apply add_all_run; [done|]].
    + done.
    + apply Forall_forall. intros [reg routes] Hin%elem_of_map_sorted.
      destruct (Hfresh _ _ Hin) as (r & Hr & _). by eexists.
  - simpl. set_solver.
  - unfold removeBroadcast. rewrite bind_gets, bool_decide_true by (simpl; set_solver). cbn [negb].
    rewrite bind_gets. simpl registries_.
    erewrite bind_run; [|apply (remove_all_run removeExt uuid (map_sorted m1)); [done|]].
    2:{ apply Forall_forall. intros [reg r] Hin%elem_of_map_sorted. by eexists. }
    rewrite bind_modify. unfold ret. f_equal. destruct f as [regs exts names]. simpl in *.
    unfold set_extensions, set_registries. simpl. f_equal; [|set_solver].
    apply map_eq. intros n.
    rewrite (foldl_alter_lookup (fun _ => drop_uuid uuid)) by apply NoDup_fst_map_sorted.
    rewrite list_to_map_sorted. rewrite !Hm1.
    destruct (regs !! n) as [r|] eqn:Er; simpl; [|done]. f_equal.
    destruct (b !! n) as [routes|] eqn:Eb; [|by apply (drop_add_routes uuid [] r); [eauto|constructor]].
    apply drop_add_routes; [eauto|]. apply Forall_forall. intros [k info] Hin%elem_of_map_sorted.
    destruct (Hfresh _ _ Eb) as (r' & Hr' & Hk). simpl in Hr'. simplify_eq.
    by eapply fresh_absent, Hk.
Qed.

(** A broadcast whose route is refused is not undone: the extension is
    counted as connected although the call reports the failure, and the refused
    route stays in the registry, so later calls to it answer "Route only". *)
Theorem failed_broadcast_leaves_route addExt removeExt uuid reg n info r f st :
  registries_ f !! reg = Some r -> reg_exists n false r = false ->
  (forall n, external_ r !! n <> Some uuid) -> uuid ∉ extensions_ f ->
  (forall f, addExt reg n info f = (Ok st, f)) -> Status_ok st = false ->
  exists f', addBroadcast addExt removeExt false uuid {[reg := {[n := info]}]} f = (Ok st, f') /\
    uuid ∈ extensions_ f' /\
    routes_ <$> (registries_ f' !! reg) = Some (<[n := info]> (routes_ r)).
Proof.
  intros Hr Hn Hu Hext Ha Hst.
  set (f1 := set_registries (<[reg := set_routes (<[n := info]> (routes_ r)) r]> (registries_ f)) f).
  assert (addExternal addExt reg uuid {[n := info]} f = (Ok st, f1)) as Hadd.
  { unfold addExternal. rewrite map_sorted_singleton. cbn [for_flow].
    rewrite (bind_run _ _ f (Return st) f1); [done|].
    rewrite (bind_run _ _ f (Return st) f1); [done|].
    rewrite (upd_reg_run _ _ _ _ r) by done. fold f1.
    unfold bind. cbn [fst snd]. by rewrite Ha, Hst. }
  assert (removeExternal removeExt reg uuid f1 = (Ok tt, f1)) as Hrem.
  { unfold removeExternal.
    rewrite (registry_run _ _ _ (set_routes (<[n := info]> (routes_ r)) r))
      by (simpl; apply lookup_insert_eq).
    simpl external_. assert (uuid_items uuid r = []) as Hnil.
    { destruct (uuid_items uuid r) as [|x l] eqn:E; [done|]. exfalso. apply (Hu x).
      apply elem_of_uuid_items. rewrite E. by left. }
    unfold uuid_items in Hnil. by rewrite Hnil. }
  exists (set_extensions ({[uuid]} ∪ extensions_ f) f1). split; [|split].
  - unfold addBroadcast. rewrite bind_gets, bool_decide_false by done.
    rewrite (bind_run _ _ f (Next tt) f).
    2:{ apply find_duplicate_none. intros reg' routes [<- <-]%lookup_singleton_Some.
        exists r. split; [done|]. by intros k i [<- <-]%lookup_singleton_Some. }
    rewrite (bind_run _ _ f (Return (false, st)) f1).
    + rewrite map_sorted_singleton. cbn [for_each fst snd].
      rewrite (bind_run _ _ f1 tt f1); [done|]. unfold bind. by rewrite Hrem.
    + unfold add_all. rewrite map_sorted_singleton. cbn [for_flow].
      rewrite (bind_run _ _ f (Return (false, st)) f1); [done|].
      unfold factory_exists. rewrite bind_gets, bool_decide_true by by eexists.
      cbn [negb fst snd]. rewrite (bind_run _ _ _ _ _ Hadd). by rewrite Hst.
  - simpl. set_solver.
  - simpl. by rewrite lookup_insert_eq.
Qed.
