(* ===== verification/Filesystem.v ===== *)
(** * Files (osquery/filesystem/filesystem.cpp, osquery/filesystem/posix/fileops.cpp)

    Reading and writing files, permissions, and the expansion of path patterns, on
    POSIX. The calls of the C library, of the kernel and of Boost.Filesystem are the
    class [Posix]; a failed call is [None] or the value the call returns on failure. *)
From S2P Require Import Prelude Boost Conversions.
Local Open Scope Z_scope.

Record stat := mkStat { st_mode : Z; st_uid : Z; st_size : Z; st_ino : Z; st_times : Z * Z }.

(** What a call of [read] or [write] gives: the bytes, or [errno]. *)
Class Posix (S : Type) := {
  sys_open : string -> Z -> Z -> M S Z;
  sys_close : Z -> M S unit;
  sys_fstat : Z -> M S (option stat);
  sys_stat : string -> M S (option stat);
  sys_lstat : string -> M S (option stat);
  sys_read : Z -> Z -> M S (string + Z);
  sys_write : Z -> string -> M S (Z + Z);
  sys_futimes : Z -> Z * Z -> M S Z;
  sys_chmod : string -> Z -> M S Z;
  sys_access : string -> Z -> M S Z;
  sys_glob : string -> M S (list string);
  sys_getuid : M S Z;
  (** The result, the code of [ec] and its message. *)
  fs_exists : string -> M S (bool * Z * string);
  fs_is_directory : string -> M S (bool * Z * string);
  fs_rename : string -> string -> M S (Z * string);
  fs_remove_all : string -> M S (Z * Z * string);
  fs_create_directories : string -> M S (bool * Z * string);
  fs_create_directory : string -> M S (bool * Z * string);
  (** Empty on failure. *)
  fs_canonical : string -> M S string;
  (** [None] when it throws. *)
  fs_current_path : M S (option string);
  path_append : string -> string -> string;
  path_parent : string -> string;
  path_filename : string -> string;
}.

(** ** Open files *)

Definition PF_READ : Z := 0x0001.
Definition PF_WRITE : Z := 0x0002.
Definition PF_GET_OPTIONS (x : Z) : Z := Z.shiftr (Z.land x 0x001c) 2.
Definition PF_CREATE_NEW : Z := 0.
Definition PF_CREATE_ALWAYS : Z := 4.
Definition PF_OPEN_EXISTING : Z := 8.
Definition PF_OPEN_ALWAYS : Z := 12.
Definition PF_TRUNCATE : Z := 16.
Definition PF_NONBLOCK : Z := 0x0020.
Definition PF_APPEND : Z := 0x0040.

Definition O_RDONLY : Z := 0.
Definition O_WRONLY : Z := 1.
Definition O_RDWR : Z := 2.
Definition O_CREAT : Z := 0x40.
Definition O_EXCL : Z := 0x80.
Definition O_TRUNC : Z := 0x200.
Definition O_APPEND : Z := 0x400.
Definition O_NONBLOCK : Z := 0x800.
Definition EAGAIN : Z := 11.

Definition S_IXUSR : Z := 0x40.
Definition S_IWOTH : Z := 0x2.
Definition S_IRWXU : Z := 0x1c0.
Definition S_ISVTX : Z := 0x200.
Definition R_OK : Z := 4.
Definition W_OK : Z := 2.

Definition kInvalidHandle : Z := -1.

Record PlatformFile := mkFile { fname_ : string; handle_ : Z; is_nonblock_ : bool; has_pending_io_ : bool }.

Definition isValid (f : PlatformFile) : bool := negb (handle_ f =? kInvalidHandle).

Definition has_all (mode flag : Z) : bool := Z.land mode flag =? flag.

Definition access_flag (mode : Z) : Z :=
  if has_all mode PF_READ && has_all mode PF_WRITE then O_RDWR
  else if has_all mode PF_READ then O_RDONLY
  else if has_all mode PF_WRITE then O_WRONLY else 0.

(** The flag of the option, whether the file may be created, and whether it has to
    exist. *)
Definition option_flag (mode : Z) : Z * bool * bool :=
  let o := PF_GET_OPTIONS mode in
  if o =? PF_GET_OPTIONS PF_CREATE_ALWAYS then (Z.lor O_CREAT O_TRUNC, true, false)
  else if o =? PF_GET_OPTIONS PF_CREATE_NEW then (Z.lor O_CREAT O_EXCL, true, false)
  else if o =? PF_GET_OPTIONS PF_OPEN_EXISTING then (0, false, true)
  else if o =? PF_GET_OPTIONS PF_OPEN_ALWAYS then (O_CREAT, true, false)
  else if o =? PF_GET_OPTIONS PF_TRUNCATE then (if Z.land mode PF_WRITE =? 0 then 0 else O_TRUNC, false, false)
  else (0, false, false).

Section Files.
Context {S : Type} {P : Posix S} {B : Boost}.

Definition PlatformFile_new (path : string) (mode perms : Z) : M S PlatformFile :=
  let '(oflag, may_create, check_existence) := option_flag mode in
  let nonblock := has_all mode PF_NONBLOCK in
  let oflag := Z.lor (Z.lor (Z.lor (access_flag mode) oflag) (if nonblock then O_NONBLOCK else 0))
                     (if has_all mode PF_APPEND then O_APPEND else 0) in
  let perms := if (perms =? -1) && may_create then 0x1b6 else perms in
  let* missing := (if check_existence then
                     let* (exists_, ec, _) := fs_exists path in ret (negb exists_ || negb (ec =? 0))
                   else ret false) in
  if missing then ret (mkFile path kInvalidHandle nonblock false)
  else
    let* h := sys_open path oflag perms in
    ret (mkFile path h nonblock false).

(** The destructor. *)
Definition PlatformFile_close (f : PlatformFile) : M S unit :=
  if isValid f then sys_close (handle_ f) else ret tt.

Definition PlatformFile_size (f : PlatformFile) : M S Z :=
  let* st := sys_fstat (handle_ f) in
  ret (match st with None => 0 | Some st => u64 (st_size st) end).

Definition isSpecialFile (f : PlatformFile) : M S bool :=
  let* n := PlatformFile_size f in ret (n =? 0).

(** [(uid_t)-1] on failure. *)
Definition getFileOwner (handle : Z) : M S Z :=
  let* st := sys_fstat handle in
  ret (match st with None => u32 (-1) | Some st => st_uid st end).

Definition isOwnerRoot (f : PlatformFile) : M S Status :=
  if negb (isValid f) then ret (mkStatus (-1) "Invalid handle_")
  else
    let* owner_id := getFileOwner (handle_ f) in
    ret (if owner_id =? u32 (-1) then mkStatus (-1) "fstat error"
         else if owner_id =? 0 then mkStatus 0 "OK" else mkStatus 1 "Owner is not root").

Definition isOwnerCurrentUser (f : PlatformFile) : M S Status :=
  if negb (isValid f) then ret (mkStatus (-1) "Invalid handle_")
  else
    let* owner_id := getFileOwner (handle_ f) in
    if owner_id =? u32 (-1) then ret (mkStatus (-1) "fstat error")
    else
      let* uid := sys_getuid in
      ret (if owner_id =? uid then mkStatus 0 "OK" else mkStatus 1 "Owner is not current user").

Definition isExecutable (f : PlatformFile) : M S Status :=
  let* st := sys_fstat (handle_ f) in
  ret (match st with
       | None => mkStatus (-1) "fstat error"
       | Some st => if has_all (st_mode st) S_IXUSR then mkStatus 0 "OK" else mkStatus 1 "Not executable"
       end).

Definition hasSafePermissions (f : PlatformFile) : M S Status :=
  let* st := sys_fstat (handle_ f) in
  ret (match st with
       | None => mkStatus (-1) "fstat error"
       | Some st => if Z.land (st_mode st) S_IWOTH =? 0 then mkStatus 0 "OK" else mkStatus 1 "Writable"
       end).

Definition getFileTimes (f : PlatformFile) : M S (option (Z * Z)) :=
  if negb (isValid f) then ret None
  else let* st := sys_fstat (handle_ f) in ret (st_times <$> st).

Definition setFileTimes (f : PlatformFile) (times : Z * Z) : M S bool :=
  if negb (isValid f) then ret false
  else let* rc := sys_futimes (handle_ f) times in ret (rc =? 0).

(** The bytes, or [None] for a negative result. *)
Definition PlatformFile_read (f : PlatformFile) (nbyte : Z) : M S (option string * PlatformFile) :=
  if negb (isValid f) then ret (None, f)
  else
    let* r := sys_read (handle_ f) nbyte in
    let pending := match r with
                   | inr errno => errno =? EAGAIN
                   | inl data => negb (is_empty data) && (Z.of_nat (String.length data) <? nbyte)
                   end in
    ret (match r with inl data => Some data | inr _ => None end,
         mkFile (fname_ f) (handle_ f) (is_nonblock_ f) pending).

Definition PlatformFile_write (f : PlatformFile) (buf : string) : M S (Z * PlatformFile) :=
  if negb (isValid f) then ret (-1, f)
  else
    let* r := sys_write (handle_ f) buf in
    ret (match r with inl n => n | inr _ => -1 end,
         mkFile (fname_ f) (handle_ f) (is_nonblock_ f) (match r with inr e => e =? EAGAIN | _ => false end)).

Definition platformChmod (path : string) (perms : Z) : M S bool :=
  let* rc := sys_chmod path perms in ret (rc =? 0).

(** ** Paths *)

Definition pathExists (path : string) : M S Status :=
  if is_empty path then ret (mkStatus 1 "-1")
  else
    let* (exists_, ec, message) := fs_exists path in
    ret (if negb exists_ || negb (ec =? 0) then mkStatus 1 message else mkStatus 0 "1").

Definition isDirectory (path : string) : M S Status :=
  let* (dir, ec, message) := fs_is_directory path in
  ret (if dir : bool then mkStatus 0 "OK"
       else if ec =? 0 then mkStatus 1 ("Path is not a directory: " +:+ path)
       else mkStatus ec message).

Definition isWritable (path : string) (effective : bool) : M S Status :=
  let* path_exists := pathExists path in
  if negb (Status_ok path_exists) then ret path_exists
  else if effective then
    let* fd := PlatformFile_new path (Z.lor PF_OPEN_EXISTING PF_WRITE) (-1) in
    PlatformFile_close fd ;;; ret (Status1 (if isValid fd then 0 else 1))
  else
    let* rc := sys_access path W_OK in
    ret (if rc =? 0 then mkStatus 0 "OK" else mkStatus 1 ("Path is not writable: " +:+ path)).

Definition isReadable (path : string) (effective : bool) : M S Status :=
  let* path_exists := pathExists path in
  if negb (Status_ok path_exists) then ret path_exists
  else if effective then
    let* fd := PlatformFile_new path (Z.lor PF_OPEN_EXISTING PF_READ) (-1) in
    PlatformFile_close fd ;;; ret (Status1 (if isValid fd then 0 else 1))
  else
    let* rc := sys_access path R_OK in
    ret (if rc =? 0 then mkStatus 0 "OK" else mkStatus 1 ("Path is not readable: " +:+ path)).

Definition movePath (from to : string) : M S Status :=
  if is_empty from || is_empty to then ret (mkStatus 1 "Cannot copy empty paths")
  else
    let* (ec, message) := fs_rename from to in
    ret (if negb (ec =? 0) then mkStatus 1 message else Status1 0).

Definition removePath (path : string) : M S Status :=
  let* (removed_files, ec, message) := fs_remove_all path in
  ret (if negb (ec =? 0) then mkStatus 1 message else mkStatus 0 (to_string removed_files)).

Definition quote_char : string := String "034" "".

Definition createDirectory (dir_path : string) (recursive ignore_existence : bool) : M S Status :=
  let* (is_created, err, message) :=
    (if recursive then fs_create_directories dir_path else fs_create_directory dir_path) in
  if is_created : bool then ret Status_success
  else
    let* exists_ := (if ignore_existence
                     then let* st := isDirectory dir_path in ret (Status_ok st) else ret false) in
    ret (if exists_ : bool then Status_success
         else Status_failure ("Could not create directory " +:+ quote_char +:+ dir_path +:+ quote_char
                              +:+ (if err =? 0 then "" else ": " +:+ message))).

Definition socketExists (path : string) (remove_socket : bool) : M S Status :=
  let* found := pathExists path in
  if Status_ok found then
    let* writable := isWritable path false in
    if negb (Status_ok writable) then ret (mkStatus 1 ("Cannot write extension socket: " +:+ path))
    else if remove_socket then
      let* removed := removePath path in
      ret (if Status_ok removed then Status1 0 else mkStatus 1 ("Cannot remove extension socket: " +:+ path))
    else ret (Status1 0)
  else
    let* parent := pathExists (path_parent path) in
    if negb (Status_ok parent) then ret (mkStatus 1 ("Extension socket directory missing: " +:+ path))
    else
      let* writable := isWritable (path_parent path) false in
      if negb (Status_ok writable) then ret (mkStatus 1 ("Cannot create extension socket: " +:+ path))
      else ret (if remove_socket then Status1 0 else mkStatus 1 "Socket does not exist").

(** ** Reading and writing *)

Definition writeTextFile (path content : string) (permissions mode : Z) : M S Status :=
  let* output_fd := PlatformFile_new path mode permissions in
  if negb (isValid output_fd) then ret (mkStatus 1 ("Could not create file: " +:+ path))
  else
    let* ok := platformChmod path permissions in
    if negb ok then
      PlatformFile_close output_fd ;;; ret (mkStatus 1 ("Failed to change permissions for file: " +:+ path))
    else
      let* (bytes, fd) := PlatformFile_write output_fd content in
      PlatformFile_close fd ;;;
      ret (if negb (u64 bytes =? Z.of_nat (String.length content))
           then mkStatus 1 ("Failed to write contents to file: " +:+ path) else mkStatus 0 "OK").

(** A buffer of [n] characters that starts with the data. *)
Fixpoint nuls (n : nat) : string := match n with O => "" | Datatypes.S n => String "000" (nuls n) end.
Definition buffer (n : Z) (data : string) : string := data +:+ nuls (Z.to_nat n - String.length data).

Definition limit_status : Status := mkStatus 1 "File exceeds read limits".

(** How a loop over the file ends. The buffers given to the predicate, with the sizes
    given for them, are collected in order. *)
Inductive read_end := ReadDone | ReadLimit | ReadUnfinished.

Fixpoint block_loop (fuel : nat) (fd : PlatformFile) (file_size read_max block_size total_bytes : Z)
    : M S (read_end * list (string * Z) * PlatformFile) :=
  match fuel with
  | O => ret (ReadUnfinished, [], fd)
  | Datatypes.S fuel =>
      let* (part, fd) := PlatformFile_read fd block_size in
      match part with
      | None | Some "" => ret (ReadDone, [], fd)
      | Some data =>
          let part_bytes := Z.of_nat (String.length data) in
          let total_bytes := total_bytes + part_bytes in
          if read_max <=? total_bytes then ret (ReadLimit, [], fd)
          else
            let overflow := (0 <? file_size) && (file_size <? total_bytes) in
            let part_bytes := if overflow then part_bytes - (total_bytes - file_size) else part_bytes in
            let given := (buffer block_size data, part_bytes) in
            if (0 <? part_bytes) && negb overflow then
              let* (e, parts, fd) := block_loop fuel fd file_size read_max block_size total_bytes in
              ret (e, given :: parts, fd)
            else ret (ReadDone, [given], fd)
      end
  end.

(** The bytes read so far, and whether the loop ended. *)
Fixpoint whole_loop (fuel : nat) (fd : PlatformFile) (file_size : Z) (content : string)
    : M S (option string * PlatformFile) :=
  match fuel with
  | O => ret (None, fd)
  | Datatypes.S fuel =>
      let* (part, fd) := PlatformFile_read fd (file_size - Z.of_nat (String.length content)) in
      let content := content +:+ default "" part in
      if has_pending_io_ fd then whole_loop fuel fd file_size content else ret (Some content, fd)
  end.



Definition readFile (fuel : nat) (FLAGS_read_max : Z) (FLAGS_disable_forensic : bool)
    (path : string) (size block_size : Z) (dry_run preserve_time blocking : bool)
    : M S (read_end * Status * list (string * Z)) :=
  let mode := Z.lor (Z.lor PF_OPEN_EXISTING PF_READ) (if blocking then 0 else PF_NONBLOCK) in
  let* fd := PlatformFile_new path mode (-1) in
  if negb (isValid fd) then ret (ReadDone, mkStatus 1 ("Cannot open file for reading: " +:+ path), [])
  else
    let finish fd (r : read_end * Status * list (string * Z)) := PlatformFile_close fd ;;; ret r in
    let* file_size := PlatformFile_size fd in
    let* special := isSpecialFile fd in
    let file_size := i64 (if special && (0 <? size) then size else file_size) in
    let read_max := i64 FLAGS_read_max in
    if read_max <? file_size then finish fd (ReadDone, limit_status, [])
    else if dry_run then
      let* c := fs_canonical path in finish fd (ReadDone, mkStatus 0 c, [])
    else
      let* times := getFileTimes fd in
      let* (e, parts, fd) :=
        (if (file_size =? 0) || (0 <? block_size) then
           block_loop fuel fd file_size read_max (if block_size <? 4096 then 4096 else block_size) 0
         else
           let* (content, fd) := whole_loop fuel fd file_size "" in
           ret (match content with
                | None => (ReadUnfinished, [], fd)
                | Some content => (ReadDone, [(buffer file_size content, file_size)], fd)
                end)) in
      match e with
      | ReadUnfinished => finish fd (ReadUnfinished, mkStatus 0 "", parts)
      | ReadLimit => finish fd (ReadDone, limit_status, parts)
      | ReadDone =>
          (match times with
           | Some times => if preserve_time && negb FLAGS_disable_forensic
                           then setFileTimes fd times ;;; ret tt else ret tt
           | None => ret tt
           end) ;;;
          finish fd (ReadDone, mkStatus 0 "OK", parts)
      end.

(** What the predicate of the second overload makes of the buffers. *)
Definition content_step (content : string) (part : string * Z) : string :=
  content +:+ (if Z.of_nat (String.length part.1) =? part.2 then part.1
               else String.substring 0 (Z.to_nat part.2) part.1).

(** The overload that collects the content. *)
Definition readFile_content (fuel : nat) (FLAGS_read_max : Z) (FLAGS_disable_forensic : bool)
    (path : string) (size : Z) (dry_run preserve_time blocking : bool) : M S (read_end * Status * string) :=
  let* (e, st, parts) := readFile fuel FLAGS_read_max FLAGS_disable_forensic path size 4096 dry_run preserve_time blocking in
  ret (e, st, foldl content_step "" parts).

(** ** Patterns *)

Definition GLOB_FILES : Z := 1.
Definition GLOB_FOLDERS : Z := 2.
Definition GLOB_ALL : Z := 3.
Definition GLOB_NO_CANON : Z := 4.
Definition kMaxRecursiveGlobs : nat := 64.

(** The character at a position; [NUL] at the end. *)
Definition at_ (s : string) (i : nat) : ascii := default "000"%char (String.get i s).

Definition is_slash (c : ascii) : bool := bool_decide (c = "/"%char) || bool_decide (c = "\"%char).

(** Whether a pattern is made absolute. *)
Definition is_relative (pattern : string) : bool :=
  (is_empty pattern ||
   (negb (is_slash (at_ pattern 0)) &&
    ((3 <? String.length pattern)%nat && negb (bool_decide (at_ pattern 1 = ":"%char)) && negb (is_slash (at_ pattern 2)))))
  && negb (bool_decide (at_ pattern 0 = "~"%char)).

Definition star_index (s : string) : nat :=
  match find_str "*" s with Some i => i | None => String.length s end.

(** [make_preferred] changes nothing on POSIX. *)
Definition replaceGlobWildcards (pattern : string) (limits : Z) : M S string :=
  let pattern := match find_str "%" pattern with Some _ => boost_replace_all pattern "%" "*" | None => pattern end in
  let* pattern := (if is_relative pattern then
                     let* cwd := fs_current_path in
                     ret (match cwd with Some cwd => path_append cwd pattern | None => pattern end)
                   else ret pattern) in
  let base := String.substring 0 (star_index pattern) pattern in
  if is_empty base then ret pattern
  else
    let* canonicalized := (if Z.land limits GLOB_NO_CANON =? 0 then fs_canonical base else ret base) in
    if negb (is_empty canonicalized) && negb (bool_decide (canonicalized = base)) then
      let* dir := isDirectory canonicalized in
      let canonicalized := if Status_ok dir then canonicalized +:+ "/" else canonicalized in
      ret (canonicalized +:+ String.substring (String.length base) (String.length pattern) pattern)
    else ret pattern.

Definition last_char (s : string) : option ascii := last (chars s).

(** The second component is the set of inodes seen; a result is a directory when it
    ends in a slash. *)
Definition checkForLoops (dsym_inos : gset Z) (path : string) : M S (bool * gset Z) :=
  if negb (bool_decide (last_char path = Some "/"%char)) then ret (false, dsym_inos)
  else
    let* st := sys_lstat (String.substring 0 (String.length path - 1) path) in
    match st with
    | None => ret (false, dsym_inos)
    | Some st =>
        if Z.land (st_mode st) 0xf000 =? 0 then ret (false, dsym_inos)
        else if decide (i32 (st_ino st) ∈ dsym_inos) then ret (true, dsym_inos)
        else ret (false, {[i32 (st_ino st)]} ∪ dsym_inos)
    end.

Fixpoint check_all (dsym_inos : gset Z) (l : list string) : M S (bool * gset Z) :=
  match l with
  | [] => ret (false, dsym_inos)
  | path :: l =>
      let* (loop, dsym_inos) := checkForLoops dsym_inos path in
      let* (loops, dsym_inos) := check_all dsym_inos l in
      ret (loop || loops, dsym_inos)
  end.

(** [path.rfind("**")]. *)
Fixpoint rfind_stars (i : nat) (path : string) : option nat :=
  match path with
  | String "*" ((String "*" _) as rest) =>
      match rfind_stars (Datatypes.S i) rest with Some j => Some j | None => Some i end
  | String _ rest => rfind_stars (Datatypes.S i) rest
  | "" => None
  end.

(** Whether the pattern ends in a double star, up to one more character. *)
Definition is_recursive (path : string) : bool :=
  match rfind_stars 0 path with
  | None => false
  | Some wild => negb (wild + 3 <? String.length path)%nat
  end.

(** At most that many rounds; a loop makes the round the last one. *)
Fixpoint glob_rounds (rounds : nat) (path : string) (dsym_inos : gset Z) (results : list string)
    : M S (list string) :=
  match rounds with
  | O => ret results
  | Datatypes.S rounds =>
      let* found := sys_glob path in
      let* (loop, dsym_inos) := check_all dsym_inos found in
      let results := results ++ found in
      if bool_decide (found = []) || negb (is_recursive path) || loop then ret results
      else glob_rounds rounds (path +:+ "/**") dsym_inos results
  end.

Definition within_limits (limits : Z) (found : string) : bool :=
  let folder := match last_char found with Some c => is_slash c | None => false end in
  if folder then negb (Z.land limits GLOB_FOLDERS =? 0) else negb (Z.land limits GLOB_FILES =? 0).

(** [results] already holds what the caller put there. *)
Definition genGlobs (path : string) (results : list string) (limits : Z) : M S (list string) :=
  let* path := replaceGlobWildcards path limits in
  let* results := glob_rounds (kMaxRecursiveGlobs - 1) path ∅ results in
  ret (List.filter (within_limits limits) results).

Definition resolveFilePattern (fs_path : string) (results : list string) (setting : Z) : M S (Status * list string) :=
  let* results := genGlobs fs_path results setting in
  ret (mkStatus 0 "OK", results).

Definition listInAbsoluteDirectory (path : string) (results : list string) (limits : Z) : M S (Status * list string) :=
  let star := bool_decide (path_filename path = "*") in
  let* found := (if star then pathExists (path_parent path) else ret Status_success) in
  if negb (Status_ok found) then ret (mkStatus 1 ("Directory not found: " +:+ path_parent path), results)
  else
    let* dir := (if star then isDirectory (path_parent path) else ret Status_success) in
    if negb (Status_ok dir) then ret (mkStatus 1 ("Path not a directory: " +:+ path_parent path), results)
    else
      let* results := genGlobs path results limits in
      ret (mkStatus 0 "OK", results).

Definition listFilesInDirectory (path : string) (results : list string) (recursive : bool) : M S (Status * list string) :=
  listInAbsoluteDirectory (path_append path (if recursive then "**" else "*")) results GLOB_FILES.

Definition listDirectoriesInDirectory (path : string) (results : list string) (recursive : bool)
    : M S (Status * list string) :=
  listInAbsoluteDirectory (path_append path (if recursive then "**" else "*")) results GLOB_FOLDERS.

(** ** Permissions *)

Definition platformIsTmpDir (dir : string) : M S Status :=
  let* st := sys_stat dir in
  ret (match st with
       | None => mkStatus (-1) ""
       | Some st => if Z.land (st_mode st) (Z.shiftl 1 9) =? 0 then mkStatus 1 "" else mkStatus 0 "OK"
       end).

Definition platformIsFileAccessible (path : string) : M S Status :=
  let* st := sys_lstat path in
  ret (match st with None => mkStatus 1 "File is not acccessible" | Some _ => mkStatus 0 "OK" end).

Definition safePermissions (FLAGS_allow_unsafe : bool) (dir path : string) (executable : bool) : M S bool :=
  let* accessible := platformIsFileAccessible path in
  if negb (Status_ok accessible) then ret false
  else if FLAGS_allow_unsafe then ret true
  else
    let* result := platformIsTmpDir dir in
    if Status_ok result || (code result <? 0) then ret false
    else
      let* fd := PlatformFile_new path (Z.lor PF_OPEN_EXISTING PF_READ) (-1) in
      let finish (b : bool) := PlatformFile_close fd ;;; ret b in
      if negb (isValid fd) then ret false
      else
        let* result := isDirectory path in
        if Status_ok result || (code result <? 0) then finish false
        else
          let* root := isOwnerRoot fd in
          let* owned := (if Status_ok root then ret true
                         else let* user := isOwnerCurrentUser fd in ret (Status_ok user)) in
          if owned : bool then
            let* result := isExecutable fd in
            if executable then
              if 0 <? code result then finish false
              else
                let* safe := hasSafePermissions fd in
                finish (Status_ok safe)
            else finish true
          else finish false.

(** The last four octal digits of the mode. *)
Definition lsperms (mode : Z) : string :=
  let digit k := String (Ascii.ascii_of_nat (48 + Z.to_nat (Z.land (Z.shiftr mode k) 7))) "" in
  digit 9 +:+ digit 6 +:+ digit 3 +:+ digit 0.

End Files.
