(* ===== verification/FilesystemFacts.v ===== *)
(** * Files: what is read, what is loaded, what a pattern expands to *)
From S2P Require Import Prelude Boost Conversions Filesystem.
Local Open Scope Z_scope.

(** ** Prefixes of strings *)

Lemma substring_app_le n a b : (n <= String.length a)%nat ->
  String.substring 0 n (a +:+ b) = String.substring 0 n a.
Proof.
  revert n. induction a as [|c a IH]; intros [|n] Hn; simpl in *; try done; [by destruct b | lia |].
  f_equal. apply IH. lia.
Qed.

Lemma substring_app_ge n a b : (String.length a <= n)%nat ->
  String.substring 0 n (a +:+ b) = a +:+ String.substring 0 (n - String.length a) b.
Proof.
  revert n. induction a as [|c a IH]; intros n Hn; simpl in *; [by rewrite Nat.sub_0_r|].
  destruct n as [|n]; [lia|]. change (String c a +:+ ?x) with (String c (a +:+ x)). simpl.
  rewrite IH by lia. done.
Qed.

Lemma length_nuls n : String.length (nuls n) = n.
Proof. induction n; simpl; congruence. Qed.

Lemma length_string_app a b : String.length (a +:+ b) = (String.length a + String.length b)%nat.
Proof. induction a as [|c a IH]; simpl; [done | by rewrite IH]. Qed.

Lemma buffer_length n data : (String.length data <= Z.to_nat n)%nat -> String.length (buffer n data) = Z.to_nat n.
Proof. intros. unfold buffer. rewrite length_string_app, length_nuls. lia. Qed.

(** What the collecting predicate keeps of a buffer. *)
Lemma content_step_data acc n data k : (String.length data <= Z.to_nat n)%nat -> 0 <= k <= Z.of_nat (String.length data) ->
  content_step acc (buffer n data, k) = acc +:+ String.substring 0 (Z.to_nat k) data.
Proof.
  intros Hl Hk. unfold content_step. cbn [fst snd]. f_equal.
  destruct (Z.eqb_spec (Z.of_nat (String.length (buffer n data))) k) as [E|E].
  - rewrite buffer_length in E by done. unfold buffer.
    assert (String.length data = Z.to_nat n) as En by lia. rewrite En, Nat.sub_diag. simpl.
    by rewrite <- E, Nat2Z.id, <- En, substring_all, app_nil_r_str.
  - unfold buffer. apply substring_app_le. lia.
Qed.

(** ** Reading *)

Section Reading.
Context {S : Type} {P : Posix S} {B : Boost}.

(** The results of reading until the end of the file, [n] bytes at a time at most. *)
Fixpoint delivers (h n : Z) (chunks : list string) (s s' : S) : Prop :=
  match chunks with
  | [] => sys_read h n s = (Ok (inl ""), s')
  | c :: chunks => c <> "" /\ Z.of_nat (String.length c) <= n /\
                   exists s1, sys_read h n s = (Ok (inl c), s1) /\ delivers h n chunks s1 s'
  end.

Definition all_of (chunks : list string) : string := foldr (fun a b => a +:+ b) "" chunks.

(** What is kept of a file of the size: everything when the size is not known. *)
Definition kept (size : Z) (s : string) : string :=
  if size =? 0 then s else String.substring 0 (Z.to_nat size) s.

Lemma read_run fd n c s s1 : isValid fd = true -> sys_read (handle_ fd) n s = (Ok (inl c), s1) ->
  exists fd', PlatformFile_read fd n s = (Ok (Some c, fd'), s1) /\ handle_ fd' = handle_ fd.
Proof.
  intros Hv E. unfold PlatformFile_read. rewrite Hv. cbn [negb]. rewrite (bind_run _ _ _ _ _ E). by eexists.
Qed.

Lemma isValid_handle fd fd' : handle_ fd' = handle_ fd -> isValid fd' = isValid fd.
Proof. intros H. unfold isValid. by rewrite H. Qed.

Lemma block_loop_spec fuel chunks fd size read_max total s s' acc :
  isValid fd = true -> delivers (handle_ fd) 4096 chunks s s' -> (length chunks < fuel)%nat ->
  0 <= total -> (size = 0 \/ (0 < size /\ total <= size)) ->
  total + Z.of_nat (String.length (all_of chunks)) < read_max ->
  exists parts fd' s2, block_loop fuel fd size read_max 4096 total s = (Ok (ReadDone, parts, fd'), s2) /\
    handle_ fd' = handle_ fd /\
    foldl content_step acc parts = acc +:+ (if size =? 0 then all_of chunks
                                            else String.substring 0 (Z.to_nat (size - total)) (all_of chunks)).
Proof.
  revert chunks fd total s acc. induction fuel as [|fuel IH]; intros chunks fd total s acc Hv Hd Hf Ht Hs Hm; [lia|].
  destruct chunks as [|c chunks]; simpl in Hd.
  - destruct (read_run fd 4096 "" s s' Hv Hd) as (fd' & E & Hh). cbn [block_loop].
    rewrite (bind_run _ _ _ _ _ E). exists [], fd', s'. split; [done|]. split; [done|]. simpl.
    destruct (size =? 0); [|destruct (Z.to_nat _)]; by rewrite app_nil_r_str.
  - destruct Hd as (Hne & Hlen & s1 & Er & Hd). destruct (read_run fd 4096 c s s1 Hv Er) as (fd' & E & Hh).
    cbn [block_loop]. rewrite (bind_run _ _ _ _ _ E). cbn [all_of foldr] in *.
    fold (all_of chunks) in *. rewrite length_string_app in Hm.
    destruct c as [|x c]; [done|]. set (data := String x c) in *.
    assert (0 < Z.of_nat (String.length data)) as Hp by (simpl; lia).
    destruct (Z.leb_spec read_max (total + Z.of_nat (String.length data))); [lia|].
    destruct ((0 <? size) && (size <? total + Z.of_nat (String.length data))) eqn:Eo.
    + apply andb_true_iff in Eo as [E1%Z.ltb_lt E2%Z.ltb_lt]. rewrite andb_false_r.
      eexists _, fd', s1. split; [done|]. split; [done|]. cbn [foldl].
      destruct Hs as [->|[Hs1 Hs2]]; [lia|].
      replace (Z.of_nat (String.length data) - (total + Z.of_nat (String.length data) - size)) with (size - total) by lia.
      rewrite content_step_data by lia. f_equal. destruct (Z.eqb_spec size 0); [lia|].
      symmetry. apply substring_app_le. lia.
    + cbn [negb]. rewrite andb_true_r. destruct (Z.ltb_spec 0 (Z.of_nat (String.length data))); [|lia].
      assert (size = 0 \/ (0 < size /\ total + Z.of_nat (String.length data) <= size)) as Hs'.
      { apply andb_false_iff in Eo as [E1%Z.ltb_ge|E1%Z.ltb_ge]; [left; lia|]. destruct Hs as [->|[? ?]]; [by left | by right]. }
      edestruct (IH chunks fd' (total + Z.of_nat (String.length data)) s1 (acc +:+ data))
        as (parts & fd2 & s2 & E2 & Hh2 & Hc); [by rewrite (isValid_handle fd fd') | by rewrite Hh | simpl in Hf; lia | lia | done | lia |].
      rewrite (bind_run _ _ _ _ _ E2). eexists _, fd2, s2. split; [done|]. split; [congruence|].
      cbn [foldl]. rewrite content_step_data by lia. rewrite Nat2Z.id, substring_all, Hc.
      rewrite app_assoc_str. f_equal.
      destruct (Z.eqb_spec size 0); [done|]. destruct Hs' as [|[Hs1 Hs2]]; [lia|].
      rewrite substring_app_ge by lia. f_equal. f_equal. lia.
Qed.

(** A file that opens: its handle, its size, and what reading it in blocks gives. *)
Record readable (path : string) (h : Z) (st : stat) (chunks : list string) (s : S) : Prop := {
  rd_exists m : exists s1 m', fs_exists path s = (Ok (true, 0, m'), s1) /\
    exists s2, sys_open path m (-1) s1 = (Ok h, s2) /\ exists s3, delivers h 4096 chunks s2 s3;
  rd_valid : h <> -1;
  rd_stat s : sys_fstat h s = (Ok (Some st), s);
  rd_size : 0 <= st_size st < 2 ^ 63;
  rd_close s : exists s', sys_close h s = (Ok tt, s');
}.

Lemma i64_small z : 0 <= z < 2 ^ 63 -> i64 z = z.
Proof. intros. unfold i64. rewrite Z.mod_small; lia. Qed.

(** From the opening on, up to the loop. *)
Lemma readFile_run path h st chunks s blocking : readable path h st chunks s ->
  exists fd s2 s3, handle_ fd = h /\ isValid fd = true /\ delivers h 4096 chunks s2 s3 /\
    forall fuel read_max forensic, 0 <= read_max < 2 ^ 63 -> st_size st <= read_max ->
    readFile fuel read_max forensic path 0 4096 false false blocking s
    = (let* (e, parts, fd) := block_loop fuel fd (st_size st) read_max 4096 0 in
       match e with
       | ReadUnfinished => PlatformFile_close fd ;;; ret (ReadUnfinished, mkStatus 0 "", parts)
       | ReadLimit => PlatformFile_close fd ;;; ret (ReadDone, limit_status, parts)
       | ReadDone => ret tt ;;; PlatformFile_close fd ;;; ret (ReadDone, mkStatus 0 "OK", parts)
       end) s2.
Proof.
  intros [Hex Hv Hst Hsz Hcl].
  set (mode := Z.lor (Z.lor PF_OPEN_EXISTING PF_READ) (if blocking then 0 else PF_NONBLOCK)).
  set (oflag := Z.lor (Z.lor (Z.lor (access_flag mode) 0) (if has_all mode PF_NONBLOCK then O_NONBLOCK else 0))
                     (if has_all mode PF_APPEND then O_APPEND else 0)).
  destruct (Hex oflag) as (s1 & m & E1 & s2 & E2 & s3 & Hd).
  set (fd := mkFile path h (has_all mode PF_NONBLOCK) false).
  assert (isValid fd = true) as Hvf by (unfold isValid, fd; simpl; apply negb_true_iff, Z.eqb_neq; done).
  exists fd, s2, s3. split; [done|]. split; [done|]. split; [done|].
  intros fuel read_max forensic Hr Hle. unfold readFile. fold mode.
  assert (PlatformFile_new path mode (-1) s = (Ok fd, s2)) as En.
  { unfold PlatformFile_new. assert (option_flag mode = (0, false, true)) as -> by (by destruct blocking).
    rewrite (bind_run _ _ _ false s1).
    2: { rewrite (bind_run _ _ _ _ _ E1). done. }
    unfold oflag in E2. rewrite andb_false_r. rewrite (bind_run _ _ _ _ _ E2). done. }
  rewrite (bind_run _ _ _ _ _ En), Hvf. cbn [negb].
  assert (forall s, PlatformFile_size fd s = (Ok (st_size st), s)) as Hs.
  { intros s0. unfold PlatformFile_size. rewrite (bind_run _ _ _ _ _ (Hst s0)). unfold ret. do 2 f_equal.
    apply u64_small. unfold in_u64. lia. }
  rewrite (bind_run _ _ _ _ _ (Hs s2)).
  rewrite (bind_run _ _ _ (st_size st =? 0) s2) by (unfold isSpecialFile; by rewrite (bind_run _ _ _ _ _ (Hs s2))).
  change (0 <? 0) with false. rewrite andb_false_r, !i64_small by lia.
  destruct (Z.ltb_spec read_max (st_size st)); [lia|].
  rewrite (bind_run _ _ _ (Some (st_times st)) s2).
  2: { unfold getFileTimes. rewrite Hvf. cbn [negb]. by rewrite (bind_run _ _ _ _ _ (Hst s2)). }
  change (0 <? 4096) with true. rewrite orb_true_r. change (4096 <? 4096) with false. done.
Qed.

(** C18: A file is read whole. If a file opens and its size is within the limit, and
    what reading gives stays below the limit, then whatever the sizes of the single
    reads the content is all of it; of a file that has grown meanwhile, the part up
    to the size it had; of a special file, without a size, everything. As many
    turns as there are reads, and one more, are enough. *)
Theorem file_is_read_whole (path : string) (h : Z) (st : stat) (chunks : list string) (s : S)
    (fuel : nat) (read_max : Z) (forensic blocking : bool) :
  readable path h st chunks s -> 0 <= read_max < 2 ^ 63 -> st_size st <= read_max ->
  Z.of_nat (String.length (all_of chunks)) < read_max -> (length chunks < fuel)%nat ->
  exists s', readFile_content fuel read_max forensic path 0 false false blocking s
    = (Ok (ReadDone, mkStatus 0 "OK", kept (st_size st) (all_of chunks)), s').
Proof.
  intros Hr Hm Hle Htot Hf. destruct (readFile_run path h st chunks s blocking Hr) as (fd & s2 & s3 & Hh & Hv & Hd & Hrun).
  pose proof (rd_size _ _ _ _ _ Hr) as Hsz.
  destruct (block_loop_spec fuel chunks fd (st_size st) read_max 0 s2 s3 "") as (parts & fd' & s4 & E & Hh' & Hc);
    [done | by rewrite Hh | done | lia | lia | lia |].
  destruct (rd_close _ _ _ _ _ Hr s4) as [s5 E5].
  unfold readFile_content. exists s5.
  rewrite (bind_run _ _ _ (ReadDone, mkStatus 0 "OK", parts) s5).
  - unfold ret. rewrite Hc, Z.sub_0_r. done.
  - rewrite Hrun by done. rewrite (bind_run _ _ _ _ _ E), bind_ret.
    unfold PlatformFile_close. rewrite (isValid_handle fd fd' Hh'), Hv, Hh', Hh. by rewrite (bind_run _ _ _ _ _ E5).
Qed.

Lemma block_loop_limit fuel chunks fd size read_max total s s' :
  isValid fd = true -> delivers (handle_ fd) 4096 chunks s s' -> (length chunks < fuel)%nat ->
  0 <= total -> total + Z.of_nat (String.length (all_of chunks)) = size -> size = read_max -> chunks <> [] ->
  exists parts fd' s2, block_loop fuel fd size read_max 4096 total s = (Ok (ReadLimit, parts, fd'), s2) /\
    handle_ fd' = handle_ fd.
Proof.
  revert chunks fd total s. induction fuel as [|fuel IH]; intros chunks fd total s Hv Hd Hf Ht Hs Hm Hne; [lia|].
  destruct chunks as [|c chunks]; [done|]. destruct Hd as (Hnc & Hlen & s1 & Er & Hd).
  destruct (read_run fd 4096 c s s1 Hv Er) as (fd' & E & Hh). cbn [block_loop]. rewrite (bind_run _ _ _ _ _ E).
  cbn [all_of foldr] in Hs. fold (all_of chunks) in Hs. rewrite length_string_app in Hs.
  destruct c as [|x c]; [done|]. set (data := String x c) in *.
  assert (0 < Z.of_nat (String.length data)) as Hp by (simpl; lia).
  destruct (Z.leb_spec read_max (total + Z.of_nat (String.length data))); [by eexists _, fd', s1|].
  destruct (Z.ltb_spec size (total + Z.of_nat (String.length data))); [lia|]. rewrite andb_false_r. cbn [negb].
  rewrite andb_true_r. destruct (Z.ltb_spec 0 (Z.of_nat (String.length data))); [|lia].
  destruct (IH chunks fd' (total + Z.of_nat (String.length data)) s1) as (parts & fd2 & s2 & E2 & Hh2);
    [by rewrite (isValid_handle fd fd') | by rewrite Hh | simpl in Hf; lia | lia | lia | done | |].
  { intros ->. change (String.length (all_of [])) with 0%nat in Hs. lia. }
  rewrite (bind_run _ _ _ _ _ E2). eexists _, fd2, s2. split; [done | congruence].
Qed.

(** The limit itself is not allowed. A file of exactly [read_max] bytes passes
    the test of its size, is read to the last block, and then refused. *)
Theorem file_of_the_limit_is_refused (path : string) (h : Z) (st : stat) (chunks : list string) (s : S)
    (fuel : nat) (read_max : Z) (forensic blocking : bool) :
  readable path h st chunks s -> 0 < read_max < 2 ^ 63 -> st_size st = read_max ->
  Z.of_nat (String.length (all_of chunks)) = read_max -> (length chunks < fuel)%nat ->
  exists content s', readFile_content fuel read_max forensic path 0 false false blocking s
    = (Ok (ReadDone, limit_status, content), s').
Proof.
  intros Hr Hm Hle Htot Hf. destruct (readFile_run path h st chunks s blocking Hr) as (fd & s2 & s3 & Hh & Hv & Hd & Hrun).
  destruct (block_loop_limit fuel chunks fd (st_size st) read_max 0 s2 s3) as (parts & fd' & s4 & E & Hh');
    [done | by rewrite Hh | done | lia | lia | done | |].
  { intros ->. simpl in Htot. lia. }
  destruct (rd_close _ _ _ _ _ Hr s4) as [s5 E5].
  unfold readFile_content. eexists _, s5.
  rewrite (bind_run _ _ _ (ReadDone, limit_status, parts) s5); [done|].
  rewrite Hrun by lia. rewrite (bind_run _ _ _ _ _ E).
  unfold PlatformFile_close. rewrite (isValid_handle fd fd' Hh'), Hv, Hh', Hh. by rewrite (bind_run _ _ _ _ _ E5).
Qed.
End Reading.

(** ** Permissions *)

Section Permissions.
Context {S : Type} {P : Posix S}.

(** Attributes that do not change while a file is checked. *)
Context (of_path of_link : string -> option stat) (of_handle : Z -> option stat) (uid : Z) (is_dir : string -> bool * Z * string).
Hypothesis stat_law : forall path s, sys_stat path s = (Ok (of_path path), s).
Hypothesis lstat_law : forall path s, sys_lstat path s = (Ok (of_link path), s).
Hypothesis fstat_law : forall h s, sys_fstat h s = (Ok (of_handle h), s).
Hypothesis getuid_law : forall s, sys_getuid s = (Ok uid, s).
Hypothesis dir_law : forall path s, fs_is_directory path s = (Ok (is_dir path), s).

Lemma land_bit_clear m k : (Z.land m (Z.shiftl 1 k) =? 0) = true -> 0 <= k -> Z.testbit m k = false.
Proof.
  intros E%Z.eqb_eq Hk. apply (f_equal (fun z => Z.testbit z k)) in E.
  rewrite Z.land_spec, Z.shiftl_spec, Z.sub_diag, Z.bits_0 in E by done. by rewrite andb_true_r in E.
Qed.

Lemma land_bit_set m k : (Z.land m (Z.shiftl 1 k) =? Z.shiftl 1 k) = true -> 0 <= k -> Z.testbit m k = true.
Proof.
  intros E%Z.eqb_eq Hk. apply (f_equal (fun z => Z.testbit z k)) in E.
  rewrite Z.land_spec, Z.shiftl_spec, Z.sub_diag in E by done. by rewrite andb_true_r in E.
Qed.

Lemma opened_for_reading path s s2 fd :
  PlatformFile_new path (Z.lor PF_OPEN_EXISTING PF_READ) (-1) s = (Ok fd, s2) -> isValid fd = true ->
  exists s1, sys_open path O_RDONLY (-1) s1 = (Ok (handle_ fd), s2).
Proof.
  unfold PlatformFile_new. intros H Hv. change (option_flag (Z.lor PF_OPEN_EXISTING PF_READ)) with (0, false, true) in H.
  run_step H as missing s1 E. destruct missing.
  { injection H as <- <-. done. }
  run_step H as h s3 Eo. injection H as <- <-. by exists s1.
Qed.

Lemma owner_ok fd s : isValid fd = true ->
  (let* root := isOwnerRoot fd in
   if Status_ok root then ret true else let* user := isOwnerCurrentUser fd in ret (Status_ok user)) s
  = (Ok (match of_handle (handle_ fd) with
         | Some st => negb (st_uid st =? u32 (-1)) && ((st_uid st =? 0) || (st_uid st =? uid))
         | None => false
         end), s).
Proof.
  intros Hv. unfold isOwnerRoot, isOwnerCurrentUser, getFileOwner. rewrite Hv. cbn [negb].
  unfold bind, ret. rewrite !fstat_law. destruct (of_handle (handle_ fd)) as [st|] eqn:Eh; cbv beta iota.
  - destruct (st_uid st =? u32 (-1)) eqn:E1.
    { cbv beta iota. change (Status_ok (mkStatus (-1) "fstat error")) with false. cbv beta iota. rewrite fstat_law, Eh. cbv beta iota. by rewrite E1. }
    destruct (st_uid st =? 0); [done|]. cbv beta iota.
    change (Status_ok (mkStatus 1 "Owner is not root")) with false. cbv beta iota. rewrite fstat_law, Eh. cbv beta iota. rewrite E1, getuid_law.
    by destruct (st_uid st =? uid).
  - rewrite Z.eqb_refl. cbv beta iota. change (Status_ok (mkStatus (-1) "fstat error")) with false. cbv beta iota.
    rewrite fstat_law, Eh. cbv beta iota. by rewrite Z.eqb_refl.
Qed.

(** C27: What is loaded is safe. When the check passes for a program, with unsafe
    permissions not allowed, then the directory has no sticky bit, and the file is
    there, could be opened, is no directory, belongs to root or to the user, may be
    executed by its owner and not be written by others. *)
Theorem loaded_program_is_safe (dir path : string) (s s' : S) :
  safePermissions false dir path true s = (Ok true, s') ->
  is_Some (of_link path) /\ (is_dir path).1.1 = false /\
  (exists d, of_path dir = Some d /\ Z.testbit (st_mode d) 9 = false) /\
  exists h s1 s2 st, sys_open path O_RDONLY (-1) s1 = (Ok h, s2) /\ of_handle h = Some st /\
    (st_uid st = 0 \/ st_uid st = uid) /\ Z.testbit (st_mode st) 6 = true /\ Z.testbit (st_mode st) 1 = false.
Proof.
  unfold safePermissions, platformIsFileAccessible. intros H. run_step H as acc s0 E0.
  rewrite (bind_run _ _ _ _ _ (lstat_law path s)) in E0. injection E0 as <- <-.
  destruct (of_link path) as [lst|]; cbn [Status_ok code negb Z.eqb] in H; [|done].
  run_step H as tmp s1 E1. unfold platformIsTmpDir in E1. rewrite (bind_run _ _ _ _ _ (stat_law dir s)) in E1.
  injection E1 as <- <-. destruct (of_path dir) as [d|]; [|done].
  destruct (Z.land (st_mode d) (Z.shiftl 1 9) =? 0) eqn:Ed; [|done]. cbn [Status_ok code orb Z.eqb Z.ltb Z.compare] in H.
  run_step H as fd s2 E2. destruct (isValid fd) eqn:Hv; cbn [negb] in H; [|done].
  run_step H as di s3 E3. unfold isDirectory in E3. rewrite (bind_run _ _ _ _ _ (dir_law path s2)) in E3.
  destruct (is_dir path) as [[isd ec] msg] eqn:Edir. injection E3 as <- <-.
  match type of H with context [Status_ok ?x || _] => destruct (Status_ok x || (code x <? 0)) eqn:Eo end.
  { run_step H as u s4 E4. done. }
  assert (isd = false) as -> by (destruct isd; [done | done]).
  rewrite <- (bind_assoc (isOwnerRoot fd) (fun root => if Status_ok root then ret true
    else let* user := isOwnerCurrentUser fd in ret (Status_ok user))) in H.
  rewrite (bind_run _ _ _ _ _ (owner_ok fd s2 Hv)) in H.
  destruct (of_handle (handle_ fd)) as [st|] eqn:Eh; cbv iota in H.
  2: { run_step H as u s4 E4. done. }
  destruct (negb (st_uid st =? u32 (-1)) && ((st_uid st =? 0) || (st_uid st =? uid))) eqn:Ew; cbv iota in H.
  2: { run_step H as u s4 E4. done. }
  apply andb_true_iff in Ew as [_ Ew%orb_true_iff].
  run_step H as ex s4 E4. unfold isExecutable in E4. rewrite (bind_run _ _ _ _ _ (fstat_law (handle_ fd) s2)), Eh in E4.
  injection E4 as <- <-. destruct (has_all (st_mode st) S_IXUSR) eqn:Ex; [|run_step H as u s5 E5; done].
  cbn [code Z.ltb Z.compare] in H. run_step H as sa s5 E5. unfold hasSafePermissions in E5.
  rewrite (bind_run _ _ _ _ _ (fstat_law (handle_ fd) s2)), Eh in E5. injection E5 as <- <-.
  run_step H as u s6 E6. injection H as Hok _.
  destruct (Z.land (st_mode st) S_IWOTH =? 0) eqn:Esafe; [|done].
  split; [done|]. split; [done|]. split; [by exists d; split; [|by apply (land_bit_clear _ 9)]|].
  destruct (opened_for_reading path s s2 fd E2 Hv) as (s7 & Eop).
  exists (handle_ fd), s7, s2, st. split_and!; [done | done | | |].
  - destruct Ew as [Ew|Ew]; apply Z.eqb_eq in Ew; auto.
  - by apply (land_bit_set _ 6).
  - by apply (land_bit_clear _ 1).
Qed.
End Permissions.


(** ** Modes *)

Lemma lsperms_mod mode : lsperms mode = lsperms (mode mod 4096).
Proof.
  assert (forall k, 0 <= k -> k + 3 <= 12 -> Z.land (Z.shiftr mode k) 7 = Z.land (Z.shiftr (mode mod 4096) k) 7) as H.
  { intros k Hk Hk'. apply Z.bits_inj'. intros n Hn. rewrite !Z.land_spec, !Z.shiftr_spec by done.
    change 7 with (Z.ones 3). change 4096 with (2 ^ 12). destruct (decide (n < 3)).
    - rewrite Z.mod_pow2_bits_low by lia. done.
    - rewrite Z.ones_spec_high by lia. by rewrite !andb_false_r. }
  unfold lsperms. by rewrite !H by lia.
Qed.

(** The mode column is the mode in octal: reading the four characters with base 8
    gives the permission bits back. *)
Theorem lsperms_is_octal (mode : Z) : strto 8 (lsperms mode) = Some (false, mode mod 4096).
Proof.
  rewrite lsperms_mod. pose proof (Z.mod_pos_bound mode 4096 ltac:(lia)) as Hb. revert Hb.
  generalize (mode mod 4096). clear. intros m Hm.
  assert (forallb (fun m => bool_decide (strto 8 (lsperms m) = Some (false, m))) (seqZ 0 4096) = true) as H
    by (vm_compute; reflexivity).
  rewrite forallb_forall in H. apply (bool_decide_eq_true (strto 8 (lsperms m) = Some (false, m))), H, list_elem_of_In, elem_of_seqZ. lia.
Qed.

(** ** Patterns *)

Section Patterns.
Context {S : Type} {P : Posix S} {B : Boost}.
Context (glob : string -> list string) (of_link : string -> option stat).
Hypothesis glob_law : forall path s, sys_glob path s = (Ok (glob path), s).
Hypothesis lstat_law : forall path s, sys_lstat path s = (Ok (of_link path), s).

(** The directories among results, by their inodes. *)
Definition inode_of (path : string) : option Z :=
  if decide (last_char path = Some "/"%char) then
    st ← of_link (String.substring 0 (String.length path - 1) path);
    if Z.land (st_mode st) 0xf000 =? 0 then None else Some (i32 (st_ino st))
  else None.

Lemma checkForLoops_spec inos path s :
  checkForLoops inos path s
  = (Ok (match inode_of path with
         | Some i => if decide (i ∈ inos) then (true, inos) else (false, {[i]} ∪ inos)
         | None => (false, inos)
         end), s).
Proof.
  unfold checkForLoops, inode_of. case_decide as E; [rewrite bool_decide_true by done | by rewrite bool_decide_false].
  cbn [negb]. unfold bind. rewrite lstat_law. destruct (of_link _) as [st|]; [|done]. simpl.
  destruct (Z.land (st_mode st) 61440 =? 0); [done|]. by case_decide.
Qed.

Lemma check_all_spec inos l s : NoDup (omap inode_of l) -> (forall i, i ∈ omap inode_of l -> i ∉ inos) ->
  exists inos', check_all inos l s = (Ok (false, inos'), s) /\
    forall i, i ∈ inos' <-> i ∈ inos \/ i ∈ omap inode_of l.
Proof.
  revert inos. induction l as [|p l IH]; intros inos Hn Hi.
  { exists inos. split; [done|]. intros i. split; [by left | intros [?|H]; [done | by apply elem_of_nil in H]]. }
  cbn [check_all]. rewrite (bind_run _ _ _ _ _ (checkForLoops_spec inos p s)). simpl in Hn, Hi.
  destruct (inode_of p) as [i|] eqn:E.
  - apply NoDup_cons in Hn as [Hni Hn]. rewrite decide_False by (apply Hi; by left).
    destruct (IH ({[i]} ∪ inos)) as (inos' & E' & H); [done| |].
    { intros j Hj. rewrite not_elem_of_union, not_elem_of_singleton. split; [by intros -> | apply Hi; by right]. }
    rewrite (bind_run _ _ _ _ _ E'). exists inos'. split; [done|]. intros j. rewrite H.
    change (omap inode_of (p :: l)) with (match inode_of p with Some y => y :: omap inode_of l | None => omap inode_of l end).
    rewrite E. set_solver.
  - destruct (IH inos Hn Hi) as (inos' & E' & H). rewrite (bind_run _ _ _ _ _ E'). exists inos'. split; [done|].
    change (omap inode_of (p :: l)) with (match inode_of p with Some y => y :: omap inode_of l | None => omap inode_of l end).
    by rewrite E.
Qed.

(** The results by depth, as far as there are any. *)
Fixpoint levels (n : nat) (path : string) : list string :=
  match n with
  | O => []
  | Datatypes.S n => match glob path with [] => [] | found => found ++ levels n (path +:+ "/**") end
  end.

Lemma rfind_stars_app path i : rfind_stars i (path +:+ "/**") = Some (i + String.length path + 1)%nat.
Proof.
  revert i. induction path as [|c path IH]; intros i; [simpl; f_equal; lia|].
  change (String c path +:+ "/**") with (String c (path +:+ "/**")).
  assert (rfind_stars i (String c (path +:+ "/**")) = Some (i + String.length (String c path) + 1)%nat
    \/ rfind_stars i (String c (path +:+ "/**")) = rfind_stars (Datatypes.S i) (path +:+ "/**")) as [H|H]; [| done |].
  2: { rewrite H, IH. f_equal. simpl. lia. }
  cbn [rfind_stars]. rewrite IH.
  repeat case_match; try (by right); left; f_equal; simpl; lia.
Qed.

Lemma deeper_recursive path : is_recursive (path +:+ "/**") = true.
Proof.
  unfold is_recursive. rewrite rfind_stars_app, length_string_app. simpl.
  apply negb_true_iff, Nat.ltb_ge. lia.
Qed.

Lemma glob_rounds_spec n path inos results s : is_recursive path = true ->
  NoDup (omap inode_of (levels n path)) -> (forall i, i ∈ omap inode_of (levels n path) -> i ∉ inos) ->
  glob_rounds n path inos results s = (Ok (results ++ levels n path), s).
Proof.
  revert path inos results. induction n as [|n IH]; intros path inos results Hr Hn Hi.
  { simpl. by rewrite app_nil_r. }
  cbn [glob_rounds levels] in *. rewrite (bind_run _ _ _ _ _ (glob_law path s)).
  destruct (glob path) as [|p l] eqn:E.
  { cbn [check_all]. rewrite bind_ret. by rewrite bool_decide_true. }
  rewrite omap_app in Hn, Hi. apply NoDup_app in Hn as (Hn1 & Hd & Hn2).
  destruct (check_all_spec inos (p :: l) s) as (inos' & E' & H); [done | |].
  { intros i Hii. apply Hi, elem_of_app. by left. }
  rewrite (bind_run _ _ _ _ _ E'). rewrite bool_decide_false by done. rewrite Hr. cbn [negb orb].
  rewrite IH; [by rewrite app_assoc | apply deeper_recursive | done |].
  intros i Hii. rewrite H. intros [Hl|Hl]; [|by apply (Hd i)]. revert Hl. apply Hi, elem_of_app. by right.
Qed.

(** C29: A pattern expands by depth. On a tree without a directory that shows up
    twice, the paths found for an absolute pattern with its wildcards in place are:
    for one that ends in a double star, the matches of each depth in turn, to the
    first depth without any and to 63 at most; for any other, its matches; of
    these the files, the folders or both, as asked for. *)
Theorem pattern_expands_by_depth (path : string) (limits : Z) (s : S) :
  replaceGlobWildcards path limits s = (Ok path, s) ->
  NoDup (omap inode_of (levels 63 path)) -> NoDup (omap inode_of (glob path)) ->
  genGlobs path [] limits s
  = (Ok (List.filter (within_limits limits) (if is_recursive path then levels 63 path else glob path)), s).
Proof.
  intros Hrep Hn Hn1. unfold genGlobs. rewrite (bind_run _ _ _ _ _ Hrep). change (kMaxRecursiveGlobs - 1)%nat with 63%nat.
  rewrite (bind_run _ _ _ (if is_recursive path then levels 63 path else glob path) s); [done|].
  destruct (is_recursive path) eqn:E.
  - apply glob_rounds_spec; [done..|]. intros i _. apply not_elem_of_empty.
  - cbn [glob_rounds]. rewrite (bind_run _ _ _ _ _ (glob_law path s)).
    destruct (check_all_spec ∅ (glob path) s Hn1) as (inos' & E' & _); [intros i _; apply not_elem_of_empty|].
    rewrite (bind_run _ _ _ _ _ E'), E. cbn [negb]. by rewrite orb_true_r.
Qed.
End Patterns.
