(* ===== verification/Decorators.v ===== *)
(** * Decorations of results (osquery/config/parsers/decorators.cpp)

    The queries a configuration source gives for the three points of decoration,
    the decorations they yield, and when they are run. The maps of the parser and
    the static map of decorations are one record; what a query returns is a
    parameter. *)
From S2P Require Import Prelude Boost Conversions Json Database Query.

Inductive DecorationPoint := DECORATE_LOAD | DECORATE_ALWAYS | DECORATE_INTERVAL.

Definition kDecorationPointKeys (p : DecorationPoint) : string :=
  match p with DECORATE_LOAD => "load" | DECORATE_ALWAYS => "always" | DECORATE_INTERVAL => "interval" end.

Definition kDecorationsName : string := "decorators".

(** Sources to queries, to queries by interval, and to decorations. *)
Record Decorators := mkDecorators {
  always_ : gmap string (list string);
  load_ : gmap string (list string);
  intervals_ : gmap string (gmap Z (list string));
  kDecorations : gmap string (gmap string string);
}.

Definition no_decorators : Decorators := mkDecorators ∅ ∅ ∅ ∅.

Definition set_kDecorations (m : gmap string (gmap string string)) (d : Decorators) : Decorators :=
  mkDecorators (always_ d) (load_ d) (intervals_ d) m.

(** The strings among the items of an array. *)
Definition strings_of (l : list json) : list string :=
  omap (fun v => match v with JString s => Some (c_str s) | _ => None end) l.

Definition queries_of (key : string) (ms : members) : list string :=
  match member key ms with Some (JArray l) => strings_of l | _ => [] end.

(** [m[source].push_back(q)] for each [q]. *)
Definition push_all {K} `{Countable K} (key : K) (qs : list string) (m : gmap K (list string)) : gmap K (list string) :=
  match qs with [] => m | _ => <[key := default [] (m !! key) ++ qs]> m end.

(** One interval: its name is the rate. *)
Definition interval_step (acc : gmap Z (list string)) (item : string * json) : gmap Z (list string) :=
  let rate := takeOr (tryTo TULong (c_str item.1) 10) 0%Z in
  if negb (rate mod 60 =? 0)%Z then acc
  else match item.2 with JArray l => push_all rate (strings_of l) acc | _ => acc end.

(** In the order of a [std::map] of integers. *)
Definition rates (m : gmap Z (list string)) : list (Z * list string) :=
  omap (fun r => pair r <$> m !! r) (merge_sort Z.le (elements (dom m))).

Section Parser.
Context {S : Type}.
(** [SQL(query).rows()]. *)
Context (sql_rows : string -> M S (list Row)).
Context (FLAGS_disable_decorators : bool).

Abbreviation D := (S * Decorators)%type.
Definition on_sql {A} (m : M S A) : M D A := zoom fst (fun h p => (h, p.2)) m.
Definition decorators : M D Decorators := gets snd.
Definition upd (f : Decorators -> Decorators) : M D unit := modify (fun p => (p.1, f p.2)).

(** A source that is there keeps an empty entry. *)
Definition clear_entry {A} (e : A) (source : string) (m : gmap string A) : gmap string A :=
  match m !! source with Some _ => <[source := e]> m | None => m end.

Definition clearSources (source : string) : M D unit :=
  upd (fun d => mkDecorators (clear_entry [] source (always_ d)) (clear_entry [] source (load_ d))
                  (clear_entry ∅ source (intervals_ d)) (kDecorations d)).

Definition clearDecorations (source : string) : M D unit :=
  upd (fun d => set_kDecorations (<[source := ∅]> (kDecorations d)) d).

Definition addDecoration (source name value : string) : M D unit :=
  upd (fun d => set_kDecorations (<[source := <[name := value]> (default ∅ (kDecorations d !! source))]> (kDecorations d)) d).

(** [HasMember] on a document that is not an object violates its precondition. *)
Definition updateDecorations (source : string) (doc : json) : M D unit :=
  let* ms := of_result (GetObject doc) in
  upd (fun d => mkDecorators (always_ d) (push_all source (queries_of (kDecorationPointKeys DECORATE_LOAD) ms) (load_ d))
                  (intervals_ d) (kDecorations d)) ;;;
  upd (fun d => mkDecorators (push_all source (queries_of (kDecorationPointKeys DECORATE_ALWAYS) ms) (always_ d))
                  (load_ d) (intervals_ d) (kDecorations d)) ;;;
  upd (fun d =>
    let items := match member (kDecorationPointKeys DECORATE_INTERVAL) ms with Some (JObject items) => items | _ => [] end in
    let of_source := default ∅ (intervals_ d !! source) in
    let m := foldl interval_step of_source items in
    mkDecorators (always_ d) (load_ d)
      (if decide (m = of_source) then intervals_ d else <[source := m]> (intervals_ d)) (kDecorations d)).

(** The queries of one source; only the first row of each decorates. *)
Definition run_queries (source : string) (queries : list string) : M D unit :=
  for_each queries (fun query =>
    let* rows := on_sql (sql_rows query) in
    match rows with
    | [] => ret tt
    | row :: _ => for_each (map_sorted row) (fun column => addDecoration source column.1 column.2)
    end).

Definition of_interest (source target : string) : bool := is_empty source || bool_decide (target = source).

(** [time % 0] ends the process. *)
Definition runDecorators (parser_exists : bool) (point : DecorationPoint) (time : Z) (source : string) : M D unit :=
  if FLAGS_disable_decorators || negb parser_exists then ret tt
  else
    let* d := decorators in
    match point with
    | DECORATE_LOAD =>
        for_each (map_sorted (load_ d)) (fun t => if of_interest source t.1 then run_queries t.1 t.2 else ret tt)
    | DECORATE_ALWAYS =>
        for_each (map_sorted (always_ d)) (fun t => if of_interest source t.1 then run_queries t.1 t.2 else ret tt)
    | DECORATE_INTERVAL =>
        for_each (map_sorted (intervals_ d)) (fun t =>
          for_each (rates t.2) (fun interval =>
            if (interval.1 =? 0)%Z then throw AssertFailure
            else if (time mod interval.1 =? 0)%Z && of_interest source t.1
            then run_queries t.1 interval.2 else ret tt))
    end.

Definition Decorators_update (parser_exists : bool) (source : string) (config : gmap string json) : M D Status :=
  clearSources source ;;;
  clearDecorations source ;;;
  match config !! kDecorationsName with
  | Some doc =>
      updateDecorations source doc ;;;
      runDecorators parser_exists DECORATE_LOAD 0 source ;;;
      ret (mkStatus 0 "OK")
  | None => ret (mkStatus 0 "OK")
  end.

Definition Decorators_reset : M D unit :=
  let* d := decorators in
  for_each (map_sorted (kDecorations d)) (fun source => clearSources source.1 ;;; clearDecorations source.1).

(** Added to the decorations of a log item. *)
Definition getDecorations (results : gmap string string) : M D (gmap string string) :=
  if FLAGS_disable_decorators then ret results
  else
    let* d := decorators in
    ret (foldl (fun results source => source.2 ∪ results) results (map_sorted (kDecorations d))).
End Parser.
