(* ===== verification/DecoratorsFacts.v ===== *)
(** * Decorations: a source is replaced as a whole, a reset leaves none *)
From S2P Require Import Prelude Boost Conversions Json Database Query Decorators.

Section Facts.
Context {S : Type} (sql_rows : string -> M S (list Row)).

(** Queries that only read. *)
Definition answers (rows : string -> list Row) : Prop := forall q h, sql_rows q h = (Ok (rows q), h).

(** The decorations a list of queries adds, each by its first row. *)
Definition decorate (rows : string -> list Row) (m : gmap string string) (queries : list string) : gmap string string :=
  foldl (fun m q => match rows q with r :: _ => r ∪ m | [] => m end) m queries.

Lemma insert_sorted_union (row : gmap string string) (m : gmap string string) :
  foldl (fun m c => <[c.1 := c.2]> m) m (map_sorted row) = row ∪ m.
Proof.
  assert (forall (l : list (string * string)) (m : gmap string string), NoDup l.*1 ->
    foldl (fun m c => <[c.1 := c.2]> m) m l = list_to_map l ∪ m) as H.
  { intros l. induction l as [|[k v] l IH]; intros m' Hn; [simpl; by rewrite map_empty_union|].
    apply NoDup_cons in Hn as [Hk Hn]. simpl in *. rewrite IH by done.
    rewrite <- insert_union_r by (by apply not_elem_of_list_to_map_1). by rewrite insert_union_l. }
  rewrite H by apply NoDup_fst_map_sorted. by rewrite list_to_map_sorted.
Qed.

Lemma add_columns source l (h : S) (d : Decorators) :
  for_each l (fun column => addDecoration (S := S) source column.1 column.2) (h, d)
  = (Ok tt, (h, match l with [] => d | _ => set_kDecorations (<[source :=
      foldl (fun m c => <[c.1 := c.2]> m) (default ∅ (kDecorations d !! source)) l]> (kDecorations d)) d end)).
Proof.
  revert d. induction l as [|[k v] l IH]; intros d; [done|].
  cbn [for_each foldl]. unfold addDecoration at 1, upd. rewrite bind_modify, IH. cbn [fst snd].
  destruct l; [done|]. unfold set_kDecorations. simpl. by rewrite lookup_insert_eq, insert_insert_eq.
Qed.

Lemma set_kDecorations_same d m source :
  kDecorations d !! source = Some m -> set_kDecorations (<[source := m]> (kDecorations d)) d = d.
Proof. intros H. destruct d. unfold set_kDecorations. simpl in *. by rewrite insert_id. Qed.

Lemma run_queries_spec rows source queries h d m : answers rows ->
  kDecorations d !! source = Some m ->
  run_queries sql_rows source queries (h, d)
  = (Ok tt, (h, set_kDecorations (<[source := decorate rows m queries]> (kDecorations d)) d)).
Proof.
  intros Ha. revert d m. induction queries as [|q queries IH]; intros d m Hm.
  { simpl. by rewrite set_kDecorations_same. }
  unfold run_queries. cbn [for_each]. fold (run_queries sql_rows source queries).
  assert (on_sql (sql_rows q) (h, d) = (Ok (rows q), (h, d))) as E by (unfold on_sql, zoom; simpl; by rewrite Ha).
  rewrite bind_assoc, (bind_run _ _ _ _ _ E). destruct (rows q) as [|row r] eqn:Er.
  - rewrite bind_ret, (IH _ m) by done. unfold decorate. simpl. by rewrite Er.
  - rewrite (bind_run _ _ _ _ _ (add_columns source (map_sorted row) h d)), Hm. change (default ∅ (Some m)) with m.
    rewrite insert_sorted_union.
    assert (match map_sorted row with [] => d | _ => set_kDecorations (<[source := row ∪ m]> (kDecorations d)) d end
      = set_kDecorations (<[source := row ∪ m]> (kDecorations d)) d) as ->.
    { destruct (map_sorted row) eqn:Em; [|done]. rewrite <- (list_to_map_sorted row), Em. simpl.
      by rewrite map_empty_union, set_kDecorations_same. }
    rewrite (IH _ (row ∪ m)); [|by simpl; rewrite lookup_insert_eq].
    unfold set_kDecorations, decorate. simpl. by rewrite insert_insert_eq, Er.
Qed.

(** Only the entry of the source is run. *)
Lemma run_source source (l : list (string * list string)) s : source <> "" -> NoDup l.*1 ->
  for_each l (fun t => if of_interest source t.1 then run_queries sql_rows t.1 t.2 else ret tt) s
  = match (list_to_map l : gmap string (list string)) !! source with
    | Some qs => run_queries sql_rows source qs s
    | None => (Ok tt, s)
    end.
Proof.
  intros Hs. revert s. induction l as [|[k qs] l IH]; intros s Hn; [done|].
  apply NoDup_cons in Hn as [Hk Hn]. cbn [for_each fst snd list_to_map foldr]. simpl list_to_map.
  unfold of_interest at 1. assert (is_empty source = false) as He by (by destruct source).
  rewrite He. cbn [orb]. destruct (bool_decide_reflect (k = source)) as [->|Hne].
  - rewrite lookup_insert_eq. unfold bind. destruct (run_queries sql_rows source qs s) as [[[]|e] s1]; [|done].
    rewrite IH by done. by rewrite (not_elem_of_list_to_map_1 l source Hk).
  - rewrite bind_ret, IH by done. by rewrite lookup_insert_ne.
Qed.

Lemma push_all_lookup {K} `{Countable K} (key : K) qs (m : gmap K (list string)) :
  default [] (push_all key qs m !! key) = default [] (m !! key) ++ qs.
Proof. destruct qs; simpl; [by rewrite app_nil_r | by simplify_map_eq]. Qed.

Lemma push_all_other {K} `{Countable K} (key other : K) qs (m : gmap K (list string)) : other <> key ->
  push_all key qs m !! other = m !! other.
Proof. intros. destruct qs; simpl; [done | by rewrite lookup_insert_ne]. Qed.

Lemma clear_entry_lookup {A} (e : A) source (m : gmap string A) : default e (clear_entry e source m !! source) = e.
Proof. unfold clear_entry. destruct (m !! source) eqn:E; [by rewrite lookup_insert_eq | by rewrite E]. Qed.

Lemma clear_entry_other {A} (e : A) source other (m : gmap string A) : other <> source ->
  clear_entry e source m !! other = m !! other.
Proof. intros. unfold clear_entry. destruct (m !! source); [by rewrite lookup_insert_ne | done]. Qed.

(** The intervals of a document. *)
Definition document_intervals (ms : members) : list (string * json) :=
  match member "interval" ms with Some (JObject items) => items | _ => [] end.

(** The decorators after an update of a source, before its load queries run. *)
Definition replaced (source : string) (ms : members) (d : Decorators) : Decorators :=
  let of_source := default ∅ (clear_entry ∅ source (intervals_ d) !! source) in
  let m := foldl interval_step of_source (document_intervals ms) in
  mkDecorators (push_all source (queries_of "always" ms) (clear_entry [] source (always_ d)))
    (push_all source (queries_of "load" ms) (clear_entry [] source (load_ d)))
    (if decide (m = of_source) then clear_entry ∅ source (intervals_ d) else <[source := m]> (clear_entry ∅ source (intervals_ d)))
    (<[source := ∅]> (kDecorations d)).

Lemma update_spec rows source config ms h d : answers rows -> source <> "" ->
  config !! kDecorationsName = Some (JObject ms) ->
  Decorators_update sql_rows false true source config (h, d)
  = (Ok (mkStatus 0 "OK"), (h, set_kDecorations
      (<[source := decorate rows ∅ (queries_of "load" ms)]> (kDecorations d)) (replaced source ms d))).
Proof.
  intros Ha Hs Hc. unfold Decorators_update, clearSources, clearDecorations, upd. rewrite !bind_modify, Hc.
  rewrite (bind_run _ _ _ tt (h, replaced source ms d)) by done.
  unfold runDecorators, decorators. cbn [orb negb]. rewrite bind_assoc, bind_gets. cbn [snd]. unfold bind.
  rewrite run_source by (done || apply NoDup_fst_map_sorted). rewrite list_to_map_sorted.
  assert (default [] (load_ (replaced source ms d) !! source) = queries_of "load" ms) as Hl.
  { unfold replaced. simpl. by rewrite push_all_lookup, clear_entry_lookup. }
  assert (kDecorations (replaced source ms d) !! source = Some ∅) as Hk by (by simpl; rewrite lookup_insert_eq).
  destruct (load_ (replaced source ms d) !! source) as [qs|]; simpl in Hl; subst.
  - rewrite (run_queries_spec rows _ _ _ _ ∅) by done. unfold ret. do 3 f_equal. unfold set_kDecorations. simpl.
    by rewrite insert_insert_eq.
  - unfold ret. do 3 f_equal. rewrite <- Hl. reflexivity.
Qed.

(** An update replaces a source as a whole. The queries of the source are then
    those of its document, its decorations are those of its load queries run in
    order, a later one overriding an earlier one and only first rows counting, and
    the queries and decorations of every other source are as before. *)
Theorem update_replaces_a_source (rows : string -> list Row) (source : string) (config : gmap string json)
    (ms : members) (h : S) (d : Decorators) : answers rows -> source <> "" ->
  config !! kDecorationsName = Some (JObject ms) ->
  exists d', Decorators_update sql_rows false true source config (h, d) = (Ok (mkStatus 0 "OK"), (h, d')) /\
    default [] (load_ d' !! source) = queries_of "load" ms /\
    default [] (always_ d' !! source) = queries_of "always" ms /\
    default ∅ (intervals_ d' !! source) = foldl interval_step ∅ (document_intervals ms) /\
    kDecorations d' !! source = Some (decorate rows ∅ (queries_of "load" ms)) /\
    forall other, other <> source ->
      load_ d' !! other = load_ d !! other /\ always_ d' !! other = always_ d !! other /\
      intervals_ d' !! other = intervals_ d !! other /\ kDecorations d' !! other = kDecorations d !! other.
Proof.
  intros Ha Hs Hc. eexists. split; [by apply update_spec|]. unfold replaced, set_kDecorations. simpl.
  rewrite !push_all_lookup, !clear_entry_lookup, lookup_insert_eq. split; [done|]. split; [done|]. split.
  { case_decide as E; [by rewrite clear_entry_lookup | by rewrite lookup_insert_eq]. }
  split; [done|]. intros other Ho. rewrite !push_all_other, !clear_entry_other, lookup_insert_ne by done.
  split; [done|]. split; [done|]. split; [|done].
  case_decide; rewrite ?lookup_insert_ne, clear_entry_other by done; done.
Qed.

(** ** Reset *)

(** Every source with queries has an entry of decorations. *)
Definition known (p : S * Decorators) : Prop :=
  dom (load_ p.2) ∪ dom (always_ p.2) ∪ dom (intervals_ p.2) ⊆ dom (kDecorations p.2).

Lemma clear_entry_dom {A} (e : A) source (m : gmap string A) : dom (clear_entry e source m) = dom m.
Proof.
  unfold clear_entry. destruct (m !! source) eqn:E; [|done]. rewrite dom_insert_L.
  apply elem_of_dom_2 in E. set_solver.
Qed.

Lemma push_all_dom source qs (m : gmap string (list string)) : dom (push_all source qs m) ⊆ {[source]} ∪ dom m.
Proof. destruct qs; simpl; [set_solver|]. rewrite dom_insert_L. set_solver. Qed.

(** Running queries only adds decorations. *)
Definition adds (d : Decorators) (p : S * Decorators) : Prop :=
  load_ p.2 = load_ d /\ always_ p.2 = always_ d /\ intervals_ p.2 = intervals_ d /\
  dom (kDecorations d) ⊆ dom (kDecorations p.2).

Lemma run_queries_adds d source queries s : adds d s ->
  post (run_queries sql_rows source queries) (fun _ => adds d) s.
Proof.
  intros Hs. apply (post_for_each (adds d)); [|done]. intros q s1 H1.
  apply post_bind. unfold on_sql, zoom, post at 1. destruct (sql_rows q s1.1) as [[rows|e] h]; [|done].
  destruct rows as [|row rows]; [by apply post_ret|].
  apply (post_for_each (adds d)); [|done]. intros c s2 H2. apply post_modify.
  destruct H2 as (? & ? & ? & ?). split_and!; simpl; [done..|]. rewrite dom_insert_L. set_solver.
Qed.

Lemma runDecorators_adds parser point time source s :
  post (runDecorators sql_rows false parser point time source) (fun _ => adds s.2) s.
Proof.
  unfold runDecorators. destruct (false || negb parser); [by apply post_ret|].
  apply post_bind, post_gets. destruct point; apply (post_for_each (adds s.2)); try done; intros [t qs] s1 H1; simpl.
  1-2: case_match; [by apply run_queries_adds | by apply post_ret].
  apply (post_for_each (adds s.2)); [|done]. intros [rate iqs] s2 H2. simpl.
  case_match; [done|]. case_match; [by apply run_queries_adds | by apply post_ret].
Qed.

Lemma adds_known s p : known s -> adds s.2 p -> known p.
Proof. unfold known. intros Hk (-> & -> & -> & H). set_solver. Qed.

Lemma update_known parser source config s : known s ->
  post (Decorators_update sql_rows false parser source config) (fun _ => known) s.
Proof.
  intros Hk. unfold Decorators_update. unfold clearSources, clearDecorations, upd.
  do 2 (apply post_bind, post_modify). cbn [fst snd].
  match goal with |- post _ _ ?x => set (s1 := x) end.
  assert (known s1 /\ source ∈ dom (kDecorations s1.2)) as [H1 Hs1].
  { unfold known, s1, set_kDecorations in *. simpl. rewrite !clear_entry_dom, dom_insert_L. set_solver. }
  clearbody s1. destruct (config !! kDecorationsName) as [doc|]; [|by apply post_ret].
  apply post_bind. unfold updateDecorations. apply post_bind. unfold of_result, post at 1.
  destruct (GetObject doc) as [ms|e]; [|done]. unfold upd.
  do 2 (apply post_bind, post_modify). apply post_modify. cbn [fst snd].
  match goal with |- post _ _ ?x => set (s2 := x) end.
  assert (known s2) as H2.
  { unfold known, s2 in *. simpl.
    pose proof (push_all_dom source (queries_of "load" ms) (load_ s1.2)).
    pose proof (push_all_dom source (queries_of "always" ms) (always_ s1.2)).
    case_decide; rewrite ?dom_insert_L; set_solver. }
  clearbody s2. apply post_bind. eapply post_mono; [apply runDecorators_adds|].
  intros a p Hp. apply post_ret. by apply (adds_known s2).
Qed.

(** What the daemon does with the decorators: updates of sources, and runs. *)
Inductive decorator_op :=
  | OpUpdate (source : string) (config : gmap string json)
  | OpRun (point : DecorationPoint) (time : Z) (source : string).

Definition run_op (o : decorator_op) : M (S * Decorators) unit :=
  match o with
  | OpUpdate source config => Decorators_update sql_rows false true source config ;;; ret tt
  | OpRun point time source => runDecorators sql_rows false true point time source
  end.

Lemma run_ops_known ops s : known s -> post (for_each ops run_op) (fun _ => known) s.
Proof.
  intros Hs. apply (post_for_each known); [|done]. intros [source config|point time source] s1 H1; simpl.
  - apply post_bind. eapply post_mono; [by apply update_known|]. intros a p Hp. by apply post_ret.
  - eapply post_mono; [apply runDecorators_adds|]. intros a p Hp. by apply (adds_known s1).
Qed.

(** Nothing decorates. *)
Definition quiet (d : Decorators) : Prop := forall source,
  default [] (load_ d !! source) = [] /\ default [] (always_ d !! source) = [] /\
  default ∅ (intervals_ d !! source) = ∅ /\ default ∅ (kDecorations d !! source) = ∅.

Lemma clear_entry_idle {A} (e : A) source other (m : gmap string A) :
  default e (m !! other) = e -> default e (clear_entry e source m !! other) = e.
Proof.
  intros H. destruct (decide (other = source)) as [->|]; [apply clear_entry_lookup | by rewrite clear_entry_other].
Qed.

(** One turn of the reset. *)
Definition reset_one (source : string) (d : Decorators) : Decorators :=
  set_kDecorations (<[source := ∅]> (kDecorations d))
    (mkDecorators (clear_entry [] source (always_ d)) (clear_entry [] source (load_ d))
                  (clear_entry ∅ source (intervals_ d)) (kDecorations d)).

Definition quiet_at (d : Decorators) (source : string) : Prop :=
  default [] (load_ d !! source) = [] /\ default [] (always_ d !! source) = [] /\
  default ∅ (intervals_ d !! source) = ∅ /\ default ∅ (kDecorations d !! source) = ∅.

Lemma reset_one_quiet source d other : other = source \/ quiet_at d other -> quiet_at (reset_one source d) other.
Proof.
  unfold quiet_at, reset_one, set_kDecorations. simpl. intros [->|(H1 & H2 & H3 & H4)].
  - rewrite !clear_entry_lookup, lookup_insert_eq. done.
  - rewrite !clear_entry_idle by done. split_and!; [done..|].
    destruct (decide (other = source)) as [->|]; by simplify_map_eq.
Qed.

Lemma reset_loop (l : list (string * gmap string string)) (h : S) d : exists d',
  for_each l (fun source => clearSources (S := S) source.1 ;;; clearDecorations source.1) (h, d) = (Ok tt, (h, d')) /\
  forall other, (other ∈ l.*1 \/ quiet_at d other) -> quiet_at d' other.
Proof.
  revert d. induction l as [|[k m] l IH]; intros d.
  { exists d. split; [done|]. intros other [H|H]; [by apply elem_of_nil in H | done]. }
  destruct (IH (reset_one k d)) as (d' & E & H). exists d'. split; [exact E|].
  intros other Ho. apply H. destruct Ho as [[->|Ho]%elem_of_cons|Ho]; [right | by left | right].
  - apply reset_one_quiet. by left.
  - apply reset_one_quiet. by right.
Qed.

Lemma quiet_run d (h : S) point time source : quiet d ->
  runDecorators sql_rows false true point time source (h, d) = (Ok tt, (h, d)).
Proof.
  intros Hq. unfold runDecorators, decorators. cbn [orb negb]. rewrite bind_gets. cbn [snd].
  assert (forall {A} (l : list A) f, (forall x, x ∈ l -> f x (h, d) = (Ok tt, (h, d))) ->
    for_each l f (h, d) = (Ok tt, (h, d))) as Hl.
  { intros A l f. induction l as [|x l IH]; intros Hf; [done|]. cbn [for_each].
    rewrite (bind_run _ _ _ _ _ (Hf x ltac:(by left))). apply IH. intros y Hy. apply Hf. by right. }
  destruct point; apply Hl; intros [t qs] Ht%elem_of_map_sorted; cbn [fst snd]; destruct (Hq t) as (H1 & H2 & H3 & _).
  - rewrite Ht in H1. simpl in H1. subst. by case_match.
  - rewrite Ht in H2. simpl in H2. subst. by case_match.
  - rewrite Ht in H3. simpl in H3. subst. done.
Qed.

(** C19: A reset leaves no decoration. After any sequence of updates and runs that
    return, whatever the queries answer, a reset empties every source: a log item
    gets no decoration, and no later run of any kind, at any time, does anything. *)
Theorem reset_leaves_no_decoration (ops : list decorator_op) (h h' : S) (d : Decorators) (results : gmap string string) :
  for_each ops run_op (h, no_decorators) = (Ok tt, (h', d)) ->
  exists d', Decorators_reset (h', d) = (Ok tt, (h', d')) /\
    getDecorations false results (h', d') = (Ok results, (h', d')) /\
    forall point time source, runDecorators sql_rows false true point time source (h', d') = (Ok tt, (h', d')).
Proof.
  intros E. assert (known (h', d)) as Hk.
  { refine (post_Ok _ (fun _ => known) _ _ _ _ E). apply run_ops_known. unfold known. simpl. set_solver. }
  destruct (reset_loop (map_sorted (kDecorations d)) h' d) as (d' & E' & H). exists d'.
  assert (quiet d') as Hq.
  { intros other. apply H. destruct (kDecorations d !! other) as [m|] eqn:Eo.
    - left. apply list_elem_of_fmap. exists (other, m). split; [done|]. by apply elem_of_map_sorted.
    - right. apply not_elem_of_dom in Eo. unfold known in Hk. simpl in Hk.
      assert (other ∉ dom (load_ d) /\ other ∉ dom (always_ d) /\ other ∉ dom (intervals_ d)) as (H1 & H2 & H3) by set_solver.
      apply not_elem_of_dom in H1, H2, H3, Eo. unfold quiet_at. by rewrite H1, H2, H3, Eo. }
  split; [exact E'|]. split; [|intros; by apply quiet_run].
  unfold getDecorations, decorators. rewrite bind_gets. unfold ret. cbn [snd]. do 2 f_equal.
  assert (forall l (m : gmap string string), (forall x, x ∈ l -> x.2 = ∅) ->
    foldl (fun r (source : string * gmap string string) => source.2 ∪ r) m l = m) as Hf.
  { intros l. induction l as [|x l IH]; intros m Hx; [done|]. simpl. rewrite (Hx x) by (by left).
    rewrite map_empty_union. apply IH. intros y Hy. apply Hx. by right. }
  apply Hf. intros [t m] Ht%elem_of_map_sorted. destruct (Hq t) as (_ & _ & _ & H4). rewrite Ht in H4. done.
Qed.

(** ** A rate that is not a number *)

Definition total_or_fails (f : M (S * Decorators) unit) : Prop :=
  forall s, (f s).1 = Ok tt \/ (f s).1 = Throw AssertFailure.

Lemma for_each_fails {A} (l : list A) (f : A -> M (S * Decorators) unit) x s :
  (forall y, total_or_fails (f y)) -> x ∈ l -> (forall s, (f x s).1 = Throw AssertFailure) ->
  (for_each l f s).1 = Throw AssertFailure.
Proof.
  intros Ht Hx Hf. revert s. induction l as [|y l IH]; intros s; [by apply elem_of_nil in Hx|].
  cbn [for_each]. unfold bind. destruct (Ht y s) as [E|E].
  - destruct (f y s) as [r s1] eqn:E1. simpl in E. subst r. apply elem_of_cons in Hx as [->|Hx]; [|by apply IH].
    specialize (Hf s). by rewrite E1 in Hf.
  - destruct (f y s) as [r s1]. simpl in E. by subst r.
Qed.

Lemma for_each_total_or_fails {A} (l : list A) (f : A -> M (S * Decorators) unit) :
  (forall y, total_or_fails (f y)) -> total_or_fails (for_each l f).
Proof.
  intros Ht. induction l as [|y l IH]; intros s; [by left|]. cbn [for_each]. unfold bind.
  destruct (Ht y s) as [E|E]; destruct (f y s) as [r s1]; simpl in E; subst r; [apply IH | by right].
Qed.

Lemma run_queries_total rows source queries : answers rows -> total_or_fails (run_queries sql_rows source queries).
Proof.
  intros Ha. apply for_each_total_or_fails. intros q s. unfold bind, on_sql, zoom. rewrite Ha.
  destruct (rows q); [by left|]. apply for_each_total_or_fails. intros c s1. by left.
Qed.

Lemma rates_elem m rate qs : m !! rate = Some qs -> (rate, qs) ∈ rates m.
Proof.
  intros H. unfold rates. apply list_elem_of_omap. exists rate. rewrite merge_sort_Permutation, elem_of_elements, H.
  split; [by apply elem_of_dom_2 in H | done].
Qed.

Lemma interval_step_keeps acc item rate : is_Some (acc !! rate) -> is_Some (interval_step acc item !! rate).
Proof.
  intros H. unfold interval_step. repeat case_match; try done. unfold push_all. case_match; [done|].
  by apply lookup_insert_is_Some'; right.
Qed.

Lemma intervals_keep items acc rate : is_Some (acc !! rate) -> is_Some (foldl interval_step acc items !! rate).
Proof. revert acc. induction items as [|i items IH]; intros acc H; [done|]. by apply IH, interval_step_keeps. Qed.

(** C40: A decorator interval that is not a number ends the process. If the document
    of a source has queries under an interval whose name is no number, the interval
    is stored as 0, which passes the test for a multiple of a minute, and the next
    run of interval decorators divides by it. *)
Theorem invalid_interval_ends_the_process (rows : string -> list Row) (source rate query : string)
    (config : gmap string json) (ms items : members) (l : list json) (h : S) (d : Decorators) (time : Z) (e : ConversionError) :
  answers rows -> source <> "" -> config !! kDecorationsName = Some (JObject ms) ->
  member "interval" ms = Some (JObject items) -> (rate, JArray l) ∈ items -> JString query ∈ l ->
  tryTo TULong (c_str rate) 10 = inr e ->
  exists d', Decorators_update sql_rows false true source config (h, d) = (Ok (mkStatus 0 "OK"), (h, d')) /\
    forall s, s.2 = d' -> (runDecorators sql_rows false true DECORATE_INTERVAL time "" s).1 = Throw AssertFailure.
Proof.
  intros Ha Hs Hc Hm Hi Hq Hr. eexists. split; [by apply update_spec|]. intros [h1 d1]. cbn [snd]. intros ->.
  assert (is_Some (default ∅ (intervals_ (replaced source ms d) !! source) !! 0%Z)) as [qs Hqs].
  { unfold replaced. simpl. rewrite clear_entry_lookup.
    assert (is_Some (foldl interval_step ∅ (document_intervals ms) !! 0%Z)) as H0.
    { unfold document_intervals. rewrite Hm. apply list_elem_of_split in Hi as (l1 & l2 & ->).
      rewrite foldl_app. cbn [foldl]. apply intervals_keep. unfold interval_step. cbn [fst snd]. rewrite Hr. simpl.
      destruct (strings_of l) as [|x xs] eqn:El; [|unfold push_all; rewrite lookup_insert_eq; done].
      exfalso. assert (c_str query ∈ strings_of l) as Hin by (apply list_elem_of_omap; by exists (JString query)).
      rewrite El in Hin. by apply elem_of_nil in Hin. }
    case_decide as E; [by rewrite E in H0; destruct H0 | by rewrite lookup_insert_eq]. }
  unfold runDecorators, decorators. cbn [orb negb]. rewrite bind_gets. cbn [snd set_kDecorations intervals_].
  destruct (intervals_ (replaced source ms d) !! source) as [m|] eqn:Em; simpl in Hqs; [|done].
  apply (for_each_fails _ _ (source, m)).
  - intros [t im]. apply for_each_total_or_fails. intros [r rqs] s. cbn [fst snd].
    case_match; [by right|]. case_match; [by apply (run_queries_total rows) | by left].
  - by apply elem_of_map_sorted.
  - intros s. apply (for_each_fails _ _ (0%Z, qs)).
    + intros [r rqs] s1. cbn [fst snd]. case_match; [by right|].
      case_match; [by apply (run_queries_total rows) | by left].
    + by apply rates_elem.
    + done.
Qed.
End Facts.
