(* ===== verification/Flags.v ===== *)
(** * Flags (osquery/core/flags.cpp) and the options of a configuration
    (osquery/config/parsers/options.cpp)

    The wrapper around gflags with its own tables of flags, aliases and custom flags,
    and the config parser that sets flags. gflags is the class [Gflags]. *)
From S2P Require Import Prelude Boost Conversions Json Database.

Record CommandLineFlagInfo := mkFlagInfo {
  info_name : string; info_type : string; info_default : string; info_current : string; info_is_default : bool;
}.

Class Gflags (S : Type) := {
  GetCommandLineFlagInfo : string -> M S (option CommandLineFlagInfo);
  GetCommandLineOption : string -> M S (option string);
  SetCommandLineOption : string -> string -> M S unit;
  GetAllFlags : M S (list CommandLineFlagInfo);
}.

(** The value a flag has, and the values gflags accepts for it. *)
Class GflagsLaws (S : Type) {G : Gflags S} := {
  gf_value : S -> string -> option string;
  gf_type : string -> string;
  gf_accepts : string -> string -> bool;
  gf_get_law name s : GetCommandLineOption name s = (Ok (gf_value s name), s);
  gf_info_law name s : exists i, GetCommandLineFlagInfo name s = (Ok i, s) /\
    (info_type <$> i) = (fun _ => gf_type name) <$> gf_value s name;
  gf_set_law name value s : exists s', SetCommandLineOption name value s = (Ok tt, s') /\
    forall other, gf_value s' other =
      if decide (other = name) then
        (if gf_accepts name value then (fun _ => value) <$> gf_value s name else gf_value s name)
      else gf_value s other;
}.

Record FlagDetail := mkDetail { description : string; shell : bool; external : bool; cli : bool; hidden : bool }.

Record FlagInfo := mkInfo { fi_type : string; fi_description : string; fi_default_value : string; fi_value : string;
                            fi_detail : FlagDetail }.

Definition no_detail : FlagDetail := mkDetail "" false false false false.

Record Flag := mkFlag {
  flags_ : gmap string FlagDetail;
  aliases_ : gmap string FlagDetail;
  custom_ : gmap string string;
}.

Section Flags.
Context {S : Type} {G : Gflags S} {B : Boost}.
(** [Registry::get().external()], and the call an extension makes to the core. *)
Context (is_external : bool) (registry_option : string -> M S PluginResponse).

Abbreviation F := (S * Flag)%type.
Definition on_gflags {A} (m : M S A) : M F A := zoom fst (fun h p => (h, p.2)) m.
Definition instance : M F Flag := gets snd.
Definition upd_flag (f : Flag -> Flag) : M F unit := modify (fun p => (p.1, f p.2)).

(** [insert] keeps what is there. *)
Definition insert_new (name : string) (d : FlagDetail) (m : gmap string FlagDetail) : gmap string FlagDetail :=
  match m !! name with Some _ => m | None => <[name := d]> m end.

Definition Flag_create (name : string) (flag : FlagDetail) : M F unit :=
  upd_flag (fun f => mkFlag (insert_new name flag (flags_ f)) (aliases_ f) (custom_ f)).

Definition Flag_createAlias (alias : string) (flag : FlagDetail) : M F unit :=
  upd_flag (fun f => mkFlag (flags_ f) (insert_new alias flag (aliases_ f)) (custom_ f)).

Definition Flag_getDefaultValue (name : string) : M F (Status * option string) :=
  let* info := on_gflags (GetCommandLineFlagInfo name) in
  ret (match info with
       | None => (mkStatus 1 "Flags name not found.", None)
       | Some i => (mkStatus 0 "OK", Some (info_default i))
       end).

Definition Flag_isDefault (name : string) : M F bool :=
  let* info := on_gflags (GetCommandLineFlagInfo name) in
  ret (match info with None => false | Some i => info_is_default i end).

Definition Flag_getValue (name : string) : M F string :=
  let* f := instance in
  match custom_ f !! name with
  | Some v => ret v
  | None =>
      let* found := on_gflags (GetCommandLineOption name) in
      let current_value := default "" found in
      if is_external && bool_decide (found = None) then
        let* resp := on_gflags (registry_option name) in
        ret (match resp with
             | r :: _ => default current_value (r !! "value")
             | [] => current_value
             end)
      else ret current_value
  end.

Definition Flag_getInt32Value (name : string) : M F Z :=
  let* v := Flag_getValue name in ret (takeOr (tryTo TLong v 10) 0%Z).

Definition Flag_getType (name : string) : M F string :=
  let* info := on_gflags (GetCommandLineFlagInfo name) in
  ret (match info with None => "" | Some i => info_type i end).

(** An alias names its flag in the description. The depth is the number of aliases
    followed; [None] when it is not enough, as for aliases that form a circle. *)
Fixpoint getDescription (depth : nat) (f : Flag) (name : string) : option string :=
  match flags_ f !! name with
  | Some d => Some (description d)
  | None =>
      match aliases_ f !! name with
      | None => Some ""
      | Some d => match depth with O => None | Datatypes.S depth => getDescription depth f (description d) end
      end
  end.

Definition is_custom (name : string) : bool := bool_decide (find_str "custom_" name = Some 0%nat).

(** A custom flag is stored and reported as not found. *)
Definition Flag_updateValue (name value : string) : M F Status :=
  let* f := instance in
  match flags_ f !! name with
  | Some _ => on_gflags (SetCommandLineOption name value) ;;; ret (mkStatus 0 "OK")
  | None =>
      match aliases_ f !! name with
      | Some d => on_gflags (SetCommandLineOption (description d) value) ;;; ret (mkStatus 0 "OK")
      | None =>
          (if is_custom name
           then upd_flag (fun f => mkFlag (flags_ f) (aliases_ f) (<[name := value]> (custom_ f)))
           else ret tt) ;;;
          ret (mkStatus 1 "Flag not found")
      end
  end.

(** [Flag::flags]. *)
Definition Flag_flags : M F (gmap string FlagInfo) :=
  let* info := on_gflags GetAllFlags in
  let* f := instance in
  let m := foldl (fun m i =>
    match flags_ f !! info_name i with
    | None => m
    | Some d => <[info_name i := mkInfo (info_type i) (description d) (info_default i) (info_current i) d]> m
    end) ∅ info in
  ret (foldl (fun m c => <[c.1 := mkInfo "string" "" "" c.2 no_detail]> m) m (map_sorted (custom_ f))).

(** ** The options parser *)

Definition kVerboseOptions : list string :=
  ["verbose"; "minloglevel"; "logger_min_status"; "stderrthreshold"; "logger_min_stderr"; "logger_stderr";
   "logtostderr"; "alsologtostderr"].

Context {R : RapidJSON}.
Context (setVerboseLevel : M S unit).

(** The text of an option; empty for [null]. *)
Definition option_text (v : json) : result string :=
  match v with
  | JString s => Ok (c_str s)
  | JBool b => Ok (if b then "true" else "false")
  | JInt z => if (- 2 ^ 31 <=? z)%Z && (z <? 2 ^ 31)%Z then Ok (to_string z)
              else match GetUint64 v with Ok z => Ok (to_string z) | Throw e => Throw e end
  | JDouble _ => Throw AssertFailure
  | JObject _ | JArray _ => match JSON_newFromValue v with Ok d => Ok (JSON_toString d).2 | Throw e => Throw e end
  | JNull => Ok ""
  end.

Definition set_option (option : string * json) : M F unit :=
  let name := c_str option.1 in
  let* value := of_result (option_text option.2) in
  if is_empty value || is_empty name then ret tt
  else
    let* known := (if is_custom name then ret true
                   else let* type := Flag_getType name in ret (negb (is_empty type))) in
    if negb known then ret tt
    else
      Flag_updateValue name value ;;;
      if bool_decide (name ∈ kVerboseOptions) then on_gflags setVerboseLevel ;;; ret tt else ret tt.

(** The data of the parser is part of the state. *)
Definition merged_options (data : json) (config : json) : result json :=
  match GetObject data with
  | Throw e => Throw e
  | Ok ms =>
      let ms := if HasMember "options" ms then ms else add_member "options" JSON_newObject ms in
      match member "options" ms with
      | None => Throw AssertFailure
      | Some options =>
          if IsObject config
          then match JSON_mergeObject options config with Throw e => Throw e | Ok o => Ok o end
          else Ok options
      end
  end.

(** The first member of that name takes the value. *)
Fixpoint set_member (key : string) (value : json) (ms : members) : members :=
  match ms with
  | [] => [(key, value)]
  | (k, v) :: ms => if decide (k = key) then (k, value) :: ms else (k, v) :: set_member key value ms
  end.

Definition Options_update (config : gmap string json) (data : json) : M F (Status * json) :=
  match config !! "options" with
  | None => ret (Status_success, data)
  | Some co =>
      let* options := of_result (merged_options data co) in
      let* ms := of_result (GetObject data) in
      let* l := of_result (GetObject options) in
      for_each l set_option ;;;
      ret (Status_success, JObject (set_member "options" options ms))
  end.
End Flags.

(** * Flags: the options of a configuration are set *)

Section Facts.
Context {S : Type} {G : Gflags S} {L : GflagsLaws S} {B : Boost} {R : RapidJSON}.
Context (setVerboseLevel : M S unit).
(** Changing the verbosity of the logger changes no flag. *)
Hypothesis verbose_law : forall s, exists s', setVerboseLevel s = (Ok tt, s') /\ forall n, gf_value s' n = gf_value s n.

Lemma merge_fresh (l acc : members) : NoDup (acc ++ l).*1 -> merge_members acc l = acc ++ l.
Proof.
  revert acc. induction l as [|[k v] l IH]; intros acc Hn; [by rewrite app_nil_r|].
  unfold merge_members in *. cbn [foldl fst snd]. unfold add_member at 2.
  rewrite fmap_app in Hn. simpl in Hn.
  assert (k ∉ acc.*1) as Hk.
  { apply NoDup_app in Hn as (_ & H & _). intros Hin. apply (H k Hin). by left. }
  rewrite (proj2 (FindMember_None k acc) Hk). rewrite IH; [by rewrite <- app_assoc|].
  rewrite !fmap_app, <- app_assoc. done.
Qed.

(** The flag an option is about: the alias's, or the one of its name. *)
Definition target (f : Flag) (name : string) : option string :=
  match flags_ f !! name with Some _ => Some name | None => description <$> aliases_ f !! name end.

(** What setting a flag changes. *)
Definition flag_effect (s : S) (f : Flag) (name : string) (s' : S) (f' : Flag) : Prop :=
  flags_ f' = flags_ f /\ aliases_ f' = aliases_ f /\
  (forall n, is_Some (flags_ f !! n) -> custom_ f' !! n = custom_ f !! n) /\
  (forall n, is_Some (gf_value s' n) <-> is_Some (gf_value s n)) /\
  (forall n, target f name <> Some n -> gf_value s' n = gf_value s n).

Lemma effect_refl s f name : flag_effect s f name s f.
Proof. unfold flag_effect. split_and!; done. Qed.

Lemma set_effect s s' f name n value : target f name = Some n ->
  (forall other, gf_value s' other =
      if decide (other = n) then
        (if gf_accepts n value then (fun _ => value) <$> gf_value s n else gf_value s n)
      else gf_value s other) ->
  flag_effect s f name s' f.
Proof.
  intros Ht Hv. unfold flag_effect. split_and!; [done..| |].
  - intros m. rewrite Hv. case_decide as E; [|done]. subst. destruct (gf_accepts n value); [|done].
    by destruct (gf_value s n).
  - intros m Hm. rewrite Hv, decide_False; [done|]. intros ->. by rewrite Ht in Hm.
Qed.

Lemma updateValue_run name value s f : exists st s' f',
  Flag_updateValue name value (s, f) = (Ok st, (s', f')) /\ flag_effect s f name s' f' /\
  (is_Some (flags_ f !! name) -> gf_accepts name value = true -> is_Some (gf_value s name) ->
   gf_value s' name = Some value).
Proof.
  unfold Flag_updateValue, instance. rewrite bind_gets. cbn [snd]. destruct (flags_ f !! name) as [d|] eqn:Ef.
  - destruct (gf_set_law name value s) as (s' & E & Hs').
    rewrite (bind_run _ _ _ tt (s', f)) by (unfold on_gflags, zoom; simpl; by rewrite E).
    exists (mkStatus 0 "OK"), s', f. split; [done|]. split.
    + apply (set_effect _ _ _ _ name value); [unfold target; by rewrite Ef | done].
    + intros _ Ha [old Ho]. by rewrite Hs', decide_True, Ha, Ho.
  - destruct (aliases_ f !! name) as [d|] eqn:Ea.
    + destruct (gf_set_law (description d) value s) as (s' & E & Hs').
      rewrite (bind_run _ _ _ tt (s', f)) by (unfold on_gflags, zoom; simpl; by rewrite E).
      exists (mkStatus 0 "OK"), s', f. split; [done|]. split; [|by intros [? ?]].
      apply (set_effect _ _ _ _ (description d) value); [unfold target; by rewrite Ef, Ea | done].
    + destruct (is_custom name); (eexists (mkStatus 1 "Flag not found"), s, _; split; [reflexivity|]);
        (split; [|by intros [? ?]]); [|by apply effect_refl].
      unfold flag_effect. cbn [flags_ aliases_ custom_]. split_and!; try done.
      intros n Hn. rewrite lookup_insert_ne; [done|]. intros ->. by rewrite Ef in Hn; destruct Hn.
Qed.

Lemma effect_same_values s1 s2 s3 f name f' : flag_effect s1 f name s2 f' ->
  (forall n, gf_value s3 n = gf_value s2 n) -> flag_effect s1 f name s3 f'.
Proof.
  intros (H1 & H2 & H3 & H4 & H5) H. unfold flag_effect. split_and!; try done.
  - intros n. by rewrite H.
  - intros n Hn. rewrite H. by apply H5.
Qed.

Lemma set_option_run o t s f : option_text o.2 = Ok t -> exists s' f',
  set_option setVerboseLevel o (s, f) = (Ok tt, (s', f')) /\ flag_effect s f (c_str o.1) s' f' /\
  (t <> "" -> c_str o.1 <> "" -> is_Some (flags_ f !! c_str o.1) -> gf_type (c_str o.1) <> "" ->
   gf_accepts (c_str o.1) t = true -> is_Some (gf_value s (c_str o.1)) -> gf_value s' (c_str o.1) = Some t).
Proof.
  intros Ht. unfold set_option. set (name := c_str o.1). unfold of_result. rewrite Ht.
  rewrite (bind_run _ _ _ t (s, f)) by done.
  destruct (is_empty t || is_empty name) eqn:Ee.
  { exists s, f. split; [done|]. split; [apply effect_refl|]. intros H1 H2.
    apply orb_true_iff in Ee as [E|E]; apply is_empty_true in E; done. }
  destruct (gf_info_law name s) as (i & Ei & Hi).
  assert ((if is_custom name then ret true else let* type := Flag_getType name in ret (negb (is_empty type))) (s, f)
    = (Ok (is_custom name || negb (is_empty (match i with Some i => info_type i | None => "" end))), (s, f))) as Ek.
  { destruct (is_custom name); [done|]. unfold Flag_getType, on_gflags, zoom, bind, ret. simpl. rewrite Ei.
    by destruct i. }
  rewrite (bind_run _ _ _ _ _ Ek).
  destruct (is_custom name || negb (is_empty (match i with Some i => info_type i | None => "" end))) eqn:Eu; cbn [negb].
  - destruct (updateValue_run name t s f) as (st & s1 & f1 & E1 & Heff & Hset).
    rewrite (bind_run _ _ _ _ _ E1). case_bool_decide.
    + destruct (verbose_law s1) as (s2 & E2 & Hv).
      rewrite (bind_run _ _ _ tt (s2, f1)) by (unfold on_gflags, zoom; simpl; by rewrite E2).
      exists s2, f1. split; [done|]. split; [by eapply effect_same_values|]. intros. rewrite Hv. auto.
    + exists s1, f1. split; [done|]. split; [done|]. intros. auto.
  - exists s, f. split; [done|]. split; [apply effect_refl|]. intros _ _ _ Hty _ [old Ho]. exfalso.
    apply orb_false_iff in Eu as [_ Eu%negb_false_iff%is_empty_true]. rewrite Ho in Hi. destruct i; [|done].
    simpl in Hi. congruence.
Qed.

(** The effect of a list of options on a flag none of them is about. *)
Lemma options_other l s f n : Forall (fun o => exists t, option_text o.2 = Ok t) l ->
  Forall (fun o => target f (c_str o.1) <> Some n) l -> exists s' f',
  for_each l (set_option setVerboseLevel) (s, f) = (Ok tt, (s', f')) /\
  flags_ f' = flags_ f /\ aliases_ f' = aliases_ f /\
  (is_Some (flags_ f !! n) -> custom_ f' !! n = custom_ f !! n) /\
  (forall m, is_Some (gf_value s' m) <-> is_Some (gf_value s m)) /\ gf_value s' n = gf_value s n.
Proof.
  revert s f. induction l as [|o l IH]; intros s f Ht Hn; [by exists s, f|].
  apply Forall_cons in Ht as [[t Ht] Hts]. apply Forall_cons in Hn as [Hn Hns].
  destruct (set_option_run o t s f Ht) as (s1 & f1 & E1 & (H1 & H2 & H3 & H4 & H5) & _).
  destruct (IH s1 f1 Hts) as (s2 & f2 & E2 & G1 & G2 & G3 & G4 & G5).
  { eapply Forall_impl; [exact Hns|]. intros x. unfold target. by rewrite H1, H2. }
  exists s2, f2. cbn [for_each]. rewrite (bind_run _ _ _ _ _ E1). split_and!; [done | congruence | congruence | | |].
  - intros Hf. rewrite G3 by (by rewrite H1). by apply H3.
  - intros m. by rewrite G4.
  - rewrite G5. by apply H5.
Qed.

Lemma options_run (l : members) s f name v t : NoDup l.*1 ->
  Forall (fun o => exists t, option_text o.2 = Ok t) l -> (name, v) ∈ l -> c_str name = name ->
  Forall (fun o => o = (name, v) \/ target f (c_str o.1) <> Some name) l ->
  option_text v = Ok t -> t <> "" -> name <> "" -> is_Some (flags_ f !! name) -> gf_type name <> "" ->
  gf_accepts name t = true -> is_Some (gf_value s name) -> exists s' f',
  for_each l (set_option setVerboseLevel) (s, f) = (Ok tt, (s', f')) /\
  custom_ f' !! name = custom_ f !! name /\ gf_value s' name = Some t.
Proof.
  intros Hnd Hts Hin Hnul Ho Ht Hne Hnn Hf Hty Ha. revert s f Hf Ho.
  induction l as [|o l IH]; intros s f Hf Ho Hold; [by apply elem_of_nil in Hin|].
  apply Forall_cons in Hts as [[t' Ht'] Hts]. apply Forall_cons in Ho as [Ho Hos].
  apply NoDup_cons in Hnd as [Hon Hnd].
  destruct (set_option_run o t' s f Ht') as (s1 & f1 & E1 & (H1 & H2 & H3 & H4 & H5) & Hset).
  assert (Forall (fun o => o = (name, v) \/ target f1 (c_str o.1) <> Some name) l) as Hos1.
  { eapply Forall_impl; [exact Hos|]. intros x. unfold target. by rewrite H1, H2. }
  cbn [for_each]. rewrite (bind_run _ _ _ _ _ E1).
  apply elem_of_cons in Hin as [<-|Hl].
  2: { destruct (IH Hnd Hts Hl s1 f1) as (s2 & f2 & E2 & G1 & G2); [by rewrite H1 | done | by rewrite H4 |].
       exists s2, f2. split; [done|]. split; [|done]. rewrite G1. by apply H3. }
  - cbn [fst snd] in *. rewrite Ht in Ht'. injection Ht' as <-.
    rewrite Hnul in Hset.
    destruct (options_other l s1 f1 name Hts) as (s2 & f2 & E2 & G1 & G2 & G3 & G4 & G5).
    { apply Forall_forall. intros x Hx. rewrite Forall_forall in Hos1.
      destruct (Hos1 x Hx) as [->|]; [|done].
      exfalso. apply Hon. by apply (list_elem_of_fmap_2 fst l (name, v)). }
    exists s2, f2. split; [done|]. split; [rewrite G3 by (by rewrite H1); by apply H3|]. rewrite G5. by apply Hset.
Qed.

(** An option of the configuration is the value of its flag. If the options have
    different names and a value of a kind that has a text, then after the first
    update an option for a flag of osquery, with a text the flag accepts and no other
    option that is an alias of it, is what reading the flag gives. *)
Theorem options_reach_the_flags (l : members) (config : gmap string json) (s : S) (f : Flag)
    (name : string) (v : json) (t : string) :
  config !! "options" = Some (JObject l) -> NoDup l.*1 ->
  Forall (fun o => exists t, option_text o.2 = Ok t) l -> (name, v) ∈ l -> c_str name = name ->
  Forall (fun o => o = (name, v) \/ target f (c_str o.1) <> Some name) l ->
  option_text v = Ok t -> t <> "" -> name <> "" -> is_Some (flags_ f !! name) -> custom_ f !! name = None ->
  gf_type name <> "" -> gf_accepts name t = true -> is_Some (gf_value s name) ->
  exists data s' f', Options_update setVerboseLevel config (JObject []) (s, f) = (Ok (Status_success, data), (s', f')) /\
    forall ext call, Flag_getValue ext call name (s', f') = (Ok t, (s', f')).
Proof.
  intros Hc Hnd Hts Hin Hnul Ho Ht Hne Hnn Hf Hcu Hty Ha Hold.
  destruct (options_run l s f name v t) as (s' & f' & E & Hcu' & Hv); [done..|].
  unfold Options_update. rewrite Hc.
  assert (merged_options (JObject []) (JObject l) = Ok (JObject l)) as Em.
  { unfold merged_options. simpl. by rewrite (merge_fresh l []). }
  unfold of_result. rewrite Em. rewrite (bind_run _ _ _ (JObject l) (s, f)) by done.
  rewrite (bind_run _ _ _ [] (s, f)) by done. rewrite (bind_run _ _ _ l (s, f)) by done.
  rewrite (bind_run _ _ _ _ _ E). eexists _, s', f'. split; [done|]. intros ext call.
  unfold Flag_getValue, instance. rewrite bind_gets. cbn [snd]. rewrite Hcu', Hcu.
  rewrite (bind_run _ _ _ (Some t) (s', f')) by (unfold on_gflags, zoom; simpl; by rewrite gf_get_law, Hv).
  rewrite bool_decide_false by done. by rewrite andb_false_r.
Qed.

(** A custom flag is set and reported as missing: the update of a flag with the
    prefix [custom_] that is no flag or alias stores the value, which reading the
    flag then gives, and returns a failure. *)
Theorem custom_flag_is_set_and_reported_missing (name value : string) (s : S) (f : Flag) :
  is_custom name = true -> flags_ f !! name = None -> aliases_ f !! name = None ->
  exists f', Flag_updateValue name value (s, f) = (Ok (mkStatus 1 "Flag not found"), (s, f')) /\
    forall ext call, Flag_getValue ext call name (s, f') = (Ok value, (s, f')).
Proof.
  intros Hc Hf Ha. eexists. unfold Flag_updateValue, instance. rewrite bind_gets. cbn [snd]. rewrite Hf, Ha, Hc.
  split; [reflexivity|]. intros ext call. unfold Flag_getValue, instance. rewrite bind_gets. cbn [snd custom_].
  by rewrite lookup_insert_eq.
Qed.

End Facts.
