(* ===== verification/Parsers.v ===== *)
(** * Config parsers (osquery/config/parsers)

    views.cpp, file_paths.cpp and the parsers that keep a copy of their key:
    events_parser.cpp, prometheus_targets.cpp, kafka_topics.cpp, feature_vectors.cpp
    and logger.cpp. The data of a parser, a document, is passed and returned. The
    decorators are in Decorators.v, the options in Flags.v. *)
From S2P Require Import Prelude Boost Conversions Json Database Query Host Packs Config Filesystem.

Section Copies.
Context {R : RapidJSON}.

(** [data_.add(key, copy)] when the key is there. *)
Definition copy_key (key : string) (config : gmap string json) (data : json) : result json :=
  match config !! key with Some v => JSON_add key v data | None => Ok data end.

Definition Events_setUp (data : json) : result json := JSON_add "events" JSON_newObject data.
Definition Events_update (config : gmap string json) (data : json) : result json := copy_key "events" config data.
Definition Prometheus_update (config : gmap string json) (data : json) : result json :=
  copy_key "prometheus_targets" config data.
Definition Kafka_update (config : gmap string json) (data : json) : result json := copy_key "kafka_topics" config data.
Definition FeatureVectors_update (config : gmap string json) (data : json) : result json :=
  copy_key "feature_vectors" config data.

(** [EraseMember]: the first member of that name goes, the others keep their order. *)
Definition erase_member (key : string) (ms : members) : members :=
  match FindMember key ms with Some i => delete i ms | None => ms end.

Definition Logger_update (config : gmap string json) (data : json) : result json :=
  match GetObject data with
  | Throw e => Throw e
  | Ok ms => copy_key "logger" config (JObject (erase_member "logger" ms))
  end.
End Copies.

(** ** Views *)

Section Views.
Context {S : Type} {A : DatabaseAPI S} {R : RapidJSON}.
(** [osquery::query(sql, r)]. *)
Context (query : string -> M S Status).

Definition kConfigViews : string := "config_views.".

Definition view_name (key : string) : string :=
  String.substring (String.length kConfigViews) (String.length key - String.length kConfigViews) key.

(** One view of the configuration; the names still to be erased are threaded. *)
Definition view_step (erase_views : gset string) (view : string * json) : M S (gset string) :=
  let name := c_str view.1 in
  match view.2 with
  | JString q =>
      let q := c_str q in
      if is_empty q then ret erase_views
      else
        let* old_query := api_get_str kQueries (kConfigViews +:+ name) in
        let erase_views := erase_views ∖ {[name]} in
        if bool_decide (old_query = q) then ret erase_views
        else
          query ("DROP VIEW " +:+ name) ;;;
          let* s := query ("CREATE VIEW " +:+ name +:+ " AS " +:+ q) in
          (if Status_ok s then api_set kQueries (kConfigViews +:+ name) q ;;; ret tt else ret tt) ;;;
          ret erase_views
  | _ => ret erase_views
  end.

Definition erase_view (old_view : string) : M S unit :=
  query ("DROP VIEW " +:+ old_view) ;;;
  api_delete kQueries (kConfigViews +:+ old_view) ;;; ret tt.

(** In the order of a [std::set]. *)
Definition sorted_names (X : gset string) : list string := merge_sort String.le (elements X).

Definition Views_update (config : gmap string json) (data : json) : M S (Status * json) :=
  match config !! "views" with
  | None => ret (Status1 1, data)
  | Some cv =>
      let* data := of_result (JSON_add "views" cv data) in
      let* (_, old_views_vec) := api_scan kQueries kConfigViews in
      let erase_views := list_to_set (view_name <$> old_views_vec) in
      let* erase_views := (match cv with
                           | JObject views => for_fold views erase_views view_step
                           | _ => ret erase_views
                           end) in
      for_each (sorted_names erase_views) erase_view ;;;
      ret (mkStatus 0 "OK", data)
  end.
End Views.

(** ** File paths *)

(** The document of the parser and its map of accesses. *)
Record FilePaths := mkFilePaths { fp_data : json; access_map_ : gmap string (list string) }.

Section FilePaths.
Context {S : Type} {P : Posix (Config S)} {R : RapidJSON} {B : Boost}.
(** [SQL(query)]: whether it succeeded, and its rows. *)
Context (sql : string -> M (Config S) (bool * list Row)).

Abbreviation W := (Config S * FilePaths)%type.
Definition on_config {A} (m : M (Config S) A) : M W A := zoom fst (fun c p => (c, p.2)) m.
Definition upd_paths (f : FilePaths -> FilePaths) : M W unit := modify (fun p => (p.1, f p.2)).

(** [data_.add(key, value)]. *)
Definition add_data (key : string) (value : json) : M W unit :=
  let* p := gets snd in
  let* d := of_result (JSON_add key value (fp_data p)) in
  upd_paths (fun p => mkFilePaths d (access_map_ p)).

Definition FilePaths_setUp : M W Status :=
  add_data "file_paths" JSON_newObject ;;;
  add_data "file_paths_query" JSON_newObject ;;;
  add_data "file_accesses" JSON_newArray ;;;
  add_data "exclude_paths" JSON_newObject ;;;
  ret Status_success.

Definition accesses_of (v : json) : list string :=
  match v with
  | JArray l => omap (fun c => match c with JString s => Some (c_str s) | _ => None end) l
  | _ => []
  end.

(** [file_accesses] is rebuilt from the accesses of all sources. *)
Definition update_accesses (source : string) (accesses : json) : M W unit :=
  upd_paths (fun p => mkFilePaths (fp_data p)
    (match accesses_of accesses with
     | [] => access_map_ p
     | l => <[source := default [] (access_map_ p !! source) ++ l]> (access_map_ p)
     end)) ;;;
  let* p := gets snd in
  let categories : gset string := list_to_set (map_sorted (access_map_ p) ≫= snd) in
  add_data "file_accesses" (JArray (JString <$> sorted_names categories)).

(** One path of a category; anything but a string violates a precondition. *)
Definition add_path (source name : string) (path : json) : M W unit :=
  let* pattern := of_result (GetString path) in
  if is_empty pattern then ret tt
  else
    let* pattern := on_config (replaceGlobWildcards pattern GLOB_ALL) in
    on_config (addFile source name pattern).

Definition add_category (source : string) (category : string * json) : M W unit :=
  match category.2 with
  | JArray paths => for_each paths (add_path source (c_str category.1))
  | _ => ret tt
  end.

Definition add_row (source name : string) (row : Row) : M W unit :=
  match row !! "path" with
  | None => ret tt
  | Some path =>
      let* path := on_config (replaceGlobWildcards path GLOB_ALL) in
      on_config (addFile source name path)
  end.

Definition add_query (source name : string) (query : json) : M W unit :=
  let* text := of_result (GetString query) in
  let* (ok, rows) := on_config (sql text) in
  if ok then for_each rows (add_row source name) else ret tt.

Definition add_query_category (source : string) (category : string * json) : M W unit :=
  match category.2 with
  | JArray queries => for_each queries (add_query source (c_str category.1))
  | _ => ret tt
  end.

Fixpoint strings_result (l : list json) : result (list json) :=
  match l with
  | [] => Ok []
  | v :: l => match GetString v with
              | Throw e => Throw e
              | Ok s => match strings_result l with Ok l => Ok (JString s :: l) | Throw e => Throw e end
              end
  end.

Fixpoint exclude_object (l : members) (obj : members) : result members :=
  match l with
  | [] => Ok obj
  | (k, JArray paths) :: l =>
      match strings_result paths with
      | Throw e => Throw e
      | Ok arr => exclude_object l (add_member (c_str k) (JArray arr) obj)
      end
  | _ :: l => exclude_object l obj
  end.

Definition update_excludes (exclude_paths : json) : M W unit :=
  let* obj := of_result (exclude_object (match exclude_paths with JObject l => l | _ => [] end) []) in
  let* p := gets snd in
  let* ms := of_result (GetObject (fp_data p)) in
  match member "exclude_paths" ms with
  | None => add_data "exclude_paths" (JObject obj)
  | Some old =>
      let* merged := of_result (JSON_mergeObject old (JObject obj)) in
      let ms := match FindMember "exclude_paths" ms with
                | Some i => <[i := ("exclude_paths", merged)]> ms
                | None => ms
                end in
      upd_paths (fun p => mkFilePaths (JObject ms) (access_map_ p))
  end.

Definition when {T} (o : option T) (f : T -> M W unit) : M W unit :=
  match o with Some x => f x | None => ret tt end.

Definition object_members (v : json) : members := match v with JObject l => l | _ => [] end.

Definition FilePaths_update (source : string) (config : gmap string json) : M W Status :=
  on_config (removeFiles source) ;;;
  upd_paths (fun p => mkFilePaths (fp_data p) (delete source (access_map_ p))) ;;;
  match config !! "file_paths", config !! "file_paths_query" with
  | None, None => ret Status_success
  | _, _ =>
      when (config !! "file_accesses") (update_accesses source) ;;;
      when (config !! "file_paths") (fun v => for_each (object_members v) (add_category source)) ;;;
      when (config !! "file_paths_query") (fun v => for_each (object_members v) (add_query_category source)) ;;;
      when (config !! "exclude_paths") update_excludes ;;;
      ret Status_success
  end.
End FilePaths.

(** ** The filesystem configuration plugin (osquery/config/plugins/filesystem_config.cpp) *)

Section FilesystemConfig.
Context {S : Type}.
(** [readFile], [resolveFilePattern] and [is_regular_file] with the value of its error
    code, Boost's property trees and the stem of a path. *)
Context (read_file : string -> M S (Status * string)) (resolve_pattern : string -> M S (list string)).
Context (is_regular_file : string -> M S (bool * Z)).
Context {T : Type} (pt_empty : T) (pt_read_json : string -> option T) (pt_put_child : T -> string -> T -> T).
Context (pt_write_json : T -> result string) (path_stem : string -> string).

Definition conf_step (config : gmap string string) (path : string) : M S (gmap string string) :=
  let* (s, content) := read_file path in
  ret (if Status_ok s then <[path := content]> config else config).

Definition FilesystemConfig_genConfig (FLAGS_config_path : string) (config : gmap string string)
    : M S (Status * gmap string string) :=
  let* (regular, ec) := is_regular_file FLAGS_config_path in
  if negb regular || negb (ec =? 0)%Z then
    ret (Status_failure ("config file does not exist: " +:+ FLAGS_config_path), config)
  else
    let* conf_files := resolve_pattern (FLAGS_config_path +:+ ".d/%.conf") in
    let* config := for_fold (merge_sort String.le conf_files ++ [FLAGS_config_path]) config conf_step in
    ret (mkStatus 0 "OK", config).

(** A file of a multi-pack: one that cannot be read or parsed is left out. *)
Definition multi_step (multi_pack : T) (path : string) : M S T :=
  let* (s, content) := read_file path in
  ret (if Status_ok s then
         match pt_read_json (stripConfigComments content) with
         | Some single_pack => pt_put_child multi_pack (path_stem path) single_pack
         | None => multi_pack
         end
       else multi_pack).

(** [genPack]: the status and the text of the pack. *)
Definition FilesystemConfig_genPack (name value pack : string) : M S (Status * string) :=
  if bool_decide (name = "*") then
    let* paths := resolve_pattern value in
    let* multi_pack := for_fold paths pt_empty multi_step in
    let* pack := of_result (pt_write_json multi_pack) in
    ret (if is_empty pack then mkStatus 1 "Multi-pack content empty" else Status1 0, pack)
  else
    let* (regular, ec) := is_regular_file value in
    if negb regular || negb (ec =? 0)%Z then ret (mkStatus 1 (value +:+ " is not a valid path"), pack)
    else read_file value.

(** The configuration is the readable ones of the main file and the files beside it, each
    under its path. *)
Lemma configuration_holds_the_readable_files (files : string -> Status * string) beside main w :
  (forall p, read_file p w = (Ok (files p), w)) -> is_regular_file main w = (Ok (true, 0%Z), w) ->
  resolve_pattern (main +:+ ".d/%.conf") w = (Ok beside, w) ->
  exists config, FilesystemConfig_genConfig main ∅ w = (Ok (mkStatus 0 "OK", config), w) /\
    forall p c, config !! p = Some c <-> (p ∈ main :: beside) /\ Status_ok (files p).1 = true /\ c = (files p).2.
Proof.
  intros Hread Hreg Hres. unfold FilesystemConfig_genConfig.
  rewrite (bind_run _ _ _ _ _ Hreg). cbn [negb orb Z.eqb].
  rewrite (bind_run _ _ _ _ _ Hres).
  assert (forall l acc, for_fold l acc conf_step w =
    (Ok (foldl (fun m p => if Status_ok (files p).1 then <[p := (files p).2]> m else m) acc l), w)) as Hfold.
  { induction l as [|p l IH]; intros acc; [done|]. cbn [for_fold foldl].
    rewrite (bind_run _ _ w (if Status_ok (files p).1 then <[p := (files p).2]> acc else acc) w); [apply IH|].
    unfold conf_step. rewrite (bind_run _ _ _ _ _ (Hread p)). by destruct (files p). }
  rewrite (bind_run _ _ _ _ _ (Hfold _ _)). eexists. split; [done|]. intros p c.
  assert (p ∈ main :: beside <-> p ∈ merge_sort String.le beside ++ [main]) as ->.
  { rewrite elem_of_cons, elem_of_app, list_elem_of_singleton, merge_sort_Permutation. tauto. }
  generalize (merge_sort String.le beside ++ [main]). intros l.
  induction l as [|q l IH] using rev_ind; [set_solver|].
  rewrite foldl_snoc, elem_of_app, list_elem_of_singleton.
  destruct (Status_ok (files q).1) eqn:E.
  - destruct (decide (p = q)) as [->|Hne].
    + rewrite lookup_insert_eq. split; [intros [= <-]; auto | by intros (_ & _ & ->)].
    + rewrite lookup_insert_ne, IH by done. split; intros (Hp & ?); (split; [|done]); [by left | by destruct Hp].
  - rewrite IH. split; intros (Hp & Hs & ?); (split; [|done]); [by left|]. destruct Hp as [|<-]; [done | congruence].
Qed.
End FilesystemConfig.
