(* ===== verification/ParsersFacts.v ===== *)
(** * Config parsers: the store mirrors the views SQLite created, the files of a source are replaced *)
From S2P Require Import Prelude Boost Conversions Json Database DatabaseFacts Query Host Packs Config Filesystem Parsers.

Section Views.
Context {S : Type} {A : DatabaseAPI S} {L : DatabaseAPILaws S} {Re : DatabaseAPIReliable S}.
Context {R : RapidJSON}.
Context (query : string -> M S Status).
(** A statement ends, with any status, and leaves the store alone. *)
Hypothesis query_law : forall q s, api_ready s -> exists st s', query q s = (Ok st, s') /\
  api_ready s' /\ forall d, api_view s' d = api_view s d.

(** The view of a member, when it is one. *)
Definition view_of (v : string * json) : option (string * string) :=
  match v.2 with
  | JString q => if is_empty (c_str q) then None else Some (c_str v.1, c_str q)
  | _ => None
  end.

(** The views a document asks for; a later one of the same name counts. *)
Definition add_view (w : gmap string string) (v : string * json) : gmap string string :=
  match view_of v with Some (n, q) => <[n := q]> w | None => w end.
Definition wanted (views : members) : gmap string string := foldl add_view ∅ views.





Lemma kQueries_in_domains : kQueries ∈ kDomains.
Proof using. by vm_compute; repeat constructor. Qed.













(** A stored view is not created again. If the store already has exactly the
    views of the configuration, as it does when the process starts again, an update
    runs no statement at all: the new SQLite instance never gets the views. *)
Theorem stored_views_are_not_created (config : gmap string json) (views ms : members) (s : S) :
  api_ready s -> config !! "views" = Some (JObject views) ->
  (forall v n q, v ∈ views -> view_of v = Some (n, q) -> api_view s kQueries !! (kConfigViews +:+ n) = Some q) ->
  (forall k, is_Some (api_view s kQueries !! (kConfigViews +:+ k)) -> is_Some (wanted views !! k)) ->
  exists data, Views_update query config (JObject ms) s = (Ok (mkStatus 0 "OK", data), s).
Proof using A L Re R.
  clear query_law. intros Hr Hc Hv Hw. unfold Views_update. rewrite Hc.
  rewrite (bind_run _ _ _ (JObject (add_member "views" (JObject views) ms)) s) by done.
  destruct (api_scan_law s kQueries kConfigViews Hr kQueries_in_domains) as (st & keys & Es & Hk).
  destruct (Hk (api_scan_ok _ _ _ _ _ _ Hr kQueries_in_domains Es)) as [_ Hkeys].
  rewrite (bind_run _ _ _ _ _ Es). set (X0 := list_to_set (view_name <$> keys) : gset string).
  assert (forall l (w : gmap string string), (forall v, v ∈ l -> v ∈ views) ->
    for_fold l (X0 ∖ dom w) (view_step query) s
    = (Ok (X0 ∖ dom (foldl add_view w l)), s)) as Hfold.
  { intros l. induction l as [|v l IH]; intros w Hl; [done|]. cbn [for_fold foldl].
    rewrite (bind_run _ _ _ (X0 ∖ dom (add_view w v)) s).
    { apply IH. intros x Hx. apply Hl. by right. }
    pose proof (Hv v) as Hvv. unfold view_step, add_view. unfold view_of in *. destruct v as [name j]. cbn [fst snd] in *.
    destruct j as [| | | |q| |]; try done. destruct (is_empty (c_str q)) eqn:Eq; [done|].
    specialize (Hvv (c_str name) (c_str q) (Hl _ ltac:(by left)) eq_refl).
    destruct (api_get_law s kQueries (kConfigViews +:+ c_str name) Hr kQueries_in_domains) as (st' & Eg & _).
    rewrite (bind_run _ _ _ (c_str q) s).
    2: { unfold api_get_str. rewrite (bind_run _ _ _ _ _ Eg), Hvv. done. }
    rewrite bool_decide_true by done. unfold ret. rewrite dom_insert_L. do 2 f_equal. set_solver. }
  assert (X0 ∖ dom (∅ : gmap string string) = X0) as Ex by (rewrite dom_empty_L; set_solver).
  rewrite <- Ex, (bind_run _ _ _ _ _ (Hfold views ∅ (fun v H => H))). fold (wanted views).
  assert (X0 ∖ dom (wanted views) = ∅) as ->.
  { apply set_eq. intros k. rewrite elem_of_difference. split; [|set_solver]. intros [Hk1 Hk2]. exfalso. apply Hk2, elem_of_dom, Hw.
    unfold X0 in Hk1. apply elem_of_list_to_set, list_elem_of_fmap in Hk1 as (key & -> & Hkey).
    apply Hkeys in Hkey as [Hs [n ->]%prefix_spec]. unfold view_name. by rewrite substring_app. }
  unfold sorted_names. rewrite elements_empty. eexists. done.
Qed.
End Views.

(** ** File paths *)

Section FilePaths.
Context {S : Type} {P : Posix (Config S)} {R : RapidJSON} {B : Boost}.
Context (sql : string -> M (Config S) (bool * list Row)).
Context (rep : string -> string).
(** Resolving a pattern reads the file system and changes nothing. *)
Hypothesis rep_law : forall p c, replaceGlobWildcards p GLOB_ALL c = (Ok (rep p), c).

Definition add_to (m : FileCategories) (name path : string) : FileCategories :=
  <[name := default [] (m !! name) ++ [path]]> m.

(** The files of a category, and of a document, in order. *)
Definition category_files (m : FileCategories) (category : string * list string) : FileCategories :=
  foldl (fun m p => if is_empty p then m else add_to m category.1 (rep p)) m category.2.

Definition document_files (m : FileCategories) (categories : list (string * list string)) : FileCategories :=
  foldl category_files m categories.

(** A document of categories of paths. *)
Definition category_json (category : string * list string) : string * json :=
  (category.1, JArray (JString <$> category.2)).

(** The state differs from [w] in the files of the source only. *)
Definition only_files (source : string) (w w' : Config S * FilePaths) (m : FileCategories) : Prop :=
  exists files, w' = (set_files files w.1, w.2) /\ default ∅ (files !! source) = m /\
    forall other, other <> source -> files !! other = files_ w.1 !! other.

Lemma set_files_files (c : Config S) (files : gmap string FileCategories) : files_ (set_files files c) = files.
Proof. done. Qed.

Lemma add_path_spec source name p w w' m : nul_free p -> only_files source w w' m ->
  exists w2, add_path source name (JString p) w' = (Ok tt, w2) /\
    only_files source w w2 (if is_empty p then m else add_to m name (rep p)).
Proof.
  intros Hp (files & -> & Hm & Ho). unfold add_path. rewrite (bind_run _ _ _ p (set_files files w.1, w.2)).
  2: { unfold of_result, GetString. by rewrite Hp. }
  destruct (is_empty p) eqn:Ee; [eexists; split; [done|]; by exists files|].
  rewrite (bind_run _ _ _ (rep p) (set_files files w.1, w.2)).
  2: { unfold on_config, zoom. cbn [fst snd]. by rewrite rep_law. }
  eexists. split; [reflexivity|].
  exists (<[source := add_to m name (rep p)]> files). cbn [fst snd]. split.
  - unfold add_to. rewrite <- Hm. reflexivity.
  - rewrite lookup_insert_eq. split; [done|]. intros other Hne. rewrite lookup_insert_ne by done. by apply Ho.
Qed.

Lemma add_paths_spec source name ps w w' m : Forall nul_free ps -> only_files source w w' m ->
  exists w2, for_each (JString <$> ps) (add_path source name) w' = (Ok tt, w2) /\
    only_files source w w2 (category_files m (name, ps)).
Proof.
  intros Hp. revert w' m. induction Hp as [|p ps Hp Hps IH]; intros w' m Ho; [by exists w'|].
  destruct (add_path_spec source name p w w' m Hp Ho) as (w1 & E1 & Ho1).
  destruct (IH w1 _ Ho1) as (w2 & E2 & Ho2). exists w2. cbn [fmap list_fmap for_each].
  rewrite (bind_run _ _ _ _ _ E1). done.
Qed.

Lemma add_categories_spec source cats w w' m :
  Forall (fun c => nul_free c.1 /\ Forall nul_free c.2) cats -> only_files source w w' m ->
  exists w2, for_each (category_json <$> cats) (add_category source) w' = (Ok tt, w2) /\
    only_files source w w2 (document_files m cats).
Proof.
  intros Hc. revert w' m. induction Hc as [|[name ps] cats [Hn Hp] Hcs IH]; intros w' m Ho; [by exists w'|].
  cbn [fst snd] in *. destruct (add_paths_spec source name ps w w' m Hp Ho) as (w1 & E1 & Ho1).
  destruct (IH w1 _ Ho1) as (w2 & E2 & Ho2). exists w2. cbn [fmap list_fmap for_each].
  rewrite (bind_run _ _ _ tt w1); [done|]. unfold add_category, category_json. cbn [fst snd]. by rewrite Hn.
Qed.

(** An update replaces the files of a source. With an object of categories of
    path patterns as the only key, the files of the source are afterwards exactly
    the resolved patterns of the document, by category and in order without the
    empty ones, whatever they were before, and those of every other source are
    unchanged. *)
Theorem update_replaces_the_files (source : string) (config : gmap string json) (cats : list (string * list string))
    (c : Config S) (fp : FilePaths) :
  config = {["file_paths" := JObject (category_json <$> cats)]} ->
  Forall (fun cat => nul_free cat.1 /\ Forall nul_free cat.2) cats ->
  exists c' fp', FilePaths_update sql source config (c, fp) = (Ok Status_success, (c', fp')) /\
    default ∅ (files_ c' !! source) = document_files ∅ cats /\
    (forall other, other <> source -> files_ c' !! other = files_ c !! other) /\
    access_map_ fp' = delete source (access_map_ fp).
Proof.
  intros -> Hc. unfold FilePaths_update.
  set (c1 := match files_ c !! source with Some _ => set_files (<[source := ∅]> (files_ c)) c | None => c end).
  set (fp1 := mkFilePaths (fp_data fp) (delete source (access_map_ fp))).
  rewrite (bind_run _ _ _ tt (c1, fp)) by done. unfold upd_paths. rewrite bind_modify. cbn [fst snd]. fold fp1.
  rewrite lookup_singleton_eq, (lookup_singleton_ne "file_paths" "file_paths_query"),
    (lookup_singleton_ne "file_paths" "file_accesses"), (lookup_singleton_ne "file_paths" "exclude_paths") by done.
  assert (only_files source (c1, fp1) (c1, fp1) ∅) as H0.
  { exists (files_ c1). split; [by destruct c1|]. split; [|done]. unfold c1. destruct (files_ c !! source) eqn:E.
    - by rewrite set_files_files, lookup_insert_eq.
    - by rewrite E. }
  destruct (add_categories_spec source cats _ _ ∅ Hc H0) as (w2 & E2 & files & -> & Hm & Ho).
  cbn [when]. rewrite bind_ret. cbn [object_members]. rewrite (bind_run _ _ _ _ _ E2), !bind_ret.
  eexists _, _. split; [reflexivity|]. cbn [fst snd]. rewrite set_files_files. split; [done|]. split; [|done].
  intros other Hne. rewrite Ho by done. cbn [fst]. unfold c1. destruct (files_ c !! source); [|done].
  by rewrite set_files_files, lookup_insert_ne.
Qed.
End FilePaths.
