(* ===== verification/Scan.v ===== *)
(** * Bounded scans of the store

    [scanDatabaseKeys(domain, keys, prefix, max)] with its limit, for the
    components that read the store a page at a time. A store that returns keys in
    ascending order, as RocksDB does and as the comment in
    osquery/logger/plugins/buffered.cpp assumes, satisfies [DatabaseOrdered]; the
    in-memory store of the repository is one, and the core process on top of an
    ordered plugin satisfies [DatabaseScanLaws]. *)
From S2P Require Import Prelude Boost Conversions Json Database DatabaseFacts Host.

(** The first [max] keys with the prefix in ascending order, all of them when
    [max] is 0. *)
Definition prefixed (prefix k : string) : Prop := String.prefix prefix k = true.
#[export] Instance prefixed_dec prefix k : Decision (prefixed prefix k) := decide (String.prefix prefix k = true).

Definition page (max : Z) (keys : list string) : list string :=
  if (0 <? max)%Z then take (Z.to_nat max) keys else keys.

Definition scan_keys (m : gmap string string) (prefix : string) (max : Z) : list string :=
  page max (filter (prefixed prefix) (map_sorted m).*1).

Class DatabaseScan (S : Type) := {
  api_scan_max : string -> string -> Z -> M S (Status * list string);
}.

Class DatabaseScanLaws (S : Type) {A : DatabaseAPI S} {L : DatabaseAPILaws S} {Sc : DatabaseScan S} := {
  api_scan_max_law s d prefix max : api_ready s -> d ∈ kDomains ->
    exists st, api_scan_max d prefix max s = (Ok (st, scan_keys (api_view s d) prefix max), s) /\
    Status_ok st = true;
}.

Class DatabaseOrdered (D : Type) {P : DatabasePlugin D} {L : DatabaseLaws D} := {
  ordered_scan_law s d prefix max : db_ready s -> d ∈ kDomains ->
    Status_ok (db_scan s d prefix max).1 = true /\
    (db_scan s d prefix max).2 = scan_keys (db_view s d) prefix max;
}.

(** ** Sorted key lists *)

Lemma key_le_total {V} : Total (@key_le V).
Proof. intros x y. apply (total String.le). Qed.

Lemma key_le_trans {V} : Transitive (@key_le V).
Proof. intros x y z. apply (transitivity (R := String.le)). Qed.

Lemma StronglySorted_fst {V} (l : list (string * V)) :
  StronglySorted key_le l -> StronglySorted String.le l.*1.
Proof.
  induction 1 as [|x l Hs IH Hx]; [constructor|]. simpl. constructor; [done|].
  by apply Forall_fmap.
Qed.

Lemma map_sorted_keys_sorted {V} (m : gmap string V) : StronglySorted String.le (map_sorted m).*1.
Proof.
  apply StronglySorted_fst. pose proof (@key_le_total V). pose proof (@key_le_trans V).
  apply StronglySorted_merge_sort; typeclasses eauto.
Qed.

Lemma sorted_filter {A} (R : A -> A -> Prop) (P : A -> Prop) `{forall x, Decision (P x)} l :
  StronglySorted R l -> StronglySorted R (filter P l).
Proof.
  induction 1 as [|x l Hs IH Hx]; [constructor|]. rewrite filter_cons. case_decide; [|done].
  constructor; [done|]. apply Forall_forall. intros y [_ Hy]%list_elem_of_filter.
  by eapply Forall_forall in Hx.
Qed.

Lemma sorted_app_le {A} (R : A -> A -> Prop) l1 l2 x y :
  StronglySorted R (l1 ++ l2) -> x ∈ l1 -> y ∈ l2 -> R x y.
Proof.
  induction l1 as [|a l1 IH]; simpl; [by intros _ ?%not_elem_of_nil|].
  inversion 1 as [|? ? Hs Ha]; subst. intros [->|Hx]%elem_of_cons Hy; [|by apply IH].
  eapply Forall_forall in Ha; [exact Ha|]. apply elem_of_app. by right.
Qed.

(** Dropping the values a map holds keeps the keys it is iterated by. *)
Lemma keys_determine {V} (l1 l2 : list (string * V)) :
  l1 ≡ₚ l2 -> l1.*1 = l2.*1 -> NoDup l1.*1 -> l1 = l2.
Proof.
  intros Hp. assert (forall x, x ∈ l1 -> x ∈ l2) as Hin by (intros x; by rewrite Hp). clear Hp.
  revert l2 Hin. induction l1 as [|[k v] l1 IH]; intros [|[k2 v2] l2] Hin; try done.
  cbn. intros [= <- Hk] [Hnin Hnd]%NoDup_cons.
  assert (v2 = v) as ->.
  { pose proof (Hin (k, v) ltac:(by left)) as E. apply elem_of_cons in E as [E|E]; [by simplify_eq|].
    exfalso. apply Hnin. rewrite Hk. by apply (list_elem_of_fmap_2 fst _ (k, v)). }
  f_equal. apply IH; [|done..]. intros [k' v'] Hx.
  pose proof (Hin (k', v') ltac:(by right)) as E. apply elem_of_cons in E as [E|E]; [|done].
  simplify_eq. exfalso. apply Hnin. by apply (list_elem_of_fmap_2 fst _ (k, v)).
Qed.

(** A list sorted by its distinct keys is what iterating its map gives. *)
Lemma map_sorted_of_sorted {V} (l : list (string * V)) :
  StronglySorted String.le l.*1 -> NoDup l.*1 -> map_sorted (list_to_map l) = l.
Proof.
  intros Hs Hnd.
  assert (map_sorted (list_to_map l) ≡ₚ l) as Hp by (by rewrite map_sorted_perm, map_to_list_to_map).
  apply keys_determine; [done| |apply NoDup_fst_map_sorted].
  eapply (StronglySorted_unique String.le); [apply map_sorted_keys_sorted | done | by rewrite Hp].
Qed.

Lemma map_sorted_keys_omap {V W} (f : V -> option W) (m : gmap string V) :
  map_Forall (fun _ v => is_Some (f v)) m -> (map_sorted (omap f m)).*1 = (map_sorted m).*1.
Proof.
  intros Hf. eapply (StronglySorted_unique String.le); [apply map_sorted_keys_sorted..|].
  apply NoDup_Permutation; [apply NoDup_fst_map_sorted..|].
  intros k. rewrite !list_elem_of_fmap. split.
  - intros ([k' w] & -> & Hin%elem_of_map_sorted). simpl.
    rewrite lookup_omap in Hin. apply bind_Some in Hin as (v & Hv & _).
    exists (k', v). by rewrite elem_of_map_sorted.
  - intros ([k' v] & -> & Hin%elem_of_map_sorted). destruct (Hf _ _ Hin) as [w Hw].
    exists (k', w). by rewrite elem_of_map_sorted, lookup_omap, Hin.
Qed.

(** *** Scans *)

Lemma page_incl max keys k : k ∈ page max keys -> k ∈ keys.
Proof. unfold page. destruct (0 <? max)%Z; [apply subseteq_take | done]. Qed.

Lemma page_split max keys : exists rest, keys = page max keys ++ rest.
Proof.
  unfold page. destruct (0 <? max)%Z; [by eexists; rewrite take_drop|]. exists []. by rewrite app_nil_r.
Qed.

Lemma scan_keys_NoDup m prefix max : NoDup (scan_keys m prefix max).
Proof.
  unfold scan_keys. assert (NoDup (filter (prefixed prefix) (map_sorted m).*1)) as Hn
    by apply NoDup_filter, NoDup_fst_map_sorted.
  destruct (page_split max (filter (prefixed prefix) (map_sorted m).*1)) as [rest E].
  rewrite E in Hn. by apply NoDup_app in Hn as (? & _).
Qed.

Lemma elem_of_scan_all m prefix k :
  k ∈ scan_keys m prefix 0 <-> is_Some (m !! k) /\ prefixed prefix k.
Proof.
  unfold scan_keys, page. simpl. rewrite list_elem_of_filter, list_elem_of_fmap. split.
  - intros [Hp ([k' v] & -> & Hin%elem_of_map_sorted)]. simpl. by eauto.
  - intros [[v Hv] Hp]. split; [done|]. exists (k, v). by rewrite elem_of_map_sorted.
Qed.

Lemma elem_of_scan m prefix max k :
  k ∈ scan_keys m prefix max -> is_Some (m !! k) /\ prefixed prefix k.
Proof. intros Hk%page_incl. by apply elem_of_scan_all. Qed.

Lemma scan_keys_page m prefix max : scan_keys m prefix max = page max (scan_keys m prefix 0).
Proof. done. Qed.

Lemma scan_keys_sorted m prefix : StronglySorted String.le (scan_keys m prefix 0).
Proof. apply sorted_filter, map_sorted_keys_sorted. Qed.

(** ** The in-memory store scans in order *)

Lemma scan_loop_page prefix max results keys :
  (0 < max -> Z.of_nat (length results) < max)%Z ->
  Ephemeral.scan_loop prefix max results keys
  = page max (results ++ filter (prefixed prefix) keys).
Proof.
  revert results. induction keys as [|k keys IH]; intros results Hlen; simpl.
  { rewrite app_nil_r. unfold page. destruct (Z.ltb_spec 0 max); [|done].
    rewrite take_ge; [done|lia]. }
  destruct (String.prefix prefix k) eqn:E.
  - rewrite andb_false_r, filter_cons_True by done.
    replace (results ++ k :: filter (prefixed prefix) keys)
      with ((results ++ [k]) ++ filter (prefixed prefix) keys) by by rewrite <- app_assoc.
    destruct ((0 <? max)%Z && (max <=? Z.of_nat (length (results ++ [k])))%Z) eqn:Em;
      simpl; [|rewrite IH; [done|]; apply andb_false_iff in Em as [?%Z.ltb_ge|?%Z.leb_gt]; lia].
    apply andb_true_iff in Em as [H0 Hm%Z.leb_le]. unfold page. rewrite H0.
    apply Z.ltb_lt in H0. specialize (Hlen H0). rewrite length_app in Hm. simpl in Hm.
    rewrite take_app_le, take_ge by (rewrite length_app; simpl; lia). done.
  - rewrite filter_cons_False by (unfold prefixed; congruence).
    destruct prefix; [by destruct k|]. simpl. by apply IH.
Qed.

#[export] Instance ephemeral_ordered : DatabaseOrdered Ephemeral.DBType.
Proof.
  split. intros s d prefix max Hr _. simpl. unfold Ephemeral.scan, scan_keys, EphemeralFacts.view.
  unfold Ephemeral.domain_map.
  destruct (s !! d) as [m|] eqn:E; simpl; (split; [done|]).
  - rewrite scan_loop_page by (simpl; lia). simpl. rewrite map_sorted_keys_omap; [done|].
    intros k v Hk. destruct (Hr d k v) as [x ->]; [|by eexists].
    unfold Ephemeral.domain_map. by rewrite E.
  - rewrite omap_empty, map_sorted_empty. unfold page. simpl.
    change (filter (prefixed prefix) []) with (@nil string).
    by destruct (0 <? max)%Z; [destruct (Z.to_nat max)|].
Qed.

(** ** The core process *)

#[export] Instance core_scan {D} {P : DatabasePlugin D} {R : RapidJSON} {B : Boost}
    : DatabaseScan (DbState D) := {
  api_scan_max := scanDatabaseKeys false core_registry_call;
}.

#[export] Instance core_scan_laws {D} {P : DatabasePlugin D} {L : DatabaseLaws D} {O : DatabaseOrdered D}
    {R : RapidJSON} {B : Boost} : DatabaseScanLaws (DbState D).
Proof.
  split. intros [d e a i] dom prefix max [Hi Hr] Hd. simpl in *. subst i.
  unfold scanDatabaseKeys. rewrite domain_nonempty, local_access_run by done.
  unfold active_scan, on_active, core_view. simpl. destruct a; simpl in *.
  - destruct (@ordered_scan_law _ _ _ ephemeral_ordered e dom prefix max Hr Hd) as [H1 H2]. simpl in *.
    destruct (Ephemeral.scan e dom prefix max) as [st keys]. simpl in *. subst keys. by exists st.
  - destruct (ordered_scan_law d dom prefix max Hr Hd) as [H1 H2].
    destruct (db_scan d dom prefix max) as [st keys]. simpl in *. subst keys. by exists st.
Qed.

#[export] Instance pair_scan {S T} {Sc : DatabaseScan S} : DatabaseScan (S * T) := {
  api_scan_max d p max := zoom fst (fun s p => (s, p.2)) (api_scan_max d p max);
}.

#[export] Instance pair_scan_laws {S T} {A : DatabaseAPI S} {L : DatabaseAPILaws S} {Sc : DatabaseScan S}
    {SL : DatabaseScanLaws S} : DatabaseScanLaws (S * T).
Proof.
  split. intros [s t] d p max Hr Hd. simpl. unfold zoom. simpl.
  destruct (api_scan_max_law s d p max Hr Hd) as (st & -> & H). by exists st.
Qed.

(** ** Scans after a deletion *)

Lemma scan_keys_delete m prefix k :
  scan_keys (delete k m) prefix 0 = filter (fun x => x <> k) (scan_keys m prefix 0).
Proof.
  eapply (StronglySorted_unique String.le).
  - apply scan_keys_sorted.
  - apply sorted_filter, scan_keys_sorted.
  - apply NoDup_Permutation; [apply scan_keys_NoDup | apply NoDup_filter, scan_keys_NoDup |].
    intros x. rewrite list_elem_of_filter, !elem_of_scan_all, lookup_delete_is_Some. naive_solver.
Qed.

(** Deleting the first key leaves the others. *)
Lemma scan_keys_delete_head m prefix k ks :
  scan_keys m prefix 0 = k :: ks -> scan_keys (delete k m) prefix 0 = ks.
Proof.
  intros E. pose proof (scan_keys_NoDup m prefix 0) as Hn. rewrite E in Hn.
  apply NoDup_cons in Hn as [Hk _]. rewrite scan_keys_delete, E, filter_cons_False by naive_solver.
  apply filter_all, Forall_forall. by intros x Hx ->.
Qed.

Lemma scan_keys_ext m m' prefix : (forall k, prefixed prefix k -> m !! k = m' !! k) ->
  scan_keys m prefix 0 = scan_keys m' prefix 0.
Proof.
  intros E. eapply (StronglySorted_unique String.le); [apply scan_keys_sorted.. |].
  apply NoDup_Permutation; [apply scan_keys_NoDup..|]. intros x. rewrite !elem_of_scan_all.
  split; intros [? Hp]; (split; [|done]); [by rewrite <- E | by rewrite E].
Qed.
