(* ===== verification/Buffered.v ===== *)
(** * The buffered log forwarder (osquery/logger/plugins/buffered.cpp and .h)

    Loggers that send to a remote service write every line to the store first
    and forward the stored lines periodically. The state is the host, what the
    subclass keeps about its service ([T], the argument of [send]), the index of
    the last line and the number of buffered lines. [send], the decorations, the
    JSON writer of boost::property_tree and [std::nth_element] are parameters. *)
From S2P Require Import Prelude Boost Conversions Json Database Host Scan.

(** [std::nth_element(begin, begin + n - 1, end, lt)] for a strict weak order:
    afterwards no element behind the first [n] is less than one of them. *)
Class NthElement := { nth_element : (string -> string -> bool) -> nat -> list string -> list string }.

Class NthElementLaws (N : NthElement) := {
  nth_element_perm lt n l : nth_element lt n l ≡ₚ l;
  nth_element_split lt n l x y :
    (forall x y z, lt y x = false -> lt z y = false -> lt z x = false) ->
    (forall x y, lt x y = false \/ lt y x = false) ->
    x ∈ take n (nth_element lt n l) -> y ∈ drop n (nth_element lt n l) -> lt y x = false;
}.

(** boost::property_tree as the forwarder uses it: [put], [put_child] and
    [write_json], which throws a [json_parser_error]. *)
Class PTreeWriter := {
  ptree : Type;
  pt_empty : ptree;
  pt_put : ptree -> string -> string -> ptree;
  pt_put_child : ptree -> string -> ptree -> ptree;
  pt_write_json : ptree -> string + string;
}.

Record StatusLogLine := mkStatusLogLine {
  log_severity : Z;
  log_filename : string;
  log_line : Z;
  log_message : string;
  log_calendar_time : string;
  log_time : Z;
  log_identifier : string;
}.

(** [std::string::pop_back] on a string that is not empty. *)
Definition pop_back (s : string) : string := of_chars (removelast (chars s)).

(** [a.compare(pos, npos, b, pos, npos) < 0]. *)
Definition suffix_lt (pos : nat) (a b : string) : bool :=
  str_lt (String.substring pos (String.length a - pos) a)
         (String.substring pos (String.length b - pos) b).

Record Forwarder (S T : Type) := mkForwarder {
  fwd_host : S;
  fwd_remote : T;
  log_index_ : Z;
  buffer_count_ : Z;
}.
Arguments mkForwarder {S T}.
Arguments fwd_host {S T}.
Arguments fwd_remote {S T}.
Arguments log_index_ {S T}.
Arguments buffer_count_ {S T}.

Definition kMaxLogLines : Z := 1024.

Section Forwarder.
Context {S T : Type} {A : DatabaseAPI S} {Sc : DatabaseScan S} {H : Host S}.
Context {NE : NthElement} {PW : PTreeWriter}.
Context (index_name_ : string) (max_log_lines_ : Z) (FLAGS_buffered_log_max : Z) (kVersion : string).
Context (send : list string -> string -> M T Status).
Context (getDecorations : M S (gmap string string)).

Abbreviation Fwd := (M (Forwarder S T)).

Definition on_host {X} (m : M S X) : Fwd X :=
  zoom fwd_host (fun h f => mkForwarder h (fwd_remote f) (log_index_ f) (buffer_count_ f)) m.
Definition on_remote {X} (m : M T X) : Fwd X :=
  zoom fwd_remote (fun r f => mkForwarder (fwd_host f) r (log_index_ f) (buffer_count_ f)) m.
Definition set_count (n : Z) (f : Forwarder S T) : Forwarder S T :=
  mkForwarder (fwd_host f) (fwd_remote f) (log_index_ f) n.
Definition set_log_index (n : Z) (f : Forwarder S T) : Forwarder S T :=
  mkForwarder (fwd_host f) (fwd_remote f) n (buffer_count_ f).

Definition setUp : Fwd Status :=
  let* (status, indexes) := on_host (api_scan_max kLogs index_name_ 0) in
  if negb (Status_ok status) then ret (mkStatus 1 "Error scanning for buffered log count")
  else modify (set_count (Z.of_nat (length indexes))) ;;; ret (Status1 0).

(** *** Indexes *)

Definition isIndex (index : string) (results : bool) : bool :=
  let target := (String.length index_name_ + 1)%nat in
  (target <? String.length index)%nat &&
  bool_decide (String.get target index = Some (if results then "r" else "s")%char).
Definition isResultIndex (index : string) : bool := isIndex index true.
Definition isStatusIndex (index : string) : bool := isIndex index false.

Definition genIndexPrefix (results : bool) : string :=
  index_name_ +:+ "_" +:+ (if results then "r" else "s") +:+ "_".

Definition index_of (results : bool) (time n : Z) : string :=
  genIndexPrefix results +:+ to_string time +:+ "_" +:+ to_string n.

Definition genIndex (results : bool) (time : Z) : Fwd string :=
  let* time := (if (time =? 0)%Z then on_host getUnixTime else ret time) in
  modify (fun f => set_log_index (u64 (log_index_ f + 1)) f) ;;;
  let* n := gets log_index_ in
  ret (index_of results time n).
Definition genResultIndex (time : Z) : Fwd string := genIndex true time.
Definition genStatusIndex (time : Z) : Fwd string := genIndex false time.

(** *** The count of buffered lines *)

Definition addValueWithCount (domain key value : string) : Fwd Status :=
  let* status := on_host (api_set domain key value) in
  (if Status_ok status
   then modify (fun f => set_count (u64 (buffer_count_ f + 1)) f)
   else ret tt) ;;;
  ret status.

Definition deleteValueWithCount (domain key : string) : Fwd Status :=
  let* status := on_host (api_delete domain key) in
  (if Status_ok status
   then modify (fun f => if (0 <? buffer_count_ f)%Z then set_count (buffer_count_ f - 1) f else f)
   else ret tt) ;;;
  ret status.

(** *** Purging *)

Definition purge : Fwd unit :=
  let* buffer_count := gets buffer_count_ in
  if (buffer_count <=? FLAGS_buffered_log_max)%Z then ret tt
  else
    let purge_count := (buffer_count - FLAGS_buffered_log_max)%Z in
    let* (status, indexes) := on_host (api_scan_max kLogs (genIndexPrefix true) purge_count) in
    if negb (Status_ok status) then ret tt
    else
      let* (status, status_indexes) :=
        on_host (api_scan_max kLogs (genIndexPrefix false) purge_count) in
      if negb (Status_ok status) then ret tt
      else
        let indexes := indexes ++ status_indexes in
        if (Z.of_nat (length indexes) <? purge_count)%Z then ret tt
        else
          let prefix_size := String.length (genIndexPrefix true) in
          let indexes := nth_element (suffix_lt prefix_size) (Z.to_nat purge_count) indexes in
          let indexes := take (Z.to_nat purge_count) indexes in
          for_each indexes (fun index => deleteValueWithCount kLogs index ;;; ret tt).

(** *** Forwarding *)

(** The first pass of [check]: the lines of the indexes, by type. *)
Definition collect_step (acc : list string * list string) (index : string)
    : Fwd (list string * list string) :=
  let '(results, statuses) := acc in
  let* (got, value) := on_host (api_get kLogs index) in
  if Status_ok got then
    let value := default "" value in
    if isResultIndex index then ret (results ++ [value], statuses)
    else ret (results, statuses ++ [value])
  else ret (results, statuses).

Definition collect (indexes : list string) : Fwd (list string * list string) :=
  for_fold indexes ([], []) collect_step.

(** Send the lines of one type and clear their indexes once they were sent. *)
Definition forward (lines : list string) (log_type : string) (is_type : string -> bool)
    (indexes : list string) : Fwd unit :=
  if (0 <? length lines)%nat then
    let* status := on_remote (send lines log_type) in
    if negb (Status_ok status) then ret tt
    else for_each indexes (fun index =>
           if negb (is_type index) then ret tt
           else deleteValueWithCount kLogs index ;;; ret tt)
  else ret tt.

Definition check : Fwd unit :=
  let* (_, indexes) := on_host (api_scan_max kLogs index_name_ max_log_lines_) in
  let* (results, statuses) := collect indexes in
  forward results "result" isResultIndex indexes ;;;
  forward statuses "status" isStatusIndex indexes ;;;
  if (0 <? FLAGS_buffered_log_max)%Z then purge else ret tt.

(** [n] turns of the loop of [start]. *)
Fixpoint start (n : nat) : Fwd unit :=
  match n with
  | O => ret tt
  | Datatypes.S n => check ;;; start n
  end.

(** *** Logging *)

Definition logString (s : string) (time : Z) : Fwd Status :=
  let* index := genResultIndex time in
  addValueWithCount kLogs index s.

Definition status_tree (decorations : gmap string string) (item : StatusLogLine) : ptree :=
  let dtree := foldl (fun t kv => pt_put t kv.1 kv.2) pt_empty (map_sorted decorations) in
  let buffer := pt_put pt_empty "hostIdentifier" (log_identifier item) in
  let buffer := pt_put buffer "calendarTime" (log_calendar_time item) in
  let buffer := pt_put buffer "unixTime" (to_string (log_time item)) in
  let buffer := pt_put buffer "severity" (to_string (log_severity item)) in
  let buffer := pt_put buffer "filename" (log_filename item) in
  let buffer := pt_put buffer "line" (to_string (log_line item)) in
  let buffer := pt_put buffer "message" (log_message item) in
  let buffer := pt_put buffer "version" kVersion in
  if (0 <? size decorations)%nat then pt_put_child buffer "decorations" dtree else buffer.

Definition logStatus (log : list StatusLogLine) (time : Z) : Fwd Status :=
  let* decorations := on_host getDecorations in
  let* o := for_flow log tt (fun _ item =>
    match pt_write_json (status_tree decorations item) with
    | inr what => ret (Return (mkStatus 1 what))
    | inl json =>
        let json := if negb (is_empty json) then pop_back json else json in
        let* index := genStatusIndex time in
        let* status := addValueWithCount kLogs index json in
        if negb (Status_ok status) then ret (Return status) else ret (Next tt)
    end) in
  match o with
  | Return status => ret status
  | Next _ => ret (Status1 0)
  end.
End Forwarder.
