(* ===== verification/BufferedFacts.v ===== *)
(** * Facts about the buffered log forwarder

    The count of buffered lines is the number of indexes of the forwarder in the
    store; a check loses and duplicates nothing; when the service accepts what it
    is sent, the buffer drains; purging keeps the limit and deletes the oldest
    lines. *)
From S2P Require Import Prelude Boost Conversions Json Database DatabaseFacts Host Scan Buffered.

(** ** [std::nth_element] by sorting *)

Definition le_of (lt : string -> string -> bool) (x y : string) : Prop := lt y x = false.
#[export] Instance le_of_dec lt : RelDecision (le_of lt).
Proof. intros x y. unfold le_of. apply _. Defined.

#[export] Instance nth_exec : NthElement := {
  nth_element lt n l := merge_sort (le_of lt) l;
}.

#[export] Instance nth_exec_laws : NthElementLaws nth_exec.
Proof.
  split; simpl.
  - intros. apply merge_sort_Permutation.
  - intros lt n l x y Htr Htot Hx Hy.
    assert (Transitive (le_of lt)) by (intros a b c; apply Htr).
    assert (Total (le_of lt)) by (intros a b; destruct (Htot b a); unfold le_of; auto).
    pose proof (StronglySorted_merge_sort (le_of lt) l) as Hs.
    rewrite <- (take_drop n (merge_sort (le_of lt) l)) in Hs.
    exact (sorted_app_le _ _ _ _ _ Hs Hx Hy).
Qed.

(** ** Strings *)

Lemma str_lt_spec a b : str_lt a b = false <-> String.le b a.
Proof.
  unfold str_lt. rewrite andb_false_iff, bool_decide_eq_false, negb_false_iff, bool_decide_eq_true.
  split.
  - intros [Hn | ->]; [|reflexivity]. by destruct (total String.le a b).
  - intros Hb. destruct (decide (a = b)) as [->|Hne]; [by right|]. left. intros Ha.
    by apply Hne, (anti_symm String.le).
Qed.

Definition suffix_from (pos : nat) (a : string) : string :=
  String.substring pos (String.length a - pos) a.

Lemma suffix_lt_spec pos a b : suffix_lt pos a b = false <-> String.le (suffix_from pos b) (suffix_from pos a).
Proof. apply str_lt_spec. Qed.

(** Comparing strings with a common prefix compares what follows it. *)
Lemma le_app_l p a b : String.le (p +:+ a) (p +:+ b) <-> String.le a b.
Proof.
  induction p as [|c p IH]; [done|]. rewrite !app_cons_str, <- IH. unfold String.le, String.leb.
  simpl. unfold Ascii.compare. by rewrite N.compare_refl.
Qed.

Lemma suffix_from_app p a pos : String.length p = pos -> suffix_from pos (p +:+ a) = a.
Proof. intros <-. apply substring_app. Qed.

(** A run of digits before a separator is determined by the text. *)
Lemma digits_sep_inj a b a' b' :
  all_digits a = true -> all_digits a' = true ->
  a +:+ "_" +:+ b = a' +:+ "_" +:+ b' -> a = a' /\ b = b'.
Proof.
  revert a'. induction a as [|c a IH]; intros [|c' a'] Ha Ha' E; rewrite ?app_cons_str in E;
    repeat change ("" +:+ ?x) with x in E.
  - by simplify_eq.
  - by simplify_eq/=.
  - by simplify_eq/=.
  - simplify_eq/=. unfold all_digits, all_chars in *. simpl in *.
    apply andb_true_iff in Ha as [_ Ha], Ha' as [_ Ha'].
    destruct (IH a' Ha Ha') as [-> ->]; done.
Qed.

(** ** Runs *)

Lemma kLogs_domain : kLogs ∈ kDomains.
Proof. unfold kDomains. set_solver. Qed.

Section Facts.
Context {S T : Type} {A : DatabaseAPI S} {L : DatabaseAPILaws S} {Rel : DatabaseAPIReliable S}.
Context {Sc : DatabaseScan S} {SL : DatabaseScanLaws S} {H : Host S} {HL : HostLaws S}.
Context {NE : NthElement} {NL : NthElementLaws NE} {PW : PTreeWriter}.
Context (name : string) (max_lines log_max : Z).

Abbreviation Fwd := (Forwarder S T).

Definition fwd_ready (f : Fwd) : Prop := api_ready (fwd_host f).

(** What the store holds in the domain of the logs. *)
Definition logs (f : Fwd) : gmap string string := api_view (fwd_host f) kLogs.

(** The indexes of the forwarder, oldest first within a type. *)
Definition buffered (f : Fwd) : list string := scan_keys (logs f) name 0.

(** The count is exact. *)
Definition counted (f : Fwd) : Prop := buffer_count_ f = Z.of_nat (length (buffered f)).

Lemma on_host_run {X} (m : M S X) (f : Fwd) x h :
  m (fwd_host f) = (Ok x, h) ->
  on_host m f = (Ok x, mkForwarder h (fwd_remote f) (log_index_ f) (buffer_count_ f)).
Proof. unfold on_host, zoom. by intros ->. Qed.

Lemma on_remote_run {X} (m : M T X) (f : Fwd) x r :
  m (fwd_remote f) = (Ok x, r) ->
  on_remote m f = (Ok x, mkForwarder (fwd_host f) r (log_index_ f) (buffer_count_ f)).
Proof. unfold on_remote, zoom. by intros ->. Qed.

Lemma scan_run prefix max (f : Fwd) : fwd_ready f ->
  exists st, on_host (api_scan_max kLogs prefix max) f = (Ok (st, scan_keys (logs f) prefix max), f) /\
    Status_ok st = true.
Proof.
  intros Hr. destruct (api_scan_max_law (fwd_host f) kLogs prefix max Hr kLogs_domain) as (st & E & Hok).
  exists st. split; [|done]. rewrite (on_host_run _ _ _ _ E). by destruct f.
Qed.

(** The indexes [ks] are deleted, and counted as deleted. *)
Record deleted (ks : list string) (f f' : Fwd) : Prop := {
  del_ready : fwd_ready f';
  del_view d k : api_view (fwd_host f') d !! k =
    if decide (d = kLogs /\ k ∈ ks) then None else api_view (fwd_host f) d !! k;
  del_index : log_index_ f' = log_index_ f;
  del_count : buffer_count_ f' = Z.max 0 (buffer_count_ f - Z.of_nat (length ks));
}.

Lemma deleted_nil (f : Fwd) : fwd_ready f -> (0 <= buffer_count_ f)%Z -> deleted [] f f.
Proof.
  intros Hr Hc. split; try done; [|simpl; lia].
  intros d k. rewrite decide_False; [done|]. by intros [_ ?%not_elem_of_nil].
Qed.

Lemma deleted_app ks ks' f f1 f2 :
  deleted ks f f1 -> deleted ks' f1 f2 -> deleted (ks ++ ks') f f2.
Proof.
  intros [Hr1 Hv1 Hi1 Hc1] [Hr2 Hv2 Hi2 Hc2]. split; [done | | congruence |].
  - intros d k. rewrite Hv2, Hv1.
    destruct (decide (d = kLogs /\ k ∈ ks')), (decide (d = kLogs /\ k ∈ ks)),
      (decide (d = kLogs /\ k ∈ ks ++ ks')); set_solver.
  - rewrite length_app. lia.
Qed.

Lemma delete_one k (f : Fwd) : fwd_ready f -> (0 <= buffer_count_ f)%Z ->
  exists st f', deleteValueWithCount kLogs k f = (Ok st, f') /\ deleted [k] f f' /\
    fwd_remote f' = fwd_remote f.
Proof.
  intros Hr Hc. unfold deleteValueWithCount.
  destruct (api_delete_law (fwd_host f) kLogs k Hr kLogs_domain) as (st & h & E & Hr' & Hv).
  pose proof (api_delete_ok _ _ _ _ _ Hr kLogs_domain E) as Hok. rewrite Hok in Hv.
  rewrite (bind_run _ _ _ _ _ (on_host_run _ _ _ _ E)), Hok.
  eexists st, _. split; [done|]. simpl.
  split; [|by destruct (0 <? buffer_count_ f)%Z].
  destruct (Z.ltb_spec 0 (buffer_count_ f)); (split; simpl; [done | | done | lia]);
  intros d k'; rewrite Hv; unfold update_domain; repeat case_decide; subst; simpl;
    rewrite ?lookup_delete; repeat case_decide; set_solver.
Qed.

(** The loops that clear the indexes a test selects. *)
Lemma delete_loop_run (p : string -> bool) ks (f : Fwd) : fwd_ready f -> (0 <= buffer_count_ f)%Z ->
  exists f', for_each ks (fun k => if negb (p k) then ret tt
                                   else deleteValueWithCount kLogs k ;;; ret tt) f = (Ok tt, f') /\
    deleted (filter (fun k => p k = true) ks) f f' /\ fwd_remote f' = fwd_remote f.
Proof.
  revert f. induction ks as [|k ks IH]; intros f Hr Hc.
  { exists f. split_and!; [done | by apply deleted_nil | done]. }
  simpl. destruct (p k) eqn:Ep; simpl.
  - destruct (delete_one k f Hr Hc) as (st & f1 & E1 & D1 & M1).
    destruct (IH f1 (del_ready _ _ _ D1)) as (f2 & E2 & D2 & M2); [rewrite (del_count _ _ _ D1); lia|].
    exists f2. rewrite (bind_run _ _ f tt f1), filter_cons_True by (done || by unfold bind; rewrite E1).
    split_and!; [done | exact (deleted_app [k] _ _ _ _ D1 D2) | congruence].
  - rewrite filter_cons_False by congruence. by apply IH.
Qed.

Lemma del_logs ks f f' k : deleted ks f f' ->
  logs f' !! k = if decide (k ∈ ks) then None else logs f !! k.
Proof.
  intros D. unfold logs. rewrite (del_view _ _ _ D).
  destruct (decide (kLogs = kLogs /\ k ∈ ks)), (decide (k ∈ ks)); naive_solver.
Qed.

Lemma del_buffered ks f f' : deleted ks f f' -> buffered f' = filter (fun k => k ∉ ks) (buffered f).
Proof.
  intros D. eapply (StronglySorted_unique String.le).
  - apply scan_keys_sorted.
  - apply sorted_filter, scan_keys_sorted.
  - apply NoDup_Permutation; [apply scan_keys_NoDup | apply NoDup_filter, scan_keys_NoDup |].
    intros k. unfold buffered. rewrite list_elem_of_filter, !elem_of_scan_all, (del_logs _ _ _ _ D).
    case_decide; [|naive_solver]. split; [by intros [[]]|naive_solver].
Qed.

(** Deleting indexes of the forwarder keeps the count exact. *)
Lemma del_counted ks f f' :
  deleted ks f f' -> NoDup ks -> ks ⊆ buffered f -> counted f -> counted f'.
Proof.
  intros D Hn Hin Hc. unfold counted in *. rewrite (del_count _ _ _ D), Hc, (del_buffered _ _ _ D).
  assert (length (buffered f) = length (filter (fun k => k ∉ ks) (buffered f)) + length ks)%nat; [|lia].
  rewrite <- length_app. apply Permutation_length.
  apply NoDup_Permutation; [apply scan_keys_NoDup | |].
  - apply NoDup_app. split_and!; [apply NoDup_filter, scan_keys_NoDup | | done].
    by intros k [Hk _]%list_elem_of_filter.
  - intros k. rewrite elem_of_app, list_elem_of_filter. destruct (decide (k ∈ ks)); set_solver.
Qed.

(** *** Checking *)

(** The value of a buffered index, and its line as the service sees it. *)
Definition value_of (f : Fwd) (k : string) : string := default "" (logs f !! k).
Definition type_of (k : string) : string := if isResultIndex name k then "result" else "status".
Definition line_of (f : Fwd) (k : string) : string * string := (type_of k, value_of f k).
Definition lines (f : Fwd) : list (string * string) := line_of f <$> buffered f.

Definition is_result (k : string) : Prop := isResultIndex name k = true.

Lemma get_run (f : Fwd) k : fwd_ready f -> is_Some (logs f !! k) ->
  exists st, on_host (api_get kLogs k) f = (Ok (st, Some (value_of f k)), f) /\ Status_ok st = true.
Proof.
  intros Hr Hk. destruct (api_get_law (fwd_host f) kLogs k Hr kLogs_domain) as (st & E & Hok).
  exists st. rewrite (on_host_run _ _ _ _ E). split; [|by apply Hok].
  unfold value_of. destruct Hk as [v Hv]. rewrite Hv. unfold logs in Hv. rewrite Hv. by destruct f.
Qed.

Lemma collect_run (f : Fwd) ks : fwd_ready f -> Forall (fun k => is_Some (logs f !! k)) ks ->
  collect name ks f = (Ok (value_of f <$> filter is_result ks,
                           value_of f <$> filter (fun k => ~ is_result k) ks), f).
Proof.
  intros Hr Hks. unfold collect.
  enough (forall r s, for_fold ks (r, s) (collect_step name) f =
    (Ok (r ++ (value_of f <$> filter is_result ks),
         s ++ (value_of f <$> filter (fun k => ~ is_result k) ks)), f)) as E by exact (E [] []).
  induction Hks as [|k ks Hk Hks IH]; intros r s; simpl; [by rewrite !app_nil_r|].
  destruct (get_run f k Hr Hk) as (st & E & Hok). unfold bind. rewrite E, Hok. simpl.
  destruct (isResultIndex name k) eqn:Ek; simpl; rewrite IH.
  - rewrite filter_cons_True, (filter_cons_False (fun k => ~ is_result k)) by (unfold is_result; naive_solver).
    by rewrite <- app_assoc.
  - rewrite filter_cons_False, (filter_cons_True (fun k => ~ is_result k)) by (unfold is_result; congruence).
    by rewrite <- app_assoc.
Qed.

(** Only this forwarder's indexes have its name as a prefix. *)
Definition own_index (k : string) : Prop :=
  prefixed (genIndexPrefix name true) k \/ prefixed (genIndexPrefix name false) k.
Definition own (f : Fwd) : Prop := Forall own_index (buffered f).

Lemma get_app_r p a n : String.get (String.length p + n) (p +:+ a) = String.get n a.
Proof. induction p as [|c p IH]; [done|]. by rewrite app_cons_str. Qed.

Lemma length_app_str a b : String.length (a +:+ b) = (String.length a + String.length b)%nat.
Proof. by rewrite <- !length_chars, chars_app, length_app. Qed.

Lemma isIndex_prefixed b b' k : prefixed (genIndexPrefix name b) k -> isIndex name k b' = Bool.eqb b b'.
Proof.
  unfold prefixed. rewrite prefix_spec. intros [n ->]. unfold isIndex, genIndexPrefix.
  rewrite !app_assoc_str, get_app_r, !length_app_str.
  destruct (Nat.ltb_spec (String.length name + 1)
    (String.length name + (String.length "_" + (String.length (if b then "r" else "s") +
       (String.length "_" + String.length n))))) as [Hl|Hl].
  - by destruct b, b'.
  - exfalso. destruct b; simpl in Hl; lia.
Qed.

Lemma own_status k : own_index k -> isStatusIndex name k = negb (isResultIndex name k).
Proof.
  unfold isStatusIndex, isResultIndex.
  by intros [Hk|Hk]; rewrite !(isIndex_prefixed _ _ _ Hk).
Qed.

Lemma prefixed_trans p q k : prefixed (p +:+ q) k -> prefixed p k.
Proof.
  unfold prefixed. rewrite !prefix_spec. intros [n ->]. exists (q +:+ n). by rewrite app_assoc_str.
Qed.

Lemma own_prefixed k : own_index k -> prefixed name k.
Proof. by intros [Hk|Hk]; unfold genIndexPrefix in Hk; apply prefixed_trans in Hk. Qed.

(** *** Purging *)

Definition prefix_size : nat := String.length (genIndexPrefix name true).

(** What purging orders lines by: the index behind the prefix, which starts with
    the time. *)
Definition age (k : string) : string := suffix_from prefix_size k.

Lemma prefix_size_any b : String.length (genIndexPrefix name b) = prefix_size.
Proof. unfold prefix_size, genIndexPrefix. rewrite !length_app_str. by destruct b. Qed.

Lemma age_le b x y :
  prefixed (genIndexPrefix name b) x -> prefixed (genIndexPrefix name b) y ->
  String.le x y -> String.le (age x) (age y).
Proof.
  unfold prefixed. rewrite !prefix_spec. intros [n ->] [m ->] Hle%le_app_l.
  unfold age. by rewrite !suffix_from_app by apply prefix_size_any.
Qed.

(** The indexes of one type, oldest first. *)
Definition typed (f : Fwd) (b : bool) : list string := scan_keys (logs f) (genIndexPrefix name b) 0.

Lemma typed_disjoint f x : x ∈ typed f true -> x ∈ typed f false -> False.
Proof.
  intros [_ H1]%elem_of_scan_all [_ H2]%elem_of_scan_all.
  pose proof (isIndex_prefixed _ true _ H1) as E1. pose proof (isIndex_prefixed _ true _ H2) as E2.
  rewrite E1 in E2. done.
Qed.

Lemma buffered_typed f : own f -> buffered f ≡ₚ typed f true ++ typed f false.
Proof.
  intros Ho. apply NoDup_Permutation; [apply scan_keys_NoDup | |].
  - apply NoDup_app. split_and!; [apply scan_keys_NoDup | intros x Hx Hy; by eapply typed_disjoint | apply scan_keys_NoDup].
  - intros k. rewrite elem_of_app. unfold typed. rewrite !elem_of_scan_all. split.
    + intros Hk. pose proof (proj1 (Forall_forall _ _) Ho k Hk) as [Hp|Hp];
        apply elem_of_scan_all in Hk; naive_solver.
    + intros Hk. apply elem_of_scan_all. split; [naive_solver|].
      apply own_prefixed. unfold own_index. naive_solver.
Qed.

Lemma take_sorted_le b f n x y :
  x ∈ take n (typed f b) -> y ∈ drop n (typed f b) -> String.le (age x) (age y).
Proof.
  intros Hx Hy. pose proof (scan_keys_sorted (logs f) (genIndexPrefix name b)) as Hs.
  assert (x ∈ typed f b) as [_ Px]%elem_of_scan_all by (by eapply subseteq_take).
  assert (y ∈ typed f b) as [_ Py]%elem_of_scan_all by (by eapply subseteq_drop).
  apply (age_le b); [done..|]. rewrite <- (take_drop n (scan_keys _ _ _)) in Hs.
  exact (sorted_app_le _ _ _ _ _ Hs Hx Hy).
Qed.

(** The candidates of both types and the [n] of them that are deleted. *)
Definition candidates (f : Fwd) (n : nat) : list string :=
  take n (typed f true) ++ take n (typed f false).
Definition selected (f : Fwd) (n : nat) : list string :=
  take n (nth_element (suffix_lt prefix_size) n (candidates f n)).

Lemma NoDup_take {X} n (l : list X) : NoDup l -> NoDup (take n l).
Proof. rewrite <- (take_drop n l) at 1. by intros (? & _)%NoDup_app. Qed.

Lemma candidates_NoDup f n : NoDup (candidates f n).
Proof.
  apply NoDup_app. split_and!; try apply NoDup_take, scan_keys_NoDup.
  intros x Hx%subseteq_take Hy%subseteq_take. by eapply typed_disjoint.
Qed.

Lemma selected_candidates f n : NoDup (selected f n) /\ selected f n ⊆ candidates f n.
Proof.
  pose proof (nth_element_perm (suffix_lt prefix_size) n (candidates f n)) as Hp. split.
  - apply NoDup_take. rewrite Hp. apply candidates_NoDup.
  - intros x Hx%subseteq_take. by rewrite Hp in Hx.
Qed.

(** A candidate that is kept is not older than one that is deleted. *)
Lemma selected_le f n x y :
  x ∈ selected f n -> y ∈ candidates f n -> y ∉ selected f n -> String.le (age x) (age y).
Proof.
  intros Hx Hy Hn. unfold selected in *. set (l := nth_element _ n (candidates f n)) in *.
  assert (y ∈ drop n l) as Hd.
  { assert (y ∈ l) as Hl by (unfold l; by rewrite nth_element_perm).
    rewrite <- (take_drop n l) in Hl. apply elem_of_app in Hl as [?|?]; [done|done]. }
  apply (nth_element_split (suffix_lt prefix_size) n (candidates f n) x y) in Hd; [|..|exact Hx].
  - by apply suffix_lt_spec in Hd.
  - intros a b c. rewrite !suffix_lt_spec. intros; by etrans.
  - intros a b. rewrite !suffix_lt_spec. apply (total String.le).
Qed.

(** When a type has candidates left over, one of its first [n] was kept. *)
Lemma kept_candidate f n b x : length (selected f n) = n -> x ∈ selected f n ->
  x ∉ take n (typed f b) -> length (take n (typed f b)) = n ->
  exists z, z ∈ take n (typed f b) /\ z ∉ selected f n.
Proof.
  intros Hlen Hx Hnx Hl. destruct (decide (take n (typed f b) ⊆ selected f n)) as [Hs|Hs].
  - exfalso. apply Hnx. assert (take n (typed f b) ≡ₚ selected f n) as ->; [|done].
    apply submseteq_length_Permutation; [|lia].
    apply NoDup_submseteq; [apply NoDup_take, scan_keys_NoDup | done].
  - assert (exists z, z ∈ take n (typed f b) /\ z ∉ selected f n) as ?; [|done].
    apply Exists_exists. apply not_Forall_Exists; [apply _|].
    intros HF. apply Hs. intros z Hz. by eapply Forall_forall in HF.
Qed.

Lemma selected_oldest f n x y : own f -> length (selected f n) = n ->
  x ∈ selected f n -> y ∈ buffered f -> y ∉ selected f n -> String.le (age x) (age y).
Proof.
  intros Ho Hlen Hx Hy Hn. destruct (decide (y ∈ candidates f n)) as [Hc|Hc]; [by eapply selected_le|].
  assert (exists b, y ∈ drop n (typed f b)) as [b Hd].
  { rewrite buffered_typed in Hy by done. unfold candidates in Hc.
    apply elem_of_app in Hy as [Hy|Hy]; [exists true | exists false];
      rewrite <- (take_drop n (typed f _)) in Hy; set_solver. }
  destruct (decide (x ∈ take n (typed f b))) as [Hxt|Hxt]; [by eapply take_sorted_le|].
  destruct (kept_candidate f n b x) as (z & Hz & Hzn); [done..| |].
  { rewrite length_take. assert (length (drop n (typed f b)) <> 0)%nat as Hne
      by (by destruct (drop n (typed f b)); [apply not_elem_of_nil in Hd|]).
    rewrite length_drop in Hne. lia. }
  transitivity (age z); [|by eapply take_sorted_le].
  apply (selected_le f n); [done| |done]. unfold candidates. destruct b; set_solver.
Qed.

Definition excess (f : Fwd) : nat := Z.to_nat (buffer_count_ f - log_max).

Lemma selected_length f : own f -> counted f -> (0 <= log_max)%Z ->
  length (selected f (excess f)) = excess f.
Proof.
  intros Ho Hc Hm. unfold selected. rewrite length_take.
  rewrite nth_element_perm. unfold candidates. rewrite length_app, !length_take.
  pose proof (Permutation_length (buffered_typed f Ho)) as Hl. rewrite length_app in Hl.
  unfold counted in Hc. unfold excess. lia.
Qed.

Lemma scan_typed f b : (log_max < buffer_count_ f)%Z ->
  scan_keys (logs f) (genIndexPrefix name b) (buffer_count_ f - log_max) = take (excess f) (typed f b).
Proof.
  intros Hlt. rewrite scan_keys_page. unfold page.
  destruct (Z.ltb_spec 0 (buffer_count_ f - log_max)); [done|lia].
Qed.

(** Deleting without a test. *)
Lemma delete_all_run ks (f : Fwd) : fwd_ready f -> (0 <= buffer_count_ f)%Z ->
  exists f', for_each ks (fun k => deleteValueWithCount kLogs k ;;; ret tt) f = (Ok tt, f') /\
    deleted ks f f' /\ fwd_remote f' = fwd_remote f.
Proof.
  intros Hr Hc. destruct (delete_loop_run (fun _ => true) ks f Hr Hc) as (f' & E & D & Hm).
  rewrite filter_all in D by by apply Forall_true. by exists f'.
Qed.

Lemma purge_run f : fwd_ready f -> counted f -> own f -> (0 <= log_max)%Z ->
  exists ks f', purge name log_max f = (Ok tt, f') /\ deleted ks f f' /\
    fwd_remote f' = fwd_remote f /\ ks = selected f (excess f).
Proof.
  intros Hr Hc Ho Hm. assert (0 <= buffer_count_ f)%Z as H0 by (rewrite Hc; lia).
  unfold purge. rewrite bind_gets.
  destruct (Z.leb_spec (buffer_count_ f) log_max) as [Hle|Hlt].
  { exists [], f. split_and!; [done | by apply deleted_nil | done |].
    unfold selected. by replace (excess f) with 0%nat by (unfold excess; lia). }
  destruct (scan_run (genIndexPrefix name true) (buffer_count_ f - log_max) f Hr) as (st1 & E1 & O1).
  rewrite (bind_run _ _ _ _ _ E1), O1. simpl.
  destruct (scan_run (genIndexPrefix name false) (buffer_count_ f - log_max) f Hr) as (st2 & E2 & O2).
  rewrite (bind_run _ _ _ _ _ E2), O2. simpl. rewrite !scan_typed by done.
  pose proof (selected_length f Ho Hc Hm) as Hl. fold (candidates f (excess f)).
  assert (excess f <= length (candidates f (excess f)))%nat as Hcl.
  { rewrite <- (nth_element_perm (suffix_lt prefix_size) (excess f)), <- Hl at 1. unfold selected.
    rewrite length_take. lia. }
  destruct (Z.ltb_spec (Z.of_nat (length (candidates f (excess f)))) (buffer_count_ f - log_max)) as [Hx|_];
    [unfold excess in *; lia|].
  destruct (delete_all_run (selected f (excess f)) f Hr H0) as (f' & E & D & M). by exists (selected f (excess f)), f'.
Qed.

Lemma selected_buffered f n : own f -> selected f n ⊆ buffered f.
Proof.
  intros Ho x Hx. rewrite (buffered_typed f Ho). apply selected_candidates in Hx.
  unfold candidates in Hx. rewrite elem_of_app in *. destruct Hx as [Hx|Hx]; apply subseteq_take in Hx; auto.
Qed.

Lemma del_own ks f f' : deleted ks f f' -> own f -> own f'.
Proof.
  intros D Ho. unfold own. rewrite (del_buffered _ _ _ D). apply Forall_forall.
  intros k [_ Hk]%list_elem_of_filter. by eapply Forall_forall in Ho.
Qed.

(** Purging enforces the limit and deletes the oldest lines. If the count is
    exact and only this forwarder uses its name, then after [purge] the buffer
    holds as many lines as before or [buffered_log_max], whichever is less, the
    count is still exact, and every line that was deleted is at least as old as
    every line that was kept (by the text of its time and index). *)
Theorem purge_deletes_the_oldest (f : Fwd) :
  fwd_ready f -> counted f -> own f -> (0 <= log_max)%Z ->
  exists f', purge name log_max f = (Ok tt, f') /\
    counted f' /\ buffer_count_ f' = Z.min (buffer_count_ f) log_max /\
    (forall x, x ∈ buffered f' -> x ∈ buffered f) /\
    (forall x y, x ∈ buffered f -> x ∉ buffered f' -> y ∈ buffered f' ->
       String.le (age x) (age y)).
Proof.
  intros Hr Hc Ho Hm. destruct (purge_run f Hr Hc Ho Hm) as (ks & f' & E & D & _ & ->).
  pose proof (selected_length f Ho Hc Hm) as Hl. exists f'. split; [done|]. split_and!.
  - eapply del_counted; [exact D | apply selected_candidates | by apply selected_buffered | done].
  - rewrite (del_count _ _ _ D), Hl. unfold counted, excess in *. lia.
  - rewrite (del_buffered _ _ _ D). by intros x [_ Hx]%list_elem_of_filter.
  - intros x y Hx Hnx. rewrite (del_buffered _ _ _ D) in Hnx |- *. intros [Hny Hy]%list_elem_of_filter.
    apply (selected_oldest f (excess f)); [done..| |done|done].
    rewrite list_elem_of_filter in Hnx. destruct (decide (x ∈ selected f (excess f))); naive_solver.
Qed.

(** *** The service *)

Context (send : list string -> string -> M T Status).
Context (delivered : T -> list (string * string)).

(** [send] returns, and what the service holds grows by the lines it accepted. *)
Definition service : Prop := forall l ty r, exists st r', send l ty r = (Ok st, r') /\
  delivered r' = delivered r ++ (if Status_ok st then pair ty <$> l else []).

(** The service accepts everything it is sent. *)
Definition accepting : Prop := forall l ty r st r', send l ty r = (Ok st, r') -> Status_ok st = true.

Hypothesis send_service : service.

(** The lines of [ks] left the buffer for the service. *)
Definition exchanged (ks : list string) (f f' : Fwd) : Prop :=
  deleted ks f f' /\ delivered (fwd_remote f') = delivered (fwd_remote f) ++ (line_of f <$> ks).

Lemma exchanged_app ks ks' f f1 f2 :
  exchanged ks f f1 -> exchanged ks' f1 f2 -> (forall k, k ∈ ks -> k ∈ ks' -> False) ->
  exchanged (ks ++ ks') f f2.
Proof.
  intros [D1 E1] [D2 E2] Hd. split; [by eapply deleted_app|].
  rewrite E2, E1, fmap_app, app_assoc. f_equal. apply list_fmap_ext. intros i k Hk.
  unfold line_of, value_of. rewrite (del_logs _ _ _ _ D1), decide_False; [done|].
  intros Hin. apply (Hd k Hin). by apply list_elem_of_lookup_2 in Hk.
Qed.

Lemma forward_run f ty (p : string -> bool) ks : fwd_ready f -> (0 <= buffer_count_ f)%Z ->
  (forall k, k ∈ ks -> p k = true -> type_of k = ty) ->
  exists ks' f', forward send (value_of f <$> filter (fun k => p k = true) ks) ty p ks f = (Ok tt, f') /\
    exchanged ks' f f' /\
    (ks' = [] \/ ks' = filter (fun k => p k = true) ks) /\
    (accepting -> ks' = filter (fun k => p k = true) ks).
Proof.
  intros Hr Hc Hty. set (mine := filter (fun k => p k = true) ks). unfold forward.
  destruct (Nat.ltb_spec 0 (length (value_of f <$> mine))) as [Hl|Hl].
  - destruct (send_service (value_of f <$> mine) ty (fwd_remote f)) as (st & r & E & Hd).
    rewrite (bind_run _ _ _ _ _ (on_remote_run _ _ _ _ E)).
    set (f1 := mkForwarder (fwd_host f) r (log_index_ f) (buffer_count_ f)).
    destruct (Status_ok st) eqn:Hok; simpl.
    + destruct (delete_loop_run p ks f1) as (f2 & E2 & D2 & M2); [done..|].
      exists mine, f2. rewrite E2. split_and!; [done | | by right | done].
      split; [by destruct D2; split|]. rewrite M2. simpl. rewrite Hd. f_equal.
      rewrite <- list_fmap_compose. apply list_fmap_ext. intros i k Hk%list_elem_of_lookup_2.
      apply list_elem_of_filter in Hk as [Hp Hk]. unfold line_of. by rewrite (Hty k).
    + exists [], f1. split_and!; [done | | by left |].
      * split; [|exact Hd]. destruct (deleted_nil f Hr Hc). by split.
      * intros Ha. apply Ha in E. congruence.
  - assert (mine = []) as Em by (destruct mine; [done | simpl in Hl; lia]).
    exists [], f. split_and!; [done | | by left | done].
    split; [by apply deleted_nil|]. by rewrite app_nil_r.
Qed.

(** The indexes one check looks at. *)
Definition head_page (f : Fwd) : list string := scan_keys (logs f) name max_lines.

Lemma head_page_buffered f k : k ∈ head_page f -> k ∈ buffered f.
Proof. intros Hk%elem_of_scan. by apply elem_of_scan_all. Qed.

Definition is_status (k : string) : Prop := isStatusIndex name k = true.

Lemma own_types k : own_index k -> (~ is_result k <-> is_status k).
Proof.
  intros Hk%own_status. unfold is_result, is_status. rewrite Hk.
  by destruct (isResultIndex name k).
Qed.

Lemma filter_own ks : Forall own_index ks -> filter (fun k => ~ is_result k) ks = filter is_status ks.
Proof.
  induction 1 as [|k ks Hk Hks IH]; [done|]. rewrite !filter_cons, IH.
  destruct (own_types k Hk). repeat case_decide; naive_solver.
Qed.

(** The second batch is not touched by the first. *)
Lemma exchanged_value ks f f' (l : list string) : exchanged ks f f' -> (forall k, k ∈ ks -> k ∈ l -> False) ->
  value_of f <$> l = value_of f' <$> l.
Proof.
  intros [D _] Hd. apply list_fmap_ext. intros i k Hk%list_elem_of_lookup_2.
  unfold value_of. rewrite (del_logs _ _ _ _ D), decide_False; [done|].
  intros Hin. by apply (Hd k).
Qed.

Lemma exchanged_count ks f f' : exchanged ks f f' -> (0 <= buffer_count_ f')%Z.
Proof. intros [D _]. rewrite (del_count _ _ _ D). lia. Qed.

(** Both types of lines together. *)
Lemma forward_both_run f ks : fwd_ready f -> (0 <= buffer_count_ f)%Z -> Forall own_index ks ->
  Forall (fun k => is_Some (logs f !! k)) ks -> NoDup ks ->
  exists sent f',
    (let* (results, statuses) := collect name ks in
     forward send results "result" (isResultIndex name) ks ;;;
     forward send statuses "status" (isStatusIndex name) ks) f = (Ok tt, f') /\
    exchanged sent f f' /\ NoDup sent /\ sent ⊆ ks /\ (accepting -> sent ≡ₚ ks).
Proof.
  intros Hr Hc Hown Hks Hnd. rewrite (bind_run _ _ f _ _ (collect_run f ks Hr Hks)).
  rewrite (filter_own ks Hown).
  destruct (forward_run f "result" (isResultIndex name) ks) as (k1 & f1 & E1 & X1 & O1 & A1); [done.. | |].
  { intros k _ Hk. unfold type_of. by rewrite Hk. }
  unfold is_result, is_status. rewrite (bind_run _ _ _ _ _ E1).
  assert (forall k, k ∈ ks -> is_result k -> ~ is_status k) as Hdisj.
  { intros k Hk Hres Hst. eapply Forall_forall in Hown; [|exact Hk]. by apply own_types in Hown as [_ Hn]; apply Hn. }
  rewrite (exchanged_value k1 f f1); [|exact X1|].
  2: { intros k H1 [Hs Hk]%list_elem_of_filter. destruct O1 as [-> | ->]; [by apply not_elem_of_nil in H1|].
       apply list_elem_of_filter in H1 as [Hres _]. by apply (Hdisj k). }
  destruct (forward_run f1 "status" (isStatusIndex name) ks) as (k2 & f2 & E2 & X2 & O2 & A2).
  { apply X1. } { by eapply exchanged_count. }
  { intros k Hk Hs. unfold type_of. destruct (isResultIndex name k) eqn:Hres; [|done].
    by destruct (Hdisj k Hk). }
  exists (k1 ++ k2), f2. split; [exact E2|].
  assert (forall k, k ∈ k1 -> k ∈ ks /\ is_result k) as H1.
  { intros k Hk. destruct O1 as [-> | ->]; [by apply not_elem_of_nil in Hk|].
    by apply list_elem_of_filter in Hk as [? ?]. }
  assert (forall k, k ∈ k2 -> k ∈ ks /\ is_status k) as H2.
  { intros k Hk. destruct O2 as [-> | ->]; [by apply not_elem_of_nil in Hk|].
    by apply list_elem_of_filter in Hk as [? ?]. }
  assert (forall k, k ∈ k1 -> k ∈ k2 -> False) as Hd.
  { intros k [Hk Ha]%H1 [_ Hb]%H2. by apply (Hdisj k). }
  split_and!; [by eapply exchanged_app | | |].
  - apply NoDup_app. split_and!; [|by intros k Ha Hb; apply (Hd k)|].
    + destruct O1 as [-> | ->]; [apply NoDup_nil_2 | by apply NoDup_filter].
    + destruct O2 as [-> | ->]; [apply NoDup_nil_2 | by apply NoDup_filter].
  - intros k [Hk|Hk]%elem_of_app; [by apply H1 | by apply H2].
  - intros Ha. rewrite (A1 Ha), (A2 Ha).
    change (filter is_result ks ++ filter is_status ks ≡ₚ ks).
    rewrite <- (filter_own ks Hown). apply filter_app_complement.
Qed.

(** *** One check *)

(** The state between checks. *)
Record settled (f : Fwd) : Prop := {
  settled_ready : fwd_ready f;
  settled_counted : counted f;
  settled_own : own f;
}.

Lemma del_settled ks f f' :
  deleted ks f f' -> NoDup ks -> ks ⊆ buffered f -> settled f -> settled f'.
Proof.
  intros D Hn Hk [Hr Hc Ho]. split; [apply D | by eapply del_counted | by eapply del_own].
Qed.

Lemma check_run f : settled f -> (0 <= log_max)%Z ->
  exists sent purged f1 f', check name max_lines log_max send f = (Ok tt, f') /\
    exchanged sent f f1 /\ NoDup sent /\ sent ⊆ head_page f /\ (accepting -> sent ≡ₚ head_page f) /\
    settled f1 /\ deleted purged f1 f' /\ fwd_remote f' = fwd_remote f1 /\ settled f' /\
    ((buffer_count_ f <= log_max)%Z \/ log_max = 0%Z -> purged = []).
Proof.
  intros [Hr Hc Ho] Hm. unfold check.
  destruct (scan_run name max_lines f Hr) as (st & E & _). rewrite (bind_run _ _ _ _ _ E).
  change (scan_keys (logs f) name max_lines) with (head_page f).
  destruct (forward_both_run f (head_page f)) as (sent & f1 & E1 & X1 & N1 & I1 & A1); [done| | | | |].
  { rewrite Hc. lia. }
  { apply Forall_forall. intros k Hk%head_page_buffered. by eapply Forall_forall in Ho. }
  { apply Forall_forall. by intros k [? _]%elem_of_scan. }
  { apply scan_keys_NoDup. }
  assert (settled f1) as S1.
  { eapply del_settled; [apply X1 | done | | done]. intros k Hk%I1. by apply head_page_buffered. }
  assert (forall (k : M Fwd unit), (let* (results, statuses) := collect name (head_page f) in
     forward send results "result" (isResultIndex name) (head_page f) ;;;
     forward send statuses "status" (isStatusIndex name) (head_page f) ;;; k) f = k f1) as Hk.
  { intros k. rewrite <- (bind_run _ (fun _ => k) _ _ _ E1). unfold bind.
    destruct (collect name (head_page f) f) as [[[rs ss]|] f0]; [|done].
    destruct (forward send rs _ _ _ f0) as [[[]|] f2]; [|done]. done. }
  rewrite Hk. destruct (Z.ltb_spec 0 log_max).
  - destruct S1 as [R1 C1 O1]. destruct (purge_run f1 R1 C1 O1 Hm) as (ks & f' & E2 & D2 & M2 & ->).
    exists sent, (selected f1 (excess f1)), f1, f'. split_and!; try done.
    + eapply del_settled; [exact D2 | apply selected_candidates | by apply selected_buffered | done].
    + intros [Hle|?]; [|lia]. unfold selected. replace (excess f1) with 0%nat; [done|].
      unfold excess. rewrite (del_count _ _ _ (proj1 X1)). lia.
  - exists sent, [], f1, f1. split_and!; try done. apply deleted_nil; [apply S1|].
    rewrite (settled_counted _ S1). lia.
Qed.

Lemma exchanged_lines ks f f' : NoDup ks -> ks ⊆ buffered f -> exchanged ks f f' ->
  delivered (fwd_remote f') ++ lines f' ≡ₚ delivered (fwd_remote f) ++ lines f.
Proof.
  intros Hn Hk [D Hd]. rewrite Hd, <- app_assoc. apply Permutation_app_head.
  assert (line_of f' <$> buffered f' = line_of f <$> buffered f') as E.
  { apply list_fmap_ext. intros i k Hi%list_elem_of_lookup_2. unfold line_of, value_of.
    rewrite (del_logs _ _ _ _ D), decide_False; [done|].
    rewrite (del_buffered _ _ _ D) in Hi. by apply list_elem_of_filter in Hi as [? _]. }
  unfold lines. rewrite E, <- fmap_app. apply fmap_Permutation.
  rewrite (del_buffered _ _ _ D), Permutation_app_comm.
  apply NoDup_Permutation; [|apply scan_keys_NoDup|].
  - apply NoDup_app. split_and!; [apply NoDup_filter, scan_keys_NoDup | | done].
    by intros k [? _]%list_elem_of_filter.
  - intros k. rewrite elem_of_app, list_elem_of_filter. destruct (decide (k ∈ ks)); set_solver.
Qed.

Lemma check_conserves (f : Fwd) :
  settled f -> (0 <= log_max)%Z -> (buffer_count_ f <= log_max)%Z \/ log_max = 0%Z ->
  exists f', check name max_lines log_max send f = (Ok tt, f') /\ settled f' /\
    delivered (fwd_remote f') ++ lines f' ≡ₚ delivered (fwd_remote f) ++ lines f.
Proof.
  intros Hs Hm Hle.
  destruct (check_run f Hs Hm) as (ks & ps & f1 & f' & E & X & N & I & _ & S1 & D & M & S2 & P).
  rewrite (P Hle) in D. exists f'. split_and!; [done..|].
  rewrite <- (exchanged_lines ks f f1 N) by (done || intros k Hk%I; by apply head_page_buffered).
  rewrite M. apply Permutation_app_head. unfold lines, line_of, value_of.
  rewrite (del_buffered _ _ _ D), filter_all by (apply Forall_forall; by intros ? ? ?%not_elem_of_nil).
  replace (logs f') with (logs f1); [done|]. apply map_eq. intros k.
  rewrite (del_logs _ _ _ k D), decide_False; [done|]. apply not_elem_of_nil.
Qed.

(** A check neither loses nor duplicates a line, whatever the service
    answers. If [send] returns and the service holds exactly the batches it
    accepted, and the buffer is within its limit, then what the service holds
    together with what is still buffered is the same before and after. *)
Theorem check_conserves_lines (f : Fwd) :
  settled f -> (0 <= log_max)%Z -> (buffer_count_ f <= log_max)%Z \/ log_max = 0%Z ->
  exists f', check name max_lines log_max send f = (Ok tt, f') /\ settled f' /\
    delivered (fwd_remote f') ++ lines f' ≡ₚ delivered (fwd_remote f) ++ lines f.
Proof. exact (check_conserves f). Qed.

(** *** Draining *)

Lemma del_length ks f f' : deleted ks f f' -> NoDup ks -> ks ⊆ buffered f -> counted f ->
  length (buffered f') = (length (buffered f) - length ks)%nat.
Proof.
  intros D Hn Hk Hc. pose proof (del_counted _ _ _ D Hn Hk Hc) as Hc'. unfold counted in *.
  rewrite (del_count _ _ _ D) in Hc'. lia.
Qed.

Lemma head_page_length f : (0 < max_lines)%Z ->
  length (head_page f) = Nat.min (Z.to_nat max_lines) (length (buffered f)).
Proof.
  intros Hm. unfold head_page. rewrite scan_keys_page. unfold page.
  destruct (Z.ltb_spec 0 max_lines); [|lia]. apply length_take.
Qed.

Lemma accepting_check f : accepting -> settled f -> (0 <= log_max)%Z -> (0 < max_lines)%Z ->
  exists f', check name max_lines log_max send f = (Ok tt, f') /\ settled f' /\
    (length (buffered f') <= length (buffered f) - Z.to_nat max_lines)%nat.
Proof.
  intros Ha Hs Hm Hl.
  destruct (check_run f Hs Hm) as (ks & ps & f1 & f' & E & X & N & I & Hp & S1 & D & _ & S2 & _).
  exists f'. split_and!; [done..|].
  assert (length (buffered f') <= length (buffered f1))%nat.
  { rewrite (del_buffered _ _ _ D). apply length_filter. }
  assert (length (buffered f1) = length (buffered f) - length ks)%nat as Hlen.
  { apply (del_length ks); [apply X | done | | apply Hs]. intros k Hk%I. by apply head_page_buffered. }
  pose proof (Permutation_length (Hp Ha)). rewrite (head_page_length f Hl) in *. lia.
Qed.

(** C14: The buffer drains. Once the service accepts what it is sent, the loop of
    the forwarder empties a buffer of any size: [n] turns are enough when [n]
    pages hold it. If the buffer is within its limit, every line that was buffered
    has then reached the service, once. *)
Theorem buffer_drains (n : nat) (f : Fwd) :
  accepting -> settled f -> (0 <= log_max)%Z -> (0 < max_lines)%Z ->
  (length (buffered f) <= n * Z.to_nat max_lines)%nat ->
  exists f', start name max_lines log_max send n f = (Ok tt, f') /\
    settled f' /\ buffered f' = [] /\ buffer_count_ f' = 0%Z /\
    ((buffer_count_ f <= log_max)%Z \/ log_max = 0%Z ->
     delivered (fwd_remote f') ≡ₚ delivered (fwd_remote f) ++ lines f).
Proof.
  intros Ha Hs Hm Hl. revert f Hs. induction n as [|n IH]; intros f Hs Hn.
  - exists f. assert (buffered f = []) as E by (apply length_zero_iff_nil; lia).
    split_and!; [done..| rewrite (settled_counted _ Hs), E; done |].
    intros _. unfold lines. by rewrite E, app_nil_r.
  - simpl. destruct (accepting_check f Ha Hs Hm Hl) as (f1 & E1 & S1 & L1).
    destruct (IH f1 S1) as (f' & E & S' & B' & C' & Hd); [simpl in Hn; lia|].
    exists f'. rewrite (bind_run _ _ _ _ _ E1). split_and!; [done..|]. intros Hle.
    destruct (check_conserves f Hs Hm Hle) as (f2 & E2 & S2 & P2). rewrite E1 in E2. simplify_eq.
    rewrite Hd; [exact P2|]. destruct Hle as [Hle|?]; [left|by right].
    rewrite (settled_counted _ S1). rewrite (settled_counted _ Hs) in Hle. lia.
Qed.

(** *** Logging *)

(** No index to come is in the buffer. *)
Definition fresh (f : Fwd) : Prop := forall b t n,
  (0 <= t)%Z -> (log_index_ f < n)%Z -> index_of name b t n ∉ buffered f.

Lemma index_of_inj b t n b' t' n' :
  (0 <= t)%Z -> (0 <= t')%Z -> (0 <= n)%Z -> (0 <= n')%Z ->
  index_of name b t n = index_of name b' t' n' -> n = n'.
Proof.
  intros Ht Ht' Hn Hn' E. unfold index_of in E. apply (f_equal (suffix_from prefix_size)) in E.
  rewrite !suffix_from_app in E by apply prefix_size_any.
  apply digits_sep_inj in E as [_ E]; [|by apply all_digits_to_string..].
  apply (f_equal dec_value) in E. rewrite !dec_value_to_string in E by done. congruence.
Qed.

Lemma index_own b t n : own_index (index_of name b t n).
Proof. unfold own_index, prefixed. rewrite !prefix_spec. destruct b; [left|right]; by eexists. Qed.

Record logging (f : Fwd) : Prop := {
  log_settled : settled f;
  log_fresh : fresh f;
  log_index_nonneg : (0 <= log_index_ f)%Z;
}.

(** [k] lines can be logged before a counter wraps. *)
Definition room (k : Z) (f : Fwd) : Prop :=
  (log_index_ f + k < 2 ^ 64)%Z /\ (buffer_count_ f + k < 2 ^ 64)%Z.

Lemma genIndex_run b t f : fwd_ready f -> (0 <= log_index_ f)%Z -> (log_index_ f + 1 < 2 ^ 64)%Z ->
  in_u64 t -> exists t' h, genIndex name b t f = (Ok (index_of name b t' (log_index_ f + 1)),
      mkForwarder h (fwd_remote f) (log_index_ f + 1) (buffer_count_ f)) /\
    (0 <= t')%Z /\ (t <> 0%Z -> t' = t) /\ api_ready h /\ forall d, api_view h d = api_view (fwd_host f) d.
Proof.
  intros Hr H0 Hi Ht. unfold genIndex. destruct (Z.eqb_spec t 0) as [->|Hne].
  - destruct (time_law (fwd_host f) Hr) as (t' & h & E & [Ht' _] & Hr' & Hv).
    rewrite (bind_run _ _ _ _ _ (on_host_run _ _ _ _ E)), bind_modify, bind_gets. simpl.
    rewrite u64_small by (unfold in_u64; lia). exists t', h. by split_and!.
  - rewrite bind_ret, bind_modify, bind_gets. simpl. rewrite u64_small by (unfold in_u64; lia).
    exists t, (fwd_host f). destruct Ht. by split_and!.
Qed.

Lemma add_run k v f : fwd_ready f -> (0 <= buffer_count_ f)%Z -> (buffer_count_ f + 1 < 2 ^ 64)%Z ->
  exists st h, addValueWithCount kLogs k v f =
      (Ok st, mkForwarder h (fwd_remote f) (log_index_ f) (buffer_count_ f + 1)) /\
    Status_ok st = true /\ api_ready h /\
    forall d, api_view h d = update_domain (api_view (fwd_host f)) kLogs (<[k := v]> (logs f)) d.
Proof.
  intros Hr H0 Hc. unfold addValueWithCount, api_set.
  destruct (api_set_batch_law (fwd_host f) kLogs [(k, v)] Hr kLogs_domain) as (st & h & E & Hr' & Hv).
  pose proof (api_set_batch_ok _ _ _ _ _ Hr kLogs_domain E) as Hok. rewrite Hok in Hv.
  rewrite (bind_run _ _ _ _ _ (on_host_run _ _ _ _ E)), Hok. exists st, h.
  rewrite bind_modify. simpl. rewrite u64_small by (unfold in_u64; lia). done.
Qed.

(** One line is added under a new index. *)
Record line_added (k v : string) (f f' : Fwd) : Prop := {
  add_logging : logging f';
  add_perm : buffered f' ≡ₚ k :: buffered f;
  add_logs : logs f' = <[k := v]> (logs f);
  add_remote : fwd_remote f' = fwd_remote f;
  add_index : log_index_ f' = (log_index_ f + 1)%Z;
  add_count : buffer_count_ f' = (buffer_count_ f + 1)%Z;
}.

Lemma insert_buffered (m : gmap string string) k v : m !! k = None -> prefixed name k ->
  scan_keys (<[k := v]> m) name 0 ≡ₚ k :: scan_keys m name 0.
Proof.
  intros Hk Hp. apply NoDup_Permutation; [apply scan_keys_NoDup | |].
  - apply NoDup_cons. split; [|apply scan_keys_NoDup]. rewrite elem_of_scan_all, Hk. by intros [[] _].
  - intros x. rewrite elem_of_cons, !elem_of_scan_all.
    destruct (decide (x = k)) as [->|Hne]; [rewrite lookup_insert_eq; naive_solver|].
    rewrite lookup_insert_ne by done. naive_solver.
Qed.

Lemma add_line_run b t v f : logging f -> room 1 f -> in_u64 t ->
  exists st k f', (let* i := genIndex name b t in addValueWithCount kLogs i v) f = (Ok st, f') /\
    Status_ok st = true /\ line_added k v f f' /\ type_of k = (if b then "result" else "status").
Proof.
  intros [[Hr Hc Ho] Hf H0] [Hi Hb] Ht.
  destruct (genIndex_run b t f Hr H0 Hi Ht) as (t' & h & E & Ht' & _ & Hr' & Hv).
  set (k := index_of name b t' (log_index_ f + 1)) in *.
  rewrite (bind_run _ _ _ _ _ E). set (f1 := mkForwarder h _ _ _).
  destruct (add_run k v f1) as (st & h' & E' & Hok & Hr'' & Hv'); [done | simpl; rewrite Hc; lia | done |].
  eexists st, k, _. split; [exact E'|]. split; [done|].
  assert (logs f !! k = None) as Hnone.
  { apply eq_None_not_Some. intros Hs. apply (Hf b t' (log_index_ f + 1)%Z); [lia..|].
    apply elem_of_scan_all. split; [done|]. apply own_prefixed, index_own. }
  assert (api_view h' kLogs = <[k := v]> (logs f)) as Hl.
  { rewrite Hv'. unfold update_domain. rewrite decide_True by done. unfold logs. simpl. by rewrite Hv. }
  assert (scan_keys (api_view h' kLogs) name 0 ≡ₚ k :: buffered f) as Hp.
  { rewrite Hl. apply insert_buffered; [done|]. apply own_prefixed, index_own. }
  split; [|unfold type_of, isResultIndex; rewrite (isIndex_prefixed b) by (unfold prefixed;
    rewrite prefix_spec; by eexists); by destruct b].
  split; simpl; try done. split; simpl; [split; simpl; [done | |] | | lia].
  - unfold counted, buffered, logs. simpl. rewrite Hp. simpl. rewrite Hc. lia.
  - unfold own, buffered, logs. simpl. rewrite Hp. constructor; [apply index_own | done].
  - intros b2 t2 n2 Ht2 Hn2. simpl in *. unfold buffered, logs. simpl. rewrite Hp, not_elem_of_cons.
    split; [|apply Hf; lia]. intros E2. apply index_of_inj in E2; lia.
Qed.

Lemma added_lines k v f f' : line_added k v f f' -> lines f' ≡ₚ (type_of k, v) :: lines f.
Proof.
  intros [_ Hp Hl _ _ _]. unfold lines.
  assert (k ∉ buffered f) as Hk.
  { assert (NoDup (k :: buffered f)) as Hn by (rewrite <- Hp; apply scan_keys_NoDup).
    by apply NoDup_cons in Hn as [? _]. }
  rewrite Hp, fmap_cons. unfold line_of at 1, value_of at 1. rewrite Hl, lookup_insert_eq. simpl.
  apply Permutation_cons; [done|]. apply Permutation_refl', list_fmap_ext.
  intros i x Hx%list_elem_of_lookup_2. unfold line_of, value_of.
  rewrite Hl, lookup_insert_ne; [done|]. by intros <-.
Qed.

Context (kVersion : string) (getDecorations : M S (gmap string string)) (decs : gmap string string).
Hypothesis decorations_read : forall s, api_ready s -> getDecorations s = (Ok decs, s).

(** The lines [logStatus] stores: up to the first that is not valid JSON. *)
Fixpoint status_lines (log : list StatusLogLine) : list (string * string) :=
  match log with
  | [] => []
  | item :: log =>
      match pt_write_json (status_tree kVersion decs item) with
      | inr _ => []
      | inl json => ("status", if negb (is_empty json) then pop_back json else json) :: status_lines log
      end
  end.

(** [logged l f f']: the lines [l] were added to the buffer. *)
Record logged (l : list (string * string)) (f f' : Fwd) : Prop := {
  logged_logging : logging f';
  logged_lines : lines f' ≡ₚ l ++ lines f;
  logged_remote : fwd_remote f' = fwd_remote f;
  logged_index : log_index_ f' = (log_index_ f + Z.of_nat (length l))%Z;
  logged_count : buffer_count_ f' = (buffer_count_ f + Z.of_nat (length l))%Z;
}.

Lemma logged_nil f : logging f -> logged [] f f.
Proof. intros. split; simpl; [done.. | lia | lia]. Qed.

Lemma logged_cons k v l f f1 f' : line_added k v f f1 -> logged l f1 f' -> logged ((type_of k, v) :: l) f f'.
Proof.
  intros Ha [L1 L2 L3 L4 L5]. pose proof (added_lines _ _ _ _ Ha) as Hl. destruct Ha.
  split; [done | | congruence | simpl; lia..].
  rewrite L2, Hl. simpl. by rewrite Permutation_middle.
Qed.

Lemma logString_run s t f : logging f -> room 1 f -> in_u64 t ->
  exists st f', logString name s t f = (Ok st, f') /\ Status_ok st = true /\ logged [("result", s)] f f'.
Proof.
  intros Hf Hr Ht. destruct (add_line_run true t s f Hf Hr Ht) as (st & k & f' & E & Hok & Ha & Hty).
  exists st, f'. split_and!; [done..|]. rewrite <- Hty. apply (logged_cons _ _ _ _ f'); [done|].
  apply logged_nil, Ha.
Qed.

Lemma room_mono n m f : room n f -> (0 <= m <= n)%Z -> room m f.
Proof. unfold room. lia. Qed.

Lemma logStatus_run log t f : logging f -> room (Z.of_nat (length log)) f -> in_u64 t ->
  exists st f', logStatus name kVersion getDecorations log t f = (Ok st, f') /\
    logged (status_lines log) f f'.
Proof.
  intros Hf Hr Ht. unfold logStatus.
  rewrite (bind_run _ _ _ _ _ (on_host_run _ _ _ _ (decorations_read _ (settled_ready _ (log_settled _ Hf))))).
  replace (mkForwarder _ _ _ _) with f by by destruct f. set (step := fun _ _ => _).
  enough (exists o f', for_flow log tt step f = (Ok o, f') /\ logged (status_lines log) f f') as (o & f' & E & Hl).
  { rewrite (bind_run _ _ _ _ _ E). destruct o; eauto. }
  revert f Hf Hr. induction log as [|item log IH]; intros f Hf Hr; simpl.
  { exists (Next tt), f. split; [done|]. by apply logged_nil. }
  unfold step at 1. destruct (pt_write_json _) as [json|what].
  - destruct (add_line_run false t (if negb (is_empty json) then pop_back json else json) f Hf)
      as (st & k & f1 & E & Hok & Ha & Hty); [apply (room_mono _ _ _ Hr); simpl; lia|done|].
    destruct (IH f1) as (o & f' & E' & Hl); [apply Ha| |].
    { destruct Ha, Hr. simpl in *. unfold room. lia. }
    exists o, f'. split; [|rewrite <- Hty; by eapply logged_cons].
    apply bind_Ok in E as (i & fi & Ei & Ea). unfold bind, genStatusIndex. rewrite Ei, Ea, Hok. exact E'.
  - exists (Return (mkStatus 1 what)), f. split; [done|]. by apply logged_nil.
Qed.

(** *** Sequences of operations *)

Inductive fwd_op := LogString (s : string) (t : Z) | LogStatus (log : list StatusLogLine) (t : Z) | Check.

Definition run_op (o : fwd_op) : M Fwd unit :=
  match o with
  | LogString s t => logString name s t ;;; ret tt
  | LogStatus log t => logStatus name kVersion getDecorations log t ;;; ret tt
  | Check => check name max_lines log_max send
  end.

Definition op_lines (o : fwd_op) : list (string * string) :=
  match o with
  | LogString s _ => [("result", s)]
  | LogStatus log _ => status_lines log
  | Check => []
  end.

(** The most lines the operation can add. *)
Definition op_cost (o : fwd_op) : Z :=
  match o with LogString _ _ => 1 | LogStatus log _ => Z.of_nat (length log) | Check => 0 end.

Definition op_ok (o : fwd_op) : Prop :=
  match o with LogString _ t | LogStatus _ t => in_u64 t | Check => True end.

Definition total_cost (l : list fwd_op) : Z := foldr (fun o n => op_cost o + n)%Z 0%Z l.

Lemma deleted_fresh ks f f' : deleted ks f f' -> logging f -> settled f' -> logging f'.
Proof.
  intros D [_ Hf H0] Hs. split; [done | |by rewrite (del_index _ _ _ D)].
  intros b t n Ht Hn. rewrite (del_index _ _ _ D) in Hn. rewrite (del_buffered _ _ _ D).
  intros [_ Hk]%list_elem_of_filter. by apply (Hf b t n).
Qed.

Lemma status_lines_length log : (length (status_lines log) <= length log)%nat.
Proof.
  induction log as [|item log IH]; simpl; [lia|].
  destruct (pt_write_json _); simpl; lia.
Qed.

Lemma total_cost_nonneg ops : (0 <= total_cost ops)%Z.
Proof. induction ops as [|[] ops IH]; simpl; lia. Qed.

Lemma run_op_run o f m : logging f -> room (op_cost o + m) f -> (0 <= m)%Z -> op_ok o ->
  (0 <= log_max)%Z ->
  exists f', run_op o f = (Ok tt, f') /\ logging f' /\ room m f' /\
    (log_max = 0%Z -> delivered (fwd_remote f') ++ lines f'
       ≡ₚ delivered (fwd_remote f) ++ op_lines o ++ lines f).
Proof.
  intros Hf Hr H0 Ho Hm. destruct o as [s t|log t|]; simpl in *.
  - destruct (logString_run s t f Hf) as (st & f' & E & _ & [L1 L2 L3 L4 L5]); [by eapply room_mono; [exact Hr | lia] | done |].
    exists f'. rewrite (bind_run _ _ _ _ _ E). split_and!; [done..| |].
    + unfold room in *. simpl in *. lia.
    + intros _. by rewrite L3, L2.
  - destruct (logStatus_run log t f Hf) as (st & f' & E & [L1 L2 L3 L4 L5]); [by eapply room_mono; [exact Hr | lia] | done |].
    exists f'. rewrite (bind_run _ _ _ _ _ E). split_and!; [done..| |].
    + pose proof (status_lines_length log). unfold room in *. lia.
    + intros _. by rewrite L3, L2.
  - destruct (check_run f (log_settled _ Hf) Hm) as (ks & ps & f1 & f' & E & X & _ & _ & _ & S1 & D & _ & S2 & _).
    exists f'. split_and!; [done | | |].
    + eapply deleted_fresh; [exact D | | done]. by eapply deleted_fresh; [apply X|..].
    + pose proof (settled_counted _ (log_settled _ Hf)). unfold room in *.
      rewrite (del_index _ _ _ D), (del_count _ _ _ D), (del_index _ _ _ (proj1 X)), (del_count _ _ _ (proj1 X)).
      unfold counted in *. lia.
    + intros H1. destruct (check_conserves f (log_settled _ Hf) Hm (or_intror H1)) as (f2 & E2 & _ & P).
      rewrite E in E2. by simplify_eq.
Qed.

(** C4: The forwarder is lossless from end to end. Start from a buffer whose
    indexes are all older than the index counter and log any lines in any order,
    with checks of any outcome in between: the count of buffered lines stays exact,
    and without a limit ([buffered_log_max] of 0) what the service accepted
    together with what is buffered is exactly what was there before and what was
    logged since. *)
Theorem forwarder_is_lossless (ops : list fwd_op) (f : Fwd) :
  logging f -> room (total_cost ops) f -> Forall op_ok ops -> (0 <= log_max)%Z ->
  exists f', for_each ops run_op f = (Ok tt, f') /\ logging f' /\
    (log_max = 0%Z -> delivered (fwd_remote f') ++ lines f'
       ≡ₚ delivered (fwd_remote f) ++ (ops ≫= op_lines) ++ lines f).
Proof.
  intros Hf Hr Ho Hm. revert f Hf Hr. induction Ho as [|o ops Ho Hops IH]; intros f Hf Hr; simpl.
  { by exists f. }
  destruct (run_op_run o f (total_cost ops) Hf Hr (total_cost_nonneg ops) Ho Hm) as (f1 & E1 & H1 & R1 & P1).
  destruct (IH f1 H1 R1) as (f' & E' & H' & P'). exists f'. rewrite (bind_run _ _ _ _ _ E1).
  split_and!; [done..|]. intros H2. rewrite (P' H2), app_assoc, (Permutation_app_comm (delivered _)), <- !app_assoc.
  rewrite (P1 H2), (Permutation_app_comm (ops ≫= op_lines)), <- !app_assoc. apply Permutation_app_head.
  apply Permutation_app_head. apply Permutation_app_comm.
Qed.

(** *** Starting *)

(** A start counts what is buffered. *)
Lemma setUp_run (f : Fwd) : fwd_ready f ->
  exists st f', setUp name f = (Ok st, f') /\ Status_ok st = true /\ counted f' /\
    fwd_host f' = fwd_host f /\ log_index_ f' = log_index_ f /\ fwd_remote f' = fwd_remote f.
Proof.
  intros Hr. unfold setUp. destruct (scan_run name 0 f Hr) as (st & E & Hok).
  rewrite (bind_run _ _ _ _ _ E), Hok. eexists _, _. split; [done|]. by split_and!.
Qed.

(** After a restart a line can be lost. The index counter starts again at
    zero, so the first line that is logged in the same second as a line which the
    previous process buffered under the same number overwrites it: the old line is
    gone, the same indexes are buffered, and the count is one too high. *)
Theorem restart_overwrites_a_line (f : Fwd) (s old : string) (t : Z) :
  settled f -> log_index_ f = 0%Z -> (buffer_count_ f + 1 < 2 ^ 64)%Z -> in_u64 t -> t <> 0%Z ->
  logs f !! index_of name true t 1 = Some old ->
  exists st f', logString name s t f = (Ok st, f') /\ Status_ok st = true /\
    logs f' = <[index_of name true t 1 := s]> (logs f) /\ buffered f' ≡ₚ buffered f /\
    buffer_count_ f' = (Z.of_nat (length (buffered f')) + 1)%Z.
Proof.
  intros [Hr Hc Ho] Hi Hb Ht Hne Hold. unfold logString, genResultIndex.
  destruct (genIndex_run true t f Hr) as (t' & h & E & _ & Et & Hr' & Hv); [lia | lia | done |].
  rewrite (Et Hne), Hi in E. rewrite (bind_run _ _ _ _ _ E). simpl.
  destruct (add_run (index_of name true t 1) s (mkForwarder h (fwd_remote f) 1 (buffer_count_ f)))
    as (st & h' & E' & Hok & Hr'' & Hv'); [done | simpl; rewrite Hc; lia | done |].
  eexists st, _. split; [exact E'|].
  assert (api_view h' kLogs = <[index_of name true t 1 := s]> (logs f)) as Hl.
  { rewrite Hv'. unfold update_domain. rewrite decide_True by done. unfold logs. simpl. by rewrite Hv. }
  assert (scan_keys (api_view h' kLogs) name 0 ≡ₚ buffered f) as Hp.
  { apply NoDup_Permutation; [apply scan_keys_NoDup..|]. intros k. unfold buffered.
    rewrite !elem_of_scan_all, Hl, lookup_insert_is_Some'. naive_solver. }
  split_and!; [done | exact Hl | exact Hp |]. unfold buffered, logs. simpl. rewrite Hp, Hc. lia.
Qed.
End Facts.
