(* ===== verification/Distributed.v ===== *)
(** * Distributed queries (osquery/distributed/distributed.cpp,
      osquery/dispatcher/distributed_runner.cpp, include/osquery/distributed.h)

    A remote service hands out queries that are to be run once. They are kept in
    the store until they run, their results in memory until the service took
    them. The SQL engine, the plugin that talks to the service and whether it is
    registered are parameters. *)
From S2P Require Import Prelude Boost Conversions Json Database Query Host Scan.

Definition kDistributedQueryPrefix : string := "distributed.".
Definition kDistributedAccelerationInterval : Z := 5.
Definition kAccelerateKey : string := "distributed_accelerate_checkins_expire".

Record DistributedQueryRequest := mkRequest { req_query : string; req_id : string }.

Record DistributedQueryResult := mkResult {
  res_request : DistributedQueryRequest;
  res_results : QueryData;
  res_columns : ColumnNames;
  res_status : Status;
}.

(** ** Serialization *)

Section Serialize.
Context {R : RapidJSON}.

Definition serializeDistributedQueryRequest (r : DistributedQueryRequest) (obj : members) : members :=
  let obj := add_member "query" (JString (req_query r)) obj in
  add_member "id" (JString (req_id r)) obj.

Definition serializeDistributedQueryRequestJSON (r : DistributedQueryRequest) : Status * string :=
  JSON_toString (JObject (serializeDistributedQueryRequest r [])).

(** [HasMember] on a value that is not an object is a violated precondition. *)
Definition deserializeDistributedQueryRequest (obj : json) (r : DistributedQueryRequest)
    : result (Status * DistributedQueryRequest) :=
  match obj with
  | JObject ms =>
      match member "query" ms, member "id" ms with
      | Some (JString q), Some (JString i) => Ok (Status_success, mkRequest (c_str q) (c_str i))
      | _, _ => Ok (mkStatus 1 "Malformed distributed query request", r)
      end
  | _ => Throw AssertFailure
  end.

Definition deserializeDistributedQueryRequestJSON (text : string) (r : DistributedQueryRequest)
    : result (Status * DistributedQueryRequest) :=
  match JSON_parse_if IsObject text with
  | None => Ok (mkStatus 1 "Error Parsing JSON", r)
  | Some doc => deserializeDistributedQueryRequest doc r
  end.

(** The members go to the root of the document, whatever object is passed. *)
Definition serializeDistributedQueryResult (r : DistributedQueryResult) (doc : members) : members :=
  let request_obj := JObject (serializeDistributedQueryRequest (res_request r) []) in
  let results_arr := JArray (serializeQueryData (res_results r) (res_columns r)) in
  add_member "results" results_arr (add_member "request" request_obj doc).

Definition serializeDistributedQueryResultJSON (r : DistributedQueryResult) : Status * string :=
  JSON_toString (JObject (serializeDistributedQueryResult r [])).

Definition deserializeDistributedQueryResult (obj : json) (r : DistributedQueryResult)
    : result (Status * DistributedQueryResult) :=
  res_bind (GetObject obj) (fun ms =>
  res_bind (at_member "request" ms) (fun request_obj =>
  res_bind (deserializeDistributedQueryRequest request_obj (mkRequest "" "")) (fun '(s, request) =>
  if negb (Status_ok s) then Ok (s, r)
  else
    res_bind (at_member "results" ms) (fun results_arr =>
    let '(s, results) := deserializeQueryData results_arr [] in
    if negb (Status_ok s) then Ok (s, r)
    else Ok (Status_success, mkResult request results (res_columns r) (res_status r)))))).

Definition deserializeDistributedQueryResultJSON (text : string) (r : DistributedQueryResult)
    : result (Status * DistributedQueryResult) :=
  match JSON_parse_if IsObject text with
  | None => Ok (mkStatus 1 "Error Parsing JSON", r)
  | Some doc => deserializeDistributedQueryResult doc r
  end.

(** One turn of the loop of [serializeResults]: the "queries" and "statuses"
    objects so far. *)
Definition report_step (acc : members * members) (result : DistributedQueryResult) : members * members :=
  let '(queries_obj, statuses_obj) := acc in
  let id := req_id (res_request result) in
  let arr := JArray (serializeQueryData (res_results result) (res_columns result)) in
  (add_member id arr queries_obj, add_member id (JInt (code (res_status result))) statuses_obj).

Definition report (results_ : list DistributedQueryResult) : json :=
  let '(queries_obj, statuses_obj) := foldl report_step ([], []) results_ in
  JObject (add_member "statuses" (JObject statuses_obj)
            (add_member "queries" (JObject queries_obj) [])).
End Serialize.

(** ** The queue *)

Record Distributed (S : Type) := mkDistributed {
  dist_host : S;
  results_ : list DistributedQueryResult;
  currentRequestId_ : string;
}.
Arguments mkDistributed {S}.
Arguments dist_host {S}.
Arguments results_ {S}.
Arguments currentRequestId_ {S}.

Section Plugin.
Context {S : Type}.
Context (getQueries : M S (Status * string)) (writeResults : string -> M S Status).

(** [DistributedPlugin::call]; the status of [getQueries] is not looked at. *)
Definition DistributedPlugin_call (request : PluginRequest) : M S (Status * PluginResponse) :=
  match request !! "action" with
  | None => ret (mkStatus 1 "Distributed plugins require an action in PluginRequest", [])
  | Some action =>
      if decide (action = "getQueries") then
        let* (_, queries) := getQueries in
        ret (mkStatus 0 "OK", [{["results" := queries]}])
      else if decide (action = "writeResults") then
        match request !! "results" with
        | None => ret (mkStatus 1 "Missing results field", [])
        | Some results => let* status := writeResults results in ret (status, [])
        end
      else ret (mkStatus 1 ("Distributed plugin action unknown: " +:+ action), [])
  end.
End Plugin.

Section Queue.
Context {S : Type} {A : DatabaseAPI S} {Sc : DatabaseScan S} {H : Host S} {R : RapidJSON} {B : Boost}.
(** [SQL sql(query)]: status, rows and columns. *)
Context (SQL : string -> M S (Status * QueryData * ColumnNames)).
(** [Registry::call("distributed", request, response)]. *)
Context (registry_call : PluginRequest -> M S (Status * PluginResponse)).
(** [getActive("distributed")] and whether it exists. *)
Context (distributed_plugin : string) (plugin_exists : bool).
(** Whether the build compiles [assert] out. *)
Context (NDEBUG : bool).

Abbreviation Dist := (M (Distributed S)).

Definition with_dist_host (h : S) (d : Distributed S) : Distributed S :=
  mkDistributed h (results_ d) (currentRequestId_ d).
Definition in_dist {X} (m : M S X) : Dist X := zoom dist_host with_dist_host m.
Definition set_results (rs : list DistributedQueryResult) (d : Distributed S) : Distributed S :=
  mkDistributed (dist_host d) rs (currentRequestId_ d).

Definition getCurrentRequestId : Dist string := gets currentRequestId_.
Definition setCurrentRequestId (cReqId : string) : Dist unit :=
  modify (fun d => mkDistributed (dist_host d) (results_ d) cReqId).

Definition getPendingQueryCount : Dist Z :=
  let* (_, queries) := in_dist (api_scan_max kQueries kDistributedQueryPrefix 0) in
  ret (Z.of_nat (length queries)).

Definition getCompletedCount : Dist Z := gets (fun d => Z.of_nat (length (results_ d))).

Definition serializeResults : Dist (Status * string) := gets (fun d => JSON_toString (report (results_ d))).

Definition addResult (result : DistributedQueryResult) : Dist unit :=
  modify (fun d => set_results (results_ d ++ [result]) d).

(** [queries.front()] of an empty vector is undefined behaviour. *)
Definition popRequest : Dist DistributedQueryRequest :=
  let* (_, queries) := in_dist (api_scan_max kQueries kDistributedQueryPrefix 0) in
  match queries with
  | [] => throw AssertFailure
  | next :: _ =>
      let n := String.length kDistributedQueryPrefix in
      let id := String.substring n (String.length next - n) next in
      let* query := in_dist (api_get_str kQueries next) in
      in_dist (api_delete kQueries next) ;;;
      ret (mkRequest query id)
  end.

Definition flushCompleted : Dist Status :=
  let* n := getCompletedCount in
  if (n =? 0)%Z then ret (mkStatus 0 "OK")
  else if negb plugin_exists then ret (mkStatus 1 ("Missing distributed plugin " +:+ distributed_plugin))
  else
    let* (s, results) := serializeResults in
    if negb (Status_ok s) then ret s
    else
      let* (s, _) := in_dist (registry_call {["action" := "writeResults"; "results" := results]}) in
      (if Status_ok s then modify (set_results []) else ret tt) ;;;
      ret s.

(** The body of the loop of [runQueries]. *)
Definition run_one : Dist unit :=
  let* request := popRequest in
  setCurrentRequestId (req_id request) ;;;
  let* (status, rows, columns) := in_dist (SQL (req_query request)) in
  addResult (mkResult request rows columns status).

(** The loop; [false] when out of fuel. *)
Fixpoint run_pending (fuel : nat) : Dist bool :=
  let* n := getPendingQueryCount in
  if (0 <? n)%Z then
    match fuel with
    | O => ret false
    | Datatypes.S fuel => run_one ;;; run_pending fuel
    end
  else ret true.

Definition runQueries (fuel : nat) : Dist (option Status) :=
  let* finished := run_pending fuel in
  if finished then let* s := flushCompleted in ret (Some s) else ret None.

(** *** Accepting work *)

Definition assert_ (b : bool) : Dist unit :=
  if NDEBUG || b then ret tt else throw AssertFailure.

(** One discovery query: its name is kept when it returns rows. *)
Definition discovery_step (queries_to_run : gset string) (entry : string * json)
    : Dist (flow (gset string) Status) :=
  match entry.2 with
  | JString q =>
      let name := c_str entry.1 in
      let query := c_str q in
      if is_empty query || is_empty name
      then ret (Return (mkStatus 1 "Distributed discovery query is not a string"))
      else
        let* (status, rows, _) := in_dist (SQL query) in
        if negb (Status_ok status)
        then ret (Return (mkStatus 1 "Distributed discovery query has an SQL error"))
        else if (0 <? length rows)%nat then ret (Next ({[name]} ∪ queries_to_run))
        else ret (Next queries_to_run)
  | _ => ret (Return (mkStatus 1 "Distributed discovery query is not a string"))
  end.

Definition query_step (queries_to_run : gset string) (_ : unit) (entry : string * json)
    : Dist (flow unit Status) :=
  match entry.2 with
  | JString q =>
      let name := c_str entry.1 in
      let query := c_str q in
      if is_empty name || is_empty query
      then ret (Return (mkStatus 1 "Distributed query is not a string"))
      else if bool_decide (queries_to_run = ∅) || bool_decide (name ∈ queries_to_run)
      then in_dist (api_set kQueries (kDistributedQueryPrefix +:+ name) query) ;;; ret (Next tt)
      else ret (Next tt)
  | _ => ret (Return (mkStatus 1 "Distributed query is not a string"))
  end.

(** [IsInt]. *)
Definition as_int (v : json) : option Z :=
  match v with
  | JInt z => if (- 2 ^ 31 <=? z)%Z && (z <? 2 ^ 31)%Z then Some z else None
  | _ => None
  end.

Definition accept_discovery (ms : members) : Dist (flow (gset string) Status) :=
  match member "discovery" ms with
  | Some queries =>
      assert_ (IsObject queries) ;;;
      match queries with
      | JObject entries => for_flow entries ∅ discovery_step
      | _ => ret (Next ∅)
      end
  | None => ret (Next ∅)
  end.

Definition accept_queries (queries_to_run : gset string) (ms : members) : Dist (flow unit Status) :=
  match member "queries" ms with
  | Some queries =>
      assert_ (IsObject queries) ;;;
      match queries with
      | JObject entries => for_flow entries tt (query_step queries_to_run)
      | _ => ret (Next tt)
      end
  | None => ret (Next tt)
  end.

Definition accept_accelerate (ms : members) : Dist unit :=
  match member "accelerate" ms with
  | Some accelerate =>
      match as_int accelerate with
      | Some duration =>
          let* now := in_dist getUnixTime in
          in_dist (api_set kPersistentSettings kAccelerateKey (to_string (u64 (now + duration)))) ;;;
          ret tt
      | None => ret tt
      end
  | None => ret tt
  end.

Definition acceptWork (work : string) : Dist Status :=
  match JSON_parse_if IsObject work with
  | Some (JObject ms) =>
      let* o := accept_discovery ms in
      match o with
      | Return status => ret status
      | Next queries_to_run =>
          let* o := accept_queries queries_to_run ms in
          match o with
          | Return status => ret status
          | Next _ => accept_accelerate ms ;;; ret Status_success
          end
      end
  | _ => ret (mkStatus 1 "Error Parsing JSON")
  end.

Definition pullUpdates : Dist Status :=
  if negb plugin_exists then ret (mkStatus 1 ("Missing distributed plugin: " +:+ distributed_plugin))
  else
    let* (status, response) := in_dist (registry_call {["action" := "getQueries"]}) in
    if negb (Status_ok status) then ret status
    else
      match response with
      | r :: _ => match r !! "results" with
                  | Some work => acceptWork work
                  | None => ret (mkStatus 0 "OK")
                  end
      | [] => ret (mkStatus 0 "OK")
      end.

(** *** The runner *)

Context (FLAGS_distributed_interval : Z).

(** One turn of [DistributedRunner::start]: how many seconds it pauses, [None]
    when [runQueries] is out of fuel. *)
Definition runner_turn (fuel : nat) : Dist (option Z) :=
  pullUpdates ;;;
  let* n := getPendingQueryCount in
  let* ran := (if (0 <? n)%Z then
                 let* o := runQueries fuel in
                 ret (match o with Some _ => true | None => false end)
               else ret true) in
  if negb ran then ret None
  else
    let* (database, value) := in_dist (api_get kPersistentSettings kAccelerateKey) in
    let str_acu := default "0" value in
    match tryTo TULong str_acu 10 with
    | inl expire =>
        if negb (Status_ok database) then ret (Some FLAGS_distributed_interval)
        else
          let* now := in_dist getUnixTime in
          if (expire <? now)%Z then ret (Some FLAGS_distributed_interval)
          else ret (Some kDistributedAccelerationInterval)
    | inr _ => ret (Some FLAGS_distributed_interval)
    end.
End Queue.
