(* ===== verification/DistributedFacts.v ===== *)
(** * Facts about distributed queries

    Requests and results survive JSON; a run executes every pending query once
    and keeps the results until the service took them; what is accepted is what
    runs. *)
From S2P Require Import Prelude Boost Conversions Json Database DatabaseFacts Query QueryFacts Host Scan Distributed.

(** ** Round trips *)

Section Json.
Context {R : RapidJSON} {RL : RapidJSONLaws R}.

Definition request_wf (r : DistributedQueryRequest) : Prop :=
  nul_free (req_query r) /\ nul_free (req_id r).

Lemma request_members r :
  NoDup (serializeDistributedQueryRequest r []).*1 /\
  member "query" (serializeDistributedQueryRequest r []) = Some (JString (req_query r)) /\
  member "id" (serializeDistributedQueryRequest r []) = Some (JString (req_id r)).
Proof.
  unfold serializeDistributedQueryRequest.
  assert (NoDup (add_member "query" (JString (req_query r)) []).*1) as Hn by auto with osq.
  split; [auto with osq|]. rewrite !member_add_member by auto with osq. done.
Qed.

Lemma request_exact r : json_exact (JObject (serializeDistributedQueryRequest r [])) = true.
Proof. apply json_exact_object. unfold serializeDistributedQueryRequest. by repeat apply Forall_add_member. Qed.

Lemma request_decode r r0 : request_wf r ->
  deserializeDistributedQueryRequest (JObject (serializeDistributedQueryRequest r [])) r0
  = Ok (Status_success, r).
Proof.
  intros [Hq Hi]. unfold deserializeDistributedQueryRequest.
  destruct (request_members r) as (_ & -> & ->). rewrite Hq, Hi. by destruct r.
Qed.

(** What a column order keeps of a row. *)
Definition row_columns (cols : ColumnNames) (r : Row) : Row :=
  match cols with [] => r | _ => filter (fun kv => kv.1 ∈ cols) r end.

Definition column_members (r : Row) (cols : ColumnNames) : members :=
  omap (fun c => (fun v => (c, JString v)) <$> r !! c) cols.

Lemma serializeRow_columns r cols : cols <> [] ->
  serializeRow r cols [] = merge_members [] (column_members r cols).
Proof.
  intros Hc. unfold serializeRow. destruct cols as [|c0 cols0]; [done|]. clear Hc.
  generalize (c0 :: cols0). clear. unfold merge_members. intros cols. generalize (@nil (string * json)).
  induction cols as [|c cols IH]; intros t; simpl; [done|]. by destruct (r !! c); simpl; rewrite IH.
Qed.

Lemma elem_of_column_members r cols k v :
  (k, v) ∈ column_members r cols <-> k ∈ cols /\ JString <$> r !! k = Some v.
Proof.
  unfold column_members. rewrite list_elem_of_omap. setoid_rewrite fmap_Some. split.
  - intros (c & Hc & x & Hx & [= -> ->]). eauto.
  - intros (Hk & x & Hx & ->). eauto.
Qed.

Lemma column_map r cols :
  (list_to_map (prod_map id json_str <$> reverse (column_members r cols)) : Row)
  = filter (fun kv => kv.1 ∈ cols) r.
Proof.
  apply map_eq. intros k.
  destruct (filter (fun kv => kv.1 ∈ cols) r !! k) as [v|] eqn:E.
  - apply map_lookup_filter_Some in E as [Hv Hk]. apply elem_of_list_to_map_1'.
    + intros y ([k' w] & [= -> ->] & Hin)%list_elem_of_fmap.
      rewrite elem_of_reverse, elem_of_column_members in Hin. destruct Hin as [_ Hin].
      rewrite Hv in Hin. by injection Hin as <-.
    + apply list_elem_of_fmap. exists (k, JString v). split; [done|].
      by rewrite elem_of_reverse, elem_of_column_members, Hv.
  - apply not_elem_of_list_to_map_1. intros ([k' x] & -> & ([k2 w] & [= -> ->] & Hin)%list_elem_of_fmap)%list_elem_of_fmap.
    rewrite elem_of_reverse, elem_of_column_members in Hin. destruct Hin as [Hk Hin]. simpl in *.
    rewrite fmap_Some in Hin. destruct Hin as (v & Hv & ->).
    assert (filter (fun kv => kv.1 ∈ cols) r !! k2 = Some v); [|congruence].
    by apply map_lookup_filter_Some.
Qed.

Lemma column_members_str r cols : row_wf r ->
  Forall (fun kv => str_member kv /\ kv.1 <> "") (column_members r cols).
Proof.
  intros Hr. apply Forall_forall. intros [k v] [_ (x & Hx & ->)%fmap_Some]%elem_of_column_members.
  apply Hr in Hx as (H1 & H2 & H3). simpl. split; [|done]. split; simpl; eauto.
Qed.

Lemma serializeRow_columns_spec r cols : row_wf r ->
  Forall (fun kv => str_member kv /\ kv.1 <> "") (serializeRow r cols []) /\
  deserializeRow (JObject (serializeRow r cols [])) ∅ = (Status_success, row_columns cols r).
Proof.
  intros Hr. destruct cols as [|c cols0] eqn:Ec.
  { split; [by apply serializeRow_members | by apply deserializeRow_serializeRow]. }
  rewrite <- Ec. assert (row_columns cols r = filter (fun kv => kv.1 ∈ cols) r) as -> by by subst.
  rewrite serializeRow_columns by by subst. pose proof (column_members_str r cols Hr) as Hs.
  assert (Forall (fun kv => str_member kv /\ kv.1 <> "") (merge_members [] (column_members r cols))) as Hm
    by by apply Forall_merge_members.
  split; [done|]. apply Forall_and in Hm as [H1 H2]. unfold deserializeRow.
  rewrite foldl_deserialize by done. f_equal.
  destruct (merge_members_map [] (column_members r cols) NoDup_nil_2) as [Hn Hl].
  rewrite put_all_union, list_to_map_reverse by by rewrite <- list_fmap_compose.
  rewrite (right_id_L ∅ (∪)), list_to_map_fmap, Hl. simpl. rewrite (right_id_L ∅ (∪)).
  rewrite <- list_to_map_fmap. apply column_map.
Qed.

Lemma query_data_columns q cols : Forall row_wf q ->
  json_exact (JArray (serializeQueryData q cols)) = true /\
  forall acc, deserialize_rows push_back (serializeQueryData q cols) acc
              = (Status_success, acc ++ (row_columns cols <$> q)).
Proof.
  intros Hq. split.
  - simpl. apply forallb_forall. intros v Hv.
    apply list_elem_of_In, list_elem_of_fmap in Hv as (r & -> & Hr).
    eapply Forall_forall in Hq; [|exact Hr]. apply json_exact_object.
    eapply Forall_impl; [apply (serializeRow_columns_spec r cols Hq)|].
    intros [k v] [(_ & s & Hs & _) _]. simpl in *. by subst.
  - induction Hq as [|r q Hr Hq IH]; intros acc; [by rewrite app_nil_r|].
    rewrite serializeQueryData_cons. cbn [deserialize_rows].
    rewrite (proj2 (serializeRow_columns_spec r cols Hr)). simpl.
    unfold push_back at 2. rewrite IH. by rewrite <- app_assoc.
Qed.

Definition result_wf (r : DistributedQueryResult) : Prop :=
  request_wf (res_request r) /\ Forall row_wf (res_results r).

(** Distributed requests and results survive JSON. A request whose texts hold
    no NUL reads back unchanged; a result reads back with its request and, of each
    row, the columns the result lists (all of them when it lists none), and with
    the columns and status of the object it is read into, since neither is
    written. *)
Theorem distributed_json_roundtrip (r r0 : DistributedQueryResult) :
  result_wf r ->
  deserializeDistributedQueryRequestJSON (serializeDistributedQueryRequestJSON (res_request r)).2
    (res_request r0) = Ok (Status_success, res_request r) /\
  deserializeDistributedQueryResultJSON (serializeDistributedQueryResultJSON r).2 r0
  = Ok (Status_success, mkResult (res_request r) (row_columns (res_columns r) <$> res_results r)
                          (res_columns r0) (res_status r0)).
Proof.
  intros (Hreq & Hrows). split.
  - unfold deserializeDistributedQueryRequestJSON, serializeDistributedQueryRequestJSON, JSON_parse_if.
    rewrite fromString_toString by apply request_exact. exact (request_decode _ _ Hreq).
  - unfold deserializeDistributedQueryResultJSON, serializeDistributedQueryResultJSON, JSON_parse_if.
    unfold serializeDistributedQueryResult. 
    set (req := JObject (serializeDistributedQueryRequest _ _)). set (arr := JArray _).
    destruct (query_data_columns _ (res_columns r) Hrows) as [Hex Hrd].
    assert (NoDup (add_member "request" req []).*1) as Hn by auto with osq.
    rewrite fromString_toString.
    + change (Status_ok Status_success) with true. cbn [IsObject andb].
      unfold deserializeDistributedQueryResult, at_member. cbn [GetObject res_bind]. rewrite !member_add_member by auto with osq.
      repeat first [rewrite decide_False by done | rewrite decide_True by done]. cbn [res_bind].
      unfold req. rewrite request_decode by done. simpl. by rewrite Hrd.
    + apply json_exact_object. by repeat (apply Forall_add_member; [exact Hex || apply request_exact|]).
Qed.
End Json.

(** ** The queue *)

Section Queue.
Context {S : Type} {A : DatabaseAPI S} {L : DatabaseAPILaws S} {Rel : DatabaseAPIReliable S}.
Context {Sc : DatabaseScan S} {SL : DatabaseScanLaws S} {H : Host S} {HL : HostLaws S}.
Context {R : RapidJSON} {B : Boost}.
Context (SQL : string -> M S (Status * QueryData * ColumnNames)).
Context (registry_call : PluginRequest -> M S (Status * PluginResponse)).
Context (plugin_name : string) (plugin_exists NDEBUG : bool).

(** A computation that returns and leaves the store as it was. *)
Definition reads {X} (m : M S X) : Prop := forall s, api_ready s ->
  exists x s', m s = (Ok x, s') /\ api_ready s' /\ forall d, api_view s' d = api_view s d.

Hypothesis SQL_reads : forall q, reads (SQL q).
Hypothesis registry_reads : forall req, reads (registry_call req).

Abbreviation Dist := (Distributed S).

Definition dist_ready (d : Dist) : Prop := api_ready (dist_host d).
Definition dist_view (d : Dist) : string -> gmap string string := api_view (dist_host d).

(** The keys of the pending queries, in the order they run. *)
Definition pending (d : Dist) : list string := scan_keys (dist_view d kQueries) kDistributedQueryPrefix 0.

Definition request_of (d : Dist) (k : string) : DistributedQueryRequest :=
  mkRequest (default "" (dist_view d kQueries !! k))
    (String.substring (String.length kDistributedQueryPrefix)
       (String.length k - String.length kDistributedQueryPrefix) k).

(** The result is what the engine answered for its query. *)
Definition answered (r : DistributedQueryResult) : Prop := exists s s', api_ready s /\
  SQL (req_query (res_request r)) s = (Ok (res_status r, res_results r, res_columns r), s').

Lemma kQueries_in : kQueries ∈ kDomains.
Proof. apply kQueries_domain. Qed.

Lemma in_dist_run {X} (m : M S X) (d : Dist) x h :
  m (dist_host d) = (Ok x, h) -> in_dist m d = (Ok x, with_dist_host h d).
Proof. unfold in_dist, zoom. by intros ->. Qed.

Lemma scan_pending d : dist_ready d ->
  exists st, in_dist (api_scan_max kQueries kDistributedQueryPrefix 0) d = (Ok (st, pending d), d).
Proof.
  intros Hr. destruct (api_scan_max_law (dist_host d) kQueries kDistributedQueryPrefix 0 Hr kQueries_in) as (st & E & _).
  exists st. rewrite (in_dist_run _ _ _ _ E). by destruct d.
Qed.

Lemma pending_count d : dist_ready d ->
  getPendingQueryCount d = (Ok (Z.of_nat (length (pending d))), d).
Proof.
  intros Hr. unfold getPendingQueryCount. destruct (scan_pending d Hr) as [st E].
  by rewrite (bind_run _ _ _ _ _ E).
Qed.

(** One query leaves the queue and its result is kept. *)
Record ran_one (k : string) (r : DistributedQueryResult) (d d' : Dist) : Prop := {
  one_ready : dist_ready d';
  one_view dom : dist_view d' dom = update_domain (dist_view d) kQueries (delete k (dist_view d kQueries)) dom;
  one_results : results_ d' = results_ d ++ [r];
  one_request : res_request r = request_of d k;
  one_answered : answered r;
}.

Lemma popRequest_run d k ks : dist_ready d -> pending d = k :: ks ->
  exists h, popRequest d = (Ok (request_of d k), with_dist_host h d) /\ api_ready h /\
    forall dom, api_view h dom = update_domain (dist_view d) kQueries (delete k (dist_view d kQueries)) dom.
Proof.
  intros Hr Hp. unfold popRequest. destruct (scan_pending d Hr) as [st E].
  rewrite (bind_run _ _ _ _ _ E), Hp.
  destruct (api_get_law (dist_host d) kQueries k Hr kQueries_in) as (st2 & E2 & _).
  assert (api_get_str kQueries k (dist_host d) = (Ok (req_query (request_of d k)), dist_host d)) as E3
    by (unfold api_get_str; by rewrite (bind_run _ _ _ _ _ E2)).
  rewrite (bind_run _ _ _ _ _ (in_dist_run _ _ _ _ E3)).
  replace (with_dist_host (dist_host d) d) with d by by destruct d.
  destruct (api_delete_law (dist_host d) kQueries k Hr kQueries_in) as (st4 & h & E4 & Hr4 & Hv4).
  rewrite (api_delete_ok _ _ _ _ _ Hr kQueries_in E4) in Hv4.
  rewrite (bind_run _ _ _ _ _ (in_dist_run _ _ _ _ E4)). by exists h.
Qed.

Lemma run_one_run d k ks : dist_ready d -> pending d = k :: ks ->
  exists r d', run_one SQL d = (Ok tt, d') /\ ran_one k r d d' /\ pending d' = ks.
Proof.
  intros Hr Hp. unfold run_one. destruct (popRequest_run d k ks Hr Hp) as (h & E & Hh & Hv).
  rewrite (bind_run _ _ _ _ _ E). unfold setCurrentRequestId. rewrite bind_modify. simpl.
  destruct (SQL_reads (req_query (request_of d k)) h Hh) as ([[st rows] cols] & h' & E2 & Hh' & Hv').
  set (d1 := mkDistributed h (results_ d) (req_id (request_of d k))).
  rewrite (bind_run _ _ d1 _ _ (in_dist_run _ d1 _ _ E2)).
  exists (mkResult (request_of d k) rows cols st). eexists. split; [done|]. split.
  - split; [done | | done | done | by exists h, h'].
    intros dom. unfold dist_view. simpl. by rewrite Hv', Hv.
  - unfold pending, dist_view. simpl. rewrite Hv', Hv. unfold update_domain. rewrite decide_True by done.
    by apply scan_keys_delete_head.
Qed.

(** The queries [ks] were run in that order. *)
Record ran_all (ks : list string) (rs : list DistributedQueryResult) (d d' : Dist) : Prop := {
  all_ready : dist_ready d';
  all_view dom k : dist_view d' dom !! k =
    if decide (dom = kQueries /\ k ∈ ks) then None else dist_view d dom !! k;
  all_results : results_ d' = results_ d ++ rs;
  all_requests : res_request <$> rs = request_of d <$> ks;
  all_answered : Forall answered rs;
}.

Lemma ran_all_cons k r ks rs d d1 d' : k ∉ ks ->
  ran_one k r d d1 -> ran_all ks rs d1 d' -> ran_all (k :: ks) (r :: rs) d d'.
Proof.
  intros Hk [R1 V1 S1 Q1 A1] [R2 V2 S2 Q2 A2]. split; [done | | | | by constructor].
  - intros dom x. rewrite V2, V1. unfold update_domain.
    destruct (decide (dom = kQueries)) as [->|Hd]; [rewrite lookup_delete|];
      destruct (decide (_ = kQueries /\ x ∈ ks)), (decide (_ = kQueries /\ x ∈ k :: ks)); repeat case_decide; set_solver.
  - rewrite S2, S1, <- app_assoc. done.
  - rewrite !fmap_cons, Q1, Q2. f_equal. apply list_fmap_ext. intros i x Hx%list_elem_of_lookup_2.
    unfold request_of. rewrite V1. unfold update_domain. rewrite decide_True by done.
    rewrite lookup_delete_ne; [done|]. by intros ->.
Qed.

Lemma pending_NoDup d : NoDup (pending d).
Proof. apply scan_keys_NoDup. Qed.

Lemma run_pending_run ks d fuel : dist_ready d -> pending d = ks -> (length ks <= fuel)%nat ->
  exists rs d', run_pending SQL fuel d = (Ok true, d') /\ ran_all ks rs d d' /\ pending d' = [].
Proof.
  revert d fuel. induction ks as [|k ks IH]; intros d fuel Hr Hp Hf.
  - exists [], d. split; [|split; [|done]].
    + destruct fuel; simpl; by rewrite (bind_run _ _ _ _ _ (pending_count d Hr)), Hp.
    + split; [done | | by rewrite app_nil_r | done | done].
      intros dom x. rewrite decide_False; [done|]. by intros [_ ?%not_elem_of_nil].
  - destruct fuel as [|fuel]; [simpl in Hf; lia|]. simpl.
    rewrite (bind_run _ _ _ _ _ (pending_count d Hr)), Hp. simpl.
    destruct (run_one_run d k ks Hr Hp) as (r & d1 & E1 & R1 & P1).
    destruct (IH d1 fuel (one_ready _ _ _ _ R1) P1) as (rs & d' & E & R2 & P2); [simpl in Hf; lia|].
    exists (r :: rs), d'. rewrite (bind_run _ _ _ _ _ E1). split_and!; [done | | done].
    eapply ran_all_cons; [|done..]. pose proof (pending_NoDup d) as Hn. rewrite Hp in Hn.
    by apply NoDup_cons in Hn as [? _].
Qed.

Lemma flush_run d : dist_ready d ->
  exists st d', flushCompleted registry_call plugin_name plugin_exists d = (Ok st, d') /\
    dist_ready d' /\ (forall dom, dist_view d' dom = dist_view d dom) /\
    results_ d' = if Status_ok st then [] else results_ d.
Proof.
  intros Hr. unfold flushCompleted, getCompletedCount. rewrite bind_gets.
  destruct (Z.eqb_spec (Z.of_nat (length (results_ d))) 0) as [E0|E0].
  { eexists _, d. split_and!; [done..|]. destruct (results_ d); [done | simpl in E0; lia]. }
  destruct plugin_exists; simpl; [|by eexists _, d].
  unfold serializeResults. rewrite bind_gets. simpl.
  destruct (registry_reads {["action" := "writeResults"; "results" := c_str (rj_write (report (results_ d)))]}
              (dist_host d) Hr) as ([st resp] & h & E & Hh & Hv).
  rewrite (bind_run _ _ _ _ _ (in_dist_run _ _ _ _ E)).
  destruct (Status_ok st) eqn:Hok; eexists st, _; rewrite ?bind_modify, ?bind_ret; (split; [done|]);
    (split_and!; [done | exact Hv | by rewrite Hok]).
Qed.

(** C5: A run of the distributed queries ends and executes every pending query
    exactly once, in the order of their keys. On a store whose operations succeed,
    any fuel of at least the number of pending queries is enough; afterwards no
    query is pending and nothing else in the store changed. The results are cleared
    when the plugin took them and kept for the next run when it did not. *)
Theorem runQueries_runs_each_once (d : Dist) (fuel : nat) :
  dist_ready d -> (length (pending d) <= fuel)%nat ->
  exists st rs d', runQueries SQL registry_call plugin_name plugin_exists fuel d = (Ok (Some st), d') /\
    dist_ready d' /\ pending d' = [] /\
    res_request <$> rs = request_of d <$> pending d /\ Forall answered rs /\
    (forall dom k, dist_view d' dom !! k =
       if decide (dom = kQueries /\ k ∈ pending d) then None else dist_view d dom !! k) /\
    results_ d' = if Status_ok st then [] else results_ d ++ rs.
Proof.
  intros Hr Hf. unfold runQueries.
  destruct (run_pending_run (pending d) d fuel Hr eq_refl Hf) as (rs & d1 & E & [R1 V1 S1 Q1 A1] & P1).
  rewrite (bind_run _ _ _ _ _ E). destruct (flush_run d1 R1) as (st & d' & E2 & R2 & V2 & S2).
  rewrite (bind_run _ _ _ _ _ E2). exists st, rs, d'. split_and!; try done.
  - unfold pending. by rewrite V2.
  - intros dom k. by rewrite V2, V1.
  - by rewrite S2, S1.
Qed.

(** *** Accepting work *)

(** An entry the service may send: a name and a query, neither empty. *)
Definition entry_ok (e : string * json) : Prop :=
  exists q, e.2 = JString q /\ c_str e.1 <> "" /\ c_str q <> "".

Definition entry_name (e : string * json) : string := c_str e.1.
Definition entry_query (e : string * json) : string :=
  match e.2 with JString q => c_str q | _ => "" end.

(** What is written to the store for the names that discovery left. *)
Definition queued (names : gset string) (entries : members) : list (string * string) :=
  (fun e => (kDistributedQueryPrefix +:+ entry_name e, entry_query e)) <$>
  filter (fun e => names = ∅ \/ entry_name e ∈ names) entries.

Lemma api_set_run_ok d k v : dist_ready d ->
  exists st h, in_dist (api_set kQueries k v) d = (Ok st, with_dist_host h d) /\ api_ready h /\
    forall dom, api_view h dom = update_domain (dist_view d) kQueries (<[k := v]> (dist_view d kQueries)) dom.
Proof.
  intros Hr. destruct (api_set_batch_law (dist_host d) kQueries [(k, v)] Hr kQueries_in) as (st & h & E & Hh & Hv).
  rewrite (api_set_batch_ok _ _ _ _ _ Hr kQueries_in E) in Hv.
  exists st, h. split; [by apply in_dist_run|]. by split.
Qed.

(** The pending queries grow by [l], the rest of the store and of the state stays. *)
Record enqueued (l : list (string * string)) (d d' : Dist) : Prop := {
  enq_ready : dist_ready d';
  enq_view dom : dist_view d' dom = update_domain (dist_view d) kQueries (put_all (dist_view d kQueries) l) dom;
  enq_results : results_ d' = results_ d;
}.

Lemma enqueued_nil d : dist_ready d -> enqueued [] d d.
Proof. intros Hr. split; [done | | done]. intros dom. unfold update_domain. by case_decide; subst. Qed.

Lemma enqueued_cons k v l d d1 d' :
  enqueued [(k, v)] d d1 -> enqueued l d1 d' -> enqueued ((k, v) :: l) d d'.
Proof.
  intros [R1 V1 S1] [R2 V2 S2]. split; [done | | congruence]. intros dom. rewrite V2.
  unfold update_domain. rewrite !V1. unfold update_domain.
  rewrite (decide_True (P := kQueries = kQueries)) by done. by case_decide.
Qed.

Lemma queued_cons names e entries :
  queued names (e :: entries) =
  (if bool_decide (names = ∅) || bool_decide (entry_name e ∈ names)
   then [(kDistributedQueryPrefix +:+ entry_name e, entry_query e)] else []) ++ queued names entries.
Proof.
  unfold queued. destruct (decide (names = ∅ \/ entry_name e ∈ names)) as [Hs|Hs].
  - rewrite filter_cons_True by done.
    destruct Hs as [Hs|Hs]; rewrite ?(bool_decide_true _ Hs), ?orb_true_r; done.
  - rewrite filter_cons_False by done. by rewrite !bool_decide_false by naive_solver.
Qed.

Lemma query_loop_run names entries d : dist_ready d -> Forall entry_ok entries ->
  exists d', for_flow entries tt (query_step names) d = (Ok (Next tt), d') /\
    enqueued (queued names entries) d d'.
Proof.
  intros Hr He. revert d Hr. induction He as [|[n v] entries (q & Hq & Hn & Hc) He IH]; intros d Hr.
  { exists d. split; [done|]. by apply enqueued_nil. }
  simpl in Hq, Hn, Hc. subst v. rewrite queued_cons. unfold entry_name, entry_query. simpl.
  unfold query_step at 1. simpl.
  destruct (is_empty (c_str n)) eqn:E1; [by apply is_empty_true in E1|].
  destruct (is_empty (c_str q)) eqn:E2; [by apply is_empty_true in E2|]. simpl.
  destruct (bool_decide (names = ∅) || bool_decide (c_str n ∈ names)); simpl.
  - destruct (api_set_run_ok d (kDistributedQueryPrefix +:+ c_str n) (c_str q) Hr) as (st & h & E & Hh & Hv).
    destruct (IH (with_dist_host h d) Hh) as (d' & E' & Q'). exists d'. split.
    + unfold bind at 1. by rewrite (bind_run _ _ _ _ _ E).
    + eapply enqueued_cons; [|exact Q']. by split.
  - destruct (IH d Hr) as (d' & E' & Q'). by exists d'.
Qed.

(** What the service sends is what is queued. When the text is an object
    whose "queries" are named non-empty strings and the discovery queries ran, work
    is accepted and the store holds one more entry for each query that discovery
    selected: those whose name is among the discovery queries that returned rows,
    or all of them when none did. *)
Theorem acceptWork_queues_selected (work : string) (ms entries : members) (names : gset string)
    (d d1 : Dist) :
  JSON_parse_if IsObject work = Some (JObject ms) -> member "queries" ms = Some (JObject entries) ->
  member "accelerate" ms = None -> Forall entry_ok entries -> dist_ready d1 ->
  accept_discovery SQL NDEBUG ms d = (Ok (Next names), d1) ->
  exists d', acceptWork SQL NDEBUG work d = (Ok Status_success, d') /\
    dist_ready d' /\ results_ d' = results_ d1 /\
    dist_view d' kQueries = put_all (dist_view d1 kQueries) (queued names entries) /\
    (forall dom, dom <> kQueries -> dist_view d' dom = dist_view d1 dom).
Proof.
  intros Hp Hq Ha He Hr Hd. unfold acceptWork. rewrite Hp, (bind_run _ _ _ _ _ Hd).
  unfold accept_queries. rewrite Hq. unfold assert_. simpl. rewrite orb_true_r.
  destruct (query_loop_run names entries d1 Hr He) as (d' & E & [R1 V1 S1]).
  rewrite (bind_run _ _ d1 (Next tt) d') by exact E.
  unfold accept_accelerate. rewrite Ha. exists d'. split_and!; [done..| |].
  - rewrite V1. unfold update_domain. by rewrite decide_True.
  - intros dom Hne. rewrite V1. unfold update_domain. by rewrite decide_False.
Qed.

(** Discovery queries that succeed and return nothing. *)
Definition silent (q : string) : Prop := forall s, api_ready s ->
  exists cols s', SQL q s = (Ok (Status_success, [], cols), s') /\ api_ready s' /\
    forall d, api_view s' d = api_view s d.

Lemma discovery_silent entries (d : Dist) : dist_ready d -> Forall entry_ok entries ->
  Forall (fun e => silent (entry_query e)) entries ->
  exists d', for_flow entries ∅ (discovery_step SQL) d = (Ok (Next ∅), d') /\
    dist_ready d' /\ results_ d' = results_ d /\ (forall dom, dist_view d' dom = dist_view d dom).
Proof.
  intros Hr He Hs. revert d Hr. induction He as [|[n v] entries (q & Hq & Hn & Hc) He IH]; intros d Hr.
  { by exists d. }
  apply Forall_cons in Hs as [Hs Hss]. simpl in Hq, Hn, Hc. subst v. unfold entry_query in Hs. simpl in Hs.
  destruct (Hs (dist_host d) Hr) as (cols & h & E & Hh & Hv).
  destruct (IH Hss (with_dist_host h d) Hh) as (d' & E' & R' & S' & V').
  exists d'. split_and!; [|done|done|intros dom; rewrite V'; apply Hv].
  simpl. unfold discovery_step at 1. simpl.
  destruct (is_empty (c_str n)) eqn:E1; [by apply is_empty_true in E1|].
  destruct (is_empty (c_str q)) eqn:E2; [by apply is_empty_true in E2|]. simpl.
  unfold bind at 1. by rewrite (bind_run _ _ _ _ _ (in_dist_run _ _ _ _ E)).
Qed.

(** Discovery that matches nothing selects everything. If every discovery
    query succeeds without returning a row, all queries of the work are queued,
    also those a discovery query was meant to keep off this host: an empty set of
    names is taken to mean that there was no discovery. *)
Theorem unmatched_discovery_queues_all (work : string) (ms entries discovery : members) (d : Dist) :
  JSON_parse_if IsObject work = Some (JObject ms) -> member "queries" ms = Some (JObject entries) ->
  member "discovery" ms = Some (JObject discovery) -> member "accelerate" ms = None ->
  Forall entry_ok entries -> Forall entry_ok discovery ->
  Forall (fun e => silent (entry_query e)) discovery -> dist_ready d ->
  exists d', acceptWork SQL NDEBUG work d = (Ok Status_success, d') /\
    dist_view d' kQueries = put_all (dist_view d kQueries)
      ((fun e => (kDistributedQueryPrefix +:+ entry_name e, entry_query e)) <$> entries).
Proof.
  intros Hp Hq Hdisc Ha He Hde Hsil Hr.
  destruct (discovery_silent discovery d Hr Hde Hsil) as (d1 & E1 & R1 & S1 & V1).
  destruct (query_loop_run ∅ entries d1 R1 He) as (d' & E & [R2 V2 S2]).
  exists d'. split.
  - unfold acceptWork. rewrite Hp. unfold accept_discovery, accept_queries. rewrite Hdisc, Hq.
    unfold assert_. simpl. rewrite orb_true_r. unfold bind, ret. rewrite E1, E.
    unfold accept_accelerate. by rewrite Ha.
  - rewrite V2, V1. unfold update_domain. rewrite decide_True by done. f_equal. unfold queued.
    rewrite filter_all; [done|]. apply Forall_true. by left.
Qed.
End Queue.

(** ** The report to the service *)

Section Report.
Context {R : RapidJSON} {RL : RapidJSONLaws R}.

Definition result_id (r : DistributedQueryResult) : string := req_id (res_request r).
Definition rows_json (r : DistributedQueryResult) : json :=
  JArray (serializeQueryData (res_results r) (res_columns r)).
Definition code_json (r : DistributedQueryResult) : json := JInt (code (res_status r)).

(** The two objects as maps: a later result with the same id replaces an earlier
    one. *)
Lemma report_maps rs qs ss : NoDup qs.*1 -> NoDup ss.*1 ->
  let acc := foldl report_step (qs, ss) rs in
  NoDup acc.1.*1 /\ NoDup acc.2.*1 /\
  (list_to_map acc.1 : gmap string json)
  = foldl (fun m r => <[result_id r := rows_json r]> m) (list_to_map qs) rs /\
  (list_to_map acc.2 : gmap string json)
  = foldl (fun m r => <[result_id r := code_json r]> m) (list_to_map ss) rs.
Proof.
  revert qs ss. induction rs as [|r rs IH]; intros qs ss Hq Hs; simpl; [done|].
  destruct (add_member_map (result_id r) (rows_json r) qs Hq) as [Hq' Eq].
  destruct (add_member_map (result_id r) (code_json r) ss Hs) as [Hs' Es].
  destruct (IH _ _ Hq' Hs') as (H1 & H2 & H3 & H4). rewrite Eq in H3. rewrite Es in H4. done.
Qed.

Lemma foldl_insert_NoDup (f : DistributedQueryResult -> json) rs r (m : gmap string json) :
  NoDup (result_id <$> rs) -> r ∈ rs ->
  foldl (fun m r => <[result_id r := f r]> m) m rs !! result_id r = Some (f r).
Proof.
  revert m. induction rs as [|x rs IH]; intros m Hn; [by intros ?%not_elem_of_nil|].
  rewrite fmap_cons in Hn. apply NoDup_cons in Hn as [Hx Hn]. intros [->|Hr]%elem_of_cons; simpl.
  - clear IH Hn. assert (forall m : gmap string json, m !! result_id x = Some (f x) ->
      foldl (fun m r => <[result_id r := f r]> m) m rs !! result_id x = Some (f x)) as HI; [|apply HI, lookup_insert_eq].
    induction rs as [|y rs IH]; intros m' Hm; simpl; [done|]. rewrite fmap_cons, not_elem_of_cons in Hx.
    apply IH; [naive_solver|]. rewrite lookup_insert_ne; [done | naive_solver].
  - by apply IH.
Qed.

Lemma report_members_exact rs qs ss : Forall result_wf rs ->
  Forall (fun r => (- 2 ^ 31 <= code (res_status r) < 2 ^ 31)%Z) rs ->
  Forall (fun kv => json_exact kv.2 = true) qs -> Forall (fun kv => json_exact kv.2 = true) ss ->
  let acc := foldl report_step (qs, ss) rs in
  Forall (fun kv => json_exact kv.2 = true) acc.1 /\ Forall (fun kv => json_exact kv.2 = true) acc.2.
Proof.
  intros Hw. revert qs ss. induction Hw as [|r rs [_ Hr] Hw IH]; intros qs ss Hc Hq Hs; simpl; [done|].
  apply Forall_cons in Hc as [Hc Hcs]. apply IH; [done| |].
  - apply Forall_add_member; [|done]. by apply query_data_columns.
  - apply Forall_add_member; [|done]. simpl. apply andb_true_iff.
    rewrite Z.leb_le, Z.ltb_lt. lia.
Qed.

(** The report holds every result. The text [flushCompleted] hands to the
    plugin parses back to an object with the members "queries" and "statuses", in
    which each completed request, if no other has its id, has its rows (reduced to
    the columns of the result) and the code of its status. *)
Theorem report_holds_every_result (rs : list DistributedQueryResult) (r : DistributedQueryResult) :
  Forall result_wf rs -> Forall (fun r => (- 2 ^ 31 <= code (res_status r) < 2 ^ 31)%Z) rs ->
  NoDup (result_id <$> rs) -> r ∈ rs ->
  exists ms qs ss arr,
    JSON_parse_if IsObject (JSON_toString (report rs)).2 = Some (JObject ms) /\
    member "queries" ms = Some (JObject qs) /\ member "statuses" ms = Some (JObject ss) /\
    member (result_id r) qs = Some arr /\
    deserializeQueryData arr [] = (Status_success, row_columns (res_columns r) <$> res_results r) /\
    member (result_id r) ss = Some (JInt (code (res_status r))).
Proof.
  intros Hw Hc Hn Hr.
  destruct (report_maps rs [] [] NoDup_nil_2 NoDup_nil_2) as (N1 & N2 & M1 & M2).
  destruct (report_members_exact rs [] [] Hw Hc (Forall_nil_2 _) (Forall_nil_2 _)) as [X1 X2].
  unfold report. destruct (foldl report_step ([], []) rs) as [qs ss]. cbn [fst snd] in N1, N2, M1, M2, X1, X2.
  assert (NoDup (add_member "queries" (JObject qs) []).*1) as Hd by auto with osq.
  eexists _, qs, ss, (rows_json r). split_and!.
  - unfold JSON_parse_if. rewrite fromString_toString; [done|]. apply json_exact_object.
    by repeat (apply Forall_add_member; [by apply json_exact_object|]).
  - by rewrite !member_add_member by auto with osq.
  - by rewrite member_add_member by auto with osq.
  - rewrite member_map, M1. by apply foldl_insert_NoDup.
  - eapply Forall_forall in Hw; [|exact Hr]. apply query_data_columns, Hw.
  - rewrite member_map, M2. by apply (foldl_insert_NoDup code_json).
Qed.
End Report.
