(* ===== verification/Process.v ===== *)
(** * Processes (osquery/core/posix/process.cpp, osquery/core/system.cpp,
      osquery/core/process.h, osquery/core/posix/process_ops.cpp)

    [PlatformProcess] on POSIX is a process id. The system calls are the class
    [Posix]; [launchWorker] and [launchExtension] are the parent's side of the
    fork. *)
From S2P Require Import Prelude.

(** [kInvalidPid]. *)
Definition kInvalidPid : Z := -1.

Definition SIGKILL : Z := 9.
Definition SIGTERM : Z := 15.
Definition ECHILD : Z := 10.

Inductive ProcessState := PROCESS_ERROR | PROCESS_STILL_ALIVE | PROCESS_EXITED | PROCESS_STATE_CHANGE.

#[export] Instance ProcessState_eq_dec : EqDecision ProcessState.
Proof. solve_decision. Defined.

Class Posix (S : Type) := {
  (** [::kill(pid, signal)]. *)
  sys_kill : Z -> Z -> M S Z;
  (** [::waitpid(pid, &status, WNOHANG)]: the result, the status and [errno]. *)
  sys_waitpid : Z -> M S (Z * Z * Z);
  (** [::fork()] and, in the child, [::execve] of the program with the
      arguments: what [fork] returns in the parent. *)
  sys_spawn : string -> list string -> M S Z;
  sys_getpid : M S Z;
  sys_getppid : M S Z;
  (** [sleepFor(ms)]. *)
  sleepFor : Z -> M S unit;
}.

(** [WIFEXITED] and [WEXITSTATUS]. *)
Definition WIFEXITED (status : Z) : bool := (Z.land status 0x7f =? 0)%Z.
Definition WEXITSTATUS (status : Z) : Z := Z.land (Z.shiftr status 8) 0xff.

Section Process.
Context {S : Type} {P : Posix S} (FLAGS_alarm_timeout : Z).

Definition isValid (id_ : Z) : bool := negb (id_ =? kInvalidPid)%Z.

Definition process_kill (id_ : Z) : M S bool :=
  if negb (isValid id_) then ret false
  else let* status := sys_kill id_ SIGKILL in ret (status =? 0)%Z.

Definition killGracefully (id_ : Z) : M S bool :=
  if negb (isValid id_) then ret false
  else let* status := sys_kill id_ SIGTERM in ret (status =? 0)%Z.

(** The second component is [status] after the call: it is assigned only when
    the child exited by itself. *)
Definition checkStatus (id_ status : Z) : M S (ProcessState * Z) :=
  if negb (isValid id_) then ret (PROCESS_ERROR, status)
  else
    let* (result, process_status, errno) := sys_waitpid id_ in
    if (result <? 0)%Z then
      if (errno =? ECHILD)%Z then ret (PROCESS_EXITED, status) else ret (PROCESS_ERROR, status)
    else if (result =? 0)%Z then ret (PROCESS_STILL_ALIVE, status)
    else if WIFEXITED process_status then ret (PROCESS_EXITED, WEXITSTATUS process_status)
    else ret (PROCESS_STATE_CHANGE, status).

(** [while (delay < timeout)]. *)
Fixpoint cleanup_loop (fuel : nat) (id_ delay timeout : Z) : M S bool :=
  if (delay <? timeout)%Z then
    match fuel with
    | O => ret false
    | Datatypes.S fuel =>
        let* (st, _) := checkStatus id_ 0 in
        if decide (st = PROCESS_EXITED) then ret true
        else sleepFor 200 ;;; cleanup_loop fuel id_ (u64 (delay + 200)) timeout
    end
  else ret false.

Definition cleanup_timeout : Z := u64 (u64 (FLAGS_alarm_timeout + 1) * 1000).

Definition cleanup_fuel (timeout : Z) : nat := Z.to_nat ((timeout + 199) / 200).

Definition cleanup (id_ : Z) : M S bool :=
  if negb (isValid id_) then ret false
  else cleanup_loop (cleanup_fuel cleanup_timeout) id_ 0 cleanup_timeout.

(** A launch that fails returns a null pointer. *)
Definition launchWorker (exec_path : string) (argv : list string) : M S (option Z) :=
  let* worker_pid := sys_spawn exec_path argv in
  ret (if (worker_pid <? 0)%Z then None else Some worker_pid).

(** The first argument is the program itself. *)
Definition extension_argv (exec_path extensions_socket extensions_timeout extensions_interval : string)
    (verbose : bool) : list string :=
  [exec_path] ++ (if verbose then ["--verbose"] else []) ++
  ["--socket"; extensions_socket; "--timeout"; extensions_timeout; "--interval"; extensions_interval].

Definition launchExtension (exec_path extensions_socket extensions_timeout extensions_interval : string)
    (verbose : bool) : M S (option Z) :=
  let* ext_pid := sys_spawn exec_path
    (extension_argv exec_path extensions_socket extensions_timeout extensions_interval verbose) in
  ret (if (ext_pid <? 0)%Z then None else Some ext_pid).

Definition isLauncherProcessDead (launcher : Z) : M S bool :=
  if negb (isValid launcher) then ret true
  else let* ppid := sys_getppid in ret (negb (ppid =? launcher)%Z).

(** ** The loop of [cleanup] ends by its timeout *)

(** Whatever the child does, [cleanup_fuel] is enough: more fuel gives the same
    run, so the loop never ends because fuel ran out. *)
Lemma cleanup_loop_fuel fuel id_ delay timeout s :
  (0 <= delay)%Z -> (timeout + 200 < 2 ^ 64)%Z -> (timeout <= delay + 200 * Z.of_nat fuel)%Z ->
  cleanup_loop (Datatypes.S fuel) id_ delay timeout s = cleanup_loop fuel id_ delay timeout s.
Proof.
  revert delay s. induction fuel as [|fuel IH]; intros delay s H0 Ht Hf.
  - simpl. destruct (Z.ltb_spec delay timeout); [lia | done].
  - cbn [cleanup_loop]. destruct (Z.ltb_spec delay timeout) as [Hd|]; [|done].
    unfold bind. destruct (checkStatus id_ 0 s) as [[[st x]|e] s1]; [|done].
    destruct (decide (st = PROCESS_EXITED)); [done|].
    destruct (sleepFor 200 s1) as [[u|e] s2]; [|done].
    rewrite u64_small by (unfold in_u64; lia).
    specialize (IH (delay + 200)%Z s2). cbn [cleanup_loop] in IH. apply IH; lia.
Qed.
End Process.
