(* ===== verification/Watcher.v ===== *)
(** * The watcher (osquery/core/watcher.cpp, osquery/core/watcher.h)

    The watcher process polls its worker and its extensions, stops those that
    use too much, and starts them again with a back-off. The state is the
    [Watcher] singleton, the restarts of the [WatcherRunner] and the exit code a
    shutdown was requested with. The [processes] table, the file checks, the
    environment and the signals are parameters. *)
From S2P Require Import Prelude Boost Conversions Json Database Query Host Process.

(** ** Limits *)

Inductive WatchdogLimitType :=
  | MEMORY_LIMIT | UTILIZATION_LIMIT | RESPAWN_LIMIT | RESPAWN_DELAY | LATENCY_LIMIT | INTERVAL.

#[export] Instance WatchdogLimitType_eq_dec : EqDecision WatchdogLimitType.
Proof. solve_decision. Defined.

Record LimitDefinition := mkLimit { normal : Z; restrictive : Z; disabled : Z }.

Definition kWatchdogLimits (name : WatchdogLimitType) : LimitDefinition :=
  match name with
  | MEMORY_LIMIT => mkLimit 200 100 10000
  | UTILIZATION_LIMIT => mkLimit 10 5 100
  | RESPAWN_LIMIT => mkLimit 4 4 1000
  | RESPAWN_DELAY => mkLimit 5 5 1
  | LATENCY_LIMIT => mkLimit 12 6 1000
  | INTERVAL => mkLimit 3 3 3
  end.

Record WatchdogFlags := {
  watchdog_level : Z;
  watchdog_memory_limit : Z;
  watchdog_utilization_limit : Z;
  watchdog_delay : Z;
  watchdog_max_delay : Z;
  enable_extensions_watchdog : bool;
}.

Definition getWorkerLimit (F : WatchdogFlags) (name : WatchdogLimitType) : Z :=
  if bool_decide (name = MEMORY_LIMIT) && (0 <? watchdog_memory_limit F)%Z
  then watchdog_memory_limit F
  else if bool_decide (name = UTILIZATION_LIMIT) && (0 <? watchdog_utilization_limit F)%Z
  then watchdog_utilization_limit F
  else if (watchdog_level F =? -1)%Z then disabled (kWatchdogLimits name)
  else if (watchdog_level F =? 1)%Z then restrictive (kWatchdogLimits name)
  else normal (kWatchdogLimits name).

(** ** Performance *)

Record PerformanceState := mkPerf {
  sustained_latency : Z;
  user_time : Z;
  system_time : Z;
  last_respawn_time : Z;
  initial_footprint : Z;
}.

Definition PerformanceState_new : PerformanceState := mkPerf 0 0 0 0 0.

Record PerformanceChange := mkChange {
  ch_sustained_latency : Z;
  ch_footprint : Z;
  ch_iv : Z;
  ch_parent : Z;
}.

(** What the [reset...Counters] functions assign. *)
Definition reset_counters (respawn_time : Z) (st : PerformanceState) : PerformanceState :=
  mkPerf 0 0 0 respawn_time (initial_footprint st).

(** [static_cast<pid_t>] of a [long long]. *)
Definition i32 (z : Z) : Z := (z + 2 ^ 31) mod 2 ^ 32 - 2 ^ 31.

(** [tryTo<long long>(r.at(key)).takeOr(0)], [None] when [at] throws. *)
Definition column (r : Row) (key : string) : option Z :=
  (fun v => takeOr (tryTo TLongLong v 10) 0%Z) <$> r !! key.

Section Change.
Context (F : WatchdogFlags) (kNumOfCPUs : Z).

Definition iv_of : Z := Z.max (getWorkerLimit F INTERVAL) 1.

(** The CPU time one interval allows, in milliseconds. *)
Definition cpu_ul : Z :=
  let percent_ul := getWorkerLimit F UTILIZATION_LIMIT in
  let percent_ul := if (100 <? percent_ul)%Z then 100%Z else percent_ul in
  let iv_milliseconds := u64 (iv_of * 1000) in
  (u64 (u64 (percent_ul * iv_milliseconds) * kNumOfCPUs) / 100)%Z.

(** What the [try] block of [getChange] assigns before a missing column stops
    it: parent, user time, system time and footprint. [junk] is what the
    uninitialised [parent] and [footprint] hold. *)
Definition read_row (r : Row) (junk : Z * Z) : bool * (Z * Z * Z * Z) :=
  match column r "parent" with
  | None => (false, (junk.1, 0, 0, junk.2))
  | Some parent =>
      match column r "user_time" with
      | None => (false, (i32 parent, 0, 0, junk.2))
      | Some user =>
          match column r "system_time" with
          | None => (false, (i32 parent, user, 0, junk.2))
          | Some system =>
              match column r "resident_size" with
              | None => (false, (i32 parent, user, system, junk.2))
              | Some size => (true, (i32 parent, user, system, u64 size))
              end
          end
      end
  end%Z.

(** The differences are of type [size_t]: a counter that went back wraps. *)
Definition getChange (junk : Z * Z) (r : Row) (state : PerformanceState)
    : PerformanceChange * PerformanceState :=
  let '(complete, (parent, user, system, footprint)) := read_row r junk in
  let latency := if complete then sustained_latency state else 0%Z in
  let user_time_diff := u64 (user - user_time state) in
  let sys_time_diff := u64 (system - system_time state) in
  let cpu_utilization_time := u64 (user_time_diff + sys_time_diff) in
  let latency := if (cpu_ul <? cpu_utilization_time)%Z then u64 (latency + 1) else 0%Z in
  let initial := if (initial_footprint state =? 0)%Z then footprint else initial_footprint state in
  let footprint := if (footprint <? initial)%Z then 0%Z else (footprint - initial)%Z in
  (mkChange latency footprint iv_of parent,
   mkPerf latency (u64 user) (u64 system) (last_respawn_time state) initial).

Definition exceededMemoryLimit (change : PerformanceChange) : bool :=
  if (ch_footprint change =? 0)%Z then false
  else (u64 (u64 (getWorkerLimit F MEMORY_LIMIT * 1024) * 1024) <? ch_footprint change)%Z.

Definition exceededCyclesLimit (change : PerformanceChange) : bool :=
  if (ch_sustained_latency change =? 0)%Z then false
  else
    let latency := u64 (ch_sustained_latency change * ch_iv change) in
    (getWorkerLimit F LATENCY_LIMIT <=? latency)%Z.
End Change.

(** ** State *)

Definition EXIT_SUCCESS : Z := 0.
Definition EXIT_FAILURE : Z := 1.
Definition EXIT_CATASTROPHIC : Z := 78.

Record Watcher (S : Type) := mkWatcher {
  w_host : S;
  state_ : PerformanceState;
  extension_states_ : gmap string PerformanceState;
  worker_ : Z;
  worker_restarts_ : Z;
  extensions_ : gmap string Z;
  restart_worker_ : bool;
  worker_status_ : Z;
  extension_restarts_ : gmap string Z;
  (** [kExitCode], once a shutdown was requested. *)
  shutdown_code : option Z;
}.
Arguments mkWatcher {S}.
Arguments w_host {S}.
Arguments state_ {S}.
Arguments extension_states_ {S}.
Arguments worker_ {S}.
Arguments worker_restarts_ {S}.
Arguments extensions_ {S}.
Arguments restart_worker_ {S}.
Arguments worker_status_ {S}.
Arguments extension_restarts_ {S}.
Arguments shutdown_code {S}.

Section State.
Context {S : Type}.
Abbreviation W := (Watcher S).

Definition w_set_host (h : S) (w : W) : W :=
  mkWatcher h (state_ w) (extension_states_ w) (worker_ w) (worker_restarts_ w) (extensions_ w)
    (restart_worker_ w) (worker_status_ w) (extension_restarts_ w) (shutdown_code w).
Definition w_set_state (st : PerformanceState) (w : W) : W :=
  mkWatcher (w_host w) st (extension_states_ w) (worker_ w) (worker_restarts_ w) (extensions_ w)
    (restart_worker_ w) (worker_status_ w) (extension_restarts_ w) (shutdown_code w).
Definition w_set_extension_states (m : gmap string PerformanceState) (w : W) : W :=
  mkWatcher (w_host w) (state_ w) m (worker_ w) (worker_restarts_ w) (extensions_ w)
    (restart_worker_ w) (worker_status_ w) (extension_restarts_ w) (shutdown_code w).
Definition setWorker (child : Z) (w : W) : W :=
  mkWatcher (w_host w) (state_ w) (extension_states_ w) child (worker_restarts_ w) (extensions_ w)
    (restart_worker_ w) (worker_status_ w) (extension_restarts_ w) (shutdown_code w).
Definition workerRestarted (w : W) : W :=
  mkWatcher (w_host w) (state_ w) (extension_states_ w) (worker_ w) (u64 (worker_restarts_ w + 1))
    (extensions_ w) (restart_worker_ w) (worker_status_ w) (extension_restarts_ w) (shutdown_code w).
Definition w_set_extensions (m : gmap string Z) (w : W) : W :=
  mkWatcher (w_host w) (state_ w) (extension_states_ w) (worker_ w) (worker_restarts_ w) m
    (restart_worker_ w) (worker_status_ w) (extension_restarts_ w) (shutdown_code w).
Definition bindFates (w : W) : W :=
  mkWatcher (w_host w) (state_ w) (extension_states_ w) (worker_ w) (worker_restarts_ w) (extensions_ w)
    false (worker_status_ w) (extension_restarts_ w) (shutdown_code w).
Definition w_set_status (st : Z) (w : W) : W :=
  mkWatcher (w_host w) (state_ w) (extension_states_ w) (worker_ w) (worker_restarts_ w) (extensions_ w)
    (restart_worker_ w) st (extension_restarts_ w) (shutdown_code w).
Definition w_set_restarts (m : gmap string Z) (w : W) : W :=
  mkWatcher (w_host w) (state_ w) (extension_states_ w) (worker_ w) (worker_restarts_ w) (extensions_ w)
    (restart_worker_ w) (worker_status_ w) m (shutdown_code w).
(** [Initializer::requestShutdown]: the first code that is not 0 is kept. *)
Definition requestShutdown (retcode : Z) (w : W) : W :=
  mkWatcher (w_host w) (state_ w) (extension_states_ w) (worker_ w) (worker_restarts_ w) (extensions_ w)
    (restart_worker_ w) (worker_status_ w) (extension_restarts_ w)
    (Some (match shutdown_code w with
           | Some c => if (c =? 0)%Z then retcode else c
           | None => retcode
           end)).

Definition fatesBound (w : W) : bool := negb (restart_worker_ w).

Definition resetWorkerCounters (respawn_time : Z) (w : W) : W :=
  w_set_state (reset_counters respawn_time (state_ w)) w.

(** [extension_states_[extension]] creates a missing entry. *)
Definition getState_ext (extension : string) (w : W) : PerformanceState :=
  default PerformanceState_new (extension_states_ w !! extension).

Definition resetExtensionCounters (extension : string) (respawn_time : Z) (w : W) : W :=
  w_set_extension_states
    (<[extension := reset_counters respawn_time (getState_ext extension w)]> (extension_states_ w)) w.

Definition getExtensionPath (child : Z) (w : W) : string :=
  match filter (fun e => e.2 = child) (map_sorted (extensions_ w)) with
  | (path, _) :: _ => path
  | [] => ""
  end.

Definition removeExtensionPath (extension : string) (w : W) : W :=
  w_set_extension_states (delete extension (extension_states_ w))
    (w_set_extensions (delete extension (extensions_ w)) w).

(** [getState(child)]: the counters and how to write them back. *)
Definition getState (child : Z) (w : W) : PerformanceState :=
  if (child =? worker_ w)%Z then state_ w else getState_ext (getExtensionPath child w) w.
Definition putState (child : Z) (st : PerformanceState) (w : W) : W :=
  if (child =? worker_ w)%Z then w_set_state st w
  else w_set_extension_states (<[getExtensionPath child w := st]> (extension_states_ w)) w.

Definition setExtension (extension : string) (child : Z) (w : W) : W :=
  w_set_extensions (<[extension := child]> (extensions_ w)) w.

Definition reset (child : Z) (w : W) : W :=
  if (child =? worker_ w)%Z then resetWorkerCounters 0 (setWorker kInvalidPid w)
  else foldl (fun w e => if (e.2 =? child)%Z
                         then resetExtensionCounters e.1 0 (setExtension e.1 kInvalidPid w) else w)
         w (map_sorted (extensions_ w)).

Definition addExtensionPath (path : string) (w : W) : W :=
  resetExtensionCounters path 0 (setExtension path kInvalidPid w).
End State.

(** ** The runner *)

Section Runner.
Context {S : Type} {H : Host S} {P : Posix S}.
Context (F : WatchdogFlags) (kNumOfCPUs FLAGS_alarm_timeout : Z) (junk : Z * Z).
Context (use_worker_ run_once_ : bool) (argv_ : list string).
(** [Config::getStartTime()]. *)
Context (start_time : Z).
(** [getProcessRow(pid)]: the row of the [processes] table. *)
Context (getProcessRow : Z -> M S QueryData).
(** The path of a process, from the same table. *)
Context (getProcessPath : Z -> M S QueryData).
(** [OSQUERY_EXTENSIONS] of the environment. *)
Context (extensions_env : M S bool) (set_extensions_env : M S unit).
(** [fs::system_complete], [pathExists] and [safePermissions]. *)
Context (system_complete : string -> M S string) (pathExists safePermissions : string -> M S bool).
Context (relayStatusLogs : M S unit) (pause : Z -> M S unit).
(** Whether a signal handler bound the fates while the watcher waited, and
    whether the service was interrupted. *)
Context (signalled interrupted : M S bool).
(** The flags a child extension is started with. *)
Context (extensions_socket extensions_timeout extensions_interval : string) (verbose : bool).

Abbreviation Run := (M (Watcher S)).

Definition on_w {X} (m : M S X) : Run X := zoom w_host w_set_host m.

Definition delayedTime : Z := u64 (start_time + watchdog_delay F).

Definition hasManagedExtensions : Run bool :=
  let* exts := gets extensions_ in
  if negb (bool_decide (exts = ∅)) then ret true else on_w extensions_env.

Definition ok : Run bool :=
  let* status := gets worker_status_ in
  if (status =? EXIT_SUCCESS)%Z || (status =? EXIT_CATASTROPHIC)%Z then ret false
  else
    let* worker := gets worker_ in
    if isValid worker then ret true else hasManagedExtensions.

(** [requestShutdown(EXIT_CATASTROPHIC, ...)] when even a kill leaves the child. *)
Definition stopChild (child : Z) : Run unit :=
  on_w (killGracefully child) ;;;
  let* cleaned := on_w (cleanup FLAGS_alarm_timeout child) in
  if cleaned then ret tt
  else
    on_w (process_kill child) ;;;
    let* cleaned := on_w (cleanup FLAGS_alarm_timeout child) in
    if cleaned then ret tt else modify (requestShutdown EXIT_CATASTROPHIC).

Definition isWatcherHealthy (watcher : Z) (watcher_state : PerformanceState)
    : Run (Status * PerformanceState) :=
  let* rows := on_w (getProcessRow watcher) in
  match rows with
  | [] => ret (mkStatus 1 "Cannot find watcher process", watcher_state)
  | r :: _ =>
      let '(change, watcher_state) := getChange F kNumOfCPUs junk r watcher_state in
      if exceededMemoryLimit F change then ret (mkStatus 1 "Memory limits exceeded", watcher_state)
      else ret (Status1 0, watcher_state)
  end.

Definition isChildSane (child : Z) : Run Status :=
  let* rows := on_w (getProcessRow child) in
  match rows with
  | [] => ret (mkStatus 1 "Cannot find process")
  | r :: _ =>
      let* change := (fun w => let '(change, st) := getChange F kNumOfCPUs junk r (getState child w) in
                               (Ok change, putState child st w)) in
      let* self := on_w sys_getpid in
      if negb (ch_parent change =? self)%Z then modify (reset child) ;;; ret (Status1 0)
      else if exceededCyclesLimit F change
      then ret (mkStatus 1 ("Maximum sustainable CPU utilization limit exceeded: "
                +:+ to_string (u64 (ch_sustained_latency change * ch_iv change))))
      else if exceededMemoryLimit F change
      then ret (mkStatus 1 ("Memory limits exceeded: " +:+ to_string (ch_footprint change)))
      else
        let* worker := gets worker_ in
        (if use_worker_ && (child =? worker)%Z then on_w relayStatusLogs else ret tt) ;;;
        ret (Status1 0)
  end.

Definition watch (child : Z) : Run bool :=
  let* (result, process_status) := on_w (checkStatus child 0) in
  let* signal := on_w signalled in
  (if signal then modify bindFates else ret tt) ;;;
  let* bound := gets fatesBound in
  if bound then ret false
  else if negb (isValid child) || bool_decide (result = PROCESS_ERROR) then ret false
  else if bool_decide (result = PROCESS_STILL_ALIVE) then
    let* status := isChildSane child in
    if Status_ok status then ret true
    else
      let* now := on_w getUnixTime in
      if (delayedTime <=? now)%Z then stopChild child ;;; ret false else ret true
  else if bool_decide (result = PROCESS_EXITED) then modify (w_set_status process_status) ;;; ret false
  else ret true.

(** *** Starting processes *)

(** [static_cast<size_t>(pow(2, n))]: undefined from 64 on. *)
Definition pow2 (n : Z) : result Z := if (n <? 64)%Z then Ok (2 ^ n)%Z else Throw AssertFailure.

(** The back-off after [restarts] quick restarts. *)
Definition respawn_delay (restarts : Z) : result Z :=
  match pow2 restarts with
  | Ok p => Ok (Z.min (watchdog_max_delay F) (u64 (getWorkerLimit F RESPAWN_DELAY + p)))
  | Throw e => Throw e
  end.

(** A process that was started less than [RESPAWN_LIMIT] seconds ago. *)
Definition too_quick (st : PerformanceState) (now : Z) : bool :=
  (u64 (now - getWorkerLimit F RESPAWN_LIMIT) <? last_respawn_time st)%Z.

(** The path of the running program, when the table has exactly one. *)
Definition self_path (qd : QueryData) : option string :=
  match qd with
  | [r] => match r !! "path" with
           | Some p => if is_empty p then None else Some p
           | None => None
           end
  | _ => None
  end.

Definition backoff : Run unit :=
  let* st := gets (fun w => getState (worker_ w) w) in
  let* now := on_w getUnixTime in
  if too_quick st now then
    modify workerRestarted ;;;
    let* restarts := gets worker_restarts_ in
    let* delay := of_result (respawn_delay restarts) in
    on_w (pause delay)
  else ret tt.

Definition createWorker : Run unit :=
  backoff ;;;
  let* self := on_w sys_getpid in
  let* qd := on_w (getProcessPath self) in
  match self_path qd with
  | None => modify (requestShutdown EXIT_FAILURE)
  | Some path =>
      let* managed := hasManagedExtensions in
      (if managed then on_w set_extensions_env else ret tt) ;;;
      let* exec_path := on_w (system_complete path) in
      let* exists_ := on_w (pathExists exec_path) in
      if negb exists_ then ret tt
      else
        let* safe := on_w (safePermissions exec_path) in
        if negb safe then modify (requestShutdown EXIT_FAILURE)
        else
          let* worker := on_w (launchWorker exec_path argv_) in
          match worker with
          | None => modify (requestShutdown EXIT_FAILURE) ;;; throw AssertFailure
          | Some pid =>
              modify (setWorker pid) ;;;
              let* now := on_w getUnixTime in
              modify (resetWorkerCounters now) ;;;
              modify (w_set_status (-1))
          end
  end.

(** [Initializer::shutdown] exits the process. *)
Definition createExtension (extension : string) : Run unit :=
  let* exec_path := on_w (system_complete extension) in
  let* exists_ := on_w (pathExists exec_path) in
  if negb exists_ then ret tt
  else
    let* safe := on_w (safePermissions exec_path) in
    if negb safe then ret tt
    else
      let* ext_process := on_w (launchExtension exec_path extensions_socket extensions_timeout
                                  extensions_interval verbose) in
      match ext_process with
      | None => modify (requestShutdown EXIT_FAILURE) ;;; throw AssertFailure
      | Some pid =>
          modify (setExtension extension pid) ;;;
          let* now := on_w getUnixTime in
          modify (resetExtensionCounters extension now)
      end.

(** The body of the loop of [watchExtensions]; the element is read again from
    the map, since [isChildSane] can replace its process. *)
Definition watch_extension (extension : string) : Run unit :=
  let current := gets (fun w => default kInvalidPid (extensions_ w !! extension)) in
  let* child := current in
  on_w (checkStatus child 0) ;;;
  let ext_valid := isValid child in
  let* s := isChildSane child in
  let* restart := (if negb ext_valid then ret true
                   else if Status_ok s then ret false
                   else let* now := on_w getUnixTime in ret (delayedTime <=? now)%Z) in
  if restart then
    (if ext_valid && enable_extensions_watchdog F
     then let* child := current in
          stopChild child ;;; on_w (pause (getWorkerLimit F INTERVAL))
     else ret tt) ;;;
    createExtension extension ;;;
    modify (fun w => w_set_restarts
      (<[extension := u64 (default 0%Z (extension_restarts_ w !! extension) + 1)]> (extension_restarts_ w)) w)
  else modify (fun w => w_set_restarts (<[extension := 0%Z]> (extension_restarts_ w)) w).

Definition watchExtensions : Run unit :=
  let* exts := gets extensions_ in
  for_each (map_sorted exts).*1 watch_extension.

(** *** The loop *)

(** The worker's part of one turn: whether the loop goes on. *)
Definition watch_worker : Run bool :=
  if negb use_worker_ then ret true
  else
    let* worker := gets worker_ in
    let* alive := watch worker in
    if alive then ret true
    else
      let* bound := gets fatesBound in
      if bound then ret false
      else
        let* status := gets worker_status_ in
        if (status =? EXIT_CATASTROPHIC)%Z then modify (requestShutdown EXIT_CATASTROPHIC) ;;; ret false
        else
          let* restarts := gets worker_restarts_ in
          if (restarts =? getWorkerLimit F RESPAWN_LIMIT)%Z
          then modify (requestShutdown EXIT_FAILURE) ;;; ret false
          else createWorker ;;; ret true.

(** One turn: whether it ended without [break], and the watcher's own counters. *)
Definition watcher_turn (self : Z) (watcher_state : PerformanceState) : Run (bool * PerformanceState) :=
  let* go := watch_worker in
  if negb go then ret (false, watcher_state)
  else
    watchExtensions ;;;
    let* (status, watcher_state) :=
      (if use_worker_ then isWatcherHealthy self watcher_state else ret (Status1 0, watcher_state)) in
    if negb (Status_ok status) then modify (requestShutdown EXIT_CATASTROPHIC) ;;; ret (false, watcher_state)
    else if run_once_ then ret (false, watcher_state)
    else on_w (pause (getWorkerLimit F INTERVAL)) ;;; ret (true, watcher_state).

(** [do { ... } while (!interrupted() && ok())]; [false] when out of fuel. *)
Fixpoint watcher_loop (fuel : nat) (self : Z) (watcher_state : PerformanceState) : Run bool :=
  match fuel with
  | O => ret false
  | Datatypes.S fuel =>
      let* (go, watcher_state) := watcher_turn self watcher_state in
      if negb go then ret true
      else
        let* stop := on_w interrupted in
        if stop then ret true
        else
          let* again := ok in
          if again then watcher_loop fuel self watcher_state else ret true
  end.

Definition start (fuel : nat) : Run bool :=
  let* self := on_w sys_getpid in
  modify (resetWorkerCounters 0) ;;;
  watcher_loop fuel self PerformanceState_new.

(** [WatcherRunner::stop]: a child that cannot be stopped is killed. *)
Definition stop : Run unit :=
  let* exts := gets extensions_ in
  for_each (map_sorted exts) (fun e =>
    catch (stopChild e.2) (fun _ => on_w (process_kill e.2) ;;; ret tt)).

(** One turn of [WatcherWatcherRunner::start] in the worker: whether it goes on. *)
Definition watcher_watcher_turn (watcher : Z) : Run bool :=
  let* dead := on_w (isLauncherProcessDead watcher) in
  if dead then modify (requestShutdown 0) ;;; ret false
  else on_w (pause (getWorkerLimit F INTERVAL)) ;;; ret true.
End Runner.

(** * Facts about the watcher

    The latency counter is the number of busy samples in a row; the number of
    quick restarts never passes its limit and the back-off between them is
    bounded; once fates are bound nothing is started again; and what the code
    keeps across a restart. *)

(** ** Samples *)

Section Samples.
Context (F : WatchdogFlags) (kNumOfCPUs : Z) (junk : Z * Z).

(** A row with all four columns, and the times it holds. *)
Definition sample_of (r : Row) : option (Z * Z) :=
  match column r "parent", column r "user_time", column r "system_time", column r "resident_size" with
  | Some _, Some u, Some s, Some _ => Some (u, s)
  | _, _, _, _ => None
  end.

Definition next_state (st : PerformanceState) (r : Row) : PerformanceState :=
  (getChange F kNumOfCPUs junk r st).2.

(** Whether the CPU time between two samples is more than an interval allows. *)
Definition busy (p q : Z * Z) : bool := (cpu_ul F kNumOfCPUs <? (q.1 - p.1) + (q.2 - p.2))%Z.

Fixpoint busy_flags (p : Z * Z) (l : list (Z * Z)) : list bool :=
  match l with
  | [] => []
  | q :: l => busy p q :: busy_flags q l
  end.

(** The length of the last run of [true]. *)
Fixpoint leading (l : list bool) : nat :=
  match l with true :: l => S (leading l) | _ => O end.
Definition trailing (l : list bool) : nat := leading (rev l).

(** Times that do not go back, small enough for their differences to add up
    within 64 bits. *)
Definition time_ok (p : Z * Z) : Prop := (0 <= p.1 < 2 ^ 62)%Z /\ (0 <= p.2 < 2 ^ 62)%Z.
Definition later (p q : Z * Z) : Prop := (p.1 <= q.1)%Z /\ (p.2 <= q.2)%Z.

Definition times (st : PerformanceState) : Z * Z := (user_time st, system_time st).

Lemma next_state_sample st r q : sample_of r = Some q -> time_ok (times st) -> time_ok q ->
  later (times st) q ->
  times (next_state st r) = q /\
  sustained_latency (next_state st r)
  = (if busy (times st) q then u64 (sustained_latency st + 1) else 0)%Z.
Proof.
  unfold sample_of, next_state, getChange, read_row. intros Hr [Hu Hs] [Hqu Hqs] [L1 L2].
  destruct (column r "parent") as [pa|]; [|done]. destruct (column r "user_time") as [u|]; [|done].
  destruct (column r "system_time") as [s|]; [|done]. destruct (column r "resident_size") as [sz|]; [|done].
  simplify_eq. unfold times, busy in *. simpl in *.
  rewrite !(u64_small u), !(u64_small s), !(u64_small (u - user_time st)),
    !(u64_small (s - system_time st)), u64_small by (unfold in_u64; lia). done.
Qed.

Lemma leading_snoc_true l : leading (l ++ [true]) = if forallb id l then S (length l) else leading l.
Proof. induction l as [|[] l IH]; simpl; [done | | done]. rewrite IH. by destruct (forallb id l). Qed.

Lemma trailing_cons b l :
  trailing (b :: l) = if forallb id l then (if b then S (length l) else length l) else trailing l.
Proof.
  unfold trailing. simpl. rewrite <- (length_rev l).
  assert (forallb id l = forallb id (rev l)) as ->.
  { induction l as [|x l IH]; [done|]. simpl. rewrite forallb_app, IH. simpl.
    by rewrite andb_true_r, andb_comm. }
  destruct b; [apply leading_snoc_true|].
  induction (rev l) as [|[] l' IH]; simpl; [done | | done]. rewrite IH. by destruct (forallb id l').
Qed.

Lemma trailing_all l : forallb id l = true -> trailing l = length l.
Proof.
  unfold trailing. rewrite <- (length_rev l). intros Hl.
  assert (forallb id (rev l) = true) as H.
  { apply forallb_forall. intros x Hx. rewrite forallb_forall in Hl. by apply Hl, in_rev. }
  induction (rev l) as [|[] l' IH]; simpl in *; [done | | done]. by rewrite IH.
Qed.

Lemma busy_flags_length p l : length (busy_flags p l) = length l.
Proof. revert p. induction l as [|q l IH]; intros p; simpl; [done | by rewrite IH]. Qed.

Lemma trailing_length l : (trailing l <= length l)%nat.
Proof.
  unfold trailing. rewrite <- (length_rev l).
  induction (rev l) as [|[] l' IH]; simpl; lia.
Qed.

Lemma latency_run rs qs st :
  Forall2 (fun r q => sample_of r = Some q) rs qs -> time_ok (times st) -> Forall time_ok qs ->
  Sorted later (times st :: qs) -> (0 <= sustained_latency st)%Z ->
  (sustained_latency st + Z.of_nat (length qs) < 2 ^ 64)%Z ->
  sustained_latency (foldl next_state st rs)
  = (Z.of_nat (trailing (busy_flags (times st) qs))
     + if forallb id (busy_flags (times st) qs) then sustained_latency st else 0)%Z.
Proof.
  intros Hrs. revert st. induction Hrs as [|r q rs qs Hr Hrs IH]; intros st Ht Hqs Hso H0 Hb; simpl.
  { unfold trailing. simpl. lia. }
  apply Forall_cons in Hqs as [Hq Hqs]. inversion Hso as [|? ? Hso' Hh]; subst.
  inversion Hh as [|? ? Hle]; subst.
  destruct (next_state_sample st r q Hr Ht Hq Hle) as [E1 E2].
  simpl in Hb. rewrite (IH (next_state st r)).
  - rewrite E1, E2, trailing_cons. destruct (forallb id (busy_flags q qs)) eqn:Ef.
    + rewrite (trailing_all _ Ef). destruct (busy (times st) q); simpl; [|lia].
      rewrite u64_small by (unfold in_u64; lia). lia.
    + by rewrite andb_false_r.
  - by rewrite E1.
  - done.
  - by rewrite E1.
  - rewrite E2. destruct (busy _ _); [apply u64_range | lia].
  - rewrite E2. destruct (busy _ _); [rewrite u64_small by (unfold in_u64; lia)|]; lia.
Qed.

(** The latency counter is the number of busy samples in a row. For rows of
    the processes table whose times do not go back, the counter after any number
    of polls from a reset state is the length of the last run of intervals in which
    the process used more CPU time than the limit allows, and the process is called
    over its limit exactly when that run is not empty and lasts at least
    [LATENCY_LIMIT] seconds. *)
Theorem latency_is_trailing_run (rs : list Row) (r : Row) (qs : list (Z * Z)) (st : PerformanceState) :
  Forall2 (fun r q => sample_of r = Some q) (rs ++ [r]) qs ->
  time_ok (times st) -> Forall time_ok qs -> Sorted later (times st :: qs) ->
  sustained_latency st = 0%Z -> (Z.of_nat (length qs) * iv_of F < 2 ^ 64)%Z ->
  let n := Z.of_nat (trailing (busy_flags (times st) qs)) in
  sustained_latency (foldl next_state st (rs ++ [r])) = n /\
  exceededCyclesLimit F (getChange F kNumOfCPUs junk r (foldl next_state st rs)).1
  = (0 <? n)%Z && (getWorkerLimit F LATENCY_LIMIT <=? n * iv_of F)%Z.
Proof.
  intros Hrs Ht Hqs Hso H0 Hb n.
  assert (1 <= iv_of F)%Z as Hiv by (unfold iv_of; lia).
  assert (sustained_latency (foldl next_state st (rs ++ [r])) = n) as E.
  { rewrite (latency_run _ qs); [|done..|lia|nia]. rewrite H0. unfold n. destruct (forallb _ _); lia. }
  split; [done|]. rewrite foldl_app in E. simpl in E. unfold next_state at 1 in E.
  assert (n <= Z.of_nat (length qs))%Z as Hn.
  { unfold n. pose proof (trailing_length (busy_flags (times st) qs)).
    rewrite busy_flags_length in *. lia. }
  set (c := getChange F kNumOfCPUs junk r (foldl next_state st rs)) in *.
  assert (ch_sustained_latency c.1 = sustained_latency c.2 /\ ch_iv c.1 = iv_of F) as [Ec Ei].
  { unfold c, getChange. by destruct (read_row _ _) as [b [[[x y] z] w]]. }
  unfold exceededCyclesLimit. rewrite Ec, Ei, E.
  destruct (Z.eqb_spec n 0) as [->|Hne]; [done|].
  rewrite u64_small by (unfold in_u64; nia).
  destruct (Z.ltb_spec 0 n); [done|]. unfold n in *. lia.
Qed.

(** *** Counters that go back *)

(** A counter that goes back counts as busy. The differences are unsigned, so
    a user time below the last one (a process image replaced under the same id, or
    a value that does not parse and reads as 0) counts as more CPU time than any
    limit, and the latency counter grows. *)
Theorem backward_counter_counts_as_busy (r : Row) (u s : Z) (st : PerformanceState) :
  sample_of r = Some (u, s) -> (0 <= u < user_time st)%Z -> (user_time st < 2 ^ 62)%Z ->
  (0 <= system_time st <= s)%Z -> (s - system_time st < user_time st - u)%Z ->
  (cpu_ul F kNumOfCPUs < 2 ^ 63)%Z -> (0 <= sustained_latency st < 2 ^ 64 - 1)%Z ->
  sustained_latency (next_state st r) = (sustained_latency st + 1)%Z.
Proof.
  unfold sample_of, next_state, getChange, read_row. intros Hr Hu Hb Hs Hd Hc Hl.
  destruct (column r "parent") as [pa|]; [|done]. destruct (column r "user_time") as [u'|]; [|done].
  destruct (column r "system_time") as [s'|]; [|done]. destruct (column r "resident_size") as [sz|]; [|done].
  simplify_eq. simpl.
  assert (u64 (u64 (u - user_time st) + u64 (s - system_time st))
          = 2 ^ 64 + (u - user_time st) + (s - system_time st))%Z as ->.
  { unfold u64. rewrite <- Z.add_mod by lia. symmetry.
    apply (Z.mod_unique _ _ (-1)); [left; lia | lia]. }
  destruct (Z.ltb_spec (cpu_ul F kNumOfCPUs) (2 ^ 64 + (u - user_time st) + (s - system_time st))); [|lia].
  apply u64_small. unfold in_u64. lia.
Qed.

(** *** The memory baseline *)

(** What happens to the counters of a process: a poll, or the reset at a
    respawn. *)
Inductive perf_event := Poll (r : Row) | Respawn (t : Z).

Definition perf_step (st : PerformanceState) (e : perf_event) : PerformanceState :=
  match e with Poll r => next_state st r | Respawn t => reset_counters t st end.

(** The memory baseline of a worker outlives the worker. Once a first
    footprint was measured it is never replaced, neither by later polls nor by the
    reset when the worker is started again, so the memory limit of a new worker is
    applied to its growth over the first worker's image. *)
Theorem memory_baseline_survives_respawn (es : list perf_event) (st : PerformanceState) :
  initial_footprint st <> 0%Z ->
  initial_footprint (foldl perf_step st es) = initial_footprint st.
Proof.
  intros Hi. assert (forall st e, initial_footprint st <> 0%Z ->
    initial_footprint (perf_step st e) = initial_footprint st) as Hs.
  { intros st0 [r|t] H0; [|done]. simpl. unfold next_state, getChange.
    destruct (read_row r junk) as [b [[[x y] z] w]]. simpl. by destruct (Z.eqb_spec (initial_footprint st0) 0). }
  revert st Hi. induction es as [|e es IH]; intros st Hi; simpl; [done|].
  rewrite IH; rewrite Hs; done.
Qed.
End Samples.

(** ** The runner *)

(** [m] leaves what [f] observes alone, also when it throws. *)
Definition preserves {S A X} (f : Watcher S -> X) (m : M (Watcher S) A) : Prop :=
  forall w, f (m w).2 = f w.

Create HintDb preserves.

Section Keeps.
Context {S X : Type} (f : Watcher S -> X).

Lemma preserves_ret {A} (a : A) : preserves f (ret a).
Proof. done. Qed.

Lemma preserves_gets {A} (g : Watcher S -> A) : preserves f (gets g).
Proof. done. Qed.

Lemma preserves_throw {A} e : preserves f (throw (A := A) e).
Proof. done. Qed.

Lemma preserves_of_result {A} (r : result A) : preserves f (of_result r).
Proof. done. Qed.

Lemma preserves_modify g : (forall w, f (g w) = f w) -> preserves f (modify g).
Proof. intros Hg w. apply Hg. Qed.

Lemma preserves_bind {A B} (m : M (Watcher S) A) (k : A -> M (Watcher S) B) :
  preserves f m -> (forall a, preserves f (k a)) -> preserves f (bind m k).
Proof.
  intros Hm Hk w. unfold bind. specialize (Hm w). destruct (m w) as [[a|e] w1]; simpl in *; [|done].
  by rewrite Hk.
Qed.

Lemma preserves_if {A} (b : bool) (m1 m2 : M (Watcher S) A) : preserves f m1 -> preserves f m2 -> preserves f (if b then m1 else m2).
Proof. by destruct b. Qed.

Lemma preserves_for_each {A} (l : list A) (g : A -> M (Watcher S) unit) :
  (forall x, preserves f (g x)) -> preserves f (for_each l g).
Proof. intros Hg. induction l as [|x l IH]; simpl; [apply preserves_ret | by apply preserves_bind]. Qed.

(** Work on the host is invisible to everything else. *)
Lemma preserves_on_w {A} (m : M S A) : (forall h w, f (w_set_host h w) = f w) -> preserves f (on_w m).
Proof. intros Hf w. unfold on_w, zoom. destruct (m (w_host w)) as [r h]. apply Hf. Qed.
End Keeps.
#[export] Hint Resolve preserves_ret preserves_gets preserves_throw preserves_of_result preserves_modify preserves_bind preserves_if
  preserves_for_each preserves_on_w : preserves.

(** Split a sequence, a match and a pair. *)
Ltac keep := repeat first
  [ progress intros | apply preserves_bind | apply preserves_if | apply preserves_for_each | apply preserves_on_w
  | progress (auto with preserves)
  | match goal with
    | |- preserves _ (match ?x with _ => _ end) => destruct x
    | |- preserves _ (let '(_, _) := ?x in _) => destruct x
    end ].

Section RunnerFacts.
Context {S : Type} {H : Host S} {P : Posix S}.
Context (F : WatchdogFlags) (kNumOfCPUs FLAGS_alarm_timeout : Z) (junk : Z * Z).
Context (use_worker_ run_once_ : bool) (argv_ : list string) (start_time : Z).
Context (getProcessRow getProcessPath : Z -> M S QueryData).
Context (extensions_env : M S bool) (set_extensions_env : M S unit).
Context (system_complete : string -> M S string) (pathExists safePermissions : string -> M S bool).
Context (relayStatusLogs : M S unit) (pause : Z -> M S unit) (signalled interrupted : M S bool).
Context (extensions_socket extensions_timeout extensions_interval : string) (verbose : bool).

Abbreviation W := (Watcher S).

(** *** The number of quick restarts *)

Lemma preserves_change (X : Type) (f : W -> X) child r :
  (forall st w, f (putState child st w) = f w) ->
  preserves f (fun w => let '(change, st) := getChange F kNumOfCPUs junk r (getState child w) in
                    (Ok change, putState child st w)).
Proof. intros Hf w. destruct (getChange _ _ _ _ _) as [c st]. apply Hf. Qed.

Lemma restarts_putState child st (w : W) : worker_restarts_ (putState child st w) = worker_restarts_ w.
Proof. unfold putState. by destruct (_ =? _)%Z. Qed.

Lemma restarts_reset child (w : W) : worker_restarts_ (reset child w) = worker_restarts_ w.
Proof.
  unfold reset. destruct (_ =? _)%Z; [done|]. generalize (map_sorted (extensions_ w)). intros l. revert w.
  induction l as [|e l IH]; intros w; simpl; [done|]. rewrite IH. by destruct (_ =? _)%Z.
Qed.

#[local] Hint Resolve restarts_putState restarts_reset preserves_change : preserves.

Lemma isChildSane_restarts child :
  preserves worker_restarts_ (isChildSane F kNumOfCPUs junk use_worker_ getProcessRow relayStatusLogs child).
Proof. unfold isChildSane. keep. Qed.

Lemma stopChild_restarts child : preserves (S := S) worker_restarts_ (stopChild FLAGS_alarm_timeout child).
Proof. unfold stopChild. keep. Qed.
#[local] Hint Resolve isChildSane_restarts stopChild_restarts : preserves.

Lemma watch_restarts child :
  preserves worker_restarts_ (watch F kNumOfCPUs FLAGS_alarm_timeout junk use_worker_ start_time getProcessRow
                            relayStatusLogs signalled child).
Proof. unfold watch. keep. Qed.

Lemma watchExtensions_restarts :
  preserves worker_restarts_ (watchExtensions F kNumOfCPUs FLAGS_alarm_timeout junk use_worker_ start_time
    getProcessRow system_complete pathExists safePermissions relayStatusLogs pause extensions_socket
    extensions_timeout extensions_interval verbose).
Proof. unfold watchExtensions, watch_extension, createExtension. keep. Qed.

Abbreviation the_worker := (watch_worker F kNumOfCPUs FLAGS_alarm_timeout junk use_worker_ argv_ start_time
  getProcessRow getProcessPath extensions_env set_extensions_env system_complete pathExists safePermissions
  relayStatusLogs pause signalled).
Abbreviation the_turn := (watcher_turn F kNumOfCPUs FLAGS_alarm_timeout junk use_worker_ run_once_ argv_ start_time
  getProcessRow getProcessPath extensions_env set_extensions_env system_complete pathExists safePermissions
  relayStatusLogs pause signalled extensions_socket extensions_timeout extensions_interval verbose).
Abbreviation the_loop := (watcher_loop F kNumOfCPUs FLAGS_alarm_timeout junk use_worker_ run_once_ argv_ start_time
  getProcessRow getProcessPath extensions_env set_extensions_env system_complete pathExists safePermissions
  relayStatusLogs pause signalled interrupted extensions_socket extensions_timeout extensions_interval verbose).
Abbreviation the_start := (start F kNumOfCPUs FLAGS_alarm_timeout junk use_worker_ run_once_ argv_ start_time
  getProcessRow getProcessPath extensions_env set_extensions_env system_complete pathExists safePermissions
  relayStatusLogs pause signalled interrupted extensions_socket extensions_timeout extensions_interval verbose).

Lemma bind_last {A B X} (f : W -> X) (m : M W A) (k : A -> M W B) (Q : X -> Prop) w :
  Q (f (m w).2) -> (forall a, preserves f (k a)) -> Q (f (bind m k w).2).
Proof.
  intros Hm Hk. unfold bind. destruct (m w) as [[a|e] w1]; simpl in *; [|done]. by rewrite Hk.
Qed.

Lemma bind_first {A B X} (f : W -> X) (m : M W A) (k : A -> M W B) (Q : X -> Prop) w :
  preserves f m -> Q (f w) -> (forall a w', f w' = f w -> Q (f (k a w').2)) -> Q (f (bind m k w).2).
Proof.
  intros Hm Hw Hk. unfold bind. specialize (Hm w). destruct (m w) as [[a|e] w1]; simpl in *.
  - by apply Hk.
  - by rewrite Hm.
Qed.

Definition restart_limit : Z := getWorkerLimit F RESPAWN_LIMIT.
Definition within (n : Z) : Prop := (0 <= n <= restart_limit)%Z.

Lemma restart_limit_small : (0 <= restart_limit <= 1000)%Z.
Proof.
  unfold restart_limit, getWorkerLimit. simpl.
  by destruct (watchdog_level F =? -1)%Z, (watchdog_level F =? 1)%Z.
Qed.

Lemma backoff_within w : (0 <= worker_restarts_ w < restart_limit)%Z ->
  within (worker_restarts_ (backoff F pause w).2).
Proof.
  intros Hw. pose proof restart_limit_small. unfold backoff. rewrite bind_gets.
  apply bind_first; [keep | unfold within; lia |]. intros now w' E.
  destruct (too_quick _ _ _); [|simpl; rewrite E; unfold within; lia].
  rewrite bind_modify. set (tail := bind (gets worker_restarts_) _).
  assert (preserves worker_restarts_ tail) as Hk by (unfold tail; keep).
  rewrite Hk. simpl. rewrite E, u64_small by (unfold in_u64; lia). unfold within. lia.
Qed.

Lemma createWorker_within w : (0 <= worker_restarts_ w < restart_limit)%Z ->
  within (worker_restarts_ (createWorker F argv_ getProcessPath extensions_env set_extensions_env
    system_complete pathExists safePermissions pause w).2).
Proof.
  intros Hw. unfold createWorker. apply bind_last; [by apply backoff_within|].
  unfold hasManagedExtensions. keep.
Qed.

Lemma watch_worker_within w : within (worker_restarts_ w) -> within (worker_restarts_ (the_worker w).2).
Proof.
  intros Hw. unfold watch_worker. destruct (negb use_worker_); [done|]. rewrite bind_gets.
  apply bind_first; [apply watch_restarts | done |]. intros alive w1 E1. destruct alive; [by rewrite <- E1 in Hw|].
  rewrite bind_gets. destruct (fatesBound w1); [by rewrite <- E1 in Hw|].
  rewrite bind_gets. destruct (worker_status_ w1 =? EXIT_CATASTROPHIC)%Z; [by rewrite <- E1 in Hw|].
  rewrite bind_gets. fold restart_limit.
  destruct (Z.eqb_spec (worker_restarts_ w1) restart_limit) as [El|Hne]; [by rewrite <- E1 in Hw|].
  apply bind_last; [|keep]. apply createWorker_within. rewrite <- E1 in Hw. unfold within in Hw. lia.
Qed.

Lemma turn_within self st w : within (worker_restarts_ w) -> within (worker_restarts_ (the_turn self st w).2).
Proof.
  intros Hw. unfold watcher_turn. apply bind_last; [by apply watch_worker_within|].
  pose proof watchExtensions_restarts. unfold isWatcherHealthy. keep.
Qed.

Lemma loop_within fuel self st w : within (worker_restarts_ w) -> within (worker_restarts_ (the_loop fuel self st w).2).
Proof.
  revert st w. induction fuel as [|fuel IH]; intros st w Hw; [done|]. cbn [watcher_loop]. unfold bind at 1.
  pose proof (turn_within self st w Hw) as Ht.
  destruct (the_turn self st w) as [[[go st']|e] w1]; [|done]. simpl in Ht.
  destruct go; [|done]. simpl.
  apply bind_first; [keep | done |]. intros stop w2 E2. destruct stop; [by rewrite <- E2 in Ht|].
  assert (preserves worker_restarts_ (ok extensions_env)) as Hk by (unfold ok, hasManagedExtensions; keep).
  apply bind_first; [exact Hk | by rewrite <- E2 in Ht |]. intros again w3 E3.
  destruct again; [apply IH | simpl]; by rewrite E3, E2.
Qed.

(** The worker is not restarted for ever. However its processes behave and
    whatever the system calls return, the number of quick restarts never passes
    [RESPAWN_LIMIT], at any point where the loop of the watcher stops (also when it
    throws or has run any number of turns). *)
Theorem restarts_never_exceed_limit (fuel : nat) (w : W) :
  (0 <= worker_restarts_ w <= getWorkerLimit F RESPAWN_LIMIT)%Z ->
  (0 <= worker_restarts_ (the_start fuel w).2 <= getWorkerLimit F RESPAWN_LIMIT)%Z.
Proof.
  intros Hw. unfold start. change (within (worker_restarts_ w)) in Hw.
  apply (bind_first worker_restarts_ _ _ within); [keep | done |]. intros self w1 E1.
  rewrite bind_modify. apply loop_within. simpl. by rewrite E1.
Qed.

(** *** Every quick restart counts *)

Abbreviation poll := (watch F kNumOfCPUs FLAGS_alarm_timeout junk use_worker_ start_time getProcessRow
  relayStatusLogs signalled).

(** The clock shows seconds since 1970, which are more than the limit. *)
Hypothesis clock_law : forall s now s', getUnixTime s = (Ok now, s') -> (restart_limit <= now < 2 ^ 64)%Z.







(** *** Bound fates *)

Definition returns {X} (m : M S X) : Prop := forall s, exists x s', m s = (Ok x, s').

Lemma on_w_run {X} (m : M S X) (w : W) x h : m (w_host w) = (Ok x, h) -> on_w m w = (Ok x, w_set_host h w).
Proof. unfold on_w, zoom. by intros ->. Qed.

Lemma checkStatus_run child st (s : S) : returns (sys_waitpid child) ->
  exists r s', checkStatus child st s = (Ok r, s').
Proof.
  intros Hw. unfold checkStatus. destruct (isValid child); simpl; [|by eexists _, _].
  destruct (Hw s) as ([[r x] e] & s' & E). rewrite (bind_run _ _ _ _ _ E).
  repeat case_match; by eexists _, _.
Qed.

(** Nothing was started, stopped or counted. *)
Definition untouched (w w' : W) : Prop :=
  worker_ w' = worker_ w /\ extensions_ w' = extensions_ w /\ worker_restarts_ w' = worker_restarts_ w /\
  extension_restarts_ w' = extension_restarts_ w /\ shutdown_code w' = shutdown_code w.

Lemma watch_bound child w : (forall pid, returns (sys_waitpid pid)) -> returns signalled ->
  fatesBound w = true \/ (forall s, exists s', signalled s = (Ok true, s')) ->
  exists w', watch F kNumOfCPUs FLAGS_alarm_timeout junk use_worker_ start_time getProcessRow
               relayStatusLogs signalled child w = (Ok false, w') /\
    untouched w w' /\ fatesBound w' = true.
Proof.
  intros Hp Hs Hb. unfold watch.
  destruct (checkStatus_run child 0 (w_host w) (Hp child)) as ([r st] & h1 & E1).
  rewrite (bind_run _ _ _ _ _ (on_w_run _ _ _ _ E1)).
  assert (exists b h2, signalled h1 = (Ok b, h2) /\ (b = true \/ fatesBound w = true)) as (b & h2 & E2 & Hb2).
  { destruct Hb as [Hb|Hb]; [destruct (Hs h1) as (b & h2 & E); eauto|]. destruct (Hb h1) as [h2 E]. eauto. }
  rewrite (bind_run _ _ _ _ _ (on_w_run _ (w_set_host h1 w) _ _ E2)).
  destruct b; [rewrite bind_modify | rewrite bind_ret]; rewrite bind_gets.
  - eexists. split; [done|]. by split.
  - destruct Hb2 as [?|Hb2]; [done|].
    replace (fatesBound _) with true by by rewrite <- Hb2. eexists. split; [done|]. by split.
Qed.

(** Once fates are bound nothing is started again. If a handled signal bound
    the fates of watcher and worker, or does so while the watcher polls, the loop
    ends in its first turn: no worker or extension is started, stopped or counted
    as restarted, and no shutdown is requested. *)
Theorem bound_fates_end_the_loop (fuel : nat) (self : Z) (st : PerformanceState) (w : W) :
  use_worker_ = true -> (forall pid, returns (sys_waitpid pid)) -> returns signalled ->
  fatesBound w = true \/ (forall s, exists s', signalled s = (Ok true, s')) ->
  exists w', the_loop (Datatypes.S fuel) self st w = (Ok true, w') /\ untouched w w'.
Proof.
  intros Hu Hp Hs Hb. destruct (watch_bound (worker_ w) w Hp Hs Hb) as (w' & E & Hun & Hf).
  assert (the_worker w = (Ok false, w')) as Ew.
  { unfold watch_worker. rewrite Hu. simpl. rewrite bind_gets, <- Hu, (bind_run _ _ _ _ _ E), bind_gets, Hf. done. }
  exists w'. split; [|done]. cbn [watcher_loop].
  assert (the_turn self st w = (Ok (false, st), w')) as Et by (unfold watcher_turn; by rewrite (bind_run _ _ _ _ _ Ew)).
  by rewrite (bind_run _ _ _ _ _ Et).
Qed.

(** *** A worker that was killed *)

(** A worker killed by a signal is recorded as a successful exit. The first
    poll after the kill collects the status, which is no exit, and takes the worker
    for alive; the second finds no child and stores the exit code 0 that nobody
    assigned. With it the test between two turns ([ok]) says that the watcher is
    done. *)
Theorem killed_worker_reads_as_success (child status e x : Z) (w : W) (h1 h2 h3 h4 : S) :
  (0 < child)%Z -> WIFEXITED status = false -> restart_worker_ w = true ->
  sys_waitpid child (w_host w) = (Ok (child, status, e), h1) -> signalled h1 = (Ok false, h2) ->
  sys_waitpid child h2 = (Ok ((-1)%Z, x, ECHILD), h3) -> signalled h3 = (Ok false, h4) ->
  let poll := watch F kNumOfCPUs FLAGS_alarm_timeout junk use_worker_ start_time getProcessRow
                relayStatusLogs signalled child in
  exists w1 w2, poll w = (Ok true, w1) /\ poll w1 = (Ok false, w2) /\
    worker_status_ w2 = EXIT_SUCCESS /\ ok extensions_env w2 = (Ok false, w2).
Proof.
  intros Hc Hst Hr E1 E2 E3 E4.
  assert (isValid child = true) as Hv.
  { unfold isValid, kInvalidPid. destruct (Z.eqb_spec child (-1)); [lia | done]. }
  assert (checkStatus child 0 (w_host w) = (Ok (PROCESS_STATE_CHANGE, 0%Z), h1)) as C1.
  { unfold checkStatus. rewrite Hv. simpl. rewrite (bind_run _ _ _ _ _ E1).
    destruct (Z.ltb_spec child 0); [lia|]. destruct (Z.eqb_spec child 0); [lia|]. by rewrite Hst. }
  assert (checkStatus child 0 h2 = (Ok (PROCESS_EXITED, 0%Z), h3)) as C2.
  { unfold checkStatus. rewrite Hv. simpl. by rewrite (bind_run _ _ _ _ _ E3). }
  intros poll. exists (w_set_host h2 w), (w_set_status 0 (w_set_host h4 w)).
  split_and!; try done.
  - unfold poll, watch. rewrite (bind_run _ _ _ _ _ (on_w_run _ _ _ _ C1)).
    rewrite (bind_run _ _ _ _ _ (on_w_run _ (w_set_host h1 w) _ _ E2)), bind_ret, bind_gets.
    unfold fatesBound. simpl. rewrite Hr, Hv. done.
  - unfold poll, watch. rewrite (bind_run _ _ _ _ _ (on_w_run _ (w_set_host h2 w) _ _ C2)).
    rewrite (bind_run _ _ _ _ _ (on_w_run _ (w_set_host h3 (w_set_host h2 w)) _ _ E4)), bind_ret, bind_gets.
    unfold fatesBound. simpl. rewrite Hr, Hv. done.
Qed.
End RunnerFacts.

(** *** The back-off *)

(** The back-off is exponential up to its cap. At every level but "off" and
    for every number of restarts the watcher can reach, the delay before the next
    worker is the configured one plus two to that number, and at most
    [watchdog_max_delay] seconds. *)
Theorem backoff_is_capped_exponential (F : WatchdogFlags) (n : Z) :
  watchdog_level F <> (-1)%Z -> (0 <= n <= getWorkerLimit F RESPAWN_LIMIT)%Z ->
  respawn_delay F n = Ok (Z.min (watchdog_max_delay F) (5 + 2 ^ n)).
Proof.
  unfold respawn_delay, pow2, getWorkerLimit. simpl. intros Hl.
  destruct (Z.eqb_spec (watchdog_level F) (-1)); [done|].
  destruct (watchdog_level F =? 1)%Z; simpl; intros Hn;
    (destruct (Z.ltb_spec n 64); [|lia]);
    assert (2 ^ n <= 2 ^ 4)%Z by (apply Z.pow_le_mono_r; lia);
    rewrite u64_small by (unfold in_u64; lia); done.
Qed.

(** With the watchdog off the limit is 1000 restarts, and from the 64th on the
    conversion of the power to an integer is undefined. *)
Lemma disabled_backoff_undefined F : watchdog_level F = (-1)%Z ->
  (64 <= getWorkerLimit F RESPAWN_LIMIT)%Z /\ respawn_delay F 64 = Throw AssertFailure.
Proof. intros E. unfold getWorkerLimit, respawn_delay. simpl. by rewrite E. Qed.
