(* ===== verification/Tables.v ===== *)
(** * The table interface (osquery/core/tables.cpp, include/osquery/tables.h)

    Column types and options, the constraints a query puts on a column, the query
    context and its JSON form for tables in extensions, the SQL definition of a
    table, and the cache of table results in the store. What a table generates is
    a parameter of [TablePlugin_call]. *)
From S2P Require Import Prelude Boost Conversions Json Database Query.

(** ** Columns *)

Inductive ColumnType :=
  | UNKNOWN_TYPE | TEXT_TYPE | INTEGER_TYPE | BIGINT_TYPE | UNSIGNED_BIGINT_TYPE | DOUBLE_TYPE | BLOB_TYPE.

#[export] Instance ColumnType_eq_dec : EqDecision ColumnType.
Proof. solve_decision. Defined.

(** In the order of the enumeration, which is the order of the map. *)
Definition kColumnTypeNames : list (ColumnType * string) :=
  [(UNKNOWN_TYPE, "UNKNOWN"); (TEXT_TYPE, "TEXT"); (INTEGER_TYPE, "INTEGER"); (BIGINT_TYPE, "BIGINT");
   (UNSIGNED_BIGINT_TYPE, "UNSIGNED BIGINT"); (DOUBLE_TYPE, "DOUBLE"); (BLOB_TYPE, "BLOB")].

(** [kColumnTypeNames.at(type)]. *)
Definition columnTypeName (type : ColumnType) : string :=
  match filter (fun col => col.1 = type) kColumnTypeNames with
  | col :: _ => col.2
  | [] => ""
  end.

(** The overload that reads a name. *)
Definition columnTypeOf (type : string) : ColumnType :=
  match filter (fun col => col.2 = type) kColumnTypeNames with
  | col :: _ => col.1
  | [] => UNKNOWN_TYPE
  end.

(** [enum class ColumnOptions] and [TableAttributes] as bit sets. *)
Definition OPT_DEFAULT : Z := 0.
Definition OPT_INDEX : Z := 1.
Definition OPT_REQUIRED : Z := 2.
Definition OPT_ADDITIONAL : Z := 4.
Definition OPT_OPTIMIZED : Z := 8.
Definition OPT_HIDDEN : Z := 16.

(** [operator&] used as a condition. *)
Definition has_option (options flag : Z) : bool := negb (Z.land options flag =? 0)%Z.

(** [std::tuple<std::string, ColumnType, ColumnOptions>]. *)
Record TableColumn := mkColumn { col_name : string; col_type : ColumnType; col_options : Z }.

(** ** Constraints *)

Definition EQUALS : Z := 2.
Definition GREATER_THAN : Z := 4.
Definition LESS_THAN_OR_EQUALS : Z := 8.
Definition LESS_THAN : Z := 16.
Definition GREATER_THAN_OR_EQUALS : Z := 32.
Definition MATCH : Z := 64.
Definition LIKE : Z := 65.
Definition GLOB : Z := 66.
Definition REGEXP : Z := 67.
Definition UNIQUE : Z := 1.
Definition ANY_OP : Z := 0xFF.

Record Constraint := mkConstraint { op : Z; expr : string }.

Record ConstraintList := mkConstraints { affinity : ColumnType; constraints_ : list Constraint }.

Definition ConstraintList_new : ConstraintList := mkConstraints TEXT_TYPE [].

Definition ConstraintList_add (c : Constraint) (l : ConstraintList) : ConstraintList :=
  mkConstraints (affinity l) (constraints_ l ++ [c]).

(** [ConstraintList::exists]: the operators are tested as bits. *)
Definition exists_ (ops : Z) (l : ConstraintList) : bool :=
  if (ops =? ANY_OP)%Z then (0 <? length (constraints_ l))%nat
  else existsb (fun c => negb (Z.land (op c) ops =? 0)%Z) (constraints_ l).

(** The types [literal_matches] is instantiated for: how a text is read and how
    two values compare. *)
Record Literal := mkLiteral {
  lit : Type;
  lit_read : string -> Expected lit;
  lit_eqb : lit -> lit -> bool;
  lit_ltb : lit -> lit -> bool;
}.

Definition text_literal : Literal :=
  mkLiteral string inl (fun a b => bool_decide (a = b))
    (fun a b => bool_decide (String.le a b) && negb (bool_decide (a = b))).
Definition int_literal (T : IntType) : Literal :=
  mkLiteral Z (fun s => tryTo T s 10) Z.eqb Z.ltb.

(** What one operator asks of the value; [None] for those that are not
    supported. *)
Definition op_holds (L : Literal) (o : Z) (base c : lit L) : option bool :=
  if (o =? EQUALS)%Z then Some (lit_eqb L base c)
  else if (o =? GREATER_THAN)%Z then Some (lit_ltb L c base)
  else if (o =? LESS_THAN)%Z then Some (lit_ltb L base c)
  else if (o =? GREATER_THAN_OR_EQUALS)%Z then Some (negb (lit_ltb L base c))
  else if (o =? LESS_THAN_OR_EQUALS)%Z then Some (negb (lit_ltb L c base))
  else None.

(** The loop of [literal_matches]; [aggregate] is true whenever it goes on. *)
Fixpoint literal_matches (L : Literal) (base_expr : lit L) (cs : list Constraint) : bool :=
  match cs with
  | [] => true
  | c :: cs =>
      match lit_read L (expr c) with
      | inr _ => false
      | inl constraint_expr =>
          match op_holds L (op c) base_expr constraint_expr with
          | None => true
          | Some false => false
          | Some true => literal_matches L base_expr cs
          end
      end
  end.

(** [INTEGER_LITERAL] is [int], [BIGINT_LITERAL] is [int64_t], and
    [UNSIGNED_BIGINT_LITERAL] is [uint64_t] (LP64). *)
Definition int_matches (T : IntType) (e : string) (cs : list Constraint) : bool :=
  match tryTo T e 10 with
  | inl v => literal_matches (int_literal T) v cs
  | inr _ => false
  end.

Definition matches (e : string) (l : ConstraintList) : bool :=
  match affinity l with
  | TEXT_TYPE => literal_matches text_literal e (constraints_ l)
  | INTEGER_TYPE => int_matches TInt e (constraints_ l)
  | BIGINT_TYPE => int_matches TLong e (constraints_ l)
  | UNSIGNED_BIGINT_TYPE => int_matches TULong e (constraints_ l)
  | _ => false
  end.

Definition existsAndMatches (e : string) (l : ConstraintList) : bool := exists_ ANY_OP l && matches e l.
Definition notExistsOrMatches (e : string) (l : ConstraintList) : bool := negb (exists_ ANY_OP l) || matches e l.

Definition getAll (o : Z) (l : ConstraintList) : gset string :=
  list_to_set (expr <$> filter (fun c => op c = o) (constraints_ l)).

(** The typed overload does not look at the operator. *)
Definition getAll_int (T : IntType) (o : Z) (l : ConstraintList) : gset Z :=
  list_to_set (omap (fun c => match tryTo T (expr c) 10 with inl v => Some v | inr _ => None end)
                 (constraints_ l)).

(** ** The query context *)

Record QueryContext := mkContext {
  constraints : gmap string ConstraintList;
  colsUsed : option (gset string);
  use_cache_ : bool;
  (** [table_->cache]. *)
  cache : gmap string Row;
}.

Definition QueryContext_new : QueryContext := mkContext ∅ None false ∅.

(** Iteration order of a [std::unordered_set]. *)
Class UnorderedSet := { uset_iter : gset string -> list string }.
Class UnorderedSetLaws (U : UnorderedSet) := { uset_iter_perm X : uset_iter X ≡ₚ elements X }.

(** Iteration of a [std::set]. *)
Definition set_sorted (X : gset string) : list string := merge_sort String.le (elements X).

Definition isColumnUsed (colName : string) (ctx : QueryContext) : bool :=
  match colsUsed ctx with None => true | Some cols => bool_decide (colName ∈ cols) end.

Definition isAnyColumnUsed (colNames : list string) (ctx : QueryContext) : bool :=
  existsb (fun c => isColumnUsed c ctx) colNames.

Definition setColumnIfUsed (r : Row) (colName value : string) (ctx : QueryContext) : Row :=
  if isColumnUsed colName ctx then <[colName := value]> r else r.

Definition useCache (use_cache : bool) (ctx : QueryContext) : QueryContext :=
  mkContext (constraints ctx) (colsUsed ctx) use_cache (cache ctx).

Definition set_cache (c : gmap string Row) (ctx : QueryContext) : QueryContext :=
  mkContext (constraints ctx) (colsUsed ctx) (use_cache_ ctx) c.

Definition QueryContext_setCache (index : string) (_cache : Row) (ctx : QueryContext) : QueryContext :=
  set_cache (<[index := _cache]> (cache ctx)) ctx.

Definition QueryContext_setCache_item (index key _item : string) (ctx : QueryContext) : QueryContext :=
  set_cache (<[index := <[key := _item]> (default ∅ (cache ctx !! index))]> (cache ctx)) ctx.

Definition QueryContext_isCached (index : string) (ctx : QueryContext) : bool :=
  bool_decide (is_Some (cache ctx !! index)).

(** [table_->cache[index]] creates a missing entry. *)
Definition QueryContext_getCache (index : string) (ctx : QueryContext) : Row * QueryContext :=
  let r := default ∅ (cache ctx !! index) in (r, set_cache (<[index := r]> (cache ctx)) ctx).

Definition QueryContext_getCache_item (index key : string) (ctx : QueryContext) : string * QueryContext :=
  let r := default ∅ (cache ctx !! index) in
  let v := default "" (r !! key) in
  (v, set_cache (<[index := <[key := v]> r]> (cache ctx)) ctx).

Definition hasConstraint (column : string) (o : Z) (ctx : QueryContext) : bool :=
  match constraints ctx !! column with None => false | Some l => exists_ o l end.

(** [iteritems]: the expressions the predicate is applied to. *)
Definition iteritems (column : string) (o : Z) (ctx : QueryContext) : list string :=
  match constraints ctx !! column with
  | None => []
  | Some l =>
      if decide (affinity l = TEXT_TYPE) then expr <$> filter (fun c => op c = o) (constraints_ l)
      else set_sorted (getAll o l)
  end.

Definition expandConstraints {T} (column : string) (o : Z) (ctx : QueryContext) (output : T)
    (predicate : string -> T -> Status * T) : Status * T :=
  let l := default ConstraintList_new (constraints ctx !! column) in
  (fix loop (cs : list string) (output : T) : Status * T :=
     match cs with
     | [] => (Status1 0, output)
     | c :: cs => let '(status, output) := predicate c output in
                  if negb (Status_ok status) then (status, output) else loop cs output
     end) (set_sorted (getAll o l)) output.

(** ** The context as JSON *)

Section ContextJson.
Context {R : RapidJSON} {B : Boost} {U : UnorderedSet}.

Definition serialize_constraint (c : Constraint) : json :=
  JObject (add_member "expr" (JString (expr c)) (add_member "op" (JInt (op c)) [])).

Definition ConstraintList_serialize (l : ConstraintList) (obj : members) : members :=
  let obj := add_member "list" (JArray (serialize_constraint <$> constraints_ l)) obj in
  add_member "affinity" (JString (columnTypeName (affinity l))) obj.

(** [list["op"]] and [list["expr"]]: a missing member or another kind of value
    violates a precondition. [static_cast<unsigned char>] keeps 8 bits. *)
Definition deserialize_constraint (v : json) : result Constraint :=
  res_bind (GetObject v) (fun ms =>
  res_bind (at_member "op" ms) (fun o =>
  res_bind (JSON_valueToSize o) (fun o =>
  res_bind (at_member "expr" ms) (fun e =>
  res_bind (GetString e) (fun e => Ok (mkConstraint (o mod 256) e)))))).

Fixpoint deserialize_list (vs : list json) (cs : list Constraint) : result (list Constraint) :=
  match vs with
  | [] => Ok cs
  | v :: vs => res_bind (deserialize_constraint v) (fun c => deserialize_list vs (cs ++ [c]))
  end.

Definition ConstraintList_deserialize (obj : json) (l : ConstraintList) : result ConstraintList :=
  match obj with
  | JObject ms =>
      match member "list" ms with
      | Some (JArray vs) =>
          res_bind (deserialize_list vs (constraints_ l)) (fun cs =>
          let affinity_name := match member "affinity" ms with
                               | Some (JString s) => c_str s
                               | _ => "UNKNOWN"
                               end in
          Ok (mkConstraints (columnTypeOf affinity_name) cs))
      | _ => Ok l
      end
  | _ => Ok l
  end.

Definition context_json (ctx : QueryContext) : json :=
  let children := (fun kv => JObject (ConstraintList_serialize kv.2 (add_member "name" (JString kv.1) [])))
                    <$> map_sorted (constraints ctx) in
  let doc := add_member "constraints" (JArray children) [] in
  JObject (match colsUsed ctx with
           | Some cols => add_member "colsUsed" (JArray (JString <$> uset_iter cols)) doc
           | None => doc
           end).

Definition setRequestFromContext (ctx : QueryContext) (request : PluginRequest) : PluginRequest :=
  <["context" := (JSON_toString (context_json ctx)).2]> request.

Fixpoint read_columns (vs : list json) (cols : gset string) : result (gset string) :=
  match vs with
  | [] => Ok cols
  | v :: vs => res_bind (GetString v) (fun s => read_columns vs ({[s]} ∪ cols))
  end.

Fixpoint read_constraints (vs : list json) (m : gmap string ConstraintList)
    : result (gmap string ConstraintList) :=
  match vs with
  | [] => Ok m
  | v :: vs =>
      res_bind (GetObject v) (fun ms =>
      res_bind (at_member "name" ms) (fun n =>
      res_bind (GetString n) (fun name =>
      res_bind (ConstraintList_deserialize v (default ConstraintList_new (m !! name))) (fun l =>
      read_constraints vs (<[name := l]> m)))))
  end.

(** A text that does not parse leaves the empty object the document started as. *)
Definition setContextFromRequest (request : PluginRequest) (ctx : QueryContext) : result QueryContext :=
  res_bind (request_at request "context") (fun text =>
  let doc := default (JObject []) (JSON_fromString text).2 in
  res_bind (GetObject doc) (fun ms =>
  res_bind (match member "colsUsed" ms with
            | Some v => res_bind (GetArray v) (fun vs =>
                        res_bind (read_columns vs ∅) (fun cols => Ok (Some cols)))
            | None => Ok (colsUsed ctx)
            end) (fun cols =>
  res_bind (match member "constraints" ms with
            | Some (JArray vs) => read_constraints vs (constraints ctx)
            | _ => Ok (constraints ctx)
            end) (fun cs =>
  Ok (mkContext cs cols (use_cache_ ctx) (cache ctx)))))).

Definition queryContextFromRequest (request : PluginRequest) : result QueryContext :=
  match request !! "context" with
  | Some _ => setContextFromRequest request QueryContext_new
  | None => Ok QueryContext_new
  end.
End ContextJson.

(** ** The definition of a table *)

(** One column of the statement. *)
Definition column_text (c : TableColumn) : string :=
  "`" +:+ col_name c +:+ "` " +:+ columnTypeName (col_type c)
  +:+ (if has_option (col_options c) OPT_HIDDEN then " HIDDEN" else "").

(** The elements with ", " between them. *)
Fixpoint comma_join (l : list string) : string :=
  match l with
  | [] => ""
  | [s] => s
  | s :: l => s +:+ ", " +:+ comma_join l
  end.

Definition is_key (c : TableColumn) : bool := has_option (col_options c) (Z.lor OPT_INDEX OPT_ADDITIONAL).

Definition columnDefinition (columns : list TableColumn) (is_extension : bool) : string :=
  let keyed := filter (fun c => is_key c = true) columns in
  let indexed := existsb (fun c => has_option (col_options c) OPT_INDEX) keyed in
  let pkeys := if indexed then col_name <$> keyed else [] in
  let without_rowid := indexed && negb is_extension in
  "(" +:+ comma_join (column_text <$> columns)
  +:+ (if is_nil pkeys then ""
       else ", PRIMARY KEY (" +:+ comma_join ((fun k => "`" +:+ k +:+ "`") <$> pkeys) +:+ ")")
  +:+ ")" +:+ (if without_rowid then " WITHOUT ROWID" else "").

(** The loop over a response: the columns and the types seen so far. *)
Definition response_step (aliases : bool) (acc : list TableColumn * gmap string ColumnType)
    (column : gmap string string) : list TableColumn * gmap string ColumnType :=
  let '(columns, column_types) := acc in
  match column !! "id" with
  | None => acc
  | Some id =>
      match (if decide (id = "column") then
               match column !! "name", column !! "type" with
               | Some cname, Some ctype => Some (cname, ctype)
               | _, _ => None
               end
             else None) with
      | Some (cname, ctype) =>
          let options := match column !! "op" with
                         | Some cop => takeOr (tryTo TInt cop 10) OPT_DEFAULT
                         | None => OPT_DEFAULT
                         end in
          let column_type := columnTypeOf ctype in
          (columns ++ [mkColumn cname column_type options],
           if aliases then <[cname := column_type]> column_types else column_types)
      | None =>
          if bool_decide (id = "columnAlias") && aliases then
            match column !! "name", column !! "target" with
            | Some cname, Some ctarget =>
                match column_types !! ctarget with
                | Some target_ctype => (columns ++ [mkColumn cname target_ctype OPT_HIDDEN], column_types)
                | None => acc
                end
            | _, _ => acc
            end
          else acc
      end
  end.

Definition response_columns (response : PluginResponse) (aliases : bool) : list TableColumn :=
  (foldl (response_step aliases) ([], ∅) response).1.

Definition columnDefinition_response (response : PluginResponse) (aliases is_extension : bool) : string :=
  columnDefinition (response_columns response aliases) is_extension.

(** ** The plugin *)

Record TablePlugin := {
  table_name : string;
  columns : list TableColumn;
  aliases : list string;
  (** [ColumnAliasSet]: target to aliases. *)
  columnAliases : gmap string (gset string);
  attributes : Z;
}.

Definition column_route (c : TableColumn) : gmap string string :=
  {["id" := "column"; "name" := col_name c; "type" := columnTypeName (col_type c);
    "op" := to_string (u64 (col_options c))]}.

Definition alias_route (a : string) : gmap string string := {["id" := "alias"; "alias" := a]}.

Definition column_alias_route (target alias : string) : gmap string string :=
  {["id" := "columnAlias"; "name" := alias; "target" := target]}.

Definition routeInfo (p : TablePlugin) : PluginResponse :=
  (column_route <$> columns p) ++ (alias_route <$> aliases p)
  ++ (map_sorted (columnAliases p) ≫= (fun kv => column_alias_route kv.1 <$> set_sorted kv.2))
  ++ [{["id" := "attributes"; "attributes" := to_string (u64 (attributes p))]}].

Section Plugin.
Context {R : RapidJSON} {B : Boost}.
(** [generate], [delete_], [insert] and [update]. *)
Context {S : Type} (generate : QueryContext -> M S PluginResponse).
Context (delete_ insert update : QueryContext -> PluginRequest -> M S PluginResponse).

Definition TablePlugin_call (p : TablePlugin) (request : PluginRequest) : M S (Status * PluginResponse) :=
  match request !! "action" with
  | None => ret (mkStatus 1 "Table plugins must include a request action", [])
  | Some action =>
      let with_context (f : QueryContext -> M S PluginResponse) :=
        let* context := of_result (queryContextFromRequest request) in
        let* response := f context in
        ret (mkStatus 0 "OK", response) in
      if decide (action = "generate") then with_context generate
      else if decide (action = "delete") then with_context (fun c => delete_ c request)
      else if decide (action = "insert") then with_context (fun c => insert c request)
      else if decide (action = "update") then with_context (fun c => update c request)
      else if decide (action = "columns") then ret (mkStatus 0 "OK", routeInfo p)
      else ret (mkStatus 1 ("Unknown table plugin action: " +:+ action), [])
  end.

(** [Registry::call("sql", "sql", request)]. *)
Context (sql_call : PluginRequest -> M S Status).

Definition addExternal (name : string) (response : PluginResponse) : M S Status :=
  if (length response =? 0)%nat then ret (mkStatus 1 "Invalid route info")
  else sql_call {["action" := "attach"; "table" := name]}.

Definition removeExternal (name : string) : M S unit :=
  sql_call {["action" := "detach"; "table" := name]} ;;; ret tt.
End Plugin.

(** ** The cache *)

(** [ctx.constraints.at(column)] throws for a column the context does not have. *)
Fixpoint cache_columns (cols : list TableColumn) (ctx : QueryContext) : result bool :=
  match cols with
  | [] => Ok true
  | c :: cols =>
      let uncachable := Z.lor (Z.lor (Z.lor OPT_INDEX OPT_REQUIRED) OPT_ADDITIONAL) OPT_OPTIMIZED in
      if has_option (col_options c) uncachable then
        match constraints ctx !! col_name c with
        | None => Throw (OutOfRange "map::at")
        | Some l => if exists_ ANY_OP l then Ok false else cache_columns cols ctx
        end
      else cache_columns cols ctx
  end.

Definition cacheAllowed (cols : list TableColumn) (ctx : QueryContext) : result bool :=
  if negb (use_cache_ ctx) then Ok false else cache_columns cols ctx.

(** The two counters of a table and the store. *)
Record TableCache (S : Type) := mkTableCache { tc_host : S; last_cached_ : Z; last_interval_ : Z }.
Arguments mkTableCache {S}.
Arguments tc_host {S}.
Arguments last_cached_ {S}.
Arguments last_interval_ {S}.

Section Cache.
Context {S : Type} {A : DatabaseAPI S} {R : RapidJSON}.
Context (FLAGS_disable_caching : bool) (p : TablePlugin).

Definition cache_key : string := "cache." +:+ table_name p.

Definition on_tc {X} (m : M S X) : M (TableCache S) X :=
  zoom tc_host (fun h t => mkTableCache h (last_cached_ t) (last_interval_ t)) m.

Definition TablePlugin_isCached (step : Z) (ctx : QueryContext) : M (TableCache S) bool :=
  if FLAGS_disable_caching then ret false
  else
    let* limit := gets (fun t => u64 (last_cached_ t + last_interval_ t)) in
    if (step <? limit)%Z then of_result (cacheAllowed (columns p) ctx) else ret false.

Definition TablePlugin_getCache : M (TableCache S) QueryData :=
  let* content := on_tc (api_get_str kQueries cache_key) in
  ret (deserializeQueryDataJSON content []).2.

Definition TablePlugin_setCache (step interval : Z) (ctx : QueryContext) (results : QueryData)
    : M (TableCache S) unit :=
  let* skip := (if FLAGS_disable_caching then ret true
                else let* allowed := of_result (cacheAllowed (columns p) ctx) in ret (negb allowed)) in
  if skip then ret tt
  else
    let '(status, content) := serializeQueryDataJSON results in
    if Status_ok status then
      modify (fun t => mkTableCache (tc_host t) step interval) ;;;
      on_tc (api_set kQueries cache_key content) ;;; ret tt
    else ret tt.
End Cache.
