(* ===== verification/TablesFacts.v ===== *)
(** * Facts about the table interface

    A context survives the way to a table in an extension, the definition the
    core derives from the route information is the table's own, matching is the
    conjunction of SQLite's comparisons, operators are tested as bits, and
    cached results read back. *)
From S2P Require Import Prelude Boost Conversions Json Database DatabaseFacts Query QueryFacts Tables.

(** ** Column types *)

Lemma columnTypeOf_name t : columnTypeOf (columnTypeName t) = t.
Proof. by destruct t. Qed.

Lemma columnTypeName_nul_free t : nul_free (columnTypeName t).
Proof. by destruct t. Qed.

(** ** The context as JSON *)

Section ContextFacts.
Context {R : RapidJSON} {RL : RapidJSONLaws R} {B : Boost} {U : UnorderedSet} {UL : UnorderedSetLaws U}.

Definition constraint_wf (c : Constraint) : Prop := (0 <= op c < 256)%Z /\ nul_free (expr c).

Definition context_wf (ctx : QueryContext) : Prop :=
  map_Forall (fun k l => nul_free k /\ Forall constraint_wf (constraints_ l)) (constraints ctx) /\
  match colsUsed ctx with Some cols => set_Forall nul_free cols | None => True end.

Lemma constraint_roundtrip c : constraint_wf c -> deserialize_constraint (serialize_constraint c) = Ok c.
Proof.
  intros [Hop He]. unfold deserialize_constraint, serialize_constraint, at_member. cbn [GetObject res_bind].
  rewrite !member_add_member by auto with osq.
  repeat first [rewrite decide_False by done | rewrite decide_True by done]. cbn [res_bind GetString].
  unfold JSON_valueToSize, GetUint64.
  destruct (Z.leb_spec 0 (op c)); [|lia]. destruct (Z.ltb_spec (op c) (2 ^ 64)); [|lia]. simpl.
  rewrite He, Z.mod_small by lia. by destruct c.
Qed.

Lemma list_roundtrip cs acc : Forall constraint_wf cs ->
  deserialize_list (serialize_constraint <$> cs) acc = Ok (acc ++ cs).
Proof.
  intros Hcs. revert acc. induction Hcs as [|c cs Hc Hcs IH]; intros acc; [by rewrite app_nil_r|].
  cbn [fmap list_fmap deserialize_list]. rewrite constraint_roundtrip by done. cbn [res_bind].
  by rewrite IH, <- app_assoc.
Qed.

Definition list_members (k : string) (l : ConstraintList) : members :=
  ConstraintList_serialize l (add_member "name" (JString k) []).

Lemma list_members_NoDup k l : NoDup (list_members k l).*1.
Proof. unfold list_members, ConstraintList_serialize. auto with osq. Qed.

Lemma list_members_lookup k l :
  member "name" (list_members k l) = Some (JString k) /\
  member "list" (list_members k l) = Some (JArray (serialize_constraint <$> constraints_ l)) /\
  member "affinity" (list_members k l) = Some (JString (columnTypeName (affinity l))).
Proof.
  unfold list_members, ConstraintList_serialize.
  by rewrite !member_add_member by auto with osq.
Qed.

Lemma constraint_list_roundtrip k l : Forall constraint_wf (constraints_ l) ->
  ConstraintList_deserialize (JObject (list_members k l)) ConstraintList_new = Ok l.
Proof.
  intros Hl. unfold ConstraintList_deserialize. destruct (list_members_lookup k l) as (_ & -> & ->).
  rewrite list_roundtrip by done. simpl. rewrite columnTypeName_nul_free, columnTypeOf_name. by destruct l.
Qed.

Lemma read_constraints_roundtrip ls m :
  Forall (fun kv => nul_free kv.1 /\ Forall constraint_wf (constraints_ kv.2)) ls ->
  NoDup ls.*1 -> (forall k, k ∈ ls.*1 -> m !! k = None) ->
  read_constraints ((fun kv => JObject (list_members kv.1 kv.2)) <$> ls) m = Ok (list_to_map ls ∪ m).
Proof.
  intros Hls. revert m. induction Hls as [|[k l] ls [Hk Hl] Hls IH]; intros m Hn Hm.
  { simpl. by rewrite (left_id_L ∅ (∪)). }
  apply NoDup_cons in Hn as [Hkn Hn]. cbn [fmap list_fmap read_constraints GetObject res_bind fst snd] in *.
  unfold at_member.
  destruct (list_members_lookup k l) as (-> & _). cbn [res_bind GetString]. rewrite Hk.
  rewrite (Hm k) by left. cbn [default from_option id]. rewrite constraint_list_roundtrip by done. cbn [res_bind].
  rewrite IH; [|done|].
  - f_equal. rewrite list_to_map_cons, <- insert_union_l, insert_union_r; [done|].
    by apply not_elem_of_list_to_map_1.
  - intros x Hx. rewrite lookup_insert_ne; [apply Hm; by right | by intros ->].
Qed.

Lemma read_columns_run l cols : Forall nul_free l ->
  read_columns (JString <$> l) cols = Ok (list_to_set l ∪ cols).
Proof.
  intros Hl. revert cols. induction Hl as [|s l Hs Hl IH]; intros cols; simpl.
  { f_equal. set_solver. }
  rewrite Hs, IH. f_equal. set_solver.
Qed.

Lemma constraint_exact c : constraint_wf c -> json_exact (serialize_constraint c) = true.
Proof.
  intros [Hop _]. apply json_exact_object. apply Forall_add_member; [done|]. apply Forall_add_member; [|done].
  simpl. apply andb_true_iff. rewrite Z.leb_le, Z.ltb_lt. lia.
Qed.

Lemma list_exact k l : Forall constraint_wf (constraints_ l) -> json_exact (JObject (list_members k l)) = true.
Proof.
  intros Hl. apply json_exact_object. unfold list_members, ConstraintList_serialize.
  apply Forall_add_member; [done|]. apply Forall_add_member; [|by apply Forall_add_member].
  simpl. apply forallb_forall. intros v (c & -> & Hc)%list_elem_of_In%list_elem_of_fmap.
  apply constraint_exact. by eapply Forall_forall in Hl.
Qed.

Lemma sorted_wf ctx : context_wf ctx ->
  Forall (fun kv => nul_free kv.1 /\ Forall constraint_wf (constraints_ kv.2)) (map_sorted (constraints ctx)).
Proof.
  intros [Hc _]. apply Forall_forall. intros [k l] Hk%elem_of_map_sorted. exact (Hc k l Hk).
Qed.

Lemma uset_nul_free cols : set_Forall nul_free cols -> Forall nul_free (uset_iter cols).
Proof. intros Hc. rewrite uset_iter_perm. apply Forall_forall. intros x Hx%elem_of_elements. by apply Hc. Qed.

Lemma context_exact ctx : context_wf ctx -> json_exact (context_json ctx) = true.
Proof.
  intros Hw. unfold context_json. apply json_exact_object.
  assert (Forall (fun kv => json_exact kv.2 = true)
    (add_member "constraints" (JArray ((fun kv => JObject (list_members kv.1 kv.2)) <$> map_sorted (constraints ctx))) [])) as Hc.
  { apply Forall_add_member; [|done]. apply forallb_forall.
    intros v ([k l] & -> & Hk)%list_elem_of_In%list_elem_of_fmap. apply (list_exact k l).
    pose proof (sorted_wf ctx Hw) as Hs. by eapply Forall_forall in Hs as [_ ?]; [|exact Hk]. }
  destruct (colsUsed ctx) as [cols|]; [|exact Hc]. apply Forall_add_member; [|exact Hc].
  apply forallb_forall. by intros v (x & -> & _)%list_elem_of_In%list_elem_of_fmap.
Qed.

(** A query context survives the way to an extension. For a context whose
    names and expressions hold no NUL and whose operators are 8-bit values, what the
    extension decodes from the request has the same constraints, column by column
    and in the same order, with their affinities, and the same used columns. *)
Theorem context_request_roundtrip (ctx : QueryContext) (request : PluginRequest) :
  context_wf ctx ->
  queryContextFromRequest (setRequestFromContext ctx request)
  = Ok (mkContext (constraints ctx) (colsUsed ctx) false ∅).
Proof.
  intros Hw. unfold queryContextFromRequest, setRequestFromContext. rewrite lookup_insert_eq.
  unfold setContextFromRequest, request_at. rewrite lookup_insert_eq. cbn [res_bind].
  rewrite fromString_toString by by apply context_exact. cbn [default from_option snd id].
  unfold context_json. cbn [GetObject res_bind].
  set (cs := JArray _).
  assert (read_constraints ((fun kv => JObject (list_members kv.1 kv.2)) <$> map_sorted (constraints ctx)) ∅
          = Ok (constraints ctx)) as Hcs.
  { rewrite read_constraints_roundtrip; [|by apply sorted_wf|apply NoDup_fst_map_sorted|done].
    by rewrite list_to_map_sorted, (right_id_L ∅ (∪)). }
  destruct (colsUsed ctx) as [cols|] eqn:Eu; cbn [QueryContext_new colsUsed constraints use_cache_ cache].
  - rewrite !member_add_member by auto with osq.
    repeat first [rewrite decide_False by done | rewrite decide_True by done]. cbn [res_bind GetArray].
    destruct Hw as [Hw1 Hw2]. rewrite Eu in Hw2.
    rewrite read_columns_run by by apply uset_nul_free. cbn [res_bind].
    unfold cs. unfold list_members in Hcs. rewrite Hcs. cbn [res_bind]. do 3 f_equal.
    apply set_eq. intros x. rewrite elem_of_union, elem_of_list_to_set, uset_iter_perm, elem_of_elements. set_solver.
  - rewrite !member_add_member by auto with osq.
    repeat first [rewrite decide_False by done | rewrite decide_True by done]. cbn [res_bind member].
    unfold cs. unfold list_members in Hcs. by rewrite Hcs.
Qed.
End ContextFacts.

(** ** The definition of a table *)

(** Options an [int] holds. *)
Definition column_wf (c : TableColumn) : Prop := (0 <= col_options c < 2 ^ 31)%Z.

Lemma column_route_fields c :
  column_route c !! "id" = Some "column" /\ column_route c !! "name" = Some (col_name c) /\
  column_route c !! "type" = Some (columnTypeName (col_type c)) /\
  column_route c !! "op" = Some (to_string (u64 (col_options c))).
Proof. unfold column_route. by simplify_map_eq. Qed.

Lemma column_alias_fields t a :
  column_alias_route t a !! "id" = Some "columnAlias" /\ column_alias_route t a !! "name" = Some a /\
  column_alias_route t a !! "target" = Some t /\ column_alias_route t a !! "type" = None.
Proof. unfold column_alias_route. by simplify_map_eq. Qed.

Lemma column_route_step alias c acc : column_wf c ->
  response_step alias acc (column_route c)
  = (acc.1 ++ [c], if alias then <[col_name c := col_type c]> acc.2 else acc.2).
Proof.
  intros Hc. unfold response_step. destruct acc as [cols types].
  destruct (column_route_fields c) as (-> & -> & -> & ->). rewrite decide_True by done.
  unfold column_wf in Hc. rewrite u64_small by (unfold in_u64; lia).
  rewrite tryTo_to_string by (simpl; lia). rewrite columnTypeOf_name. simpl. by destruct c.
Qed.

Lemma column_routes alias cols acc : Forall column_wf cols ->
  foldl (response_step alias) acc (column_route <$> cols)
  = (acc.1 ++ cols, if alias then foldl (fun m c => <[col_name c := col_type c]> m) acc.2 cols else acc.2).
Proof.
  intros Hc. revert acc. induction Hc as [|c cols Hc Hcs IH]; intros acc; simpl.
  { destruct acc. rewrite app_nil_r. by destruct alias. }
  rewrite column_route_step, IH by done. simpl. rewrite <- app_assoc. by destruct alias.
Qed.

Lemma other_routes alias acc l :
  Forall (fun r => r !! "id" = Some "alias" \/ r !! "id" = Some "attributes") l ->
  foldl (response_step alias) acc l = acc.
Proof.
  intros Hl. revert acc. induction Hl as [|r l Hr Hl IH]; intros acc; simpl; [done|].
  rewrite IH. unfold response_step. destruct acc as [cols types]. by destruct Hr as [-> | ->].
Qed.

(** The columns an alias of a known column adds: hidden, of the target's type. *)
Definition alias_columns (types : gmap string ColumnType) (pairs : list (string * string))
    : list TableColumn :=
  omap (fun p => (fun t => mkColumn p.2 t OPT_HIDDEN) <$> types !! p.1) pairs.

Lemma alias_routes alias types cols pairs :
  foldl (response_step alias) (cols, types) ((fun p => column_alias_route p.1 p.2) <$> pairs)
  = (cols ++ (if alias then alias_columns types pairs else []), types).
Proof.
  revert cols. induction pairs as [|[t a] pairs IH]; intros cols.
  { simpl. destruct alias; by rewrite app_nil_r. }
  cbn [fmap list_fmap foldl fst snd].
  assert (response_step alias (cols, types) (column_alias_route t a)
    = (cols ++ (if alias then alias_columns types [(t, a)] else []), types)) as ->.
  { unfold response_step. destruct (column_alias_fields t a) as (-> & -> & -> & ->).
    rewrite decide_False by done. simpl. destruct alias; simpl; [|by rewrite app_nil_r]. by destruct (types !! t); simpl; rewrite ?app_nil_r. }
  rewrite IH. f_equal. rewrite <- app_assoc. f_equal. destruct alias; [|done].
  unfold alias_columns. simpl. by destruct (types !! t).
Qed.

(** The pairs of target and alias in the order they are broadcast. *)
Definition alias_pairs (p : TablePlugin) : list (string * string) :=
  map_sorted (columnAliases p) ≫= (fun kv => pair kv.1 <$> set_sorted kv.2).

Lemma alias_pairs_routes p :
  map_sorted (columnAliases p) ≫= (fun kv => column_alias_route kv.1 <$> set_sorted kv.2)
  = (fun q => column_alias_route q.1 q.2) <$> alias_pairs p.
Proof.
  unfold alias_pairs. induction (map_sorted (columnAliases p)) as [|[k s] l IH]; [done|].
  rewrite !bind_cons, fmap_app, IH, <- list_fmap_compose. done.
Qed.

Definition column_types (cols : list TableColumn) : gmap string ColumnType :=
  foldl (fun m c => <[col_name c := col_type c]> m) ∅ cols.

(** The core builds the same table as the extension declares. The definition
    derived from the route information a table broadcasts is the definition of the
    table's own columns, followed, when aliases are asked for, by one hidden column
    for each alias of a column the table has. *)
Theorem route_definition_is_table_definition (p : TablePlugin) (alias ext : bool) :
  Forall column_wf (columns p) ->
  columnDefinition_response (routeInfo p) alias ext
  = columnDefinition (columns p ++
      (if alias then alias_columns (column_types (columns p)) (alias_pairs p) else [])) ext.
Proof.
  intros Hc. unfold columnDefinition_response, response_columns, routeInfo. f_equal.
  rewrite !foldl_app, column_routes by done. simpl.
  rewrite (other_routes alias _ (alias_route <$> aliases p)).
  2: { apply Forall_fmap, Forall_true. intros a. left. apply lookup_insert_eq. }
  rewrite alias_pairs_routes, alias_routes. unfold response_step. rewrite lookup_insert_eq.
  simpl. unfold column_types. by destruct alias.
Qed.

(** ** Matching *)

Section Matching.
Context (L : Literal).

(** The operators that are evaluated. *)
Definition supported (c : Constraint) : Prop :=
  op c ∈ [EQUALS; GREATER_THAN; LESS_THAN; GREATER_THAN_OR_EQUALS; LESS_THAN_OR_EQUALS].

(** What SQL asks of a value: the text of the constraint reads as a value of the
    column's type, and the comparison holds. *)
Definition satisfies (v : lit L) (c : Constraint) : Prop :=
  exists x, lit_read L (expr c) = inl x /\ op_holds L (op c) v x = Some true.

Lemma op_holds_supported c v x : supported c -> is_Some (op_holds L (op c) v x).
Proof.
  unfold supported. rewrite !elem_of_cons, elem_of_nil. unfold op_holds.
  by intros [-> | [-> | [-> | [-> | [-> | []]]]]]; eexists.
Qed.

Lemma op_holds_unsupported c v x : ~ supported c -> op_holds L (op c) v x = None.
Proof.
  unfold supported, op_holds. rewrite !not_elem_of_cons. intros (H1 & H2 & H3 & H4 & H5 & _).
  by rewrite !(proj2 (Z.eqb_neq _ _)).
Qed.

Lemma literal_matches_supported v cs rest : Forall supported cs ->
  literal_matches L v (cs ++ rest) = true <-> Forall (satisfies v) cs /\ literal_matches L v rest = true.
Proof.
  induction 1 as [|c cs Hc Hcs IH]; simpl; [rewrite Forall_nil; naive_solver|].
  rewrite Forall_cons. unfold satisfies at 1.
  destruct (lit_read L (expr c)) as [x|e] eqn:Ex; [|naive_solver].
  destruct (op_holds_supported c v x Hc) as [b Hb]. rewrite Hb.
  destruct b; [rewrite IH; naive_solver|]. split; [done|]. intros [[(y & [= <-] & Hy) _] _]. congruence.
Qed.

Lemma literal_matches_cut v c rest x : ~ supported c -> lit_read L (expr c) = inl x ->
  literal_matches L v (c :: rest) = true.
Proof. intros Hc Hx. simpl. by rewrite Hx, op_holds_unsupported. Qed.
End Matching.

(** What SQLite's operator codes mean, for values with an order [lt]: 2 is =, 4 is >, 8 is
    <=, 16 is < and 32 is >=. *)
Inductive sql_compares {T} (lt : T -> T -> Prop) (v x : T) : Z -> Prop :=
  | sql_eq : v = x -> sql_compares lt v x 2
  | sql_gt : lt x v -> sql_compares lt v x 4
  | sql_le : v = x \/ lt v x -> sql_compares lt v x 8
  | sql_lt : lt v x -> sql_compares lt v x 16
  | sql_ge : v = x \/ lt x v -> sql_compares lt v x 32.

(** Byte strings in the order of [memcmp], a beginning before what it begins. *)
Inductive bytes_lt : string -> string -> Prop :=
  | bytes_end c t : bytes_lt "" (String c t)
  | bytes_head a b s t : (Ascii.N_of_ascii a < Ascii.N_of_ascii b)%N -> bytes_lt (String a s) (String b t)
  | bytes_tail a s t : bytes_lt s t -> bytes_lt (String a s) (String a t).

Lemma bytes_lt_compare s t : bytes_lt s t <-> String.compare s t = Lt.
Proof.
  split.
  - induction 1 as [|a b s t Hab|a s t Hst IH]; cbn; [done | | ]; unfold Ascii.compare.
    + by rewrite (proj2 (N.compare_lt_iff _ _) Hab).
    + by rewrite N.compare_refl.
  - revert t. induction s as [|a s IH]; intros [|b t]; cbn; try done; [intros _; constructor|].
    destruct (Ascii.compare a b) eqn:E; [|intros _|done].
    + apply Ascii.compare_eq_iff in E as ->. intros Hst. by apply bytes_tail, IH.
    + apply bytes_head. by apply N.compare_lt_iff.
Qed.

(** A type of literals whose test is a strict order [lt], with one of two values before the
    other when they differ. *)
Definition ordered (L : Literal) (lt : lit L -> lit L -> Prop) : Prop :=
  (forall v x, lit_eqb L v x = true <-> v = x) /\ (forall v x, lit_ltb L v x = true <-> lt v x) /\
  (forall v x, ~ lt v x <-> v = x \/ lt x v).

Lemma text_ordered : ordered text_literal bytes_lt.
Proof.
  split; [intros v x; apply bool_decide_eq_true|]. split; intros v x.
  - cbn. rewrite andb_true_iff, negb_true_iff, bool_decide_eq_true, bool_decide_eq_false, bytes_lt_compare.
    unfold String.le, String.leb. destruct (String.compare v x) eqn:E.
    + apply String.compare_eq_iff in E. naive_solver.
    + split; [done|]. intros _. split; [done|]. intros ->. pose proof (String.compare_antisym x x). rewrite E in *. done.
    + naive_solver.
  - rewrite !bytes_lt_compare, (String.compare_antisym x v). destruct (String.compare v x) eqn:E; cbn.
    + apply String.compare_eq_iff in E. naive_solver.
    + split; [done|]. intros [->|?]; [|done]. pose proof (String.compare_antisym x x). rewrite E in *. done.
    + naive_solver.
Qed.

Lemma int_ordered T : ordered (int_literal T) Z.lt.
Proof. split; [intros v x; apply Z.eqb_eq|]. split; intros v x; cbn; [apply Z.ltb_lt | lia]. Qed.

Lemma satisfies_sql L lt v c : ordered L lt ->
  satisfies L v c <-> exists x, lit_read L (expr c) = inl x /\ sql_compares lt v x (op c).
Proof.
  intros (He & Hl & Ht). unfold satisfies.
  split; intros (x & Hx & Ho); exists x; (split; [done|]).
  - unfold op_holds in Ho.
    repeat (match type of Ho with context [Z.eqb (op c) ?k] => destruct (Z.eqb_spec (op c) k) as [->|_] end);
      simplify_eq Ho; intros H; constructor;
      first [by apply He | by apply Hl | apply negb_true_iff in H].
    + apply or_comm. assert (~ lt v x) as Hn by (intros Hv%Hl; congruence). apply Ht in Hn. naive_solver.
    + assert (~ lt x v) as Hn by (intros Hv%Hl; congruence). apply Ht in Hn. naive_solver.
  - unfold op_holds. destruct Ho as [H|H|H|H|H]; cbn; f_equal; try (by apply He); try (by apply Hl);
      apply negb_true_iff, not_true_iff_false; rewrite Hl; apply Ht; naive_solver.
Qed.

(** C25: A value of a column of text or of integers matches exactly when it satisfies every
    constraint, given that these use the five comparisons: a text when each comparison
    holds of the bytes, an integer when it and all constraints read as integers of the
    column's type and each comparison holds of the numbers. A value of a column of any
    other type matches nothing. *)
Theorem matching_is_conjunction (l : ConstraintList) (e : string) :
  Forall supported (constraints_ l) ->
  let integers (T : IntType) := matches e l = true <-> exists v, tryTo T e 10 = inl v /\
    Forall (fun c => exists x, tryTo T (expr c) 10 = inl x /\ sql_compares Z.lt v x (op c)) (constraints_ l) in
  match affinity l with
  | TEXT_TYPE => matches e l = true <-> Forall (fun c => sql_compares bytes_lt e (expr c) (op c)) (constraints_ l)
  | INTEGER_TYPE => integers TInt
  | BIGINT_TYPE => integers TLong
  | UNSIGNED_BIGINT_TYPE => integers TULong
  | _ => matches e l = false
  end.
Proof.
  intros Hs. assert (forall (L : Literal) lt (v : lit L), ordered L lt -> literal_matches L v (constraints_ l) = true
    <-> Forall (fun c => exists x, lit_read L (expr c) = inl x /\ sql_compares lt v x (op c)) (constraints_ l)) as Hm.
  { intros L lt v HL. rewrite <- (app_nil_r (constraints_ l)) at 1. rewrite (literal_matches_supported L v _ [] Hs).
    rewrite (Forall_iff _ _ _ (fun c => satisfies_sql L lt v c HL)). cbn. naive_solver. }
  assert (forall T, int_matches T e (constraints_ l) = true <-> exists v, tryTo T e 10 = inl v /\
    Forall (fun c => exists x, tryTo T (expr c) 10 = inl x /\ sql_compares Z.lt v x (op c)) (constraints_ l)) as Hi.
  { intros T. unfold int_matches. destruct (tryTo T e 10) as [v|err].
    - rewrite (Hm (int_literal T) Z.lt v (int_ordered T)). naive_solver.
    - naive_solver. }
  unfold matches. destruct (affinity l); try done; try apply Hi.
  rewrite (Hm text_literal bytes_lt e text_ordered). apply Forall_iff. intros c. cbn. naive_solver.
Qed.

(** An unsupported operator hides the constraints behind it. A list whose
    first constraint uses MATCH, LIKE, GLOB, REGEXP or UNIQUE matches every text,
    whatever the constraints after it ask, while the same constraints before it are
    enforced. *)
Theorem unsupported_operator_hides_the_rest (c : Constraint) (front rest : list Constraint) (e : string) :
  ~ supported c -> Forall supported front ->
  matches e (mkConstraints TEXT_TYPE (front ++ c :: rest)) = true
  <-> Forall (satisfies text_literal e) front.
Proof.
  intros Hc Hf. unfold matches. simpl. rewrite (literal_matches_supported text_literal e front _ Hf).
  rewrite (literal_matches_cut text_literal e c rest (expr c)) by done. naive_solver.
Qed.

(** ** Operators as bits *)

(** The operators a query can use. *)
Definition operators : list Z :=
  [EQUALS; GREATER_THAN; LESS_THAN_OR_EQUALS; LESS_THAN; GREATER_THAN_OR_EQUALS; MATCH; LIKE; GLOB; REGEXP; UNIQUE].

(** GLOB and REGEXP pass for EQUALS. The operators are numbers but are tested
    as bits, so a column has an "equals" constraint, as a table that requires one
    asks, exactly when it has an EQUALS, a GLOB or a REGEXP one; the values such a
    table then asks for are those of EQUALS alone. *)
Theorem exists_equals_admits_glob (l : ConstraintList) :
  Forall (fun c => op c ∈ operators) (constraints_ l) ->
  (exists_ EQUALS l = true <-> exists c, c ∈ constraints_ l /\ op c ∈ [EQUALS; GLOB; REGEXP]) /\
  (forall e, e ∈ getAll EQUALS l <-> exists c, c ∈ constraints_ l /\ op c = EQUALS /\ expr c = e).
Proof.
  intros Ho. split.
  - unfold exists_. simpl. rewrite existsb_exists.
    assert (forall c, c ∈ constraints_ l -> negb (Z.land (op c) EQUALS =? 0)%Z = bool_decide (op c ∈ [EQUALS; GLOB; REGEXP])) as Hb.
    { intros c Hc. eapply Forall_forall in Ho; [|exact Hc]. revert Ho. unfold operators. rewrite !elem_of_cons, elem_of_nil.
      by intros [-> | [-> | [-> | [-> | [-> | [-> | [-> | [-> | [-> | [-> | []]]]]]]]]]]. }
    split; intros (c & Hc & Hop); exists c.
    + apply list_elem_of_In in Hc. split; [done|]. rewrite Hb in Hop by done. by apply bool_decide_eq_true in Hop.
    + split; [by apply list_elem_of_In|]. rewrite Hb by done. by apply bool_decide_eq_true.
  - intros e. unfold getAll. rewrite elem_of_list_to_set, list_elem_of_fmap. setoid_rewrite list_elem_of_filter.
    naive_solver.
Qed.

(** ** The cache *)

Section CacheFacts.
Context {S : Type} {A : DatabaseAPI S} {L : DatabaseAPILaws S} {Rel : DatabaseAPIReliable S}.
Context {R : RapidJSON} {RL : RapidJSONLaws R}.
Context (p : TablePlugin).

Lemma rows_json_roundtrip q : Forall row_wf q ->
  deserializeQueryDataJSON (serializeQueryDataJSON q).2 [] = (Status_success, q).
Proof.
  intros Hq. unfold deserializeQueryDataJSON, serializeQueryDataJSON, JSON_parse_if.
  rewrite fromString_toString by by apply serializeQueryData_exact.
  exact (deserialize_rows_push q [] Hq).
Qed.

(** Cached table results read back until they expire. After a table stored its
    rows at a step of the schedule, they are served, unchanged, to every query that
    may use the cache at a step before the end of the interval, and to none after
    it. *)
Theorem table_cache_reads_back (t : TableCache S) (step interval later : Z) (ctx : QueryContext)
    (rows : QueryData) :
  api_ready (tc_host t) -> Forall row_wf rows -> cacheAllowed (columns p) ctx = Ok true ->
  (0 <= step)%Z -> (0 <= interval)%Z -> (step + interval < 2 ^ 64)%Z ->
  exists t', TablePlugin_setCache false p step interval ctx rows t = (Ok tt, t') /\
    TablePlugin_isCached false p later ctx t' = (Ok (later <? step + interval)%Z, t') /\
    TablePlugin_getCache p t' = (Ok rows, t').
Proof.
  intros Hr Hw Ha Hs Hi Hb. unfold TablePlugin_setCache.
  rewrite (bind_run _ _ t false t) by by rewrite Ha.
  set (text := (serializeQueryDataJSON rows).2).
  replace (serializeQueryDataJSON rows) with (Status_success, text) by done. simpl.
  destruct (api_set_batch_law (tc_host t) kQueries [(cache_key p, text)] Hr) as (st & h & E & Hh & Hv);
    [apply kQueries_domain|].
  rewrite (api_set_batch_ok _ _ _ _ _ Hr (proj1 kQueries_domain) E) in Hv.
  exists (mkTableCache h step interval). rewrite bind_modify. split_and!.
  - rewrite (bind_run _ _ _ st (mkTableCache h step interval)); [done|].
    unfold on_tc, zoom, api_set. simpl. by rewrite E.
  - unfold TablePlugin_isCached. rewrite bind_gets. simpl. rewrite u64_small by (unfold in_u64; lia).
    rewrite Ha. by destruct (later <? step + interval)%Z.
  - unfold TablePlugin_getCache.
    destruct (api_get_law h kQueries (cache_key p) Hh (proj1 kQueries_domain)) as (st2 & E2 & _).
    rewrite (bind_run _ _ _ text (mkTableCache h step interval)).
    + unfold text. by rewrite rows_json_roundtrip.
    + unfold on_tc, zoom, api_get_str. simpl. rewrite (bind_run _ _ _ _ _ E2), Hv.
      unfold update_domain. rewrite decide_True by done. unfold put_all. simpl. by rewrite lookup_insert_eq.
Qed.
End CacheFacts.
