(* ===== verification/VirtualTable.v ===== *)
(** * The SQLite virtual table adapter

    osquery/sql/virtual_table.cpp: what SQLite calls for a table of the registry:
    creation, planning ([xBestIndex]), scanning ([xFilter], [xEof], [xColumn],
    [xNext], [xRowid]), modification ([xUpdate]), attaching and detaching. Columns,
    contexts and constraints are those of Tables.v. SQLite itself is the caller; the
    calls into it and into the registry are parameters, and so are the conversions
    between texts and doubles. *)
From S2P Require Import Prelude Boost Conversions Json Database Query Tables.
Local Open Scope Z_scope.

(** ** SQLite *)

Definition SQLITE_OK : Z := 0.
Definition SQLITE_ERROR : Z := 1.
Definition SQLITE_NOMEM : Z := 7.
Definition SQLITE_READONLY : Z := 8.
Definition SQLITE_CONSTRAINT : Z := 19.
Definition SQLITE_MISMATCH : Z := 20.
Definition SQLITE_MISUSE : Z := 21.
Definition SQLITE_RANGE : Z := 25.

(** [sqlite3_value]; a double is its 64 bits. *)
Inductive sqlite_value :=
  | VInteger (z : Z)
  | VFloat (bits : Z)
  | VText (s : string)
  | VBlob (s : string)
  | VNull.

(** What [xColumn] hands to SQLite; [NoResult] when nothing was set. *)
Inductive sqlite_result :=
  | ResNull
  | ResText (s : string)
  | ResInt (z : Z)
  | ResInt64 (z : Z)
  | ResDouble (bits : Z)
  | NoResult.

Record constraint_info := mkInfo { iColumn : Z; info_op : Z; usable : bool }.

(** The conversions of the C library between doubles and texts: [std::to_string],
    and [strtod] when it consumes the whole text. *)
Class Doubles := {
  double_to_string : Z -> string;
  strtod : string -> option Z;
}.

(** ** The table object *)

Abbreviation ConstraintSet := (list (string * Constraint)).

Record VirtualTableContent := mkContent {
  vt_name : string;
  vt_columns : list TableColumn;
  vt_attributes : Z;
  vt_aliases : gmap string nat;
  vt_constraints : gmap Z ConstraintSet;
  vt_colsUsed : gmap Z (gset string);
  vt_cache : gmap string Row;
}.

Definition set_columns (l : list TableColumn) (c : VirtualTableContent) : VirtualTableContent :=
  mkContent (vt_name c) l (vt_attributes c) (vt_aliases c) (vt_constraints c) (vt_colsUsed c) (vt_cache c).
Definition set_constraints (m : gmap Z ConstraintSet) (c : VirtualTableContent) : VirtualTableContent :=
  mkContent (vt_name c) (vt_columns c) (vt_attributes c) (vt_aliases c) m (vt_colsUsed c) (vt_cache c).
Definition set_colsUsed (m : gmap Z (gset string)) (c : VirtualTableContent) : VirtualTableContent :=
  mkContent (vt_name c) (vt_columns c) (vt_attributes c) (vt_aliases c) (vt_constraints c) m (vt_cache c).

(** A generator is the list of rows it has still to give, the current one first;
    [None] is the null pointer. *)
Record BaseCursor := mkCursor {
  cur_data : list Row;
  cur_generator : option (list Row);
  cur_current : Row;
  uses_generator : bool;
  cur_row : nat;
  cur_n : nat;
}.

Definition fresh_cursor : BaseCursor := mkCursor [] None ∅ false 0 0.

(** ** Planning *)

Definition opString (o : Z) : string :=
  if o =? EQUALS then "=" else if o =? GREATER_THAN then ">" else if o =? LESS_THAN_OR_EQUALS then "<="
  else if o =? LESS_THAN then "<" else if o =? GREATER_THAN_OR_EQUALS then ">=" else if o =? LIKE then "LIKE"
  else if o =? MATCH then "MATCH" else if o =? GLOB then "GLOB" else if o =? REGEXP then "REGEX"
  else if o =? UNIQUE then "UNIQUE" else "?".

Definition sensibleComparison (type : ColumnType) (o : Z) : bool :=
  negb (bool_decide (type = TEXT_TYPE) &&
        ((o =? GREATER_THAN) || (o =? GREATER_THAN_OR_EQUALS) || (o =? LESS_THAN) || (o =? LESS_THAN_OR_EQUALS))).

(** The column a constraint is recorded for, or nothing when it is skipped. *)
Definition accepted (columns : list TableColumn) (info : constraint_info) : option TableColumn :=
  if negb (usable info) then None
  else if iColumn info <? 0 then None
  else match columns !! Z.to_nat (iColumn info) with
       | None => None
       | Some c => if sensibleComparison (col_type c) (info_op info) then Some c else None
       end.

(** The local variables of the loop. The cost is a double that only ever holds
    small integers. *)
Record plan_state := mkPlan {
  pl_constraints : ConstraintSet;
  pl_argvIndex : list Z;
  pl_cost : Z;
  required_satisfied : bool;
  index_used : bool;
}.

Definition plan_step (columns : list TableColumn) (p : plan_state) (info : constraint_info) : plan_state :=
  match accepted columns info with
  | None => mkPlan (pl_constraints p) (pl_argvIndex p ++ [0]) (pl_cost p + 10) (required_satisfied p) (index_used p)
  | Some c =>
      let required := has_option (col_options c) OPT_REQUIRED in
      let index := required || has_option (col_options c) (Z.lor OPT_INDEX OPT_ADDITIONAL) in
      mkPlan (pl_constraints p ++ [(col_name c, mkConstraint (info_op info) "")])
        (pl_argvIndex p ++ [Z.of_nat (length (pl_constraints p)) + 1])
        (pl_cost p) (required_satisfied p || required) (index_used p || index)
  end.

Definition plan_loop (columns : list TableColumn) (infos : list constraint_info) : plan_state :=
  foldl (plan_step columns) (mkPlan [] [] 1 false false) infos.

Definition plan_cost (columns : list TableColumn) (p : plan_state) : Z :=
  pl_cost p +
  (if existsb (fun c => has_option (col_options c) OPT_REQUIRED) columns && negb (required_satisfied p)
   then 10000000000 else 0) +
  (if negb (index_used p) then 200 else 0).

(** Bit [i] of [colUsed] for the first 63 columns, the last bit for the others. *)
Definition used_columns (columns : list TableColumn) (colUsed : Z) : gset string :=
  if colUsed =? 0 then ∅
  else list_to_set (omap (fun ic =>
         if Z.testbit colUsed (if (ic.1 <? 63)%nat then Z.of_nat ic.1 else 63) then Some (col_name ic.2) else None)
         (zip (seq 0 (length columns)) columns)).

(** What SQLite gets back. *)
Record index_info := mkIndexInfo { argvIndex : list Z; idxNum : Z; estimatedCost : Z }.

(** The second component is the next value of [kConstraintIndexID]. *)
Definition xBestIndex (kConstraintIndexID : Z) (infos : list constraint_info) (colUsed : Z)
    (c : VirtualTableContent) : index_info * Z * VirtualTableContent :=
  let p := plan_loop (vt_columns c) infos in
  let id := i32 kConstraintIndexID in
  (mkIndexInfo (pl_argvIndex p) id (plan_cost (vt_columns c) p), u64 (kConstraintIndexID + 1),
   set_colsUsed (<[id := used_columns (vt_columns c) colUsed]> (vt_colsUsed c))
     (set_constraints (<[id := pl_constraints p]> (vt_constraints c)) c)).

(** ** Scanning *)

Definition USER_BASED : Z := 8.
Definition EVENT_BASED : Z := 4.

(** Affinities first: one empty list of constraints for each column. *)
Definition affinity_step (m : gmap string ConstraintList) (c : TableColumn) : gmap string ConstraintList :=
  <[col_name c := mkConstraints (col_type c) (constraints_ (default ConstraintList_new (m !! col_name c)))]> m.

(** One argument: an empty or missing value is skipped. Indexing past the recorded
    set is undefined. *)
Definition filter_step (st : ConstraintSet * gmap string ConstraintList) (ia : nat * option string)
    : result (ConstraintSet * gmap string ConstraintList) :=
  let '(set, m) := st in
  match ia.2 with
  | None | Some "" => Ok st
  | Some e =>
      match set !! ia.1 with
      | None => Throw AssertFailure
      | Some (name, con) =>
          let con := mkConstraint (op con) e in
          Ok (<[ia.1 := (name, con)]> set,
              <[name := ConstraintList_add con (default ConstraintList_new (m !! name))]> m)
      end
  end.

Fixpoint filter_args (st : ConstraintSet * gmap string ConstraintList) (l : list (nat * option string))
    : result (ConstraintSet * gmap string ConstraintList) :=
  match l with
  | [] => Ok st
  | x :: l => match filter_step st x with Ok st => filter_args st l | Throw e => Throw e end
  end.

(** The help a query gets in the log. *)
Inductive warning := UserBased | MissingRequired | EventsDisabled.

Definition filter_warning (FLAGS_disable_events isUserAdmin : bool) (c : VirtualTableContent)
    (set : ConstraintSet) : option warning :=
  let options := list_to_map (reverse ((fun c => (col_name c, col_options c)) <$> vt_columns c)) : gmap string Z in
  let required name := has_option (default 0 (options !! name)) OPT_REQUIRED in
  let user_based := has_option (vt_attributes c) USER_BASED && isUserAdmin &&
                    negb (existsb (fun kv => bool_decide (kv.1 = "uid") || bool_decide (kv.1 = "username")) set) in
  let missing := existsb (fun c => has_option (col_options c) OPT_REQUIRED) (vt_columns c) &&
                 negb (existsb (fun kv => required kv.1) set) in
  if user_based then Some UserBased
  else if missing then Some MissingRequired
  else if has_option (vt_attributes c) EVENT_BASED && FLAGS_disable_events then Some EventsDisabled
  else None.

(** The query context of a scan, and the content with the values of the arguments
    recorded. [sqlite3_value_text] gives each argument as a text, or null. *)
Definition filter_context (use_cache : bool) (idx : Z) (args : list (option string)) (c : VirtualTableContent)
    : result (QueryContext * ConstraintSet * VirtualTableContent) :=
  let m := foldl affinity_step ∅ (vt_columns c) in
  let used := if (0 <? size (vt_colsUsed c))%nat then Some (default ∅ (vt_colsUsed c !! idx)) else None in
  let c := match used with Some u => set_colsUsed (<[idx := u]> (vt_colsUsed c)) c | None => c end in
  if negb (0 <? size (vt_constraints c))%nat
  then Ok (mkContext m used use_cache (vt_cache c), [], c)
  else
    let set := default [] (vt_constraints c !! idx) in
    match filter_args (set, m) (zip (seq 0 (length args)) args) with
    | Throw e => Throw e
    | Ok (set, m) =>
        Ok (mkContext m used use_cache (vt_cache c), set,
            set_constraints (<[idx := set]> (vt_constraints c)) c)
    end.

(** The table behind the adapter. *)
Inductive table_impl (S : Type) :=
  | LocalTable (generate : QueryContext -> M S (list Row))
  | GeneratorTable (rows : QueryContext -> list Row)
  | RemoteTable (call : PluginRequest -> M S (Status * list Row)).
Arguments LocalTable {S}. Arguments GeneratorTable {S}. Arguments RemoteTable {S}.

Record VtState (S : Type) := mkVt { vt_content : VirtualTableContent; vt_cursor : BaseCursor; vt_host : S }.
Arguments mkVt {S}. Arguments vt_content {S}. Arguments vt_cursor {S}. Arguments vt_host {S}.

Section Adapter.
Context {S : Type} {R : RapidJSON} {B : Boost} {U : UnorderedSet} {D : Doubles}.

Definition on_host {A} (m : M S A) : M (VtState S) A :=
  zoom vt_host (fun h v => mkVt (vt_content v) (vt_cursor v) h) m.

Definition upd_content (f : VirtualTableContent -> VirtualTableContent) : M (VtState S) unit :=
  modify (fun v => mkVt (f (vt_content v)) (vt_cursor v) (vt_host v)).

Definition upd_cursor (f : BaseCursor -> BaseCursor) : M (VtState S) unit :=
  modify (fun v => mkVt (vt_content v) (f (vt_cursor v)) (vt_host v)).

Definition xFilter (table : table_impl S) (use_cache : bool) (idx : Z) (args : list (option string))
    : M (VtState S) Z :=
  let* c := gets vt_content in
  let* (ctx, _, c) := of_result (filter_context use_cache idx args c) in
  upd_content (fun _ => c) ;;;
  match table with
  | GeneratorTable rows =>
      let l := rows ctx in
      upd_cursor (fun k => mkCursor [] (Some l) (match l with r :: _ => r | [] => cur_current k end) true 0 0) ;;;
      ret SQLITE_OK
  | LocalTable generate =>
      let* data := on_host (generate ctx) in
      upd_cursor (fun k => mkCursor data (cur_generator k) (cur_current k) (uses_generator k) 0 (length data)) ;;;
      ret SQLITE_OK
  | RemoteTable call =>
      let* (_, data) := on_host (call (setRequestFromContext ctx {["action" := "generate"]})) in
      upd_cursor (fun k => mkCursor data (cur_generator k) (cur_current k) (uses_generator k) 0 (length data)) ;;;
      ret SQLITE_OK
  end.

(** An exhausted generator is dropped; asking again goes through a null pointer. *)
Definition xEof : M (VtState S) bool :=
  let* k := gets vt_cursor in
  if uses_generator k then
    match cur_generator k with
    | None => throw AssertFailure
    | Some (_ :: _) => ret false
    | Some [] =>
        upd_cursor (fun k => mkCursor (cur_data k) None (cur_current k) true (cur_row k) (cur_n k)) ;;;
        ret true
    end
  else ret (cur_n k <=? cur_row k)%nat.

Definition xNext : M (VtState S) Z :=
  let* k := gets vt_cursor in
  (if uses_generator k then
     match cur_generator k with
     | None => throw AssertFailure
     | Some l =>
         upd_cursor (fun k => mkCursor (cur_data k) (Some (tail l))
           (match tail l with r :: _ => r | [] => cur_current k end) true (cur_row k) (cur_n k))
     end
   else ret tt) ;;;
  upd_cursor (fun k => mkCursor (cur_data k) (cur_generator k) (cur_current k) (uses_generator k)
                (cur_row k + 1) (cur_n k)) ;;;
  ret SQLITE_OK.

(** The code, and the row id when it is [SQLITE_OK]. *)
Definition xRowid : M (VtState S) (Z * Z) :=
  let* k := gets vt_cursor in
  match cur_data k !! cur_row k with
  | None => ret (SQLITE_ERROR, 0)
  | Some row =>
      match row !! "rowid" with
      | None => ret (SQLITE_OK, Z.of_nat (cur_row k))
      | Some text =>
          match tryTo TLongLong text 10 with
          | inr _ => ret (SQLITE_ERROR, 0)
          | inl id => ret (SQLITE_OK, id)
          end
      end
  end.

(** A text as a value of a column of this type. *)
Definition column_result (type : ColumnType) (value : string) : sqlite_result :=
  match type with
  | TEXT_TYPE | BLOB_TYPE => ResText value
  | INTEGER_TYPE => match tryTo TLong value 0 with inl z => ResInt (i32 z) | inr _ => ResNull end
  | BIGINT_TYPE | UNSIGNED_BIGINT_TYPE =>
      match tryTo TLongLong value 0 with inl z => ResInt64 z | inr _ => ResNull end
  | DOUBLE_TYPE => match strtod value with Some d => ResDouble d | None => ResNull end
  | UNKNOWN_TYPE => NoResult
  end.

(** A reference to the column is held, so an alias is overwritten in the table
    itself by the name and type of its target. *)
Definition resolve_column (c : VirtualTableContent) (i : nat) : option (TableColumn * VirtualTableContent) :=
  col ← vt_columns c !! i;
  match vt_aliases c !! col_name col with
  | None => Some (col, c)
  | Some target =>
      t ← vt_columns c !! target;
      let col := mkColumn (col_name t) (col_type t) (col_options col) in
      Some (col, set_columns (<[i := col]> (vt_columns c)) c)
  end.

(** [row[name]] inserts an empty value for a missing column before its presence is
    tested. *)
Definition read_column (col : TableColumn) (row : Row) : sqlite_result * Row :=
  let row := match row !! col_name col with Some _ => row | None => <[col_name col := ""]> row end in
  (match row !! col_name col with
   | None => ResNull
   | Some value => column_result (col_type col) value
   end, row).

Definition xColumn (i : Z) : M (VtState S) (Z * sqlite_result) :=
  let* c := gets vt_content in
  let* k := gets vt_cursor in
  if Z.of_nat (length (vt_columns c)) <=? i then ret (SQLITE_ERROR, NoResult)
  else if negb (uses_generator k) && (length (cur_data k) <=? cur_row k)%nat then ret (SQLITE_ERROR, NoResult)
  else match resolve_column c (Z.to_nat i) with
       | None => throw AssertFailure
       | Some (col, c) =>
           upd_content (fun _ => c) ;;;
           if uses_generator k then
             let (r, row) := read_column col (cur_current k) in
             upd_cursor (fun k => mkCursor (cur_data k) (cur_generator k) row (uses_generator k) (cur_row k) (cur_n k)) ;;;
             ret (SQLITE_OK, r)
           else match cur_data k !! cur_row k with
                | None => throw AssertFailure
                | Some row =>
                    let (r, row) := read_column col row in
                    upd_cursor (fun k => mkCursor (<[cur_row k := row]> (cur_data k)) (cur_generator k) (cur_current k)
                                           (uses_generator k) (cur_row k) (cur_n k)) ;;;
                    ret (SQLITE_OK, r)
                end
       end.

(** ** Modification *)

Definition getColumnValue (argv : list sqlite_value) (index : nat) : option string :=
  match argv !! index with
  | None => None
  | Some (VInteger z) => Some (to_string z)
  | Some (VFloat d) => Some (double_to_string d)
  | Some (VText s) | Some (VBlob s) => Some s
  | Some VNull => Some ""
  end.

(** The JSON of a value for a column, or [None] on a type mismatch. Options are
    compared as a whole, not by their bits. *)
Definition update_parameter (c : TableColumn) (v : sqlite_value) : option json :=
  match v with
  | VInteger z =>
      match col_type c with
      | INTEGER_TYPE | BIGINT_TYPE | UNSIGNED_BIGINT_TYPE => Some (JInt z)
      | _ => None
      end
  | VFloat d => match col_type c with DOUBLE_TYPE => Some (JDouble d) | _ => None end
  | VBlob s => match col_type c with BLOB_TYPE => Some (JString s) | _ => None end
  | VText s => match col_type c with TEXT_TYPE => Some (JString s) | _ => None end
  | VNull => if (col_options c =? OPT_INDEX) || (col_options c =? OPT_REQUIRED) then None else Some JNull
  end.

Fixpoint update_parameters (cols : list TableColumn) (vs : list sqlite_value) : option (list json) :=
  match cols, vs with
  | c :: cols, v :: vs =>
      match update_parameter c v with
      | None => None
      | Some j => js ← update_parameters cols vs; Some (j :: js)
      end
  | _, _ => Some []
  end.

(** The error code, or the text of the array. *)
Definition serializeUpdateParameters (argv : list sqlite_value) (cols : list TableColumn) : Z + string :=
  if negb (Z.of_nat (length cols) =? u64 (Z.of_nat (length argv) - 2)) then inl SQLITE_RANGE
  else match update_parameters cols (drop 2 argv) with
       | None => inl SQLITE_MISMATCH
       | Some js => inr (c_str (rj_write (JArray js)))
       end.

(** The request of an [INSERT], [UPDATE] or [DELETE]. *)
Definition update_request (c : VirtualTableContent) (argv : list sqlite_value) : Z + PluginRequest :=
  match argv with
  | [] => inl SQLITE_ERROR
  | [v] =>
      let row := match v with VInteger z => z | _ => 0 end in
      inr {["action" := "delete"; "id" := to_string row]}
  | VNull :: _ =>
      match serializeUpdateParameters argv (vt_columns c) with
      | inl e => inl e
      | inr array =>
          let request := {["action" := "insert"; "json_value_array" := array]} in
          match argv !! 1%nat with
          | Some VNull | None => inr (<["auto_rowid" := "false"]> request)
          | Some _ =>
              match getColumnValue argv 1 with
              | None => inl SQLITE_ERROR
              | Some id => inr (<["id" := id]> (<["auto_rowid" := "true"]> request))
              end
          end
      end
  | VInteger z :: _ =>
      let request := {["action" := "update"; "id" := to_string z]} in
      let request := match argv !! 1%nat with
                     | Some (VInteger z') =>
                         if decide (to_string z' = to_string z) then request
                         else <["new_id" := to_string z']> request
                     | _ => request
                     end in
      match serializeUpdateParameters argv (vt_columns c) with
      | inl e => inl e
      | inr array => inr (<["json_value_array" := array]> request)
      end
  | _ => inl SQLITE_ERROR
  end.

(** The answer: the code, the row id set, and the message left in the table. *)
Record update_result := mkUpdate { up_code : Z; up_rowid : option Z; up_message : option string }.

Definition update_answer (c : VirtualTableContent) (argv : list sqlite_value) (request : PluginRequest)
    (response_list : PluginResponse) : update_result :=
  let fail := mkUpdate SQLITE_ERROR None None in
  match response_list with
  | [response] =>
      match response !! "status" with
      | None => fail
      | Some status =>
          if decide (status = "readonly")
          then mkUpdate SQLITE_READONLY None (Some ("table " +:+ vt_name c +:+ " may not be modified"))
          else if decide (status = "failure") then mkUpdate SQLITE_ERROR None (response !! "message")
          else if decide (status = "constraint") then mkUpdate SQLITE_CONSTRAINT None None
          else if negb (bool_decide (status = "success")) then fail
          else if decide (request !! "action" = Some "insert") then
            match (if decide (request !! "auto_rowid" = Some "true") then getColumnValue argv 1
                   else response !! "id") with
            | None => fail
            | Some rowid =>
                match tryTo TLongLong rowid 10 with
                | inr _ => fail
                | inl id => mkUpdate SQLITE_OK (Some id) None
                end
            end
          else mkUpdate SQLITE_OK None None
      end
  | _ => fail
  end.

(** The status of the call is not looked at. *)
Definition xUpdate (call : PluginRequest -> M S (Status * PluginResponse)) (argv : list sqlite_value)
    : M (VtState S) update_result :=
  let* c := gets vt_content in
  match update_request c argv with
  | inl e => ret (mkUpdate e None None)
  | inr request =>
      let context := mkContext ∅ None false (vt_cache c) in
      let* (_, response) := on_host (call (setRequestFromContext context request)) in
      ret (update_answer c argv (setRequestFromContext context request) response)
  end.

(** ** Creation and attaching *)

Record create_state := mkCreate { cr_columns : list TableColumn; cr_aliases : gmap string nat; cr_attributes : Z;
                                  cr_views : gset string }.

(** The first column of that name; 0 when there is none. *)
Definition target_index (cols : list TableColumn) (name : string) : nat :=
  default 0%nat (fst <$> list_find (fun c => col_name c = name) cols).

Definition create_step (st : create_state) (column : gmap string string) : create_state :=
  let keep := st in
  match column !! "id" with
  | None => keep
  | Some id =>
      match (if decide (id = "column") then
               match column !! "name", column !! "type" with
               | Some n, Some t => Some (n, t)
               | _, _ => None
               end
             else None) with
      | Some (cname, ctype) =>
          let options := match column !! "op" with
                         | Some cop => match tryTo TLong cop 10 with inl v => i32 v | inr _ => OPT_DEFAULT end
                         | None => OPT_DEFAULT
                         end in
          mkCreate (cr_columns st ++ [mkColumn cname (columnTypeOf ctype) options]) (cr_aliases st)
            (cr_attributes st) (cr_views st)
      | None =>
          if decide (id = "alias") then
            match column !! "alias" with
            | Some v => mkCreate (cr_columns st) (cr_aliases st) (cr_attributes st) ({[v]} ∪ cr_views st)
            | None => keep
            end
          else if decide (id = "columnAlias") then
            match column !! "name", column !! "target" with
            | Some cname, Some ctarget =>
                let cols := cr_columns st ++ [mkColumn cname UNKNOWN_TYPE OPT_HIDDEN] in
                mkCreate cols (<[cname := target_index cols ctarget]> (cr_aliases st)) (cr_attributes st) (cr_views st)
            | _, _ => keep
            end
          else if decide (id = "attributes") then
            match column !! "attributes" with
            | Some a => match tryTo TLong a 10 with
                        | inl v => mkCreate (cr_columns st) (cr_aliases st) (i32 v) (cr_views st)
                        | inr _ => keep
                        end
            | None => keep
            end
          else keep
      end
  end.

Definition create_content (response : PluginResponse) : create_state :=
  foldl create_step (mkCreate [] ∅ 0 ∅) response.

(** What the process keeps across tables: for each table with a module whether
    [xUpdate] is in it, and the tables of extensions. *)
Record Modules := mkModules { sqlite_module_map : gmap string bool; extension_table_list : gset string }.

(** A table keeps the module it first got. *)
Definition getVirtualTableModule (name : string) (extension : bool) (m : Modules) : bool * Modules :=
  match sqlite_module_map m !! name with
  | Some writable => (writable, m)
  | None => (extension, mkModules (<[name := extension]> (sqlite_module_map m))
                          (if extension then {[name]} ∪ extension_table_list m else extension_table_list m))
  end.

Section Sqlite.
(** [Registry::call("table", name, request, response)] with the response it finds. *)
Context (call : string -> PluginRequest -> PluginResponse -> M S (Status * PluginResponse)).
Context (declare_vtab exec : string -> M S Z).
(** The name, and whether the module has [xUpdate]. *)
Context (create_module : string -> bool -> M S Z).
Context (isDisabled : string -> bool) (getStringForSQLiteReturnCode : Z -> string).
Context (registerForeignTables : M S unit).

Definition on_sqlite {A} (m : M S A) : M (S * Modules) A := zoom fst (fun h p => (h, p.2)) m.

(** [name] is [argv[0]]; [None] when there is no argument. *)
Definition xCreate (name : option string) : M (S * Modules) (Z * option VirtualTableContent) :=
  match name with
  | None => ret (SQLITE_NOMEM, None)
  | Some name =>
      let* (status, response) := on_sqlite (call name {["action" := "columns"]} []) in
      if negb (Status_ok status) || bool_decide (response = []) then ret (SQLITE_ERROR, None)
      else
        let* is_extension := gets (fun p => bool_decide (name ∈ extension_table_list p.2)) in
        let* rc := on_sqlite (declare_vtab ("CREATE TABLE " +:+ name +:+
                                columnDefinition_response response true is_extension)) in
        if negb (rc =? SQLITE_OK) then ret (rc, None)
        else
          let st := create_content response in
          for_each (set_sorted (cr_views st)) (fun view =>
            on_sqlite (exec ("CREATE VIEW " +:+ view +:+ " AS SELECT * FROM " +:+ name)) ;;; ret tt) ;;;
          ret (rc, Some (mkContent name (cr_columns st) (cr_attributes st) (cr_aliases st) ∅ ∅ ∅))
  end.

Definition attachTableInternal (name statement : string) (is_extension : bool) : M (S * Modules) Status :=
  if isDisabled name then ret (mkStatus 0 (getStringForSQLiteReturnCode 0))
  else
    let* m := gets snd in
    let (writable, m) := getVirtualTableModule name is_extension m in
    modify (fun p => (p.1, m)) ;;;
    let* rc := on_sqlite (create_module name writable) in
    let* rc := (if (rc =? SQLITE_OK) || (rc =? SQLITE_MISUSE)
                then on_sqlite (exec ("CREATE VIRTUAL TABLE temp." +:+ name +:+ " USING " +:+ name +:+ statement))
                else ret rc) in
    ret (mkStatus rc (getStringForSQLiteReturnCode rc)).

Definition detachTableInternal (name : string) : M (S * Modules) Status :=
  let* rc := on_sqlite (exec ("DROP TABLE IF EXISTS temp." +:+ name)) in
  ret (mkStatus rc (getStringForSQLiteReturnCode rc)).

(** One response is used for all the tables. *)
Fixpoint attach_tables (names : list string) (response : PluginResponse) : M (S * Modules) unit :=
  match names with
  | [] => ret tt
  | name :: names =>
      let* (status, response) := on_sqlite (call name {["action" := "columns"]} response) in
      (if Status_ok status
       then attachTableInternal name (columnDefinition_response response true false) false ;;; ret tt
       else ret tt) ;;;
      attach_tables names response
  end.

Definition attachVirtualTables (FLAGS_enable_foreign : bool) (names : list string) : M (S * Modules) unit :=
  (if FLAGS_enable_foreign then on_sqlite registerForeignTables else ret tt) ;;;
  attach_tables names [].

End Sqlite.
End Adapter.
