(* ===== verification/VirtualTableFacts.v ===== *)
(** * The virtual table adapter: what SQLite gets from a table

    What a [WHERE] clause becomes in the context of the table, what a scan returns,
    how the texts of a row become values, and what an [INSERT] or [UPDATE] sends. *)
From S2P Require Import Prelude Boost Conversions Json Database Query Tables TablesFacts VirtualTable.
Local Open Scope Z_scope.

(** ** Constraints reach the table *)

Lemma list_omap_cons {A B} (f : A -> option B) x l :
  omap f (x :: l) = match f x with Some y => y :: omap f l | None => omap f l end.
Proof. done. Qed.

Lemma size_insert_pos {A} (k : Z) (x : A) (m : gmap Z A) : (0 <? size (<[k := x]> m))%nat = true.
Proof.
  apply Nat.ltb_lt. destruct (decide (size (<[k := x]> m) = 0%nat)) as [E|]; [|lia].
  apply map_size_empty_inv in E. by apply insert_non_empty in E.
Qed.

Section Pushdown.
Context (columns : list TableColumn).

(** The constraints recorded for the terms, and the numbers SQLite gets back. *)
Definition recorded (infos : list constraint_info) : ConstraintSet :=
  omap (fun i => (fun c => (col_name c, mkConstraint (info_op i) "")) <$> accepted columns i) infos.

Fixpoint numbers (n : nat) (infos : list constraint_info) : list Z :=
  match infos with
  | [] => []
  | i :: infos =>
      match accepted columns i with
      | None => 0 :: numbers n infos
      | Some _ => (Z.of_nat n + 1) :: numbers (S n) infos
      end
  end.

Lemma plan_foldl infos p :
  pl_constraints (foldl (plan_step columns) p infos) = pl_constraints p ++ recorded infos /\
  pl_argvIndex (foldl (plan_step columns) p infos)
  = pl_argvIndex p ++ numbers (length (pl_constraints p)) infos.
Proof.
  revert p. induction infos as [|i infos IH]; intros p; simpl; [by rewrite !app_nil_r|].
  destruct (IH (plan_step columns p i)) as [-> ->]. unfold plan_step, recorded. simpl.
  destruct (accepted columns i) as [c|] eqn:E; simpl; rewrite <- ?app_assoc; [|done].
  rewrite length_app. simpl. by rewrite Nat.add_1_r.
Qed.

(** A value for each term, and the arguments SQLite passes for them: the value of
    the term numbered [k] is argument [k - 1]. *)
Definition passed (argv : list Z) (values args : list (option string)) : Prop :=
  length args = length (filter (fun k => 0 < k) argv) /\
  forall i k v, argv !! i = Some k -> values !! i = Some v -> 0 < k -> args !! Z.to_nat (k - 1) = Some v.

Definition chosen (infos : list constraint_info) (values : list (option string)) : list (option string) :=
  omap (fun p => (fun _ => p.2) <$> accepted columns p.1) (zip infos values).

Lemma numbers_pos n infos : length (filter (fun k => 0 < k) (numbers n infos)) = length (recorded infos).
Proof.
  revert n. induction infos as [|i infos IH]; intros n; simpl; [done|]. unfold recorded. simpl.
  destruct (accepted columns i); simpl.
  - rewrite filter_cons_True by lia. simpl. by rewrite IH.
  - rewrite filter_cons_False by lia. apply IH.
Qed.

Lemma chosen_lookup n infos values args pre :
  length infos = length values -> length pre = n -> length args = (n + length (recorded infos))%nat ->
  take n args = pre ->
  (forall i k v, numbers n infos !! i = Some k -> values !! i = Some v -> 0 < k ->
     args !! Z.to_nat (k - 1) = Some v) ->
  args = pre ++ chosen infos values.
Proof.
  revert n values pre. induction infos as [|i infos IH]; intros n [|v values] pre Hl Hp Ha Ht Hn;
    try discriminate Hl.
  { unfold chosen. simpl in *. rewrite app_nil_r. subst pre. rewrite firstn_all2; [done|]. simpl in Ha. lia. }
  unfold chosen, recorded in *. simpl in *. injection Hl as Hl.
  destruct (accepted columns i) as [c|]; simpl in *.
  - assert (args !! n = Some v) as Hv.
    { rewrite <- (Hn 0%nat (Z.of_nat n + 1) v); [f_equal; lia | done | done | lia]. }
    rewrite (IH (S n) values (pre ++ [v])); [by rewrite <- app_assoc | done | rewrite length_app; simpl; lia | | |].
    + rewrite Ha. unfold omap. lia.
    + by rewrite (take_S_r _ _ v), Ht by done.
    + intros j k w Hk Hw. by apply (Hn (S j)).
  - apply (IH n values pre); [done..|]. intros j k w Hk Hw. by apply (Hn (S j)).
Qed.

(** The value a term gives to its column, when it gives one. *)
Definition given (v : option string) : option string :=
  match v with Some "" | None => None | Some e => Some e end.

(** The constraints of one column, in the order of the terms. *)
Definition column_terms (name : string) (set : ConstraintSet) (args : list (option string)) : list Constraint :=
  omap (fun p => if decide (p.1.1 = name) then (fun e => mkConstraint (op p.1.2) e) <$> given p.2 else None)
    (zip set args).

Lemma filter_args_spec set args pre m :
  length set = length args ->
  (forall p, p ∈ set -> is_Some (m !! p.1)) ->
  exists set' m', filter_args (pre ++ set, m) (zip (seq (length pre) (length args)) args) = Ok (pre ++ set', m') /\
    forall name, m' !! name = (fun l => mkConstraints (affinity l) (constraints_ l ++ column_terms name set args))
                              <$> m !! name.
Proof.
  revert args pre m. induction set as [|[n con] set IH]; intros [|a args] pre m Hl Hm; try discriminate Hl.
  { exists [], m. split; [done|]. intros name. unfold column_terms. simpl.
    destruct (m !! name) as [[]|]; simpl; by rewrite ?app_nil_r. }
  injection Hl as Hl. cbn [length seq zip_with filter_args]. destruct (given a) as [e|] eqn:Ga.
  - assert (filter_step (pre ++ (n, con) :: set, m) (length pre, a)
      = Ok ((pre ++ [(n, mkConstraint (op con) e)]) ++ set,
            <[n := ConstraintList_add (mkConstraint (op con) e) (default ConstraintList_new (m !! n))]> m)) as ->.
    { unfold filter_step. simpl. destruct a as [[|ch t]|]; simpl in Ga; try done. injection Ga as <-.
      rewrite list_lookup_middle by done. by rewrite insert_app_r_alt, Nat.sub_diag, <- app_assoc by lia. }
    destruct (Hm (n, con)) as [l Hn]; [by left|]. simpl in Hn.
    edestruct (IH args (pre ++ [(n, mkConstraint (op con) e)])) as (set' & m' & E & Hm'); [done | |].
    2: { exists ((n, mkConstraint (op con) e) :: set'), m'. rewrite length_app in E. simpl in E.
         rewrite Nat.add_1_r in E. rewrite E, <- app_assoc. split; [done|]. intros name. rewrite Hm'.
         unfold column_terms. cbn [zip_with]. rewrite list_omap_cons. cbn [fst snd]. rewrite Ga.
         destruct (decide (n = name)) as [->|]; [|by rewrite lookup_insert_ne by done].
         rewrite lookup_insert_eq, Hn. simpl. f_equal. f_equal. by rewrite <- app_assoc. }
    intros p Hp. destruct (decide (p.1 = n)) as [->|]; simplify_map_eq; [done|]. apply Hm. by right.
  - assert (filter_step (pre ++ (n, con) :: set, m) (length pre, a) = Ok ((pre ++ [(n, con)]) ++ set, m)) as ->.
    { unfold filter_step. simpl. rewrite <- app_assoc. by destruct a as [[|]|]. }
    edestruct (IH args (pre ++ [(n, con)])) as (set' & m' & E & Hm'); [done | |].
    2: { exists ((n, con) :: set'), m'. rewrite length_app in E. simpl in E.
         rewrite Nat.add_1_r in E. rewrite E, <- app_assoc. split; [done|]. intros name. rewrite Hm'.
         unfold column_terms. cbn [zip_with]. rewrite list_omap_cons. cbn [fst snd]. rewrite Ga.
         by destruct (decide (n = name)). }
    intros p Hp. apply Hm. by right.
Qed.

Lemma affinities_lookup cols m c : NoDup (col_name <$> cols) ->
  (forall c, c ∈ cols -> m !! col_name c = None) -> c ∈ cols ->
  foldl affinity_step m cols !! col_name c = Some (mkConstraints (col_type c) []).
Proof.
  revert m. induction cols as [|d cols IH]; intros m Hn Hm Hc; [by apply elem_of_nil in Hc|].
  simpl. apply NoDup_cons in Hn as [Hd Hn]. apply elem_of_cons in Hc as [->|Hc].
  - clear IH. assert (forall l m', col_name d ∉ (col_name <$> l) ->
      foldl affinity_step m' l !! col_name d = m' !! col_name d) as Hk.
    { intros l. induction l as [|x l IHl]; intros m' Hl; simpl; [done|].
      simpl in Hl. apply not_elem_of_cons in Hl as [H1 H2]. rewrite IHl by done.
      unfold affinity_step. by rewrite lookup_insert_ne by done. }
    rewrite Hk by done. unfold affinity_step. rewrite lookup_insert_eq, Hm by (by left). done.
  - apply IH; [done| |done]. intros x Hx. unfold affinity_step. rewrite lookup_insert_ne.
    + apply Hm. by right.
    + intros Hdx. apply Hd. rewrite Hdx. by apply list_elem_of_fmap_2.
Qed.

Lemma accepted_column i c : accepted columns i = Some c -> c ∈ columns.
Proof.
  unfold accepted. repeat case_match; try done. intros [= <-]. by eapply list_elem_of_lookup_2.
Qed.

Lemma recorded_columns infos p : p ∈ recorded infos -> p.1 ∈ (col_name <$> columns).
Proof.
  unfold recorded. intros (i & _ & H)%list_elem_of_omap. destruct (accepted columns i) as [c|] eqn:E; [|done].
  injection H as <-. simpl. by apply list_elem_of_fmap_2, accepted_column with i.
Qed.

Lemma column_terms_chosen name infos values : length infos = length values ->
  column_terms name (recorded infos) (chosen infos values)
  = omap (fun p => c ← accepted columns p.1; if decide (col_name c = name)
                   then (fun e => mkConstraint (info_op p.1) e) <$> given p.2 else None) (zip infos values).
Proof.
  revert values. induction infos as [|i infos IH]; intros [|v values] Hl; try discriminate Hl; [done|].
  injection Hl as Hl. unfold column_terms, recorded, chosen in *. simpl.
  destruct (accepted columns i) as [c|]; simpl; by rewrite IH.
Qed.

End Pushdown.

(** C7: A [WHERE] clause reaches the table. Plan a query with [xBestIndex] and scan
    with the index number and the arguments SQLite passes for the plan; then the
    context of the table has, for each column, its type and, in the order of the
    clause, one constraint for each usable term on the column that compares
    sensibly and has a value that is not empty. The columns used are those of the
    query. *)
Theorem where_terms_reach_the_table (c c' : VirtualTableContent) (id next colUsed : Z)
    (infos : list constraint_info) (values args : list (option string)) (info : index_info) (use_cache : bool) :
  NoDup (col_name <$> vt_columns c) -> length infos = length values ->
  xBestIndex id infos colUsed c = (info, next, c') ->
  passed (argvIndex info) values args ->
  exists ctx set c'', filter_context use_cache (idxNum info) args c' = Ok (ctx, set, c'') /\
    colsUsed ctx = Some (used_columns (vt_columns c) colUsed) /\
    forall col, col ∈ vt_columns c ->
      constraints ctx !! col_name col = Some (mkConstraints (col_type col)
        (omap (fun p => d ← accepted (vt_columns c) p.1; if decide (col_name d = col_name col)
                        then (fun e => mkConstraint (info_op p.1) e) <$> given p.2 else None) (zip infos values))).
Proof.
  intros Hn Hl Hx [Hlen Hargs]. unfold xBestIndex in Hx. injection Hx as <- <- <-. cbn [argvIndex idxNum] in *.
  unfold plan_loop in *. destruct (plan_foldl (vt_columns c) infos (mkPlan [] [] 1 false false)) as [Hc Ha].
  cbn [pl_constraints pl_argvIndex length app] in Hc, Ha. rewrite Ha in Hlen, Hargs.
  assert (args = chosen (vt_columns c) infos values) as Hch.
  { apply (chosen_lookup _ 0 infos values args []); [done.. | | done | done]. by rewrite Hlen, numbers_pos. }
  destruct (filter_args_spec (recorded (vt_columns c) infos) args [] (foldl affinity_step ∅ (vt_columns c)))
    as (set' & m' & E & Hm').
  { by rewrite Hlen, numbers_pos. }
  { intros p (d & -> & Hd)%recorded_columns%list_elem_of_fmap_1.
    by rewrite (affinities_lookup _ ∅ d Hn (fun x _ => lookup_empty _) Hd). }
  unfold filter_context. cbn [vt_columns vt_constraints vt_colsUsed set_constraints set_colsUsed].
  rewrite !size_insert_pos, !lookup_insert_eq, Hc. cbn [negb default vt_constraints]. unfold default.
  simpl in E |- *. rewrite lookup_insert_eq, size_insert_pos. simpl. rewrite E.
  eexists _, _, _. split; [done|]. split; [done|]. intros col Hcol. cbn [constraints].
  rewrite Hm', (affinities_lookup _ ∅ col Hn (fun x _ => lookup_empty _) Hcol). simpl. do 2 f_equal.
  rewrite Hch. by apply column_terms_chosen.
Qed.

(** ** Scanning *)

Section Scanning.
Context {S : Type} {R : RapidJSON} {B : Boost} {U : UnorderedSet} {D : Doubles}.

(** What SQLite does with a cursor: the columns of a row, and the rows until the
    end. The fuel bounds the rows; running out of it is a failure. *)
Fixpoint read_row (cols : list nat) : M (VtState S) (list (Z * sqlite_result)) :=
  match cols with
  | [] => ret []
  | i :: cols =>
      let* r := xColumn (Z.of_nat i) in
      let* rs := read_row cols in
      ret (r :: rs)
  end.

Fixpoint scan (fuel : nat) (cols : list nat) : M (VtState S) (list (list (Z * sqlite_result))) :=
  match fuel with
  | O => throw AssertFailure
  | Datatypes.S fuel =>
      let* eof := xEof in
      if eof then ret []
      else
        let* row := read_row cols in
        let* _ := xNext in
        let* rows := scan fuel cols in
        ret (row :: rows)
  end.

(** The rows a cursor has still to show. *)
Definition remaining (k : BaseCursor) (l : list Row) : Prop :=
  if uses_generator k then
    match l with
    | [] => cur_generator k = Some []
    | r :: rest => cur_current k = r /\ exists r0, cur_generator k = Some (r0 :: rest)
    end
  else drop (cur_row k) (cur_data k) = l /\ cur_n k = length (cur_data k).

(** A missing column reads as the empty text. *)
Definition cell (col : TableColumn) (row : Row) : Z * sqlite_result :=
  (SQLITE_OK, column_result (col_type col) (default "" (row !! col_name col))).

Definition same_cells (a b : Row) : Prop := forall k, default "" (a !! k) = default "" (b !! k).

Lemma read_column_spec col row :
  exists row', read_column col row = ((cell col row).2, row') /\ same_cells row' row.
Proof.
  unfold read_column, cell. destruct (row !! col_name col) as [v|] eqn:E; cbn [snd default].
  - exists row. by rewrite E.
  - exists (<[col_name col := ""]> row). rewrite lookup_insert_eq. split; [done|].
    intros k. destruct (decide (k = col_name col)) as [->|]; simplify_map_eq; by rewrite ?E.
Qed.

Lemma xColumn_spec (s : VtState S) i col row rest :
  vt_aliases (vt_content s) = ∅ -> vt_columns (vt_content s) !! i = Some col ->
  remaining (vt_cursor s) (row :: rest) ->
  exists s' row', xColumn (Z.of_nat i) s = (Ok (cell col row), s') /\ vt_content s' = vt_content s /\
    same_cells row' row /\ remaining (vt_cursor s') (row' :: rest).
Proof.
  intros Ha Hc Hr. destruct s as [c k h]. cbn [vt_content vt_cursor] in *. unfold xColumn.
  rewrite !bind_gets. cbn [vt_content vt_cursor].
  pose proof (lookup_lt_Some _ _ _ Hc). destruct (Z.leb_spec (Z.of_nat (length (vt_columns c))) (Z.of_nat i)); [lia|].
  destruct (read_column_spec col row) as (row' & Er & Hs). unfold remaining in Hr.
  assert (resolve_column c (Z.to_nat (Z.of_nat i)) = Some (col, c)) as ->.
  { unfold resolve_column. rewrite Nat2Z.id, Hc. simpl. by rewrite Ha, lookup_empty. }
  destruct (uses_generator k) eqn:Eg; cbn [negb andb].
  - destruct Hr as [<- [r0 Hg]]. rewrite Er. unfold upd_content, upd_cursor. rewrite !bind_modify. simpl.
    eexists _, row'. split; [done|]. split; [done|]. split; [done|].
    unfold remaining. simpl. rewrite Eg. eauto.
  - destruct Hr as [Hd Hn].
    assert (cur_data k !! cur_row k = Some row) as Hk.
    { rewrite <- (Nat.add_0_r (cur_row k)), <- lookup_drop, Hd. done. }
    pose proof (lookup_lt_Some _ _ _ Hk). destruct (Nat.leb_spec (length (cur_data k)) (cur_row k)); [lia|].
    rewrite Hk, Er. unfold upd_content, upd_cursor. rewrite !bind_modify. simpl.
    eexists _, row'. split; [done|]. split; [done|]. split; [done|].
    unfold remaining. simpl. rewrite Eg, length_insert. split; [|done].
    rewrite drop_insert_ge by lia. by rewrite Nat.sub_diag, Hd.
Qed.

Lemma cell_same col a b : same_cells a b -> cell col a = cell col b.
Proof. intros H. unfold cell. by rewrite H. Qed.

Definition cells (c : VirtualTableContent) (cols : list nat) (row : Row) : list (Z * sqlite_result) :=
  omap (fun i => (fun col => cell col row) <$> vt_columns c !! i) cols.

Lemma cells_same c cols a b : same_cells a b -> cells c cols a = cells c cols b.
Proof.
  intros H. induction cols as [|i cols IH]; [done|]. unfold cells in *. rewrite !list_omap_cons, IH.
  destruct (vt_columns c !! i); simpl; [|done]. by rewrite (cell_same _ _ _ H).
Qed.

Lemma read_row_spec cols (s : VtState S) row rest :
  vt_aliases (vt_content s) = ∅ -> Forall (fun i => (i < length (vt_columns (vt_content s)))%nat) cols ->
  remaining (vt_cursor s) (row :: rest) ->
  exists s' row', read_row cols s = (Ok (cells (vt_content s) cols row), s') /\ vt_content s' = vt_content s /\
    same_cells row' row /\ remaining (vt_cursor s') (row' :: rest).
Proof.
  revert s row. induction cols as [|i cols IH]; intros s row Ha Hl Hr.
  { by exists s, row. }
  apply Forall_cons in Hl as [Hi Hl]. apply lookup_lt_is_Some in Hi as [col Hc].
  destruct (xColumn_spec s i col row rest Ha Hc Hr) as (s1 & r1 & E1 & C1 & S1 & R1).
  destruct (IH s1 r1) as (s2 & r2 & E2 & C2 & S2 & R2); [by rewrite C1.. | done |].
  exists s2, r2. split_and!; [| congruence | | done].
  - cbn [read_row]. rewrite (bind_run _ _ _ _ _ E1), (bind_run _ _ _ _ _ E2). unfold cells. rewrite list_omap_cons, Hc.
    simpl. unfold ret. do 3 f_equal. rewrite C1. by apply cells_same.
  - intros k. by rewrite S2.
Qed.

Lemma xEof_spec (s : VtState S) l : remaining (vt_cursor s) l ->
  exists s', xEof s = (Ok (is_nil l), s') /\ (l <> [] -> s' = s).
Proof.
  intros Hr. unfold xEof. rewrite bind_gets. unfold remaining in Hr. destruct s as [c k h]. simpl in *.
  destruct (uses_generator k) eqn:Eg.
  - destruct l as [|r rest].
    + rewrite Hr. by eexists.
    + destruct Hr as [_ [r0 ->]]. by eexists.
  - destruct Hr as [<- Hn]. exists (mkVt c k h). split; [|done]. unfold ret. do 2 f_equal. rewrite Hn.
    destruct (drop (cur_row k) (cur_data k)) eqn:E; apply (f_equal length) in E;
      rewrite length_drop in E; simpl in *; [apply Nat.leb_le | apply Nat.leb_gt]; lia.
Qed.

Lemma xNext_spec (s : VtState S) row rest : remaining (vt_cursor s) (row :: rest) ->
  exists s', xNext s = (Ok SQLITE_OK, s') /\ vt_content s' = vt_content s /\ remaining (vt_cursor s') rest.
Proof.
  intros Hr. unfold xNext. rewrite bind_gets. unfold remaining in Hr. destruct s as [c k h]. simpl in *.
  destruct (uses_generator k) eqn:Eg.
  - destruct Hr as [_ [r0 ->]]. unfold upd_cursor. eexists. split; [reflexivity|]. split; [done|].
    unfold remaining. simpl. destruct rest; simpl; eauto.
  - destruct Hr as [Hd Hn]. unfold upd_cursor. eexists. split; [reflexivity|]. split; [done|].
    unfold remaining. simpl. rewrite Eg. split; [|done].
    by rewrite <- drop_drop, Hd.
Qed.

Lemma scan_spec fuel cols (s : VtState S) l :
  vt_aliases (vt_content s) = ∅ -> Forall (fun i => (i < length (vt_columns (vt_content s)))%nat) cols ->
  remaining (vt_cursor s) l -> (length l < fuel)%nat ->
  exists s', scan fuel cols s = (Ok (cells (vt_content s) cols <$> l), s').
Proof.
  revert s l. induction fuel as [|fuel IH]; intros s l Ha Hc Hr Hf; [lia|]. cbn [scan].
  destruct (xEof_spec s l Hr) as (s0 & E0 & H0). rewrite (bind_run _ _ _ _ _ E0).
  destruct l as [|row l]; cbn [is_nil]; [by eexists|]. rewrite H0 by done.
  destruct (read_row_spec cols s row l Ha Hc Hr) as (s1 & r1 & E1 & C1 & _ & R1).
  rewrite (bind_run _ _ _ _ _ E1).
  destruct (xNext_spec s1 r1 l R1) as (s2 & E2 & C2 & R2). rewrite (bind_run _ _ _ _ _ E2).
  destruct (IH s2 l) as (s3 & E3); [by rewrite C2, C1.. | done | simpl in Hf; lia |].
  rewrite (bind_run _ _ _ _ _ E3). exists s3. simpl. by rewrite C2, C1.
Qed.

(** The rows a table gives for a context. *)
Definition table_rows (table : table_impl S) (ctx : QueryContext) (h : S) : result (list Row) * S :=
  match table with
  | LocalTable generate => generate ctx h
  | GeneratorTable rows => (Ok (rows ctx), h)
  | RemoteTable call =>
      let (r, h) := call (setRequestFromContext ctx {["action" := "generate"]}) h in
      (match r with Ok (_, rows) => Ok rows | Throw e => Throw e end, h)
  end.

Lemma filter_context_columns use_cache idx args c ctx set c' :
  filter_context use_cache idx args c = Ok (ctx, set, c') ->
  vt_columns c' = vt_columns c /\ vt_aliases c' = vt_aliases c.
Proof.
  unfold filter_context. intros H. repeat case_match; simplify_eq/=; done.
Qed.

Lemma xFilter_spec table use_cache idx args (s : VtState S) ctx set c' rows h :
  uses_generator (vt_cursor s) = false ->
  filter_context use_cache idx args (vt_content s) = Ok (ctx, set, c') ->
  table_rows table ctx (vt_host s) = (Ok rows, h) ->
  exists s', xFilter table use_cache idx args s = (Ok SQLITE_OK, s') /\ vt_content s' = c' /\
    remaining (vt_cursor s') rows.
Proof.
  intros Hg Hc Ht. destruct s as [c k h0]. simpl in *. unfold xFilter. rewrite bind_gets. simpl.
  unfold of_result at 1. rewrite Hc. unfold upd_content. rewrite (bind_run _ _ _ _ _ eq_refl), bind_modify. simpl.
  destruct table as [generate|gen|call]; simpl in Ht.
  - unfold on_host, zoom, bind at 1. simpl. rewrite Ht. eexists. split; [reflexivity|]. split; [done|].
    unfold remaining. simpl. by rewrite Hg.
  - injection Ht as <- <-. eexists. split; [reflexivity|]. split; [done|]. unfold remaining. simpl.
    destruct (gen ctx); eauto.
  - destruct (call _ h0) as [[[st r]|e] h1] eqn:E; [|done]. injection Ht as -> ->.
    unfold on_host, zoom, bind at 1. simpl. rewrite E. eexists. split; [reflexivity|]. split; [done|].
    unfold remaining. simpl. by rewrite Hg.
Qed.

(** C8: A scan shows every row of the table once, in order, and ends. On a cursor
    just opened on a table without column aliases, filter and then read columns
    until the end: whether the table is local, a generator or in an extension, as
    many turns as there are rows, and one more, return for each row the values of
    the columns asked for, a column the row does not have being the empty text. *)
Theorem scan_returns_every_row (table : table_impl S) (use_cache : bool) (idx : Z) (args : list (option string))
    (cols : list nat) (s : VtState S) (ctx : QueryContext) (set : ConstraintSet) (c' : VirtualTableContent)
    (rows : list Row) (h : S) (fuel : nat) :
  vt_cursor s = fresh_cursor -> vt_aliases (vt_content s) = ∅ ->
  Forall (fun i => (i < length (vt_columns (vt_content s)))%nat) cols ->
  filter_context use_cache idx args (vt_content s) = Ok (ctx, set, c') ->
  table_rows table ctx (vt_host s) = (Ok rows, h) -> (length rows < fuel)%nat ->
  exists s', (let* _ := xFilter table use_cache idx args in scan fuel cols) s
    = (Ok ((fun row => omap (fun i => (fun col =>
             (SQLITE_OK, column_result (col_type col) (default "" (row !! col_name col))))
             <$> vt_columns (vt_content s) !! i) cols) <$> rows), s').
Proof.
  intros Hk Ha Hcols Hc Ht Hf.
  destruct (xFilter_spec table use_cache idx args s ctx set c' rows h) as (s1 & E1 & C1 & R1); [by rewrite Hk | done..|].
  destruct (filter_context_columns _ _ _ _ _ _ _ Hc) as [Hcs Has].
  destruct (scan_spec fuel cols s1 rows) as (s2 & E2); [by rewrite C1, ?Hcs, ?Has.. | done | done |].
  exists s2. rewrite (bind_run _ _ _ _ _ E1), E2. do 2 f_equal. apply list_fmap_ext. intros i row _.
  unfold cells, cell. by rewrite C1, Hcs.
Qed.

End Scanning.

(** ** Values *)

(** Printed numbers have no leading zero, so base detection reads them as decimal. *)
Lemma pretty_go_head x s : (0 < x)%N -> exists c r, pretty_N_go x s = String c r /\ c <> "0"%char /\ is_digit c = true.
Proof.
  revert s. induction (N.lt_wf_0 x) as [x _ IH]. intros s Hx. rewrite pretty_N_go_step by done.
  destruct (decide (0 < x `div` 10)%N) as [Hd|Hd].
  - apply IH; [apply N.div_lt; lia | done].
  - assert (x `div` 10 = 0)%N as E by (apply N.le_0_r, N.nlt_ge; exact Hd). rewrite E, pretty_N_go_0. eexists _, _. split; [done|].
    pose proof (N.mod_lt x 10 ltac:(lia)) as Hm.
    assert (x `mod` 10 <> 0)%N as Hne.
    { intros Hz. pose proof (N.div_mod x 10 ltac:(done)) as Hdm. rewrite E, Hz in Hdm. lia. }
    revert Hm Hne. generalize (x `mod` 10)%N. clear. intros d Hm Hne.
    assert (d = 1 \/ d = 2 \/ d = 3 \/ d = 4 \/ d = 5 \/ d = 6 \/ d = 7 \/ d = 8 \/ d = 9)%N as Hc by lia.
    by repeat destruct Hc as [-> | Hc]; subst.
Qed.

Lemma strto_base_0 z : strto 0 (to_string z) = Some ((z <? 0)%Z, Z.abs z).
Proof.
  rewrite <- strto_to_string. destruct (decide (z = 0)) as [->|Hz]; [done|].
  assert (exists c r, to_string (Z.abs z) = String c r /\ c <> "0"%char /\ is_digit c = true) as (c & r & E & Hc & Hd).
  { rewrite to_string_nonneg by lia. unfold pretty, pretty_N. rewrite decide_False by lia.
    apply pretty_go_head. lia. }
  assert (detect_base 0 (String c r) = detect_base 10 (String c r)) as Hb.
  { unfold detect_base. simpl. repeat case_match; try done; by destruct Hc. }
  destruct (Z.ltb_spec z 0).
  - assert (to_string z = String "-" (String c r)) as ->.
    { destruct z as [|p|p]; [lia | lia |]. change (to_string (Z.abs (Z.neg p))) with (to_string (Z.pos p)) in E.
      by rewrite <- E. }
    unfold strto. simpl skip_space. cbv iota beta zeta. by rewrite Hb.
  - rewrite Z.abs_eq in E by lia. rewrite E. apply is_digit_plain in Hd as (Hs & Hm & Hp & _).
    unfold strto. simpl. rewrite Hs.
    assert ((match String c r with
             | String "-" s => (true, s)
             | String "+" s => (false, s)
             | _ => (false, String c r)
             end) = (false, String c r)) as -> by (destruct c as [[] [] [] [] [] [] [] []]; done).
    by rewrite Hb.
Qed.

Section Values.
Context {D : Doubles}.

Lemma signed_base_0 fn z : - 2 ^ 63 <= z < 2 ^ 64 ->
  sto_signed fn 64 0 (to_string z) = if z <? 2 ^ 63 then Ok z else Throw (OutOfRange fn).
Proof.
  intros Hz. unfold sto_signed. rewrite strto_base_0.
  replace (if z <? 0 then - Z.abs z else Z.abs z) with z by (destruct (Z.ltb_spec z 0); lia).
  change (2 ^ (64 - 1)) with (2 ^ 63). destruct (Z.leb_spec (- 2 ^ 63) z); [|lia]. by destruct (z <? 2 ^ 63).
Qed.

(** What becomes of a number a table prints. For any [z] of 64 bits, signed or
    unsigned, a column of big integers gives [z] back if a signed 64-bit integer
    holds it and [NULL] otherwise, so the upper half of [UNSIGNED BIGINT] is lost;
    an [INTEGER] column keeps the low 32 bits as a signed number. *)
Theorem printed_number_as_a_value (z : Z) : - 2 ^ 63 <= z < 2 ^ 64 ->
  column_result BIGINT_TYPE (to_string z) = (if z <? 2 ^ 63 then ResInt64 z else ResNull) /\
  column_result UNSIGNED_BIGINT_TYPE (to_string z) = (if z <? 2 ^ 63 then ResInt64 z else ResNull) /\
  column_result INTEGER_TYPE (to_string z) = (if z <? 2 ^ 63 then ResInt (i32 z) else ResNull).
Proof.
  intros Hz. unfold column_result, tryTo, throwingStringToInt, stol, stoll.
  rewrite !signed_base_0 by done. by destruct (z <? 2 ^ 63).
Qed.

End Values.

(** ** Aliases *)

(** Reading a column through an alias changes the table. Until then the terms
    of a [WHERE] clause on the alias are recorded under the alias, a name no table
    looks for; once a row was read through it, they are recorded under the column
    it stands for, with that column's type. *)
Theorem alias_is_replaced_when_read (c c' : VirtualTableContent) (i t : nat) (col target read : TableColumn)
    (info : constraint_info) :
  vt_columns c !! i = Some col -> vt_aliases c !! col_name col = Some t -> vt_columns c !! t = Some target ->
  resolve_column c i = Some (read, c') ->
  iColumn info = Z.of_nat i -> usable info = true ->
  sensibleComparison (col_type col) (info_op info) = true ->
  sensibleComparison (col_type target) (info_op info) = true ->
  col_name <$> accepted (vt_columns c) info = Some (col_name col) /\
  col_name <$> accepted (vt_columns c') info = Some (col_name target) /\
  col_name read = col_name target /\ col_type read = col_type target.
Proof.
  intros Hi Ha Ht Hr Hcol Hu H1 H2. unfold resolve_column in Hr. rewrite Hi in Hr. simpl in Hr.
  rewrite Ha, Ht in Hr. simpl in Hr. injection Hr as <- <-. unfold accepted. rewrite Hu, Hcol, Nat2Z.id. simpl.
  destruct (Z.ltb_spec (Z.of_nat i) 0); [lia|]. rewrite Hi, H1.
  rewrite list_lookup_insert_eq by (by eapply lookup_lt_Some). simpl. by rewrite H2.
Qed.

(** ** Creation *)

Lemma create_columns l st : Forall column_wf l ->
  cr_columns (foldl create_step st (column_route <$> l)) = cr_columns st ++ l.
Proof.
  intros Hl. revert st. induction Hl as [|c l Hc Hl IH]; intros st; simpl; [by rewrite app_nil_r|].
  rewrite IH. unfold create_step. destruct (column_route_fields c) as (-> & -> & -> & ->).
  rewrite decide_True by done. unfold column_wf in Hc. rewrite u64_small by (unfold in_u64; lia).
  rewrite tryTo_to_string by (simpl; lia). rewrite columnTypeOf_name. simpl. rewrite <- app_assoc. simpl.
  assert (i32 (col_options c) = col_options c) as -> by (unfold i32; rewrite Z.mod_small; lia). by destruct c.
Qed.

Lemma create_aliases pairs st :
  cr_columns (foldl create_step st ((fun q => column_alias_route q.1 q.2) <$> pairs))
  = cr_columns st ++ ((fun q => mkColumn q.2 UNKNOWN_TYPE OPT_HIDDEN) <$> pairs).
Proof.
  revert st. induction pairs as [|[t a] pairs IH]; intros st; [by rewrite app_nil_r|].
  cbn [fmap list_fmap foldl fst snd]. rewrite IH. unfold create_step.
  destruct (column_alias_fields t a) as (-> & -> & -> & ->). simpl. by rewrite <- app_assoc.
Qed.

Lemma create_others l st :
  Forall (fun r => r !! "id" = Some "alias" \/ r !! "id" = Some "attributes") l ->
  cr_columns (foldl create_step st l) = cr_columns st.
Proof.
  intros Hl. revert st. induction Hl as [|r l Hr Hl IH]; intros st; simpl; [done|].
  rewrite IH. unfold create_step. destruct Hr as [-> | ->]; simpl; repeat case_match; done.
Qed.

Lemma column_types_known cols t : t ∈ (col_name <$> cols) -> is_Some (column_types cols !! t).
Proof.
  unfold column_types. assert (forall (l : list TableColumn) (m : gmap string ColumnType),
    t ∈ (col_name <$> l) \/ is_Some (m !! t) -> is_Some (foldl (fun m c => <[col_name c := col_type c]> m) m l !! t)) as H.
  { intros l. induction l as [|c l IH]; intros m Hm; simpl; [destruct Hm as [Hm|]; [by apply elem_of_nil in Hm | done]|].
    apply IH. destruct Hm as [[->|Hm]%elem_of_cons|Hm]; [right; by simplify_map_eq | by left | right].
    destruct (decide (t = col_name c)) as [->|]; by simplify_map_eq. }
  intros Ht. apply H. by left.
Qed.

(** SQLite and the adapter number the columns alike. If each column alias of a
    table is for a column it has, the columns the adapter keeps for the table's
    route information have, one by one, the names of the columns declared to
    SQLite, and those of the table itself are kept as they are; so the number of a
    column means the same on both sides. *)
Theorem declared_columns_line_up (p : TablePlugin) :
  Forall column_wf (columns p) -> Forall (fun q => q.1 ∈ (col_name <$> columns p)) (alias_pairs p) ->
  (col_name <$> cr_columns (create_content (routeInfo p)) = col_name <$> response_columns (routeInfo p) true) /\
  take (length (columns p)) (cr_columns (create_content (routeInfo p))) = columns p.
Proof.
  intros Hc Ha. unfold create_content, response_columns, routeInfo. rewrite !foldl_app.
  assert (forall l, Forall (fun r : gmap string string => r !! "id" = Some "alias" \/ r !! "id" = Some "attributes")
    (alias_route <$> l)) as Hal.
  { intros l. apply Forall_fmap, Forall_true. intros a. left. apply lookup_insert_eq. }
  rewrite create_others by (repeat constructor; right; apply lookup_insert_eq).
  rewrite alias_pairs_routes, create_aliases, create_others, create_columns by done. cbn [cr_columns app].
  rewrite column_routes, (other_routes true _ (alias_route <$> aliases p)) by done. cbn [fst snd app].
  rewrite alias_routes, other_routes by (repeat constructor; right; apply lookup_insert_eq). cbn [fst].
  split; [|by rewrite take_app_length]. rewrite !fmap_app. f_equal.
  fold (column_types (columns p)). induction Ha as [|[t a] l Ht Hl IH]; [done|].
  unfold alias_columns in *. rewrite list_omap_cons. cbn [fst snd fmap list_fmap].
  destruct (column_types_known (columns p) t Ht) as [ty ->]. simpl. f_equal. exact IH.
Qed.

(** ** Modification *)

Section Modification.
Context {S : Type} {R : RapidJSON} {RL : RapidJSONLaws R} {B : Boost} {U : UnorderedSet} {D : Doubles}.

(** The values that survive as JSON: no doubles, integers of 64 bits. *)
Definition value_exact (v : sqlite_value) : Prop :=
  match v with VFloat _ => False | VInteger z => - 2 ^ 63 <= z < 2 ^ 63 | _ => True end.

Definition value_json (v : sqlite_value) : json :=
  match v with
  | VInteger z => JInt z
  | VFloat d => JDouble d
  | VText s | VBlob s => JString s
  | VNull => JNull
  end.

(** A value of the type of the column; [NULL] for any column whose only option is
    not to be an index or required. *)
Definition value_fits (c : TableColumn) (v : sqlite_value) : Prop :=
  match v with
  | VInteger _ => col_type c ∈ [INTEGER_TYPE; BIGINT_TYPE; UNSIGNED_BIGINT_TYPE]
  | VFloat _ => col_type c = DOUBLE_TYPE
  | VText _ => col_type c = TEXT_TYPE
  | VBlob _ => col_type c = BLOB_TYPE
  | VNull => col_options c <> OPT_INDEX /\ col_options c <> OPT_REQUIRED
  end.

Lemma update_parameter_spec c v j : update_parameter c v = Some j <-> j = value_json v /\ value_fits c v.
Proof.
  unfold update_parameter, value_fits. destruct v as [z|d|s|s|]; simpl.
  1-4: destruct (col_type c); split; try done; try (by intros [= <-]; split; [done | set_solver]); intros [-> ?]; (done || set_solver).
  destruct (Z.eqb_spec (col_options c) OPT_INDEX), (Z.eqb_spec (col_options c) OPT_REQUIRED); simpl;
    split; try done; try (by intros [_ []]); [by intros [= <-] | by intros [-> _]].
Qed.

Lemma update_parameters_spec cols vs : length cols = length vs ->
  forall js, update_parameters cols vs = Some js <-> js = value_json <$> vs /\ Forall2 value_fits cols vs.
Proof.
  revert vs. induction cols as [|c cols IH]; intros [|v vs] Hl js; try discriminate Hl; simpl.
  { split; [intros [= <-]; by split; [|constructor] | by intros [-> _]]. }
  injection Hl as Hl. destruct (update_parameter c v) as [j|] eqn:E.
  - apply update_parameter_spec in E as [-> Hf]. split.
    + destruct (update_parameters cols vs) as [js'|] eqn:E'; [|done]. apply (IH vs Hl) in E' as [-> H].
      intros [= <-]. split; [done | by constructor].
    + intros [-> H]. inversion H; subst. assert (update_parameters cols vs = Some (value_json <$> vs)) as ->; [|done].
      by apply (IH vs Hl).
  - split; [done|]. intros [-> H]. inversion H; subst.
    assert (update_parameter c v = Some (value_json v)) as E' by (by apply update_parameter_spec). by rewrite E in E'.
Qed.

Lemma value_json_exact vs : Forall value_exact vs -> json_exact (JArray (value_json <$> vs)) = true.
Proof.
  intros H. induction H as [|v vs Hv Hvs IH]; [done|].
  change (json_exact (value_json v) && json_exact (JArray (value_json <$> vs)) = true). rewrite IH, andb_true_r.
  destruct v; simpl in *; try done. apply andb_true_intro. split; [apply Z.leb_le | apply Z.ltb_lt]; lia.
Qed.

(** The values of an [INSERT] or [UPDATE] arrive. The array
    the adapter sends exists exactly when there is one value for each column and each has the column's type ([NULL] fits any
    column that is not marked just as an index or just as required), and read as
    JSON it is the values in order. *)
Theorem update_values_arrive (cols : list TableColumn) (old new : sqlite_value) (vs : list sqlite_value) :
  Forall value_exact vs -> Z.of_nat (length vs) < 2 ^ 64 ->
  (length cols = length vs /\ Forall2 value_fits cols vs <->
   exists text, serializeUpdateParameters (old :: new :: vs) cols = inr text) /\
  (forall text, serializeUpdateParameters (old :: new :: vs) cols = inr text ->
     rj_parse text = Some (JArray (value_json <$> vs))).
Proof.
  intros Hv Hl. unfold serializeUpdateParameters.
  assert (u64 (Z.of_nat (length (old :: new :: vs)) - 2) = Z.of_nat (length vs)) as ->.
  { simpl length. rewrite u64_small by (unfold in_u64; lia). lia. }
  change (drop 2 (old :: new :: vs)) with vs. destruct (Z.eqb_spec (Z.of_nat (length cols)) (Z.of_nat (length vs))) as [E|E]; cbn [negb].
  2: { split; [|done]. split; [intros [H _]; by rewrite H in E | by intros [? ?]]. }
  apply Nat2Z.inj in E. pose proof (update_parameters_spec cols vs E) as Hs.
  destruct (update_parameters cols vs) as [js|].
  - destruct (proj1 (Hs js) eq_refl) as [-> Hf]. split; [split; [intros _; eexists; reflexivity | by split]|].
    intros text [= <-]. by apply rj_roundtrip, value_json_exact.
  - split; [|done]. split; [intros [_ Hf] | by intros [? ?]].
    discriminate (proj2 (Hs (value_json <$> vs)) (conj eq_refl Hf)).
Qed.

Lemma setRequest_other ctx request k : k <> "context" ->
  setRequestFromContext ctx request !! k = request !! k.
Proof. intros. unfold setRequestFromContext. by simplify_map_eq. Qed.

Lemma insert_request c new vs request :
  update_request c (VNull :: new :: vs) = inr request ->
  request !! "action" = Some "insert" /\
  request !! "auto_rowid" = Some (match new with VNull => "false" | _ => "true" end).
Proof. unfold update_request. simpl. repeat case_match; intros ?; simplify_map_eq; done. Qed.

Lemma update_answer_insert c argv request response :
  request !! "action" = Some "insert" -> up_code (update_answer c argv request response) = SQLITE_OK ->
  exists text id, up_rowid (update_answer c argv request response) = Some id /\
    tryTo TLongLong text 10 = inl id /\
    (if decide (request !! "auto_rowid" = Some "true") then getColumnValue argv 1 else match response with [r] => r !! "id" | _ => None end) = Some text.
Proof.
  intros Ha. unfold update_answer. destruct response as [|r [|]]; try done.
  destruct (r !! "status") as [st|]; [|done].
  do 3 (case_decide; [done|]). destruct (negb _); [done|]. rewrite decide_True by done.
  destruct (if decide _ then _ else _) as [text|] eqn:E; [|done].
  destruct (tryTo TLongLong text 10) as [id|] eqn:Et; [|done]. intros _. eauto.
Qed.

(** An [INSERT] that succeeds has a row id. Whatever the extension answers, when
    the adapter reports success for an [INSERT] it has set the id of the new row,
    one a 64-bit integer holds: the one SQLite chose if it chose one, and otherwise
    the one in the answer. *)
Theorem insert_sets_the_row_id (call : PluginRequest -> M S (Status * PluginResponse))
    (new : sqlite_value) (vs : list sqlite_value) (s s' : VtState S) (r : update_result) :
  xUpdate call (VNull :: new :: vs) s = (Ok r, s') -> up_code r = SQLITE_OK ->
  exists id, up_rowid r = Some id /\ - 2 ^ 63 <= id < 2 ^ 63 /\
    forall z, new = VInteger z -> - 2 ^ 63 <= z < 2 ^ 63 -> id = z.
Proof.
  unfold xUpdate. rewrite bind_gets. intros H Hok.
  destruct (update_request (vt_content s) (VNull :: new :: vs)) as [e|request] eqn:Er.
  { injection H as <- <-. simpl in Hok. subst e. exfalso. revert Er. unfold update_request.
    destruct (serializeUpdateParameters _ _) eqn:Es; [intros [= ->]; revert Es | by repeat case_match].
    unfold serializeUpdateParameters. by repeat case_match. }
  run_step H as a s1 E. destruct a as [st response]. injection H as <- <-.
  apply insert_request in Er as [Ha Hr]. apply update_answer_insert in Hok as (text & id & Hu & Hid & Htext).
  2: by rewrite setRequest_other.
  exists id. split; [done|]. apply tryTo_range in Hid as Hrange; [|done]. split; [done|].
  intros z -> Hz. rewrite setRequest_other in Htext by done. rewrite Hr, decide_True in Htext by done.
  injection Htext as <-. rewrite tryTo_to_string in Hid by done. by injection Hid.
Qed.
End Modification.
