(* ===== verification/AuditRecords.v ===== *)
(** * The Linux audit publisher

    From the raw netlink replies of the kernel to assembled audit events:
    osquery/events/linux/auditdnetlink.cpp (the parser service and the shared
    queues), auditdnetlink.h and auditeventpublisher.cpp. The reader service is in
    AuditReader.v, the subscribers are in AuditTables.v and ProcessFileEvents.v. *)
From S2P Require Import Prelude Boost Conversions Query.
Local Open Scope Z_scope.

(** ** Record types (linux/audit.h, linux/netlink.h, libaudit.h) *)

Definition NLMSG_NOOP : Z := 1.
Definition NLMSG_ERROR : Z := 2.
Definition NLMSG_DONE : Z := 3.
Definition AUDIT_GET : Z := 1000.
Definition AUDIT_USER : Z := 1005.
Definition AUDIT_LOGIN : Z := 1006.
Definition AUDIT_SIGNAL_INFO : Z := 1010.
Definition AUDIT_LIST_RULES : Z := 1013.
Definition AUDIT_FIRST_USER_MSG : Z := 1100.
Definition AUDIT_USER_AVC : Z := 1107.
Definition AUDIT_LAST_USER_MSG : Z := 1199.
Definition AUDIT_DAEMON_START : Z := 1200.
Definition AUDIT_DAEMON_CONFIG : Z := 1203.
Definition AUDIT_FIRST_EVENT : Z := 1300.
Definition AUDIT_SYSCALL : Z := 1300.
Definition AUDIT_PATH : Z := 1302.
Definition AUDIT_CONFIG_CHANGE : Z := 1305.
Definition AUDIT_SOCKADDR : Z := 1306.
Definition AUDIT_CWD : Z := 1307.
Definition AUDIT_EXECVE : Z := 1309.
Definition AUDIT_EOE : Z := 1320.
Definition AUDIT_MMAP : Z := 1323.
Definition AUDIT_SECCOMP : Z := 1326.
Definition AUDIT_AVC : Z := 1400.
Definition AUDIT_INTEGRITY_LAST_MSG : Z := 1899.
Definition AUDIT_KERNEL : Z := 2000.
Definition AUDIT_FIRST_USER_MSG2 : Z := 2100.
Definition AUDIT_LAST_USER_MSG2 : Z := 2999.

(** The labels of SELinux records (selinux_events.h); from [AUDIT_AVC] on the
    numbers are consecutive. *)
Definition kSELinuxRecordLabels : list (Z * string) :=
  [(AUDIT_USER_AVC, "USER_AVC"); (AUDIT_AVC, "AVC"); (1401, "SELINUX_ERR"); (1402, "AVC_PATH");
   (1403, "MAC_POLICY_LOAD"); (1404, "MAC_STATUS"); (1405, "MAC_CONFIG_CHANGE");
   (1406, "MAC_UNLBL_ALLOW"); (1407, "MAC_CIPSOV4_ADD"); (1408, "MAC_CIPSOV4_DEL");
   (1409, "MAC_MAP_ADD"); (1410, "MAC_MAP_DEL"); (1411, "MAC_IPSEC_ADDSA");
   (1412, "MAC_IPSEC_DELSA"); (1413, "MAC_IPSEC_ADDSPD"); (1414, "MAC_IPSEC_DELSPD");
   (1415, "MAC_IPSEC_EVENT"); (1416, "MAC_UNLBL_STCADD"); (1417, "MAC_UNLBL_STCDEL")]%string.

Definition kSELinuxEventList : list Z :=
  [AUDIT_USER_AVC; AUDIT_AVC; 1401; 1402; 1403; 1404; 1405; 1406; 1407; 1408; 1409; 1410;
   1411; 1412; 1413; 1414; 1415; 1416; 1417].

(** ** Data *)

(** The netlink message as received: header and the bytes behind it. *)
Record netlink_message := mkMessage {
  nlmsg_type : Z;
  nlmsg_len : Z;
  nlmsg_seq : Z;
  nlmsg_data : string;
}.

(** Which pointer of [audit_reply] is set to the data. *)
Inductive reply_view := NoView | ErrorView | RuleView | MessageView | SignalView.

#[export] Instance reply_view_eq_dec : EqDecision reply_view.
Proof. solve_decision. Defined.

Record audit_reply := mkReply {
  reply_type : Z;
  reply_len : Z;
  reply_msg : netlink_message;
  reply_ptr : reply_view;
}.

Record AuditEventRecord := mkRecord {
  rec_type : Z;
  rec_time : Z;
  audit_id : string;
  fields : gmap string string;
  raw_data : string;
}.

(** ** The parser *)

Section Flags.
Context (FLAGS_audit_allow_selinux_events : bool).

Definition IsSELinuxRecord (type : Z) : bool := bool_decide (type ∈ kSELinuxEventList).

Definition between (lo hi z : Z) : bool := (lo <=? z) && (z <=? hi).

Definition ShouldHandle (type : Z) : bool :=
  if IsSELinuxRecord type then FLAGS_audit_allow_selinux_events
  else
    negb ((type =? NLMSG_NOOP) || (type =? NLMSG_DONE) || (type =? NLMSG_ERROR) ||
          (type =? AUDIT_LIST_RULES) || (type =? AUDIT_SECCOMP) || (type =? AUDIT_GET) ||
          between (AUDIT_GET + 1) (AUDIT_LIST_RULES - 1) type ||
          between (AUDIT_LIST_RULES + 1) (AUDIT_FIRST_USER_MSG - 1) type ||
          between AUDIT_DAEMON_START AUDIT_DAEMON_CONFIG type ||
          (type =? AUDIT_CONFIG_CHANGE)).

(** Does [AdjustAuditReply] set the text pointer for this type? *)
Definition has_message (type : Z) : bool :=
  (type =? AUDIT_USER) || (type =? AUDIT_LOGIN) || (type =? AUDIT_KERNEL) ||
  between AUDIT_FIRST_USER_MSG AUDIT_LAST_USER_MSG type ||
  between AUDIT_FIRST_USER_MSG2 AUDIT_LAST_USER_MSG2 type ||
  between AUDIT_FIRST_EVENT AUDIT_INTEGRITY_LAST_MSG type.

Definition AdjustAuditReply (msg : netlink_message) : audit_reply :=
  let type := nlmsg_type msg in
  mkReply type (nlmsg_len msg) msg
    (if type =? NLMSG_ERROR then ErrorView
     else if type =? AUDIT_LIST_RULES then RuleView
     else if has_message type then MessageView
     else if type =? AUDIT_SIGNAL_INFO then SignalView
     else NoView).

(** The local variables of the tokenizer. *)
Record token_state := mkToken {
  tk_fields : gmap string string;
  tk_key : string;
  tk_value : string;
  found_assignment : bool;
  found_enclose : bool;
}.

(** [std::map::emplace] keeps the entry that is there. *)
Definition emplace (k v : string) (m : gmap string string) : gmap string string :=
  match m !! k with Some _ => m | None => <[k := v]> m end.

Definition store_field (t : token_state) : gmap string string :=
  if negb (is_empty (tk_key t)) then emplace (tk_key t) (tk_value t) (tk_fields t) else tk_fields t.

Definition quote : ascii := "034"%char.

Definition push_back (s : string) (c : ascii) : string := s +:+ String c "".

Definition token_step (t : token_state) (c : ascii) : token_state :=
  if (found_enclose t && bool_decide (c = quote)) ||
     (negb (found_enclose t) && bool_decide (c = " "%char)) then
    let value := if bool_decide (c = quote) then push_back (tk_value t) c else tk_value t in
    mkToken (store_field (mkToken (tk_fields t) (tk_key t) value false false)) "" "" false false
  else if negb (found_assignment t) && bool_decide (c = " "%char) then t
  else if found_assignment t then
    mkToken (tk_fields t) (tk_key t) (push_back (tk_value t) c) true
      (if bool_decide (c = quote) then true else found_enclose t)
  else if bool_decide (c = "="%char) then
    mkToken (tk_fields t) (tk_key t) (tk_value t) true (found_enclose t)
  else mkToken (tk_fields t) (push_back (tk_key t) c) (tk_value t) false (found_enclose t).

Definition token_start : token_state := mkToken ∅ "" "" false false.

Definition parse_fields (field_view : string) : gmap string string :=
  store_field (foldl token_step token_start (chars field_view)).

(** [None] is a malformed record. The function is [noexcept]: a position past the
    end of the view ends the process. The text pointer is read for every type: it
    is null for those that [AdjustAuditReply] gives no text, and reading through it
    is undefined. *)
Definition ParseAuditReply (reply : audit_reply) : result (option AuditEventRecord) :=
  if negb (bool_decide (reply_ptr reply = MessageView)) then Throw AssertFailure
  else
    let text := nlmsg_data (reply_msg reply) in
    let message_view := String.substring 0 (Z.to_nat (u32 (reply_len reply))) text in
    match find_str "): " message_view with
    | None => Ok None
    | Some preamble_end =>
        match substr_n message_view 6 10 with
        | Throw _ => Throw AssertFailure
        | Ok seconds =>
            let time := takeOr (tryTo TULong seconds 10) 0 in
            (* [preamble_end - 6] wraps around when it is negative *)
            let n := if (preamble_end <? 6)%nat then String.length message_view
                     else (preamble_end - 6)%nat in
            let id := String.substring 6 n message_view in
            if IsSELinuxRecord (reply_type reply)
            then Ok (Some (mkRecord (reply_type reply) time id ∅ (c_str text)))
            else
              let field_view := String.substring (preamble_end + 3) (String.length message_view) message_view in
              Ok (Some (mkRecord (reply_type reply) time id (parse_fields field_view) ""))
        end
    end.

(** ** The queues shared by the services *)

Record AuditdContext := mkContext {
  unprocessed_records : list netlink_message;
  processed_events : list AuditEventRecord;
  acquire_handle : bool;
}.

Definition set_acquire (b : bool) (c : AuditdContext) : AuditdContext :=
  mkContext (unprocessed_records c) (processed_events c) b.

Section Parser.
Context {S : Type} (interrupted : M S bool) (getpid : Z) (FLAGS_audit_persist : bool).
(** The [pid] of the [audit_status] structure the data holds. *)
Context (status_pid : string -> Z).

Definition in_ctx {A} (m : M S A) : M (AuditdContext * S) A := zoom snd (fun s c => (c.1, s)) m.

(** The loop over the queue, with the records parsed so far. *)
Fixpoint parse_queue (queue : list netlink_message) (acc : list AuditEventRecord)
    : M (AuditdContext * S) (list AuditEventRecord) :=
  match queue with
  | [] => ret acc
  | msg :: queue =>
      let* stop := in_ctx interrupted in
      if (stop : bool) then ret acc
      else
        let reply := AdjustAuditReply msg in
        if reply_type reply =? AUDIT_GET then
          (if negb (i32 (status_pid (nlmsg_data msg)) =? getpid) && FLAGS_audit_persist
           then modify (fun c => (set_acquire true c.1, c.2)) else ret tt) ;;;
          parse_queue queue acc
        else if negb (ShouldHandle (reply_type reply)) then parse_queue queue acc
        else
          let* r := of_result (ParseAuditReply reply) in
          match r with
          | None => parse_queue queue acc
          | Some record => parse_queue queue (acc ++ [record])
          end
  end.

(** One turn of the loop of [start], from the moment the wait ended. *)
Definition AuditdNetlinkParser_turn : M (AuditdContext * S) unit :=
  let* queue := gets (fun c => unprocessed_records c.1) in
  modify (fun c => (mkContext [] (processed_events c.1) (acquire_handle c.1), c.2)) ;;;
  let* records := parse_queue queue [] in
  match records with
  | [] => ret tt
  | _ => modify (fun c => (mkContext (unprocessed_records c.1) (processed_events c.1 ++ records)
                             (acquire_handle c.1), c.2))
  end.

(** [notified]: the condition variable was notified within the second waited. *)
Definition getEvents (notified : bool) (c : AuditdContext) : list AuditEventRecord * AuditdContext :=
  if notified then (processed_events c, mkContext (unprocessed_records c) [] (acquire_handle c))
  else ([], c).

End Parser.
End Flags.

(** Quoted or hexadecimal field content. *)
Definition DecodeAuditPathValues `{BoostHex} (s : string) : string :=
  if (1 <? String.length s)%nat && bool_decide (char_at s 0 = quote)
  then String.substring 1 (String.length s - 2) s
  else match unhex s with Some t => t | None => s end.

(** ** Field access (auditeventpublisher.cpp)

    A Boolean result and the reference argument after the call. *)

Definition kMaxU64 : Z := 2 ^ 64 - 1.

Definition GetStringFieldFromMap (fields : gmap string string) (name default_value : string)
    : bool * string :=
  match fields !! name with
  | None => (false, default_value)
  | Some v => (true, v)
  end.

Definition GetIntegerFieldFromMap (field_map : gmap string string) (field_name : string)
    (base default_value : Z) : bool * Z :=
  match GetStringFieldFromMap field_map field_name "" with
  | (false, _) => (false, default_value)
  | (true, string_value) =>
      match tryTo TULong string_value base with
      | inl v => (true, v)
      | inr _ => (false, default_value)
      end
  end.

Definition CopyFieldFromMap (row : Row) (fields : gmap string string) (name default_value : string)
    : Row :=
  <[name := (GetStringFieldFromMap fields name default_value).2]> row.

(** ** Audit events *)

Record SyscallAuditEventData := mkSyscallData {
  syscall_number : Z;
  process_id : Z;
  parent_process_id : Z;
  process_uid : Z;
  process_euid : Z;
  process_gid : Z;
  process_egid : Z;
  executable_path : string;
}.

Inductive AuditEventType := UserEvent | SyscallEvent | SELinuxEvent.

#[export] Instance AuditEventType_eq_dec : EqDecision AuditEventType.
Proof. solve_decision. Defined.

Inductive AuditEventData :=
  | UserData (user_event_id : Z)
  | SyscallData (data : SyscallAuditEventData).

Record AuditEvent := mkAuditEvent {
  ev_type : AuditEventType;
  ev_data : AuditEventData;
  record_list : list AuditEventRecord;
}.

Definition push_record (r : AuditEventRecord) (e : AuditEvent) : AuditEvent :=
  mkAuditEvent (ev_type e) (ev_data e) (record_list e ++ [r]).

(** The first record of the type. *)
Definition GetEventRecord (event : AuditEvent) (record_type : Z) : option AuditEventRecord :=
  List.find (fun r => rec_type r =? record_type) (record_list event).

(** The event whose fields are [Some], or the [continue] of the loop. *)
Definition integer_field (r : AuditEventRecord) (name : string) : option Z :=
  match GetIntegerFieldFromMap (fields r) name 10 kMaxU64 with
  | (true, v) => Some v
  | (false, _) => None
  end.

Section Publisher.
Context `{BoostHex}.
(** [executable_path_], the path of the running binary. *)
Context (executable_path_ : string).
(** What the local [SyscallAuditEventData data;] holds before it is assigned: it
    has no initializer. *)
Context (data0 : SyscallAuditEventData).

(** The event a SYSCALL record opens. [audit_event.data = data] comes before the
    user and group ids are stored into [data], and [data] is not copied again. *)
Definition syscall_event (r : AuditEventRecord) : option AuditEvent :=
  match GetStringFieldFromMap (fields r) "exe" "" with
  | (false, _) => None
  | (true, raw_executable_path) =>
      let path := DecodeAuditPathValues raw_executable_path in
      if decide (executable_path_ = path) then None
      else
        syscall_number ← integer_field r "syscall";
        let (_, syscall_status) := GetStringFieldFromMap (fields r) "success" "yes" in
        if negb (bool_decide (syscall_status = "yes")) then None
        else
          process_id ← integer_field r "pid";
          parent_process_id ← integer_field r "ppid";
          let data := mkSyscallData syscall_number (i32 process_id) (i32 parent_process_id)
                        (process_uid data0) (process_euid data0) (process_gid data0)
                        (process_egid data0) path in
          _ ← integer_field r "uid";
          _ ← integer_field r "euid";
          _ ← integer_field r "gid";
          _ ← integer_field r "egid";
          Some (mkAuditEvent SyscallEvent (SyscallData data) [r])
  end.

Abbreviation AuditTraceContext := (gmap string AuditEvent).

Definition is_user_record (r : AuditEventRecord) : bool :=
  between AUDIT_FIRST_USER_MSG AUDIT_LAST_USER_MSG (rec_type r).

Definition user_event (r : AuditEventRecord) : AuditEvent :=
  mkAuditEvent UserEvent (UserData (u64 (rec_type r))) [r].

(** The variant of an SELinux event is the default one. *)
Definition selinux_event (r : AuditEventRecord) : AuditEvent :=
  mkAuditEvent SELinuxEvent (UserData 0) [r].

Definition process_record (st : list AuditEvent * AuditTraceContext) (r : AuditEventRecord)
    : list AuditEvent * AuditTraceContext :=
  let (events, trace) := st in
  if is_user_record r then (events ++ [user_event r], trace)
  else if IsSELinuxRecord (rec_type r) then (events ++ [selinux_event r], trace)
  else if rec_type r =? AUDIT_SYSCALL then
    (* a duplicated event is erased, whatever becomes of the new one *)
    let trace := delete (audit_id r) trace in
    match syscall_event r with
    | None => (events, trace)
    | Some e => (events, <[audit_id r := e]> trace)
    end
  else if rec_type r =? AUDIT_EOE then
    match trace !! audit_id r with
    | None => (events, trace)
    | Some e => (events ++ [e], delete (audit_id r) trace)
    end
  else
    match trace !! audit_id r with
    | None => (events, trace)
    | Some e => (events, <[audit_id r := push_record r e]> trace)
    end.

Definition event_timestamp (id : string) : Z :=
  takeOr (tryTo TLongLong (String.substring 0 10 id) 10) 0.

(** Keys are visited once, so the cache of the timestamps is never hit. *)
Definition drop_old (current_time : Z) (trace : AuditTraceContext) : AuditTraceContext :=
  filter (fun kv => ~ (300 <= current_time - event_timestamp kv.1)) trace.

Definition ProcessEvents (current_time : Z) (record_list : list AuditEventRecord)
    (trace : AuditTraceContext) : list AuditEvent * AuditTraceContext :=
  let (events, trace) := foldl process_record ([], trace) record_list in
  (events, drop_old current_time trace).

End Publisher.

(** ** The publisher object *)

Record AuditFlags := mkAuditFlags {
  disable_audit : bool;
  audit_allow_fim_events : bool;
  audit_allow_process_events : bool;
  audit_allow_sockets : bool;
  audit_allow_user_events : bool;
  audit_allow_selinux_events : bool;
}.

Definition IsPublisherEnabled (F : AuditFlags) : bool :=
  if disable_audit F then false
  else audit_allow_fim_events F || audit_allow_process_events F || audit_allow_sockets F ||
       audit_allow_user_events F || audit_allow_selinux_events F.

(** [audit_netlink_]: the shared queues, once it was created. *)
Record AuditEventPublisher := mkPublisher {
  pub_executable_path : string;
  audit_netlink_ : option AuditdContext;
  audit_trace_context_ : gmap string AuditEvent;
}.

Section PublisherObject.
Context `{BoostHex} {S : Type} (F : AuditFlags).
(** [NDEBUG]: assertions, and the calls inside them, are compiled out. *)
Context (NDEBUG : bool) (readlink_self : option string) (data0 : SyscallAuditEventData).
Context (time : M S Z) (fire : list AuditEvent -> M S unit).

Definition Publisher_setUp : M (AuditEventPublisher * S) Status :=
  if negb (IsPublisherEnabled F) then ret (mkStatus 1 "Publisher disabled via configuration")
  else
    let* path := gets (fun p => pub_executable_path p.1) in
    (if is_empty path then
       if NDEBUG then ret tt
       else match readlink_self with
            | None => throw AssertFailure
            | Some exe => modify (fun p => (mkPublisher exe (audit_netlink_ p.1)
                                              (audit_trace_context_ p.1), p.2))
            end
     else ret tt) ;;;
    ret (mkStatus 0 "OK").

Definition Publisher_configure : M (AuditEventPublisher * S) unit :=
  if negb (IsPublisherEnabled F) then ret tt
  else modify (fun p => match audit_netlink_ p.1 with
                        | Some _ => p
                        | None => (mkPublisher (pub_executable_path p.1) (Some (mkContext [] [] true))
                                     (audit_trace_context_ p.1), p.2)
                        end).

Definition Publisher_tearDown : M (AuditEventPublisher * S) unit :=
  if negb (IsPublisherEnabled F) then ret tt
  else modify (fun p => (mkPublisher (pub_executable_path p.1) None (audit_trace_context_ p.1), p.2)).

(** A run before [configure] would go through a null pointer. *)
Definition Publisher_run (notified : bool) : M (AuditEventPublisher * S) Status :=
  if negb (IsPublisherEnabled F) then ret (mkStatus 1 "Publisher disabled via configuration")
  else
    let* p := gets fst in
    match audit_netlink_ p with
    | None => throw AssertFailure
    | Some c =>
        let (queue, c) := getEvents notified c in
        let* now := zoom snd (fun s p => (p.1, s)) time in
        let (events, trace) := ProcessEvents (pub_executable_path p) data0 now queue
                                 (audit_trace_context_ p) in
        modify (fun p => (mkPublisher (pub_executable_path p.1) (Some c) trace, p.2)) ;;;
        (match events with
         | [] => ret tt
         | _ => zoom snd (fun s p => (p.1, s)) (fire events)
         end) ;;;
        ret (mkStatus 0 "OK")
    end.

End PublisherObject.
