(* ===== verification/AuditFacts.v ===== *)
(** * Facts about the audit publisher

    The field tokenizer reads back what the kernel prints; the parser service
    hands over the records in their order; events are assembled per identifier
    however the records of several events are interleaved. *)
From S2P Require Import Prelude Boost Conversions Query AuditRecords.
Local Open Scope Z_scope.

(** ** The tokenizer *)

Definition key_ok (k : string) : bool :=
  negb (is_empty k) &&
  all_chars (fun c => negb (bool_decide (c = " "%char)) && negb (bool_decide (c = "="%char))) k.

Definition plain (v : string) : bool :=
  all_chars (fun c => negb (bool_decide (c = " "%char)) && negb (bool_decide (c = quote))) v.

(** A quoted value holds no quote of its own. *)
Definition quoted (v : string) : Prop :=
  exists body, v = String quote (body +:+ String quote "") /\
    all_chars (fun c => negb (bool_decide (c = quote))) body = true.

Definition field_ok (kv : string * string) : Prop :=
  key_ok kv.1 = true /\ (plain kv.2 = true \/ quoted kv.2).

(** The text of a list of fields, as the kernel prints it. *)
Fixpoint fields_text (l : list (string * string)) : string :=
  match l with
  | [] => ""
  | [(k, v)] => k +:+ "=" +:+ v
  | (k, v) :: l => (k +:+ "=" +:+ v) +:+ " " +:+ fields_text l
  end.

Lemma push_back_app s c t : push_back s c +:+ t = s +:+ String c t.
Proof. unfold push_back. by rewrite app_assoc_str. Qed.

Ltac char_cases :=
  repeat match goal with
  | H : context [bool_decide (?c = ?d)] |- _ => destruct (bool_decide_reflect (c = d)); subst; simpl in *
  | |- context [bool_decide (?c = ?d)] => destruct (bool_decide_reflect (c = d)); subst; simpl
  end; try done.

Lemma scan_key m k0 v k :
  all_chars (fun c => negb (bool_decide (c = " "%char)) && negb (bool_decide (c = "="%char))) k = true ->
  foldl token_step (mkToken m k0 v false false) (chars k) = mkToken m (k0 +:+ k) v false false.
Proof.
  revert k0. induction k as [|c k IH]; intros k0 Hk; simpl; [by rewrite app_nil_r_str|].
  rewrite all_chars_cons in Hk. apply andb_true_iff in Hk as [Hc Hk].
  assert (token_step (mkToken m k0 v false false) c = mkToken m (push_back k0 c) v false false) as ->.
  { unfold token_step. simpl. char_cases. }
  rewrite IH by done. by rewrite push_back_app.
Qed.

Lemma scan_plain m k v0 v : plain v = true ->
  foldl token_step (mkToken m k v0 true false) (chars v) = mkToken m k (v0 +:+ v) true false.
Proof.
  unfold plain. revert v0. induction v as [|c v IH]; intros v0 Hv; simpl; [by rewrite app_nil_r_str|].
  rewrite all_chars_cons in Hv. apply andb_true_iff in Hv as [Hc Hv].
  assert (token_step (mkToken m k v0 true false) c = mkToken m k (push_back v0 c) true false) as ->.
  { unfold token_step. simpl. char_cases. }
  rewrite IH by done. by rewrite push_back_app.
Qed.

Lemma scan_enclosed m k v0 v :
  all_chars (fun c => negb (bool_decide (c = quote))) v = true ->
  foldl token_step (mkToken m k v0 true true) (chars v) = mkToken m k (v0 +:+ v) true true.
Proof.
  revert v0. induction v as [|c v IH]; intros v0 Hv; simpl; [by rewrite app_nil_r_str|].
  rewrite all_chars_cons in Hv. apply andb_true_iff in Hv as [Hc Hv].
  assert (token_step (mkToken m k v0 true true) c = mkToken m k (push_back v0 c) true true) as ->.
  { unfold token_step. simpl. char_cases. }
  rewrite IH by done. by rewrite push_back_app.
Qed.

(** A quoted value stores its field at the closing quote. *)
Lemma scan_quoted m k v : quoted v -> k <> "" ->
  foldl token_step (mkToken m k "" true false) (chars v) = mkToken (emplace k v m) "" "" false false.
Proof.
  intros (body & -> & Hb) Hk. rewrite chars_cons. cbn [foldl].
  assert (token_step (mkToken m k "" true false) quote =
          mkToken m k (String quote "") true true) as -> by done.
  rewrite chars_app, foldl_app, scan_enclosed by done. cbn [foldl chars].
  unfold token_step. simpl. unfold store_field. cbn [tk_key tk_value tk_fields].
  destruct k; done.
Qed.

Lemma scan_field m k v : field_ok (k, v) ->
  let t := foldl token_step (mkToken m "" "" false false) (chars (k +:+ "=" +:+ v)) in
  store_field t = emplace k v m /\
  token_step t " "%char = mkToken (emplace k v m) "" "" false false.
Proof.
  intros [Hk Hv]. unfold key_ok in Hk. simpl in Hk, Hv.
  apply andb_true_iff in Hk as [Hne Hk].
  assert (k <> "") as Hk0 by (by intros ->).
  cbv zeta. rewrite chars_app, foldl_app, scan_key by done.
  change ("" +:+ k) with k. rewrite chars_app, foldl_app. cbn [foldl chars].
  assert (token_step (mkToken m k "" false false) "="%char = mkToken m k "" true false) as -> by done.
  destruct Hv as [Hv|Hv].
  - rewrite scan_plain by done. change ("" +:+ v) with v.
    unfold token_step, store_field. cbn [tk_key tk_value tk_fields found_enclose found_assignment].
    rewrite Hne. done.
  - rewrite scan_quoted by done. split; done.
Qed.

Lemma scan_fields l m : Forall field_ok l ->
  store_field (foldl token_step (mkToken m "" "" false false) (chars (fields_text l))) =
  foldl (fun m kv => emplace kv.1 kv.2 m) m l.
Proof.
  intros Hl. revert m. induction Hl as [|[k v] l Hkv Hl IH]; intros m; [done|].
  pose proof (scan_field m k v Hkv) as [E1 E2].
  destruct l as [|kv l]; [exact E1|].
  cbn [fields_text]. rewrite (chars_app (k +:+ "=" +:+ v)), foldl_app, (chars_app " "), foldl_app.
  cbn [foldl chars]. rewrite E2. apply IH.
Qed.

Lemma emplace_fresh l m : NoDup l.*1 -> (forall k, k ∈ l.*1 -> m !! k = None) ->
  foldl (fun m kv => emplace kv.1 kv.2 m) m l = list_to_map l ∪ m.
Proof.
  revert m. induction l as [|[k v] l IH]; intros m Hnd Hm; simpl; [by rewrite (left_id_L ∅ (∪))|].
  apply NoDup_cons in Hnd as [Hk Hnd].
  unfold emplace at 2. simpl in Hm. rewrite Hm by set_solver.
  rewrite IH; [|done|].
  - by rewrite <- insert_union_r, insert_union_l
      by (apply not_elem_of_list_to_map; done).
  - intros k' Hk'. rewrite lookup_insert_ne by (by intros ->). apply Hm. set_solver.
Qed.

(** C26: the tokenizer reads back the fields of a record: printing fields with
    distinct, well-formed names as name=value separated by spaces, each value
    either without spaces and quotes or enclosed in quotes, and parsing the text
    gives exactly these fields. *)
Theorem audit_fields_roundtrip l : Forall field_ok l -> NoDup l.*1 ->
  parse_fields (fields_text l) = list_to_map l.
Proof.
  intros Hl Hnd. unfold parse_fields, token_start. rewrite scan_fields by done.
  rewrite emplace_fresh by (done || (intros; apply lookup_empty)).
  by rewrite (right_id_L ∅ (∪)).
Qed.

(** ** The parser service *)

Section ParserFacts.
Context (selinux : bool) {S : Type} (interrupted : M S bool) (getpid : Z) (persist : bool).
Context (status_pid : string -> Z).

(** The text [ParseAuditReply] looks at. *)
Definition view_of (msg : netlink_message) : string :=
  String.substring 0 (Z.to_nat (u32 (nlmsg_len msg))) (nlmsg_data msg).

(** The record a message gives, if any. *)
Definition parsed (msg : netlink_message) : option AuditEventRecord :=
  if nlmsg_type msg =? AUDIT_GET then None
  else if negb (ShouldHandle selinux (nlmsg_type msg)) then None
  else match ParseAuditReply (AdjustAuditReply msg) with Ok r => r | Throw _ => None end.

(** Messages the parser can read: those it handles carry a text of at least six
    characters. *)
Definition readable (msg : netlink_message) : Prop :=
  ShouldHandle selinux (nlmsg_type msg) = true ->
  has_message (nlmsg_type msg) = true /\ (6 <= String.length (view_of msg))%nat.

Definition control_lost (msg : netlink_message) : bool :=
  (nlmsg_type msg =? AUDIT_GET) && negb (i32 (status_pid (nlmsg_data msg)) =? getpid) && persist.

Lemma has_message_view msg : has_message (nlmsg_type msg) = true ->
  reply_ptr (AdjustAuditReply msg) = MessageView.
Proof.
  intros Hm. unfold AdjustAuditReply. cbn [reply_ptr]. rewrite Hm.
  destruct (Z.eqb_spec (nlmsg_type msg) NLMSG_ERROR) as [E|_]; [by rewrite E in Hm|].
  destruct (Z.eqb_spec (nlmsg_type msg) AUDIT_LIST_RULES) as [E|_]; [by rewrite E in Hm|].
  done.
Qed.

Lemma ParseAuditReply_total msg : has_message (nlmsg_type msg) = true ->
  (6 <= String.length (view_of msg))%nat ->
  exists r, ParseAuditReply (AdjustAuditReply msg) = Ok r.
Proof.
  intros Hm Hl. unfold ParseAuditReply. rewrite has_message_view by done.
  cbn [negb bool_decide reply_msg AdjustAuditReply nlmsg_data reply_len].
  change (bool_decide (MessageView = MessageView)) with true. cbn [negb].
  fold (view_of msg). destruct (find_str _ _); [|by eexists].
  unfold substr_n. destruct (Nat.ltb_spec (String.length (view_of msg)) 6); [lia|].
  destruct (IsSELinuxRecord _); by eexists.
Qed.

Lemma parse_queue_run queue acc c s :
  (forall s, interrupted s = (Ok false, s)) -> Forall readable queue ->
  parse_queue selinux interrupted getpid persist status_pid queue acc (c, s) =
  (Ok (acc ++ omap parsed queue),
   (mkContext (unprocessed_records c) (processed_events c)
      (acquire_handle c || existsb control_lost queue), s)).
Proof.
  intros Hi Hq. revert acc c. induction Hq as [|msg queue Hm Hq IH]; intros acc c.
  - cbn. rewrite app_nil_r, orb_false_r. by destruct c.
  - cbn [parse_queue]. unfold bind at 1, in_ctx, zoom. cbn [snd]. rewrite Hi.
    change (reply_type (AdjustAuditReply msg)) with (nlmsg_type msg).
    cbn [omap list_omap existsb].
    unfold parsed at 1, control_lost at 1.
    destruct (Z.eqb_spec (nlmsg_type msg) AUDIT_GET) as [E|_]; cbn [andb].
    + destruct (negb _ && persist) eqn:Elost.
      * rewrite bind_modify, IH. cbn. by rewrite orb_true_r.
      * rewrite bind_ret, IH. done.
    + destruct (ShouldHandle selinux (nlmsg_type msg)) eqn:Eh; cbn [negb orb].
      2: { by rewrite IH. }
      destruct (ParseAuditReply_total msg) as [r Er]; [apply Hm; done..|].
      rewrite Er. unfold bind at 1, of_result.
      destruct r as [r|]; rewrite IH; [|done].
      by rewrite <- app_assoc.
Qed.

(** a turn of the parser service that is not interrupted appends to the
    processed events the parse of every message it handles, in the order of the
    queue and once each, empties the queue, and asks for the handle again exactly
    when a status message named another process. *)
Theorem parser_turn_keeps_order c s :
  (forall s, interrupted s = (Ok false, s)) -> Forall readable (unprocessed_records c) ->
  AuditdNetlinkParser_turn selinux interrupted getpid persist status_pid (c, s) =
  (Ok tt, (mkContext [] (processed_events c ++ omap parsed (unprocessed_records c))
             (acquire_handle c || existsb control_lost (unprocessed_records c)), s)).
Proof.
  intros Hi Hq. unfold AuditdNetlinkParser_turn. rewrite bind_gets, bind_modify. cbn [fst snd].
  erewrite bind_run by (by apply parse_queue_run). cbn [fst snd app].
  destruct (omap parsed (unprocessed_records c)) eqn:E; cbn; [|done].
  by rewrite app_nil_r.
Qed.

(** The types that are handled although they have no text. *)
Lemma handled_without_text t : ShouldHandle selinux t && negb (has_message t) = true ->
  t <> NLMSG_ERROR /\ t <> AUDIT_LIST_RULES /\
  (t < 1000 \/ 1204 <= t < 1300 \/ 1900 <= t < 2000 \/ 2001 <= t < 2100 \/ 3000 <= t).
Proof.
  unfold ShouldHandle, has_message, between, IsSELinuxRecord, NLMSG_NOOP, NLMSG_ERROR, NLMSG_DONE,
    AUDIT_GET, AUDIT_USER, AUDIT_LOGIN, AUDIT_LIST_RULES, AUDIT_FIRST_USER_MSG, AUDIT_LAST_USER_MSG,
    AUDIT_DAEMON_START, AUDIT_DAEMON_CONFIG, AUDIT_CONFIG_CHANGE, AUDIT_SECCOMP, AUDIT_KERNEL,
    AUDIT_FIRST_USER_MSG2, AUDIT_LAST_USER_MSG2, AUDIT_FIRST_EVENT, AUDIT_INTEGRITY_LAST_MSG.
  destruct (bool_decide_reflect (t ∈ kSELinuxEventList)) as [Hs|_]; [|lia].
  unfold kSELinuxEventList, AUDIT_USER_AVC, AUDIT_AVC in Hs. rewrite !elem_of_cons in Hs.
  rewrite elem_of_nil in Hs. lia.
Qed.

End ParserFacts.

(** ** Assembling events *)

Section AssemblyFacts.
Context `{BoostHex} (exe : string) (data0 : SyscallAuditEventData).

Abbreviation step := (process_record exe data0).

(** The identifier of an event is that of its first record. *)
Definition event_id (e : AuditEvent) : option string := audit_id <$> head (record_list e).

Definition of_id (id : string) (e : AuditEvent) : Prop := event_id e = Some id.

#[local] Instance of_id_dec id e : Decision (of_id id e).
Proof. unfold of_id. apply _. Defined.

(** Events being assembled are filed under their identifier. *)
Definition trace_ok (trace : gmap string AuditEvent) : Prop :=
  forall id e, trace !! id = Some e -> of_id id e.

(** What an observer of one identifier sees: the reported events and the one
    being assembled. *)
Definition view (id : string) (st : list AuditEvent * gmap string AuditEvent)
    : list AuditEvent * option AuditEvent :=
  (filter (of_id id) st.1, st.2 !! id).

(** Assembling the records of a single identifier. *)
Definition step1 (st : list AuditEvent * option AuditEvent) (r : AuditEventRecord)
    : list AuditEvent * option AuditEvent :=
  let (events, cur) := st in
  if is_user_record r then (events ++ [user_event r], cur)
  else if IsSELinuxRecord (rec_type r) then (events ++ [selinux_event r], cur)
  else if rec_type r =? AUDIT_SYSCALL then (events, syscall_event exe data0 r)
  else if rec_type r =? AUDIT_EOE then (events ++ option_list cur, None)
  else (events, push_record r <$> cur).

Lemma syscall_event_records r e : syscall_event exe data0 r = Some e ->
  record_list e = [r] /\ ev_type e = SyscallEvent.
Proof.
  unfold syscall_event. intros E.
  repeat (case_match || (apply bind_Some in E as (? & ? & E))); by simplify_eq.
Qed.

Lemma push_record_id r e id : of_id id e -> of_id id (push_record r e).
Proof. unfold of_id, event_id, push_record. cbn. by destruct (record_list e). Qed.

Lemma filter_snoc_yes {A} (P : A -> Prop) `{forall x, Decision (P x)} l x :
  P x -> filter P (l ++ [x]) = filter P l ++ [x].
Proof. intros Hx. rewrite filter_app. cbn. by rewrite decide_True. Qed.

Lemma filter_snoc_no {A} (P : A -> Prop) `{forall x, Decision (P x)} l x :
  ~ P x -> filter P (l ++ [x]) = filter P l.
Proof. intros Hx. rewrite filter_app. cbn. by rewrite decide_False, app_nil_r. Qed.

Lemma syscall_event_id r e : syscall_event exe data0 r = Some e -> of_id (audit_id r) e.
Proof.
  intros E. apply syscall_event_records in E as [E _]. unfold of_id, event_id. by rewrite E.
Qed.

Lemma trace_ok_step events trace r : trace_ok trace -> trace_ok (step (events, trace) r).2.
Proof.
  intros Ht id e. unfold process_record.
  repeat case_match; cbn [snd]; try apply Ht;
    rewrite ?lookup_insert_Some, ?lookup_delete_Some.
  - intros [[<- <-]|[_ [_ Hd]]]; [by apply syscall_event_id | by apply Ht].
  - intros [_ Hd]. by apply Ht.
  - intros [_ Hd]. by apply Ht.
  - intros [[<- <-]|[_ Hd]]; [apply push_record_id|]; by apply Ht.
Qed.

(** Records of other identifiers are not seen. *)
Lemma step_other id events trace r : audit_id r <> id -> trace_ok trace ->
  view id (step (events, trace) r) = view id (events, trace).
Proof.
  intros Hid Ht. unfold view, process_record.
  assert (forall t d, ~ of_id id (mkAuditEvent t d [r])) as Hno
    by (unfold of_id, event_id; cbn; congruence).
  destruct (is_user_record r); [cbn; by rewrite filter_snoc_no by apply Hno|].
  destruct (IsSELinuxRecord _); [cbn; by rewrite filter_snoc_no by apply Hno|].
  destruct (rec_type r =? AUDIT_SYSCALL).
  { destruct (syscall_event exe data0 r); cbn [fst snd];
      by rewrite ?lookup_insert_ne, lookup_delete_ne by done. }
  destruct (trace !! audit_id r) as [e|] eqn:E; destruct (rec_type r =? AUDIT_EOE); try done;
    cbn [fst snd].
  - apply Ht in E. rewrite filter_snoc_no, lookup_delete_ne by (unfold of_id in *; congruence). done.
  - by rewrite lookup_insert_ne.
Qed.

(** Records of the identifier act on its view alone. *)
Lemma step_same id events trace r : audit_id r = id -> trace_ok trace ->
  view id (step (events, trace) r) = step1 (view id (events, trace)) r.
Proof.
  intros <- Ht. unfold view, step1, process_record. cbn [fst snd].
  destruct (is_user_record r); [cbn; by rewrite filter_snoc_yes by done|].
  destruct (IsSELinuxRecord _); [cbn; by rewrite filter_snoc_yes by done|].
  destruct (rec_type r =? AUDIT_SYSCALL).
  { destruct (syscall_event exe data0 r); cbn [fst snd];
      by rewrite ?lookup_insert_eq, ?lookup_delete_eq. }
  destruct (trace !! audit_id r) as [e|] eqn:E; destruct (rec_type r =? AUDIT_EOE);
    cbn [fst snd option_list fmap option_fmap option_map]; rewrite ?app_nil_r, ?E; try done.
  - rewrite filter_snoc_yes by (by apply Ht). by rewrite lookup_delete_eq.
  - by rewrite lookup_insert_eq.
Qed.

Lemma view_fold id l events trace : trace_ok trace ->
  view id (foldl step (events, trace) l) =
  foldl step1 (view id (events, trace)) (filter (fun r => audit_id r = id) l).
Proof.
  revert events trace. induction l as [|r l IH]; intros events trace Ht; [done|].
  cbn [foldl]. destruct (step (events, trace) r) as [events' trace'] eqn:E.
  assert (trace_ok trace') as Ht'
    by (change trace' with ((events', trace').2); rewrite <- E; by apply trace_ok_step).
  rewrite IH by done. rewrite <- E.
  destruct (decide (audit_id r = id)) as [Hid|Hid].
  - rewrite filter_cons_True by done. cbn [foldl]. by rewrite <- step_same.
  - rewrite filter_cons_False by done. by rewrite step_other.
Qed.

(** A record in the middle of an event. *)
Definition continuation (r : AuditEventRecord) : bool :=
  negb (is_user_record r) && negb (IsSELinuxRecord (rec_type r)) &&
  negb (rec_type r =? AUDIT_SYSCALL) && negb (rec_type r =? AUDIT_EOE).

Lemma step1_continuations rs events e : Forall (fun r => continuation r = true) rs ->
  foldl step1 (events, Some e) rs =
  (events, Some (mkAuditEvent (ev_type e) (ev_data e) (record_list e ++ rs))).
Proof.
  intros Hrs. revert e. induction Hrs as [|r rs Hr Hrs IH]; intros e; cbn [foldl].
  - rewrite app_nil_r. by destruct e.
  - unfold continuation in Hr. unfold step1 at 2.
    destruct (is_user_record r), (IsSELinuxRecord _), (rec_type r =? AUDIT_SYSCALL),
      (rec_type r =? AUDIT_EOE); try done.
    cbn. rewrite IH. cbn. by rewrite <- app_assoc.
Qed.

Lemma drop_old_None now trace id : trace !! id = None -> drop_old now trace !! id = None.
Proof. intros E. apply map_lookup_filter_None. by left. Qed.

Lemma syscall_not_other r : rec_type r = AUDIT_SYSCALL \/ rec_type r = AUDIT_EOE ->
  is_user_record r = false /\ IsSELinuxRecord (rec_type r) = false.
Proof. unfold is_user_record. by intros [-> | ->]. Qed.

(** C6: however the records of several events are interleaved, an event whose
    records arrive as a system call record, continuations and the terminator is
    reported exactly once, with exactly these records in their order, and nothing
    of it stays behind. *)
Theorem interleaved_event_is_assembled now l trace id sys rs eoe e :
  trace_ok trace ->
  filter (fun r => audit_id r = id) l = sys :: rs ++ [eoe] ->
  rec_type sys = AUDIT_SYSCALL -> syscall_event exe data0 sys = Some e ->
  Forall (fun r => continuation r = true) rs -> rec_type eoe = AUDIT_EOE ->
  filter (of_id id) (ProcessEvents exe data0 now l trace).1 =
    [mkAuditEvent SyscallEvent (ev_data e) (sys :: rs)] /\
  (ProcessEvents exe data0 now l trace).2 !! id = None.
Proof.
  intros Ht Hl Hsys He Hrs Heoe. pose proof (view_fold id l [] trace Ht) as Hv.
  rewrite Hl in Hv. cbn [foldl view fst snd] in Hv. rewrite foldl_app in Hv.
  destruct (syscall_not_other sys) as [U1 U2]; [by left|].
  destruct (syscall_not_other eoe) as [U3 U4]; [by right|].
  destruct (syscall_event_records sys e He) as [R1 R2].
  unfold step1 at 3 in Hv. rewrite U1, U2, Hsys in Hv. cbn in Hv.
  rewrite He, step1_continuations in Hv by done. unfold step1 in Hv.
  rewrite U3, U4, Heoe in Hv. cbn in Hv.
  unfold ProcessEvents. destruct (foldl step ([], trace) l) as [events trace'].
  unfold view in Hv. cbn [fst snd] in *. injection Hv as Hv1 Hv2.
  rewrite R1, R2 in Hv1. split; [done | by apply drop_old_None].
Qed.

(** *** Events of the daemon itself *)

Definition foreign (e : AuditEvent) : Prop :=
  match ev_data e with SyscallData d => executable_path d <> exe | UserData _ => True end.

Lemma syscall_event_foreign r e : syscall_event exe data0 r = Some e -> foreign e.
Proof.
  unfold syscall_event. intros E.
  repeat (case_match || (apply bind_Some in E as (? & ? & E))); simplify_eq. by apply not_eq_sym.
Qed.

Lemma step_foreign events trace r :
  Forall foreign events -> map_Forall (fun _ => foreign) trace ->
  Forall foreign (step (events, trace) r).1 /\ map_Forall (fun _ => foreign) (step (events, trace) r).2.
Proof.
  intros He Ht. unfold process_record.
  destruct (is_user_record r); [split; [by apply Forall_app_2; repeat constructor | done]|].
  destruct (IsSELinuxRecord _); [split; [by apply Forall_app_2; repeat constructor | done]|].
  destruct (rec_type r =? AUDIT_SYSCALL).
  { destruct (syscall_event exe data0 r) eqn:E; split; try done.
    - apply map_Forall_insert_2; [by eapply syscall_event_foreign | by apply map_Forall_delete].
    - by apply map_Forall_delete. }
  destruct (trace !! audit_id r) as [e|] eqn:E; destruct (rec_type r =? AUDIT_EOE); split; try done.
  - apply Forall_app_2; [done|]. repeat constructor. by apply (Ht _ _ E).
  - by apply map_Forall_delete.
  - apply map_Forall_insert_2; [|done]. apply (Ht _ _ E).
Qed.

(** no system call of the daemon's own binary is ever reported: the path of
    every reported system call differs from the path of the running executable. *)
Theorem own_process_is_never_reported now l trace :
  map_Forall (fun _ => foreign) trace ->
  Forall foreign (ProcessEvents exe data0 now l trace).1 /\
  map_Forall (fun _ => foreign) (ProcessEvents exe data0 now l trace).2.
Proof.
  intros Ht. unfold ProcessEvents.
  assert (forall events, Forall foreign events ->
    Forall foreign (foldl step (events, trace) l).1 /\
    map_Forall (fun _ => foreign) (foldl step (events, trace) l).2) as Hl.
  { revert trace Ht. induction l as [|r l IH]; intros trace Ht events He; [done|].
    cbn [foldl]. destruct (step_foreign events trace r He Ht) as [He' Ht'].
    destruct (step (events, trace) r). by apply IH. }
  specialize (Hl [] (Forall_nil_2 _)). destruct (foldl step ([], trace) l) as [events trace'].
  destruct Hl as [Hl1 Hl2]. split; [done|]. intros k e Hk.
  apply map_lookup_filter_Some in Hk as [Hk _]. by apply (Hl2 _ _ Hk).
Qed.

(** SELinux messages of user space are in the range of user messages, which is
    tested first. *)
Lemma user_avc_is_a_user_event events trace r : rec_type r = AUDIT_USER_AVC ->
  step (events, trace) r = (events ++ [user_event r], trace).
Proof. unfold process_record, is_user_record. by intros ->. Qed.

End AssemblyFacts.
