(* ===== verification/AuditReader.v ===== *)
(** * The audit netlink reader

    [AuditdNetlinkReader] of osquery/events/linux/auditdnetlink.cpp: acquiring
    the netlink handle, configuring and restoring the rules of the audit service,
    and receiving messages into the queue of AuditRecords.v. The calls to libaudit and to
    the kernel are the class [Libaudit]. *)
From S2P Require Import Prelude Boost Conversions Query AuditRecords.
Local Open Scope Z_scope.

(** A system call: its result, and [errno] after it. *)
Record sysres := mkRes { res : Z; errno : Z }.

Definition EINTR : Z := 4.
Definition ENOBUFS : Z := 105.
Definition EEXIST : Z := 17.
Definition MAX_AUDIT_MESSAGE_LENGTH : Z := 8970.

(** What [recvfrom] left behind. *)
Record received := mkReceived {
  recv_len : Z;
  recv_addrlen : Z;
  recv_nl_pid : Z;
  recv_msg : netlink_message;
}.

(** A rule read back from the service, kept with its size in bytes. *)
Record AuditRuleDataObject := mkRuleObject { obj_size : Z; obj_data : string }.

(** A reply to the rule listing; [error] is [reply.error->error]. *)
Record rule_reply := mkRuleReply {
  rr_seq : Z;
  rr_type : Z;
  rr_error : Z;
  rr_buflen : Z;
  rr_data : string;
}.

Class Libaudit (S : Type) := {
  audit_open : M S Z;
  audit_close : Z -> M S unit;
  audit_set_pid : Z -> Z -> M S Z;
  audit_request_status : Z -> M S sysres;
  audit_is_enabled : Z -> M S Z;
  audit_set_enabled : Z -> Z -> M S Z;
  audit_set_backlog_wait_time : Z -> Z -> M S Z;
  audit_set_backlog_limit : Z -> Z -> M S Z;
  audit_set_failure : Z -> Z -> M S Z;
  audit_request_rules_list_data : Z -> M S Z;
  (** Not positive is [None]. *)
  audit_get_reply : Z -> M S (option rule_reply);
  (** Adding and deleting the rule of a system call at exit, always. *)
  audit_add_rule_data : Z -> Z -> M S Z;
  audit_delete_rule_data : Z -> Z -> M S Z;
  getuid : M S Z;
  getpid : M S Z;
  (** The result, [errno], and whether the descriptor can be read. *)
  poll : Z -> Z -> M S (sysres * bool);
  recvfrom : Z -> M S received;
  (** The rule sent and the number of bytes to send. *)
  sendto : Z -> string -> Z -> M S sysres;
  unix_time : M S Z;
  sleep_for : Z -> M S unit;
  reader_interrupted : M S bool;
  (** [sizeof(audit_reply)], [sizeof(sockaddr_nl)]. *)
  sizeof_reply : Z;
  sizeof_sockaddr_nl : Z;
}.

Inductive NetlinkStatus := ActiveMutable | ActiveImmutable | NetlinkDisabled | NetlinkError.

#[export] Instance NetlinkStatus_eq_dec : EqDecision NetlinkStatus.
Proof. solve_decision. Defined.

Definition AUDIT_DISABLED : Z := 0.
Definition AUDIT_ENABLED : Z := 1.
Definition AUDIT_IMMUTABLE : Z := 2.
Definition AUDIT_FAIL_SILENT : Z := 0.
Definition AUDIT_FAIL_PRINTK : Z := 1.

(** [NLMSG_SPACE(len)] and [NLMSG_OK(nlh, len)], with a header of 16 bytes. *)
Definition NLMSG_SPACE (len : Z) : Z := (len + 16 + 3) / 4 * 4.

Definition NLMSG_OK (msg : netlink_message) (len : Z) : bool :=
  (16 <=? len) && (16 <=? nlmsg_len msg) && (nlmsg_len msg <=? len).

Record ReaderFlags := mkReaderFlags {
  audit_allow_config : bool;
  audit_force_unconfigure : bool;
  audit_force_reconfigure : bool;
  rf_allow_fim_events : bool;
  rf_allow_process_events : bool;
  rf_allow_sockets : bool;
}.

(** The members of the reader and the shared context. A rule is its system call. *)
Record Reader (S : Type) := mkReader {
  installed_rule_list_ : list Z;
  monitored_syscall_list_ : gset Z;
  audit_netlink_handle_ : Z;
  rd_context : AuditdContext;
  rd_host : S;
}.
Arguments mkReader {S}. Arguments installed_rule_list_ {S}. Arguments monitored_syscall_list_ {S}.
Arguments audit_netlink_handle_ {S}. Arguments rd_context {S}. Arguments rd_host {S}.

Definition set_installed {S} (l : list Z) (r : Reader S) : Reader S :=
  mkReader l (monitored_syscall_list_ r) (audit_netlink_handle_ r) (rd_context r) (rd_host r).
Definition set_monitored {S} (l : gset Z) (r : Reader S) : Reader S :=
  mkReader (installed_rule_list_ r) l (audit_netlink_handle_ r) (rd_context r) (rd_host r).
Definition set_handle {S} (h : Z) (r : Reader S) : Reader S :=
  mkReader (installed_rule_list_ r) (monitored_syscall_list_ r) h (rd_context r) (rd_host r).
Definition set_context {S} (c : AuditdContext) (r : Reader S) : Reader S :=
  mkReader (installed_rule_list_ r) (monitored_syscall_list_ r) (audit_netlink_handle_ r) c (rd_host r).
Definition set_rd_host {S} (s : S) (r : Reader S) : Reader S :=
  mkReader (installed_rule_list_ r) (monitored_syscall_list_ r) (audit_netlink_handle_ r) (rd_context r) s.

Section AuditReader.
Context {S : Type} {L : Libaudit S} (F : ReaderFlags).
(** The system calls of the three subscribers ([GetSyscallSet]). *)
Context (socket_syscalls process_syscalls fim_syscalls : list Z).

Abbreviation R := (M (Reader S)).

Definition sys {A} (m : M S A) : R A := zoom rd_host set_rd_host m.

Definition insert_all (l : list Z) : R unit :=
  modify (fun r => set_monitored (list_to_set l ∪ monitored_syscall_list_ r) r).

(** [std::set<int>] is iterated in ascending order. *)
Definition ascending (s : gset Z) : list Z := merge_sort Z.le (elements s).

Definition add_rule (syscall_number : Z) : R unit :=
  let* h := gets audit_netlink_handle_ in
  let* rule_add_error := sys (audit_add_rule_data h syscall_number) in
  if (0 <=? rule_add_error) || audit_force_unconfigure F
  then modify (fun r => set_installed (installed_rule_list_ r ++ [syscall_number]) r)
  else ret tt.

Definition configureAuditService : R bool :=
  let* h := gets audit_netlink_handle_ in
  sys (audit_set_backlog_wait_time h 1) ;;;
  sys (audit_set_backlog_limit h 4096) ;;;
  sys (audit_set_failure h AUDIT_FAIL_SILENT) ;;;
  (if rf_allow_sockets F then insert_all socket_syscalls else ret tt) ;;;
  (if rf_allow_process_events F then insert_all process_syscalls else ret tt) ;;;
  (if rf_allow_fim_events F then insert_all fim_syscalls else ret tt) ;;;
  let* monitored := gets monitored_syscall_list_ in
  for_each (ascending monitored) add_rule ;;;
  ret true.

(** The inner loop of [deleteAuditRule]: it repeats while a signal interrupts it.
    [None] says that it was still interrupted when the fuel ran out. *)
Fixpoint send_loop (fuel : nat) (rule : AuditRuleDataObject) : R (option (option Z)) :=
  match fuel with
  | O => ret None
  | Datatypes.S fuel =>
      let* h := gets audit_netlink_handle_ in
      let* sent := sys (sendto h (obj_data rule) (NLMSG_SPACE (obj_size rule))) in
      if 0 <=? res sent then ret (Some (Some (res sent)))
      else if negb (errno sent =? EINTR) then ret (Some None)
      else send_loop fuel rule
  end.

(** Up to three attempts to send the whole request. *)
Fixpoint send_retries (fuel : nat) (retries : nat) (rule : AuditRuleDataObject) : R (option bool) :=
  match retries with
  | O => ret (Some false)
  | Datatypes.S retries =>
      let* o := send_loop fuel rule in
      match o with
      | None => ret None
      | Some None => ret (Some false)
      | Some (Some bytes_sent) =>
          if bytes_sent =? NLMSG_SPACE (obj_size rule) then ret (Some true)
          else send_retries fuel retries rule
      end
  end.

Definition deleteAuditRule (fuel : nat) (rule_object : AuditRuleDataObject) : R (option bool) :=
  if MAX_AUDIT_MESSAGE_LENGTH <? NLMSG_SPACE (obj_size rule_object) then ret (Some false)
  else send_retries fuel 3 rule_object.

(** Waiting for the netlink: [None] is a failed [poll]. *)
Fixpoint poll_ready (retries : nat) : R (option bool) :=
  match retries with
  | O => ret (Some false)
  | Datatypes.S retries =>
      let* h := gets audit_netlink_handle_ in
      let* (st, pollin) := sys (poll h 4) in
      if res st =? 0 then poll_ready retries
      else if res st <? 0 then ret None
      else if (pollin : bool) then ret (Some true)
      else poll_ready retries
  end.

Inductive listing :=
  | Listed (rules : list AuditRuleDataObject)
  | ListFailed
  | ListUnfinished.

(** A successful read sets [read_retry] to 0, which the loop then increments. *)
Fixpoint list_rules (fuel : nat) (seq timeout : Z) (read_retry : nat)
    (rules : list AuditRuleDataObject) : R listing :=
  match fuel with
  | O => ret ListUnfinished
  | Datatypes.S fuel =>
      if negb (read_retry <? 3)%nat then ret (Listed rules)
      else
        let* now := sys unix_time in
        if timeout <? now then ret ListFailed
        else
          let* ready := poll_ready 3 in
          match ready with
          | None | Some false => ret ListFailed
          | Some true =>
              let* h := gets audit_netlink_handle_ in
              let* o := sys (audit_get_reply h) in
              match o with
              | None => list_rules fuel seq timeout (read_retry + 1) rules
              | Some reply =>
                  if negb (rr_seq reply =? u32 seq) then list_rules fuel seq timeout 1 rules
                  else if rr_type reply =? NLMSG_DONE then ret (Listed rules)
                  else if (rr_type reply =? NLMSG_ERROR) && negb (rr_error reply =? 0) then ret ListFailed
                  else if negb (rr_type reply =? AUDIT_LIST_RULES) then list_rules fuel seq timeout 1 rules
                  else list_rules fuel seq timeout 1
                         (rules ++ [mkRuleObject (sizeof_reply + rr_buflen reply) (rr_data reply)])
              end
          end
  end.

(** The number of rules that could not be deleted. *)
Fixpoint delete_rules (fuel : nat) (rules : list AuditRuleDataObject) (error_count : Z)
    : R (option Z) :=
  match rules with
  | [] => ret (Some error_count)
  | rule :: rules =>
      let* o := deleteAuditRule fuel rule in
      match o with
      | None => ret None
      | Some ok => delete_rules fuel rules (if (ok : bool) then error_count else error_count + 1)
      end
  end.

(** [None]: still busy when the fuel ran out. *)
Definition clearAuditConfiguration (fuel : nat) : R (option bool) :=
  let* h := gets audit_netlink_handle_ in
  let* seq := sys (audit_request_rules_list_data h) in
  if seq <=? 0 then ret (Some false)
  else
    let* now := sys unix_time in
    let* l := list_rules fuel seq (now + 5) 0 [] in
    match l with
    | ListUnfinished => ret None
    | ListFailed => ret (Some false)
    | Listed rules =>
        let* o := delete_rules fuel rules 0 in
        match o with
        | None => ret None
        | Some error_count => ret (Some (error_count =? 0))
        end
    end.

Definition restoreAuditServiceConfiguration : R unit :=
  let* h := gets audit_netlink_handle_ in
  let* rules := gets installed_rule_list_ in
  for_each rules (fun rule => sys (audit_delete_rule_data h rule) ;;; ret tt) ;;;
  modify (set_installed []) ;;;
  sys (audit_set_backlog_limit h 0) ;;;
  sys (audit_set_backlog_wait_time h 60000) ;;;
  sys (audit_set_failure h AUDIT_FAIL_PRINTK) ;;;
  sys (audit_set_enabled h AUDIT_DISABLED) ;;;
  ret tt.

Definition L_GetNetlinkStatus (netlink_handle : Z) : R NetlinkStatus :=
  if netlink_handle <=? 0 then ret NetlinkError
  else
    let* st := sys (audit_request_status netlink_handle) in
    if (res st <? 0) && negb (errno st =? ENOBUFS) then ret NetlinkError
    else
      let* enabled := sys (audit_is_enabled netlink_handle) in
      let* uid := sys getuid in
      ret (if (enabled =? AUDIT_IMMUTABLE) || negb (uid =? 0) || negb (audit_allow_config F)
           then ActiveImmutable
           else if enabled =? AUDIT_ENABLED then ActiveMutable
           else if enabled =? AUDIT_DISABLED then NetlinkDisabled
           else NetlinkError).

(** [audit_close] and [audit_netlink_handle_ = -1]. *)
Definition close_handle : R unit :=
  let* h := gets audit_netlink_handle_ in
  sys (audit_close h) ;;;
  modify (set_handle (-1)).

(** [None]: still busy in [clearAuditConfiguration]. *)
Definition acquireHandle (fuel : nat) : R (option NetlinkStatus) :=
  let* h := gets audit_netlink_handle_ in
  (if negb (h =? -1) then close_handle else ret tt) ;;;
  let* h := sys audit_open in
  modify (set_handle h) ;;;
  if h <=? 0 then modify (set_handle (-1)) ;;; ret (Some NetlinkError)
  else
    let* pid := sys getpid in
    let* owner := sys (audit_set_pid h pid) in
    if owner <? 0 then close_handle ;;; ret (Some NetlinkError)
    else
      let* netlink_status := L_GetNetlinkStatus h in
      let* enable := (if audit_allow_config F && negb (bool_decide (netlink_status = ActiveMutable)) &&
                         negb (bool_decide (netlink_status = ActiveImmutable))
                      then sys (audit_set_enabled h AUDIT_ENABLED) else ret 0) in
      if enable <? 0 then close_handle ;;; ret (Some NetlinkError)
      else if audit_allow_config F then
        let* cleared := (if audit_force_reconfigure F then clearAuditConfiguration fuel
                         else ret (Some true)) in
        match cleared with
        | None => ret None
        | Some false => modify (set_handle (-1)) ;;; ret (Some NetlinkError)
        | Some true =>
            let* configured := configureAuditService in
            ret (Some (if (configured : bool) then ActiveMutable else ActiveImmutable))
        end
      else ret (Some ActiveMutable).

(** The loop of [acquireMessages], with the room left in the buffer: the messages
    received and [reset_handle]. *)
Fixpoint receive_loop (room : nat) (acc : list netlink_message) : R (list netlink_message * bool) :=
  match room with
  | O => ret (acc, false)
  | Datatypes.S room =>
      let* stop := sys reader_interrupted in
      if (stop : bool) then ret (acc, false)
      else
        let* h := gets audit_netlink_handle_ in
        let* (st, pollin) := sys (poll h 2000) in
        if res st =? 0 then ret (acc, false)
        else if res st <? 0 then ret (acc, negb (errno st =? EINTR))
        else if negb pollin then ret (acc, false)
        else
          let* r := sys (recvfrom h) in
          if recv_len r <? 0 then ret (acc, true)
          else if negb (recv_addrlen r =? sizeof_sockaddr_nl) then ret (acc, true)
          else if negb (recv_nl_pid r =? 0) then ret (acc, true)
          else if negb (NLMSG_OK (recv_msg r) (recv_len r)) then ret (acc, true)
          else receive_loop room (acc ++ [recv_msg r])
  end.

(** [read_buffer_(4096U)]. *)
Definition read_buffer_size : nat := 4096.

Definition acquireMessages : R bool :=
  let* (messages, reset_handle) := receive_loop read_buffer_size [] in
  (match messages with
   | [] => ret tt
   | _ => modify (fun r => let c := rd_context r in
            set_context (mkContext (unprocessed_records c ++ messages) (processed_events c)
                           (acquire_handle c)) r)
   end) ;;;
  ret (negb reset_handle).

Definition request_acquire (b : bool) : R unit :=
  modify (fun r => set_context (set_acquire b (rd_context r)) r).

Definition status_request_countdown : Z := 1000.

(** The [if (acquire_handle)] block: [None] is [continue]. An acquisition that did
    not finish within the fuel is left to the next turn. *)
Definition ensure_handle (fuel : nat) (counter : Z) : R (option Z) :=
  let* acquire := gets (fun r => acquire_handle (rd_context r)) in
  if negb acquire then ret (Some counter)
  else
    let* o := acquireHandle fuel in
    match o with
    | Some ActiveMutable | Some ActiveImmutable =>
        request_acquire false ;;; ret (Some status_request_countdown)
    | Some NetlinkDisabled | Some NetlinkError => sys (sleep_for 5) ;;; ret None
    | None => ret None
    end.

Definition status_request (counter : Z) : R Z :=
  if counter =? 0 then
    let* h := gets audit_netlink_handle_ in
    let* st := sys (audit_request_status h) in
    (if (res st <=? 0) && negb (errno st =? ENOBUFS) then request_acquire true else ret tt) ;;;
    ret status_request_countdown
  else ret (counter - 1).

(** [n] turns of the loop of [start]. *)
Fixpoint reader_loop (n : nat) (counter : Z) : R unit :=
  match n with
  | O => ret tt
  | Datatypes.S n =>
      let* stop := sys reader_interrupted in
      if (stop : bool) then ret tt
      else
        let* o := ensure_handle n counter in
        match o with
        | None => reader_loop n counter
        | Some counter =>
            let* counter := status_request counter in
            let* ok := acquireMessages in
            (if (ok : bool) then ret tt else request_acquire true) ;;;
            reader_loop n counter
        end
  end.

Definition Reader_start (n : nat) : R unit := reader_loop n 0.

Definition Reader_stop : R unit :=
  let* h := gets audit_netlink_handle_ in
  if h =? -1 then ret tt
  else
    restoreAuditServiceConfiguration ;;;
    close_handle.

End AuditReader.

(** * Facts about the audit netlink reader

    The handle and the status of [acquireHandle] agree; a turn receives at most
    one buffer of messages and keeps their order; the rules installed are those
    the service took; a configuration that holds a rule is never cleared. *)
Local Open Scope Z_scope.

Section ReaderFacts.
Context {S : Type} {L : Libaudit S} (F : ReaderFlags).
Context (socket_syscalls process_syscalls fim_syscalls : list Z).

Abbreviation reader := (Reader S).

(** A call to the service changes nothing of the reader. *)
Lemma post_sys {A} (m : M S A) (Q : A -> reader -> Prop) (r : reader) :
  (forall a s, Q a (set_rd_host s r)) -> post (sys m) Q r.
Proof. unfold post, sys, zoom. intros H. by destruct (m (rd_host r)) as [[a|e] s]. Qed.

(** The reader is at [h]. *)
Definition at_handle (h : Z) (r : reader) : Prop := audit_netlink_handle_ r = h.

(** [m] leaves the handle as it is. *)
Definition keeps_handle {A} (m : M reader A) : Prop :=
  forall h r, at_handle h r -> post m (fun _ => at_handle h) r.

Lemma keeps_sys {A} (m : M S A) : keeps_handle (sys m).
Proof. intros h r Hr. by apply post_sys. Qed.

Lemma handle_kept_ret {A} (a : A) : keeps_handle (ret a).
Proof. intros h r Hr. exact Hr. Qed.

Lemma handle_kept_gets {A} (f : reader -> A) : keeps_handle (gets f).
Proof. intros h r Hr. exact Hr. Qed.

Lemma handle_kept_bind {A B} (m : M reader A) (k : A -> M reader B) :
  keeps_handle m -> (forall a, keeps_handle (k a)) -> keeps_handle (bind m k).
Proof.
  intros Hm Hk h r Hr. apply post_bind. eapply post_mono; [by apply Hm|].
  intros a s Hs. by apply Hk.
Qed.

Lemma handle_kept_modify (f : reader -> reader) :
  (forall r, audit_netlink_handle_ (f r) = audit_netlink_handle_ r) -> keeps_handle (modify f).
Proof. intros Hf h r Hr. unfold post, modify, at_handle. by rewrite Hf. Qed.

Lemma handle_kept_if {A} (b : bool) (m1 m2 : M reader A) :
  keeps_handle m1 -> keeps_handle m2 -> keeps_handle (if b then m1 else m2).
Proof. by destruct b. Qed.

Lemma handle_kept_for_each {A} (l : list A) (f : A -> M reader unit) :
  (forall x, keeps_handle (f x)) -> keeps_handle (for_each l f).
Proof. intros Hf h r Hr. apply post_for_each; [|done]. intros x s Hs. by apply Hf. Qed.

Ltac keeps := repeat (first
  [ apply keeps_sys | apply handle_kept_ret | apply handle_kept_gets | apply handle_kept_bind; intros | apply handle_kept_if
  | apply handle_kept_for_each; intros | apply handle_kept_modify; done | progress case_match ]).

Lemma keeps_configure : keeps_handle (configureAuditService F socket_syscalls process_syscalls fim_syscalls).
Proof. unfold configureAuditService, insert_all, add_rule. keeps. Qed.

Lemma keeps_poll n : keeps_handle (poll_ready n).
Proof. induction n; cbn [poll_ready]; keeps; done. Qed.

Lemma keeps_list fuel seq timeout retry rules : keeps_handle (list_rules fuel seq timeout retry rules).
Proof.
  revert retry rules. induction fuel as [|fuel IH]; intros retry rules; cbn [list_rules]; [keeps|].
  keeps; first [apply keeps_poll | apply IH].
Qed.

Lemma keeps_send_loop fuel rule : keeps_handle (send_loop fuel rule).
Proof. induction fuel; cbn [send_loop]; keeps; done. Qed.

Lemma keeps_delete_rules fuel rules n : keeps_handle (delete_rules fuel rules n).
Proof.
  revert n. induction rules as [|rule rules IH]; intros n; cbn [delete_rules]; [keeps|].
  unfold deleteAuditRule. keeps; first [apply keeps_send_loop | apply IH].
Qed.

Lemma keeps_clear fuel : keeps_handle (clearAuditConfiguration fuel).
Proof.
  unfold clearAuditConfiguration. keeps; first [apply keeps_list | apply keeps_delete_rules].
Qed.

Lemma keeps_status h : keeps_handle (L_GetNetlinkStatus F h).
Proof. unfold L_GetNetlinkStatus. keeps. Qed.

(** The status a caller gets and the handle it finds. *)
Definition agreed (o : option NetlinkStatus) (r : reader) : Prop :=
  match o with
  | Some ActiveMutable => 0 < audit_netlink_handle_ r
  | Some NetlinkError => audit_netlink_handle_ r = -1
  | Some _ => False
  | None => 0 < audit_netlink_handle_ r
  end.

Lemma post_close (Q : unit -> reader -> Prop) r :
  (forall s, Q tt (set_handle (-1) (set_rd_host s r))) -> post close_handle Q r.
Proof. intros H. apply post_bind, post_gets, post_bind, post_sys. intros _ s. by apply post_modify. Qed.

Lemma post_closed o r : o = Some NetlinkError -> post (close_handle ;;; ret o) agreed r.
Proof. intros ->. by apply post_bind, post_close. Qed.

Lemma post_keeps {A} (m : M reader A) (Q : A -> reader -> Prop) r :
  keeps_handle m ->
  (forall a r', audit_netlink_handle_ r' = audit_netlink_handle_ r -> Q a r') -> post m Q r.
Proof. intros Hm HQ. eapply post_mono; [by apply (Hm (audit_netlink_handle_ r))|]. auto. Qed.

(** With the handle open and owned, what [acquireHandle] does. *)
Lemma post_configured fuel r : 0 < audit_netlink_handle_ r ->
  post (let* cleared := (if audit_force_reconfigure F then clearAuditConfiguration fuel
                         else ret (Some true)) in
        match cleared with
        | None => ret None
        | Some false => modify (set_handle (-1)) ;;; ret (Some NetlinkError)
        | Some true =>
            let* configured := configureAuditService F socket_syscalls process_syscalls fim_syscalls in
            ret (Some (if (configured : bool) then ActiveMutable else ActiveImmutable))
        end) agreed r.
Proof.
  intros Hh. apply post_bind, post_keeps; [apply handle_kept_if; [apply keeps_clear | apply handle_kept_ret]|].
  intros [[|]|] r' Hr'; [|done|cbn; lia].
  apply post_bind, post_intro. intros b r2 E. unfold configureAuditService in E.
  assert (b = true) as ->.
  { repeat match goal with H : bind _ _ _ = (Ok _, _) |- _ => apply bind_Ok in H as (? & ? & ? & H) end.
    by unfold ret in E; simplify_eq. }
  fold (configureAuditService F socket_syscalls process_syscalls fim_syscalls) in E.
  pose proof (post_Ok _ _ _ _ _ (keeps_configure _ _ Hr') E) as Hr2. cbn.
  unfold at_handle in Hr2. lia.
Qed.

(** whatever the service answers, [acquireHandle] ends with an open handle
    and ActiveMutable, or without a handle and Error. Disabled and
    ActiveImmutable are never returned, so the reader never waits for a disabled
    service. *)
Theorem acquired_handle_matches_status fuel (r : reader) :
  post (acquireHandle F socket_syscalls process_syscalls fim_syscalls fuel) agreed r.
Proof.
  unfold acquireHandle. apply post_bind, post_gets, post_bind.
  eapply (post_mono _ (fun _ _ => True)).
  { destruct (negb _); [by apply post_close | by apply post_ret]. }
  intros _ r1 _. apply post_bind, post_sys. intros h s. apply post_bind, post_modify.
  destruct (Z.leb_spec h 0) as [Hh|Hh]; [done|].
  apply post_bind, post_sys. intros pid s1. apply post_bind, post_sys. intros owner s2.
  destruct (owner <? 0); [by apply post_closed|].
  apply post_bind, post_keeps; [apply keeps_status|]. intros st r2 Hr2. cbn in Hr2.
  apply post_bind, post_keeps; [apply handle_kept_if; [apply keeps_sys | apply handle_kept_ret]|].
  intros enable r3 Hr3. destruct (enable <? 0); [by apply post_closed|].
  destruct (audit_allow_config F); [apply post_configured; lia | cbn; lia].
Qed.

(** *** Clearing the configuration *)

(** A reply embeds a whole message, so it is larger than one. *)
Lemma deleteAuditRule_refused fuel rule :
  MAX_AUDIT_MESSAGE_LENGTH <= obj_size rule ->
  deleteAuditRule fuel rule = (ret (Some false) : M reader _).
Proof.
  intros Hs. unfold deleteAuditRule. replace (_ <? _) with true; [done|].
  symmetry. apply Z.ltb_lt. unfold NLMSG_SPACE.
  pose proof (Z.div_mod (obj_size rule + 16 + 3) 4 ltac:(lia)).
  pose proof (Z.mod_pos_bound (obj_size rule + 16 + 3) 4 ltac:(lia)). lia.
Qed.

Lemma delete_rules_refused fuel rules n (r : reader) :
  Forall (fun rule => MAX_AUDIT_MESSAGE_LENGTH <= obj_size rule) rules ->
  delete_rules fuel rules n r = (Ok (Some (n + Z.of_nat (length rules))), r).
Proof.
  intros Hl. revert n. induction Hl as [|rule rules Hr Hl IH]; intros n; cbn [delete_rules length].
  - by rewrite Z.add_0_r.
  - rewrite deleteAuditRule_refused, bind_ret, IH by done. do 3 f_equal. lia.
Qed.

Lemma list_rules_sizes fuel seq timeout retry rules (r : reader) :
  MAX_AUDIT_MESSAGE_LENGTH <= sizeof_reply ->
  (forall h s, post (audit_get_reply h) (fun o _ => forall x, o = Some x -> 0 <= rr_buflen x) s) ->
  Forall (fun rule => MAX_AUDIT_MESSAGE_LENGTH <= obj_size rule) rules ->
  post (list_rules fuel seq timeout retry rules)
    (fun l _ => forall rs, l = Listed rs ->
       Forall (fun rule => MAX_AUDIT_MESSAGE_LENGTH <= obj_size rule) rs) r.
Proof.
  intros Hs Hb. revert retry rules r. induction fuel as [|fuel IH]; intros retry rules r Hl; cbn [list_rules].
  { by apply post_ret. }
  destruct (negb (retry <? 3)%nat); [apply post_ret; by intros rs [= <-]|].
  apply post_bind, post_sys. intros now s. destruct (timeout <? now); [by apply post_ret|].
  apply post_bind. eapply (post_mono _ (fun _ _ => True));
    [by apply post_keeps; [apply keeps_poll|] |].
  intros [[|]|] r1 _; [|by apply post_ret..].
  apply post_bind, post_gets, post_bind, post_intro. intros o r2 E.
  assert (forall x, o = Some x -> 0 <= rr_buflen x) as Hx.
  { unfold sys, zoom in E.
    destruct (audit_get_reply (audit_netlink_handle_ r1) (rd_host r1)) as [ro s2] eqn:E2.
    simplify_eq. exact (post_Ok _ _ _ _ _ (Hb _ _) E2). }
  destruct o as [reply|]; [|by apply IH].
  specialize (Hx reply eq_refl). repeat case_match; try (by apply IH); try (by apply post_ret).
  - apply post_ret. by intros rs [= <-].
  - apply IH. apply Forall_app_2; [done|]. repeat constructor. cbn. lia.
Qed.

(** a size check makes a forced reconfiguration impossible: the object kept
    for a rule is at least as large as a whole reply, which is more than the
    largest request, so no rule is ever deleted and clearing succeeds only when
    the service listed no rule at all. *)
Theorem clearing_never_deletes_a_rule fuel seq timeout rules (r : reader) :
  MAX_AUDIT_MESSAGE_LENGTH <= sizeof_reply ->
  (forall h s, post (audit_get_reply h) (fun o _ => forall x, o = Some x -> 0 <= rr_buflen x) s) ->
  post (list_rules fuel seq timeout 0 [])
    (fun l r' => l = Listed rules ->
       delete_rules fuel rules 0 r' = (Ok (Some (Z.of_nat (length rules))), r')) r.
Proof.
  intros Hs Hb. eapply post_mono; [by apply (list_rules_sizes _ _ _ _ []) | ].
  intros l r' Hl ->. by apply delete_rules_refused, Hl.
Qed.

(** *** Receiving *)

Lemma receive_loop_spec room acc (r : reader) :
  post (receive_loop room acc)
    (fun p r' => exists l, p.1 = acc ++ l /\ (length l <= room)%nat /\
       rd_context r' = rd_context r) r.
Proof.
  revert acc r. induction room as [|room IH]; intros acc r; cbn [receive_loop].
  { apply post_ret. exists []. by rewrite app_nil_r. }
  assert (forall (b : bool) (r' : reader), rd_context r' = rd_context r ->
    post (ret (acc, b)) (fun p (r' : reader) => exists l, p.1 = acc ++ l /\ (length l <= Datatypes.S room)%nat /\
       rd_context r' = rd_context r) r') as Hend.
  { intros b r' E. apply post_ret. exists []. rewrite app_nil_r. split; [done|]. cbn. split; [lia | done]. }
  apply post_bind, post_sys. intros stop s1. destruct stop; [by apply Hend|].
  apply post_bind, post_gets, post_bind, post_sys. intros [st pollin] s2.
  destruct (res st =? 0); [by apply Hend|]. destruct (res st <? 0); [by apply Hend|].
  destruct pollin; [|by apply Hend]. cbn [negb].
  apply post_bind, post_sys. intros rc s3.
  repeat (destruct (_ : bool); [by apply Hend|]).
  eapply post_mono; [apply IH|]. intros p r' (l & E1 & E2 & E3).
  exists (recv_msg rc :: l). rewrite E1, <- app_assoc. split; [done|]. cbn. split; [lia | done].
Qed.

(** a turn of the reader appends the messages it received to the queue in
    their order, at most a buffer of 4096, and touches nothing else of the
    shared state. *)
Theorem received_messages_are_queued (r : reader) :
  post acquireMessages
    (fun _ r' => exists l, (length l <= 4096)%nat /\
       unprocessed_records (rd_context r') = unprocessed_records (rd_context r) ++ l /\
       processed_events (rd_context r') = processed_events (rd_context r) /\
       acquire_handle (rd_context r') = acquire_handle (rd_context r)) r.
Proof.
  unfold acquireMessages. apply post_bind. eapply post_mono; [apply receive_loop_spec|].
  intros [messages reset] r' (l & E & Hl & Hc). cbn in E. subst messages. unfold read_buffer_size in Hl.
  destruct l as [|m l]; apply post_bind.
  - apply post_ret, post_ret. exists []. rewrite app_nil_r, Hc. split; [cbn; lia | done].
  - apply post_modify, post_ret. exists (m :: l). cbn. rewrite Hc. done.
Qed.

(** *** Rules *)

Lemma add_rule_run (result : Z -> Z) n (r : reader) :
  (forall h n s, exists s', audit_add_rule_data h n s = (Ok (result n), s')) ->
  exists s, add_rule F n r =
    (Ok tt, set_installed (installed_rule_list_ r ++
              (if (0 <=? result n) || audit_force_unconfigure F then [n] else []))
              (set_rd_host s r)).
Proof.
  intros Ha. unfold add_rule. rewrite bind_gets.
  destruct (Ha (audit_netlink_handle_ r) n (rd_host r)) as [s Hs]. exists s.
  unfold bind, sys, zoom. rewrite Hs. destruct (_ || _); [done|].
  rewrite app_nil_r. by destruct r.
Qed.

(** The rules added by a pass are those the service accepted, or all of them when
    unconfiguring is forced, each once and in the order of the system calls. *)
Lemma installed_rules_are_accepted (result : Z -> Z) l (r : reader) :
  (forall h n s, exists s', audit_add_rule_data h n s = (Ok (result n), s')) ->
  exists s, for_each l (add_rule F) r =
    (Ok tt, set_installed (installed_rule_list_ r ++
       filter (fun n => 0 <= result n \/ audit_force_unconfigure F = true) l) (set_rd_host s r)).
Proof.
  intros Ha. revert r. induction l as [|n l IH]; intros r; cbn [for_each].
  - exists (rd_host r). rewrite app_nil_r. by destruct r.
  - destruct (add_rule_run result n r Ha) as [s Hs].
    rewrite (bind_run _ _ _ _ _ Hs). edestruct IH as [s' Hs']. exists s'. rewrite Hs'.
    enough ((if (0 <=? result n) || audit_force_unconfigure F then [n] else []) ++
            filter (fun n => 0 <= result n \/ audit_force_unconfigure F = true) l =
            filter (fun n => 0 <= result n \/ audit_force_unconfigure F = true) (n :: l)) as <-
      by (cbn [installed_rule_list_ set_installed]; by rewrite <- app_assoc).
    rewrite filter_cons. destruct (decide _) as [Hd|Hd], (Z.leb_spec 0 (result n)),
      (audit_force_unconfigure F) eqn:E; try done; cbn; intuition lia || naive_solver lia.
Qed.

End ReaderFacts.
