(* ===== verification/ProcessFileEvents.v ===== *)
(** * File integrity monitoring from audit events

    osquery/tables/events/linux/process_file_events.cpp and its header: the
    descriptor tables of the processes, the inode table, the handler of each
    system call and the rows they emit. Events come from AuditRecords.v; the batch of rows
    goes to the subscriber of Events.v. [boost::filesystem::path::normalize] is a
    parameter. *)
From S2P Require Import Prelude Boost Conversions Query AuditRecords.
Local Open Scope Z_scope.

(** ** System call numbers (asm/unistd_64.h) and flags *)

Definition NR_read : Z := 0.
Definition NR_write : Z := 1.
Definition NR_open : Z := 2.
Definition NR_close : Z := 3.
Definition NR_mmap : Z := 9.
Definition NR_pread64 : Z := 17.
Definition NR_pwrite64 : Z := 18.
Definition NR_readv : Z := 19.
Definition NR_writev : Z := 20.
Definition NR_dup : Z := 32.
Definition NR_dup2 : Z := 33.
Definition NR_clone : Z := 56.
Definition NR_fork : Z := 57.
Definition NR_vfork : Z := 58.
Definition NR_truncate : Z := 76.
Definition NR_ftruncate : Z := 77.
Definition NR_rename : Z := 82.
Definition NR_creat : Z := 85.
Definition NR_link : Z := 86.
Definition NR_unlink : Z := 87.
Definition NR_symlink : Z := 88.
Definition NR_mknod : Z := 133.
Definition NR_openat : Z := 257.
Definition NR_mknodat : Z := 259.
Definition NR_unlinkat : Z := 263.
Definition NR_renameat : Z := 264.
Definition NR_linkat : Z := 265.
Definition NR_symlinkat : Z := 266.
Definition NR_dup3 : Z := 292.
Definition NR_preadv : Z := 295.
Definition NR_pwritev : Z := 296.
Definition NR_name_to_handle_at : Z := 303.
Definition NR_open_by_handle_at : Z := 304.
Definition NR_renameat2 : Z := 316.

Definition O_TRUNC : Z := 512.
Definition PROT_WRITE : Z := 2.

(** [ProcessFileEventSubscriber::GetSyscallSet]. *)
Definition fim_syscall_set : list Z :=
  [NR_link; NR_linkat; NR_symlink; NR_symlinkat; NR_unlink; NR_unlinkat; NR_rename; NR_renameat;
   NR_renameat2; NR_creat; NR_mknod; NR_mknodat; NR_open; NR_openat; NR_open_by_handle_at;
   NR_name_to_handle_at; NR_close; NR_dup; NR_dup2; NR_dup3; NR_pread64; NR_preadv; NR_read;
   NR_readv; NR_mmap; NR_write; NR_writev; NR_pwrite64; NR_pwritev; NR_truncate; NR_ftruncate;
   NR_clone; NR_fork; NR_vfork].

Definition one_of (l : list Z) (n : Z) : bool := existsb (Z.eqb n) l.

(** ** Data *)

Inductive InodeType := InoFile | InoFolder.

Record AuditdFimInodeDescriptor := mkInode { ino_type : InodeType; ino_path : string }.

Inductive OperationType := OpOpen | OpOpenTruncate | OpRead | OpWrite.

#[export] Instance OperationType_eq_dec : EqDecision OperationType.
Proof. solve_decision. Defined.

Record AuditdFimFdDescriptor := mkFd { fd_inode : Z; last_operation : OperationType }.

Record AuditdFimFdMap := mkFdMap {
  fd_process_id_ : Z;
  warning_suppression_timer_ : Z;
  fd_data_ : gmap Z AuditdFimFdDescriptor;
}.

Record AuditdFimProcessMap := mkProcessMap {
  warning_suppression_filter_ : gmap Z Z;
  proc_data_ : gmap Z AuditdFimFdMap;
}.

Record AuditdFimContext := mkFim {
  included_path_list : list string;
  process_map : AuditdFimProcessMap;
  inode_map : gmap Z AuditdFimInodeDescriptor;
}.

Record AuditdFimPathRecordItem := mkPathItem {
  item_index : Z;
  item_inode : Z;
  item_path : string;
}.

(** What [operator[]] inserts for a missing index. *)
Definition no_item : AuditdFimPathRecordItem := mkPathItem 0 0 "".

Inductive IOType := IOOpen | IOOpenTruncate | IORead | IOWrite | IOClose | IOUnlink.

#[export] Instance IOType_eq_dec : EqDecision IOType.
Proof. solve_decision. Defined.

(** [SyscallData], a variant; the default is an empty pair of paths. *)
Inductive FimData :=
  | SrcDestData (source destination : string)
  | IOData (target : string) (type : IOType) (state_changed : bool).

Inductive SyscallType :=
  | TyLink | TySymlink | TyUnlink | TyRename | TyOpen | TyOpenTruncate | TyClose | TyDup | TyRead
  | TyWrite | TyTruncate | TyMmap | TyNameToHandleAt | TyCloneOrFork.

Record AuditdFimSyscallContext := mkSc {
  sc_type : SyscallType;
  sc_data : SyscallAuditEventData;
  partial : bool;
  cwd : string;
  path_record_map : gmap Z AuditdFimPathRecordItem;
  return_value : Z;
  syscall_data : FimData;
  mmap_record_present : bool;
  mmap_file_descriptor : Z;
  mmap_prot_flags : Z;
}.

(** [AuditdFimSyscallContext syscall_context = {}], with the fields copied from the
    event; the first enumerator is [Link]. *)
Definition fresh_context (d : SyscallAuditEventData) : AuditdFimSyscallContext :=
  mkSc TyLink d false "" ∅ 0 (SrcDestData "" "") false 0 0.

Definition set_type (t : SyscallType) (c : AuditdFimSyscallContext) : AuditdFimSyscallContext :=
  mkSc t (sc_data c) (partial c) (cwd c) (path_record_map c) (return_value c) (syscall_data c)
    (mmap_record_present c) (mmap_file_descriptor c) (mmap_prot_flags c).
Definition set_partial (c : AuditdFimSyscallContext) : AuditdFimSyscallContext :=
  mkSc (sc_type c) (sc_data c) true (cwd c) (path_record_map c) (return_value c) (syscall_data c)
    (mmap_record_present c) (mmap_file_descriptor c) (mmap_prot_flags c).
Definition set_cwd (s : string) (c : AuditdFimSyscallContext) : AuditdFimSyscallContext :=
  mkSc (sc_type c) (sc_data c) (partial c) s (path_record_map c) (return_value c) (syscall_data c)
    (mmap_record_present c) (mmap_file_descriptor c) (mmap_prot_flags c).
Definition set_paths (m : gmap Z AuditdFimPathRecordItem) (c : AuditdFimSyscallContext)
    : AuditdFimSyscallContext :=
  mkSc (sc_type c) (sc_data c) (partial c) (cwd c) m (return_value c) (syscall_data c)
    (mmap_record_present c) (mmap_file_descriptor c) (mmap_prot_flags c).
Definition set_return (v : Z) (c : AuditdFimSyscallContext) : AuditdFimSyscallContext :=
  mkSc (sc_type c) (sc_data c) (partial c) (cwd c) (path_record_map c) v (syscall_data c)
    (mmap_record_present c) (mmap_file_descriptor c) (mmap_prot_flags c).
Definition set_data (d : FimData) (c : AuditdFimSyscallContext) : AuditdFimSyscallContext :=
  mkSc (sc_type c) (sc_data c) (partial c) (cwd c) (path_record_map c) (return_value c) d
    (mmap_record_present c) (mmap_file_descriptor c) (mmap_prot_flags c).
Definition set_mmap (present : bool) (fd flags : Z) (c : AuditdFimSyscallContext)
    : AuditdFimSyscallContext :=
  mkSc (sc_type c) (sc_data c) (partial c) (cwd c) (path_record_map c) (return_value c) (syscall_data c)
    present fd flags.

Definition sc_number (c : AuditdFimSyscallContext) : Z := syscall_number (sc_data c).
Definition sc_pid (c : AuditdFimSyscallContext) : Z := process_id (sc_data c).

(** ** Maps with a bounded number of entries *)

(** [data_.begin()]: the smallest key. *)
Definition first_key {A} (m : gmap Z A) : option Z := head (merge_sort Z.le (elements (dom m))).

Definition erase_first {A} (m : gmap Z A) : gmap Z A :=
  match first_key m with Some k => delete k m | None => m end.

(** *** [AuditdFimInodeMap] *)

Definition inode_limit : nat := 20000.

Definition ino_save (inode : Z) (type : InodeType) (path : string)
    (m : gmap Z AuditdFimInodeDescriptor) : gmap Z AuditdFimInodeDescriptor :=
  let m := <[inode := mkInode type path]> m in
  if (inode_limit <? size m)%nat then erase_first m else m.

(** The constructor: the inodes of the standard streams are their descriptors. *)
Definition fresh_inode_map : gmap Z AuditdFimInodeDescriptor :=
  ino_save 2 InoFile "stderr" (ino_save 1 InoFile "stdout" (ino_save 0 InoFile "stdin" ∅)).

Definition ino_takeAndRemove (inode : Z) (m : gmap Z AuditdFimInodeDescriptor)
    : option AuditdFimInodeDescriptor * gmap Z AuditdFimInodeDescriptor :=
  match m !! inode with
  | None => (None, m)
  | Some d => (Some d, delete inode m)
  end.

Section Fim.
Context `{BoostHex}.
(** [boostfs::path(s).normalize().string()]. *)
Context (path_normalize : string -> string).
(** The flags, the time of day and the uptime of the host. *)
Context (FLAGS_audit_show_partial_fim_events FLAGS_audit_fim_show_accesses
         FLAGS_audit_show_untracked_res_warnings : bool).
Context (current_time getUptime : Z).

(** *** [AuditdFimFdMap] *)

Definition setProcessId (pid : Z) (m : AuditdFimFdMap) : AuditdFimFdMap :=
  mkFdMap pid (warning_suppression_timer_ m) (fd_data_ m).

Definition fresh_fd_map (pid : Z) : AuditdFimFdMap := mkFdMap pid 0 ∅.

Definition with_fds (d : gmap Z AuditdFimFdDescriptor) (m : AuditdFimFdMap) : AuditdFimFdMap :=
  mkFdMap (fd_process_id_ m) (warning_suppression_timer_ m) d.

Definition printUntrackedFdWarning (m : AuditdFimFdMap) : AuditdFimFdMap :=
  if negb FLAGS_audit_show_untracked_res_warnings then m
  else if 300 <? current_time - warning_suppression_timer_ m
  then mkFdMap (fd_process_id_ m) current_time (fd_data_ m)
  else m.

Definition fd_getReference (fd : Z) (m : AuditdFimFdMap) : option AuditdFimFdDescriptor * AuditdFimFdMap :=
  match fd_data_ m !! fd with
  | None => (None, printUntrackedFdWarning m)
  | Some d => (Some d, m)
  end.

(** [std::unordered_map::insert] keeps the entry that is there. *)
Definition insert_new {A} (k : Z) (v : A) (m : gmap Z A) : gmap Z A :=
  match m !! k with Some _ => m | None => <[k := v]> m end.

Definition fd_duplicate (fd new_fd : Z) (m : AuditdFimFdMap) : bool * AuditdFimFdMap :=
  match fd_data_ m !! fd with
  | None => (false, printUntrackedFdWarning m)
  | Some d => (true, with_fds (insert_new new_fd d (fd_data_ m)) m)
  end.

Definition fd_takeAndRemove (fd : Z) (m : AuditdFimFdMap) : option AuditdFimFdDescriptor * AuditdFimFdMap :=
  match fd_data_ m !! fd with
  | None => (None, printUntrackedFdWarning m)
  | Some d => (Some d, with_fds (delete fd (fd_data_ m)) m)
  end.

Definition fd_save (fd inode : Z) (op : OperationType) (m : AuditdFimFdMap) : AuditdFimFdMap :=
  with_fds (insert_new fd (mkFd inode op) (fd_data_ m)) m.

(** *** [AuditdFimProcessMap] *)

Definition with_procs (d : gmap Z AuditdFimFdMap) (m : AuditdFimProcessMap) : AuditdFimProcessMap :=
  mkProcessMap (warning_suppression_filter_ m) d.

Definition printUntrackedPidWarning (pid : Z) (m : AuditdFimProcessMap) : AuditdFimProcessMap :=
  if negb FLAGS_audit_show_untracked_res_warnings then m
  else match warning_suppression_filter_ m !! pid with
       | Some _ => m
       | None =>
           let f := <[pid := current_time]> (warning_suppression_filter_ m) in
           mkProcessMap (if (2000 <? size f)%nat then erase_first f else f) (proc_data_ m)
       end.

(** Run an operation on the table of a process. *)
Definition in_process {A} (pid : Z) (none : A) (f : AuditdFimFdMap -> A * AuditdFimFdMap)
    (m : AuditdFimProcessMap) : A * AuditdFimProcessMap :=
  match proc_data_ m !! pid with
  | None => (none, printUntrackedPidWarning pid m)
  | Some fds => let (a, fds) := f fds in (a, with_procs (<[pid := fds]> (proc_data_ m)) m)
  end.

Definition pm_getReference (pid fd : Z) : AuditdFimProcessMap -> option AuditdFimFdDescriptor * AuditdFimProcessMap :=
  in_process pid None (fd_getReference fd).

Definition pm_duplicate (pid fd new_fd : Z) : AuditdFimProcessMap -> bool * AuditdFimProcessMap :=
  in_process pid false (fd_duplicate fd new_fd).

Definition pm_takeAndRemove (pid fd : Z) : AuditdFimProcessMap -> option AuditdFimFdDescriptor * AuditdFimProcessMap :=
  in_process pid None (fd_takeAndRemove fd).

Definition pm_create (pid : Z) (m : AuditdFimProcessMap) : AuditdFimProcessMap :=
  match proc_data_ m !! pid with
  | Some fds => with_procs (<[pid := with_fds ∅ fds]> (proc_data_ m)) m
  | None => with_procs (<[pid := fresh_fd_map pid]> (proc_data_ m)) m
  end.

Definition pm_clone (old_pid new_pid : Z) (m : AuditdFimProcessMap) : bool * AuditdFimProcessMap :=
  match proc_data_ m !! old_pid with
  | None => (false, printUntrackedPidWarning old_pid m)
  | Some fds => (true, with_procs (insert_new new_pid (setProcessId new_pid fds) (proc_data_ m)) m)
  end.

Definition process_limit : nat := 4096.

(** A write through the descriptor a reference points to. *)
Definition pm_set_operation (pid fd : Z) (op : OperationType) (m : AuditdFimProcessMap) : AuditdFimProcessMap :=
  with_procs (alter (fun fds => with_fds (alter (fun d => mkFd (fd_inode d) op) fd (fd_data_ fds)) fds)
                pid (proc_data_ m)) m.

(** When the table is full the smallest process id is erased; if that is the one
    just inserted, the function goes on with an iterator to the erased entry, which
    is undefined ([None]). *)
Definition pm_save (fd pid inode : Z) (op : OperationType) (m : AuditdFimProcessMap)
    : option AuditdFimProcessMap :=
  match proc_data_ m !! pid with
  | Some fds => Some (with_procs (<[pid := fd_save fd inode op fds]> (proc_data_ m)) m)
  | None =>
      let d := <[pid := fresh_fd_map pid]> (proc_data_ m) in
      let d := if (process_limit <? size d)%nat then erase_first d else d in
      match d !! pid with
      | None => None
      | Some fds => Some (with_procs (<[pid := fd_save fd inode op fds]> d) m)
      end
  end.

(** ** Paths and rows *)

(** Surrounding quotes are removed. *)
Definition unquote (s : string) : string :=
  if bool_decide (char_at s 0 = quote) then String.substring 1 (String.length s - 2) s else s.

Definition NormalizePath (cwd path : string) : string :=
  let translated_path := unquote path in
  let translated_path :=
    if negb (bool_decide (char_at translated_path 0 = "/"%char))
    then unquote cwd +:+ "/" +:+ translated_path else translated_path in
  path_normalize translated_path.

(** The operation column, and whether it is a write. *)
Definition io_operation (type : IOType) : string * bool :=
  match type with
  | IOOpen => ("open", false)
  | IOOpenTruncate => ("open+truncate", true)
  | IORead => ("read", false)
  | IOWrite => ("write", true)
  | IOUnlink => ("unlink", true)
  | IOClose => ("close", false)
  end.

(** The columns that depend on the kind of system call, and whether it writes.
    [boost::get] of the wrong alternative throws inside a [noexcept] function. *)
Definition operation_columns (c : AuditdFimSyscallContext) : result (option (Row * bool)) :=
  match sc_type c with
  | TySymlink | TyRename | TyLink =>
      match syscall_data c with
      | IOData _ _ _ => Throw AssertFailure
      | SrcDestData source destination =>
          let operation := match sc_type c with
                           | TySymlink => "symlink" | TyRename => "rename" | _ => "link" end in
          Ok (Some ({["operation" := operation; "path" := source; "dest_path" := destination]}, true))
      end
  | TyDup | TyNameToHandleAt | TyCloneOrFork => Ok None
  | _ =>
      match syscall_data c with
      | SrcDestData _ _ => Throw AssertFailure
      | IOData target type state_changed =>
          if negb state_changed then Ok None
          else
            let (operation, write) := io_operation type in
            Ok (Some ({["operation" := operation; "path" := target]}, write))
      end
  end.

Definition EmitRowFromSyscallContext (fim : AuditdFimContext) (c : AuditdFimSyscallContext)
    : result (option Row) :=
  let included p := bool_decide (p ∈ included_path_list fim) in
  if negb FLAGS_audit_show_partial_fim_events && partial c then Ok None
  else match operation_columns c with
       | Throw e => Throw e
       | Ok None => Ok None
       | Ok (Some (row, is_write_operation)) =>
           let include_event :=
             included (default "" (row !! "path")) ||
             match row !! "dest_path" with Some d => included d | None => false end in
           if negb include_event then Ok None
           else if negb FLAGS_audit_fim_show_accesses && negb is_write_operation then Ok None
           else
             let d := sc_data c in
             let row := <["pid" := to_string (u64 (process_id d))]> row in
             let row := <["ppid" := to_string (u64 (parent_process_id d))]> row in
             let row := <["uid" := to_string (u64 (process_uid d))]> row in
             let row := <["euid" := to_string (u64 (process_euid d))]> row in
             let row := <["gid" := to_string (u64 (process_gid d))]> row in
             let row := <["egid" := to_string (u64 (process_egid d))]> row in
             let row := <["executable" := executable_path d]> row in
             let row := <["partial" := if partial c then "true" else "false"]> row in
             let row := <["cwd" := cwd c]> row in
             Ok (Some (<["uptime" := to_string getUptime]> row))
       end.

(** ** Child records *)

(** [None] is an invalid record. *)
Definition ParseAuditCwdRecord (r : AuditEventRecord) : option string :=
  match GetStringFieldFromMap (fields r) "cwd" "" with
  | (false, _) => None
  | (true, buffer) => Some (DecodeAuditPathValues buffer)
  end.

(** The result and the context after the call. *)
Definition ParseAuditMmapRecord (r : AuditEventRecord) (c : AuditdFimSyscallContext)
    : bool * AuditdFimSyscallContext :=
  let (ok, fd) := GetIntegerFieldFromMap (fields r) "fd" 16 kMaxU64 in
  if negb ok then (false, set_mmap true fd (mmap_prot_flags c) c)
  else (true, set_mmap true fd (GetIntegerFieldFromMap (fields r) "flags" 16 PROT_WRITE).2 c).

Definition ParseAuditPathRecord (r : AuditEventRecord) : option AuditdFimPathRecordItem :=
  match GetIntegerFieldFromMap (fields r) "item" 10 kMaxU64 with
  | (false, _) => None
  | (true, item_index) =>
      let inode := (GetIntegerFieldFromMap (fields r) "inode" 10 0).2 in
      let path := match GetStringFieldFromMap (fields r) "name" "" with
                  | (true, buffer) => DecodeAuditPathValues buffer
                  | (false, _) => ""
                  end in
      Some (mkPathItem item_index inode path)
  end.

(** ** The handlers

    They change the tables and the context of the system call, and return whether
    a row may be emitted. *)

Record FimState := mkFs { fs_fim : AuditdFimContext; fs_sc : AuditdFimSyscallContext }.

Abbreviation FM := (M FimState).

Definition upd_sc (f : AuditdFimSyscallContext -> AuditdFimSyscallContext) : FM unit :=
  modify (fun s => mkFs (fs_fim s) (f (fs_sc s))).

Definition on_inodes {A} (f : gmap Z AuditdFimInodeDescriptor -> A * gmap Z AuditdFimInodeDescriptor) : FM A :=
  fun s => let fim := fs_fim s in let (a, m) := f (inode_map fim) in
           (Ok a, mkFs (mkFim (included_path_list fim) (process_map fim) m) (fs_sc s)).

Definition on_procs {A} (f : AuditdFimProcessMap -> A * AuditdFimProcessMap) : FM A :=
  fun s => let fim := fs_fim s in let (a, m) := f (process_map fim) in
           (Ok a, mkFs (mkFim (included_path_list fim) m (inode_map fim)) (fs_sc s)).

Definition save_inode (inode : Z) (type : InodeType) (path : string) : FM unit :=
  on_inodes (fun m => (tt, ino_save inode type path m)).

Definition save_fd (fd pid inode : Z) (op : OperationType) : FM unit :=
  fun s => let fim := fs_fim s in
    match pm_save fd pid inode op (process_map fim) with
    | None => (Throw AssertFailure, s)
    | Some m => (Ok tt, mkFs (mkFim (included_path_list fim) m (inode_map fim)) (fs_sc s))
    end.

Definition item (i : Z) : FM AuditdFimPathRecordItem :=
  gets (fun s => default no_item (path_record_map (fs_sc s) !! i)).

Definition item_count : FM nat := gets (fun s => size (path_record_map (fs_sc s))).

(** [syscall_context.partial = true; return b;]. *)
Definition give_partial (b : bool) : FM bool := upd_sc set_partial ;;; ret b.

(** The descriptor argument of the system call. *)
Definition fd_argument (r : AuditEventRecord) : option Z :=
  match GetIntegerFieldFromMap (fields r) "a0" 16 kMaxU64 with
  | (true, fd) => Some fd
  | (false, _) => None
  end.

(** The type of the system call and whether it writes. *)
Definition io_kind (c : AuditdFimSyscallContext) : option (SyscallType * bool) :=
  let n := sc_number c in
  if one_of [NR_pread64; NR_preadv; NR_read; NR_readv] n then Some (TyRead, false)
  else if one_of [NR_pwrite64; NR_pwritev; NR_write; NR_writev] n then Some (TyWrite, true)
  else if n =? NR_ftruncate then Some (TyTruncate, true)
  else if n =? NR_mmap then Some (TyMmap, negb (Z.land (mmap_prot_flags c) PROT_WRITE =? 0))
  else None.

(** The last operation after this one, and whether the state changed. *)
Definition next_operation (op : OperationType) (write_operation : bool) : OperationType * bool :=
  match op with
  | OpOpenTruncate | OpOpen => (if write_operation then OpWrite else OpRead, true)
  | OpRead => if write_operation then (OpWrite, true) else (OpRead, false)
  | OpWrite => (OpWrite, false)
  end.

Definition HandleFileDescriptorSyscallRecord (r : AuditEventRecord) : FM bool :=
  let* c := gets fs_sc in
  let write_operation := match io_kind c with Some (_, w) => w | None => false end in
  (match io_kind c with Some (t, _) => upd_sc (set_type t) | None => ret tt end) ;;;
  let o := if sc_number c =? NR_mmap then Some (mmap_file_descriptor c) else fd_argument r in
  match o with
  | None => give_partial false
  | Some fd =>
      let* d := on_procs (pm_getReference (sc_pid c) fd) in
      match d with
      | None => give_partial false
      | Some fd_desc =>
          let (op, state_changed) := next_operation (last_operation fd_desc) write_operation in
          on_procs (fun m => (tt, pm_set_operation (sc_pid c) fd op m)) ;;;
          let* ino := gets (fun s => inode_map (fs_fim s) !! fd_inode fd_desc) in
          match ino with
          | None => give_partial true
          | Some ino_desc =>
              upd_sc (set_data (IOData (ino_path ino_desc) (if write_operation then IOWrite else IORead)
                                  state_changed)) ;;;
              ret true
          end
      end
  end.

Definition HandleDupSyscallRecord (r : AuditEventRecord) : FM bool :=
  upd_sc (set_type TyDup) ;;;
  let* c := gets fs_sc in
  match fd_argument r with
  | None => give_partial false
  | Some fd =>
      let* ok := on_procs (pm_duplicate (sc_pid c) fd (return_value c)) in
      if (ok : bool) then ret true else give_partial false
  end.

Definition HandleCloseSyscallRecord (r : AuditEventRecord) : FM bool :=
  upd_sc (set_type TyClose) ;;;
  let* c := gets fs_sc in
  match fd_argument r with
  | None => give_partial false
  | Some fd =>
      let* d := on_procs (pm_takeAndRemove (sc_pid c) fd) in
      match d with
      | None => give_partial false
      | Some fd_desc =>
          let* ino := gets (fun s => inode_map (fs_fim s) !! fd_inode fd_desc) in
          match ino with
          | None => give_partial true
          | Some ino_desc =>
              upd_sc (set_data (IOData (ino_path ino_desc) IOClose true)) ;;; ret true
          end
      end
  end.

Definition HandleUnlinkSyscallRecord : FM bool :=
  upd_sc (set_type TyUnlink) ;;;
  let* n := item_count in
  if negb (n =? 2)%nat then give_partial false
  else
    let* dir := item 0 in
    let* file := item 1 in
    upd_sc (set_data (IOData (NormalizePath (item_path dir) (item_path file)) IOUnlink true)) ;;;
    on_inodes (fun m => (tt, delete (item_inode file) m)) ;;;
    ret true.

(** The inode is moved with the descriptor it had, the path included, and to the
    inode of item 3 also when there are five items. *)
Definition HandleRenameSyscallRecord : FM bool :=
  upd_sc (set_type TyRename) ;;;
  let* n := item_count in
  if negb ((n =? 4)%nat || (n =? 5)%nat) then give_partial false
  else
    let* source_cwd := item 0 in
    let* destination_cwd := item 1 in
    let* source_path := item 2 in
    let* destination_path := item (if (n =? 4)%nat then 3 else 4) in
    upd_sc (set_data (SrcDestData (NormalizePath (item_path source_cwd) (item_path source_path))
                        (NormalizePath (item_path destination_cwd) (item_path destination_path)))) ;;;
    let* o := on_inodes (ino_takeAndRemove (item_inode source_path)) in
    match o with
    | None => give_partial false
    | Some ino_desc =>
        let* third := item 3 in
        save_inode (item_inode third) (ino_type ino_desc) (ino_path ino_desc) ;;;
        ret true
    end.

Definition open_flags_field (n : Z) : option string :=
  if n =? NR_open then Some "a1"
  else if (n =? NR_openat) || (n =? NR_open_by_handle_at) then Some "a2"
  else None.

Definition is_truncate (n : Z) (r : AuditEventRecord) : bool :=
  match open_flags_field n with
  | Some field =>
      negb (Z.land (GetIntegerFieldFromMap (fields r) field 16 O_TRUNC).2 O_TRUNC =? 0)
  | None => false
  end.

(** The directory, path and inode of the file opened; [None] is a wrong number of
    path records. *)
Definition open_input (c : AuditdFimSyscallContext) : option (string * string * Z) :=
  let at_ i := default no_item (path_record_map c !! i) in
  let n := size (path_record_map c) in
  let nr := sc_number c in
  if one_of [NR_creat; NR_mknod; NR_mknodat] nr then
    if (n =? 2)%nat then Some (item_path (at_ 0), item_path (at_ 1), item_inode (at_ 1)) else None
  else if one_of [NR_openat; NR_open] nr then
    if (n =? 1)%nat || (n =? 3)%nat then Some (cwd c, item_path (at_ 0), item_inode (at_ 0))
    else if (n =? 2)%nat then Some (item_path (at_ 0), item_path (at_ 1), item_inode (at_ 1))
    else None
  else
    if (n =? 1)%nat then Some (cwd c, item_path (at_ 0), item_inode (at_ 0)) else None.

Definition HandleOpenOrCreateSyscallRecord (r : AuditEventRecord) : FM bool :=
  let* nr := gets (fun s => sc_number (fs_sc s)) in
  let truncate := is_truncate nr r in
  upd_sc (set_type (if truncate then TyOpenTruncate else TyOpen)) ;;;
  let* c := gets fs_sc in
  match open_input c with
  | None => give_partial false
  | Some (dir, path, input_inode) =>
      let* known := gets (fun s => bool_decide (is_Some (inode_map (fs_fim s) !! input_inode))) in
      if (nr =? NR_open_by_handle_at) && negb known then give_partial false
      else
        let target := NormalizePath dir path in
        upd_sc (set_data (IOData target (if truncate then IOOpenTruncate else IOOpen) true)) ;;;
        save_fd (return_value c) (sc_pid c) input_inode (if truncate then OpOpenTruncate else OpOpen) ;;;
        save_inode input_inode InoFile target ;;;
        ret true
  end.

(** [path.back() == '/']: undefined on an empty path. *)
Definition path_type (path : string) : FM InodeType :=
  match String.length path with
  | O => throw AssertFailure
  | Datatypes.S n => ret (if bool_decide (char_at path n = "/"%char) then InoFolder else InoFile)
  end.

Definition HandleLinkAndSymlinkSyscallRecord : FM bool :=
  let* nr := gets (fun s => sc_number (fs_sc s)) in
  upd_sc (set_type (if one_of [NR_symlink; NR_symlinkat] nr then TySymlink else TyLink)) ;;;
  let* n := item_count in
  if negb (n =? 3)%nat then give_partial false
  else
    let* c := gets fs_sc in
    let* oldpath := item 0 in
    let* newdir := item 1 in
    let* newpath := item 2 in
    let source := NormalizePath (cwd c) (item_path oldpath) in
    let destination := NormalizePath (item_path newdir) (item_path newpath) in
    upd_sc (set_data (SrcDestData source destination)) ;;;
    let hard := one_of [NR_link; NR_linkat] nr in
    let* source_type := (if hard then ret InoFile else path_type (item_path oldpath)) in
    save_inode (if hard then item_inode newpath else item_inode oldpath) source_type source ;;;
    save_inode (item_inode newpath) InoFile destination ;;;
    ret true.

Definition HandleNameToHandleAtSyscallRecord : FM bool :=
  upd_sc (set_type TyNameToHandleAt) ;;;
  let* n := item_count in
  if negb (n =? 1)%nat then give_partial false
  else
    let* c := gets fs_sc in
    let* file := item 0 in
    let* type := path_type (item_path file) in
    save_inode (item_inode file) type (NormalizePath (cwd c) (item_path file)) ;;;
    ret true.

Definition HandleTruncateSyscallRecord : FM bool :=
  upd_sc (set_type TyTruncate) ;;;
  let* n := item_count in
  if negb (n =? 1)%nat then give_partial false
  else
    let* c := gets fs_sc in
    let* file := item 0 in
    let target := NormalizePath (cwd c) (item_path file) in
    upd_sc (set_data (IOData target IOWrite true)) ;;;
    save_inode (item_inode file) InoFile target ;;;
    ret true.

(** The result and [skip_row_emission]. *)
Definition AuditSyscallRecordHandler (r : AuditEventRecord) : FM (bool * bool) :=
  let (ok, exit) := GetIntegerFieldFromMap (fields r) "exit" 16 0 in
  upd_sc (set_return exit) ;;;
  if negb ok then let* b := give_partial false in ret (b, false)
  else
    let* c := gets fs_sc in
    let n := sc_number c in
    let handled (m : FM bool) (skip : bool) := let* b := m in ret (b, skip) in
    if one_of [NR_fork; NR_vfork; NR_clone] n then
      upd_sc (set_type TyCloneOrFork) ;;;
      handled (on_procs (pm_clone (sc_pid c) (i32 (return_value c)))) true
    else if one_of [NR_link; NR_linkat; NR_symlink; NR_symlinkat] n
    then handled HandleLinkAndSymlinkSyscallRecord false
    else if n =? NR_name_to_handle_at then handled HandleNameToHandleAtSyscallRecord true
    else if one_of [NR_rename; NR_renameat; NR_renameat2] n then handled HandleRenameSyscallRecord false
    else if one_of [NR_unlink; NR_unlinkat] n then handled HandleUnlinkSyscallRecord false
    else if one_of [NR_creat; NR_mknod; NR_mknodat; NR_open; NR_openat; NR_open_by_handle_at] n
    then handled (HandleOpenOrCreateSyscallRecord r) false
    else if n =? NR_close then handled (HandleCloseSyscallRecord r) false
    else if one_of [NR_dup; NR_dup2; NR_dup3] n then handled (HandleDupSyscallRecord r) true
    else if n =? NR_truncate then handled HandleTruncateSyscallRecord false
    else if one_of [NR_pread64; NR_preadv; NR_read; NR_readv; NR_write; NR_writev; NR_pwrite64;
                    NR_pwritev; NR_ftruncate] n
    then handled (HandleFileDescriptorSyscallRecord r) false
    else if n =? NR_mmap then
      if mmap_record_present c then ret (false, false)
      else handled (HandleFileDescriptorSyscallRecord r) false
    else ret (false, false).

(** ** Events *)

(** One child record: the context, the system call record found so far, and
    [record_error]. *)
Definition child_record (st : AuditdFimSyscallContext * option AuditEventRecord) (r : AuditEventRecord)
    : (AuditdFimSyscallContext * option AuditEventRecord) * bool :=
  let (c, syscall_record) := st in
  if rec_type r =? AUDIT_SYSCALL then ((c, Some r), false)
  else if rec_type r =? AUDIT_CWD then
    match ParseAuditCwdRecord r with
    | None => ((set_cwd "" c, syscall_record), true)
    | Some s => ((set_cwd s c, syscall_record), false)
    end
  else if rec_type r =? AUDIT_PATH then
    match ParseAuditPathRecord r with
    | None => ((c, syscall_record), true)
    | Some it => ((set_paths (<[item_index it := it]> (path_record_map c)) c, syscall_record), false)
    end
  else if rec_type r =? AUDIT_MMAP then
    let (ok, c) := ParseAuditMmapRecord r c in ((c, syscall_record), negb ok)
  else ((c, syscall_record), false).

(** [None] when the event is skipped: an invalid child, or no system call record. *)
Fixpoint child_records (l : list AuditEventRecord) (st : AuditdFimSyscallContext * option AuditEventRecord)
    : option (AuditdFimSyscallContext * AuditEventRecord) :=
  match l with
  | [] => match st with (c, Some r) => Some (c, r) | (_, None) => None end
  | r :: l => let (st, error) := child_record st r in if (error : bool) then None else child_records l st
  end.

Definition L_ShouldHandle (number : Z) : bool := one_of fim_syscall_set (i32 number).

(** The row of an event, and the tables after it. *)
Definition fim_event (fim : AuditdFimContext) (event : AuditEvent) : result (option Row) * AuditdFimContext :=
  if negb (bool_decide (ev_type event = SyscallEvent)) then (Ok None, fim)
  else match ev_data event with
       | UserData _ => (Throw AssertFailure, fim)
       | SyscallData d =>
           if negb (L_ShouldHandle (syscall_number d)) then (Ok None, fim)
           else match child_records (record_list event) (fresh_context d, None) with
                | None => (Ok None, fim)
                | Some (c, r) =>
                    match AuditSyscallRecordHandler r (mkFs fim c) with
                    | (Throw e, s) => (Throw e, fs_fim s)
                    | (Ok (false, _), s) => (Ok None, fs_fim s)
                    | (Ok (true, true), s) => (Ok None, fs_fim s)
                    | (Ok (true, false), s) => (EmitRowFromSyscallContext (fs_fim s) (fs_sc s), fs_fim s)
                    end
                end
       end.

(** [ProcessFileEventSubscriber::ProcessEvents]: the emitted rows. *)
Definition fim_ProcessEvents (event_list : list AuditEvent) : M AuditdFimContext (list Row) :=
  for_fold event_list [] (fun rows event fim =>
    match fim_event fim event with
    | (Throw e, fim) => (Throw e, fim)
    | (Ok None, fim) => (Ok rows, fim)
    | (Ok (Some row), fim) => (Ok (rows ++ [row]), fim)
    end).

(** [configure]: the paths of each configured pattern are appended to the list. *)
Definition fim_configure (resolveFilePattern : string -> list string) (files : list (string * list string))
    (fim : AuditdFimContext) : AuditdFimContext :=
  mkFim (included_path_list fim ++ flat_map (fun f => flat_map resolveFilePattern f.2) files)
    (process_map fim) (inode_map fim).

Definition fim_setUp (FLAGS_audit_allow_fim_events : bool) : Status :=
  if negb FLAGS_audit_allow_fim_events then mkStatus 1 "Subscriber disabled via configuration"
  else Status1 0.

End Fim.

(** * Facts about file integrity monitoring

    Which rows a sequence of system calls gives, that rows are about configured
    paths only, and that the inode table stays within its limit. *)
Local Open Scope Z_scope.

(** ** Decimal digits read as hexadecimal *)

Lemma digit_value_digit c : is_digit c = true ->
  exists d, 0 <= d < 10 /\ digit_value 10 c = Some d /\ digit_value 16 c = Some d.
Proof.
  intros Hc. exists (Z.of_nat (Ascii.nat_of_ascii c) - 48).
  destruct c as [[] [] [] [] [] [] [] []]; try done; (split; [cbn; lia | done]).
Qed.

Lemma hex_of_decimal s : forall a a' seen x y, all_digits s = true -> 0 <= a <= a' ->
  digits_value 10 seen a s = Some x -> digits_value 16 seen a' s = Some y ->
  x <= y /\ (a < a' -> x < y) /\ (0 < a -> s <> "" -> x < y).
Proof.
  induction s as [|c s IH]; intros a a' seen x y Hs Ha E10 E16; cbn in E10, E16.
  { destruct seen; simplify_eq. split; [lia|]. split; [lia | done]. }
  unfold all_digits in Hs. rewrite all_chars_cons in Hs. apply andb_true_iff in Hs as [Hc Hs].
  destruct (digit_value_digit c Hc) as (d & Hd & D1 & D2). rewrite D1 in E10. rewrite D2 in E16.
  destruct (IH _ _ _ _ _ Hs (ltac:(lia) : 0 <= a * 10 + d <= a' * 16 + d) E10 E16) as (H1 & H2 & H3).
  split; [lia|]. split; [intros; apply H2; lia|]. intros. apply H2. lia.
Qed.

Lemma hex_of_decimal_0 s : forall seen x y, all_digits s = true ->
  digits_value 10 seen 0 s = Some x -> digits_value 16 seen 0 s = Some y -> 10 <= x -> x < y.
Proof.
  induction s as [|c s IH]; intros seen x y Hs E10 E16 Hx; cbn in E10, E16; [destruct seen; simplify_eq; lia|].
  unfold all_digits in Hs. rewrite all_chars_cons in Hs. apply andb_true_iff in Hs as [Hc Hs].
  destruct (digit_value_digit c Hc) as (d & Hd & D1 & D2). rewrite D1 in E10. rewrite D2 in E16.
  rewrite Z.mul_0_l, Z.add_0_l in E10, E16.
  destruct (Z.eq_dec d 0) as [->|Hnz]; [by eapply IH|].
  destruct (hex_of_decimal s d d true x y Hs ltac:(lia) E10 E16) as (_ & _ & H3).
  destruct s; [cbn in E10; simplify_eq; lia|]. apply H3; [lia | done].
Qed.

Lemma strto_hex_digits s : all_digits s = true -> strto 16 s = (fun v => (false, v)) <$> digits_value 16 false 0 s.
Proof.
  intros Hs. unfold strto. destruct s as [|c s]; [done|].
  pose proof Hs as Hs'. unfold all_digits in Hs. rewrite all_chars_cons in Hs. apply andb_true_iff in Hs as [Hc Hs].
  assert (skip_space (String c s) = String c s) as ->.
  { cbn. apply is_digit_plain in Hc as (-> & _). done. }
  assert ((match String c s with
           | String "-" r => (true, r)
           | String "+" r => (false, r)
           | _ => (false, String c s)
           end) = (false, String c s)) as ->.
  { destruct c as [[] [] [] [] [] [] [] []]; done. }
  change (detect_base 16 (String c s)) with 16.
  assert (skip_prefix 16 (String c s) = String c s) as ->.
  { destruct s as [|x [|z s]]; [destruct c as [[] [] [] [] [] [] [] []]; done..|].
    rewrite all_chars_cons in Hs. apply andb_true_iff in Hs as [Hx Hs].
    assert (x <> "x"%char /\ x <> "X"%char) as [X1 X2] by (split; by intros ->).
    unfold skip_prefix. rewrite (bool_decide_eq_false_2 _ X1), (bool_decide_eq_false_2 _ X2).
    destruct c as [[] [] [] [] [] [] [] []]; done. }
  by destruct (digits_value 16 false 0 (String c s)).
Qed.

(** A number of two digits or more, printed in decimal and read as hexadecimal,
    comes back larger. *)
Lemma decimal_read_as_hex n m : 10 <= n -> tryTo TULong (to_string n) 16 = inl m -> n < m.
Proof.
  intros Hn. unfold tryTo, throwingStringToInt, stoul, sto_unsigned.
  pose proof (all_digits_to_string n ltac:(lia)) as Hd.
  pose proof (dec_value_to_string n ltac:(lia)) as Hv. unfold dec_value in Hv.
  rewrite strto_hex_digits by done. destruct (digits_value 16 false 0 (to_string n)) as [v|] eqn:E; [|done]. cbn [fmap option_fmap option_map].
  destruct (v <? 2 ^ 64); [|done]. intros [= <-]. by eapply hex_of_decimal_0.
Qed.

(** Digits read in base 16 give at most the square of what they give in base 10. *)
Lemma hex_of_decimal_square s : forall seen a b x, all_digits s = true -> 0 <= a -> 0 <= b <= a * a ->
  digits_value 10 seen a s = Some x -> exists y, digits_value 16 seen b s = Some y /\ 0 <= y <= x * x.
Proof.
  induction s as [|c s IH]; intros seen a b x Hs Ha Hb E; cbn in E |- *; [destruct seen; simplify_eq; by exists b|].
  unfold all_digits in Hs. rewrite all_chars_cons in Hs. apply andb_true_iff in Hs as [Hc Hs].
  destruct (digit_value_digit c Hc) as (d & Hd & D1 & D2). rewrite D1 in E. rewrite D2.
  eapply IH; [done | | | exact E]; nia.
Qed.

(** The decimal text of a descriptor, read in base 16: the same number below ten only. *)
Lemma descriptor_read_as_hex n : 0 <= n < 2 ^ 31 ->
  exists m, tryTo TULong (to_string n) 16 = inl m /\ (n < 10 -> m = n) /\ (10 <= n -> n < m).
Proof.
  intros Hn. pose proof (all_digits_to_string n ltac:(lia)) as Hd. pose proof (dec_value_to_string n ltac:(lia)) as Hv.
  unfold dec_value in Hv. destruct (hex_of_decimal_square (to_string n) _ 0 0 n Hd ltac:(lia) ltac:(lia) Hv) as (m & Em & Hm).
  assert (tryTo TULong (to_string n) 16 = inl m) as Et.
  { unfold tryTo, throwingStringToInt, stoul, sto_unsigned. rewrite strto_hex_digits, Em by done. cbn [fmap option_fmap option_map].
    destruct (Z.ltb_spec m (2 ^ 64)); [done | nia]. }
  exists m. split; [done|]. split; [|intros H10; by apply (decimal_read_as_hex n m)].
  intros H10. clear -Hn H10 Et. assert (n ∈ [0; 1; 2; 3; 4; 5; 6; 7; 8; 9]) as Hin.
  { destruct (Z_le_gt_dec n 4); repeat (rewrite elem_of_cons); lia. }
  repeat (apply elem_of_cons in Hin as [->|Hin]; [vm_compute in Et; by simplify_eq|]). by apply elem_of_nil in Hin.
Qed.

Section FimFacts.
Context `{BoostHex} (path_normalize : string -> string).
Context (show_partial show_accesses warnings : bool) (current_time getUptime : Z).

Abbreviation event_of := (fim_event path_normalize show_partial show_accesses warnings current_time getUptime).
Abbreviation process_all :=
  (fim_ProcessEvents path_normalize show_partial show_accesses warnings current_time getUptime).
Abbreviation emit := (EmitRowFromSyscallContext show_partial show_accesses getUptime).

(** ** Runs of events *)

Definition keep_row (rows : list Row) (o : option Row) : list Row := rows ++ option_list o.

Lemma process_rows e l fim fim' o rows :
  event_of fim e = (Ok o, fim') ->
  for_fold (e :: l) rows (fun rows event fim =>
    match event_of fim event with
    | (Throw e, fim) => (Throw e, fim)
    | (Ok None, fim) => (Ok rows, fim)
    | (Ok (Some row), fim) => (Ok (rows ++ [row]), fim)
    end) fim =
  for_fold l (keep_row rows o) (fun rows event fim =>
    match event_of fim event with
    | (Throw e, fim) => (Throw e, fim)
    | (Ok None, fim) => (Ok rows, fim)
    | (Ok (Some row), fim) => (Ok (rows ++ [row]), fim)
    end) fim'.
Proof.
  intros E. cbn [for_fold]. unfold bind, keep_row. rewrite E.
  destruct o as [row|]; cbn [option_list]; by rewrite ?app_nil_r.
Qed.

(** ** Reads and writes through a descriptor *)

(** The descriptor the tables hold. *)
Definition tracked (fim : AuditdFimContext) (pid fd : Z) : option AuditdFimFdDescriptor :=
  fds ← proc_data_ (process_map fim) !! pid; fd_data_ fds !! fd.

(** The same tables with another last operation of a descriptor. *)
Definition with_operation (pid fd : Z) (op : OperationType) (fim : AuditdFimContext) : AuditdFimContext :=
  mkFim (included_path_list fim) (pm_set_operation pid fd op (process_map fim)) (inode_map fim).

Lemma pm_getReference_tracked fim pid fd d : tracked fim pid fd = Some d ->
  pm_getReference warnings current_time pid fd (process_map fim) = (Some d, process_map fim).
Proof.
  unfold tracked. intros (fds & E1 & E2)%bind_Some.
  unfold pm_getReference, in_process, fd_getReference. rewrite E1, E2. cbn.
  rewrite insert_id by done. by destruct (process_map fim).
Qed.

Lemma tracked_with_operation fim pid fd op d : tracked fim pid fd = Some d ->
  tracked (with_operation pid fd op fim) pid fd = Some (mkFd (fd_inode d) op).
Proof.
  unfold tracked. intros (fds & E1 & E2)%bind_Some. cbn.
  rewrite lookup_alter_eq, E1. cbn. by rewrite lookup_alter_eq, E2.
Qed.

(** A read or write of a descriptor, as an event with its one record. *)
Definition io_event (pid fd : Z) (write : bool) (e : AuditEvent) : Prop :=
  exists d r, e = mkAuditEvent SyscallEvent (SyscallData d) [r] /\ rec_type r = AUDIT_SYSCALL /\
    process_id d = pid /\ fd_argument r = Some fd /\
    (GetIntegerFieldFromMap (fields r) "exit" 16 0).1 = true /\
    syscall_number d ∈ if write then [NR_write; NR_writev; NR_pwrite64; NR_pwritev]
                       else [NR_read; NR_readv; NR_pread64; NR_preadv].

Lemma io_context d (write : bool) e :
  syscall_number d ∈ (if write then [NR_write; NR_writev; NR_pwrite64; NR_pwritev]
                      else [NR_read; NR_readv; NR_pread64; NR_preadv]) ->
  L_ShouldHandle (syscall_number d) = true /\
  io_kind (set_return e (fresh_context d)) = Some (if write then TyWrite else TyRead, write) /\
  (syscall_number d =? NR_mmap) = false /\
  forall r (s : FimState), sc_number (fs_sc s) = syscall_number d ->
    GetIntegerFieldFromMap (fields r) "exit" 16 0 = (true, e) ->
    AuditSyscallRecordHandler path_normalize warnings current_time r s =
    (upd_sc (set_return e) ;;; let* b := HandleFileDescriptorSyscallRecord warnings current_time r in ret (b, false)) s.
Proof.
  intros Hn. unfold L_ShouldHandle, io_kind.
  assert (syscall_number d ∈ [NR_write; NR_writev; NR_pwrite64; NR_pwritev; NR_read; NR_readv; NR_pread64; NR_preadv])
    as Hall by (destruct write; set_solver).
  change (sc_number (set_return e (fresh_context d))) with (syscall_number d).
  repeat split.
  - repeat (apply elem_of_cons in Hall as [-> | Hall]; [done|]). by apply elem_of_nil in Hall.
  - destruct write; repeat (apply elem_of_cons in Hn as [-> | Hn]; [done|]); by apply elem_of_nil in Hn.
  - repeat (apply elem_of_cons in Hall as [-> | Hall]; [done|]). by apply elem_of_nil in Hall.
  - intros r s Hs Hex. unfold AuditSyscallRecordHandler. rewrite Hex. cbn [negb].
    unfold upd_sc. rewrite !bind_modify, bind_gets. cbn [fs_sc].
    change (sc_number (set_return e (fs_sc s))) with (sc_number (fs_sc s)). rewrite Hs. clear Hs Hn.
    repeat (apply elem_of_cons in Hall as [-> | Hall]; [done|]). by apply elem_of_nil in Hall.
Qed.

Lemma handle_io_run fim c r t write fd d ino :
  io_kind c = Some (t, write) -> (sc_number c =? NR_mmap) = false -> fd_argument r = Some fd ->
  tracked fim (sc_pid c) fd = Some d -> inode_map fim !! fd_inode d = Some ino ->
  HandleFileDescriptorSyscallRecord warnings current_time r (mkFs fim c) =
  (Ok true, mkFs (with_operation (sc_pid c) fd (next_operation (last_operation d) write).1 fim)
     (set_data (IOData (ino_path ino) (if write then IOWrite else IORead)
                  (next_operation (last_operation d) write).2) (set_type t c))).
Proof.
  intros Hk Hm Hfd Ht Hino. unfold HandleFileDescriptorSyscallRecord.
  rewrite bind_gets. cbn [fs_sc]. rewrite Hk, Hm, Hfd.
  unfold upd_sc. rewrite bind_modify. cbn [fs_sc fs_fim].
  rewrite (bind_run _ _ _ (Some d) (mkFs fim (set_type t c))).
  2: { unfold on_procs. cbn [fs_fim process_map]. rewrite (pm_getReference_tracked _ _ _ _ Ht).
       by destruct fim. }
  destruct (next_operation (last_operation d) write) as [op changed]. cbn [fst snd].
  rewrite (bind_run _ _ _ tt (mkFs (with_operation (sc_pid c) fd op fim) (set_type t c))) by done.
  rewrite bind_gets. cbn [fs_fim with_operation inode_map]. by rewrite Hino.
Qed.

(** What a read or write of a tracked descriptor with a known inode does. *)
Lemma io_event_run fim pid fd write e d ino :
  io_event pid fd write e -> tracked fim pid fd = Some d -> inode_map fim !! fd_inode d = Some ino ->
  exists c, sc_type c = (if write then TyWrite else TyRead) /\ partial c = false /\
    syscall_data c = IOData (ino_path ino) (if write then IOWrite else IORead)
                       (next_operation (last_operation d) write).2 /\
    event_of fim e =
      (emit (with_operation pid fd (next_operation (last_operation d) write).1 fim) c,
       with_operation pid fd (next_operation (last_operation d) write).1 fim).
Proof.
  intros (sd & r & -> & Hr & <- & Hfd & Hex & Hn) Ht Hino.
  destruct (GetIntegerFieldFromMap (fields r) "exit" 16 0) as [ok ex] eqn:Eex. cbn in Hex. subst ok.
  destruct (io_context sd write ex Hn) as (Hh & Hk & Hm & Hrun).
  eexists (set_data _ (set_type _ (set_return ex (fresh_context sd)))). repeat split.
  unfold fim_event. cbn [ev_type ev_data record_list].
  rewrite (bool_decide_eq_true_2 _ eq_refl), Hh. cbn [negb child_records child_record].
  rewrite Hr. cbn [Z.eqb AUDIT_SYSCALL Pos.eqb].
  rewrite (Hrun r) by done. unfold upd_sc. rewrite bind_modify. cbn [fs_sc fs_fim].
  rewrite (bind_run _ _ _ _ _ (handle_io_run fim _ r _ write fd d ino Hk Hm Hfd Ht Hino)).
  done.
Qed.

(** ** What is emitted *)

(** System calls whose data is about one file. *)
Definition one_file (t : SyscallType) : bool :=
  match t with
  | TySymlink | TyRename | TyLink | TyDup | TyNameToHandleAt | TyCloneOrFork => false
  | _ => true
  end.

Lemma emit_io fim c path type changed :
  one_file (sc_type c) = true -> partial c = false -> syscall_data c = IOData path type changed ->
  exists o, emit fim c = Ok o /\
    if changed && bool_decide (path ∈ included_path_list fim) && (show_accesses || (io_operation type).2)
    then exists row, o = Some row /\ row !! "operation" = Some (io_operation type).1 /\
           row !! "path" = Some path
    else o = None.
Proof.
  intros Ht Hp Hd. unfold EmitRowFromSyscallContext.
  assert (operation_columns c = if changed then
    Ok (Some ({["operation" := (io_operation type).1; "path" := path]}, (io_operation type).2)) else Ok None) as ->.
  { unfold operation_columns. rewrite Hd. destruct (sc_type c); try done; by destruct changed, type. }
  rewrite Hp, andb_false_r. destruct changed; [|by exists None]. destruct (io_operation type) as [op write]. cbn [fst snd].
  assert ((<["operation":=op]> {["path":=path]} : Row) !! "dest_path" = None) as -> by done.
  assert ((<["operation":=op]> {["path":=path]} : Row) !! "path" = Some path) as -> by done.
  cbn [default]. rewrite orb_false_r.
  destruct (bool_decide _); cbn [negb andb]; [|by exists None].
  destruct show_accesses, write; cbn [negb andb orb]; try (by exists None);
    (eexists; split; [done|]; eexists; split; [done|]; by simplify_map_eq).
Qed.

(** The operations a descriptor reports, given its last operation and whether each
    following one writes. *)
Definition reported (op : OperationType) (ops : list bool) : list string :=
  match op with
  | OpOpen | OpOpenTruncate =>
      (if show_accesses && bool_decide (head ops = Some false) then ["read"] else []) ++
      (if existsb id ops then ["write"] else [])
  | OpRead => if existsb id ops then ["write"] else []
  | OpWrite => []
  end.

Lemma reported_cons op w ops :
  reported op (w :: ops) =
  (if (next_operation op w).2 && (show_accesses || w) then [if w then "write" else "read"] else []) ++
  reported (next_operation op w).1 ops.
Proof. destruct op, w; cbn; destruct show_accesses; cbn; by destruct (existsb id ops). Qed.

(** The operation and path columns of a row. *)
Definition summary (row : Row) : option string * option string := (row !! "operation", row !! "path").

Lemma io_run events ops fim pid fd d ino rows :
  Forall2 (io_event pid fd) ops events -> tracked fim pid fd = Some d ->
  inode_map fim !! fd_inode d = Some ino -> ino_path ino ∈ included_path_list fim ->
  exists rows' fim',
    for_fold events rows (fun rows event fim =>
      match event_of fim event with
      | (Throw e, fim) => (Throw e, fim)
      | (Ok None, fim) => (Ok rows, fim)
      | (Ok (Some row), fim) => (Ok (rows ++ [row]), fim)
      end) fim = (Ok (rows ++ rows'), fim') /\
    summary <$> rows' =
      (fun o => (Some o, Some (ino_path ino))) <$> reported (last_operation d) ops.
Proof.
  intros Hev. revert fim d rows. induction Hev as [|w e ops events He Hev IH]; intros fim d rows Ht Hi Hp.
  - exists [], fim. rewrite app_nil_r. split; [done|].
    destruct (last_operation d); cbn; by rewrite ?andb_false_r.
  - destruct (io_event_run fim pid fd w e d ino He Ht Hi) as (c & C1 & C2 & C3 & E).
    destruct (emit_io (with_operation pid fd (next_operation (last_operation d) w).1 fim) c _ _ _
                (ltac:(rewrite C1; by destruct w)) C2 C3) as (o & Eo & Ho).
    assert ((io_operation (if w then IOWrite else IORead)) = (if w then "write" else "read", w)) as Ew by (by destruct w).
    rewrite Ew in Ho. cbn [fst snd] in Ho. clear Ew.
    rewrite Eo in E. rewrite (process_rows _ _ _ _ _ _ E).
    edestruct (IH (with_operation pid fd (next_operation (last_operation d) w).1 fim)) as (rows' & fim' & E1 & E2);
      [by apply tracked_with_operation | done | done |].
    exists (option_list o ++ rows'), fim'. unfold keep_row in E1. rewrite E1, app_assoc. split; [done|].
    rewrite reported_cons, !fmap_app, E2. f_equal.
    cbn [included_path_list with_operation] in Ho. rewrite (bool_decide_eq_true_2 _ Hp), andb_true_r in Ho.
    destruct (_ && _).
    + destruct Ho as (row & -> & R1 & R2). cbn. unfold summary. by rewrite R1, R2.
    + by rewrite Ho.
Qed.

(** however often a process reads and writes through an open descriptor, the
    table reports its file at most twice: a read if the first operation is a read
    and accesses are shown, and a write if there is one at all. *)
Theorem descriptor_reports_first_read_and_write events ops fim pid fd d ino :
  Forall2 (io_event pid fd) ops events -> tracked fim pid fd = Some d ->
  last_operation d = OpOpen -> inode_map fim !! fd_inode d = Some ino ->
  ino_path ino ∈ included_path_list fim ->
  exists rows fim', process_all events fim = (Ok rows, fim') /\
    summary <$> rows = (fun o => (Some o, Some (ino_path ino))) <$>
      ((if show_accesses && bool_decide (head ops = Some false) then ["read"] else []) ++
       (if existsb id ops then ["write"] else [])).
Proof.
  intros Hev Ht Hop Hi Hp. destruct (io_run events ops fim pid fd d ino [] Hev Ht Hi Hp) as (rows & fim' & E1 & E2).
  exists rows, fim'. split; [exact E1|]. by rewrite Hop in E2.
Qed.

(** ** The tables *)

Lemma first_key_in {A} (m : gmap Z A) k : first_key m = Some k -> is_Some (m !! k).
Proof.
  unfold first_key. intros Hk. apply elem_of_dom, elem_of_elements.
  rewrite <- (merge_sort_Permutation Z.le (elements (dom m))).
  destruct (merge_sort _ _); [done|]. cbn in Hk. simplify_eq. by left.
Qed.

Lemma first_key_None {A} (m : gmap Z A) : first_key m = None -> m = ∅.
Proof.
  unfold first_key. intros Hk. apply dom_empty_inv, elements_empty_inv.
  apply Permutation_nil_r. rewrite <- (merge_sort_Permutation Z.le (elements (dom m))).
  by destruct (merge_sort _ _).
Qed.

Lemma size_erase_first {A} (m : gmap Z A) : size (erase_first m) = pred (size m).
Proof.
  unfold erase_first. destruct (first_key m) as [k|] eqn:E.
  - by apply map_size_delete_Some, first_key_in.
  - by rewrite (first_key_None m E).
Qed.

Lemma ino_save_bounded inode type path m :
  (size m <= inode_limit)%nat -> (size (ino_save inode type path m) <= inode_limit)%nat.
Proof.
  intros Hm. unfold ino_save. cbv zeta. assert (size (<[inode:=mkInode type path]> m) <= Datatypes.S (size m))%nat as Hs.
  { destruct (m !! inode) eqn:E; [rewrite map_size_insert_Some | rewrite map_size_insert_None]; by eauto. }
  destruct (Nat.ltb_spec inode_limit (size (<[inode:=mkInode type path]> m))); [|lia].
  rewrite size_erase_first. lia.
Qed.

(** The configured paths are [incl], and the inode table is within its limit. *)
Definition tables_ok (incl : list string) (fim : AuditdFimContext) : Prop :=
  included_path_list fim = incl /\ (size (inode_map fim) <= inode_limit)%nat.

(** The same of the state of a handler, which also leaves the data of the event. *)
Definition state_ok (incl : list string) (d : SyscallAuditEventData) (s : FimState) : Prop :=
  tables_ok incl (fs_fim s) /\ sc_data (fs_sc s) = d.

Definition keeps_tables {A} (m : M FimState A) : Prop :=
  forall incl d s, state_ok incl d s -> post m (fun _ => state_ok incl d) s.

Lemma tables_ret {A} (a : A) : keeps_tables (ret a).
Proof. intros incl d s Hs. exact Hs. Qed.

Lemma tables_throw {A} e : @keeps_tables A (throw e).
Proof. intros incl d s Hs. exact I. Qed.

Lemma tables_gets {A} (f : FimState -> A) : keeps_tables (gets f).
Proof. intros incl d s Hs. exact Hs. Qed.

Lemma tables_upd_sc f : (forall c, sc_data (f c) = sc_data c) -> keeps_tables (upd_sc f).
Proof. intros Hf incl d s [Hs1 Hs2]. split; [done|]. cbn. by rewrite Hf. Qed.

Lemma tables_bind {A B} (m : M FimState A) (k : A -> M FimState B) :
  keeps_tables m -> (forall a, keeps_tables (k a)) -> keeps_tables (bind m k).
Proof.
  intros Hm Hk incl d s Hs. apply post_bind. eapply post_mono; [by apply Hm|].
  intros a s' Hs'. by apply Hk.
Qed.

Lemma tables_on_procs {A} (f : AuditdFimProcessMap -> A * AuditdFimProcessMap) : keeps_tables (on_procs f).
Proof. intros incl d s Hs. unfold post, on_procs. by destruct (f _). Qed.

Lemma tables_on_inodes {A} (f : gmap Z AuditdFimInodeDescriptor -> A * gmap Z AuditdFimInodeDescriptor) :
  (forall m, (size m <= inode_limit)%nat -> (size (f m).2 <= inode_limit)%nat) ->
  keeps_tables (on_inodes f).
Proof.
  intros Hf incl d s [[Hs1 Hs2] Hs3]. unfold post, on_inodes. specialize (Hf _ Hs2). by destruct (f _).
Qed.

Lemma tables_save_inode inode type path : keeps_tables (save_inode inode type path).
Proof. apply tables_on_inodes. intros m Hm. by apply ino_save_bounded. Qed.

Lemma tables_delete_inode inode :
  keeps_tables (on_inodes (fun m => (tt, delete inode m))).
Proof.
  apply tables_on_inodes. intros m Hm. cbn [snd].
  destruct (m !! inode) eqn:E; [rewrite map_size_delete_Some by eauto; lia|].
  by rewrite delete_id.
Qed.

Lemma tables_take_inode inode : keeps_tables (on_inodes (ino_takeAndRemove inode)).
Proof.
  apply tables_on_inodes. intros m Hm. unfold ino_takeAndRemove.
  destruct (m !! inode) eqn:E; cbn [snd]; [rewrite map_size_delete_Some by eauto; lia | done].
Qed.

Lemma tables_save_fd fd pid inode op : keeps_tables (save_fd fd pid inode op).
Proof. intros incl d s Hs. unfold post, save_fd. by destruct (pm_save _ _ _ _ _). Qed.

Ltac tables := repeat (first
  [ apply tables_ret | apply tables_throw | apply tables_gets | apply tables_upd_sc; done
  | apply tables_on_procs | apply tables_save_inode | apply tables_delete_inode
  | apply tables_take_inode | apply tables_save_fd | apply tables_bind; intros
  | progress case_match ]).

Lemma tables_handler r : keeps_tables (AuditSyscallRecordHandler path_normalize warnings current_time r).
Proof.
  unfold AuditSyscallRecordHandler, HandleLinkAndSymlinkSyscallRecord, HandleNameToHandleAtSyscallRecord,
    HandleRenameSyscallRecord, HandleUnlinkSyscallRecord, HandleOpenOrCreateSyscallRecord,
    HandleCloseSyscallRecord, HandleDupSyscallRecord, HandleTruncateSyscallRecord,
    HandleFileDescriptorSyscallRecord, give_partial, path_type, item, item_count.
  tables.
Qed.

Lemma emit_included fim c row : emit fim c = Ok (Some row) ->
  exists p, p ∈ included_path_list fim /\ (row !! "path" = Some p \/ row !! "dest_path" = Some p).
Proof.
  unfold EmitRowFromSyscallContext. destruct (_ && partial c); [done|].
  destruct (operation_columns c) as [[[cols write]|]|] eqn:Eop; [|done..].
  destruct (_ || _) eqn:Ei; [|done]. destruct (_ && _); [done|]. cbn [negb]. intros [= <-].
  assert (is_Some (cols !! "path")) as [p Hp].
  { unfold operation_columns in Eop. repeat case_match; simplify_eq; by simplify_map_eq. }
  apply orb_true_iff in Ei as [Ei|Ei].
  - exists p. rewrite Hp in Ei. apply bool_decide_eq_true_1 in Ei. split; [done|]. left. by simplify_map_eq.
  - destruct (cols !! "dest_path") as [q|] eqn:Eq; [|done]. exists q. apply bool_decide_eq_true_1 in Ei.
    split; [done|]. right. by simplify_map_eq.
Qed.

Definition about_included (incl : list string) (row : Row) : Prop :=
  exists p, p ∈ incl /\ (row !! "path" = Some p \/ row !! "dest_path" = Some p).

Lemma emit_uid fim c row : emit fim c = Ok (Some row) ->
  row !! "uid" = Some (to_string (u64 (process_uid (sc_data c)))).
Proof.
  unfold EmitRowFromSyscallContext. repeat case_match; intros E; simplify_eq; by simplify_map_eq.
Qed.

Lemma child_records_data l : forall c0 o c r, child_records l (c0, o) = Some (c, r) ->
  sc_data c = sc_data c0 /\ partial c = partial c0.
Proof.
  induction l as [|x l IH]; intros c0 o c r; cbn [child_records]; [destruct o; by intros [= <- <-]|].
  unfold child_record, ParseAuditMmapRecord.
  repeat case_match; intros E; simplify_eq; by apply IH in E.
Qed.

(** What holds of the row of an event with the data [d]. *)
Definition row_ok (incl : list string) (d : AuditEventData) (row : Row) : Prop :=
  about_included incl row /\
  match d with
  | SyscallData d => row !! "uid" = Some (to_string (u64 (process_uid d)))
  | UserData _ => False
  end.

Lemma event_tables fim e o fim' incl : tables_ok incl fim -> event_of fim e = (Ok o, fim') ->
  tables_ok incl fim' /\ forall row, o = Some row -> row_ok incl (ev_data e) row.
Proof.
  intros Hf. unfold fim_event.
  destruct (negb _); [by intros [= <- <-]|]. destruct (ev_data e) as [|d]; [done|].
  destruct (negb _); [by intros [= <- <-]|].
  destruct (child_records _ _) as [[c r]|] eqn:Ec; [|by intros [= <- <-]].
  apply child_records_data in Ec as [Hd _].
  pose proof (tables_handler r incl d (mkFs fim c) (conj Hf Hd)) as Hp. unfold post in Hp.
  destruct (AuditSyscallRecordHandler path_normalize warnings current_time r (mkFs fim c)) as [[[[|] [|]]|ex] s]; try done;
    try (destruct Hp; by intros [= <- <-]).
  destruct Hp as [Hp Hs]. intros [= E <-]. split; [done|]. intros row ->. split.
  - apply emit_included in E as (p & Hin & Hrow). exists p. destruct Hp as [Hp _]. by rewrite <- Hp.
  - apply emit_uid in E. by rewrite <- Hs.
Qed.

(** C15: whatever events arrive, every row emitted names a configured path, as its
    path or its destination, the configured paths are not changed, and the inode
    table never grows past 20000 entries. *)
Theorem emitted_rows_are_configured events fim incl rows fim' :
  tables_ok incl fim -> process_all events fim = (Ok rows, fim') ->
  tables_ok incl fim' /\ Forall (about_included incl) rows.
Proof.
  intros Hf E. unfold fim_ProcessEvents in E.
  eapply (for_fold_inv (tables_ok incl) (Forall (about_included incl))) in E; [done| |done|constructor].
  intros acc e s r s' _ Hs Hacc Es.
  destruct (event_of s e) as [[[row|]|] s1] eqn:Ee; simplify_eq;
    destruct (event_tables _ _ _ _ _ Hs Ee) as [Ht Hr]; split; try done.
  apply Forall_app_2; [done|]. constructor; [|done]. by apply Hr.
Qed.

(** ** Opening *)

(** An [open], [openat] or [creat] of [path] in [dir] that returned [fd]. *)
Definition open_event (pid fd inode : Z) (dir path : string) (trunc : bool) (e : AuditEvent) : Prop :=
  exists d rl c r, e = mkAuditEvent SyscallEvent (SyscallData d) rl /\
    child_records rl (fresh_context d, None) = Some (c, r) /\
    process_id d = pid /\ syscall_number d ∈ [NR_open; NR_openat; NR_creat] /\
    GetIntegerFieldFromMap (fields r) "exit" 16 0 = (true, fd) /\
    is_truncate (syscall_number d) r = trunc /\ open_input c = Some (dir, path, inode).

(** There is room for the process: it is known or the table is not full. *)
Definition process_room (fim : AuditdFimContext) (pid : Z) : Prop :=
  is_Some (proc_data_ (process_map fim) !! pid) \/
  (size (proc_data_ (process_map fim)) < process_limit)%nat.

Lemma pm_save_room fim fd pid inode op : process_room fim pid ->
  exists m, pm_save fd pid inode op (process_map fim) = Some m /\
    forall fim', process_map fim' = m ->
      (tracked fim pid fd = None -> tracked fim' pid fd = Some (mkFd inode op)) /\
      forall fd', fd' <> fd -> tracked fim' pid fd' = tracked fim pid fd'.
Proof.
  intros Hroom. unfold pm_save.
  destruct (proc_data_ (process_map fim) !! pid) as [fds|] eqn:E.
  - eexists. split; [done|]. intros fim' E'. unfold tracked. rewrite E', E. cbn. rewrite lookup_insert_eq. cbn.
    unfold insert_new. split.
    + intros Hn. rewrite Hn. by rewrite lookup_insert_eq.
    + intros fd' Hne. destruct (fd_data_ fds !! fd); [done|]. by rewrite lookup_insert_ne.
  - destruct Hroom as [[? Hsome]|Hroom]; [congruence|]. cbv zeta. rewrite map_size_insert_None by done.
    destruct (Nat.ltb_spec process_limit (Datatypes.S (size (proc_data_ (process_map fim))))); [lia|].
    rewrite lookup_insert_eq. eexists. split; [done|]. intros fim' E'. unfold tracked. rewrite E', E. cbn.
    rewrite lookup_insert_eq. cbn. unfold insert_new. rewrite lookup_empty. split.
    + intros _. by rewrite lookup_insert_eq.
    + intros fd' Hne. by rewrite lookup_insert_ne by done.
Qed.

Lemma ino_save_lookup inode type path m : (size m < inode_limit)%nat ->
  ino_save inode type path m !! inode = Some (mkInode type path).
Proof.
  intros Hm. unfold ino_save. cbv zeta.
  assert (size (<[inode:=mkInode type path]> m) <= Datatypes.S (size m))%nat as Hs.
  { destruct (m !! inode) eqn:E; [rewrite map_size_insert_Some | rewrite map_size_insert_None]; by eauto. }
  destruct (Nat.ltb_spec inode_limit (size (<[inode:=mkInode type path]> m))); [lia|].
  by rewrite lookup_insert_eq.
Qed.

Lemma open_handler d c r fd fim fim1 dir path inode m :
  syscall_number d ∈ [NR_open; NR_openat; NR_creat] -> sc_data c = d ->
  GetIntegerFieldFromMap (fields r) "exit" 16 0 = (true, fd) ->
  open_input c = Some (dir, path, inode) ->
  let op := if is_truncate (syscall_number d) r then OpOpenTruncate else OpOpen in
  let target := NormalizePath path_normalize dir path in
  pm_save fd (process_id d) inode op (process_map fim) = Some m ->
  fim1 = mkFim (included_path_list fim) m (ino_save inode InoFile target (inode_map fim)) ->
  AuditSyscallRecordHandler path_normalize warnings current_time r (mkFs fim c) =
  (Ok (true, false), mkFs fim1
     (set_data (IOData target (if is_truncate (syscall_number d) r then IOOpenTruncate else IOOpen) true)
        (set_type (if is_truncate (syscall_number d) r then TyOpenTruncate else TyOpen) (set_return fd c)))).
Proof.
  intros Hn Hd Hex Hin op target Hm ->. unfold AuditSyscallRecordHandler. rewrite Hex. cbn [negb].
  unfold upd_sc. rewrite bind_modify, bind_gets. cbn [fs_sc fs_fim].
  assert (sc_number (set_return fd c) = syscall_number d) as En by (unfold sc_number; cbn; by rewrite Hd).
  assert (one_of [NR_creat; NR_mknod; NR_mknodat; NR_open; NR_openat; NR_open_by_handle_at] (syscall_number d) = true
          /\ one_of [NR_fork; NR_vfork; NR_clone] (syscall_number d) = false
          /\ one_of [NR_link; NR_linkat; NR_symlink; NR_symlinkat] (syscall_number d) = false
          /\ (syscall_number d =? NR_name_to_handle_at) = false
          /\ one_of [NR_rename; NR_renameat; NR_renameat2] (syscall_number d) = false
          /\ one_of [NR_unlink; NR_unlinkat] (syscall_number d) = false
          /\ (syscall_number d =? NR_open_by_handle_at) = false) as (H1 & H2 & H3 & H4 & H5 & H6 & H7).
  { repeat (apply elem_of_cons in Hn as [-> | Hn]; [done|]). by apply elem_of_nil in Hn. }
  cbv zeta. rewrite En, H1, H2, H3, H4, H5, H6.
  erewrite bind_run; [done|].
  unfold HandleOpenOrCreateSyscallRecord. rewrite bind_gets. cbn [fs_sc]. rewrite En. cbv zeta.
  unfold upd_sc. rewrite bind_modify, bind_gets. cbn [fs_sc fs_fim].
  change (open_input (set_type _ (set_return fd c))) with (open_input c). rewrite Hin, bind_gets, H7.
  cbn [andb]. rewrite bind_modify. cbn [fs_sc fs_fim].
  unfold sc_pid. cbn [sc_data set_type set_return return_value]. rewrite Hd.
  unfold bind at 1, save_fd. cbn [fs_fim]. fold op target. rewrite Hm. done.
Qed.

(** The row an [open] gives. *)
Definition open_rows (trunc : bool) : list string :=
  if trunc then ["open+truncate"] else if show_accesses then ["open"] else [].

Lemma open_event_run fim pid fd inode dir path trunc e :
  open_event pid fd inode dir path trunc e -> process_room fim pid ->
  (size (inode_map fim) < inode_limit)%nat ->
  NormalizePath path_normalize dir path ∈ included_path_list fim ->
  exists o fim1, event_of fim e = (Ok o, fim1) /\
    included_path_list fim1 = included_path_list fim /\
    inode_map fim1 !! inode = Some (mkInode InoFile (NormalizePath path_normalize dir path)) /\
    (tracked fim pid fd = None ->
     tracked fim1 pid fd = Some (mkFd inode (if trunc then OpOpenTruncate else OpOpen))) /\
    (forall fd', fd' <> fd -> tracked fim1 pid fd' = tracked fim pid fd') /\
    summary <$> option_list o =
      (fun op => (Some op, Some (NormalizePath path_normalize dir path))) <$> open_rows trunc.
Proof.
  intros (d & rl & c & r & -> & Hc & <- & Hn & Hex & <- & Hin) Hroom Hi Hp.
  set (trunc := is_truncate (syscall_number d) r) in *. set (target := NormalizePath path_normalize dir path) in *.
  destruct (child_records_data _ _ _ _ _ Hc) as [Hd Hpart].
  destruct (pm_save_room fim fd (process_id d) inode (if trunc then OpOpenTruncate else OpOpen) Hroom)
    as (m & Em & Hm).
  set (fim1 := mkFim (included_path_list fim) m (ino_save inode InoFile target (inode_map fim))).
  pose proof (open_handler d c r fd fim fim1 dir path inode m Hn Hd Hex Hin Em eq_refl) as Hrun.
  fold trunc target in Hrun.
  destruct (emit_io fim1 (set_data (IOData target (if trunc then IOOpenTruncate else IOOpen) true)
              (set_type (if trunc then TyOpenTruncate else TyOpen) (set_return fd c))) target _ _
              (ltac:(by destruct trunc)) Hpart eq_refl) as (o & Eo & Ho).
  exists o, fim1. split.
  { unfold fim_event. cbn [ev_type ev_data record_list]. rewrite (bool_decide_eq_true_2 _ eq_refl).
    assert (L_ShouldHandle (syscall_number d) = true) as ->
      by (clear -Hn; repeat (apply elem_of_cons in Hn as [-> | Hn]; [done|]); by apply elem_of_nil in Hn).
    cbn [negb]. rewrite Hc, Hrun. cbn [fs_fim fs_sc]. by rewrite Eo. }
  specialize (Hm fim1 eq_refl) as [Hm1 Hm2]. repeat split; try done; [by apply ino_save_lookup|].
  cbn [included_path_list fim1] in Ho. rewrite (bool_decide_eq_true_2 _ Hp) in Ho. cbn [andb] in Ho.
  unfold open_rows. destruct trunc; cbn [io_operation fst snd] in Ho.
  - rewrite orb_true_r in Ho. destruct Ho as (row & -> & R1 & R2). cbn. unfold summary. by rewrite R1, R2.
  - rewrite orb_false_r in Ho. destruct show_accesses; [|by rewrite Ho].
    destruct Ho as (row & -> & R1 & R2). cbn. unfold summary. by rewrite R1, R2.
Qed.

Lemma write_is_reported fim pid fd inode dir path trunc e1 e2 :
  open_event pid fd inode dir path trunc e1 -> io_event pid fd true e2 ->
  tracked fim pid fd = None -> process_room fim pid -> (size (inode_map fim) < inode_limit)%nat ->
  NormalizePath path_normalize dir path ∈ included_path_list fim ->
  exists rows fim', process_all [e1; e2] fim = (Ok rows, fim') /\
    summary <$> rows = (fun op => (Some op, Some (NormalizePath path_normalize dir path))) <$>
                         (open_rows trunc ++ ["write"]).
Proof.
  intros He1 He2 Ht Hroom Hi Hp.
  destruct (open_event_run fim pid fd inode dir path trunc e1 He1 Hroom Hi Hp) as (o & fim1 & E1 & E2 & E3 & E4 & _ & E6).
  destruct (io_run [e2] [true] fim1 pid fd _ _ (keep_row [] o) (ltac:(by repeat constructor)) (E4 Ht) E3) as (rows & fim' & R1 & R2).
  { by rewrite E2. }
  exists (keep_row [] o ++ rows), fim'. unfold fim_ProcessEvents. rewrite (process_rows _ _ _ _ _ _ E1). split; [exact R1|].
  rewrite !fmap_app. cbn [keep_row app]. rewrite E6, R2. f_equal. by destruct trunc; cbn; rewrite ?andb_false_r.
Qed.

Lemma io_event_untracked fim pid fd write e : io_event pid fd write e -> tracked fim pid fd = None ->
  exists fim', event_of fim e = (Ok None, fim').
Proof.
  intros (sd & r & -> & Hr & <- & Hfd & Hex & Hn) Ht.
  destruct (GetIntegerFieldFromMap (fields r) "exit" 16 0) as [ok ex] eqn:Eex. cbn in Hex. subst ok.
  destruct (io_context sd write ex Hn) as (Hh & Hk & Hm & Hrun).
  assert (exists m, pm_getReference warnings current_time (process_id sd) fd (process_map fim) = (None, m)) as [m Em].
  { unfold tracked in Ht. unfold pm_getReference, in_process, fd_getReference.
    destruct (proc_data_ (process_map fim) !! process_id sd) as [fds|]; [|by eexists].
    cbn in Ht. rewrite Ht. by eexists. }
  eexists. unfold fim_event. cbn [ev_type ev_data record_list].
  rewrite (bool_decide_eq_true_2 _ eq_refl), Hh. cbn [negb child_records child_record].
  rewrite Hr. cbn [Z.eqb AUDIT_SYSCALL Pos.eqb].
  rewrite (Hrun r) by done. unfold upd_sc. rewrite bind_modify. cbn [fs_sc fs_fim].
  unfold HandleFileDescriptorSyscallRecord, bind at 1. rewrite bind_gets. cbn [fs_sc].
  rewrite Hk. change (sc_number (set_return ex (fresh_context sd))) with (syscall_number sd).
  rewrite Hm, Hfd. unfold upd_sc. rewrite bind_modify. cbn [fs_sc fs_fim].
  unfold bind at 1, on_procs. cbn [fs_fim process_map].
  change (sc_pid (set_return ex (fresh_context sd))) with (process_id sd). rewrite Em. done.
Qed.

(** An [open], [openat] or [creat] that gave the descriptor [n]: the kernel prints the result
    of a system call in decimal. *)
Definition opens_descriptor (pid n inode : Z) (dir path : string) (trunc : bool) (e : AuditEvent) : Prop :=
  exists d rl c r, e = mkAuditEvent SyscallEvent (SyscallData d) rl /\
    child_records rl (fresh_context d, None) = Some (c, r) /\
    process_id d = pid /\ syscall_number d ∈ [NR_open; NR_openat; NR_creat] /\
    fields r !! "exit" = Some (to_string n) /\
    is_truncate (syscall_number d) r = trunc /\ open_input c = Some (dir, path, inode).

Lemma opens_descriptor_event pid n inode dir path trunc e : 0 <= n < 2 ^ 31 ->
  opens_descriptor pid n inode dir path trunc e ->
  exists fd, open_event pid fd inode dir path trunc e /\ (n < 10 -> fd = n) /\ (10 <= n -> n < fd).
Proof.
  intros Hn (d & rl & c & r & He & Hc & Hp & Hs & Hx & Ht & Hi).
  destruct (descriptor_read_as_hex n Hn) as (fd & Hfd & Hfd'). exists fd. split; [|done].
  exists d, rl, c, r. split_and!; try done. unfold GetIntegerFieldFromMap, GetStringFieldFromMap. by rewrite Hx, Hfd.
Qed.

(** C28: A file that a process opens under a descriptor the tables do not hold, and then writes
    through that descriptor, is reported as written, with the path that the open resolved,
    exactly when the descriptor is below ten. The kernel prints the result of the open in
    decimal and the argument of the write in hexadecimal, and the code reads both as
    hexadecimal: a descriptor of two digits is filed under another number, and the write
    through it is not reported. *)
Theorem written_file_is_reported_below_ten fim pid n inode dir path trunc e1 e2 :
  0 <= n < 2 ^ 31 -> opens_descriptor pid n inode dir path trunc e1 -> io_event pid n true e2 ->
  tracked fim pid n = None -> process_room fim pid -> (size (inode_map fim) < inode_limit)%nat ->
  NormalizePath path_normalize dir path ∈ included_path_list fim ->
  exists rows fim', process_all [e1; e2] fim = (Ok rows, fim') /\
    summary <$> rows = (fun op => (Some op, Some (NormalizePath path_normalize dir path))) <$>
                         (open_rows trunc ++ if n <? 10 then ["write"] else []).
Proof.
  intros Hn Ho He2 Ht Hroom Hi Hp. destruct (opens_descriptor_event _ _ _ _ _ _ _ Hn Ho) as (fd & He1 & Hlow & Hhigh).
  destruct (Z.ltb_spec n 10) as [Hlt|Hge].
  { rewrite (Hlow Hlt) in He1. by eapply write_is_reported. }
  specialize (Hhigh Hge).
  destruct (open_event_run fim pid fd inode dir path trunc e1 He1 Hroom Hi Hp) as (o & fim1 & E1 & _ & _ & _ & E5 & E6).
  destruct (io_event_untracked fim1 pid n true e2 He2) as [fim2 E2]; [rewrite E5 by lia; done|].
  exists (keep_row [] o), fim2. unfold fim_ProcessEvents.
  rewrite (process_rows _ _ _ _ _ _ E1), (process_rows _ _ _ _ _ _ E2).
  cbn. rewrite !app_nil_r. split; [done | exact E6].
Qed.

(** *** What else the handlers get wrong *)

(** Events of [mmap] are dropped when the record with the descriptor is there. *)
Lemma mapped_file_is_ignored fim d rl c r :
  child_records rl (fresh_context d, None) = Some (c, r) -> mmap_record_present c = true ->
  syscall_number d = NR_mmap ->
  event_of fim (mkAuditEvent SyscallEvent (SyscallData d) rl) = (Ok None, fim).
Proof.
  intros Hc Hm Hn. unfold fim_event. cbn [ev_type ev_data record_list].
  rewrite (bool_decide_eq_true_2 _ eq_refl), Hn, Hc. apply child_records_data in Hc as [Hd _].
  cbn [negb L_ShouldHandle]. change (L_ShouldHandle NR_mmap) with true. cbn [negb].
  unfold AuditSyscallRecordHandler. destruct (GetIntegerFieldFromMap _ _ _ _) as [[|] ex]; [|done].
  cbn [negb]. unfold upd_sc. rewrite bind_modify, bind_gets. cbn [fs_sc]. unfold sc_number.
  cbn [sc_data set_return]. rewrite Hd. cbn [sc_data fresh_context]. rewrite Hn. cbn [mmap_record_present set_return].
  rewrite Hm. done.
Qed.

(** a renamed file keeps its old path in the inode table: whatever the new
    path is, later operations on it are reported under the name it had before. *)
Theorem renamed_file_keeps_its_old_path fim c ino :
  size (path_record_map c) = 4%nat ->
  let source := item_inode (default no_item (path_record_map c !! 2)) in
  let destination := item_inode (default no_item (path_record_map c !! 3)) in
  inode_map fim !! source = Some ino -> (size (inode_map fim) < inode_limit)%nat ->
  exists s, HandleRenameSyscallRecord path_normalize (mkFs fim c) = (Ok true, s) /\
    inode_map (fs_fim s) !! destination = Some ino.
Proof.
  intros Hsz source destination Hi Hroom. unfold HandleRenameSyscallRecord, upd_sc, item_count, item.
  rewrite bind_modify, bind_gets. cbn [fs_sc fs_fim path_record_map set_type]. rewrite Hsz.
  cbn [Nat.eqb orb negb]. rewrite !bind_gets, bind_modify. cbn [fs_sc fs_fim path_record_map set_type set_data].
  unfold bind at 1, on_inodes at 1. cbn [fs_fim inode_map]. fold source.
  unfold ino_takeAndRemove. rewrite Hi. rewrite bind_gets. cbn [fs_sc path_record_map set_data set_type]. fold destination.
  eexists. split; [done|]. cbn [fs_fim inode_map]. destruct ino as [ty path].
  apply ino_save_lookup. rewrite map_size_delete_Some by eauto. lia.
Qed.

End FimFacts.
