(* ===== verification/AuditTables.v ===== *)
(** * The tables on top of the audit publisher

    The subscribers process_events.cpp, socket_events.cpp, user_events.cpp and
    selinux_events.cpp of osquery/tables/events/linux, and the callbacks by which
    they and ProcessFileEvents.v hand their rows to the event store of Events.v.
    The functions that build rows are [noexcept]: an exception inside ends the
    process. *)
From S2P Require Import Prelude Boost Conversions Json Database Query Host Events Scan AuditRecords AuditFacts ProcessFileEvents.
Local Open Scope Z_scope.

Definition NR_connect : Z := 42.
Definition NR_bind : Z := 49.
Definition NR_execve : Z := 59.

Definition process_syscall_set : list Z := [NR_execve].
Definition socket_syscall_set : list Z := [NR_bind; NR_connect].

(** [map.at(key)] inside a [noexcept] function. *)
Definition at_or_end {A} (m : gmap string A) (k : string) : result A :=
  match m !! k with Some v => Ok v | None => Throw AssertFailure end.

(** [std::string::substr] inside a [noexcept] function. *)
Definition substr_or_end (s : string) (pos n : nat) : result string :=
  match substr_n s pos n with Ok t => Ok t | Throw _ => Throw AssertFailure end.

Definition rbind {A B} (r : result A) (k : A -> result B) : result B :=
  match r with Ok a => k a | Throw e => Throw e end.

(** One row at most for each event. *)
Fixpoint rows_of {A} (f : A -> result (option Row)) (l : list A) : result (list Row) :=
  match l with
  | [] => Ok []
  | x :: l => rbind (f x) (fun o => rbind (rows_of f l) (fun rows => Ok (option_list o ++ rows)))
  end.

Section AuditTables.
Context `{BoostHex} (getUptime : Z).

(** ** process_events *)

Section ProcessEvents.
(** [SQL::selectAllFrom("file", "path", EQUALS, path)]. *)
Context (select_file : string -> list Row).

(** The arguments, in the order of the map, separated by spaces once something
    was written. *)
Definition cmdline_step (cmdline : string) (arg : string * string) : string :=
  if decide (arg.1 = "argc") then cmdline
  else (if negb (is_empty cmdline) then cmdline +:+ " " else cmdline) +:+ DecodeAuditPathValues arg.2.

Definition cmdline (execve_fields : gmap string string) : string :=
  foldl cmdline_step "" (map_sorted execve_fields).

(** The times of the executable, if the table knows it. *)
Definition file_times (path : string) (row : Row) : result Row :=
  match select_file path with
  | [f] =>
      rbind (at_or_end f "ctime") (fun ctime =>
      rbind (at_or_end f "atime") (fun atime =>
      rbind (at_or_end f "mtime") (fun mtime =>
      Ok (<["btime" := "0"]> (<["mtime" := mtime]> (<["atime" := atime]> (<["ctime" := ctime]> row)))))))
  | _ => Ok row
  end.

Definition process_row (syscall execve path cwd : AuditEventRecord) : result (option Row) :=
  let row := CopyFieldFromMap ∅ (fields syscall) "auid" "0" in
  let row := CopyFieldFromMap row (fields syscall) "pid" "0" in
  let row := CopyFieldFromMap row (fields syscall) "uid" "0" in
  let row := CopyFieldFromMap row (fields syscall) "euid" "0" in
  let row := CopyFieldFromMap row (fields syscall) "gid" "0" in
  let row := CopyFieldFromMap row (fields syscall) "egid" "0" in
  let row := CopyFieldFromMap row (fields cwd) "cwd" "0" in
  let row := <["parent" := to_string (GetIntegerFieldFromMap (fields syscall) "ppid" 10 kMaxU64).2]> row in
  let exe := DecodeAuditPathValues (GetStringFieldFromMap (fields syscall) "exe" "").2 in
  let row := <["path" := exe]> row in
  rbind (file_times exe row) (fun row =>
  let row := <["overflows" := ""]> row in
  let row := <["env_size" := "0"]> row in
  let row := <["env_count" := "0"]> row in
  let row := <["env" := ""]> row in
  let row := <["uptime" := to_string getUptime]> row in
  let line := cmdline (fields execve) in
  let row := <["cmdline" := line]> row in
  let row := <["cmdline_size" := to_string (Z.of_nat (String.length line))]> row in
  let row := CopyFieldFromMap row (fields path) "mode" "" in
  let row := <["owner_uid" := (GetStringFieldFromMap (fields path) "ouid" "0").2]> row in
  Ok (Some (<["owner_gid" := (GetStringFieldFromMap (fields path) "ogid" "0").2]> row))).

Definition process_event (e : AuditEvent) : result (option Row) :=
  if negb (bool_decide (ev_type e = SyscallEvent)) then Ok None
  else match ev_data e with
       | UserData _ => Throw AssertFailure
       | SyscallData d =>
           if negb (syscall_number d =? NR_execve) then Ok None
           else match GetEventRecord e AUDIT_SYSCALL, GetEventRecord e AUDIT_EXECVE,
                      GetEventRecord e AUDIT_PATH, GetEventRecord e AUDIT_CWD with
                | Some syscall, Some execve, Some path, Some cwd => process_row syscall execve path cwd
                | _, _, _, _ => Ok None
                end
       end.

Definition process_ProcessEvents : list AuditEvent -> result (list Row) := rows_of process_event.

End ProcessEvents.

(** ** socket_events *)

Definition ip4FromSaddr (saddr : string) (offset : nat) : result string :=
  rbind (substr_or_end saddr offset 8) (fun text =>
  let result := takeOr (tryTo TLong text 16) 0 in
  Ok (to_string (Z.shiftr (Z.land result 0xff000000) 24) +:+ "." +:+
      to_string (Z.shiftr (Z.land result 0x00ff0000) 16) +:+ "." +:+
      to_string (Z.shiftr (Z.land result 0x0000ff00) 8) +:+ "." +:+
      to_string (Z.land result 0x000000ff))).

(** The groups of an IPv6 address from [i] on, [n] of them left. *)
Fixpoint ip6_groups (saddr : string) (i n : nat) : result string :=
  match n with
  | O => Ok ""
  | Datatypes.S n =>
      rbind (substr_or_end saddr (16 + i * 4) 4) (fun group =>
      rbind (ip6_groups saddr (Datatypes.S i) n) (fun rest =>
      Ok (group +:+ (if (i =? 0)%nat || negb (i mod 7 =? 0)%nat then ":" else "") +:+ rest)))
  end.

Definition starts (saddr : string) (c0 c1 : ascii) : bool :=
  bool_decide (char_at saddr 0 = c0) && bool_decide (char_at saddr 1 = c1).

(** The name of a local socket. [end - begin] is unsigned: when it is negative the
    rest of the text is taken. *)
Definition unix_name (saddr : string) : string :=
  let begin := if bool_decide (char_at saddr 4 = "0"%char) && bool_decide (char_at saddr 5 = "0"%char)
               then 6%nat else 4%nat in
  let rest := String.substring begin (String.length saddr) saddr in
  let n := match find_str "00" rest with
           | None => (String.length saddr - begin)%nat
           | Some e => if (e + 4 <? begin)%nat then String.length saddr else (e + 4 - begin)%nat
           end in
  match unhex (String.substring begin n saddr) with
  | Some name => name
  | None => "unknown"
  end.

(** [None]: the family is not known. Otherwise the row and [unix_socket]. *)
Definition parseSockAddr (saddr : string) (row : Row) : result (option (Row * bool)) :=
  let bind_action := bool_decide (row !! "action" = Some "bind") in
  let address_column := if bind_action then "local_address" else "remote_address" in
  let port_column := if bind_action then "local_port" else "remote_port" in
  let row := if bind_action
             then <["remote_port" := "0"]> (<["remote_address" := "0"]> row)
             else <["local_port" := "0"]> (<["local_address" := "0"]> row) in
  let port text := to_string (takeOr (tryTo TLong text 16) 0) in
  if starts saddr "0" "2" then
    rbind (substr_or_end saddr 4 4) (fun text =>
    rbind (ip4FromSaddr saddr 8) (fun address =>
    Ok (Some (<[address_column := address]> (<[port_column := port text]> (<["family" := "2"]> row)), false))))
  else if starts saddr "0" "A" then
    rbind (substr_or_end saddr 4 4) (fun text =>
    rbind (ip6_groups saddr 0 8) (fun address =>
    Ok (Some (<[address_column := lower address]> (<[port_column := port text]> (<["family" := "10"]> row)), false))))
  else if starts saddr "0" "1" && (6 <? String.length saddr)%nat then
    Ok (Some (<["socket" := unix_name saddr]> (<["family" := "1"]> row), true))
  else Ok None.

Definition socket_row (FLAGS_audit_allow_unix : bool) (action : string) (syscall sockaddr : AuditEventRecord)
    : result (option Row) :=
  let row := {["action" := action]} in
  let saddr := (GetStringFieldFromMap (fields sockaddr) "saddr" "").2 in
  if (String.length saddr <? 4)%nat then Ok None
  else if starts saddr "1" "0" then Ok None
  else
    let row := CopyFieldFromMap row (fields syscall) "auid" "" in
    let row := CopyFieldFromMap row (fields syscall) "pid" "" in
    rbind (at_or_end (fields syscall) "exe") (fun exe =>
    rbind (at_or_end (fields syscall) "a0") (fun fd =>
    rbind (at_or_end (fields syscall) "success") (fun success =>
    let row := <["path" := DecodeAuditPathValues exe]> row in
    let row := <["fd" := fd]> row in
    let row := <["success" := if decide (success = "yes") then "1" else "0"]> row in
    let row := <["uptime" := to_string getUptime]> row in
    let row := <["protocol" := "0"]> row in
    let row := <["local_port" := "0"]> row in
    let row := <["remote_port" := "0"]> row in
    rbind (parseSockAddr saddr row) (fun o =>
    match o with
    | None => Ok None
    | Some (row, unix_socket) => Ok (if unix_socket && negb FLAGS_audit_allow_unix then None else Some row)
    end)))).

Definition socket_event (FLAGS_audit_allow_unix : bool) (e : AuditEvent) : result (option Row) :=
  if negb (bool_decide (ev_type e = SyscallEvent)) then Ok None
  else match ev_data e with
       | UserData _ => Throw AssertFailure
       | SyscallData d =>
           let action := if syscall_number d =? NR_connect then Some "connect"
                         else if syscall_number d =? NR_bind then Some "bind" else None in
           match action with
           | None => Ok None
           | Some action =>
               match GetEventRecord e AUDIT_SYSCALL, GetEventRecord e AUDIT_SOCKADDR with
               | Some syscall, Some sockaddr => socket_row FLAGS_audit_allow_unix action syscall sockaddr
               | _, _ => Ok None
               end
           end
       end.

Definition socket_ProcessEvents (FLAGS_audit_allow_unix : bool) : list AuditEvent -> result (list Row) :=
  rows_of (socket_event FLAGS_audit_allow_unix).

(** ** user_events *)

Definition user_row (r : AuditEventRecord) : Row :=
  let row := <["uptime" := to_string getUptime]> ∅ in
  let row := <["type" := to_string (rec_type r)]> row in
  let row := CopyFieldFromMap row (fields r) "uid" "" in
  let row := CopyFieldFromMap row (fields r) "pid" "" in
  let row := CopyFieldFromMap row (fields r) "auid" "" in
  let row := CopyFieldFromMap row (fields r) "terminal" "" in
  let row := <["address" := (GetStringFieldFromMap (fields r) "addr" "").2]> row in
  let row := <["path" := DecodeAuditPathValues (GetStringFieldFromMap (fields r) "exe" "").2]> row in
  let message := (GetStringFieldFromMap (fields r) "msg" "").2 in
  if (1 <? String.length message)%nat
  then <["message" := String.substring 1 (String.length message) message]> row else row.

Definition user_ProcessEvents (l : list AuditEvent) : list Row :=
  flat_map (fun e => if decide (ev_type e = UserEvent) then map user_row (record_list e) else []) l.

(** ** selinux_events *)

Definition selinux_label (type : Z) : string :=
  match List.find (fun l => l.1 =? type) kSELinuxRecordLabels with
  | Some (_, label) => label
  | None => to_string type
  end.

Definition selinux_row (r : AuditEventRecord) : Row :=
  {["type" := selinux_label (rec_type r); "message" := raw_data r; "uptime" := to_string getUptime]}.

Definition selinux_ProcessEvents (l : list AuditEvent) : list Row :=
  flat_map (fun e => if decide (ev_type e = SELinuxEvent) then map selinux_row (record_list e) else []) l.

(** ** The callbacks *)

Section Callbacks.
Context {S : Type} {A : DatabaseAPI S} {Ho : Host S} {B : Boost} {R : RapidJSON}.
Context (dbNamespace : string) (events_max : Z) (FLAGS_events_optimize : bool).
Context (forwardEvent : string -> M S unit).

(** [addBatch(row_list)]. *)
Definition add_rows (rows : list Row) : M (Sub S) Status :=
  let* now := on_sub getUnixTime in
  addBatch dbNamespace events_max FLAGS_events_optimize forwardEvent rows now.

(** [init]: nothing is subscribed when the flag is off. *)
Definition audit_init (allowed : bool) (subscribe : M (Sub S) unit) : M (Sub S) Status :=
  if negb allowed then ret (mkStatus 1 "Subscriber disabled via configuration")
  else subscribe ;;; ret (mkStatus 0 "OK").

Definition process_init (FLAGS_audit_allow_process_events : bool) := audit_init FLAGS_audit_allow_process_events.
Definition socket_init (FLAGS_audit_allow_sockets : bool) := audit_init FLAGS_audit_allow_sockets.
Definition user_init (FLAGS_audit_allow_user_events : bool) := audit_init FLAGS_audit_allow_user_events.
Definition selinux_init (FLAGS_audit_allow_selinux_events : bool) := audit_init FLAGS_audit_allow_selinux_events.

(** process_events, socket_events and user_events store their rows in one batch. *)
Definition batch_Callback (process : list AuditEvent -> result (list Row)) (events : list AuditEvent)
    : M (Sub S) Status :=
  let* rows := of_result (process events) in
  add_rows rows ;;;
  ret (mkStatus 0 "Ok").

Definition process_Callback (select_file : string -> list Row) : list AuditEvent -> M (Sub S) Status :=
  batch_Callback (process_ProcessEvents select_file).

Definition socket_Callback (FLAGS_audit_allow_unix : bool) : list AuditEvent -> M (Sub S) Status :=
  batch_Callback (socket_ProcessEvents FLAGS_audit_allow_unix).

Definition user_Callback : list AuditEvent -> M (Sub S) Status :=
  batch_Callback (fun events => Ok (user_ProcessEvents events)).

(** selinux_events stores them one by one. *)
Definition selinux_Callback (events : list AuditEvent) : M (Sub S) Status :=
  for_each (selinux_ProcessEvents events)
    (fun row => add dbNamespace events_max FLAGS_events_optimize forwardEvent row ;;; ret tt) ;;;
  ret (mkStatus 0 "Ok").

(** process_file_events keeps its tables beside the subscriber. *)
Definition fim_Callback (path_normalize : string -> string) (show_partial show_accesses warnings : bool)
    (current_time : Z) (events : list AuditEvent) : M (AuditdFimContext * Sub S) Status :=
  let* rows := zoom fst (fun f s => (f, s.2))
    (fim_ProcessEvents path_normalize show_partial show_accesses warnings current_time getUptime events) in
  zoom snd (fun s f => (f.1, s)) (add_rows rows) ;;;
  ret (mkStatus 0 "OK").

End Callbacks.
End AuditTables.

(** * Facts about the audit tables

    Addresses and command lines, and what becomes of records on their way from
    the publisher through a subscriber. *)
Local Open Scope Z_scope.

(** ** IPv4 addresses *)

(** The number two hexadecimal digits denote. *)
Definition byte_of_digits (h l : ascii) (b : Z) : Prop :=
  exists x y, digit_value 16 h = Some x /\ digit_value 16 l = Some y /\ b = 16 * x + y.

Lemma digit_value_bound c x : digit_value 16 c = Some x -> 0 <= x < 16.
Proof. destruct c as [[] [] [] [] [] [] [] []]; intros Hc; vm_compute in Hc; simplify_eq; lia. Qed.

Lemma hex_digit_plain c x : digit_value 16 c = Some x ->
  Ascii.is_space c = false /\ c <> "-"%char /\ c <> "+"%char /\ c <> "x"%char /\ c <> "X"%char.
Proof.
  intros Hc. destruct c as [[] [] [] [] [] [] [] []]; try done; vm_compute in Hc; simplify_eq;
    repeat split; done.
Qed.

(** A text of hexadecimal digits is scanned without a sign or a prefix. *)
Lemma strto_hex s v : (forall c, c ∈ chars s -> is_Some (digit_value 16 c)) ->
  digits_value 16 false 0 s = Some v -> strto 16 s = Some (false, v).
Proof.
  intros Hs Hv. destruct s as [|c s]; [done|].
  destruct (Hs c) as [x Hc]; [by left|]. destruct (hex_digit_plain c x Hc) as (P1 & P2 & P3 & P4 & P5).
  unfold strto.
  assert (skip_space (String c s) = String c s) as -> by (cbn; by rewrite P1).
  assert ((match String c s with
           | String "-" r => (true, r)
           | String "+" r => (false, r)
           | _ => (false, String c s)
           end) = (false, String c s)) as ->.
  { destruct c as [[] [] [] [] [] [] [] []]; done. }
  change (detect_base 16 (String c s)) with 16.
  assert (skip_prefix 16 (String c s) = String c s) as ->.
  { destruct s as [|y [|z s]]; [destruct c as [[] [] [] [] [] [] [] []]; done..|].
    destruct (Hs y) as [w Hy]; [right; by left|].
    destruct (hex_digit_plain y w Hy) as (_ & _ & _ & X1 & X2).
    unfold skip_prefix. rewrite (bool_decide_eq_false_2 _ X1), (bool_decide_eq_false_2 _ X2).
    destruct c as [[] [] [] [] [] [] [] []]; done. }
  by rewrite Hv.
Qed.

Lemma byte_field v k : 0 <= k -> Z.shiftr (Z.land v (Z.shiftl 255 k)) k = (v / 2 ^ k) mod 256.
Proof.
  intros Hk. rewrite Z.shiftr_land, Z.shiftr_shiftl_l, Z.sub_diag, Z.shiftl_0_r by done.
  change 255 with (Z.ones 8). rewrite Z.land_ones, Z.shiftr_div_pow2 by lia. done.
Qed.

Lemma tryTo_hex_long s v : (forall c, c ∈ chars s -> is_Some (digit_value 16 c)) ->
  digits_value 16 false 0 s = Some v -> 0 <= v < 2 ^ 63 -> tryTo TLong s 16 = inl v.
Proof.
  intros Hs Hv Hr. unfold tryTo, throwingStringToInt, stol, sto_signed.
  rewrite (strto_hex s v Hs Hv). cbn [negb].
  destruct (Z.leb_spec (- 2 ^ (64 - 1)) v), (Z.ltb_spec v (2 ^ (64 - 1))); try lia; done.
Qed.

(** the eight hexadecimal digits of an IPv4 address in a socket address give
    the four bytes in dotted decimal, in their order. *)
Theorem ip4_is_dotted_bytes pre post h0 l0 h1 l1 h2 l2 h3 l3 b0 b1 b2 b3 :
  byte_of_digits h0 l0 b0 -> byte_of_digits h1 l1 b1 -> byte_of_digits h2 l2 b2 -> byte_of_digits h3 l3 b3 ->
  ip4FromSaddr (pre +:+ of_chars [h0; l0; h1; l1; h2; l2; h3; l3] +:+ post) (String.length pre) =
  Ok (to_string b0 +:+ "." +:+ to_string b1 +:+ "." +:+ to_string b2 +:+ "." +:+ to_string b3).
Proof.
  intros (x0 & y0 & X0 & Y0 & ->) (x1 & y1 & X1 & Y1 & ->) (x2 & y2 & X2 & Y2 & ->) (x3 & y3 & X3 & Y3 & ->).
  set (digits := of_chars [h0; l0; h1; l1; h2; l2; h3; l3]).
  assert (forall s, String.substring (String.length pre) 8 (pre +:+ s) = String.substring 0 8 s) as Hsub.
  { intros s. induction pre as [|c pre IH]; [done|]. rewrite app_cons_str. cbn [String.length String.substring]. apply IH. }
  unfold ip4FromSaddr, substr_or_end, substr_n.
  rewrite Hsub. assert (String.substring 0 8 (digits +:+ post) = digits) as -> by (by destruct post).
  destruct (Nat.ltb_spec (String.length (pre +:+ digits +:+ post)) (String.length pre)) as [Hlt|_].
  { exfalso. rewrite <- !length_chars, chars_app, length_app in Hlt. lia. }
  cbn [rbind].
  assert (forall c, c ∈ chars digits -> is_Some (digit_value 16 c)) as Hd.
  { intros c. cbn. rewrite !elem_of_cons, elem_of_nil. naive_solver. }
  repeat match goal with H : digit_value 16 _ = Some _ |- _ => pose proof (digit_value_bound _ _ H); revert H end.
  intros. set (v := ((16 * x0 + y0) * 256 + (16 * x1 + y1)) * 65536 + ((16 * x2 + y2) * 256 + (16 * x3 + y3))).
  assert (digits_value 16 false 0 digits = Some v) as Hv.
  { cbn [digits of_chars digits_value]. repeat match goal with H : digit_value 16 _ = _ |- _ => rewrite H; clear H end.
    cbn [digits_value]. f_equal. unfold v. lia. }
  rewrite (tryTo_hex_long _ _ Hd Hv) by (unfold v; lia). cbn [takeOr].
  change 0xff000000 with (Z.shiftl 255 24). change 0x00ff0000 with (Z.shiftl 255 16).
  change 0x0000ff00 with (Z.shiftl 255 8). rewrite !byte_field by lia.
  change 0x000000ff with (Z.ones 8). rewrite Z.land_ones by lia.
  assert (v / 2 ^ 24 mod 256 = 16 * x0 + y0) as ->
    by (unfold v; change (2 ^ 24) with (256 * 65536); Z.div_mod_to_equations; lia).
  assert (v / 2 ^ 16 mod 256 = 16 * x1 + y1) as ->
    by (unfold v; change (2 ^ 16) with 65536; Z.div_mod_to_equations; lia).
  assert (v / 2 ^ 8 mod 256 = 16 * x2 + y2) as ->
    by (unfold v; change (2 ^ 8) with 256; Z.div_mod_to_equations; lia).
  assert (v mod 2 ^ 8 = 16 * x3 + y3) as ->
    by (unfold v; change (2 ^ 8) with 256; Z.div_mod_to_equations; lia).
  done.
Qed.

Section TableFacts.
Context `{BoostHex} (getUptime : Z).

(** ** Command lines *)

Lemma cmdline_step_app line k v : k <> "argc" -> line <> "" ->
  cmdline_step line (k, v) = line +:+ " " +:+ DecodeAuditPathValues v.
Proof.
  intros Hk Hl. unfold cmdline_step. cbn [fst snd]. rewrite decide_False by done.
  destruct line; [done|]. cbn [is_empty negb]. by rewrite app_assoc_str.
Qed.

Lemma cmdline_fold l line : Forall (fun kv => kv.1 <> "argc") l -> line <> "" ->
  foldl cmdline_step line l = foldl (fun line w => line +:+ " " +:+ DecodeAuditPathValues w) line l.*2.
Proof.
  intros Hl. revert line. induction Hl as [|[k v] l Hk Hl IH]; intros line Hne; [done|].
  cbn [foldl fmap list_fmap snd]. rewrite cmdline_step_app by done. apply IH. by destruct line.
Qed.

Definition argument_keys : list string := ["a0"; "a1"; "a10"; "a2"; "a3"; "a4"; "a5"; "a6"; "a7"; "a8"; "a9"; "argc"].

Lemma argument_keys_sorted : StronglySorted String.le argument_keys.
Proof. repeat constructor. Qed.

Lemma argument_keys_distinct : NoDup argument_keys.
Proof. apply (bool_decide_unpack (NoDup argument_keys)). by vm_compute. Qed.

(** the arguments of a command are written in the alphabetic order of their
    field names: with eleven arguments the last one comes third. *)
Theorem eleventh_argument_comes_third w0 w1 w2 w3 w4 w5 w6 w7 w8 w9 w10 argc :
  DecodeAuditPathValues w0 <> "" ->
  let D := DecodeAuditPathValues in
  cmdline (list_to_map [("argc", argc); ("a0", w0); ("a1", w1); ("a2", w2); ("a3", w3); ("a4", w4);
                        ("a5", w5); ("a6", w6); ("a7", w7); ("a8", w8); ("a9", w9); ("a10", w10)]) =
  foldl (fun line w => line +:+ " " +:+ D w) (D w0) [w1; w10; w2; w3; w4; w5; w6; w7; w8; w9].
Proof.
  intros H0 D. unfold cmdline.
  set (l := zip argument_keys [w0; w1; w10; w2; w3; w4; w5; w6; w7; w8; w9; argc]).
  match goal with |- context [map_sorted ?m] => assert (m = list_to_map l) as -> end.
  { apply list_to_map_proper; [|].
    - assert (["argc"; "a0"; "a1"; "a2"; "a3"; "a4"; "a5"; "a6"; "a7"; "a8"; "a9"; "a10"] ≡ₚ argument_keys) as Hk
        by (unfold argument_keys; solve_Permutation).
      cbn. rewrite Hk. apply argument_keys_distinct.
    - unfold l. cbn. solve_Permutation. }
  assert (l.*1 = argument_keys) as Hl by done.
  rewrite map_sorted_of_sorted by (rewrite Hl; apply argument_keys_sorted || apply argument_keys_distinct).
  unfold l. cbn [zip zip_with argument_keys foldl].
  change (cmdline_step "" ("a0", w0)) with (D w0).
  pose proof (cmdline_fold [("a1", w1); ("a10", w10); ("a2", w2); ("a3", w3); ("a4", w4); ("a5", w5);
                            ("a6", w6); ("a7", w7); ("a8", w8); ("a9", w9)] (D w0)) as Hf.
  cbn [foldl fmap list_fmap snd] in Hf |- *. rewrite Hf; [done | by repeat constructor | done].
Qed.

(** ** From the publisher to the tables *)

Section Pipeline.
Context (exe : string) (data0 : SyscallAuditEventData).

(** The publisher takes a missing success field for yes. The subscriber of
    sockets reads it with [at]: the exception ends the process. *)
Lemma syscall_event_exe r e : syscall_event exe data0 r = Some e ->
  is_Some (fields r !! "exe") /\ exists d, ev_data e = SyscallData d /\ ev_type e = SyscallEvent /\
    (GetIntegerFieldFromMap (fields r) "syscall" 10 kMaxU64) = (true, syscall_number d) /\
    process_uid d = process_uid data0.
Proof.
  unfold syscall_event, integer_field, GetStringFieldFromMap. intros E.
  destruct (fields r !! "exe"); [|done]. split; [done|].
  repeat (case_match || (apply bind_Some in E as (? & ? & E))); simplify_eq; eexists; cbn; eauto.
Qed.

(** a connect or bind record without a success field passes the publisher,
    which takes it for successful, and ends the process in the socket subscriber,
    which reads the field without a check. *)
Theorem missing_success_ends_the_process allow_unix r s e saddr fd :
  syscall_event exe data0 r = Some e -> fields r !! "success" = None -> fields r !! "a0" = Some fd ->
  fields r !! "syscall" = Some (to_string NR_connect) ->
  rec_type r = AUDIT_SYSCALL -> rec_type s = AUDIT_SOCKADDR -> fields s !! "saddr" = Some saddr ->
  (4 <= String.length saddr)%nat -> starts saddr "1" "0" = false ->
  socket_event getUptime allow_unix (push_record s e) = Throw AssertFailure.
Proof.
  intros He Hs Ha Hn Hr Hsr Hsa Hlen Hnl. pose proof (syscall_event_records _ _ _ _ He) as [Rl Rt].
  apply syscall_event_exe in He as ([x Hx] & d & Ed & _ & Enum & _).
  unfold GetIntegerFieldFromMap, GetStringFieldFromMap in Enum. rewrite Hn in Enum.
  change (tryTo TULong (to_string NR_connect) 10) with (inl NR_connect : Expected Z) in Enum.
  injection Enum as Enum. unfold socket_event. cbn [push_record ev_type ev_data]. rewrite Rt, Ed, <- Enum.
  cbn [bool_decide negb]. rewrite (bool_decide_eq_true_2 _ eq_refl). cbn [negb].
  change (NR_connect =? NR_connect) with true. cbv zeta.
  unfold GetEventRecord. cbn [push_record record_list]. rewrite Rl. cbn [app List.find].
  rewrite Hr, Hsr. change (AUDIT_SYSCALL =? AUDIT_SYSCALL) with true.
  change (AUDIT_SYSCALL =? AUDIT_SOCKADDR) with false. change (AUDIT_SOCKADDR =? AUDIT_SOCKADDR) with true.
  unfold socket_row, GetStringFieldFromMap. rewrite Hsa. cbn [snd].
  destruct (Nat.ltb_spec (String.length saddr) 4); [lia|]. rewrite Hnl.
  unfold at_or_end. by rewrite Hx, Ha, Hs.
Qed.

(** *** User ids *)

Definition unset_uid (e : AuditEvent) : Prop :=
  match ev_data e with SyscallData d => process_uid d = process_uid data0 | UserData _ => True end.

Lemma step_unset events trace r :
  Forall unset_uid events -> map_Forall (fun _ => unset_uid) trace ->
  Forall unset_uid (process_record exe data0 (events, trace) r).1 /\
  map_Forall (fun _ => unset_uid) (process_record exe data0 (events, trace) r).2.
Proof.
  intros He Ht. unfold process_record.
  destruct (is_user_record r); [split; [by apply Forall_app_2; repeat constructor | done]|].
  destruct (IsSELinuxRecord _); [split; [by apply Forall_app_2; repeat constructor | done]|].
  destruct (rec_type r =? AUDIT_SYSCALL).
  { destruct (syscall_event exe data0 r) eqn:E; split; try done; [|by apply map_Forall_delete].
    apply map_Forall_insert_2; [|by apply map_Forall_delete].
    apply syscall_event_exe in E as (_ & d & Ed & _ & _ & Eu). unfold unset_uid. by rewrite Ed. }
  destruct (trace !! audit_id r) as [e|] eqn:E; destruct (rec_type r =? AUDIT_EOE); split; try done.
  - apply Forall_app_2; [done|]. repeat constructor. by apply (Ht _ _ E).
  - by apply map_Forall_delete.
  - apply map_Forall_insert_2; [|done]. apply (Ht _ _ E).
Qed.

Lemma assembled_unset now l : Forall unset_uid (ProcessEvents exe data0 now l ∅).1.
Proof.
  unfold ProcessEvents.
  assert (forall events trace, Forall unset_uid events -> map_Forall (fun _ => unset_uid) trace ->
    Forall unset_uid (foldl (process_record exe data0) (events, trace) l).1) as Hl.
  { induction l as [|r l IH]; intros events trace He Ht; [done|]. cbn [foldl].
    destruct (step_unset events trace r He Ht). destruct (process_record _ _ _ r). by apply IH. }
  specialize (Hl [] ∅ (Forall_nil_2 _) (map_Forall_empty _)).
  by destruct (foldl (process_record exe data0) ([], ∅) l).
Qed.

(** the user id of a file event is never that of the record: the publisher
    copies the event data before it stores the ids, so whatever records arrive,
    the column shows what an uninitialised variable happened to hold. *)
Theorem file_events_show_an_unset_uid path_normalize show_partial show_accesses warnings current_time now l fim rows fim' :
  tables_ok (included_path_list fim) fim ->
  fim_ProcessEvents path_normalize show_partial show_accesses warnings current_time getUptime
    (ProcessEvents exe data0 now l ∅).1 fim = (Ok rows, fim') ->
  Forall (fun row => row !! "uid" = Some (to_string (u64 (process_uid data0)))) rows.
Proof.
  intros Hf E. pose proof (assembled_unset now l) as Hu. rewrite Forall_forall in Hu.
  set (incl := included_path_list fim) in *.
  eapply (for_fold_inv (tables_ok incl)
            (Forall (fun row : Row => row !! "uid" = Some (to_string (u64 (process_uid data0)))))) in E;
    [by destruct E| |done|constructor].
  intros acc e s r s' Hin Hs Hacc Es. specialize (Hu e Hin).
  destruct (fim_event _ _ _ _ _ _ s e) as [[[row|]|] s1] eqn:Ee; simplify_eq;
    destruct (event_tables _ _ _ _ _ _ _ _ _ _ _ Hs Ee) as [Ht Hr]; split; try done.
  apply Forall_app_2; [done|]. constructor; [|done]. destruct (Hr row eq_refl) as [_ Hrow].
  unfold unset_uid in Hu. destruct (ev_data e); [done|]. by rewrite <- Hu.
Qed.

(** *** SELinux *)

Definition no_user_avc (e : AuditEvent) : Prop :=
  ev_type e = SELinuxEvent -> Forall (fun r => rec_type r <> AUDIT_USER_AVC) (record_list e).

Lemma step_no_user_avc events trace r :
  Forall no_user_avc events -> map_Forall (fun _ e => ev_type e = SyscallEvent) trace ->
  Forall no_user_avc (process_record exe data0 (events, trace) r).1 /\
  map_Forall (fun _ e => ev_type e = SyscallEvent) (process_record exe data0 (events, trace) r).2.
Proof.
  intros He Ht. unfold process_record.
  destruct (is_user_record r) eqn:Eu; [split; [by apply Forall_app_2; repeat constructor | done]|].
  destruct (IsSELinuxRecord _).
  { split; [|done]. apply Forall_app_2; [done|]. constructor; [|done]. intros _. constructor; [|done].
    intros E. unfold is_user_record in Eu. by rewrite E in Eu. }
  destruct (rec_type r =? AUDIT_SYSCALL).
  { destruct (syscall_event exe data0 r) eqn:E; split; try done; [|by apply map_Forall_delete].
    apply map_Forall_insert_2; [|by apply map_Forall_delete].
    by apply syscall_event_records in E as [_ E]. }
  destruct (trace !! audit_id r) as [e|] eqn:E; destruct (rec_type r =? AUDIT_EOE); split; try done.
  - apply Forall_app_2; [done|]. constructor; [|done]. intros Hs. by rewrite (Ht _ _ E) in Hs.
  - by apply map_Forall_delete.
  - apply map_Forall_insert_2; [|done]. apply (Ht _ _ E).
Qed.

(** the table of SELinux events never shows a record of type USER_AVC,
    although the type is in its list: the publisher files it as a user event. *)
Theorem user_avc_is_never_shown now l r :
  rec_type r = AUDIT_USER_AVC ->
  selinux_row getUptime r ∉ selinux_ProcessEvents getUptime (ProcessEvents exe data0 now l ∅).1.
Proof.
  intros Hr Hin. unfold selinux_ProcessEvents in Hin.
  assert (forall events trace, Forall no_user_avc events ->
    map_Forall (fun _ e => ev_type e = SyscallEvent) trace ->
    Forall no_user_avc (foldl (process_record exe data0) (events, trace) l).1) as Hl.
  { clear Hin. induction l as [|x l IH]; intros events trace He Ht; [done|]. cbn [foldl].
    destruct (step_no_user_avc events trace x He Ht). destruct (process_record _ _ _ x). by apply IH. }
  specialize (Hl [] ∅ (Forall_nil_2 _) (map_Forall_empty _)). unfold ProcessEvents in Hin.
  destruct (foldl (process_record exe data0) ([], ∅) l) as [events trace]. cbn [fst] in *.
  apply list_elem_of_In, in_flat_map in Hin as (e & He & Hrow). apply list_elem_of_In in He.
  rewrite Forall_forall in Hl. specialize (Hl e He). destruct (decide _) as [Hse|]; [|done].
  apply in_map_iff in Hrow as (x & Hx & Hxin). apply list_elem_of_In in Hxin.
  specialize (Hl Hse). rewrite Forall_forall in Hl. specialize (Hl x Hxin).
  apply Hl. apply (f_equal (fun m : Row => m !! "type")) in Hx. unfold selinux_row in Hx.
  simplify_map_eq. rewrite Hr in Hx. clear -Hx. unfold selinux_label in Hx.
  change (List.find _ kSELinuxRecordLabels) with (Some (AUDIT_USER_AVC, "USER_AVC")) in Hx at 2.
  destruct (List.find _ kSELinuxRecordLabels) as [[t lab]|] eqn:E.
  - apply List.find_some in E as [E1 E2]. apply Z.eqb_eq in E2. cbn in E2. subst t.
    apply list_elem_of_In in E1. unfold kSELinuxRecordLabels in E1.
    repeat (apply elem_of_cons in E1 as [E1|E1]; [by simplify_eq|]). by apply elem_of_nil in E1.
  - pose proof (strto_to_string (rec_type x)) as Hs. by rewrite Hx in Hs.
Qed.

End Pipeline.
End TableFacts.
