(* ===== verification/Errors.v ===== *)
(** * Errors as values (include/osquery/error.h, include/osquery/expected.h)

    An [Error] has the name of its enumeration, the code, a message and possibly
    the error that caused it; a function that may fail returns [ExpectedE A]. *)
From S2P Require Import Prelude.

Inductive Error :=
  mkError (type_name : string) (error_code : Z) (msg : string) (underlying : option Error).

Definition getErrorCode (e : Error) : Z := match e with mkError _ c _ _ => c end.

Definition hasUnderlyingError (e : Error) : bool :=
  match e with mkError _ _ _ (Some _) => true | _ => false end.

Definition getShortMessage (e : Error) : string :=
  match e with mkError t c _ _ => t +:+ " " +:+ to_string c end.

Definition getFullMessage (e : Error) : string :=
  match e with
  | mkError _ _ m _ =>
      getShortMessage e +:+ (if is_empty m then "" else " (" +:+ m +:+ ")")
  end.

Fixpoint getShortMessageRecursive (e : Error) : string :=
  match e with
  | mkError t c m u =>
      getShortMessage (mkError t c m u) +:+
      match u with Some u => " <- " +:+ getShortMessageRecursive u | None => "" end
  end.

Fixpoint getFullMessageRecursive (e : Error) : string :=
  match e with
  | mkError t c m u =>
      getFullMessage (mkError t c m u) +:+
      match u with Some u => " <- " +:+ getFullMessageRecursive u | None => "" end
  end.

(** [error << value]. *)
Definition appendToMessage (e : Error) (text : string) : Error :=
  match e with mkError t c m u => mkError t c (m +:+ text) u end.

(** [createError] with and without an underlying error. *)
Definition createError (type_name : string) (error_code : Z) (m : string) : Error :=
  mkError type_name error_code m None.
Definition createError_from (type_name : string) (error_code : Z) (m : string) (u : Error) : Error :=
  mkError type_name error_code m (Some u).

(** [Expected<A, E>]: [isError] tells the sides apart. *)
Definition ExpectedE (A : Type) : Type := A + Error.
Definition isError {A} (e : ExpectedE A) : bool := match e with inl _ => false | inr _ => true end.
Definition getE_or {A} (d : A) (e : ExpectedE A) : A := match e with inl a => a | inr _ => d end.

(** The errors of a chain, outermost first. *)
Fixpoint chain (e : Error) : list Error :=
  match e with
  | mkError _ _ _ u => e :: match u with Some u => chain u | None => [] end
  end.

(** The recursive message joins the messages of the chain. *)
Lemma full_message_joins_the_chain (e : Error) :
  getFullMessageRecursive e = String.concat " <- " (getFullMessage <$> chain e).
Proof.
  revert e. fix IH 1. intros [t c m [u|]].
  - cbn [getFullMessageRecursive chain]. rewrite (IH u). destruct u as [t' c' m' u']. done.
  - cbn [getFullMessageRecursive chain]. apply app_nil_r_str.
Qed.
