(* ===== verification/NumericMonitoring.v ===== *)
(** * Numeric monitoring (osquery/numeric_monitoring)

    Points are named by a path and carry a value, an aggregation type and a time.
    [PreAggregationCache] merges points of one path before they are sent,
    [PreAggregationBuffer] decides between sending at once and caching, and the
    filesystem plugin writes a line for each point it is sent. *)
From S2P Require Import Prelude Boost Conversions Json Database.

(** ** Aggregation types *)

Inductive PreAggregationType :=
  | PA_None | PA_Sum | PA_Min | PA_Max | PA_Avg | PA_Stddev | PA_P10 | PA_P50 | PA_P95 | PA_P99
  | PA_InvalidTypeUpperLimit.

#[export] Instance PreAggregationType_eq_dec : EqDecision PreAggregationType.
Proof. solve_decision. Defined.

Definition getAggregationTypeToStringTable : list (PreAggregationType * string) :=
  [(PA_None, "none"); (PA_Sum, "sum"); (PA_Min, "min"); (PA_Max, "max"); (PA_Avg, "avg");
   (PA_Stddev, "stddev"); (PA_P10, "p10"); (PA_P50, "p50"); (PA_P95, "p95"); (PA_P99, "p99")].

(** [find] in a table without duplicate keys. *)
Fixpoint table_find {K V} `{EqDecision K} (k : K) (l : list (K * V)) : option V :=
  match l with
  | [] => None
  | (k', v) :: l => if decide (k = k') then Some v else table_find k l
  end.

(** [reverseMap]: [emplace] keeps the first entry of a key. *)
Definition reverseMap {K V} (straight : list (K * V)) : list (V * K) :=
  (fun item => (item.2, item.1)) <$> straight.

Definition getStringToAggregationTypeTable : list (string * PreAggregationType) :=
  reverseMap getAggregationTypeToStringTable.

(** [to<std::string>]. *)
Definition aggregation_to_string (from : PreAggregationType) : string :=
  default "" (table_find from getAggregationTypeToStringTable).

(** [tryTo<PreAggregationType>]. *)
Definition tryTo_aggregation (from : string) : Expected PreAggregationType :=
  match table_find from getStringToAggregationTypeTable with
  | Some t => inl t
  | None => inr CE_InvalidArgument
  end.

(** ** Points and the cache *)

(** The value is a [long long int], the time a count of clock ticks. *)
Record Point := mkPoint {
  path_ : string;
  value_ : Z;
  pre_aggregation_type_ : PreAggregationType;
  time_point_ : Z;
}.

Definition with_time (t : Z) (p : Point) : Point :=
  mkPoint (path_ p) (value_ p) (pre_aggregation_type_ p) t.
Definition with_value (v : Z) (p : Point) : Point :=
  mkPoint (path_ p) v (pre_aggregation_type_ p) (time_point_ p).

(** [Point::tryToAggregate]: whether the new point was merged, and the point it
    was tried on. The sum of two [long long] wraps here; C++ leaves an overflow
    undefined. *)
Definition tryToAggregate (self new_point : Point) : bool * Point :=
  if negb (bool_decide (path_ self = path_ new_point)) then (false, self)
  else if negb (bool_decide (pre_aggregation_type_ self = pre_aggregation_type_ new_point))
  then (false, self)
  else
    let self := with_time (Z.max (time_point_ self) (time_point_ new_point)) self in
    match pre_aggregation_type_ self with
    | PA_None | PA_Avg | PA_Stddev | PA_P10 | PA_P50 | PA_P95 | PA_P99 => (false, self)
    | PA_Sum => (true, with_value (i64 (value_ self + value_ new_point)) self)
    | PA_Min => (true, with_value (Z.min (value_ self) (value_ new_point)) self)
    | PA_Max => (true, with_value (Z.max (value_ self) (value_ new_point)) self)
    | PA_InvalidTypeUpperLimit => (false, self)
    end.

Record PreAggregationCache := mkCache {
  points_index_ : gmap string nat;
  points_ : list Point;
}.

Definition empty_cache : PreAggregationCache := mkCache ∅ [].

(** [points_[i]] past the end is undefined; the cache never does it. *)
Definition addPoint (point : Point) (c : PreAggregationCache) : PreAggregationCache :=
  match points_index_ c !! path_ point with
  | None => mkCache (<[path_ point := length (points_ c)]> (points_index_ c)) (points_ c ++ [point])
  | Some i =>
      match points_ c !! i with
      | None => c
      | Some previous =>
          let '(done, previous) := tryToAggregate previous point in
          let points := <[i := previous]> (points_ c) in
          if done then mkCache (points_index_ c) points
          else mkCache (<[path_ point := length points]> (points_index_ c)) (points ++ [point])
      end
  end.

Definition takePoints (c : PreAggregationCache) : list Point * PreAggregationCache :=
  (points_ c, empty_cache).

(** ** The buffer *)

Definition registryName : string := "numeric_monitoring".

(** [recordKeys()]. *)
Definition key_path : string := "path".
Definition key_value : string := "value".
Definition key_timestamp : string := "timestamp".
Definition key_pre_aggregation : string := "pre_aggregation".
Definition key_sync : string := "sync".

(** What is sent to the plugins for one point. *)
Definition dispatch_request (p : Point) (sync : bool) : PluginRequest :=
  list_to_map
    [(key_path, path_ p); (key_value, to_string (value_ p));
     (key_pre_aggregation, aggregation_to_string (pre_aggregation_type_ p));
     (key_timestamp, to_string (time_point_ p)); (key_sync, if sync then "true" else "false")].

Section Buffer.
Context {S : Type}.
(** [Registry::call(registry, plugins, request)]. *)
Context (registry_call : string -> string -> PluginRequest -> M S Status).
Context (FLAGS_enable_numeric_monitoring : bool) (FLAGS_numeric_monitoring_plugins : string)
        (FLAGS_numeric_monitoring_pre_aggregation_time : Z).

Abbreviation MB := (M (S * PreAggregationCache)).

Definition on_registry {A} (m : M S A) : MB A := zoom fst (fun s p => (s, p.2)) m.

Definition dispatchOne (p : Point) (sync : bool) : MB unit :=
  on_registry (registry_call registryName FLAGS_numeric_monitoring_plugins (dispatch_request p sync)) ;;;
  ret tt.

(** [PreAggregationBuffer::record]. *)
Definition buffer_record (p : Point) (sync : bool) : MB unit :=
  if (FLAGS_numeric_monitoring_pre_aggregation_time =? 0)%Z || sync then dispatchOne p sync
  else modify (fun s => (s.1, addPoint p s.2)).

Definition takeCachedPoints : MB (list Point) :=
  let* points := gets (fun s => (takePoints s.2).1) in
  modify (fun s => (s.1, (takePoints s.2).2)) ;;;
  ret points.

(** [PreAggregationBuffer::flush]. *)
Definition flush : MB unit :=
  let* points := takeCachedPoints in
  for_each points (fun pt => dispatchOne pt false).

(** [monitoring::record]. *)
Definition record (path : string) (value : Z) (pre_aggregation : PreAggregationType) (sync : bool)
    (time_point : Z) : MB unit :=
  if negb FLAGS_enable_numeric_monitoring then ret tt
  else buffer_record (mkPoint path value pre_aggregation time_point) sync.

(** [PreAggregationFlusher::start]; [interrupted] answers each test of the loop
    and the fuel is the number of turns. *)
Fixpoint flusher_loop (fuel : nat) (interrupted : nat -> bool) (pause : MB unit) : MB unit :=
  match fuel with
  | O => ret tt
  | Datatypes.S fuel =>
      if interrupted fuel || (FLAGS_numeric_monitoring_pre_aggregation_time =? 0)%Z then ret tt
      else pause ;;; flush ;;; flusher_loop fuel interrupted pause
  end.
End Buffer.

(** ** The filesystem plugin *)

(** [output_file_stream_]: whether the file is open and what was written. *)
Record NumericMonitoringFilesystemPlugin := mkNMFile { is_open : bool; written : string }.

Definition line_format_ : list string := [key_path; key_value; key_timestamp; key_sync].
Definition separator_ : string := String "009" "".

Definition drop_last_char (s : string) : string := String.substring 0 (String.length s - 1) s.

(** The loop of [formTheLine]; at the end the last separator is removed. *)
Fixpoint form_loop (keys : list string) (request : PluginRequest) (line : string) : Status * string :=
  match keys with
  | [] => (Status_success, drop_last_char line)
  | key :: keys =>
      match request !! key with
      | None => (mkStatus 1 ("Missing mandatory request field " +:+ key), line)
      | Some v => form_loop keys request (line +:+ v +:+ separator_)
      end
  end.

Definition formTheLine (request : PluginRequest) : Status * string := form_loop line_format_ request "".

Definition nm_call (request : PluginRequest) : M NumericMonitoringFilesystemPlugin Status :=
  let* ready := gets is_open in
  if negb ready then ret (mkStatus 1 "NumericMonitoringFilesystemPlugin is not set up")
  else
    let '(status, line) := formTheLine request in
    (if Status_ok status
     then modify (fun f => mkNMFile (is_open f) (written f +:+ line +:+ String "010" ""))
     else ret tt) ;;;
    ret status.

(** [setUp]; whether the file can be opened is up to the system. *)
Definition nm_setUp (log_file_path : string) (opens : bool) : M NumericMonitoringFilesystemPlugin Status :=
  modify (fun f => mkNMFile opens (written f)) ;;;
  let* ready := gets is_open in
  ret (if ready then Status_success
       else mkStatus 1 ("Could not open file " +:+ String "034" log_file_path +:+ String "034" "" +:+
                        " for numeric monitoring logs")).

(** * Numeric monitoring: what the cache and the file hold

    The cache refines a function of the sequence of points of each path
    ([aggregate]); what is recorded and flushed reaches the file once. *)

#[local] Set Default Proof Using "Type".

(** ** The abstract specification: one path at a time *)

Definition has_path (k : string) (p : Point) : Prop := path_ p = k.
#[export] Instance has_path_dec k p : Decision (has_path k p) := decide (path_ p = k).

(** A new point is merged into the last one of its path or follows it. *)
Definition merge_last (acc : list Point) (p : Point) : list Point :=
  match last acc with
  | None => [p]
  | Some q =>
      let '(done, q') := tryToAggregate q p in
      if done then removelast acc ++ [q'] else removelast acc ++ [q'; p]
  end.

Definition aggregate (l : list Point) : list Point := foldl merge_last [] l.

(** ** The index of the cache *)

(** The last position of [k]. *)
Fixpoint last_pos (k : string) (l : list string) : option nat :=
  match l with
  | [] => None
  | x :: l => match last_pos k l with
              | Some i => Some (S i)
              | None => if decide (x = k) then Some 0 else None
              end
  end.

Lemma last_pos_snoc k l x :
  last_pos k (l ++ [x]) = if decide (x = k) then Some (length l) else last_pos k l.
Proof. induction l as [|y l IH]; simpl; [done|]. rewrite IH. by case_decide. Qed.

Lemma last_pos_None k l : last_pos k l = None -> k ∉ l.
Proof.
  induction l as [|x l IH]; simpl; [by intros _ ?%not_elem_of_nil|].
  destruct (last_pos k l); [done|]. case_decide; [done|]. intros _. rewrite not_elem_of_cons. auto.
Qed.

Lemma last_pos_Some k l i : last_pos k l = Some i -> l !! i = Some k /\ k ∉ drop (S i) l.
Proof.
  revert i. induction l as [|x l IH]; simpl; [done|]. intros i.
  destruct (last_pos k l) as [j|] eqn:E; [intros [= <-]; by apply IH|].
  case_decide; [|done]. intros [= <-]. subst. split; [done|]. simpl. rewrite drop_0.
  by apply last_pos_None.
Qed.

Definition cache_inv (c : PreAggregationCache) : Prop :=
  forall k, points_index_ c !! k = last_pos k (path_ <$> points_ c).

Lemma tryToAggregate_path q p : path_ (tryToAggregate q p).2 = path_ q.
Proof. unfold tryToAggregate. repeat case_match; simplify_eq; done. Qed.

Lemma insert_same_path (l : list Point) i q p :
  l !! i = Some q -> path_ <$> <[i := (tryToAggregate q p).2]> l = path_ <$> l.
Proof.
  intros H. rewrite list_fmap_insert, tryToAggregate_path. apply list_insert_id.
  by rewrite list_lookup_fmap, H.
Qed.

Lemma addPoint_inv p c : cache_inv c -> cache_inv (addPoint p c).
Proof.
  intros Hc k. unfold addPoint. rewrite (Hc (path_ p)).
  destruct (last_pos (path_ p) (path_ <$> points_ c)) as [i|] eqn:E.
  - destruct (last_pos_Some _ _ _ E) as [Hi _]. rewrite list_lookup_fmap in Hi.
    destruct (points_ c !! i) as [q|] eqn:Eq; [|done].
    destruct (tryToAggregate q p) as [[] q'] eqn:Et; cbn.
    + pose proof (insert_same_path _ _ _ p Eq) as Hp. rewrite Et in Hp. cbn in Hp. by rewrite Hp.
    + pose proof (insert_same_path _ _ _ p Eq) as Hp. rewrite Et in Hp. cbn in Hp.
      rewrite fmap_app, Hp. cbn. rewrite last_pos_snoc, length_insert, length_fmap.
      case_decide as Hk; [subst; by rewrite lookup_insert_eq | by rewrite lookup_insert_ne, Hc].
  - cbn. rewrite fmap_app. cbn. rewrite last_pos_snoc, length_fmap.
    case_decide as Hk; [subst; by rewrite lookup_insert_eq | by rewrite lookup_insert_ne, Hc].
Qed.

(** ** One path of the cache *)

Lemma filter_insert_other k i q q' (l : list Point) :
  l !! i = Some q -> path_ q <> k -> path_ q' <> k ->
  filter (has_path k) (<[i := q']> l) = filter (has_path k) l.
Proof.
  intros Hi Hq Hq'. pose proof (lookup_lt_Some _ _ _ Hi) as Hlt.
  rewrite insert_take_drop by done. rewrite <- (take_drop_middle l i q Hi) at 3.
  rewrite !filter_app, !filter_cons_False; done.
Qed.

(** The last point of a path is where the index says. *)
Lemma filter_at_last k (l : list Point) i :
  last_pos k (path_ <$> l) = Some i ->
  exists q, l !! i = Some q /\ path_ q = k /\
  forall q', path_ q' = k ->
    filter (has_path k) (<[i := q']> l) = filter (has_path k) (take i l) ++ [q'].
Proof.
  intros E. destruct (last_pos_Some _ _ _ E) as [Hi Hd]. rewrite list_lookup_fmap in Hi.
  destruct (l !! i) as [q|] eqn:Eq; [|done]. exists q. cbn in Hi. injection Hi as Hi.
  split; [done|]. split; [done|]. intros q' Hq'.
  rewrite insert_take_drop by (by eapply lookup_lt_Some).
  rewrite filter_app, filter_cons_True by done. f_equal. f_equal.
  apply filter_none, Forall_forall. intros x Hx Hp. apply Hd.
  rewrite <- fmap_drop. rewrite <- Hp. by apply list_elem_of_fmap_2.
Qed.

Lemma addPoint_path p c k :
  cache_inv c ->
  filter (has_path k) (points_ (addPoint p c)) =
  if decide (path_ p = k) then merge_last (filter (has_path k) (points_ c)) p
  else filter (has_path k) (points_ c).
Proof.
  intros Hc. unfold addPoint. rewrite (Hc (path_ p)).
  destruct (last_pos (path_ p) (path_ <$> points_ c)) as [i|] eqn:E; cbn.
  - destruct (filter_at_last _ _ _ E) as (q & Eq & Hq & Hf). rewrite Eq.
    pose proof (Hf q Hq) as H0. rewrite list_insert_id in H0 by done.
    pose proof (tryToAggregate_path q p) as Hpath.
    destruct (tryToAggregate q p) as [b q'] eqn:Et. cbn in Hpath. rewrite Hq in Hpath.
    case_decide as Hk.
    + subst k. unfold merge_last. rewrite H0, last_snoc, Et, removelast_last.
      destruct b; cbn; [by apply Hf|]. rewrite filter_app, (Hf q' Hpath).
      cbn. rewrite decide_True by done. by rewrite <- app_assoc.
    + destruct b; cbn; rewrite ?filter_app, (filter_insert_other k i q q'); try done; try congruence.
      rewrite filter_cons_False by done. by rewrite app_nil_r.
  - rewrite filter_app. case_decide as Hk.
    + subst k. rewrite filter_cons_True by done.
      rewrite (filter_none _ (points_ c)); [done|]. apply Forall_forall. intros x Hx Hp.
      apply (last_pos_None _ _ E). rewrite <- Hp. by apply list_elem_of_fmap_2.
    + rewrite filter_cons_False by done. by rewrite app_nil_r.
Qed.

Definition add_all (l : list Point) (c : PreAggregationCache) : PreAggregationCache :=
  foldl (fun c p => addPoint p c) c l.

Lemma add_all_path l c k :
  cache_inv c ->
  cache_inv (add_all l c) /\
  filter (has_path k) (points_ (add_all l c)) =
  foldl merge_last (filter (has_path k) (points_ c)) (filter (has_path k) l).
Proof.
  revert c. induction l as [|p l IH]; intros c Hc; [done|].
  destruct (IH (addPoint p c) (addPoint_inv _ _ Hc)) as [Hi Hf]. split; [done|].
  change (add_all (p :: l) c) with (add_all l (addPoint p c)). rewrite Hf, addPoint_path by done.
  case_decide as Hk; [rewrite (filter_cons_True _ p) | rewrite (filter_cons_False _ p)]; done.
Qed.

Lemma empty_cache_inv : cache_inv empty_cache.
Proof. done. Qed.

(** Whatever points are added in whatever order, the points taken from the
    cache are, path by path, those the points of that path alone aggregate to, in
    their order; and nothing stays behind. *)
Theorem cached_points_aggregate_by_path (l : list Point) (k : string) :
  let '(taken, rest) := takePoints (add_all l empty_cache) in
  filter (has_path k) taken = aggregate (filter (has_path k) l) /\ rest = empty_cache.
Proof. cbn. split; [|done]. by destruct (add_all_path l empty_cache k empty_cache_inv) as [_ ->]. Qed.

(** ** Sums *)

Definition total (l : list Point) : Z := foldr (fun p z => value_ p + z)%Z 0%Z l.
Definition latest (t : Z) (l : list Point) : Z := foldl (fun t p => Z.max t (time_point_ p)) t l.

Lemma i64_i64 x : i64 (i64 x) = i64 x.
Proof.
  unfold i64. f_equal. rewrite Z.sub_add. apply Z.mod_mod. lia.
Qed.

Lemma i64_add_l x y : i64 (i64 x + y) = i64 (x + y).
Proof.
  unfold i64. f_equal.
  replace ((x + 2 ^ 63) mod 2 ^ 64 - 2 ^ 63 + y + 2 ^ 63)%Z with ((x + 2 ^ 63) mod 2 ^ 64 + y)%Z by lia.
  rewrite Zplus_mod_idemp_l. f_equal. lia.
Qed.

Lemma aggregate_sums k q l :
  path_ q = k -> pre_aggregation_type_ q = PA_Sum ->
  Forall (fun p => path_ p = k /\ pre_aggregation_type_ p = PA_Sum) l ->
  foldl merge_last [mkPoint k (i64 (value_ q)) PA_Sum (time_point_ q)] l =
  [mkPoint k (i64 (total (q :: l))) PA_Sum (latest (time_point_ q) l)].
Proof.
  intros Hk Hs Hl. revert q Hk Hs. induction Hl as [|p l [Hp1 Hp2] Hl IH]; intros q Hk Hs.
  { cbn. by rewrite Z.add_0_r. }
  cbn [foldl]. unfold merge_last at 2. cbn [last]. unfold tryToAggregate. cbn [path_ pre_aggregation_type_].
  rewrite !bool_decide_true by congruence. cbn.
  specialize (IH (mkPoint k (value_ q + value_ p) PA_Sum (Z.max (time_point_ q) (time_point_ p))) eq_refl eq_refl).
  cbn in IH. unfold with_value. cbn. rewrite i64_add_l, IH. unfold total. cbn. by rewrite Z.add_assoc.
Qed.

(** The sum points of a path are sent as one point: its value is the sum of
    the values, modulo the width of a [long long], and its time the latest. *)
Theorem sum_points_are_added (l : list Point) (k : string) (q : Point) (rest : list Point) :
  filter (has_path k) l = q :: rest ->
  Forall (fun p => pre_aggregation_type_ p = PA_Sum) (q :: rest) ->
  i64 (value_ q) = value_ q ->
  filter (has_path k) (takePoints (add_all l empty_cache)).1 =
  [mkPoint k (i64 (total (q :: rest))) PA_Sum (latest (time_point_ q) rest)].
Proof.
  intros Hf Hs Hv. cbn. destruct (add_all_path l empty_cache k empty_cache_inv) as [_ ->]. rewrite Hf.
  assert (Forall (has_path k) (q :: rest)) as Hp.
  { rewrite <- Hf. apply Forall_forall. by intros x [? _]%list_elem_of_filter. }
  inversion Hp as [|? ? Hq Hr]; inversion Hs as [|? ? Hqs Hrs]; unfold has_path in Hq; subst.
  cbn [foldl]. unfold merge_last at 2. cbn [last points_ filter list_filter empty_cache].
  replace q with (mkPoint (path_ q) (i64 (value_ q)) PA_Sum (time_point_ q)) at 1
    by (rewrite Hv, <- Hqs; by destruct q).
  apply aggregate_sums; [done..|]. apply Forall_and. by split.
Qed.

(** ** A point that is not merged *)

(** A point of a type that is not aggregated is changed all the same when
    another one of its path follows: it is sent with the time of the later one. *)
Theorem unmerged_point_takes_a_later_time (p q : Point) :
  path_ p = path_ q -> pre_aggregation_type_ p = pre_aggregation_type_ q ->
  pre_aggregation_type_ p ∈ [PA_None; PA_Avg; PA_Stddev; PA_P10; PA_P50; PA_P95; PA_P99] ->
  (time_point_ p < time_point_ q)%Z ->
  (takePoints (add_all [p; q] empty_cache)).1 = [with_time (time_point_ q) p; q].
Proof.
  intros Hp Ht Hin Hlt. cbn [add_all foldl takePoints fst].
  unfold addPoint at 2. cbn [points_index_ empty_cache]. rewrite lookup_empty.
  cbn [points_ empty_cache app length]. unfold addPoint. cbn [points_index_ points_].
  rewrite <- Hp, lookup_insert_eq. cbn [lookup list_lookup]. unfold tryToAggregate.
  rewrite !bool_decide_true by done. cbn [negb]. cbn [with_time pre_aggregation_type_].
  rewrite Z.max_r by lia.
  rewrite !elem_of_cons, elem_of_nil in Hin.
  destruct Hin as [E|[E|[E|[E|[E|[E|[E|[]]]]]]]]; rewrite E; done.
Qed.

(** ** Names of the aggregation types *)

(** The name of an aggregation type is read back as that type; only the
    upper limit, which is no type, has none. *)
Theorem aggregation_type_roundtrip (t : PreAggregationType) :
  tryTo_aggregation (aggregation_to_string t) =
  if decide (t = PA_InvalidTypeUpperLimit) then inr CE_InvalidArgument else inl t.
Proof. by destruct t. Qed.

(** ** The file *)

Definition tab : string := String "009" "".
Definition newline : string := String "010" "".

(** What the plugin writes for a point. *)
Definition point_line (p : Point) : string :=
  path_ p +:+ tab +:+ to_string (value_ p) +:+ tab +:+ to_string (time_point_ p) +:+ tab +:+
  "false" +:+ newline.

Lemma drop_last_char_snoc s c : drop_last_char (s +:+ String c "") = s.
Proof.
  unfold drop_last_char. induction s as [|d s IH]; [done|]. rewrite app_cons_str. cbn.
  destruct (s +:+ String c "") as [|e r] eqn:E; [by destruct s|].
  cbn in IH |- *. rewrite Nat.sub_0_r in IH. by rewrite IH.
Qed.

Lemma formTheLine_point p :
  formTheLine (dispatch_request p false) =
  (Status_success, path_ p +:+ tab +:+ to_string (value_ p) +:+ tab +:+ to_string (time_point_ p) +:+ tab +:+ "false").
Proof.
  unfold formTheLine, line_format_, dispatch_request, key_path, key_value, key_timestamp, key_sync, key_pre_aggregation.
  cbn [form_loop list_to_map foldr fst snd uncurry].
  repeat (rewrite lookup_insert_eq || rewrite lookup_insert_ne by done).
  f_equal. change ("" +:+ ?x) with x. fold tab. change separator_ with tab.
  rewrite !app_assoc_str.
  change ("" +:+ ?x) with x.
  replace (path_ p +:+ tab +:+ to_string (value_ p) +:+ tab +:+ to_string (time_point_ p) +:+ tab +:+ "false" +:+ tab)
    with ((path_ p +:+ tab +:+ to_string (value_ p) +:+ tab +:+ to_string (time_point_ p) +:+ tab +:+ "false") +:+ tab)
    by (by rewrite !app_assoc_str).
  apply drop_last_char_snoc.
Qed.

Section File.
Context (plugins : string) (seconds : Z).

(** The registry routes to the filesystem plugin. *)
Definition file_registry (_ _ : string) (r : PluginRequest) : M NumericMonitoringFilesystemPlugin Status := nm_call r.

Abbreviation rec := (record file_registry true plugins seconds).
Abbreviation flsh := (flush file_registry plugins).

Lemma dispatch_writes p f c :
  is_open f = true ->
  dispatchOne file_registry plugins p false (f, c) = (Ok tt, (mkNMFile true (written f +:+ point_line p), c)).
Proof.
  intros Ho. unfold dispatchOne, on_registry, bind, zoom, file_registry, nm_call. cbn [fst snd].
  unfold bind, gets. rewrite Ho. cbn [negb]. rewrite formTheLine_point. cbn. unfold modify, ret. rewrite Ho.
  unfold point_line. by rewrite !app_assoc_str.
Qed.

Lemma dispatch_all l f c :
  is_open f = true ->
  for_each l (fun pt => dispatchOne file_registry plugins pt false) (f, c) =
  (Ok tt, (mkNMFile true (foldl (fun s p => s +:+ point_line p) (written f) l), c)).
Proof.
  revert f. induction l as [|p l IH]; intros f Ho; cbn.
  { unfold ret. destruct f. cbn in Ho. by subst. }
  unfold bind. rewrite dispatch_writes by done. by rewrite IH.
Qed.

Lemma record_all l f c :
  seconds <> 0%Z ->
  for_each l (fun p => rec (path_ p) (value_ p) (pre_aggregation_type_ p) false (time_point_ p)) (f, c) =
  (Ok tt, (f, add_all l c)).
Proof.
  intros Hs. revert c. induction l as [|p l IH]; intros c; [done|].
  assert (rec (path_ p) (value_ p) (pre_aggregation_type_ p) false (time_point_ p) (f, c) =
          (Ok tt, (f, addPoint p c))) as E.
  { unfold record, buffer_record. destruct (Z.eqb_spec seconds 0) as [|_]; [done|]. by destruct p. }
  cbn [for_each]. rewrite (bind_run _ _ _ _ _ E). apply IH.
Qed.

(** Points that are recorded and then flushed reach the file: a line for each
    point of the cache, in order, after what the file held, and the cache is empty. *)
Theorem recorded_points_reach_the_file (l : list Point) (f : NumericMonitoringFilesystemPlugin) :
  seconds <> 0%Z -> is_open f = true ->
  (for_each l (fun p => rec (path_ p) (value_ p) (pre_aggregation_type_ p) false (time_point_ p)) ;;; flsh)
    (f, empty_cache) =
  (Ok tt, (mkNMFile true (foldl (fun s p => s +:+ point_line p) (written f) (points_ (add_all l empty_cache))),
           empty_cache)).
Proof.
  intros Hs Ho. rewrite (bind_run _ _ _ _ _ (record_all l f empty_cache Hs)).
  unfold flush, takeCachedPoints, bind, gets, modify, ret. cbn. by rewrite dispatch_all.
Qed.
End File.

(** ** Profiling (osquery/profiler/posix/profiler.cpp)

    What a piece of code used, as the difference of two readings, is recorded under its
    name. *)

(** The members of [struct rusage] that are read; times are seconds and microseconds. *)
Record rusage := mkRusage {
  ru_maxrss : Z; ru_inblock : Z; ru_oublock : Z; ru_utime : Z * Z; ru_stime : Z * Z;
}.

(** [duration_cast<milliseconds>] of a time. *)
Definition millis (t : Z * Z) : Z := Z.quot (t.1 * 1000000 + t.2) 1000.

Section Profiler.
Context {S : Type}.
(** [monitoring::record], [getrusage], the steady clock in nanoseconds, and the switch. *)
Context (record_point : string -> Z -> PreAggregationType -> M S unit).
Context (callRusage : M S (option rusage)) (steady_clock : M S Z) (isPosixProfilingEnabled : M S bool).

Definition recordStatDifference (start_stat end_stat : Z) (stat_name : string) : M S unit :=
  if (end_stat =? 0)%Z then ret tt
  else if (start_stat <=? end_stat)%Z then record_point stat_name (i64 (end_stat - start_stat)) PA_P99
  else ret tt.

Definition recordTimeDifference (start_stat end_stat : Z * Z) (stat_name : string) : M S unit :=
  recordStatDifference (millis start_stat) (millis end_stat) (stat_name +:+ ".millis").

Definition recordRusageStatDifference (start_stats end_stats : rusage) (prefix : string) : M S unit :=
  recordStatDifference 0 (ru_maxrss end_stats) (prefix +:+ ".rss.max.kb") ;;;
  recordStatDifference (ru_maxrss start_stats) (ru_maxrss end_stats) (prefix +:+ ".rss.increase.kb") ;;;
  recordStatDifference (ru_inblock start_stats) (ru_inblock end_stats) (prefix +:+ ".input.load") ;;;
  recordStatDifference (ru_oublock start_stats) (ru_oublock end_stats) (prefix +:+ ".output.load") ;;;
  recordTimeDifference (ru_utime start_stats) (ru_utime end_stats) (prefix +:+ ".time.user") ;;;
  recordTimeDifference (ru_stime start_stats) (ru_stime end_stats) (prefix +:+ ".time.system").

(** [CodeProfilerData]: the usage and the clock when it was made. *)
Definition CodeProfilerData_new : M S (option rusage * Z) :=
  let* usage := callRusage in
  let* wall_time := steady_clock in
  ret (usage, wall_time).

(** The destructor of [CodeProfiler]. *)
Definition CodeProfiler_end (name_ : string) (start : option rusage * Z) : M S unit :=
  let* enabled := isPosixProfilingEnabled in
  if negb enabled then ret tt
  else
    let* stop := CodeProfilerData_new in
    match start.1, stop.1 with
    | Some rusage_start, Some rusage_end => recordRusageStatDifference rusage_start rusage_end name_
    | _, _ => ret tt
    end ;;;
    record_point (name_ +:+ ".time.wall.millis") (Z.quot (stop.2 - start.2) 1000000) PA_Min.
End Profiler.

(** Recording into a list. *)
Definition note (name : string) (value : Z) (type : PreAggregationType) : M (list (string * Z)) unit :=
  modify (fun l => l ++ [(name, value)]).

(** Differences that are recorded are never negative: a counter that went back is left out. *)
Lemma recorded_differences_are_not_negative start_stats end_stats prefix l :
  (forall z, z ∈ [ru_maxrss start_stats; ru_inblock start_stats; ru_oublock start_stats] -> 0 <= z)%Z ->
  (forall z, z ∈ [ru_maxrss end_stats; ru_inblock end_stats; ru_oublock end_stats] -> z < 2 ^ 63)%Z ->
  (0 <= millis (ru_utime start_stats))%Z -> (0 <= millis (ru_stime start_stats))%Z ->
  (millis (ru_utime end_stats) < 2 ^ 63)%Z -> (millis (ru_stime end_stats) < 2 ^ 63)%Z ->
  exists l', recordRusageStatDifference note start_stats end_stats prefix l = (Ok tt, l ++ l') /\
    Forall (fun p => 0 <= p.2)%Z l'.
Proof.
  intros Hs He U1 S1 U2 S2.
  assert (forall a b name l, (0 <= a)%Z -> (b < 2 ^ 63)%Z -> exists l',
    recordStatDifference note a b name l = (Ok tt, l ++ l') /\ Forall (fun p => 0 <= p.2)%Z l') as Hone.
  { intros a b name l0 Ha Hb. unfold recordStatDifference.
    destruct (b =? 0)%Z; [exists []; by rewrite app_nil_r|].
    destruct (Z.leb_spec a b); [|exists []; by rewrite app_nil_r].
    exists [(name, i64 (b - a))]. split; [done|]. apply Forall_cons_2; [|apply Forall_nil_2]. simpl.
    unfold i64. rewrite Z.mod_small; lia. }
  assert (forall m1 m2 : M (list (string * Z)) unit,
    (forall l, exists l', m1 l = (Ok tt, l ++ l') /\ Forall (fun p => 0 <= p.2)%Z l') ->
    (forall l, exists l', m2 l = (Ok tt, l ++ l') /\ Forall (fun p => 0 <= p.2)%Z l') ->
    forall l, exists l', (m1 ;;; m2) l = (Ok tt, l ++ l') /\ Forall (fun p => 0 <= p.2)%Z l') as Htwo.
  { intros m1 m2 H1 H2 l0. destruct (H1 l0) as (l1 & E1 & F1). destruct (H2 (l0 ++ l1)) as (l2 & E2 & F2).
    exists (l1 ++ l2). rewrite (bind_run _ _ _ _ _ E1), E2, app_assoc. split; [done | by apply Forall_app]. }
  revert l. unfold recordRusageStatDifference, recordTimeDifference.
  repeat apply Htwo; intros l; apply Hone; try done; try (apply Hs; set_solver); try (apply He; set_solver).
Qed.
