(* ===== verification/Killswitch.v ===== *)
(** * The killswitch (osquery/killswitch)

    Switches by which new code can be turned off at run time: the front end asks the
    active plugin through the registry, the plugin answers from a table, and a
    refreshable plugin replaces the table by what a file or a server says. *)
From S2P Require Import Prelude Boost Conversions Json Database Errors.

(** ** Names *)

Definition killswitch_ : string := "killswitch".
Definition action_ : string := "action".
Definition isEnabled_ : string := "isEnabled".
Definition key_ : string := "key".
Definition refresh_ : string := "refresh".

(** ** The plugin *)

Definition ParseMapJSONError : string := "osquery::KillswitchPlugin::ParseMapJSONError".
Definition PluginIsEnabledError : string := "osquery::KillswitchPlugin::IsEnabledError".
Definition RefreshError : string := "osquery::KillswitchRefreshablePlugin::RefreshError".
Definition FrontIsEnabledError : string := "osquery::Killswitch::IsEnabledError".

Definition IsBool (v : json) : bool := match v with JBool _ => true | _ => false end.

Section Plugin.
Context {R : RapidJSON}.

(** The loop over the members of the table; their names are strings. *)
Fixpoint read_switches (ms : members) (result : gmap string bool) : ExpectedE (gmap string bool) :=
  match ms with
  | [] => inl result
  | (name, value) :: ms =>
      let key := c_str name in
      match value with
      | JBool b => read_switches ms (<[key := b]> result)
      | _ => inr (createError ParseMapJSONError 2
                    ("At Killswitch config key: " +:+ key +:+ " value was not bool"))
      end
  end.

Definition parseMapJSON (content : string) : ExpectedE (gmap string bool) :=
  match JSON_parse_if IsObject content with
  | Some (JObject ms) =>
      match member "table" ms with
      | None => inr (createError ParseMapJSONError 4 "Killswitch key table containing map was not found")
      | Some (JObject table) => read_switches table ∅
      | Some _ => inr (createError ParseMapJSONError 2 "Killswitch table value is not an object")
      end
  | _ => inr (createError ParseMapJSONError 3 ("Error parsing the killswitch JSON. Content : " +:+ content))
  end.

(** [killswitchMap_] with the state of the rest of the process. *)
Context {S : Type}.
Abbreviation MK := (M (S * gmap string bool)).

Definition setCache (m : gmap string bool) : MK unit := modify (fun s => (s.1, m)).
Definition addCacheEntry (key : string) (value : bool) : MK unit :=
  modify (fun s => (s.1, <[key := value]> s.2)).

Definition plugin_isEnabled (key : string) : MK (ExpectedE bool) :=
  gets (fun s => match s.2 !! key with
                 | Some b => inl b
                 | None => inr (createError PluginIsEnabledError 1 ("Could not find key " +:+ key))
                 end).

(** [std::to_string(bool)]. *)
Definition bool_string (b : bool) : string := if b then "1" else "0".

Definition KillswitchPlugin_call (request : PluginRequest) (response : PluginResponse)
    : MK (Status * PluginResponse) :=
  match request !! action_ with
  | None => ret (mkStatus 1 "Killswitch plugins require an action", response)
  | Some action =>
      if bool_decide (action = isEnabled_) then
        match request !! key_ with
        | None => ret (mkStatus 1 "isEnabled action requires key", response)
        | Some key =>
            let* result := plugin_isEnabled key in
            ret (match result with
                 | inl b => (Status_success, response ++ [{[isEnabled_ := bool_string b]}])
                 | inr e => (Status_failure (getFullMessageRecursive e), response)
                 end)
        end
      else ret (mkStatus 1 "Could not find appropirate action mapping", response)
  end.

(** ** Refreshing *)

(** [refresh] of the plugin at hand; [None] is [Success]. *)
Context (refresh : MK (option Error)).

Definition KillswitchRefreshablePlugin_call (request : PluginRequest) (response : PluginResponse)
    : MK (Status * PluginResponse) :=
  match request !! action_ with
  | None => ret (Status_failure "Config plugins require an action", response)
  | Some action =>
      if bool_decide (action = refresh_) then
        let* result := refresh in
        ret (match result with
             | None => (Status_success, response)
             | Some e => (Status_failure (getFullMessageRecursive e), response)
             end)
      else KillswitchPlugin_call request response
  end.
End Plugin.

Section Sources.
Context {R : RapidJSON} {S : Type}.
Abbreviation MK := (M (S * gmap string bool)).

Definition in_S {A} (m : M S A) : MK A := zoom fst (fun s p => (s, p.2)) m.

(** Take over a parsed table, or report what was wrong with it. *)
Definition take_table (content : string) : MK (option Error) :=
  match parseMapJSON content with
  | inl m => setCache m ;;; ret None
  | inr e => ret (Some (createError RefreshError 2 (getFullMessageRecursive e)))
  end.

(** [KillswitchFilesystem::refresh]. [is_regular] is [fs::is_regular_file] without an
    error, and [read_conf] the status and the content [readFile] leaves. The error made
    for a missing file is dropped by the code: what was read is parsed all the same. *)
Definition file_refresh (is_regular : M S bool) (read_conf : M S (Status * string)) : MK (option Error) :=
  let* regular := in_S is_regular in
  let* content := (if negb regular then ret ""
                   else let* (_, content) := in_S read_conf in ret content) in
  take_table content.

(** [TLSKillswitchPlugin::refresh]; [go] is the request to the server. *)
Definition tls_refresh (go : M S (Status * string)) : MK (option Error) :=
  let* (s, content) := in_S go in
  if negb (Status_ok s)
  then ret (Some (createError RefreshError 1 "Could not retreive config file from network"))
  else
    match JSON_fromString content with
    | (_, None) => ret (Some (createError RefreshError 2 "Could not parse JSON from TLS killswitch node API"))
    | (_, Some (JObject ms)) =>
        match member "config" ms with
        | None => ret (Some (createError RefreshError 2 "Killswitch member config is missing"))
        | Some (JString text) => take_table (c_str text)
        | Some _ => ret (Some (createError RefreshError 2 "Killswitch member config is not a string"))
        end
    | (_, Some _) => throw AssertFailure
    end.
End Sources.

(** ** The front end *)

Section Front.
Context {S : Type}.
(** [Registry::call(killswitch_, request, response)]. *)
Context (registry_call : PluginRequest -> M S (Status * PluginResponse)).

Definition isEnabled (key : string) : M S (ExpectedE bool) :=
  let* (status, response) := registry_call (list_to_map [(action_, isEnabled_); (key_, key)]) in
  ret (if negb (Status_ok status) then inr (createError FrontIsEnabledError 1 (message status))
       else
         match response with
         | [response_map] =>
             match response_map !! isEnabled_ with
             | None => inr (createError FrontIsEnabledError 2
                              "isEnabled key missing in response of the action: isEnabled")
             | Some v =>
                 if bool_decide (v = "1") then inl true
                 else if bool_decide (v = "0") then inl false
                 else inr (createError FrontIsEnabledError 3 ("Unknown isEnabled value " +:+ v))
             end
         | _ => inr (appendToMessage (createError FrontIsEnabledError 2 "Response size should be 1 but is ")
                       (to_string (Z.of_nat (length response))))
         end).

(** Code whose switch cannot be read is on. *)
Definition isNewCodeEnabled (key : string) : M S bool :=
  let* result := isEnabled key in
  ret (match result with inl b => b | inr _ => true end).

Definition isPosixProfilingEnabled : M S bool := isNewCodeEnabled "posixProfilingSwitch".
Definition isTotalQueryCounterMonitorEnabled : M S bool := isNewCodeEnabled "totalQueryCounterMonitorSwitch".
Definition isAppStartMonitorEnabled : M S bool := isNewCodeEnabled "appStartMonitorSwitch".
Definition isWindowsProfilingEnabled : M S bool := isNewCodeEnabled "windowsProfilingSwitch".
Definition isConfigBackupEnabled : M S bool := isNewCodeEnabled "configBackupSwitch".

Definition Killswitch_refresh : M S Status :=
  let* (status, _) := registry_call {[action_ := refresh_]} in ret status.
End Front.

(** * The killswitch: what a refresh changes and what a reader sees *)


Section Facts.
Context {R : RapidJSON} {RL : RapidJSONLaws R} {S : Type}.
Abbreviation MK := (M (S * gmap string bool)).

(** The document of a table of switches. *)
Definition table_document (l : list (string * bool)) : json :=
  JObject [("table", JObject ((fun kb => (kb.1, JBool kb.2)) <$> l))].

Definition table_text (l : list (string * bool)) : string := c_str (rj_write (table_document l)).

Lemma read_switches_spec l m :
  Forall (fun kb => c_str kb.1 = kb.1) l ->
  read_switches ((fun kb => (kb.1, JBool kb.2)) <$> l) m
  = inl (foldl (fun m kb => <[kb.1 := kb.2]> m) m l).
Proof.
  intros Hl. revert m. induction Hl as [|[k b] l Hk Hl IH]; intros m; [done|].
  cbn in Hk |- *. rewrite Hk. apply IH.
Qed.

Lemma table_document_exact l : json_exact (table_document l) = true.
Proof. cbn. rewrite andb_true_r. by induction l as [|[k b] l IH]. Qed.

Lemma parse_table l :
  Forall (fun kb => c_str kb.1 = kb.1) l ->
  parseMapJSON (table_text l) = inl (foldl (fun m kb => <[kb.1 := kb.2]> m) ∅ l).
Proof.
  intros Hl. unfold parseMapJSON, JSON_parse_if, JSON_fromString, table_text. rewrite c_str_idem.
  rewrite rj_roundtrip by apply table_document_exact. cbn [Status_ok code Status_success Status1 andb IsObject table_document member].
  change (0 =? 0)%Z with true. cbn. by apply read_switches_spec.
Qed.

(** The last entry of a key counts. *)
Lemma foldl_switches_lookup l (m : gmap string bool) k :
  foldl (fun m kb => <[kb.1 := kb.2]> m) m l !! k
  = match last (filter (fun kb => kb.1 = k) l) with Some kb => Some kb.2 | None => m !! k end.
Proof.
  revert m. induction l as [|[k' b] l IH]; intros m; [done|]. cbn [foldl]. rewrite IH. cbn.
  case_decide as Hk; cbn in Hk.
  - subst k'. rewrite last_cons. destruct (last _); [done|]. by rewrite lookup_insert_eq.
  - destruct (last _); [done|]. by rewrite lookup_insert_ne.
Qed.

(** A registry whose active killswitch plugin is a refreshable one. *)
Definition plugin_registry (refresh : MK (option Error)) (r : PluginRequest) : MK (Status * PluginResponse) :=
  KillswitchRefreshablePlugin_call refresh r [].

(** What the front end reads is the table. *)
Lemma front_reads_table refresh key s m :
  isNewCodeEnabled (plugin_registry refresh) key (s, m)
  = (Ok (default true (m !! key)), (s, m)).
Proof.
  unfold isNewCodeEnabled, isEnabled, plugin_registry, KillswitchRefreshablePlugin_call, KillswitchPlugin_call.
  cbn [list_to_map foldr fst snd]. rewrite lookup_insert_eq.
  rewrite (bool_decide_false (isEnabled_ = refresh_)) by done.
  rewrite (bool_decide_true (isEnabled_ = isEnabled_)) by done.
  rewrite lookup_insert_ne, lookup_insert_eq by done.
  unfold bind, plugin_isEnabled, gets, ret. cbn [snd]. destruct (m !! key) as [b|]; [|done].
  cbn [Status_ok Status_success Status1 code negb app Z.eqb]. rewrite lookup_singleton_eq. by destruct b.
Qed.

(** A switch the refreshed table names is seen with the value its last entry
    gives; code without a switch is on. The question travels through the registry, the
    plugin and back. *)
Theorem refreshed_switch_is_seen (l : list (string * bool)) (key : string) (s : S)
    (m : gmap string bool) (is_regular : M S bool) (read_conf : M S (Status * string)) s1 s2 st :
  Forall (fun kb => c_str kb.1 = kb.1) l ->
  is_regular s = (Ok true, s1) -> read_conf s1 = (Ok (st, table_text l), s2) ->
  let registry := plugin_registry (file_refresh is_regular read_conf) in
  (Killswitch_refresh registry ;;; isNewCodeEnabled registry key) (s, m)
  = (Ok (match last (filter (fun kb => kb.1 = key) l) with Some kb => kb.2 | None => true end),
     (s2, foldl (fun m kb => <[kb.1 := kb.2]> m) ∅ l)).
Proof.
  intros Hl E1 E2 registry.
  assert (Killswitch_refresh registry (s, m)
          = (Ok Status_success, (s2, foldl (fun m kb => <[kb.1 := kb.2]> m) ∅ l))) as Er.
  { unfold Killswitch_refresh, registry, plugin_registry, KillswitchRefreshablePlugin_call.
    rewrite lookup_singleton_eq, bool_decide_true by done.
    unfold file_refresh, take_table, in_S, zoom, bind. cbn [fst snd]. rewrite E1. cbn. rewrite E2. cbn.
    by rewrite parse_table. }
  rewrite (bind_run _ _ _ _ _ Er). unfold registry. rewrite front_reads_table, foldl_switches_lookup.
  by destruct (last _).
Qed.

(** A refresh that fails changes no switch, whichever source it reads. *)
Lemma take_table_keeps content : forall (s : S * gmap string bool) e s', take_table content s = (Ok (Some e), s') -> s' = s.
Proof. intros s e s'. unfold take_table, bind, setCache, modify, ret. destruct (parseMapJSON content); naive_solver. Qed.

Theorem failed_refresh_keeps_the_switches (go : M S (Status * string)) (is_regular : M S bool)
    (read_conf : M S (Status * string)) (s s' : S) (m m' : gmap string bool) (e : Error) :
  tls_refresh go (s, m) = (Ok (Some e), (s', m')) \/
  file_refresh is_regular read_conf (s, m) = (Ok (Some e), (s', m')) ->
  m' = m.
Proof.
  intros [H|H].
  - unfold tls_refresh, in_S, zoom in H. apply bind_Ok in H as ([st c] & [s1 m1] & E & H). cbn in E.
    destruct (go s) as [r s2] eqn:Eg. injection E as -> <- <-.
    destruct (Status_ok st); [|by injection H as _ _ <-]. cbn [negb] in H.
    destruct (JSON_fromString c) as [pst [[]|]]; try done; [|by injection H as _ _ <-].
    destruct (member _ _) as [[]|]; try by injection H as _ _ <-.
    apply take_table_keeps in H. by injection H as _ <-.
  - unfold file_refresh, in_S, zoom in H. apply bind_Ok in H as (b & [s1 m1] & E & H). cbn in E.
    destruct (is_regular s) as [r s2] eqn:Eg. injection E as -> <- <-.
    apply bind_Ok in H as (c & [s3 m3] & E & H). apply take_table_keeps in H. injection H as _ <-.
    destruct b; cbn in E; [|by injection E as _ _ <-].
    unfold bind in E. cbn in E. destruct (read_conf s2) as [[[st c']|] s4]; [|done].
    by injection E as _ _ <-.
Qed.

(** A configuration file that is missing is reported as one that does not parse:
    the error the code makes for it is never returned. *)
Theorem missing_file_is_a_parsing_error (is_regular : M S bool) (read_conf : M S (Status * string))
    (s s1 : S) (m : gmap string bool) :
  is_regular s = (Ok false, s1) -> JSON_parse_if IsObject "" = None ->
  exists e, file_refresh is_regular read_conf (s, m) = (Ok (Some e), (s1, m)) /\ getErrorCode e = 2%Z.
Proof.
  intros E Hp. eexists. unfold file_refresh, in_S, zoom, bind. cbn [fst snd]. rewrite E. cbn.
  unfold take_table, parseMapJSON. rewrite Hp. split; [reflexivity|done].
Qed.
End Facts.
