(* ===== verification/Logger.v ===== *)
(** * Logging (osquery/logger/logger.cpp and the plugins of osquery/logger/plugins)

    Status lines are kept in the buffered sink until they are relayed to the logger
    plugins that asked for them; results go to every active logger. Sending status
    lines happens on threads of their own: [relay_step] is the interleaving. The
    registry, the Google logging library, the system log and Kafka are parameters. *)
From S2P Require Import Prelude Boost Conversions Json Database DatabaseFacts Query Host Filesystem Scan Buffered.

(** ** Features of a plugin *)

Definition LOGGER_FEATURE_LOGSTATUS : Z := 1.
Definition LOGGER_FEATURE_LOGEVENT : Z := 2.

(** The virtual methods of [LoggerPlugin]. *)
Record LoggerPlugin (S : Type) := mkLoggerPlugin {
  usesLogStatus : bool;
  usesLogEvent : bool;
  lp_logString : string -> M S Status;
  lp_logStatus : list StatusLogLine -> M S Status;
  lp_logSnapshot : string -> M S Status;
  lp_logEvent : string -> M S Status;
  lp_init : string -> list StatusLogLine -> M S unit;
}.
Arguments mkLoggerPlugin {S}.
Arguments usesLogStatus {S}.
Arguments usesLogEvent {S}.
Arguments lp_logString {S}.
Arguments lp_logStatus {S}.
Arguments lp_logSnapshot {S}.
Arguments lp_logEvent {S}.
Arguments lp_init {S}.

(** What a plugin does that does not override [logStatus], [logSnapshot], [logEvent]. *)
Definition default_logStatus {S} (_ : list StatusLogLine) : M S Status := ret (mkStatus 1 "Not enabled").
Definition default_logEvent {S} (_ : string) : M S Status := ret (mkStatus 1 "Not enabled").

(** ** Status lines as text *)

Section Lines.
Context {R : RapidJSON}.

(** One element of the array; the members are added in this order. *)
Definition line_object (i : StatusLogLine) : json :=
  JObject
    (add_member "u" (JInt (log_time i))
    (add_member "c" (JString (log_calendar_time i))
    (add_member "h" (JString (log_identifier i))
    (add_member "m" (JString (log_message i))
    (add_member "i" (JInt (log_line i))
    (add_member "f" (JString (log_filename i))
    (add_member "s" (JInt (log_severity i)) []))))))).

(** The text stored under [request["log"]]. *)
Definition serializeIntermediateLog (log : list StatusLogLine) : string :=
  c_str (rj_write (JArray (line_object <$> log))).

(** [line[key]]: a missing member is an assertion of RapidJSON. *)
Definition line_member (ms : members) (key : string) : result json :=
  match member key ms with Some v => Ok v | None => Throw AssertFailure end.

Definition read_line (v : json) : result StatusLogLine :=
  res_bind (GetObject v) (fun ms =>
  res_bind (res_bind (line_member ms "s") GetInt) (fun s =>
  res_bind (res_bind (line_member ms "f") GetString) (fun f =>
  res_bind (res_bind (line_member ms "i") GetUint64) (fun i =>
  res_bind (res_bind (line_member ms "m") GetString) (fun m =>
  res_bind (res_bind (line_member ms "c") GetString) (fun c =>
  res_bind (res_bind (line_member ms "u") GetUint64) (fun u =>
  res_bind (res_bind (line_member ms "h") GetString) (fun h =>
  Ok (mkStatusLogLine s f i m c u h))))))))).

Fixpoint read_lines (l : list json) : result (list StatusLogLine) :=
  match l with
  | [] => Ok []
  | v :: l => res_bind (read_line v) (fun x => res_bind (read_lines l) (fun xs => Ok (x :: xs)))
  end.

Definition deserializeIntermediateLog (request : PluginRequest) : result (list StatusLogLine) :=
  match request !! "log" with
  | None => Ok []
  | Some text =>
      match rj_parse (c_str text) with
      | None => Ok []
      | Some doc => res_bind (GetArray doc) read_lines
      end
  end.

(** ** The router of plugin requests *)

Definition features_of {S} (p : LoggerPlugin S) : Z :=
  Z.lor (if usesLogStatus p then LOGGER_FEATURE_LOGSTATUS else 0)
        (if usesLogEvent p then LOGGER_FEATURE_LOGEVENT else 0).

(** [LoggerPlugin::call]; [setProcessName] makes the name [init] is given. *)
Definition LoggerPlugin_call {S} (p : LoggerPlugin S) (request : PluginRequest) : M S Status :=
  match request !! "string" with
  | Some s => lp_logString p s
  | None =>
  match request !! "snapshot" with
  | Some s => lp_logSnapshot p s
  | None =>
  match request !! "init" with
  | Some name =>
      let* logs := of_result (deserializeIntermediateLog request) in
      lp_init p name logs ;;;
      ret (Status1 0)
  | None =>
  match request !! "status" with
  | Some _ =>
      let* logs := of_result (deserializeIntermediateLog request) in
      lp_logStatus p logs
  | None =>
  match request !! "event" with
  | Some s => lp_logEvent p s
  | None =>
      if bool_decide (request !! "action" = Some "features")
      then ret (Status1 (features_of p))
      else ret (mkStatus 1 "Unsupported call to logger plugin")
  end end end end end.
End Lines.

(** ** The buffered sink *)

(** [BufferedLogSink]. A future is the number of its task; moving out of the queue
    leaves an empty one behind. *)
Record LogSink := mkLogSink {
  logs_ : list StatusLogLine;
  enabled_ : bool;
  sinks_ : list string;
  senders : list (option nat);
}.

Definition empty_sink : LogSink := mkLogSink [] false [] [].

Definition set_logs (l : list StatusLogLine) (k : LogSink) : LogSink :=
  mkLogSink l (enabled_ k) (sinks_ k) (senders k).
Definition set_enabled (b : bool) (k : LogSink) : LogSink :=
  mkLogSink (logs_ k) b (sinks_ k) (senders k).
Definition set_sinks (l : list string) (k : LogSink) : LogSink :=
  mkLogSink (logs_ k) (enabled_ k) l (senders k).
Definition set_senders (l : list (option nat)) (k : LogSink) : LogSink :=
  mkLogSink (logs_ k) (enabled_ k) (sinks_ k) l.

(** What [WaitTillSent] does: nothing, wait for a task, or wait on an empty future,
    which throws. The future is moved from the back of the queue and the front is
    popped. *)
Inductive wait_action := NoWait | WaitFor (task : nat) | WaitOnNothing.

Definition WaitTillSent (k : LogSink) : wait_action * LogSink :=
  match last (senders k) with
  | None => (NoWait, k)
  | Some first =>
      let moved := removelast (senders k) ++ [None] in
      (match first with Some t => WaitFor t | None => WaitOnNothing end, set_senders (tail moved) k)
  end.

Section Relay.
Context {R : RapidJSON} {B : Boost} {S : Type}.
(** [RegistryFactory::getActive("logger")], [exists("logger", name, local)],
    [Registry::call("logger", name, request)] and [getHostIdentifier()]. *)
Context (getActive : M S string) (logger_exists : string -> bool -> M S bool)
        (registry_call : string -> PluginRequest -> M S Status) (getHostIdentifier : M S string).
(** [plugin("logger", name)->logString] and [logSnapshot] of a local plugin. *)
Context (local_logString local_logSnapshot : string -> string -> M S Status).
(** [EventFactory::addForwarder]. *)
Context (addForwarder : string -> M S unit).
Context (FLAGS_disable_logging kDBInitialized : bool).

Abbreviation ML := (M (S * LogSink)).
Definition on_S {A} (m : M S A) : ML A := zoom fst (fun s p => (s, p.2)) m.
Definition on_sink (f : LogSink -> LogSink) : ML unit := modify (fun p => (p.1, f p.2)).

(** The first half of [sender], under the lock: the lines leave the buffer. *)
Definition with_identifier (h : string) (l : StatusLogLine) : StatusLogLine :=
  mkStatusLogLine (log_severity l) (log_filename l) (log_line l) (log_message l)
    (log_calendar_time l) (log_time l) h.

Definition take_lines (identifier : string) : ML PluginRequest :=
  let* logs := gets (fun p => logs_ p.2) in
  let request := list_to_map
    [("status", "true"); ("log", serializeIntermediateLog (with_identifier identifier <$> logs))] in
  on_sink (set_logs []) ;;;
  ret request.

(** The second half: every active logger that asked for status lines. *)
Definition deliver (request : PluginRequest) : ML unit :=
  let* logger_plugin := on_S getActive in
  for_each (split logger_plugin ",") (fun logger =>
    let* enabled := gets (fun p => sinks_ p.2) in
    if bool_decide (logger ∈ enabled)
    then on_S (registry_call logger request) ;;; ret tt
    else ret tt).

Definition sender : ML unit :=
  let* identifier := on_S getHostIdentifier in
  let* request := take_lines identifier in
  deliver request.

(** [relayStatusLogs(async)]; [task] numbers the thread it starts. When the argument
    is true the lines are sent before it returns. *)
Definition relayStatusLogs (async : bool) (task : nat) : ML unit :=
  if FLAGS_disable_logging || negb kDBInitialized then ret tt
  else
    let* logs := gets (fun p => logs_ p.2) in
    if bool_decide (logs = []) then ret tt
    else if async then sender
    else on_sink (fun k => set_senders (senders k ++ [Some task]) k).

(** [BufferedLogSink::send]. *)
Definition sink_send (line : StatusLogLine) (isDaemon FLAGS_logger_status_sync : bool) (task : nat) : ML unit :=
  on_sink (fun k => set_logs (logs_ k ++ [line]) k) ;;;
  let* enabled := gets (fun p => enabled_ p.2) in
  if enabled && negb isDaemon then relayStatusLogs FLAGS_logger_status_sync task else ret tt.

(** One turn of the loop of [initLogger]: whether to forward status lines. *)
Definition init_one (name logger : string) (forward : bool) : ML bool :=
  let* known := on_S (logger_exists logger false) in
  if negb known then ret forward
  else
    on_S (registry_call logger {["init" := name]}) ;;;
    let* status := on_S (registry_call logger {["action" := "features"]}) in
    let* forward :=
      (if (0 <? Z.land (code status) LOGGER_FEATURE_LOGSTATUS)%Z
       then on_sink (fun k => set_sinks (sinks_ k ++ [logger]) k) ;;; ret true
       else ret forward) in
    (if (0 <? Z.land (code status) LOGGER_FEATURE_LOGEVENT)%Z then on_S (addForwarder logger) else ret tt) ;;;
    ret forward.

Definition initLogger (name : string) : ML unit :=
  on_sink (set_sinks []) ;;;
  let* logger_plugin := on_S getActive in
  let* forward := for_fold (split logger_plugin ",") false (fun forward logger => init_one name logger forward) in
  if forward then on_sink (set_enabled true) ;;; relayStatusLogs true 0 else ret tt.

(** ** Results *)

(** The last logger decides what is returned. *)
Definition logString_to (msg category receiver : string) : M S Status :=
  if FLAGS_disable_logging then ret (mkStatus 0 "Logging disabled")
  else
    for_fold (split receiver ",") Status_success (fun _ logger =>
      let* local := logger_exists logger true in
      if local then local_logString logger msg
      else registry_call logger (list_to_map [("string", msg); ("category", category)])).

Definition logString (msg category : string) : M S Status :=
  let* receiver := getActive in logString_to msg category receiver.

(** [Killswitch::isTotalQueryCounterMonitorEnabled] and [monitoring::record] of the
    counter. *)
Context (query_counter_enabled : M S bool) (record_query : M S unit).
Context (FLAGS_decorations_top_level FLAGS_logger_event_type FLAGS_logger_snapshot_event_type : bool).

Definition count_query : M S unit :=
  let* enabled := query_counter_enabled in if enabled then record_query else ret tt.

Definition json_items (as_events : bool) (item : QueryLogItem) : result (Status * list string) :=
  if as_events then serializeQueryLogItemAsEventsJSON FLAGS_decorations_top_level item
  else let '(st, json) := serializeQueryLogItemJSON FLAGS_decorations_top_level item in Ok (st, [json]).

Definition logQueryLogItem_to (item : QueryLogItem) (receiver : string) : M S Status :=
  if FLAGS_disable_logging then ret (mkStatus 0 "Logging disabled")
  else
    count_query ;;;
    let* (status, items) := of_result (json_items FLAGS_logger_event_type item) in
    if negb (Status_ok status) then ret status
    else for_fold items status (fun _ json => logString_to json "event" receiver).

Definition logQueryLogItem (item : QueryLogItem) : M S Status :=
  let* receiver := getActive in logQueryLogItem_to item receiver.

Definition logSnapshotQuery (item : QueryLogItem) : M S Status :=
  if FLAGS_disable_logging then ret (mkStatus 0 "Logging disabled")
  else
    count_query ;;;
    let* (status, items) := of_result (json_items FLAGS_logger_snapshot_event_type item) in
    if negb (Status_ok status) then ret status
    else
      for_fold items status (fun status json =>
        let* receiver := getActive in
        for_fold (split receiver ",") status (fun _ logger =>
          let* local := logger_exists logger true in
          if local then local_logSnapshot logger json
          else registry_call logger {["snapshot" := json]})).
End Relay.

(** * Logger plugins (osquery/logger/plugins)

    The filesystem, syslog, stdout and Kafka loggers, and the settings of the Google
    logging library they and osquery/logger/logger.cpp change. The library, the system
    log and librdkafka are parameters or traces of the calls made. *)

(** ** Settings of the Google logging library *)

Record GlogFlags := mkGlog {
  minloglevel : Z;
  alsologtostderr : bool;
  glog_v : Z;
  stderrthreshold : Z;
  logtostderr : bool;
  log_dir : string;
}.

Definition GLOG_INFO : Z := 0.

(** [setVerboseLevel]; the arguments are the osquery flags it reads. *)
Definition setVerboseLevel (verbose : string) (logger_min_status logger_min_stderr : Z)
    (FLAGS_logger_stderr : bool) (g : GlogFlags) : GlogFlags :=
  let g :=
    if bool_decide (verbose = "true")
    then mkGlog GLOG_INFO true 1 (stderrthreshold g) (logtostderr g) (log_dir g)
    else mkGlog logger_min_status (alsologtostderr g) (glog_v g) logger_min_stderr (logtostderr g) (log_dir g) in
  let g :=
    if negb FLAGS_logger_stderr
    then mkGlog (minloglevel g) false (glog_v g) 3 (logtostderr g) (log_dir g) else g in
  mkGlog (minloglevel g) (alsologtostderr g) (glog_v g) (stderrthreshold g) true (log_dir g).

(** [initStatusLogger] up to starting the library and adding the sink. *)
Definition initStatusLogger (verbose : string) (logger_min_status logger_min_stderr : Z)
    (FLAGS_logger_stderr : bool) (g : GlogFlags) : GlogFlags :=
  setVerboseLevel verbose logger_min_status logger_min_stderr FLAGS_logger_stderr
    (mkGlog (minloglevel g) (alsologtostderr g) (glog_v g) 3 true (log_dir g)).

(** ** The filesystem logger *)

Definition kFilesystemLoggerFilename : string := "osqueryd.results.log".
Definition kFilesystemLoggerSnapshots : string := "osqueryd.snapshots.log".
Definition PF_LOG : Z := Z.lor (Z.lor PF_OPEN_ALWAYS PF_WRITE) PF_APPEND.

(** [e.what()] of the exceptions modelled. *)
Definition what (e : exn) : string :=
  match e with
  | RuntimeError s | InvalidArgument s | OutOfRange s => s
  | BadLexicalCast => "bad lexical cast"
  | AssertFailure => ""
  end.

Section FilesystemLogger.
Context {S : Type} {P : Posix S}.
Context (FLAGS_logger_path : string) (FLAGS_logger_mode : Z).
(** [google::LogMessage(file, line, severity).stream() << message]. *)
Context (glog_message : string -> Z -> Z -> string -> M S unit).
(** Stopping and starting the library, and [SetLogDestination]. *)
Context (glog_shutdown : M S unit) (glog_start : string -> M S unit) (glog_destination : Z -> string -> M S unit).
Context (get_glog : M S GlogFlags) (put_glog : GlogFlags -> M S unit).

Definition logStringToFile (s filename : string) (empty : bool) : M S Status :=
  catch (writeTextFile (path_append FLAGS_logger_path filename)
           (if empty then "" else s +:+ String "010" "") FLAGS_logger_mode PF_LOG)
        (fun e => ret (mkStatus 1 (what e))).

Definition fs_setUp : M S Status := logStringToFile "" kFilesystemLoggerFilename true.
Definition fs_logString (s : string) : M S Status := logStringToFile s kFilesystemLoggerFilename false.
Definition fs_logSnapshot (s : string) : M S Status := logStringToFile s kFilesystemLoggerSnapshots false.

Definition fs_logStatus (log : list StatusLogLine) : M S Status :=
  for_each log (fun item =>
    glog_message (c_str (log_filename item)) (i32 (log_line item)) (log_severity item) (log_message item)) ;;;
  ret (mkStatus 0 "OK").

Definition to_stderr (a l : bool) (t : Z) (g : GlogFlags) : GlogFlags :=
  mkGlog (minloglevel g) a (glog_v g) t l (log_dir g).

Definition fs_init (name : string) (log : list StatusLogLine) : M S unit :=
  glog_shutdown ;;;
  let* writable := isWritable FLAGS_logger_path false in
  let* g := get_glog in
  put_glog (if Status_ok writable
            then mkGlog (minloglevel g) (alsologtostderr g) (glog_v g) (stderrthreshold g) false FLAGS_logger_path
            else mkGlog (minloglevel g) (alsologtostderr g) (glog_v g) (stderrthreshold g) true (log_dir g)) ;;;
  glog_start (c_str name) ;;;
  let basename := path_append FLAGS_logger_path name in
  glog_destination 0 (basename +:+ ".INFO.") ;;;
  glog_destination 1 (basename +:+ ".WARNING.") ;;;
  glog_destination 2 (basename +:+ ".ERROR.") ;;;
  let* g := get_glog in
  put_glog (to_stderr false false 5 g) ;;;
  fs_logStatus log ;;;
  let* g' := get_glog in
  put_glog (to_stderr (alsologtostderr g) (logtostderr g) (stderrthreshold g) g').

Definition FilesystemLoggerPlugin : LoggerPlugin S :=
  mkLoggerPlugin false false fs_logString fs_logStatus fs_logSnapshot default_logEvent fs_init.
End FilesystemLogger.

(** ** The system log *)

Definition LOG_CRIT : Z := 2.
Definition LOG_ERR : Z := 3.
Definition LOG_WARNING : Z := 4.
Definition LOG_NOTICE : Z := 5.
Definition LOG_INFO : Z := 6.
(** [LOG_LOCAL3 >> 3]. *)
Definition DEFAULT_FACILITY : Z := 19.

(** What was written: the priority and the text; and the facility in use. *)
Record Syslog := mkSyslog { syslog_lines : list (Z * string); syslog_name : string; syslog_facility : Z }.

Definition status_text (item : StatusLogLine) : string :=
  "severity=" +:+ to_string (log_severity item) +:+ " location=" +:+ log_filename item +:+ ":" +:+
  to_string (log_line item) +:+ " message=" +:+ log_message item.

Definition syslog (priority : Z) (line : string) : M Syslog unit :=
  modify (fun l => mkSyslog (syslog_lines l ++ [(priority, line)]) (syslog_name l) (syslog_facility l)).

Definition syslog_logString (FLAGS_logger_syslog_prepend_cee : bool) (s : string) : M Syslog Status :=
  syslog LOG_INFO (if FLAGS_logger_syslog_prepend_cee then "@cee:" +:+ c_str s else c_str s) ;;;
  ret (mkStatus 0 "OK").

Definition syslog_severity (severity : Z) : Z :=
  if (severity =? 0)%Z then LOG_NOTICE
  else if (severity =? 1)%Z then LOG_WARNING
  else if (severity =? 2)%Z then LOG_ERR
  else if (severity =? 3)%Z then LOG_CRIT
  else LOG_NOTICE.

Definition syslog_logStatus (log : list StatusLogLine) : M Syslog Status :=
  for_each log (fun item => syslog (syslog_severity (log_severity item)) (c_str (status_text item))) ;;;
  ret (mkStatus 0 "OK").

Definition syslog_init (FLAGS_logger_syslog_facility : Z) (name : string) (log : list StatusLogLine) : M Syslog unit :=
  let facility := if (FLAGS_logger_syslog_facility <? 0)%Z || (23 <? FLAGS_logger_syslog_facility)%Z
                  then DEFAULT_FACILITY else FLAGS_logger_syslog_facility in
  modify (fun l => mkSyslog (syslog_lines l) (c_str name) (Z.shiftl facility 3)) ;;;
  syslog_logStatus log ;;;
  ret tt.

Definition SyslogLoggerPlugin (prepend_cee : bool) (facility : Z) : LoggerPlugin Syslog :=
  mkLoggerPlugin true false (syslog_logString prepend_cee) syslog_logStatus (syslog_logString prepend_cee)
    default_logEvent (syslog_init facility).

(** ** Standard output: the text printed *)

Record Stdout := mkStdout { printed : string; stdout_glog : GlogFlags }.

Definition printf_line (s : string) : M Stdout unit :=
  modify (fun o => mkStdout (printed o +:+ c_str s +:+ String "010" "") (stdout_glog o)).

Definition stdout_logString (s : string) : M Stdout Status := printf_line s ;;; ret Status_success.

Definition stdout_logStatus (log : list StatusLogLine) : M Stdout Status :=
  for_each log (fun item => printf_line (status_text item)) ;;; ret Status_success.

Definition stdout_init (_ : string) (log : list StatusLogLine) : M Stdout unit :=
  modify (fun o => mkStdout (printed o) (to_stderr false false 5 (stdout_glog o))) ;;;
  stdout_logStatus log ;;;
  ret tt.

Definition StdoutLoggerPlugin : LoggerPlugin Stdout :=
  mkLoggerPlugin true false stdout_logString stdout_logStatus stdout_logString default_logEvent stdout_init.

(** ** Kafka *)

Definition kKafkaBaseTopic : string := "base_topic".
Definition kKafkaTopicParserRootKey : string := "kafka_topics".

(** [s.find(c, pos)]; [npos] is [None]. *)
Fixpoint find_char_list (c : ascii) (l : list ascii) (pos : nat) : option nat :=
  match l with
  | [] => None
  | d :: l => if decide (d = c) then Some pos else find_char_list c l (S pos)
  end.
Definition find_char (c : ascii) (s : string) (pos : nat) : option nat :=
  find_char_list c (drop pos (chars s)) pos.

(** [s.rfind(t)]: the last position where [t] starts. *)
Fixpoint rfind_list (t l : list ascii) (pos : nat) : option nat :=
  match (match l with [] => None | _ :: l => rfind_list t l (S pos) end) with
  | Some i => Some i
  | None => if bool_decide (take (length t) l = t) then Some pos else None
  end.
Definition rfind (t s : string) : option nat := rfind_list (chars t) (chars s) 0.

Definition quote : string := String "034" "".

(** The value of the last member called name, as text: up to the next quote. *)
Definition getMsgName (payload : string) : string :=
  match rfind (quote +:+ "name" +:+ quote) payload with
  | None => ""
  | Some ipos =>
      match find_char "034" payload (ipos + 6) with
      | None => ""
      | Some first =>
          match find_char "034" payload (first + 1) with
          | None => ""
          | Some last => String.substring (first + 1) (last - first - 1) payload
          end
      end
  end.

(** A topic is a handle; [None] in the table is a null pointer. *)
Record Kafka := mkKafka {
  running_ : bool;
  queryToTopics_ : gmap string (option Z);
  topics_ : list Z;
  msgKey_ : string;
}.

Section Kafka.
Context {S : Type}.
(** [initTopic(name)]: the handle or a null pointer; [rd_kafka_produce(topic, payload,
    key)] and the error text; [rd_kafka_poll], [rd_kafka_flush]. *)
Context (initTopic : string -> M S (option Z)) (produce : Z -> string -> string -> M S (option string))
        (topic_name : Z -> string) (poll kafka_flush : M S unit).
Context (FLAGS_logger_kafka_topic : string).

Abbreviation MKf := (M (S * Kafka)).
Definition in_lib {A} (m : M S A) : MKf A := zoom fst (fun s p => (s, p.2)) m.
Definition upd_kafka (f : Kafka -> Kafka) : MKf unit := modify (fun p => (p.1, f p.2)).
Definition set_topic (name : string) (t : option Z) (k : Kafka) : Kafka :=
  mkKafka (running_ k) (<[name := t]> (queryToTopics_ k)) (topics_ k) (msgKey_ k).
Definition push_topic (t : Z) (k : Kafka) : Kafka :=
  mkKafka (running_ k) (queryToTopics_ k) (topics_ k ++ [t]) (msgKey_ k).

Definition configure_topic (t : string * json) : MKf unit :=
  let* topic := in_lib (initTopic (c_str t.1)) in
  match topic with
  | None => ret tt
  | Some h =>
      upd_kafka (push_topic h) ;;;
      let* names := of_result (GetArray t.2) in
      for_each names (fun n =>
        let* name := of_result (GetString n) in
        if is_empty name then ret tt else upd_kafka (set_topic name (Some h)))
  end.

(** [configureTopics]; [root] is the member of the parser's data, if there is a
    parser. *)
Definition configureTopics (root : option json) : MKf bool :=
  (match root with
   | None | Some JNull => ret tt
   | Some v => let* ms := of_result (GetObject v) in for_each ms configure_topic
   end) ;;;
  if negb (is_empty FLAGS_logger_kafka_topic) then
    let* topic := in_lib (initTopic FLAGS_logger_kafka_topic) in
    (match topic with Some h => upd_kafka (push_topic h) | None => ret tt end) ;;;
    upd_kafka (set_topic kKafkaBaseTopic topic) ;;;
    ret true
  else
    let* topics := gets (fun p => topics_ p.2) in
    if bool_decide (topics = []) then ret false
    else upd_kafka (set_topic kKafkaBaseTopic None) ;;; ret true.

Definition publishMsg (topic : Z) (payload : string) : MKf Status :=
  let* key := gets (fun p => msgKey_ p.2) in
  let* err := in_lib (produce topic payload key) in
  ret (match err with
       | Some text => mkStatus 1 ("Failed to produce on Kafka topic " +:+ topic_name topic +:+ " : " +:+ text)
       | None => mkStatus 0 "OK"
       end).

(** The topic of a message; looking up the base topic may add an empty entry. *)
Definition topic_of (name : string) : MKf (option Z) :=
  let* table := gets (fun p => queryToTopics_ p.2) in
  match table !! name with
  | Some t => ret t
  | None =>
      match table !! kKafkaBaseTopic with
      | Some t => ret t
      | None => upd_kafka (set_topic kKafkaBaseTopic None) ;;; ret None
      end
  end.

Definition kafka_logString (payload : string) : MKf Status :=
  let* running := gets (fun p => running_ p.2) in
  if negb running then ret (mkStatus 1 "Cannot log because Kafka producer did not initiate properly.")
  else
    let name := getMsgName payload in
    let* topic := topic_of name in
    match topic with
    | None =>
        ret (mkStatus 2 ("Could not publish message: Topic not configured for message name '" +:+ name +:+ "'"))
    | Some t =>
        let* status := publishMsg t payload in
        in_lib poll ;;;
        ret status
    end.

(** [stop] after the once flag. *)
Definition kafka_stop : MKf unit :=
  let* running := gets (fun p => running_ p.2) in
  if running then
    upd_kafka (fun k => mkKafka false (queryToTopics_ k) (topics_ k) (msgKey_ k)) ;;; in_lib kafka_flush
  else ret tt.
End Kafka.

(** * Logging: status lines are delivered once

    Status lines survive the trip to a plugin as text; however the threads that send
    them are interleaved, each line reaches each logger that asked for it exactly
    once. Waiting for a sender, and the topic Kafka messages go to, are shown not to
    do what they should. *)

(** ** The text of status lines *)

Section Text.
Context {R : RapidJSON} {RL : RapidJSONLaws R}.

Record wf_line (l : StatusLogLine) : Prop := {
  wf_severity : (- 2 ^ 31 <= log_severity l < 2 ^ 31)%Z;
  wf_number : in_u64 (log_line l);
  wf_time : in_u64 (log_time l);
  wf_filename : c_str (log_filename l) = log_filename l;
  wf_message : c_str (log_message l) = log_message l;
  wf_calendar : c_str (log_calendar_time l) = log_calendar_time l;
  wf_identifier : c_str (log_identifier l) = log_identifier l;
}.

Lemma line_object_members l :
  line_object l = JObject
    [("s", JInt (log_severity l)); ("f", JString (log_filename l)); ("i", JInt (log_line l));
     ("m", JString (log_message l)); ("h", JString (log_identifier l));
     ("c", JString (log_calendar_time l)); ("u", JInt (log_time l))].
Proof. reflexivity. Qed.

Lemma GetUint64_in z : in_u64 z -> GetUint64 (JInt z) = Ok z.
Proof.
  intros [H1 H2]. unfold GetUint64. destruct (Z.leb_spec 0 z); [|lia].
  destruct (Z.ltb_spec z (2 ^ 64)); [done|lia].
Qed.

Lemma GetInt_in z : (- 2 ^ 31 <= z < 2 ^ 31)%Z -> GetInt (JInt z) = Ok z.
Proof.
  intros [H1 H2]. unfold GetInt. destruct (Z.leb_spec (- 2 ^ 31) z); [|lia].
  destruct (Z.ltb_spec z (2 ^ 31)); [done|lia].
Qed.

Lemma read_line_object l : wf_line l -> read_line (line_object l) = Ok l.
Proof.
  intros [Hs Hi Hu Hf Hm Hc Hh]. rewrite line_object_members.
  unfold read_line, line_member. cbn [member GetObject res_bind].
  repeat first [ rewrite decide_True by done | rewrite decide_False by done
               | progress cbn [res_bind GetString] | rewrite GetInt_in by done
               | rewrite GetUint64_in by done ].
  rewrite Hf, Hm, Hc, Hh. by destruct l.
Qed.

Lemma line_object_exact l : wf_line l -> json_exact (line_object l) = true.
Proof.
  intros [Hs Hi Hu _ _ _ _]. unfold in_u64 in *. rewrite line_object_members. cbn -[Z.leb Z.ltb Z.pow].
  rewrite !andb_true_iff, !Z.leb_le, !Z.ltb_lt. lia.
Qed.

Lemma read_lines_objects log : Forall wf_line log -> read_lines (line_object <$> log) = Ok log.
Proof.
  induction 1 as [|l log Hl Hlog IH]; [done|].
  change (res_bind (read_line (line_object l)) (fun x => res_bind (read_lines (line_object <$> log)) (fun xs => Ok (x :: xs)))
          = Ok (l :: log)).
  rewrite read_line_object by done. cbn [res_bind]. by rewrite IH.
Qed.

Lemma lines_exact log : Forall wf_line log -> json_exact (JArray (line_object <$> log)) = true.
Proof.
  intros H. change (forallb json_exact (line_object <$> log) = true).
  induction H as [|l log Hl Hlog IH]; [done|].
  change (json_exact (line_object l) && forallb json_exact (line_object <$> log) = true).
  by rewrite line_object_exact.
Qed.

(** What is sent for a batch of lines. *)
Definition status_request (lines : list StatusLogLine) : PluginRequest :=
  list_to_map [("status", "true"); ("log", serializeIntermediateLog lines)].

Lemma deserialize_status_request log :
  Forall wf_line log -> deserializeIntermediateLog (status_request log) = Ok log.
Proof.
  intros H. unfold deserializeIntermediateLog, status_request, serializeIntermediateLog.
  cbn [list_to_map foldr fst snd]. rewrite lookup_insert_ne, lookup_insert_eq by done.
  rewrite c_str_idem, rj_roundtrip by (by apply lines_exact). cbn. by apply read_lines_objects.
Qed.

Lemma lookup_request_other (lines : list StatusLogLine) k :
  k <> "status" -> k <> "log" -> status_request lines !! k = None.
Proof.
  intros H1 H2. unfold status_request. cbn [list_to_map foldr fst snd].
  rewrite !lookup_insert_ne by done. apply lookup_empty.
Qed.

(** The lines a plugin is called with are the lines that were buffered: the text
    they travel as is read back exactly. *)
Theorem status_lines_roundtrip {S} (p : LoggerPlugin S) (log : list StatusLogLine) (s : S) :
  Forall wf_line log -> LoggerPlugin_call p (status_request log) s = lp_logStatus p log s.
Proof.
  intros H. unfold LoggerPlugin_call. rewrite !lookup_request_other by done.
  assert (status_request log !! "status" = Some "true") as ->.
  { unfold status_request. cbn [list_to_map foldr fst snd]. apply lookup_insert_eq. }
  by rewrite deserialize_status_request.
Qed.
End Text.

(** ** Senders and their interleaving *)

Section Relay.
Context {R : RapidJSON} {RL : RapidJSONLaws R} {B : Boost}.
(** The loggers in use, the host identifier, and the flags. *)
Context (active host : string) (host_wf : c_str host = host).
Context (logger_exists : string -> bool -> M (list (string * StatusLogLine)) bool).

(** Every logger records the status lines it is given. *)
Abbreviation Rec := (list (string * StatusLogLine)).
Definition recorder (logger : string) : LoggerPlugin Rec :=
  mkLoggerPlugin true false (fun _ => ret Status_success)
    (fun log => modify (fun d => d ++ (pair logger <$> log)) ;;; ret Status_success)
    (fun _ => ret Status_success) default_logEvent (fun _ _ => ret tt).

Definition rec_call (logger : string) (request : PluginRequest) : M Rec Status :=
  LoggerPlugin_call (recorder logger) request.
Definition rec_active : M Rec string := ret active.
Definition rec_host : M Rec string := ret host.

(** The process, and the batches that left the buffer but are not delivered yet. *)
Record World := mkWorld { w_proc : Rec * LogSink; w_flight : list PluginRequest; w_logged : list StatusLogLine }.

Definition receives (logger : string) (d : Rec) : list StatusLogLine :=
  (filter (fun x => x.1 = logger) d).*2.

Abbreviation ident := (with_identifier host).

(** What can happen next: a line is logged, the buffer is relayed, a thread runs the
    first half of the sender, a thread delivers a batch, the library waits. *)
Inductive relay_step : World -> World -> Prop :=
  | step_log line daemon sync task off ready p f g p' :
      wf_line line ->
      sink_send rec_active rec_call rec_host off ready line daemon sync task p = (Ok tt, p') ->
      relay_step (mkWorld p f g) (mkWorld p' f (g ++ [line]))
  | step_relay async task off ready p f g p' :
      relayStatusLogs rec_active rec_call rec_host off ready async task p = (Ok tt, p') ->
      relay_step (mkWorld p f g) (mkWorld p' f g)
  | step_take p f g r p' :
      take_lines host p = (Ok r, p') ->
      relay_step (mkWorld p f g) (mkWorld p' (f ++ [r]) g)
  | step_deliver i r p f g p' :
      f !! i = Some r -> deliver rec_active rec_call r p = (Ok tt, p') ->
      relay_step (mkWorld p f g) (mkWorld p' (delete i f) g)
  | step_wait d k f g :
      relay_step (mkWorld (d, k) f g) (mkWorld (d, (WaitTillSent k).2) f g).

Lemma receives_app logger d1 d2 : receives logger (d1 ++ d2) = receives logger d1 ++ receives logger d2.
Proof. unfold receives. by rewrite filter_app, fmap_app. Qed.

Lemma receives_pairs logger other log :
  receives logger (pair other <$> log) = if decide (other = logger) then log else [].
Proof.
  unfold receives. case_decide as H.
  - rewrite filter_all; [|by apply Forall_fmap, Forall_true].
    rewrite <- list_fmap_compose. by rewrite list_fmap_id.
  - rewrite filter_none; [done|]. by apply Forall_fmap, Forall_true.
Qed.

(** Delivering a batch appends it once to each logger that asked for it. *)
Lemma deliver_run batch d k :
  Forall wf_line batch -> NoDup (split active ",") ->
  exists d', deliver rec_active rec_call (status_request batch) (d, k) = (Ok tt, (d', k)) /\
  forall logger, receives logger d' =
    receives logger d ++ if decide (logger ∈ sinks_ k /\ logger ∈ split active ",") then batch else [].
Proof.
  intros Hwf Hnd. unfold deliver, rec_active. rewrite (bind_run _ _ _ active (d, k)) by done.
  revert d. induction Hnd as [|x l Hx Hl IH]; intros d.
  { exists d. split; [done|]. intros logger. rewrite decide_False by set_solver. by rewrite app_nil_r. }
  cbn [for_each].
  set (d1 := if bool_decide (x ∈ sinks_ k) then d ++ (pair x <$> batch) else d).
  destruct (IH d1) as (d' & E & Hd'). exists d'. split.
  - rewrite bind_assoc. unfold bind at 1, gets at 1. cbn [snd]. unfold d1 in E.
    destruct (bool_decide (x ∈ sinks_ k)) eqn:Ek; [|exact E].
    unfold on_S, zoom, bind at 1 2, rec_call. cbn [fst snd]. rewrite status_lines_roundtrip by done.
    cbn. exact E.
  - intros logger. rewrite Hd'. unfold d1. case_bool_decide as Ek.
    + rewrite receives_app, receives_pairs, <- app_assoc. f_equal.
      destruct (decide (x = logger)) as [->|Hne].
      * rewrite decide_False by tauto. rewrite decide_True by set_solver. by rewrite app_nil_r.
      * apply decide_ext. set_solver.
    + f_equal. apply decide_ext. set_solver.
Qed.

Lemma ident_wf l : wf_line l -> wf_line (ident l).
Proof. intros [Hs Hi Hu Hf Hm Hc Hh]. by split. Qed.

Lemma idents_wf log : Forall wf_line log -> Forall wf_line (ident <$> log).
Proof. intros H. apply Forall_fmap. eapply Forall_impl; [done|]. intros l Hl. by apply ident_wf. Qed.

(** Nothing is lost and nothing is there twice, for the loggers that asked. *)
Definition accounted (sinks : list string) (batches : list (list StatusLogLine)) (logged : list StatusLogLine) (p : Rec * LogSink) : Prop :=
  sinks_ p.2 = sinks /\ Forall wf_line (logs_ p.2) /\
  forall logger, logger ∈ sinks -> logger ∈ split active "," ->
    receives logger p.1 ++ concat batches ++ (ident <$> logs_ p.2) ≡ₚ ident <$> logged.

Lemma sender_accounted sinks batches g p p' :
  NoDup (split active ",") ->
  accounted sinks batches g p -> sender rec_active rec_call rec_host p = (Ok tt, p') -> accounted sinks batches g p'.
Proof.
  intros Hnd (Hk & Hwf & Ha). destruct p as [d k]. unfold sender, rec_host.
  rewrite (bind_run _ _ _ host (d, k)) by done. unfold take_lines. rewrite bind_assoc.
  unfold bind at 1, gets. cbn [snd]. rewrite bind_assoc. unfold on_sink, bind at 1, modify. cbn [fst snd].
  rewrite bind_ret. fold (status_request (ident <$> logs_ k)).
  destruct (deliver_run (ident <$> logs_ k) d (set_logs [] k) (idents_wf _ Hwf) Hnd) as (d' & E & Hd').
  rewrite E. intros [= <-]. split; [done|]. split; [done|]. intros logger Hs Hl. cbn [fst snd] in *.
  rewrite Hd', decide_True by (cbn in Hk; by subst). rewrite <- Ha by done. cbn.
  rewrite app_nil_r, <- app_assoc. apply Permutation_app_head, Permutation_app_comm.
Qed.

Lemma relay_accounted off ready async task sinks batches g p p' :
  NoDup (split active ",") -> accounted sinks batches g p ->
  relayStatusLogs rec_active rec_call rec_host off ready async task p = (Ok tt, p') -> accounted sinks batches g p'.
Proof.
  intros Hnd Ha. unfold relayStatusLogs. destruct (off || negb ready); [by intros [= <-]|].
  unfold bind at 1, gets. case_bool_decide; [by intros [= <-]|].
  destruct async; [by apply sender_accounted|]. intros [= <-]. exact Ha.
Qed.

Lemma log_accounted line sinks batches g (p : Rec * LogSink) :
  wf_line line -> accounted sinks batches g p ->
  accounted sinks batches (g ++ [line]) (p.1, set_logs (logs_ p.2 ++ [line]) p.2).
Proof.
  intros Hl (Hk & Hwf & Ha). split; [done|]. split.
  - apply Forall_app. by split; [|apply Forall_singleton].
  - intros logger H1 H2. cbn. rewrite !fmap_app, <- (Ha logger H1 H2), <- !app_assoc. done.
Qed.

Definition relay_inv (sinks : list string) (w : World) : Prop :=
  exists batches, Forall (Forall wf_line) batches /\ w_flight w = status_request <$> batches /\
  accounted sinks batches (w_logged w) (w_proc w).

Lemma concat_delete_perm {A} (l : list (list A)) i x :
  l !! i = Some x -> concat l ≡ₚ x ++ concat (delete i l).
Proof.
  intros H. rewrite <- (take_drop_middle l i x H) at 1. rewrite delete_take_drop, !concat_app. cbn.
  rewrite !app_assoc. apply Permutation_app_tail, Permutation_app_comm.
Qed.

Lemma relay_step_inv sinks w w' : NoDup (split active ",") -> relay_inv sinks w -> relay_step w w' -> relay_inv sinks w'.
Proof.
  intros Hnd (batches & Hb & Hf & Ha) Hs. destruct Hs as
    [line daemon sync task off ready p f g p' Hl E | async task off ready p f g p' E
    | p f g r p' E | i r p f g p' Hi E | d k f g]; cbn [w_proc w_flight w_logged] in *.
  - exists batches. split_and!; [done..|]. unfold sink_send, on_sink, bind at 1, modify in E.
    pose proof (log_accounted line sinks batches g p Hl Ha) as Ha'. unfold bind at 1, gets in E. cbn [snd] in E.
    destruct (_ && _); [by eapply relay_accounted | by injection E as <-].
  - exists batches. split_and!; [done..|]. by eapply relay_accounted.
  - destruct p as [d k]. unfold take_lines, bind, gets, on_sink, modify, ret in E. cbn [fst snd] in E.
    injection E as <- <-. destruct Ha as (Hk & Hwf & Ha). exists (batches ++ [ident <$> logs_ k]). split_and!.
    + apply Forall_app. split; [done|]. apply Forall_singleton. by apply idents_wf.
    + by rewrite Hf, fmap_app.
    + split; [done|]. split; [done|]. intros logger H1 H2. cbn in *. rewrite <- (Ha logger H1 H2), concat_app. cbn.
      by rewrite !app_nil_r.
  - rewrite Hf, list_lookup_fmap in Hi. destruct (batches !! i) as [b|] eqn:Eb; [|done].
    injection Hi as <-. destruct p as [d k]. destruct Ha as (Hk & Hwf & Ha).
    pose proof (Forall_lookup_1 _ _ _ _ Hb Eb) as Hbw. destruct (deliver_run b d k Hbw Hnd) as (d' & E' & Hd').
    rewrite E' in E. injection E as <-. exists (delete i batches). split_and!.
    + by apply Forall_delete.
    + by rewrite Hf, list_fmap_delete.
    + split; [done|]. split; [done|]. intros logger H1 H2. cbn [fst snd] in *.
      rewrite Hd', decide_True by (by subst).
      rewrite <- (Ha logger H1 H2), (concat_delete_perm batches i b Eb). by rewrite <- !app_assoc.
  - exists batches. split_and!; [done..|]. unfold WaitTillSent. by destruct (last (senders k)).
Qed.

(** C32: However logging, relaying and the threads that send are interleaved, every line
    that was logged is, for each active logger that asked for status lines, in exactly
    one place: delivered to it, on its way, or still in the buffer. When nothing is on
    its way and the buffer is empty, every logger has every line exactly once. *)
Theorem status_lines_are_delivered_once (sinks : list string) (enabled : bool) (w : World) (logger : string) :
  NoDup (split active ",") -> logger ∈ sinks -> logger ∈ split active "," ->
  rtc relay_step (mkWorld ([], mkLogSink [] enabled sinks []) [] []) w ->
  (exists batches, w_flight w = status_request <$> batches /\
   receives logger (w_proc w).1 ++ concat batches ++ (ident <$> logs_ (w_proc w).2) ≡ₚ ident <$> w_logged w) /\
  (w_flight w = [] -> logs_ (w_proc w).2 = [] -> receives logger (w_proc w).1 ≡ₚ ident <$> w_logged w).
Proof.
  intros Hnd Hs Hl Hr.
  assert (relay_inv sinks w) as (batches & Hb & Hf & Hk & Hwf & Ha).
  { clear Hs Hl. remember (mkWorld _ _ _) as w0 eqn:E0.
    assert (relay_inv sinks w0) as H0.
    { subst. exists []. split_and!; [done..|]. by split. }
    clear E0. induction Hr as [w|w0 w1 w Hstep Hr IH]; [done|]. apply IH. by eapply relay_step_inv. }
  specialize (Ha logger Hs Hl). split; [by exists batches|].
  intros E1 E2. rewrite E2 in Ha. rewrite E1 in Hf. symmetry in Hf. apply fmap_nil_inv in Hf. subst.
  cbn in Ha. by rewrite app_nil_r in Ha.
Qed.
End Relay.

(** ** Waiting *)

(** When more than one sender is queued, waiting takes the newest future and
    drops the oldest, which was not waited for; the empty future it leaves at the back
    is what the next call waits on, and that throws. *)
Theorem waiting_takes_the_wrong_future (k : LogSink) (rest : list (option nat)) (oldest t : nat) :
  senders k = Some oldest :: rest ++ [Some t] ->
  let '(action, k') := WaitTillSent k in
  action = WaitFor t /\ senders k' = rest ++ [None] /\ (WaitTillSent k').1 = WaitOnNothing.
Proof.
  intros E. unfold WaitTillSent at 1. rewrite E, app_comm_cons, last_snoc, removelast_last. cbn.
  split; [done|]. split; [done|]. unfold WaitTillSent. cbn. by rewrite last_snoc.
Qed.

(** ** The topic of a Kafka message *)

Definition name_key : string := quote +:+ "name" +:+ quote.

(** Where the text [t] starts. *)
Definition starts_at (t l : list ascii) (i : nat) : Prop := take (length t) (drop i l) = t.

Lemma rfind_list_none t l pos : (forall j, j <= length l -> ~ starts_at t l j) -> rfind_list t l pos = None.
Proof.
  revert pos. induction l as [|c l IH]; intros pos H; cbn.
  - case_bool_decide as E; [|done]. exfalso. apply (H 0); [done|]. exact E.
  - rewrite IH; [|intros j Hj; apply (H (S j)); cbn; lia].
    case_bool_decide as E; [|done]. exfalso. apply (H 0); [cbn; lia|]. exact E.
Qed.

Lemma rfind_list_last t l i pos :
  i <= length l -> starts_at t l i -> (forall j, i < j <= length l -> ~ starts_at t l j) ->
  rfind_list t l pos = Some (pos + i).
Proof.
  revert i pos. induction l as [|c l IH]; intros i pos Hi Hs Hlast.
  - cbn in Hi. assert (i = 0) as -> by lia. cbn. rewrite bool_decide_true by exact Hs. by rewrite Nat.add_0_r.
  - destruct i as [|i]; cbn.
    + rewrite rfind_list_none; [|intros j Hj; apply (Hlast (S j)); cbn; lia].
      rewrite bool_decide_true by exact Hs. by rewrite Nat.add_0_r.
    + rewrite (IH i (S pos)); [f_equal; lia | cbn in Hi; lia | exact Hs |].
      intros j Hj. apply (Hlast (S j)). cbn. lia.
Qed.

Lemma find_char_list_app c l1 l2 pos :
  c ∉ l1 -> find_char_list c (l1 ++ c :: l2) pos = Some (pos + length l1).
Proof.
  revert pos. induction l1 as [|d l1 IH]; intros pos H; cbn.
  - rewrite decide_True by done. by rewrite Nat.add_0_r.
  - rewrite decide_False by set_solver. rewrite IH by set_solver. f_equal. lia.
Qed.

Lemma find_char_spec c s pos l0 l1 l2 :
  chars s = l0 ++ l1 ++ c :: l2 -> length l0 = pos -> c ∉ l1 -> find_char c s pos = Some (pos + length l1).
Proof.
  intros E Hl Hc. unfold find_char. rewrite E, <- Hl, drop_app_length. by apply find_char_list_app.
Qed.

Lemma substring_middle a n b :
  String.substring (String.length a) (String.length n) (a +:+ n +:+ b) = n.
Proof.
  induction a as [|c a IH]; [|rewrite app_cons_str; exact IH]. change ("" +:+ n +:+ b) with (n +:+ b). cbn.
  induction n as [|c n IH]; [by destruct b|]. rewrite app_cons_str. cbn. by rewrite IH.
Qed.

Lemma length_append_chars a b : String.length (a +:+ b) = String.length a + String.length b.
Proof. by rewrite <- !length_chars, chars_app, length_app. Qed.

(** The text after the last key called name, up to the closing quote. *)
Lemma getMsgName_last pre sep n post :
  let payload := pre +:+ name_key +:+ sep +:+ quote +:+ n +:+ quote +:+ post in
  ("034"%char ∉ chars sep) -> ("034"%char ∉ chars n) ->
  (forall j, String.length pre < j <= String.length payload -> ~ starts_at (chars name_key) (chars payload) j) ->
  getMsgName payload = n.
Proof.
  intros payload Hsep Hn Hlast. unfold getMsgName. fold name_key.
  assert (chars payload = chars pre ++ chars name_key ++ chars sep ++ "034"%char :: chars n ++ "034"%char :: chars post) as E.
  { unfold payload. by rewrite !chars_app. }
  unfold rfind. rewrite (rfind_list_last _ _ (String.length pre)); cbn [Nat.add].
  2: { rewrite E, length_app, length_chars. lia. }
  2: { unfold starts_at. by rewrite E, <- (length_chars pre), drop_app_length, take_app_length. }
  2: { intros j Hj. apply Hlast. by rewrite length_chars in Hj. }
  rewrite (find_char_spec _ payload (String.length pre + 6) (chars pre ++ chars name_key) (chars sep)
             (chars n ++ "034"%char :: chars post)).
  2: { by rewrite E, <- !app_assoc. }
  2: { by rewrite length_app, length_chars. }
  2: { done. }
  rewrite (find_char_spec _ payload (String.length pre + 6 + length (chars sep) + 1)
             (chars pre ++ chars name_key ++ chars sep ++ ["034"%char]) (chars n) (chars post)).
  2: { by rewrite E, <- !app_assoc. }
  2: { rewrite !length_app, !length_chars. change (String.length name_key) with 6. cbn. lia. }
  2: { done. }
  rewrite !length_chars.
  replace (String.length pre + 6 + String.length sep + 1)
    with (String.length (pre +:+ name_key +:+ sep +:+ quote))
    by (rewrite !length_append_chars; change (String.length name_key) with 6; change (String.length quote) with 1; lia).
  replace (String.length (pre +:+ name_key +:+ sep +:+ quote) + String.length n -
           (String.length pre + 6 + String.length sep) - 1) with (String.length n)
    by (rewrite !length_append_chars; change (String.length name_key) with 6; change (String.length quote) with 1; lia).
  pose proof (substring_middle (pre +:+ name_key +:+ sep +:+ quote) n (quote +:+ post)) as H.
  rewrite !app_assoc_str in H. exact H.
Qed.

Section Kafka.
Context {S : Type}.
Context (produce : Z -> string -> string -> M S (option string)) (topic_name : Z -> string) (poll : M S unit).

(** A message is published on the topic of the last member called name in its text,
    whatever that member belongs to: a result row with a column called name follows
    the value of the column, not the name of the query. *)
Theorem kafka_message_follows_the_last_name (pre sep n post : string) (t : Z) (k : Kafka) (s s1 s2 : S) :
  let payload := pre +:+ name_key +:+ sep +:+ quote +:+ n +:+ quote +:+ post in
  ("034"%char ∉ chars sep) -> ("034"%char ∉ chars n) ->
  (forall j, String.length pre < j <= String.length payload -> ~ starts_at (chars name_key) (chars payload) j) ->
  running_ k = true -> queryToTopics_ k !! n = Some (Some t) ->
  produce t payload (msgKey_ k) s = (Ok None, s1) -> poll s1 = (Ok tt, s2) ->
  kafka_logString produce topic_name poll payload (s, k) = (Ok (mkStatus 0 "OK"), (s2, k)).
Proof.
  intros payload Hsep Hn Hlast Hr Ht Hp Hpoll. unfold kafka_logString.
  unfold payload. rewrite getMsgName_last by done. fold payload.
  unfold bind at 1, gets. cbn [snd]. rewrite Hr. cbn [negb].
  unfold topic_of. rewrite bind_assoc. unfold bind at 1, gets. cbn [snd]. rewrite Ht, bind_ret.
  unfold publishMsg. rewrite bind_assoc. unfold bind at 1, gets. cbn [snd].
  unfold in_lib, zoom, bind, ret. cbn [fst snd]. rewrite Hp. cbn. by rewrite Hpoll.
Qed.
End Kafka.

(** An event of the query called processes with a column called name. *)
Example kafka_column_name_is_taken :
  getMsgName ("{" +:+ quote +:+ "name" +:+ quote +:+ ":" +:+ quote +:+ "processes" +:+ quote +:+ "," +:+
              quote +:+ "columns" +:+ quote +:+ ":{" +:+ quote +:+ "name" +:+ quote +:+ ":" +:+
              quote +:+ "bash" +:+ quote +:+ "}}") = "bash".
Proof. vm_compute. reflexivity. Qed.
