(* ===== verification/SqlFunctions.v ===== *)
(** * Functions added to SQL (osquery/sql/sqlite_string.cpp, sqlite_encoding.cpp,
      sqlite_filesystem.cpp, sqlite_hashing.cpp, sqlite_operations.cpp,
      osquery/core/base64.cpp)

    A function takes SQLite values and yields a value, an error or nothing at all.
    SQLite's conversions of values, Boost's base64 iterators and regular expressions,
    [inet_pton], the digests and the file system are parameters. *)
From S2P Require Import Prelude Boost Conversions.

(** ** Values *)

Inductive SqlValue :=
  | SNull
  | SInteger (z : Z)
  | SReal (bits : Z)
  | SText (s : string)
  | SBlob (s : string).

Definition is_null (v : SqlValue) : bool := match v with SNull => true | _ => false end.
Definition is_text (v : SqlValue) : bool := match v with SText _ => true | _ => false end.

(** What a function does to its context. *)
Inductive SqlResult :=
  | ResNull
  | ResText (s : string)
  | ResInt (z : Z)
  | ResError (msg : string)
  | ResNone.

Class SqliteValues := {
  (** [sqlite3_value_text] with [sqlite3_value_bytes], and [sqlite3_value_int]. *)
  value_text : SqlValue -> string;
  value_int : SqlValue -> Z;
}.

Class SqliteValuesLaws (V : SqliteValues) := {
  value_text_text s : value_text (SText s) = s;
  value_int_integer z : (- 2 ^ 31 <= z < 2 ^ 31)%Z -> value_int (SInteger z) = z;
}.

(** ** Base 64 *)

(** The iterators of Boost.Archive: three bytes to four characters without padding,
    and back; [None] is a [dataflow_exception]. *)
Class BoostBase64 := {
  b64_enc : string -> string;
  b64_dec : string -> option string;
}.

Class BoostBase64Laws (E : BoostBase64) := {
  b64_dec_enc s : s <> "" -> b64_dec (b64_enc s) = Some s;
  b64_enc_chars s : all_chars (fun c => negb (bool_decide (c ∈ ["013"; "010"; "="]%char))) (b64_enc s) = true;
  b64_enc_nonempty s : s <> "" -> b64_enc s <> "";
}.

(** [boost::trim_right_if(s, is_any_of(set))]. *)
Fixpoint drop_while (p : ascii -> bool) (l : list ascii) : list ascii :=
  match l with
  | c :: r => if p c then drop_while p r else l
  | [] => []
  end.
Definition trim_right_if (p : ascii -> bool) (s : string) : string :=
  of_chars (rev (drop_while p (rev (chars s)))).

(** [boost::erase_all] of one and of two characters. *)
Definition erase_char (c : ascii) (s : string) : string :=
  of_chars (filter (fun d => d <> c) (chars s)).
Fixpoint erase_pair_list (a b : ascii) (l : list ascii) : list ascii :=
  match l with
  | x :: ((y :: r) as t) =>
      if decide (x = a /\ y = b) then erase_pair_list a b r else x :: erase_pair_list a b t
  | _ => l
  end.
Definition erase_pair (a b : ascii) (s : string) : string := of_chars (erase_pair_list a b (chars s)).

Fixpoint repeat_char (n : nat) (c : ascii) : string :=
  match n with O => "" | S n => String c (repeat_char n c) end.

Section Base64.
Context {E : BoostBase64}.

Definition base64_decode (encoded : string) : string :=
  let encoded := erase_pair "013" "010" encoded in
  let encoded := erase_char "010" encoded in
  let encoded := trim_right_if (is_any_of "=") encoded in
  if is_empty encoded then encoded
  else match b64_dec encoded with Some s => s | None => "" end.

Definition base64_encode (unencoded : string) : string :=
  if is_empty unencoded then unencoded
  else
    let writePaddChars := ((3 - String.length unencoded mod 3) mod 3)%nat in
    b64_enc unencoded +:+ repeat_char writePaddChars "=".

Inductive B64Type := B64_ENCODE_CONDITIONAL | B64_ENCODE | B64_DECODE.

(** [b64SqliteValue] of one argument; the conditional case falls through. *)
Definition b64SqliteValue {V : SqliteValues} (argv : list SqlValue) (encode : B64Type) : SqlResult :=
  match argv with
  | [] => ResNone
  | v :: _ =>
      if is_null v then ResNull
      else
        let input := value_text v in
        ResText (match encode with
                 | B64_ENCODE_CONDITIONAL => if isPrintable input then input else base64_encode input
                 | B64_ENCODE => base64_encode input
                 | B64_DECODE => base64_decode input
                 end)
  end.
End Base64.

(** ** Splitting and addresses *)

Section Strings.
Context {B : Boost} {V : SqliteValues}.
(** [boost::algorithm::split_regex(input, regex(token))]; [None] when the
    expression does not compile, which throws. *)
Context (split_regex : string -> string -> option (list string)).
(** [inet_pton(AF_INET, s)]: the four bytes in network order. *)
Context (inet_pton : string -> option (Z * Z * Z * Z)).

Definition tokenSplit (input tokens : string) : option (list string) := Some (split input tokens).

(** [static_cast<size_t>] of a negative index is past every end. *)
Definition callStringSplitFunc (f : string -> string -> option (list string)) (input token index : SqlValue)
    : result SqlResult :=
  if is_null input || is_null token || is_null index then Ok ResNull
  else
    let token := c_str (value_text token) in
    if is_empty token then Ok (ResError "Invalid input to split function")
    else
      match f (c_str (value_text input)) token with
      | None => Throw (RuntimeError "regex")
      | Some result =>
          let i := u64 (value_int index) in
          if (Z.of_nat (length result) <=? i)%Z then Ok ResNull
          else Ok (match result !! Z.to_nat i with Some s => ResText s | None => ResNull end)
      end.

Definition tokenStringSplitFunc (input token index : SqlValue) : result SqlResult :=
  callStringSplitFunc tokenSplit input token index.
Definition regexStringSplitFunc (input token index : SqlValue) : result SqlResult :=
  callStringSplitFunc split_regex input token index.

(** [ntohl] of the address. *)
Definition ip4StringToDecimalFunc (v : SqlValue) : SqlResult :=
  if is_null v then ResNull
  else
    let address := c_str (value_text v) in
    if bool_decide (":"%char ∈ chars address) then ResNull
    else match inet_pton address with
         | Some (a, b, c, d) => ResInt (a * 2 ^ 24 + b * 2 ^ 16 + c * 2 ^ 8 + d)%Z
         | None => ResNull
         end.
End Strings.

(** ** Digests *)

Section Hashing.
Context {V : SqliteValues} (hashFromBuffer : string -> string -> string) (fuzzy_compare : string -> string -> Z).

(** [strlen(input)] bytes are hashed. *)
Definition hashSqliteValue (ht : string) (argv : list SqlValue) : SqlResult :=
  match argv with
  | [] => ResNone
  | v :: _ => if is_null v then ResNull else ResText (hashFromBuffer ht (c_str (value_text v)))
  end.

Definition sqliteSsdeepCompareFunc (a b : SqlValue) : SqlResult :=
  if negb (is_text a) || negb (is_text b)
  then ResError "Invalid inputs to ssdeep_compare, TEXT was expected"
  else ResInt (fuzzy_compare (c_str (value_text a)) (c_str (value_text b))).
End Hashing.

(** ** Programs in command lines *)

Section Commands.
Context {V : SqliteValues}.
(** [fs::exists(status) && !fs::is_directory(status)]. *)
Context (is_program : string -> bool).

(** The state of the loop: the path so far, the flags, the last program found. *)
Record CmdScan := mkScan { temp_string : string; is_quoted : bool; is_escaped : bool; found : string }.

Definition scan_init : CmdScan := mkScan "" false false "".

Definition append_char (c : ascii) (t : CmdScan) : CmdScan :=
  mkScan (temp_string t +:+ String c "") (is_quoted t) (is_escaped t) (found t).

Fixpoint scan_loop (escape_symbol : ascii) (allow_quoting shortest : bool) (l : list ascii) (t : CmdScan) : CmdScan :=
  match l with
  | [] => t
  | c :: l =>
      let go := scan_loop escape_symbol allow_quoting shortest l in
      if is_escaped t
      then go (mkScan (temp_string t +:+ String c "") (is_quoted t) false (found t))
      else if allow_quoting && bool_decide (c = "034"%char)
      then go (mkScan (temp_string t) (negb (is_quoted t)) (is_escaped t) (found t))
      else if bool_decide (c = escape_symbol)
      then go (mkScan (temp_string t) (is_quoted t) true (found t))
      else if negb (is_quoted t) && Ascii.is_space c && is_program (temp_string t)
      then
        let t := mkScan (temp_string t) (is_quoted t) (is_escaped t) (temp_string t) in
        if shortest then t else go (append_char c t)
      else go (append_char c t)
  end.

Definition findExistingProgramPathFromCommand (path : string) (escape_symbol : ascii)
    (allow_quoting shortest : bool) : string :=
  let t := scan_loop escape_symbol allow_quoting shortest (chars (skip_space path)) scan_init in
  if (is_empty (found t) || negb shortest) && is_program (temp_string t) then temp_string t else found t.

(** [None] stands for no result, [boost::none]. *)
Definition findExistingProgramPathFromCommandSqlArgs (argv : list SqlValue) (shortest : bool) : option string :=
  match argv with
  | [] => None
  | path :: rest =>
      if existsb is_null argv then None
      else
        let allow_quoting := match rest with v :: _ => negb (value_int v =? 0)%Z | [] => false end in
        match rest with
        | _ :: esc :: _ =>
            match chars (c_str (value_text esc)) with
            | [e] => Some (findExistingProgramPathFromCommand (c_str (value_text path)) e allow_quoting shortest)
            | _ => None
            end
        | _ => Some (findExistingProgramPathFromCommand (c_str (value_text path)) "\" allow_quoting shortest)
        end
  end.

Definition findFilePathInLaunchCommand (argv : list SqlValue) : SqlResult :=
  match findExistingProgramPathFromCommandSqlArgs argv true with
  | Some r => ResText r
  | None => ResError "Invalid inputs to find_binary_path_from_cmd"
  end.

Definition isPathDeterministic (argv : list SqlValue) : SqlResult :=
  match argv, findExistingProgramPathFromCommandSqlArgs argv true with
  | path :: _, Some shortest =>
      if is_empty shortest || (String.length shortest =? String.length (c_str (value_text path)))%nat
      then ResInt 1
      else match findExistingProgramPathFromCommandSqlArgs argv false with
           | Some longest => ResInt (if (String.length shortest =? String.length longest)%nat then 1 else 0)
           | None => ResError "Invalid inputs to is_path_deterministic"
           end
  | _, _ => ResError "Invalid inputs to is_path_deterministic"
  end.

(** The position of the last slash. *)
Fixpoint last_slash (l : list ascii) (pos : nat) (last : option nat) : option nat :=
  match l with
  | [] => last
  | c :: l => last_slash l (S pos) (if decide (c = "/"%char) then Some pos else last)
  end.

Definition getParentDirectory (v : SqlValue) : SqlResult :=
  if negb (is_text v) then ResError "Invalid inputs to parent_directory, TEXT was expected"
  else
    let path := c_str (value_text v) in
    match last_slash (chars path) 0 None with
    | None => ResNull
    | Some pos => ResText (String.substring 0 pos path)
    end.
End Commands.

(** ** The carve aggregate *)

Section Carve.
Context {V : SqliteValues} {S : Type} (carvePaths : gset string -> M S unit) (FLAGS_carver_disable_function : bool).

(** [kFunctionCarvePaths]. *)
Definition addCarveFile (argv : list SqlValue) : M (S * gset string) SqlResult :=
  match argv with
  | [] => ret ResNone
  | v :: _ =>
      if is_null v then ret ResNull
      else
        let path := c_str (value_text v) in
        modify (fun s => (s.1, {[path]} ∪ s.2)) ;;; ret (ResText path)
  end.

Definition executeCarve : M (S * gset string) SqlResult :=
  let* paths := gets snd in
  (if negb FLAGS_carver_disable_function
   then zoom fst (fun s p => (s, p.2)) (carvePaths paths) else ret tt) ;;;
  modify (fun s => (s.1, ∅)) ;;;
  ret (ResText "Carve Started").
End Carve.

(** * Functions added to SQL: what they compute *)

(** ** Base 64 *)

Lemma erase_pair_list_id a b l : a ∉ l -> erase_pair_list a b l = l.
Proof.
  induction l as [|x l IH]; [done|]. intros Ha. destruct l as [|y r]; [done|].
  cbn [erase_pair_list]. rewrite decide_False by set_solver. f_equal. apply IH. set_solver.
Qed.

Lemma erase_char_id c s : c ∉ chars s -> erase_char c s = s.
Proof.
  intros Hc. unfold erase_char. rewrite filter_all; [apply of_chars_chars|].
  apply Forall_forall. intros x Hx ->. done.
Qed.

Lemma chars_repeat n c : chars (repeat_char n c) = replicate n c.
Proof. induction n as [|n IH]; [done|]. cbn. by rewrite IH. Qed.

Lemma drop_while_replicate p n c l : p c = true -> drop_while p (replicate n c ++ l) = drop_while p l.
Proof. intros Hc. induction n as [|n IH]; [done|]. cbn. by rewrite Hc. Qed.

Lemma trim_right_repeat c n s :
  c ∉ chars s -> trim_right_if (is_any_of (String c "")) (s +:+ repeat_char n c) = s.
Proof.
  intros Hc. unfold trim_right_if. rewrite chars_app, chars_repeat, rev_app_distr.
  assert (rev (replicate n c) = replicate n c) as ->.
  { induction n as [|n IH]; [done|]. cbn. rewrite IH. clear IH.
    induction n as [|n IH]; [done|]. cbn. by rewrite IH. }
  rewrite drop_while_replicate by (apply bool_decide_true; cbn; set_solver).
  assert (forall l, c ∉ l -> drop_while (is_any_of (String c "")) l = l) as Hid.
  { intros [|d l] Hd; [done|]. cbn. unfold is_any_of. rewrite bool_decide_false; [done|]. cbn. set_solver. }
  rewrite Hid; [by rewrite rev_involutive, of_chars_chars|].
  intros Hin. apply Hc. by apply list_elem_of_In, in_rev, list_elem_of_In.
Qed.

Lemma all_chars_not_in (p : ascii -> bool) s c : all_chars p s = true -> p c = false -> c ∉ chars s.
Proof.
  intros H Hc Hin. unfold all_chars in H. rewrite forallb_forall in H.
  apply list_elem_of_In in Hin. specialize (H c Hin). congruence.
Qed.

Section Base64.
Context {E : BoostBase64} {EL : BoostBase64Laws E} {V : SqliteValues} {VL : SqliteValuesLaws V}.

Lemma elem_of_repeat c n d : c ∈ chars (repeat_char n d) -> c = d.
Proof. rewrite chars_repeat. by intros [-> _]%elem_of_replicate. Qed.

Lemma base64_decode_encode s : base64_decode (base64_encode s) = s.
Proof.
  destruct s as [|c0 s0]; [done|]. set (s := String c0 s0). unfold base64_encode.
  change (is_empty s) with false. cbn iota zeta. set (n := ((3 - String.length s mod 3) mod 3)%nat).
  pose proof (b64_enc_chars s) as Hc.
  assert (forall c, c ∈ ["013"; "010"; "="]%char -> c ∉ chars (b64_enc s)) as Hn.
  { intros c Hin. eapply all_chars_not_in; [exact Hc|]. cbv beta. by rewrite bool_decide_true. }
  assert (forall c, c ∈ ["013"; "010"]%char -> c ∉ chars (b64_enc s +:+ repeat_char n "=")) as Hn2.
  { intros c Hin. rewrite chars_app, elem_of_app. intros [H| ->%elem_of_repeat]; [|set_solver].
    eapply Hn; [|exact H]. set_solver. }
  unfold base64_decode, erase_pair. rewrite erase_pair_list_id by (apply Hn2; set_solver).
  rewrite of_chars_chars, erase_char_id by (apply Hn2; set_solver).
  rewrite trim_right_repeat by (apply Hn; set_solver).
  destruct (b64_enc s) as [|e r] eqn:Ee; [by apply b64_enc_nonempty in Ee|].
  cbn [is_empty]. rewrite <- Ee. by rewrite b64_dec_enc.
Qed.

(** Decoding an encoded text gives it back, whatever bytes it holds, and the
    conditional encoding leaves a printable text as it is. *)
Theorem base64_roundtrip (s : string) :
  match b64SqliteValue [SText s] B64_ENCODE with
  | ResText e => b64SqliteValue [SText e] B64_DECODE = ResText s
  | _ => False
  end /\
  (isPrintable s = true -> b64SqliteValue [SText s] B64_ENCODE_CONDITIONAL = ResText s).
Proof.
  cbn. rewrite !value_text_text, base64_decode_encode. split; [done|]. by intros ->.
Qed.
End Base64.

(** ** Splitting *)

Section Split.
Context {B : Boost} {BL : BoostLaws B} {V : SqliteValues} {VL : SqliteValuesLaws V}.

(** Selecting a field of joined fields gives that field, and an index outside
    them, negative ones too, gives null. *)
Theorem split_selects_the_field (fields : list string) (d : ascii) (i : Z) :
  (Z.of_nat (length fields) < 2 ^ 63)%Z -> (- 2 ^ 31 <= i < 2 ^ 31)%Z -> d <> Ascii.zero ->
  Forall (fun s => token d s /\ c_str s = s) fields ->
  tokenStringSplitFunc (SText (boost_join fields (String d ""))) (SText (String d "")) (SInteger i) =
  Ok (match (if (i <? 0)%Z then None else fields !! Z.to_nat i) with
      | Some s => ResText s
      | None => ResNull
      end).
Proof.
  intros Hne Hi Hd Hf. unfold tokenStringSplitFunc, callStringSplitFunc. cbn [is_null orb].
  rewrite !value_text_text, value_int_integer by done.
  assert (c_str (String d "") = String d "") as -> by (cbn; by rewrite decide_False).
  cbn [is_empty].
  assert (c_str (boost_join fields (String d "")) = boost_join fields (String d "")) as Ec.
  { clear Hne. induction Hf as [|s l [H1 H2] Hl IH]; [by rewrite join_nil|].
    destruct l as [|s2 l]; [by rewrite join_one|]. rewrite join_cons.
    assert (forall a b, c_str a = a -> c_str b = b -> c_str (a +:+ b) = a +:+ b) as Happ.
    { clear. intros a b Ha Hb. induction a as [|c a IH]; [done|]. rewrite app_cons_str. cbn in *.
      case_decide; [done|]. f_equal. injection Ha as Ha. by apply IH. }
    apply Happ; [done|]. apply Happ; [cbn; by rewrite decide_False | apply IH]. }
  rewrite Ec. unfold tokenSplit.
  rewrite split_join_tokens by (eapply Forall_impl; [exact Hf|]; by intros s []).
  destruct (Z.ltb_spec i 0) as [Hneg|Hpos].
  - assert (u64 i = i + 2 ^ 64)%Z as ->.
    { unfold u64. rewrite <- (Z.mod_add i 1) by lia. rewrite Z.mod_small; lia. }
    destruct (Z.leb_spec (Z.of_nat (length fields)) (i + 2 ^ 64)); [done|lia].
  - rewrite u64_small by (unfold in_u64; lia).
    destruct (Z.leb_spec (Z.of_nat (length fields)) i); [|done].
    by rewrite lookup_ge_None_2 by lia.
Qed.
End Split.

(** ** Programs in command lines *)

Section Commands.
Context {V : SqliteValues} {VL : SqliteValuesLaws V} (is_program : string -> bool).

Lemma scan_found esc quoting shortest l t :
  (found t = "" \/ is_program (found t) = true) ->
  let t' := scan_loop is_program esc quoting shortest l t in
  found t' = "" \/ is_program (found t') = true.
Proof.
  revert t. induction l as [|c l IH]; intros t Ht; [done|]. cbn -[scan_loop]. cbn [scan_loop].
  destruct (is_escaped t); [by apply IH|].
  destruct (_ && bool_decide (c = "034"%char)); [by apply IH|].
  case_bool_decide; [by apply IH|].
  destruct (negb (is_quoted t) && Ascii.is_space c && is_program (temp_string t)) eqn:E; [|by apply IH].
  apply andb_true_iff in E as [_ E]. destruct shortest; [by right|]. apply IH. by right.
Qed.

(** Whatever the command line, the path that is returned is empty or that of a
    program that exists. *)
Theorem found_path_is_a_program (path : string) (esc : ascii) (quoting shortest : bool) :
  let r := findExistingProgramPathFromCommand is_program path esc quoting shortest in
  r = "" \/ is_program r = true.
Proof.
  cbv zeta. unfold findExistingProgramPathFromCommand.
  set (t := scan_loop _ _ _ _ _ _). destruct (_ && is_program (temp_string t)) eqn:E.
  - right. by apply andb_true_iff in E as [_ E].
  - apply scan_found. by left.
Qed.

(** The characters of a command that are neither quotes nor escapes. *)
Definition plain (esc : ascii) (c : ascii) : bool :=
  negb (bool_decide (c = "034"%char)) && negb (bool_decide (c = esc)).

(** Scanning plain characters none of whose prefixes before a space is a program. *)
Lemma scan_plain_field esc quoting shortest l rest t :
  forallb (plain esc) l = true -> is_quoted t = false -> is_escaped t = false ->
  (forall l1 c l2, l = l1 ++ c :: l2 -> Ascii.is_space c = true -> is_program (temp_string t +:+ of_chars l1) = false) ->
  scan_loop is_program esc quoting shortest (l ++ rest) t =
  scan_loop is_program esc quoting shortest rest (mkScan (temp_string t +:+ of_chars l) false false (found t)).
Proof.
  revert t. induction l as [|c l IH]; intros t Hp Hq He Hn.
  { cbn. rewrite app_nil_r_str. destruct t. cbn in *. by subst. }
  cbn in Hp. apply andb_true_iff in Hp as [Hc Hp]. unfold plain in Hc. apply andb_true_iff in Hc as [Hc1 Hc2].
  apply negb_true_iff in Hc1, Hc2. cbn [app scan_loop]. rewrite He, Hc1, andb_false_r, Hc2, Hq. cbn [negb andb].
  assert (Ascii.is_space c && is_program (temp_string t) = false) as ->.
  { destruct (Ascii.is_space c) eqn:Es; [|done]. cbn.
    specialize (Hn [] c l eq_refl Es). cbn in Hn. by rewrite app_nil_r_str in Hn. }
  rewrite IH; cbn [temp_string is_quoted is_escaped found append_char]; [|done..|].
  - by rewrite app_assoc_str.
  - intros l1 d l2 -> Hd. rewrite app_assoc_str. by apply (Hn (c :: l1) d l2).
Qed.

(** Of a plain command line the first program that is followed by a space is
    taken: no shorter prefix is one. *)
Theorem first_program_is_taken (p rest : string) (c esc : ascii) (quoting : bool) :
  (forall d r, p = String d r -> Ascii.is_space d = false) -> p <> "" ->
  all_chars (plain esc) p = true -> plain esc c = true -> Ascii.is_space c = true -> is_program p = true ->
  (forall l1 d l2, chars p = l1 ++ d :: l2 -> Ascii.is_space d = true -> is_program (of_chars l1) = false) ->
  findExistingProgramPathFromCommand is_program (p +:+ String c rest) esc quoting true = p.
Proof.
  intros Hs Hne Hp Hc Hsp Hprog Hn. unfold findExistingProgramPathFromCommand.
  assert (skip_space (p +:+ String c rest) = p +:+ String c rest) as ->.
  { destruct p as [|d r]; [done|]. rewrite app_cons_str. cbn. by rewrite (Hs d r). }
  rewrite chars_app, chars_cons, scan_plain_field by (done || by intros l1 d l2 E Hd; apply (Hn l1 d l2)).
  cbn [temp_string scan_init found]. change ("" +:+ of_chars (chars p)) with (of_chars (chars p)).
  rewrite of_chars_chars. cbn [scan_loop is_escaped is_quoted temp_string].
  unfold plain in Hc. apply andb_true_iff in Hc as [Hc1 Hc2]. apply negb_true_iff in Hc1, Hc2.
  rewrite Hc1, andb_false_r, Hc2, Hsp, Hprog. cbn. by destruct p.
Qed.

Lemma last_slash_none l pos last : "/"%char ∉ l -> last_slash l pos last = last.
Proof.
  revert pos. induction l as [|c l IH]; intros pos H; [done|]. cbn. rewrite decide_False by set_solver.
  apply IH. set_solver.
Qed.

Lemma last_slash_app l1 l2 pos last :
  "/"%char ∉ l2 -> last_slash (l1 ++ "/"%char :: l2) pos last = Some (pos + length l1).
Proof.
  revert pos last. induction l1 as [|c l1 IH]; intros pos last H; cbn.
  - rewrite decide_True, last_slash_none by done. by rewrite Nat.add_0_r.
  - rewrite IH by done. f_equal. lia.
Qed.

Lemma substring_prefix a b : String.substring 0 (String.length a) (a +:+ b) = a.
Proof. induction a as [|c a IH]; [by destruct b|]. rewrite app_cons_str. cbn. by rewrite IH. Qed.

(** The parent of a file in a directory is the directory; that of a file in the
    root is the empty text. *)
Theorem parent_is_the_directory (dir name : string) :
  c_str (dir +:+ "/" +:+ name) = dir +:+ "/" +:+ name -> "/"%char ∉ chars name ->
  getParentDirectory (SText (dir +:+ "/" +:+ name)) = ResText dir.
Proof.
  intros Hc Hn. unfold getParentDirectory. cbn [is_text negb]. rewrite value_text_text, Hc.
  rewrite !chars_app. change (chars "/" ++ chars name) with ("/"%char :: chars name).
  rewrite last_slash_app by done. cbn [Nat.add]. rewrite length_chars. f_equal.
  apply (substring_prefix dir ("/" +:+ name)).
Qed.
End Commands.

(** ** The carve aggregate *)

Section Carve.
Context {V : SqliteValues} {VL : SqliteValuesLaws V} {S : Type} (carvePaths : gset string -> M S unit).

(** The carve function starts one carve of every path its rows named, and
    nothing is left for the next query. *)
Theorem carve_takes_every_path (rows : list string) (s s' : S) :
  Forall (fun p => c_str p = p) rows -> carvePaths (list_to_set rows) s = (Ok tt, s') ->
  (for_each rows (fun p => addCarveFile [SText p] ;;; ret tt) ;;; executeCarve carvePaths false) (s, ∅)
  = (Ok (ResText "Carve Started"), (s', ∅)).
Proof.
  intros Hr Hc.
  assert (forall acc : gset string,
            for_each rows (fun p => addCarveFile [SText p] ;;; ret tt) (s, acc)
            = (Ok tt, (s, list_to_set rows ∪ acc))) as E.
  { clear Hc. induction Hr as [|p rows Hp Hr IH]; intros acc.
    { cbn. unfold ret. by rewrite (left_id_L ∅ (∪)). }
    assert ((addCarveFile [SText p] ;;; ret tt) (s, acc) = (Ok tt, (s, {[p]} ∪ acc))) as Ea.
    { unfold addCarveFile, bind, modify, ret. cbn. by rewrite value_text_text, Hp. }
    cbn [for_each]. rewrite (bind_run _ _ _ _ _ Ea), IH.
    assert (list_to_set rows ∪ ({[p]} ∪ acc) = list_to_set (p :: rows) ∪ acc) as -> by set_solver. done. }
  rewrite (bind_run _ _ _ _ _ (E ∅)). unfold executeCarve, bind, gets, zoom, modify, ret. cbn [fst snd negb].
  rewrite (right_id_L ∅ (∪)), Hc. done.
Qed.
End Carve.
