(* ===== verification/Sql.v ===== *)
(** * SQL in the core (osquery/sql/sql.cpp, osquery/sql/sqlite_util.cpp)

    The functions that run SQL through the registry, the SQL plugin's router, the
    type inference of the query planner, and the manager of SQLite connections with
    its primary and transient instances. SQLite itself is a parameter: what a query
    returns, its column names and its program of opcodes. *)
From S2P Require Import Prelude Boost Conversions Json Database Query Tables TablesFacts.

(** ** The SQL plugin *)

Record SQLPlugin (S : Type) := mkSQLPlugin {
  sp_query : string -> bool -> M S (Status * QueryData);
  sp_columns : string -> M S (Status * list TableColumn);
  sp_tables : string -> M S (Status * list string);
  sp_attach : string -> M S Status;
  sp_detach : string -> M S unit;
}.
Arguments mkSQLPlugin {S}.
Arguments sp_query {S}.
Arguments sp_columns {S}.
Arguments sp_tables {S}.
Arguments sp_attach {S}.
Arguments sp_detach {S}.

(** One column of the answer. *)
Definition column_response (c : TableColumn) : gmap string string :=
  list_to_map [("n", col_name c); ("t", columnTypeName (col_type c)); ("o", to_string (col_options c))].

(** [SQLPlugin::call]; the response is cleared first. *)
Definition SQLPlugin_call {S} (p : SQLPlugin S) (request : PluginRequest) : M S (Status * PluginResponse) :=
  match request !! "action" with
  | None => ret (mkStatus 1 "SQL plugin must include a request action", [])
  | Some action =>
      if bool_decide (action = "query") then
        let use_cache := bool_decide (request !! "cache" = Some "1") in
        let* q := of_result (request_at request "query") in
        sp_query p q use_cache
      else if bool_decide (action = "columns") then
        let* q := of_result (request_at request "query") in
        let* (status, columns) := sp_columns p q in
        ret (status, column_response <$> columns)
      else if bool_decide (action = "attach") then
        let* t := of_result (request_at request "table") in
        let* status := sp_attach p t in
        ret (status, [])
      else if bool_decide (action = "detach") then
        let* t := of_result (request_at request "table") in
        sp_detach p t ;;;
        ret (mkStatus 0 "OK", [])
      else if bool_decide (action = "tables") then
        let* q := of_result (request_at request "query") in
        let* (status, tables) := sp_tables p q in
        ret (status, if Status_ok status then (fun t => {["t" := t]}) <$> tables else [])
      else ret (mkStatus 1 "Unknown action", [])
  end.

(** ** Running SQL *)

Section Client.
Context {S : Type} {B : Boost} {R : RapidJSON} {U : UnorderedSet}.
(** [Registry::call("sql", "sql", request)] and [Registry::call("table", name, request)]. *)
Context (sql_call : PluginRequest -> M S (Status * PluginResponse))
        (table_call : string -> PluginRequest -> M S (Status * PluginResponse)).

Definition query (q : string) (use_cache : bool) : M S (Status * QueryData) :=
  sql_call (list_to_map [("action", "query"); ("cache", if use_cache then "1" else "0"); ("query", q)]).

(** The columns of the answer; [at] throws when a field is missing. *)
Fixpoint response_to_columns (l : PluginResponse) : result (list TableColumn) :=
  match l with
  | [] => Ok []
  | item :: l =>
      res_bind (request_at item "n") (fun n =>
      res_bind (request_at item "t") (fun t =>
      res_bind (response_to_columns l) (fun cs => Ok (mkColumn n (columnTypeOf t) OPT_DEFAULT :: cs))))
  end.

Definition getQueryColumns (q : string) : M S (Status * list TableColumn) :=
  let* (status, response) := sql_call (list_to_map [("action", "columns"); ("query", q)]) in
  let* columns := of_result (response_to_columns response) in
  ret (status, columns).

Fixpoint response_to_tables (l : PluginResponse) : result (list string) :=
  match l with
  | [] => Ok []
  | item :: l => res_bind (request_at item "t") (fun t =>
                 res_bind (response_to_tables l) (fun ts => Ok (t :: ts)))
  end.

(** What tests get when there is no SQL plugin. *)
Definition mockGetQueryTables (q : string) : Status * list string :=
  let q := lower q in
  match find_str "from " q with
  | None => (Status1 1, [])
  | Some i => (Status1 0, split (String.substring (i + 5) (String.length q) q) ",")
  end.

Definition getQueryTables (sql_exists is_test : bool) (q : string) : M S (Status * list string) :=
  if negb sql_exists && is_test then ret (mockGetQueryTables q)
  else
    let* (status, response) := sql_call (list_to_map [("action", "tables"); ("query", q)]) in
    let* tables := of_result (response_to_tables response) in
    ret (status, tables).

(** The constructor of [SQL]: status, column names, rows. *)
Definition SQL_new (q : string) (use_cache : bool) : M S (Status * list string * QueryData) :=
  let* (status, columns) := getQueryColumns q in
  if Status_ok status then
    let* (status, rows) := query q use_cache in
    ret (status, col_name <$> columns, rows)
  else ret (status, [], []).

Definition selectAllFrom (table : string) : M S QueryData :=
  let* (_, response) := table_call table {["action" := "generate"]} in ret response.

(** [remove_if] of the rows the constraint does not match; a row without the column
    throws. *)
Fixpoint keep_matching (l : ConstraintList) (column : string) (rows : QueryData) : result QueryData :=
  match rows with
  | [] => Ok []
  | row :: rows =>
      res_bind (request_at row column) (fun v =>
      res_bind (keep_matching l column rows) (fun rest =>
      Ok (if matches v l then row :: rest else rest)))
  end.

Definition select_context (columns : list string) (column : string) (o : Z) (e : string) : QueryContext :=
  mkContext {[column := ConstraintList_add (mkConstraint o e) ConstraintList_new]}
    (match columns with [] => None | _ => Some ({[column]} ∪ list_to_set columns) end) false ∅.

Definition selectFrom (columns : list string) (table column : string) (o : Z) (e : string) : M S QueryData :=
  let ctx := select_context columns column o e in
  let request := setRequestFromContext ctx {["action" := "generate"]} in
  let* (_, response) := table_call table request in
  of_result (keep_matching (default ConstraintList_new (constraints ctx !! column)) column response).
End Client.

(** ** The query planner *)

Inductive Register := P1 | P2 | P3.
Definition regString (r : Register) : string := match r with P1 => "p1" | P2 => "p2" | P3 => "p3" end.

Record Opcode := mkOpcode { op_reg : Register; op_type : ColumnType }.

Definition Arithmetic (x : string) : string * Opcode := (x, mkOpcode P3 BIGINT_TYPE).
Definition OpComparator (x : string) : string * Opcode := (x, mkOpcode P2 INTEGER_TYPE).

Definition kSQLOpcodes : list (string * Opcode) :=
  [("Concat", mkOpcode P3 TEXT_TYPE); ("AggStep", mkOpcode P3 BIGINT_TYPE); ("AggStep0", mkOpcode P3 BIGINT_TYPE);
   ("Integer", mkOpcode P2 INTEGER_TYPE); ("Int64", mkOpcode P2 BIGINT_TYPE); ("String", mkOpcode P2 TEXT_TYPE);
   ("String8", mkOpcode P2 TEXT_TYPE); ("Or", mkOpcode P3 INTEGER_TYPE); ("And", mkOpcode P3 INTEGER_TYPE)] ++
  (Arithmetic <$> ["BitAnd"; "BitOr"; "ShiftLeft"; "ShiftRight"; "Add"; "Subtract"; "Multiply"; "Divide"; "Remainder"]) ++
  (OpComparator <$> ["Not"; "IsNull"; "NotNull"; "Ne"; "Eq"; "Gt"; "Le"; "Lt"; "Ge"; "IfNeg"; "IfNotZero"]).

Definition find_opcode (name : string) : option Opcode := (list_to_map kSQLOpcodes : gmap string Opcode) !! name.

Section Planner.
Context {B : Boost}.

(** [boost::lexical_cast<size_t>(row.at(key))]. *)
Definition size_at (row : Row) (key : string) : result Z :=
  res_bind (request_at row key) (fun s =>
  match lexical_cast_size s with Some z => Ok z | None => Throw BadLexicalCast end).

(** The types of registers known so far. *)
Abbreviation regs := (gmap Z ColumnType).

Definition set_type (t : ColumnType) (c : TableColumn) : TableColumn := mkColumn (col_name c) t (col_options c).

(** Where a result row starts at register [k]: the type of register [k + i] goes to
    column [i]. *)
Definition apply_row (k : Z) (types : regs) (columns : list TableColumn) : list TableColumn :=
  imap (fun i c => match types !! u64 (k + Z.of_nat i) with Some t => set_type t c | None => c end) columns.

(** Types move along a copy. *)
Fixpoint copy_types (n : nat) (from to i : Z) (types : regs) : regs :=
  match n with
  | O => types
  | S n =>
      let types :=
        match types !! u64 (from + i) with
        | Some t => delete (u64 (from + i)) (<[u64 (to + i) := t]> types)
        | None => types
        end in
      copy_types n from to (i + 1) types
  end.

Definition cast_type (to : Z) : ColumnType :=
  if (to =? 65)%Z then BLOB_TYPE
  else if (to =? 66)%Z then TEXT_TYPE
  else if (to =? 67)%Z then UNKNOWN_TYPE
  else if (to =? 68)%Z then BIGINT_TYPE
  else if (to =? 69)%Z then DOUBLE_TYPE
  else UNKNOWN_TYPE.

(** One row of the program: the types of registers and the columns. *)
Definition planner_step (st : regs * list TableColumn) (row : Row) : result (regs * list TableColumn) :=
  let '(types, columns) := st in
  res_bind (request_at row "opcode") (fun opcode =>
  res_bind (if bool_decide (opcode = "ResultRow")
            then res_bind (size_at row "p1") (fun k => Ok (apply_row k types columns))
            else Ok columns) (fun columns =>
  res_bind (if bool_decide (opcode = "Copy") then
              res_bind (size_at row "p1") (fun from =>
              res_bind (size_at row "p2") (fun to =>
              res_bind (size_at row "p3") (fun size =>
              Ok (copy_types (Z.to_nat size + 1) from to 0 types))))
            else if bool_decide (opcode = "Cast") then
              res_bind (size_at row "p1") (fun value =>
              res_bind (size_at row "p2") (fun to =>
              Ok (<[value := cast_type to]> types)))
            else Ok types) (fun types =>
  match find_opcode opcode with
  | Some o => res_bind (size_at row (regString (op_reg o))) (fun k =>
              Ok (<[k := op_type o]> types, columns))
  | None => Ok (types, columns)
  end))).

Fixpoint planner_loop (program : QueryData) (st : regs * list TableColumn) : result (regs * list TableColumn) :=
  match program with
  | [] => Ok st
  | row :: program => res_bind (planner_step st row) (planner_loop program)
  end.

(** [QueryPlanner::applyTypes]. *)
Definition applyTypes (program : QueryData) (columns : list TableColumn) : result (Status * list TableColumn) :=
  res_bind (planner_loop program (∅, columns)) (fun st => Ok (Status1 0, st.2)).

(** The tables of a query plan: the third word of a scan. *)
Definition scanned_table (row : Row) : result (option string) :=
  res_bind (request_at row "detail") (fun detail =>
  let details := split detail (String "009" " ") in
  Ok (match details with
      | first :: _ :: t :: _ => if bool_decide (first = "SCAN") then Some t else None
      | _ => None
      end)).

Fixpoint plan_tables (plan : QueryData) : result (list string) :=
  match plan with
  | [] => Ok []
  | row :: plan =>
      res_bind (scanned_table row) (fun t =>
      res_bind (plan_tables plan) (fun ts =>
      Ok (match t with Some t => t :: ts | None => ts end)))
  end.
End Planner.

(** *** Rows *)

(** [queryDataCallback]: a null pointer for a name skips the column, one for a value
    is the null value; of columns with one name the last counts. *)
Definition queryDataCallback (FLAGS_nullvalue : string) (cells : list (option string * option string)) : Row :=
  foldl (fun r cell => match cell.1 with
                       | Some name => <[name := default FLAGS_nullvalue cell.2]> r
                       | None => r
                       end) ∅ cells.

(** [getQueryColumnsInternal]: names and declared types as SQLite gives them;
    [None] for a name ends the loop with an error. *)
Fixpoint collect_columns (l : list (option string * option string)) (acc : list TableColumn) (unknown : bool)
    : Status * list TableColumn * bool :=
  match l with
  | [] => (Status_success, acc, unknown)
  | (None, _) :: _ => (mkStatus 1 "Could not get column type", acc, unknown)
  | (Some name, decl) :: l =>
      let unknown := unknown || match decl with None => true | Some _ => false end in
      collect_columns l (acc ++ [mkColumn name (columnTypeOf (default "UNKNOWN" decl)) OPT_DEFAULT]) unknown
  end.

Definition getQueryColumnsInternal {B : Boost} (prepared : string + list (option string * option string))
    (program : QueryData) : result (Status * option (list TableColumn)) :=
  match prepared with
  | inl errmsg => Ok (mkStatus 1 errmsg, None)
  | inr cols =>
      let '(status, results, unknown) := collect_columns cols [] false in
      res_bind (if unknown then res_bind (applyTypes program results) (fun r => Ok r.2) else Ok results) (fun results =>
      Ok (status, if Status_ok status then Some results else None))
  end.

(** ** Connections *)

Definition EVENT_BASED : Z := 4.

(** [SQLiteDBInstance]. Tables of a database belong to the instance that attached
    them: the managed connection for the primary database, itself for a transient. *)
Record Instance := mkInstance {
  primary_ : bool;
  managed_ : bool;
  inst_use_cache : bool;
  (** Names and attributes of the tables scanned. *)
  affected_tables_ : gmap string Z;
}.

(** [SQLiteDBManager]: the objects by number, the managed connection (there is one
    when the primary database is open), and who holds [mutex_]. *)
Record Manager := mkManager {
  instances : gmap nat Instance;
  connection_ : option nat;
  lock_owner : option nat;
  next_instance : nat;
}.

Definition fresh_manager : Manager := mkManager ∅ None None 0.

Definition upd_instance (i : nat) (f : Instance -> Instance) : M Manager unit :=
  modify (fun m => mkManager (alter f i (instances m)) (connection_ m) (lock_owner m) (next_instance m)).

Definition new_instance (x : Instance) : M Manager nat :=
  let* i := gets next_instance in
  modify (fun m => mkManager (<[i := x]> (instances m)) (connection_ m) (lock_owner m) (S i)) ;;;
  ret i.

(** [getConnection(primary)]: the primary database is opened when needed; an instance
    gets the lock or a database of its own. *)
Definition getConnection (primary : bool) : M Manager nat :=
  let* known := gets connection_ in
  let* c := (match known with
             | Some c => ret c
             | None =>
                 let* c := new_instance (mkInstance true true false ∅) in
                 modify (fun m => mkManager (instances m) (Some c) (lock_owner m) (next_instance m)) ;;;
                 ret c
             end) in
  if primary then ret c
  else
    let* owner := gets lock_owner in
    match owner with
    | None =>
        let* i := new_instance (mkInstance true false false ∅) in
        modify (fun m => mkManager (instances m) (connection_ m) (Some i) (next_instance m)) ;;;
        ret i
    | Some _ => new_instance (mkInstance false false false ∅)
    end.

(** The destructor of an instance that is not managed. *)
Definition release_instance (i : nat) : M Manager unit :=
  modify (fun m => mkManager (delete i (instances m)) (connection_ m)
                     (if bool_decide (lock_owner m = Some i) then None else lock_owner m) (next_instance m)).

Definition inst (i : nat) : M Manager Instance :=
  gets (fun m => default (mkInstance false false false ∅) (instances m !! i)).

(** Whose tables a query on [i] scans: [pVtab->instance]. *)
Definition table_instance (i : nat) : M Manager nat :=
  let* x := inst i in
  if primary_ x then let* c := gets connection_ in ret (default i c) else ret i.

Definition set_useCache (i : nat) (use_cache : bool) : M Manager unit :=
  upd_instance i (fun x => mkInstance (primary_ x) (managed_ x) use_cache (affected_tables_ x)).

(** [addAffectedTable]: [insert] keeps an entry that is there. *)
Definition addAffectedTable (i : nat) (name : string) (attributes : Z) : M Manager unit :=
  upd_instance i (fun x =>
    mkInstance (primary_ x) (managed_ x) (inst_use_cache x)
      (match affected_tables_ x !! name with
       | Some _ => affected_tables_ x
       | None => <[name := attributes]> (affected_tables_ x)
       end)).

(** What one scan of a table does to the instance, and whether it may use the cache. *)
Definition scan_table (i : nat) (name : string) (attributes : Z) : M Manager bool :=
  let* t := table_instance i in
  addAffectedTable t name attributes ;;;
  let* x := inst t in
  ret (inst_use_cache x).

Fixpoint scan_tables (i : nat) (tables : list (string * Z)) : M Manager (list bool) :=
  match tables with
  | [] => ret []
  | t :: tables => let* b := scan_table i t.1 t.2 in let* bs := scan_tables i tables in ret (b :: bs)
  end.

(** The instance that requests about tables are forwarded to. *)
Definition forwarded (i : nat) : M Manager nat :=
  let* x := inst i in
  if primary_ x && negb (managed_ x) then getConnection true else ret i.

Definition getAttributes (i : nat) : M Manager Z :=
  let* r := forwarded i in
  let* x := inst r in
  ret (foldr (fun t a => Z.lor t.2 a) 0%Z (map_sorted (affected_tables_ x))).

Definition clearAffectedTables (i : nat) : M Manager unit :=
  let* r := forwarded i in
  upd_instance r (fun x => mkInstance (primary_ x) (managed_ x) false ∅).

(** [SQLInternal(query, use_cache)], where the query scans [tables]: whether it is
    event based, and whether each scan was allowed to use the cache. *)
Definition SQLInternal_new (tables : list (string * Z)) (use_cache : bool) : M Manager (bool * list bool) :=
  let* dbc := getConnection false in
  set_useCache dbc use_cache ;;;
  let* seen := scan_tables dbc tables in
  let* attributes := getAttributes dbc in
  clearAffectedTables dbc ;;;
  release_instance dbc ;;;
  ret (negb (Z.land attributes EVENT_BASED =? 0)%Z, seen).

(** * SQL in the core: what queries return and what they leave behind *)

(** ** Columns through the registry *)

Lemma response_to_columns_spec l :
  response_to_columns (column_response <$> l) = Ok ((fun c => mkColumn (col_name c) (col_type c) OPT_DEFAULT) <$> l).
Proof.
  induction l as [|c l IH]; [done|]. cbn [fmap list_fmap response_to_columns].
  unfold column_response at 1 2. unfold request_at. cbn [list_to_map foldr fst snd].
  rewrite lookup_insert_eq. cbn [res_bind]. rewrite lookup_insert_ne, lookup_insert_eq by done. cbn [res_bind].
  change (list_fmap _ _ column_response l) with (column_response <$> l). rewrite IH. cbn [res_bind].
  by destruct c as [n [] o].
Qed.

(** The names and types of the columns of a query survive the trip through the
    SQL plugin; their options do not. *)
Theorem query_columns_roundtrip {S} (p : SQLPlugin S) (q : string) (s s' : S) (st : Status) (cols : list TableColumn) :
  sp_columns p q s = (Ok (st, cols), s') ->
  getQueryColumns (SQLPlugin_call p) q s =
  (Ok (st, (fun c => mkColumn (col_name c) (col_type c) OPT_DEFAULT) <$> cols), s').
Proof.
  intros E. unfold getQueryColumns, SQLPlugin_call. cbn [list_to_map foldr fst snd].
  rewrite lookup_insert_eq. rewrite bool_decide_false by done. rewrite bool_decide_true by done.
  unfold request_at. rewrite lookup_insert_ne, lookup_insert_eq by done.
  unfold bind, of_result. rewrite E. cbn. by rewrite response_to_columns_spec.
Qed.

(** ** Selecting rows of one table *)

Definition row_matches (l : ConstraintList) (column : string) (row : Row) : Prop :=
  matches (default "" (row !! column)) l = true.
#[export] Instance row_matches_dec l column row : Decision (row_matches l column row) :=
  decide (matches _ l = true).

Lemma keep_matching_spec l column rows :
  Forall (fun row => is_Some (row !! column)) rows ->
  keep_matching l column rows = Ok (filter (row_matches l column) rows).
Proof.
  induction 1 as [|row rows [v Hv] Hrows IH]; [done|]. cbn [keep_matching]. unfold request_at.
  rewrite Hv. cbn [res_bind]. rewrite IH. cbn [res_bind]. do 2 f_equal.
  destruct (matches v l) eqn:Em.
  - by rewrite filter_cons_True by (unfold row_matches; by rewrite Hv).
  - by rewrite filter_cons_False by (unfold row_matches; rewrite Hv; cbn; congruence).
Qed.

(** Selecting rows by one constraint asks the table with that constraint and
    returns exactly the rows it generated that satisfy it, in their order; a row
    without the column ends the selection with an exception. *)
Theorem selectFrom_filters {S} {R : RapidJSON} {U : UnorderedSet}
    (table_call : string -> PluginRequest -> M S (Status * PluginResponse))
    (columns : list string) (table column : string) (o : Z) (e : string) (s s' : S) (st : Status) (rows : QueryData) :
  table_call table (setRequestFromContext (select_context columns column o e) {["action" := "generate"]}) s
    = (Ok (st, rows), s') ->
  Forall (fun row => is_Some (row !! column)) rows ->
  selectFrom table_call columns table column o e s =
  (Ok (filter (row_matches (ConstraintList_add (mkConstraint o e) ConstraintList_new) column) rows), s').
Proof.
  intros E Hr. unfold selectFrom. rewrite (bind_run _ _ _ _ _ E). cbn [constraints select_context].
  rewrite lookup_singleton_eq. cbn [default]. by rewrite keep_matching_spec.
Qed.

(** ** Type inference *)

Definition shape (l : list TableColumn) : list (string * Z) := (fun c => (col_name c, col_options c)) <$> l.

Lemma apply_row_shape k types l : shape (apply_row k types l) = shape l.
Proof.
  apply list_eq. intros i. unfold shape, apply_row. rewrite !list_lookup_fmap, list_lookup_imap.
  destruct (l !! i) as [c|]; [|done]. cbn. by destruct (types !! _).
Qed.

Lemma apply_row_lookup k types l i c :
  l !! i = Some c ->
  apply_row k types l !! i = Some (match types !! u64 (k + Z.of_nat i) with Some t => set_type t c | None => c end).
Proof. intros H. unfold apply_row. by rewrite list_lookup_imap, H. Qed.

Lemma res_bind_Ok {A C} (r : result A) (f : A -> result C) c :
  res_bind r f = Ok c -> exists a, r = Ok a /\ f a = Ok c.
Proof. destruct r; [eauto|done]. Qed.

Section Planner.
Context {B : Boost}.

Lemma planner_step_shape types cols row types' cols' :
  planner_step (types, cols) row = Ok (types', cols') -> shape cols' = shape cols.
Proof.
  unfold planner_step. intros (opcode & _ & (c1 & E1 & (t1 & _ & E2)%res_bind_Ok)%res_bind_Ok)%res_bind_Ok.
  assert (shape c1 = shape cols) as Hs.
  { case_bool_decide; [|by simplify_eq]. apply res_bind_Ok in E1 as (k & _ & [= <-]). apply apply_row_shape. }
  destruct (find_opcode opcode); [|by simplify_eq]. by apply res_bind_Ok in E2 as (k & _ & [= _ <-]).
Qed.

Lemma planner_loop_shape program types cols types' cols' :
  planner_loop program (types, cols) = Ok (types', cols') -> shape cols' = shape cols.
Proof.
  revert types cols. induction program as [|row program IH]; intros types cols; [by intros [= _ <-]|].
  cbn. intros ([t1 c1] & E1 & E2)%res_bind_Ok. rewrite (IH _ _ E2). by eapply planner_step_shape.
Qed.

Lemma planner_loop_app p1 p2 st :
  planner_loop (p1 ++ p2) st = res_bind (planner_loop p1 st) (planner_loop p2).
Proof.
  revert st. induction p1 as [|row p1 IH]; intros st; [done|]. cbn.
  destruct (planner_step st row); [apply IH | done].
Qed.

(** Type inference keeps the number, the names and the options of the columns
    whatever the program, and a result row gives each column the type its register
    has there, if it has one. *)
Theorem inferred_types_are_those_of_registers (program : QueryData) (row : Row) (k : Z) (s : string)
    (cols cols1 : list TableColumn) (types : gmap Z ColumnType) :
  planner_loop program (∅, cols) = Ok (types, cols1) ->
  row !! "opcode" = Some "ResultRow" -> row !! "p1" = Some s -> lexical_cast_size s = Some k ->
  exists cols', applyTypes (program ++ [row]) cols = Ok (Status1 0, cols') /\
  shape cols' = shape cols /\
  forall i c, cols1 !! i = Some c ->
    col_type <$> cols' !! i = Some (default (col_type c) (types !! u64 (k + Z.of_nat i))).
Proof.
  intros E Hop Hp Hk. exists (apply_row k types cols1). unfold applyTypes.
  rewrite planner_loop_app, E. cbn [res_bind planner_loop].
  assert (planner_step (types, cols1) row = Ok (types, apply_row k types cols1)) as ->.
  { unfold planner_step, request_at. rewrite Hop. cbn [res_bind]. rewrite bool_decide_true by done.
    unfold size_at, request_at. rewrite Hp. cbn [res_bind]. rewrite Hk. cbn [res_bind].
    rewrite !bool_decide_false by done. cbn [res_bind].
    assert (find_opcode "ResultRow" = None) as -> by (by vm_compute). done. }
  split; [done|]. split.
  - rewrite apply_row_shape. by eapply planner_loop_shape.
  - intros i c Hc. rewrite (apply_row_lookup _ _ _ _ _ Hc). cbn. by destruct (types !! _), c.
Qed.
End Planner.

(** ** Connections *)

(** What scanning tables leaves in the affected tables. *)
Definition add_affected (m : gmap string Z) (t : string * Z) : gmap string Z :=
  match m !! t.1 with Some _ => m | None => <[t.1 := t.2]> m end.

Definition with_affected (a : gmap string Z) (x : Instance) : Instance :=
  mkInstance (primary_ x) (managed_ x) (inst_use_cache x) a.

Definition with_instances (i : gmap nat Instance) (m : Manager) : Manager :=
  mkManager i (connection_ m) (lock_owner m) (next_instance m).

Lemma scan_table_run i t x y tbl m :
  instances m !! i = Some x -> (if primary_ x then default i (connection_ m) else i) = t ->
  instances m !! t = Some y ->
  scan_table i tbl.1 tbl.2 m =
  (Ok (inst_use_cache y),
   with_instances (<[t := with_affected (add_affected (affected_tables_ y) tbl) y]> (instances m)) m).
Proof.
  intros Hi Ht Hy.
  assert (table_instance i m = (Ok t, m)) as Et.
  { unfold table_instance, inst, bind, gets, ret. rewrite Hi. cbn. by destruct (primary_ x); subst. }
  unfold scan_table. rewrite (bind_run _ _ _ _ _ Et).
  unfold addAffectedTable, upd_instance, inst, bind, modify, gets, ret. cbn [instances connection_ lock_owner next_instance].
  rewrite lookup_alter_eq, Hy. cbn. unfold with_instances, with_affected, add_affected. do 3 f_equal.
  apply map_eq. intros j. destruct (decide (j = t)) as [->|Hj].
  - by rewrite lookup_alter_eq, lookup_insert_eq, Hy.
  - by rewrite lookup_alter_ne, lookup_insert_ne by congruence.
Qed.

Lemma scan_tables_run i t x y ts m :
  instances m !! i = Some x -> (if primary_ x then default i (connection_ m) else i) = t ->
  instances m !! t = Some y ->
  scan_tables i ts m =
  (Ok (replicate (length ts) (inst_use_cache y)),
   with_instances (<[t := with_affected (foldl add_affected (affected_tables_ y) ts) y]> (instances m)) m).
Proof.
  revert x y m. induction ts as [|tbl ts IH]; intros x y m Hi Ht Hy.
  { cbn. unfold ret, with_instances. rewrite insert_id; [by destruct m|]. rewrite Hy. by destruct y. }
  cbn [scan_tables]. rewrite (bind_run _ _ _ _ _ (scan_table_run i t x y tbl m Hi Ht Hy)).
  set (y1 := with_affected (add_affected (affected_tables_ y) tbl) y).
  set (m1 := with_instances (<[t := y1]> (instances m)) m).
  assert (exists x1, instances m1 !! i = Some x1 /\ primary_ x1 = primary_ x) as (x1 & Hx1 & Hp).
  { cbn. destruct (decide (i = t)) as [<-|Hne].
    - exists y1. rewrite lookup_insert_eq. split; [done|]. cbn. congruence.
    - exists x. by rewrite lookup_insert_ne by congruence. }
  rewrite (bind_run _ _ _ _ _ (IH x1 y1 m1 Hx1 ltac:(by rewrite Hp) ltac:(apply lookup_insert_eq))).
  unfold ret, m1, with_instances. cbn. by rewrite insert_insert_eq.
Qed.

(** *** Attributes *)

Lemma land_event a : negb (Z.land a EVENT_BASED =? 0)%Z = Z.testbit a 2.
Proof.
  unfold EVENT_BASED. change 4%Z with (2 ^ 2)%Z. destruct (Z.testbit a 2) eqn:E.
  - apply negb_true_iff, Z.eqb_neq. intros H. apply (f_equal (fun z => Z.testbit z 2)) in H.
    rewrite Z.land_spec, E, Z.bits_0 in H. done.
  - apply negb_false_iff, Z.eqb_eq. apply Z.bits_inj'. intros n Hn. rewrite Z.land_spec, Z.bits_0.
    destruct (decide (n = 2)%Z) as [->|Hne]; [by rewrite E|].
    rewrite Z.pow2_bits_false by congruence. apply andb_false_r.
Qed.

Lemma existsb_event attr (names : list string) :
  existsb (fun n => negb (Z.land (attr n) EVENT_BASED =? 0)%Z) names = existsb (fun n => Z.testbit (attr n) 2) names.
Proof. induction names as [|n names IH]; [done|]. cbn [existsb]. by rewrite land_event, IH. Qed.

Lemma lor_fold_bit l : Z.testbit (foldr (fun t a => Z.lor t.2 a) 0%Z l) 2 = existsb (fun t : string * Z => Z.testbit t.2 2) l.
Proof. induction l as [|t l IH]; [done|]. cbn [foldr existsb]. by rewrite Z.lor_spec, IH. Qed.

Lemma add_affected_lookup attr names (m : gmap string Z) k :
  (forall n a, m !! n = Some a -> a = attr n) ->
  foldl add_affected m ((fun n => (n, attr n)) <$> names) !! k =
  if decide (k ∈ names) then Some (attr k) else m !! k.
Proof.
  revert m. induction names as [|n names IH]; intros m Hm; [done|]. cbn [fmap list_fmap foldl].
  change (list_fmap _ _ (fun n0 : string => (n0, attr n0)) names) with ((fun n => (n, attr n)) <$> names).
  rewrite IH.
  - unfold add_affected. cbn. destruct (decide (k = n)) as [->|Hne].
    + rewrite (decide_True (P := n ∈ n :: names)) by (by left). case_decide; [done|].
      destruct (m !! n) as [a|] eqn:E; [by rewrite E, (Hm _ _ E) | by rewrite lookup_insert_eq].
    + destruct (m !! n); rewrite ?lookup_insert_ne by done; repeat case_decide; set_solver.
  - intros j a. unfold add_affected. cbn. destruct (m !! n) as [b|] eqn:E; [apply Hm|].
    destruct (decide (j = n)) as [->|Hne]; [rewrite lookup_insert_eq; by intros [= <-]|].
    rewrite lookup_insert_ne by done. apply Hm.
Qed.

Lemma attributes_of_scans attr names :
  existsb (fun t : string * Z => Z.testbit t.2 2) (map_sorted (foldl add_affected ∅ ((fun n => (n, attr n)) <$> names)))
  = existsb (fun n => Z.testbit (attr n) 2) names.
Proof.
  apply eq_iff_eq_true. rewrite !existsb_exists. split.
  - intros ([k a] & Hin & Hb). apply list_elem_of_In, elem_of_map_sorted in Hin.
    rewrite add_affected_lookup in Hin by done. case_decide as Hk; [|done]. injection Hin as <-.
    exists k. by rewrite <- list_elem_of_In.
  - intros (n & Hin & Hb). exists (n, attr n). split; [|done].
    apply list_elem_of_In, elem_of_map_sorted. rewrite add_affected_lookup by done.
    rewrite decide_True; [done|]. by apply list_elem_of_In.
Qed.

(** *** Queries *)

(** Nobody holds the lock, and the managed connection remembers no table. *)
Record idle (m : Manager) : Prop := {
  idle_lock : lock_owner m = None;
  idle_fresh j : next_instance m <= j -> instances m !! j = None;
  idle_connection c : connection_ m = Some c -> instances m !! c = Some (mkInstance true true false ∅);
}.

Lemma fresh_manager_idle : idle fresh_manager.
Proof. by split. Qed.

Lemma getConnection_idle m :
  idle m -> exists c i m1,
  getConnection false m = (Ok i, m1) /\ i <> c /\ connection_ m1 = Some c /\ lock_owner m1 = Some i /\
  instances m1 !! c = Some (mkInstance true true false ∅) /\
  instances m1 !! i = Some (mkInstance true false false ∅) /\
  i < next_instance m1 /\ c < next_instance m1 /\ (forall j, next_instance m1 <= j -> instances m1 !! j = None).
Proof.
  intros [Hl Hf Hc]. destruct m as [ins con own nxt]. cbn in *. subst own. destruct con as [c|].
  - specialize (Hc c eq_refl).
    assert (c < nxt) as Hlt by (destruct (decide (nxt <= c)) as [H|H]; [rewrite Hf in Hc by done; done | lia]).
    eexists c, nxt, _. split; [reflexivity|]. cbn.
    split_and!; [lia|done|done| |by rewrite lookup_insert_eq|lia|lia|].
    + by rewrite lookup_insert_ne by lia.
    + intros j Hj. rewrite lookup_insert_ne by lia. apply Hf. lia.
  - eexists nxt, (S nxt), _. split; [reflexivity|]. cbn.
    split_and!; [lia|done|done| |by rewrite lookup_insert_eq|lia|lia|].
    + rewrite lookup_insert_ne by lia. apply lookup_insert_eq.
    + intros j Hj. rewrite !lookup_insert_ne by lia. apply Hf. lia.
Qed.

Lemma forwarded_primary i c m :
  instances m !! i = Some (mkInstance true false false ∅) \/ instances m !! i = Some (mkInstance true false true ∅) ->
  connection_ m = Some c -> forwarded i m = (Ok c, m).
Proof.
  intros Hi Hc. unfold forwarded, inst, bind, gets.
  destruct Hi as [-> | ->]; cbn; unfold getConnection, bind, gets; by rewrite Hc.
Qed.

(** A query that finds the connection free runs on the primary database: it is
    event based exactly when one of the tables it scanned is, it leaves the manager as
    idle as it was, with no trace of the tables it scanned, and no scan may use the
    cache, whether the query asked for it or not. *)
Theorem primary_query_never_uses_the_cache (attr : string -> Z) (names : list string) (use_cache : bool) (m : Manager) :
  idle m ->
  exists m', SQLInternal_new ((fun n => (n, attr n)) <$> names) use_cache m =
    (Ok (existsb (fun n => negb (Z.land (attr n) EVENT_BASED =? 0)%Z) names, replicate (length names) false), m') /\
  idle m'.
Proof.
  intros Hm. destruct (getConnection_idle m Hm) as (c & i & m1 & E1 & Hne & Hc & Ho & Ic & Ii & Hi & Hcn & Hf).
  set (ts := (fun n => (n, attr n)) <$> names).
  set (m2 := with_instances (alter (fun x => mkInstance (primary_ x) (managed_ x) use_cache (affected_tables_ x)) i (instances m1)) m1).
  assert (instances m2 !! i = Some (mkInstance true false use_cache ∅)) as Ii2 by (cbn; by rewrite lookup_alter_eq, Ii).
  assert (instances m2 !! c = Some (mkInstance true true false ∅)) as Ic2 by (cbn; by rewrite lookup_alter_ne by done).
  pose proof (scan_tables_run i c _ _ ts m2 Ii2 ltac:(cbn; by rewrite Hc) Ic2) as E3. cbn [inst_use_cache affected_tables_] in E3.
  set (a := foldl add_affected ∅ ts) in *.
  set (m3 := with_instances (<[c := with_affected a (mkInstance true true false ∅)]> (instances m2)) m2) in *.
  assert (forwarded i m3 = (Ok c, m3)) as Ef.
  { apply forwarded_primary; [|done]. cbn. rewrite lookup_insert_ne by done. cbn in Ii2. rewrite Ii2.
    destruct use_cache; auto. }
  set (m4 := with_instances (alter (fun x => mkInstance (primary_ x) (managed_ x) false ∅) c (instances m3)) m3).
  set (m5 := mkManager (delete i (instances m4)) (Some c) None (next_instance m1)).
  exists m5. split.
  - unfold SQLInternal_new. rewrite (bind_run _ _ _ _ _ E1).
    rewrite (bind_run _ _ _ tt m2) by done. rewrite (bind_run _ _ _ _ _ E3).
    rewrite (bind_run _ _ _ (foldr (fun t a => Z.lor t.2 a) 0%Z (map_sorted a)) m3).
    2: { unfold getAttributes. rewrite (bind_run _ _ _ _ _ Ef). unfold inst, bind, gets, ret.
         cbn [instances m3 with_instances]. by rewrite lookup_insert_eq. }
    rewrite (bind_run _ _ _ tt m4).
    2: { unfold clearAffectedTables. by rewrite (bind_run _ _ _ _ _ Ef). }
    rewrite (bind_run _ _ _ tt m5).
    2: { unfold release_instance, modify. cbn [lock_owner connection_ next_instance m4 m3 m2 with_instances].
         rewrite Ho, Hc, bool_decide_true by done. done. }
    unfold ret. rewrite land_event, lor_fold_bit. unfold a, ts. rewrite attributes_of_scans, length_fmap.
    do 3 f_equal. symmetry. apply existsb_event.
  - split; [done| |].
    + cbn. intros j Hj. rewrite lookup_delete_ne by lia. rewrite lookup_alter_ne, lookup_insert_ne, lookup_alter_ne by lia.
      by apply Hf.
    + cbn. intros c' [= <-]. rewrite lookup_delete_ne by done. by rewrite lookup_alter_eq, lookup_insert_eq.
Qed.

(** A query that runs while another holds the connection gets a database of its
    own: its scans use the cache exactly when it asked for it, and neither the managed
    connection nor the query that is running notices anything. *)
Theorem contended_query_is_isolated (attr : string -> Z) (names : list string) (use_cache : bool) (m : Manager) (c o : nat) :
  connection_ m = Some c -> lock_owner m = Some o -> o <> next_instance m ->
  (forall j, next_instance m <= j -> instances m !! j = None) ->
  SQLInternal_new ((fun n => (n, attr n)) <$> names) use_cache m =
  (Ok (existsb (fun n => negb (Z.land (attr n) EVENT_BASED =? 0)%Z) names, replicate (length names) use_cache),
   mkManager (instances m) (Some c) (Some o) (S (next_instance m))).
Proof.
  intros Hc Ho Hne Hf. destruct m as [ins con own nxt]. cbn in *. subst con own.
  set (ts := (fun n => (n, attr n)) <$> names).
  set (m1 := mkManager (<[nxt := mkInstance false false false ∅]> ins) (Some c) (Some o) (S nxt)).
  set (x2 := mkInstance false false use_cache ∅).
  set (m2 := mkManager (alter (fun x => mkInstance (primary_ x) (managed_ x) use_cache (affected_tables_ x)) nxt (instances m1))
               (Some c) (Some o) (S nxt)).
  assert (instances m2 !! nxt = Some x2) as I2 by (cbn; by rewrite lookup_alter_eq, lookup_insert_eq).
  pose proof (scan_tables_run nxt nxt x2 x2 ts m2 I2 eq_refl I2) as E3. cbn [inst_use_cache affected_tables_ x2] in E3.
  set (a := foldl add_affected ∅ ts) in *.
  set (m3 := with_instances (<[nxt := with_affected a x2]> (instances m2)) m2) in *.
  assert (forwarded nxt m3 = (Ok nxt, m3)) as Ef.
  { unfold forwarded, inst, bind, gets. cbn [instances m3 with_instances]. by rewrite lookup_insert_eq. }
  unfold SQLInternal_new. rewrite (bind_run _ _ _ nxt m1) by done. rewrite (bind_run _ _ _ tt m2) by done.
  rewrite (bind_run _ _ _ _ _ E3).
  rewrite (bind_run _ _ _ (foldr (fun t a => Z.lor t.2 a) 0%Z (map_sorted a)) m3).
  2: { unfold getAttributes. rewrite (bind_run _ _ _ _ _ Ef). unfold inst, bind, gets, ret.
       cbn [instances m3 with_instances]. by rewrite lookup_insert_eq. }
  rewrite (bind_run _ _ _ tt (with_instances (alter (fun x => mkInstance (primary_ x) (managed_ x) false ∅) nxt (instances m3)) m3)).
  2: { unfold clearAffectedTables. by rewrite (bind_run _ _ _ _ _ Ef). }
  unfold release_instance, bind, modify, ret. cbn [lock_owner connection_ next_instance m3 m2 with_instances instances m1].
  rewrite bool_decide_false by congruence. rewrite land_event, lor_fold_bit. unfold a, ts.
  rewrite attributes_of_scans, length_fmap. f_equal.
  - do 2 f_equal. symmetry. apply existsb_event.
  - f_equal. apply map_eq. intros j. destruct (decide (j = nxt)) as [->|Hj].
    + rewrite lookup_delete_eq. by rewrite Hf.
    + by rewrite lookup_delete_ne, lookup_alter_ne, lookup_insert_ne, lookup_alter_ne, lookup_insert_ne by congruence.
Qed.
