(* ===== verification/Keeps.v ===== *)
(** * Invariants of stateful code

    A computation keeps a predicate of the state when every state it returns in
    satisfies the predicate again. The rules follow the shape of the code and are hints,
    so that the invariant of a component is proved operation by operation. *)
From S2P Require Import Prelude.

Definition keeps {S A} (I : S -> Prop) (m : M S A) : Prop := forall s, I s -> post m (fun _ => I) s.

Create HintDb keeps.

Section Keeps.
Context {S : Type} (I : S -> Prop).

Lemma keeps_ret {A} (a : A) : keeps I (ret a).
Proof. by intros s Hs. Qed.

Lemma keeps_throw {A} (e : exn) : keeps I (throw (A := A) e).
Proof. by intros s Hs. Qed.

Lemma keeps_gets {A} (f : S -> A) : keeps I (gets f).
Proof. by intros s Hs. Qed.

Lemma keeps_of_result {A} (r : result A) : keeps I (of_result r).
Proof. intros s Hs. by destruct r. Qed.

Lemma keeps_modify (f : S -> S) : (forall s, I s -> I (f s)) -> keeps I (modify f).
Proof. intros Hf s Hs. by apply Hf. Qed.

Lemma keeps_bind {A B} (m : M S A) (k : A -> M S B) :
  keeps I m -> (forall a, keeps I (k a)) -> keeps I (bind m k).
Proof.
  intros Hm Hk s Hs. apply post_bind. eapply post_mono; [by apply Hm|]. intros a s'. apply Hk.
Qed.

(** The continuation may use what the first part returned. *)
Lemma keeps_bind_dep {A B} (m : M S A) (k : A -> M S B) (Q : A -> Prop) :
  (forall s, I s -> post m (fun a s' => I s' /\ Q a) s) -> (forall a, Q a -> keeps I (k a)) ->
  keeps I (bind m k).
Proof.
  intros Hm Hk s Hs. apply post_bind. eapply post_mono; [by apply Hm|].
  intros a s' [H1 H2]. by apply Hk.
Qed.

Lemma keeps_for_each {A} (l : list A) (f : A -> M S unit) :
  (forall x, x ∈ l -> keeps I (f x)) -> keeps I (for_each l f).
Proof.
  induction l as [|x l IH]; intros Hf; simpl; [apply keeps_ret|].
  apply keeps_bind; [apply Hf; left|]. intros _. apply IH. intros y Hy. apply Hf. by right.
Qed.

Lemma keeps_for_fold {A B} (l : list A) (acc : B) (f : B -> A -> M S B) :
  (forall acc x, keeps I (f acc x)) -> keeps I (for_fold l acc f).
Proof.
  intros Hf. revert acc. induction l as [|x l IH]; intros acc; simpl; [apply keeps_ret|].
  apply keeps_bind; [apply Hf | apply IH].
Qed.

Lemma keeps_if {A} (b : bool) (m1 m2 : M S A) :
  keeps I m1 -> keeps I m2 -> keeps I (if b then m1 else m2).
Proof. by destruct b. Qed.

Lemma keeps_option {A B} (o : option B) (m1 : B -> M S A) (m2 : M S A) :
  (forall x, keeps I (m1 x)) -> keeps I m2 ->
  keeps I (match o with Some x => m1 x | None => m2 end).
Proof. destruct o; auto. Qed.

Lemma keeps_option_r {A B} (o : option B) (m1 : B -> M S A) (m2 : M S A) :
  (forall x, keeps I (m1 x)) -> keeps I m2 ->
  keeps I (match o with None => m2 | Some x => m1 x end).
Proof. destruct o; auto. Qed.

Lemma keeps_zoom {T A} (get : S -> T) (put : T -> S -> S) (m : M T A) :
  (forall t s, I s -> I (put t s)) -> keeps I (zoom get put m).
Proof. intros H s Hs. unfold post, zoom. destruct (m (get s)) as [[a|e] t]; [by apply H|done]. Qed.

Lemma keeps_catch {A} (m : M S A) (h : exn -> M S A) :
  (forall s, I s -> I (m s).2) -> (forall e, keeps I (h e)) -> keeps I (catch m h).
Proof.
  intros Hm Hh s Hs. specialize (Hm s Hs). unfold post, catch.
  destruct (m s) as [[a|e] s']; [done|]. destruct e; try exact (Hh _ s' Hm). done.
Qed.

(** What the pieces of a returning run leave. *)
Lemma keeps_run {A} (m : M S A) s a s' : keeps I m -> I s -> m s = (Ok a, s') -> I s'.
Proof. intros H Hs. exact (post_Ok _ _ _ _ _ (H s Hs)). Qed.
End Keeps.
#[export] Hint Resolve keeps_ret keeps_throw keeps_gets keeps_of_result keeps_for_fold : keeps.

(** Walk through the code, leaving the leaves to the hints. *)
Ltac keep :=
  repeat first
    [ progress intros
    | solve [auto with keeps]
    | apply keeps_bind
    | apply keeps_if
    | apply keeps_for_each
    | apply keeps_option
    | match goal with
      | |- keeps _ (match ?x with _ => _ end) => destruct x eqn:?
      | |- keeps _ (let '_ := ?x in _) => destruct x eqn:?
      end ].

(** ** Both ways out

    [ends m Q E s]: run from [s], [m] returns in a state that satisfies [Q], or throws an
    exception a handler can catch in a state that satisfies [E]; no assertion fails. *)
Definition ends {S A} (m : M S A) (Q : A -> S -> Prop) (E : S -> Prop) (s : S) : Prop :=
  match m s with
  | (Ok a, s') => Q a s'
  | (Throw e, s') => e <> AssertFailure /\ E s'
  end.

Section Ends.
Context {S : Type}.

Lemma ends_bind {A B} (m : M S A) (k : A -> M S B) Q E s :
  ends m (fun a => ends (k a) Q E) E s -> ends (bind m k) Q E s.
Proof. unfold ends, bind. by destruct (m s) as [[a|e] s1]. Qed.

Lemma ends_ret {A} (a : A) (Q : A -> S -> Prop) (E : S -> Prop) s : Q a s -> ends (ret a) Q E s.
Proof. done. Qed.

Lemma ends_throw {A} e (Q : A -> S -> Prop) (E : S -> Prop) s :
  e <> AssertFailure -> E s -> ends (throw e) Q E s.
Proof. done. Qed.

Lemma ends_gets {A} (f : S -> A) (Q : A -> S -> Prop) (E : S -> Prop) s : Q (f s) s -> ends (gets f) Q E s.
Proof. done. Qed.

Lemma ends_result {A} (r : result A) (a : A) (Q : A -> S -> Prop) (E : S -> Prop) s :
  r = Ok a -> Q a s -> ends (of_result r) Q E s.
Proof. by intros ->. Qed.

Lemma ends_modify (f : S -> S) (Q : unit -> S -> Prop) (E : S -> Prop) s : Q tt (f s) -> ends (modify f) Q E s.
Proof. done. Qed.

Lemma ends_mono {A} (m : M S A) (Q Q' : A -> S -> Prop) (E E' : S -> Prop) s :
  ends m Q E s -> (forall a s', Q a s' -> Q' a s') -> (forall s', E s' -> E' s') -> ends m Q' E' s.
Proof. unfold ends. intros H HQ HE. destruct (m s) as [[a|e] s1]; [auto|]. destruct H. auto. Qed.

Lemma ends_Ok {A} (m : M S A) (Q : A -> S -> Prop) (E : S -> Prop) s a s' :
  ends m Q E s -> m s = (Ok a, s') -> Q a s'.
Proof. unfold ends. intros H Em. by rewrite Em in H. Qed.
End Ends.
