(* ===== verification/PathSet.v ===== *)
(** * Sets of path patterns (osquery/events/pathset.h)

    The set of excluded paths of the file event publishers: a multiset of paths cut
    into components, whose comparison treats the components [*] and [**] as equal to
    anything. *)
From S2P Require Import Prelude Boost Conversions Filesystem.

Definition Path : Type := list string.

(** ** Cutting a path *)

Section Cut.
Context {B : Boost}.

(** [boost::tokenizer] with the separator [/]: empty tokens are dropped. *)
Definition path_tokens (str : string) : Path :=
  List.filter (fun t => negb (is_empty t)) (boost_split (is_any_of "/") str).

Definition createPath (str : string) : Path :=
  (if bool_decide (str = "/") then [""] else []) ++ path_tokens str.

(** The paths of a pattern: one that ends in a double star also stands for the
    directory itself. *)
Fixpoint vpath_loop (tokens : list string) (vpath : list Path) (path : Path) : list Path :=
  match tokens with
  | [] => vpath ++ [path]
  | component :: tokens =>
      if bool_decide (component = "**") then (vpath ++ [path]) ++ [path ++ [component]]
      else vpath_loop tokens vpath (path ++ [component])
  end.

Definition createVPath (str : string) : list Path :=
  vpath_loop (path_tokens str) [] (if bool_decide (str = "/") then [""] else []).
End Cut.

(** ** Comparing *)

(** [rhs[ndx - 1]]: [ndx] is unsigned, so there is no element before the first. *)
Definition previous (c : option string) : result string :=
  match c with Some c => Ok c | None => Throw AssertFailure end.

(** What is left of the two paths from [ndx] on, and their components before it. *)
Fixpoint compare_from (lprev rprev : option string) (lhs rhs : Path) : result bool :=
  match lhs, rhs with
  | l :: lhs, r :: rhs =>
      if bool_decide (l = "**") || bool_decide (r = "**") then Ok false
      else if bool_decide (l = "*") || bool_decide (r = "*") then compare_from (Some l) (Some r) lhs rhs
      else match String.compare l r with
           | Gt => Ok false
           | Lt => Ok true
           | Eq => compare_from (Some l) (Some r) lhs rhs
           end
  | _, _ =>
      let end_star rest prev :=
        match rest with
        | [] => match previous prev with Ok c => Ok (bool_decide (c = "*")) | Throw e => Throw e end
        | _ :: _ => Ok false
        end in
      match end_star rhs rprev with
      | Throw e => Throw e
      | Ok true => Ok false
      | Ok false =>
          match end_star lhs lprev with
          | Throw e => Throw e
          | Ok true => Ok false
          | Ok false => Ok (bool_decide (lhs = []) && negb (bool_decide (rhs = [])))
          end
      end
  end.

Definition path_compare (lhs rhs : Path) : result bool := compare_from None None lhs rhs.

(** ** The set *)

(** The elements of the multiset in their order. The standard promises this behaviour
    for a comparison that is a strict weak ordering on the elements and the key. *)
Fixpoint ms_insert (x : Path) (l : list Path) : result (list Path) :=
  match l with
  | [] => Ok [x]
  | y :: l' =>
      match path_compare x y with
      | Throw e => Throw e
      | Ok true => Ok (x :: l)
      | Ok false => match ms_insert x l' with Ok l' => Ok (y :: l') | Throw e => Throw e end
      end
  end.

Fixpoint ms_find (key : Path) (l : list Path) : result bool :=
  match l with
  | [] => Ok false
  | y :: l =>
      match path_compare y key with
      | Throw e => Throw e
      | Ok true => ms_find key l
      | Ok false => match path_compare key y with Ok b => Ok (negb b) | Throw e => Throw e end
      end
  end.

Fixpoint ms_insert_all (xs : list Path) (l : list Path) : result (list Path) :=
  match xs with
  | [] => Ok l
  | x :: xs => match ms_insert x l with Ok l => ms_insert_all xs l | Throw e => Throw e end
  end.

Section Set_.
Context {S : Type} {P : Posix S} {B : Boost}.

Definition pathset_insert (str : string) (paths_ : list Path) : M S (list Path) :=
  let* pattern := replaceGlobWildcards str GLOB_ALL in
  of_result (ms_insert_all (createVPath pattern) paths_).

Definition pathset_find (str : string) (paths_ : list Path) : result bool :=
  ms_find (createPath str) paths_.
End Set_.

(** ** What a pattern covers *)

(** The reading of a pattern: [*] is one component, or any rest when it is the last
    one; [**] is any rest that is not empty. *)
Fixpoint covers (pattern path : Path) : bool :=
  match pattern, path with
  | [], [] => true
  | [], _ :: _ => false
  | _ :: _, [] => false
  | c :: pattern, d :: path =>
      if bool_decide (c = "**") then true
      else if bool_decide (c = "*") then bool_decide (pattern = []) || covers pattern path
      else bool_decide (c = d) && covers pattern path
  end.

(** A path of the filesystem: it has components and none of them is a wildcard. *)
Definition plain (p : Path) : Prop := p <> [] /\ Forall (fun c => c <> "*" /\ c <> "**") p.

Lemma compare_refl_str s : String.compare s s = Eq.
Proof.
  induction s as [|c s IH]; [done|]. simpl. unfold Ascii.compare. by rewrite N.compare_refl.
Qed.

(** [covers] once the component [c] before was matched. *)
Definition covers_after (c : string) (pattern path : Path) : bool :=
  (bool_decide (pattern = []) && bool_decide (c = "*")) || covers pattern path.

Lemma covers_cons c d pattern path :
  covers (c :: pattern) (d :: path) =
  bool_decide (c = "**") || ((bool_decide (c = "*") || bool_decide (c = d)) && covers_after c pattern path).
Proof.
  unfold covers_after. simpl. destruct (decide (c = "**")) as [->|]; [done|].
  rewrite (bool_decide_eq_false_2 (c = "**")) by done. cbn [orb].
  destruct (decide (c = "*")) as [->|].
  - rewrite !(bool_decide_eq_true_2 ("*" = "*")) by done. by rewrite andb_true_r.
  - rewrite !(bool_decide_eq_false_2 (c = "*")) by done. by rewrite andb_false_r.
Qed.

(** The two comparisons of a pattern and a path: at most one holds, and none does
    exactly when the pattern covers the path. *)
Definition decided (a b : result bool) (equal : bool) : Prop :=
  exists x y, a = Ok x /\ b = Ok y /\ negb x && negb y = equal /\ x && y = false.

Lemma compare_both c d pattern path :
  d <> "*" -> Forall (fun x => x <> "*" /\ x <> "**") path ->
  decided (compare_from (Some c) (Some d) pattern path) (compare_from (Some d) (Some c) path pattern)
          (covers_after c pattern path).
Proof.
  unfold decided, covers_after. revert c d path.
  induction pattern as [|c' pattern IH]; intros c d [|d' path] Hd Hp.
  - simpl. rewrite (bool_decide_eq_false_2 (d = "*")) by done.
    destruct (bool_decide (c = "*")); by exists false, false.
  - simpl. destruct (bool_decide (c = "*")); [by exists false, false | by exists true, false].
  - simpl. rewrite (bool_decide_eq_false_2 (d = "*")) by done. by exists false, true.
  - apply Forall_cons in Hp as [[H1 H2] Hp]. rewrite covers_cons. cbn [compare_from].
    rewrite (bool_decide_eq_false_2 (d' = "**")), (bool_decide_eq_false_2 (d' = "*")),
      !orb_false_r by done. cbn [orb bool_decide decide_rel andb].
    rewrite (bool_decide_eq_false_2 (c' :: pattern = [])) by done. cbn [andb orb].
    destruct (bool_decide (c' = "**")); [by exists false, false|]. cbn [orb].
    destruct (bool_decide (c' = "*")); [by apply IH|]. cbn [orb].
    rewrite (String.compare_antisym d' c').
    destruct (String.compare c' d') eqn:E; cbn [CompOpp].
    + apply String.compare_eq_iff in E as ->. rewrite bool_decide_eq_true_2 by done. by apply IH.
    + rewrite bool_decide_eq_false_2; [by exists true, false|].
      intros ->. by rewrite compare_refl_str in E.
    + rewrite bool_decide_eq_false_2; [by exists false, true|].
      intros ->. by rewrite compare_refl_str in E.
Qed.

Lemma path_compare_both q k :
  q <> [] -> plain k -> decided (path_compare q k) (path_compare k q) (covers q k).
Proof.
  intros Hq [Hk Hp]. destruct q as [|c q], k as [|d k]; try done.
  apply Forall_cons in Hp as [[H1 H2] Hp]. pose proof (compare_both c d q k H1 Hp) as H.
  unfold path_compare. rewrite covers_cons. cbn [compare_from].
  rewrite (bool_decide_eq_false_2 (d = "**")), (bool_decide_eq_false_2 (d = "*")), !orb_false_r by done.
  cbn [orb]. unfold decided in *.
  destruct (bool_decide (c = "**")); [by exists false, false|]. cbn [orb].
  destruct (bool_decide (c = "*")); [done|]. cbn [orb]. rewrite (String.compare_antisym d c).
  destruct (String.compare c d) eqn:E; cbn [CompOpp].
  - apply String.compare_eq_iff in E as ->. by rewrite bool_decide_eq_true_2 by done.
  - rewrite bool_decide_eq_false_2; [by exists true, false|]. intros ->. by rewrite compare_refl_str in E.
  - rewrite bool_decide_eq_false_2; [by exists false, true|]. intros ->. by rewrite compare_refl_str in E.
Qed.

(** ** The set of one pattern *)

(** A pattern is one path, or a directory and everything below it. *)
Lemma vpath_loop_cases tokens vpath path :
  (vpath_loop tokens vpath path = vpath ++ [path ++ tokens] /\ "**" ∉ tokens) \/
  exists pre rest, tokens = pre ++ "**" :: rest /\
    vpath_loop tokens vpath path = vpath ++ [path ++ pre; path ++ pre ++ ["**"]].
Proof.
  revert path. induction tokens as [|c tokens IH]; intros path; simpl.
  { left. rewrite app_nil_r. split; [done | apply not_elem_of_nil]. }
  destruct (bool_decide_reflect (c = "**")) as [->|Hc].
  { right. exists [], tokens. by rewrite app_nil_r, <- app_assoc. }
  destruct (IH (path ++ [c])) as [[-> H]|(pre & rest & -> & ->)].
  - left. rewrite <- app_assoc. split; [done|]. by rewrite not_elem_of_cons.
  - right. exists (c :: pre), rest. by rewrite <- !app_assoc.
Qed.

Lemma find_one q k : q <> [] -> plain k -> ms_find k [q] = Ok (covers q k).
Proof.
  intros Hq Hk. destruct (path_compare_both q k Hq Hk) as (x & y & Hx & Hy & <- & Hxy). simpl.
  rewrite Hx. destruct x; [done|]. by rewrite Hy.
Qed.

(** A directory is not above what lies under it. *)
Lemma under_after c d p k :
  covers (p ++ ["**"]) k = true -> d <> "*" -> Forall (fun x => x <> "*" /\ x <> "**") k ->
  compare_from (Some d) (Some c) k p = Ok false.
Proof.
  revert c d k. induction p as [|c' p IH]; intros c d [|d' k] Hu Hd Hk; try done.
  - simpl. by destruct (bool_decide (c = "*")).
  - apply Forall_cons in Hk as [[H1 H2] Hk]. cbn [compare_from].
    rewrite (bool_decide_eq_false_2 (d' = "**")), (bool_decide_eq_false_2 (d' = "*")) by done. cbn [orb].
    cbn [covers app] in Hu. destruct (bool_decide (c' = "**")); [done|].
    destruct (bool_decide (c' = "*")).
    + apply IH; [|done..]. apply orb_true_iff in Hu as [Hu|Hu]; [|done].
      apply bool_decide_eq_true in Hu. by destruct p.
    + apply andb_true_iff in Hu as [->%bool_decide_eq_true Hu]. rewrite compare_refl_str. by apply IH.
Qed.

Lemma under_directory p k :
  p <> [] -> plain k -> covers (p ++ ["**"]) k = true -> path_compare k p = Ok false.
Proof.
  intros Hp [Hk Hf] Hu. destruct p as [|c p], k as [|d k]; try done.
  apply Forall_cons in Hf as [[H1 H2] Hf]. unfold path_compare. cbn [compare_from].
  rewrite (bool_decide_eq_false_2 (d = "**")), (bool_decide_eq_false_2 (d = "*")) by done. cbn [orb].
  cbn [covers app] in Hu. destruct (bool_decide (c = "**")); [done|].
  destruct (bool_decide (c = "*")).
  - apply under_after; [|done..]. apply orb_true_iff in Hu as [Hu|Hu]; [|done].
    apply bool_decide_eq_true in Hu. by destruct p.
  - apply andb_true_iff in Hu as [->%bool_decide_eq_true Hu]. rewrite compare_refl_str. by apply under_after.
Qed.

Lemma compare_extension c p : compare_from (Some c) (Some c) (p ++ ["**"]) p = Ok false.
Proof.
  revert c. induction p as [|d p IH]; intros c; simpl; [by destruct (bool_decide (c = "*"))|].
  destruct (bool_decide (d = "**")); [done|]. destruct (bool_decide (d = "*")); [apply IH|].
  cbn [orb]. rewrite compare_refl_str. apply IH.
Qed.

Lemma insert_directory p : p <> [] -> ms_insert_all [p; p ++ ["**"]] [] = Ok [p; p ++ ["**"]].
Proof.
  intros Hp. destruct p as [|d p]; [done|]. simpl. unfold path_compare. cbn [compare_from].
  destruct (bool_decide (d = "**")); [done|]. destruct (bool_decide (d = "*")); cbn [orb];
    [|rewrite compare_refl_str]; by rewrite compare_extension.
Qed.

Lemma find_directory p k : p <> [] -> plain k ->
  ms_find k [p; p ++ ["**"]] = Ok (covers p k || covers (p ++ ["**"]) k).
Proof.
  intros Hp Hk. destruct (path_compare_both p k Hp Hk) as (x & y & Hx & Hy & E & Hxy).
  change (ms_find k [p; p ++ ["**"]]) with
    (match path_compare p k with
     | Throw e => Throw e
     | Ok true => ms_find k [p ++ ["**"]]
     | Ok false => match path_compare k p with Ok b => Ok (negb b) | Throw e => Throw e end
     end).
  rewrite Hx. destruct x.
  - rewrite find_one; [|by destruct p|done]. by rewrite <- E.
  - rewrite Hy, <- E. simpl. destruct y; [|done]. f_equal. symmetry. apply not_true_iff_false.
    intros Hu. pose proof (under_directory p k Hp Hk Hu) as H. congruence.
Qed.

Section OnePattern.
Context {B : Boost}.

(** The set of one pattern contains exactly the paths the pattern covers: a [*] is any
    component, and any rest when it is the last one; a trailing [**] is the directory
    and everything below it. *)
Theorem one_pattern_contains_what_it_covers (pattern : string) (k : Path) :
  head (path_tokens pattern) <> None -> head (path_tokens pattern) <> Some "**" -> plain k ->
  exists l, ms_insert_all (createVPath pattern) [] = Ok l /\
    ms_find k l = Ok (existsb (fun q => covers q k) (createVPath pattern)).
Proof.
  intros H0 H1 Hk. unfold createVPath.
  match goal with |- context [vpath_loop _ [] ?x] => generalize x end. intros pre0.
  assert (pre0 ++ path_tokens pattern <> []) as Hne.
  { intros [_ E]%app_eq_nil. by rewrite E in H0. }
  destruct (vpath_loop_cases (path_tokens pattern) [] pre0) as [[-> _]|(pre & rest & E & ->)].
  - exists [pre0 ++ path_tokens pattern]. split; [done|]. rewrite find_one by done. simpl.
    by rewrite orb_false_r.
  - assert (pre0 ++ pre <> []) as Hpre.
    { intros [-> ->]%app_eq_nil. by rewrite E in H1. }
    rewrite app_assoc. exists [pre0 ++ pre; (pre0 ++ pre) ++ ["**"]]. split; [by apply insert_directory|].
    etransitivity; [by apply find_directory|]. simpl. by rewrite orb_false_r.
Qed.

(** Searching for the empty path reads before the first component. *)
Lemma find_empty_path l : l <> [] -> ms_find [] l = Throw AssertFailure.
Proof. by destruct l as [|[|c q] l]. Qed.
End OnePattern.

(** With wildcards the comparison is no ordering: what [*] is equal to is not equal to
    each other, so that a search in a set of several patterns is not defined. *)
Theorem wildcards_are_not_transitive :
  exists x y z, ms_find x [y] = Ok true /\ ms_find y [z] = Ok true /\ ms_find x [z] = Ok false.
Proof. by exists ["a"], ["*"], ["b"]. Qed.
