(* ===== verification/Inotify.v ===== *)
(** * The inotify publisher (osquery/events/linux/inotify.cpp, inotify.h)

    File events on Linux: the publisher turns subscriptions into kernel watches, reads
    the kernel's events into a buffer and fires them for the subscription that owns the
    watch. The subscription contexts are shared objects, so they live in a store and are
    referred to by their address. With it the subscriber of file_events
    (osquery/tables/events/linux/file_events.cpp). *)
From S2P Require Import Prelude Boost Conversions Json Query Filesystem Buffered BufferedFacts AuditReader Logger Keeps PathSet.
Local Open Scope Z_scope.

(** ** Masks *)

Definition IN_ACCESS : Z := 0x1.
Definition IN_MODIFY : Z := 0x2.
Definition IN_ATTRIB : Z := 0x4.
Definition IN_CLOSE_WRITE : Z := 0x8.
Definition IN_OPEN : Z := 0x20.
Definition IN_MOVED_FROM : Z := 0x40.
Definition IN_MOVED_TO : Z := 0x80.
Definition IN_CREATE : Z := 0x100.
Definition IN_DELETE : Z := 0x200.
Definition IN_DELETE_SELF : Z := 0x400.
Definition IN_MOVE_SELF : Z := 0x800.
Definition IN_Q_OVERFLOW : Z := 0x4000.
Definition IN_IGNORED : Z := 0x8000.

(** In the order of the map: by the bit. *)
Definition kMaskActions : list (Z * string) :=
  [(IN_ACCESS, "ACCESSED"); (IN_MODIFY, "UPDATED"); (IN_ATTRIB, "ATTRIBUTES_MODIFIED");
   (IN_CLOSE_WRITE, "UPDATED"); (IN_OPEN, "OPENED"); (IN_MOVED_FROM, "MOVED_FROM");
   (IN_MOVED_TO, "MOVED_TO"); (IN_CREATE, "CREATED"); (IN_DELETE, "DELETED")].

Definition kFileDefaultMasks : Z :=
  foldr Z.lor 0 [IN_MOVED_TO; IN_MOVED_FROM; IN_MODIFY; IN_DELETE; IN_CREATE; IN_CLOSE_WRITE; IN_ATTRIB].
Definition kFileAccessMasks : Z := Z.lor IN_OPEN IN_ACCESS.

Definition kINotifyMaxEvents : Z := 512.
(** [sizeof(struct inotify_event)], and [NAME_MAX + 1]. *)
Definition header_size : Z := 16.
Definition kINotifyEventSize : Z := header_size + 256.
Definition kINotifyBufferSize : Z := kINotifyMaxEvents * kINotifyEventSize.

Definition has_bit (mask bit : Z) : bool := negb (Z.land mask bit =? 0).

(** ** Data *)

Record SubCtx := mkSubCtx {
  sc_path : string;
  sc_opath : string;
  sc_mask : Z;
  sc_recursive : bool;
  sc_category : string;
  mark_for_deletion : bool;
  recursive_match : bool;
  descriptor_paths_ : gmap Z string;
  path_sc_time_ : gmap string Z;
}.

Definition set_watches (m : gmap Z string) (c : SubCtx) : SubCtx :=
  mkSubCtx (sc_path c) (sc_opath c) (sc_mask c) (sc_recursive c) (sc_category c)
    (mark_for_deletion c) (recursive_match c) m (path_sc_time_ c).
Definition set_sc_time (path : string) (t : Z) (c : SubCtx) : SubCtx :=
  mkSubCtx (sc_path c) (sc_opath c) (sc_mask c) (sc_recursive c) (sc_category c)
    (mark_for_deletion c) (recursive_match c) (descriptor_paths_ c) (<[path := t]> (path_sc_time_ c)).
Definition set_mark (b : bool) (c : SubCtx) : SubCtx :=
  mkSubCtx (sc_path c) (sc_opath c) (sc_mask c) (sc_recursive c) (sc_category c)
    b (recursive_match c) (descriptor_paths_ c) (path_sc_time_ c).
Definition set_pattern (path : string) (recursive rmatch : bool) (c : SubCtx) : SubCtx :=
  mkSubCtx path (sc_opath c) (sc_mask c) recursive (sc_category c)
    (mark_for_deletion c) rmatch (descriptor_paths_ c) (path_sc_time_ c).

Definition requireAction (action : string) (c : SubCtx) : SubCtx :=
  let mask := foldl (fun mask bit => if bool_decide (action = bit.2) then Z.lor mask bit.1 else mask)
                    (sc_mask c) kMaskActions in
  mkSubCtx (sc_path c) (sc_opath c) mask (sc_recursive c) (sc_category c)
    (mark_for_deletion c) (recursive_match c) (descriptor_paths_ c) (path_sc_time_ c).

(** [operator==]. *)
Definition same_subscription (l r : SubCtx) : bool :=
  bool_decide (sc_category l = sc_category r) && bool_decide (sc_opath l = sc_opath r).

(** A subscription: the name of the subscriber and the address of the context. *)
Record ISub := mkISub { isub_name : string; isub_ctx : Z }.

Record inotify_event := mkEvent {
  ev_wd : Z;
  ev_mask : Z;
  ev_cookie : Z;
  ev_len : Z;
  (** The [len] bytes after the header. *)
  ev_bytes : string;
}.

Record EventCtx := mkEventCtx {
  ec_event : inotify_event;
  ec_path : string;
  ec_action : string;
  ec_isub : option Z;
}.

Record Ino (S : Type) := mkIno {
  ino_host : S;
  (** The contexts that were created, by address. *)
  contexts : gmap Z SubCtx;
  subscriptions_ : list ISub;
  path_descriptors_ : gmap string Z;
  descriptor_inosubctx_ : gmap Z Z;
  exclude_paths_ : list Path;
  inotify_handle_ : Z;
  last_overflow_ : Z;
  inotify_events_ : Z;
  inotify_sanity_check : bool;
  (** The bytes of the scratch space, when it is allocated. *)
  scratch_ : option string;
}.
Arguments mkIno {S}.
Arguments ino_host {S}. Arguments contexts {S}. Arguments subscriptions_ {S}.
Arguments path_descriptors_ {S}. Arguments descriptor_inosubctx_ {S}. Arguments exclude_paths_ {S}.
Arguments inotify_handle_ {S}. Arguments last_overflow_ {S}. Arguments inotify_events_ {S}.
Arguments inotify_sanity_check {S}. Arguments scratch_ {S}.

(** The kernel, the clock and the rest of the process. *)
Class Kernel (S : Type) := {
  inotify_init : M S Z;
  inotify_add_watch : Z -> string -> Z -> M S Z;
  inotify_rm_watch : Z -> Z -> M S Z;
  close_handle : Z -> M S unit;
  (** The result, [errno] and whether [POLLIN] is set. *)
  poll_handle : Z -> M S (Z * Z * bool);
  (** At most so many bytes; an empty text when the result is 0 or -1. *)
  read_handle : Z -> Z -> M S string;
  (** [malloc]: the bytes, whatever they are. *)
  alloc : Z -> M S (option string);
  (** [st_ctime], [None] when [stat] fails. *)
  stat_ctime : string -> M S (option Z);
  unix_time : M S Z;
  (** The data of the configuration parser for file paths; [None] is a null pointer. *)
  file_paths_data : M S (option json);
}.

Section Publisher.
Context {S : Type} {P : Posix S} {B : Boost} {K : Kernel S}.
Abbreviation MI := (M (Ino S)).

Definition with_host (h : S) (s : Ino S) : Ino S :=
  mkIno h (contexts s) (subscriptions_ s) (path_descriptors_ s) (descriptor_inosubctx_ s)
    (exclude_paths_ s) (inotify_handle_ s) (last_overflow_ s) (inotify_events_ s)
    (inotify_sanity_check s) (scratch_ s).
Definition with_maps (cs : gmap Z SubCtx) (pd : gmap string Z) (dc : gmap Z Z) (s : Ino S) : Ino S :=
  mkIno (ino_host s) cs (subscriptions_ s) pd dc
    (exclude_paths_ s) (inotify_handle_ s) (last_overflow_ s) (inotify_events_ s)
    (inotify_sanity_check s) (scratch_ s).
Definition with_subs (l : list ISub) (s : Ino S) : Ino S :=
  mkIno (ino_host s) (contexts s) l (path_descriptors_ s) (descriptor_inosubctx_ s)
    (exclude_paths_ s) (inotify_handle_ s) (last_overflow_ s) (inotify_events_ s)
    (inotify_sanity_check s) (scratch_ s).
Definition with_excluded (l : list Path) (s : Ino S) : Ino S :=
  mkIno (ino_host s) (contexts s) (subscriptions_ s) (path_descriptors_ s) (descriptor_inosubctx_ s)
    l (inotify_handle_ s) (last_overflow_ s) (inotify_events_ s)
    (inotify_sanity_check s) (scratch_ s).
Definition with_handle (h : Z) (s : Ino S) : Ino S :=
  mkIno (ino_host s) (contexts s) (subscriptions_ s) (path_descriptors_ s) (descriptor_inosubctx_ s)
    (exclude_paths_ s) h (last_overflow_ s) (inotify_events_ s)
    (inotify_sanity_check s) (scratch_ s).
Definition with_overflow (t n : Z) (s : Ino S) : Ino S :=
  mkIno (ino_host s) (contexts s) (subscriptions_ s) (path_descriptors_ s) (descriptor_inosubctx_ s)
    (exclude_paths_ s) (inotify_handle_ s) t n
    (inotify_sanity_check s) (scratch_ s).
Definition with_scratch (b : option string) (s : Ino S) : Ino S :=
  mkIno (ino_host s) (contexts s) (subscriptions_ s) (path_descriptors_ s) (descriptor_inosubctx_ s)
    (exclude_paths_ s) (inotify_handle_ s) (last_overflow_ s) (inotify_events_ s)
    (inotify_sanity_check s) b.

Definition on_host {A} (m : M S A) : MI A := zoom ino_host with_host m.

Definition with_contexts (cs : gmap Z SubCtx) (s : Ino S) : Ino S :=
  with_maps cs (path_descriptors_ s) (descriptor_inosubctx_ s) s.

(** The object at an address. *)
Definition deref (a : Z) : MI SubCtx :=
  fun s => match contexts s !! a with Some c => (Ok c, s) | None => (Throw AssertFailure, s) end.
Definition upd_ctx (a : Z) (f : SubCtx -> SubCtx) : MI unit :=
  modify (fun s => with_contexts (alter f a (contexts s)) s).

(** ** Watches *)

Definition new_publisher (h : S) (unit_test : bool) : Ino S :=
  mkIno h ∅ [] ∅ ∅ [] (-1) (-1) 16 unit_test None.

Definition inotify_setUp : MI Status :=
  let* h := on_host inotify_init in
  modify (with_handle h) ;;;
  if h =? -1 then ret (mkStatus 1 "Could not start inotify: inotify_init failed")
  else
    let* b := on_host (alloc kINotifyBufferSize) in
    modify (with_scratch b) ;;;
    match b with
    | None => ret (mkStatus 1 "Could not allocate scratch space")
    | Some _ => ret (mkStatus 0 "OK")
    end.

(** A descriptor that belongs to a context is taken away from it. *)
Definition forget_watch (watch : Z) : MI unit :=
  modify (fun s =>
    match descriptor_inosubctx_ s !! watch with
    | None => s
    | Some a =>
        let pd := if inotify_sanity_check s
                  then delete (default "" (contexts s !! a ≫= fun c => descriptor_paths_ c !! watch))
                              (path_descriptors_ s)
                  else path_descriptors_ s in
        with_maps (alter (fun c => set_watches (delete watch (descriptor_paths_ c)) c) a (contexts s)) pd
                  (delete watch (descriptor_inosubctx_ s)) s
    end).

Definition record_watch (watch : Z) (path : string) (isc : Z) : MI unit :=
  modify (fun s =>
    with_maps (alter (fun c => set_watches (<[watch := path]> (descriptor_paths_ c)) c) isc (contexts s))
      (if inotify_sanity_check s then <[path := watch]> (path_descriptors_ s) else path_descriptors_ s)
      (<[watch := isc]> (descriptor_inosubctx_ s)) s).

(** The critical section of [addMonitor]: one watch. *)
Definition add_one (path : string) (isc : Z) (mask : Z) (add_watch : bool) : MI bool :=
  let* h := gets inotify_handle_ in
  let* watch := on_host (inotify_add_watch h (c_str path) (if mask =? 0 then kFileDefaultMasks else mask)) in
  if add_watch && (watch =? -1) then ret false
  else forget_watch watch ;;; record_watch watch path isc ;;; ret true.

Definition addMonitor (path : string) (isc : Z) (mask : Z) (recursive add_watch : bool) : MI bool :=
  let* added := add_one path isc mask add_watch in
  if negb added then ret false
  else
    let* dir := (if recursive then on_host (isDirectory path) else ret (Status1 1)) in
    (if Status_ok dir then
       let* (_, children) := on_host (listDirectoriesInDirectory path [] true) in
       for_each children (fun child =>
         let* canonicalized := on_host (fs_canonical child) in
         let* _ := add_one (canonicalized +:+ "/") isc mask true in ret tt)
     else ret tt) ;;;
    ret true.

Definition removeMonitor (watch : Z) (force batch_del : bool) : MI bool :=
  let* found := gets (fun s => descriptor_inosubctx_ s !! watch) in
  match found with
  | None => ret false
  | Some a =>
      modify (fun s =>
        let pd := if inotify_sanity_check s
                  then delete (default "" (contexts s !! a ≫= fun c => descriptor_paths_ c !! watch))
                              (path_descriptors_ s)
                  else path_descriptors_ s in
        with_maps (if batch_del then contexts s
                   else alter (fun c => set_watches (delete watch (descriptor_paths_ c)) c) a (contexts s))
                  pd (delete watch (descriptor_inosubctx_ s)) s) ;;;
      (if force then
         let* h := gets inotify_handle_ in
         let* _ := on_host (inotify_rm_watch h watch) in ret tt
       else ret tt) ;;;
      ret true
  end.

(** [isc->path_sc_time_[path]] makes an entry when there is none. *)
Definition needMonitoring (path : string) (isc : Z) (add_watch : bool) : MI bool :=
  let* c := deref isc in
  let sc_time := default 0 (path_sc_time_ c !! path) in
  upd_ctx isc (set_sc_time path sc_time) ;;;
  let* st := on_host (stat_ctime (c_str path)) in
  match st with
  | None => ret false
  | Some ctime =>
      if negb (sc_time =? ctime) then
        let* rc := addMonitor path isc (sc_mask c) (sc_recursive c) add_watch in
        (if rc : bool then upd_ctx isc (set_sc_time path ctime) else ret tt) ;;;
        ret rc
      else ret true
  end.

Definition has_star (s : string) : bool := match find_str "*" s with Some _ => true | None => false end.

(** [discovered.back()]; there is no last character of an empty string. *)
Definition back (s : string) : result ascii :=
  match last_char s with Some c => Ok c | None => Throw AssertFailure end.

Definition monitorSubscription (sc : Z) (add_watch : bool) : MI bool :=
  let* c := deref sc in
  let (path, recursive) :=
    match find_str "**" (sc_path c) with
    | Some i => (String.substring 0 i (sc_path c), true)
    | None => (sc_path c, sc_recursive c)
    end in
  upd_ctx sc (set_pattern path recursive (recursive_match c)) ;;;
  let discovered := if has_star path && has_star (path_filename path)
                    then path_parent path +:+ "/" else path in
  if has_star path && has_star discovered then
    let* (_, paths) := on_host (resolveFilePattern discovered [] GLOB_ALL) in
    upd_ctx sc (set_pattern path recursive recursive) ;;;
    for_each paths (fun p => let* _ := needMonitoring p sc add_watch in ret tt) ;;;
    ret true
  else
    let* dir := on_host (isDirectory discovered) in
    let* slash := (if Status_ok dir then
                     let* last := of_result (back discovered) in ret (negb (bool_decide (last = "/"%char)))
                   else ret false) in
    if slash : bool then
      upd_ctx sc (set_pattern (path +:+ "/") recursive (recursive_match c)) ;;;
      needMonitoring (discovered +:+ "/") sc add_watch
    else needMonitoring discovered sc add_watch.

(** ** Configuration *)

Definition exclude_one (excl_path : json) : MI unit :=
  let* pattern := of_result (GetString excl_path) in
  if is_empty pattern then ret tt
  else
    let* l := gets exclude_paths_ in
    let* l := on_host (pathset_insert pattern l) in
    modify (with_excluded l).

Definition buildExcludePathsSet : MI unit :=
  let* data := on_host file_paths_data in
  match data with
  | None => throw AssertFailure
  | Some doc =>
      modify (with_excluded []) ;;;
      let* ms := of_result (GetObject doc) in
      match member "exclude_paths" ms with
      | None => ret tt
      | Some excl =>
          let* categories := of_result (GetObject excl) in
          for_each categories (fun category =>
            let* paths := of_result (GetArray category.2) in
            for_each paths exclude_one)
      end
  end.

Definition is_marked (s : Ino S) (sub : ISub) : bool :=
  match contexts s !! isub_ctx sub with Some c => mark_for_deletion c | None => false end.

(** The watches of a deleted subscription; the order is that of the descriptors. *)
Definition descriptors (m : gmap Z string) : list Z := merge_sort Z.le (elements (dom m)).

Definition drop_subscription (sub : ISub) : MI unit :=
  let* c := deref (isub_ctx sub) in
  for_each (descriptors (descriptor_paths_ c))
           (fun watch => let* _ := removeMonitor watch true true in ret tt) ;;;
  upd_ctx (isub_ctx sub) (set_watches ∅).

Definition inotify_configure : MI unit :=
  let* h := gets inotify_handle_ in
  if h =? -1 then ret tt
  else
    let* delete_subscriptions := gets (fun s => List.filter (is_marked s) (subscriptions_ s)) in
    modify (fun s => with_subs (List.filter (fun sub => negb (is_marked s sub)) (subscriptions_ s)) s) ;;;
    for_each delete_subscriptions drop_subscription ;;;
    buildExcludePathsSet ;;;
    let* subs := gets subscriptions_ in
    for_each subs (fun sub => let* _ := monitorSubscription (isub_ctx sub) true in ret tt).

Definition inotify_tearDown : MI unit :=
  let* h := gets inotify_handle_ in
  (if -1 <? h then on_host (close_handle h) else ret tt) ;;;
  modify (fun s => with_scratch None (with_handle (-1) s)).

Definition inotify_removeSubscriptions (subscriber : string) : MI unit :=
  let* subs := gets subscriptions_ in
  for_each subs (fun sub =>
    if bool_decide (isub_name sub = subscriber) then upd_ctx (isub_ctx sub) (set_mark true) else ret tt).

Fixpoint find_same (received : SubCtx) (cs : gmap Z SubCtx) (subs : list ISub) : option (Z * SubCtx) :=
  match subs with
  | [] => None
  | sub :: subs =>
      match cs !! isub_ctx sub with
      | Some c => if same_subscription received c then Some (isub_ctx sub, c) else find_same received cs subs
      | None => find_same received cs subs
      end
  end.

Definition inotify_addSubscription (subscription : ISub) : MI Status :=
  let* received := deref (isub_ctx subscription) in
  let* found := gets (fun s => find_same received (contexts s) (subscriptions_ s)) in
  match found with
  | Some (a, c) =>
      if mark_for_deletion c then upd_ctx a (set_mark false) ;;; ret (Status1 0)
      else ret (Status1 1)
  | None =>
      modify (fun s => with_subs (subscriptions_ s ++ [subscription]) s) ;;;
      ret (Status1 0)
  end.

Definition isPathMonitored (path : string) : MI bool :=
  let* dir := on_host (isDirectory path) in
  let* pd := gets path_descriptors_ in
  if negb (Status_ok dir) then
    match pd !! path with
    | Some _ => ret true
    | None => ret (bool_decide (is_Some (pd !! (path_parent path +:+ "/"))))
    end
  else ret (bool_decide (is_Some (pd !! path))).

(** ** Events *)

Definition handleOverflow : MI unit :=
  let* n := gets inotify_events_ in
  let* last := gets last_overflow_ in
  if n <? kINotifyMaxEvents then modify (with_overflow last (u64 (n * 2)))
  else
    let* recent := (if negb (last =? -1)
                    then let* now := on_host unix_time in ret (u64 (now - last) <? 60)
                    else ret false) in
    if recent : bool then ret tt
    else let* now := on_host unix_time in modify (with_overflow (i32 now) n).

Definition event_action (mask : Z) : string :=
  match List.find (fun a => has_bit mask a.1) kMaskActions with Some a => a.2 | None => "" end.

Definition createEventContextFrom (event : inotify_event) : MI EventCtx :=
  let* owner := gets (fun s => descriptor_inosubctx_ s !! ev_wd event) in
  match owner with
  | None => ret (mkEventCtx event "" "" None)
  | Some a =>
      let* isc := deref a in
      match descriptor_paths_ isc !! ev_wd event with
      | None => throw (OutOfRange "map::at")
      | Some path =>
          let path := if 1 <? ev_len event then path +:+ c_str (ev_bytes event) else path in
          ret (mkEventCtx event path (event_action (ev_mask event)) (Some a))
      end
  end.

(** [path.substr(0, path.rfind('/'))]: the whole path when there is no slash. *)
Fixpoint before_last_slash (s : string) : option string :=
  match s with
  | "" => None
  | String c r =>
      match before_last_slash r with
      | Some p => Some (String c p)
      | None => if bool_decide (c = "/"%char) then Some "" else None
      end
  end.
Definition directory_part (s : string) : string := default s (before_last_slash s).

Definition excluded (l : list Path) (path : string) : result bool :=
  if bool_decide (l = []) then Ok false
  else match pathset_find (directory_part path) l with
       | Ok true => Ok true
       | Ok false => pathset_find path l
       | Throw e => Throw e
       end.

Definition inotify_shouldFire (sc : Z) (ec : EventCtx) : MI bool :=
  if negb (bool_decide (ec_isub ec = Some sc)) then ret false
  else
    let* c := deref sc in
    if negb (sc_mask c =? 0) && negb (has_bit (ev_mask (ec_event ec)) (sc_mask c)) then ret false
    else
      let* dir := (if sc_recursive c && bool_decide (ec_action ec = "CREATED")
                   then on_host (isDirectory (ec_path ec)) else ret (Status1 1)) in
      (if Status_ok dir
       then let* _ := addMonitor (ec_path ec +:+ "/") sc (sc_mask c) true true in ret tt
       else ret tt) ;;;
      let* l := gets exclude_paths_ in
      let* out := of_result (excluded l (ec_path ec)) in
      ret (negb out).

(** The rest of [fire]: the publisher is not ending, the subscriber of a name runs, and
    the callback of the subscription. *)
Context (isEnding : MI bool) (running : string -> MI bool).
Context (callback : ISub -> EventCtx -> MI unit).

Definition inotify_fire (ec : EventCtx) : MI unit :=
  let* ending := isEnding in
  if ending : bool then ret tt
  else
    let* subs := gets subscriptions_ in
    for_each subs (fun sub =>
      let* up := running (isub_name sub) in
      if up : bool then
        let* should := inotify_shouldFire (isub_ctx sub) ec in
        if should : bool then callback sub ec else ret tt
      else ret tt).

Definition handle_event (event : inotify_event) : MI unit :=
  let mask := ev_mask event in
  if has_bit mask IN_Q_OVERFLOW then handleOverflow
  else if has_bit mask IN_IGNORED then let* _ := removeMonitor (ev_wd event) false false in ret tt
  else if has_bit mask IN_MOVE_SELF then let* _ := removeMonitor (ev_wd event) true false in ret tt
  else if has_bit mask IN_DELETE_SELF then let* _ := removeMonitor (ev_wd event) false false in ret tt
  else
    let* ec := createEventContextFrom event in
    if is_empty (ec_action ec) then ret tt else inotify_fire ec.

(** [int] and [uint32_t] fields of the header, little endian. *)
Definition byte_at (s : string) (i : nat) : option Z :=
  (fun c => Z.of_N (Ascii.N_of_ascii c)) <$> String.get i s.

Definition field (s : string) (i : nat) : option Z :=
  match byte_at s i, byte_at s (i + 1), byte_at s (i + 2), byte_at s (i + 3) with
  | Some a, Some b, Some c, Some d => Some (a + 256 * (b + 256 * (c + 256 * d)))
  | _, _, _, _ => None
  end.

(** The event at an offset of the scratch space; [None] is past its end. *)
Definition event_at (scratch : string) (p : nat) : option inotify_event :=
  match field scratch p, field scratch (p + 4), field scratch (p + 8), field scratch (p + 12) with
  | Some wd, Some mask, Some cookie, Some len =>
      Some (mkEvent (i32 wd) mask cookie len (String.substring (p + 16) (Z.to_nat len) scratch))
  | _, _, _, _ => None
  end.

Fixpoint event_loop (fuel : nat) (p record_num : nat) : MI unit :=
  if (record_num <=? p)%nat then ret tt
  else
    match fuel with
    | O => throw AssertFailure
    | Datatypes.S fuel =>
        let* scratch := gets scratch_ in
        match scratch ≫= fun b => event_at b p with
        | None => throw AssertFailure
        | Some event =>
            handle_event event ;;;
            event_loop fuel (p + 16 + Z.to_nat (ev_len event)) record_num
        end
    end.

(** What [read] leaves in the scratch space. *)
Definition overwrite (data old : string) : string :=
  data +:+ String.substring (String.length data) (String.length old) old.

Definition inotify_run : MI Status :=
  let* h := gets inotify_handle_ in
  let* (selector, err, pollin) := on_host (poll_handle h) in
  if selector =? -1 then
    ret (if err =? EINTR then mkStatus 0 "inotify poll interrupted" else mkStatus 1 "inotify poll failed")
  else if selector =? 0 then ret (mkStatus 0 "Continue")
  else if negb pollin then ret (mkStatus 0 "Invalid poll response")
  else
    let* n := gets inotify_events_ in
    let* data := on_host (read_handle h (u64 (n * kINotifyEventSize))) in
    if is_empty data then ret (mkStatus 1 "INotify read failed")
    else
      modify (fun s => with_scratch (overwrite data <$> scratch_ s) s) ;;;
      event_loop (String.length data) 0 (String.length data) ;;;
      ret (mkStatus 0 "OK").
End Publisher.

(** ** The subscriber of file_events *)

Section FileEvents.
Context {S : Type} {P : Posix S} {B : Boost} {K : Kernel S}.
Abbreviation MI := (M (Ino S)).

(** An address for a new object. *)
Context (fresh_address : gmap Z SubCtx -> Z).
Context (subscriber : string).
(** The files of the configuration by category. *)
Context (files : MI (list (string * list string))).

Definition createSubscriptionContext (file category : string) (mask : Z) : MI Z :=
  fun s => let a := fresh_address (contexts s) in
    (Ok a, with_contexts (<[a := mkSubCtx file file mask false category false false ∅ ∅]> (contexts s)) s).

(** Whether a category is one of the access categories; the loop stops at the first. *)
Fixpoint is_access (items : list json) (category : string) : result bool :=
  match items with
  | [] => Ok false
  | item :: items =>
      match GetString item with
      | Throw e => Throw e
      | Ok s => if bool_decide (s = category) then Ok true else is_access items category
      end
  end.

Definition FileEventSubscriber_configure : MI unit :=
  inotify_removeSubscriptions subscriber ;;;
  let* data := on_host file_paths_data in
  match data with
  | None => throw AssertFailure
  | Some doc =>
      let* ms := of_result (GetObject doc) in
      match member "file_accesses" ms with
      | None => throw AssertFailure
      | Some accesses =>
          let* files := files in
          for_each files (fun '(category, paths) =>
            for_each paths (fun file =>
              let* items := of_result (GetArray accesses) in
              let* access := of_result (is_access items category) in
              let mask := if access : bool then Z.lor kFileDefaultMasks kFileAccessMasks else kFileDefaultMasks in
              let* sc := createSubscriptionContext file category mask in
              let* _ := inotify_addSubscription (mkISub subscriber sc) in ret tt))
      end
  end.

(** The row of an event before it is decorated, and whether the file is hashed. *)
Definition event_row (ec : EventCtx) (sc : SubCtx) : Row :=
  list_to_map [("action", ec_action ec); ("target_path", ec_path ec); ("category", sc_category sc);
               ("transaction_id", to_string (ev_cookie (ec_event ec)))].

Definition event_hashed (ec : EventCtx) (sc : SubCtx) : bool :=
  if negb (Z.land (sc_mask sc) kFileAccessMasks =? kFileAccessMasks)
  then bool_decide (ec_action ec = "CREATED") || bool_decide (ec_action ec = "UPDATED")
  else false.

Context (decorateFileEvent : string -> bool -> Row -> MI Row) (add : Row -> MI Status).

Definition FileEventSubscriber_Callback (ec : EventCtx) (sc : SubCtx) : MI Status :=
  if is_empty (ec_action ec) then ret (Status1 0)
  else
    let* r := decorateFileEvent (ec_path ec) (event_hashed ec sc) (event_row ec sc) in
    let* _ := add r in
    ret (mkStatus 0 "OK").
End FileEvents.

(** * The inotify publisher: every watch has one owner

    The table from watches to contexts and the tables inside the contexts agree in every
    state the publisher reaches, so that an event is always attributed to one path and
    one subscription; reads fit the buffer; the events of a read are handled once and in
    order; a configuration that names the same files again changes no subscription. *)
Local Open Scope Z_scope.

Section Publisher.
Context {S : Type} {P : Posix S} {B : Boost} {K : Kernel S}.
Abbreviation MI := (M (Ino S)).

(** ** The invariant *)

Definition owned (cs : gmap Z SubCtx) (watch a : Z) : Prop :=
  exists c, cs !! a = Some c /\ is_Some (descriptor_paths_ c !! watch).

(** The owner of a watch is the one context that has a path for it. *)
Definition agree (s : Ino S) : Prop :=
  forall watch a, descriptor_inosubctx_ s !! watch = Some a <-> owned (contexts s) watch a.

(** The number of events read at once: it doubles from 16 to 512. *)
Definition fits (n : Z) : Prop := exists k, 4 <= k <= 9 /\ n = 2 ^ k.

Record good (D : gset Z) (b : option string) (s : Ino S) : Prop := {
  good_agree : agree s;
  good_dom : D ⊆ dom (contexts s);
  good_subs : forall sub, sub ∈ subscriptions_ s -> isub_ctx sub ∈ D;
  good_fits : fits (inotify_events_ s);
  good_scratch : scratch_ s = b;
}.

Lemma good_host D b h s : good D b s -> good D b (with_host h s).
Proof. by intros []. Qed.

Lemma keeps_host D b {A} (m : M S A) : keeps (good D b) (on_host m).
Proof. apply keeps_zoom. intros. by apply good_host. Qed.
#[local] Hint Resolve keeps_host : keeps.

Lemma good_excluded D b l s : good D b s -> good D b (with_excluded l s).
Proof. by intros []. Qed.

Lemma dom_alter_ctx (f : SubCtx -> SubCtx) a (cs : gmap Z SubCtx) : dom (alter f a cs) = dom cs.
Proof. apply dom_alter_L. Qed.

(** ** Changes of one context *)

Lemma owned_alter_same (f : SubCtx -> SubCtx) a cs watch x :
  (forall c, descriptor_paths_ (f c) = descriptor_paths_ c) ->
  owned (alter f a cs) watch x <-> owned cs watch x.
Proof.
  intros Hf. unfold owned. destruct (decide (x = a)) as [->|Hx].
  - rewrite lookup_alter_eq. destruct (cs !! a) as [c|]; simpl; [|naive_solver].
    split; intros (c' & [= <-] & H); eexists; (split; [done|]); [by rewrite Hf in H | by rewrite Hf].
  - by rewrite lookup_alter_ne by done.
Qed.

Lemma keeps_upd_ctx D b a f :
  (forall c, descriptor_paths_ (f c) = descriptor_paths_ c) -> keeps (good D b) (upd_ctx a f).
Proof.
  intros Hf. apply keeps_modify. intros s [Ha Hd Hs Hn Hb].
  split; [|simpl; by rewrite dom_alter_ctx|done..].
  intros watch x. etransitivity; [apply Ha|]. symmetry. by apply owned_alter_same.
Qed.
#[local] Hint Extern 1 (keeps _ (upd_ctx _ _)) => (apply keeps_upd_ctx; done) : keeps.

Lemma keeps_deref D b a : keeps (good D b) (deref a).
Proof. intros s Hs. unfold post, deref. by destruct (contexts s !! a). Qed.
#[local] Hint Resolve keeps_deref : keeps.

Lemma owned_delete a cs watch w x :
  owned (alter (fun c => set_watches (delete watch (descriptor_paths_ c)) c) a cs) w x
  <-> owned cs w x /\ (w <> watch \/ x <> a).
Proof.
  unfold owned. destruct (decide (x = a)) as [->|Hx].
  - rewrite lookup_alter_eq. destruct (cs !! a) as [c|]; simpl; [|naive_solver].
    destruct (decide (w = watch)) as [->|Hw].
    + split; [intros (c' & [= <-] & H) | naive_solver]. simpl in H. rewrite lookup_delete_eq in H.
      by destruct H.
    + split.
      * intros (c' & [= <-] & H). simpl in H. rewrite lookup_delete_ne in H by done. split; [by exists c|by left].
      * intros [(c' & [= <-] & H) _]. eexists; split; [done|]. simpl. by rewrite lookup_delete_ne.
  - rewrite lookup_alter_ne by done. naive_solver.
Qed.

Lemma forget_good D b watch s : good D b s ->
  good D b (forget_watch watch s).2 /\ descriptor_inosubctx_ (forget_watch watch s).2 !! watch = None.
Proof.
  intros [Ha Hd Hs Hn Hb]. unfold forget_watch, modify. cbn [snd].
  destruct (descriptor_inosubctx_ s !! watch) as [a|] eqn:E; [|by split].
  split; [|simpl; apply lookup_delete_eq].
  split; [|simpl; by rewrite dom_alter_ctx|done..].
  intros w x. cbn [descriptor_inosubctx_ contexts with_maps]. rewrite owned_delete, <- (Ha w x).
  destruct (decide (w = watch)) as [->|Hw].
  - rewrite lookup_delete_eq, E. naive_solver.
  - rewrite lookup_delete_ne by done. naive_solver.
Qed.

Lemma owned_insert a cs watch path w x : is_Some (cs !! a) ->
  owned (alter (fun c => set_watches (<[watch := path]> (descriptor_paths_ c)) c) a cs) w x
  <-> owned cs w x \/ (w = watch /\ x = a).
Proof.
  intros [c Hc]. unfold owned. destruct (decide (x = a)) as [->|Hx].
  - rewrite lookup_alter_eq, Hc. simpl. destruct (decide (w = watch)) as [->|Hw].
    + split; [by right|]. intros _. eexists; split; [done|]. simpl. by rewrite lookup_insert_eq.
    + split.
      * intros (c' & [= <-] & H). simpl in H. rewrite lookup_insert_ne in H by done. left. by exists c.
      * intros [(c' & [= <-] & H)|[? _]]; [|done]. eexists; split; [done|]. simpl. by rewrite lookup_insert_ne.
  - rewrite lookup_alter_ne by done. naive_solver.
Qed.

Lemma record_good D b watch path a s :
  good D b s -> descriptor_inosubctx_ s !! watch = None -> a ∈ D ->
  good D b (record_watch watch path a s).2.
Proof.
  intros [Ha Hd Hs Hn Hb] Hw HaD. unfold record_watch, modify. cbn [snd].
  split; [|simpl; by rewrite dom_alter_ctx|done..].
  assert (is_Some (contexts s !! a)) as HS by (apply elem_of_dom; set_solver).
  intros w x. cbn [descriptor_inosubctx_ contexts with_maps]. rewrite owned_insert, <- (Ha w x) by done.
  destruct (decide (w = watch)) as [->|Hne].
  - rewrite lookup_insert_eq, Hw. naive_solver.
  - rewrite lookup_insert_ne by done. naive_solver.
Qed.

(** ** Operations on watches *)

Lemma keeps_take D b watch path a : a ∈ D ->
  keeps (good D b) (forget_watch watch ;;; record_watch watch path a ;;; ret true).
Proof.
  intros HD s Hs. destruct (forget_good D b watch s Hs) as [H1 H2].
  apply post_bind. unfold post. by apply record_good.
Qed.
#[local] Hint Resolve keeps_take : keeps.

Lemma keeps_add_one D b path a mask add : a ∈ D -> keeps (good D b) (add_one path a mask add).
Proof. intros HD. unfold add_one. keep. Qed.
#[local] Hint Resolve keeps_add_one : keeps.

Lemma keeps_addMonitor D b path a mask rec add : a ∈ D -> keeps (good D b) (addMonitor path a mask rec add).
Proof. intros HD. unfold addMonitor. keep. Qed.
#[local] Hint Resolve keeps_addMonitor : keeps.

Lemma keeps_removeMonitor D b watch force : keeps (good D b) (removeMonitor watch force false).
Proof.
  unfold removeMonitor. intros s Hs. apply post_bind. unfold post at 1, gets.
  destruct (descriptor_inosubctx_ s !! watch) as [a|] eqn:E; [|done].
  apply post_bind. unfold post at 1, modify.
  pose proof (forget_good D b watch s Hs) as [H _]. unfold forget_watch, modify in H. rewrite E in H. cbn [snd] in H.
  revert H. generalize (with_maps (alter (fun c => set_watches (delete watch (descriptor_paths_ c)) c) a (contexts s))
    (if inotify_sanity_check s then delete (default "" (contexts s !! a ≫= fun c => descriptor_paths_ c !! watch))
        (path_descriptors_ s) else path_descriptors_ s) (delete watch (descriptor_inosubctx_ s)) s).
  intros s' Hs'. revert s' Hs'. change (keeps (good D b) ((if force then
         let* h := gets inotify_handle_ in
         let* _ := on_host (inotify_rm_watch h watch) in ret tt
       else ret tt) ;;; ret true)). keep.
Qed.
#[local] Hint Resolve keeps_removeMonitor : keeps.

Lemma keeps_needMonitoring D b path a add : a ∈ D -> keeps (good D b) (needMonitoring path a add).
Proof. intros HD. unfold needMonitoring. keep. Qed.
#[local] Hint Resolve keeps_needMonitoring : keeps.

Lemma keeps_monitorSubscription D b a add : a ∈ D -> keeps (good D b) (monitorSubscription a add).
Proof. intros HD. unfold monitorSubscription. keep. Qed.
#[local] Hint Resolve keeps_monitorSubscription : keeps.

Lemma keeps_buildExclude D b : keeps (good D b) buildExcludePathsSet.
Proof.
  unfold buildExcludePathsSet, exclude_one. keep; apply keeps_modify; intros; by apply good_excluded.
Qed.
#[local] Hint Resolve keeps_buildExclude : keeps.

(** ** Dropping a subscription *)

Lemma elem_of_descriptors w (m : gmap Z string) : w ∈ descriptors m <-> is_Some (m !! w).
Proof. unfold descriptors. by rewrite merge_sort_Permutation, elem_of_elements, elem_of_dom. Qed.

(** Everything but the table of watches stays. *)
Definition frame (s s' : Ino S) : Prop :=
  contexts s' = contexts s /\ subscriptions_ s' = subscriptions_ s /\
  inotify_events_ s' = inotify_events_ s /\ scratch_ s' = scratch_ s.

Lemma frame_trans s1 s2 s3 : frame s1 s2 -> frame s2 s3 -> frame s1 s3.
Proof. unfold frame. intuition congruence. Qed.

Lemma remove_batch_one watch s :
  post (let* _ := removeMonitor watch true true in ret tt)
    (fun _ s' => frame s s' /\
       descriptor_inosubctx_ s' = delete watch (descriptor_inosubctx_ s)) s.
Proof.
  unfold post, removeMonitor, bind, gets, modify, ret.
  destruct (descriptor_inosubctx_ s !! watch) as [a|] eqn:E.
  2: { split; [done|]. by rewrite delete_id. }
  unfold on_host, zoom. by destruct (inotify_rm_watch _ _ _) as [[r|e] h].
Qed.

Lemma remove_batch l s :
  post (for_each l (fun watch => let* _ := removeMonitor watch true true in ret tt))
    (fun _ s' => frame s s' /\ forall w, descriptor_inosubctx_ s' !! w =
       if decide (w ∈ l) then None else descriptor_inosubctx_ s !! w) s.
Proof.
  revert s. induction l as [|x l IH]; intros s; cbn [for_each].
  { unfold post, ret. split; [done|]. intros w. by rewrite decide_False by apply not_elem_of_nil. }
  apply post_bind. eapply post_mono; [apply remove_batch_one|]. intros _ s1 [F1 E1].
  eapply post_mono; [apply IH|]. intros _ s2 [F2 E2]. split; [by eapply frame_trans|].
  intros w. rewrite E2, E1. destruct (decide (w ∈ l)) as [Hl|Hl].
  { by rewrite decide_True by by right. }
  destruct (decide (w = x)) as [->|Hx].
  - rewrite lookup_delete_eq. by rewrite decide_True by left.
  - rewrite lookup_delete_ne by done. by rewrite decide_False by (rewrite elem_of_cons; tauto).
Qed.

Lemma owned_clear a cs w x : owned (alter (set_watches ∅) a cs) w x <-> owned cs w x /\ x <> a.
Proof.
  unfold owned. destruct (decide (x = a)) as [->|Hx].
  - rewrite lookup_alter_eq. destruct (cs !! a) as [c|]; simpl; [|naive_solver].
    split; [|naive_solver]. intros (c' & [= <-] & [? H]). simpl in H. by rewrite lookup_empty in H.
  - rewrite lookup_alter_ne by done. naive_solver.
Qed.

Lemma keeps_drop D b sub : keeps (good D b) (drop_subscription sub).
Proof.
  intros s Hs. unfold drop_subscription. apply post_bind. unfold post at 1, deref.
  destruct (contexts s !! isub_ctx sub) as [c|] eqn:E; [|done].
  apply post_bind. eapply post_mono; [apply remove_batch|]. intros _ s' [(Fc & Fs & Fn & Fb) Hw].
  destruct Hs as [Ha Hd Hu Hn Hb]. unfold post, upd_ctx, modify.
  split; cbn [contexts with_contexts with_maps subscriptions_ inotify_events_ scratch_].
  2: by rewrite dom_alter_ctx, Fc.
  2: by rewrite Fs.
  2: by rewrite Fn.
  2: by rewrite Fb.
  intros w x. cbn [descriptor_inosubctx_ contexts with_contexts with_maps].
  rewrite owned_clear, Fc, <- (Ha w x), Hw.
  destruct (decide (w ∈ descriptors (descriptor_paths_ c))) as [Hin|Hout].
  - apply elem_of_descriptors in Hin. assert (descriptor_inosubctx_ s !! w = Some (isub_ctx sub)) as ->.
    { apply Ha. by exists c. }
    naive_solver.
  - split; [|tauto]. intros Hx. split; [done|]. intros ->. apply Hout, elem_of_descriptors.
    apply Ha in Hx as (c' & Hc & Hsome). congruence.
Qed.
#[local] Hint Resolve keeps_drop : keeps.

(** A loop over the subscriptions of the state. *)
Lemma keeps_over_subs D b (f : ISub -> MI unit) :
  (forall sub, isub_ctx sub ∈ D -> keeps (good D b) (f sub)) ->
  keeps (good D b) (let* subs := gets subscriptions_ in for_each subs f).
Proof.
  intros Hf s Hs. apply post_bind. unfold post at 1, gets.
  eapply (keeps_for_each (good D b)); [|done]. intros sub Hin. apply Hf. by apply (good_subs D b s Hs).
Qed.

Lemma keeps_monitor_all D b :
  keeps (good D b) (let* subs := gets subscriptions_ in
                    for_each subs (fun sub => let* _ := monitorSubscription (isub_ctx sub) true in ret tt)).
Proof. apply keeps_over_subs. keep. Qed.
#[local] Hint Resolve keeps_monitor_all : keeps.

Lemma keeps_inotify_configure D b : keeps (good D b) inotify_configure.
Proof.
  unfold inotify_configure. keep.
  apply keeps_modify. intros s [Ha Hd Hs Hn Hb]. split; [done..| |done|done].
  intros sub Hin. apply Hs. cbn in Hin. apply list_elem_of_In, filter_In in Hin as [Hin _].
  by apply list_elem_of_In.
Qed.
#[local] Hint Resolve keeps_inotify_configure : keeps.

Lemma keeps_removeSubscriptions D b name : keeps (good D b) (inotify_removeSubscriptions name).
Proof. apply keeps_over_subs. keep. Qed.

Lemma fits_double n : fits n -> n < kINotifyMaxEvents -> fits (u64 (n * 2)).
Proof.
  unfold kINotifyMaxEvents. intros (k & Hk & ->) Hlt.
  assert (k <> 9) by (intros ->; vm_compute in Hlt; discriminate).
  exists (k + 1). split; [lia|]. unfold u64. rewrite Z.pow_add_r, Z.pow_1_r by lia.
  apply Z.mod_small. assert (2 ^ k <= 2 ^ 9) by (apply Z.pow_le_mono_r; lia). lia.
Qed.

Lemma keeps_with_overflow D b t n : fits n -> keeps (good D b) (modify (with_overflow t n)).
Proof. intros Hn. apply keeps_modify. by intros s []. Qed.

Lemma keeps_overflow D b : keeps (good D b) handleOverflow.
Proof.
  unfold handleOverflow. apply (keeps_bind_dep _ _ _ fits); [by intros s []|]. intros n Hn.
  apply keeps_bind; [keep|]. intros last. destruct (Z.ltb_spec n kINotifyMaxEvents).
  - by apply keeps_with_overflow, fits_double.
  - keep. by apply keeps_with_overflow.
Qed.
#[local] Hint Resolve keeps_overflow : keeps.

(** ** Events *)

(** Every event gets a context: the path of its watch is always there. *)
Lemma event_context_total D b event s :
  good D b s -> exists ec, createEventContextFrom event s = (Ok ec, s) /\
    forall a, ec_isub ec = Some a -> descriptor_inosubctx_ s !! ev_wd event = Some a.
Proof.
  intros [Ha _ _ _ _]. unfold createEventContextFrom, bind, gets.
  destruct (descriptor_inosubctx_ s !! ev_wd event) as [a|] eqn:E; [|by eexists].
  apply Ha in E as (c & Hc & [path Hp]). unfold deref. rewrite Hc, Hp.
  eexists; split; [done|]. simpl. congruence.
Qed.

Lemma keeps_context D b event : keeps (good D b) (createEventContextFrom event).
Proof.
  intros s Hs. destruct (event_context_total D b event s Hs) as (ec & E & _). unfold post. by rewrite E.
Qed.
#[local] Hint Resolve keeps_context : keeps.

Lemma keeps_shouldFire D b a ec : a ∈ D -> keeps (good D b) (inotify_shouldFire a ec).
Proof. intros HD. unfold inotify_shouldFire. keep. Qed.
#[local] Hint Resolve keeps_shouldFire : keeps.

(** The subscribers may do anything but touch the publisher. *)
Context (isEnding : MI bool) (running : string -> MI bool).
Context (callback : ISub -> EventCtx -> MI unit).
Context (ending_keeps : forall D b, keeps (good D b) isEnding).
Context (running_keeps : forall D b name, keeps (good D b) (running name)).
Context (callback_keeps : forall D b sub ec, keeps (good D b) (callback sub ec)).

Abbreviation fire := (inotify_fire isEnding running callback).
Abbreviation handle := (handle_event isEnding running callback).
Abbreviation loop := (event_loop isEnding running callback).
Abbreviation run := (inotify_run isEnding running callback).

Lemma keeps_fire D b ec : keeps (good D b) (fire ec).
Proof.
  unfold inotify_fire. apply keeps_bind; [done|]. intros e. apply keeps_if; [keep|].
  apply keeps_over_subs. intros sub HD. apply keeps_bind; [done|]. keep.
Qed.
#[local] Hint Resolve keeps_fire : keeps.

Lemma keeps_handle D b event : keeps (good D b) (handle event).
Proof. unfold handle_event. keep. Qed.
#[local] Hint Resolve keeps_handle : keeps.

Lemma keeps_loop D b fuel p n : keeps (good D b) (loop fuel p n).
Proof. revert p. induction fuel as [|fuel IH]; intros p; cbn [event_loop]; keep. Qed.
#[local] Hint Resolve keeps_loop : keeps.
(** ** Reachable states *)

Definition sound (D : gset Z) (s : Ino S) : Prop := exists b, good D b s.

Lemma keeps_sound D {A} (m : MI A) : (forall b, keeps (good D b) m) -> keeps (sound D) m.
Proof.
  intros H s [b Hs]. eapply post_mono; [by apply (H b)|]. intros a s' Hs'. by exists b.
Qed.

Lemma sound_scratch D b s : sound D s -> sound D (with_scratch b s).
Proof. intros [b' []]. by exists b. Qed.

Lemma keeps_inotify_run D : keeps (sound D) run.
Proof.
  unfold inotify_run. keep; try (apply keeps_sound; intros; auto with keeps; fail).
  apply keeps_modify. intros. by apply sound_scratch.
Qed.

Lemma keeps_setUp D : keeps (sound D) inotify_setUp.
Proof.
  unfold inotify_setUp. keep; try (apply keeps_sound; intros; auto with keeps; fail);
    apply keeps_modify; intros s [b []]; by eexists.
Qed.

Lemma keeps_tearDown D : keeps (sound D) inotify_tearDown.
Proof.
  unfold inotify_tearDown. keep; try (apply keeps_sound; intros; auto with keeps; fail);
    apply keeps_modify; intros s [b []]; by eexists.
Qed.

Context (fresh_address : gmap Z SubCtx -> Z).
Context (fresh_is_new : forall cs, cs !! fresh_address cs = None).

(** What happens to the publisher, in any order: a subscriber creates a context, it is
    subscribed or all subscriptions of a subscriber are dropped, the publisher is set
    up, configured, run and torn down, and the rest of the host moves on. *)
Inductive ino_step : Ino S -> Ino S -> Prop :=
  | step_context file category mask s a s' :
      createSubscriptionContext fresh_address file category mask s = (Ok a, s') -> ino_step s s'
  | step_add sub s st s' : inotify_addSubscription sub s = (Ok st, s') -> ino_step s s'
  | step_remove name s s' : inotify_removeSubscriptions name s = (Ok tt, s') -> ino_step s s'
  | step_setUp s st s' : inotify_setUp s = (Ok st, s') -> ino_step s s'
  | step_configure s s' : inotify_configure s = (Ok tt, s') -> ino_step s s'
  | step_run s st s' : run s = (Ok st, s') -> ino_step s s'
  | step_tearDown s s' : inotify_tearDown s = (Ok tt, s') -> ino_step s s'
  | step_host s h : ino_step s (with_host h s).

Lemma context_sound D s file category mask a s' :
  sound D s -> createSubscriptionContext fresh_address file category mask s = (Ok a, s') ->
  sound ({[a]} ∪ D) s'.
Proof.
  intros [b [Ha Hd Hs Hn Hb]] [= <- <-]. exists b. pose proof (fresh_is_new (contexts s)) as Hf.
  split; cbn [contexts with_contexts with_maps subscriptions_ inotify_events_ scratch_]; try done.
  - intros w x. cbn [descriptor_inosubctx_ contexts with_contexts with_maps]. etransitivity; [apply Ha|].
    unfold owned. destruct (decide (x = fresh_address (contexts s))) as [->|Hx].
    + rewrite lookup_insert_eq, Hf. split; [naive_solver|]. intros (c & [= <-] & [p Hp]). simpl in Hp.
      by rewrite lookup_empty in Hp.
    + by rewrite lookup_insert_ne by done.
  - rewrite dom_insert. set_solver.
  - intros sub Hin. apply elem_of_union_r. by apply Hs.
Qed.

Lemma sound_weaken D s : sound D s -> sound (dom (contexts s)) s.
Proof.
  intros [b [Ha Hd Hs Hn Hb]]. exists b. split; [done..| |done|done].
  intros sub Hin. apply Hd. by apply Hs.
Qed.

Lemma add_sound s sub st s' :
  sound (dom (contexts s)) s -> inotify_addSubscription sub s = (Ok st, s') -> sound (dom (contexts s)) s'.
Proof.
  intros Hs E. unfold inotify_addSubscription in E. run_step E as c s1 E1.
  unfold deref in E1. destruct (contexts s !! isub_ctx sub) as [c'|] eqn:Ec; [|done]. injection E1 as <- <-.
  run_step E as o s2 E2. injection E2 as <- <-.
  destruct (find_same c' (contexts s) (subscriptions_ s)) as [[a x]|].
  - destruct (mark_for_deletion x); [|by injection E as <- <-].
    run_step E as u s3 E3. injection E as <- <-.
    eapply (Keeps.keeps_run (sound (dom (contexts s)))); [|exact Hs|exact E3]. apply keeps_sound. intros. by apply keeps_upd_ctx.
  - run_step E as u s3 E3. injection E as <- <-. unfold modify in E3. simplify_eq.
    destruct Hs as [b [Ha Hd Hu Hn Hb]]. exists b. split; [done..| |done|done].
    cbn [subscriptions_ with_subs]. intros sub' [Hin|Hin%list_elem_of_singleton]%elem_of_app; [by apply Hu|].
    subst sub'. apply elem_of_dom. by exists c'.
Qed.

Lemma step_sound s s' : sound (dom (contexts s)) s -> ino_step s s' -> sound (dom (contexts s')) s'.
Proof.
  intros Hs Hstep. destruct Hstep.
  - eapply sound_weaken, context_sound; done.
  - eapply sound_weaken, add_sound; done.
  - eapply sound_weaken, Keeps.keeps_run; [|exact Hs|done]. apply keeps_sound. intros. apply keeps_removeSubscriptions.
  - eapply sound_weaken, Keeps.keeps_run; [apply keeps_setUp|exact Hs|done].
  - eapply sound_weaken, Keeps.keeps_run; [|exact Hs|done]. apply keeps_sound. intros. apply keeps_inotify_configure.
  - eapply sound_weaken, Keeps.keeps_run; [apply keeps_inotify_run|exact Hs|done].
  - eapply sound_weaken, Keeps.keeps_run; [apply keeps_tearDown|exact Hs|done].
  - destruct Hs as [b Hs]. exists b. by apply good_host.
Qed.
End Publisher.

(** ** The bytes of events *)

Definition le_byte (z : Z) : ascii := Ascii.ascii_of_N (Z.to_N (z mod 256)).
Definition le32 (z : Z) : string :=
  String (le_byte z) (String (le_byte (z / 256)) (String (le_byte (z / 256 / 256))
    (String (le_byte (z / 256 / 256 / 256)) ""))).

Definition encode_event (e : inotify_event) : string :=
  le32 (u32 (ev_wd e)) +:+ le32 (ev_mask e) +:+ le32 (ev_cookie e) +:+ le32 (ev_len e) +:+ ev_bytes e.

Record wf_event (e : inotify_event) : Prop := {
  wf_wd : - 2 ^ 31 <= ev_wd e < 2 ^ 31;
  wf_mask : 0 <= ev_mask e < 2 ^ 32;
  wf_cookie : 0 <= ev_cookie e < 2 ^ 32;
  wf_len : ev_len e = Z.of_nat (String.length (ev_bytes e));
  wf_short : ev_len e < 2 ^ 32;
}.

Lemma byte_le z : Z.of_N (Ascii.N_of_ascii (le_byte z)) = z mod 256.
Proof.
  unfold le_byte. pose proof (Z.mod_pos_bound z 256 ltac:(lia)).
  rewrite Ascii.N_ascii_embedding by lia. by rewrite Z2N.id by lia.
Qed.

Lemma le32_value z : 0 <= z < 2 ^ 32 ->
  z mod 256 + 256 * (z / 256 mod 256 + 256 * (z / 256 / 256 mod 256 + 256 * (z / 256 / 256 / 256 mod 256))) = z.
Proof. intros Hz. Z.to_euclidean_division_equations. lia. Qed.

Lemma field_le32 p z rest : 0 <= z < 2 ^ 32 ->
  field (p +:+ le32 z +:+ rest) (String.length p) = Some z.
Proof.
  intros Hz. unfold field, byte_at.
  rewrite <- (Nat.add_0_r (String.length p)) at 1.
  rewrite !get_app_r. change (le32 z +:+ rest) with
    (String (le_byte z) (String (le_byte (z / 256)) (String (le_byte (z / 256 / 256))
      (String (le_byte (z / 256 / 256 / 256)) rest)))).
  cbn [String.get fmap option_fmap option_map]. rewrite !byte_le. by rewrite le32_value.
Qed.

Lemma i32_u32 z : - 2 ^ 31 <= z < 2 ^ 31 -> i32 (u32 z) = z.
Proof. intros Hz. unfold i32, u32. Z.to_euclidean_division_equations. lia. Qed.

Lemma u32_range z : 0 <= u32 z < 2 ^ 32.
Proof. unfold u32. apply Z.mod_pos_bound. lia. Qed.

Lemma field_at q z rest s n : 0 <= z < 2 ^ 32 ->
  s = q +:+ le32 z +:+ rest -> n = String.length q -> field s n = Some z.
Proof. intros Hz -> ->. by apply field_le32. Qed.

Lemma event_at_encoded p e rest :
  wf_event e -> event_at (p +:+ encode_event e +:+ rest) (String.length p) = Some e.
Proof.
  intros [H1 H2 H3 H4 H5]. unfold event_at, encode_event. rewrite !app_assoc_str.
  assert (forall z, String.length (le32 z) = 4%nat) as L by done.
  rewrite (field_at p (u32 (ev_wd e)) (le32 (ev_mask e) +:+ le32 (ev_cookie e) +:+ le32 (ev_len e) +:+ ev_bytes e +:+ rest));
    [|apply u32_range|done..].
  rewrite (field_at (p +:+ le32 (u32 (ev_wd e))) (ev_mask e) (le32 (ev_cookie e) +:+ le32 (ev_len e) +:+ ev_bytes e +:+ rest));
    [|done|by rewrite app_assoc_str|rewrite length_app_str, L; lia].
  rewrite (field_at (p +:+ le32 (u32 (ev_wd e)) +:+ le32 (ev_mask e)) (ev_cookie e) (le32 (ev_len e) +:+ ev_bytes e +:+ rest));
    [|done|by rewrite !app_assoc_str|rewrite !length_app_str, !L; lia].
  rewrite (field_at (p +:+ le32 (u32 (ev_wd e)) +:+ le32 (ev_mask e) +:+ le32 (ev_cookie e)) (ev_len e) (ev_bytes e +:+ rest));
    [|lia|by rewrite !app_assoc_str|rewrite !length_app_str, !L; lia].
  rewrite i32_u32 by done. f_equal. destruct e as [wd mask cookie len bytes]; cbn [ev_wd ev_mask ev_cookie ev_len ev_bytes] in *.
  f_equal. replace (Z.to_nat len) with (String.length bytes) by lia.
  replace (String.length p + 16)%nat with (String.length (p +:+ le32 (u32 wd) +:+ le32 mask +:+ le32 cookie +:+ le32 len))
    by (rewrite !length_app_str, !L; lia).
  etransitivity; [|apply (substring_middle (p +:+ le32 (u32 wd) +:+ le32 mask +:+ le32 cookie +:+ le32 len) bytes rest)].
  by rewrite !app_assoc_str.
Qed.

Fixpoint encode_events (l : list inotify_event) : string :=
  match l with [] => "" | e :: l => encode_event e +:+ encode_events l end.

Lemma length_encode e : wf_event e ->
  String.length (encode_event e) = (16 + Z.to_nat (ev_len e))%nat.
Proof. intros [_ _ _ H _]. unfold encode_event. rewrite !length_app_str, H, Nat2Z.id. done. Qed.

Section Results.
Context {S : Type} {P : Posix S} {B : Boost} {K : Kernel S}.
Abbreviation MI := (M (Ino S)).
Context (isEnding : MI bool) (running : string -> MI bool).
Context (callback : ISub -> EventCtx -> MI unit).
Context (ending_keeps : forall D b, keeps (good D b) isEnding).
Context (running_keeps : forall D b name, keeps (good D b) (running name)).
Context (callback_keeps : forall D b sub ec, keeps (good D b) (callback sub ec)).
Abbreviation handle := (handle_event isEnding running callback).
Abbreviation loop := (event_loop isEnding running callback).
Abbreviation run := (inotify_run isEnding running callback).

Lemma loop_events D events pre rest fuel s :
  Forall wf_event events -> (length events <= fuel)%nat ->
  good D (Some (pre +:+ encode_events events +:+ rest)) s ->
  loop fuel (String.length pre) (String.length pre + String.length (encode_events events)) s
  = for_each events handle s.
Proof.
  intros Hw. revert pre fuel s. induction Hw as [|e events He Hw IH]; intros pre fuel s Hf Hs.
  { cbn [encode_events String.length]. rewrite Nat.add_0_r. destruct fuel; cbn [event_loop];
      by rewrite Nat.leb_refl. }
  destruct fuel as [|fuel]; [simpl in Hf; lia|]. cbn [event_loop encode_events for_each].
  rewrite length_app_str, length_encode by done.
  destruct (Nat.leb_spec (String.length pre + (16 + Z.to_nat (ev_len e) + String.length (encode_events events))) (String.length pre));
    [lia|].
  unfold bind at 1, gets. rewrite (good_scratch _ _ _ Hs). cbn [mbind option_bind encode_events].
  rewrite app_assoc_str, event_at_encoded by done. unfold bind at 1 2.
  pose proof (keeps_handle isEnding running callback ending_keeps running_keeps callback_keeps
                D _ e s Hs) as Hk. unfold post in Hk.
  destruct (handle e s) as [[[]|x] s1]; [|done].
  specialize (IH (pre +:+ encode_event e) fuel s1). rewrite length_app_str, length_encode in IH by done.
  rewrite <- IH; [f_equal; lia|simpl in Hf; lia|].
  cbn [encode_events] in Hk. by rewrite !app_assoc_str in *.
Qed.

Lemma events_shorter events : Forall wf_event events -> (length events <= String.length (encode_events events))%nat.
Proof.
  induction 1 as [|e events He Hw IH]; [done|]. cbn [encode_events length].
  rewrite length_app_str, length_encode by done. lia.
Qed.

(** Whatever the kernel puts into a read is handled: the loop over the buffer ends, and
    it handles each event once, in the order of the buffer. *)
Theorem run_handles_every_event D (s : Ino S) (h1 h2 : S) (ready err : Z) (old : string) (events : list inotify_event) :
  sound D s -> scratch_ s = Some old -> events <> [] -> Forall wf_event events ->
  poll_handle (inotify_handle_ s) (ino_host s) = (Ok (ready, err, true), h1) -> 0 < ready ->
  read_handle (inotify_handle_ s) (inotify_events_ s * kINotifyEventSize) h1 = (Ok (encode_events events), h2) ->
  run s = (for_each events handle ;;; ret (mkStatus 0 "OK"))
            (with_scratch (Some (overwrite (encode_events events) old)) (with_host h2 s)).
Proof.
  intros [b Hs] Hb Hne Hw Hp Hr Hd. unfold inotify_run.
  assert (u64 (inotify_events_ s * kINotifyEventSize) = inotify_events_ s * kINotifyEventSize) as Hu.
  { destruct (good_fits _ _ _ Hs) as (k & Hk & ->). apply Z.mod_small.
    pose proof (Z.pow_le_mono_r 2 k 9 ltac:(lia) ltac:(lia)). pose proof (Z.pow_nonneg 2 k ltac:(lia)).
    unfold kINotifyEventSize, header_size. lia. }
  unfold bind at 1, gets. unfold bind at 1, on_host at 1, zoom. rewrite Hp.
  destruct (Z.eqb_spec ready (-1)); [lia|]. destruct (Z.eqb_spec ready 0); [lia|]. cbn [negb].
  unfold bind at 1, gets. unfold bind at 1, on_host, zoom. cbn [inotify_events_ with_host ino_host].
  rewrite Hu, Hd.
  assert (is_empty (encode_events events) = false) as He.
  { destruct events as [|e l]; [done|]. by cbn. }
  rewrite He. unfold bind at 1, modify. cbn [scratch_ with_host]. rewrite Hb. cbn [fmap option_fmap option_map].
  unfold bind at 1.
  pose proof (loop_events D events "" (String.substring (String.length (encode_events events)) (String.length old) old)
    (String.length (encode_events events))) as HL.
  cbn [String.length] in HL. rewrite Nat.add_0_l in HL. rewrite HL; [done..|by apply events_shorter|].
  destruct Hs. by split.
Qed.

Context (fresh_address : gmap Z SubCtx -> Z).
Context (fresh_is_new : forall cs, cs !! fresh_address cs = None).
Abbreviation step := (ino_step isEnding running callback fresh_address).

Lemma new_sound (h : S) test : sound (dom (contexts (new_publisher h test))) (new_publisher h test).
Proof.
  exists None. split; cbn; [| |set_solver| |done].
  - intros w a. cbn. rewrite lookup_empty. split; [done|]. intros (c & H & _). by rewrite lookup_empty in H.
  - done.
  - by exists 4.
Qed.

Lemma reachable_sound h test s : rtc step (new_publisher h test) s -> sound (dom (contexts s)) s.
Proof.
  pose proof (new_sound h test) as H0. revert H0. generalize (new_publisher h test). intros s0 H0 H.
  induction H as [|s0 s1 s Hstep _ IH]; [done|]. apply IH. by eapply step_sound.
Qed.

(** C33: In every state the publisher reaches, a watch belongs to at most one subscription,
    the two tables that say so agree, and an event can always be given the path of its
    watch: [createEventContextFrom] never throws. *)
Theorem every_watch_has_one_owner h test s :
  rtc step (new_publisher h test) s ->
  agree s /\
  (forall watch a1 a2, owned (contexts s) watch a1 -> owned (contexts s) watch a2 -> a1 = a2) /\
  (forall event, exists ec, createEventContextFrom event s = (Ok ec, s)).
Proof.
  intros [b Hs]%reachable_sound. pose proof (good_agree _ _ _ Hs) as Ha. split; [done|split].
  - intros watch a1 a2 H1%Ha H2%Ha. congruence.
  - intros event. destruct (event_context_total _ _ event s Hs) as (ec & E & _). by exists ec.
Qed.

(** However often the queue overflows, a read asks for no more bytes than the scratch
    space has. *)
Theorem reads_fit_the_scratch_space h test s :
  rtc step (new_publisher h test) s ->
  0 < inotify_events_ s * kINotifyEventSize <= kINotifyBufferSize.
Proof.
  intros [b Hs]%reachable_sound. destruct (good_fits _ _ _ Hs) as (k & Hk & ->).
  pose proof (Z.pow_le_mono_r 2 k 9 ltac:(lia) ltac:(lia)). pose proof (Z.pow_pos_nonneg 2 k ltac:(lia) ltac:(lia)).
  unfold kINotifyBufferSize, kINotifyMaxEvents, kINotifyEventSize, header_size. lia.
Qed.
End Results.

(** ** Paths in the root directory *)

Section Root.
Context {S : Type} {P : Posix S} {B : Boost} {BL : BoostLaws B} {K : Kernel S}.

Lemma before_last_slash_none s : all_chars (fun c => negb (bool_decide (c = "/"%char))) s = true ->
  before_last_slash s = None.
Proof.
  induction s as [|c s IH]; [done|]. rewrite all_chars_cons. intros [H1 H2]%andb_true_iff. cbn [before_last_slash].
  rewrite IH by done. by destruct (bool_decide (c = "/"%char)).
Qed.

Lemma createPath_empty : createPath "" = [].
Proof.
  unfold createPath, path_tokens. rewrite bool_decide_eq_false_2 by done.
  by rewrite split_no_delim.
Qed.

(** Once some path is excluded, an event for a file directly in the root directory makes
    the search read before the first component of the empty path. *)
Theorem root_file_event_reads_out_of_bounds (s : Ino S) a c event name :
  all_chars (fun c => negb (bool_decide (c = "/"%char))) name = true ->
  exclude_paths_ s <> [] -> contexts s !! a = Some c -> sc_recursive c = false ->
  sc_mask c = 0 ->
  inotify_shouldFire a (mkEventCtx event (String "/" name) (event_action (ev_mask event)) (Some a)) s
  = (Throw AssertFailure, s).
Proof.
  intros Hn Hx Hc Hr Hm. unfold inotify_shouldFire. cbn [ec_isub ec_event ec_path ec_action].
  rewrite bool_decide_eq_true_2 by done. cbn [negb]. unfold bind at 1, deref. rewrite Hc, Hm, Hr. cbn [Z.eqb negb andb].
  unfold bind, ret, gets, of_result. change (Status_ok (Status1 1)) with false. cbn iota.
  unfold excluded. rewrite bool_decide_eq_false_2 by done.
  assert (directory_part (String "/" name) = "") as ->.
  { unfold directory_part. cbn [before_last_slash]. by rewrite before_last_slash_none. }
  unfold pathset_find. by rewrite createPath_empty, find_empty_path.
Qed.
End Root.

(** ** Configured files and subscriptions *)

Section Configured.
Context {S : Type} {P : Posix S} {B : Boost} {K : Kernel S}.
Abbreviation MI := (M (Ino S)).
Context (fresh_address : gmap Z SubCtx -> Z).
Context (fresh_is_new : forall cs, cs !! fresh_address cs = None).
Context (subscriber : string).

Definition sub_key (c : SubCtx) : string * string := (sc_category c, sc_opath c).

(** The subscriptions that are not about to be deleted, by category and file. *)
Definition live (s : Ino S) (k : string * string) : Prop :=
  exists sub c, sub ∈ subscriptions_ s /\ contexts s !! isub_ctx sub = Some c /\
    mark_for_deletion c = false /\ sub_key c = k.

Definition allocated (s : Ino S) : Prop :=
  forall sub, sub ∈ subscriptions_ s -> is_Some (contexts s !! isub_ctx sub).

Lemma same_subscription_key l r : same_subscription l r = true <-> sub_key l = sub_key r.
Proof.
  unfold same_subscription, sub_key. rewrite andb_true_iff, !bool_decide_eq_true. split; [intros [-> ->]|]; naive_solver.
Qed.

Lemma find_same_Some c cs subs a x :
  find_same c cs subs = Some (a, x) ->
  exists sub, sub ∈ subs /\ isub_ctx sub = a /\ cs !! a = Some x /\ sub_key c = sub_key x.
Proof.
  induction subs as [|sub subs IH]; simpl; [done|]. intros E.
  destruct (cs !! isub_ctx sub) as [y|] eqn:Ey.
  - destruct (same_subscription c y) eqn:Es.
    + injection E as <- <-. exists sub. split; [left|]. split; [done|]. split; [done|]. by apply same_subscription_key.
    + destruct (IH E) as (sub' & H & H'). exists sub'. split; [by right|done].
  - destruct (IH E) as (sub' & H & H'). exists sub'. split; [by right|done].
Qed.

Lemma live_unmark a x s :
  contexts s !! a = Some x -> (exists sub, sub ∈ subscriptions_ s /\ isub_ctx sub = a) ->
  forall k, live (with_contexts (alter (set_mark false) a (contexts s)) s) k <-> live s k \/ k = sub_key x.
Proof.
  intros Hx (sub0 & Hin0 & E0) k. split.
  - intros (sub & c & Hin & Hc & Hm & Hk). cbn [contexts with_contexts with_maps subscriptions_] in *.
    destruct (decide (isub_ctx sub = a)) as [Ea|Ea].
    + rewrite Ea, lookup_alter_eq, Hx in Hc. injection Hc as <-. by right.
    + rewrite lookup_alter_ne in Hc by done. left. by exists sub, c.
  - intros [(sub & c & Hin & Hc & Hm & Hk)| ->].
    + destruct (decide (isub_ctx sub = a)) as [Ea|Ea].
      * exists sub, (set_mark false x). cbn [contexts with_contexts with_maps subscriptions_].
        rewrite Ea, lookup_alter_eq, Hx. rewrite Ea, Hx in Hc. injection Hc as <-. done.
      * exists sub, c. cbn [contexts with_contexts with_maps subscriptions_]. by rewrite lookup_alter_ne.
    + exists sub0, (set_mark false x). cbn [contexts with_contexts with_maps subscriptions_].
      by rewrite E0, lookup_alter_eq, Hx.
Qed.

Lemma live_create s c k :
  allocated s ->
  live (with_contexts (<[fresh_address (contexts s) := c]> (contexts s)) s) k <-> live s k.
Proof.
  intros Ha. unfold live. cbn [contexts with_contexts with_maps subscriptions_].
  split; intros (sub & x & Hin & Hx & H); exists sub, x; (split; [done|]); (split; [|done]).
  - rewrite lookup_insert_ne in Hx; [done|]. intros E. destruct (Ha sub Hin) as [y Hy].
    rewrite <- E, fresh_is_new in Hy. done.
  - rewrite lookup_insert_ne; [done|]. intros E. by rewrite <- E, fresh_is_new in Hx.
Qed.

Lemma live_append s sub c k :
  contexts s !! isub_ctx sub = Some c -> mark_for_deletion c = false ->
  live (with_subs (subscriptions_ s ++ [sub]) s) k <-> live s k \/ k = sub_key c.
Proof.
  intros Hc Hm. unfold live. cbn [contexts with_subs subscriptions_]. split.
  - intros (sub' & x & [Hin|Hin%list_elem_of_singleton]%elem_of_app & Hx & Hmx & Hk).
    + left. by exists sub', x.
    + subst sub'. right. congruence.
  - intros [(sub' & x & Hin & H)| ->].
    + exists sub', x. rewrite elem_of_app. naive_solver.
    + exists sub, c. rewrite elem_of_app. split; [right; by apply list_elem_of_singleton|done].
Qed.

(** Subscribing to a file adds it to the live subscriptions, whether it is new, live
    already or about to be deleted. *)
Lemma subscribe_live category file mask s :
  allocated s ->
  exists s', (let* sc := createSubscriptionContext fresh_address file category mask in
              let* _ := inotify_addSubscription (mkISub subscriber sc) in ret tt) s = (Ok tt, s') /\
    allocated s' /\ ino_host s' = ino_host s /\ forall k, live s' k <-> live s k \/ k = (category, file).
Proof.
  intros Ha. unfold bind at 1, createSubscriptionContext.
  set (c := mkSubCtx file file mask false category false false ∅ ∅).
  set (a := fresh_address (contexts s)).
  pose proof (live_create s c) as HL. fold a in HL.
  assert (allocated (with_contexts (<[a := c]> (contexts s)) s)) as Ha1.
  { intros sub Hin. cbn. destruct (decide (isub_ctx sub = a)) as [->|]; [by rewrite lookup_insert_eq|].
    rewrite lookup_insert_ne by done. by apply Ha. }
  assert (contexts (with_contexts (<[a := c]> (contexts s)) s) !! a = Some c) as Hc by apply lookup_insert_eq.
  assert (ino_host (with_contexts (<[a := c]> (contexts s)) s) = ino_host s) as Hh by done.
  revert HL Ha1 Hc Hh. generalize (with_contexts (<[a := c]> (contexts s)) s). intros s1 HL Ha1 Hc Hh.
  unfold inotify_addSubscription, bind, deref, gets. cbn [isub_ctx]. rewrite Hc.
  destruct (find_same c (contexts s1) (subscriptions_ s1)) as [[a' x]|] eqn:E.
  - apply find_same_Some in E as (sub & Hin & Ea & Hx & Hk).
    destruct (mark_for_deletion x) eqn:Em; unfold upd_ctx, modify, ret.
    + eexists. split; [done|]. split; [|split; [done|]].
      * intros sub' Hin'. cbn. destruct (decide (isub_ctx sub' = a')) as [->|]; [by rewrite lookup_alter_eq, Hx|].
        rewrite lookup_alter_ne by done. by apply Ha1.
      * intros k. rewrite (live_unmark a' x s1 Hx ltac:(by exists sub)), HL by done. by rewrite <- Hk.
    + eexists. split; [done|]. split; [done|split; [done|]]. intros k. rewrite HL by done.
      split; [by left|]. intros [H| ->]; [done|]. apply HL; [done|]. exists sub, x.
      rewrite Ea. split; [done|]. split; [done|]. split; [done|]. by rewrite <- Hk.
  - unfold modify, ret. eexists. split; [done|]. split; [|split; [done|]].
    + cbn. intros sub [Hin|Hin%list_elem_of_singleton]%elem_of_app; [by apply Ha1|]. subst sub. by exists c.
    + intros k. rewrite (live_append s1 (mkISub subscriber a) c k Hc eq_refl), HL by done. done.
Qed.

(** [m] returns, leaves the host alone and makes the keys live. *)
Definition makes_live (m : MI unit) (keys : list (string * string)) : Prop :=
  forall s, allocated s -> exists s', m s = (Ok tt, s') /\ allocated s' /\ ino_host s' = ino_host s /\
    forall k, live s' k <-> live s k \/ k ∈ keys.

Lemma makes_live_each {A} (l : list A) (f : A -> MI unit) (keys : A -> list (string * string)) :
  (forall x, makes_live (f x) (keys x)) -> makes_live (for_each l f) (l ≫= keys).
Proof.
  intros Hf. induction l as [|x l IH]; intros s Hs; cbn [for_each].
  { exists s. split; [done|]. split; [done|]. split; [done|]. intros k. rewrite elem_of_nil. tauto. }
  destruct (Hf x s Hs) as (s1 & E1 & Ha1 & Hh1 & HL1). rewrite (bind_run _ _ _ _ _ E1).
  destruct (IH s1 Ha1) as (s2 & E2 & Ha2 & Hh2 & HL2). exists s2. split; [done|]. split; [done|].
  split; [congruence|]. intros k. rewrite HL2, HL1. cbn [mbind list_bind]. rewrite elem_of_app. tauto.
Qed.

Lemma remove_marks l (s : Ino S) :
  (forall sub, sub ∈ l -> isub_name sub = subscriber) ->
  exists cs, for_each l (fun sub => if bool_decide (isub_name sub = subscriber)
                                    then upd_ctx (isub_ctx sub) (set_mark true) else ret tt) s
             = (Ok tt, with_contexts cs s) /\
    (forall a c, cs !! a = Some c -> (exists c0, contexts s !! a = Some c0 /\ (mark_for_deletion c = false -> mark_for_deletion c0 = false))) /\
    (forall a, is_Some (contexts s !! a) -> is_Some (cs !! a)) /\
    (forall sub c, sub ∈ l -> cs !! isub_ctx sub = Some c -> mark_for_deletion c = true).
Proof.
  revert s. induction l as [|x l IH]; intros s Hn; cbn [for_each].
  { exists (contexts s). split; [by destruct s|]. split; [naive_solver|]. split; [done|].
    intros sub c H. by apply elem_of_nil in H. }
  rewrite bool_decide_eq_true_2 by (apply Hn; left). unfold bind, upd_ctx at 1, modify.
  destruct (IH (with_contexts (alter (set_mark true) (isub_ctx x) (contexts s)) s)) as (cs & E & H1 & H2 & H3).
  { intros sub Hin. apply Hn. by right. }
  exists cs. split; [by rewrite E|]. cbn [contexts with_contexts with_maps] in *. split; [|split].
  - intros a c Hc. destruct (H1 a c Hc) as (c0 & Hc0 & Hm). destruct (decide (a = isub_ctx x)) as [->|Ha].
    + rewrite lookup_alter_eq in Hc0. destruct (contexts s !! isub_ctx x) as [c1|]; [|done].
      injection Hc0 as <-. exists c1. split; [done|]. intros Hf. by specialize (Hm Hf).
    + rewrite lookup_alter_ne in Hc0 by done. by exists c0.
  - intros a Ha. apply H2. destruct (decide (a = isub_ctx x)) as [->|Hne].
    + rewrite lookup_alter_eq. by apply fmap_is_Some.
    + by rewrite lookup_alter_ne.
  - intros sub c [->|Hin]%elem_of_cons Hc; [|by eapply H3].
    destruct (H1 _ _ Hc) as (c0 & Hc0 & Hm). rewrite lookup_alter_eq in Hc0.
    destruct (contexts s !! isub_ctx x) as [c1|]; [|done]. injection Hc0 as <-.
    destruct (mark_for_deletion c); [done|]. by specialize (Hm eq_refl).
Qed.

Lemma is_access_strings cats category :
  exists b, is_access (JString <$> cats) category = Ok b.
Proof.
  induction cats as [|c cats [b IH]]; [by exists false|]. cbn [fmap list_fmap is_access GetString].
  case_match; [by eexists|]. exists b. exact IH.
Qed.

(** The files of the configuration, by category. *)
Definition configured (l : list (string * list string)) : list (string * string) :=
  l ≫= fun x => pair x.1 <$> x.2.

(** After the subscriber of file_events was configured, the live subscriptions are
    exactly the configured files: those named again are kept with their watches, new
    ones are added, and the others are left for deletion. *)
Theorem live_subscriptions_are_the_configured_files (s : Ino S) (h' : S) ms cats (l : list (string * list string)) :
  allocated s -> (forall sub, sub ∈ subscriptions_ s -> isub_name sub = subscriber) ->
  file_paths_data (ino_host s) = (Ok (Some (JObject ms)), h') ->
  member "file_accesses" ms = Some (JArray (JString <$> cats)) ->
  exists s', FileEventSubscriber_configure fresh_address subscriber (ret l) s = (Ok tt, s') /\
    forall k, live s' k <-> k ∈ configured l.
Proof.
  intros Ha Hn Hd Hm. unfold FileEventSubscriber_configure.
  destruct (remove_marks (subscriptions_ s) s Hn) as (cs & E & H1 & H2 & H3).
  assert (inotify_removeSubscriptions subscriber s = (Ok tt, with_contexts cs s)) as E0 by exact E.
  rewrite (bind_run _ _ _ _ _ E0). unfold bind at 1, on_host, zoom. cbn [ino_host with_contexts with_maps].
  rewrite Hd. unfold bind at 1, of_result. cbn [GetObject]. rewrite Hm. unfold bind at 1, ret.
  match goal with |- context [for_each l ?f] => assert (makes_live (for_each l f) (configured l)) as HL end.
  { apply makes_live_each. intros [category paths]. cbn [fst snd].
    replace (pair category <$> paths) with (paths ≫= fun f => [(category, f)]).
    2: { induction paths as [|p paths IH]; [done|]. cbn. by rewrite IH. }
    apply makes_live_each. intros file s1 Hs1. unfold bind at 1, of_result. cbn [GetArray].
    destruct (is_access_strings cats category) as [b ->]. unfold bind at 1.
    destruct (subscribe_live category file (if b then Z.lor kFileDefaultMasks kFileAccessMasks else kFileDefaultMasks) s1 Hs1)
      as (s2 & E2 & Ha2 & Hh2 & HL2).
    exists s2. split; [exact E2|]. split; [done|]. split; [done|]. intros k. rewrite HL2. by rewrite list_elem_of_singleton. }
  destruct (HL (with_host h' (with_contexts cs s))) as (s' & E' & _ & _ & HL').
  { intros sub Hin. cbn. apply H2. by apply Ha. }
  exists s'. split; [exact E'|]. intros k. rewrite HL'. split; [|by right].
  intros [(sub & c & Hin & Hc & Hf & _)|]; [|done]. exfalso.
  cbn [contexts with_host with_contexts with_maps subscriptions_] in *.
  specialize (H3 sub c Hin Hc). congruence.
Qed.
End Configured.
