(* ===== verification/Uri.v ===== *)
(** * URIs (osquery/remote/uri.cpp)

    The parser of the addresses requests are sent to. It is written with the regular
    expressions of the C++ standard library; here they are terms, matched the way that
    library does: greedily, with backtracking, remembering what each group took. *)
From S2P Require Import Prelude Boost.

(** ** Regular expressions *)

Abbreviation chars_t := (list ascii).

Inductive regex :=
  | Cls (p : ascii -> bool)
  | Many (p : ascii -> bool)
  | Seq (r1 r2 : regex)
  | Or (r1 r2 : regex)
  | Maybe (r : regex)
  | Grp (n : nat) (r : regex).

Definition captures : Type := list (nat * string).

(** A repeated character class: the longest repetition first. *)
Fixpoint many {A} (p : ascii -> bool) (s : chars_t) (k : chars_t -> option A) : option A :=
  match s with
  | c :: r => if p c then match many p r k with Some a => Some a | None => k s end else k s
  | [] => k s
  end.

(** [k] is what has to match after the expression. *)
Fixpoint rmatch (r : regex) (s : chars_t) (caps : captures) (k : chars_t -> captures -> option captures)
    : option captures :=
  match r with
  | Cls p => match s with c :: s => if p c then k s caps else None | [] => None end
  | Many p => many p s (fun s => k s caps)
  | Seq r1 r2 => rmatch r1 s caps (fun s caps => rmatch r2 s caps k)
  | Or r1 r2 => match rmatch r1 s caps k with Some c => Some c | None => rmatch r2 s caps k end
  | Maybe r => match rmatch r s caps k with Some c => Some c | None => k s caps end
  | Grp n r =>
      rmatch r s caps (fun s' caps => k s' ((n, of_chars (take (length s - length s') s)) :: caps))
  end.

(** [std::regex_match]: the whole text. *)
Definition regex_match (r : regex) (s : string) : option captures :=
  rmatch r (chars s) [] (fun s caps => match s with [] => Some caps | _ :: _ => None end).

(** What a group took; nothing when it did not take part. *)
Fixpoint submatch (caps : captures) (n : nat) : string :=
  match caps with
  | [] => ""
  | (m, t) :: caps => if (m =? n)%nat then t else submatch caps n
  end.

(** ** The expressions *)

Definition one_of (l : string) (c : ascii) : bool := bool_decide (c ∈ chars l).
Definition none_of (l : string) (c : ascii) : bool := negb (one_of l c).
Definition between (a b : nat) (c : ascii) : bool :=
  (a <=? Ascii.nat_of_ascii c)%nat && (Ascii.nat_of_ascii c <=? b)%nat.
Definition is_alpha (c : ascii) : bool := between 97 122 c || between 65 90 c.
Definition scheme_char (c : ascii) : bool := is_alpha c || between 48 57 c || one_of "+.-" c.
Definition is_char (d c : ascii) : bool := bool_decide (c = d).
(** [.] is anything but an end of line. *)
Definition any_char (c : ascii) : bool := none_of (String "010" (String "013" "")) c.

Fixpoint seq (l : list regex) : regex :=
  match l with
  | [] => Many (fun _ => false)
  | [r] => r
  | r :: l => Seq r (seq l)
  end.

Definition uriRegex : regex :=
  seq [Grp 1 (Seq (Cls is_alpha) (Many scheme_char)); Cls (is_char ":");
       Grp 2 (Many (none_of "?#"));
       Maybe (Seq (Cls (is_char "?")) (Grp 3 (Many (none_of "#"))));
       Maybe (Seq (Cls (is_char "#")) (Grp 4 (Many any_char)))].

Definition authorityAndPathRegex : regex :=
  seq [Cls (is_char "/"); Cls (is_char "/"); Grp 1 (Many (none_of "/"));
       Maybe (Grp 2 (Seq (Cls (is_char "/")) (Many any_char)))].

Definition authorityRegex : regex :=
  seq [Maybe (seq [Grp 1 (Many (none_of "@:")); Maybe (Seq (Cls (is_char ":")) (Grp 2 (Many (none_of "@"))));
                   Cls (is_char "@")]);
       Grp 3 (Or (seq [Cls (is_char "["); Many (none_of "]"); Cls (is_char "]")])
                 (Many (none_of "[:")));
       Maybe (Seq (Cls (is_char ":")) (Grp 4 (Many is_digit)))].

(** ** The parser *)

Record Uri := mkUri {
  scheme_ : string; username_ : string; password_ : string; host_ : string;
  hasAuthority_ : bool; port_ : Z; path_ : string; query_ : string; fragment_ : string;
}.

Definition UINT16_MAX : Z := 65535.

(** The port: [stoi] throws on what does not fit an [int]; a port that does not fit is
    left at 0. *)
Definition parse_port (port : string) : result Z :=
  if is_empty port then Ok 0%Z
  else match stoi 10 port with
       | Throw e => Throw e
       | Ok iport => Ok (if (iport <? UINT16_MAX)%Z && (0 <=? iport)%Z then iport else 0%Z)
       end.

Definition Uri_new (str : string) : result Uri :=
  match regex_match uriRegex str with
  | None => Throw (InvalidArgument "Invalid URL")
  | Some m =>
      let scheme := lower (submatch m 1) in
      let authorityAndPath := submatch m 2 in
      match regex_match authorityAndPathRegex authorityAndPath with
      | None => Ok (mkUri scheme "" "" "" false 0 authorityAndPath (submatch m 3) (submatch m 4))
      | Some am =>
          match regex_match authorityRegex (submatch am 1) with
          | None => Throw (InvalidArgument "Invalid URI authority")
          | Some a =>
              match parse_port (submatch a 4) with
              | Throw e => Throw e
              | Ok port =>
                  Ok (mkUri scheme (submatch a 1) (submatch a 2) (submatch a 3) true port
                            (submatch am 2) (submatch m 3) (submatch m 4))
              end
          end
      end
  end.

Definition authority (u : Uri) : string :=
  (if negb (is_empty (username_ u)) || negb (is_empty (password_ u)) then
     username_ u +:+ (if negb (is_empty (password_ u)) then ":" +:+ password_ u else "") +:+ "@"
   else "")
  +:+ host_ u +:+ (if negb (port_ u =? 0)%Z then ":" +:+ to_string (port_ u) else "").

Definition hostname (u : Uri) : string :=
  if (0 <? String.length (host_ u))%nat && bool_decide (String.get 0 (host_ u) = Some "["%char)
  then String.substring 1 (String.length (host_ u) - 2) (host_ u)
  else host_ u.

Definition setPort (port : Z) (u : Uri) : Uri :=
  mkUri (scheme_ u) (username_ u) (password_ u) (host_ u) true port (path_ u) (query_ u) (fragment_ u).

(** ** Reading back a printed address *)

Lemma many_longest {A} p a b (k : chars_t -> option A) x :
  forallb p a = true -> (match b with c :: _ => p c = false | [] => True end) ->
  k b = Some x -> many p (a ++ b) k = Some x.
Proof.
  intros Ha Hb Hk. induction a as [|c a IH]; simpl.
  - destruct b as [|c b]; simpl; [done|]. by rewrite Hb.
  - apply andb_true_iff in Ha as [-> Ha]. by rewrite IH.
Qed.

(** A repetition fails when nothing that may follow it matches. *)
Lemma many_none {A} p s (k : chars_t -> option A) :
  (forall a b, s = a ++ b -> forallb p a = true -> k b = None) -> many p s k = None.
Proof.
  induction s as [|c s IH]; intros Hk; simpl; [by apply (Hk [])|].
  destruct (p c) eqn:E; [|by apply (Hk [])].
  rewrite IH; [by apply (Hk [])|]. intros a b -> Ha. apply (Hk (c :: a)); [done|]. simpl. by rewrite E.
Qed.

Lemma take_sub {A} (a b : list A) : take (length (a ++ b) - length b) (a ++ b) = a.
Proof. rewrite length_app. replace (length a + length b - length b) with (length a) by lia. by rewrite take_app_length. Qed.

Lemma rmatch_group_many n p a b caps k c :
  forallb p a = true -> (match b with d :: _ => p d = false | [] => True end) ->
  k b ((n, of_chars a) :: caps) = Some c ->
  rmatch (Grp n (Many p)) (a ++ b) caps k = Some c.
Proof.
  intros Ha Hb Hk. cbn [rmatch]. apply many_longest; [done..|]. by rewrite take_sub.
Qed.

(** A piece of text made of some characters only. *)
Definition text_of (p : ascii -> bool) (s : string) : Prop := forallb p (chars s) = true.

(** The text of an address. *)
Definition print_uri (u : Uri) : string :=
  scheme_ u +:+ "://" +:+ authority u +:+ path_ u +:+
  (if is_empty (query_ u) then "" else "?" +:+ query_ u) +:+
  (if is_empty (fragment_ u) then "" else "#" +:+ fragment_ u).

Record wf_uri (u : Uri) : Prop := {
  wf_scheme : exists c r, scheme_ u = String c r /\ is_alpha c = true /\ text_of scheme_char r;
  wf_lower : lower (scheme_ u) = scheme_ u;
  wf_user : text_of (none_of "@:/?#") (username_ u);
  wf_password : text_of (none_of "@/?#") (password_ u);
  wf_host : text_of (none_of "@:/?#[") (host_ u);
  wf_authority : hasAuthority_ u = true;
  wf_port : (0 <= port_ u < UINT16_MAX)%Z;
  wf_path : path_ u = "" \/ exists r, path_ u = String "/" r /\
              text_of (fun c => none_of "?#" c && any_char c) r;
  wf_query : text_of (none_of "#") (query_ u);
  wf_fragment : text_of any_char (fragment_ u);
}.

Definition boundary (p : ascii -> bool) (b : chars_t) : Prop :=
  match b with c :: _ => p c = false | [] => True end.

Lemma forallb_impl {A} (p q : A -> bool) l :
  (forall x, p x = true -> q x = true) -> forallb p l = true -> forallb q l = true.
Proof. intros H. induction l as [|x l IH]; simpl; [done|]. intros [H1 H2]%andb_true_iff. by rewrite H, IH. Qed.

Lemma none_of_weaken (l l' : string) c : chars l' ⊆ chars l -> none_of l c = true -> none_of l' c = true.
Proof.
  unfold none_of, one_of. rewrite !negb_true_iff, !bool_decide_eq_false. intros H H1 H2. apply H1. by apply H.
Qed.

(** *** The parts after the path *)

Definition at_end (s : chars_t) (caps : captures) : option captures :=
  match s with [] => Some caps | _ :: _ => None end.

Definition fragment_part (f : chars_t) : chars_t := match f with [] => [] | _ => "#"%char :: f end.
Definition query_part (q : chars_t) : chars_t := match q with [] => [] | _ => "?"%char :: q end.

Lemma fragment_match f caps : forallb any_char f = true ->
  rmatch (Maybe (Seq (Cls (is_char "#")) (Grp 4 (Many any_char)))) (fragment_part f) caps at_end
  = Some (match f with [] => caps | _ => (4, of_chars f) :: caps end).
Proof.
  intros Hf. destruct f as [|c f]; [done|]. cbn [fragment_part].
  change (match rmatch (Grp 4 (Many any_char)) (c :: f) caps at_end with Some x => Some x | None => None end
          = Some ((4, of_chars (c :: f)) :: caps)).
  rewrite <- (app_nil_r (c :: f)) at 1. by rewrite (rmatch_group_many _ _ _ _ _ _ ((4, of_chars (c :: f)) :: caps)).
Qed.

Lemma fragment_part_boundary (p : ascii -> bool) f : p "#"%char = false -> boundary p (fragment_part f).
Proof. by destruct f. Qed.

Lemma query_match q f caps : forallb (none_of "#") q = true -> forallb any_char f = true ->
  rmatch (Seq (Maybe (Seq (Cls (is_char "?")) (Grp 3 (Many (none_of "#")))))
              (Maybe (Seq (Cls (is_char "#")) (Grp 4 (Many any_char))))) (query_part q ++ fragment_part f) caps at_end
  = Some (match f with [] => id | _ => cons (4, of_chars f) end
            (match q with [] => id | _ => cons (3, of_chars q) end caps)).
Proof.
  intros Hq Hf. cbn [rmatch]. destruct q as [|c q].
  - cbn [query_part app]. destruct f as [|d f]; [done|].
    change (rmatch (Maybe (Seq (Cls (is_char "#")) (Grp 4 (Many any_char)))) (fragment_part (d :: f)) caps at_end
            = Some ((4, of_chars (d :: f)) :: caps)). by rewrite fragment_match.
  - cbn [query_part app]. change (is_char "?" "?") with true. cbn iota.
    change (c :: q ++ fragment_part f) with ((c :: q) ++ fragment_part f).
    rewrite (many_longest _ _ _ _
      (match f with [] => id | _ => cons (4, of_chars f) end ((3, of_chars (c :: q)) :: caps))); [done..| |].
    { destruct f; done. }
    rewrite take_sub.
    change (rmatch (Maybe (Seq (Cls (is_char "#")) (Grp 4 (Many any_char)))) (fragment_part f)
              ((3, of_chars (c :: q)) :: caps) at_end
            = Some (match f with [] => id | _ => cons (4, of_chars f) end ((3, of_chars (c :: q)) :: caps))).
    rewrite fragment_match by done. by destruct f.
Qed.

Lemma uri_match c r ap q f :
  is_alpha c = true -> forallb scheme_char r = true -> forallb (none_of "?#") ap = true ->
  forallb (none_of "#") q = true -> forallb any_char f = true ->
  rmatch uriRegex (c :: r ++ ":"%char :: ap ++ query_part q ++ fragment_part f) [] at_end
  = Some (match f with [] => id | _ => cons (4, of_chars f) end
            (match q with [] => id | _ => cons (3, of_chars q) end
               [(2, of_chars ap); (1, of_chars (c :: r))])).
Proof.
  intros Hc Hr Ha Hq Hf.
  change (rmatch uriRegex (c :: r ++ ":"%char :: ap ++ query_part q ++ fragment_part f) [] at_end) with
    (if is_alpha c then many scheme_char (r ++ ":"%char :: ap ++ query_part q ++ fragment_part f)
       (fun s' => rmatch (seq [Cls (is_char ":"); Grp 2 (Many (none_of "?#"));
          Maybe (Seq (Cls (is_char "?")) (Grp 3 (Many (none_of "#"))));
          Maybe (Seq (Cls (is_char "#")) (Grp 4 (Many any_char)))]) s'
          [(1, of_chars (take (length (c :: r ++ ":"%char :: ap ++ query_part q ++ fragment_part f) - length s')
                              (c :: r ++ ":"%char :: ap ++ query_part q ++ fragment_part f)))] at_end) else None).
  rewrite Hc. apply many_longest; [done..|].
  rewrite (app_comm_cons r), take_sub.
  change (rmatch (Grp 2 (Many (none_of "?#"))) (ap ++ query_part q ++ fragment_part f) [(1, of_chars (c :: r))]
    (fun s caps => rmatch (Seq (Maybe (Seq (Cls (is_char "?")) (Grp 3 (Many (none_of "#")))))
              (Maybe (Seq (Cls (is_char "#")) (Grp 4 (Many any_char))))) s caps at_end) = 
    Some (match f with [] => id | _ => cons (4, of_chars f) end
            (match q with [] => id | _ => cons (3, of_chars q) end
               [(2, of_chars ap); (1, of_chars (c :: r))]))).
  apply rmatch_group_many; [done| |by apply query_match].
  destruct q; [|done]. by destruct f.
Qed.

(** *** The authority *)

Lemma authority_path_match a r :
  forallb (none_of "/") a = true -> (r = [] \/ exists r', r = "/"%char :: r' /\ forallb any_char r' = true) ->
  rmatch authorityAndPathRegex ("/"%char :: "/"%char :: a ++ r) [] at_end
  = Some (match r with [] => id | _ => cons (2, of_chars r) end [(1, of_chars a)]).
Proof.
  intros Ha Hr.
  change (rmatch (Grp 1 (Many (none_of "/"))) (a ++ r) []
            (fun s caps => rmatch (Maybe (Grp 2 (Seq (Cls (is_char "/")) (Many any_char)))) s caps at_end)
          = Some (match r with [] => id | _ => cons (2, of_chars r) end [(1, of_chars a)])).
  destruct Hr as [->|(r' & -> & Hr)]; apply rmatch_group_many; try done.
  change (match many any_char r' (fun s' => at_end s' [(2, of_chars (take (length ("/"%char :: r') - length s') ("/"%char :: r'))); (1, of_chars a)])
          with Some c => Some c | None => None end = Some [(2, of_chars ("/"%char :: r')); (1, of_chars a)]).
  rewrite <- (app_nil_r r') at 1.
  rewrite (many_longest _ _ _ _ [(2, of_chars ("/"%char :: r')); (1, of_chars a)]); [done..|].
  cbn [at_end length]. rewrite Nat.sub_0_r, take_ge by (simpl; lia). done.
Qed.

Definition user_regex : regex :=
  seq [Grp 1 (Many (none_of "@:")); Maybe (Seq (Cls (is_char ":")) (Grp 2 (Many (none_of "@")))); Cls (is_char "@")].

Definition host_regex : regex :=
  Grp 3 (Or (seq [Cls (is_char "["); Many (none_of "]"); Cls (is_char "]")]) (Many (none_of "[:"))).

Definition port_regex : regex := Maybe (Seq (Cls (is_char ":")) (Grp 4 (Many is_digit))).

Lemma cls_none (d : ascii) s caps k : d ∉ s -> rmatch (Cls (is_char d)) s caps k = None.
Proof.
  intros H. destruct s as [|c s]; [done|]. cbn [rmatch]. unfold is_char. rewrite bool_decide_eq_false_2; [done|].
  intros ->. apply H. left.
Qed.

(** Without an at sign there is no user. *)
Lemma no_user s caps k : "@"%char ∉ s -> rmatch user_regex s caps k = None.
Proof.
  intros H.
  change (many (none_of "@:") s (fun s' => rmatch (Seq (Maybe (Seq (Cls (is_char ":")) (Grp 2 (Many (none_of "@")))))
    (Cls (is_char "@"))) s' ((1, of_chars (take (length s - length s') s)) :: caps) k) = None).
  apply many_none. intros a b -> _. assert ("@"%char ∉ b) as Hb by (rewrite elem_of_app in H; tauto).
  generalize ((1, of_chars (take (length (a ++ b) - length b) (a ++ b))) :: caps). intros caps'.
  change (match rmatch (Seq (Cls (is_char ":")) (Grp 2 (Many (none_of "@")))) b caps'
            (fun s caps => rmatch (Cls (is_char "@")) s caps k) with
          | Some c => Some c | None => rmatch (Cls (is_char "@")) b caps' k end = None).
  rewrite (cls_none "@"%char b) by done.
  assert (rmatch (Seq (Cls (is_char ":")) (Grp 2 (Many (none_of "@")))) b caps'
            (fun s caps => rmatch (Cls (is_char "@")) s caps k) = None) as ->; [|done].
  destruct b as [|c b]; [done|].
  change (rmatch (Seq (Cls (is_char ":")) (Grp 2 (Many (none_of "@")))) (c :: b) caps'
            (fun s caps => rmatch (Cls (is_char "@")) s caps k)) with
    (if is_char ":" c then many (none_of "@") b (fun s' => rmatch (Cls (is_char "@")) s'
        ((2, of_chars (take (length b - length s') b)) :: caps') k) else None).
  destruct (is_char ":" c); [|done]. apply many_none. intros a' b' -> _. apply cls_none.
  rewrite elem_of_cons, elem_of_app in Hb. tauto.
Qed.

Lemma user_only u rest caps k x :
  forallb (none_of "@:") u = true ->
  k rest ((1, of_chars u) :: caps) = Some x ->
  rmatch user_regex (u ++ "@"%char :: rest) caps k = Some x.
Proof.
  intros Hu Hk.
  change (rmatch (Grp 1 (Many (none_of "@:"))) (u ++ "@"%char :: rest) caps
    (fun s caps => rmatch (Seq (Maybe (Seq (Cls (is_char ":")) (Grp 2 (Many (none_of "@")))))
      (Cls (is_char "@"))) s caps k) = Some x).
  by apply rmatch_group_many.
Qed.

Lemma user_password u p rest caps k x :
  forallb (none_of "@:") u = true -> forallb (none_of "@") p = true ->
  k rest ((2, of_chars p) :: (1, of_chars u) :: caps) = Some x ->
  rmatch user_regex (u ++ ":"%char :: p ++ "@"%char :: rest) caps k = Some x.
Proof.
  intros Hu Hp Hk.
  change (rmatch (Grp 1 (Many (none_of "@:"))) (u ++ ":"%char :: p ++ "@"%char :: rest) caps
    (fun s caps => rmatch (Seq (Maybe (Seq (Cls (is_char ":")) (Grp 2 (Many (none_of "@")))))
      (Cls (is_char "@"))) s caps k) = Some x).
  apply rmatch_group_many; [done..|].
  assert (rmatch (Grp 2 (Many (none_of "@"))) (p ++ "@"%char :: rest) ((1, of_chars u) :: caps)
            (fun s caps => rmatch (Cls (is_char "@")) s caps k) = Some x) as H by by apply rmatch_group_many.
  change (match rmatch (Grp 2 (Many (none_of "@"))) (p ++ "@"%char :: rest) ((1, of_chars u) :: caps)
            (fun s caps => rmatch (Cls (is_char "@")) s caps k) with
          | Some c => Some c | None => None end = Some x).
  by rewrite H.
Qed.

Lemma host_port_match h d caps :
  forallb (none_of "[:") h = true -> forallb is_digit d = true ->
  rmatch (Seq host_regex port_regex) (h ++ match d with [] => [] | _ => ":"%char :: d end) caps at_end
  = Some (match d with [] => id | _ => cons (4, of_chars d) end ((3, of_chars h) :: caps)).
Proof.
  intros Hh Hd. set (pp := match d with [] => [] | _ => ":"%char :: d end).
  assert (rmatch (Grp 3 (Many (none_of "[:"))) (h ++ pp) caps (fun s caps => rmatch port_regex s caps at_end)
    = Some (match d with [] => id | _ => cons (4, of_chars d) end ((3, of_chars h) :: caps))) as HM.
  { apply rmatch_group_many; [done|by destruct d|]. destruct d as [|c d]; [done|].
    change (match rmatch (Grp 4 (Many is_digit)) (c :: d) ((3, of_chars h) :: caps) at_end with Some x => Some x | None => None end
            = Some ((4, of_chars (c :: d)) :: (3, of_chars h) :: caps)).
    rewrite <- (app_nil_r (c :: d)) at 1.
    by rewrite (rmatch_group_many _ _ _ _ _ _ ((4, of_chars (c :: d)) :: (3, of_chars h) :: caps)). }
  assert ((head (h ++ pp)) <> Some "["%char) as Hn.
  { destruct h as [|c h]; [by destruct d|]. simpl. intros [= ->]. by simpl in Hh. }
  destruct (h ++ pp) as [|c s] eqn:E.
  - exact HM.
  - cbn [rmatch host_regex seq]. unfold is_char at 1. rewrite bool_decide_eq_false_2 by (intros ->; done). exact HM.
Qed.

(** The user and password of an authority, with the at sign. *)
Definition user_part (u p : chars_t) : chars_t :=
  match u, p with
  | [], [] => []
  | _, [] => u ++ ["@"%char]
  | _, _ => u ++ ":"%char :: p ++ ["@"%char]
  end.

Definition port_part (d : chars_t) : chars_t := match d with [] => [] | _ => ":"%char :: d end.

Lemma not_in_text (d : ascii) p s : p d = false -> forallb p s = true -> d ∉ s.
Proof.
  intros Hd. induction s as [|c s IH]; simpl; [intros _ H; by apply elem_of_nil in H|].
  intros [H1 H2]%andb_true_iff [->|Hin]%elem_of_cons; [congruence | by apply IH].
Qed.

Lemma authority_match u p h d :
  forallb (none_of "@:") u = true -> forallb (none_of "@") p = true ->
  forallb (none_of "@:[") h = true -> forallb is_digit d = true ->
  exists caps, rmatch authorityRegex (user_part u p ++ h ++ port_part d) [] at_end = Some caps /\
    submatch caps 1 = of_chars u /\ submatch caps 2 = of_chars p /\ submatch caps 3 = of_chars h /\
    submatch caps 4 = of_chars d.
Proof.
  intros Hu Hp Hh Hd.
  assert (forallb (none_of "[:") h = true) as Hh'.
  { revert Hh. apply forallb_impl. intros c. apply none_of_weaken. set_solver. }
  assert ("@"%char ∉ h ++ port_part d) as Hat.
  { rewrite elem_of_app. intros [H|H]; [by apply (not_in_text "@" (none_of "@:[") h)|].
    destruct d as [|c d]; [by apply elem_of_nil in H|]. apply elem_of_cons in H as [H|H]; [done|].
    by apply (not_in_text "@" is_digit (c :: d)). }
  pose proof (fun caps => host_port_match h d caps Hh' Hd) as HM. fold (port_part d) in HM.
  change (exists caps, match rmatch user_regex (user_part u p ++ h ++ port_part d) []
      (fun s caps => rmatch (Seq host_regex port_regex) s caps at_end) with
      | Some c => Some c
      | None => rmatch (Seq host_regex port_regex) (user_part u p ++ h ++ port_part d) [] at_end end = Some caps /\
    submatch caps 1 = of_chars u /\ submatch caps 2 = of_chars p /\ submatch caps 3 = of_chars h /\
    submatch caps 4 = of_chars d).
  destruct (decide (u = [] /\ p = [])) as [[-> ->]|Hne].
  { cbn [user_part app]. rewrite no_user, HM by done. eexists; split; [done|]. by destruct d. }
  assert (exists caps, rmatch user_regex (user_part u p ++ h ++ port_part d) []
      (fun s caps => rmatch (Seq host_regex port_regex) s caps at_end) = Some caps /\
    submatch caps 1 = of_chars u /\ submatch caps 2 = of_chars p /\ submatch caps 3 = of_chars h /\
    submatch caps 4 = of_chars d) as (caps & -> & H); [|by exists caps].
  destruct p as [|c p].
  - assert (user_part u [] = u ++ ["@"%char]) as -> by (destruct u; [naive_solver|done]).
    rewrite <- app_assoc. change (["@"%char] ++ h ++ port_part d) with ("@"%char :: h ++ port_part d).
    erewrite user_only; [|done|apply HM]. eexists; split; [done|]. by destruct d.
  - assert (user_part u (c :: p) = u ++ ":"%char :: (c :: p) ++ ["@"%char]) as -> by by destruct u.
    rewrite <- app_assoc, <- app_comm_cons, <- app_assoc.
    change (["@"%char] ++ h ++ port_part d) with ("@"%char :: h ++ port_part d).
    erewrite user_password; [|done|done|apply HM]. eexists; split; [done|]. by destruct d.
Qed.

Lemma to_string_chars z : (0 <= z)%Z -> chars (to_string z) <> [].
Proof.
  intros Hz E. apply (to_string_nonempty z Hz). by rewrite <- (of_chars_chars (to_string z)), E.
Qed.

Lemma chars_authority u : (0 <= port_ u)%Z ->
  chars (authority u) = user_part (chars (username_ u)) (chars (password_ u)) ++ chars (host_ u) ++
    port_part (if (port_ u =? 0)%Z then [] else chars (to_string (port_ u))).
Proof.
  intros Hp. unfold authority. rewrite !chars_app. f_equal; [|f_equal].
  - destruct (username_ u) as [|c n], (password_ u) as [|d p]; try done; cbn [is_empty negb orb];
      rewrite !chars_app; try done.
  - destruct (Z.eqb_spec (port_ u) 0); [done|]. cbn [negb]. rewrite chars_app.
    pose proof (to_string_chars _ Hp). by destruct (chars (to_string (port_ u))).
Qed.

Lemma parse_port_print z : (0 <= z < UINT16_MAX)%Z ->
  parse_port (of_chars (if (z =? 0)%Z then [] else chars (to_string z))) = Ok z.
Proof.
  unfold UINT16_MAX. intros Hz. destruct (Z.eqb_spec z 0) as [->|]; [done|]. rewrite of_chars_chars. unfold parse_port.
  assert (is_empty (to_string z) = false) as ->.
  { pose proof (to_string_nonempty z ltac:(lia)). by destruct (to_string z). }
  unfold stoi. rewrite sto_signed_to_string by lia. unfold UINT16_MAX.
  destruct (Z.ltb_spec z 65535); [|lia]. by destruct (Z.leb_spec 0 z); [|lia].
Qed.

Lemma chars_optional c t : chars (if is_empty t then "" else String c "" +:+ t) =
  match chars t with [] => [] | _ => c :: chars t end.
Proof. by destruct t. Qed.

Lemma forallb_chars_text p q s : (forall c, p c = true -> q c = true) -> text_of p s -> forallb q (chars s) = true.
Proof. intros H. by apply forallb_impl. Qed.

Lemma user_part_text p u pw :
  forallb p u = true -> forallb p pw = true -> p "@"%char = true -> p ":"%char = true ->
  forallb p (user_part u pw) = true.
Proof.
  intros Hu Hp Ha Hc.
  assert (forallb p (u ++ ["@"%char]) = true) as H1 by (rewrite forallb_app; simpl; by rewrite Hu, Ha).
  assert (forallb p (u ++ ":"%char :: pw ++ ["@"%char]) = true) as H2.
  { rewrite forallb_app. simpl. rewrite forallb_app. simpl. by rewrite Hu, Hc, Hp, Ha. }
  by destruct u, pw.
Qed.

Lemma port_part_text p d : forallb p d = true -> p ":"%char = true -> forallb p (port_part d) = true.
Proof. intros Hd Hc. destruct d as [|c d]; [done|]. cbn [port_part]. cbn [forallb] in *. by rewrite Hc. Qed.

Lemma digit_plain c : is_digit c = true -> none_of "/?#" c = true.
Proof. by destruct c as [[] [] [] [] [] [] [] []]. Qed.

Ltac weaken := apply forallb_impl; intros ?; apply none_of_weaken; set_solver.

(** The text of the pieces of an address. *)
Definition port_digits (u : Uri) : chars_t := if (port_ u =? 0)%Z then [] else chars (to_string (port_ u)).
Definition auth_chars (u : Uri) : chars_t :=
  user_part (chars (username_ u)) (chars (password_ u)) ++ chars (host_ u) ++ port_part (port_digits u).
Definition ap_chars (u : Uri) : chars_t := "/"%char :: "/"%char :: auth_chars u ++ chars (path_ u).

Lemma print_uri_chars u c r : (0 <= port_ u)%Z -> scheme_ u = String c r ->
  chars (print_uri u) =
  c :: chars r ++ ":"%char :: ap_chars u ++ query_part (chars (query_ u)) ++ fragment_part (chars (fragment_ u)).
Proof.
  intros Hport Es. unfold print_uri. rewrite !chars_app, Es, chars_authority by lia.
  change (if is_empty (query_ u) then "" else "?" +:+ query_ u) with
    (if is_empty (query_ u) then "" else String "?" "" +:+ query_ u).
  change (if is_empty (fragment_ u) then "" else "#" +:+ fragment_ u) with
    (if is_empty (fragment_ u) then "" else String "#" "" +:+ fragment_ u).
  rewrite !chars_optional. unfold ap_chars, auth_chars. cbn [chars]. rewrite <- !app_comm_cons. f_equal. f_equal.
  cbn [app]. do 3 f_equal. rewrite <- !app_assoc. done.
Qed.

Lemma port_digits_text u : (0 <= port_ u)%Z -> forallb is_digit (port_digits u) = true.
Proof.
  intros Hp. unfold port_digits. destruct (Z.eqb_spec (port_ u) 0); [done|]. by apply (all_digits_to_string (port_ u)).
Qed.

Lemma auth_text u : wf_uri u -> forallb (none_of "/?#") (auth_chars u) = true.
Proof.
  intros [_ _ Hu Hp Hh _ Hport _ _ _]. unfold auth_chars. rewrite !forallb_app, !andb_true_iff. split; [|split].
  - apply user_part_text; [revert Hu; weaken | revert Hp; weaken | done..].
  - revert Hh. weaken.
  - apply port_part_text; [|done]. generalize (port_digits_text u ltac:(lia)). apply forallb_impl. apply digit_plain.
Qed.

Lemma path_text u : wf_uri u ->
  forallb (none_of "?#") (chars (path_ u)) = true /\
  (chars (path_ u) = [] \/ exists r', chars (path_ u) = "/"%char :: r' /\ forallb any_char r' = true).
Proof.
  intros [_ _ _ _ _ _ _ [->|(p & -> & Hp)] _ _]; [split; [done|by left]|]. unfold text_of in Hp. split.
  - change (forallb (none_of "?#") (chars p) = true). revert Hp. apply forallb_impl. by intros x [? _]%andb_true_iff.
  - right. exists (chars p). split; [done|]. revert Hp. apply forallb_impl. by intros x [_ ?]%andb_true_iff.
Qed.

Lemma ap_text u : wf_uri u -> forallb (none_of "?#") (ap_chars u) = true.
Proof.
  intros Hw. unfold ap_chars. cbn [forallb]. rewrite forallb_app. change (none_of "?#" "/") with true. cbn [andb].
  rewrite andb_true_iff. split; [generalize (auth_text u Hw); weaken | apply (path_text u Hw)].
Qed.

(** The groups of the query and the fragment hide no other group. *)
Lemma submatch_other (q f : chars_t) x n : n <> 3 -> n <> 4 ->
  submatch (match f with [] => id | _ => cons (4, of_chars f) end
              (match q with [] => id | _ => cons (3, of_chars q) end x)) n = submatch x n.
Proof.
  intros H3 H4. destruct q, f; cbn [id submatch]; try done;
    repeat match goal with |- context [Nat.eqb ?a n] => destruct (Nat.eqb_spec a n); [congruence|] end; done.
Qed.

Lemma Uri_new_parts u acaps :
  wf_uri u -> rmatch authorityRegex (auth_chars u) [] at_end = Some acaps ->
  Uri_new (print_uri u) =
  match parse_port (submatch acaps 4) with
  | Throw e => Throw e
  | Ok port => Ok (mkUri (scheme_ u) (submatch acaps 1) (submatch acaps 2) (submatch acaps 3) true port
                         (path_ u) (query_ u) (fragment_ u))
  end.
Proof.
  intros Hw Hacaps. pose proof Hw as [(c & r & Es & Hc & Hr) Hl Hu Hp Hh Ha Hport _ Hq Hf].
  unfold Uri_new, regex_match. rewrite (print_uri_chars u c r) by (done || lia). fold at_end.
  rewrite uri_match by (done || by apply ap_text). rewrite !submatch_other by done. cbn [submatch Nat.eqb].
  rewrite chars_of_chars. unfold ap_chars at 1.
  rewrite authority_path_match; [|generalize (auth_text u Hw); weaken | apply (path_text u Hw)].
  assert (forall x, submatch (match chars (path_ u) with [] => id | _ => cons (2, of_chars (chars (path_ u))) end [(1, x)]) 1 = x) as ->
    by (intros x; by destruct (chars (path_ u))).
  rewrite chars_of_chars, Hacaps. destruct (parse_port _) as [port|e]; [|done]. f_equal.
  rewrite !of_chars_chars.
  assert (of_chars (c :: chars r) = scheme_ u) as -> by (rewrite Es; simpl; by rewrite of_chars_chars).
  rewrite Hl. clear. destruct u as [s n pw h hasA po pa q f]. cbn [path_ query_ fragment_ scheme_].
  f_equal; [by destruct pa | by destruct q, f | by destruct q, f].
Qed.

(** An address is read back from its text: the scheme, the user and password, the host,
    the port, the path, the query and the fragment. *)
Theorem uri_roundtrip u : wf_uri u -> Uri_new (print_uri u) = Ok u.
Proof.
  intros Hw. pose proof Hw as [_ _ Hu Hp Hh Ha Hport _ _ _].
  destruct (authority_match (chars (username_ u)) (chars (password_ u)) (chars (host_ u)) (port_digits u))
    as (acaps & Hacaps & H1 & H2 & H3 & H4);
    [revert Hu; weaken | revert Hp; weaken | revert Hh; weaken | apply port_digits_text; lia|].
  rewrite (Uri_new_parts u acaps Hw Hacaps), H1, H2, H3, H4. unfold port_digits.
  rewrite parse_port_print, !of_chars_chars by done. destruct u. cbn in *. by subst.
Qed.
