(* ===== verification/Http.v ===== *)
(** * The HTTP client (osquery/remote/http/http_client.cpp, http_client.h)

    One connection at a time: it is reused while requests go to the same host with the
    same options, encrypted for the https scheme, made again once after a failure, and
    redirects are followed. The network and the TLS library are the class [Net]. *)
From S2P Require Import Prelude Boost Keeps Uri.

Definition kHTTPSDefaultPort : string := "443".
Definition kHTTPDefaultPort : string := "80".
Definition kProxyDefaultPort : string := "3128".

(** ** Requests and responses *)

(** The part of a request the client looks at; the host header is empty until it is set. *)
Record Request := mkRequest {
  rq_uri : Uri;
  rq_method : string;
  rq_body : string;
  rq_headers : list (string * string);
  rq_host : string;
}.

Definition HTTP_Request_new (url : string) : result Request :=
  match Uri_new url with Ok u => Ok (mkRequest u "" "" [] "") | Throw e => Throw e end.

Definition nonempty (s : string) : option string := if is_empty s then None else Some s.

Definition remoteHost (r : Request) : option string := nonempty (host_ (rq_uri r)).
Definition remotePort (r : Request) : option string :=
  if (0 <? port_ (rq_uri r))%Z then Some (to_string (port_ (rq_uri r))) else None.
Definition remotePath (r : Request) : option string :=
  let u := rq_uri r in
  nonempty (path_ u +:+ (if is_empty (query_ u) then "" else "?" +:+ query_ u)
            +:+ (if is_empty (fragment_ u) then "" else "#" +:+ fragment_ u)).
Definition protocol (r : Request) : option string := nonempty (scheme_ (rq_uri r)).

Definition set_method (m : string) (r : Request) : Request :=
  mkRequest (rq_uri r) m (rq_body r) (rq_headers r) (rq_host r).
Definition set_body (b : string) (r : Request) : Request :=
  mkRequest (rq_uri r) (rq_method r) b (rq_headers r) (rq_host r).
Definition set_header (name value : string) (r : Request) : Request :=
  mkRequest (rq_uri r) (rq_method r) (rq_body r) (rq_headers r ++ [(name, value)]) (rq_host r).
Definition set_host (h : string) (r : Request) : Request :=
  mkRequest (rq_uri r) (rq_method r) (rq_body r) (rq_headers r) h.
(** [uri(url)]. *)
Definition set_uri (url : string) (r : Request) : result Request :=
  match Uri_new url with
  | Ok u => Ok (mkRequest u (rq_method r) (rq_body r) (rq_headers r) (rq_host r))
  | Throw e => Throw e
  end.

Record Response := mkResponse {
  resp_status : Z;
  resp_location : string;
  resp_connection : string;
  resp_body : string;
}.

(** ** Options *)

Record Options := mkOptions {
  server_certificate_ : option string;
  verify_path_ : option string;
  client_certificate_file_ : option string;
  client_private_key_file_ : option string;
  ciphers_ : option string;
  sni_hostname_ : option string;
  proxy_hostname_ : option string;
  remote_hostname_ : option string;
  remote_port_ : option string;
  ssl_options_ : Z;
  timeout_ : Z;
  always_verify_peer_ : bool;
  follow_redirects_ : bool;
  keep_alive_ : bool;
  ssl_connection_ : bool;
}.

Definition default_options : Options :=
  mkOptions None None None None None None None None None 0 0 false false false false.

(** [operator==]: the remote side, the timeout and the redirects do not count. *)
Definition same_options (a b : Options) : bool :=
  bool_decide (server_certificate_ a = server_certificate_ b) &&
  bool_decide (verify_path_ a = verify_path_ b) &&
  bool_decide (client_certificate_file_ a = client_certificate_file_ b) &&
  bool_decide (client_private_key_file_ a = client_private_key_file_ b) &&
  bool_decide (ciphers_ a = ciphers_ b) &&
  bool_decide (sni_hostname_ a = sni_hostname_ b) &&
  (ssl_options_ a =? ssl_options_ b)%Z &&
  Bool.eqb (always_verify_peer_ a) (always_verify_peer_ b) &&
  bool_decide (proxy_hostname_ a = proxy_hostname_ b) &&
  Bool.eqb (keep_alive_ a) (keep_alive_ b).

Definition set_remote (h p : option string) (ssl : bool) (o : Options) : Options :=
  mkOptions (server_certificate_ o) (verify_path_ o) (client_certificate_file_ o)
    (client_private_key_file_ o) (ciphers_ o) (sni_hostname_ o) (proxy_hostname_ o) h p
    (ssl_options_ o) (timeout_ o) (always_verify_peer_ o) (follow_redirects_ o) (keep_alive_ o) ssl.

(** How a connection is encrypted. *)
Record TlsConfig := mkTls {
  verify_peer : bool;
  verify_file : option string;
  verify_dir : option string;
  tls_ciphers : option string;
  tls_options : Z;
  client_certificate : option string;
  client_key : option string;
  sni : option string;
}.

Definition tls_config (o : Options) : TlsConfig :=
  mkTls (always_verify_peer_ o || bool_decide (is_Some (server_certificate_ o))
           || bool_decide (is_Some (verify_path_ o)))
    (server_certificate_ o) (verify_path_ o) (ciphers_ o) (ssl_options_ o)
    (client_certificate_file_ o) (client_private_key_file_ o) (sni_hostname_ o).

(** ** The network *)

(** The outcome of a write or a read. *)
Inductive io_code := IoOk | IoShortRead | IoCanceled | IoError (what : string).

(** The connection: where it goes and, once encrypted, how. *)
Record Conn := mkConn { conn_host : string; conn_port : string; conn_tls : option TlsConfig }.

(** What goes over the wire. *)
Record Wire := mkWire {
  wire_method : string; wire_target : string; wire_host : string;
  wire_headers : list (string * string); wire_body : string;
}.

Class Net (S : Type) := {
  (** [resolve] and [connect]; the error text when it fails. *)
  net_connect : string -> string -> M S (option string);
  net_close : M S unit;
  net_keep_alive : M S unit;
  (** [CONNECT] through a proxy; the reason when it is refused. *)
  net_proxy : string -> M S (option string);
  (** The handshake; the error text when it fails. *)
  net_handshake : TlsConfig -> M S (option string);
  (** A write or a read over a connection: whether the timer fired before it was done,
      and the outcome. *)
  net_write : Conn -> Wire -> M S (bool * io_code);
  net_read : Conn -> M S (bool * io_code * Response);
}.

Record Client (S : Type) := mkClient {
  cl_net : S;
  client_options_ : Options;
  new_client_options_ : bool;
  (** The socket, when it is open. *)
  sock_ : option Conn;
  ec_ : option string;
}.
Arguments mkClient {S}. Arguments cl_net {S}. Arguments client_options_ {S}.
Arguments new_client_options_ {S}. Arguments sock_ {S}. Arguments ec_ {S}.

Section Client.
Context {S : Type} {N : Net S}.
Abbreviation MC := (M (Client S)).

Definition with_net (n : S) (c : Client S) : Client S :=
  mkClient n (client_options_ c) (new_client_options_ c) (sock_ c) (ec_ c).
Definition with_options (o : Options) (new : bool) (c : Client S) : Client S :=
  mkClient (cl_net c) o new (sock_ c) (ec_ c).
Definition with_sock (s : option Conn) (c : Client S) : Client S :=
  mkClient (cl_net c) (client_options_ c) (new_client_options_ c) s (ec_ c).
Definition with_ec (e : option string) (c : Client S) : Client S :=
  mkClient (cl_net c) (client_options_ c) (new_client_options_ c) (sock_ c) e.

Definition on_net {A} (m : M S A) : MC A := zoom cl_net with_net m.

Definition Client_new (n : S) : Client S := mkClient n default_options true None None.

Definition setOptions (opts : Options) : MC unit :=
  modify (fun c =>
    let new := negb (same_options (client_options_ c) opts) in
    with_options (if new then opts else client_options_ c) new c).

Definition closeSocket : MC unit :=
  let* s := gets sock_ in
  match s with
  | None => ret tt
  | Some _ => on_net net_close ;;; modify (with_sock None)
  end.

(** [*optional]. *)
Definition value_of (o : option string) : result string :=
  match o with Some s => Ok s | None => Throw AssertFailure end.

Definition timeoutHandler : MC unit := closeSocket ;;; modify (with_ec (Some "Connection timed out")).

Definition postResponseHandler (ec : io_code) : MC unit :=
  match ec with
  | IoShortRead => modify (with_ec None) ;;; closeSocket
  | IoCanceled => ret tt
  | IoOk => modify (with_ec None)
  | IoError e => modify (with_ec (Some e))
  end.

(** Where the connection goes: the proxy or the host, cut at the first colon. *)
Definition connect_target (o : Options) : result (string * string) :=
  match (match proxy_hostname_ o with
         | Some p => Ok (kProxyDefaultPort, p)
         | None => match value_of (remote_port_ o), value_of (remote_hostname_ o) with
                   | Ok p, Ok h => Ok (p, h)
                   | Throw e, _ | _, Throw e => Throw e
                   end
         end) with
  | Throw e => Throw e
  | Ok (port, host) =>
      match find_str ":" host with
      | Some pos => Ok (String.substring 0 pos host, String.substring (pos + 1) (String.length host) host)
      | None => Ok (host, port)
      end
  end.

Definition createConnection : MC unit :=
  let* o := gets client_options_ in
  let* (host, port) := of_result (connect_target o) in
  let* rc := on_net (net_connect host port) in
  match rc with
  | Some e =>
      throw (RuntimeError ("Failed to connect to " +:+
        (match proxy_hostname_ o with Some _ => "proxy host " | None => "" end) +:+ host +:+ ":" +:+ port +:+ ": " +:+ e))
  | None =>
      modify (with_sock (Some (mkConn host port None))) ;;;
      (if keep_alive_ o then on_net net_keep_alive else ret tt) ;;;
      match proxy_hostname_ o with
      | None => ret tt
      | Some _ =>
          let* h := of_result (value_of (remote_hostname_ o)) in
          let* p := of_result (value_of (remote_port_ o)) in
          let* refused := on_net (net_proxy (h +:+ ":" +:+ p)) in
          match refused with Some reason => throw (RuntimeError reason) | None => ret tt end
      end
  end.

Definition encryptConnection : MC unit :=
  let* o := gets client_options_ in
  let* rc := on_net (net_handshake (tls_config o)) in
  match rc with
  | Some e => throw (RuntimeError e)
  | None => modify (fun c => with_sock (match sock_ c with
                                        | Some s => Some (mkConn (conn_host s) (conn_port s) (Some (tls_config o)))
                                        | None => None
                                        end) c)
  end.

(** The host header, set when it is not set yet. *)
Definition host_header (o : Options) : result string :=
  match value_of (remote_hostname_ o), value_of (remote_port_ o) with
  | Ok h, Ok p =>
      if ssl_connection_ o && negb (bool_decide (kHTTPSDefaultPort = p)) then Ok (h +:+ ":" +:+ p)
      else if negb (ssl_connection_ o) && negb (bool_decide (kHTTPDefaultPort = p)) then Ok (h +:+ ":" +:+ p)
      else Ok h
  | Throw e, _ | _, Throw e => Throw e
  end.

Definition wire_of (r : Request) : Wire :=
  mkWire (rq_method r) (default "/" (remotePath r)) (rq_host r) (rq_headers r) (rq_body r).

(** The timer fires only when there is a timeout. *)
Definition fire_timer (fired : bool) : MC unit :=
  let* o := gets client_options_ in
  if negb (timeout_ o =? 0)%Z && fired then timeoutHandler else ret tt.

Definition check_ec : MC unit :=
  let* e := gets ec_ in
  match e with Some e => throw (RuntimeError e) | None => ret tt end.

(** The response and the request with its host header; [sock] is the stream. *)
Definition sendRequest (sock : Conn) (req : Request) : MC (Response * Request) :=
  let* o := gets client_options_ in
  let* req := (if is_empty (rq_host req)
               then let* h := of_result (host_header o) in ret (set_host h req)
               else ret req) in
  let* (fired, ec) := on_net (net_write sock (wire_of req)) in
  fire_timer fired ;;;
  (match ec with
   | IoCanceled => ret tt
   | IoOk => modify (with_ec None)
   | IoShortRead => modify (with_ec (Some "short read"))
   | IoError e => modify (with_ec (Some e))
   end) ;;;
  check_ec ;;;
  let* (fired, ec, resp) := on_net (net_read sock) in
  fire_timer fired ;;;
  postResponseHandler ec ;;;
  check_ec ;;;
  (if bool_decide (resp_connection resp = "close") then closeSocket else ret tt) ;;;
  ret (resp, req).

Definition is_https (r : Request) : bool := bool_decide (protocol r = Some "https").

(** Whether a new connection is needed. *)
Definition initHTTPRequest (req : Request) : MC bool :=
  let* c := gets id in
  let o := client_options_ c in
  match remoteHost req with
  | Some hostname =>
      let port := match remotePort req with
                  | Some p => p
                  | None => if is_https req then kHTTPSDefaultPort else kHTTPDefaultPort
                  end in
      let ssl := is_https req in
      let* fresh :=
        (if bool_decide (sock_ c = None) || new_client_options_ c then ret true
         else
           let* h := of_result (value_of (remote_hostname_ o)) in
           if negb (bool_decide (hostname = h)) then ret true
           else
             let* p := of_result (value_of (remote_port_ o)) in
             ret (negb (bool_decide (port = p)) || negb (Bool.eqb (ssl_connection_ o) ssl))) in
      if fresh : bool then
        modify (with_options (set_remote (Some hostname) (Some port) ssl o) false) ;;;
        closeSocket ;;;
        ret true
      else ret false
  | None =>
      match remote_hostname_ o with
      | None => throw (RuntimeError "Remote hostname missing")
      | Some h =>
          (match remote_port_ o with
           | Some _ => ret tt
           | None => modify (with_options (set_remote (Some h)
                       (Some (if ssl_connection_ o then kHTTPSDefaultPort else kHTTPDefaultPort))
                       (ssl_connection_ o) o) (new_client_options_ c))
           end) ;;;
          closeSocket ;;;
          ret true
      end
  end.

Definition is_redirect (status : Z) : bool :=
  existsb (Z.eqb status) [301; 302; 303; 304; 305; 307; 308]%Z.

(** A connection to talk over. *)
Definition open_connection (create_connection : bool) : MC unit :=
  if create_connection then
    createConnection ;;;
    let* o := gets client_options_ in
    if ssl_connection_ o then encryptConnection else ret tt
  else ret tt.

(** One turn of the loop, inside [try]: the response, or the request to go on with. *)
Definition exchange (req : Request) (create_connection : bool) : MC (Response + Request) :=
  open_connection create_connection ;;;
  let* s := gets sock_ in
  match s with
  | None => throw AssertFailure
  | Some sock =>
      let* (resp, req) := sendRequest sock req in
      if is_redirect (resp_status resp) then
        let* o := gets client_options_ in
        if negb (follow_redirects_ o) then ret (inl resp)
        else if is_empty (resp_location resp)
        then throw (RuntimeError "Location header missing in redirect response")
        else let* req := of_result (set_uri (resp_location resp) req) in ret (inr req)
      else ret (inl resp)
  end.

(** What a turn that threw does next. *)
Definition after_failure {A} (e : exn) (retry_connect : bool) (again : MC A) : MC A :=
  match e with
  | AssertFailure => throw AssertFailure
  | _ => closeSocket ;;; if retry_connect then throw e else again
  end.

(** [sendHTTPRequest]: the loop has no bound of its own; [None] is out of fuel. A host
    header a failed turn set is the one the next turn would set: the options are the
    same. *)
Fixpoint http_loop (fuel : nat) (req : Request) (retry_connect : bool) : MC (option Response) :=
  match fuel with
  | O => ret None
  | Datatypes.S fuel =>
      let* create_connection := (if negb retry_connect then initHTTPRequest req else ret true) in
      fun c =>
        match exchange req create_connection c with
        | (Ok (inl resp), c) => (Ok (Some resp), c)
        | (Ok (inr req), c) => http_loop fuel req retry_connect c
        | (Throw e, c) => after_failure e retry_connect (http_loop fuel req true) c
        end
  end.

Definition sendHTTPRequest (fuel : nat) (req : Request) : MC (option Response) := http_loop fuel req false.

Definition http_get (fuel : nat) (req : Request) : MC (option Response) :=
  sendHTTPRequest fuel (set_method "GET" req).
Definition with_payload (method body content_type : string) (req : Request) : Request :=
  let req := set_body body (set_method method req) in
  if is_empty content_type then req else set_header "Content-Type" content_type req.
Definition http_post (fuel : nat) (req : Request) (body content_type : string) : MC (option Response) :=
  sendHTTPRequest fuel (with_payload "POST" body content_type req).
Definition http_put (fuel : nat) (req : Request) (body content_type : string) : MC (option Response) :=
  sendHTTPRequest fuel (with_payload "PUT" body content_type req).
Definition http_head (fuel : nat) (req : Request) : MC (option Response) :=
  sendHTTPRequest fuel (set_method "HEAD" req).
Definition http_delete (fuel : nat) (req : Request) : MC (option Response) :=
  sendHTTPRequest fuel (set_method "DELETE" req).
End Client.

(** * The HTTP client: where requests go

    An open connection always leads to the host, port and protocol of the client's
    options, and a request is sent over a connection to its own address; after a failed
    attempt this no longer holds for redirects. The loop ends when the redirects do. *)

Section Facts.
Context {S : Type} {N : Net S}.
Abbreviation MC := (M (Client S)).

(** The network reports errors as values. *)
Class NetTotal : Prop := {
  total_connect h p s : exists r s', net_connect h p s = (Ok r, s');
  total_close s : exists r s', net_close s = (Ok r, s');
  total_keep_alive s : exists r s', net_keep_alive s = (Ok r, s');
  total_proxy t s : exists r s', net_proxy t s = (Ok r, s');
  total_handshake t s : exists r s', net_handshake t s = (Ok r, s');
  total_write k w s : exists r s', net_write k w s = (Ok r, s');
  total_read k s : exists r s', net_read k s = (Ok r, s');
}.
Context {T : NetTotal}.

Definition remote_set (c : Client S) : Prop :=
  is_Some (remote_hostname_ (client_options_ c)) /\ is_Some (remote_port_ (client_options_ c)).

(** The connection leads to the remote side of the options. *)
Record leads (c : Client S) (k : Conn) : Prop := {
  leads_set : remote_set c;
  leads_target : connect_target (client_options_ c) = Ok (conn_host k, conn_port k);
  leads_tls : conn_tls k = if ssl_connection_ (client_options_ c) then Some (tls_config (client_options_ c)) else None;
}.

Definition settled (c : Client S) : Prop :=
  forall k, sock_ c = Some k -> new_client_options_ c = false -> leads c k.

(** Only the network and the socket change. *)
Definition same_client (c c' : Client S) : Prop :=
  client_options_ c' = client_options_ c /\ new_client_options_ c' = new_client_options_ c.

Lemma same_refl c : same_client c c.
Proof. done. Qed.
Lemma same_trans a b c : same_client a b -> same_client b c -> same_client a c.
Proof. unfold same_client. intuition congruence. Qed.

Lemma leads_same c c' k : same_client c c' -> leads c k -> leads c' k.
Proof. intros [E _] [[H1 H2] H3 H4]. split; [split|..]; by rewrite E. Qed.

Lemma ends_net {A} (m : M S A) (Q : A -> Client S -> Prop) (E : Client S -> Prop) c :
  (exists r s', m (cl_net c) = (Ok r, s')) -> (forall r s', Q r (with_net s' c)) -> ends (on_net m) Q E c.
Proof. intros (r & s' & Em) HQ. unfold ends, on_net, zoom. rewrite Em. apply HQ. Qed.

Lemma ends_close (Q : unit -> Client S -> Prop) (E : Client S -> Prop) c :
  (forall c', same_client c c' -> sock_ c' = None -> ec_ c' = ec_ c -> Q tt c') -> ends closeSocket Q E c.
Proof.
  intros HQ. unfold closeSocket. apply ends_bind, ends_gets. destruct (sock_ c) eqn:Es; [|by apply HQ].
  apply ends_bind, ends_net; [apply total_close|]. intros _ s'. apply ends_modify. by apply HQ.
Qed.

Lemma target_set o : is_Some (remote_hostname_ o) -> is_Some (remote_port_ o) ->
  exists h p, connect_target o = Ok (h, p).
Proof.
  intros [h Hh] [p Hp]. unfold connect_target. rewrite Hh, Hp.
  destruct (proxy_hostname_ o); cbn [value_of]; destruct (find_str _ _); eauto.
Qed.

Lemma ends_create c : remote_set c ->
  ends createConnection
    (fun _ c' => same_client c c' /\ exists h p, connect_target (client_options_ c) = Ok (h, p) /\
                 sock_ c' = Some (mkConn h p None))
    (same_client c) c.
Proof.
  intros [Hh Hp]. unfold createConnection. apply ends_bind, ends_gets, ends_bind.
  destruct (target_set _ Hh Hp) as (h & p & Et). apply (ends_result _ (h, p)); [done|].
  apply ends_bind, ends_net; [apply total_connect|]. intros [e|] s'; [by apply ends_throw|].
  apply ends_bind, ends_modify, ends_bind.
  assert (forall c1, same_client c c1 -> sock_ c1 = Some (mkConn h p None) ->
    ends (match proxy_hostname_ (client_options_ c) with
      | None => ret tt
      | Some _ =>
          let* h := of_result (value_of (remote_hostname_ (client_options_ c))) in
          let* p := of_result (value_of (remote_port_ (client_options_ c))) in
          let* refused := on_net (net_proxy (h +:+ ":" +:+ p)) in
          match refused with Some reason => throw (RuntimeError reason) | None => ret tt end
      end)
      (fun _ c' => same_client c c' /\ exists h p, connect_target (client_options_ c) = Ok (h, p) /\
                 sock_ c' = Some (mkConn h p None)) (same_client c) c1) as Hproxy.
  { intros c1 H1 H2. destruct (proxy_hostname_ (client_options_ c)) as [x|]; [|apply ends_ret; eauto].
    destruct Hh as [hh Hh], Hp as [pp Hp]. apply ends_bind, (ends_result _ hh); [by rewrite Hh|].
    apply ends_bind, (ends_result _ pp); [by rewrite Hp|]. apply ends_bind, ends_net; [apply total_proxy|]. intros [r|] s2; [by apply ends_throw|].
    apply ends_ret. eauto 10. }
  destruct (keep_alive_ (client_options_ c)).
  - apply ends_net; [apply total_keep_alive|]. intros _ s2. by apply Hproxy.
  - by apply ends_ret, Hproxy.
Qed.

(** A connection that was just opened leads where the options say. *)
Lemma ends_open c : remote_set c ->
  ends (open_connection true) (fun _ c' => same_client c c' /\ exists k, sock_ c' = Some k /\ leads c' k) (same_client c) c.
Proof.
  intros Hr. unfold open_connection. apply ends_bind. eapply ends_mono; [by apply ends_create| |done].
  intros _ c1 (H1 & h & p & Et & Hs). apply ends_bind, ends_gets.
  assert (remote_set c1) as Hr1 by (destruct H1 as [E _]; unfold remote_set; by rewrite E).
  destruct (ssl_connection_ (client_options_ c1)) eqn:Essl.
  - unfold encryptConnection. apply ends_bind, ends_gets, ends_bind, ends_net; [apply total_handshake|].
    intros [e|] s2; [by apply ends_throw|]. apply ends_modify. cbn [sock_ with_net]. rewrite Hs.
    split; [exact H1|]. eexists; split; [done|]. split; cbn; [done| |by rewrite Essl].
    destruct H1 as [-> _]. by rewrite Et.
  - apply ends_ret. split; [done|]. eexists; split; [done|]. split; [done| |by rewrite Essl].
    destruct H1 as [-> _]. by rewrite Et.
Qed.

(** The socket stays or is closed. *)
Definition kept (k : Conn) (c c' : Client S) : Prop :=
  same_client c c' /\ (sock_ c' = Some k \/ sock_ c' = None).

Lemma ends_kept_close k c c0 : kept k c0 c -> ends closeSocket (fun _ => kept k c0) (same_client c0) c.
Proof.
  intros [H _]. apply ends_close. intros c' H' Hs _. split; [by eapply same_trans|by right].
Qed.

Lemma ends_kept_ec k e c c0 : kept k c0 c -> ends (modify (with_ec e)) (fun _ => kept k c0) (same_client c0) c.
Proof. intros [H1 H2]. by apply ends_modify. Qed.

Lemma ends_kept_timer k fired c c0 : kept k c0 c -> ends (fire_timer fired) (fun _ => kept k c0) (same_client c0) c.
Proof.
  intros H. unfold fire_timer. apply ends_bind, ends_gets. destruct (_ && _); [|by apply ends_ret].
  unfold timeoutHandler. apply ends_bind. eapply ends_mono; [by apply ends_kept_close| |done].
  intros [] c1 H1. by apply ends_kept_ec.
Qed.

Lemma ends_kept_check k c c0 : kept k c0 c -> ends check_ec (fun _ => kept k c0) (same_client c0) c.
Proof.
  intros H. unfold check_ec. apply ends_bind, ends_gets. destruct (ec_ c); [apply ends_throw; [done|apply H] | by apply ends_ret].
Qed.

Lemma ends_kept_post k ec c c0 : kept k c0 c -> ends (postResponseHandler ec) (fun _ => kept k c0) (same_client c0) c.
Proof.
  intros H. destruct ec; cbn [postResponseHandler]; [by apply ends_kept_ec| |by apply ends_ret|by apply ends_kept_ec].
  apply ends_bind. eapply ends_mono; [by apply ends_kept_ec| |done]. intros [] c1 H1. by apply ends_kept_close.
Qed.

Lemma header_set o : is_Some (remote_hostname_ o) -> is_Some (remote_port_ o) -> exists h, host_header o = Ok h.
Proof.
  intros [h Hh] [p Hp]. unfold host_header. rewrite Hh, Hp. cbn [value_of].
  destruct (_ && _); [eauto|]. destruct (_ && _); eauto.
Qed.

Lemma ends_send k req c : remote_set c -> (sock_ c = Some k \/ sock_ c = None) ->
  ends (sendRequest k req) (fun _ => kept k c) (same_client c) c.
Proof.
  intros [Hh Hp] Hk. unfold sendRequest. apply ends_bind, ends_gets, ends_bind.
  eapply (ends_mono _ (fun _ c' => c' = c) _ (fun _ => False)); [| |done].
  { destruct (is_empty (rq_host req)); [|by apply ends_ret]. destruct (header_set _ Hh Hp) as [h Eh].
    apply ends_bind, (ends_result _ h); [done|]. by apply ends_ret. }
  intros req' c' ->. apply ends_bind, ends_net; [apply total_write|]. intros [fired ec] s1.
  assert (kept k c (with_net s1 c)) as K0 by done.
  apply ends_bind. eapply ends_mono; [by apply ends_kept_timer| |done]. intros [] c1 K1.
  apply ends_bind. eapply (ends_mono _ (fun _ => kept k c) _ (same_client c)); [|intros [] c2 K2|done].
  { destruct ec; first [by apply ends_kept_ec | by apply ends_ret]. }
  apply ends_bind. eapply ends_mono; [by apply ends_kept_check| |done]. intros [] c3 K3.
  apply ends_bind, ends_net; [apply total_read|]. intros [[fired' ec'] resp] s2.
  assert (kept k c (with_net s2 c3)) as K4 by done.
  apply ends_bind. eapply ends_mono; [by apply ends_kept_timer| |done]. intros [] c5 K5.
  apply ends_bind. eapply ends_mono; [by apply ends_kept_post| |done]. intros [] c6 K6.
  apply ends_bind. eapply ends_mono; [by apply ends_kept_check| |done]. intros [] c7 K7.
  apply ends_bind. eapply (ends_mono _ (fun _ => kept k c) _ (same_client c)); [|intros [] c8 K8; by apply ends_ret|done].
  destruct (bool_decide _); [by apply ends_kept_close | by apply ends_ret].
Qed.

(** ** Turns *)

(** The address of a request. *)
Definition request_port (r : Request) : string :=
  match remotePort r with Some p => p | None => if is_https r then kHTTPSDefaultPort else kHTTPDefaultPort end.

(** The options are for the address of the request. *)
Definition addressed (r : Request) (c : Client S) : Prop :=
  match remoteHost r with
  | Some h => remote_hostname_ (client_options_ c) = Some h /\
              remote_port_ (client_options_ c) = Some (request_port r) /\
              ssl_connection_ (client_options_ c) = is_https r
  | None => True
  end.

Lemma ends_init req c : settled c ->
  ends (initHTTPRequest req)
    (fun b c' => remote_set c' /\ addressed req c' /\
                 (is_Some (remoteHost req) \/ new_client_options_ c = false -> new_client_options_ c' = false) /\
                 proxy_hostname_ (client_options_ c') = proxy_hostname_ (client_options_ c) /\
                 if b : bool then sock_ c' = None else exists k, sock_ c' = Some k /\ leads c' k)
    (fun _ => remoteHost req = None /\ remote_hostname_ (client_options_ c) = None) c.
Proof.
  intros Hs. unfold initHTTPRequest. apply ends_bind, ends_gets. unfold id.
  unfold addressed. destruct (remoteHost req) as [h|] eqn:Eh.
  - apply ends_bind. fold (request_port req).
    eapply (ends_mono _ (fun b c' => c' = c /\ (b = false -> exists k, sock_ c = Some k /\ leads c k /\ new_client_options_ c = false /\
      remote_hostname_ (client_options_ c) = Some h /\ remote_port_ (client_options_ c) = Some (request_port req) /\
      ssl_connection_ (client_options_ c) = is_https req)) _ (fun _ => False)); [| |done].
    + destruct (sock_ c) as [k|] eqn:Ek; cbn [orb]; [|by apply ends_ret].
      rewrite bool_decide_eq_false_2 by done. cbn [orb].
      destruct (new_client_options_ c) eqn:En; [by apply ends_ret|].
      destruct (Hs k Ek En) as [[[h' Hh] [p' Hp]] Ht Hl]. rewrite Hh, Hp.
      apply ends_bind, (ends_result _ h'); [done|].
      destruct (bool_decide_reflect (h = h')) as [->|]; [|by apply ends_ret]. cbn [negb].
      apply ends_bind, (ends_result _ p'); [done|]. apply ends_ret. split; [done|].
      intros [H1 H2]%orb_false_iff. apply negb_false_iff, bool_decide_eq_true in H1.
      apply negb_false_iff, Bool.eqb_prop in H2. exists k. split; [done|].
      split; [split; [split; rewrite ?Hh, ?Hp; eauto|..]; done|]. by rewrite H1.
    + intros b c' [-> Hb]. destruct b.
      * apply ends_bind, ends_modify, ends_bind, ends_close. intros c1 [Eo En] Esock _. apply ends_ret.
        unfold remote_set. rewrite Eo, En. cbn. split; [split; eauto|]. done.
      * destruct (Hb eq_refl) as (k & Hk & Hl & Hnew & H1 & H2 & H3). apply ends_ret. split; [apply Hl|]. split; [done|].
        split; [done|]. split; [done|]. by exists k.
  - destruct (remote_hostname_ (client_options_ c)) as [h|] eqn:Eo; [|by apply ends_throw].
    assert (forall b, is_Some (@None string) \/ b = false -> b = false) as HN by (intros b [[? ?]|?]; done).
    apply ends_bind. destruct (remote_port_ (client_options_ c)) as [p|] eqn:Ep.
    + apply ends_ret, ends_bind, ends_close. intros c1 [E1 E2] Es _. apply ends_ret.
      unfold remote_set. rewrite E1, E2, Eo, Ep. split; [split; eauto|]. auto.
    + apply ends_modify, ends_bind, ends_close. intros c1 [E1 E2] Es _. apply ends_ret.
      unfold remote_set. rewrite E1, E2. cbn. split; [split; eauto|]. auto.
Qed.

(** A client that made a request: its options are in use and the socket fits them. *)
Definition at_rest (c : Client S) : Prop := settled c /\ new_client_options_ c = false /\ remote_set c.

Lemma at_rest_close c c' : new_client_options_ c = false -> remote_set c -> same_client c c' -> sock_ c' = None -> at_rest c'.
Proof.
  intros Hn Hr [E1 E2] Hs. split; [|split].
  - intros k Hk. congruence.
  - by rewrite E2.
  - unfold remote_set. by rewrite E1.
Qed.

Lemma Uri_new_throws str e : Uri_new str = Throw e -> e <> AssertFailure.
Proof.
  unfold Uri_new, parse_port, stoi, sto_signed. intros E. repeat case_match; simplify_eq; done.
Qed.

Lemma ends_exchange req b c :
  new_client_options_ c = false -> remote_set c -> (b = false -> exists k, sock_ c = Some k /\ leads c k) ->
  ends (exchange req b) (fun _ c' => same_client c c' /\ at_rest c') (same_client c) c.
Proof.
  intros Hn Hr Hb. unfold exchange. apply ends_bind.
  eapply (ends_mono _ (fun _ c' => same_client c c' /\ exists k, sock_ c' = Some k /\ leads c' k) _ (same_client c)); [| |done].
  { destruct b; [by apply ends_open|]. destruct (Hb eq_refl) as (k & Hk & Hl). apply ends_ret. split; [done|by exists k]. }
  intros [] c1 (H1 & k & Hk & Hl). apply ends_bind, ends_gets. rewrite Hk. apply ends_bind.
  eapply ends_mono; [apply (ends_send k); [apply Hl|by left]| |].
  2: { intros c2 H2. by eapply same_trans. }
  intros [resp req'] c2 [K1 K2].
  assert (same_client c c2) as H2 by by eapply same_trans.
  assert (at_rest c2) as Hrest.
  { split; [|split].
    - intros k' Hk' _. destruct K2 as [K2|K2]; [|congruence]. rewrite K2 in Hk'. injection Hk' as <-.
      exact (leads_same _ _ _ K1 Hl).
    - destruct H2 as [_ ->]. done.
    - unfold remote_set. by destruct H2 as [-> _]. }
  destruct (is_redirect _); [|by apply ends_ret]. apply ends_bind, ends_gets.
  destruct (negb _); [by apply ends_ret|]. destruct (is_empty _); [by apply ends_throw|].
  apply ends_bind. unfold ends at 1, of_result, set_uri.
  destruct (Uri_new (resp_location resp)) as [u|e] eqn:Eu; [by apply ends_ret|].
  split; [exact (Uri_new_throws _ _ Eu)|done].
Qed.

(** A request that is being made. *)
Definition underway (retry : bool) (req : Request) (c : Client S) : Prop :=
  settled c /\ (retry = true \/ remoteHost req = None -> remote_set c /\ new_client_options_ c = false).

Lemma ends_loop fuel req retry c :
  underway retry req c -> (fuel <> 0 \/ at_rest c) ->
  ends (http_loop fuel req retry) (fun _ => at_rest) at_rest c.
Proof.
  revert req retry c. induction fuel as [|fuel IH]; intros req retry c [Hs Hu] Hf; cbn [http_loop].
  { destruct Hf; [done|]. by apply ends_ret. }
  apply ends_bind.
  eapply (ends_mono _ (fun b c' => new_client_options_ c' = false /\ remote_set c' /\
     (b = false -> exists k, sock_ c' = Some k /\ leads c' k)) _ (fun _ => False)); [| |done].
  { destruct retry; cbn [negb].
    - apply ends_ret. destruct (Hu ltac:(by left)) as [H1 H2]. by split.
    - eapply ends_mono; [by apply ends_init|..].
      + intros b c' (H1 & _ & H2 & _ & H3). split; [|split; [done|intros ->; done]]. apply H2.
        destruct (remoteHost req); [left; eauto|right]. by apply Hu; right.
      + intros c' [H1 H2]. destruct (Hu ltac:(by right)) as [[[h Hh] _] _]. congruence. }
  intros b c1 (Hn & Hr & Hb). pose proof (ends_exchange req b c1 Hn Hr Hb) as He. unfold ends in He |- *.
  destruct (exchange req b c1) as [[[resp|req']|e] c2].
  - apply He.
  - destruct He as [_ He]. apply IH; [|by right]. destruct He as (E1 & E2 & E3). split; [done|]. by intros _.
  - destruct He as [Hne He]. fold (ends (after_failure e retry (http_loop fuel req true)) (fun _ => at_rest) at_rest c2).
    unfold after_failure.
    assert (ends (closeSocket ;;; if retry then throw e else http_loop fuel req true) (fun _ => at_rest) at_rest c2) as HF;
      [|by destruct e].
    apply ends_bind, ends_close. intros c3 H3 Hs3 _.
    assert (at_rest c3) as Hrest by (apply (at_rest_close c1); [done..|by eapply same_trans|done]).
    destruct retry; [by apply ends_throw|]. apply IH; [|by right]. destruct Hrest as (E1 & E2 & E3).
    split; [done|]. by intros _.
Qed.

(** ** A session *)

(** The use the transport makes of a client: options and then a request, whose failure
    is handled. *)
Definition session (fuel : nat) (l : list (Options * Request)) : MC unit :=
  for_each l (fun x => setOptions x.1 ;;;
                       catch (let* _ := sendHTTPRequest fuel x.2 in ret tt) (fun _ => ret tt)).

Definition idle (c : Client S) : Prop := settled c /\ (new_client_options_ c = true -> sock_ c = None).

Lemma set_options_settled o c : idle c -> settled (setOptions o c).2.
Proof.
  intros [Hs Hn] k. unfold setOptions, modify. cbn [snd]. intros Hk Hnew. cbn in Hk, Hnew.
  rewrite Hnew in *. destruct (new_client_options_ c) eqn:E.
  - rewrite Hn in Hk by done. done.
  - apply (leads_same c); [split; [done|by rewrite E]|]. by apply Hs.
Qed.

(** Through any number of requests and whatever fails, no assertion about the client's
    options is violated, and an open connection leads to the host and port the options
    name, encrypted exactly when they say so. *)
Theorem connections_lead_where_the_options_say fuel n l :
  (forall o r, (o, r) ∈ l -> is_Some (remoteHost r)) -> fuel <> 0 ->
  exists c, session fuel l (Client_new n) = (Ok tt, c) /\ settled c.
Proof.
  intros Hl Hfuel. assert (idle (Client_new n)) as H0 by done. revert H0. generalize (Client_new n) as c0.
  induction l as [|[o r] l IH]; intros c0 H0; unfold session; cbn [for_each].
  { exists c0. split; [done|apply H0]. }
  assert (forall o' r', (o', r') ∈ l -> is_Some (remoteHost r')) as Hl' by (intros; eapply Hl; by right).
  destruct (Hl o r ltac:(left)) as [h Hh].
  pose proof (set_options_settled o c0 H0) as Hs. unfold setOptions, modify in Hs. cbn [snd] in Hs.
  unfold bind at 1, setOptions, modify. unfold bind at 1.
  match goal with |- context [with_options ?a ?b c0] => set (c1 := with_options a b c0) in * end.
  assert (ends (http_loop fuel r false) (fun _ => at_rest) at_rest c1) as He.
  { apply ends_loop; [|by left]. split; [done|]. intros [?|?]; congruence. }
  cbn [fst snd]. unfold catch, sendHTTPRequest, bind at 1. unfold ends in He.
  destruct (http_loop fuel r false c1) as [[a|e] c2].
  - cbn [ret]. apply IH; [done|]. destruct He as (E1 & E2 & _). split; [done|]. congruence.
  - destruct He as [He1 (E1 & E2 & _)].
    assert (idle c2) as Hi by (split; [done|congruence]). destruct e; try done; by apply IH.
Qed.

(** The first connection of a request goes to the host and port of its address, and it
    is encrypted exactly when the scheme is https, whether it is new or reused. *)
Theorem request_goes_to_its_address req h b c c1 c2 :
  settled c -> remoteHost req = Some h -> find_str ":" h = None -> proxy_hostname_ (client_options_ c) = None ->
  initHTTPRequest req c = (Ok b, c1) -> open_connection b c1 = (Ok tt, c2) ->
  sock_ c2 = Some (mkConn h (request_port req)
                          (if is_https req then Some (tls_config (client_options_ c2)) else None)).
Proof.
  intros Hs Hh Hcolon Hproxy Ei Eo.
  destruct (ends_Ok _ _ _ _ _ _ (ends_init req c Hs) Ei) as (Hr & Ha & _ & Hp1 & Hb). rewrite Hproxy in Hp1.
  assert (exists k, sock_ c2 = Some k /\ leads c2 k /\ same_client c1 c2) as (k & Hk & [[_ _] Ht Hl] & E1 & _).
  { destruct b.
    - destruct (ends_Ok _ _ _ _ _ _ (ends_open c1 Hr) Eo) as (H1 & k & H2 & H3). eauto.
    - injection Eo as <-. destruct Hb as (k & Hk & Hl). exists k. done. }
  unfold addressed in Ha. rewrite Hh in Ha. destruct Ha as (H1 & H2 & H3).
  rewrite <- E1 in H1, H2, H3, Hp1. unfold connect_target in Ht. rewrite Hp1, H1, H2 in Ht. cbn [value_of] in Ht.
  rewrite Hcolon in Ht. injection Ht as Ht1 Ht2. rewrite H3 in Hl. rewrite Hk. destruct k. cbn in *. by subst.
Qed.

(** ** Redirects *)

(** A request that was tried again is only ever sent to the host of its first attempt,
    wherever it is redirected to. *)
Theorem retried_request_ignores_redirects fuel req c r c' :
  new_client_options_ c = false -> remote_set c -> http_loop fuel req true c = (Ok r, c') ->
  client_options_ c' = client_options_ c.
Proof.
  revert req c. induction fuel as [|fuel IH]; intros req c Hn Hr E; cbn [http_loop] in E; [by injection E as <- <-|].
  run_step E as b c1 E1. injection E1 as <- <-.
  pose proof (ends_exchange req true c Hn Hr ltac:(done)) as He.
  unfold ends in He. destruct (exchange req true c) as [[[resp|req']|e] c2].
  - injection E as <- <-. apply He.
  - destruct He as [[He1 He2] _]. rewrite <- He1. apply (IH req'); [congruence| |done]. unfold remote_set. by rewrite He1.
  - destruct He as [He1 He2]. exfalso. unfold after_failure in E.
    assert ((closeSocket ;;; throw e) c2 = (Ok r, c')) as E' by by destruct e.
    run_step E' as u c3 E3. done.
Qed.

End Facts.

(** ** Termination *)

Section Cost.
Context {S : Type} {N : Net S}.
Abbreviation MC := (M (Client S)).

(** How often the network may still redirect. *)
Context (mu : S -> nat).
Class FewRedirects : Prop := {
  mu_connect h p s : mu (net_connect h p s).2 <= mu s;
  mu_close s : mu (net_close s).2 <= mu s;
  mu_keep_alive s : mu (net_keep_alive s).2 <= mu s;
  mu_proxy t s : mu (net_proxy t s).2 <= mu s;
  mu_handshake t s : mu (net_handshake t s).2 <= mu s;
  mu_write k w s : mu (net_write k w s).2 <= mu s;
  mu_read k s : match net_read k s with
                | (Ok (_, _, resp), s') => mu s' + (if is_redirect (resp_status resp) then 1 else 0) <= mu s
                | (Throw _, s') => mu s' <= mu s
                end;
}.
Context {F : FewRedirects}.

(** With [n] redirects in hand, what [m] returns leaves [g] of them. *)
Definition costs {A} (n : nat) (m : MC A) (g : A -> nat) : Prop :=
  forall c, match m c with
            | (Ok a, c') => mu (cl_net c') + g a <= mu (cl_net c) + n
            | (Throw _, c') => mu (cl_net c') <= mu (cl_net c) + n
            end.

Lemma costs_bind {A B} n (m : MC A) (k : A -> MC B) f g :
  costs n m f -> (forall a, costs (f a) (k a) g) -> costs n (bind m k) g.
Proof.
  intros Hm Hk c. specialize (Hm c). unfold bind. destruct (m c) as [[a|e] c1]; [|done].
  specialize (Hk a c1). destruct (k a c1) as [[b|e] c2]; lia.
Qed.

Lemma costs_ret {A} n (a : A) g : g a <= n -> costs n (ret a) g.
Proof. intros H c. simpl. lia. Qed.
Lemma costs_throw {A} n e (g : A -> nat) : costs n (throw e) g.
Proof. intros c. simpl. lia. Qed.
Lemma costs_result {A} n (r : result A) : costs n (of_result r) (fun _ => n).
Proof. intros c. destruct r; simpl; lia. Qed.
Lemma costs_gets {A} n (f : Client S -> A) : costs n (gets f) (fun _ => n).
Proof. intros c. simpl. lia. Qed.
Lemma costs_modify n f : (forall c, cl_net (f c) = cl_net c) -> costs n (modify f) (fun _ => n).
Proof. intros H c. simpl. rewrite H. lia. Qed.
Lemma costs_net {A} n (m : M S A) : (forall s, mu (m s).2 <= mu s) -> costs n (on_net m) (fun _ => n).
Proof. intros H c. unfold on_net, zoom. specialize (H (cl_net c)). destruct (m (cl_net c)) as [[a|e] s]; simpl in *; lia. Qed.

Create HintDb costs.
Hint Resolve costs_ret costs_throw costs_result costs_gets mu_connect mu_close mu_keep_alive mu_proxy mu_handshake mu_write : costs.

(** Calls that may read nothing cost nothing. *)
Ltac cheap :=
  repeat first
    [ progress intros
    | solve [eauto with costs]
    | apply costs_throw
    | apply costs_modify; done
    | apply costs_net; solve [auto with costs]
    | match goal with |- costs ?n (bind _ _) _ => apply (costs_bind n _ _ (fun _ => n)) end
    | match goal with |- costs _ (match ?x with _ => _ end) _ => destruct x end
    | apply costs_ret; done ].

Lemma costs_close n : costs n closeSocket (fun _ => n).
Proof. unfold closeSocket. cheap. Qed.
Hint Resolve costs_close : costs.

Lemma costs_init n req : costs n (initHTTPRequest req) (fun _ => n).
Proof. unfold initHTTPRequest. cheap. Qed.
Hint Resolve costs_init : costs.

Lemma costs_open n b : costs n (open_connection b) (fun _ => n).
Proof. unfold open_connection, createConnection, encryptConnection. cheap. Qed.
Hint Resolve costs_open : costs.

Lemma costs_timer n b : costs n (fire_timer b) (fun _ => n).
Proof. unfold fire_timer, timeoutHandler. cheap. Qed.
Hint Resolve costs_timer : costs.

Lemma costs_check n : costs n check_ec (fun _ => n).
Proof. unfold check_ec. cheap. Qed.
Hint Resolve costs_check : costs.

Lemma costs_post n ec : costs n (postResponseHandler ec) (fun _ => n).
Proof. unfold postResponseHandler. cheap. Qed.
Hint Resolve costs_post : costs.

Definition redirects (resp : Response) : nat := if is_redirect (resp_status resp) then 1 else 0.

Lemma costs_read k : costs 0 (on_net (net_read k)) (fun r => redirects r.2).
Proof.
  intros c. unfold on_net, zoom, redirects. pose proof (mu_read k (cl_net c)) as H.
  destruct (net_read k (cl_net c)) as [[[[f ec] resp]|e] s]; simpl in *; lia.
Qed.

Lemma costs_send k req : costs 0 (sendRequest k req) (fun r => redirects r.1).
Proof.
  unfold sendRequest.
  apply (costs_bind _ _ _ (fun _ => 0)); [cheap|]. intros o. apply (costs_bind _ _ _ (fun _ => 0)); [cheap|]. intros r.
  apply (costs_bind _ _ _ (fun _ => 0)); [cheap|]. intros [fired ec]. apply (costs_bind _ _ _ (fun _ => 0)); [cheap|]. intros _.
  apply (costs_bind _ _ _ (fun _ => 0)); [cheap|]. intros _. apply (costs_bind _ _ _ (fun _ => 0)); [cheap|]. intros _.
  apply (costs_bind _ _ _ (fun r => redirects r.2)); [apply costs_read|]. intros [[fired' ec'] resp]. cbn [snd].
  apply (costs_bind _ _ _ (fun _ => redirects resp)); [cheap|]. intros _.
  apply (costs_bind _ _ _ (fun _ => redirects resp)); [cheap|]. intros _.
  apply (costs_bind _ _ _ (fun _ => redirects resp)); [cheap|]. intros _.
  apply (costs_bind _ _ _ (fun _ => redirects resp)); [cheap|]. intros _. by apply costs_ret.
Qed.

Lemma costs_exchange req b : costs 0 (exchange req b) (fun r => match r with inl _ => 0 | inr _ => 1 end).
Proof.
  unfold exchange. apply (costs_bind _ _ _ (fun _ => 0)); [cheap|]. intros _.
  apply (costs_bind _ _ _ (fun _ => 0)); [cheap|]. intros [k|]; [|apply costs_throw].
  apply (costs_bind _ _ _ (fun r => redirects r.1)); [apply costs_send|]. intros [resp req']. cbn [fst]. unfold redirects.
  destruct (is_redirect _); [|by apply costs_ret]. apply (costs_bind _ _ _ (fun _ => 1)); [cheap|]. intros o.
  destruct (negb _); [apply costs_ret; lia|]. destruct (is_empty _); [apply costs_throw|].
  apply (costs_bind _ _ _ (fun _ => 1)); [apply costs_result|]. intros r. by apply costs_ret.
Qed.

Lemma loop_returns fuel req (retry : bool) (c : Client S) :
  mu (cl_net c) + (if retry then 1 else 2) <= fuel -> (http_loop fuel req retry c).1 <> Ok None.
Proof.
  revert req retry c. induction fuel as [|fuel IH]; intros req retry c Hf; [destruct retry; lia|]. cbn [http_loop].
  assert (costs 0 (if negb retry then initHTTPRequest req else ret true) (fun _ => 0)) as Hi by (destruct retry; cheap).
  specialize (Hi c). unfold bind.
  destruct ((if negb retry then initHTTPRequest req else ret true) c) as [[b|e] c1]; [|done].
  pose proof (costs_exchange req b c1) as He. destruct (exchange req b c1) as [[[resp|req']|e] c2]; [done| |].
  - apply IH. destruct retry; lia.
  - unfold after_failure.
    assert (((closeSocket ;;; if retry then throw e else http_loop fuel req true) c2).1 <> Ok None) as H; [|by destruct e].
    pose proof (costs_close 0 c2) as Hc. unfold bind. destruct (closeSocket c2) as [[u|e'] c3]; [|done].
    destruct retry; [done|]. apply IH. lia.
Qed.

(** The loop ends when the redirects do: over a network that redirects at most [n] times
    more, [n + 2] turns give a response or an exception. *)
Theorem requests_end_with_the_redirects fuel req c :
  mu (cl_net c) + 2 <= fuel -> (sendHTTPRequest fuel req c).1 <> Ok None.
Proof. intros H. by apply loop_returns. Qed.
End Cost.

(** *** A server that redirects to itself *)

(** A network on which everything works and every answer is a redirect to one address. *)
Definition cycle_net : Net unit := {|
  net_connect := fun _ _ => ret None;
  net_close := ret tt;
  net_keep_alive := ret tt;
  net_proxy := fun _ => ret None;
  net_handshake := fun _ => ret None;
  net_write := fun _ _ => ret (false, IoOk);
  net_read := fun _ => ret (false, IoOk, mkResponse 301 "https://host/again" "" "");
|}.

Definition cycle_client : Client unit :=
  mkClient tt (mkOptions None None None None None None None None None 0 16 true true true false) true None None.

Definition cycle_request : Request := mkRequest (mkUri "https" "" "" "host" true 0 "/" "" "") "GET" "" [] "".

(** The options [TLSTransport] uses follow redirects without a limit: against a server
    that redirects to itself the loop never ends. *)
Theorem redirect_cycle_never_ends fuel :
  (sendHTTPRequest (N := cycle_net) fuel cycle_request cycle_client).1 = Ok None.
Proof.
  unfold sendHTTPRequest. destruct fuel as [|fuel]; [done|].
  destruct (exchange (N := cycle_net) cycle_request true (initHTTPRequest (N := cycle_net) cycle_request cycle_client).2)
    as [[[resp|req]|e] c] eqn:E; vm_compute in E; try discriminate E.
  injection E as Er Ec.
  transitivity (http_loop (N := cycle_net) fuel req false c).1.
  { subst. reflexivity. }
  induction fuel as [|fuel IH]; [done|]. etransitivity; [|exact IH]. subst. reflexivity.
Qed.
