(* ===== verification/Remote.v ===== *)
(** * Requests to the server (osquery/remote, and the plugins that use TLS)

    The transport and the serializer, the helper that adds the node key and retries,
    enrollment, and the TLS plugins for the configuration, distributed queries and logs.
    HTTP is the class [HttpClient], which the client of Http.v implements. *)
From S2P Require Import Prelude Boost Conversions Json Database DatabaseFacts Query Logger Uri Http.
Local Open Scope Z_scope.

(** ** The serializer *)

Section Serializer.
Context {R : RapidJSON}.

Definition serialize (doc : json) : Status * string := JSON_toString doc.

(** An empty answer is an empty object; a text that does not parse leaves null. *)
Definition deserialize (serialized : string) : Status * json :=
  if is_empty serialized then (mkStatus 0 "OK", JObject [])
  else match JSON_fromString serialized with
       | (s, Some v) => (s, v)
       | (s, None) => (s, JNull)
       end.
End Serializer.

(** ** The transport *)

Inductive verb := Get | Post (body : string) | Put (body : string).

(** [client->setOptions(options); client->get(r)] and the like; it throws on failure. *)
Class HttpClient (S : Type) := { client_call : Options -> Request -> verb -> M S Response }.

Definition kTLSUserAgentBase : string := "osquery/".
Definition kTLSCiphers : string :=
  "ECDH+AESGCM:DH+AESGCM:ECDH+AES256:DH+AES256:ECDH+AES128:DH+AES:ECDH+3DES:DH+3DES:RSA+AESGCM:RSA+AES:RSA+3DES:!aNULL:!MD5:!CBC:!SHA".

Record TlsFlags := mkTlsFlags {
  FLAGS_tls_hostname : string;
  FLAGS_proxy_hostname : string;
  FLAGS_tls_server_certs : string;
  FLAGS_tls_client_cert : string;
  FLAGS_tls_client_key : string;
  FLAGS_tls_session_reuse : bool;
  FLAGS_tls_node_api : bool;
  FLAGS_tls_secret_always : bool;
  FLAGS_tls_enroll_override : string;
  FLAGS_disable_reenrollment : bool;
  FLAGS_disable_enrollment : bool;
  kVersion : string;
  (** [SSL_OP_NO_SSLv3 | SSL_OP_NO_SSLv2 | SSL_OP_ALL]. *)
  ssl_op : Z;
}.

Record Transport := mkTransport {
  destination_ : string;
  transport_options_ : members;
  response_status_ : Status;
  response_params_ : json;
  t_client_certificate_file_ : string;
  t_client_private_key_file_ : string;
  t_server_certificate_file_ : string;
  verify_peer_ : bool;
}.

Definition set_response (s : Status) (params : json) (t : Transport) : Transport :=
  mkTransport (destination_ t) (transport_options_ t) s params (t_client_certificate_file_ t)
    (t_client_private_key_file_ t) (t_server_certificate_file_ t) (verify_peer_ t).

Definition set_transport_option {R : RapidJSON} (name : string) (v : json) (t : Transport) : Transport :=
  mkTransport (destination_ t) (add_member name v (transport_options_ t)) (response_status_ t)
    (response_params_ t) (t_client_certificate_file_ t) (t_client_private_key_file_ t)
    (t_server_certificate_file_ t) (verify_peer_ t).

(** [e.what()]. *)
Definition exn_what (e : exn) : string :=
  match e with
  | RuntimeError s | InvalidArgument s | OutOfRange s => s
  | BadLexicalCast => "bad lexical cast"
  | AssertFailure => ""
  end.

Definition tlsFailure (what : string) : bool :=
  match find_str "Error" what with
  | Some O => false
  | _ => match find_str "refused" what with Some _ => false | None => true end
  end.

Section Transport.
Context {S : Type} {R : RapidJSON} {B : Boost} {H : HttpClient S} {A : DatabaseAPI S}.
Context (F : TlsFlags).
(** [isReadable(path).ok()], and [compressString]. *)
Context (readable : string -> M S bool) (compressString : string -> string).

Definition TLSTransport_new (destination : string) : Transport :=
  let client := negb (is_empty (FLAGS_tls_client_cert F)) && negb (is_empty (FLAGS_tls_client_key F)) in
  mkTransport destination [] Status_success (JObject [])
    (if client then FLAGS_tls_client_cert F else "") (if client then FLAGS_tls_client_key F else "")
    (FLAGS_tls_server_certs F) true.

Definition decorateRequest (r : Request) : Request :=
  set_header "User-Agent" (kTLSUserAgentBase +:+ kVersion F)
    (set_header "Accept" "application/json" (set_header "Content-Type" "application/json" r)).

Definition getOptions (t : Transport) : M S Options :=
  let proxy := nonempty (FLAGS_proxy_hostname F) in
  let* server := (if is_empty (t_server_certificate_file_ t) then ret None
                  else let* ok := readable (t_server_certificate_file_ t) in
                       ret (if ok : bool then Some (t_server_certificate_file_ t) else None)) in
  let* client := (if is_empty (t_client_certificate_file_ t) then ret false
                  else let* ok := readable (t_client_certificate_file_ t) in
                       if ok : bool then readable (t_client_private_key_file_ t) else ret false) in
  let sni := match member "hostname" (transport_options_ t) with Some (JString s) => Some (c_str s) | _ => None end in
  ret (mkOptions server server
         (if client : bool then Some (t_client_certificate_file_ t) else None)
         (if client : bool then Some (t_client_private_key_file_ t) else None)
         (Some kTLSCiphers) sni proxy None None (ssl_op F) 16 (verify_peer_ t) true
         (FLAGS_tls_session_reuse F) false).

(** The call inside [try]; the exceptions of the client and of parsing the options. *)
Definition send_over_tls (t : Transport) (v : verb) (r : Request) : M S (Status * Transport) :=
  catch
    (let* o := getOptions t in
     let* resp := client_call o r v in
     let (s, params) := deserialize (resp_body resp) in
     ret (s, set_response s params t))
    (fun e => ret (mkStatus (if tlsFailure (exn_what e) then 2 else 1) ("Request error: " +:+ exn_what e), t)).

Definition is_https_destination (t : Transport) : bool :=
  match find_str "https://" (destination_ t) with Some _ => true | None => false end.

Definition not_https : Status := mkStatus 1 "Cannot create TLS request for non-HTTPS protocol URI".

(** The address is parsed outside the [try]. *)
Definition sendRequest_get (t : Transport) : M S (Status * Transport) :=
  if negb (is_https_destination t) then ret (not_https, t)
  else
    let* r := of_result (HTTP_Request_new (destination_ t)) in
    send_over_tls t Get (decorateRequest r).

Definition sendRequest_params (params : string) (compress : bool) (t : Transport) : M S (Status * Transport) :=
  if negb (is_https_destination t) then ret (not_https, t)
  else
    let* r := of_result (HTTP_Request_new (destination_ t)) in
    let r := decorateRequest r in
    let r := if compress then set_header "Content-Encoding" "gzip" r else r in
    let body := if compress then compressString params else params in
    let post := match member "_verb" (transport_options_ t) with Some (JInt z) => z =? 0 | _ => true end in
    send_over_tls t (if post then Post body else Put body) r.

(** [Request<TLSTransport, JSONSerializer>]: the transport and the options. *)
Definition request_new (uri : string) : Transport * members := (TLSTransport_new uri, []).

Definition setOption (name : string) (v : json) (rq : Transport * members) : Transport * members :=
  (set_transport_option name v rq.1, add_member name v rq.2).

Definition request_call (params : json) (rq : Transport * members) : M S (Status * Transport) :=
  let (s, serialized) := serialize params in
  if negb (Status_ok s) then ret (s, rq.1)
  else
    let compress := match member "compress" rq.2 with Some (JBool b) => b | _ => false end in
    sendRequest_params serialized compress rq.1.

(** ** Node keys *)

(** [Registry::call("enroll", plugin, request, response)]. *)
Context (enroll_call : string -> PluginRequest -> M S PluginResponse).
Context (unix_time : M S Z).

Definition clearNodeKey : M S Status := api_delete kPersistentSettings "nodeKey".

Definition getNodeKey (enroll_plugin : string) : M S string :=
  let* node_key := api_get_str kPersistentSettings "nodeKey" in
  if negb (is_empty node_key) then ret node_key
  else
    let* now := unix_time in
    let* response := enroll_call enroll_plugin {["action" := "enroll"]} in
    match response with
    | first :: _ =>
        match first !! "node_key" with
        | Some node_key =>
            let* _ := api_set kPersistentSettings "nodeKey" node_key in
            let* _ := api_set kPersistentSettings "nodeKeyTime" (to_string now) in
            ret node_key
        | None => ret node_key
        end
    | [] => ret node_key
    end.

(** [readFile] and [getEnvVar]. *)
Context (read_file : string -> M S string) (getEnvVar : string -> M S (option string)).
Context (FLAGS_enroll_secret_path FLAGS_enroll_secret_env : string).

Definition getEnrollSecret : M S string :=
  if negb (bool_decide (FLAGS_enroll_secret_path = "")) then
    let* secret := read_file FLAGS_enroll_secret_path in ret (boost_trim secret)
  else
    let* env := getEnvVar FLAGS_enroll_secret_env in ret (default "" env).

(** ** The helper *)

Definition has_query (uri : string) : bool := match find_str "?" uri with Some _ => true | None => false end.

Definition with_secret (uri : string) : M S string :=
  if FLAGS_tls_secret_always F then
    let* secret := getEnrollSecret in
    ret (uri +:+ (if has_query uri then "&" else "?") +:+ FLAGS_tls_enroll_override F +:+ "=" +:+ secret)
  else ret uri.

Definition makeURI (endpoint : string) : M S string :=
  let* node_key := getNodeKey "tls" in
  let uri := "https://" +:+ FLAGS_tls_hostname F in
  let uri := if FLAGS_tls_node_api F then uri +:+ "/" +:+ node_key else uri in
  with_secret (uri +:+ endpoint).

(** The members of an object; asking another value for a member fails an assertion. *)
Definition remove_named (name : string) (ms : members) : members :=
  match FindMember name ms with Some i => rj_remove_member i ms | None => ms end.

Definition error_text (v : json) : string := match v with JString s => c_str s | _ => "<unknown>" end.

(** What the answer means: an invalid node key is forgotten, an error is reported. *)
Definition check_answer (output : json) : M S Status :=
  let* ms := of_result (GetObject output) in
  let* invalid := (match member "node_invalid" ms with
                   | None => ret false
                   | Some (JBool b) => ret b
                   | Some _ => throw AssertFailure
                   end) in
  let error := member "error" ms in
  if invalid : bool then
    (if negb (FLAGS_disable_reenrollment F) then let* _ := clearNodeKey in ret tt else ret tt) ;;;
    ret (mkStatus 1 ("Request failed: Invalid node key" +:+
      match error with Some v => ": " +:+ error_text v | None => "" end))
  else match error with
       | Some v => ret (mkStatus 1 ("Request failed: " +:+ error_text v))
       | None => ret (mkStatus 0 "OK")
       end.

(** The parameters that control the request are taken out of the body. *)
Record control := mkControl {
  ctl_compress : bool; ctl_force_post : bool; ctl_use_post : bool; ctl_body : members;
}.

Definition take_control (ms : members) : result control :=
  let compress := HasMember "_compress" ms in
  let ms := if compress then remove_named "_compress" ms else ms in
  match (match member "_verb" ms with
         | None => Ok false
         | Some v => match GetString v with Ok s => Ok (bool_decide (s = "POST")) | Throw e => Throw e end
         end) with
  | Throw e => Throw e
  | Ok force_post =>
      let ms := remove_named "_verb" ms in
      let get := HasMember "_get" ms in
      Ok (mkControl compress force_post (negb get) (remove_named "_get" ms))
  end.

(** [go(uri, params, output)]: the status, the parameters it leaves and the answer. *)
Definition go (uri : string) (params : members) (output : json) : M S (Status * members * json) :=
  let* node_key := getNodeKey "tls" in
  let uri_suffix := if FLAGS_tls_node_api F then "&node_key=" +:+ node_key else "" in
  let params := if FLAGS_tls_node_api F then params else add_member "node_key" (JString node_key) params in
  let rq := setOption "hostname" (JString (FLAGS_tls_hostname F)) (request_new (uri +:+ uri_suffix)) in
  let* c := of_result (take_control params) in
  let rq := if ctl_compress c then setOption "compress" (JBool true) rq else rq in
  let* (status, t) := (if ctl_use_post c || ctl_force_post c then request_call (JObject (ctl_body c)) rq
                       else sendRequest_get rq.1) in
  let params := ctl_body c in
  let params := if ctl_force_post c then add_member "_verb" (JString "POST") params else params in
  let params := if ctl_compress c then add_member "_compress" (JBool true) params else params in
  if negb (Status_ok status) then ret (status, params, output)
  else
    let output := response_params_ t in
    if negb (Status_ok (response_status_ t)) then ret (response_status_ t, params, output)
    else
      let* status := check_answer output in
      ret (status, params, output).

Definition go_json (uri : string) (output : json) : M S (Status * json) :=
  let* (s, _, output) := go uri [("_get", JBool true)] output in ret (s, output).

(** [go(uri, params, string)]. *)
Definition go_text (uri : string) (params : members) (output : string) : M S (Status * members * string) :=
  let* (s, params, recv) := go uri params (JObject []) in
  if Status_ok s then let (s, text) := serialize recv in ret (s, params, text)
  else ret (s, params, output).

(** The parameters a retry needs again: those whose name starts with an underscore. *)
Definition is_control (name : string) : bool := bool_decide (String.get 0 name = Some "_"%char).

Definition control_params (params : members) : members :=
  foldl (fun acc m => if is_control (c_str m.1) then add_member (c_str m.1) m.2 acc else acc) [] params.

Definition restore_params (overrides params : members) : members :=
  foldl (fun p m => add_member (c_str m.1) m.2 p) params overrides.

Context (sleepFor : Z -> M S unit).

Fixpoint attempt (n : nat) (i attempts : Z) (uri : string) (overrides params : members) (output : string) (s : Status)
    : M S (Status * members * string) :=
  match n with
  | O => ret (s, params, output)
  | Datatypes.S n =>
      let* (s, params, output) := go_text uri params output in
      if Status_ok s || (i =? attempts) then ret (s, params, output)
      else
        let params := restore_params overrides params in
        sleepFor (u64 (i * i * 1000)) ;;;
        attempt n (i + 1) attempts uri overrides params output s
  end.

Definition go_attempts (uri : string) (params : members) (output : string) (attempts : Z) : M S (Status * members * string) :=
  attempt (Z.to_nat attempts) 1 attempts uri (control_params params) params output Status_success.

(** ** Enrollment *)

Context (selectAllFrom : string -> M S (list Row)).
Context (getHostIdentifier : M S string) (kPlatformType : Z).
Context (FLAGS_enroll_tls_endpoint : string) (FLAGS_config_tls_max_attempts : Z).

(** In the order of the set. *)
Definition kEnrollHostDetails : list string := ["os_version"; "osquery_info"; "platform_info"; "system_info"].

Definition row_object (r : Row) : members :=
  foldl (fun ms d => add_member d.1 (JString d.2) ms) [] (map_sorted r).

Definition genHostDetails (host_details : members) : M S members :=
  for_fold kEnrollHostDetails host_details (fun host_details table =>
    let* results := selectAllFrom table in
    match results with
    | [] => ret host_details
    | first :: _ => ret (add_member table (JObject (row_object first)) host_details)
    end).

(** The node key in an answer; [node_key] is left as it is when there is none. *)
Definition answer_key (recv : members) (node_key : string) : string :=
  match (match member "node_key" recv with Some v => Some v | None => member "id" recv end) with
  | Some v => match v with JString s => c_str s | _ => "" end
  | None => node_key
  end.

Definition requestKey (uri node_key : string) : M S (Status * string) :=
  let* secret := getEnrollSecret in
  let params := add_member (FLAGS_tls_enroll_override F) (JString secret) [] in
  let* host := getHostIdentifier in
  let params := add_member "host_identifier" (JString host) params in
  let params := add_member "platform_type" (JString (to_string kPlatformType)) params in
  let* details := genHostDetails [] in
  let params := add_member "host_details" (JObject details) params in
  let rq := setOption "hostname" (JString (FLAGS_tls_hostname F)) (request_new uri) in
  let* (status, t) := request_call (JObject params) rq in
  if negb (Status_ok status) then ret (status, node_key)
  else if negb (Status_ok (response_status_ t)) then ret (response_status_ t, node_key)
  else
    let* recv := of_result (GetObject (response_params_ t)) in
    let node_key := answer_key recv node_key in
    ret (if is_empty node_key then mkStatus 1 "No node key returned from TLS enroll plugin"
         else mkStatus 0 "OK", node_key).

Fixpoint enroll_loop (n : nat) (i : Z) (uri node_key : string) : M S string :=
  match n with
  | O => ret node_key
  | Datatypes.S n =>
      let* (status, node_key) := requestKey uri node_key in
      if Status_ok status || (i =? FLAGS_config_tls_max_attempts) then ret node_key
      else sleepFor (u64 (i * i * 1000)) ;;; enroll_loop n (i + 1) uri node_key
  end.

Definition TLSEnrollPlugin_enroll : M S string :=
  let* uri := with_secret ("https://" +:+ FLAGS_tls_hostname F +:+ FLAGS_enroll_tls_endpoint) in
  enroll_loop (Z.to_nat FLAGS_config_tls_max_attempts) 1 uri "".

(** [EnrollPlugin::call] for the [enroll] of a plugin. *)
Definition EnrollPlugin_call (enroll : M S string) (request : PluginRequest) (response : PluginResponse)
    : M S (Status * PluginResponse) :=
  if FLAGS_disable_enrollment F then ret (mkStatus 0 "Enrollment disabled", response)
  else match request !! "action" with
       | Some "enroll" =>
           let* node_key := enroll in
           ret (if is_empty node_key then mkStatus 1 "No enrollment key found/retrieved" else mkStatus 0 "OK",
                response ++ [{["node_key" := node_key]}])
       | _ => ret (mkStatus 1 "Enroll plugins require an action", response)
       end.

(** ** The plugins *)

Context (FLAGS_enroll_always : bool) (FLAGS_config_tls_endpoint : string).

(** [TLSConfigPlugin::setUp]: the status and [uri_]. *)
Definition TLSConfigPlugin_setUp : M S (Status * string) :=
  let* ready :=
    (if FLAGS_enroll_always && negb (FLAGS_disable_enrollment F) then
       let* _ := clearNodeKey in
       let* node_key := getNodeKey "tls" in
       ret (negb (is_empty node_key))
     else ret true) in
  if negb ready then ret (mkStatus 1 "No node key, TLS config failed.", "")
  else let* uri := makeURI FLAGS_config_tls_endpoint in ret (mkStatus 0 "OK", uri).

Definition TLSConfigPlugin_genConfig (uri_ : string) (config : gmap string string)
    : M S (Status * gmap string string) :=
  let params := if FLAGS_tls_node_api F then add_member "_get" (JBool true) [] else [] in
  let* (s, _, text) := go_attempts uri_ params "" FLAGS_config_tls_max_attempts in
  if Status_ok s then
    if FLAGS_tls_node_api F then
      let* ms := (match (JSON_fromString text).2 with
                  | Some (JObject ms) => ret ms
                  | Some _ => throw AssertFailure
                  | None => throw AssertFailure
                  end) in
      let text := match member "config" ms with Some (JString c) => c_str c | _ => "" end in
      ret (s, <["tls_plugin" := unescapeUnicode text]> config)
    else ret (s, <["tls_plugin" := text]> config)
  else ret (s, config).

Context (FLAGS_distributed_tls_read_endpoint FLAGS_distributed_tls_write_endpoint : string)
        (FLAGS_distributed_tls_max_attempts : Z).

Definition TLSDistributedPlugin_setUp : M S (Status * string * string) :=
  let* read_uri := makeURI FLAGS_distributed_tls_read_endpoint in
  let* write_uri := makeURI FLAGS_distributed_tls_write_endpoint in
  ret (mkStatus 0 "OK", read_uri, write_uri).

Definition TLSDistributedPlugin_getQueries (read_uri_ json : string) : M S (Status * string) :=
  let* (s, _, text) := go_attempts read_uri_ (add_member "_verb" (JString "POST") []) json
                                   FLAGS_distributed_tls_max_attempts in
  ret (s, text).

Definition TLSDistributedPlugin_writeResults (write_uri_ json : string) : M S Status :=
  match JSON_fromString json with
  | (s, None) => ret s
  | (_, Some params) =>
      let* params := of_result (GetObject params) in
      let* (s, _, _) := go_attempts write_uri_ params "" FLAGS_distributed_tls_max_attempts in
      ret s
  end.

Context (FLAGS_logger_tls_max : Z) (FLAGS_logger_tls_compress : bool) (FLAGS_logger_tls_endpoint : string).

Definition kTLSMaxLogLines : Z := 1024.

(** One line: a line that is too long or is not JSON is skipped. *)
Definition log_child (children : list json) (item : string) : list json :=
  if FLAGS_logger_tls_max <? Z.of_nat (String.length item) then children
  else match (JSON_fromString item).2 with Some v => children ++ [v] | None => children end.

Definition TLSLogForwarder_send (uri_ : string) (log_data : list string) (log_type : string) : M S Status :=
  let* node_key := getNodeKey "tls" in
  let params := add_member "node_key" (JString node_key) [] in
  let params := add_member "log_type" (JString log_type) params in
  let params := add_member "data" (JArray (foldl log_child [] log_data)) params in
  let params := if FLAGS_logger_tls_compress then add_member "_compress" (JBool true) params else params in
  let* (s, _, _) := go_text uri_ params "" in
  ret s.

(** [setUp] of the forwarder and adding it to the dispatcher. *)
Context (forwarder_setUp : string -> M S Status) (add_service : M S unit).

Definition TLSLoggerPlugin_setUp : M S Status :=
  let* node_key := getNodeKey "tls" in
  if negb (FLAGS_disable_enrollment F) && is_empty node_key
  then ret (mkStatus 1 "No node key, TLS logging disabled.")
  else
    let* uri := makeURI FLAGS_logger_tls_endpoint in
    let* s := forwarder_setUp uri in
    if negb (Status_ok s) then ret s
    else add_service ;;; ret (Status1 0).
End Transport.

(** The client of Http.v as transport; [None] stands for a loop that never ends. *)
#[export] Instance client_http {S} {N : Net S} (fuel : nat) : HttpClient (Client S) := {
  client_call o r v :=
    setOptions o ;;;
    let* resp := (match v with
                  | Get => http_get fuel r
                  | Post body => http_post fuel r body ""
                  | Put body => http_put fuel r body ""
                  end) in
    match resp with Some resp => ret resp | None => throw AssertFailure end
}.

(** * Requests to the server: keys, retries, addresses

    A retry sends what the first attempt sent; a node key is asked for once, kept, and
    asked for again after the server rejected it; requests go to the configured host
    over TLS; logged documents reach the body of the request. *)
Local Open Scope Z_scope.

(** ** Retries *)

Section Retries.
Context {R : RapidJSON} {RL : RapidJSONLaws R}.

Abbreviation as_map ms := (list_to_map ms : gmap string json).

Lemma remove_named_map k ms : NoDup ms.*1 ->
  NoDup (remove_named k ms).*1 /\ as_map (remove_named k ms) = delete k (as_map ms).
Proof.
  intros Hnd. unfold remove_named. destruct (FindMember k ms) as [i|] eqn:E.
  - apply FindMember_Some in E as [x Hx]. destruct (delete_keys_NoDup _ _ _ _ Hnd Hx) as (H1 & _ & H3).
    pose proof (rj_remove_perm i ms) as Hp. split; [by rewrite Hp|].
    by rewrite (list_to_map_proper (rj_remove_member i ms) (delete i ms)), H3; [| rewrite Hp|].
  - apply FindMember_None in E. split; [done|]. rewrite delete_id; [done|]. by apply not_elem_of_list_to_map_1.
Qed.

(** What the request sends, as a map. *)
Definition plain_body (m : gmap string json) : gmap string json :=
  delete "_get" (delete "_verb" (delete "_compress" m)).

Definition forces_post (m : gmap string json) : result bool :=
  match m !! "_verb" with
  | None => Ok false
  | Some v => match GetString v with Ok s => Ok (bool_decide (s = "POST")) | Throw e => Throw e end
  end.

Lemma has_member_map k ms : HasMember k ms = bool_decide (is_Some (as_map ms !! k)).
Proof.
  unfold HasMember. rewrite member_map. destruct (_ !! k); [by rewrite bool_decide_eq_true_2 by eauto|].
  rewrite bool_decide_eq_false_2; [done|]. by intros [? ?].
Qed.

(** The control parameters and the body depend on the parameters as a map only. *)
Lemma take_control_map ms : NoDup ms.*1 ->
  match forces_post (as_map ms) with
  | Throw e => take_control ms = Throw e
  | Ok force => exists c, take_control ms = Ok c /\ ctl_force_post c = force /\
      ctl_compress c = bool_decide (is_Some (as_map ms !! "_compress")) /\
      ctl_use_post c = negb (bool_decide (is_Some (as_map ms !! "_get"))) /\
      NoDup (ctl_body c).*1 /\ as_map (ctl_body c) = plain_body (as_map ms)
  end.
Proof.
  intros Hnd. unfold take_control, forces_post.
  set (ms1 := if HasMember "_compress" ms then remove_named "_compress" ms else ms).
  assert (NoDup ms1.*1 /\ as_map ms1 = delete "_compress" (as_map ms)) as [Hnd1 Hm1].
  { unfold ms1. rewrite has_member_map. case_bool_decide as Hc; [by apply remove_named_map|].
    split; [done|]. rewrite delete_id; [done|]. by destruct (as_map ms !! "_compress"); [destruct Hc; eauto|]. }
  rewrite member_map, Hm1, lookup_delete_ne by done.
  destruct (remove_named_map "_verb" ms1 Hnd1) as [Hnd2 Hm2].
  destruct (remove_named_map "_get" _ Hnd2) as [Hnd3 Hm3].
  assert (forall force, exists c, Ok (mkControl (HasMember "_compress" ms) force (negb (HasMember "_get" (remove_named "_verb" ms1)))
            (remove_named "_get" (remove_named "_verb" ms1))) = Ok c /\ ctl_force_post c = force /\
      ctl_compress c = bool_decide (is_Some (as_map ms !! "_compress")) /\
      ctl_use_post c = negb (bool_decide (is_Some (as_map ms !! "_get"))) /\
      NoDup (ctl_body c).*1 /\ as_map (ctl_body c) = plain_body (as_map ms)) as Hc.
  { intros force. eexists; split; [done|]. cbn. rewrite !has_member_map, Hm2, Hm1.
    rewrite !lookup_delete_ne by done. split; [done|]. split; [done|]. split; [done|]. split; [done|].
    by rewrite Hm3, Hm2, Hm1. }
  destruct (as_map ms !! "_verb") as [v|]; [|apply Hc]. destruct (GetString v); [apply Hc|done].
Qed.

(** The parameters a request leaves, and those the next attempt starts from. *)
Definition left_params (c : control) : members :=
  let params := if ctl_force_post c then add_member "_verb" (JString "POST") (ctl_body c) else ctl_body c in
  if ctl_compress c then add_member "_compress" (JBool true) params else params.

Lemma left_params_map c : NoDup (ctl_body c).*1 ->
  NoDup (left_params c).*1 /\
  as_map (left_params c) =
    (if ctl_compress c then <["_compress" := JBool true]> else id)
      ((if ctl_force_post c then <["_verb" := JString "POST"]> else id) (as_map (ctl_body c))).
Proof.
  intros Hnd. unfold left_params. destruct (ctl_force_post c), (ctl_compress c); try done.
  - destruct (add_member_map "_verb" (JString "POST") _ Hnd) as [H1 H2].
    destruct (add_member_map "_compress" (JBool true) _ H1) as [H3 H4]. split; [done|]. by rewrite H4, H2.
  - by apply add_member_map.
  - by apply add_member_map.
Qed.

Definition c_names (ms : members) : Prop := Forall (fun m => c_str m.1 = m.1) ms.

Lemma control_params_from acc ms : NoDup ms.*1 -> c_names ms -> NoDup acc.*1 ->
  let r := foldl (fun acc m => if is_control (c_str m.1) then add_member (c_str m.1) m.2 acc else acc) acc ms in
  NoDup r.*1 /\
  (c_names acc -> c_names r) /\
  forall k, as_map r !! k =
    match (if is_control k then as_map ms !! k else None) with Some v => Some v | None => as_map acc !! k end.
Proof.
  cbn zeta. intros Hnd Hc. revert acc Hnd. induction Hc as [|[k0 v0] ms H0 Hc IH]; intros acc Hnd Ha; cbn [foldl].
  { split; [done|]. split; [done|]. intros k. by destruct (is_control k); rewrite ?lookup_empty. }
  cbn [fst snd] in *. rewrite H0. apply NoDup_cons in Hnd as [Hk0 Hnd]. change ((k0, v0).1) with k0 in Hk0.
  assert (as_map ms !! k0 = None) as Hn by by apply not_elem_of_list_to_map_1.
  destruct (is_control k0) eqn:Ek.
  - destruct (add_member_map k0 v0 acc Ha) as [Ha' Hm']. destruct (IH _ Hnd Ha') as (H1 & H2 & H3).
    split; [done|]. split.
    { intros Hacc. apply H2. unfold c_names. by apply Forall_add_member. }
    intros k. rewrite H3, Hm'. simpl. destruct (decide (k = k0)) as [->|Hne].
    + by rewrite Ek, Hn, !lookup_insert_eq.
    + by rewrite !lookup_insert_ne by done.
  - destruct (IH _ Hnd Ha) as (H1 & H2 & H3). split; [done|]. split; [done|]. intros k. rewrite H3. simpl.
    destruct (decide (k = k0)) as [->|Hne]; [by rewrite Ek|]. by rewrite lookup_insert_ne by done.
Qed.

Lemma restore_is_merge overrides params : c_names overrides -> restore_params overrides params = merge_members params overrides.
Proof.
  unfold restore_params, merge_members. intros Hc. revert params.
  induction Hc as [|m l Hm Hc IH]; intros params; cbn [foldl]; [done|]. by rewrite Hm, IH.
Qed.

(** The next attempt starts from the parameters of the first. *)
Lemma restored_map ms c : NoDup ms.*1 -> c_names ms -> take_control ms = Ok c ->
  NoDup (restore_params (control_params ms) (left_params c)).*1 /\
  as_map (restore_params (control_params ms) (left_params c)) = as_map ms.
Proof.
  intros Hnd Hc Ht. pose proof (take_control_map ms Hnd) as HT. unfold forces_post in HT.
  destruct (control_params_from [] ms Hnd Hc NoDup_nil_2) as (H1 & H2 & H3). fold (control_params ms) in *.
  assert (exists c', take_control ms = Ok c' /\ (ctl_force_post c' = true -> is_Some (as_map ms !! "_verb")) /\
      (ctl_compress c' = true -> is_Some (as_map ms !! "_compress")) /\
      NoDup (ctl_body c').*1 /\ as_map (ctl_body c') = plain_body (as_map ms)) as (c' & Ht' & Hv & Hcomp & Hb & Hm).
  { destruct (as_map ms !! "_verb") as [v|] eqn:Ev.
    - destruct (GetString v); [|congruence]. destruct HT as (c' & E & _ & H4 & _ & H5). exists c'.
      split; [done|]. split; [eauto|]. split; [|done]. rewrite H4. by intros ?%bool_decide_eq_true.
    - destruct HT as (c' & E & H6 & H4 & _ & H5). exists c'. split; [done|]. split; [congruence|].
      split; [|done]. rewrite H4. by intros ?%bool_decide_eq_true. }
  assert (c' = c) as -> by congruence. destruct (left_params_map c Hb) as [H4 H5].
  rewrite restore_is_merge by (apply H2; constructor).
  destruct (merge_members_map (left_params c) (control_params ms) H4) as [H6 H7]. split; [done|]. apply map_eq. intros k.
  rewrite H7, (list_to_map_proper (reverse (control_params ms)) (control_params ms)).
  2: { by rewrite fmap_reverse, reverse_Permutation. }
  2: by rewrite reverse_Permutation.
  specialize (H3 k). assert (as_map [] !! k = None) as He by apply lookup_empty. rewrite He in H3. clear He.
  assert (is_control k = false -> plain_body (as_map ms) !! k = as_map ms !! k) as Hp1.
  { intros Ek. unfold plain_body. rewrite !lookup_delete_ne; [done|intros <-; done..]. }
  assert (as_map ms !! k = None -> plain_body (as_map ms) !! k = None) as Hp2.
  { intros Hn. unfold plain_body. rewrite !lookup_delete_None. auto. }
  assert (is_control k = false \/ as_map ms !! k = None -> as_map (left_params c) !! k = as_map ms !! k) as HL.
  { intros Hk. rewrite H5, Hm.
    assert (ctl_compress c = true -> "_compress" <> k) as N1.
    { intros Hx <-. destruct Hk as [?|Hk]; [done|]. destruct (Hcomp Hx). congruence. }
    assert (ctl_force_post c = true -> "_verb" <> k) as N2.
    { intros Hx <-. destruct Hk as [?|Hk]; [done|]. destruct (Hv Hx). congruence. }
    assert (plain_body (as_map ms) !! k = as_map ms !! k) as Hp by (destruct Hk as [Hk|Hk]; [auto|rewrite Hk; auto]).
    destruct (ctl_compress c), (ctl_force_post c); cbn [id]; rewrite ?lookup_insert_ne by auto; done. }
  destruct (is_control k) eqn:Ek.
  - destruct (as_map ms !! k) as [v|] eqn:Emk; [by apply lookup_union_Some_l|].
    rewrite lookup_union_r by done. rewrite HL; auto.
  - rewrite lookup_union_r by done. rewrite HL; auto.
Qed.

(** A retry sends what the first attempt sent: the same verb, the same compression and,
    up to the order of its members, the same body. *)
Theorem retries_send_the_same_parameters ms c :
  NoDup ms.*1 -> c_names ms -> take_control ms = Ok c ->
  exists c', take_control (restore_params (control_params ms) (left_params c)) = Ok c' /\
    ctl_compress c' = ctl_compress c /\ ctl_force_post c' = ctl_force_post c /\ ctl_use_post c' = ctl_use_post c /\
    ctl_body c' ≡ₚ ctl_body c.
Proof.
  intros Hnd Hc Ht. destruct (restored_map ms c Hnd Hc Ht) as [Hnd' Hm].
  pose proof (take_control_map ms Hnd) as H1. pose proof (take_control_map _ Hnd') as H2. rewrite Hm in H2.
  destruct (forces_post (as_map ms)) as [force|e]; [|congruence].
  destruct H1 as (c1 & E1 & F1 & C1 & U1 & N1 & B1), H2 as (c2 & E2 & F2 & C2 & U2 & N2 & B2).
  assert (c1 = c) as -> by congruence. exists c2. rewrite F1, F2, C1, C2, U1, U2. do 4 (split; [done|]).
  apply list_to_map_inj; [done..|]. by rewrite B1, B2.
Qed.
End Retries.

(** ** Node keys *)

Section Keys.
Context {S : Type} {R : RapidJSON} {B : Boost} {A : DatabaseAPI S} {L : DatabaseAPILaws S} {RE : DatabaseAPIReliable S}.
Context (F : TlsFlags) (enroll_call : string -> PluginRequest -> M S PluginResponse) (unix_time : M S Z).

Definition node_key (s : S) : string := default "" (api_view s kPersistentSettings !! "nodeKey").

Lemma node_key_run s : api_ready s -> api_get_str kPersistentSettings "nodeKey" s = (Ok (node_key s), s).
Proof.
  intros Hr. unfold api_get_str, bind, ret.
  by destruct (api_get_law s _ "nodeKey" Hr kPersistentSettings_domain) as (st & -> & _).
Qed.

Lemma settings_set s k v : api_ready s ->
  exists st s', api_set kPersistentSettings k v s = (Ok st, s') /\ api_ready s' /\
    api_view s' kPersistentSettings = <[k := v]> (api_view s kPersistentSettings).
Proof.
  intros Hr. destruct (api_set_run s _ k v Hr kPersistentSettings_domain) as (st & s' & E & Hr' & Hv).
  pose proof (api_set_batch_ok s _ _ st s' Hr kPersistentSettings_domain E) as Hok.
  exists st, s'. split; [done|]. split; [done|]. rewrite Hv, Hok. unfold update_domain. by rewrite decide_True.
Qed.

(** An enrolled node is not enrolled again: the key that was given is kept, and asking
    for it again only reads the store. *)
Theorem node_key_is_asked_for_once plugin s now s1 (m : gmap string string) rest s2 k :
  api_ready s -> node_key s = "" -> unix_time s = (Ok now, s1) ->
  enroll_call plugin {["action" := "enroll"]} s1 = (Ok (m :: rest), s2) -> api_ready s2 ->
  m !! "node_key" = Some k -> k <> "" ->
  exists s3, getNodeKey enroll_call unix_time plugin s = (Ok k, s3) /\
             getNodeKey enroll_call unix_time plugin s3 = (Ok k, s3).
Proof.
  intros Hr Hk Ht He Hr2 Hm Hne. unfold getNodeKey at 1.
  rewrite (bind_run _ _ _ _ _ (node_key_run s Hr)), Hk. cbn [is_empty negb].
  rewrite (bind_run _ _ _ _ _ Ht), (bind_run _ _ _ _ _ He), Hm.
  destruct (settings_set s2 "nodeKey" k Hr2) as (st & s3 & E3 & Hr3 & Hv3). rewrite (bind_run _ _ _ _ _ E3).
  destruct (settings_set s3 "nodeKeyTime" (to_string now) Hr3) as (st' & s4 & E4 & Hr4 & Hv4).
  rewrite (bind_run _ _ _ _ _ E4). exists s4. split; [done|].
  assert (node_key s4 = k) as Hk4.
  { unfold node_key. rewrite Hv4, Hv3, lookup_insert_ne, lookup_insert_eq by done. done. }
  unfold getNodeKey. rewrite (bind_run _ _ _ _ _ (node_key_run s4 Hr4)), Hk4. by destruct k.
Qed.

(** A key the server rejects is forgotten, so that the next request enrolls again. *)
Theorem rejected_key_is_forgotten ms s :
  api_ready s -> member "node_invalid" ms = Some (JBool true) -> FLAGS_disable_reenrollment F = false ->
  exists st s', check_answer F (JObject ms) s = (Ok st, s') /\ Status_ok st = false /\
    api_ready s' /\ node_key s' = "".
Proof.
  intros Hr Hm HF. unfold check_answer. unfold bind at 1, of_result. cbn [GetObject]. rewrite Hm.
  unfold bind at 1, ret at 1. rewrite HF. cbn [negb]. unfold clearNodeKey.
  destruct (api_delete_law s _ "nodeKey" Hr kPersistentSettings_domain) as (st & s' & E & Hr' & Hv).
  rewrite (api_delete_ok s _ _ st s' Hr kPersistentSettings_domain E) in Hv.
  rewrite (bind_run _ _ _ tt s'). 2: { by rewrite (bind_run _ _ _ _ _ E). }
  eexists _, s'. split; [done|]. split; [done|]. split; [done|].
  unfold node_key. rewrite Hv. unfold update_domain. rewrite decide_True by done. by rewrite lookup_delete_eq.
Qed.
End Keys.

(** ** Addresses *)

(** A request to an endpoint goes to the configured host, over TLS, with the endpoint as
    its path: the text the helper makes is read back that way. *)
Theorem requests_go_to_the_tls_hostname host endpoint :
  text_of (none_of "@:/?#[") host -> host <> "" ->
  text_of (fun c => none_of "?#" c && any_char c) endpoint ->
  exists r, HTTP_Request_new ("https://" +:+ host +:+ "/" +:+ endpoint) = Ok r /\
    remoteHost r = Some host /\ is_https r = true /\ request_port r = "443" /\
    remotePath r = Some ("/" +:+ endpoint).
Proof.
  intros Hh Hne He.
  set (u := mkUri "https" "" "" host true 0 ("/" +:+ endpoint) "" "").
  assert (wf_uri u) as Hw.
  { split; cbn; try done; [by exists "h"%char, "ttps"|]. right. exists endpoint. done. }
  pose proof (uri_roundtrip u Hw) as HU. unfold print_uri, authority in HU.
  cbn [u scheme_ username_ password_ host_ port_ path_ query_ fragment_ is_empty negb orb Z.eqb] in HU.
  assert ("https" +:+ "://" +:+ ("" +:+ host +:+ "") +:+ ("/" +:+ endpoint) +:+ "" +:+ "" = "https://" +:+ host +:+ "/" +:+ endpoint) as E.
  { rewrite !app_nil_r_str. change ("" +:+ host) with host. rewrite <- app_assoc_str. done. }
  rewrite E in HU. unfold HTTP_Request_new. rewrite HU. eexists; split; [done|].
  split; [|split; [done|split; [done|]]].
  - unfold remoteHost, nonempty. cbn. by destruct host.
  - unfold remotePath. cbn [rq_uri u path_ query_ fragment_ is_empty]. rewrite !app_nil_r_str. by destruct endpoint.
Qed.

(** The transport looks for the scheme anywhere in the address: one that only mentions
    https is accepted, and its request is not encrypted. *)
Theorem http_address_is_accepted F host :
  text_of (none_of "@:/?#[") host -> host <> "" ->
  let uri := "http://" +:+ host +:+ "/?next=https://" in
  is_https_destination (TLSTransport_new F uri) = true /\
  exists r, HTTP_Request_new uri = Ok r /\ is_https r = false.
Proof.
  intros Hh Hne. cbn zeta. split.
  - unfold is_https_destination. cbn [destination_ TLSTransport_new].
    destruct (find_str _ _) eqn:E; [done|]. exfalso. unfold find_str in E.
    apply (String.index_correct3 0 (String.length ("http://" +:+ host +:+ "/?next="))) in E; [|done|lia].
    apply E. pose proof (substring_middle ("http://" +:+ host +:+ "/?next=") "https://" "") as HM.
    rewrite !app_assoc_str in HM. exact HM.
  - set (u := mkUri "http" "" "" host true 0 "/" "next=https://" "").
    assert (wf_uri u) as Hw.
    { split; cbn; try done; [by exists "h"%char, "ttp"|]. right. by exists "". }
    pose proof (uri_roundtrip u Hw) as HU. unfold print_uri, authority in HU.
    cbn [u scheme_ username_ password_ host_ port_ path_ query_ fragment_ is_empty negb orb Z.eqb] in HU.
    assert ("http" +:+ "://" +:+ ("" +:+ host +:+ "") +:+ "/" +:+ ("?" +:+ "next=https://") +:+ "" = "http://" +:+ host +:+ "/?next=https://") as E.
    { rewrite !app_nil_r_str. change ("" +:+ host) with host. done. }
    rewrite E in HU. unfold HTTP_Request_new. rewrite HU. by eexists.
Qed.

(** ** Logs *)

Section Logs.
Context {R : RapidJSON} {RL : RapidJSONLaws R}.

(** The documents that were logged as text are the data of the request, in their order;
    those longer than the limit are left out. *)
Theorem logged_documents_are_the_data (FLAGS_logger_tls_max : Z) (docs : list json) :
  Forall (fun d => json_exact d = true) docs ->
  foldl (log_child FLAGS_logger_tls_max) [] ((fun d => (JSON_toString d).2) <$> docs)
  = filter (fun d => Z.of_nat (String.length (JSON_toString d).2) <= FLAGS_logger_tls_max) docs.
Proof.
  intros Hd. rewrite <- (app_nil_l (filter _ docs)). generalize (@nil json) as acc.
  induction Hd as [|d docs Hx Hd IH]; intros acc; cbn [fmap list_fmap foldl]; [by rewrite app_nil_r|].
  rewrite IH. unfold log_child. rewrite filter_cons.
  destruct (Z.ltb_spec FLAGS_logger_tls_max (Z.of_nat (String.length (JSON_toString d).2))).
  - by rewrite decide_False by lia.
  - rewrite decide_True by lia. rewrite fromString_toString by done. cbn [snd]. by rewrite <- app_assoc.
Qed.
End Logs.
