(* ===== verification/Carver.v ===== *)
(** * The file carver (osquery/carver/carver.cpp, osquery/filesystem/file_compression.cpp,
    osquery/tables/forensic/carves.cpp)

    Files named by a query are copied to a directory of their own, put into an archive
    and posted to the server block by block; the state of a carve is a document in the
    store. The archive library and the compression library are parameters. *)
From S2P Require Import Prelude Boost Conversions Json Database DatabaseFacts Query Filesystem FilesystemFacts SqlFunctions Uri Http Remote.
Local Open Scope Z_scope.

Definition kCarveDbDomain : string := "carves".
Definition kCarvePathPrefix : string := "osquery_carve_".
Definition kCarveNamePrefix : string := "carve_".
Definition kCarverDBPrefix : string := "carves.".

(** [ceil(double(size) / double(block))]: the number of blocks. Both are exact as
    floating point numbers below 2 ^ 52 bytes. *)
Definition block_count (size block : Z) : Z := (size + block - 1) / block.

Section Files.
Context {S : Type} {P : Posix S}.

(** A buffer of [block] zero bytes, after a read of [r] into its front. A read that
    fails or is at the end leaves all of it. *)
Definition filled_block (block : Z) (r : option string) : string :=
  match r with
  | None => nuls (Z.to_nat block)
  | Some data =>
      let n := Z.of_nat (String.length data) in
      if negb (n =? block) && (0 <? n) then data else buffer block data
  end.

(** The blocks of an open file given to [f] one after the other. *)
Fixpoint each_block (n : nat) (i : Z) (block : Z) (file : PlatformFile) (f : Z -> string -> M S unit) : M S unit :=
  match n with
  | O => ret tt
  | Datatypes.S n =>
      let* (r, file) := PlatformFile_read file block in
      f i (filled_block block r) ;;;
      each_block n (i + 1) block file f
  end.

(** ** Archives *)

(** libarchive: opening, [false] when it is fatal; the header and the data of entries. *)
Context (archive_open : string -> M S (option bool)) (archive_header : string -> Z -> M S unit)
        (archive_data : string -> M S unit) (archive_free : M S unit).
Context (FLAGS_carver_block_size : Z).

Definition archive (paths : list string) (out : string) : M S Status :=
  let* opened := archive_open out in
  match opened with
  | None => ret (mkStatus 1 "Failed to create tar archive")
  | Some false => archive_free ;;; ret (mkStatus 1 "Failed to open tar archive for writing")
  | Some true =>
      for_each paths (fun f =>
        let* pFile := PlatformFile_new f (Z.lor PF_OPEN_EXISTING PF_READ) (-1) in
        let* size := PlatformFile_size pFile in
        archive_header (path_filename f) size ;;;
        let blockSize := if 0 <? FLAGS_carver_block_size then FLAGS_carver_block_size else 8192 in
        let* size := PlatformFile_size pFile in
        each_block (Z.to_nat (block_count size blockSize)) 0 blockSize pFile (fun _ block => archive_data block) ;;;
        PlatformFile_close pFile) ;;;
      archive_free ;;;
      ret (mkStatus 0 "Ok")
  end.

(** ** Compression *)

(** zstd: [None] when the stream cannot be made or initialised; compressing a buffer
    writes some output and asks for a number of bytes, or fails; what is left to flush. *)
Context (zstd_create zstd_init : M S bool) (zstd_in_size : Z).
Context (zstd_compress : string -> M S (list string * (Z + string))) (zstd_end : M S (string * Z)) (zstd_free : M S unit).
(** [seek(0, PF_SEEK_END)]. *)
Context (seek_end : PlatformFile -> M S unit).

Definition write_all (out : PlatformFile) (chunks : list string) : M S unit :=
  for_each chunks (fun c => seek_end out ;;; let* _ := PlatformFile_write out c in ret tt).

(** The loop reads until the end; the number of bytes to read next is what the library
    asks for, at most the size of the buffer. *)
Fixpoint compress_loop (fuel : nat) (inFile outFile : PlatformFile) (inFileSize readSoFar toRead : Z) : M S (option Status) :=
  match fuel with
  | O => ret None
  | Datatypes.S fuel =>
      let* (r, inFile) := PlatformFile_read inFile toRead in
      match r with
      | Some "" => ret (Some Status_success)
      | _ =>
          (* -1 as a size: larger than any file at the first read, one byte back later *)
          let read := match r with Some data => Z.of_nat (String.length data) | None => u64 (-1) end in
          let readSoFar := u64 (readSoFar + read) in
          if inFileSize <? readSoFar then zstd_free ;;; ret (Some (mkStatus 1 "File changed during compression"))
          else
            match r with
            | None => throw AssertFailure (* undefined: 2 ^ 64 - 1 bytes of the buffer would be read *)
            | Some data =>
                let* (chunks, wanted) := zstd_compress data in
                write_all outFile chunks ;;;
                match wanted with
                | inr e => zstd_free ;;; ret (Some (mkStatus 1 ("ZSTD_compressStream() error : " +:+ e)))
                | inl toRead => compress_loop fuel inFile outFile inFileSize readSoFar (Z.min toRead zstd_in_size)
                end
            end
      end
  end.

Definition compress (fuel : nat) (in_ out : string) : M S (option Status) :=
  let* inFile := PlatformFile_new in_ (Z.lor PF_OPEN_EXISTING PF_READ) (-1) in
  if negb (isValid inFile) then ret (Some (Status_failure ("Could not open in file: " +:+ in_ +:+ " for compression")))
  else
    let* outFile := PlatformFile_new out (Z.lor PF_CREATE_ALWAYS PF_WRITE) (-1) in
    if negb (isValid outFile) then
      PlatformFile_close inFile ;;;
      ret (Some (Status_failure ("Could not open out file: " +:+ out +:+ " for compression")))
    else
      let finish (r : option Status) := PlatformFile_close outFile ;;; PlatformFile_close inFile ;;; ret r in
      let* size := PlatformFile_size inFile in
      let* created := zstd_create in
      if negb created then finish (Some (mkStatus 1 "Couldn't create compression stream"))
      else
        let* initialised := zstd_init in
        if negb initialised then finish (Some (mkStatus 1 "Couldn't initialize compression stream"))
        else
          let* r := compress_loop fuel inFile outFile size 0 zstd_in_size in
          match r with
          | None => finish None
          | Some s =>
              if negb (Status_ok s) then finish (Some s)
              else
                let* (last, remaining) := zstd_end in
                if negb (remaining =? 0) then zstd_free ;;; finish (Some (mkStatus 1 "Couldn't fully flush compressed file"))
                else write_all outFile [last] ;;; zstd_free ;;; finish (Some (Status1 0))
          end.
End Files.

(** ** Carves *)

Section Carver.
Context {S : Type} {R : RapidJSON} {B : Boost} {P : Posix S} {A : DatabaseAPI S} {H : HttpClient S} {E64 : BoostBase64}.

Definition updateCarveValue (guid key value : string) : M S unit :=
  let* (s, carve) := api_get kCarveDbDomain (kCarverDBPrefix +:+ guid) in
  if negb (Status_ok s) then ret tt
  else
    match JSON_fromString (default "" carve) with
    | (_, None) => ret tt
    | (_, Some tree) =>
        let* tree := of_result (JSON_addCopy key value tree) in
        let* _ := api_set kCarveDbDomain (kCarverDBPrefix +:+ guid) (JSON_toString tree).2 in
        ret tt
    end.

Record Carver := mkCarver {
  carver_status_ : Status;
  (** A set of paths: in their order, without duplicates. *)
  carvePaths_ : list string;
  startUri_ : string;
  contUri_ : string;
  carveGuid_ : string;
  requestId_ : string;
  carveDir_ : string;
  archivePath_ : string;
  compressPath_ : string;
}.

(** [TLSRequestHelper::makeURI], [fs::temp_directory_path]. *)
Context (make_uri : string -> M S string) (temp_directory : M S string).
Context (FLAGS_carver_start_endpoint FLAGS_carver_continue_endpoint : string).

Definition Carver_new (paths : list string) (guid requestId : string) : M S Carver :=
  let* startUri := make_uri FLAGS_carver_start_endpoint in
  let* contUri := make_uri FLAGS_carver_continue_endpoint in
  let* tmp := temp_directory in
  let dir := path_append tmp (kCarvePathPrefix +:+ guid) in
  let* (made, ec, message) := fs_create_directory dir in
  if negb (ec =? 0) then throw (RuntimeError message)
  else if negb made
  then ret (mkCarver (mkStatus 1 "Failed to create carve file store") paths startUri contUri guid requestId dir "" "")
  else
    updateCarveValue guid "status" "PENDING" ;;;
    ret (mkCarver (mkStatus 0 "Ok") paths startUri contUri guid requestId dir
           (path_append dir (kCarveNamePrefix +:+ guid +:+ ".tar"))
           (path_append dir (kCarveNamePrefix +:+ guid +:+ ".tar.zst"))).

Context (FLAGS_carver_block_size : Z).

(** The copy loop: a read that gives nothing is skipped. *)
Fixpoint copy_blocks (n : nat) (src dst : PlatformFile) : M S (option PlatformFile) :=
  match n with
  | O => ret (Some dst)
  | Datatypes.S n =>
      let* (r, src) := PlatformFile_read src FLAGS_carver_block_size in
      match r with
      | None | Some "" => copy_blocks n src dst
      | Some data =>
          let* (written, dst) := PlatformFile_write dst data in
          if written <? 0 then ret None else copy_blocks n src dst
      end
  end.

Definition carve (c : Carver) (path : string) : M S Status :=
  let* src := PlatformFile_new path (Z.lor PF_OPEN_EXISTING PF_READ) (-1) in
  let* dst := PlatformFile_new (path_append (carveDir_ c) (path_filename path)) (Z.lor PF_CREATE_NEW PF_WRITE) (-1) in
  if negb (isValid dst) then
    PlatformFile_close src ;;; ret (mkStatus 1 "Destination tmp FS is not valid.")
  else
    let* size := PlatformFile_size src in
    let* r := copy_blocks (Z.to_nat (block_count size FLAGS_carver_block_size)) src dst in
    PlatformFile_close dst ;;; PlatformFile_close src ;;;
    ret (match r with Some _ => mkStatus 0 "Ok" | None => mkStatus 1 "Error writing bytes to tmp fs" end).

(** ** Posting *)

Context (F : TlsFlags) (readable : string -> M S bool) (compressString : string -> string).
Context (node_key : M S string).

Definition tls_request (uri : string) : Transport * members :=
  setOption "hostname" (JString (FLAGS_tls_hostname F)) (request_new F uri).

Definition start_params (c : Carver) (blkCount size : Z) (key : string) : members :=
  foldl (fun ms m => add_member m.1 m.2 ms) []
    [("block_count", JInt blkCount); ("block_size", JInt FLAGS_carver_block_size); ("carve_size", JInt size);
     ("carve_id", JString (carveGuid_ c)); ("request_id", JString (requestId_ c)); ("node_key", JString key)].

Definition block_params (c : Carver) (session_id : string) (i : Z) (block : string) : members :=
  foldl (fun ms m => add_member m.1 m.2 ms) []
    [("block_id", JInt i); ("session_id", JString session_id); ("request_id", JString (requestId_ c));
     ("data", JString (base64_encode block))].

(** The session the server gives. *)
Definition session_of (answer : json) : result (Status + string) :=
  match answer with
  | JObject ms =>
      match member "session_id" ms with
      | None => Ok (inl (mkStatus 1 "No session_id received from remote endpoint"))
      | Some (JString s) =>
          if is_empty (c_str s) then Ok (inl (mkStatus 1 "Empty session_id received from remote endpoint"))
          else Ok (inr (c_str s))
      | Some _ => Ok (inl (mkStatus 1 "Invalid session_id received from remote endpoint"))
      end
  | _ => Throw AssertFailure
  end.

Definition post_block (c : Carver) (session_id : string) (i : Z) (block : string) : M S unit :=
  let* _ := request_call F readable compressString (JObject (block_params c session_id i block)) (tls_request (contUri_ c)) in
  ret tt.

(** A block that could not be posted is skipped. *)
Definition postCarve (c : Carver) (path : string) : M S Status :=
  let* pFile := PlatformFile_new path (Z.lor PF_OPEN_EXISTING PF_READ) (-1) in
  let finish (s : Status) := PlatformFile_close pFile ;;; ret s in
  let* size := PlatformFile_size pFile in
  let blkCount := block_count size FLAGS_carver_block_size in
  let* size := PlatformFile_size pFile in
  let* key := node_key in
  let* (status, t) := request_call F readable compressString (JObject (start_params c blkCount size key)) (tls_request (startUri_ c)) in
  if negb (Status_ok status) then finish status
  else if negb (Status_ok (response_status_ t)) then finish (response_status_ t)
  else
    let* session := of_result (session_of (response_params_ t)) in
    match session with
    | inl s => finish s
    | inr session_id =>
        each_block (Z.to_nat blkCount) 0 FLAGS_carver_block_size pFile (post_block c session_id) ;;;
        updateCarveValue (carveGuid_ c) "status" "SUCCESS" ;;;
        finish (mkStatus 0 "Ok")
    end.

(** ** A whole carve *)

Context (archive_files : list string -> string -> M S Status) (compress_file : string -> string -> M S Status).
Context (FLAGS_carver_compression : bool) (FLAGS_read_max : Z) (hashFromFile : string -> M S string).

Definition carve_one (c : Carver) (p : string) : M S unit :=
  let* pFile := PlatformFile_new p (Z.lor PF_OPEN_EXISTING PF_READ) (-1) in
  let* skip := (if negb (isValid pFile) then ret true
                else let* d := isDirectory p in ret (Status_ok d)) in
  (if skip : bool then ret tt else let* _ := carve c p in ret tt) ;;;
  PlatformFile_close pFile.

Definition Carver_start (c : Carver) : M S unit :=
  if negb (Status_ok (carver_status_ c)) then ret tt
  else
    for_each (carvePaths_ c) (carve_one c) ;;;
    let* carvedFiles := sys_glob (path_append (carveDir_ c) "*") in
    let* s := archive_files carvedFiles (archivePath_ c) in
    if negb (Status_ok s) then updateCarveValue (carveGuid_ c) "status" "ARCHIVE FAILED"
    else
      let* s := (if FLAGS_carver_compression then compress_file (archivePath_ c) (compressPath_ c) else ret Status_success) in
      if negb (Status_ok s) then updateCarveValue (carveGuid_ c) "status" "COMPRESS FAILED"
      else
        let uploadPath := if FLAGS_carver_compression then compressPath_ c else archivePath_ c in
        let* uploadFile := PlatformFile_new uploadPath (Z.lor PF_OPEN_EXISTING PF_READ) (-1) in
        let* size := PlatformFile_size uploadFile in
        updateCarveValue (carveGuid_ c) "size" (to_string size) ;;;
        let* size := PlatformFile_size uploadFile in
        let* uploadHash := (if FLAGS_read_max <? size then ret "-1" else hashFromFile uploadPath) in
        updateCarveValue (carveGuid_ c) "sha256" uploadHash ;;;
        let* s := postCarve c uploadPath in
        (if negb (Status_ok s) then updateCarveValue (carveGuid_ c) "status" "DATA POST FAILED" else ret tt) ;;;
        PlatformFile_close uploadFile.

(** ** Starting carves *)

Context (generateNewUUID : M S string) (unix_time : M S Z) (current_request_id : M S string)
        (add_service : Carver -> M S unit).

Definition carve_entry (guid path : string) (time : Z) : json :=
  JObject (foldl (fun ms m => add_member m.1 m.2 ms) []
    [("carve_guid", JString guid); ("time", JInt time); ("status", JString "STARTING");
     ("sha256", JString ""); ("size", JInt (-1)); ("path", JString path)]).

Definition carvePaths (paths : list string) : M S Status :=
  let* guid := generateNewUUID in
  let* time := unix_time in
  match paths with
  | [] => throw AssertFailure
  | first :: rest =>
      let path := match rest with [] => first | _ => boost_join paths "," end in
      let (s, out) := JSON_toString (carve_entry guid path time) in
      let* s := api_set kCarveDbDomain (kCarverDBPrefix +:+ guid) out in
      if negb (Status_ok s) then ret s
      else
        let* requestId := current_request_id in
        let* c := Carver_new paths guid requestId in
        add_service c ;;;
        ret s
  end.

(** ** The table of carves *)

(** [pt::read_json] and [tree.get]: the text of the members of the document, [None] when
    it does not parse; the numbers are read as [int], and [get] throws when it is
    missing or no number. *)
Context (read_json : string -> option (gmap string string)).

Definition get_text (tree : gmap string string) (key : string) : result string :=
  match tree !! key with Some v => Ok v | None => Throw (RuntimeError ("No such node (" +:+ key +:+ ")")) end.
Definition get_int (tree : gmap string string) (key : string) : result Z :=
  match get_text tree key with
  | Throw e => Throw e
  | Ok v => match tryTo TInt v 10 with inl z => Ok z | inr _ => Throw (RuntimeError "conversion of data to type failed") end
  end.

Definition carve_row (tree : gmap string string) : result Row :=
  match get_int tree "time", get_int tree "size", get_text tree "sha256", get_text tree "carve_guid",
        get_text tree "status", get_text tree "path" with
  | Ok time, Ok size, Ok sha, Ok guid, Ok status, Ok path =>
      Ok (list_to_map [("time", to_string time); ("size", to_string size); ("sha256", sha); ("carve_guid", guid);
                       ("status", status); ("carve", "0"); ("path", path)])
  | Throw e, _, _, _, _, _ | _, Throw e, _, _, _, _ | _, _, Throw e, _, _, _
  | _, _, _, Throw e, _, _ | _, _, _, _, Throw e, _ | _, _, _, _, _, Throw e => Throw e
  end.

(** A document that does not parse ends the listing. *)
Fixpoint enumerate_keys (keys : list string) (results : list Row) : M S (list Row) :=
  match keys with
  | [] => ret results
  | key :: keys =>
      let* (s, carve) := api_get kCarveDbDomain key in
      if negb (Status_ok s) then enumerate_keys keys results
      else
        match read_json (default "" carve) with
        | None => ret results
        | Some tree =>
            let* r := of_result (carve_row tree) in
            enumerate_keys keys (results ++ [r])
        end
  end.

Definition enumerateCarves (results : list Row) : M S (list Row) :=
  let* (_, keys) := api_scan kCarveDbDomain kCarverDBPrefix in
  enumerate_keys keys results.

(** [paths] are the paths of the constraints, expanded. *)
Definition genCarves (FLAGS_disable_carver : bool) (carve_requested : bool) (paths : list string) : M S (list Row) :=
  (if carve_requested && (0 <? Z.of_nat (length paths)) && negb FLAGS_disable_carver
   then let* _ := carvePaths paths in ret tt else ret tt) ;;;
  enumerateCarves [].
End Carver.

(** * The carver: blocks, entries, the table

    The blocks posted for a file make it up, in order; an entry of the store is changed
    in one member only; a carve that is larger than an [int] makes the table throw. *)
Local Open Scope Z_scope.

Section Blocks.
Context {S : Type} {P : Posix S}.

(** A file that is read from the current offset on. *)
Context (handle : Z) (content : string) (offset : S -> nat).
Context (read_law : forall n s, 0 < n ->
  exists s', sys_read handle n s = (Ok (inl (of_chars (take (Z.to_nat n) (drop (offset s) (chars content))))), s') /\
    offset s' = (offset s + length (take (Z.to_nat n) (drop (offset s) (chars content))))%nat).

(** What is done with a block: it is recorded, and the file stays where it is. *)
Context (given : S -> list (Z * string)) (f : Z -> string -> M S unit).
Context (f_law : forall i b s, exists s', f i b s = (Ok tt, s') /\ given s' = given s ++ [(i, b)] /\ offset s' = offset s).
Context (read_keeps : forall n s r s', sys_read handle n s = (r, s') -> given s' = given s).

(** Number the blocks. *)
Fixpoint numbered (i : Z) (blocks : list string) : list (Z * string) :=
  match blocks with [] => [] | b :: bs => (i, b) :: numbered (i + 1) bs end.

Lemma block_count_step len b : 0 < b -> 0 < len ->
  Z.to_nat (block_count len b) = Datatypes.S (Z.to_nat (block_count (len - Z.min len b) b)).
Proof.
  intros Hb Hl. unfold block_count. rewrite <- Z2Nat.inj_succ by (apply Z.div_pos; lia). f_equal.
  destruct (Z.min_spec len b) as [[? ->]|[? ->]].
  - replace (len - len + b - 1) with (b - 1) by lia. rewrite (Z.div_small (b - 1)) by lia.
    symmetry. apply (Z.div_unique _ _ _ (len - 1)); lia.
  - replace (len + b - 1) with ((len - b + b - 1) + 1 * b) by lia. rewrite Z.div_add by lia. lia.
Qed.

Lemma filled_piece (b : Z) (l : list ascii) : 0 < b -> l <> [] ->
  filled_block b (Some (of_chars (take (Z.to_nat b) l))) = of_chars (take (Z.to_nat b) l).
Proof.
  intros Hb Hl. unfold filled_block. rewrite <- (length_chars (of_chars _)), chars_of_chars.
  destruct (negb _ && _) eqn:E; [done|]. unfold buffer.
  rewrite <- (length_chars (of_chars _)), chars_of_chars.
  assert (length (take (Z.to_nat b) l) <> 0)%nat as Hn.
  { rewrite length_take. destruct l; [done|]. simpl. lia. }
  apply andb_false_iff in E as [E|E].
  - apply negb_false_iff, Z.eqb_eq in E. replace (Z.to_nat b - length (take (Z.to_nat b) l))%nat with 0%nat by lia.
    apply app_nil_r_str.
  - apply Z.ltb_ge in E. lia.
Qed.

Lemma each_block_spec n i b file s :
  0 < b -> isValid file = true -> handle_ file = handle ->
  n = Z.to_nat (block_count (Z.of_nat (length (drop (offset s) (chars content)))) b) ->
  exists s' blocks, each_block n i b file f s = (Ok tt, s') /\ given s' = given s ++ numbered i blocks /\
    concat (chars <$> blocks) = drop (offset s) (chars content).
Proof.
  intros Hb. revert i file s. induction n as [|n IH]; intros i file s Hv Hh Hn; cbn [each_block].
  { exists s, []. split; [done|]. cbn. rewrite app_nil_r. split; [done|].
    destruct (drop (offset s) (chars content)) as [|c l]; [done|].
    rewrite block_count_step in Hn by (simpl; lia). done. }
  destruct (drop (offset s) (chars content)) as [|c l] eqn:El.
  { unfold block_count in Hn. simpl length in Hn. rewrite Z.div_small in Hn by lia. done. }
  destruct (read_law b s Hb) as (s1 & E1 & O1). rewrite El in E1, O1.
  assert (PlatformFile_read file b s =
    (Ok (Some (of_chars (take (Z.to_nat b) (c :: l))), mkFile (fname_ file) (handle_ file) (is_nonblock_ file)
       (negb (is_empty (of_chars (take (Z.to_nat b) (c :: l)))) &&
        (Z.of_nat (String.length (of_chars (take (Z.to_nat b) (c :: l)))) <? b))), s1)) as ER.
  { unfold PlatformFile_read. rewrite Hv. cbn [negb]. rewrite Hh. by rewrite (bind_run _ _ _ _ _ E1). }
  rewrite (bind_run _ _ _ _ _ ER). rewrite filled_piece by done.
  destruct (f_law i (of_chars (take (Z.to_nat b) (c :: l))) s1) as (s2 & E2 & G2 & O2).
  rewrite (bind_run _ _ _ _ _ E2).
  assert (drop (offset s2) (chars content) = drop (Z.to_nat b) (c :: l)) as Ed.
  { rewrite O2, O1, <- drop_drop, El, length_take.
    destruct (Nat.min_spec (Z.to_nat b) (length (c :: l))) as [[? ->]|[? ->]]; [done|].
    rewrite !drop_ge by lia. done. }
  destruct (IH (i + 1) (mkFile (fname_ file) (handle_ file) (is_nonblock_ file)
       (negb (is_empty (of_chars (take (Z.to_nat b) (c :: l)))) &&
        (Z.of_nat (String.length (of_chars (take (Z.to_nat b) (c :: l)))) <? b))) s2) as (s3 & blocks & E3 & G3 & C3).
  - exact Hv.
  - exact Hh.
  - rewrite Ed, length_drop. rewrite block_count_step in Hn by (simpl; lia). injection Hn as Hn.
    rewrite Hn. f_equal. unfold block_count. cbn [length]. f_equal. lia.
  - exists s3, (of_chars (take (Z.to_nat b) (c :: l)) :: blocks). split; [exact E3|]. split.
    + rewrite G3, G2, (read_keeps _ _ _ _ E1), <- app_assoc. done.
    + cbn [fmap list_fmap concat]. rewrite C3, Ed, chars_of_chars. apply take_drop.
Qed.

(** The blocks a file is posted in are numbered from 0 and make up the file: one for
    every [b] bytes or part of them, no more and no fewer. *)
Theorem posted_blocks_make_up_the_file b file s :
  0 < b -> isValid file = true -> handle_ file = handle -> offset s = 0%nat ->
  exists s' blocks,
    each_block (Z.to_nat (block_count (Z.of_nat (String.length content)) b)) 0 b file f s = (Ok tt, s') /\
    given s' = given s ++ numbered 0 blocks /\ concat (chars <$> blocks) = chars content.
Proof.
  intros Hb Hv Hh H0. destruct (each_block_spec _ 0 b file s Hb Hv Hh eq_refl) as (s' & blocks & E & G & C).
  rewrite H0, drop_0, length_chars in *. eauto.
Qed.
End Blocks.

(** ** Entries of the store *)

Section Entries.
Context {S : Type} {R : RapidJSON} {RL : RapidJSONLaws R} {A : DatabaseAPI S} {L : DatabaseAPILaws S} {RE : DatabaseAPIReliable S}.

Lemma carve_domain : kCarveDbDomain ∈ kDomains.
Proof. by apply (bool_decide_unpack _); vm_compute. Qed.

(** The entry of a carve. *)
Definition entry (s : S) (guid : string) : option json :=
  api_view s kCarveDbDomain !! (kCarverDBPrefix +:+ guid) ≫= fun t => rj_parse (c_str t).

(** An update changes the member it names and no other, and no other entry. *)
Theorem carve_update_changes_one_member guid key value s ms :
  api_ready s -> entry s guid = Some (JObject ms) -> NoDup ms.*1 -> json_exact (JObject ms) = true ->
  exists s' ms', updateCarveValue guid key value s = (Ok tt, s') /\ entry s' guid = Some (JObject ms') /\
    NoDup ms'.*1 /\ (list_to_map ms' : gmap string json) = <[key := JString value]> (list_to_map ms) /\
    forall other, other <> guid -> entry s' other = entry s other.
Proof.
  intros Hr He Hnd Hx. unfold entry in He.
  destruct (api_view s kCarveDbDomain !! (kCarverDBPrefix +:+ guid)) as [t|] eqn:Et; [|done]. cbn in He.
  unfold updateCarveValue.
  destruct (api_get_law s _ (kCarverDBPrefix +:+ guid) Hr carve_domain) as (st & E & Hst). rewrite Et in E, Hst.
  rewrite (bind_run _ _ _ _ _ E). rewrite (proj2 Hst) by eauto. cbn [negb default].
  cbn [from_option id] in He |- *. unfold JSON_fromString. rewrite He. unfold JSON_addCopy, JSON_add. unfold bind at 1, of_result.
  destruct (add_member_map key (JString value) ms Hnd) as [Hnd' Hm'].
  assert (json_exact (JObject (add_member key (JString value) ms)) = true) as Hx'.
  { apply json_exact_object, Forall_add_member; [done|]. by apply json_exact_object. }
  destruct (api_set_run s _ (kCarverDBPrefix +:+ guid) (JSON_toString (JObject (add_member key (JString value) ms))).2 Hr carve_domain)
    as (st' & s' & E' & Hr' & Hv').
  rewrite (api_set_batch_ok s _ _ st' s' Hr carve_domain E') in Hv'. rewrite (bind_run _ _ _ _ _ E').
  exists s', (add_member key (JString value) ms). split; [done|].
  assert (api_view s' kCarveDbDomain = <[kCarverDBPrefix +:+ guid := (JSON_toString (JObject (add_member key (JString value) ms))).2]> (api_view s kCarveDbDomain)) as Hv.
  { rewrite Hv'. unfold update_domain. by rewrite decide_True. }
  split; [|split; [done|split; [done|]]].
  - unfold entry. rewrite Hv, lookup_insert_eq. cbn [mbind option_bind]. unfold JSON_toString. cbn [snd].
    by rewrite c_str_idem, rj_roundtrip.
  - intros other Hne. unfold entry. rewrite Hv, lookup_insert_ne; [done|]. intros Heq.
    by apply app_inj_l_str in Heq.
Qed.

(** ** The table *)

(** One carve whose size is not an [int] makes the whole table throw. *)
Theorem large_carve_breaks_the_table read_json (key : string) tree size time rest results s t :
  api_ready s -> api_view s kCarveDbDomain !! key = Some t -> read_json t = Some tree ->
  tree !! "time" = Some (to_string time) -> 0 <= time < 2 ^ 31 ->
  tree !! "size" = Some (to_string size) -> 2 ^ 31 <= size ->
  exists e, enumerate_keys read_json (key :: rest) results s = (Throw e, s).
Proof.
  intros Hr Ht Hj Htime Hti Hsize Hs. cbn [enumerate_keys].
  destruct (api_get_law s _ key Hr carve_domain) as (st & E & Hst). rewrite Ht in E, Hst.
  rewrite (bind_run _ _ _ _ _ E). rewrite (proj2 Hst) by eauto. cbn [negb default from_option id]. rewrite Hj.
  unfold carve_row, get_int, get_text. rewrite Htime, Hsize.
  rewrite tryTo_to_string by (unfold int_range; lia).
  destruct (tryTo TInt (to_string size) 10) as [z|] eqn:Ez; [|by eexists].
  exfalso. revert Ez. unfold tryTo, throwingStringToInt, stoi, sto_signed. rewrite strto_to_string.
  destruct (Z.ltb_spec size 0); [lia|]. rewrite Z.abs_eq by lia.
  destruct (Z.leb_spec (- 2 ^ (32 - 1)) size); [|lia]. destruct (Z.ltb_spec size (2 ^ (32 - 1))); [lia|done].
Qed.
End Entries.
