(* ===== verification/Extensions.v ===== *)
(** * Extensions (osquery/extensions/extensions.cpp, interface.cpp, impl_thrift.cpp)

    The manager of the core keeps the registered extensions beside the registry; each
    side serves the other over a socket. The handlers of the server, the clients and the
    watchers are written out; the wire between them (Thrift over a socket) is a class. *)
From S2P Require Import Prelude Boost Conversions Json Database DatabaseFacts Query Host Registry RegistryFacts Filesystem Tables.
Local Open Scope Z_scope.

Definition kExtensionInitializeLatency : Z := 20.
Definition kSDKVersionChanges : list string := ["1.7.7"].

Inductive ExtendableType := EXTENSION.

(** The set of file extensions of a platform. *)
Definition kFileExtensions (platform : Z) (type : ExtendableType) : list string :=
  if platform =? TYPE_WINDOWS then [".exe"; ".ext"] else [".ext"].

Definition EXT_SUCCESS : Z := 0.
Definition EXT_FAILED : Z := 1.

Record ExtensionInfo := mkInfo { ei_name : string; ei_version : string; ei_sdk_version : string; ei_min_sdk_version : string }.

Abbreviation ExtensionList := (gmap Z ExtensionInfo).
Abbreviation ExtensionRegistry := (gmap string RegistryRoutes).

(** The values of a flag that are handed to an extension. *)
Record Option := mkOption { opt_value : string; opt_default : string; opt_type : string }.
Abbreviation OptionList := (gmap string Option).

Definition getExtensionSocket (uuid : Z) (path : string) : string :=
  if uuid =? 0 then path else path +:+ "." +:+ to_string uuid.

(** ** The wire

    The messages of the Thrift interface. A call throws when the socket cannot be opened
    or the peer does not answer. *)
Record ExtensionStatus := mkES { es_code : Z; es_message : string; es_uuid : Z }.
Record ExtensionResponse := mkER { er_status : ExtensionStatus; er_response : PluginResponse }.

Class Thrift (W : Type) := {
  th_ping : string -> M W ExtensionStatus;
  th_call : string -> string -> string -> PluginRequest -> M W ExtensionResponse;
  th_shutdown : string -> M W unit;
  th_extensions : string -> M W ExtensionList;
  th_options : string -> M W OptionList;
  th_registerExtension : string -> ExtensionInfo -> ExtensionRegistry -> M W ExtensionStatus;
  th_deregisterExtension : string -> Z -> M W ExtensionStatus;
  th_query : string -> string -> M W ExtensionResponse;
  th_getQueryColumns : string -> string -> M W ExtensionResponse;
}.

(** ** Clients (impl_thrift.cpp) *)

Section Clients.
Context {W : Type} {T : Thrift W}.

Definition ExtensionClient_ping (path : string) : M W Status :=
  let* status := th_ping path in
  if negb (es_code status =? EXT_FAILED) then ret (mkStatus 0 (es_message status)) else ret (Status1 1).

Definition ExtensionClient_call (path registry item : string) (request : PluginRequest) (response : PluginResponse)
    : M W (Status * PluginResponse) :=
  let* er := th_call path registry item request in
  ret (mkStatus (es_code (er_status er)) (es_message (er_status er)), response ++ er_response er).

Definition ManagerClient_registerExtension (path : string) (info : ExtensionInfo) (registry : ExtensionRegistry)
    : M W (Status * Z) :=
  let* status := th_registerExtension path info registry in
  ret (mkStatus (es_code status) (es_message status), es_uuid status).

(** The status of the answer is not looked at. *)
Definition ManagerClient_query (path sql : string) (qd : QueryData) : M W (Status * QueryData) :=
  let* er := th_query path sql in ret (Status_success, qd ++ er_response er).

Definition ManagerClient_getQueryColumns (path sql : string) (qd : QueryData) : M W (Status * QueryData) :=
  let* er := th_getQueryColumns path sql in
  ret (mkStatus (es_code (er_status er)) (es_message (er_status er)), qd ++ er_response er).

Definition ManagerClient_deregisterExtension (path : string) (uuid : Z) : M W Status :=
  let* status := th_deregisterExtension path uuid in ret (mkStatus (es_code status) (es_message status)).
End Clients.

(** ** The process

    The registry, the metadata of the registered extensions, the failures the watcher
    counted, the flags, and the rest of the world. *)
Record Process (W : Type) := mkProcess {
  pr_registry : RegistryFactory;
  pr_extensions : ExtensionList;
  failures_ : gmap Z Z;
  FLAGS_extensions_socket : string;
  pr_world : W;
}.
Arguments mkProcess {W} _ _ _ _ _.
Arguments pr_registry {W} _.
Arguments pr_extensions {W} _.
Arguments failures_ {W} _.
Arguments FLAGS_extensions_socket {W} _.
Arguments pr_world {W} _.

Section Process.
Context {W : Type}.
Abbreviation MP := (M (Process W)).

Definition with_registry (r : RegistryFactory) (p : Process W) : Process W :=
  mkProcess r (pr_extensions p) (failures_ p) (FLAGS_extensions_socket p) (pr_world p).
Definition with_extensions (e : ExtensionList) (p : Process W) : Process W :=
  mkProcess (pr_registry p) e (failures_ p) (FLAGS_extensions_socket p) (pr_world p).
Definition with_failures (f : gmap Z Z) (p : Process W) : Process W :=
  mkProcess (pr_registry p) (pr_extensions p) f (FLAGS_extensions_socket p) (pr_world p).
Definition with_socket (s : string) (p : Process W) : Process W :=
  mkProcess (pr_registry p) (pr_extensions p) (failures_ p) s (pr_world p).
Definition with_world (w : W) (p : Process W) : Process W :=
  mkProcess (pr_registry p) (pr_extensions p) (failures_ p) (FLAGS_extensions_socket p) w.

Definition on_registry {A} (m : MR A) : MP A := zoom pr_registry with_registry m.
Definition on_world {A} (m : M W A) : MP A := zoom pr_world with_world m.

(** ** The interfaces served (interface.cpp) *)

Context {B : Boost}.
Context (plugin_call : Z -> PluginRequest -> PluginResponse -> MR (Status * PluginResponse)).
Context (addExternalPlugin : string -> string -> PluginResponse -> MR Status).
Context (removeExternalPlugin : string -> string -> MR unit).
Context (transport : Z -> string -> string -> PluginRequest -> PluginResponse -> MR (Status * PluginResponse)).
Context (external allowDuplicates FLAGS_registry_exceptions : bool).

Definition ExtensionInterface_ping (uuid_ : Z) : result Status :=
  if uuid_ <? 2 ^ 31 - 1 then Ok (mkStatus uuid_ "pong") else Throw AssertFailure.

Definition getActive (registry_name : string) : MR string :=
  let* r := registry registry_name in ret (active_plugin r).

(** The item is resolved on the side that owns it. *)
Definition ExtensionInterface_call (reg item : string) (request : PluginRequest) (response : PluginResponse)
    : MP (Status * PluginResponse) :=
  on_registry
    (let* local_item := getAlias reg item in
     let* local_item := (if is_empty local_item then getActive reg else ret local_item) in
     factory_call plugin_call transport external FLAGS_registry_exceptions reg local_item request response).

(** [routeUUIDs]: a copy of the set. *)
Definition routeUUIDs : MR (gset Z) := gets Registry.extensions_.

Definition refresh : MP unit :=
  let* uuids := on_registry routeUUIDs in
  modify (fun p => with_extensions (filter (fun e => e.1 ∈ uuids) (pr_extensions p)) p).

Definition manager_extensions : MP ExtensionList := refresh ;;; gets pr_extensions.

Definition manager_exists (name : string) : MP bool :=
  refresh ;;; gets (fun p => existsb (fun e => bool_decide (ei_name e.2 = name)) (map_to_list (pr_extensions p))).

(** [Flag::flags()] gives the flags. *)
Context (Flag_flags : M W OptionList) (w_rand : M W Z) (sql_query : string -> M W (Status * QueryData))
        (sql_getQueryColumns : string -> M W (Status * list (string * string))).

Definition manager_options : MP OptionList := on_world Flag_flags.

(** The change of the API an extension is too old for. *)
Fixpoint incompatible (changes : list string) (sdk : string) : result bool :=
  match changes with
  | [] => Ok false
  | change :: changes =>
      match versionAtLeast change sdk with
      | Throw e => Throw e
      | Ok false => Ok true
      | Ok true => incompatible changes sdk
      end
  end.

(** The part after the name was looked up. *)
Definition register_new (info : ExtensionInfo) (reg : ExtensionRegistry) (uuid : Z) : MP (Status * Z) :=
  let* old := of_result (incompatible kSDKVersionChanges (ei_sdk_version info)) in
  if old : bool then ret (mkStatus EXT_FAILED "Incompatible extension SDK version", uuid)
  else
    let* r := on_world w_rand in
    let uuid := r mod 2 ^ 16 in
    let* status := on_registry (addBroadcast addExternalPlugin removeExternalPlugin allowDuplicates uuid reg) in
    if negb (Status_ok status) then ret (mkStatus EXT_FAILED ("Failed adding registry: " +:+ message status), uuid)
    else
      modify (fun p => with_extensions (<[uuid := info]> (pr_extensions p)) p) ;;;
      ret (Status_success, uuid).

Definition registerExtension (info : ExtensionInfo) (reg : ExtensionRegistry) (uuid : Z) : MP (Status * Z) :=
  let* known := manager_exists (ei_name info) in
  if known : bool then ret (mkStatus EXT_FAILED "Duplicate extension registered", uuid)
  else register_new info reg uuid.

Definition deregisterExtension (uuid : Z) : MP Status :=
  let* exts := gets pr_extensions in
  match exts !! uuid with
  | None => ret (mkStatus EXT_FAILED "No extension UUID found")
  | Some _ =>
      on_registry (removeBroadcast removeExternalPlugin uuid) ;;;
      modify (fun p => with_extensions (delete uuid (pr_extensions p)) p) ;;;
      ret Status_success
  end.

Definition manager_getQueryColumns (sql : string) : MP (Status * QueryData) :=
  let* (status, columns) := on_world (sql_getQueryColumns sql) in
  ret (status, if Status_ok status then (fun c => {[ c.1 := c.2 ]}) <$> columns else []).

(** ** The handlers of the server (impl_thrift.cpp) *)

Definition Handler_ping (uuid_ : Z) : MP ExtensionStatus :=
  let* s := of_result (ExtensionInterface_ping uuid_) in
  ret (mkES EXT_SUCCESS (message s) (code s)).

(** The response of a call that failed is dropped. *)
Definition Handler_call (uuid_ : Z) (reg item : string) (request : PluginRequest) : MP ExtensionResponse :=
  let* (s, response) := ExtensionInterface_call reg item request [] in
  ret (mkER (mkES (code s) (message s) uuid_) (if Status_ok s then response else [])).

Definition Handler_extensions : MP ExtensionList := manager_extensions.

(** [uuid] is not initialised; a field that is not set is 0. *)
Definition Handler_registerExtension (info : ExtensionInfo) (reg : ExtensionRegistry) : MP ExtensionStatus :=
  let* (s, uuid) := registerExtension info reg 0 in
  ret (if Status_ok s then mkES EXT_SUCCESS (message s) uuid else mkES EXT_FAILED (message s) 0).

Definition Handler_deregisterExtension (uuid_ uuid : Z) : MP ExtensionStatus :=
  let* s := deregisterExtension uuid in
  ret (if Status_ok s then mkES EXT_SUCCESS (message s) uuid_ else mkES EXT_FAILED (message s) 0).

Definition answer_rows (uuid_ : Z) (s : Status) (qd : QueryData) : ExtensionResponse :=
  mkER (if Status_ok s then mkES EXT_SUCCESS (message s) uuid_ else mkES EXT_FAILED (message s) 0) qd.

Definition Handler_query (uuid_ : Z) (sql : string) : MP ExtensionResponse :=
  let* (s, qd) := on_world (sql_query sql) in ret (answer_rows uuid_ s qd).

Definition Handler_getQueryColumns (uuid_ : Z) (sql : string) : MP ExtensionResponse :=
  let* (s, qd) := manager_getQueryColumns sql in ret (answer_rows uuid_ s qd).

(** ** Waiting (extensions.cpp) *)

Context {T : Thrift W} {P : Posix W} (sleepFor : Z -> M W unit) (FLAGS_extensions_timeout FLAGS_extensions_interval : string).
Context (FLAGS_disable_extensions : bool).

(** [atoi]; the products with 1000 are products of [int]. *)
Definition atoi (s : string) : Z :=
  match strto 10 s with Some (neg, m) => i32 (if neg : bool then - m else m) | None => 0 end.
Definition milliseconds (seconds : string) : Z := i32 (atoi seconds * 1000).

(** The wait in milliseconds, as a [size_t]. *)
Definition delay_timeout : Z :=
  let timeout := u64 (milliseconds FLAGS_extensions_timeout) in
  if timeout <? kExtensionInitializeLatency * 10 then kExtensionInitializeLatency * 10 else timeout.

Fixpoint delay_loop (fuel : nat) (delay : Z) (predicate : MP (Status * bool)) : MP (option Status) :=
  match fuel with
  | O => ret None
  | Datatypes.S fuel =>
      let* (status, stop) := predicate in
      if stop || Status_ok status then ret (Some status)
      else
        on_world (sleepFor kExtensionInitializeLatency) ;;;
        let delay := delay + kExtensionInitializeLatency in
        if delay <? delay_timeout then delay_loop fuel delay predicate else ret (Some status)
  end.

(** One round for every 20 milliseconds of the wait, or part of them. *)
Definition delay_rounds : nat := Z.to_nat ((delay_timeout + 19) / 20).

Definition applyExtensionDelay (predicate : MP (Status * bool)) : MP Status :=
  let* r := delay_loop delay_rounds 0 predicate in
  match r with Some s => ret s | None => throw AssertFailure end.

(** The status of the ping itself is not looked at. *)
Definition path_predicate (path : string) (use_timeout : bool) : MP (Status * bool) :=
  let* e := on_world (socketExists path false) in
  let* active :=
    (if Status_ok e then
       on_world (catch (let* _ := ExtensionClient_ping path in ret true) (fun _ => ret false))
     else ret false) in
  if active : bool then ret (mkStatus 0 "OK", false)
  else ret (mkStatus 1 ("Extension socket not available: " +:+ path), negb use_timeout).

Definition extensionPathActive (path : string) (use_timeout : bool) : MP Status :=
  applyExtensionDelay (path_predicate path use_timeout).

(** ** Watching *)

Context (requestShutdown : Z -> M W unit).

(** The interval of a watcher: at least 200 milliseconds. *)
Definition watcher_interval (interval : Z) : Z := if interval <? 200 then 200 else interval.

Definition ExtensionWatcher_watch (path_ : string) (fatal_ : bool) : MP unit :=
  let* e := on_world (socketExists path_ false) in
  let* (core_sane, status) :=
    (if Status_ok e then
       on_world (catch (let* s := ExtensionClient_ping path_ in ret (true, s)) (fun _ => ret (false, Status_success)))
     else ret (false, Status_success)) in
  (if core_sane : bool then ret tt else on_world (requestShutdown 0)) ;;;
  if negb (code status =? EXT_SUCCESS) && fatal_ then on_world (requestShutdown 1) else ret tt.

Definition set_failures (uuid n : Z) : MP unit :=
  modify (fun p => with_failures (<[uuid := n]> (failures_ p)) p).

(** One extension: 1, or 2 when it does not answer. *)
Definition check_extension (uuid : Z) : MP unit :=
  let* socket := gets FLAGS_extensions_socket in
  let path := getExtensionSocket uuid socket in
  let* e := on_world (socketExists path false) in
  let* fs := gets failures_ in
  let* e := (if negb (Status_ok e) && (default 0 (fs !! uuid) =? 0) then extensionPathActive path true else ret e) in
  set_failures uuid 1 ;;;
  if Status_ok e then
    let* status := on_world (catch (let* s := ExtensionClient_ping path in ret (Some s)) (fun _ => ret None)) in
    match status with
    | None => set_failures uuid 2
    | Some s => set_failures uuid (if negb (code s =? EXT_SUCCESS) then 2 else 1)
    end
  else set_failures uuid 2.

(** In the order of their numbers, as [std::set] and [std::map] have them. *)
Definition ascending (l : list Z) : list Z := merge_sort Z.le l.

Definition gone (fs : gmap Z Z) : list Z := ascending (filter (fun f => 1 < f.2) (map_to_list fs)).*1.

Definition forget_gone (uuid : Z) : MP unit :=
  on_registry (removeBroadcast removeExternalPlugin uuid) ;;; set_failures uuid 1.

Definition ManagerWatcher_watch : MP unit :=
  let* uuids := on_registry routeUUIDs in
  for_each (ascending (elements uuids)) check_extension ;;;
  let* fs := gets failures_ in
  for_each (gone fs) forget_gone.

(** When the watcher ends every extension is asked to. *)
Definition ManagerWatcher_shutdown : MP unit :=
  let* uuids := on_registry routeUUIDs in
  let* socket := gets FLAGS_extensions_socket in
  for_each (ascending (elements uuids)) (fun uuid => on_world (catch (th_shutdown (getExtensionSocket uuid socket)) (fun _ => ret tt))).

(** ** Autoloading *)

(** [Watcher::get().addExtensionPath], [readFile], [fs::path::extension]. *)
Context (addExtensionPath : string -> M W unit) (read_text : string -> M W (Status * string)) (extension_of : string -> string).
Context (kPlatformType : Z) (FLAGS_allow_unsafe : bool) (FLAGS_extension : string).

Definition extensions_of_platform : list string :=
  if isPlatform TYPE_LINUX kPlatformType then kFileExtensions TYPE_LINUX EXTENSION
  else if isPlatform TYPE_OSX kPlatformType then kFileExtensions TYPE_OSX EXTENSION
  else kFileExtensions TYPE_WINDOWS EXTENSION.

(** The path that is safe, after it was trimmed. *)
Definition isFileSafe (path : string) : M W (option string) :=
  let path := boost_trim path in
  if is_empty path || bool_decide (String.get 0 path = Some "#"%char) || bool_decide (String.get 0 path = Some ";"%char)
  then ret None
  else
    let* d := isDirectory path in
    if Status_ok d then ret None
    else
      let* e := pathExists path in
      if negb (Status_ok e) then ret None
      else
        let* safe := safePermissions FLAGS_allow_unsafe (path_parent path) path true in
        if negb safe then ret None
        else if negb (bool_decide (extension_of path ∈ extensions_of_platform)) then ret None
        else ret (Some path).

(** Insert into a set of paths. *)
Definition set_insert (o : option string) (set : gset string) : gset string :=
  match o with Some path => {[path]} ∪ set | None => set end.

Definition autoload_line (binaries : gset string) (path : string) : M W (gset string) :=
  let* d := isDirectory path in
  if Status_ok d then
    let* (_, paths) := listFilesInDirectory path [] true in
    for_fold paths binaries (fun binaries embedded =>
      let* o := isFileSafe embedded in ret (set_insert o binaries))
  else
    let* o := isFileSafe path in ret (set_insert o binaries).

Definition newline : string := String "010" "".

Definition loadExtensions (loadfile : string) : M W Status :=
  (if is_empty FLAGS_extension then ret tt else addExtensionPath FLAGS_extension) ;;;
  let* (s, autoload_paths) := read_text loadfile in
  if negb (Status_ok s) then ret (mkStatus 1 ("Failed reading: " +:+ loadfile))
  else
    let* binaries := for_fold (split autoload_paths newline) (∅ : gset string) autoload_line in
    for_each (merge_sort String.le (elements binaries)) addExtensionPath ;;;
    ret (mkStatus 0 "OK").

(** [make_preferred] changes nothing on POSIX. *)
Definition loadExtensions_flag (FLAGS_extensions_autoload : string) : M W unit :=
  if FLAGS_disable_extensions then ret tt
  else let* _ := loadExtensions FLAGS_extensions_autoload in ret tt.

(** The shell takes a socket of its own; [is_default] says that the flag was not given. *)
Definition initShellSocket (is_default : bool) (homedir : string) : MP unit :=
  if negb is_default then ret tt
  else
    modify (with_socket (if isPlatform TYPE_WINDOWS kPlatformType then "\\.\pipe\shell.em" else path_append homedir "shell.em")) ;;;
    let* socket := gets FLAGS_extensions_socket in
    let* active := extensionPathActive socket false in
    let* taken := (if Status_ok active then ret true
                   else let* e := on_world (socketExists socket true) in ret (negb (Status_ok e))) in
    if taken : bool then
      let* r := on_world w_rand in modify (with_socket (socket +:+ to_string (r mod 2 ^ 16)))
    else ret tt.

(** ** Calls *)

Definition call_failed (e : exn) : Status := mkStatus 1 ("Extension call failed: " +:+ exn_what e).
Definition disabled : Status := mkStatus 1 "Extensions disabled".

Definition ExternalSQLPlugin_query (query : string) (results : QueryData) : MP (Status * QueryData) :=
  let* socket := gets FLAGS_extensions_socket in
  let* status := extensionPathActive socket false in
  if negb (Status_ok status) then ret (status, results)
  else on_world (catch (ManagerClient_query socket query results) (fun e => ret (call_failed e, results))).

Definition ExternalSQLPlugin_getQueryColumns (query : string) (columns : list TableColumn) : MP (Status * list TableColumn) :=
  let* socket := gets FLAGS_extensions_socket in
  let* status := extensionPathActive socket false in
  if negb (Status_ok status) then ret (status, columns)
  else
    let* r := on_world (catch (let* r := ManagerClient_getQueryColumns socket query [] in ret (inl r)) (fun e => ret (inr e))) in
    match r with
    | inr e => ret (call_failed e, columns)
    | inl (status, qd) =>
        ret (status, columns ++ ((fun col => mkColumn col.1 (columnTypeOf col.2) OPT_DEFAULT) <$> concat (map_sorted <$> qd)))
    end.

Definition pingExtension (path : string) : MP Status :=
  if FLAGS_disable_extensions then ret disabled
  else
    let* status := extensionPathActive path false in
    if negb (Status_ok status) then ret status
    else
      on_world (catch (let* s := ExtensionClient_ping path in ret (mkStatus 0 (message s))) (fun e => ret (call_failed e))).

Context (kVersion kSDKVersion : string).

(** The braces fill the members in the order of the structure. *)
Definition add_listed (list found : ExtensionList) : ExtensionList :=
  ((fun e => mkInfo (ei_name e) (ei_version e) (ei_min_sdk_version e) (ei_sdk_version e)) <$> found) ∪
  <[0 := mkInfo "core" kVersion "0.0.0" kSDKVersion]> list.

Definition getExtensions_at (manager_path : string) (list : ExtensionList) : MP (Status * ExtensionList) :=
  let* status := extensionPathActive manager_path false in
  if negb (Status_ok status) then ret (status, list)
  else
    on_world (catch (let* found := th_extensions manager_path in ret (mkStatus 0 "OK", add_listed list found))
                    (fun e => ret (call_failed e, list))).

Definition getExtensions (list : ExtensionList) : MP (Status * ExtensionList) :=
  if FLAGS_disable_extensions then ret (disabled, list)
  else let* socket := gets FLAGS_extensions_socket in getExtensions_at socket list.

Definition callExtension_at (path reg item : string) (request : PluginRequest) (response : PluginResponse)
    : MP (Status * PluginResponse) :=
  let* status := extensionPathActive path false in
  if negb (Status_ok status) then ret (status, response)
  else on_world (catch (ExtensionClient_call path reg item request response) (fun e => ret (call_failed e, response))).

Definition callExtension (uuid : Z) (reg item : string) (request : PluginRequest) (response : PluginResponse)
    : MP (Status * PluginResponse) :=
  if FLAGS_disable_extensions then ret (disabled, response)
  else let* socket := gets FLAGS_extensions_socket in callExtension_at (getExtensionSocket uuid socket) reg item request response.

(** ** Starting *)

Inductive ExtensionService :=
  | WatcherService (path : string) (interval : Z) (fatal : bool)
  | ManagerWatcherService (path : string) (interval : Z)
  | RunnerService (path : string) (uuid : Z)
  | ManagerRunnerService (path : string).
Context (addService : ExtensionService -> M W unit).

Definition startExtensionWatcher (manager_path : string) (interval : Z) (fatal : bool) : MP Status :=
  let* status := extensionPathActive manager_path true in
  if negb (Status_ok status) then ret status
  else on_world (addService (WatcherService manager_path (watcher_interval interval) fatal)) ;;; ret (mkStatus 0 "OK").

(** Registries: the virtual functions of plugins, and a ping for [setActive]. *)
Context (plugin_setUp : Z -> MR Status) (plugin_tearDown : Z -> MR unit) (routeInfo : Z -> PluginResponse) (ping_uuid : Z -> MR Status).
Context (setExternal : M W unit).

Definition option_of (options : OptionList) (name : string) : string := default "" (opt_value <$> options !! name).

Definition activate (options : OptionList) : MR unit :=
  for_each ["config"; "logger"; "distributed"] (fun reg =>
    let* _ := setActive plugin_setUp ping_uuid external reg (option_of options (reg +:+ "_plugin")) in ret tt).

(** [RegistryFactory::setUp]: every registry in turn. *)
Definition setUp_all : MR unit :=
  let* regs := gets registries_ in
  for_each (map_sorted regs) (fun r => reg_setUp plugin_setUp plugin_tearDown r.1).

Definition startExtension_at (manager_path name version min_sdk_version sdk_version : string) : MP Status :=
  let* status := extensionPathActive manager_path true in
  if negb (Status_ok status) then ret status
  else
    let* broadcast := on_registry (getBroadcast routeInfo) in
    let info := mkInfo name version sdk_version min_sdk_version in
    let* r := on_world (catch
      (let* (status, uuid) := ManagerClient_registerExtension manager_path info broadcast in
       if code status =? EXT_FAILED then ret (inl status)
       else let* options := th_options manager_path in ret (inr (uuid, options)))
      (fun e => ret (inl (mkStatus 1 ("Extension register failed: " +:+ exn_what e))))) in
    match r with
    | inl status => ret status
    | inr (uuid, options) =>
        let extension_path := getExtensionSocket uuid manager_path in
        let* status := on_world (socketExists extension_path true) in
        if negb (Status_ok status) then ret status
        else
          on_registry (activate options) ;;;
          on_registry setUp_all ;;;
          on_world (addService (RunnerService extension_path uuid)) ;;;
          ret (mkStatus 0 (to_string uuid))
    end.

Definition startExtension (name version min_sdk_version : string) : MP Status :=
  on_world setExternal ;;;
  let latency := u64 (milliseconds FLAGS_extensions_interval) in
  let* socket := gets FLAGS_extensions_socket in
  let* status := startExtensionWatcher socket latency true in
  if negb (Status_ok status) then ret status
  else
    let* status := startExtension_at socket name version min_sdk_version kSDKVersion in
    if negb (Status_ok status) then ret status else ret (Status1 0).

(** Wait for an extension that is required; [waited] ends the wait at once. *)
Definition required_predicate (extension : string) (waited : bool) : MP (Status * bool) :=
  let* (s, registered) := getExtensions ∅ in
  let existing := filter (fun e => ei_name e.2 = extension) (map_to_list registered) in
  match (if Status_ok s then ascending existing.*1 else []) with
  | uuid :: _ =>
      let* socket := gets FLAGS_extensions_socket in
      let* s := pingExtension (getExtensionSocket uuid socket) in ret (s, false)
  | [] => ret (mkStatus 1 ("Extension not autoloaded: " +:+ extension), waited)
  end.

Context (FLAGS_extensions_require : string).

Definition startExtensionManager_at (manager_path : string) : MP Status :=
  let* status := on_world (socketExists manager_path true) in
  if negb (Status_ok status) then ret status
  else
    let latency := u64 (milliseconds FLAGS_extensions_interval) in
    on_world (addService (ManagerWatcherService manager_path (watcher_interval latency))) ;;;
    on_world (addService (ManagerRunnerService manager_path)) ;;;
    if is_empty FLAGS_extensions_require then ret (mkStatus 0 "OK")
    else
      let* o := for_flow (split FLAGS_extensions_require ",") false (fun waited extension =>
        let* status := applyExtensionDelay (required_predicate extension waited) in
        if negb (Status_ok status) then ret (Return status) else ret (Next true)) in
      match o with Return status => ret status | Next _ => ret (mkStatus 0 "OK") end.

Definition startExtensionManager : MP Status :=
  if FLAGS_disable_extensions then ret disabled
  else let* socket := gets FLAGS_extensions_socket in startExtensionManager_at socket.

(** ** Serving (interface.cpp) *)

Definition removeStalePaths (manager : string) : M W unit :=
  let* (_, paths) := resolveFilePattern (manager +:+ ".*") [] GLOB_ALL in
  for_each paths (fun path => let* _ := removePath path in ret tt).

(** [connect] and [serve] of the server; nothing is started once a stop was requested. *)
Context (connect serve stopServer : string -> M W unit).

Definition startServer (path_ : string) (service_stopping_ : bool) : M W unit :=
  if service_stopping_ then ret tt
  else
    (if isPlatform TYPE_WINDOWS kPlatformType then ret tt else removeStalePaths path_) ;;;
    connect path_ ;;;
    serve path_.

Definition Runner_start (path_ : string) (service_stopping_ : bool) : M W unit :=
  catch (startServer path_ service_stopping_) (fun _ => ret tt).
End Process.

(** * Extensions: names, watching, waiting, calls

    The registered extensions have different names unless two register at once; the
    watcher keeps exactly the extensions that answer; waits end; what an extension
    broadcasts can be called; only safe files are loaded. *)
Local Open Scope Z_scope.

Lemma zoom_run {S T A} (get : S -> T) (put : T -> S -> S) (m : M T A) s r t :
  m (get s) = (r, t) -> zoom get put m s = (r, put t s).
Proof. unfold zoom. by intros ->. Qed.

(** What a loop returns with is what some round returned with. *)
Lemma for_flow_Return {S A B R} (P : R -> Prop) (l : list A) (acc : B) (body : B -> A -> M S (flow B R)) s r s' :
  (forall acc x s r s', body acc x s = (Ok (Return r), s') -> P r) -> for_flow l acc body s = (Ok (Return r), s') -> P r.
Proof.
  intros Hb. revert acc s. induction l as [|x l IH]; intros acc s; cbn [for_flow]; [done|].
  intros E. run_step E as o s1 E1. destruct o; [by eapply IH|]. run_pure E. by eapply Hb.
Qed.

Lemma elem_of_ascending x l : x ∈ ascending l <-> x ∈ l.
Proof. unfold ascending. by rewrite merge_sort_Permutation. Qed.

Lemma NoDup_ascending l : NoDup l -> NoDup (ascending l).
Proof. unfold ascending. by rewrite merge_sort_Permutation. Qed.

(** ** Registering *)

Section Register.
Context {W : Type} {B : Boost}.
Context (addExt : string -> string -> PluginResponse -> MR Status) (removeExt : string -> string -> MR unit).
Context (allowDuplicates : bool) (w_rand : M W Z).
Abbreviation register := (registerExtension addExt removeExt allowDuplicates w_rand).
Abbreviation insert_new := (register_new addExt removeExt allowDuplicates w_rand).

(** No two extensions have the same name. *)
Definition distinct_names (l : ExtensionList) : Prop :=
  forall u1 u2 i1 i2, l !! u1 = Some i1 -> l !! u2 = Some i2 -> ei_name i1 = ei_name i2 -> u1 = u2.

Lemma distinct_names_filter (P : Z * ExtensionInfo -> Prop) `{forall x, Decision (P x)} l :
  distinct_names l -> distinct_names (filter P l).
Proof. intros Hl u1 u2 i1 i2 [H1 _]%map_lookup_filter_Some [H2 _]%map_lookup_filter_Some. by apply Hl. Qed.

Lemma distinct_names_insert u i l :
  distinct_names l -> (forall u' i', l !! u' = Some i' -> ei_name i' <> ei_name i) -> distinct_names (<[u := i]> l).
Proof.
  intros Hl Hn u1 u2 i1 i2. rewrite !lookup_insert_Some.
  intros [[<- <-]|[H1 E1]] [[<- <-]|[H2 E2]] He; try done.
  - by destruct (Hn _ _ E2).
  - by destruct (Hn _ _ E1).
  - by eapply Hl.
Qed.

(** The extensions that still have a route. *)
Definition routed (p : Process W) : ExtensionList :=
  filter (fun e => e.1 ∈ Registry.extensions_ (pr_registry p)) (pr_extensions p).

Lemma refresh_run p : refresh p = (Ok tt, with_extensions (routed p) p).
Proof. by destruct p. Qed.

Lemma exists_run name p :
  manager_exists name p = (Ok (existsb (fun e => bool_decide (ei_name e.2 = name)) (map_to_list (routed p))), with_extensions (routed p) p).
Proof. unfold manager_exists. rewrite (bind_run _ _ _ _ _ (refresh_run p)). by destruct p. Qed.

Lemma exists_false name p p' : manager_exists name p = (Ok false, p') ->
  p' = with_extensions (routed p) p /\ forall u i, routed p !! u = Some i -> ei_name i <> name.
Proof.
  rewrite exists_run. intros [= He <-]. split; [done|]. intros u i Hu Hn.
  assert (existsb (fun e => bool_decide (ei_name e.2 = name)) (map_to_list (routed p)) = true) as Ht; [|by rewrite Ht in He].
  apply existsb_exists. exists (u, i). split; [by apply list_elem_of_In, elem_of_map_to_list|]. by apply bool_decide_true.
Qed.

Lemma routed_idem p : routed (with_extensions (routed p) p) = routed p.
Proof.
  apply map_eq. intros u. unfold routed at 1. cbn [pr_extensions pr_registry with_extensions].
  destruct (routed p !! u) as [i|] eqn:E.
  - apply map_lookup_filter_Some. split; [done|]. unfold routed in E. by apply map_lookup_filter_Some in E as [_ ?].
  - apply map_lookup_filter_None. by left.
Qed.

(** What registering does with the list: nothing, or the new entry. *)
Lemma register_new_extensions info reg u p r p' : insert_new info reg u p = (r, p') ->
  pr_extensions p' = pr_extensions p \/ exists uuid, pr_extensions p' = <[uuid := info]> (pr_extensions p).
Proof.
  unfold register_new. unfold bind at 1, of_result.
  destruct (incompatible _ _) as [[]|e]; [by intros [= _ <-]; left| |by intros [= _ <-]; left].
  unfold bind at 1, on_world, zoom. destruct (w_rand (pr_world p)) as [[n|e] w]; [|by intros [= _ <-]; left].
  unfold bind at 1, on_registry, zoom.
  destruct (addBroadcast _ _ _ _ _ _) as [[st|e] f]; [|by intros [= _ <-]; left].
  destruct (negb (Status_ok st)); [by intros [= _ <-]; left|].
  intros [= _ <-]. right. by eexists.
Qed.

(** What happens in the process of the manager: requests, and anything else that
    changes the registry, the flags and the world. *)
Inductive mstep : Process W -> Process W -> Prop :=
  | step_register info reg u p r p' : register info reg u p = (r, p') -> mstep p p'
  | step_deregister uuid p r p' : deregisterExtension removeExt uuid p = (r, p') -> mstep p p'
  | step_list p r p' : manager_extensions p = (r, p') -> mstep p p'
  | step_other p reg fs socket w : mstep p (mkProcess reg (pr_extensions p) fs socket w).

Lemma mstep_distinct p p' : mstep p p' -> distinct_names (pr_extensions p) -> distinct_names (pr_extensions p').
Proof.
  intros H Hd. destruct H as [info reg u p r p' E|uuid p r p' E|p r p' E|p reg fs socket w]; [| | |done].
  - unfold registerExtension in E. unfold bind in E. destruct (manager_exists (ei_name info) p) as [[[]|e] p1] eqn:Ex.
    + rewrite exists_run in Ex. run_pure E. by apply distinct_names_filter.
    + apply exists_false in Ex as [-> Hn].
      apply register_new_extensions in E as [->|[uuid ->]]; [by apply distinct_names_filter|].
      apply distinct_names_insert; [by apply distinct_names_filter|exact Hn].
    + rewrite exists_run in Ex. done.
  - unfold deregisterExtension in E. rewrite bind_gets in E. destruct (pr_extensions p !! uuid); [|by injection E as _ <-].
    unfold on_registry, zoom, bind at 1 in E. destruct (removeBroadcast _ _ _) as [[st|ex] f]; [|by injection E as _ <-].
    rewrite bind_modify in E. injection E as _ <-. cbn [pr_extensions with_extensions with_registry].
    intros u1 u2 i1 i2 [_ H1]%lookup_delete_Some [_ H2]%lookup_delete_Some. by apply Hd.
  - unfold manager_extensions in E. rewrite (bind_run _ _ _ _ _ (refresh_run p)) in E. injection E as _ <-.
    by apply distinct_names_filter.
Qed.

(** Whatever was registered and removed before, the extensions a manager lists have
    different names and each of them has routes in the registry. *)
Theorem listed_extensions_are_distinct p0 p l p' :
  pr_extensions p0 = ∅ -> rtc mstep p0 p -> manager_extensions p = (Ok l, p') ->
  distinct_names l /\ forall u, is_Some (l !! u) -> u ∈ Registry.extensions_ (pr_registry p').
Proof.
  intros H0 Hr. assert (distinct_names (pr_extensions p0)) as Hd0 by (rewrite H0; intros u1 u2 i1 i2; by rewrite lookup_empty).
  assert (distinct_names (pr_extensions p)) as Hd.
  { clear H0. induction Hr as [|p1 p2 p3 Hs _ IH]; [done|]. apply IH. by eapply mstep_distinct. }
  unfold manager_extensions. rewrite (bind_run _ _ _ _ _ (refresh_run p)). cbn. intros [= <- <-].
  split; [by apply distinct_names_filter|]. intros u [i Hi]. by apply map_lookup_filter_Some in Hi as [_ ?].
Qed.

(** *** Two requests at once *)

Lemma add_all_refused uuid reg f b st f' : add_all addExt uuid reg f = (Ok (Return (b, st)), f') -> Status_ok st = false.
Proof.
  intros E. refine (for_flow_Return (fun r => Status_ok r.2 = false) _ _ _ _ _ _ _ E). clear.
  intros [] x f r f' E. unfold factory_exists in E. rewrite bind_gets in E. destruct (negb _); [by run_pure E|].
  run_step E as st f1 E1. destruct (Status_ok st) eqn:Es; by run_pure E.
Qed.

Lemma find_duplicate_refused reg f st f' : find_duplicate reg f = (Ok (Return st), f') -> Status_ok st = false.
Proof.
  intros E. refine (for_flow_Return (fun r => Status_ok r = false) _ _ _ _ _ _ _ E). clear.
  intros [] x f r f' E. refine (for_flow_Return (fun r => Status_ok r = false) _ _ _ _ _ _ _ E). clear.
  intros [] y f r f' E. run_step E as d f1 E1. by destruct d; run_pure E.
Qed.

(** A broadcast that is accepted has a number that was not taken. *)
Lemma addBroadcast_ok uuid reg f st f' : addBroadcast addExt removeExt allowDuplicates uuid reg f = (Ok st, f') ->
  Status_ok st = true -> uuid ∉ Registry.extensions_ f /\ uuid ∈ Registry.extensions_ f'.
Proof.
  intros E Hs. unfold addBroadcast in E. rewrite bind_gets in E. case_bool_decide as Hu; [by run_pure E|].
  split; [done|]. run_step E as dup f1 Ed. destruct dup as [[]|st1].
  - run_step E as o f2 Eo. destruct o as [[]|[[] st2]].
    + rewrite bind_modify in E. run_pure E. cbn. set_solver.
    + apply add_all_refused in Eo. run_pure E. congruence.
    + apply add_all_refused in Eo. run_step E as z f3 E3. rewrite bind_modify in E. run_pure E. congruence.
  - run_pure E. destruct allowDuplicates; [by run_pure Ed|]. apply find_duplicate_refused in Ed. congruence.
Qed.

Lemma register_new_ok info reg u p st uuid p' : insert_new info reg u p = (Ok (st, uuid), p') -> Status_ok st = true ->
  pr_extensions p' = <[uuid := info]> (pr_extensions p) /\
  uuid ∉ Registry.extensions_ (pr_registry p) /\ uuid ∈ Registry.extensions_ (pr_registry p').
Proof.
  unfold register_new. unfold bind at 1, of_result.
  destruct (incompatible _ _) as [[]|e]; [by intros [= <- <- <-] ?| |done].
  unfold bind at 1, on_world, zoom. destruct (w_rand (pr_world p)) as [[n|e] w]; [|done].
  unfold bind at 1, on_registry, zoom. cbn [pr_registry with_world].
  destruct (addBroadcast _ _ _ _ _ _) as [[st0|e] f] eqn:Ea; [|done].
  destruct (Status_ok st0) eqn:Es; cbn [negb]; [|by intros [= <- <- <-] ?].
  intros [= <- <- <-] _. split; [done|]. by apply addBroadcast_ok in Ea.
Qed.

(** The name is looked up before the entry is made: two requests with the same name that
    are both looked up first are both accepted. *)
Theorem racing_registrations_share_a_name info reg1 reg2 p p1 p2 p3 s1 s2 u1 u2 :
  manager_exists (ei_name info) p = (Ok false, p1) ->
  insert_new info reg1 0 p1 = (Ok (s1, u1), p2) -> Status_ok s1 = true ->
  insert_new info reg2 0 p2 = (Ok (s2, u2), p3) -> Status_ok s2 = true ->
  manager_exists (ei_name info) p1 = (Ok false, p1) /\ ~ distinct_names (pr_extensions p3).
Proof.
  intros He E1 S1 E2 S2. pose proof (exists_false _ _ _ He) as [-> Hn]. split.
  { rewrite exists_run in He |- *. rewrite routed_idem. by injection He as ->. }
  destruct (register_new_ok _ _ _ _ _ _ _ E1 S1) as (X1 & N1 & I1).
  destruct (register_new_ok _ _ _ _ _ _ _ E2 S2) as (X2 & N2 & I2).
  intros Hd. assert (u1 <> u2) as Hne by congruence. apply Hne, (Hd u1 u2 info info); [| |done].
  - rewrite X2, lookup_insert_ne, X1 by done. apply lookup_insert_eq.
  - rewrite X2. apply lookup_insert_eq.
Qed.
End Register.

(** ** Waiting *)

Section Waiting.
Context {W : Type} (sleepFor : Z -> M W unit) (FLAGS_extensions_timeout : string).
Abbreviation timeout := (delay_timeout FLAGS_extensions_timeout).
Context (sleep_law : forall n w, exists w', sleepFor n w = (Ok tt, w')).

(** A computation that returns from every state. *)
Definition returns {S A} (m : M S A) : Prop := forall s, exists a s', m s = (Ok a, s').

Lemma timeout_at_least : 200 <= timeout.
Proof.
  unfold delay_timeout, kExtensionInitializeLatency.
  destruct (Z.ltb_spec (u64 (milliseconds FLAGS_extensions_timeout)) (20 * 10)); lia.
Qed.

Lemma rounds_enough : timeout <= 20 * Z.of_nat (delay_rounds FLAGS_extensions_timeout) /\ (0 < delay_rounds FLAGS_extensions_timeout)%nat.
Proof.
  pose proof timeout_at_least. unfold delay_rounds.
  pose proof (Z.div_mod (timeout + 19) 20 ltac:(lia)). pose proof (Z.mod_pos_bound (timeout + 19) 20 ltac:(lia)).
  assert (1 <= (timeout + 19) / 20) by (apply Z.div_le_lower_bound; lia). lia.
Qed.

(** The loop ends with a status the predicate gave, in a state the predicate allows. *)
Lemma delay_loop_ends (I : Process W -> Prop) (Q : Status -> Prop) predicate :
  (forall p, I p -> exists st stop p', predicate p = (Ok (st, stop), p') /\ I p' /\ Q st) ->
  (forall w p, I p -> I (with_world w p)) ->
  forall fuel delay p, I p -> timeout - delay <= 20 * Z.of_nat fuel -> (0 < fuel)%nat ->
  exists st p', delay_loop sleepFor FLAGS_extensions_timeout fuel delay predicate p = (Ok (Some st), p') /\ I p' /\ Q st.
Proof.
  intros Hp Hw. induction fuel as [|fuel IH]; intros delay p Hi Hf Hpos; [lia|].
  cbn [delay_loop]. destruct (Hp p Hi) as (st & stop & p1 & E & Hi1 & Hq). rewrite (bind_run _ _ _ _ _ E).
  destruct (stop || Status_ok st); [by eexists _, _|].
  destruct (sleep_law kExtensionInitializeLatency (pr_world p1)) as (w & Es).
  erewrite (bind_run _ _ p1); [|unfold on_world; by apply zoom_run].
  unfold kExtensionInitializeLatency. destruct (Z.ltb_spec (delay + 20) timeout).
  - apply IH; [by apply Hw|lia|lia].
  - eexists _, _. split; [done|]. auto.
Qed.

Lemma applyExtensionDelay_ends (I : Process W -> Prop) (Q : Status -> Prop) predicate p :
  (forall p, I p -> exists st stop p', predicate p = (Ok (st, stop), p') /\ I p' /\ Q st) ->
  (forall w p, I p -> I (with_world w p)) -> I p ->
  exists st p', applyExtensionDelay sleepFor FLAGS_extensions_timeout predicate p = (Ok st, p') /\ I p' /\ Q st.
Proof.
  intros Hp Hw Hi. destruct rounds_enough as [H1 H2].
  destruct (delay_loop_ends I Q predicate Hp Hw (delay_rounds FLAGS_extensions_timeout) 0 p Hi) as (st & p' & E & R); [lia|done|].
  exists st, p'. unfold applyExtensionDelay. by rewrite (bind_run _ _ _ _ _ E).
Qed.

(** A wait for an extension ends, whatever is waited for. *)
Theorem waits_end (predicate : M (Process W) (Status * bool)) :
  returns predicate -> returns (applyExtensionDelay sleepFor FLAGS_extensions_timeout predicate).
Proof.
  intros Hp p. destruct (applyExtensionDelay_ends (fun _ => True) (fun _ => True) predicate p) as (st & p' & E & _); [|done|done|by eauto].
  intros p1 _. destruct (Hp p1) as ([st stop] & p2 & E). by exists st, stop, p2.
Qed.
End Waiting.

(** A negative number of seconds is taken for a wait of half a billion years. *)
Theorem negative_timeout_waits_for_ever : delay_timeout "-1" = 2 ^ 64 - 1000.
Proof. by vm_compute. Qed.

(** ** Calls from the other side *)

Section Calls.
Context {W : Type} {B : Boost}.
Context (plugin_call : Z -> PluginRequest -> PluginResponse -> MR (Status * PluginResponse)).
Context (transport : Z -> string -> string -> PluginRequest -> PluginResponse -> MR (Status * PluginResponse)).
Context (external FLAGS_registry_exceptions : bool) (routeInfo : Z -> PluginResponse).

(** Where the routes of a broadcast come from: an item, or an alias of one. *)
Definition route_source (r : Registry) (k : string) (info : PluginResponse) : Prop :=
  exists name plugin, items_ r !! name = Some plugin /\ info = routeInfo plugin /\
    (aliases_ r !! k = Some name \/ k = name).

(** The routes of one item. *)
Definition item_routes (r : Registry) (table : RegistryRoutes) (item : string * Z) : RegistryRoutes :=
  if isInternal_ item.1 r then table
  else
    let masking := filter (fun alias => alias.2 = item.1) (map_sorted (aliases_ r)) in
    match masking with
    | [] => <[item.1 := routeInfo item.2]> table
    | _ => foldl (fun table alias => <[alias.1 := routeInfo item.2]> table) table masking
    end.

Definition sourced (r : Registry) (table : RegistryRoutes) : Prop := forall k i, table !! k = Some i -> route_source r k i.

Lemma sourced_insert r table k name plugin : items_ r !! name = Some plugin -> (aliases_ r !! k = Some name \/ k = name) ->
  sourced r table -> sourced r (<[k := routeInfo plugin]> table).
Proof.
  intros Hn Hk Ht k' i. rewrite lookup_insert_Some. intros [[<- <-]|[_ H]]; [|by apply Ht]. by exists name, plugin.
Qed.

Lemma item_routes_sourced r table item : items_ r !! item.1 = Some item.2 -> sourced r table -> sourced r (item_routes r table item).
Proof.
  destruct item as [name plugin]. cbn [fst snd]. intros Hn Ht. unfold item_routes. cbn [fst snd].
  destruct (isInternal_ name r); [done|].
  assert (forall a, a ∈ filter (fun alias => alias.2 = name) (map_sorted (aliases_ r)) -> aliases_ r !! a.1 = Some name) as Ha.
  { intros [b1 b2] [Hb1 Hb2]%list_elem_of_filter. cbn in Hb1. subst. by apply elem_of_map_sorted in Hb2. }
  destruct (filter _ _) as [|a l]; [by apply (sourced_insert _ _ _ name); [|right|]|].
  revert table Ht Ha. generalize (a :: l). clear a l. induction l as [|a l IH]; intros table Ht Ha; [done|]. cbn [foldl]. apply IH.
  - apply (sourced_insert _ _ _ name); [done| |done]. left. apply Ha. by left.
  - intros b Hb. apply Ha. by right.
Qed.

Lemma getRoutes_source r k info : getRoutes routeInfo r !! k = Some info -> route_source r k info.
Proof.
  change (getRoutes routeInfo r) with (foldl (item_routes r) ∅ (map_sorted (items_ r))).
  assert (forall l table, (forall x, x ∈ l -> items_ r !! x.1 = Some x.2) -> sourced r table -> sourced r (foldl (item_routes r) table l)) as H.
  { induction l as [|x l IH]; intros table Hl Ht; [done|]. cbn [foldl]. apply IH.
    - intros y Hy. apply Hl. by right.
    - apply item_routes_sourced; [apply Hl; by left|done]. }
  apply H.
  - intros [n v] Hx. by apply elem_of_map_sorted in Hx.
  - intros k' i'. by rewrite lookup_empty.
Qed.

(** Every item an extension broadcasts can be called in it: the call reaches the plugin
    whose routes were broadcast under that name, and an exception of the plugin becomes
    the status of the call. *)
Theorem broadcast_items_are_callable reg r item info request response (p : Process W) :
  registries_ (pr_registry p) !! reg = Some r -> getRoutes routeInfo r !! item = Some info ->
  (forall a i, aliases_ r !! a = Some i -> items_ r !! a = None \/ a = i) ->
  (forall n v, items_ r !! n = Some v -> n <> "" /\ comma_in n = false) -> FLAGS_registry_exceptions = false ->
  exists plugin, info = routeInfo plugin /\
    ExtensionInterface_call plugin_call transport external FLAGS_registry_exceptions reg item request response p =
    on_registry (catch (plugin_call plugin request response) (fun e => ret (mkStatus 1 (exn_what e), response))) p.
Proof.
  intros Hr (name & plugin & Hn & -> & Ha)%getRoutes_source Hal Hi ->. exists plugin. split; [done|].
  unfold ExtensionInterface_call, on_registry, zoom.
  assert (getAlias reg item (pr_registry p) = (Ok name, pr_registry p)) as Eg.
  { unfold getAlias. rewrite bind_gets, Hr. unfold reg_getAlias, ret. destruct Ha as [->| ->]; [done|].
    destruct (aliases_ r !! name) as [i|] eqn:E; [|done]. destruct (Hal _ _ E) as [H| ->]; [congruence|done]. }
  rewrite (bind_run _ _ _ _ _ Eg). destruct (Hi _ _ Hn) as [Hne Hc].
  assert (is_empty name = false) as -> by (by destruct name). rewrite bind_ret.
  unfold factory_call. rewrite Hc. unfold catch at 1, reg_call. rewrite (registry_run _ _ _ r) by done. rewrite Hn.
  unfold catch. by destruct (plugin_call plugin request response (pr_registry p)) as [[?|[]] ?].
Qed.
End Calls.

(** ** The watcher of the manager *)

Lemma drop_uuid_external u r n :
  external_ (drop_uuid u r) !! n = if decide (external_ r !! n = Some u) then None else external_ r !! n.
Proof.
  unfold drop_uuid. destruct (drop_items_eq (uuid_items u r) r) as (E & R & -> & HE & _). cbn [external_ set_external].
  rewrite HE. destruct (decide (n ∈ uuid_items u r)) as [H|H]; rewrite elem_of_uuid_items in H;
    [by rewrite decide_True|by rewrite decide_False].
Qed.

Lemma removeBroadcast_run removeExt u f :
  (forall reg n f, removeExt reg n f = (Ok tt, f)) -> u ∈ Registry.extensions_ f ->
  exists f', removeBroadcast removeExt u f = (Ok (mkStatus 0 "OK"), f') /\
    Registry.extensions_ f' = Registry.extensions_ f ∖ {[u]} /\ registries_ f' = drop_uuid u <$> registries_ f.
Proof.
  intros Hrm Hu. unfold removeBroadcast. rewrite bind_gets, bool_decide_true by done. cbn [negb]. rewrite bind_gets.
  erewrite bind_run; [|apply (remove_all_run removeExt u (map_sorted (registries_ f))); [done|]].
  2:{ apply Forall_forall. intros [reg r] Hin%elem_of_map_sorted. by eexists. }
  rewrite bind_modify. eexists. split; [done|]. split; [done|]. cbn [registries_ set_extensions set_registries].
  apply map_eq. intros n. rewrite (foldl_alter_lookup (fun _ => drop_uuid u)) by apply NoDup_fst_map_sorted.
  rewrite list_to_map_sorted, lookup_fmap. by destruct (registries_ f !! n).
Qed.

Section Watching.
Context {W : Type} {B : Boost} {T : Thrift W} {P : Posix W}.
Context (sleepFor : Z -> M W unit) (FLAGS_extensions_timeout : string) (removeExt : string -> string -> MR unit) (socket : string).
Context (sleep_law : forall n w, exists w', sleepFor n w = (Ok tt, w')).
Context (removeExt_law : forall reg n f, removeExt reg n f = (Ok tt, f)).
(** Which extensions answer, while the watcher is at work. *)
Context (alive has_socket : Z -> bool).
Context (alive_socket : forall u, alive u = true -> has_socket u = true).
Context (socket_law : forall u w, exists st w', socketExists (getExtensionSocket u socket) false w = (Ok st, w') /\ Status_ok st = has_socket u).
Context (ping_law : forall u w, exists r w', th_ping (getExtensionSocket u socket) w = (r, w') /\
  match r with
  | Ok es => negb (es_code es =? EXT_FAILED) = alive u
  | Throw e => e <> AssertFailure /\ alive u = false
  end).
Abbreviation check := (check_extension sleepFor FLAGS_extensions_timeout).

(** The answer of a ping the way the watcher asks for it. *)
Lemma ping_run u w : exists o w',
  catch (let* s := ExtensionClient_ping (getExtensionSocket u socket) in ret (Some s)) (fun _ => ret None) w = (Ok o, w') /\
  match o with Some s => (code s =? EXT_SUCCESS) = alive u | None => alive u = false end.
Proof.
  destruct (ping_law u w) as (r & w' & E & H). destruct r as [es|e].
  - exists (Some (if negb (es_code es =? EXT_FAILED) then mkStatus 0 (es_message es) else Status1 1)), w'. split.
    + unfold catch, ExtensionClient_ping. unfold bind at 1. rewrite (bind_run _ _ _ _ _ E). by destruct (negb _).
    + rewrite H. by destruct (alive u).
  - destruct H as [He Ha]. exists None, w'. split; [|done].
    unfold catch, ExtensionClient_ping. unfold bind at 1. unfold bind at 1. rewrite E. by destruct e.
Qed.

(** Waiting for a socket that is not there changes the world only, and fails. *)
Lemma path_inactive u p : has_socket u = false -> exists st w,
  extensionPathActive sleepFor FLAGS_extensions_timeout (getExtensionSocket u socket) true p = (Ok st, with_world w p) /\ Status_ok st = false.
Proof.
  intros Hs. unfold extensionPathActive.
  destruct (applyExtensionDelay_ends sleepFor FLAGS_extensions_timeout sleep_law (fun p' => exists w, p' = with_world w p) (fun st => Status_ok st = false)
    (path_predicate (getExtensionSocket u socket) true) p) as (st & p' & E & [w ->] & Hst); [| | |by eauto].
  - intros p1 [w ->]. destruct (socket_law u w) as (st & w' & E & Hst).
    unfold path_predicate. erewrite bind_run; [|unfold on_world; by apply zoom_run, E].
    rewrite Hst, Hs. rewrite bind_ret. eexists _, _, _. split; [done|]. split; [by exists w'|done].
  - intros w' p1 [w ->]. by exists w'.
  - exists (pr_world p). by destruct p.
Qed.

(** The count of one extension after a check. *)
Definition count_of (u : Z) : Z := if alive u then 1 else 2.

Lemma check_extension_run u p : FLAGS_extensions_socket p = socket ->
  exists w, check u p = (Ok tt, with_failures (<[u := count_of u]> (failures_ p)) (with_world w p)).
Proof.
  intros Hso. unfold check_extension. rewrite bind_gets, Hso.
  destruct (socket_law u (pr_world p)) as (st & w1 & E1 & H1).
  erewrite bind_run; [|unfold on_world; by apply zoom_run, E1]. rewrite bind_gets, H1.
  assert (exists st' w2, (if negb (has_socket u) && (default 0 (failures_ (with_world w1 p) !! u) =? 0)
     then extensionPathActive sleepFor FLAGS_extensions_timeout (getExtensionSocket u socket) true else ret st) (with_world w1 p)
     = (Ok st', with_world w2 p) /\ Status_ok st' = has_socket u) as (st' & w2 & E2 & H2).
  { destruct (has_socket u) eqn:Hs; cbn [negb andb]; [by exists st, w1|].
    destruct (_ =? 0); [|by exists st, w1]. destruct (path_inactive u (with_world w1 p) Hs) as (st' & w & E & Hst). by exists st', w. }
  rewrite (bind_run _ _ _ _ _ E2). unfold set_failures at 1. rewrite bind_modify, H2.
  destruct (has_socket u) eqn:Hs.
  - destruct (ping_run u w2) as (o & w3 & E3 & H3).
    erewrite bind_run; [|unfold on_world; apply zoom_run, E3]. exists w3. destruct o as [s|]; unfold set_failures, modify.
    + rewrite H3. unfold count_of. f_equal. unfold with_failures, with_world. cbn. rewrite insert_insert_eq. by destruct (alive u).
    + unfold count_of. rewrite H3. f_equal. unfold with_failures, with_world. cbn. by rewrite insert_insert_eq.
  - exists w2. unfold set_failures, modify, count_of. destruct (alive u) eqn:Ha; [by apply alive_socket in Ha; congruence|].
    f_equal. unfold with_failures, with_world. cbn. by rewrite insert_insert_eq.
Qed.

Lemma check_all_run l p : FLAGS_extensions_socket p = socket ->
  exists w fs, for_each l check p = (Ok tt, with_failures fs (with_world w p)) /\
    forall u, fs !! u = if decide (u ∈ l) then Some (count_of u) else failures_ p !! u.
Proof.
  revert p. induction l as [|u l IH]; intros p Hso; cbn [for_each].
  - exists (pr_world p), (failures_ p). split; [by destruct p|]. intros u. rewrite decide_False; [done|]. apply not_elem_of_nil.
  - destruct (check_extension_run u p Hso) as (w & E). rewrite (bind_run _ _ _ _ _ E).
    destruct (IH (with_failures (<[u := count_of u]> (failures_ p)) (with_world w p)) Hso) as (w' & fs & E' & Hfs).
    exists w', fs. split; [by rewrite E'|]. intros v. rewrite Hfs. cbn [failures_ with_failures].
    destruct (decide (v ∈ l)) as [Hv|Hv]; [by rewrite decide_True by (by right)|].
    destruct (decide (v = u)) as [->|Hne].
    + rewrite lookup_insert_eq, decide_True by left. done.
    + rewrite lookup_insert_ne, decide_False; [done| |done]. rewrite elem_of_cons. naive_solver.
Qed.

Lemma elem_of_gone u fs : u ∈ gone fs <-> exists n, fs !! u = Some n /\ 1 < n.
Proof.
  unfold gone. rewrite elem_of_ascending, list_elem_of_fmap. split.
  - intros ([v n] & -> & [Hn Hin]%list_elem_of_filter). apply elem_of_map_to_list in Hin. eauto.
  - intros (n & Hu & Hn). exists (u, n). split; [done|]. apply list_elem_of_filter. split; [done|]. by apply elem_of_map_to_list.
Qed.

Lemma NoDup_gone fs : NoDup (gone fs).
Proof.
  apply NoDup_ascending, NoDup_fmap_fst; [|apply NoDup_filter, NoDup_map_to_list].
  intros u n1 n2 [_ H1%elem_of_map_to_list]%list_elem_of_filter [_ H2%elem_of_map_to_list]%list_elem_of_filter. congruence.
Qed.

Lemma forget_all_run l (p : Process W) : NoDup l -> (forall u, u ∈ l -> u ∈ Registry.extensions_ (pr_registry p)) ->
  exists p', for_each l (forget_gone removeExt) p = (Ok tt, p') /\
    Registry.extensions_ (pr_registry p') = Registry.extensions_ (pr_registry p) ∖ list_to_set l /\
    forall reg r n u, registries_ (pr_registry p') !! reg = Some r -> external_ r !! n = Some u ->
      u ∉ l /\ exists r0, registries_ (pr_registry p) !! reg = Some r0 /\ external_ r0 !! n = Some u.
Proof.
  revert p. induction l as [|u l IH]; intros p Hnd Hin; cbn [for_each].
  { exists p. split; [done|]. split; [set_solver|]. intros reg r n u Hr Hn. split; [apply not_elem_of_nil|eauto]. }
  apply NoDup_cons in Hnd as [Hu Hnd].
  destruct (removeBroadcast_run removeExt u (pr_registry p) removeExt_law) as (f & E & Hx & Hm); [apply Hin; left|].
  assert (forget_gone removeExt u p = (Ok tt, with_failures (<[u := 1]> (failures_ p)) (with_registry f p))) as Ef.
  { unfold forget_gone. erewrite bind_run; [|unfold on_registry; apply zoom_run, E]. done. }
  rewrite (bind_run _ _ _ _ _ Ef).
  destruct (IH (with_failures (<[u := 1]> (failures_ p)) (with_registry f p)) Hnd) as (p' & E' & Hx' & Hm').
  { intros v Hv. cbn [pr_registry with_failures with_registry]. rewrite Hx. apply elem_of_difference. split; [apply Hin; by right|].
    intros ->%elem_of_singleton. done. }
  exists p'. split; [done|]. split.
  - rewrite Hx'. cbn [pr_registry with_failures with_registry]. rewrite Hx. set_solver.
  - intros reg r n v Hr Hn. destruct (Hm' reg r n v Hr Hn) as (Hv & r1 & Hr1 & Hn1). cbn [pr_registry with_failures with_registry] in Hr1.
    rewrite Hm, lookup_fmap in Hr1. destruct (registries_ (pr_registry p) !! reg) as [r0|] eqn:E0; [|done].
    cbn in Hr1. injection Hr1 as <-. rewrite drop_uuid_external in Hn1. case_decide as Hd; [done|].
    split; [|eauto]. intros [->|]%elem_of_cons; [congruence|done].
Qed.

(** One round of the watcher keeps exactly the extensions that answer: one that does not
    is removed at once, with every route it had. *)
Theorem watcher_keeps_the_extensions_that_answer (p : Process W) :
  FLAGS_extensions_socket p = socket -> (forall u n, failures_ p !! u = Some n -> n <= 1) ->
  (forall reg r n u, registries_ (pr_registry p) !! reg = Some r -> external_ r !! n = Some u -> u ∈ Registry.extensions_ (pr_registry p)) ->
  exists p', ManagerWatcher_watch removeExt sleepFor FLAGS_extensions_timeout p = (Ok tt, p') /\
    Registry.extensions_ (pr_registry p') = filter (fun u => alive u = true) (Registry.extensions_ (pr_registry p)) /\
    forall reg r n u, registries_ (pr_registry p') !! reg = Some r -> external_ r !! n = Some u -> alive u = true.
Proof.
  intros Hso Hf Hext. unfold ManagerWatcher_watch, routeUUIDs.
  erewrite bind_run; [|unfold on_registry; apply zoom_run; reflexivity].
  set (uuids := Registry.extensions_ (pr_registry p)).
  destruct (check_all_run (ascending (elements uuids)) (with_registry (pr_registry p) p) Hso) as (w & fs & E & Hfs).
  rewrite (bind_run _ _ _ _ _ E), bind_gets. cbn [failures_ with_failures].
  assert (forall u, u ∈ gone fs <-> u ∈ uuids /\ alive u = false) as Hg.
  { intros u. rewrite elem_of_gone. setoid_rewrite Hfs. destruct (decide (u ∈ _)) as [Hd|Hd]; rewrite elem_of_ascending, elem_of_elements in Hd.
    - unfold count_of. split.
      + intros (n & [= <-] & Hn). split; [done|]. by destruct (alive u).
      + intros [_ ->]. by exists 2.
    - split; [|naive_solver]. intros (n & Hn & H1). apply Hf in Hn. lia. }
  destruct (forget_all_run (gone fs) (with_failures fs (with_world w (with_registry (pr_registry p) p))) (NoDup_gone fs)) as (p' & E' & Hx & Hm).
  { intros u Hu. by apply Hg. }
  exists p'. split; [done|]. split.
  - rewrite Hx. cbn [pr_registry with_failures with_world with_registry]. fold uuids. apply set_eq. intros u.
    rewrite elem_of_difference, elem_of_filter, elem_of_list_to_set, Hg. destruct (alive u); naive_solver.
  - intros reg r n u Hr Hn. destruct (Hm reg r n u Hr Hn) as (Hu & r0 & Hr0 & Hn0).
    cbn [pr_registry with_failures with_world with_registry] in Hr0. rewrite Hg in Hu. pose proof (Hext _ _ _ _ Hr0 Hn0).
    destruct (alive u); [done|]. exfalso. by apply Hu.
Qed.
End Watching.

(** ** Autoloading *)

Section Autoload.
Context {W : Type} {B : Boost} {P : Posix W}.
Context (addExtensionPath : string -> M W unit) (read_text : string -> M W (Status * string)) (extension_of : string -> string).
Context (kPlatformType : Z) (FLAGS_allow_unsafe : bool).

(** A path the watcher may run: it exists with safe permissions when it is looked at, and
    has the extension of the platform. *)
Definition safe_path (path : string) : Prop :=
  path <> "" /\ String.get 0 path <> Some "#"%char /\ extension_of path ∈ extensions_of_platform kPlatformType /\
  exists w w', safePermissions FLAGS_allow_unsafe (path_parent path) path true w = (Ok true, w').

Lemma isFileSafe_safe path w o w' : isFileSafe extension_of kPlatformType FLAGS_allow_unsafe path w = (Ok (Some o), w') -> safe_path o.
Proof.
  unfold isFileSafe. destruct (_ || _) eqn:Ep; [done|]. apply orb_false_iff in Ep as [[Ee Eh]%orb_false_iff _].
  intros E. run_step E as d w1 E1. destruct (Status_ok d); [done|]. run_step E as e w2 E2. destruct (negb (Status_ok e)); [done|].
  run_step E as safe w3 E3. destruct safe; cbn [negb] in E; [|done]. case_bool_decide as Hx; [|done]. run_pure E.
  split; [by destruct (boost_trim path)|]. split; [by apply bool_decide_eq_false in Eh|]. eauto.
Qed.

Lemma set_insert_safe o (set : gset string) :
  (forall path, o = Some path -> safe_path path) -> (forall x, x ∈ set -> safe_path x) -> forall x, x ∈ set_insert o set -> safe_path x.
Proof. intros Ho Hs x. destruct o as [y|]; [|apply Hs]. unfold set_insert. intros [->%elem_of_singleton|]%elem_of_union; auto. Qed.

Lemma insert_safe (set : gset string) path w set' w' :
  (let* o := isFileSafe extension_of kPlatformType FLAGS_allow_unsafe path in ret (set_insert o set)) w = (Ok set', w') ->
  (forall x, x ∈ set -> safe_path x) -> forall x, x ∈ set' -> safe_path x.
Proof.
  intros E Hs. run_step E as o w1 E1. run_pure E. apply set_insert_safe; [|done]. intros y ->. by eapply isFileSafe_safe.
Qed.

Lemma autoload_line_safe (set : gset string) path w set' w' :
  autoload_line extension_of kPlatformType FLAGS_allow_unsafe set path w = (Ok set', w') ->
  (forall x, x ∈ set -> safe_path x) -> forall x, x ∈ set' -> safe_path x.
Proof.
  unfold autoload_line. intros E. run_step E as d w1 E1. destruct (Status_ok d); [|by eapply insert_safe].
  run_step E as r w2 E2. destruct r as [st paths]. clear E1 E2. revert set w2 E.
  induction paths as [|y l IH]; intros set w2 E Hs; cbn [for_fold] in E; [by run_pure E|].
  run_step E as set1 w3 E3. eapply IH; [exact E|]. by eapply insert_safe.
Qed.

(** Every extension that is loaded from the list of extensions is safe: the last thing
    loading does is to hand these paths to the watcher. *)
Theorem autoloaded_paths_are_safe loadfile w w' :
  loadExtensions addExtensionPath read_text extension_of kPlatformType FLAGS_allow_unsafe "" loadfile w = (Ok (mkStatus 0 "OK"), w') ->
  exists paths w0, for_each paths addExtensionPath w0 = (Ok tt, w') /\ Forall safe_path paths.
Proof.
  unfold loadExtensions. cbn [is_empty]. rewrite bind_ret. intros E. run_step E as r w1 E1. destruct r as [s text].
  destruct (negb (Status_ok s)); [by run_pure E|]. run_step E as set w2 E2. run_step E as u w3 E3. run_pure E.
  exists (merge_sort String.le (elements set)), w2. destruct u. split; [done|]. apply Forall_forall. intros x.
  rewrite merge_sort_Permutation, elem_of_elements. revert x.
  assert (forall x, x ∈ (∅ : gset string) -> safe_path x) as H0 by set_solver. revert H0 E2. generalize (∅ : gset string).
  clear. revert w1. induction (split text newline) as [|y l IH]; intros w1 set0 H0 E2; cbn [for_fold] in E2; [by run_pure E2|].
  run_step E2 as set1 w3 E3. eapply IH; [|exact E2]. by eapply autoload_line_safe.
Qed.
End Autoload.

(** ** Listing extensions *)

(** The versions of a listed extension are exchanged: the table shows the oldest SDK an
    extension works with as the SDK it was built with. *)
Theorem listed_versions_are_exchanged {W} {T : Thrift W} {P : Posix W} sleepFor (timeout kVersion kSDKVersion path : string)
    (p p1 : Process W) w found u name version sdk min :
  extensionPathActive sleepFor timeout path false p = (Ok (mkStatus 0 "OK"), p1) ->
  th_extensions path (pr_world p1) = (Ok found, w) -> found !! u = Some (mkInfo name version sdk min) ->
  exists list, getExtensions_at sleepFor timeout kVersion kSDKVersion path ∅ p = (Ok (mkStatus 0 "OK", list), with_world w p1) /\
    list !! u = Some (mkInfo name version min sdk).
Proof.
  intros E1 E2 Hu. unfold getExtensions_at. rewrite (bind_run _ _ _ _ _ E1). cbn [Status_ok code negb Z.eqb].
  eexists. split; [unfold on_world, zoom, catch, bind; by rewrite E2|].
  unfold add_listed. apply lookup_union_Some_l. by rewrite lookup_fmap, Hu.
Qed.
