(* ===== verification/Dispatcher.v ===== *)
(** * The dispatcher (osquery/dispatcher/dispatcher.cpp, include/osquery/dispatcher.h)

    Services run in threads of their own. The state is that of the dispatcher and of its
    services; the code is cut where another thread can come in between: at its locks, at
    the creation of a thread and at the entry and the end of a service. A step is [None]
    when the thread that would take it has to wait. *)
From S2P Require Import Prelude.
Local Open Scope Z_scope.

(** How far the thread of a service is: created, inside [start], [start] has returned,
    the service was removed and the thread is about to end. *)
Inductive progress := Created | Running | Returned | Ended.
#[export] Instance progress_eq_dec : EqDecision progress.
Proof. solve_decision. Defined.

Record Service := mkService { run_ : bool; interrupted_ : bool; stops : nat }.

Record Dispatcher := mkDispatcher {
  services_ : list Z;
  service_threads_ : list Z;
  stopping_ : bool;
  objects : gmap Z Service;
  threads : gmap Z progress;
  (** The calls of [addService] that passed the checks and have not stored the service. *)
  adding : gset Z;
  (** The services [stopServices] has still to interrupt, while it holds the lock. *)
  stopper : option (list Z);
  (** The thread [joinServices] waits for. *)
  joiner : option (option Z);
  (** The calls of [stopServices] that have set the flag and wait for the lock, and those of
      [joinServices] that have left the lock and not reset the flag. *)
  calls : nat * nat;
}.

Definition service (d : Dispatcher) (s : Z) : Service := default (mkService false false 0) (objects d !! s).
Definition thread (d : Dispatcher) (s : Z) : option progress := threads d !! s.

Definition put_object (s : Z) (o : Service) (d : Dispatcher) : Dispatcher :=
  mkDispatcher (services_ d) (service_threads_ d) (stopping_ d) (<[s := o]> (objects d)) (threads d) (adding d) (stopper d) (joiner d) (calls d).
Definition put_thread (s : Z) (t : progress) (d : Dispatcher) : Dispatcher :=
  mkDispatcher (services_ d) (service_threads_ d) (stopping_ d) (objects d) (<[s := t]> (threads d)) (adding d) (stopper d) (joiner d) (calls d).
Definition put_lists (ss ts : list Z) (d : Dispatcher) : Dispatcher :=
  mkDispatcher ss ts (stopping_ d) (objects d) (threads d) (adding d) (stopper d) (joiner d) (calls d).
Definition put_adding (a : gset Z) (d : Dispatcher) : Dispatcher :=
  mkDispatcher (services_ d) (service_threads_ d) (stopping_ d) (objects d) (threads d) a (stopper d) (joiner d) (calls d).
Definition put_stop (b : bool) (st : option (list Z)) (d : Dispatcher) : Dispatcher :=
  mkDispatcher (services_ d) (service_threads_ d) b (objects d) (threads d) (adding d) st (joiner d) (calls d).
Definition put_joiner (j : option (option Z)) (d : Dispatcher) : Dispatcher :=
  mkDispatcher (services_ d) (service_threads_ d) (stopping_ d) (objects d) (threads d) (adding d) (stopper d) j (calls d).

Definition put_calls (b : bool) (c : nat * nat) (d : Dispatcher) : Dispatcher :=
  mkDispatcher (services_ d) (service_threads_ d) b (objects d) (threads d) (adding d) (stopper d) (joiner d) c.

Definition serviceCount (d : Dispatcher) : nat := length (services_ d).

(** ** Services *)

(** [interrupt]: [stop] is called by the first one only. *)
Definition interrupt (s : Z) (d : Dispatcher) : Dispatcher :=
  let o := service d s in
  if interrupted_ o then d else put_object s (mkService (run_ o) true (1 + stops o)) d.

Definition hasRun (d : Dispatcher) (s : Z) : bool := run_ (service d s).

(** The entry of [run]. *)
Definition set_run (s : Z) (d : Dispatcher) : Dispatcher :=
  let o := service d s in put_object s (mkService true (interrupted_ o) (stops o)) d.

(** ** Steps *)

Inductive action :=
  | AddCheck (s : Z)      (* addService: the two checks *)
  | AddThread (s : Z)     (* addService: std::thread *)
  | AddStore (s : Z)      (* addService: under the lock *)
  | Run (s : Z)           (* run: run_ = true *)
  | Return_ (s : Z)       (* run: start() returned *)
  | Remove (s : Z)        (* removeService, under the lock; the thread ends *)
  | StopFlag              (* stopServices: stopping_ = true *)
  | StopBegin             (* stopServices: the lock *)
  | StopNext              (* stopServices: assureRun and interrupt of one service *)
  | StopEnd               (* stopServices: the lock is released *)
  | JoinBegin             (* joinServices *)
  | JoinTake              (* joinServices: one thread is taken, or all are gone *)
  | JoinWait              (* joinServices: join of the thread *)
  | JoinReset.            (* joinServices: stopping_ = false *)

Definition free (d : Dispatcher) : bool := match stopper d with None => true | Some _ => false end.

Definition step (d : Dispatcher) (a : action) : option Dispatcher :=
  match a with
  | AddCheck s =>
      (* a service is handed over once; a refusal changes nothing *)
      if bool_decide (s ∈ adding d) then None
      else if hasRun d s || stopping_ d then Some d
      else match thread d s with Some _ => None | None => Some (put_adding ({[s]} ∪ adding d) d) end
  | AddThread s =>
      match thread d s with
      | None => if bool_decide (s ∈ adding d) then Some (put_thread s Created d) else None
      | Some _ => None
      end
  | AddStore s =>
      if free d && bool_decide (s ∈ adding d) && bool_decide (is_Some (thread d s))
      then Some (put_adding (adding d ∖ {[s]}) (put_lists (services_ d ++ [s]) (service_threads_ d ++ [s]) d))
      else None
  | Run s => if bool_decide (thread d s = Some Created) then Some (put_thread s Running (set_run s d)) else None
  | Return_ s => if bool_decide (thread d s = Some Running) then Some (put_thread s Returned d) else None
  | Remove s =>
      if free d && bool_decide (thread d s = Some Returned)
      then Some (put_thread s Ended (put_lists (filter (fun t => t <> s) (services_ d)) (service_threads_ d) d))
      else None
  | StopFlag => Some (put_calls true (S (calls d).1, (calls d).2) d)
  | StopBegin =>
      match calls d with
      | (S n, m) => if free d then Some (put_calls (stopping_ d) (n, m) (put_stop (stopping_ d) (Some (services_ d)) d)) else None
      | _ => None
      end
  | StopNext =>
      match stopper d with
      | Some (s :: rest) => if hasRun d s then Some (put_stop (stopping_ d) (Some rest) (interrupt s d)) else None
      | _ => None
      end
  | StopEnd => match stopper d with Some [] => Some (put_stop (stopping_ d) None d) | _ => None end
  | JoinBegin => match joiner d with None => Some (put_joiner (Some None) d) | Some _ => None end
  | JoinTake =>
      match joiner d with
      | Some None =>
          if negb (free d) then None
          else match last (service_threads_ d) with
               | Some t => Some (put_joiner (Some (Some t)) (put_lists (services_ d) (removelast (service_threads_ d)) d))
               | None => Some (put_calls (stopping_ d) ((calls d).1, S (calls d).2) (put_joiner None (put_lists [] [] d)))
               end
      | _ => None
      end
  | JoinWait =>
      match joiner d with
      | Some (Some t) => if bool_decide (thread d t = Some Ended) then Some (put_joiner (Some None) d) else None
      | _ => None
      end
  | JoinReset => match calls d with (n, S m) => Some (put_calls false (n, m) d) | _ => None end
  end.

Fixpoint run_all (d : Dispatcher) (l : list action) : option Dispatcher :=
  match l with [] => Some d | a :: l => step d a ≫= fun d => run_all d l end.

Definition idle : Dispatcher := mkDispatcher [] [] false ∅ ∅ ∅ None None (0%nat, 0%nat).

(** ** What holds between the steps *)

Record dispatcher_inv (d : Dispatcher) : Prop := {
  (** [stop] was called for exactly the interrupted services, once. *)
  inv_stops s : stops (service d s) = if interrupted_ (service d s) then 1%nat else 0%nat;
  (** A service that is stored and has not ended is known as a service. *)
  inv_known s t : thread d s = Some t -> t <> Ended -> s ∉ adding d -> s ∈ services_ d;
  (** Its thread is kept until it was joined. *)
  inv_kept s t : thread d s = Some t -> t <> Ended -> s ∉ adding d ->
    s ∈ service_threads_ d \/ joiner d = Some (Some s);
  (** While services are stopped, the others are interrupted already. *)
  inv_stopper rest s : stopper d = Some rest -> s ∈ services_ d -> s ∉ rest -> interrupted_ (service d s) = true;
}.

Lemma service_put_object d s o s' : service (put_object s o d) s' = if decide (s' = s) then o else service d s'.
Proof.
  unfold service, put_object. cbn. destruct (decide (s' = s)) as [->|]; [by rewrite lookup_insert_eq|by rewrite lookup_insert_ne].
Qed.

Lemma service_interrupt d s s' :
  service (interrupt s d) s' =
  if decide (s' = s) then
    let o := service d s in if interrupted_ o then o else mkService (run_ o) true (1 + stops o)
  else service d s'.
Proof.
  unfold interrupt. destruct (interrupted_ (service d s)) eqn:E; [by case_decide; subst|].
  rewrite service_put_object. by cbn zeta; rewrite ?E.
Qed.

Lemma interrupt_rest s d : services_ (interrupt s d) = services_ d /\ service_threads_ (interrupt s d) = service_threads_ d /\
  threads (interrupt s d) = threads d /\ adding (interrupt s d) = adding d /\ joiner (interrupt s d) = joiner d.
Proof. unfold interrupt. by destruct (interrupted_ _). Qed.

Lemma idle_inv : dispatcher_inv idle.
Proof. by constructor. Qed.

Lemma thread_put_thread d s t s' : thread (put_thread s t d) s' = if decide (s' = s) then Some t else thread d s'.
Proof.
  unfold thread, put_thread. cbn. destruct (decide (s' = s)) as [->|]; [by rewrite lookup_insert_eq|by rewrite lookup_insert_ne].
Qed.

(** A step of a thread: only how far it is changes. *)
Lemma put_thread_inv d s t0 t : thread d s = Some t0 -> t0 <> Ended -> dispatcher_inv d -> dispatcher_inv (put_thread s t d).
Proof.
  intros E0 Hne [I1 I2 I3 I4]. constructor; [exact I1| | |exact I4].
  - intros s' t' Ht Hn Ha. rewrite thread_put_thread in Ht. case_decide; subst; [by eapply I2|by eapply I2].
  - intros s' t' Ht Hn Ha. rewrite thread_put_thread in Ht. case_decide; subst; [by eapply I3|by eapply I3].
Qed.

Lemma set_run_inv s d : dispatcher_inv d -> dispatcher_inv (set_run s d).
Proof.
  intros [I1 I2 I3 I4]. unfold set_run. constructor; [|exact I2|exact I3|].
  - intros s'. rewrite service_put_object. case_decide; [apply I1|apply I1].
  - intros rest s' Hs Hin Hr. rewrite service_put_object. case_decide; subst; by eapply I4.
Qed.

Lemma add_inv s d : dispatcher_inv d ->
  dispatcher_inv (put_adding ({[s]} ∪ adding d) d).
Proof.
  intros [I1 I2 I3 I4]. constructor; [exact I1| | |exact I4]; intros s' t Ht Hn Ha; cbn in Ha;
    [by eapply I2; [| |set_solver]|by eapply I3; [| |set_solver]].
Qed.

Lemma store_inv s d : free d = true -> dispatcher_inv d ->
  dispatcher_inv (put_adding (adding d ∖ {[s]}) (put_lists (services_ d ++ [s]) (service_threads_ d ++ [s]) d)).
Proof.
  intros Hf [I1 I2 I3 I4]. constructor; [exact I1| | |].
  - intros s' t Ht Hn Ha. cbn in Ha |- *. apply elem_of_app. destruct (decide (s' = s)) as [->|]; [right; by left|].
    left. eapply I2; [done|done|set_solver].
  - intros s' t Ht Hn Ha. cbn in Ha |- *. rewrite elem_of_app. destruct (decide (s' = s)) as [->|]; [left; right; by left|].
    destruct (I3 s' t Ht Hn) as [H|H]; [set_solver|by left; left|by right].
  - intros rest s' Hs. unfold free in Hf. cbn in Hs. by rewrite Hs in Hf.
Qed.

Lemma remove_inv s d : free d = true -> thread d s = Some Returned -> dispatcher_inv d ->
  dispatcher_inv (put_thread s Ended (put_lists (filter (fun t => t <> s) (services_ d)) (service_threads_ d) d)).
Proof.
  intros Hf Hr [I1 I2 I3 I4]. constructor; [exact I1| | |].
  - intros s' t Ht Hn Ha. rewrite thread_put_thread in Ht. case_decide as Hd; [by simplify_eq|].
    cbn. apply list_elem_of_filter. split; [done|]. by eapply I2.
  - intros s' t Ht Hn Ha. rewrite thread_put_thread in Ht. case_decide as Hd; [by simplify_eq|]. by eapply I3.
  - intros rest s' Hs. unfold free in Hf. cbn in Hs. by rewrite Hs in Hf.
Qed.

Lemma stop_next_inv s rest d : stopper d = Some (s :: rest) -> dispatcher_inv d ->
  dispatcher_inv (put_stop (stopping_ d) (Some rest) (interrupt s d)).
Proof.
  intros Hs [I1 I2 I3 I4]. destruct (interrupt_rest s d) as (E1 & E2 & E3 & E4 & E5).
  assert (forall s', service (put_stop (stopping_ d) (Some rest) (interrupt s d)) s' = service (interrupt s d) s') as Es by done.
  constructor.
  - intros s'. rewrite Es, service_interrupt. case_decide; [|apply I1]. cbn zeta. pose proof (I1 s) as Hst.
    destruct (interrupted_ (service d s)) eqn:Ei; [by rewrite Ei|]. cbn. by rewrite Hst.
  - intros s' t Ht Hn Ha. cbn in *. unfold thread in Ht. cbn in Ht. rewrite E3 in Ht. rewrite E4 in Ha. rewrite E1. by eapply I2.
  - intros s' t Ht Hn Ha. cbn in *. unfold thread in Ht. cbn in Ht. rewrite E3 in Ht. rewrite E4 in Ha. rewrite E2, E5. by eapply I3.
  - intros rest' s' [= <-] Hin Hr. rewrite Es, service_interrupt. cbn in Hin. rewrite E1 in Hin. case_decide as Hd.
    + cbn zeta. by destruct (interrupted_ (service d s)) eqn:Ei.
    + eapply I4; [done|done|]. rewrite elem_of_cons. naive_solver.
Qed.

Lemma join_take_inv d t : free d = true -> joiner d = Some None -> last (service_threads_ d) = Some t -> dispatcher_inv d ->
  dispatcher_inv (put_joiner (Some (Some t)) (put_lists (services_ d) (removelast (service_threads_ d)) d)).
Proof.
  intros Hf Hj [l Hl]%last_Some [I1 I2 I3 I4]. constructor; [exact I1|exact I2| |].
  - intros s' t' Ht Hn Ha. cbn. rewrite Hl, removelast_last. destruct (I3 s' t' Ht Hn Ha) as [H|H]; [|congruence].
    rewrite Hl in H. apply elem_of_app in H as [H|H%list_elem_of_singleton]; [by left|by subst; right].
  - intros rest s' Hs. unfold free in Hf. cbn in Hs. by rewrite Hs in Hf.
Qed.

Lemma put_calls_inv b c d : dispatcher_inv d -> dispatcher_inv (put_calls b c d).
Proof. intros [I1 I2 I3 I4]. by constructor. Qed.

Lemma join_end_inv d : joiner d = Some None -> service_threads_ d = [] -> dispatcher_inv d ->
  dispatcher_inv (put_joiner None (put_lists [] [] d)).
Proof.
  intros Hj Hl [I1 I2 I3 I4].
  assert (forall s t, thread d s = Some t -> t <> Ended -> s ∉ adding d -> False) as Hno.
  { intros s t Ht Hn Ha. destruct (I3 s t Ht Hn Ha) as [H|H]; [|congruence]. rewrite Hl in H. by apply not_elem_of_nil in H. }
  constructor; [exact I1| | |].
  1, 2: intros s' t Ht Hn Ha; by destruct (Hno s' t Ht Hn Ha).
  intros rest s' _ Hs. by apply not_elem_of_nil in Hs.
Qed.

Lemma step_inv d a d' : step d a = Some d' -> dispatcher_inv d -> dispatcher_inv d'.
Proof.
  intros E Hi. destruct a as [s|s|s|s|s|s| | | | | | | |]; cbn [step] in E.
  - case_bool_decide; [done|]. destruct (_ || _); [by simplify_eq|]. destruct (thread d s); simplify_eq. by apply add_inv.
  - destruct (thread d s) eqn:Et; [done|]. case_bool_decide as Ha; simplify_eq. destruct Hi as [I1 I2 I3 I4].
    constructor; [exact I1| | |exact I4]; intros s' t' Ht Hn Ha'; rewrite thread_put_thread in Ht; cbn in Ha';
      case_decide; subst; try done; [by eapply I2|by eapply I3].
  - destruct (free d) eqn:Hf; cbn [andb] in E; [|done]. destruct (_ && _); simplify_eq. by apply store_inv.
  - case_bool_decide as Ht; simplify_eq. eapply (put_thread_inv _ _ Created); [exact Ht|done|by apply set_run_inv].
  - case_bool_decide as Ht; simplify_eq. by eapply (put_thread_inv _ _ Running).
  - destruct (free d) eqn:Hf; cbn [andb] in E; [|done]. case_bool_decide as Ht; simplify_eq. by apply remove_inv.
  - simplify_eq. by apply put_calls_inv.
  - destruct (calls d) as [[|n] m]; [done|]. destruct (free d); simplify_eq. apply put_calls_inv.
    destruct Hi as [I1 I2 I3 I4]. constructor; [exact I1|exact I2|exact I3|]. by intros rest s [= <-].
  - destruct (stopper d) as [[|s rest]|] eqn:Es; try done. destruct (hasRun d s); simplify_eq. by apply stop_next_inv.
  - destruct (stopper d) as [[|s rest]|] eqn:Es; simplify_eq. destruct Hi as [I1 I2 I3 I4]. by constructor.
  - destruct (joiner d) eqn:Ej; simplify_eq. destruct Hi as [I1 I2 I3 I4]. constructor; [exact I1|exact I2| |exact I4].
    intros s t Ht Hn Ha. destruct (I3 s t Ht Hn Ha) as [H|H]; [by left|by rewrite Ej in H].
  - destruct (joiner d) as [[|]|] eqn:Ej; try done. destruct (free d) eqn:Hf; cbn [negb] in E; [|done].
    destruct (last (service_threads_ d)) as [t|] eqn:El; simplify_eq; [by apply join_take_inv|].
    apply put_calls_inv, join_end_inv; [done|by apply last_None|done].
  - destruct (joiner d) as [[t|]|] eqn:Ej; try done. case_bool_decide as Ht; simplify_eq.
    destruct Hi as [I1 I2 I3 I4]. constructor; [exact I1|exact I2| |exact I4].
    intros s t' Ht' Hn Ha. destruct (I3 s t' Ht' Hn Ha) as [H|H]; [by left|]. rewrite Ej in H. injection H as ->. unfold thread in *. cbn in Ht'. congruence.
  - destruct (calls d) as [n [|m]]; simplify_eq. by apply put_calls_inv.
Qed.

Lemma run_all_inv l d d' : run_all d l = Some d' -> dispatcher_inv d -> dispatcher_inv d'.
Proof.
  revert d. induction l as [|a l IH]; intros d E Hi; cbn in E; [by simplify_eq|].
  destruct (step d a) as [d1|] eqn:Es; [|done]. eapply IH; [exact E|]. by eapply step_inv.
Qed.

(** ** Properties *)

(** C34: Whatever the threads did before, once the services were stopped every service that
    has been stored and has not ended was interrupted, and its [stop] was called once. *)
Theorem stopping_interrupts_every_service l d d' s t :
  run_all idle l = Some d -> step d StopEnd = Some d' ->
  thread d' s = Some t -> t <> Ended -> s ∉ adding d' ->
  interrupted_ (service d' s) = true /\ stops (service d' s) = 1%nat.
Proof.
  intros E Es Ht Hn Ha. pose proof (run_all_inv _ _ _ E idle_inv) as [I1 I2 I3 I4].
  cbn [step] in Es. destruct (stopper d) as [[|]|] eqn:Est; simplify_eq.
  assert (interrupted_ (service d s) = true) as Hi.
  { apply (I4 [] s eq_refl); [by eapply I2|apply not_elem_of_nil]. }
  split; [exact Hi|]. pose proof (I1 s) as H. by rewrite Hi in H.
Qed.

(** The flag is read before the lock is taken: a service whose [addService] passed the
    check before the services were stopped runs on without being interrupted, and joining
    waits for it. *)
Theorem late_service_is_not_interrupted : exists l d,
  run_all idle l = Some d /\ stopper d = None /\ stopping_ d = true /\
  thread d 1 = Some Running /\ 1 ∈ services_ d /\ interrupted_ (service d 1) = false /\
  joiner d = Some (Some 1) /\ step d JoinWait = None.
Proof.
  exists [AddCheck 1; StopFlag; StopBegin; StopEnd; AddThread 1; AddStore 1; Run 1; JoinBegin; JoinTake].
  eexists. split; [by vm_compute|]. repeat split; try by vm_compute. cbn. by left.
Qed.

(** A service that ends before [addService] stores it is never removed. *)
Theorem quick_service_stays_listed : exists l d,
  run_all idle l = Some d /\ thread d 1 = Some Ended /\ services_ d = [1] /\ adding d = ∅.
Proof.
  exists [AddCheck 1; AddThread 1; Run 1; Return_ 1; Remove 1; AddStore 1]. eexists. split; [by vm_compute|]. by vm_compute.
Qed.

Fixpoint join_steps (n : nat) : list action := match n with O => [JoinTake; JoinReset] | S n => JoinTake :: JoinWait :: join_steps n end.

(** Once the threads have ended, joining takes each of them and leaves nothing behind,
    so that services can be added again. *)
Theorem joining_empties_the_dispatcher d :
  stopper d = None -> joiner d = None -> (forall t, t ∈ service_threads_ d -> thread d t = Some Ended) ->
  exists d', run_all d (JoinBegin :: join_steps (length (service_threads_ d))) = Some d' /\
    services_ d' = [] /\ service_threads_ d' = [] /\ stopping_ d' = false /\ joiner d' = None.
Proof.
  intros Hs Hj. cbn [run_all step mbind option_bind]. rewrite Hj. cbn [mbind option_bind].
  assert (forall n d, n = length (service_threads_ d) -> stopper d = None -> joiner d = Some None ->
    (forall t, t ∈ service_threads_ d -> thread d t = Some Ended) ->
    exists d', run_all d (join_steps n) = Some d' /\
      services_ d' = [] /\ service_threads_ d' = [] /\ stopping_ d' = false /\ joiner d' = None) as Hl.
  { clear d Hs Hj. induction n as [|n IH]; intros d Hn Hs Hj Ht; cbn [join_steps run_all step].
    - rewrite Hj. unfold free. rewrite Hs. destruct (service_threads_ d); [|done]. cbn. by eexists.
    - rewrite Hj. unfold free at 1. rewrite Hs. cbn [negb].
      destruct (last (service_threads_ d)) as [t|] eqn:El; [|apply last_None in El; by rewrite El in Hn].
      apply last_Some in El as [l El]. cbn [mbind option_bind joiner put_joiner].
      rewrite bool_decide_true by (apply Ht; rewrite El; apply elem_of_app; right; by left). cbn [mbind option_bind].
      apply IH; cbn; [rewrite El, removelast_last; rewrite El, length_app in Hn; cbn in Hn; lia|done|done|].
      intros t' Ht'. apply Ht. rewrite El, removelast_last in Ht'. rewrite El. apply elem_of_app. by left. }
  intros Ht. by apply Hl.
Qed.
