(* ===== verification/RocksDb.v ===== *)
(** * The RocksDB store (osquery/database/plugins/rocksdb.cpp)

    The plugin keeps one column family for every domain. RocksDB itself is the class
    [Rocks]: an open database, or what is on disk, with the documented behaviour of its
    operations in [RocksLaws]. *)
From S2P Require Import Prelude Boost Conversions Json Database DatabaseFacts Filesystem.
Local Open Scope Z_scope.

(** [rocksdb::Status]. *)
Record RStatus := mkRS { rs_code : Z; rs_io_error : bool; rs_corruption : bool; rs_text : string }.
Definition rs_ok (s : RStatus) : bool := rs_code s =? 0.
Definition of_rocks (s : RStatus) : Status := mkStatus (rs_code s) (rs_text s).

(** [rocksdb::WriteOptions]. *)
Record WriteOptions := mkWrite { wo_sync : bool; wo_disableWAL : bool }.

(** The operations name the column family they are for. *)
Class Rocks (E : Type) := {
  rk_Get : E -> string -> string -> RStatus * option string;
  rk_Write : E -> WriteOptions -> string -> DatabaseStringValueList -> RStatus * E;
  rk_Delete : E -> WriteOptions -> string -> string -> RStatus * E;
  rk_DeleteRange : E -> WriteOptions -> string -> string -> string -> RStatus * E;
  (** The keys in their order, [None] when there is no iterator. *)
  rk_keys : E -> string -> option (list string);
  rk_Open : string -> list string -> M E RStatus;
  rk_close : M E unit;
}.

(** ** State *)

Record RocksDB (E : Type) := mkRocksDB {
  initialized_ : bool;
  path_ : string;
  read_only_ : bool;
  column_families_ : list string;
  (** The handles RocksDB gave, by the names of their families. *)
  handles_ : list string;
  (** [db_ != nullptr]. *)
  db_open : bool;
  corrupted : bool;
  engine : E;
}.
Arguments mkRocksDB {E} _ _ _ _ _ _ _ _.
Arguments initialized_ {E} _.
Arguments path_ {E} _.
Arguments read_only_ {E} _.
Arguments column_families_ {E} _.
Arguments handles_ {E} _.
Arguments db_open {E} _.
Arguments corrupted {E} _.
Arguments engine {E} _.

Definition kDefaultColumnFamilyName : string := "default".

Section RocksDB.
Context {E : Type} {R : Rocks E} {P : Posix E}.
Abbreviation D := (RocksDB E).
Abbreviation MD := (M D).

Definition with_engine (e : E) (d : D) : D :=
  mkRocksDB (initialized_ d) (path_ d) (read_only_ d) (column_families_ d) (handles_ d) (db_open d) (corrupted d) e.
Definition with_handles (hs : list string) (o : bool) (d : D) : D :=
  mkRocksDB (initialized_ d) (path_ d) (read_only_ d) (column_families_ d) hs o (corrupted d) (engine d).
Definition with_corrupted (c : bool) (d : D) : D :=
  mkRocksDB (initialized_ d) (path_ d) (read_only_ d) (column_families_ d) (handles_ d) (db_open d) c (engine d).
Definition with_path (p : string) (d : D) : D :=
  mkRocksDB (initialized_ d) p (read_only_ d) (column_families_ d) (handles_ d) (db_open d) (corrupted d) (engine d).
Definition with_read_only (d : D) : D :=
  mkRocksDB (initialized_ d) (path_ d) true (column_families_ d) (handles_ d) (db_open d) (corrupted d) (engine d).
Definition on_engine {A} (m : M E A) : MD A := zoom engine with_engine m.

(** ** The log of RocksDB *)

(** A line at level E or W that tells of a corruption marks the database. *)
Definition Logv (line : string) (d : D) : D :=
  let buffer := String.substring 0 499 line in
  if negb (bool_decide (String.get 0 buffer = Some "["%char)) ||
     (negb (bool_decide (String.get 1 buffer = Some "E"%char)) && negb (bool_decide (String.get 1 buffer = Some "W"%char)))
  then d
  else match find_str "Corruption:" buffer with Some _ => with_corrupted true d | None => d end.

(** ** Opening and closing *)

(** The database is moved aside. *)
Definition repairDB : MD unit :=
  let* path := gets path_ in
  let bpath := path +:+ ".backup" in
  on_engine
    (let* e := pathExists bpath in
     let* failed := (if Status_ok e then let* r := removePath bpath in ret (negb (Status_ok r)) else ret false) in
     if failed : bool then ret tt else let* _ := movePath path bpath in ret tt).

Definition close : MD unit :=
  modify (with_handles [] false) ;;;
  on_engine rk_close ;;;
  let* c := gets corrupted in
  if c : bool then repairDB ;;; modify (with_corrupted false) else ret tt.

Context (FLAGS_database_path : string) (kDBRequireWrite : bool).
Context (platformSetSafeDbPerms : string -> M E bool) (disable_events : M E unit).

(** The first call chooses the column families: the default one, then the domains. *)
Definition initialize (d : D) : D :=
  if initialized_ d then d
  else mkRocksDB true (path_ d) (read_only_ d) (column_families_ d ++ kDefaultColumnFamilyName :: kDomains)
         (handles_ d) (db_open d) (corrupted d) (engine d).

(** [DB::Open]: the handles are those of the column families, in their order. *)
Definition open : MD RStatus :=
  let* path := gets path_ in
  let* cfs := gets column_families_ in
  let* s := on_engine (rk_Open path cfs) in
  (if rs_ok s then modify (with_handles cfs true) else ret tt) ;;;
  ret s.

Definition rocks_setUp : MD Status :=
  modify initialize ;;;
  modify (with_path FLAGS_database_path) ;;;
  let* path := gets path_ in
  let* e := on_engine (pathExists path) in
  let* unreadable := (if Status_ok e then let* r := on_engine (isReadable path false) in ret (negb (Status_ok r)) else ret false) in
  if unreadable : bool then ret (mkStatus 1 ("Cannot read RocksDB path: " +:+ path))
  else
    close ;;;
    let* s := open in
    let* s := (if rs_corruption s then repairDB ;;; open else ret s) in
    let* opened := gets db_open in
    let failed := negb (rs_ok s) || negb opened in
    if failed && kDBRequireWrite then ret (mkStatus 1 (rs_text s))
    else
      (if failed then on_engine disable_events ;;; modify with_read_only else ret tt) ;;;
      let* ro := gets read_only_ in
      let* unsafe := (if ro : bool then ret false else let* ok := on_engine (platformSetSafeDbPerms path) in ret (negb ok)) in
      if unsafe : bool then ret (mkStatus 1 ("Cannot set permissions on RocksDB path: " +:+ path)) else ret (Status1 0).

(** ** Reading and writing *)

Fixpoint index_of (x : string) (l : list string) : option nat :=
  match l with [] => None | y :: l => if decide (x = y) then Some O else S <$> index_of x l end.

(** The handle at the position of the domain; a domain that is not known has none. *)
Definition getHandleForColumnFamily (d : D) (cf : string) : option string :=
  index_of cf kDomains ≫= fun i => handles_ d !! i.

Definition not_opened : Status := mkStatus 1 "Database not opened".
Definition no_family (domain : string) : Status := mkStatus 1 ("Could not get column family for " +:+ domain).
Definition readonly : Status := mkStatus 0 "Database in readonly mode".

Definition rocks_get (d : D) (domain key : string) : Status * option string :=
  if negb (db_open d) then (not_opened, None)
  else
    match getHandleForColumnFamily d domain with
    | None => (no_family domain, None)
    | Some cfh => let (s, v) := rk_Get (engine d) cfh key in (of_rocks s, v)
    end.

(** The overload for an [int]. *)
Definition rocks_get_int (d : D) (domain key : string) : Status * option Z :=
  let (s, v) := rocks_get d domain key in
  if Status_ok s then
    match tryTo TInt (default "" v) 10 with
    | inr _ => (Status_failure "Could not deserialize str to int", None)
    | inl z => (s, Some z)
    end
  else (s, None).

Definition write_options (domain : string) : WriteOptions :=
  if decide (domain = kEvents) then mkWrite false true else mkWrite true false.
Definition delete_options (domain : string) : WriteOptions :=
  if decide (domain = kEvents) then mkWrite false false else mkWrite true false.

(** The text after the last colon and the blank that follows it. *)
Fixpoint rfind_char (c : ascii) (s : string) : option nat :=
  match s with
  | EmptyString => None
  | String c' s => match rfind_char c s with Some i => Some (S i) | None => if decide (c' = c) then Some O else None end
  end.

Definition write_status (s : RStatus) : result Status :=
  if negb (rs_code s =? 0) && rs_io_error s then
    match rfind_char ":" (rs_text s) with
    | Some pos =>
        match substr (rs_text s) (pos + 2) with
        | Ok t => Ok (mkStatus (rs_code s) ("IOError: " +:+ t))
        | Throw e => Throw e
        end
    | None => Ok (of_rocks s)
    end
  else Ok (of_rocks s).

(** Used while the store is open: a handle of a closed store is not defined. The text of an
    IO error goes on after its last colon, otherwise [substr] throws. *)
Definition rocks_putBatch (d : D) (domain : string) (data : DatabaseStringValueList) : Status * D :=
  if read_only_ d then (readonly, d)
  else
    match getHandleForColumnFamily d domain with
    | None => (no_family domain, d)
    | Some cfh =>
        let (s, e) := rk_Write (engine d) (write_options domain) cfh data in
        (match write_status s with Ok st => st | Throw _ => of_rocks s end, with_engine e d)
    end.

Definition rocks_put (d : D) (domain key value : string) : Status * D := rocks_putBatch d domain [(key, value)].
Definition rocks_put_int (d : D) (domain key : string) (value : Z) : Status * D := rocks_putBatch d domain [(key, to_string value)].

Definition rocks_remove (d : D) (domain key : string) : Status * D :=
  if read_only_ d then (readonly, d)
  else
    match getHandleForColumnFamily d domain with
    | None => (no_family domain, d)
    | Some cfh => let (s, e) := rk_Delete (engine d) (delete_options domain) cfh key in (of_rocks s, with_engine e d)
    end.

(** [DeleteRange] leaves its upper end, which is deleted by itself. *)
Definition rocks_removeRange (d : D) (domain low high : string) : Status * D :=
  if read_only_ d then (readonly, d)
  else
    match getHandleForColumnFamily d domain with
    | None => (no_family domain, d)
    | Some cfh =>
        let (s, e) := rk_DeleteRange (engine d) (delete_options domain) cfh low high in
        if bool_decide (String.le low high) then
          let (s, e) := rk_Delete e (delete_options domain) cfh high in (of_rocks s, with_engine e d)
        else (of_rocks s, with_engine e d)
    end.

Fixpoint rocks_scan_loop (prefix : string) (max count : Z) (keys : list string) : list string :=
  match keys with
  | [] => []
  | key :: keys =>
      if String.prefix prefix key then
        key :: (if (0 <? max) && (max <=? count + 1) then [] else rocks_scan_loop prefix max (count + 1) keys)
      else rocks_scan_loop prefix max count keys
  end.

Definition rocks_scan (d : D) (domain prefix : string) (max : Z) : Status * list string :=
  if negb (db_open d) then (not_opened, [])
  else
    match getHandleForColumnFamily d domain with
    | None => (no_family domain, [])
    | Some cfh =>
        match rk_keys (engine d) cfh with
        | None => (mkStatus 1 ("Could not get iterator for " +:+ domain), [])
        | Some keys => (mkStatus 0 "OK", rocks_scan_loop prefix max 0 keys)
        end
    end.

#[export] Instance rocksdb_plugin : DatabasePlugin D := {
  db_get := rocks_get;
  db_put := rocks_put;
  db_putBatch := rocks_putBatch;
  db_remove := rocks_remove;
  db_removeRange := rocks_removeRange;
  db_scan := rocks_scan;
  db_setUp := rocks_setUp;
  db_tearDown := close;
  db_read_only := read_only_;
}.
End RocksDB.

(** * RocksDB as a store

    What an open database keeps and answers, whatever the statuses RocksDB gives; on a disk
    that does not fail it implements the interface of a store. The families the domains are
    kept in are those of the domains before them; a range that could not be deleted is
    reported as deleted. *)
Local Open Scope Z_scope.

(** One part [x] of the contents [V] becomes [g]. A change that failed may have been done
    or not, but not in part. *)
Definition atomic_change (ok : bool) (V V' : string -> gmap string string) (x : string) (g : gmap string string) : Prop :=
  (forall y, y <> x -> V' y = V y) /\ (V' x = g \/ (ok = false /\ V' x = V x)).

(** The keys out of a range, of which the upper end is no part. *)
Definition without_range (low high : string) (m : gmap string string) : gmap string string :=
  filter (fun kv => ~ (in_range low high kv.1 /\ kv.1 <> high)) m.

(** What RocksDB documents, for an open database and its column families. Every operation
    may fail: a read then says nothing of the key unless its status is [kNotFound], which is
    1, and a write is done as a whole or not at all. An iterator stops being valid at the
    end or at an error, which its status tells and nobody here asks for. *)
Class RocksLaws (E : Type) {R : Rocks E} := {
  cf_view : E -> string -> gmap string string;
  rk_ready : E -> Prop;
  rk_iter_ok : E -> string -> bool;
  rk_Get_law e cf k : rk_ready e -> let '(s, v) := rk_Get e cf k in
    (rs_ok s = true -> is_Some v /\ v = cf_view e cf !! k) /\ (rs_code s = 1 -> cf_view e cf !! k = None);
  rk_Write_law e o cf data : rk_ready e -> let '(s, e') := rk_Write e o cf data in
    rk_ready e' /\ atomic_change (rs_ok s) (cf_view e) (cf_view e') cf (put_all (cf_view e cf) data);
  rk_Delete_law e o cf k : rk_ready e -> let '(s, e') := rk_Delete e o cf k in
    rk_ready e' /\ atomic_change (rs_ok s) (cf_view e) (cf_view e') cf (delete k (cf_view e cf));
  (** The upper end is not part of the range. *)
  rk_DeleteRange_law e o cf low high : rk_ready e -> let '(s, e') := rk_DeleteRange e o cf low high in
    rk_ready e' /\ atomic_change (rs_ok s) (cf_view e) (cf_view e') cf (without_range low high (cf_view e cf));
  rk_keys_law e cf keys : rk_ready e -> rk_keys e cf = Some keys ->
    NoDup keys /\ (forall k, k ∈ keys -> is_Some (cf_view e cf !! k)) /\
    (rk_iter_ok e cf = true -> forall k, is_Some (cf_view e cf !! k) -> k ∈ keys);
}.

(** A database on which nothing fails. *)
Class RocksReliable (E : Type) {R : Rocks E} {L : RocksLaws E} := {
  rk_Get_ok e cf k : rk_ready e ->
    (rk_Get e cf k).2 = cf_view e cf !! k /\ (is_Some (cf_view e cf !! k) -> rs_ok (rk_Get e cf k).1 = true);
  rk_Write_ok e o cf data : rk_ready e -> rs_ok (rk_Write e o cf data).1 = true;
  rk_DeleteRange_ok e o cf low high : rk_ready e -> rs_ok (rk_DeleteRange e o cf low high).1 = true;
  rk_Delete_ok e o cf k : rk_ready e -> rs_ok (rk_Delete e o cf k).1 = true;
  rk_iterates e cf : rk_ready e -> rk_iter_ok e cf = true;
}.

Lemma index_of_lookup x l i : index_of x l = Some i -> l !! i = Some x.
Proof.
  revert i. induction l as [|y l IH]; intros i; cbn; [done|]. case_decide as H; [intros [= <-]; by subst|].
  destruct (index_of x l); [|done]. intros [= <-]. by apply IH.
Qed.

Lemma index_of_elem x l : x ∈ l -> is_Some (index_of x l).
Proof.
  induction l as [|y l IH]; [by intros ?%not_elem_of_nil|]. intros H. cbn. case_decide; [by eexists|].
  apply elem_of_cons in H as [->|H]; [done|]. destruct (IH H) as [i ->]. by eexists.
Qed.

Lemma scan_loop_spec prefix count keys : rocks_scan_loop prefix 0 count keys = filter (fun k => String.prefix prefix k = true) keys.
Proof.
  revert count. induction keys as [|k keys IH]; intros count; [done|]. cbn [rocks_scan_loop].
  destruct (String.prefix prefix k) eqn:E; [|by rewrite filter_cons_False, IH by congruence].
  rewrite filter_cons_True by done. cbn [Z.ltb andb]. by rewrite IH.
Qed.

Lemma without_range_lookup low high m k :
  without_range low high m !! k = m !! k \/ (in_range low high k /\ without_range low high m !! k = None).
Proof.
  unfold without_range. rewrite map_lookup_filter. destruct (m !! k); [|by left]. cbn.
  case_guard as Hg; [by left|]. right. split; [|done]. apply dec_stable. tauto.
Qed.

Lemma without_range_in low high m k : in_range low high k -> k <> high -> without_range low high m !! k = None.
Proof.
  intros Hk Hne. unfold without_range. rewrite map_lookup_filter. destruct (m !! k); [|done]. cbn.
  rewrite option_guard_False; [done|]. cbn. tauto.
Qed.

Section Store.
Context {E : Type} {R : Rocks E} {P : Posix E} {L : RocksLaws E}.
Abbreviation D := (RocksDB E).

(** An open database that can be written, with the families it was set up with. *)
Record rocks_ready (d : D) : Prop := {
  ready_engine : rk_ready (engine d);
  ready_write : read_only_ d = false;
  ready_open : db_open d = true;
  ready_handles : handles_ d = kDefaultColumnFamilyName :: kDomains;
}.

(** The contents of a domain: those of the family its handle is for. *)
Definition rocks_view (d : D) (domain : string) : gmap string string :=
  match getHandleForColumnFamily d domain with Some cf => cf_view (engine d) cf | None => ∅ end.

Lemma handles_NoDup (d : D) : rocks_ready d -> NoDup (handles_ d).
Proof. intros [_ _ _ ->]. by apply (bool_decide_unpack _); vm_compute. Qed.

Lemma handle_of_domain (d : D) domain : rocks_ready d -> domain ∈ kDomains -> is_Some (getHandleForColumnFamily d domain).
Proof.
  intros Hr Hd. unfold getHandleForColumnFamily. rewrite (ready_handles d Hr).
  destruct (index_of_elem _ _ Hd) as [i Hi]. rewrite Hi. cbn [mbind option_bind]. apply lookup_lt_is_Some_2.
  apply index_of_lookup, lookup_lt_Some in Hi. cbn [length] in *. lia.
Qed.

(** Different domains are kept in different families. *)
Lemma handle_inj (d : D) d1 d2 cf : rocks_ready d ->
  getHandleForColumnFamily d d1 = Some cf -> getHandleForColumnFamily d d2 = Some cf -> d1 = d2.
Proof.
  intros Hr. unfold getHandleForColumnFamily. destruct (index_of d1 kDomains) as [i|] eqn:E1; [|done].
  destruct (index_of d2 kDomains) as [j|] eqn:E2; [|done]. cbn [mbind option_bind]. intros H1 H2.
  pose proof (NoDup_lookup _ _ _ _ (handles_NoDup d Hr) H1 H2) as ->.
  apply index_of_lookup in E1, E2. congruence.
Qed.

Lemma view_of (d : D) domain cf : getHandleForColumnFamily d domain = Some cf -> rocks_view d domain = cf_view (engine d) cf.
Proof. unfold rocks_view. by intros ->. Qed.

Lemma with_engine_handle e (d : D) domain : getHandleForColumnFamily (with_engine e d) domain = getHandleForColumnFamily d domain.
Proof. done. Qed.

Lemma with_engine_ready e (d : D) : rocks_ready d -> rk_ready e -> rocks_ready (with_engine e d).
Proof. intros [_ H2 H3 H4] He. by constructor. Qed.

(** A change of one family is a change of one domain. *)
Lemma change_of_domain ok e (d : D) domain cf g : rocks_ready d -> getHandleForColumnFamily d domain = Some cf ->
  atomic_change ok (cf_view (engine d)) (cf_view e) cf g ->
  atomic_change ok (rocks_view d) (rocks_view (with_engine e d)) domain g.
Proof.
  intros Hr Hcf [Ho Hs]. unfold atomic_change, rocks_view. rewrite with_engine_handle, Hcf. split; [|exact Hs].
  intros x Hx. rewrite with_engine_handle. destruct (getHandleForColumnFamily d x) as [cf'|] eqn:E'; [|done].
  apply Ho. intros ->. by eapply Hx, handle_inj.
Qed.

(** A change that was done, as the interface of a store says it. *)
Lemma done_update (V V' : string -> gmap string string) x g : atomic_change true V V' x g -> forall y, V' y = update_domain V x g y.
Proof. intros [Ho [H|[H _]]] y; [|done]. unfold update_domain. case_decide; [by subst | by apply Ho]. Qed.

Lemma rocks_get_answers (d : D) domain k : rocks_ready d -> domain ∈ kDomains ->
  let '(st, v) := rocks_get d domain k in
  (Status_ok st = true -> is_Some v /\ v = rocks_view d domain !! k) /\ (code st = 1 -> rocks_view d domain !! k = None).
Proof.
  intros Hr Hd. destruct (handle_of_domain d domain Hr Hd) as [cf Hcf]. unfold rocks_get, rocks_view.
  rewrite (ready_open d Hr), Hcf. cbn [negb]. pose proof (rk_Get_law (engine d) cf k (ready_engine d Hr)) as H.
  by destruct (rk_Get (engine d) cf k).
Qed.

Lemma write_status_ok s : Status_ok (match write_status s with Ok st => st | Throw _ => of_rocks s end) = rs_ok s.
Proof. unfold write_status. destruct (_ && _); [|done]. destruct (rfind_char _ _); [|done]. by destruct (substr _ _). Qed.

Lemma rocks_putBatch_change (d : D) domain data : rocks_ready d -> domain ∈ kDomains ->
  let '(st, d') := rocks_putBatch d domain data in
  rocks_ready d' /\ atomic_change (Status_ok st) (rocks_view d) (rocks_view d') domain (put_all (rocks_view d domain) data).
Proof.
  intros Hr Hd. destruct (handle_of_domain d domain Hr Hd) as [cf Hcf]. unfold rocks_putBatch.
  rewrite (ready_write d Hr), Hcf. pose proof (rk_Write_law (engine d) (write_options domain) cf data (ready_engine d Hr)) as H.
  destruct (rk_Write (engine d) (write_options domain) cf data) as [s e]. destruct H as [He Hv].
  split; [by apply with_engine_ready|]. rewrite write_status_ok, (view_of d domain cf) by done. by apply (change_of_domain _ e d domain cf).
Qed.

Lemma rocks_remove_change (d : D) domain k : rocks_ready d -> domain ∈ kDomains ->
  let '(st, d') := rocks_remove d domain k in
  rocks_ready d' /\ atomic_change (Status_ok st) (rocks_view d) (rocks_view d') domain (delete k (rocks_view d domain)).
Proof.
  intros Hr Hd. destruct (handle_of_domain d domain Hr Hd) as [cf Hcf]. unfold rocks_remove.
  rewrite (ready_write d Hr), Hcf. pose proof (rk_Delete_law (engine d) (delete_options domain) cf k (ready_engine d Hr)) as H.
  destruct (rk_Delete (engine d) (delete_options domain) cf k) as [s e]. destruct H as [He Hv].
  split; [by apply with_engine_ready|]. rewrite (view_of d domain cf) by done. by apply (change_of_domain _ e d domain cf).
Qed.

Lemma rocks_scan_answers (d : D) domain prefix : rocks_ready d -> domain ∈ kDomains -> Status_ok (rocks_scan d domain prefix 0).1 = true ->
  NoDup (rocks_scan d domain prefix 0).2 /\
  (forall k, k ∈ (rocks_scan d domain prefix 0).2 -> is_Some (rocks_view d domain !! k) /\ String.prefix prefix k = true) /\
  (forall cf, getHandleForColumnFamily d domain = Some cf -> rk_iter_ok (engine d) cf = true ->
   forall k, is_Some (rocks_view d domain !! k) -> String.prefix prefix k = true -> k ∈ (rocks_scan d domain prefix 0).2).
Proof.
  intros Hr Hd. destruct (handle_of_domain d domain Hr Hd) as [cf Hcf]. unfold rocks_scan, rocks_view.
  rewrite (ready_open d Hr), Hcf. cbn [negb]. destruct (rk_keys (engine d) cf) as [keys|] eqn:Ek; [|done]. intros _. cbn [snd].
  destruct (rk_keys_law (engine d) cf keys (ready_engine d Hr) Ek) as (Hn & Hk & Hall). rewrite scan_loop_spec.
  split; [by apply NoDup_filter|]. split; [intros k; rewrite list_elem_of_filter; by intros [? ?%Hk]|].
  intros cf' [= <-] Hok k H1 H2. apply list_elem_of_filter. by split; [|apply Hall].
Qed.

(** The two deletions of a range, of one family. *)
Definition range_done (domain low high cf : string) (d : D) : Prop :=
  rs_ok (rk_DeleteRange (engine d) (delete_options domain) cf low high).1 = true.

Lemma rocks_removeRange_change (d : D) domain low high : rocks_ready d -> domain ∈ kDomains ->
  let '(st, d') := rocks_removeRange d domain low high in
  rocks_ready d' /\ (forall x, x <> domain -> rocks_view d' x = rocks_view d x) /\
  (forall k, rocks_view d' domain !! k = rocks_view d domain !! k \/ (in_range low high k /\ rocks_view d' domain !! k = None)) /\
  (Status_ok st = true -> String.le low high -> rocks_view d' domain !! high = None) /\
  (forall cf, getHandleForColumnFamily d domain = Some cf -> range_done domain low high cf d -> Status_ok st = true ->
   forall k, in_range low high k -> rocks_view d' domain !! k = None).
Proof.
  intros Hr Hd. destruct (handle_of_domain d domain Hr Hd) as [cf Hcf]. unfold rocks_removeRange, range_done.
  rewrite (ready_write d Hr), Hcf.
  pose proof (rk_DeleteRange_law (engine d) (delete_options domain) cf low high (ready_engine d Hr)) as H1.
  destruct (rk_DeleteRange (engine d) (delete_options domain) cf low high) as [s e] eqn:E1. destruct H1 as [He Hv].
  apply (change_of_domain _ e d domain cf) in Hv as [Ho1 Hs1]; [|done..]. rewrite <- (view_of d domain cf) in Hs1 by done.
  case_bool_decide as Hle.
  - pose proof (rocks_remove_change (with_engine e d) domain high (with_engine_ready e d Hr He) Hd) as H2.
    unfold rocks_remove in H2. rewrite with_engine_handle, Hcf in H2. cbn [engine with_engine read_only_] in H2.
    rewrite (ready_write d Hr) in H2. destruct (rk_Delete e (delete_options domain) cf high) as [s2 e2]. destruct H2 as [He2 [Ho2 Hs2]].
    split; [exact He2|]. split; [intros x Hx; rewrite <- (Ho1 x Hx); by apply Ho2|].
    assert (in_range low high high) as Hhh by (by split).
    assert (Status_ok (of_rocks s2) = true -> forall k, k = high -> rocks_view (with_engine e2 d) domain !! k = None) as Hend.
    { intros Hok k ->. destruct Hs2 as [Hs2|[? _]]; [|congruence]. etrans; [exact (f_equal (lookup high) Hs2)|]. apply lookup_delete_eq. }
    assert (forall k, k <> high -> rocks_view (with_engine e2 d) domain !! k = rocks_view (with_engine e d) domain !! k) as Hrest.
    { intros k Hne. destruct Hs2 as [Hs2|[_ Hs2]]; etrans; [exact (f_equal (lookup k) Hs2)| |exact (f_equal (lookup k) Hs2)|done].
      by rewrite lookup_delete_ne. }
    split_and!.
    + intros k. destruct (decide (k = high)) as [->|Hne].
      * destruct Hs2 as [Hs2|[_ Hs2]]; [right; split; [done|]; etrans; [exact (f_equal (lookup high) Hs2)|]; apply lookup_delete_eq|].
        pose proof (f_equal (lookup high) Hs2) as Hs2'. cbn in Hs2'.
        destruct Hs1 as [Hs1|[_ Hs1]]; rewrite Hs1 in Hs2'; [|by left]. destruct (without_range_lookup low high (rocks_view d domain) high) as [<-|[_ Hn]]; [by left|].
        right. split; [done|]. by rewrite <- Hn.
      * rewrite Hrest by done. destruct Hs1 as [->|[_ ->]]; [apply without_range_lookup | by left].
    + intros Hok _. by apply Hend.
    + intros cf' [= <-] Hok1 Hok2 k Hk. rewrite E1 in Hok1. cbn [fst] in Hok1. destruct (decide (k = high)) as [->|Hne]; [by apply Hend|].
      rewrite Hrest by done. destruct Hs1 as [->|[? _]]; [by apply without_range_in | congruence].
  - split; [by apply with_engine_ready|]. split; [exact Ho1|]. split_and!.
    + intros k. destruct Hs1 as [->|[_ ->]]; [apply without_range_lookup | by left].
    + done.
    + intros cf' _ _ _ k [H1 H2]. destruct Hle. by etrans.
Qed.

(** C16: An open RocksDB plugin that can be written keeps a store of keys for every domain,
    whatever statuses RocksDB answers with. A read that succeeds gives what is stored, and
    one that finds nothing tells that nothing is. A write and a removal touch their own
    domain only; reported as done they are, otherwise the domain is either as they leave it
    or as it was. Deleting a range leaves the keys outside of it, and leaves none within when
    it is reported as done and RocksDB did not fail to delete the range itself, which the
    status does not tell. A scan gives stored keys with the prefix, each once, and all of
    them when the iterator met no error. *)
Theorem rocksdb_implements_the_store (d : D) domain :
  rocks_ready d -> domain ∈ kDomains ->
  (forall k, let '(st, v) := rocks_get d domain k in
    (Status_ok st = true -> is_Some v /\ v = rocks_view d domain !! k) /\
    (code st = 1 -> rocks_view d domain !! k = None)) /\
  (forall data, let '(st, d') := rocks_putBatch d domain data in rocks_ready d' /\
    atomic_change (Status_ok st) (rocks_view d) (rocks_view d') domain (put_all (rocks_view d domain) data)) /\
  (forall k, let '(st, d') := rocks_remove d domain k in rocks_ready d' /\
    atomic_change (Status_ok st) (rocks_view d) (rocks_view d') domain (delete k (rocks_view d domain))) /\
  (forall low high, let '(st, d') := rocks_removeRange d domain low high in
    rocks_ready d' /\ (forall x, x <> domain -> rocks_view d' x = rocks_view d x) /\
    (forall k, rocks_view d' domain !! k = rocks_view d domain !! k \/ (in_range low high k /\ rocks_view d' domain !! k = None)) /\
    (Status_ok st = true -> String.le low high -> rocks_view d' domain !! high = None) /\
    (forall cf, getHandleForColumnFamily d domain = Some cf -> range_done domain low high cf d -> Status_ok st = true ->
     forall k, in_range low high k -> rocks_view d' domain !! k = None)) /\
  (forall prefix, Status_ok (rocks_scan d domain prefix 0).1 = true ->
    NoDup (rocks_scan d domain prefix 0).2 /\
    (forall k, k ∈ (rocks_scan d domain prefix 0).2 -> is_Some (rocks_view d domain !! k) /\ String.prefix prefix k = true) /\
    (forall cf, getHandleForColumnFamily d domain = Some cf -> rk_iter_ok (engine d) cf = true ->
     forall k, is_Some (rocks_view d domain !! k) -> String.prefix prefix k = true -> k ∈ (rocks_scan d domain prefix 0).2)).
Proof.
  intros Hr Hd. split; [intros; by apply rocks_get_answers|]. split; [intros; by apply rocks_putBatch_change|].
  split; [intros; by apply rocks_remove_change|]. split; [intros; by apply rocks_removeRange_change|]. intros. by apply rocks_scan_answers.
Qed.

(** ** When nothing fails *)

Context {RL : RocksReliable E}.

Lemma rocks_get_law (d : D) domain k : rocks_ready d -> domain ∈ kDomains ->
  (rocks_get d domain k).2 = rocks_view d domain !! k /\
  (Status_ok (rocks_get d domain k).1 = true <-> is_Some (rocks_view d domain !! k)).
Proof.
  intros Hr Hd. pose proof (rocks_get_answers d domain k Hr Hd) as Ha. destruct (handle_of_domain d domain Hr Hd) as [cf Hcf].
  pose proof (view_of d domain cf Hcf) as Hv. unfold rocks_get in *. rewrite (ready_open d Hr), Hcf in *. cbn [negb] in *.
  destruct (rk_Get_ok (engine d) cf k (ready_engine d Hr)) as [H1 H2]. rewrite <- Hv in H1, H2.
  destruct (rk_Get (engine d) cf k) as [s v]. cbn [fst snd] in *. split; [done|]. split; [|exact H2].
  intros Hok. destruct Ha as [Ha _]. destruct (Ha Hok) as [Hs Hav]. by rewrite <- Hav.
Qed.

Lemma rocks_putBatch_law (d : D) domain data : rocks_ready d -> domain ∈ kDomains ->
  let '(st, d') := rocks_putBatch d domain data in
  rocks_ready d' /\ forall x, rocks_view d' x =
    if Status_ok st then update_domain (rocks_view d) domain (put_all (rocks_view d domain) data) x else rocks_view d x.
Proof.
  intros Hr Hd. pose proof (rocks_putBatch_change d domain data Hr Hd) as H. destruct (handle_of_domain d domain Hr Hd) as [cf Hcf].
  unfold rocks_putBatch in *. rewrite (ready_write d Hr), Hcf in *.
  pose proof (rk_Write_ok (engine d) (write_options domain) cf data (ready_engine d Hr)) as Hok.
  destruct (rk_Write (engine d) (write_options domain) cf data) as [s e]. cbn [fst] in Hok. rewrite write_status_ok, Hok in *.
  destruct H as [Hr' H]. split; [exact Hr'|]. by apply done_update.
Qed.

Lemma rocks_remove_law (d : D) domain k : rocks_ready d -> domain ∈ kDomains ->
  let '(st, d') := rocks_remove d domain k in
  rocks_ready d' /\ forall x, rocks_view d' x =
    if Status_ok st then update_domain (rocks_view d) domain (delete k (rocks_view d domain)) x else rocks_view d x.
Proof.
  intros Hr Hd. pose proof (rocks_remove_change d domain k Hr Hd) as H. destruct (handle_of_domain d domain Hr Hd) as [cf Hcf].
  unfold rocks_remove in *. rewrite (ready_write d Hr), Hcf in *.
  pose proof (rk_Delete_ok (engine d) (delete_options domain) cf k (ready_engine d Hr)) as Hok.
  destruct (rk_Delete (engine d) (delete_options domain) cf k) as [s e]. cbn [fst] in Hok.
  change (Status_ok (of_rocks s)) with (rs_ok s) in *. rewrite Hok in *.
  destruct H as [Hr' H]. split; [exact Hr'|]. by apply done_update.
Qed.

Lemma rocks_removeRange_ok (d : D) domain low high : rocks_ready d -> domain ∈ kDomains ->
  Status_ok (rocks_removeRange d domain low high).1 = true.
Proof.
  intros Hr Hd. destruct (handle_of_domain d domain Hr Hd) as [cf Hcf]. unfold rocks_removeRange. rewrite (ready_write d Hr), Hcf.
  pose proof (rk_DeleteRange_ok (engine d) (delete_options domain) cf low high (ready_engine d Hr)) as H.
  pose proof (rk_DeleteRange_law (engine d) (delete_options domain) cf low high (ready_engine d Hr)) as H1.
  destruct (rk_DeleteRange (engine d) (delete_options domain) cf low high) as [s e]. destruct H1 as [He _].
  case_bool_decide; [|exact H]. pose proof (rk_Delete_ok e (delete_options domain) cf high He) as H2.
  by destruct (rk_Delete e (delete_options domain) cf high).
Qed.

Lemma rocks_removeRange_law (d : D) domain low high : rocks_ready d -> domain ∈ kDomains ->
  let '(st, d') := rocks_removeRange d domain low high in
  rocks_ready d' /\ forall x k, rocks_view d' x !! k =
    if Status_ok st && bool_decide (x = domain) && bool_decide (String.le low k) && bool_decide (String.le k high)
    then None else rocks_view d x !! k.
Proof.
  intros Hr Hd. pose proof (rocks_removeRange_change d domain low high Hr Hd) as H.
  pose proof (rocks_removeRange_ok d domain low high Hr Hd) as Hok. destruct (handle_of_domain d domain Hr Hd) as [cf Hcf].
  destruct (rocks_removeRange d domain low high) as [st d']. cbn [fst] in Hok. destruct H as (Hr' & Ho & Hk & _ & Hall).
  split; [exact Hr'|]. intros x k. rewrite Hok. cbn [andb]. case_bool_decide as Hx; [subst x|by rewrite (Ho x Hx)].
  specialize (Hall cf Hcf (rk_DeleteRange_ok _ _ _ _ _ (ready_engine d Hr)) Hok).
  destruct (decide (in_range low high k)) as [Hin|Hout].
  - rewrite (Hall k Hin). destruct Hin. by rewrite !bool_decide_true.
  - destruct (Hk k) as [->|[? _]]; [|done]. unfold in_range in Hout. repeat case_bool_decide; try done. tauto.
Qed.

Lemma rocks_scan_law (d : D) domain prefix : rocks_ready d -> domain ∈ kDomains -> Status_ok (rocks_scan d domain prefix 0).1 = true ->
  NoDup (rocks_scan d domain prefix 0).2 /\
  forall k, k ∈ (rocks_scan d domain prefix 0).2 <-> is_Some (rocks_view d domain !! k) /\ String.prefix prefix k = true.
Proof.
  intros Hr Hd Hok. destruct (handle_of_domain d domain Hr Hd) as [cf Hcf].
  destruct (rocks_scan_answers d domain prefix Hr Hd Hok) as (Hn & Hk & Hall). split; [exact Hn|]. intros k. split; [apply Hk|].
  intros [H1 H2]. by eapply Hall; [exact Hcf | apply rk_iterates, Hr | |].
Qed.
End Store.

(** The interface the rest of the program is proved against: on a database where nothing
    fails, the plugin meets it. *)
#[export] Program Instance rocksdb_laws {E} {R : Rocks E} {P : Posix E} {L : RocksLaws E} {RL : RocksReliable E}
    (path : string) (require_write : bool) (perms : string -> M E bool) (no_events : M E unit) :
  DatabaseLaws (P := rocksdb_plugin path require_write perms no_events) (RocksDB E) := {
  db_view := rocks_view;
  db_ready := rocks_ready;
}.
Next Obligation. intros. by apply rocks_get_law. Qed.
Next Obligation. intros. by apply rocks_putBatch_law. Qed.
Next Obligation. intros. exact (rocks_putBatch_law s d [(k, v)] H H0). Qed.
Next Obligation. intros. by apply rocks_remove_law. Qed.
Next Obligation. intros. by apply rocks_removeRange_law. Qed.
Next Obligation. intros. by apply rocks_scan_law. Qed.

(** ** What the code does beside its contract *)

Section Beside.
Context {E : Type} {R : Rocks E} {P : Posix E}.

(** The list of handles starts with the default family, the list of domains does not:
    every domain is kept in the family of the domain before it. *)
Theorem domains_are_kept_one_family_early (d : RocksDB E) i domain family :
  handles_ d = kDefaultColumnFamilyName :: kDomains -> kDomains !! S i = Some domain -> kDomains !! i = Some family ->
  getHandleForColumnFamily d domain = Some family /\ family <> domain /\
  getHandleForColumnFamily d kPersistentSettings = Some kDefaultColumnFamilyName.
Proof.
  intros Hh H1 H2. unfold getHandleForColumnFamily. rewrite Hh.
  destruct i as [|[|[|[|i]]]]; cbn in H1, H2; simplify_eq; repeat split; try (by vm_compute); done.
Qed.

(** The status of a range deletion is that of its last step: when the range could not be
    deleted but its upper end could, the failure is lost. *)
Theorem failed_range_deletion_is_not_reported (d : RocksDB E) domain cf low high s1 s2 e1 e2 :
  read_only_ d = false -> getHandleForColumnFamily d domain = Some cf -> String.le low high ->
  rk_DeleteRange (engine d) (delete_options domain) cf low high = (s1, e1) -> rs_ok s1 = false ->
  rk_Delete e1 (delete_options domain) cf high = (s2, e2) -> rs_ok s2 = true ->
  Status_ok (rocks_removeRange d domain low high).1 = true.
Proof. intros Hr Hc Hle E1 _ E2 S2. unfold rocks_removeRange. by rewrite Hr, Hc, E1, bool_decide_true, E2 by done. Qed.

(** Writes to a store that could only be opened for reading are dropped and reported as
    done. *)
Theorem read_only_writes_are_dropped (d : RocksDB E) domain data :
  read_only_ d = true -> rocks_putBatch d domain data = (readonly, d) /\ Status_ok readonly = true.
Proof. intros H. unfold rocks_putBatch. by rewrite H. Qed.
End Beside.

(** ** Opening *)

Section Opening.
Context {E : Type} {R : Rocks E} {P : Posix E} {L : RocksLaws E}.
Context (path : string) (require_write : bool) (perms : string -> M E bool) (no_events : M E unit).
(** The file system answers; opening makes the database ready. *)
Context (exists_law : forall p e, exists st, pathExists p e = (Ok st, e)).
Context (readable_law : forall p b e, isReadable p b e = (Ok Status_success, e)).
Context (close_law : forall e, exists e', rk_close e = (Ok tt, e')).
Context (perms_law : forall p e, perms p e = (Ok true, e)).

(** The first set-up of a store whose database opens gives a store that is ready, whether
    or not writing is required. *)
Theorem set_up_opens_the_store (d : RocksDB E) s :
  initialized_ d = false -> column_families_ d = [] -> read_only_ d = false -> corrupted d = false -> rs_ok s = true -> rs_corruption s = false ->
  (forall cfs e, exists e', rk_Open path cfs e = (Ok s, e') /\ rk_ready e') ->
  exists d', rocks_setUp path require_write perms no_events d = (Ok (Status1 0), d') /\ rocks_ready d'.
Proof.
  intros Hi Hc Hro Hcor Hs Hnc Hopen. unfold rocks_setUp. rewrite !bind_modify, bind_gets.
  set (d1 := with_path path (initialize d)). change (path_ d1) with path.
  assert (column_families_ d1 = kDefaultColumnFamilyName :: kDomains) as H1 by (unfold d1, initialize; by rewrite Hi, Hc).
  assert (read_only_ d1 = false /\ corrupted d1 = false) as [H2 H3] by (unfold d1, initialize; by rewrite Hi).
  destruct (exists_law path (engine d1)) as [st E1].
  erewrite bind_run; [|unfold on_engine, zoom; by rewrite E1].
  assert (forall (b : bool) (k : bool -> M (RocksDB E) Status), bind (if b then let* r := on_engine (isReadable path false) in ret (negb (Status_ok r)) else ret false) k
    (with_engine (engine d1) d1) = k false (with_engine (engine d1) d1)) as Hread.
  { intros [] k; [|done]. unfold bind at 1, bind at 1, on_engine, zoom. by rewrite readable_law. }
  rewrite Hread. clear Hread.
  destruct (close_law (engine d1)) as (e2 & E2).
  assert (close (with_engine (engine d1) d1) = (Ok tt, with_engine e2 (with_handles [] false d1))) as Ec.
  { unfold close. rewrite bind_modify. erewrite bind_run; [|unfold on_engine, zoom; cbn [engine with_handles with_engine]; by rewrite E2].
    rewrite bind_gets. cbn [corrupted with_engine with_handles]. rewrite H3. done. }
  rewrite (bind_run _ _ _ _ _ Ec). destruct (Hopen (kDefaultColumnFamilyName :: kDomains) e2) as (e3 & E3 & Hr).
  assert (open (with_engine e2 (with_handles [] false d1)) = (Ok s, with_handles (kDefaultColumnFamilyName :: kDomains) true (with_engine e3 (with_handles [] false d1)))) as Eo.
  { unfold open. rewrite !bind_gets. cbn [path_ column_families_ with_engine with_handles]. change (path_ d1) with path. rewrite H1.
    erewrite bind_run; [|unfold on_engine, zoom; cbn [engine with_engine]; by rewrite E3]. rewrite Hs. done. }
  rewrite (bind_run _ _ _ _ _ Eo), Hnc, bind_ret, bind_gets, Hs. cbn [db_open with_handles negb orb andb]. rewrite bind_ret, bind_gets.
  cbn [read_only_ with_handles with_engine]. rewrite H2.
  eexists. split.
  - unfold bind at 1, bind at 1, on_engine, zoom. by rewrite perms_law.
  - by constructor.
Qed.
End Opening.
