(* ===== verification/SqliteDb.v ===== *)
(** * The SQLite store (osquery/database/plugins/sqlite.cpp)

    Each domain is a table of keys and values. The statements are texts the plugin puts
    together; SQLite is the class [Sqlite], and [SqliteLaws] says what the statements of
    the plugin do, [LIKE] included. *)
From S2P Require Import Prelude Boost Conversions Json Database Query Filesystem.
Local Open Scope Z_scope.

Definition SQLITE_OK : Z := 0.
Definition SQLITE_DONE : Z := 101.

(** [std::map]: in the order of the names. *)
Definition kDBSettings : list (string * string) :=
  [("auto_vacuum", "FULL"); ("cache_size", "1000"); ("count_changes", "OFF"); ("default_temp_store", "2");
   ("journal_mode", "OFF"); ("page_count", "1000"); ("synchronous", "OFF")].

Class Sqlite (E : Type) := {
  sq_open : string -> M E Z;
  sq_close : M E unit;
  (** [sqlite3_exec]: the code and the rows the callback is given, by column name. *)
  sq_exec : string -> E -> (Z * list (list (string * option string))) * E;
  (** [sqlite3_prepare_v2], the texts bound to ?1, ?2, ..., and [sqlite3_step]. *)
  sq_step : string -> list string -> E -> Z * E;
  sq_rand : E -> Z * E;
}.

Record SqliteDB (E : Type) := mkSqliteDB { sl_path : string; sl_read_only : bool; sl_open : bool; sl_engine : E }.
Arguments mkSqliteDB {E} _ _ _ _.
Arguments sl_path {E} _.
Arguments sl_read_only {E} _.
Arguments sl_open {E} _.
Arguments sl_engine {E} _.

Section Sqlite.
Context {E : Type} {Q : Sqlite E} {P : Posix E}.
Abbreviation D := (SqliteDB E).

Definition sl_with (e : E) (d : D) : D := mkSqliteDB (sl_path d) (sl_read_only d) (sl_open d) e.
Definition sl_on {A} (m : M E A) : M D A := zoom sl_engine sl_with m.
Definition sl_execute (q : string) : M E (Z * list (list (string * option string))) :=
  fun e => let '(r, e) := sq_exec (c_str q) e in (Ok r, e).

(** [getData]: a NULL is an empty text. *)
Definition getData (columns : list (string * option string)) : Row :=
  foldl (fun r c => <[c.1 := default "" c.2]> r) ∅ columns.

(** ** Opening *)

Context (FLAGS_database_path : string) (kDBRequireWrite : bool) (platformSetSafeDbPerms : string -> M E bool).

Definition sqlite_close : M D unit :=
  let* o := gets sl_open in
  if o : bool then sl_on sq_close ;;; modify (fun d => mkSqliteDB (sl_path d) (sl_read_only d) false (sl_engine d)) else ret tt.

Definition create_table (domain : string) : string :=
  "create table if not exists " +:+ domain +:+ " (key TEXT PRIMARY KEY, value TEXT);".
Definition settings_text : string :=
  foldl (fun t s => t +:+ "PRAGMA " +:+ s.1 +:+ "=" +:+ s.2 +:+ "; ") "" kDBSettings.

(** The domain that could not be created. *)
Fixpoint create_tables (domains : list string) : M D (option string) :=
  match domains with
  | [] => ret None
  | domain :: domains =>
      let* (rc, _) := sl_on (sl_execute (create_table domain)) in
      if negb (rc =? SQLITE_OK) then ret (Some domain) else create_tables domains
  end.

Definition sqlite_setUp : M D Status :=
  let path := FLAGS_database_path in
  modify (fun d => mkSqliteDB path (sl_read_only d) (sl_open d) (sl_engine d)) ;;;
  let* e := sl_on (pathExists path) in
  let* unreadable := (if Status_ok e then let* r := sl_on (isReadable path false) in ret (negb (Status_ok r)) else ret false) in
  if unreadable : bool then ret (mkStatus 1 ("Cannot read database path: " +:+ path))
  else
    sqlite_close ;;;
    let* rc := sl_on (sq_open (c_str path)) in
    (* SQLite gives a handle, which has to be closed, when it cannot open the file too *)
    modify (fun d => mkSqliteDB (sl_path d) (sl_read_only d) true (sl_engine d)) ;;;
    let failed := negb (rc =? SQLITE_OK) in
    if failed && kDBRequireWrite then sqlite_close ;;; ret (mkStatus 1 ("Cannot open database: " +:+ to_string rc))
    else
      (if failed then modify (fun d => mkSqliteDB (sl_path d) true (sl_open d) (sl_engine d)) else ret tt) ;;;
      let* ro := gets sl_read_only in
      let* missing := (if ro : bool then ret None else create_tables kDomains) in
      match missing with
      | Some domain => sqlite_close ;;; ret (mkStatus 1 ("Cannot create domain: " +:+ domain))
      | None =>
          (if ro then ret tt else let* _ := sl_on (sl_execute settings_text) in ret tt) ;;;
          let* unsafe := (if ro then ret false else let* ok := sl_on (platformSetSafeDbPerms path) in ret (negb ok)) in
          if unsafe : bool then sqlite_close ;;; ret (mkStatus 1 ("Cannot set permissions on database path: " +:+ path))
          else ret (Status1 0)
      end.

(** ** Reading and writing *)

Definition select_text (domain key : string) : string := "select value from " +:+ domain +:+ " where key = '" +:+ key +:+ "';".

(** The [int] overload is the same as that of RocksDB. *)
Definition sqlite_get (d : D) (domain key : string) : Status * option string :=
  match (sq_exec (c_str (select_text domain key)) (sl_engine d)).1.2 with
  | row :: _ => (Status1 0, Some (default "" (getData row !! "value")))
  | [] => (Status1 1, None)
  end.

(** The placeholders of [n] rows. *)
Fixpoint placeholders (i n : nat) : string :=
  match n with
  | O => ""
  | Datatypes.S n =>
      "(?" +:+ to_string (2 * Z.of_nat i - 1) +:+ ", ?" +:+ to_string (2 * Z.of_nat i) +:+ ")" +:+
      match n with O => ";" | _ => ", " +:+ placeholders (Datatypes.S i) n end
  end.
Definition insert_text (domain : string) (n : nat) : string :=
  "insert or replace into " +:+ domain +:+ " values " +:+ placeholders 1 n.

Definition vacuum_test : string :=
  "SELECT (sum(s1.pageno + 1 == s2.pageno) * 1.0 / count(*)) < 0.01 as v " +:+ " FROM " +:+
  "(SELECT pageno FROM dbstat ORDER BY path) AS s1," +:+ "(SELECT pageno FROM dbstat ORDER BY path) AS s2 WHERE " +:+
  "s1.rowid + 1 = s2.rowid; ".

Definition tryVacuum (e : E) : E :=
  let '((_, rows), e) := sq_exec vacuum_test e in
  match rows with
  | row :: _ =>
      if bool_decide (last (chars (default "" (getData row !! "v"))) = Some "1"%char) then (sq_exec "vacuum;" e).2 else e
  | [] => e
  end.

(** A statement with its bound texts; one time in ten the file is compacted. *)
Definition statement (d : D) (q : string) (texts : list string) (done : Status) : Status * D :=
  if sl_read_only d then (mkStatus 0 "Database in readonly mode", d)
  else
    let (rc, e) := sq_step (c_str q) (c_str <$> texts) (sl_engine d) in
    if negb (rc =? SQLITE_DONE) then (Status1 1, sl_with e d)
    else
      let (r, e) := sq_rand e in
      (done, sl_with (if r mod 10 =? 0 then tryVacuum e else e) d).

Definition sqlite_putBatch (d : D) (domain : string) (data : DatabaseStringValueList) : Status * D :=
  statement d (insert_text domain (length data)) (concat ((fun kv => [kv.1; kv.2]) <$> data)) (mkStatus 0 "OK").
Definition sqlite_put (d : D) (domain key value : string) : Status * D := sqlite_putBatch d domain [(key, value)].

Definition delete_text (domain : string) : string := "delete from " +:+ domain +:+ " where key IN (?1);".
Definition sqlite_remove (d : D) (domain key : string) : Status * D := statement d (delete_text domain) [key] (Status1 0).

Definition delete_range_text (domain : string) : string := "delete from " +:+ domain +:+ " where key >= ?1 and key <= ?2;".
Definition sqlite_removeRange (d : D) (domain low high : string) : Status * D :=
  statement d (delete_range_text domain) [low; high] (Status1 0).

Definition like_text (domain prefix : string) (max : Z) : string :=
  "select key from " +:+ domain +:+ " where key LIKE '" +:+ prefix +:+ "%'" +:+ (if 0 <? max then " limit " +:+ to_string max else "").

Definition sqlite_scan (d : D) (domain prefix : string) (max : Z) : Status * list string :=
  (mkStatus 0 "OK", (fun row => default "" (getData row !! "key")) <$> (sq_exec (c_str (like_text domain prefix max)) (sl_engine d)).1.2).

#[export] Instance sqlite_plugin : DatabasePlugin D := {
  db_get := sqlite_get;
  db_put := sqlite_put;
  db_putBatch := sqlite_putBatch;
  db_remove := sqlite_remove;
  db_removeRange := sqlite_removeRange;
  db_scan := sqlite_scan;
  db_setUp := sqlite_setUp;
  db_tearDown := sqlite_close;
  db_read_only := sl_read_only;
}.
End Sqlite.

(** ** [LIKE] *)

(** [_] is any character, [%] any text, and letters of either case are the same. *)
Fixpoint like (pattern : list ascii) : list ascii -> bool :=
  match pattern with
  | [] => fun text => match text with [] => true | _ => false end
  | p :: pattern =>
      if decide (p = "%"%char) then
        fix any (text : list ascii) := like pattern text || match text with [] => false | _ :: text => any text end
      else fun text =>
        match text with
        | [] => false
        | c :: text => (bool_decide (p = "_"%char) || bool_decide (tolower p = tolower c)) && like pattern text
        end
  end.

Definition wild (c : ascii) : bool := bool_decide (c = "%"%char) || bool_decide (c = "_"%char).

Lemma like_any text : like ["%"%char] text = true.
Proof. induction text as [|c text IH]; [done|]. cbn. exact IH. Qed.

(** A pattern made of a text without wild cards and a final [%]. *)
Lemma like_prefix (p text : list ascii) : forallb (negb ∘ wild) p = true ->
  like (p ++ ["%"%char]) text = true <-> exists rest, (tolower <$> text) = (tolower <$> p) ++ rest.
Proof.
  revert text. induction p as [|c p IH]; intros text Hp; cbn [app].
  { rewrite like_any. split; [by eexists|done]. }
  cbn [forallb] in Hp. apply andb_true_iff in Hp as [Hc Hp]. unfold wild in Hc. cbn in Hc. apply negb_true_iff, orb_false_iff in Hc as [Hc1 Hc2].
  cbn [like]. rewrite decide_False by (by apply bool_decide_eq_false in Hc1). destruct text as [|x text].
  { split; [done|]. intros (rest & [=]). }
  rewrite Hc2. cbn [orb]. rewrite andb_true_iff, bool_decide_eq_true, (IH text Hp). cbn. split.
  - intros [-> (rest & ->)]. by exists rest.
  - intros (rest & [= -> H]). eauto.
Qed.

(** ** What the statements do *)

(** A text that can be put between quotes, and one a C string holds whole. *)
Definition plain (s : string) : bool := all_chars (fun c => negb (bool_decide (c = "'"%char)) && negb (bool_decide (c = "000"%char))) s.

Class SqliteLaws (E : Type) {Q : Sqlite E} := {
  table : E -> string -> gmap string string;
  sq_ready : E -> Prop;
  select_law e domain key : sq_ready e -> domain ∈ kDomains -> plain key = true ->
    (sq_exec (select_text domain key) e).1.2 = match table e domain !! key with Some v => [[("value", Some v)]] | None => [] end;
  insert_law e domain data : sq_ready e -> domain ∈ kDomains -> data <> [] ->
    exists e', sq_step (insert_text domain (length data)) (concat ((fun kv => [kv.1; kv.2]) <$> data)) e = (SQLITE_DONE, e') /\
      sq_ready e' /\ forall d, table e' d = update_domain (table e) domain (put_all (table e domain) data) d;
  like_law e domain prefix : sq_ready e -> domain ∈ kDomains -> plain prefix = true ->
    exists keys, (sq_exec (like_text domain prefix 0) e).1.2 = (fun k => [("key", Some k)]) <$> keys /\ NoDup keys /\
      forall k, k ∈ keys <-> is_Some (table e domain !! k) /\ like (chars prefix ++ ["%"%char]) (chars k) = true;
  rand_law e : sq_ready e -> exists r e', sq_rand e = (r, e') /\ sq_ready e' /\ table e' = table e;
  vacuum_law e q : sq_ready e -> q = vacuum_test \/ q = "vacuum;" -> sq_ready (sq_exec q e).2 /\ table (sq_exec q e).2 = table e;
}.

Lemma c_str_plain s : plain s = true -> c_str s = s.
Proof.
  induction s as [|c s IH]; [done|]. unfold plain. rewrite all_chars_cons. intros [[_ Hc]%andb_true_iff Hs]%andb_true_iff.
  cbn [c_str]. rewrite decide_False; [by rewrite IH|]. intros ->. done.
Qed.

Lemma domain_text (domain : string) : domain ∈ kDomains -> all_chars (fun c => negb (bool_decide (c = "000"%char))) domain = true.
Proof.
  intros H. assert (forallb (all_chars (fun c => negb (bool_decide (c = "000"%char)))) kDomains = true) as Hall by (by vm_compute).
  rewrite forallb_forall in Hall. apply Hall. by apply list_elem_of_In.
Qed.

Lemma c_str_whole s : all_chars (fun c => negb (bool_decide (c = "000"%char))) s = true -> c_str s = s.
Proof.
  induction s as [|c s IH]; [done|]. rewrite all_chars_cons. intros [Hc Hs]%andb_true_iff.
  cbn [c_str]. rewrite decide_False; [by rewrite IH|]. intros ->. done.
Qed.

Lemma plain_whole s : plain s = true -> all_chars (fun c => negb (bool_decide (c = "000"%char))) s = true.
Proof.
  induction s as [|c s IH]; [done|]. unfold plain. rewrite !all_chars_cons. intros [[_ ->]%andb_true_iff Hs]%andb_true_iff. by apply IH.
Qed.

Section Facts.
Context {E : Type} {Q : Sqlite E} {L : SqliteLaws E}.
Abbreviation D := (SqliteDB E).

Lemma select_text_whole domain key : domain ∈ kDomains -> plain key = true -> c_str (select_text domain key) = select_text domain key.
Proof.
  intros Hd Hk. apply c_str_whole. unfold select_text. rewrite !all_chars_app, (domain_text domain Hd), (plain_whole key Hk). done.
Qed.

Lemma tryVacuum_keeps e : sq_ready e -> sq_ready (tryVacuum e) /\ table (tryVacuum e) = table e.
Proof.
  intros He. unfold tryVacuum. destruct (vacuum_law e vacuum_test He (or_introl eq_refl)) as [H1 H2].
  destruct (sq_exec vacuum_test e) as [[rc rows] e1]. cbn in H1, H2. destruct rows as [|row rows]; [done|].
  destruct (bool_decide _); [|done]. destruct (vacuum_law e1 "vacuum;" H1 (or_intror eq_refl)) as [H3 H4]. split; [done|congruence].
Qed.

Lemma sqlite_get_run (d : D) domain key : sq_ready (sl_engine d) -> domain ∈ kDomains -> plain key = true ->
  (sqlite_get d domain key).2 = table (sl_engine d) domain !! key.
Proof.
  intros He Hd Hk. unfold sqlite_get. rewrite select_text_whole by done. rewrite (select_law _ _ _ He Hd Hk).
  destruct (table (sl_engine d) domain !! key); [|done]. cbn. by rewrite lookup_insert_eq.
Qed.

Lemma placeholders_whole i n : all_chars (fun c => negb (bool_decide (c = "000"%char))) (placeholders (Datatypes.S i) n) = true.
Proof.
  revert i. induction n as [|n IH]; intros i; [done|]. cbn [placeholders]. rewrite !all_chars_app.
  assert (forall z, 0 <= z -> all_chars (fun c => negb (bool_decide (c = "000"%char))) (to_string z) = true) as Hz.
  { intros z Hz. pose proof (all_digits_to_string z Hz) as Hd. unfold all_digits in Hd. revert Hd.
    induction (to_string z) as [|c s IHs]; [done|]. rewrite !all_chars_cons. intros [Hc Hs]%andb_true_iff.
    rewrite (IHs Hs), andb_true_r. by destruct c as [[] [] [] [] [] [] [] []]. }
  rewrite !Hz by lia. destruct n as [|n]; [done|]. rewrite all_chars_app. by rewrite IH.
Qed.

(** A value that was put is got back, whatever else the domain holds, and the other keys
    keep their values. *)
Theorem sqlite_put_get (d : D) domain key value other :
  sq_ready (sl_engine d) -> sl_read_only d = false -> domain ∈ kDomains -> plain key = true -> plain value = true -> plain other = true ->
  let '(st, d') := sqlite_put d domain key value in
  Status_ok st = true /\ (sqlite_get d' domain key).2 = Some value /\
  (other <> key -> (sqlite_get d' domain other).2 = (sqlite_get d domain other).2).
Proof.
  intros He Hro Hd Hk Hv Ho. unfold sqlite_put, sqlite_putBatch, statement. rewrite Hro. cbn [length fmap list_fmap concat app].
  assert (c_str (insert_text domain 1) = insert_text domain 1) as ->.
  { apply c_str_whole. unfold insert_text. rewrite !all_chars_app, (domain_text domain Hd), placeholders_whole. done. }

  destruct (insert_law (sl_engine d) domain [(key, value)] He Hd) as (e1 & E1 & H1 & T1); [done|].
  cbn [length fmap list_fmap concat app fst snd] in E1 |- *. rewrite !c_str_plain, E1 by done. cbn [Z.eqb negb SQLITE_DONE].
  destruct (rand_law e1 H1) as (r & e2 & E2 & H2 & T2). rewrite E2.
  assert (exists e3, (if r mod 10 =? 0 then tryVacuum e2 else e2) = e3 /\ sq_ready e3 /\ table e3 = table e1) as (e3 & -> & H3 & T3).
  { destruct (r mod 10 =? 0); [|by exists e2]. destruct (tryVacuum_keeps e2 H2). exists (tryVacuum e2). split; [done|]. split; [done|congruence]. }
  cbn [Z.eqb]. split; [done|]. split.
  - rewrite sqlite_get_run by done. cbn [sl_engine sl_with]. rewrite T3, T1. unfold update_domain. rewrite decide_True by done. cbn. apply lookup_insert_eq.
  - intros Hne. rewrite !sqlite_get_run by done. cbn [sl_engine sl_with]. rewrite T3, T1. unfold update_domain. rewrite decide_True by done. cbn.
    by apply lookup_insert_ne.
Qed.

(** A scan finds the keys that start with the prefix up to the case of their letters: more
    than the interface of a store promises. *)
Theorem sqlite_scan_ignores_case (d : D) domain prefix :
  sq_ready (sl_engine d) -> domain ∈ kDomains -> plain prefix = true -> forallb (negb ∘ wild) (chars prefix) = true ->
  forall k, k ∈ (sqlite_scan d domain prefix 0).2 <->
    is_Some (table (sl_engine d) domain !! k) /\ exists rest, (tolower <$> chars k) = (tolower <$> chars prefix) ++ rest.
Proof.
  intros He Hd Hp Hw k. unfold sqlite_scan. cbn [snd].
  assert (c_str (like_text domain prefix 0) = like_text domain prefix 0) as ->.
  { apply c_str_whole. unfold like_text. rewrite !all_chars_app, (domain_text domain Hd), (plain_whole prefix Hp). done. }
  destruct (like_law _ _ _ He Hd Hp) as (keys & -> & _ & Hk). rewrite <- list_fmap_compose.
  assert (((fun row => default "" (getData row !! "key")) ∘ (fun k => [("key", Some k)])) <$> keys = keys) as ->.
  { rewrite <- (list_fmap_id keys) at 2. apply list_fmap_ext. intros _ x _. cbn. by rewrite lookup_insert_eq. }
  by rewrite Hk, like_prefix.
Qed.
End Facts.
