(* ===== verification/CoreDatabase.v ===== *)
(** * Typed databases (osquery/core/database)

    The interface [Database] with its two implementations, one in memory and one on
    RocksDB, and the migration of a RocksDB database to the current schema. Integers are
    stored with a tag. A failed [assert] ends the process. *)
From S2P Require Import Prelude Boost Conversions Json Database Filesystem Errors RocksDb.
Local Open Scope Z_scope.

Definition DbIsNotOpen : Z := 2.
Definition InvalidPath : Z := 3.
Definition FailToDestroyDB : Z := 4.
Definition FailToOpenDatabase : Z := 5.
Definition FailToReadData : Z := 6.
Definition FailToWriteData : Z := 7.
Definition KeyNotFound : Z := 8.
Definition DomainNotFound : Z := 9.
Definition Panic : Z := 10.

Definition db_error (c : Z) (text : string) : Error := createError "DatabaseError" c text.
Definition rocks_error (c : Z) (text : string) : Error := createError "RocksdbError" c text.

(** ** In memory *)

(** [boost::variant<std::string, int32_t>]. *)
Inductive DataType := DString (s : string) | DInt (z : Z).

Record InMemoryDatabase := mkMemory { is_open_ : bool; storage_ : gmap string (gmap string DataType) }.

Definition domainNotFoundError (domain : string) : Error := db_error DomainNotFound ("Can't find domain: " +:+ domain).

Definition memory_destroyDB (m : InMemoryDatabase) : InMemoryDatabase := mkMemory (is_open_ m) ∅.
Definition memory_close (m : InMemoryDatabase) : InMemoryDatabase := memory_destroyDB (mkMemory false (storage_ m)).
Definition memory_open (m : InMemoryDatabase) : InMemoryDatabase :=
  mkMemory true (foldl (fun st domain => <[domain := ∅]> st) (storage_ m) kDomains).

Definition storage_get (st : gmap string DataType) (key : string) : ExpectedE DataType :=
  match st !! key with
  | Some v => inl v
  | None => inr (db_error KeyNotFound ("Can't find value for key " +:+ key))
  end.

(** The value as the type asked for; [stored] and [wanted] are the names of types. *)
Definition memory_getValue {T} (as_type : DataType -> option T) (wanted : string) (stored : DataType -> string)
    (m : InMemoryDatabase) (domain key : string) : ExpectedE T :=
  if negb (is_open_ m) then inr (db_error DbIsNotOpen "Database is closed")
  else
    match storage_ m !! domain with
    | None => inr (domainNotFoundError domain)
    | Some st =>
        match storage_get st key with
        | inr e => inr e
        | inl v =>
            match as_type v with
            | Some t => inl t
            | None => inr (db_error KeyNotFound ("Requested wrong type for: " +:+ domain +:+ ":" +:+ key +:+
                             " stored type: " +:+ stored v +:+ " requested type " +:+ wanted))
            end
        end
    end.

Definition memory_putValue (m : InMemoryDatabase) (domain key : string) (v : DataType) : ExpectedE unit * InMemoryDatabase :=
  if negb (is_open_ m) then (inr (db_error DbIsNotOpen "Database is closed"), m)
  else
    match storage_ m !! domain with
    | None => (inr (domainNotFoundError domain), m)
    | Some st => (inl tt, mkMemory (is_open_ m) (<[domain := <[key := v]> st]> (storage_ m)))
    end.

(** [typeid(T).name()] of the two types. *)
Definition stored_name (v : DataType) : string :=
  match v with DString _ => "NSt7__cxx1112basic_stringIcSt11char_traitsIcESaIcEEE" | DInt _ => "i" end.

Definition memory_getString : InMemoryDatabase -> string -> string -> ExpectedE string :=
  memory_getValue (fun v => match v with DString s => Some s | _ => None end) "std::string" stored_name.
Definition memory_getInt32 : InMemoryDatabase -> string -> string -> ExpectedE Z :=
  memory_getValue (fun v => match v with DInt z => Some z | _ => None end) "int" stored_name.
Definition memory_putString (m : InMemoryDatabase) (domain key value : string) := memory_putValue m domain key (DString value).
Definition memory_putInt32 (m : InMemoryDatabase) (domain key : string) (value : Z) := memory_putValue m domain key (DInt value).

(** In no particular order. *)
Definition memory_getKeys {B : Boost} (m : InMemoryDatabase) (domain prefix : string) : ExpectedE (list string) :=
  match storage_ m !! domain with
  | None => inr (domainNotFoundError domain)
  | Some st => inl (filter (fun k => boost_starts_with k prefix = true) (map_to_list st).*1)
  end.

(** Types are not looked at. *)
Definition memory_putStringsUnsafe (m : InMemoryDatabase) (domain : string) (data : DatabaseStringValueList)
    : ExpectedE unit * InMemoryDatabase :=
  match storage_ m !! domain with
  | None => (inr (domainNotFoundError domain), m)
  | Some st =>
      (inl tt, mkMemory (is_open_ m) (<[domain := foldl (fun st kv => <[kv.1 := DString kv.2]> st) st data]> (storage_ m)))
  end.

(** ** Integers as bytes *)

Definition kIntTag : Z := 0x8101.

(** The bytes of a number in network order, as [htonl] and [htons] lay them out. *)
Definition byte_n (z : Z) (i : Z) : ascii := Ascii.ascii_of_N (Z.to_N (Z.land (Z.shiftr z (8 * i)) 255)).
Definition int32_buffer (value : Z) : string :=
  let v := u32 value in
  of_chars [byte_n v 3; byte_n v 2; byte_n v 1; byte_n v 0; byte_n kIntTag 1; byte_n kIntTag 0].

Definition byte_val (c : ascii) : Z := Z.of_N (Ascii.N_of_ascii c).

(** The number in the first four bytes, as a signed one. *)
Definition read_int32 (b0 b1 b2 b3 : ascii) : Z :=
  i32 (byte_val b0 * 2 ^ 24 + byte_val b1 * 2 ^ 16 + byte_val b2 * 2 ^ 8 + byte_val b3).

Definition validateInt32StorageBuffer (buffer : string) : bool :=
  match chars buffer with
  | [_; _; _; _; t1; t0] => byte_val t1 * 2 ^ 8 + byte_val t0 =? kIntTag
  | _ => false
  end.

Definition decode_int32 (buffer : string) : option Z :=
  if validateInt32StorageBuffer buffer then
    match chars buffer with b0 :: b1 :: b2 :: b3 :: _ => Some (read_int32 b0 b1 b2 b3) | _ => None end
  else None.

(** ** On RocksDB *)

Record RocksdbDatabase (E : Type) := mkRdb {
  in_panic_ : bool;
  rd_open : bool;
  handles_map_ : gset string;
  rd_path : string;
  rd_engine : E;
}.
Arguments mkRdb {E} _ _ _ _ _.
Arguments in_panic_ {E} _.
Arguments rd_open {E} _.
Arguments handles_map_ {E} _.
Arguments rd_path {E} _.
Arguments rd_engine {E} _.

Definition is_not_found (s : RStatus) : bool := rs_code s =? 1.
Definition is_invalid_argument (s : RStatus) : bool := rs_code s =? 4.

Section Rocks.
Context {E : Type} {R : Rocks E} {B : Boost}.
Abbreviation D := (RocksdbDatabase E).
Abbreviation MD := (M D).

Definition rd_with (e : E) (d : D) : D := mkRdb (in_panic_ d) (rd_open d) (handles_map_ d) (rd_path d) e.
Definition rd_on {A} (m : M E A) : MD A := zoom rd_engine rd_with m.

Definition default_write : WriteOptions := mkWrite false false.
Definition batch_write : WriteOptions := mkWrite false true.

Definition rd_close : MD unit :=
  let* o := gets rd_open in
  if negb o then throw AssertFailure
  else rd_on rk_close ;;; modify (fun d => mkRdb (in_panic_ d) false ∅ (rd_path d) (rd_engine d)).

Context (DestroyDB : string -> M E RStatus).

Definition rd_destroyDB : MD (ExpectedE unit) :=
  let* o := gets rd_open in
  if o : bool then throw AssertFailure
  else
    let* path := gets rd_path in
    let* s := rd_on (DestroyDB path) in
    ret (if rs_ok s then inl tt else inr (db_error FailToDestroyDB ("Fail to destroy db: " +:+ rs_text s))).

(** The status of the parent directory: it exists, is a directory, has permissions. *)
Context (parent_status : string -> M E (bool * bool * bool)) (parent_path : string -> string).

Definition bool_text (b : bool) : string := if b then "1" else "0".
Definition newline_ : string := String "010" "".

Definition openInternal (path : string) : MD (ExpectedE unit) :=
  let* (exists_, is_directory, permissions) := rd_on (parent_status path) in
  if negb exists_ || negb is_directory || negb permissions then
    ret (inr (db_error InvalidPath ("database path doesn't exist or invalid." +:+ newline_ +:+ "Path:'" +:+ path +:+ "'" +:+ newline_ +:+
      "Parent: '" +:+ parent_path path +:+ "'" +:+ newline_ +:+ "exists:" +:+ bool_text exists_ +:+ "'" +:+ newline_ +:+
      "is_directory:" +:+ bool_text is_directory +:+ "'" +:+ newline_ +:+ "permissions_present:" +:+ bool_text permissions)))
  else
    let families := kDefaultColumnFamilyName :: kDomains in
    let* s := rd_on (rk_Open path families) in
    if rs_corruption s then
      ret (inr (createError_from "DatabaseError" Panic "database is corrrupted" (rocks_error 2 (rs_text s))))
    else if negb (rs_ok s) then ret (inr (db_error FailToOpenDatabase ("Fail to open database: " +:+ rs_text s)))
    else
      modify (fun d => mkRdb (in_panic_ d) true (handles_map_ d ∪ list_to_set families) (rd_path d) (rd_engine d)) ;;;
      ret (inl tt).

Definition rd_open_db : MD (ExpectedE unit) := let* path := gets rd_path in openInternal path.

Definition checkDbConnection : MD (ExpectedE unit) :=
  let* o := gets rd_open in ret (if o : bool then inl tt else inr (db_error DbIsNotOpen "Database is closed")).

Definition getHandle (d : D) (domain : string) : ExpectedE string :=
  if in_panic_ d then inr (db_error Panic "Database is in panic mode :(")
  else if negb (rd_open d) then inr (db_error DbIsNotOpen "Database is closed")
  else if bool_decide (domain ∈ handles_map_ d) then inl domain
  else inr (db_error DomainNotFound "Unknown database domain").

(** A corruption puts the database into panic. *)
Definition getRawBytesInternal (handle key : string) : MD (ExpectedE string) :=
  let* e := gets rd_engine in
  let (s, v) := rk_Get e handle key in
  if is_not_found s then ret (inr (db_error KeyNotFound "Value not found"))
  else if rs_corruption s then
    modify (fun d => mkRdb true (rd_open d) (handles_map_ d) (rd_path d) (rd_engine d)) ;;;
    ret (inr (createError_from "DatabaseError" Panic "" (rocks_error 2 (rs_text s))))
  else if negb (rs_ok s) then ret (inr (db_error FailToReadData (rs_text s)))
  else ret (inl (default "" v)).

(** The error of a write that failed is made and dropped. *)
Definition putRawBytesInternal (handle key value : string) : MD (ExpectedE unit) :=
  let* e := gets rd_engine in
  let (s, e) := rk_Write e default_write handle [(key, value)] in
  modify (rd_with e) ;;;
  ret (inl tt).

Definition getRawBytes (domain key : string) : MD (ExpectedE string) :=
  let* h := gets (fun d => getHandle d domain) in
  match h with inl handle => getRawBytesInternal handle key | inr e => ret (inr e) end.

Definition putRawBytes (domain key value : string) : MD (ExpectedE unit) :=
  let* h := gets (fun d => getHandle d domain) in
  match h with inl handle => putRawBytesInternal handle key value | inr e => ret (inr e) end.

Definition rd_getString (domain key : string) : MD (ExpectedE string) :=
  let* r := getRawBytes domain key in
  match r with
  | inl text => if validateInt32StorageBuffer text then throw AssertFailure else ret (inl text)
  | inr e => ret (inr e)
  end.

Definition rd_putString (domain key value : string) : MD (ExpectedE unit) := putRawBytes domain key value.

Definition rd_getInt32 (domain key : string) : MD (ExpectedE Z) :=
  let* r := getRawBytes domain key in
  match r with
  | inl buffer => match decode_int32 buffer with Some z => ret (inl z) | None => throw AssertFailure end
  | inr e => ret (inr e)
  end.

Definition rd_putInt32 (domain key : string) (value : Z) : MD (ExpectedE unit) := rd_putString domain key (int32_buffer value).

(** [takeError] of an [Expected] that holds a value throws. *)
Definition bad_get : exn := RuntimeError "boost::bad_get: failed value get using boost::get".

Definition rd_putStringsUnsafe (domain : string) (data : DatabaseStringValueList) : MD (ExpectedE unit) :=
  let* h := gets (fun d => getHandle d domain) in
  match h with
  | inl handle =>
      let* e := gets rd_engine in
      let (s, e) := rk_Write e batch_write handle data in
      modify (rd_with e) ;;;
      if negb (rs_ok s) then ret (inr (db_error FailToWriteData (rs_text s))) else throw bad_get
  | inr e => ret (inr e)
  end.

Definition rd_getKeys (domain prefix : string) : MD (ExpectedE (list string)) :=
  let* h := gets (fun d => getHandle d domain) in
  match h with
  | inl handle =>
      let* e := gets rd_engine in
      ret (inl (filter (fun k => boost_starts_with k prefix = true) (default [] (rk_keys e handle))))
  | inr e => ret (inr e)
  end.
End Rocks.

(** ** Defaults (database.cpp) *)

Definition or_default {A} (r : ExpectedE A) (default_value : A) : ExpectedE A :=
  match r with inr e => if getErrorCode e =? KeyNotFound then inl default_value else r | inl _ => r end.

(** The overloads of the base class store an integer as its digits. *)
Definition base_getInt32 (r : ExpectedE string) : ExpectedE Z :=
  match r with
  | inl text =>
      match tryTo TInt text 10 with
      | inl z => inl z
      | inr _ => inr (createError_from "DatabaseError" FailToReadData "Failed to convert string to int" (createError "ConversionError" 0 ""))
      end
  | inr e => inr e
  end.

(** ** Migration (rocksdb_migration.cpp) *)

Definition kDatabaseSchemaVersionCurrent : Z := 3.
Definition mig_error (c : Z) (text : string) : Error := createError "RocksdbMigrationError" c text.

Section Migration.
Context {E : Type} {P : Posix E}.
(** Opening the database at a path with the families it has: their names. Reading a
    value of an open database, destroying one, a fresh path. *)
Context (mig_Open : string -> bool -> bool -> M E (RStatus * list string)).
Context (mig_Get : string -> string -> string -> M E (RStatus * string)).
Context (DestroyDB : string -> M E unit) (randomOutputPath : M E string).
(** The steps from one version to the next; the code has none yet. *)
Context (migration_map_ : Z -> option (string -> string -> M E (ExpectedE Z))).

Definition openDatabase (path : string) (create_if_missing error_if_exists : bool) : M E (ExpectedE (list string)) :=
  let* (s, families) := mig_Open path create_if_missing error_if_exists in
  ret (if is_invalid_argument s then inr (mig_error 1 (rs_text s))
       else if negb (rs_ok s) then inr (mig_error 2 (rs_text s))
       else inl families).

Definition getVersion (path : string) (families : list string) : M E (ExpectedE Z) :=
  if bool_decide ("configurations" ∈ families) then
    let* (s, text) := mig_Get path "configurations" "database_schema_version" in
    let* (s, text) :=
      (if is_not_found s && bool_decide ("default" ∈ families) then mig_Get path "default" "results_version" else ret (s, text)) in
    ret (if negb (rs_ok s) then inr (mig_error 3 (rs_text s))
         else match tryTo TInt text 10 with
              | inl z => inl z
              | inr _ => inr (createError_from "RocksdbMigrationError" 3 "" (createError "ConversionError" 0 ""))
              end)
  else ret (inr (mig_error 3 "Verion data is not found")).

Definition moveDb (src_path dst_path : string) : M E (ExpectedE unit) :=
  let* (exists_, ec, text) := fs_exists dst_path in
  if exists_ : bool then
    ret (inr (mig_error 8 ("Database at dst path already exists or path is not accessible. Path: " +:+ dst_path +:+ "Error: " +:+
      to_string ec +:+ " " +:+ text)))
  else
    let* (ec, text) := fs_rename src_path dst_path in
    if ec =? 0 then ret (inr (mig_error 8 ("Move failed: " +:+ to_string ec +:+ " " +:+ text))) else ret (inl tt).

(** The version reached, and where. *)
Fixpoint migrate_steps (fuel : nat) (version : Z) (drop : bool) (src dst : string) : M E (option (ExpectedE string)) :=
  match fuel with
  | O => ret None
  | Datatypes.S fuel =>
      if version <? kDatabaseSchemaVersionCurrent then
        match migration_map_ version with
        | None => ret (Some (inr (mig_error 5 ("No migration logic from version: " +:+ to_string version))))
        | Some migration =>
            let* r := migration src dst in
            match r with
            | inr e => ret (Some (inr e))
            | inl new_version =>
                if new_version <=? version then
                  ret (Some (inr (mig_error 6 ("New version(" +:+ to_string version +:+ ") is lower or same as old(" +:+ to_string new_version +:+ ")"))))
                else
                  (if drop : bool then DestroyDB src else ret tt) ;;;
                  let* next := randomOutputPath in
                  migrate_steps fuel new_version true dst next
            end
        end
      else ret (Some (inl src))
  end.

(** Each step raises the version. *)
Definition migrate_fuel (version : Z) : nat := Datatypes.S (Z.to_nat (kDatabaseSchemaVersionCurrent - version)).

Definition migrateFromVersion (source_path_ : string) (original_version : Z) : M E (option (ExpectedE unit)) :=
  let* dst := randomOutputPath in
  let* r := migrate_steps (migrate_fuel original_version) original_version false source_path_ dst in
  match r with
  | None => ret None
  | Some (inr e) => ret (Some (inr e))
  | Some (inl new_src) =>
      let* temp_store := randomOutputPath in
      let* move := moveDb source_path_ temp_store in
      match move with
      | inr e => ret (Some (inr e))
      | inl _ =>
          let* move := moveDb new_src source_path_ in
          match move with
          | inr e => ret (Some (inr e))
          | inl _ => DestroyDB temp_store ;;; ret (Some (inl tt))
          end
      end
  end.

(** The result of the migration is dropped. *)
Definition migrateIfNeeded (source_path_ : string) : M E (ExpectedE unit) :=
  let* opened := openDatabase source_path_ false false in
  match opened with
  | inl families =>
      let* v := getVersion source_path_ families in
      match v with
      | inr e => ret (inr e)
      | inl version =>
          if negb (version =? kDatabaseSchemaVersionCurrent) then
            let* _ := migrateFromVersion source_path_ version in ret (inl tt)
          else ret (inl tt)
      end
  | inr e => if getErrorCode e =? 1 then ret (inl tt) else ret (inr e)
  end.
End Migration.

(** * Typed databases: what is stored is read back, and what is not

    Integers survive their encoding; the memory database keeps types apart; on RocksDB a
    write that fails goes unnoticed, a batch that succeeds throws, and the migration moves
    a database of another version away. *)
Local Open Scope Z_scope.

(** ** Integers *)

Lemma byte_val_n z i : 0 <= i -> byte_val (byte_n z i) = (z / 2 ^ (8 * i)) mod 256.
Proof.
  intros Hi. unfold byte_val, byte_n. change 255 with (Z.ones 8). rewrite Z.land_ones, Z.shiftr_div_pow2 by lia. change (2 ^ 8) with 256.
  pose proof (Z.mod_pos_bound (z / 2 ^ (8 * i)) 256 ltac:(lia)). rewrite Ascii.N_ascii_embedding by lia. lia.
Qed.

Lemma bytes_sum v : 0 <= v < 2 ^ 32 ->
  byte_val (byte_n v 3) * 2 ^ 24 + byte_val (byte_n v 2) * 2 ^ 16 + byte_val (byte_n v 1) * 2 ^ 8 + byte_val (byte_n v 0) = v.
Proof.
  intros Hv. rewrite !byte_val_n by lia. change (2 ^ (8 * 3)) with (256 * 256 * 256). change (2 ^ (8 * 2)) with (256 * 256).
  change (2 ^ (8 * 1)) with 256. change (2 ^ (8 * 0)) with 1. rewrite Z.div_1_r, <- !Z.div_div by lia.
  pose proof (Z.div_mod v 256 ltac:(lia)). pose proof (Z.div_mod (v / 256) 256 ltac:(lia)). pose proof (Z.div_mod (v / 256 / 256) 256 ltac:(lia)).
  assert (v / 256 / 256 / 256 < 256) as Hlt.
  { rewrite !Z.div_div by lia. apply Z.div_lt_upper_bound; lia. }
  assert (0 <= v / 256 / 256 / 256) by (repeat apply Z.div_pos; lia).
  rewrite (Z.mod_small (v / 256 / 256 / 256)) by lia. change (2 ^ 24) with (256 * 256 * 256). change (2 ^ 16) with (256 * 256). change (2 ^ 8) with 256. lia.
Qed.

Lemma int32_wraps z : int_range TInt z -> i32 (u32 z) = z.
Proof.
  cbn. unfold i32, u32. intros H. change (2 ^ (32 - 1)) with (2 ^ 31) in H.
  destruct (Z.ltb_spec z 0).
  - replace (z mod 2 ^ 32) with (z + 2 ^ 32); [|apply (Z.mod_unique _ _ (-1)); lia].
    replace (z + 2 ^ 32 + 2 ^ 31) with (z + 2 ^ 31 + 1 * 2 ^ 32) by lia. rewrite Z.mod_add, Z.mod_small by lia. lia.
  - rewrite (Z.mod_small z), Z.mod_small by lia. lia.
Qed.

Lemma decode_int32_buffer z : int_range TInt z -> decode_int32 (int32_buffer z) = Some z.
Proof.
  intros Hz. unfold decode_int32, validateInt32StorageBuffer, int32_buffer. rewrite !String.list_ascii_of_string_of_list_ascii.
  replace (byte_val (byte_n kIntTag 1) * 2 ^ 8 + byte_val (byte_n kIntTag 0) =? kIntTag) with true by (by vm_compute).
  unfold read_int32. rewrite bytes_sum; [by rewrite int32_wraps|]. unfold u32. apply Z.mod_pos_bound. lia.
Qed.

(** Every 32-bit integer is read back from the buffer it is stored in, and no buffer of an
    integer is taken for one of another. *)
Theorem int32_storage_roundtrip z z' : int_range TInt z -> int_range TInt z' ->
  decode_int32 (int32_buffer z) = Some z /\ (int32_buffer z = int32_buffer z' -> z = z').
Proof.
  intros Hz Hz'. split; [by apply decode_int32_buffer|]. intros He.
  pose proof (decode_int32_buffer z Hz) as H. rewrite He, decode_int32_buffer in H by done. congruence.
Qed.

(** ** In memory *)

(** What was put is got back as the type it was put as, and asking for the other type is
    the same as asking for a key that is not there. *)
Theorem memory_values_keep_their_type m domain key value other :
  is_open_ m = true -> is_Some (storage_ m !! domain) -> other <> key ->
  let '(r, m') := memory_putInt32 m domain key value in
  r = inl tt /\ memory_getInt32 m' domain key = inl value /\
  (exists e, memory_getString m' domain key = inr e /\ getErrorCode e = KeyNotFound) /\
  memory_getString m' domain other = memory_getString m domain other /\
  memory_getInt32 m' domain other = memory_getInt32 m domain other.
Proof.
  intros Ho [st Hst] Hne. unfold memory_putInt32, memory_putValue. rewrite Ho, Hst. cbn [negb].
  split; [done|]. unfold memory_getInt32, memory_getString, memory_getValue. cbn [is_open_ storage_]. rewrite Ho. cbn [negb].
  rewrite !lookup_insert_eq, Hst. unfold storage_get. rewrite !lookup_insert_eq, !lookup_insert_ne by done.
  split; [done|]. split; [by eexists|]. done.
Qed.

(** Closing forgets everything, and opening gives every domain empty. *)
Theorem memory_is_fresh_after_close m domain key :
  domain ∈ kDomains -> exists e, memory_getString (memory_open (memory_close m)) domain key = inr e /\ getErrorCode e = KeyNotFound.
Proof.
  intros Hd. unfold memory_getString, memory_getValue. cbn [is_open_ memory_open negb storage_ memory_close memory_destroyDB].
  assert (foldl (fun st domain => <[domain := ∅]> st) (∅ : gmap string (gmap string DataType)) kDomains !! domain = Some ∅) as ->.
  { clear key. repeat (apply elem_of_cons in Hd as [->|Hd]; [by vm_compute|]). by apply not_elem_of_nil in Hd. }
  unfold storage_get. rewrite lookup_empty. by eexists.
Qed.

(** ** On RocksDB *)

Section Rocks.
Context {E : Type} {R : Rocks E} {L : RocksLaws E}.

Record rd_ready (d : RocksdbDatabase E) : Prop := {
  rd_ready_engine : rk_ready (rd_engine d);
  rd_ready_panic : in_panic_ d = false;
  rd_ready_open : rd_open d = true;
  rd_ready_handles : handles_map_ d = list_to_set (kDefaultColumnFamilyName :: kDomains);
}.
(** Reading a key that is there does not fail. *)
Context (get_status : forall e cf k, rk_ready e -> is_Some (cf_view e cf !! k) ->
  rs_corruption (rk_Get e cf k).1 = false /\ rs_ok (rk_Get e cf k).1 = true).

Lemma getHandle_domain d domain : rd_ready d -> domain ∈ kDomains -> getHandle d domain = inl domain.
Proof.
  intros [_ Hp Ho Hh] Hd. unfold getHandle. rewrite Hp, Ho, Hh. cbn [negb]. rewrite bool_decide_true; [done|].
  apply elem_of_list_to_set. by right.
Qed.

Lemma getRawBytes_run d domain key v : rd_ready d -> domain ∈ kDomains -> cf_view (rd_engine d) domain !! key = Some v ->
  getRawBytes domain key d = (Ok (inl v), d).
Proof.
  intros Hr Hd Hv. unfold getRawBytes. rewrite bind_gets, getHandle_domain by done. unfold getRawBytesInternal. rewrite bind_gets.
  pose proof (rk_Get_law (rd_engine d) domain key (rd_ready_engine d Hr)) as H1.
  destruct (get_status (rd_engine d) domain key (rd_ready_engine d Hr)) as [H3 H4]; [by rewrite Hv|].
  destruct (rk_Get (rd_engine d) domain key) as [s w]. cbn [fst snd] in *. destruct (proj1 H1 H4) as [_ ->]. rewrite Hv.
  unfold is_not_found. pose proof H4 as H5. unfold rs_ok in H5. apply Z.eqb_eq in H5. rewrite H5, H3, H4. done.
Qed.

Lemma putRawBytes_run d domain key value : rd_ready d -> domain ∈ kDomains ->
  (forall s e, rk_Write (rd_engine d) default_write domain [(key, value)] = (s, e) -> rs_ok s = true) ->
  exists d', putRawBytes domain key value d = (Ok (inl tt), d') /\ rd_ready d' /\ cf_view (rd_engine d') domain !! key = Some value.
Proof.
  intros Hr Hd Hok. unfold putRawBytes. rewrite bind_gets, getHandle_domain by done. unfold putRawBytesInternal. rewrite bind_gets.
  pose proof (rk_Write_law (rd_engine d) default_write domain [(key, value)] (rd_ready_engine d Hr)) as H.
  destruct (rk_Write (rd_engine d) default_write domain [(key, value)]) as [s e] eqn:Ew. destruct H as [He [_ Hv]].
  rewrite (Hok _ _ eq_refl) in Hv. destruct Hv as [Hv|[? _]]; [|done]. rewrite bind_modify. eexists. split; [done|]. split.
  - destruct Hr as [_ H2 H3 H4]. by constructor.
  - cbn [rd_engine rd_with]. rewrite Hv. cbn. apply lookup_insert_eq.
Qed.

(** An integer that was put is got back, when the write succeeds. *)
Theorem stored_integer_is_read_back d domain key z :
  rd_ready d -> domain ∈ kDomains -> int_range TInt z ->
  (forall s e, rk_Write (rd_engine d) default_write domain [(key, int32_buffer z)] = (s, e) -> rs_ok s = true) ->
  exists d', rd_putInt32 domain key z d = (Ok (inl tt), d') /\ rd_getInt32 domain key d' = (Ok (inl z), d').
Proof.
  intros Hr Hd Hz Hok. destruct (putRawBytes_run d domain key (int32_buffer z) Hr Hd Hok) as (d' & E1 & Hr' & Hv).
  exists d'. split; [exact E1|]. unfold rd_getInt32. rewrite (bind_run _ _ _ _ _ (getRawBytes_run d' domain key _ Hr' Hd Hv)).
  by rewrite decode_int32_buffer.
Qed.

(** A text of six bytes that ends in the tag of integers can be put, and getting it back
    ends the process. *)
Theorem text_like_an_integer_cannot_be_read d domain key text :
  rd_ready d -> domain ∈ kDomains -> validateInt32StorageBuffer text = true ->
  (forall s e, rk_Write (rd_engine d) default_write domain [(key, text)] = (s, e) -> rs_ok s = true) ->
  exists d', rd_putString domain key text d = (Ok (inl tt), d') /\ (rd_getString domain key d').1 = Throw AssertFailure.
Proof.
  intros Hr Hd Ht Hok. destruct (putRawBytes_run d domain key text Hr Hd Hok) as (d' & E1 & Hr' & Hv).
  exists d'. split; [exact E1|]. unfold rd_getString. rewrite (bind_run _ _ _ _ _ (getRawBytes_run d' domain key _ Hr' Hd Hv)), Ht. done.
Qed.

(** A write that fails is reported as a success; the database is as the failure left it. *)
Theorem failed_write_goes_unnoticed d domain key value s e :
  rd_ready d -> domain ∈ kDomains -> rk_Write (rd_engine d) default_write domain [(key, value)] = (s, e) -> rs_ok s = false ->
  exists d', rd_putString domain key value d = (Ok (inl tt), d') /\ rd_engine d' = e.
Proof.
  intros Hr Hd Ew Hs. unfold rd_putString, putRawBytes. rewrite bind_gets, getHandle_domain by done. unfold putRawBytesInternal. rewrite bind_gets.
  rewrite Ew, bind_modify. by eexists.
Qed.

(** A batch that was written ends in an exception: the error of a handle that is none is
    returned. *)
Theorem successful_batch_throws d domain data s e :
  rd_ready d -> domain ∈ kDomains -> rk_Write (rd_engine d) batch_write domain data = (s, e) -> rs_ok s = true ->
  exists d', rd_putStringsUnsafe domain data d = (Throw bad_get, d') /\ cf_view (rd_engine d') domain = put_all (cf_view (rd_engine d) domain) data.
Proof.
  intros Hr Hd Ew Hs. unfold rd_putStringsUnsafe. rewrite bind_gets, getHandle_domain by done. rewrite bind_gets.
  pose proof (rk_Write_law (rd_engine d) batch_write domain data (rd_ready_engine d Hr)) as H. rewrite Ew, Hs in H. destruct H as [_ [_ [Hv|[? _]]]]; [|done].
  rewrite Ew, bind_modify, Hs. eexists. by split.
Qed.
End Rocks.

(** ** Migration *)

Section Migration.
Context {E : Type} {P : Posix E}.
Context (mig_Open : string -> bool -> bool -> M E (RStatus * list string)).
Context (mig_Get : string -> string -> string -> M E (RStatus * string)).
Context (DestroyDB : string -> M E unit) (randomOutputPath : M E string).
Context (migration_map_ : Z -> option (string -> string -> M E (ExpectedE Z))).

(** The steps of a migration end: the version rises with each of them. *)
Theorem migration_steps_end version drop src dst e r e' :
  migrate_steps DestroyDB randomOutputPath migration_map_ (migrate_fuel version) version drop src dst e = (Ok r, e') -> is_Some r.
Proof.
  assert (forall fuel version drop src dst e, (0 < fuel)%nat -> kDatabaseSchemaVersionCurrent - version < Z.of_nat fuel ->
    migrate_steps DestroyDB randomOutputPath migration_map_ fuel version drop src dst e = (Ok r, e') -> is_Some r) as H.
  { clear. induction fuel as [|fuel IH]; intros version drop src dst e Hpos Hf Em; cbn [migrate_steps] in Em; [lia|].
    destruct (Z.ltb_spec version kDatabaseSchemaVersionCurrent); [|run_pure Em; by eexists].
      destruct (migration_map_ version); [|run_pure Em; by eexists]. run_step Em as v e1 E1. destruct v as [v|]; [|run_pure Em; by eexists].
      destruct (Z.leb_spec v version); [run_pure Em; by eexists|]. run_step Em as u e2 E2. run_step Em as next e3 E3. eapply IH; [| |exact Em]; lia. }
  apply H; unfold migrate_fuel; lia.
Qed.

(** A database of a version newer than the current one is moved to a fresh path and stays
    there: the move that succeeded counts as failed, and the failure is not reported. *)
Theorem newer_database_is_moved_away path families version tmp0 tmp e e1 e2 e3 e4 e5 e6 text :
  openDatabase mig_Open path false false e = (Ok (inl families), e1) ->
  getVersion mig_Get path families e1 = (Ok (inl version), e2) -> kDatabaseSchemaVersionCurrent < version ->
  randomOutputPath e2 = (Ok tmp0, e3) -> randomOutputPath e3 = (Ok tmp, e4) ->
  fs_exists tmp e4 = (Ok (false, 0, ""), e5) -> fs_rename path tmp e5 = (Ok (0, text), e6) ->
  migrateIfNeeded mig_Open mig_Get DestroyDB randomOutputPath migration_map_ path e = (Ok (inl tt), e6).
Proof.
  intros E1 E2 Hv E3 E4 E5 E6. unfold migrateIfNeeded. rewrite (bind_run _ _ _ _ _ E1), (bind_run _ _ _ _ _ E2).
  destruct (Z.eqb_spec version kDatabaseSchemaVersionCurrent); [lia|]. cbn [negb].
  assert (moveDb path tmp e4 = (Ok (inr (mig_error 8 ("Move failed: " +:+ to_string 0 +:+ " " +:+ text))), e6)) as Em.
  { unfold moveDb. by rewrite (bind_run _ _ _ _ _ E5), (bind_run _ _ _ _ _ E6). }
  assert (migrate_steps DestroyDB randomOutputPath migration_map_ (migrate_fuel version) version false path tmp0 e3
    = (Ok (Some (inl path)), e3)) as Es.
  { unfold migrate_fuel. cbn [migrate_steps]. by destruct (Z.ltb_spec version kDatabaseSchemaVersionCurrent); [lia|]. }
  unfold bind at 1, migrateFromVersion.
  by rewrite (bind_run _ _ _ _ _ E3), (bind_run _ _ _ _ _ Es), (bind_run _ _ _ _ _ E4), (bind_run _ _ _ _ _ Em).
Qed.
End Migration.
