(* ===== verification/MdTables.v ===== *)
(** * Software RAID (osquery/tables/system/linux/md_tables.cpp)

    The parser of /proc/mdstat and the tables made from it and from the answers of the
    kernel and of udev, which are parameters. A loop that has run out of fuel is [None]. *)
From S2P Require Import Prelude Boost Conversions Query.

(** ** Texts *)

(** [s.find_first_not_of(set)]. *)
Fixpoint find_first_not_of (set s : string) : option nat :=
  match s with
  | EmptyString => None
  | String c s => if bool_decide (c ∈ chars set) then S <$> find_first_not_of set s else Some O
  end.

Definition find_char (c : ascii) (s : string) : option nat := find_str (String c "") s.

(** ** Data *)

Record MDDrive := mkDrive { dr_name : string; dr_pos : Z }.
Record MDAction := mkAction { ac_progress : string; ac_finish : string; ac_speed : string }.
Record MDBitmap := mkBitmap { bm_onMem : string; bm_chunkSize : string; bm_externalFile : string }.
Record MDDevice := mkDevice {
  md_name : string; md_status : string; md_raidLevel : string; md_usableSize : Z; md_other : string;
  md_drives : list MDDrive; md_healthyDrives : string; md_driveStatuses : string;
  md_recovery : MDAction; md_resync : MDAction; md_reshape : MDAction; md_checkArray : MDAction; md_bitmap : MDBitmap;
}.
Record MDStat := mkMDStat { personalities : list string; devices : list MDDevice; unused : string }.

Definition no_action : MDAction := mkAction "" "" "".
Definition new_device (name : string) : MDDevice :=
  mkDevice name "" "" 0 "" [] "" "" no_action no_action no_action no_action (mkBitmap "" "" "").

Section Parser.
Context {B : Boost}.

Definition trimStrs (strs : list string) : list string := boost_trim <$> strs.

Definition parseMDPersonalities (line : string) (result_ : list string) : list string :=
  foldl (fun acc p =>
    let p := boost_trim p in
    if (2 <? String.length p)%nat then acc ++ [String.substring 1 (String.length p - 2) p] else acc) result_ (split line " ").

(** A line that has not four pieces is left alone. *)
Definition parseMDAction (line : string) (a : MDAction) : MDAction :=
  match trimStrs (split line " ") with
  | [p0; p1; p2; p3] =>
      let after (set p : string) :=
        match find_first_not_of set p with Some start => String.substring start (String.length p - start) p | None => p end in
      mkAction (p0 +:+ " " +:+ p1) (after "finish=" p2) (after "speed=" p3)
  | _ => a
  end.

Definition parseMDBitmap (line : string) (b : MDBitmap) : MDBitmap :=
  match split line "," with
  | i0 :: i1 :: rest =>
      let external :=
        match trimStrs rest with
        | i2 :: _ =>
            match find_str "file:" i2 with
            | Some pos => boost_trim (String.substring (pos + 5) (String.length i2 - (pos + 5)) i2)
            | None => bm_externalFile b
            end
        | [] => bm_externalFile b
        end in
      mkBitmap (boost_trim i0) (boost_trim i1) external
  | _ => b
  end.

(** The rest of the line after [term], when the line after [n] has it and goes on. *)
Definition status_line (lines : list string) (n : nat) (term : string) : option string :=
  if (length lines <? n + 2)%nat then None
  else
    let l := default "" (lines !! (n + 1)%nat) in
    match find_str term l with
    | Some pos =>
        let from := (pos + String.length term)%nat in
        if (from <? String.length l)%nat then Some (boost_trim (String.substring from (String.length l - from) l)) else None
    | None => None
    end.

Definition parseMDDrive (name : string) : result MDDrive :=
  match find_char "[" name, find_char "]" name with
  | Some start, Some end_ =>
      if (end_ <? start)%nat then Ok (mkDrive name 0)
      else
        match stoi 10 (String.substring (start + 1) (end_ - start - 1) name) with
        | Ok pos => Ok (mkDrive name (u64 pos))
        | Throw e => Throw e
        end
  | _, _ => Ok (mkDrive name 0)
  end.

Fixpoint parse_drives (settings : list string) : result (list MDDrive) :=
  match settings with
  | [] => Ok []
  | s :: settings =>
      match parseMDDrive s with
      | Throw e => Throw e
      | Ok d => match parse_drives settings with Throw e => Throw e | Ok ds => Ok (d :: ds) end
      end
  end.

(** The line with the state, the level and the drives. *)
Definition parse_settings (d : MDDevice) (text : string) : result MDDevice :=
  match trimStrs (split text " ") with
  | status :: level :: drives =>
      match parse_drives drives with
      | Throw e => Throw e
      | Ok ds =>
          Ok (mkDevice (md_name d) status level (md_usableSize d) (md_other d) ds (md_healthyDrives d) (md_driveStatuses d)
                (md_recovery d) (md_resync d) (md_reshape d) (md_checkArray d) (md_bitmap d))
      end
  | _ => Ok d
  end.

(** The line with the size and the health. *)
Definition parse_config (d : MDDevice) (line : string) : MDDevice :=
  let configline := split line (String "009" " ") in
  if (length configline <? 4)%nat then d
  else
    let configline := trimStrs configline in
    let n := length configline in
    let size :=
      if bool_decide (configline !! 1%nat = Some "blocks") then
        match tryTo TLong (default "" (configline !! 0%nat)) 10 with inl z => z | inr _ => md_usableSize d end
      else md_usableSize d in
    let other :=
      if (4 <? n)%nat then
        foldl (fun other piece => boost_trim (other +:+ " " +:+ piece)) (md_other d) (take (n - 4) (drop 2 configline))
      else md_other d in
    mkDevice (md_name d) (md_status d) (md_raidLevel d) size other (md_drives d)
      (default "" (configline !! (n - 2)%nat)) (default "" (configline !! (n - 1)%nat))
      (md_recovery d) (md_resync d) (md_reshape d) (md_checkArray d) (md_bitmap d).

Definition set_actions (recovery resync reshape checkArray : MDAction) (bitmap : MDBitmap) (d : MDDevice) : MDDevice :=
  mkDevice (md_name d) (md_status d) (md_raidLevel d) (md_usableSize d) (md_other d) (md_drives d) (md_healthyDrives d)
    (md_driveStatuses d) recovery resync reshape checkArray bitmap.

(** The first of the terms the next line has, and what it changes. *)
Definition handle_status (lines : list string) (n : nat) (d : MDDevice) : option MDDevice :=
  match status_line lines n "recovery =" with
  | Some line => Some (set_actions (parseMDAction line (md_recovery d)) (md_resync d) (md_reshape d) (md_checkArray d) (md_bitmap d) d)
  | None =>
  match status_line lines n "resync =" with
  | Some line => Some (set_actions (md_recovery d) (parseMDAction line (md_resync d)) (md_reshape d) (md_checkArray d) (md_bitmap d) d)
  | None =>
  match status_line lines n "resync=" with
  | Some line => Some (set_actions (md_recovery d) (mkAction line (ac_finish (md_resync d)) (ac_speed (md_resync d))) (md_reshape d) (md_checkArray d) (md_bitmap d) d)
  | None =>
  match status_line lines n "reshape =" with
  | Some line => Some (set_actions (md_recovery d) (md_resync d) (parseMDAction line (md_reshape d)) (md_checkArray d) (md_bitmap d) d)
  | None =>
  match status_line lines n "check =" with
  | Some line => Some (set_actions (md_recovery d) (md_resync d) (md_reshape d) (parseMDAction line (md_checkArray d)) (md_bitmap d) d)
  | None =>
  match status_line lines n "bitmap:" with
  | Some line => Some (set_actions (md_recovery d) (md_resync d) (md_reshape d) (md_checkArray d) (parseMDBitmap line (md_bitmap d)) d)
  | None => None
  end end end end end end.

(** The lines about the array: the device, and the last of them. *)
Fixpoint status_loop (fuel : nat) (lines : list string) (n : nat) (d : MDDevice) : option (nat * MDDevice) :=
  match fuel with
  | O => None
  | S fuel =>
      if (n <? length lines - 1)%nat then
        match handle_status lines n d with
        | Some d => status_loop fuel lines (n + 1) d
        | None => Some (n, d)
        end
      else Some (n, d)
  end.

(** What one round of the main loop makes of line [n]: the next line and the result. *)
Definition md_round (lines : list string) (n : nat) (r : MDStat) : result (option (nat * MDStat)) :=
  let line := default "" (lines !! n) in
  if bool_decide (find_first_not_of (String "009" (String "013" (String "011" " "))) line = None) || (String.length line <? 2)%nat
  then Ok (Some (n + 1, r)%nat)
  else
    let firstTwo := String.substring 0 2 line in
    if bool_decide (firstTwo = "md") then
      match split_occurences line ":" 1 with
      | name :: text :: _ =>
          match parse_settings (new_device (boost_trim name)) text with
          | Throw e => Throw e
          | Ok d =>
              (* the last line: the loop goes on with the same line *)
              if (length lines - 1 <=? n)%nat then Ok (Some (n, r))
              else
                let d := parse_config d (default "" (lines !! (n + 1)%nat)) in
                match status_loop (S (length lines)) lines (n + 1) d with
                | None => Ok None
                | Some (n, d) => Ok (Some ((n + 1)%nat, mkMDStat (personalities r) (devices r ++ [d]) (unused r)))
                end
          end
      | _ => Ok (Some (n + 1, r)%nat)
      end
    else if bool_decide (firstTwo = "un") && (16 <? String.length line)%nat then
      Ok (Some ((n + 1)%nat, mkMDStat (personalities r) (devices r) (boost_trim (String.substring 15 (String.length line - 15) line))))
    else Ok (Some (n + 1, r)%nat).

Fixpoint md_loop (fuel : nat) (lines : list string) (n : nat) (r : MDStat) : result (option MDStat) :=
  match fuel with
  | O => Ok None
  | S fuel =>
      if (n <? length lines)%nat then
        match md_round lines n r with
        | Throw e => Throw e
        | Ok None => Ok None
        | Ok (Some (n, r)) => md_loop fuel lines n r
        end
      else Ok (Some r)
  end.

(** One round for every line, and the last test. *)
Definition parse_fuel (lines : list string) : nat := S (length lines).

Definition parseMDStat (fuel : nat) (lines : list string) (r : MDStat) : result (option MDStat) :=
  match lines with
  | [] => Ok (Some r)
  | first :: _ =>
      match find_str "Personalities :" first with
      | Some _ =>
          md_loop fuel lines 1
            (mkMDStat (parseMDPersonalities (String.substring 15 (String.length first - 15) first) (personalities r)) (devices r) (unused r))
      | None => md_loop fuel lines 0 r
      end
  end.
End Parser.

(** ** Devices of udev *)

(** The properties of a device; reading one that is not there is not defined. *)
Abbreviation udev_device := (gmap string string).
Definition property (d : udev_device) (name : string) : result string :=
  match d !! name with Some v => Ok v | None => Throw AssertFailure end.

(** [name.compare(pos, npos, other) == 0]; [pos] is a [size_t]. *)
Definition compare_from (name : string) (pos : Z) (other : string) : result bool :=
  if (Z.of_nat (String.length name) <? u64 pos)%Z then Throw (OutOfRange "basic_string::compare")
  else Ok (bool_decide (String.substring (Z.to_nat (u64 pos)) (String.length name) name = other)).

Section Udev.
Context {B : Boost}.

(** The walk ends with the first device that gives a value. *)
Fixpoint walkUdevDevices {A} (f : udev_device -> result (option A)) (l : list udev_device) : result (option A) :=
  match l with
  | [] => Ok None
  | d :: l => match f d with Throw e => Throw e | Ok (Some a) => Ok (Some a) | Ok None => walkUdevDevices f l end
  end.

Definition length_diff (a b : string) : Z := Z.of_nat (String.length a) - Z.of_nat (String.length b).

Definition getPathByDevName (block : list udev_device) (name : string) : result string :=
  match walkUdevDevices (fun d =>
    match property d "DEVNAME" with
    | Throw e => Throw e
    | Ok devName =>
        if (String.length devName <? String.length name)%nat then Ok None
        else
          match compare_from name (length_diff devName name) devName with
          | Throw e => Throw e
          | Ok false => Ok None
          | Ok true => Ok (Some (if boost_starts_with devName "/" then devName else "/dev/" +:+ devName))
          end
    end) block with
  | Throw e => Throw e
  | Ok o => Ok (default "" o)
  end.

Definition getDevName (block : list udev_device) (major minor : Z) : result string :=
  match walkUdevDevices (fun d =>
    match property d "MAJOR" with
    | Throw e => Throw e
    | Ok ma =>
        match stoi 10 ma with
        | Throw e => Throw e
        | Ok ma =>
            if (ma =? major)%Z then
              match property d "MINOR" with
              | Throw e => Throw e
              | Ok mi =>
                  match stoi 10 mi with
                  | Throw e => Throw e
                  | Ok mi =>
                      if (mi =? minor)%Z then match property d "DEVNAME" with Throw e => Throw e | Ok n => Ok (Some n) end
                      else Ok None
                  end
              end
            else Ok None
        end
    end) block with
  | Throw e => Throw e
  | Ok o => Ok (default "unknown" o)
  end.

Definition getSuperblkVersion (block : list udev_device) (arrayName : string) : result string :=
  match walkUdevDevices (fun d =>
    match property d "DEVNAME" with
    | Throw e => Throw e
    | Ok devName =>
        match compare_from arrayName (length_diff devName arrayName) devName with
        | Throw e => Throw e
        | Ok false => Ok None
        | Ok true => match property d "MD_METADATA" with Throw e => Throw e | Ok v => Ok (Some v) end
        end
    end) block with
  | Throw e => Throw e
  | Ok o => Ok (default "" o)
  end.

(** ** The tables *)

(** The names of the bits the headers of the kernel have, in the order of the bits. *)
Definition bit_names (possibleStates : list (Z * string)) (state : Z) : string :=
  boost_trim (foldl (fun s ps => if (Z.land (Z.shiftl 1 ps.1) state =? 0)%Z then s else s +:+ ps.2) "" possibleStates).

Definition getDiskStateStr (possibleStates : list (Z * string)) (state : Z) : string :=
  if (state =? 0)%Z then "recovering" else bit_names possibleStates state.
Definition getSuperBlkStateStr (possibleStates : list (Z * string)) (state : Z) : string :=
  if (state =? 0)%Z then "unknown" else bit_names possibleStates state.

(** [mdu_array_info_t] and [mdu_disk_info_t]. *)
Record array_info := mkArray {
  a_level : Z; a_chunk_size : Z; a_raid_disks : Z; a_nr_disks : Z; a_working_disks : Z; a_active_disks : Z;
  a_failed_disks : Z; a_spare_disks : Z; a_state : Z; a_utime : Z;
}.
Record disk_info := mkDisk { d_number : Z; d_major : Z; d_minor : Z; d_raid_disk : Z; d_state : Z }.

(** The answers of the system: the devices of the block subsystem, [getArrayInfo],
    [getDiskInfo] and the names of states. *)
Record MdSystem := mkMdSystem {
  s_block : list udev_device;
  s_array : string -> option array_info;
  s_disk : string -> Z -> option disk_info;
  s_disk_states : list (Z * string);
  s_super_states : list (Z * string);
}.

Definition MD_SB_DISKS : nat := 27.

(** The slots not yet seen, the rows of drives without a slot, and the rows. *)
Record slots := mkSlots { missingSlots : list Z; removedSlots : list nat; data : QueryData }.

Definition slot_of (array : array_info) (disk : disk_info) : option Z :=
  if (0 <=? d_raid_disk disk)%Z then Some (d_raid_disk disk)
  else if (d_number disk <? a_raid_disks array)%Z then Some (d_number disk)
  else None.

Definition drive_row (arrayName name state : string) (slot : option Z) : Row :=
  let r := {["md_device_name" := arrayName; "drive_name" := name; "state" := state]} in
  match slot with Some s => <["slot" := to_string s]> r | None => r end.

Definition add_disk (s : MdSystem) (arrayName : string) (array : array_info) (st : slots) (disk : disk_info) : result slots :=
  if (0 <? d_major disk)%Z then
    match getDevName (s_block s) (d_major disk) (d_minor disk) with
    | Throw e => Throw e
    | Ok name =>
        let slot := slot_of array disk in
        let row := drive_row arrayName name (getDiskStateStr (s_disk_states s) (d_state disk)) slot in
        Ok (match slot with
            | Some n => mkSlots (filter (fun m => m <> n) (missingSlots st)) (removedSlots st) (data st ++ [row])
            | None => mkSlots (missingSlots st) (removedSlots st ++ [length (data st)]) (data st ++ [row])
            end)
    end
  else Ok st.

Fixpoint add_disks (s : MdSystem) (arrayName path : string) (array : array_info) (n : nat) (i : Z) (st : slots) : result slots :=
  match n with
  | O => Ok st
  | S n =>
      match s_disk s path i with
      | None => add_disks s arrayName path array n (i + 1) st
      | Some disk =>
          match add_disk s arrayName array st disk with
          | Throw e => Throw e
          | Ok st => add_disks s arrayName path array n (i + 1) st
          end
      end
  end.

(** A missing slot goes to the first drive without one, or has a row of its own. *)
Fixpoint fill_slots (arrayName : string) (missing : list Z) (removed : list nat) (rows : QueryData) : QueryData :=
  match missing with
  | [] => rows
  | slot :: missing =>
      match removed with
      | i :: removed => fill_slots arrayName missing removed (alter (insert "slot" (to_string slot)) i rows)
      | [] => fill_slots arrayName missing [] (rows ++ [drive_row arrayName "unknown" "removed" (Some slot)])
      end
  end.

Definition expected_slots (array : array_info) : list Z := Z.of_nat <$> seq 0 (Z.to_nat (a_raid_disks array)).

Definition getDrivesForArray (s : MdSystem) (arrayName : string) (rows : QueryData) : result QueryData :=
  match getPathByDevName (s_block s) arrayName with
  | Throw e => Throw e
  | Ok path =>
      if is_empty path then Ok rows
      else
        match s_array s path with
        | None => Ok rows
        | Some array =>
            match add_disks s arrayName path array MD_SB_DISKS 0 (mkSlots (expected_slots array) [] rows) with
            | Throw e => Throw e
            | Ok st => Ok (fill_slots arrayName (missingSlots st) (removedSlots st) (data st))
            end
        end
  end.

Definition empty_stat : MDStat := mkMDStat [] [] "".

(** The text of /proc/mdstat, when it could be read. *)
Definition getLines (content : option string) : list string :=
  match content with Some text => trimStrs (split text (String "010" "")) | None => [] end.

Fixpoint drives_of (s : MdSystem) (l : list MDDevice) (rows : QueryData) : result QueryData :=
  match l with
  | [] => Ok rows
  | d :: l => match getDrivesForArray s (md_name d) rows with Throw e => Throw e | Ok rows => drives_of s l rows end
  end.

(** [None] when the parser does not end. *)
Definition genMDDrives (fuel : nat) (s : MdSystem) (content : option string) : result (option QueryData) :=
  match parseMDStat fuel (getLines content) empty_stat with
  | Throw e => Throw e
  | Ok None => Ok None
  | Ok (Some mds) => match drives_of s (devices mds) [] with Throw e => Throw e | Ok rows => Ok (Some rows) end
  end.

Definition action_columns (prefix : string) (a : MDAction) (r : Row) : Row :=
  if is_empty (ac_progress a) then r
  else <[prefix +:+ "_progress" := ac_progress a]> (<[prefix +:+ "_finish" := ac_finish a]> (<[prefix +:+ "_speed" := ac_speed a]> r)).

Definition device_row (mds : MDStat) (d : MDDevice) (array : array_info) (super version : string) : Row :=
  let r := list_to_map
    [("device_name", md_name d); ("status", md_status d); ("raid_level", to_string (a_level array)); ("size", to_string (md_usableSize d));
     ("chunk_size", to_string (a_chunk_size array)); ("raid_disks", to_string (a_raid_disks array)); ("nr_raid_disks", to_string (a_nr_disks array));
     ("working_disks", to_string (a_working_disks array)); ("active_disks", to_string (a_active_disks array));
     ("failed_disks", to_string (a_failed_disks array)); ("spare_disks", to_string (a_spare_disks array));
     ("superblock_state", super); ("superblock_version", version); ("superblock_update_time", to_string (a_utime array));
     ("other", md_other d); ("unused_devices", unused mds)] in
  let r := action_columns "recovery" (md_recovery d) (action_columns "resync" (md_resync d)
             (action_columns "reshape" (md_reshape d) (action_columns "check_array" (md_checkArray d) r))) in
  if is_empty (bm_onMem (md_bitmap d)) then r
  else <["bitmap_on_mem" := bm_onMem (md_bitmap d)]> (<["bitmap_chunk_size" := bm_chunkSize (md_bitmap d)]>
         (<["bitmap_external_file" := bm_externalFile (md_bitmap d)]> r)).

(** The first device that is not known ends the table. *)
Fixpoint device_rows (s : MdSystem) (mds : MDStat) (l : list MDDevice) (rows : QueryData) : result QueryData :=
  match l with
  | [] => Ok rows
  | d :: l =>
      match getPathByDevName (s_block s) (md_name d) with
      | Throw e => Throw e
      | Ok path =>
          match (if is_empty path then None else s_array s path) with
          | None => Ok rows
          | Some array =>
              match getSuperblkVersion (s_block s) (md_name d) with
              | Throw e => Throw e
              | Ok version => device_rows s mds l (rows ++ [device_row mds d array (getSuperBlkStateStr (s_super_states s) (a_state array)) version])
              end
          end
      end
  end.

Definition genMDDevices (fuel : nat) (s : MdSystem) (content : option string) : result (option QueryData) :=
  match parseMDStat fuel (getLines content) empty_stat with
  | Throw e => Throw e
  | Ok None => Ok None
  | Ok (Some mds) => match device_rows s mds (devices mds) [] with Throw e => Throw e | Ok rows => Ok (Some rows) end
  end.

Definition genMDPersonalities (fuel : nat) (content : option string) : result (option QueryData) :=
  match parseMDStat fuel (getLines content) empty_stat with
  | Throw e => Throw e
  | Ok None => Ok None
  | Ok (Some mds) => Ok (Some ((fun name => {["name" := name]}) <$> personalities mds))
  end.
End Udev.

(** * Software RAID: the parser ends, and the slots

    The parser of /proc/mdstat ends unless its last line is that of an array; every slot
    of an array has a row; the path of an array is looked up in a way that throws. *)

Section Parser.
Context {B : Boost}.

Definition is_md (line : string) : Prop := String.substring 0 2 line = "md".

(** The lines about an array: the loop ends, not before where it began. *)
Lemma status_loop_ends fuel lines n d : (length lines - n < fuel)%nat ->
  exists n' d', status_loop fuel lines n d = Some (n', d') /\ (n <= n')%nat.
Proof.
  revert n d. induction fuel as [|fuel IH]; intros n d Hf; [lia|]. cbn [status_loop].
  destruct (Nat.ltb_spec n (length lines - 1)); [|by eexists _, _].
  destruct (handle_status lines n d) as [d'|]; [|by eexists _, _].
  destruct (IH (n + 1)%nat d') as (n' & d'' & E & Hn); [lia|]. exists n', d''. split; [done|lia].
Qed.

(** A round goes on, unless it is at a line of an array that is the last line. *)
Lemma md_round_goes_on lines n r : (n < length lines)%nat ->
  (forall l, lines !! n = Some l -> is_md l -> (n < length lines - 1)%nat) ->
  (exists e, md_round lines n r = Throw e) \/ exists n' r', md_round lines n r = Ok (Some (n', r')) /\ (n < n')%nat.
Proof.
  intros Hn Hmd. destruct (lookup_lt_is_Some_2 lines n Hn) as [l Hl]. specialize (Hmd l Hl). unfold md_round. rewrite Hl. cbn [default from_option id].
  assert (forall r' : MDStat, exists n' r'', Ok (Some ((n + 1)%nat, r')) = Ok (Some (n', r'')) /\ (n < n')%nat) as Hnext
    by (intros r'; exists (n + 1)%nat, r'; split; [done|lia]).
  destruct (_ || _); [right; apply Hnext|]. case_bool_decide as Htwo.
  - destruct (split_occurences l ":" 1) as [|name [|text rest]]; [right; apply Hnext|right; apply Hnext|].
    destruct (parse_settings _ _) as [d|e]; [|left; by eexists].
    destruct (Nat.leb_spec (length lines - 1) n) as [Hle|_]; [exfalso; specialize (Hmd Htwo); lia|].
    destruct (status_loop_ends (S (length lines)) lines (n + 1) (parse_config d (default "" (lines !! (n + 1)%nat)))) as (n' & d' & E & Hn'); [lia|].
    rewrite E. right. eexists _, _. split; [done|lia].
  - destruct (_ && _); right; apply Hnext.
Qed.

Lemma md_loop_ends lines : (forall l, last lines = Some l -> ~ is_md l) ->
  forall fuel n r, (length lines - n < fuel)%nat -> md_loop fuel lines n r <> Ok None.
Proof.
  intros Hlast. induction fuel as [|fuel IH]; intros n r Hf; [lia|]. cbn [md_loop]. destruct (Nat.ltb_spec n (length lines)) as [Hn|]; [|done].
  destruct (md_round_goes_on lines n r Hn) as [[e ->]|(n' & r' & -> & Hlt)]; [|done|apply IH; lia].
  intros l Hl Hmd. destruct (decide (n = length lines - 1)%nat) as [->|]; [|lia]. exfalso. apply (Hlast l); [|done].
  rewrite last_lookup. replace (Nat.pred (length lines)) with (length lines - 1)%nat by lia. done.
Qed.

(** The parser ends on every text whose last line is not that of an array, as it is in
    the file of the kernel, which ends with the unused devices. *)
Theorem mdstat_parse_ends lines r :
  (forall l, last lines = Some l -> ~ is_md l) -> parseMDStat (parse_fuel lines) lines r <> Ok None.
Proof.
  intros Hlast. unfold parseMDStat, parse_fuel. destruct lines as [|first rest]; [done|].
  destruct (find_str _ _); apply md_loop_ends; try done; lia.
Qed.

(** A last line that is that of an array is parsed again and again. *)
Theorem array_line_at_the_end_never_ends lines n l name text rest d r fuel :
  lines !! n = Some l -> S n = length lines -> is_md l -> find_first_not_of (String "009" (String "013" (String "011" " "))) l <> None ->
  split_occurences l ":" 1 = name :: text :: rest -> parse_settings (new_device (boost_trim name)) text = Ok d ->
  md_loop fuel lines n r = Ok None.
Proof.
  intros Hl Hn Hmd Hne Hs Hd. induction fuel as [|fuel IH]; [done|]. cbn [md_loop].
  destruct (Nat.ltb_spec n (length lines)); [|lia].
  assert (md_round lines n r = Ok (Some (n, r))) as ->; [|exact IH].
  unfold md_round. rewrite Hl. cbn [default from_option id]. rewrite (bool_decide_false (find_first_not_of _ _ = None)) by done.
  destruct (Nat.ltb_spec (String.length l) 2) as [Hlen|]; cbn [orb].
  { exfalso. unfold is_md in Hmd. destruct l as [|c [|c' l]]; cbn in *; try done. lia. }
  rewrite bool_decide_true by done. rewrite Hs, Hd. destruct (Nat.leb_spec (length lines - 1) n); [done|lia].
Qed.
End Parser.

(** ** Paths of arrays *)

Section Paths.
Context {B : Boost}.

(** The name of an array is compared with the names of the block devices from a position
    behind its end: a device whose path is more than twice as long makes the lookup throw,
    as that of a disk does for an array md0. *)
Theorem array_lookup_throws name devName d block :
  d !! "DEVNAME" = Some devName -> (2 * String.length name < String.length devName)%nat -> (Z.of_nat (String.length devName) < 2 ^ 64)%Z ->
  getPathByDevName (d :: block) name = Throw (OutOfRange "basic_string::compare").
Proof.
  intros Hd Hl Hb. unfold getPathByDevName. cbn [walkUdevDevices]. unfold property. rewrite Hd.
  destruct (Nat.ltb_spec (String.length devName) (String.length name)); [lia|].
  unfold compare_from, length_diff. rewrite u64_small by (unfold in_u64; lia).
  destruct (Z.ltb_spec (Z.of_nat (String.length name)) (Z.of_nat (String.length devName) - Z.of_nat (String.length name))); [done|lia].
Qed.
End Paths.

(** ** Slots *)

Section Slots.
Context {B : Boost}.

(** Some row of the array has the slot. *)
Definition has_slot (rows : QueryData) (slot : Z) : Prop := exists (i : nat) r, rows !! i = Some r /\ r !! "slot" = Some (to_string slot).

(** While disks are added: a slot is missing or has a row, and the rows without a slot
    are those that are remembered, each once. *)
Record slots_inv (expected : list Z) (st : slots) : Prop := {
  inv_slots s : s ∈ expected -> s ∈ missingSlots st \/ has_slot (data st) s;
  inv_removed_nodup : NoDup (removedSlots st);
  inv_removed i : i ∈ removedSlots st -> exists r, data st !! i = Some r /\ r !! "slot" = None;
}.

Lemma has_slot_app rows rows' s : has_slot rows s -> has_slot (rows ++ rows') s.
Proof. intros (i & r & Hi & Hr). exists i, r. split; [by apply lookup_app_l_Some|done]. Qed.

Lemma drive_row_slot a n s slot : drive_row a n s slot !! "slot" = to_string <$> slot.
Proof. destruct slot; cbn; [by rewrite lookup_insert_eq|by vm_compute]. Qed.

Lemma has_slot_new rows a n s slot : has_slot (rows ++ [drive_row a n s (Some slot)]) slot.
Proof.
  exists (length rows), (drive_row a n s (Some slot)). split; [|by rewrite drive_row_slot].
  rewrite lookup_app_r, Nat.sub_diag by lia. done.
Qed.

Lemma add_disk_inv expected sys a array st disk st' :
  add_disk sys a array st disk = Ok st' -> slots_inv expected st -> slots_inv expected st'.
Proof.
  unfold add_disk. intros E [I1 I2 I3]. destruct (0 <? d_major disk)%Z; [|by injection E as <-].
  destruct (getDevName _ _ _) as [name|e]; [|done]. injection E as <-. destruct (slot_of array disk) as [n|] eqn:Es.
  - constructor; cbn [missingSlots removedSlots data].
    + intros s Hs. destruct (decide (s = n)) as [->|Hne]; [right; apply has_slot_new|].
      destruct (I1 s Hs) as [H|H]; [left; by apply list_elem_of_filter|right; by apply has_slot_app].
    + done.
    + intros i Hi. destruct (I3 i Hi) as (r & Hr & Hn). exists r. split; [by apply lookup_app_l_Some|done].
  - constructor; cbn [missingSlots removedSlots data].
    + intros s Hs. destruct (I1 s Hs) as [H|H]; [by left|right; by apply has_slot_app].
    + apply NoDup_snoc; [done|]. intros (r & Hr & _)%I3. apply lookup_lt_Some in Hr. lia.
    + intros i [Hi| ->%list_elem_of_singleton]%elem_of_app.
      * destruct (I3 i Hi) as (r & Hr & Hn). exists r. split; [by apply lookup_app_l_Some|done].
      * eexists. split; [rewrite lookup_app_r, Nat.sub_diag by lia; done|]. by rewrite drive_row_slot.
Qed.

Lemma add_disks_inv expected sys a path array n i st st' :
  add_disks sys a path array n i st = Ok st' -> slots_inv expected st -> slots_inv expected st'.
Proof.
  revert i st. induction n as [|n IH]; intros i st E Hi; cbn [add_disks] in E; [by injection E as <-|].
  destruct (s_disk sys path i) as [disk|]; [|by eapply IH].
  destruct (add_disk sys a array st disk) as [st1|e] eqn:Ea; [|done]. eapply IH; [exact E|]. by eapply add_disk_inv.
Qed.

Lemma has_slot_alter rows i r s slot : rows !! i = Some r -> r !! "slot" = None -> has_slot rows s ->
  has_slot (alter (insert "slot" (to_string slot)) i rows) s.
Proof.
  intros Hi Hr (j & r' & Hj & Hr'). exists j, r'. split; [|done]. rewrite list_lookup_alter_ne; [done|]. intros ->. congruence.
Qed.

Lemma has_slot_altered rows i (r : Row) slot : rows !! i = Some r -> has_slot (alter (insert "slot" (to_string slot)) i rows) slot.
Proof.
  intros Hi. exists i, (<["slot" := to_string slot]> r). split; [by rewrite list_lookup_alter_eq, Hi|apply lookup_insert_eq].
Qed.

Lemma fill_slots_spec a missing removed rows s :
  NoDup removed -> (forall i, i ∈ removed -> exists r, rows !! i = Some r /\ r !! "slot" = None) ->
  (s ∈ missing \/ has_slot rows s) -> has_slot (fill_slots a missing removed rows) s.
Proof.
  revert removed rows. induction missing as [|slot missing IH]; intros removed rows Hnd Hrem Hs; cbn [fill_slots].
  { destruct Hs as [H|H]; [by apply not_elem_of_nil in H|done]. }
  destruct removed as [|i removed].
  - apply IH; [constructor|by intros i Hi%not_elem_of_nil|].
    destruct Hs as [[->|H]%elem_of_cons|H]; [right; apply has_slot_new|by left|right; by apply has_slot_app].
  - apply NoDup_cons in Hnd as [Hni Hnd]. destruct (Hrem i) as (r & Hr & Hnone); [by left|]. apply IH; [done| |].
    + intros j Hj. destruct (Hrem j) as (r' & Hr' & Hn'); [by right|]. exists r'. split; [|done].
      rewrite list_lookup_alter_ne; [done|]. by intros ->.
    + destruct Hs as [[->|H]%elem_of_cons|H]; [right; by eapply has_slot_altered|by left|right; by eapply has_slot_alter].
Qed.

(** Every slot of an array has a row in the table of drives, whether a drive is in it, a
    drive was removed from it, or nothing is known about it. *)
Theorem every_slot_is_listed sys name path array rows rows' s :
  getPathByDevName (s_block sys) name = Ok path -> path <> "" -> s_array sys path = Some array ->
  getDrivesForArray sys name rows = Ok rows' -> (0 <= s < a_raid_disks array)%Z -> has_slot rows' s.
Proof.
  intros Hp Hne Ha E Hs. unfold getDrivesForArray in E. rewrite Hp in E. destruct (is_empty path) eqn:Ee; [by apply is_empty_true in Ee|].
  rewrite Ha in E. destruct (add_disks _ _ _ _ _ _ _) as [st|e] eqn:Ea; [|done]. injection E as <-.
  assert (slots_inv (expected_slots array) st) as [I1 I2 I3].
  { eapply add_disks_inv; [exact Ea|]. constructor; cbn; [intros x Hx; by left|constructor|by intros i Hi%not_elem_of_nil]. }
  apply fill_slots_spec; [done|done|]. apply I1. unfold expected_slots. apply list_elem_of_fmap. exists (Z.to_nat s).
  split; [lia|]. apply elem_of_seq. lia.
Qed.
End Slots.
