(* ===== verification/Smbios.v ===== *)
(** * SMBIOS (osquery/tables/system/posix/smbios_utils.cpp, linux/smbios_tables.cpp,
    osquery/filesystem/linux/mem.cpp)

    The walk over the structures of the SMBIOS data, the fields and strings of a structure
    and the tables made from them. The data is a list of bytes; a pointer into it is an
    offset, and a read outside the data has no value: [None]. *)
From S2P Require Import Prelude Boost Conversions Query SqlFunctions.

(** ** Descriptions *)

Section Descriptions.
Local Open Scope Z_scope.

Definition table := list (Z * string).
Definition find_in (t : table) (k : Z) : option string := (list_find (fun p => p.1 = k) t) ≫= fun p => Some p.2.2.

Definition kSMBIOSTypeDescriptions : table :=
  [(0, "BIOS Information"); (1, "System Information"); (2, "Base Board or Module Information");
   (3, "System Enclosure or Chassis"); (4, "Processor Information"); (5, "Memory Controller Information");
   (6, "Memory Module Information"); (7, "Cache Information"); (8, "Port Connector Information"); (9, "System Slots");
   (10, "On Board Devices Information"); (11, "OEM Strings"); (12, "System Configuration Options");
   (13, "BIOS Language Information"); (14, "Group Associations"); (15, "System Event Log"); (16, "Physical Memory Array");
   (17, "Memory Device"); (18, "32-bit Memory Error Information"); (19, "Memory Array Mapped Address");
   (20, "Memory Device Mapped Address"); (21, "Built-in Pointing Device"); (22, "Portable Battery"); (23, "System Reset");
   (24, "Hardware Security"); (25, "System Power Controls"); (26, "Voltage Probe"); (27, "Cooling Device");
   (28, "Temperature Probe"); (29, "Electrical Current Probe"); (30, "Out-of-Band Remote Access");
   (31, "Boot Integrity Services"); (32, "System Boot Information"); (33, "64-bit Memory Error Information");
   (34, "Management Device"); (35, "Management Device Component"); (36, "Management Device Threshold Data");
   (37, "Memory Channel"); (38, "IPMI Device Information"); (39, "System Power Supply"); (40, "Additional Information");
   (41, "Onboard Devices Extended Info"); (126, "Inactive"); (127, "End-of-Table"); (130, "Memory SPD Data");
   (131, "OEM Processor Type"); (132, "OEM Processor Bus Speed")].

Definition kSMBIOSMemoryFormFactorTable : table :=
  [(0x01, "Other"); (0x02, "Unknown"); (0x03, "SIMM"); (0x04, "SIP"); (0x05, "Chip"); (0x06, "DIP"); (0x07, "ZIP");
   (0x08, "Proprietary Card"); (0x09, "DIMM"); (0x0A, "TSOP"); (0x0B, "Row of chips"); (0x0C, "RIMM"); (0x0D, "SODIMM");
   (0x0E, "SRIMM"); (0x0F, "FB-DIMM")].

Definition kSMBIOSMemoryDetailsTable : table :=
  [(0, "Reserved"); (1, "Other"); (2, "Unknown"); (3, "Fast-paged"); (4, "Static column"); (5, "Pseudo-static");
   (6, "RAMBUS"); (7, "Synchronous"); (8, "CMOS"); (9, "EDO"); (10, "Window DRAM"); (11, "Cache DRAM");
   (12, "Non-volatile"); (13, "Registered (Buffered)"); (14, "Unbuffered (Unregistered)"); (15, "LRDIMM")].

Definition kSMBIOSMemoryTypeTable : table :=
  [(0x01, "Other"); (0x02, "Unknown"); (0x03, "DRAM"); (0x04, "EDRAM"); (0x05, "VRAM"); (0x06, "SRAM"); (0x07, "RAM");
   (0x08, "ROM"); (0x09, "FLASH"); (0x0A, "EEPROM"); (0x0B, "FEPROM"); (0x0C, "EPROM"); (0x0D, "CDRAM"); (0x0E, "3DRAM");
   (0x0F, "SDRAM"); (0x10, "SGRAM"); (0x11, "RDRAM"); (0x12, "DDR"); (0x13, "DDR2"); (0x14, "DDR2 FB-DIMM");
   (0x15, "RESERVED"); (0x16, "RESERVED"); (0x17, "RESERVED"); (0x18, "DDR3"); (0x19, "FBD2"); (0x1A, "DDR4");
   (0x1B, "LPDDR"); (0x1C, "LPDDR2"); (0x1D, "LPDDR3"); (0x1E, "LPDDR4")].

Definition kSMBIOSMemoryArrayLocationTable : table :=
  [(0x01, "Other"); (0x02, "Unknown"); (0x03, "System board or motherboard"); (0x04, "ISA add-on card");
   (0x05, "EISA add-on card"); (0x06, "PCI add-on card"); (0x07, "MCA add-on card"); (0x08, "PCMCIA add-on card");
   (0x09, "Proprietary add-on card"); (0x0A, "NuBus"); (0xA0, "PC-98/C20 add-on card"); (0xA1, "PC-98/C24 add-on card");
   (0xA2, "PC-98/E add-on card"); (0xA3, "PC-98/Local bus add-on card")].

Definition kSMBIOSMemoryArrayUseTable : table :=
  [(0x01, "Other"); (0x02, "Unknown"); (0x03, "System memory"); (0x04, "Video memory"); (0x05, "Flash memory");
   (0x06, "Non-volatile RAM"); (0x07, "Cache memory")].

Definition kSMBIOSMemoryArrayErrorCorrectionTypesTable : table :=
  [(0x01, "Other"); (0x02, "Unknown"); (0x03, "none"); (0x04, "Parity"); (0x05, "Single-bit ECC");
   (0x06, "Multi-bit ECC"); (0x07, "CRC")].

Definition kSMBIOSMemoryErrorTypeTable : table :=
  [(0x01, "Other"); (0x02, "Unknown"); (0x03, "OK"); (0x04, "Bad read"); (0x05, "Parity error"); (0x06, "Single-bit error");
   (0x07, "Double-bit error"); (0x08, "Multi-bit error"); (0x09, "Nibble error"); (0x0A, "Checksum error");
   (0x0B, "CRC error"); (0x0C, "Corrected single-bit error"); (0x0D, "Corrected error"); (0x0E, "Uncorrectable error")].

Definition kSMBIOSMemoryErrorGranularityTable : table :=
  [(0x01, "Other"); (0x02, "Unknown"); (0x03, "Device level"); (0x04, "Memory partition level")].

Definition kSMBIOSMemoryErrorOperationTable : table :=
  [(0x01, "Other"); (0x02, "Unknown"); (0x03, "Read"); (0x04, "Write"); (0x05, "Partial write")].

Definition kSMBIOSTypeBIOS : Z := 0.
Definition kSMBIOSTypeOEMStrings : Z := 11.
Definition kSMBIOSTypeMemoryArray : Z := 16.
Definition kSMBIOSTypeMemoryDevice : Z := 17.
Definition kSMBIOSTypeMemoryErrorInformation : Z := 18.
Definition kSMBIOSTypeMemoryArrayMappedAddress : Z := 19.
Definition kSMBIOSTypeMemoryDeviceMappedAddress : Z := 20.

End Descriptions.

(** ** Numbers *)

Definition hex_digit (z : Z) : ascii := nth (Z.to_nat z) (chars "0123456789abcdef") "0"%char.

(** The hexadecimal digits of a number of at most 64 bits, without leading zeros. *)
Fixpoint hex_go (fuel : nat) (z : Z) (acc : string) : string :=
  match fuel with
  | O => acc
  | S fuel =>
      let acc := String (hex_digit (z mod 16)) acc in
      if (z / 16 =? 0)%Z then acc else hex_go fuel (z / 16) acc
  end.
Definition hex_str (z : Z) : string := hex_go 16 z "".

(** [ss << std::hex << std::setw(width) << std::setfill('0') << num]. *)
Definition toHexStr (num : Z) (width : nat) : string :=
  let digits := hex_str num in "0x" +:+ repeat_char (width - String.length digits) "0"%char +:+ digits.

(** ** A structure *)

(** [SMBStructHeader]. *)
Record SMBStructHeader := mkHeader { h_type : Z; h_length : Z; h_handle : Z }.

Definition sizeof_header : nat := 4.

Section Data.
(** [table_data_], [table_size_] bytes. *)
Context (data : list ascii).

Definition byte (p : nat) : option Z := byte_of <$> data !! p.

Definition dmiToWord (address offset : nat) : option Z :=
  b1 ← byte (address + (offset + 1)); b0 ← byte (address + offset);
  Some (Z.lor (Z.shiftl b1 8) b0).

Definition dmiToDWord (address offset : nat) : option Z :=
  b3 ← byte (address + (offset + 3)); b2 ← byte (address + (offset + 2));
  b1 ← byte (address + (offset + 1)); b0 ← byte (address + offset);
  Some (Z.lor (Z.lor (Z.lor (Z.shiftl b3 24) (Z.shiftl b2 16)) (Z.shiftl b1 8)) b0).

Definition dmiToQWord (address offset : nat) : option Z :=
  b7 ← byte (address + (offset + 7)); b6 ← byte (address + (offset + 6));
  b5 ← byte (address + (offset + 5)); b4 ← byte (address + (offset + 4));
  b3 ← byte (address + (offset + 3)); b2 ← byte (address + (offset + 2));
  b1 ← byte (address + (offset + 1)); b0 ← byte (address + offset);
  Some (Z.lor (Z.lor (Z.lor (Z.lor (Z.lor (Z.lor (Z.lor (Z.shiftl b7 56) (Z.shiftl b6 48)) (Z.shiftl b5 40))
    (Z.shiftl b4 32)) (Z.shiftl b3 24)) (Z.shiftl b2 16)) (Z.shiftl b1 8)) b0).

Definition dmiWordToHexStr (address offset : nat) : option string :=
  word ← dmiToWord address offset; Some (toHexStr word 4).

(** The packed header at an address, little-endian. *)
Definition header_at (p : nat) : option SMBStructHeader :=
  t ← byte p; l ← byte (p + 1); h ← dmiToWord p 2; Some (mkHeader t l h).

(** ** Strings *)

(** [std::string str(bp)]: the bytes up to the next NUL. *)
Fixpoint c_string (fuel : nat) (p : nat) : option (list ascii) :=
  match fuel with
  | O => None
  | S fuel =>
      c ← data !! p;
      if bool_decide (c = "000"%char) then Some [] else rest ← c_string fuel (p + 1); Some (c :: rest)
  end.

(** The loop over the characters of one string; [size] counts the bytes passed. *)
Fixpoint skip_string (fuel : nat) (maxlen size bp : nat) : option (nat * nat) :=
  match fuel with
  | O => None
  | S fuel =>
      c ← data !! bp;
      if bool_decide (c = "000"%char) then Some (size, bp)
      else if (maxlen - 1 <? size + 1)%nat then Some ((size + 1)%nat, bp)
      else skip_string fuel maxlen (size + 1) (bp + 1)
  end.

(** The loop over the strings before the one asked for; [index] is what is left of it. *)
Fixpoint skip_strings (index : nat) (maxlen size bp : nat) : option (nat * nat) :=
  match index with
  | O | 1%nat => Some (size, bp)
  | S index =>
      if (maxlen - 1 <? size)%nat then Some (size, bp)
      else
        sb ← skip_string (S (length data)) maxlen size bp;
        skip_strings index maxlen (sb.1 + 1) (sb.2 + 1)
  end.

Definition trim_right (s : string) : string := trim_right_if Ascii.is_space s.

Definition dmiString (text : nat) (index : Z) (maxlen : nat) : option string :=
  if (index =? 0)%Z || (maxlen =? 0)%nat then Some ""
  else
    last ← data !! (text + (maxlen - 1))%nat;
    if negb (bool_decide (last = "000"%char)) then Some ""
    else
      sb ← skip_strings (Z.to_nat index) maxlen 0 text;
      if (maxlen - 1 <? sb.1)%nat then Some ""
      else s ← c_string (S (length data)) sb.2; Some (trim_right (of_chars s)).

(** ** The walk *)

(** The search for the two NUL bytes that end the strings of a structure. *)
Fixpoint find_end (fuel : nat) (next_table : nat) : option nat :=
  match fuel with
  | O => None
  | S fuel =>
      if (next_table + sizeof_header <=? length data)%nat then
        b0 ← byte next_table;
        if (b0 =? 0)%Z then
          b1 ← byte (next_table + 1);
          if (b1 =? 0)%Z then Some (next_table + 2)%nat else find_end fuel (next_table + 1)
        else find_end fuel (next_table + 1)
      else Some next_table
  end.

(** What a predicate is given: the index, the header, the address of the structure and of
    its strings and the size of both. *)
Record structure := mkStructure { st_index : nat; st_header : SMBStructHeader; st_address : nat; st_text : nat; st_size : nat }.

Fixpoint walk {R} (predicate : structure -> R -> option R) (fuel index table : nat) (results : R) : option R :=
  match fuel with
  | O => None
  | S fuel =>
      if (table + sizeof_header <=? length data)%nat then
        header ← header_at table;
        let formatted := (table + Z.to_nat (h_length header))%nat in
        if (length data <? formatted)%nat then Some results
        else if (h_length header =? 0)%Z && (h_handle header =? 0)%Z then Some results
        else
          next_table ← find_end (S (length data)) formatted;
          results ← predicate (mkStructure index header table formatted (next_table - table)) results;
          walk predicate fuel (index + 1) next_table results
      else Some results
  end.

Definition tables {R} (predicate : structure -> R -> option R) (results : R) : option R :=
  walk predicate (S (length data)) 0 0 results.

(** ** Rows *)

Definition put_found (name : string) (o : option string) (r : Row) : Row :=
  match o with Some v => <[name := v]> r | None => r end.

Definition put_unless (skip : list Z) (name : string) (z : Z) (v : string) (r : Row) : Row :=
  if bool_decide (z ∈ skip) then r else <[name := v]> r.

Definition genSMBIOSTable (md5 : list ascii -> string) (s : structure) (results : QueryData) : option QueryData :=
  let hdr := st_header s in
  content ← mapM (fun i => data !! (st_address s + i)%nat) (seq 0 (st_size s));
  Some (results ++ [{["number" := to_string (Z.of_nat (st_index s)); "type" := to_string (h_type hdr);
    "description" := default "Unknown" (find_in kSMBIOSTypeDescriptions (h_type hdr));
    "handle" := to_string (h_handle hdr); "header_size" := to_string (h_length hdr);
    "size" := to_string (Z.of_nat (st_size s)); "md5" := md5 content]}]).

(** [size - hdr->length]. *)
Definition text_size (s : structure) : nat := st_size s - Z.to_nat (h_length (st_header s)).

Definition bit_name (t : table) (bitField : Z) (i : nat) : option string :=
  if Z.testbit bitField (Z.of_nat i) then name ← find_in t (Z.of_nat i); Some (name +:+ " ") else Some "".

(** [table.at(i)] of a key that is not there throws: no value here. *)
Definition dmiBitFieldToStr (bitField : Z) (t : table) : option string :=
  names ← mapM (bit_name t bitField) (seq 0 (length t));
  let result := foldr String.append "" names in
  Some (String.substring 0 (String.length result - 1) result).

Definition genSMBIOSMemoryDevices (s : structure) (results : QueryData) : option QueryData :=
  let hdr := st_header s in
  let address := st_address s in
  if negb (h_type hdr =? kSMBIOSTypeMemoryDevice)%Z || (st_size s <? 0x26 + 4)%nat then Some results
  else
    handle ← dmiWordToHexStr address 0x02;
    array_handle ← dmiWordToHexStr address 0x04;
    form ← byte (address + 0x0E);
    total_width ← dmiToWord address 0x08;
    data_width ← dmiToWord address 0x0A;
    memBits ← dmiToWord address 0x0C;
    extended ← (if (memBits =? 0x7FFF)%Z then dmiToDWord address 0x1C else Some memBits);
    set ← byte (address + 0x0F);
    let maxlen := text_size s in
    i ← byte (address + 0x10); device_locator ← dmiString (st_text s) i maxlen;
    i ← byte (address + 0x11); bank_locator ← dmiString (st_text s) i maxlen;
    memory_type ← byte (address + 0x12);
    details ← dmiToWord address 0x13;
    memory_type_details ← dmiBitFieldToStr details kSMBIOSMemoryDetailsTable;
    max_speed ← dmiToWord address 0x15;
    configured_clock_speed ← dmiToWord address 0x20;
    i ← byte (address + 0x17); manufacturer ← dmiString (st_text s) i maxlen;
    i ← byte (address + 0x18); serial_number ← dmiString (st_text s) i maxlen;
    i ← byte (address + 0x19); asset_tag ← dmiString (st_text s) i maxlen;
    i ← byte (address + 0x1A); part_number ← dmiString (st_text s) i maxlen;
    min_voltage ← dmiToWord address 0x22;
    max_voltage ← dmiToWord address 0x24;
    configured_voltage ← dmiToWord address 0x26;
    let r : Row := {["handle" := handle; "array_handle" := array_handle]} in
    let r := put_found "form_factor" (find_in kSMBIOSMemoryFormFactorTable form) r in
    let r := put_unless [0xFFFF%Z] "total_width" total_width (to_string total_width) r in
    let r := put_unless [0xFFFF%Z] "data_width" data_width (to_string data_width) r in
    let r := put_unless [0xFFFF%Z] "size" memBits (to_string extended) r in
    let r := put_unless [0xFF%Z] "set" set (to_string set) r in
    let r := <["device_locator" := device_locator]> r in
    let r := <["bank_locator" := bank_locator]> r in
    let r := put_found "memory_type" (find_in kSMBIOSMemoryTypeTable memory_type) r in
    let r := <["memory_type_details" := memory_type_details]> r in
    let r := put_unless [0x0000%Z; 0xFFFF%Z] "max_speed" max_speed (to_string max_speed) r in
    let r := put_unless [0x0000%Z; 0xFFFF%Z] "configured_clock_speed" configured_clock_speed (to_string configured_clock_speed) r in
    let r := <["manufacturer" := manufacturer]> r in
    let r := <["serial_number" := serial_number]> r in
    let r := <["asset_tag" := asset_tag]> r in
    let r := <["part_number" := part_number]> r in
    let r := put_unless [0%Z] "min_voltage" min_voltage (to_string min_voltage) r in
    let r := put_unless [0%Z] "max_voltage" max_voltage (to_string max_voltage) r in
    let r := put_unless [0%Z] "configured_voltage" configured_voltage (to_string configured_voltage) r in
    Some (results ++ [r]).

Definition genSMBIOSMemoryArrays (s : structure) (results : QueryData) : option QueryData :=
  let address := st_address s in
  if negb (h_type (st_header s) =? kSMBIOSTypeMemoryArray)%Z || (st_size s <? 0x0F + 8)%nat then Some results
  else
    handle ← dmiWordToHexStr address 0x02;
    location ← byte (address + 0x04);
    use ← byte (address + 0x05);
    errCorrection ← byte (address + 0x06);
    cap ← dmiToDWord address 0x07;
    max_capacity ← (if (0x80000000 <=? cap)%Z then q ← dmiToQWord address 0x0F; Some (q / 1073741824)%Z else Some (cap / 1048576)%Z);
    errHandle ← dmiToWord address 0x0B;
    number ← dmiToWord address 0x0D;
    let r : Row := {["handle" := handle]} in
    let r := put_found "location" (find_in kSMBIOSMemoryArrayLocationTable location) r in
    let r := put_found "use" (find_in kSMBIOSMemoryArrayUseTable use) r in
    let r := put_found "memory_error_correction" (find_in kSMBIOSMemoryArrayErrorCorrectionTypesTable errCorrection) r in
    let r := <["max_capacity" := to_string max_capacity]> r in
    let r := put_unless [0xFFFE%Z; 0xFFFF%Z] "memory_error_info_handle" errHandle (toHexStr errHandle 4) r in
    let r := <["number_memory_devices" := to_string number]> r in
    Some (results ++ [r]).

(** The two address columns of both kinds of mapped addresses: 32 bits at 4, or 64 bits at
    [wide]. *)
Definition mapped_range (address wide : nat) : option (string * string) :=
  addr ← dmiToDWord address 0x04;
  if negb (addr =? 0xFFFFFFFF)%Z then
    last ← dmiToDWord address 0x08; Some (toHexStr addr 8, toHexStr last 8)
  else
    first ← dmiToQWord address wide; last ← dmiToQWord address (wide + 8);
    Some (toHexStr first 12, toHexStr last 12).

Definition genSMBIOSMemoryArrayMappedAddresses (s : structure) (results : QueryData) : option QueryData :=
  let address := st_address s in
  if negb (h_type (st_header s) =? kSMBIOSTypeMemoryArrayMappedAddress)%Z || (st_size s <? 0x17 + 8)%nat then Some results
  else
    handle ← dmiWordToHexStr address 0x02;
    range ← mapped_range address 0x0F;
    array_handle ← dmiWordToHexStr address 0x0C;
    width ← byte (address + 0x0E);
    Some (results ++ [{["handle" := handle; "starting_address" := range.1; "ending_address" := range.2;
      "memory_array_handle" := array_handle; "partition_width" := to_string width]}]).

Definition genSMBIOSMemoryErrorInfo (s : structure) (results : QueryData) : option QueryData :=
  let address := st_address s in
  if negb (h_type (st_header s) =? kSMBIOSTypeMemoryErrorInformation)%Z || (st_size s <? 0x13 + 4)%nat then Some results
  else
    handle ← dmiWordToHexStr address 0x02;
    errType ← byte (address + 0x04);
    errGran ← byte (address + 0x05);
    errOp ← byte (address + 0x06);
    syndrome ← dmiToDWord address 0x07;
    array_error ← dmiToDWord address 0x0B;
    device_error ← dmiToDWord address 0x0F;
    resolution ← dmiToDWord address 0x13;
    let r : Row := {["handle" := handle]} in
    let r := put_found "error_type" (find_in kSMBIOSMemoryErrorTypeTable errType) r in
    let r := put_found "error_granularity" (find_in kSMBIOSMemoryErrorGranularityTable errGran) r in
    let r := put_found "error_operation" (find_in kSMBIOSMemoryErrorOperationTable errOp) r in
    let r := put_unless [0%Z] "vendor_syndrome" syndrome (toHexStr syndrome 8) r in
    let r := put_unless [0x80000000%Z] "memory_array_error_address" array_error (toHexStr array_error 8) r in
    let r := put_unless [0x80000000%Z] "device_error_address" device_error (toHexStr device_error 8) r in
    let r := put_unless [0x80000000%Z] "error_resolution" resolution (toHexStr resolution 8) r in
    Some (results ++ [r]).

Definition genSMBIOSMemoryDeviceMappedAddresses (s : structure) (results : QueryData) : option QueryData :=
  let address := st_address s in
  if negb (h_type (st_header s) =? kSMBIOSTypeMemoryDeviceMappedAddress)%Z || (st_size s <? 0x1B + 8)%nat then Some results
  else
    handle ← dmiWordToHexStr address 0x02;
    range ← mapped_range address 0x13;
    device_handle ← dmiWordToHexStr address 0x0C;
    row_position ← byte (address + 0x10);
    position ← byte (address + 0x11);
    depth ← byte (address + 0x12);
    Some (results ++ [{["handle" := handle; "starting_address" := range.1; "ending_address" := range.2;
      "memory_device_handle" := device_handle; "partition_row_position" := to_string row_position;
      "interleave_position" := to_string position; "interleave_data_depth" := to_string depth]}]).

Definition oem_row (s : structure) (handle : string) (i : nat) : option Row :=
  value ← dmiString (st_text s) (Z.of_nat i) (text_size s);
  Some {["handle" := handle; "number" := to_string (Z.of_nat i); "value" := value]}.

Definition genSMBIOSOEMStrings (s : structure) (results : QueryData) : option QueryData :=
  let address := st_address s in
  if negb (h_type (st_header s) =? kSMBIOSTypeOEMStrings)%Z || (st_size s <? 0x04 + 1)%nat then Some results
  else
    handle ← dmiWordToHexStr address 0x02;
    numStrings ← byte (address + 0x04);
    rows ← mapM (oem_row s handle) (seq 1 (Z.to_nat numStrings));
    Some (results ++ rows).

(** The predicate of [genPlatformInfo]. *)
Definition platform_row (s : structure) (results : QueryData) : option QueryData :=
  let address := st_address s in
  if negb (h_type (st_header s) =? kSMBIOSTypeBIOS)%Z || (st_size s <? 0x15)%nat then Some results
  else
    let maxlen := text_size s in
    i ← byte (address + 0x04); vendor ← dmiString (st_text s) i maxlen;
    i ← byte (address + 0x05); version ← dmiString (st_text s) i maxlen;
    i ← byte (address + 0x08); date ← dmiString (st_text s) i maxlen;
    hi ← byte (address + 0x07);
    lo ← byte (address + 0x06);
    blocks ← byte (address + 0x09);
    major ← byte (address + 0x14);
    minor ← byte (address + 0x15);
    Some (results ++ [{["vendor" := vendor; "version" := version; "date" := date;
      "address" := toHexStr (Z.shiftl hi 8 + lo)%Z 4; "size" := to_string (Z.shiftl (blocks + 1) 6 * 1024)%Z;
      "revision" := to_string major +:+ "." +:+ to_string minor; "volume_size" := "0"; "extra" := ""]}]).
End Data.

(** ** Physical memory *)

Definition kLinuxMaxMemRead : Z := 0x10000.

Inductive read_result := ReadBytes (bytes : list ascii) | ReadError (errno : Z).
Definition EINTR : Z := 4.

(** /dev/mem: [mm_mmap] is the content of the mapping, if there is one. *)
Class RawMemory (W : Type) := {
  mm_isReadable : M W Status;
  mm_open : M W Z;
  mm_close : Z -> M W unit;
  mm_lseek : Z -> Z -> M W Z;
  mm_read : Z -> Z -> M W read_result;
  mm_mmap : Z -> Z -> Z -> M W (option (list ascii));
  mm_pagesize : Z;
}.

Section Linux.
Context {W : Type} {RM : RawMemory W} {B : Boost}.
Context (FLAGS_disable_memory : bool) (readFile : string -> M W (Status * string)) (isReadable : string -> M W Status).
Local Open Scope Z_scope.

(** The loop of [readMem]: [None] when it has not ended within the fuel. *)
Fixpoint read_loop (fuel : nat) (fd length bytes_read : Z) (buffer : list ascii) : M W (option (Status * list ascii)) :=
  let total_read := Z.of_nat (List.length buffer) in
  if negb (total_read =? length) && negb (bytes_read =? 0) then
    match fuel with
    | O => ret None
    | S fuel =>
        let* r := mm_read fd (length - total_read) in
        match r with
        | ReadError errno =>
            if negb (errno =? EINTR) then ret (Some (mkStatus 1 "Cannot read requested length", buffer))
            else read_loop fuel fd length (-1) buffer
        | ReadBytes bytes => read_loop fuel fd length (Z.of_nat (List.length bytes)) (buffer ++ bytes)
        end
    end
  else ret (Some (if negb (total_read =? length) then mkStatus 1 "Read incorrect number of bytes" else mkStatus 0 "OK", buffer)).

Definition readMem (fuel : nat) (fd base length : Z) : M W (option (Status * list ascii)) :=
  let* pos := mm_lseek fd base in
  if pos =? -1 then ret (Some (mkStatus 1 "Cannot seek to physical base", []))
  else read_loop fuel fd length (-1) [].

(** The buffer of a failed read is null. *)
Definition readRawMem (fuel : nat) (base length : Z) : M W (option (Status * option (list ascii))) :=
  if FLAGS_disable_memory then ret (Some (mkStatus 1 "Configuration has disabled physical memory reads", None))
  else if kLinuxMaxMemRead <? length then ret (Some (mkStatus 1 "Cowardly refusing to read a large number of bytes", None))
  else
    let* status := mm_isReadable in
    if negb (Status_ok status) then ret (Some (status, None))
    else
      let* fd := mm_open in
      if fd <? 0 then ret (Some (mkStatus 1 "Cannot open /dev/mem", None))
      else
        let offset := base mod mm_pagesize in
        let* map := mm_mmap fd (offset + length) (base - offset) in
        match map with
        | None =>
            let* r := readMem fuel fd base length in
            match r with
            | None => ret None
            | Some (st, buffer) =>
                mm_close fd ;;;
                ret (Some (if negb (Status_ok st) then (mkStatus 1 "Cannot memory map or seek/read memory", None)
                           else (mkStatus 0 "OK", Some buffer)))
            end
        | Some content =>
            mm_close fd ;;;
            ret (Some (mkStatus 0 "OK", Some (take (Z.to_nat length) (drop (Z.to_nat offset) content))))
        end.

(** ** The parser of Linux *)

Definition kLinuxSMBIOSRawAddress_ : Z := 0xF0000.
Definition kLinuxSMBIOSRawLength_ : Z := 0x10000.
Definition kLinuxEFISystabPath : string := "/sys/firmware/efi/systab".
Definition kLinuxDMISysfsPath : string := "/sys/firmware/dmi/tables/DMI".
Definition sizeof_entry : Z := 15.

(** [data_], [table_data_] with its bytes and [table_size_]. *)
Record LinuxSMBIOSParser := mkParser { data_ : option (list ascii); table_data_ : option (list ascii); table_size_ : Z }.

Definition valid (p : LinuxSMBIOSParser) : bool := bool_decide (is_Some (table_data_ p)).

Definition discoverTables (fuel : nat) (address length : Z) (p : LinuxSMBIOSParser) : M W (option (bool * LinuxSMBIOSParser)) :=
  let* r := readRawMem fuel address length in
  match r with
  | None => ret None
  | Some (status, buffer) =>
      let p' := mkParser (data_ p) buffer (table_size_ p) in
      ret (Some (if negb (Status_ok status) || negb (valid p') then (false, p')
                 else (true, mkParser (data_ p) buffer length)))
  end.

(** The search for the entry point; a read outside of the data has no result. *)
Fixpoint search_entry (rounds fuel : nat) (data : list ascii) (length offset : Z) (p : LinuxSMBIOSParser)
    : M W (option LinuxSMBIOSParser) :=
  match rounds with
  | O => ret None
  | S rounds =>
      if offset <=? u64 (length - sizeof_entry) then
        let o := Z.to_nat offset in
        match mapM (fun i => data !! (o + i)%nat) (seq 0 5) with
        | None => ret None
        | Some anchor =>
            if bool_decide (anchor = chars "_DMI_") then
              match dmiToWord data o 6, dmiToDWord data o 8 with
              | Some tableLength, Some tableAddress =>
                  let* r := discoverTables fuel tableAddress tableLength p in
                  match r with
                  | None => ret None
                  | Some (true, p) => ret (Some p)
                  | Some (false, p) => search_entry rounds fuel data length (offset + 16) p
                  end
              | _, _ => ret None
              end
            else search_entry rounds fuel data length (offset + 16) p
        end
      else ret (Some p)
  end.

Definition search_rounds (data : list ascii) : nat := (2 + List.length data / 16)%nat.

Definition readFromAddress (fuel : nat) (address length : Z) (p : LinuxSMBIOSParser) : M W (option LinuxSMBIOSParser) :=
  let* r := readRawMem fuel address length in
  match r with
  | None => ret None
  | Some (status, buffer) =>
      let p := mkParser buffer (table_data_ p) (table_size_ p) in
      match buffer with
      | Some data => if negb (Status_ok status) then ret (Some p) else search_entry (search_rounds data) fuel data length 0 p
      | None => ret (Some p)
      end
  end.

(** The number of bytes to read at an address of the system table. *)
Definition systab_size (address : Z) : Z :=
  if (address <? 0x100000) && (0x100000 <? u64 (address + 0x100)) then 0x100000 - address else 0x100.

Definition systab_line (fuel : nat) (line : string) (p : LinuxSMBIOSParser) : M W (option LinuxSMBIOSParser) :=
  if String.prefix "SMBIOS" line then
    match split line "=" with
    | [_; value] =>
        if (2 <? String.length value)%nat then
          let address := takeOr (tryTo TLongLong value 16) 0 in
          readFromAddress fuel (u64 address) (systab_size address) p
        else ret (Some p)
    | _ => ret (Some p)
    end
  else ret (Some p).

Fixpoint systab_lines (fuel : nat) (lines : list string) (p : LinuxSMBIOSParser) : M W (option LinuxSMBIOSParser) :=
  match lines with
  | [] => ret (Some p)
  | line :: lines =>
      let* r := systab_line fuel line p in
      match r with Some p => systab_lines fuel lines p | None => ret None end
  end.

Definition readFromSystab (fuel : nat) (p : LinuxSMBIOSParser) : M W (option LinuxSMBIOSParser) :=
  let* (status, content) := readFile kLinuxEFISystabPath in
  if negb (Status_ok status) then ret (Some p)
  else systab_lines fuel (split content (String "010" "")) p.

(** The status of the read is not looked at. *)
Definition readFromSysfs (sysfs_dmi : string) (p : LinuxSMBIOSParser) : M W LinuxSMBIOSParser :=
  let* (_, content) := readFile sysfs_dmi in
  ret (mkParser (data_ p) (Some (chars content)) (Z.of_nat (String.length content))).

Definition discover (fuel : nat) (p : LinuxSMBIOSParser) : M W (option (bool * LinuxSMBIOSParser)) :=
  let* sysfs := isReadable kLinuxDMISysfsPath in
  let* r :=
    if Status_ok sysfs then let* p := readFromSysfs kLinuxDMISysfsPath p in ret (Some p)
    else
      let* systab := isReadable kLinuxEFISystabPath in
      if Status_ok systab then readFromSystab fuel p
      else readFromAddress fuel kLinuxSMBIOSRawAddress_ kLinuxSMBIOSRawLength_ p in
  ret (match r with Some p => Some (valid p, p) | None => None end).

(** The tables: discovery, and the walk with the predicate of the table. *)
Definition gen_table (predicate : list ascii -> structure -> QueryData -> option QueryData) (fuel : nat) : M W (option QueryData) :=
  let* r := discover fuel (mkParser None None 0) in
  ret (match r with
       | Some (true, p) => match table_data_ p with Some data => tables data (predicate data) [] | None => Some [] end
       | Some (false, _) => Some []
       | None => None
       end).

Definition genSMBIOSTables (md5 : list ascii -> string) := gen_table (fun data => genSMBIOSTable data md5).
Definition genMemoryDevices := gen_table genSMBIOSMemoryDevices.
Definition genMemoryArrays := gen_table genSMBIOSMemoryArrays.
Definition genMemoryArrayMappedAddresses := gen_table genSMBIOSMemoryArrayMappedAddresses.
Definition genMemoryErrorInfo := gen_table genSMBIOSMemoryErrorInfo.
Definition genMemoryDeviceMappedAddresses := gen_table genSMBIOSMemoryDeviceMappedAddresses.
Definition genOEMStrings := gen_table genSMBIOSOEMStrings.
Definition genPlatformInfo := gen_table platform_row.
End Linux.

(** * SMBIOS: the walk tiles the data, strings are the ones asked for, reads stay inside

    The structures the walk visits lie one behind the other in the data; a string is the
    one its number asks for; every table but one reads only inside its structure. *)

Create HintDb inside.

Lemma is_Some_bind {A C} (m : option A) (f : A -> option C) :
  is_Some m -> (forall x, m = Some x -> is_Some (f x)) -> is_Some (m ≫= f).
Proof. intros [x ->] H. by apply H. Qed.

Lemma is_Some_Some {A} (x : A) : is_Some (Some x).
Proof. by eexists. Qed.

#[export] Hint Resolve is_Some_Some : inside.

(** A sequence of reads has a value when each of them has one. *)
Ltac inside :=
  repeat match goal with
    | |- is_Some (_ ≫= _) => apply is_Some_bind; [|intros ? ?]
    | |- is_Some (let _ := _ in _) => cbv zeta
    | |- is_Some (if ?b then _ else _) => destruct b
    | |- is_Some (match ?x with Some _ => _ | None => _ end) => destruct x
    end; try solve [eauto with inside lia].

Section Reads.
Context (data : list ascii).

Lemma byte_inside p : (p < length data)%nat -> is_Some (byte data p).
Proof. intros H. apply fmap_is_Some. by apply lookup_lt_is_Some. Qed.

Lemma word_inside a o : (a + o + 2 <= length data)%nat -> is_Some (dmiToWord data a o).
Proof. intros. unfold dmiToWord. inside; apply byte_inside; lia. Qed.

Lemma dword_inside a o : (a + o + 4 <= length data)%nat -> is_Some (dmiToDWord data a o).
Proof. intros. unfold dmiToDWord. inside; apply byte_inside; lia. Qed.

Lemma qword_inside a o : (a + o + 8 <= length data)%nat -> is_Some (dmiToQWord data a o).
Proof. intros. unfold dmiToQWord. inside; apply byte_inside; lia. Qed.

Lemma word_hex_inside a o : (a + o + 2 <= length data)%nat -> is_Some (dmiWordToHexStr data a o).
Proof. intros. unfold dmiWordToHexStr. inside. by apply word_inside. Qed.

Lemma header_inside p : (p + sizeof_header <= length data)%nat -> is_Some (header_at data p).
Proof. unfold sizeof_header. intros. unfold header_at. inside; [apply byte_inside; lia..|apply word_inside; lia]. Qed.

Lemma byte_range p b : byte data p = Some b -> (0 <= b < 256)%Z.
Proof.
  unfold byte. intros (c & _ & ->)%fmap_Some. unfold byte_of. pose proof (Ascii.nat_ascii_bounded c). lia.
Qed.
End Reads.

(** ** Strings *)

Section Strings.
Context (data : list ascii).

(** Strings as they are stacked: each followed by a NUL. *)
Definition stacked (l : list (list ascii)) : list ascii := concat ((fun s => s ++ ["000"%char]) <$> l).
Definition no_nul (s : list ascii) : Prop := "000"%char ∉ s.

Lemma region_lookup (text : nat) (region : list ascii) i :
  take (length region) (drop text data) = region -> (i < length region)%nat -> data !! (text + i)%nat = region !! i.
Proof. intros H Hi. rewrite <- lookup_drop, <- H. by rewrite lookup_take_lt. Qed.

Lemma c_string_run fuel p s rest : no_nul s -> (length s < fuel)%nat -> drop p data = s ++ "000"%char :: rest ->
  c_string data fuel p = Some s.
Proof.
  revert fuel p. induction s as [|c s IH]; intros fuel p Hn Hf Hd; (destruct fuel as [|fuel]; [simpl in Hf; lia|]); cbn [c_string].
  - by rewrite <- (Nat.add_0_r p), <- lookup_drop, Hd.
  - assert (data !! p = Some c) as -> by (by rewrite <- (Nat.add_0_r p), <- lookup_drop, Hd). cbn [mbind option_bind].
    apply not_elem_of_cons in Hn as [Hc Hn]. rewrite bool_decide_eq_false_2 by congruence.
    rewrite (IH fuel); [done|done|simpl in Hf; lia|]. by rewrite <- drop_drop, Hd.
Qed.

Lemma skip_string_run fuel maxlen size p s rest : no_nul s -> (length s < fuel)%nat -> (size + length s < maxlen)%nat ->
  drop p data = s ++ "000"%char :: rest ->
  skip_string data fuel maxlen size p = Some ((size + length s)%nat, (p + length s)%nat).
Proof.
  revert fuel p size. induction s as [|c s IH]; intros fuel p size Hn Hf Hm Hd; (destruct fuel as [|fuel]; [simpl in Hf; lia|]); cbn [skip_string].
  - assert (data !! p = Some "000"%char) as -> by (by rewrite <- (Nat.add_0_r p), <- lookup_drop, Hd).
    cbn [mbind option_bind]. by rewrite bool_decide_eq_true_2, !Nat.add_0_r by done.
  - assert (data !! p = Some c) as -> by (by rewrite <- (Nat.add_0_r p), <- lookup_drop, Hd). cbn [mbind option_bind].
    apply not_elem_of_cons in Hn as [Hc Hn]. rewrite bool_decide_eq_false_2 by congruence. simpl in Hm, Hf.
    destruct (Nat.ltb_spec (maxlen - 1) (size + 1)); [lia|].
    rewrite (IH fuel); [f_equal; f_equal; simpl; lia|done|lia|lia|]. by rewrite <- drop_drop, Hd.
Qed.

Lemma skip_strings_S index maxlen size bp :
  skip_strings data (S (S index)) maxlen size bp =
  if (maxlen - 1 <? size)%nat then Some (size, bp)
  else skip_string data (S (length data)) maxlen size bp ≫= fun sb => skip_strings data (S index) maxlen (sb.1 + 1) (sb.2 + 1).
Proof. done. Qed.

Lemma skip_strings_run l index size p maxlen rest : Forall no_nul l -> (1 <= index)%nat ->
  drop p data = stacked l ++ rest -> (size + length (stacked l) = maxlen)%nat -> (0 < maxlen)%nat ->
  skip_strings data index maxlen size p =
    Some (let n := length (stacked (take (index - 1) l)) in ((size + n)%nat, (p + n)%nat)).
Proof.
  revert index size p. induction l as [|s l IH]; intros index size p Hl Hi Hd Hm Hpos.
  - rewrite take_nil. cbn. rewrite !Nat.add_0_r. destruct index as [|[|index]]; [done..|]. rewrite skip_strings_S.
    cbn in Hm. destruct (Nat.ltb_spec (maxlen - 1) size); [done|lia].
  - apply Forall_cons in Hl as [Hs Hl]. destruct index as [|[|index]]; [lia|by cbn; rewrite !Nat.add_0_r|].
    rewrite skip_strings_S. cbn [stacked fmap list_fmap concat] in Hd, Hm. fold (stacked l) in Hd, Hm.
    rewrite !length_app in Hm. simpl in Hm. destruct (Nat.ltb_spec (maxlen - 1) size); [lia|].
    rewrite <- !app_assoc in Hd. simpl in Hd.
    assert (length s < S (length data))%nat as Hls.
    { apply (f_equal length) in Hd. rewrite length_drop, length_app in Hd. simpl in Hd. lia. }
    rewrite (skip_string_run _ maxlen size p s (stacked l ++ rest)) by (done || lia). cbn [mbind option_bind fst snd].
    rewrite (IH (S index)); [|done|lia| |lia|done].
    + replace (S (S index) - 1)%nat with (S index) by lia. cbn [take]. replace (S index - 1)%nat with index by lia.
      cbn zeta. cbn [stacked fmap list_fmap concat]. fold (stacked (take index l)). rewrite !length_app. simpl. f_equal. f_equal; lia.
    + replace (p + length s + 1)%nat with (p + (length s + 1))%nat by lia. rewrite <- drop_drop, Hd.
      rewrite (cons_middle _ s), app_assoc. by rewrite drop_app_length' by (rewrite length_app; simpl; lia).
Qed.

Lemma stacked_split l i s : l !! i = Some s ->
  stacked l = stacked (take i l) ++ s ++ "000"%char :: stacked (drop (S i) l).
Proof.
  intros H. rewrite <- (take_drop_middle _ _ _ H) at 1. unfold stacked at 1. rewrite fmap_app, concat_app. cbn.
  by rewrite <- app_assoc.
Qed.

Lemma stacked_last l : l <> [] -> stacked l !! (length (stacked l) - 1)%nat = Some "000"%char.
Proof.
  destruct l as [|x l _] using rev_ind; [done|]. intros _. unfold stacked. rewrite fmap_app, concat_app. cbn. rewrite app_nil_r, app_assoc.
  rewrite length_app. simpl. rewrite lookup_app_r by lia. by replace (_ - _)%nat with 0%nat by lia.
Qed.

Lemma dmiString_run text index maxlen l :
  Forall no_nul l -> take maxlen (drop text data) = stacked l -> length (stacked l) = maxlen -> (0 <= index)%Z ->
  dmiString data text index maxlen
  = Some (if (index =? 0)%Z then "" else default "" ((fun s => trim_right (of_chars s)) <$> l !! (Z.to_nat index - 1)%nat)).
Proof.
  intros Hl Ht Hm Hi. unfold dmiString. destruct (Z.eqb_spec index 0) as [|Hi0]; [done|]. cbn [orb].
  destruct (Nat.eqb_spec maxlen 0) as [->|Hm0].
  { destruct l as [|s l]; [by rewrite lookup_nil|]. cbn [stacked fmap list_fmap concat] in Hm. rewrite !length_app in Hm. simpl in Hm. lia. }
  rewrite <- Hm in Ht. rewrite (region_lookup text (stacked l) (maxlen - 1) Ht) by lia. rewrite <- Hm at 1.
  rewrite stacked_last by (intros ->; cbn in Hm; lia). cbn [mbind option_bind]. rewrite bool_decide_eq_true_2 by done. cbn [negb].
  assert (drop text data = stacked l ++ drop (length (stacked l)) (drop text data)) as Hd by (by rewrite <- Ht at 1; rewrite take_drop).
  revert Hd. generalize (drop (length (stacked l)) (drop text data)). intros rest Hd.
  rewrite (skip_strings_run l _ 0 text maxlen rest Hl); [|lia|exact Hd|lia|lia]. cbn [mbind option_bind fst snd].
  destruct (l !! (Z.to_nat index - 1)%nat) as [s|] eqn:Es.
  - pose proof (stacked_split _ _ _ Es) as Hsp. pose proof (f_equal length Hsp) as Hlen. rewrite !length_app in Hlen. simpl in Hlen.
    destruct (Nat.ltb_spec (maxlen - 1) (0 + length (stacked (take (Z.to_nat index - 1) l)))); [lia|].
    rewrite (c_string_run _ _ s (stacked (drop (S (Z.to_nat index - 1)) l) ++ rest)).
    + done.
    + by eapply Forall_lookup_1.
    + apply (f_equal length) in Hd. rewrite length_drop, length_app in Hd. lia.
    + rewrite <- drop_drop, Hd, Hsp, <- !app_assoc. by rewrite drop_app_length'.
  - apply lookup_ge_None in Es. rewrite take_ge by lia. destruct (Nat.ltb_spec (maxlen - 1) (0 + length (stacked l))); [done|lia].
Qed.

(** A number asks for the string with that number among those that are stacked behind the
    structure, with the spaces on its right taken off; there is none for 0 and for a number
    that is too large. No byte outside the stack is read. *)
Theorem string_is_the_one_asked_for text index maxlen l :
  Forall no_nul l -> take maxlen (drop text data) = stacked l -> length (stacked l) = maxlen -> (0 <= index)%Z ->
  dmiString data text index maxlen
  = Some (if (index =? 0)%Z then "" else default "" ((fun s => trim_right (of_chars s)) <$> l !! (Z.to_nat index - 1)%nat)).
Proof. apply dmiString_run. Qed.
End Strings.

Lemma stack_of (r : list ascii) : exists l t, Forall no_nul l /\ no_nul t /\ r = stacked l ++ t.
Proof.
  induction r as [|c r (l & t & Hl & Ht & ->)]; [exists [], []; repeat split; [constructor|apply not_elem_of_nil]|].
  destruct (decide (c = "000"%char)) as [->|Hc].
  - exists ([] :: l), t. repeat split; [constructor; [apply not_elem_of_nil|done]|done].
  - destruct l as [|s l].
    + exists [], (c :: t). repeat split; [done|]. apply not_elem_of_cons. split; [congruence|done].
    + apply Forall_cons in Hl as [Hs Hl]. exists ((c :: s) :: l), t. repeat split; [|done].
      constructor; [|done]. apply not_elem_of_cons. split; [congruence|done].
Qed.

Lemma string_inside data text index maxlen : (text + maxlen <= length data)%nat -> (0 <= index)%Z ->
  is_Some (dmiString data text index maxlen).
Proof.
  intros Hlen Hi. destruct (stack_of (take maxlen (drop text data))) as (l & t & Hl & Ht & Hs).
  assert (length (stacked l ++ t) = maxlen) as Hm by (rewrite <- Hs, length_take, length_drop; lia).
  destruct t as [|c t].
  { rewrite app_nil_r in *. rewrite (dmiString_run data text index maxlen l) by done. by eexists. }
  unfold dmiString. destruct (_ || _) eqn:E0; [by eexists|].
  rewrite <- Hm in Hs at 1. rewrite (region_lookup data text _ (maxlen - 1) Hs) by (apply orb_false_iff in E0 as [_ ?%Nat.eqb_neq]; lia).
  destruct (exists_last (l := c :: t)) as (t' & x & Ex); [done|]. rewrite Ex in *.
  replace (maxlen - 1)%nat with (pred (length (stacked l ++ t' ++ [x]))) by lia.
  rewrite <- last_lookup, app_assoc, last_snoc. cbn [mbind option_bind].
  rewrite bool_decide_eq_false_2; [by eexists|]. intros ->. apply Ht, elem_of_app. right. by apply list_elem_of_singleton.
Qed.

(** ** The walk *)

Section Walk.
Context (data : list ascii).

Lemma find_end_run fuel p : (length data < fuel + p)%nat -> (p <= length data)%nat ->
  exists n, find_end data fuel p = Some n /\ (p <= n <= length data)%nat /\ ((p + sizeof_header <= length data)%nat -> (p < n)%nat).
Proof.
  unfold sizeof_header. revert p. induction fuel as [|fuel IH]; intros p Hf Hp; [lia|]. cbn [find_end]. unfold sizeof_header.
  destruct (Nat.leb_spec (p + 4) (length data)); [|exists p; repeat split; lia].
  destruct (byte_inside data p) as [b0 E0]; [lia|]. destruct (byte_inside data (p + 1)) as [b1 E1]; [lia|].
  rewrite E0. cbn [mbind option_bind]. rewrite E1. cbn [mbind option_bind].
  destruct (IH (p + 1)%nat) as (n & En & Hn & _); [lia..|].
  destruct (b0 =? 0)%Z; [destruct (b1 =? 0)%Z|]; [exists (p + 2)%nat; repeat split; lia| |]; exists n; repeat split; (done || lia).
Qed.

(** A structure that lies in the data, its formatted part first. *)
Definition placed (s : structure) : Prop :=
  header_at data (st_address s) = Some (st_header s) /\ (0 <= h_length (st_header s))%Z /\
  st_text s = (st_address s + Z.to_nat (h_length (st_header s)))%nat /\ (0 < st_size s)%nat /\
  (st_text s <= st_address s + st_size s <= length data)%nat.

(** Structures one behind the other, numbered, from an address on. *)
Inductive tiling : nat -> nat -> list structure -> Prop :=
  | tiling_nil i a : tiling i a []
  | tiling_cons i a s l : st_index s = i -> st_address s = a -> placed s -> tiling (S i) (a + st_size s) l -> tiling i a (s :: l).

Lemma header_length p h : header_at data p = Some h -> (0 <= h_length h < 256)%Z.
Proof.
  unfold header_at. intros H. destruct (byte data p); [|done]. cbn in H. destruct (byte data (p + 1)) eqn:E; [|done]. cbn in H.
  destruct (dmiToWord data p 2); [|done]. cbn in H. injection H as <-. by apply byte_range in E.
Qed.

(** The next step of the walk: the end, or a structure and the walk from its end on. *)
Lemma walk_step table : (table <= length data)%nat ->
  (forall R (f : structure -> R -> option R) fuel i r, walk data f (S fuel) i table r = Some r) \/
  exists s, (forall i, placed (mkStructure i (st_header s) table (st_text s) (st_size s))) /\
    forall R (f : structure -> R -> option R) fuel i r,
      walk data f (S fuel) i table r =
      f (mkStructure i (st_header s) table (st_text s) (st_size s)) r ≫= fun r => walk data f fuel (i + 1) (table + st_size s) r.
Proof.
  intros Ht. cbn [walk]. destruct (Nat.leb_spec (table + sizeof_header) (length data)) as [Hh|]; [|by left].
  destruct (header_inside data table Hh) as [h Eh]. pose proof (header_length _ _ Eh) as Hlen.
  rewrite Eh. cbn [mbind option_bind].
  destruct (Nat.ltb_spec (length data) (table + Z.to_nat (h_length h))); [by left|].
  destruct (_ && _); [by left|]. right.
  destruct (find_end_run (S (length data)) (table + Z.to_nat (h_length h))) as (n & En & Hn & Hprog); [lia..|].
  rewrite En. cbn [mbind option_bind].
  assert (table < n)%nat by (destruct (decide (h_length h = 0)%Z) as [E|]; [rewrite E in Hprog; simpl in Hprog; rewrite Nat.add_0_r in Hprog; auto|lia]).
  exists (mkStructure 0 h table (table + Z.to_nat (h_length h)) (n - table)). split.
  - intros i. unfold placed. cbn. repeat split; (done || lia).
  - intros R f fuel i r. cbn. by replace (table + (n - table))%nat with n by lia.
Qed.

Fixpoint fold_structures {R} (f : structure -> R -> option R) (l : list structure) (r : R) : option R :=
  match l with [] => Some r | s :: l => r ← f s r; fold_structures f l r end.

Lemma walk_run fuel i table : (table <= length data)%nat -> (length data < fuel + table)%nat ->
  exists l, tiling i table l /\ forall R (f : structure -> R -> option R) r, walk data f fuel i table r = fold_structures f l r.
Proof.
  revert i table. induction fuel as [|fuel IH]; intros i table Ht Hf; [lia|].
  destruct (walk_step table Ht) as [He|(s & Hp & Hs)]; [exists []; split; [constructor|]; intros; by rewrite He|].
  pose proof (Hp i) as (_ & _ & _ & Hpos & Hin). cbn in Hpos, Hin.
  destruct (IH (i + 1)%nat (table + st_size s)%nat) as (l & Hl & Hw); [lia..|].
  exists (mkStructure i (st_header s) table (st_text s) (st_size s) :: l). split.
  - constructor; [done..|apply Hp|]. by replace (S i) with (i + 1)%nat by lia.
  - intros R f r. rewrite Hs. cbn [fold_structures]. destruct (f _ r); [|done]. cbn. apply Hw.
Qed.

(** The walk ends, and what it hands to a predicate does not depend on it: structures that
    lie one behind the other from the start of the data on, each inside the data, numbered
    from 0. *)
Theorem walk_tiles_the_data :
  exists l, tiling 0 0 l /\ forall R (predicate : structure -> R -> option R) results,
    tables data predicate results = fold_structures predicate l results.
Proof. apply walk_run; lia. Qed.

Lemma tiling_placed i a l s : tiling i a l -> s ∈ l -> placed s.
Proof. induction 1; [by intros ?%not_elem_of_nil|]. by intros [->|]%elem_of_cons; auto. Qed.

Lemma fold_structures_total {R} (f : structure -> R -> option R) l r :
  (forall s r, s ∈ l -> is_Some (f s r)) -> is_Some (fold_structures f l r).
Proof.
  revert r. induction l as [|s l IH]; intros r H; [by eexists|]. cbn. apply is_Some_bind; [apply H; left|].
  intros. apply IH. intros. apply H. by right.
Qed.

Lemma tables_total {R} (f : structure -> R -> option R) r :
  (forall s r, placed s -> is_Some (f s r)) -> is_Some (tables data f r).
Proof.
  intros H. destruct (walk_run (S (length data)) 0 0) as (l & Hl & Hw); [lia..|]. unfold tables. rewrite Hw.
  apply fold_structures_total. intros s r' Hs. eapply H, tiling_placed; done.
Qed.
End Walk.

(** ** Tables *)

Section Tables.
Context (data : list ascii).

(** A structure inside the data. *)
Definition fits (s : structure) : Prop :=
  st_text s = (st_address s + Z.to_nat (h_length (st_header s)))%nat /\
  (st_text s <= st_address s + st_size s <= length data)%nat.

Lemma placed_fits s : placed data s -> fits s.
Proof. by intros (_ & _ & ? & _ & ?). Qed.

Lemma fits_string s index : fits s -> (0 <= index)%Z -> is_Some (dmiString data (st_text s) index (text_size s)).
Proof. intros [Ht Hs]. apply string_inside. unfold text_size. lia. Qed.

Lemma mapM_inside {A C} (f : A -> option C) l : (forall x, x ∈ l -> is_Some (f x)) -> is_Some (mapM f l).
Proof. intros H. apply mapM_is_Some_2, Forall_forall. exact H. Qed.

Lemma details_total z : is_Some (dmiBitFieldToStr z kSMBIOSMemoryDetailsTable).
Proof.
  unfold dmiBitFieldToStr. apply is_Some_bind; [|intros; by eexists]. apply mapM_inside. intros i Hi%elem_of_seq.
  unfold bit_name. destruct (Z.testbit z (Z.of_nat i)); [|by eexists]. apply is_Some_bind; [|intros; by eexists]. simpl in Hi.
  do 16 (destruct i as [|i]; [by eexists|]). lia.
Qed.

Ltac field :=
  match goal with
  | |- is_Some (byte _ _) => apply byte_inside; lia
  | |- is_Some (dmiToWord _ _ _) => apply word_inside; lia
  | |- is_Some (dmiToDWord _ _ _) => apply dword_inside; lia
  | |- is_Some (dmiToQWord _ _ _) => apply qword_inside; lia
  | |- is_Some (dmiWordToHexStr _ _ _) => apply word_hex_inside; lia
  | |- is_Some (dmiBitFieldToStr _ _) => apply details_total
  | H : byte _ _ = Some ?i |- is_Some (dmiString _ (st_text _) ?i _) => apply fits_string; [done|by apply byte_range in H as [? _]]
  end.

(** The guard of a table: what it leaves is a structure large enough for the fields. *)
Ltac past_guard := match goal with |- is_Some (if ?b || (?n <? ?m)%nat then _ else _) => destruct b; cbn [orb]; [by eexists|]; destruct (Nat.ltb_spec n m); [by eexists|] end.

Ltac table_reads := intros [Ht Hs]; match goal with |- is_Some (?f _ _ _) => unfold f end; past_guard; inside; field.

Lemma genSMBIOSMemoryDevices_inside s r : fits s -> is_Some (genSMBIOSMemoryDevices data s r).
Proof. table_reads. Qed.
Lemma genSMBIOSMemoryArrays_inside s r : fits s -> is_Some (genSMBIOSMemoryArrays data s r).
Proof. table_reads. Qed.
Lemma mapped_range_inside a w : (8 <= w)%nat -> (a + w + 16 <= length data)%nat -> is_Some (mapped_range data a w).
Proof. intros. unfold mapped_range. inside; field. Qed.
Lemma genSMBIOSMemoryArrayMappedAddresses_inside s r : fits s -> is_Some (genSMBIOSMemoryArrayMappedAddresses data s r).
Proof. intros [Ht Hs]. unfold genSMBIOSMemoryArrayMappedAddresses. past_guard. inside; (field || (apply mapped_range_inside; lia)). Qed.
Lemma genSMBIOSMemoryErrorInfo_inside s r : fits s -> is_Some (genSMBIOSMemoryErrorInfo data s r).
Proof. table_reads. Qed.
Lemma genSMBIOSMemoryDeviceMappedAddresses_inside s r : fits s -> is_Some (genSMBIOSMemoryDeviceMappedAddresses data s r).
Proof. intros [Ht Hs]. unfold genSMBIOSMemoryDeviceMappedAddresses. past_guard. inside; (field || (apply mapped_range_inside; lia)). Qed.
Lemma genSMBIOSOEMStrings_inside s r : fits s -> is_Some (genSMBIOSOEMStrings data s r).
Proof.
  intros [Ht Hs]. unfold genSMBIOSOEMStrings. past_guard. inside; try field. apply mapM_inside. intros i _.
  unfold oem_row. inside. by apply fits_string; [|lia].
Qed.
Lemma genSMBIOSTable_inside md5 s r : fits s -> is_Some (genSMBIOSTable data md5 s r).
Proof.
  intros [Ht Hs]. unfold genSMBIOSTable. inside. apply mapM_inside. intros i Hi%elem_of_seq. apply lookup_lt_is_Some. lia.
Qed.

(** The tables that read only inside of their structures. *)
Definition inner_tables (md5 : list ascii -> string) : list (list ascii -> structure -> QueryData -> option QueryData) :=
  [fun d => genSMBIOSTable d md5; genSMBIOSMemoryDevices; genSMBIOSMemoryArrays; genSMBIOSMemoryArrayMappedAddresses;
   genSMBIOSMemoryErrorInfo; genSMBIOSMemoryDeviceMappedAddresses; genSMBIOSOEMStrings].
End Tables.

Lemma inner_tables_inside md5 f data s r : f ∈ inner_tables md5 -> fits data s -> is_Some (f data s r).
Proof.
  intros Hf Hs. unfold inner_tables in Hf. repeat (apply elem_of_cons in Hf as [->|Hf]); [..|by apply not_elem_of_nil in Hf].
  all: first [by apply genSMBIOSTable_inside|by apply genSMBIOSMemoryDevices_inside|by apply genSMBIOSMemoryArrays_inside
    |by apply genSMBIOSMemoryArrayMappedAddresses_inside|by apply genSMBIOSMemoryErrorInfo_inside
    |by apply genSMBIOSMemoryDeviceMappedAddresses_inside|by apply genSMBIOSOEMStrings_inside].
Qed.

Lemma fits_take data s : fits data s -> fits (take (st_address s + st_size s) data) s.
Proof. intros [Ht Hs]. split; [done|]. rewrite length_take. lia. Qed.

(** Whatever the data is, the walk has rows for every table but that of the platform, and
    the row of a structure is made from the bytes of the structure: those behind it may be
    missing. *)
Theorem rows_are_read_inside_their_structures md5 (f : list ascii -> structure -> QueryData -> option QueryData) (data : list ascii) :
  f ∈ inner_tables md5 ->
  (exists rows, tables data (f data) [] = Some rows) /\
  forall s rows, placed data s -> exists rows', f (take (st_address s + st_size s) data) s rows = Some rows'.
Proof.
  intros Hf. split.
  - destruct (tables_total data (f data) []) as [rows E]; [|by exists rows].
    intros s r Hs. by eapply inner_tables_inside, placed_fits.
  - intros s rows Hs. destruct (inner_tables_inside md5 f (take (st_address s + st_size s) data) s rows Hf) as [rows' E].
    + by apply fits_take, placed_fits.
    + by exists rows'.
Qed.

(** The platform information reads one byte behind a structure of 21 bytes: when the data
    ends there, the read is outside of the data. *)
Theorem platform_revision_is_read_outside data s rows :
  placed data s -> h_type (st_header s) = kSMBIOSTypeBIOS -> st_size s = 0x15%nat -> length data = (st_address s + 0x15)%nat ->
  platform_row data s rows = None.
Proof.
  intros (_ & _ & Ht & _ & Hs) Hty Hsz Hl. unfold platform_row. rewrite Hty, Hsz. cbn [negb orb].
  replace (kSMBIOSTypeBIOS =? kSMBIOSTypeBIOS)%Z with true by done. cbn [negb orb].
  assert (forall p, (p < 0x15)%nat -> exists b, byte data (st_address s + p) = Some b /\ (0 <= b)%Z) as Hb.
  { intros p Hp. destruct (byte_inside data (st_address s + p)) as [b E]; [lia|]. exists b. split; [done|]. by apply byte_range in E as [? _]. }
  assert (forall i, (0 <= i)%Z -> exists t, dmiString data (st_text s) i (text_size s) = Some t) as Hstr.
  { intros i Hi. apply (fits_string data s i); [split; [done|lia]|done]. }
  destruct (Hb 0x04%nat) as (i4 & -> & H4); [lia|]. destruct (Hb 0x05%nat) as (i5 & -> & H5); [lia|].
  destruct (Hb 0x08%nat) as (i8 & -> & H8); [lia|]. cbn [mbind option_bind].
  destruct (Hstr i4 H4) as [t4 ->], (Hstr i5 H5) as [t5 ->], (Hstr i8 H8) as [t8 ->]. cbn [mbind option_bind].
  destruct (Hb 0x07%nat) as (b7 & -> & _); [lia|]. destruct (Hb 0x06%nat) as (b6 & -> & _); [lia|].
  destruct (Hb 0x09%nat) as (b9 & -> & _); [lia|]. destruct (Hb 0x14%nat) as (b14 & -> & _); [lia|]. cbn [mbind option_bind].
  unfold byte. by rewrite lookup_ge_None_2 by lia.
Qed.

(** ** The last structure *)

Lemma find_end_none data fuel p : (length data < fuel + p)%nat -> (p <= length data)%nat ->
  (forall q, (p <= q)%nat -> (q + sizeof_header <= length data)%nat -> byte data q <> Some 0%Z \/ byte data (q + 1) <> Some 0%Z) ->
  find_end data fuel p = Some (Nat.max p (length data - 3)).
Proof.
  unfold sizeof_header. revert p. induction fuel as [|fuel IH]; intros p Hf Hp Hn; [lia|]. cbn [find_end]. unfold sizeof_header.
  destruct (Nat.leb_spec (p + 4) (length data)); [|f_equal; lia].
  destruct (byte_inside data p) as [b0 E0]; [lia|]. destruct (byte_inside data (p + 1)) as [b1 E1]; [lia|].
  rewrite E0. cbn [mbind option_bind]. rewrite E1. cbn [mbind option_bind].
  assert (find_end data fuel (p + 1) = Some (Nat.max p (length data - 3))) as Hr.
  { rewrite IH; [f_equal; lia|lia|lia|]. intros. apply Hn; lia. }
  destruct (Hn p) as [H0|H0]; [lia..| |].
  - destruct (Z.eqb_spec b0 0) as [->|]; [congruence|done].
  - destruct (b0 =? 0)%Z; [|done]. destruct (Z.eqb_spec b1 0) as [->|]; [congruence|done].
Qed.

(** The search for the two NUL bytes does not look at the last bytes of the data. The
    strings of a structure that ends exactly where the data ends are lost: its size is
    three bytes short, and none of its strings is found when the byte the text then ends
    with is not NUL. *)
Theorem strings_of_the_last_structure_are_lost data table h index :
  header_at data table = Some h -> (h_length h <> 0 \/ h_handle h <> 0)%Z ->
  (table + Z.to_nat (h_length h) + 3 < length data)%nat ->
  (forall q, (table + Z.to_nat (h_length h) <= q)%nat -> (q + sizeof_header <= length data)%nat ->
    byte data q <> Some 0%Z \/ byte data (q + 1) <> Some 0%Z) ->
  data !! (length data - 4)%nat <> Some "000"%char ->
  forall i, exists s, st_size s = (length data - 3 - table)%nat /\
    walk data (fun s r => Some (r ++ [s])) 2 i table [] = Some [s] /\
    dmiString data (st_text s) index (text_size s) = Some "".
Proof.
  intros Eh Hz Hl Hn H4 i. pose proof (header_length _ _ _ Eh) as Hlen.
  assert (find_end data (S (length data)) (table + Z.to_nat (h_length h)) = Some (length data - 3)%nat) as Ee.
  { rewrite find_end_none by (done || lia). f_equal. lia. }
  exists (mkStructure i h table (table + Z.to_nat (h_length h)) (length data - 3 - table)).
  split; [done|]. split.
  - cbn [walk]. unfold sizeof_header. destruct (Nat.leb_spec (table + 4) (length data)).
    2: { unfold header_at in Eh. destruct (byte data table); [|done]. cbn in Eh. destruct (byte data (table + 1)); [|done]. cbn in Eh.
         unfold dmiToWord in Eh. replace (byte data (table + (2 + 1))) with (@None Z) in Eh; [done|]. unfold byte. by rewrite lookup_ge_None_2 by lia. }
    rewrite Eh. cbn [mbind option_bind]. destruct (Nat.ltb_spec (length data) (table + Z.to_nat (h_length h))); [lia|].
    replace ((h_length h =? 0) && (h_handle h =? 0))%Z with false by (symmetry; apply andb_false_iff; rewrite !Z.eqb_neq; tauto).
    rewrite Ee. cbn [mbind option_bind app]. destruct (Nat.leb_spec (length data - 3 + 4) (length data)); [lia|done].
  - unfold dmiString, text_size. cbn. destruct (_ || _) eqn:E0; [done|]. apply orb_false_iff in E0 as [_ E0%Nat.eqb_neq].
    replace (table + _ + _)%nat with (length data - 4)%nat by lia.
    destruct (lookup_lt_is_Some_2 data (length data - 4)) as [c Ec]; [lia|]. rewrite Ec in H4 |- *. cbn.
    by rewrite bool_decide_eq_false_2 by congruence.
Qed.

(** ** Discovery *)

(** What the calls that read physical memory promise: no more bytes than asked for, and a
    mapping of the size asked for. *)
Class RawMemoryLaws (W : Type) {RM : RawMemory W} := {
  mm_read_length fd n bytes w w' : mm_read fd n w = (Ok (ReadBytes bytes), w') -> (Z.of_nat (length bytes) <= n)%Z;
  mm_mmap_length fd n o content w w' : mm_mmap fd n o w = (Ok (Some content), w') -> Z.of_nat (length content) = n;
  mm_pagesize_pos : (0 < mm_pagesize)%Z;
}.

Section Discovery.
Context {W : Type} {RM : RawMemory W} {L : RawMemoryLaws W} {B : Boost}.
Context (FLAGS_disable_memory : bool) (readFile : string -> M W (Status * string)) (isReadable : string -> M W Status).
Local Open Scope Z_scope.

Lemma read_loop_length fuel fd len br buffer st b w w' :
  read_loop fuel fd len br buffer w = (Ok (Some (st, b)), w') -> Status_ok st = true -> Z.of_nat (length b) = len.
Proof.
  revert br buffer w. induction fuel as [|fuel IH]; intros br buffer w E Hst; cbn [read_loop] in E;
    (destruct (negb (_ =? len) && _) eqn:Ec; [|run_pure E; destruct (Z.eqb_spec (Z.of_nat (length b)) len); [done|by cbn in Hst]]).
  - run_pure E.
  - run_step E as r w1 E1. destruct r as [bytes|errno]; [by eapply IH|].
    destruct (negb (errno =? EINTR)); [run_pure E; by cbn in Hst|by eapply IH].
Qed.

Lemma readRawMem_length fuel base len st b w w' : 0 <= len ->
  readRawMem FLAGS_disable_memory fuel base len w = (Ok (Some (st, Some b)), w') -> Status_ok st = true /\ Z.of_nat (length b) = len.
Proof.
  intros Hlen E. unfold readRawMem in E. destruct FLAGS_disable_memory; [run_pure E|]. destruct (_ <? len); [run_pure E|].
  run_step E as st1 w1 E1. destruct (negb _); [run_pure E|]. run_step E as fd w2 E2. destruct (fd <? 0); [run_pure E|].
  run_step E as map w3 E3. pose proof (Z.mod_pos_bound base mm_pagesize mm_pagesize_pos) as Ho. destruct map as [content|].
  - apply mm_mmap_length in E3. run_step E as u w4 E4. run_pure E. split; [done|]. rewrite length_take, length_drop. lia.
  - run_step E as r w4 E4. destruct r as [[st2 buffer]|]; [|run_pure E]. run_step E as u w5 E5.
    destruct (Status_ok st2) eqn:Es; run_pure E. split; [done|]. unfold readMem in E4. run_step E4 as pos w6 E6.
    destruct (pos =? -1); [run_pure E4; by cbn in Es|]. by eapply read_loop_length.
Qed.

(** The size is that of the table. *)
Definition sized (p : LinuxSMBIOSParser) : Prop := forall d, table_data_ p = Some d -> table_size_ p = Z.of_nat (length d).

Lemma discoverTables_sized fuel address len p b p' w w' : 0 <= len ->
  discoverTables FLAGS_disable_memory fuel address len p w = (Ok (Some (b, p')), w') -> sized p'.
Proof.
  intros Hlen E. unfold discoverTables in E. run_step E as r w1 E1. destruct r as [[st [d|]]|]; [| |run_pure E].
  - apply readRawMem_length in E1 as [Es El]; [|done]. cbn in E. rewrite Es in E. run_pure E. by intros d' [= <-].
  - cbn in E. rewrite orb_true_r in E. run_pure E. by intros d.
Qed.

Lemma dmiToWord_nonneg data a o z : dmiToWord data a o = Some z -> 0 <= z.
Proof.
  unfold dmiToWord. destruct (byte data (a + (o + 1))) as [b1|] eqn:E1; [|done]. cbn. destruct (byte data (a + o)) as [b0|] eqn:E0; [|done].
  cbn. intros [= <-]. apply byte_range in E0, E1. apply Z.lor_nonneg. rewrite Z.shiftl_nonneg. lia.
Qed.

Lemma search_entry_sized rounds fuel data len offset p p' w w' : sized p ->
  search_entry FLAGS_disable_memory rounds fuel data len offset p w = (Ok (Some p'), w') -> sized p'.
Proof.
  revert offset p w. induction rounds as [|rounds IH]; intros offset p w Hp E; cbn [search_entry] in E; [run_pure E|].
  destruct (offset <=? _); [|by run_pure E]. destruct (mapM _ _) as [anchor|]; [|run_pure E]. case_bool_decide; [|by eapply IH].
  destruct (dmiToWord _ _ _) as [len'|] eqn:El; [|run_pure E]. destruct (dmiToDWord _ _ _) as [address|]; [|run_pure E].
  run_step E as r w1 E1. destruct r as [[[] p1]|]; [| |run_pure E]; apply discoverTables_sized in E1; try by eapply dmiToWord_nonneg.
  - by run_pure E.
  - by eapply IH.
Qed.

Lemma readFromAddress_sized fuel address len p p' w w' : sized p ->
  readFromAddress FLAGS_disable_memory fuel address len p w = (Ok (Some p'), w') -> sized p'.
Proof.
  intros Hp E. unfold readFromAddress in E. run_step E as r w1 E1. destruct r as [[st [d|]]|]; [| |run_pure E]; [|by run_pure E].
  destruct (negb _); [by run_pure E|]. by eapply search_entry_sized in E.
Qed.

Lemma systab_lines_sized fuel lines p p' w w' : sized p ->
  systab_lines FLAGS_disable_memory fuel lines p w = (Ok (Some p'), w') -> sized p'.
Proof.
  revert p w. induction lines as [|line lines IH]; intros p w Hp E; cbn [systab_lines] in E; [by run_pure E|].
  run_step E as r w1 E1. destruct r as [p1|]; [|run_pure E]. eapply IH; [|exact E]. unfold systab_line in E1.
  destruct (String.prefix _ _); [|by run_pure E1]. destruct (split line "=") as [|? [|v [|]]]; try by run_pure E1.
  destruct (2 <? _)%nat; [|by run_pure E1]. by eapply readFromAddress_sized in E1.
Qed.

(** However the table is found, its size is the number of its bytes, so that the walk over
    a table that was discovered stays inside of it. *)
Theorem discovered_table_has_its_size fuel found p w w' :
  discover FLAGS_disable_memory readFile isReadable fuel (mkParser None None 0) w = (Ok (Some (found, p)), w') ->
  found = true <-> exists d, table_data_ p = Some d /\ table_size_ p = Z.of_nat (length d).
Proof.
  intros E. assert (sized (mkParser None None 0)) as H0 by (by intros d). unfold discover in E. run_step E as s1 w1 E1.
  run_step E as r w2 E2. destruct r as [p'|]; run_pure E. assert (sized p) as Hs.
  { destruct (Status_ok s1).
    - unfold readFromSysfs in E2. run_step E2 as p1 w3 E3. run_pure E2. run_step E3 as sc w4 E4. destruct sc as [st content]. run_pure E3.
      intros d [= <-]. cbn. by rewrite length_chars.
    - run_step E2 as s2 w3 E3. destruct (Status_ok s2); [|by eapply readFromAddress_sized in E2].
      unfold readFromSystab in E2. run_step E2 as sc w4 E4. destruct sc as [st content]. destruct (negb _); [by run_pure E2|]. by eapply systab_lines_sized in E2. }
  unfold valid. rewrite bool_decide_eq_true. split; [intros [d Hd]; exists d; auto|intros (d & Hd & _); by exists d].
Qed.

Lemma u64_inside z : 0 <= z < 2 ^ 64 -> u64 z = z.
Proof. apply Z.mod_small. Qed.

Lemma anchor_inside (data : list ascii) o : (o + 5 <= length data)%nat -> is_Some (mapM (fun i => data !! (o + i)%nat) (seq 0 5)).
Proof. intros H. apply mapM_inside. intros i Hi%elem_of_seq. apply lookup_lt_is_Some. lia. Qed.

Lemma search_entry_inside rounds fuel data len offset p w :
  (forall a l w w', readRawMem FLAGS_disable_memory fuel a l w <> (Ok None, w')) ->
  Z.of_nat (length data) = len -> sizeof_entry <= len < 2 ^ 64 -> 0 <= offset -> (1 <= rounds)%nat ->
  len - sizeof_entry < offset + 16 * (Z.of_nat rounds - 1) ->
  (search_entry FLAGS_disable_memory rounds fuel data len offset p w).1 <> Ok None.
Proof.
  intros Hr Hd Hl. unfold sizeof_entry in *. revert offset p w. induction rounds as [|rounds IH]; intros offset p w Ho H1 Hm; [lia|].
  cbn [search_entry]. unfold sizeof_entry. rewrite u64_inside by lia. destruct (Z.leb_spec offset (len - 15)); [|done].
  destruct (anchor_inside data (Z.to_nat offset)) as [anchor ->]; [lia|].
  assert (forall p w, (search_entry FLAGS_disable_memory rounds fuel data len (offset + 16) p w).1 <> Ok None) as Hnext.
  { intros p' w'. apply IH; lia. }
  case_bool_decide; [|apply Hnext].
  destruct (word_inside data (Z.to_nat offset) 6) as [tl ->]; [lia|]. destruct (dword_inside data (Z.to_nat offset) 8) as [ta ->]; [lia|].
  unfold bind, discoverTables. unfold bind. destruct (readRawMem _ _ _ _ w) as [[[[st b]|]|e] w1] eqn:E; [|by apply Hr in E|done].
  cbn. destruct (_ || _); cbn; [apply Hnext|done].
Qed.

(** The search for the entry point in memory that was read stays inside of it and ends,
    when the memory is large enough for one entry point. *)
Theorem entry_search_stays_inside fuel address len p w :
  (forall a l w w', readRawMem FLAGS_disable_memory fuel a l w <> (Ok None, w')) -> sizeof_entry <= len < 2 ^ 64 ->
  (readFromAddress FLAGS_disable_memory fuel address len p w).1 <> Ok None.
Proof.
  intros Hr Hl. unfold readFromAddress, bind. unfold sizeof_entry in Hl.
  destruct (readRawMem _ _ address len w) as [[[[st [b|]]|]|e] w1] eqn:E; [|done|by apply Hr in E|done].
  destruct (negb _); [done|]. apply readRawMem_length in E as [_ Hb]; [|lia].
  apply search_entry_inside; [done..| |unfold search_rounds; lia|].
  - done.
  - unfold search_rounds, sizeof_entry. rewrite Nat2Z.inj_add, Nat2Z.inj_div.
    pose proof (Z.div_mod (Z.of_nat (length b)) 16). pose proof (Z.mod_pos_bound (Z.of_nat (length b)) 16). lia.
Qed.

(** An address just below 1 MiB makes the system table ask for less memory than an entry
    point has: the difference of the two sizes wraps, and the search leaves the memory. *)
Theorem short_memory_is_searched_outside fuel address data st p w w' :
  0x100000 - sizeof_entry < address < 0x100000 ->
  readRawMem FLAGS_disable_memory fuel address (systab_size address) w = (Ok (Some (st, Some data)), w') ->
  take 5 data <> chars "_DMI_" ->
  readFromAddress FLAGS_disable_memory fuel address (systab_size address) p w = (Ok None, w').
Proof.
  unfold sizeof_entry. intros Ha E Hd. assert (systab_size address = 0x100000 - address) as Hs.
  { unfold systab_size. rewrite u64_inside by lia. destruct (Z.ltb_spec address 0x100000), (Z.ltb_spec 0x100000 (address + 0x100)); (done || lia). }
  rewrite Hs in *. pose proof E as E'. apply readRawMem_length in E' as [Hok Hb]; [|lia].
  unfold readFromAddress. rewrite (bind_run _ _ _ _ _ E), Hok. cbn [negb].
  assert (search_rounds data = 2)%nat as ->.
  { unfold search_rounds. rewrite Nat.div_small by lia. done. }
  assert (0x100000 - address - sizeof_entry < 0) by (unfold sizeof_entry; lia).
  assert (u64 (0x100000 - address - sizeof_entry) = 2 ^ 64 + (0x100000 - address - sizeof_entry)) as Hu.
  { unfold u64, sizeof_entry in *. rewrite <- (Z.mod_add _ 1) by lia. rewrite Z.mod_small; lia. }
  cbn [search_entry]. rewrite Hu. unfold sizeof_entry. destruct (Z.leb_spec 0 (2 ^ 64 + (0x100000 - address - 15))); [|lia].
  destruct (mapM _ (seq 0 5)) as [anchor|] eqn:Ea; [|done].
  rewrite bool_decide_eq_false_2; [destruct (Z.leb_spec (0 + 16) (2 ^ 64 + (0x100000 - address - 15))); [|lia]|].
  - destruct (mapM (fun i => data !! (Z.to_nat (0 + 16) + i)%nat) (seq 0 5)) as [x|] eqn:Ex; [|done].
    apply mapM_Some_1, Forall2_cons_inv_l in Ex as (y & k & Hy & _). apply lookup_lt_Some in Hy. lia.
  - intros ->. apply Hd. clear -Ea. do 5 (destruct data as [|? data]; [done|]). cbn in Ea. by injection Ea as -> -> -> -> ->.
Qed.
End Discovery.
