(* ===== verification/Hashing.v ===== *)
(** * File hashes (osquery/core/hashing.cpp, osquery/tables/system/hash.cpp)

    Digests of files, the cache of digests with its heap of least recently used entries
    and the table of hashes. OpenSSL's digests, the heap operations of the standard library
    and the file system are classes of operations. *)
From S2P Require Import Prelude Boost Conversions Query BufferedFacts Tables Keeps.

(** ** Digests *)

Definition HASH_TYPE_MD5 : Z := 2.
Definition HASH_TYPE_SHA1 : Z := 4.
Definition HASH_TYPE_SHA256 : Z := 8.
Definition kHashChunkSize : Z := 4096.

Inductive HashType := MD5 | SHA1 | SHA256.
#[export] Instance HashType_eq_dec : EqDecision HashType.
Proof. solve_decision. Defined.

Definition hash_value (t : HashType) : Z :=
  match t with MD5 => HASH_TYPE_MD5 | SHA1 => HASH_TYPE_SHA1 | SHA256 => HASH_TYPE_SHA256 end.

(** [MD5_Init], [MD5_Update], [MD5_Final] and the others; [length_] bytes in the end. *)
Class Digest := {
  ctx : Type;
  dg_init : HashType -> ctx;
  dg_update : HashType -> ctx -> string -> ctx;
  dg_final : HashType -> ctx -> list Z;
}.

Record MultiHashes := mkHashes { mh_mask : Z; mh_md5 : string; mh_sha1 : string; mh_sha256 : string }.
Definition no_hashes : MultiHashes := mkHashes 0 "" "" "".
#[export] Instance MultiHashes_eq_dec : EqDecision MultiHashes.
Proof. solve_decision. Defined.

Section Hash.
Context {G : Digest}.

Record Hash := mkHash { algorithm_ : HashType; ctx_ : ctx }.

Definition Hash_new (t : HashType) : Hash := mkHash t (dg_init t).
Definition Hash_update (h : Hash) (buffer : string) : Hash := mkHash (algorithm_ h) (dg_update (algorithm_ h) (ctx_ h) buffer).

Definition hex_lower (z : Z) : ascii := nth (Z.to_nat z) (chars "0123456789abcdef") "0"%char.

(** One byte as two digits. *)
Definition hex_byte (b : Z) : string := String (hex_lower (b / 16)) (String (hex_lower (b mod 16)) "").
Definition Hash_digest (h : Hash) : string := foldr (fun b s => hex_byte b +:+ s) "" (dg_final (algorithm_ h) (ctx_ h)).

Definition hashFromBuffer (t : HashType) (buffer : string) : string := Hash_digest (Hash_update (Hash_new t) buffer).

Definition wants (mask : Z) (t : HashType) : bool := negb (Z.land mask (hash_value t) =? 0)%Z.

(** The predicate of [readFile]: the first [size] bytes of a buffer go to every digest the
    mask asks for. *)
Definition hash_part (mask : Z) (h : Hash) (part : string * Z) : Hash :=
  if wants mask (algorithm_ h) then Hash_update h (String.substring 0 (Z.to_nat part.2) part.1) else h.

Definition hashMulti (mask : Z) (s : Status) (parts : list (string * Z)) : MultiHashes :=
  if negb (Status_ok s) then no_hashes
  else
    let digest t := if wants mask t then Hash_digest (foldl (hash_part mask) (Hash_new t) parts) else "" in
    mkHashes mask (digest MD5) (digest SHA1) (digest SHA256).

Context {W : Type}.
(** [readFile(path, 0, kHashChunkSize, false, true, predicate, blocking)]: the status and
    the buffers the predicate is called with. *)
Context (readParts : string -> M W (Status * list (string * Z))).

Definition hashMultiFromFile (mask : Z) (path : string) : M W MultiHashes :=
  let* (s, parts) := readParts path in ret (hashMulti mask s parts).

Definition hashFromFile (t : HashType) (path : string) : M W string :=
  let* hashes := hashMultiFromFile (hash_value t) path in
  ret (match t with MD5 => mh_md5 hashes | SHA1 => mh_sha1 hashes | SHA256 => mh_sha256 hashes end).
End Hash.

(** ** The cache *)

(** [struct stat]: what of it is looked at. *)
Record file_stat := mkStat { st_mtime : Z; st_ino : Z; st_size : Z }.

Record FileHashCache := mkEntry {
  file_mtime : Z;
  file_inode : Z;
  file_size : Z;
  cache_access_time : Z;
  hashes : MultiHashes;
}.

(** The heap operations of the standard library, for a comparison of elements. *)
Class StdHeap := {
  push_heap : (string -> string -> bool) -> list string -> list string;
  pop_heap : (string -> string -> bool) -> list string -> list string;
  make_heap : (string -> string -> bool) -> list string -> list string;
}.

(** [std::is_heap]: no element is behind the one above it. *)
Definition is_heap (comp : string -> string -> bool) (l : list string) : Prop :=
  forall i x y, l !! ((i - 1) / 2)%nat = Some x -> l !! i = Some y -> (0 < i)%nat -> comp x y = false.

(** What the standard says of them, for a strict weak ordering. *)
Definition weak_order (comp : string -> string -> bool) : Prop :=
  (forall x y, comp x y = true -> comp y x = false) /\
  (forall x y z, comp y x = false -> comp z y = false -> comp z x = false).

Class StdHeapLaws (H : StdHeap) := {
  push_heap_perm comp l : push_heap comp l ≡ₚ l;
  pop_heap_perm comp l : pop_heap comp l ≡ₚ l;
  make_heap_perm comp l : make_heap comp l ≡ₚ l;
  push_heap_heap comp l x : weak_order comp -> is_heap comp l -> is_heap comp (push_heap comp (l ++ [x]));
  pop_heap_heap comp x l : weak_order comp -> is_heap comp (x :: l) ->
    exists l', pop_heap comp (x :: l) = l' ++ [x] /\ is_heap comp l';
  make_heap_heap comp l : weak_order comp -> is_heap comp (make_heap comp l);
}.

Definition kHashCacheEvictSize : nat := 5.

Class HashHost (W : Type) := {
  hh_stat : string -> M W (option file_stat);
  hh_time : M W Z;
}.

Record HashCache (W : Type) := mkCache { hc_world : W; hc_cache : gmap string FileHashCache; hc_lru : list string }.
Arguments mkCache {W} _ _ _.
Arguments hc_world {W} _.
Arguments hc_cache {W} _.
Arguments hc_lru {W} _.

Section Cache.
Context {W : Type} {HH : HashHost W} {SH : StdHeap}.
Context (FLAGS_hash_cache_max : Z) (hashAll : string -> M W MultiHashes).
Notation MC := (M (HashCache W)).

Definition hc_on {A} (m : M W A) : MC A := zoom hc_world (fun w c => mkCache w (hc_cache c) (hc_lru c)) m.

(** [FileHashCache::greater], through the pointers of the heap. *)
Definition access (cache : gmap string FileHashCache) (path : string) : Z := default 0%Z (cache_access_time <$> cache !! path).
Definition greater (cache : gmap string FileHashCache) (l r : string) : bool := (access cache r <? access cache l)%Z.

Definition statInvalid (st : file_stat) (fh : FileHashCache) : bool :=
  if negb (st_ino st =? file_inode fh)%Z || negb (st_mtime st =? file_mtime fh)%Z then true
  else if negb (st_size st =? file_size fh)%Z then true
  else false.

(** One turn of the eviction. *)
Definition evict_one (cl : gmap string FileHashCache * list string) : gmap string FileHashCache * list string :=
  match cl.2 with
  | [] => cl
  | key :: _ => (delete key cl.1, removelast (pop_heap (greater cl.1) cl.2))
  end.

Definition evict (cl : gmap string FileHashCache * list string) : gmap string FileHashCache * list string :=
  Nat.iter kHashCacheEvictSize evict_one cl.

Definition too_large (cache : gmap string FileHashCache) : bool := (FLAGS_hash_cache_max <=? Z.of_nat (size cache))%Z.

(** A path that is not in the cache. *)
Definition load_new (path : string) (st : file_stat) : MC MultiHashes :=
  modify (fun c => let cl := (hc_cache c, hc_lru c) in
                   let cl := if too_large (hc_cache c) then evict cl else cl in mkCache (hc_world c) cl.1 cl.2) ;;;
  let* hs := hc_on (hashAll path) in
  let* now := hc_on hh_time in
  modify (fun c => let cache := <[path := mkEntry (st_mtime st) (st_ino st) (st_size st) now hs]> (hc_cache c) in
                   mkCache (hc_world c) cache (push_heap (greater cache) (hc_lru c ++ [path]))) ;;;
  ret hs.

(** The inode of the entry is not updated. *)
Definition load_changed (path : string) (st : file_stat) (entry : FileHashCache) : MC MultiHashes :=
  let* hs := hc_on (hashAll path) in
  let* now := hc_on hh_time in
  modify (fun c => let cache := <[path := mkEntry (st_mtime st) (file_inode entry) (st_size st) now hs]> (hc_cache c) in
                   mkCache (hc_world c) cache (make_heap (greater cache) (hc_lru c))) ;;;
  ret hs.

Definition load_known (path : string) (entry : FileHashCache) : MC MultiHashes :=
  let* now := hc_on hh_time in
  modify (fun c => let cache := <[path := mkEntry (file_mtime entry) (file_inode entry) (file_size entry) now (hashes entry)]> (hc_cache c) in
                   mkCache (hc_world c) cache (make_heap (greater cache) (hc_lru c))) ;;;
  ret (hashes entry).

(** [FileHashCache::load]: [None] is false. *)
Definition load (path : string) : MC (option MultiHashes) :=
  let* o := hc_on (hh_stat path) in
  match o with
  | None => ret None
  | Some st =>
      let* found := gets (fun c => hc_cache c !! path) in
      let* hs :=
        match found with
        | None => load_new path st
        | Some entry => if statInvalid st entry then load_changed path st entry else load_known path entry
        end in
      ret (Some hs)
  end.

(** ** The table *)

Context (FLAGS_disable_hash_cache posix : bool).
Context (genSsdeepForFile : string -> M W string) (sleep_for_delay : M W unit).

Definition genHashForFile (path dir : string) (context : QueryContext) (results : QueryData) : MC (QueryContext * QueryData) :=
  let* (r, hs, context) :=
    if negb FLAGS_disable_hash_cache then
      let* o := load path in ret (∅ : Row, default no_hashes o, context)
    else if QueryContext_isCached path context then
      let '(r, context) := QueryContext_getCache path context in ret (r, no_hashes, context)
    else
      let* hs := hc_on (hashAll path) in
      hc_on sleep_for_delay ;;;
      ret (∅ : Row, hs, context) in
  let r := <["sha256" := mh_sha256 hs]> (<["sha1" := mh_sha1 hs]> (<["md5" := mh_md5 hs]> (<["directory" := dir]> (<["path" := path]> r)))) in
  let* r :=
    if posix && isColumnUsed "ssdeep" context then
      let* d := hc_on (genSsdeepForFile path) in ret (<["ssdeep" := d]> r)
    else ret r in
  let context := if FLAGS_disable_hash_cache then QueryContext_setCache path r context else context in
  ret (context, results ++ [r]).

(** The file system: patterns, kinds of files, the parent and the entries of a directory. *)
Context (resolveFilePattern : string -> M W (Status * list string)) (is_regular_file is_directory : string -> M W bool).
Context (parent_path : string -> string) (directory_entries : string -> M W (list string)).

(** [expandConstraints(column, LIKE, paths, ...)] ends at a pattern that fails. *)
Fixpoint expand_patterns (patterns : list string) (paths : gset string) : M W (gset string) :=
  match patterns with
  | [] => ret paths
  | p :: patterns =>
      let* (status, found) := resolveFilePattern p in
      if negb (Status_ok status) then ret paths else expand_patterns patterns (list_to_set found ∪ paths)
  end.

Definition expandFSPathConstraints (context : QueryContext) (column : string) (paths : gset string) : M W (gset string) :=
  expand_patterns (set_sorted (getAll LIKE (default ConstraintList_new (constraints context !! column)))) paths.

Definition hash_path (acc : QueryContext * QueryData) (path_string : string) : MC (QueryContext * QueryData) :=
  let* regular := hc_on (is_regular_file path_string) in
  if negb regular then ret acc else genHashForFile path_string (parent_path path_string) acc.1 acc.2.

Definition hash_directory (acc : QueryContext * QueryData) (directory_string : string) : MC (QueryContext * QueryData) :=
  let* dir := hc_on (is_directory directory_string) in
  if negb dir then ret acc
  else
    let* entries := hc_on (directory_entries directory_string) in
    for_fold entries acc (fun acc path =>
      let* regular := hc_on (is_regular_file path) in
      if regular then genHashForFile path directory_string acc.1 acc.2 else ret acc).

Definition genHash (context : QueryContext) : MC QueryData :=
  let equal column := getAll EQUALS (default ConstraintList_new (constraints context !! column)) in
  let* paths := hc_on (expandFSPathConstraints context "path" (equal "path")) in
  let* acc := for_fold (set_sorted paths) (context, []) hash_path in
  let* directories := hc_on (expandFSPathConstraints acc.1 "directory" (equal "directory")) in
  let* acc := for_fold (set_sorted directories) acc hash_directory in
  ret acc.2.
End Cache.

(** * File hashes: digests of parts, the bounded cache, eviction, transparency

    Hashing a file in parts gives the digest of its content. The heap and the map of the
    cache hold the same paths, the cache stays within its size, and what is evicted was
    used least recently. The cache returns what hashing would return as long as times and
    sizes tell contents apart. *)

(** ** Digests *)

(** What the digests promise: feeding two buffers is feeding their concatenation. *)
Class DigestLaws (G : Digest) := {
  dg_update_app t c a b : dg_update t (dg_update t c a) b = dg_update t c (a +:+ b);
  dg_update_empty t c : dg_update t c "" = c;
}.

Section Digests.
Context {G : Digest} {GL : DigestLaws G}.

(** The content the buffers hold. *)
Definition content_of (parts : list (string * Z)) : string :=
  foldr (fun p s => String.substring 0 (Z.to_nat p.2) p.1 +:+ s) "" parts.

Lemma hash_parts mask t c parts : wants mask t = true ->
  foldl (hash_part mask) (mkHash t c) parts = mkHash t (dg_update t c (content_of parts)).
Proof.
  intros Hw. revert c. induction parts as [|p parts IH]; intros c; cbn [foldl content_of foldr]; [by rewrite dg_update_empty|].
  unfold hash_part at 2, Hash_update. cbn [algorithm_ ctx_]. rewrite Hw, IH. by rewrite dg_update_app.
Qed.

(** However a file is cut into buffers, each digest that was asked for is that of the whole
    content, and the others are empty. *)
Theorem hash_of_a_file_is_that_of_its_content mask s parts :
  Status_ok s = true ->
  let digest t := if wants mask t then hashFromBuffer t (content_of parts) else "" in
  hashMulti mask s parts = mkHashes mask (digest MD5) (digest SHA1) (digest SHA256).
Proof.
  intros Hs digest. unfold hashMulti. rewrite Hs. cbn [negb].
  assert (forall t, (if wants mask t then Hash_digest (foldl (hash_part mask) (Hash_new t) parts) else "") = digest t) as H.
  { intros t. unfold digest. destruct (wants mask t) eqn:Hw; [|done]. unfold Hash_new. by rewrite hash_parts. }
  by rewrite !H.
Qed.

Lemma hex_byte_length b : String.length (hex_byte b) = 2%nat.
Proof. done. Qed.

(** A digest has two hexadecimal digits for each byte. *)
Lemma digest_length h : String.length (Hash_digest h) = (2 * length (dg_final (algorithm_ h) (ctx_ h)))%nat.
Proof.
  unfold Hash_digest. induction (dg_final _ _) as [|b l IH]; [done|]. cbn [foldr length]. rewrite length_app_str, IH, hex_byte_length. lia.
Qed.
End Digests.

(** ** Heaps *)

Lemma heap_root comp x l : weak_order comp -> is_heap comp (x :: l) -> forall y, y ∈ x :: l -> comp x y = false.
Proof.
  intros [Ha Ht] Hh y [i Hi]%list_elem_of_lookup. revert y Hi. induction i as [i IH] using lt_wf_ind. intros y Hi.
  destruct (decide (i = 0)%nat) as [->|Hi0]; [cbn in Hi; injection Hi as <-; destruct (comp x x) eqn:E; [rewrite (Ha _ _ E) in E|]; done|].
  assert ((i - 1) / 2 < i)%nat as Hlt by (apply Nat.Div0.div_lt_upper_bound; lia).
  destruct (lookup_lt_is_Some_2 (x :: l) ((i - 1) / 2)) as [p Hp]; [apply lookup_lt_Some in Hi; lia|].
  eapply Ht; [apply (Hh i p y); (done || lia)|by eapply IH].
Qed.

Lemma is_heap_ext comp comp' l : (forall x y, x ∈ l -> y ∈ l -> comp x y = comp' x y) -> is_heap comp l -> is_heap comp' l.
Proof. intros H Hh i x y Hx Hy Hi. rewrite <- H by (by eapply list_elem_of_lookup_2). by eapply Hh. Qed.

Lemma greater_order cache : weak_order (greater cache).
Proof. unfold greater. split; [intros x y; rewrite Z.ltb_lt, Z.ltb_ge; lia|]. intros x y z. rewrite !Z.ltb_ge. lia. Qed.

(** ** The cache *)

Section Cache.
Context {W : Type} {HH : HashHost W} {SH : StdHeap} {SL : StdHeapLaws SH}.
Context (FLAGS_hash_cache_max : Z) (hashAll : string -> M W MultiHashes).

(** The heap holds the paths of the map, each once, ordered by the time of the last use. *)
Record lru_inv (cache : gmap string FileHashCache) (lru : list string) : Prop := {
  lru_nodup : NoDup lru;
  lru_paths p : p ∈ lru <-> is_Some (cache !! p);
  lru_heap : is_heap (greater cache) lru;
}.

Lemma lru_size cache lru : lru_inv cache lru -> size cache = length lru.
Proof.
  intros [Hn Hp _]. rewrite <- size_dom, <- (size_list_to_set (C := gset string) lru) by done. f_equal. apply set_eq.
  intros p. rewrite elem_of_dom, elem_of_list_to_set. symmetry. apply Hp.
Qed.

Lemma access_delete cache key p : p <> key -> access (delete key cache) p = access cache p.
Proof. intros H. unfold access. by rewrite lookup_delete_ne. Qed.
Lemma access_insert cache key e p : p <> key -> access (<[key := e]> cache) p = access cache p.
Proof. intros H. unfold access. by rewrite lookup_insert_ne. Qed.

(** One turn of the eviction takes the path at the root out of both. *)
Lemma evict_one_inv cache key l : lru_inv cache (key :: l) ->
  exists l', evict_one (cache, key :: l) = (delete key cache, l') /\ l' ≡ₚ l /\ lru_inv (delete key cache) l'.
Proof.
  intros [Hn Hp Hh]. unfold evict_one. cbn [fst snd].
  destruct (pop_heap_heap (greater cache) key l (greater_order cache) Hh) as (l' & El & Hl').
  pose proof (pop_heap_perm (greater cache) (key :: l)) as Hperm. rewrite El, Permutation_app_comm in Hperm. cbn in Hperm. apply Permutation.Permutation_cons_inv in Hperm.
  exists l'. rewrite El, removelast_last. split; [done|]. split; [done|]. apply NoDup_cons in Hn as [Hkl Hn]. split.
  - by rewrite Hperm.
  - intros p. rewrite Hperm, lookup_delete_is_Some, <- Hp, elem_of_cons. split; [intros H; split; [by intros ->|by right]|]. intros [H1 [H2|H2]]; [congruence|done].
  - eapply is_heap_ext; [|exact Hl']. intros x y Hx Hy. rewrite Hperm in Hx, Hy. unfold greater. rewrite !access_delete; [done|by intros ->..].
Qed.

Lemma evict_iter n cache lru : lru_inv cache lru ->
  exists cache' lru' gone, Nat.iter n evict_one (cache, lru) = (cache', lru') /\ lru_inv cache' lru' /\
    lru ≡ₚ gone ++ lru' /\ length gone = Nat.min n (length lru) /\
    (forall p, p ∈ lru' -> cache' !! p = cache !! p) /\
    (forall e k, e ∈ gone -> k ∈ lru' -> (access cache e <= access cache k)%Z).
Proof.
  intros Hi. induction n as [|n IH].
  { exists cache, lru, []. repeat split; try done; [apply Hi..|]. intros e k H. by apply not_elem_of_nil in H. }
  destruct IH as (cache1 & lru1 & gone & E & Hi1 & Hp & Hl & Hc & Ho). change (Nat.iter (S n) evict_one (cache, lru)) with (evict_one (Nat.iter n evict_one (cache, lru))). rewrite E.
  pose proof (Permutation_length Hp) as Hlen. rewrite length_app in Hlen.
  destruct lru1 as [|key l].
  { exists cache1, [], gone. repeat split; try done; [apply Hi1..|]. cbn in Hlen. lia. }
  destruct (evict_one_inv cache1 key l Hi1) as (l' & E1 & Hperm & Hi2). exists (delete key cache1), l', (gone ++ [key]).
  pose proof (lru_nodup _ _ Hi1) as [Hkl _]%NoDup_cons.
  split; [done|]. split; [done|]. split; [by rewrite Hp, <- app_assoc, Hperm|]. split; [rewrite length_app; cbn [length] in Hlen |- *; lia|]. split.
  - intros p H. rewrite Hperm in H. rewrite lookup_delete_ne by (by intros ->). apply Hc. by right.
  - intros e k He Hk. rewrite Hperm in Hk. apply elem_of_app in He as [He| ->%list_elem_of_singleton]; [apply Ho; [done|by right]|].
    pose proof (heap_root _ _ _ (greater_order cache1) (lru_heap _ _ Hi1) k ltac:(by right)) as Hr. unfold greater in Hr. apply Z.ltb_ge in Hr.
    assert (forall p, p ∈ key :: l -> access cache1 p = access cache p) as Ha by (intros p Hpp; unfold access; by rewrite Hc).
    rewrite !Ha in Hr by (by left || by right). done.
Qed.

(** A cache that is full gives up as many entries as the eviction takes, and those were not
    used after any that stay. *)
Theorem evicted_entries_are_the_least_recent cache lru :
  lru_inv cache lru ->
  exists cache' lru' gone, evict (cache, lru) = (cache', lru') /\ lru_inv cache' lru' /\
    lru ≡ₚ gone ++ lru' /\ length gone = Nat.min kHashCacheEvictSize (length lru) /\
    (forall p, p ∈ lru' -> cache' !! p = cache !! p) /\
    forall e k, e ∈ gone -> k ∈ lru' -> (access cache e <= access cache k)%Z.
Proof. apply evict_iter. Qed.

Record cache_inv (c : HashCache W) : Prop := {
  ci_lru : lru_inv (hc_cache c) (hc_lru c);
  ci_size : (Z.of_nat (size (hc_cache c)) <= Z.max 1 FLAGS_hash_cache_max)%Z;
}.

Lemma insert_new_inv cache lru path e : lru_inv cache lru -> cache !! path = None ->
  lru_inv (<[path := e]> cache) (push_heap (greater (<[path := e]> cache)) (lru ++ [path])).
Proof.
  intros [Hn Hp Hh] Hnone. assert (path ∉ lru) as Hout by (rewrite Hp, Hnone; by intros []).
  set (cache' := <[path := e]> cache). pose proof (push_heap_perm (greater cache') (lru ++ [path])) as Hperm. split.
  - rewrite Hperm. apply NoDup_app. repeat split; [done| |apply NoDup_singleton]. by intros x Hx ->%list_elem_of_singleton.
  - intros p. rewrite Hperm, elem_of_app, list_elem_of_singleton, Hp. unfold cache'. rewrite lookup_insert_is_Some. destruct (decide (path = p)); naive_solver.
  - apply push_heap_heap; [apply greater_order|]. eapply is_heap_ext; [|exact Hh]. intros x y Hx Hy. unfold greater, cache'.
    rewrite !access_insert; [done|by intros ->..].
Qed.

Lemma insert_known_inv cache lru path e0 e : lru_inv cache lru -> cache !! path = Some e0 ->
  lru_inv (<[path := e]> cache) (make_heap (greater (<[path := e]> cache)) lru).
Proof.
  intros [Hn Hp Hh] Hsome. set (cache' := <[path := e]> cache). pose proof (make_heap_perm (greater cache') lru) as Hperm. split.
  - by rewrite Hperm.
  - intros p. rewrite Hperm, Hp. unfold cache'. rewrite lookup_insert_is_Some. destruct (decide (path = p)) as [->|]; [|naive_solver].
    rewrite Hsome. split; [by left|by eexists].
  - apply make_heap_heap, greater_order.
Qed.

(** The cache an entry is added to. *)
Lemma make_room c path : cache_inv c -> hc_cache c !! path = None ->
  exists cache lru, (if too_large FLAGS_hash_cache_max (hc_cache c) then evict (hc_cache c, hc_lru c) else (hc_cache c, hc_lru c)) = (cache, lru) /\
    lru_inv cache lru /\ cache !! path = None /\ (Z.of_nat (size cache) + 1 <= Z.max 1 FLAGS_hash_cache_max)%Z.
Proof.
  intros [Hl Hs] Hnone. unfold too_large. destruct (Z.leb_spec FLAGS_hash_cache_max (Z.of_nat (size (hc_cache c)))).
  - destruct (evict_iter kHashCacheEvictSize _ _ Hl) as (cache & lru & gone & E & Hi & Hp & Hg & Hc & _). exists cache, lru.
    split; [exact E|]. split; [done|]. split.
    + destruct (cache !! path) as [e|] eqn:Ep; [|done]. assert (path ∈ lru) as Hin by (apply (lru_paths _ _ Hi); by eexists).
      rewrite <- Ep, (Hc path Hin). done.
    + apply Permutation_length in Hp. rewrite length_app in Hp. unfold kHashCacheEvictSize in Hg.
      rewrite (lru_size _ _ Hi). rewrite (lru_size _ _ Hl) in Hs. lia.
  - exists (hc_cache c), (hc_lru c). repeat split; try done; [apply Hl..|lia].
Qed.

Lemma hc_on_run {A} (m : M W A) (c : HashCache W) :
  hc_on m c = ((m (hc_world c)).1, mkCache (m (hc_world c)).2 (hc_cache c) (hc_lru c)).
Proof. unfold hc_on, zoom. by destruct (m (hc_world c)). Qed.

Lemma load_inv path (c : HashCache W) : cache_inv c -> cache_inv (load FLAGS_hash_cache_max hashAll path c).2.
Proof.
  intros Hc. unfold load. unfold bind at 1. rewrite hc_on_run. destruct (hh_stat path (hc_world c)) as [[[st|]|e] w1]; cbn [fst snd]; [|by destruct Hc..].
  rewrite bind_gets. cbn [hc_cache]. destruct (hc_cache c !! path) as [entry|] eqn:Ef.
  - assert (forall w e', cache_inv (mkCache w (<[path := e']> (hc_cache c)) (make_heap (greater (<[path := e']> (hc_cache c))) (hc_lru c)))) as Hk.
    { intros w e'. destruct Hc as [Hl Hs]. split; cbn; [by eapply insert_known_inv|]. by rewrite map_size_insert_Some by (by eexists). }
    destruct (statInvalid st entry); unfold load_changed, load_known, bind, modify, ret; rewrite hc_on_run; cbn [hc_world hc_cache hc_lru].
    + destruct (hashAll path w1) as [[hs|e] w2]; cbn [fst snd]; [|by destruct Hc]. rewrite hc_on_run. cbn [hc_world hc_cache hc_lru].
      destruct (hh_time w2) as [[now|e] w3]; cbn; [apply Hk|by destruct Hc].
    + destruct (hh_time w1) as [[now|e] w3]; cbn; [apply Hk|by destruct Hc].
  - destruct (make_room c path Hc Ef) as (cache & lru & Er & Hi & Hn & Hsz).
    unfold load_new, bind, modify, ret. cbn [hc_cache hc_lru hc_world]. rewrite Er, hc_on_run. cbn [hc_world hc_cache hc_lru fst snd].
    assert (forall w, cache_inv (mkCache w cache lru)) as Hr by (intros w; split; cbn; [done|lia]).
    destruct (hashAll path w1) as [[hs|e] w2]; cbn [fst snd]; [|apply Hr]. rewrite hc_on_run. cbn [hc_world hc_cache hc_lru].
    destruct (hh_time w2) as [[now|e] w3]; cbn; [|apply Hr]. split; cbn; [by apply insert_new_inv|].
    rewrite map_size_insert_None by done. lia.
Qed.

Fixpoint load_all (paths : list string) : M (HashCache W) (list (option MultiHashes)) :=
  match paths with
  | [] => ret []
  | p :: paths => let* h := load FLAGS_hash_cache_max hashAll p in let* hs := load_all paths in ret (h :: hs)
  end.

(** However many files are hashed, and whether a read fails or throws: the heap and the map
    hold the same paths, the heap is one, and the cache holds at most as many entries as
    it may, or one. *)
Theorem cache_stays_within_its_size paths (c : HashCache W) : cache_inv c -> cache_inv (load_all paths c).2.
Proof.
  revert c. induction paths as [|p paths IH]; intros c Hc; cbn [load_all]; [done|].
  pose proof (load_inv p c Hc) as H1. unfold bind at 1. destruct (load _ _ p c) as [[h|e] c1]; [|done].
  pose proof (IH c1 H1) as H2. unfold bind. by destruct (load_all paths c1) as [[hs|e] c2].
Qed.
End Cache.

(** ** Transparency *)

Section Transparency.
Context {W : Type} {HH : HashHost W} {SH : StdHeap} {SL : StdHeapLaws SH}.
Context (FLAGS_hash_cache_max : Z) (hashAll : string -> M W MultiHashes).
(** The file system of a world: what a path is and what hashing it gives; looking does not
    change it. *)
Context (stat_of : W -> string -> option file_stat) (digest_of : W -> string -> MultiHashes) (clock : W -> Z).
Hypothesis stat_run : forall path w, hh_stat path w = (Ok (stat_of w path), w).
Hypothesis hash_run : forall path w, hashAll path w = (Ok (digest_of w path), w).
Hypothesis time_run : forall w, hh_time w = (Ok (clock w), w).

(** Hashing without a cache. *)
Definition reference (v : W * string) : option MultiHashes :=
  match stat_of v.1 v.2 with Some _ => Some (digest_of v.1 v.2) | None => None end.

(** The visits of a history: a path is asked for in a world. *)
Fixpoint visits (vs : list (W * string)) (c : HashCache W) : list (option MultiHashes) :=
  match vs with
  | [] => []
  | v :: vs =>
      let '(r, c') := load FLAGS_hash_cache_max hashAll v.2 (mkCache v.1 (hc_cache c) (hc_lru c)) in
      match r with Ok h => h :: visits vs c' | Throw _ => [] end
  end.

Definition empty_cache (w : W) : HashCache W := mkCache w ∅ [].

(** The loads in a world without failures. *)
Lemma load_run path w cache lru :
  exists c', hc_world c' = w /\
  load FLAGS_hash_cache_max hashAll path (mkCache w cache lru) =
    (Ok (match stat_of w path with
         | None => None
         | Some st => Some (match cache !! path with
                            | Some e => if statInvalid st e then digest_of w path else hashes e
                            | None => digest_of w path
                            end)
         end), c') /\
  forall st, stat_of w path = Some st ->
    match cache !! path with
    | Some e => if statInvalid st e then hc_cache c' = <[path := mkEntry (st_mtime st) (file_inode e) (st_size st) (clock w) (digest_of w path)]> cache
                else hc_cache c' = <[path := mkEntry (file_mtime e) (file_inode e) (file_size e) (clock w) (hashes e)]> cache
    | None => exists cache0, cache0 ⊆ cache /\ hc_cache c' = <[path := mkEntry (st_mtime st) (st_ino st) (st_size st) (clock w) (digest_of w path)]> cache0
    end.
Proof.
  unfold load. rewrite (bind_run _ _ _ (stat_of w path) (mkCache w cache lru)) by (rewrite hc_on_run; cbn; by rewrite stat_run).
  destruct (stat_of w path) as [st|]; [|by exists (mkCache w cache lru)]. rewrite bind_gets. cbn [hc_cache].
  destruct (cache !! path) as [e|] eqn:Ef; [destruct (statInvalid st e) eqn:Es|].
  - unfold load_changed, bind, modify, ret. rewrite hc_on_run. cbn [hc_world hc_cache hc_lru]. rewrite hash_run. cbn [fst snd]. rewrite hc_on_run.
    cbn [hc_world hc_cache hc_lru]. rewrite time_run. cbn [fst snd]. eexists. split; [|split; [reflexivity|]]; [done|]. intros ? [= <-]. by rewrite Es.
  - unfold load_known, bind, modify, ret. rewrite hc_on_run. cbn [hc_world hc_cache hc_lru]. rewrite time_run. cbn [fst snd].
    eexists. split; [|split; [reflexivity|]]; [done|]. intros ? [= <-]. by rewrite Es.
  - unfold load_new, bind, modify, ret. cbn [hc_world hc_cache hc_lru]. rewrite hc_on_run. cbn [hc_world hc_cache hc_lru]. rewrite hash_run. cbn [fst snd].
    rewrite hc_on_run. cbn [hc_world hc_cache hc_lru]. rewrite time_run. cbn [fst snd]. eexists. split; [|split; [reflexivity|]]; [done|].
    intros ? [= <-]. eexists. split; [|reflexivity]. destruct (too_large _ _); [|done]. unfold evict. clear.
    generalize kHashCacheEvictSize. intros n. induction n as [|n IH]; [done|].
    change (Nat.iter (S n) evict_one (cache, lru)) with (evict_one (Nat.iter n evict_one (cache, lru))). etrans; [|exact IH].
    unfold evict_one. destruct (Nat.iter n _ _) as [m [|k l]]; cbn; [done|apply delete_subseteq].
Qed.

(** What an entry says was so in a world that was seen. *)
Definition entries_true (seen : W -> Prop) (cache : gmap string FileHashCache) : Prop :=
  forall path e, cache !! path = Some e -> exists w st, seen w /\ stat_of w path = Some st /\
    file_mtime e = st_mtime st /\ file_size e = st_size st /\ hashes e = digest_of w path.

Lemma statInvalid_false st e : statInvalid st e = false -> st_mtime st = file_mtime e /\ st_size st = file_size e /\ st_ino st = file_inode e.
Proof. unfold statInvalid. destruct (Z.eqb_spec (st_ino st) (file_inode e)), (Z.eqb_spec (st_mtime st) (file_mtime e)), (Z.eqb_spec (st_size st) (file_size e)); done. Qed.

Lemma load_true seen w path cache lru :
  (forall w w' path st st', seen w -> seen w' -> stat_of w path = Some st -> stat_of w' path = Some st' ->
     st_mtime st = st_mtime st' -> st_size st = st_size st' -> digest_of w path = digest_of w' path) ->
  seen w -> entries_true seen cache ->
  exists c', load FLAGS_hash_cache_max hashAll path (mkCache w cache lru) = (Ok (reference (w, path)), c') /\ entries_true seen (hc_cache c').
Proof.
  intros Htell Hw Ht. destruct (load_run path w cache lru) as (c' & Hc' & E & Hnew). exists c'. unfold reference. cbn [fst snd].
  destruct (stat_of w path) as [st|] eqn:Est.
  2: { split; [done|]. clear Hnew. unfold load in E. rewrite (bind_run _ _ _ None (mkCache w cache lru)) in E by (rewrite hc_on_run; cbn; by rewrite stat_run, Est).
       injection E as <-. done. }
  specialize (Hnew st eq_refl). destruct (cache !! path) as [e|] eqn:Ef; [destruct (statInvalid st e) eqn:Es|].
  - split; [done|]. rewrite Hnew. intros p e' He'. destruct (decide (path = p)) as [<-|Hne]; [|rewrite lookup_insert_ne in He' by done; by apply Ht].
    rewrite lookup_insert_eq in He'. injection He' as <-. by exists w, st.
  - destruct (statInvalid_false _ _ Es) as (Hm & Hs & _). destruct (Ht path e Ef) as (w0 & st0 & Hw0 & Hst0 & Hm0 & Hs0 & Hh0).
    assert (hashes e = digest_of w path) as Hh by (rewrite Hh0; eapply Htell; [done|done|exact Hst0|exact Est|congruence..]).
    split; [by rewrite E, Hh|]. rewrite Hnew. intros p e' He'. destruct (decide (path = p)) as [<-|Hne]; [|rewrite lookup_insert_ne in He' by done; by apply Ht].
    rewrite lookup_insert_eq in He'. injection He' as <-. exists w0, st0. cbn. done.
  - destruct Hnew as (cache0 & Hsub & Hnew). split; [done|]. rewrite Hnew. intros p e' He'. destruct (decide (path = p)) as [<-|Hne].
    + rewrite lookup_insert_eq in He'. injection He' as <-. by exists w, st.
    + rewrite lookup_insert_ne in He' by done. apply Ht. by eapply lookup_weaken.
Qed.

(** C39: As long as the time of modification and the size tell the contents of a path apart, the
    cache returns for every visit what hashing the file then would have returned. *)
Theorem cached_hashes_are_those_of_the_files vs w0 :
  (forall w w' path st st', w ∈ vs.*1 -> w' ∈ vs.*1 -> stat_of w path = Some st -> stat_of w' path = Some st' ->
     st_mtime st = st_mtime st' -> st_size st = st_size st' -> digest_of w path = digest_of w' path) ->
  visits vs (empty_cache w0) = reference <$> vs.
Proof.
  intros Htell. assert (forall vs' c, (forall v, v ∈ vs' -> v.1 ∈ vs.*1) -> entries_true (fun w => w ∈ vs.*1) (hc_cache c) ->
    visits vs' c = reference <$> vs') as H.
  { clear w0. induction vs' as [|[w path] vs' IH]; intros c Hin Ht; [done|]. cbn [visits fst snd fmap list_fmap].
    destruct (load_true (fun w => w ∈ vs.*1) w path (hc_cache c) (hc_lru c) Htell (Hin _ ltac:(left)) Ht) as (c' & E & Ht').
    rewrite E. f_equal. apply IH; [|done]. intros v Hv. apply Hin. by right. }
  apply H; [|unfold entries_true; cbn [empty_cache hc_cache]; by intros path e ?%lookup_empty_Some]. intros v Hv. by apply list_elem_of_fmap_2.
Qed.

(** The inode of an entry is never updated. When a file was replaced by another inode and
    then by one with the first inode again, its old hashes are returned although time and
    inode say it changed since they were made. *)
Theorem replaced_file_keeps_old_hashes path w1 w2 w3 st1 st2 st3 w0 :
  stat_of w1 path = Some st1 -> stat_of w2 path = Some st2 -> stat_of w3 path = Some st3 ->
  st_ino st1 <> st_ino st2 -> st_ino st3 = st_ino st1 -> st_mtime st3 = st_mtime st2 -> st_size st3 = st_size st2 ->
  visits [(w1, path); (w2, path); (w3, path)] (empty_cache w0) = [Some (digest_of w1 path); Some (digest_of w2 path); Some (digest_of w2 path)].
Proof.
  intros E1 E2 E3 Hi Hi3 Hm3 Hs3. cbn [visits fst snd empty_cache hc_cache hc_lru].
  destruct (load_run path w1 ∅ []) as (c1 & _ & -> & H1). rewrite E1 in *. specialize (H1 st1 eq_refl).
  rewrite lookup_empty in H1 |- *. destruct H1 as (cache0 & _ & H1).
  destruct (load_run path w2 (hc_cache c1) (hc_lru c1)) as (c2 & _ & -> & H2). rewrite E2 in *. specialize (H2 st2 eq_refl).
  rewrite H1 in H2 |- *. rewrite lookup_insert_eq in H2 |- *.
  replace (statInvalid st2 _) with true in H2 |- * by (unfold statInvalid; cbn; destruct (Z.eqb_spec (st_ino st2) (st_ino st1)); [congruence|done]).
  destruct (load_run path w3 (hc_cache c2) (hc_lru c2)) as (c3 & _ & -> & _). rewrite E3, H2, lookup_insert_eq.
  unfold statInvalid. cbn. rewrite Hi3, Hm3, Hs3, !Z.eqb_refl. done.
Qed.

(** Hashes that could not be made are kept too: a file that could not be read once has no
    hashes until it changes. *)
Theorem failed_hash_is_kept path w1 w2 st w0 :
  stat_of w1 path = Some st -> stat_of w2 path = Some st -> digest_of w1 path = no_hashes ->
  visits [(w1, path); (w2, path)] (empty_cache w0) = [Some no_hashes; Some no_hashes].
Proof.
  intros E1 E2 Hd. cbn [visits fst snd empty_cache hc_cache hc_lru].
  destruct (load_run path w1 ∅ []) as (c1 & _ & -> & H1). rewrite E1 in *. specialize (H1 st eq_refl).
  rewrite lookup_empty in H1 |- *. destruct H1 as (cache0 & _ & H1).
  destruct (load_run path w2 (hc_cache c1) (hc_lru c1)) as (c2 & _ & -> & _). rewrite E2, H1, lookup_insert_eq.
  unfold statInvalid. cbn. by rewrite !Z.eqb_refl, Hd.
Qed.

Lemma gen_missing posix ssdeep sleep path dir context rows (c : HashCache W) :
  isColumnUsed "ssdeep" context = false -> QueryContext_isCached path context = false -> sleep (hc_world c) = (Ok tt, hc_world c) ->
  exists row, genHashForFile FLAGS_hash_cache_max hashAll true posix ssdeep sleep path dir context rows c
    = (Ok (QueryContext_setCache path row context, rows ++ [row]), c) /\ row !! "sha256" = Some (mh_sha256 (digest_of (hc_world c) path)).
Proof.
  intros Hu Hc Hs. unfold genHashForFile. cbn [negb]. rewrite Hc. destruct c as [w ca l]. cbn [hc_world] in *.
  rewrite (bind_run _ _ _ (∅, digest_of w path, context) (mkCache w ca l)).
  - cbv beta iota zeta. rewrite Hu, andb_false_r. unfold bind, ret. eexists. split; [reflexivity|]. by rewrite lookup_insert_eq.
  - rewrite (bind_run _ _ _ (digest_of w path) (mkCache w ca l)) by (rewrite hc_on_run; cbn; by rewrite hash_run).
    by rewrite (bind_run _ _ _ tt (mkCache w ca l)) by (rewrite hc_on_run; cbn; by rewrite Hs).
Qed.

Lemma gen_cached posix ssdeep sleep path dir context rows (c : HashCache W) :
  isColumnUsed "ssdeep" context = false -> QueryContext_isCached path context = true ->
  exists context' row, genHashForFile FLAGS_hash_cache_max hashAll true posix ssdeep sleep path dir context rows c
    = (Ok (context', rows ++ [row]), c) /\ row !! "sha256" = Some "".
Proof.
  intros Hu Hc. unfold genHashForFile. cbn [negb]. rewrite Hc. unfold QueryContext_getCache. unfold bind at 1, ret at 1. cbv beta iota zeta.
  replace (isColumnUsed "ssdeep" (set_cache _ _)) with false by (symmetry; exact Hu).
  rewrite andb_false_r. unfold bind, ret. eexists _, _. split; [reflexivity|]. by rewrite lookup_insert_eq.
Qed.

(** With the cache disabled a path that a query meets twice has its hashes in the first row
    only: the row kept for the second is overwritten with empty hashes. *)
Theorem second_row_has_no_hashes posix ssdeep sleep path dir context rows (c : HashCache W) :
  isColumnUsed "ssdeep" context = false -> cache context = ∅ -> sleep (hc_world c) = (Ok tt, hc_world c) ->
  exists context1 context2 row1 row2 c1 c2,
    genHashForFile FLAGS_hash_cache_max hashAll true posix ssdeep sleep path dir context rows c = (Ok (context1, rows ++ [row1]), c1) /\
    genHashForFile FLAGS_hash_cache_max hashAll true posix ssdeep sleep path dir context1 (rows ++ [row1]) c1 = (Ok (context2, rows ++ [row1] ++ [row2]), c2) /\
    row1 !! "sha256" = Some (mh_sha256 (digest_of (hc_world c) path)) /\ row2 !! "sha256" = Some "".
Proof.
  intros Hu Hc Hs. destruct (gen_missing posix ssdeep sleep path dir context rows c) as (row1 & E1 & H1); [done| |done|].
  { unfold QueryContext_isCached. by rewrite Hc, lookup_empty. }
  destruct (gen_cached posix ssdeep sleep path dir (QueryContext_setCache path row1 context) (rows ++ [row1]) c) as (context2 & row2 & E2 & H2); [done| |].
  { unfold QueryContext_isCached, QueryContext_setCache. cbn. by rewrite lookup_insert_eq. }
  exists (QueryContext_setCache path row1 context), context2, row1, row2, c, c. by rewrite E2, <- app_assoc.
Qed.
End Transparency.

(** ** A heap

    A sorted list is a heap: the operations can be had. *)
Section SortingHeap.
Context (comp : string -> string -> bool).

Definition not_behind (x y : string) : Prop := comp x y = false.
#[local] Instance not_behind_dec x y : Decision (not_behind x y) := decide (comp x y = false).

Definition sort_heap (l : list string) : list string := merge_sort not_behind l.

Lemma sorted_is_heap l : StronglySorted not_behind l -> is_heap comp l.
Proof.
  intros Hs i x y Hx Hy Hi. assert ((i - 1) / 2 < i)%nat as Hlt by (apply Nat.Div0.div_lt_upper_bound; lia).
  revert Hx Hlt. generalize ((i - 1) / 2)%nat. intros j Hx Hlt. clear Hi. revert i j Hx Hy Hlt.
  induction Hs as [|z l Hs IH Hall]; intros i j Hx Hy Hlt; [done|]. destruct i as [|i]; [lia|]. destruct j as [|j].
  - cbn in Hx. injection Hx as <-. cbn in Hy. rewrite Forall_forall in Hall. by eapply Hall, list_elem_of_lookup_2.
  - cbn in Hx, Hy. eapply IH; [done..|lia].
Qed.


Lemma sort_heap_heap l : weak_order comp -> is_heap comp (sort_heap l).
Proof.
  intros [Ha Ht]. apply sorted_is_heap. unfold sort_heap. apply StronglySorted_merge_sort.
  - intros x y z Hxy Hyz. unfold not_behind in *. by eapply Ht.
  - intros x y. unfold not_behind. destruct (comp x y) eqn:E; [right; by apply Ha|by left].
Qed.
End SortingHeap.

Definition sorting_heap : StdHeap := {|
  push_heap comp l := sort_heap comp l;
  make_heap comp l := sort_heap comp l;
  pop_heap comp l := match l with [] => [] | x :: l => sort_heap comp l ++ [x] end;
|}.

#[export] Instance sorting_heap_laws : StdHeapLaws sorting_heap.
Proof.
  split; cbn [push_heap pop_heap make_heap sorting_heap]; unfold sort_heap.
  - intros. apply merge_sort_Permutation.
  - intros comp [|x l]; [done|]. rewrite merge_sort_Permutation. symmetry. apply Permutation_cons_append.
  - intros. apply merge_sort_Permutation.
  - intros. by apply sort_heap_heap.
  - intros comp x l Hw _. eexists. split; [done|]. by apply sort_heap_heap.
  - intros. by apply sort_heap_heap.
Qed.
