(* ===== verification/Aws.v ===== *)
(** * The AWS loggers (osquery/logger/plugins/aws_log_forwarder.h, aws_kinesis.cpp,
    aws_firehose.cpp, appendLogTypeToJson of osquery/utils/aws_util.cpp)

    Log lines become records, records are put into batches within the limits of the
    service, and a batch is sent again with what the service did not take. The service,
    the waits and the log are a class of operations; boost's property tree another. *)
From S2P Require Import Prelude Boost Conversions BufferedFacts.

(** ** Lines *)

(** [boost::property_tree] and its JSON form; a parse or print that throws is [inr]. *)
Class PropertyTree := {
  ptree : Type;
  pt_read : string -> ptree + string;
  pt_put : string -> string -> ptree -> ptree;
  pt_write : ptree -> string + string;
}.

(** The log line without its last character. *)
Definition pop_back (s : string) : string := String.substring 0 (String.length s - 1) s.

Definition appendLogTypeToJson {P : PropertyTree} (log_type log : string) : Status * string :=
  if bool_decide (log_type = "") then (mkStatus 1 "log_type is empty", log)
  else if bool_decide (log = "") then (mkStatus 1 "original JSON is empty", log)
  else match pt_read log with
       | inr what => (mkStatus 1 ("JSON deserialization exception: " +:+ what), log)
       | inl params =>
           match pt_write (pt_put "log_type" log_type params) with
           | inr what => (mkStatus 1 ("JSON serialization exception: " +:+ what), log)
           | inl output => (mkStatus 0 "OK", pop_back output)
           end
       end.

(** ** Batches *)

Record record := mkRecord { rec_key : string; rec_data : string }.
Definition Batch := list record.
Definition BatchList := list Batch.

(** What a service allows. *)
Record limits := mkLimits {
  getMaxBytesPerRecord : Z;
  getMaxRecordsPerBatch : Z;
  getMaxBytesPerBatch : Z;
  getMaxRetryCount : nat;
  getInitialRetryDelay : Z;
  appendNewlineSeparators : bool;
}.

Definition kinesis : limits := mkLimits (1000000 - 256) 500 5000000 100 3000 false.
Definition firehose : limits := mkLimits 1000000 500 4000000 100 3000 true.

(** The answer of the service to a batch: the request failed, or the number of records that
    failed and an error code for each record, empty if it was taken. *)
Inductive outcome := RequestFailed (message : string) | Answered (failed_record_count : Z) (codes : list string).

Class AwsService (W : Type) := {
  sv_send : Batch -> M W outcome;
  sv_pause : Z -> M W unit;
  sv_log : string -> M W unit;
}.

Section Forwarder.
Context {W : Type} {SV : AwsService W} {P : PropertyTree}.
Context (L : limits) (name_ : string) (initializeRecord : string -> M W record).
Local Open Scope Z_scope.

Definition newline_char : string := String "010" "".

(** The bytes of a record: the terminating NUL is replaced by a line feed. *)
Definition record_text (line : string) : string := if appendNewlineSeparators L then line +:+ newline_char else line.
Definition record_size (line : string) : Z := Z.of_nat (String.length line) + (if appendNewlineSeparators L then 1 else 0).

Record batching := mkBatching { batch_list : BatchList; current_batch : Batch; current_batch_byte_size : Z; discarded_records : list string }.

Definition full (b : batching) (size : Z) : bool :=
  (getMaxBytesPerBatch L <=? current_batch_byte_size b + size) || (getMaxRecordsPerBatch L <=? Z.of_nat (length (current_batch b))).

Definition too_big (size : Z) : bool := (getMaxBytesPerRecord L <=? size) || (getMaxBytesPerBatch L <=? size).

(** One line of the log. *)
Definition consume_record (log_type : string) (b : batching) (record : string) : M W batching :=
  let '(status, record) := appendLogTypeToJson log_type record in
  if negb (Status_ok status) then
    sv_log (name_ +:+ ": The following log record has been discarded because it was not in JSON format: " +:+ record) ;;; ret b
  else
    let size := record_size record in
    if too_big size then ret (mkBatching (batch_list b) (current_batch b) (current_batch_byte_size b) (discarded_records b ++ [record]))
    else
      let b := if full b size then mkBatching (batch_list b ++ [current_batch b]) [] 0 (discarded_records b) else b in
      let* r := initializeRecord (record_text record) in
      ret (mkBatching (batch_list b) (current_batch b ++ [r]) (current_batch_byte_size b + size) (discarded_records b)).

Definition consumeDataAndGenerateBatches (log_type : string) (log_data : list string) : M W (BatchList * list string) :=
  let* b := for_fold log_data (mkBatching [] [] 0 []) (consume_record log_type) in
  ret (match current_batch b with [] => batch_list b | _ => batch_list b ++ [current_batch b] end, discarded_records b).

(** ** Sending *)

(** The delay before an attempt, in milliseconds. *)
Definition retry_delay (retry : nat) : Z := (if (retry =? 0)%nat then 0 else getInitialRetryDelay L) + Z.of_nat retry * 1000.

(** The records that are left: those with an error code. An index outside of the answer has
    no value. *)
Fixpoint remaining (batch : Batch) (codes : list string) : option Batch :=
  match batch with
  | [] => Some []
  | r :: batch =>
      match codes with
      | [] => None
      | code :: codes => rest ← remaining batch codes; Some (if bool_decide (code = "") then rest else r :: rest)
      end
  end.

Definition error_message (o : outcome) : string := match o with RequestFailed m => m | Answered _ _ => "" end.

Definition add_status (status_output message : string) : string :=
  (if bool_decide (status_output = "") then "" else status_output +:+ newline_char) +:+ message.

(** The attempts from number [retry] on: whether all was taken, what is left of the batch
    and the errors. [None]: the answer has fewer codes than the batch has records. *)
Fixpoint send_attempts (left_ retry : nat) (batch : Batch) (status_output : string) : M W (option (bool * Batch * string)) :=
  match left_ with
  | O => ret (Some (false, batch, status_output))
  | S left_ =>
      (if negb (retry_delay retry =? 0) then sv_pause (retry_delay retry) else ret tt) ;;;
      let* outcome := sv_send batch in
      let failed_record_count := match outcome with RequestFailed _ => Z.of_nat (length batch) | Answered n _ => n end in
      if failed_record_count =? 0 then ret (Some (true, batch, status_output))
      else
        let status_output := match left_ with O => add_status status_output (error_message outcome) | _ => status_output end in
        match outcome with
        | RequestFailed m => sv_log (name_ +:+ ": Complete request failure: " +:+ m) ;;; send_attempts left_ (S retry) batch status_output
        | Answered _ codes =>
            match remaining batch codes with
            | Some batch => send_attempts left_ (S retry) batch status_output
            | None => ret None
            end
        end
  end.

Definition sendBatch (batch : Batch) (status_output : string) : M W (option (bool * Batch * string)) :=
  send_attempts (getMaxRetryCount L) 0 batch status_output.

Fixpoint dump_records (index : nat) (batch : Batch) : string :=
  match batch with
  | [] => ""
  | r :: batch =>
      "Record #" +:+ to_string (Z.of_nat index) +:+ ": " +:+ rec_data r +:+
      (match batch with [] => "" | _ => newline_char +:+ dump_records (S index) batch end)
  end.

Definition dumpBatchToErrorLog (batch : Batch) : M W unit :=
  sv_log (name_ +:+ " logger: Failed to write the following records:" +:+ newline_char +:+ dump_records 1 batch).

Definition dumpDiscardedRecordsToErrorLog (discarded : list string) : M W unit :=
  match discarded with
  | [] => ret tt
  | _ => sv_log (name_ +:+ ": The following log records have been discarded because they were too big:" +:+ newline_char +:+
           foldr (fun r s => r +:+ newline_char +:+ s) "" discarded)
  end.

Fixpoint send_batches (batches : BatchList) (error_count : nat) (status_output : string) : M W (option (nat * string)) :=
  match batches with
  | [] => ret (Some (error_count, status_output))
  | batch :: batches =>
      let* r := sendBatch batch status_output in
      match r with
      | None => ret None
      | Some (true, _, status_output) => send_batches batches error_count status_output
      | Some (false, batch, status_output) => dumpBatchToErrorLog batch ;;; send_batches batches (S error_count) status_output
      end
  end.

Definition AwsLogForwarder_send (log_data : list string) (log_type : string) : M W (option Status) :=
  let* (batches, discarded) := consumeDataAndGenerateBatches log_type log_data in
  dumpDiscardedRecordsToErrorLog discarded ;;;
  let* r := send_batches batches 0 "" in
  ret (match r with
       | None => None
       | Some (O, _) => Some (mkStatus 0 "OK")
       | Some (_, status_output) => Some (mkStatus 1 status_output)
       end).
End Forwarder.

(** ** The two services *)

Section Plugins.
Context {W : Type}.

(** A random key for each record, or the host for all. *)
Definition kinesis_record (FLAGS_aws_kinesis_random_partition_key : bool) (partition_key_ : string) (random_uuid : M W string)
    (buffer : string) : M W record :=
  if FLAGS_aws_kinesis_random_partition_key then let* key := random_uuid in ret (mkRecord key buffer)
  else ret (mkRecord partition_key_ buffer).

Definition firehose_record (buffer : string) : M W record := ret (mkRecord "" buffer).

(** The stream must have a name. *)
Definition kinesis_internalSetup (FLAGS_aws_kinesis_stream : string) (getHostIdentifier : M W string) : M W (Status * string) :=
  let* partition_key_ := getHostIdentifier in
  ret (if bool_decide (FLAGS_aws_kinesis_stream = "") then mkStatus 1 "Stream name must be specified with --aws_kinesis_stream"
       else mkStatus 0 "OK", partition_key_).

Definition firehose_internalSetup (FLAGS_aws_firehose_stream : string) : Status :=
  if bool_decide (FLAGS_aws_firehose_stream = "") then mkStatus 1 "Stream name must be specified with --aws_firehose_stream"
  else Status1 0.

(** [AwsLogForwarder::setUp]: the buffer, the client, the plugin. *)
Definition AwsLogForwarder_setUp (buffered_setUp makeAWSClient internalSetup : M W Status) : M W Status :=
  let* s := buffered_setUp in
  if negb (Status_ok s) then ret s
  else
    let* s := makeAWSClient in
    if negb (Status_ok s) then ret s else internalSetup.

(** [setUp] of both plugins: a forwarder that is set up becomes a service. *)
Definition plugin_setUp (initAwsSdk : M W unit) (forwarder_setUp : M W Status) (addService : M W unit) : M W Status :=
  initAwsSdk ;;;
  let* s := forwarder_setUp in
  if negb (Status_ok s) then ret s else addService ;;; ret (mkStatus 0 "OK").
End Plugins.

(** * The AWS loggers: batches within the limits, every record delivered

    Batches hold the accepted lines in order and respect every limit of the service; a
    record the service acknowledged is not sent again, and a send that reports success
    delivered every record at least once. *)

Section Batches.
Context {W : Type} {SV : AwsService W} {P : PropertyTree}.
Context (L : limits) (name_ : string) (initializeRecord : string -> M W record).
Local Open Scope Z_scope.
(** A record holds the bytes it is made of. *)
Hypothesis record_data : forall t w r w', initializeRecord t w = (Ok r, w') -> rec_data r = t.

(** What becomes of a line: nothing, a record that is too big, or a record. *)
Definition line_record (log_type line : string) : option string :=
  let '(status, record) := appendLogTypeToJson log_type line in if Status_ok status then Some record else None.
Definition accepted (log_type : string) (log_data : list string) : list string :=
  filter (fun r => too_big L (record_size L r) = false) (omap (line_record log_type) log_data).
Definition refused (log_type : string) (log_data : list string) : list string :=
  filter (fun r => too_big L (record_size L r) = true) (omap (line_record log_type) log_data).

Definition bytes_of (b : Batch) : Z := foldr (fun r n => Z.of_nat (String.length (rec_data r)) + n) 0 b.

Lemma bytes_of_app b1 b2 : bytes_of (b1 ++ b2) = bytes_of b1 + bytes_of b2.
Proof. unfold bytes_of. induction b1 as [|r b1 IH]; [done|]. cbn [app foldr]. rewrite IH. lia. Qed.

Lemma record_text_size line : Z.of_nat (String.length (record_text L line)) = record_size L line.
Proof. unfold record_text, record_size. destruct (appendNewlineSeparators L); [|lia]. rewrite length_app_str. cbn. lia. Qed.

(** A batch the service takes. *)
Record within (b : Batch) : Prop := {
  within_count : Z.of_nat (length b) <= getMaxRecordsPerBatch L;
  within_bytes : bytes_of b < getMaxBytesPerBatch L;
  within_record r : r ∈ b -> Z.of_nat (String.length (rec_data r)) < getMaxBytesPerRecord L;
}.

Record batching_inv (done : list string) (b : batching) : Prop := {
  bi_records : rec_data <$> (concat (batch_list b) ++ current_batch b) = record_text L <$> done;
  bi_full : Forall (fun x => x <> [] /\ within x) (batch_list b);
  bi_current : within (current_batch b);
  bi_size : current_batch_byte_size b = bytes_of (current_batch b);
}.

Lemma within_nil : 0 < getMaxRecordsPerBatch L -> 0 < getMaxBytesPerBatch L -> within [].
Proof. intros. split; cbn; [lia|lia|]. by intros r ?%not_elem_of_nil. Qed.

Lemma add_record_inv done b line r : 0 < getMaxRecordsPerBatch L -> too_big L (record_size L line) = false ->
  rec_data r = record_text L line -> batching_inv done b ->
  let b' := if full L b (record_size L line) then mkBatching (batch_list b ++ [current_batch b]) [] 0 (discarded_records b) else b in
  batching_inv (done ++ [line]) (mkBatching (batch_list b') (current_batch b' ++ [r]) (current_batch_byte_size b' + record_size L line) (discarded_records b')).
Proof.
  intros Hmax Hbig Hr [Hrec Hfull Hcur Hsize] b'. unfold too_big in Hbig. apply orb_false_iff in Hbig as [Hb1 Hb2]. apply Z.leb_gt in Hb1, Hb2.
  pose proof (record_text_size line) as Hlen. rewrite <- Hr in Hlen.
  assert (bytes_of [r] = record_size L line) as Hbr by (cbn; lia).
  unfold b', full. rewrite Hsize. destruct (_ || _) eqn:Ef; cbn.
  - split; cbn.
    + rewrite !fmap_app, concat_app in *. cbn. rewrite app_nil_r, !fmap_app in *. cbn. by rewrite Hrec, Hr.
    + apply Forall_app. split; [done|]. constructor; [|constructor]. split; [|done].
      intros E. rewrite E in Ef. cbn in Ef. apply orb_true_iff in Ef as [Ef%Z.leb_le|Ef%Z.leb_le]; lia.
    + split; cbn; [lia|lia|]. intros r' ->%list_elem_of_singleton. lia.
    + lia.
  - apply orb_false_iff in Ef as [Ef1%Z.leb_gt Ef2%Z.leb_gt]. destruct Hcur as [Hc1 Hc2 Hc3]. split; cbn.
    + rewrite app_assoc, fmap_app, Hrec, fmap_app. cbn. by rewrite Hr.
    + done.
    + split; [rewrite length_app; cbn; lia|rewrite bytes_of_app; lia|]. intros r' [H| ->%list_elem_of_singleton]%elem_of_app; [by apply Hc3|lia].
    + rewrite bytes_of_app. lia.
Qed.

Lemma omap_line log_type line lines : omap (line_record log_type) (line :: lines) =
  match line_record log_type line with Some r => r :: omap (line_record log_type) lines | None => omap (line_record log_type) lines end.
Proof. done. Qed.

Lemma consume_inv log_type lines : 0 < getMaxRecordsPerBatch L ->
  forall done b w b' w', batching_inv done b ->
  for_fold lines b (consume_record L name_ initializeRecord log_type) w = (Ok b', w') ->
  batching_inv (done ++ accepted log_type lines) b' /\ discarded_records b' = discarded_records b ++ refused log_type lines.
Proof.
  intros Hmax. unfold accepted, refused. induction lines as [|line lines IH]; intros done b w b' w' Hb E; cbn [for_fold] in E.
  { run_pure E. by rewrite !app_nil_r. }
  run_step E as b1 w1 E1. unfold consume_record in E1. rewrite omap_line. assert (Hl : line_record log_type line = let '(st, r) := appendLogTypeToJson log_type line in if Status_ok st then Some r else None) by done.
  destruct (appendLogTypeToJson log_type line) as [status record]. rewrite Hl. destruct (Status_ok status) eqn:Es; cbn [negb] in E1.
  - destruct (too_big L (record_size L record)) eqn:Et.
    + run_pure E1. rewrite filter_cons_False, filter_cons_True by congruence.
      eapply (IH done) in E; [|destruct Hb; by split]. destruct E as [H1 H2]. split; [done|]. rewrite H2. cbn [discarded_records]. by rewrite <- app_assoc.
    + run_step E1 as r w2 E2. run_pure E1. apply record_data in E2. rewrite filter_cons_True, filter_cons_False by congruence.
      pose proof (add_record_inv done b record r Hmax Et E2 Hb) as Hb1. cbv zeta in Hb1. destruct (IH _ _ _ _ _ Hb1 E) as [H1 H2].
      rewrite <- app_assoc in H1. split; [done|]. rewrite H2. cbn. by destruct (full L b _).
  - run_step E1 as u w2 E2. run_pure E1. by eapply IH.
Qed.

Lemma batches_records log_type log_data batches discarded w w' :
  0 < getMaxRecordsPerBatch L -> 0 < getMaxBytesPerBatch L ->
  consumeDataAndGenerateBatches L name_ initializeRecord log_type log_data w = (Ok (batches, discarded), w') ->
  rec_data <$> concat batches = record_text L <$> accepted log_type log_data /\
  discarded = refused log_type log_data /\ Forall (fun b => b <> [] /\ within b) batches.
Proof.
  intros Hmax Hbytes E. unfold consumeDataAndGenerateBatches in E. run_step E as b w1 E1. run_pure E.
  destruct (consume_inv log_type log_data Hmax [] (mkBatching [] [] 0 []) w b w') as [[Hrec Hfull Hcur Hsize] Hd]; [|done|].
  { split; cbn; [done|constructor|by apply within_nil|done]. }
  rewrite app_nil_l in Hrec. cbn in Hd. destruct (current_batch b) as [|r cur] eqn:Ec; [by rewrite app_nil_r in Hrec|].
  rewrite concat_app. cbn. rewrite app_nil_r. split; [done|]. split; [done|]. apply Forall_app. split; [done|]. by apply Forall_singleton.
Qed.

(** The batches hold the records of the accepted lines, in order; none is empty, and each
    respects the limits of the service on records, bytes and bytes of a record. Lines that
    are too big are set aside. *)
Theorem batches_respect_the_limits log_type log_data batches discarded w w' :
  0 < getMaxRecordsPerBatch L -> 0 < getMaxBytesPerBatch L ->
  consumeDataAndGenerateBatches L name_ initializeRecord log_type log_data w = (Ok (batches, discarded), w') ->
  rec_data <$> concat batches = record_text L <$> accepted log_type log_data /\
  discarded = refused log_type log_data /\ Forall (fun b => b <> [] /\ within b) batches.
Proof. apply batches_records. Qed.
End Batches.

(** ** Delivery *)

(** The service, with the history of what it acknowledged and what its stream holds. An
    answer has a code for each record and counts the codes that are errors; the records
    without one are acknowledged, and they are in the stream. Of the others, and of all the
    records of a request that failed, any may be in the stream as well, more than once too,
    since delivery is at least once. Waiting and logging change neither. *)
Class Delivering (W : Type) {SV : AwsService W} := {
  acknowledged : W -> list record;
  delivered : W -> list record;
  taken_by b o := match o with
                  | RequestFailed _ => []
                  | Answered _ codes => (filter (fun p : record * string => p.2 = "") (zip b codes)).*1
                  end;
  send_delivers b w : exists o w' got, sv_send b w = (Ok o, w') /\ acknowledged w' = acknowledged w ++ taken_by b o /\
    delivered w' = delivered w ++ got /\ taken_by b o ⊆+ got /\ (forall r, r ∈ got -> r ∈ b) /\
    match o with
    | RequestFailed _ => True
    | Answered n codes => length codes = length b /\ n = Z.of_nat (length (filter (fun c : string => c <> "") codes))
    end;
  pause_keeps n w : exists w', sv_pause n w = (Ok tt, w') /\ acknowledged w' = acknowledged w /\ delivered w' = delivered w;
  log_keeps s w : exists w', sv_log s w = (Ok tt, w') /\ acknowledged w' = acknowledged w /\ delivered w' = delivered w;
}.

Section Delivery.
Context {W : Type} {SV : AwsService W} {DV : Delivering W} {P : PropertyTree} (L : limits) (name_ : string).
Local Open Scope Z_scope.

(** From [w] to [w'] the records [acks] were acknowledged and [got] arrived: at least
    those, and nothing but records of [b]. *)
Definition progress (w w' : W) (acks got b : list record) : Prop :=
  acknowledged w' = acknowledged w ++ acks /\ delivered w' = delivered w ++ got /\ acks ⊆+ got /\ forall r, r ∈ got -> r ∈ b.
Definition same (w w' : W) : Prop := acknowledged w' = acknowledged w /\ delivered w' = delivered w.

Lemma progress_none w b : progress w w [] [] b.
Proof. unfold progress. rewrite !app_nil_r. split_and!; [done..|]. by intros r ?%elem_of_nil. Qed.

Lemma progress_same w w1 w' acks got b : same w w1 -> progress w1 w' acks got b -> progress w w' acks got b.
Proof. unfold same, progress. intros [-> ->]. done. Qed.

Lemma progress_app w w1 w' a1 g1 b1 a2 g2 b2 b : progress w w1 a1 g1 b1 -> progress w1 w' a2 g2 b2 ->
  (forall r, r ∈ b1 \/ r ∈ b2 -> r ∈ b) -> progress w w' (a1 ++ a2) (g1 ++ g2) b.
Proof.
  intros (A1 & D1 & S1 & I1) (A2 & D2 & S2 & I2) Hb. unfold progress. rewrite A2, A1, D2, D1, !app_assoc.
  split_and!; [done | done | by apply submseteq_app |]. intros r [?%I1|?%I2]%elem_of_app; auto.
Qed.

Lemma remaining_rest b codes : length codes = length b ->
  exists rest, remaining b codes = Some rest /\ (filter (fun p : record * string => p.2 = "") (zip b codes)).*1 ++ rest ≡ₚ b /\
    length rest = length (filter (fun c : string => c <> "") codes).
Proof.
  revert codes. induction b as [|r b IH]; intros [|c codes] Hl; cbn in Hl; try lia; [by exists []|].
  destruct (IH codes) as (rest & E & Hp & Hn); [lia|]. cbn [remaining]. rewrite E. cbn [mbind option_bind zip zip_with].
  destruct (decide (c = "")) as [->|Hc].
  - rewrite bool_decide_eq_true_2, filter_cons_True by done. exists rest. split; [done|]. split; [cbn; by rewrite Hp|].
    rewrite filter_cons_False by (by intros []). done.
  - rewrite bool_decide_eq_false_2, filter_cons_False by done. exists (r :: rest). split; [done|]. split.
    + by rewrite <- Permutation_middle, Hp.
    + rewrite filter_cons_True by done. cbn. by rewrite Hn.
Qed.

Lemma codes_all_empty (codes : list string) : length (filter (fun c : string => c <> "") codes) = 0%nat -> Forall (fun c => c = "") codes.
Proof.
  induction codes as [|c codes IH]; intros H; [constructor|]. destruct (decide (c = "")) as [->|Hc].
  - constructor; [done|]. apply IH. by rewrite filter_cons_False in H by (by intros []).
  - by rewrite filter_cons_True in H.
Qed.

Lemma attempts_deliver n : forall retry batch st w,
  exists ok rest st' w' acks got, send_attempts L name_ n retry batch st w = (Ok (Some (ok, rest, st')), w') /\
    progress w w' acks got batch /\ acks ++ (if ok : bool then [] else rest) ≡ₚ batch.
Proof.
  induction n as [|n IH]; intros retry batch st w; cbn [send_attempts].
  { exists false, batch, st, w, [], []. split; [done|]. split; [apply progress_none | done]. }
  assert (exists w1, (if negb (retry_delay L retry =? 0) then sv_pause (retry_delay L retry) else ret tt) w = (Ok tt, w1) /\ same w w1)
    as (w1 & E1 & H1) by (destruct (negb _); [apply pause_keeps|by exists w]).
  rewrite (bind_run _ _ _ _ _ E1). destruct (send_delivers batch w1) as (o & w2 & got & E2 & Ha & Hd & Hs & Hi & Ho).
  rewrite (bind_run _ _ _ _ _ E2).
  assert (progress w w2 (taken_by batch o) got batch) as H2 by (eapply progress_same; [done|]; by split_and!). clear Ha Hd Hs Hi.
  destruct o as [msg|count codes].
  - destruct (Z.eqb_spec (Z.of_nat (length batch)) 0) as [Hz|Hz].
    + destruct batch; [|cbn in Hz; lia]. by exists true, [], st, w2, [], got.
    + destruct (log_keeps (name_ +:+ ": Complete request failure: " +:+ msg) w2) as (w3 & E3 & H3). rewrite (bind_run _ _ _ _ _ E3).
      match goal with |- context [send_attempts _ _ n _ _ ?s] => destruct (IH (S retry) batch s w3) as (ok & rest & st' & w4 & acks & got' & E4 & H4 & Hp) end.
      exists ok, rest, st', w4, acks, (got ++ got'). split; [done|]. split; [|done].
      apply (progress_app w w2 w4 [] got batch acks got' batch); [done | by eapply progress_same | naive_solver].
  - destruct Ho as [Hlen Hcount]. destruct (remaining_rest batch codes Hlen) as (rest & Er & Hp & Hn). cbn [taken_by] in H2.
    destruct (Z.eqb_spec count 0) as [Hz|Hz].
    + eexists true, batch, st, w2, _, got. split; [done|]. split; [exact H2|]. destruct rest as [|r rest]; [|cbn in Hn; lia]. exact Hp.
    + rewrite Er.
      match goal with |- context [send_attempts _ _ n _ _ ?s] => destruct (IH (S retry) rest s w2) as (ok & rest' & st' & w4 & acks & got' & E4 & H4 & Hp') end.
      eexists ok, rest', st', w4, _, (got ++ got'). split; [done|]. split; [|by rewrite <- app_assoc, Hp', Hp].
      eapply progress_app; [exact H2 | exact H4 |]. intros r [?|Hr]; [done|]. rewrite <- Hp. apply elem_of_app. by right.
Qed.

(** The attempts to send a batch end; what the service acknowledged and what is left make up
    the batch: no record it acknowledged is sent again. A success leaves nothing. *)
Theorem taken_records_are_not_sent_again batch st w :
  exists ok rest st' w' acks got, sendBatch L name_ batch st w = (Ok (Some (ok, rest, st')), w') /\
    progress w w' acks got batch /\ acks ++ (if ok : bool then [] else rest) ≡ₚ batch.
Proof. apply attempts_deliver. Qed.

Lemma batches_deliver batches : forall errors st w,
  exists errors' st' w' acks got, send_batches L name_ batches errors st w = (Ok (Some (errors', st')), w') /\
    progress w w' acks got (concat batches) /\ acks ⊆+ concat batches /\ (errors <= errors')%nat /\
    (errors' = errors -> acks ≡ₚ concat batches).
Proof.
  induction batches as [|b batches IH]; intros errors st w; cbn [send_batches].
  { exists errors, st, w, [], []. split; [done|]. split; [apply progress_none | done]. }
  assert (forall r, r ∈ b \/ r ∈ concat batches -> r ∈ concat (b :: batches)) as Hin by (intros r; cbn; by rewrite elem_of_app).
  destruct (attempts_deliver (getMaxRetryCount L) 0 b st w) as (ok & rest & st1 & w1 & acks & got & E & H & Hp).
  unfold sendBatch. rewrite (bind_run _ _ _ _ _ E). destruct ok.
  - destruct (IH errors st1 w1) as (e' & st' & w' & acks' & got' & E' & H' & Hs' & He' & Hall). rewrite app_nil_r in Hp.
    exists e', st', w', (acks ++ acks'), (got ++ got'). split; [done|]. split; [by eapply progress_app|]. cbn. split; [|split; [done|]].
    + rewrite Hp. by apply submseteq_skips_l.
    + intros He. by rewrite Hp, (Hall He).
  - destruct (log_keeps (name_ +:+ " logger: Failed to write the following records:" +:+ newline_char +:+ dump_records 1 rest) w1) as (w2 & E2 & H2).
    unfold dumpBatchToErrorLog. rewrite (bind_run _ _ _ _ _ E2).
    destruct (IH (S errors) st1 w2) as (e' & st' & w' & acks' & got' & E' & H' & Hs' & He' & _).
    exists e', st', w', (acks ++ acks'), (got ++ got'). split; [done|]. split; [eapply progress_app; [done| |done]; by eapply progress_same|].
    cbn. split; [|split; [lia|intros; lia]]. apply submseteq_app; [|done]. rewrite <- Hp. by apply submseteq_inserts_r.
Qed.

Context (initializeRecord : string -> M W record).
Hypothesis record_made : forall t w, exists r w', initializeRecord t w = (Ok r, w') /\ rec_data r = t /\ same w w'.

Lemma consume_runs log_type lines : forall b w,
  exists b' w', for_fold lines b (consume_record L name_ initializeRecord log_type) w = (Ok b', w') /\ same w w'.
Proof.
  induction lines as [|line lines IH]; intros b w; cbn [for_fold]; [by exists b, w|].
  assert (exists b1 w1, consume_record L name_ initializeRecord log_type b line w = (Ok b1, w1) /\ same w w1) as (b1 & w1 & E1 & H1).
  { unfold consume_record. destruct (appendLogTypeToJson log_type line) as [status record]. destruct (negb _).
    - destruct (log_keeps (name_ +:+ ": The following log record has been discarded because it was not in JSON format: " +:+ record) w) as (w1 & E & H).
      exists b, w1. by rewrite (bind_run _ _ _ _ _ E).
    - destruct (too_big L _); [by eexists _, w|]. destruct (record_made (record_text L record) w) as (r & w1 & E & _ & H).
      eexists _, w1. by rewrite (bind_run _ _ _ _ _ E). }
  rewrite (bind_run _ _ _ _ _ E1). destruct (IH b1 w1) as (b' & w' & E' & H'). exists b', w'. split; [done|].
  destruct H1, H'. split; congruence.
Qed.

(** C31: A send ends with a status. When it reports success, the record of every accepted line
    was acknowledged by the service exactly once and is in the stream at least as often as
    it was logged; otherwise no record is acknowledged more often than it was logged.
    Nothing arrives but records of accepted lines. *)
Theorem successful_send_delivers_every_line log_type log_data w :
  0 < getMaxRecordsPerBatch L -> 0 < getMaxBytesPerBatch L ->
  let records := record_text L <$> accepted L log_type log_data in
  exists status w' acks got, AwsLogForwarder_send L name_ initializeRecord log_data log_type w = (Ok (Some status), w') /\
    acknowledged w' = acknowledged w ++ acks /\ delivered w' = delivered w ++ got /\
    rec_data <$> acks ⊆+ records /\ (forall r, r ∈ got -> rec_data r ∈ records) /\
    (Status_ok status = true -> rec_data <$> acks ≡ₚ records /\ records ⊆+ rec_data <$> got).
Proof.
  intros Hm Hb records. destruct (consume_runs log_type log_data (mkBatching [] [] 0 []) w) as (b & w1 & E1 & H1).
  assert (exists batches discarded, consumeDataAndGenerateBatches L name_ initializeRecord log_type log_data w = (Ok (batches, discarded), w1)) as (batches & discarded & Ec).
  { unfold consumeDataAndGenerateBatches. rewrite (bind_run _ _ _ _ _ E1). by eexists _, _. }
  assert (forall t w r w', initializeRecord t w = (Ok r, w') -> rec_data r = t) as Hdata.
  { intros t w0 r w0' E. destruct (record_made t w0) as (r' & w0'' & E' & Hr & _). rewrite E' in E. by injection E as -> _. }
  destruct (batches_records L name_ initializeRecord Hdata log_type log_data batches discarded w w1 Hm Hb Ec) as (Hrec & _ & _).
  fold records in Hrec. unfold AwsLogForwarder_send. rewrite (bind_run _ _ _ _ _ Ec).
  assert (exists w2, dumpDiscardedRecordsToErrorLog name_ discarded w1 = (Ok tt, w2) /\ same w1 w2) as (w2 & E2 & H2).
  { unfold dumpDiscardedRecordsToErrorLog. destruct discarded; [by exists w1|apply log_keeps]. }
  rewrite (bind_run _ _ _ _ _ E2). destruct (batches_deliver batches 0 "" w2) as (e & st & w3 & acks & got & E3 & H3 & Hs & _ & Hall).
  rewrite (bind_run _ _ _ _ _ E3). exists (match e with O => mkStatus 0 "OK" | _ => mkStatus 1 st end), w3, acks, got.
  apply (progress_same w1) in H3; [|done]. apply (progress_same w) in H3 as (Ha & Hd & Hag & Hgot); [|done].
  split; [by destruct e|]. rewrite <- Hrec. split_and!; [done | done | by apply fmap_submseteq | |].
  - intros r Hr. apply list_elem_of_fmap. exists r. auto.
  - intros Hok. destruct e as [|e]; [|done]. specialize (Hall eq_refl). split; [by apply fmap_Permutation|].
    apply fmap_submseteq. by rewrite <- Hall.
Qed.
End Delivery.
