(* ===== verification/Syslog.v ===== *)
(** * The syslog publisher (osquery/events/linux/syslog.cpp, syslog.h)

    Lines that rsyslog writes to a pipe are split at commas outside of quotes, checked and
    fired; too many bad lines stop the publisher. The pipe, the files and the subscribers
    are a class of operations. *)
From S2P Require Import Prelude Boost Conversions Query BufferedFacts.

(** ** Lines *)

(** [RsyslogCsvSeparator::operator()] without the test of the end: the token, what is left
    and [last_]. *)
Fixpoint csv_loop (next : list ascii) (in_quote : bool) (tok : list ascii) : list ascii * list ascii * bool :=
  match next with
  | [] => (tok, [], false)
  | c :: rest =>
      if bool_decide (c = ","%char) then
        if negb in_quote then (tok, rest, true) else csv_loop rest in_quote (tok ++ [c])
      else if bool_decide (c = "034"%char) then
        if negb in_quote then csv_loop rest true tok
        else match rest with
             | c' :: rest' =>
                 if bool_decide (c' = "034"%char) then csv_loop rest' in_quote (tok ++ ["034"%char])
                 else csv_loop rest false tok
             | [] => csv_loop rest false tok
             end
      else csv_loop rest in_quote (tok ++ [c])
  end.

(** The next token: [None] at the end. A comma at the end is followed by an empty field. *)
Definition csv_token (next : list ascii) (last_ : bool) : option (list ascii * list ascii * bool) :=
  match next with
  | [] => if last_ then Some ([], [], false) else None
  | _ => Some (csv_loop next false [])
  end.

(** [boost::tokenizer]: all tokens. *)
Fixpoint csv_tokens (fuel : nat) (next : list ascii) (last_ : bool) : list string :=
  match fuel with
  | O => []
  | S fuel =>
      match csv_token next last_ with
      | None => []
      | Some (tok, rest, last_) => of_chars tok :: csv_tokens fuel rest last_
      end
  end.

(** Every token takes a character, but for one at the end. *)
Definition tokenize (line : string) : list string := csv_tokens (2 + String.length line) (chars line) false.

Definition kCsvFields : list string := ["time"; "host"; "severity"; "facility"; "tag"; "message"].
Definition kErrorThreshold : Z := 10.

Definition Fields := gmap string string.

(** [map.emplace]: an entry that is there stays. *)
Definition emplace (k v : string) (m : Fields) : Fields := match m !! k with Some _ => m | None => <[k := v]> m end.

Definition ends_with_colon (s : string) : bool :=
  match last (chars s) with Some c => bool_decide (c = ":"%char) | None => false end.

Section Populate.
Context {B : Boost}.

Definition put_field (key value : string) (fields : Fields) : Fields :=
  let value := boost_trim value in
  if bool_decide (key = "time") then <["datetime" := value]> fields
  else if bool_decide (key = "tag") && ends_with_colon value
  then emplace key (String.substring 0 (String.length value - 1) value) fields
  else emplace key value fields.

Fixpoint populate (keys values : list string) (fields : Fields) : Status * Fields :=
  match values with
  | [] => match keys with
          | [] => (mkStatus 0 "OK", fields)
          | _ => (mkStatus 1 "Received fewer fields than expected", fields)
          end
  | value :: values =>
      match keys with
      | [] => (mkStatus 1 "Received more fields than expected", fields)
      | key :: keys => populate keys values (put_field key value fields)
      end
  end.

Definition populateEventContext (line : string) (fields : Fields) : Status * Fields := populate kCsvFields (tokenize line) fields.
End Populate.

(** ** The publisher *)

Inductive file_type := fifo_file | other_file.

Class SyslogHost (W : Type) := {
  sy_pathExists : string -> M W bool;
  sy_mkfifo : string -> Z -> M W bool;
  sy_chmod : string -> Z -> M W bool;
  sy_getgrnam : string -> M W (option Z);
  sy_chown : string -> Z -> M W bool;
  sy_status : string -> M W file_type;
  sy_open_lock : string -> M W Z;
  sy_flock : Z -> M W bool;
  sy_unlock : Z -> M W bool;
  sy_open_stream : string -> M W bool;
  sy_strerror : M W string;
  sy_in_avail : M W Z;
  sy_getline : M W string;
  sy_fire : Fields -> M W unit;
  sy_log : string -> M W unit;
}.

Record SyslogEventPublisher (W : Type) := mkSyslog { sy_world : W; errorCount_ : Z; lockFd_ : Z }.
Arguments mkSyslog {W} _ _ _.
Arguments sy_world {W} _.
Arguments errorCount_ {W} _.
Arguments lockFd_ {W} _.

Section Publisher.
Context {W : Type} {SY : SyslogHost W} {B : Boost}.
Context (FLAGS_enable_syslog : bool) (FLAGS_syslog_pipe_path : string) (FLAGS_syslog_rate_limit : nat).
Notation MP := (M (SyslogEventPublisher W)).

Definition sy_on {A} (m : M W A) : MP A := zoom sy_world (fun w p => mkSyslog w (errorCount_ p) (lockFd_ p)) m.
Definition set_errors (n : Z) : MP unit := modify (fun p => mkSyslog (sy_world p) n (lockFd_ p)).
Definition set_lock (fd : Z) : MP unit := modify (fun p => mkSyslog (sy_world p) (errorCount_ p) fd).

(** 0460. *)
Definition kPipeMode : Z := 4 * 64 + 6 * 8.
Definition kPipeGroupName : string := "syslog".

Definition failed_with (what : string) : M W Status := let* e := sy_strerror in ret (mkStatus 1 (what +:+ e)).

(** The argument is not used: the path is the flag. *)
Definition createPipe : M W Status :=
  let* made := sy_mkfifo FLAGS_syslog_pipe_path kPipeMode in
  if negb made then failed_with "Error in mkfifo: "
  else
    let* changed := sy_chmod FLAGS_syslog_pipe_path kPipeMode in
    if negb changed then failed_with "Error in chmod: "
    else
      let* group := sy_getgrnam kPipeGroupName in
      match group with
      | None => ret (mkStatus 0 "OK")
      | Some gid =>
          let* owned := sy_chown FLAGS_syslog_pipe_path gid in
          if negb owned then failed_with ("Error in chown to group " +:+ kPipeGroupName +:+ ": ") else ret (mkStatus 0 "OK")
      end.

Definition lockPipe (path : string) : MP Status :=
  let* fd := sy_on (sy_open_lock path) in
  set_lock fd ;;;
  if (fd =? -1)%Z then sy_on (failed_with "Error in open for locking pipe: ")
  else
    let* locked := sy_on (sy_flock fd) in
    if negb locked then set_lock (-1) ;;; sy_on (failed_with "Unable to acquire pipe lock: ")
    else ret (mkStatus 0 "OK").

Definition unlockPipe : MP unit :=
  let* fd := gets lockFd_ in
  if negb (fd =? -1)%Z then
    let* done := sy_on (sy_unlock fd) in
    if negb done then sy_on (let* e := sy_strerror in sy_log ("Error unlocking pipe: " +:+ e)) else ret tt
  else ret tt.

Definition syslog_tearDown : MP unit := unlockPipe.

Definition syslog_setUp : MP Status :=
  if negb FLAGS_enable_syslog then ret (mkStatus 1 "Publisher disabled via configuration")
  else
    let* there := sy_on (sy_pathExists FLAGS_syslog_pipe_path) in
    (if negb there then
       let* s := sy_on createPipe in
       if negb (Status_ok s) then sy_on (sy_log ("Problems encountered creating pipe: " +:+ message s)) else ret tt
     else ret tt) ;;;
    let* type := sy_on (sy_status FLAGS_syslog_pipe_path) in
    match type with
    | other_file => ret (mkStatus 1 ("Not a FIFO file: " +:+ FLAGS_syslog_pipe_path))
    | fifo_file =>
        let* s := lockPipe FLAGS_syslog_pipe_path in
        if negb (Status_ok s) then ret s
        else
          let* good := sy_on (sy_open_stream FLAGS_syslog_pipe_path) in
          ret (if negb good then mkStatus 1 ("Error opening pipe for reading: " +:+ FLAGS_syslog_pipe_path) else mkStatus 0 "OK")
    end.

(** The turns of [run] that are left. *)
Fixpoint run_lines (n : nat) : MP Status :=
  match n with
  | O => ret (mkStatus 0 "OK")
  | S n =>
      let* avail := sy_on sy_in_avail in
      if (avail =? 0)%Z then ret (mkStatus 0 "OK")
      else
        let* line := sy_on sy_getline in
        let '(status, fields) := populateEventContext line ∅ in
        if Status_ok status then
          sy_on (sy_fire fields) ;;;
          let* errors := gets errorCount_ in
          (if (0 <? errors)%Z then set_errors (errors - 1) else ret tt) ;;;
          run_lines n
        else
          sy_on (sy_log (message status +:+ " in line: " +:+ line)) ;;;
          let* errors := gets errorCount_ in
          set_errors (errors + 1) ;;;
          if (kErrorThreshold <=? errors + 1)%Z then ret (mkStatus 1 "Too many errors in syslog parsing.")
          else run_lines n
  end.

Definition syslog_run : MP Status := run_lines FLAGS_syslog_rate_limit.
End Publisher.

(** * The syslog publisher: what rsyslog writes is read back, bad lines stop it

    The fields of a line that rsyslog quoted are found again; the publisher fires the lines
    that parse, in order, takes no more than its limit, and stops exactly when bad lines
    outweigh good ones by the threshold. *)

(** ** Round trip *)

Definition quote : ascii := "034"%char.

(** The CSV form of rsyslog: a field in quotes, with the quotes inside doubled. *)
Fixpoint double_quotes (l : list ascii) : list ascii :=
  match l with
  | [] => []
  | c :: l => if bool_decide (c = quote) then quote :: quote :: double_quotes l else c :: double_quotes l
  end.
Definition rsyslog_field (f : list ascii) : list ascii := quote :: double_quotes f ++ [quote].

Fixpoint rsyslog_line (fs : list (list ascii)) : list ascii :=
  match fs with
  | [] => []
  | [f] => rsyslog_field f
  | f :: fs => rsyslog_field f ++ ","%char :: rsyslog_line fs
  end.

(** Inside of quotes: up to the closing one, which is at the end or before a comma. *)
Lemma csv_loop_quoted f tok rest : (rest = [] \/ exists rest', rest = ","%char :: rest') ->
  csv_loop (double_quotes f ++ quote :: rest) true tok =
  match rest with [] => (tok ++ f, [], false) | _ :: rest' => (tok ++ f, rest', true) end.
Proof.
  intros Hr. revert tok. induction f as [|c f IH]; intros tok; cbn [double_quotes app].
  - rewrite app_nil_r. cbn [csv_loop]. rewrite bool_decide_eq_false_2, bool_decide_eq_true_2 by done. cbn [negb].
    destruct Hr as [->|[rest' ->]]; [done|]. rewrite bool_decide_eq_false_2 by done. cbn [csv_loop]. by rewrite bool_decide_eq_true_2.
  - destruct (decide (c = quote)) as [->|Hc].
    + rewrite (bool_decide_eq_true_2 (quote = quote)) by done. cbn [app csv_loop]. rewrite bool_decide_eq_false_2, !bool_decide_eq_true_2 by done. cbn [negb].
      rewrite IH, <- app_assoc. done.
    + rewrite (bool_decide_eq_false_2 (c = quote)) by done. cbn [app csv_loop]. rewrite (bool_decide_eq_false_2 (c = "034"%char)) by done.
      replace (if bool_decide (c = ","%char) then _ else _) with (csv_loop (double_quotes f ++ quote :: rest) true (tok ++ [c])) by (by case_bool_decide).
      rewrite IH, <- app_assoc. done.
Qed.

Lemma csv_token_field f rest : (rest = [] \/ exists rest', rest = ","%char :: rest') -> forall last_,
  csv_token (rsyslog_field f ++ rest) last_ = Some (match rest with [] => (f, [], false) | _ :: rest' => (f, rest', true) end).
Proof.
  intros Hr last_. unfold rsyslog_field. cbn [app csv_token csv_loop]. rewrite bool_decide_eq_false_2, bool_decide_eq_true_2 by done. cbn [negb].
  rewrite <- app_assoc. cbn [app]. by rewrite (csv_loop_quoted f [] rest Hr).
Qed.

Lemma rsyslog_tokens fs : fs <> [] -> forall fuel last_, (S (length fs) <= fuel)%nat ->
  csv_tokens fuel (rsyslog_line fs) last_ = of_chars <$> fs.
Proof.
  induction fs as [|f fs IH]; [done|]. intros _ fuel last_ Hf. destruct fuel as [|fuel]; [lia|]. cbn [csv_tokens].
  destruct fs as [|g fs].
  - cbn [rsyslog_line]. rewrite <- (app_nil_r (rsyslog_field f)), csv_token_field by (by left). cbn. destruct fuel; [cbn in Hf; lia|done].
  - change (rsyslog_line (f :: g :: fs)) with (rsyslog_field f ++ ","%char :: rsyslog_line (g :: fs)).
    rewrite csv_token_field by (right; by eexists). rewrite IH; [done|done|cbn in Hf |- *; lia].
Qed.

Lemma rsyslog_line_length fs : (length fs <= length (rsyslog_line fs))%nat.
Proof.
  induction fs as [|f [|g fs] IH]; [done|cbn; lia|]. change (rsyslog_line (f :: g :: fs)) with (rsyslog_field f ++ ","%char :: rsyslog_line (g :: fs)).
  rewrite length_app. cbn in *. lia.
Qed.

(** The fields rsyslog writes, whatever characters they have, are the tokens of the line. *)
Theorem rsyslog_fields_roundtrip fs : fs <> [] -> tokenize (of_chars (rsyslog_line fs)) = of_chars <$> fs.
Proof.
  intros H. unfold tokenize. rewrite chars_of_chars, <- length_chars, chars_of_chars. apply rsyslog_tokens; [done|].
  pose proof (rsyslog_line_length fs). lia.
Qed.

(** ** The loop *)

(** What the host promises: the lines that wait in the pipe come in order, and what was
    fired is kept. *)
Class SyslogLaws (W : Type) {SY : SyslogHost W} := {
  pipe_of : W -> list string;
  fired_of : W -> list Fields;
  avail_run w : exists n, sy_in_avail w = (Ok n, w) /\ (n = 0%Z <-> pipe_of w = []);
  getline_run w line rest : pipe_of w = line :: rest ->
    exists w', sy_getline w = (Ok line, w') /\ pipe_of w' = rest /\ fired_of w' = fired_of w;
  fire_run f w : exists w', sy_fire f w = (Ok tt, w') /\ pipe_of w' = pipe_of w /\ fired_of w' = fired_of w ++ [f];
  log_run s w : exists w', sy_log s w = (Ok tt, w') /\ pipe_of w' = pipe_of w /\ fired_of w' = fired_of w;
}.

Section Run.
Context {W : Type} {SY : SyslogHost W} {SL : SyslogLaws W} {B : Boost}.
Local Open Scope Z_scope.

Definition event_of (line : string) : option Fields :=
  let '(status, fields) := populateEventContext line ∅ in if Status_ok status then Some fields else None.

(** A good line takes an error back, a bad one adds one. *)
Definition count_step (errors : Z) (line : string) : Z :=
  match event_of line with Some _ => Z.max 0 (errors - 1) | None => errors + 1 end.

Lemma sy_on_run {A} (m : M W A) (p : SyslogEventPublisher W) a w :
  m (sy_world p) = (Ok a, w) -> sy_on m p = (Ok a, mkSyslog w (errorCount_ p) (lockFd_ p)).
Proof. intros E. unfold sy_on, zoom. by rewrite E. Qed.

Lemma run_lines_spec n : forall p : SyslogEventPublisher W, 0 <= errorCount_ p < kErrorThreshold ->
  exists status p' consumed rest, run_lines n p = (Ok status, p') /\
    pipe_of (sy_world p) = consumed ++ rest /\ pipe_of (sy_world p') = rest /\
    fired_of (sy_world p') = fired_of (sy_world p) ++ omap event_of consumed /\
    (length consumed <= n)%nat /\ errorCount_ p' = foldl count_step (errorCount_ p) consumed /\
    (if Status_ok status then errorCount_ p' < kErrorThreshold /\ (rest = [] \/ length consumed = n) else errorCount_ p' = kErrorThreshold).
Proof.
  induction n as [|n IH]; intros p He; cbn [run_lines].
  { exists (mkStatus 0 "OK"), p, [], (pipe_of (sy_world p)). cbn. rewrite app_nil_r. repeat split; try done; [apply He|by right]. }
  destruct (avail_run (sy_world p)) as (a & Ea & Ha). rewrite (bind_run _ _ _ _ _ (sy_on_run _ p _ _ Ea)).
  destruct (Z.eqb_spec a 0) as [Hz|Hz].
  { exists (mkStatus 0 "OK"), (mkSyslog (sy_world p) (errorCount_ p) (lockFd_ p)), [], []. cbn. rewrite app_nil_r, (proj1 Ha Hz). repeat split; try done; [lia|apply He|by left]. }
  destruct (pipe_of (sy_world p)) as [|line pending] eqn:Ep; [by rewrite (proj2 Ha eq_refl) in Hz|].
  destruct (getline_run (sy_world p) line pending Ep) as (w1 & E1 & Hp1 & Hf1).
  rewrite (bind_run _ _ _ _ _ (sy_on_run sy_getline (mkSyslog (sy_world p) (errorCount_ p) (lockFd_ p)) _ _ E1)). cbn [errorCount_ lockFd_].
  assert (event_of line = let '(s, f) := populateEventContext line ∅ in if Status_ok s then Some f else None) as Hev by done.
  destruct (populateEventContext line ∅) as [status fields]. destruct (Status_ok status) eqn:Es.
  - destruct (fire_run fields w1) as (w2 & E2 & Hp2 & Hf2).
    rewrite (bind_run _ _ _ _ _ (sy_on_run _ (mkSyslog w1 (errorCount_ p) (lockFd_ p)) _ _ E2)), bind_gets. cbn [errorCount_ lockFd_].
    set (e1 := Z.max 0 (errorCount_ p - 1)).
    rewrite (bind_run _ _ _ tt (mkSyslog w2 e1 (lockFd_ p))).
    2: { unfold e1. destruct (Z.ltb_spec 0 (errorCount_ p)); unfold set_errors, modify, ret; cbn; repeat f_equal; lia. }
    destruct (IH (mkSyslog w2 e1 (lockFd_ p))) as (st & p' & consumed & rest & E & Hpc & Hpr & Hfr & Hlen & Hec & Hst); [unfold e1, kErrorThreshold in *; cbn; lia|].
    cbn [sy_world errorCount_] in *. exists st, p', (line :: consumed), rest. split; [done|]. rewrite <- Hp1, <- Hp2, Hpc. split; [done|]. split; [done|].
    split; [|split; [cbn; lia|split]].
    + rewrite Hfr, Hf2, Hf1, <- app_assoc. cbn. by rewrite Hev.
    + rewrite Hec. cbn [foldl]. unfold count_step at 3. by rewrite Hev.
    + destruct (Status_ok st); [|done]. destruct Hst as [H1 [H2|H2]]; (split; [done|]); [by left|right; cbn; lia].
  - destruct (log_run (message status +:+ " in line: " +:+ line) w1) as (w2 & E2 & Hp2 & Hf2).
    rewrite (bind_run _ _ _ _ _ (sy_on_run _ (mkSyslog w1 (errorCount_ p) (lockFd_ p)) _ _ E2)), bind_gets. cbn [errorCount_ lockFd_].
    rewrite (bind_run _ _ _ tt (mkSyslog w2 (errorCount_ p + 1) (lockFd_ p))) by done.
    destruct (Z.leb_spec kErrorThreshold (errorCount_ p + 1)) as [Ht|Ht].
    + eexists _, _, [line], pending. split; [reflexivity|]. cbn. rewrite Hp2, Hf2, Hf1, Hev, app_nil_r. repeat split; try done; [lia| |lia].
      unfold count_step. by rewrite Hev.
    + destruct (IH (mkSyslog w2 (errorCount_ p + 1) (lockFd_ p))) as (st & p' & consumed & rest & E & Hpc & Hpr & Hfr & Hlen & Hec & Hst); [cbn; lia|].
      cbn [sy_world errorCount_] in *. exists st, p', (line :: consumed), rest. split; [done|]. rewrite <- Hp1, <- Hp2, Hpc. split; [done|]. split; [done|].
      split; [|split; [cbn; lia|split]].
      * rewrite Hfr, Hf2, Hf1. cbn. by rewrite Hev.
      * rewrite Hec. cbn [foldl]. unfold count_step at 3. by rewrite Hev.
      * destruct (Status_ok st); [|done]. destruct Hst as [H1 [H2|H2]]; (split; [done|]); [by left|right; cbn; lia].
Qed.

(** A run takes lines from the front of the pipe, at most as many as its limit, fires the
    good ones in order, and stops early only when the pipe is empty. It fails exactly when
    the bad lines outweigh the good ones by the threshold. *)
Theorem run_fires_the_good_lines (limit : nat) (p : SyslogEventPublisher W) :
  0 <= errorCount_ p < kErrorThreshold ->
  exists status p' consumed rest, syslog_run limit p = (Ok status, p') /\
    pipe_of (sy_world p) = consumed ++ rest /\ pipe_of (sy_world p') = rest /\
    fired_of (sy_world p') = fired_of (sy_world p) ++ omap event_of consumed /\
    (length consumed <= limit)%nat /\ errorCount_ p' = foldl count_step (errorCount_ p) consumed /\
    (if Status_ok status then errorCount_ p' < kErrorThreshold /\ (rest = [] \/ length consumed = limit) else errorCount_ p' = kErrorThreshold).
Proof. apply run_lines_spec. Qed.

Lemma populate_ok keys : forall values fields, Status_ok (populate keys values fields).1 = true <-> length values = length keys.
Proof.
  induction keys as [|k keys IH]; intros [|v values] fields; cbn; try (split; intros; (done || lia)). rewrite IH. lia.
Qed.

(** A line of rsyslog is an event exactly when it has six fields. *)
Theorem six_fields_make_an_event fs : fs <> [] -> is_Some (event_of (of_chars (rsyslog_line fs))) <-> length fs = 6%nat.
Proof.
  intros Hfs. unfold event_of, populateEventContext, tokenize. rewrite chars_of_chars, <- length_chars, chars_of_chars.
  rewrite rsyslog_tokens by (done || (pose proof (rsyslog_line_length fs); lia)).
  pose proof (populate_ok kCsvFields (of_chars <$> fs) ∅) as H. rewrite length_fmap in H. change (length kCsvFields) with 6%nat in H.
  destruct (populate _ _ _) as [st fields]. cbn in H. rewrite <- H. destruct (Status_ok st); split; (done || (intros; by eexists) || by intros []).
Qed.
End Run.
