(* ===== verification/Proc.v ===== *)
(** * Linux processes (osquery/filesystem/linux/proc.cpp, proc.h,
    osquery/tables/system/linux/processes.cpp, process_open_files.cpp,
    osquery/tables/networking/linux/process_open_sockets.cpp)

    The files of /proc and the tables of processes, environments, memory maps, namespaces,
    open files and open sockets made from them. The files and links are a class of
    operations. *)
From S2P Require Import Prelude Boost Conversions Query BufferedFacts Tables Logger SqlFunctions.

(** ** Numbers *)

(** The digits at the front: their value and what follows; [None] when there is none. *)
Fixpoint scan_digits (base acc : Z) (seen : bool) (s : string) : option (Z * string) :=
  match s with
  | String c r =>
      match digit_value base c with
      | Some d => scan_digits base (acc * base + d) true r
      | None => if seen then Some (acc, s) else None
      end
  | EmptyString => if seen then Some (acc, s) else None
  end.

(** [std::strtoull]: the value, and where it stopped. *)
Definition strtoull (base : Z) (s : string) : Z * string :=
  let t := skip_space s in
  let '(neg, t) := match t with String "-" r => (true, r) | String "+" r => (false, r) | _ => (false, t) end in
  match scan_digits base 0 false (skip_prefix base t) with
  | None => (0%Z, s)
  | Some (v, rest) => (if (2 ^ 64 <=? v)%Z then (2 ^ 64 - 1)%Z else if neg then u64 (- v) else v, rest)
  end.

(** [std::atoll] of a text without overflow. *)
Definition atoll (s : string) : Z := match strto 10 s with Some (neg, v) => if neg then (- v)%Z else v | None => 0%Z end.

(** [sscanf(s, "%X")]: [None] when nothing is converted. *)
Definition scan_hex (s : string) : option Z :=
  match strto 16 s with Some (neg, v) => Some (u32 (if neg then - v else v)) | None => None end.

(** ** Names *)

Definition kLinuxProcPath : string := "/proc".
Definition kUserNamespaceList : list string := ["cgroup"; "ipc"; "mnt"; "net"; "pid"; "user"; "uts"].
Definition AF_UNIX : Z := 1.
Definition AF_INET : Z := 2.
Definition AF_INET6 : Z := 10.
Definition IPPROTO_IP : Z := 0.
Definition IPPROTO_TCP : Z := 6.
Definition kLinuxProtocolNames : list (Z * string) := [(1%Z, "icmp"); (6%Z, "tcp"); (17%Z, "udp"); (136%Z, "udplite"); (255%Z, "raw")].
Definition tcp_states : list string :=
  ["UNKNOWN"; "ESTABLISHED"; "SYN_SENT"; "SYN_RECV"; "FIN_WAIT1"; "FIN_WAIT2"; "TIME_WAIT"; "CLOSED"; "CLOSE_WAIT"; "LAST_ACK"; "LISTEN"; "CLOSING"].

Record SocketInfo := mkSocket {
  so_socket : string; so_net_ns : Z; so_family : Z; so_protocol : Z;
  so_local_address : string; so_local_port : Z; so_remote_address : string; so_remote_port : Z;
  so_unix_socket_path : string; so_state : string;
}.
Record SocketProcessInfo := mkOwner { ow_pid : string; ow_fd : string }.

(** ** Parsers *)

Section Parsers.
Context {B : Boost}.
(** The bytes of memory that were never written, and [inet_ntop] for 16 bytes. *)
Context (uninitialized : Z) (inet_ntop6 : list Z -> string).

Definition newline_text : string := String "010" "".
Definition tab_text : string := String "009" "".

(** The inode of "name:[inode]", or what is wrong. *)
Definition namespace_inode (namespace_name link_destination : string) : Z + string :=
  let n := String.length namespace_name in
  if negb (String.prefix namespace_name link_destination) then inr "Invalid descriptor for namespace "
  else
    let rest := String.substring n (String.length link_destination - n) link_destination in
    if negb (String.prefix ":[" rest) then inr "Invalid descriptor for namespace "
    else
      let '(inode, stop) := strtoull 10 (String.substring 2 (String.length rest - 2) rest) in
      if (inode =? 0)%Z || negb (String.prefix "]" stop) then inr "Invalid inode value in descriptor for namespace " else inl inode.

(** The four bytes of a word in the order of memory. *)
Definition le_bytes (z : Z) : list Z := [Z.land z 255; Z.land (Z.shiftr z 8) 255; Z.land (Z.shiftr z 16) 255; Z.land (Z.shiftr z 24) 255].
Definition inet_ntop4 (b : list Z) : string := String.concat "." (to_string <$> b).

(** [sscanf("%8x%8x%8x%8x")] of 32 characters; a word that is not converted ends it. *)
Fixpoint scan_words (n : nat) (s : string) : list Z :=
  match n with
  | O => []
  | S n =>
      match scan_hex (String.substring 0 8 s) with
      | Some w => w :: scan_words n (String.substring 8 (String.length s - 8) s)
      | None => replicate (S n) uninitialized
      end
  end.

Definition procDecodeAddressFromHex (encoded_address : string) (family : Z) : string :=
  if (family =? AF_INET)%Z then
    if (String.length encoded_address =? 8)%nat then inet_ntop4 (le_bytes (default uninitialized (scan_hex encoded_address))) else ""
  else if (family =? AF_INET6)%Z then
    if (String.length encoded_address =? 32)%nat then inet_ntop6 (concat (le_bytes <$> scan_words 4 encoded_address)) else ""
  else "".

Definition procDecodePortFromHex (encoded_port : string) : Z :=
  if (String.length encoded_port =? 4)%nat then (default 0 (scan_hex encoded_port) mod 2 ^ 16)%Z else 0%Z.

Definition tcp_state (field : string) : string :=
  let '(n, stop) := strtoull 16 field in
  if (n =? 0)%Z || (Z.of_nat (length tcp_states) <=? n)%Z || negb (is_empty stop) then "UNKNOWN"
  else default "UNKNOWN" (tcp_states !! Z.to_nat n).

(** One line of the socket files; [None] is skipped. *)
Definition inet_line (family protocol net_ns : Z) (line : string) : option SocketInfo :=
  let fields := split line " " in
  if (length fields <? 10)%nat then None
  else
    match split (default "" (fields !! 1%nat)) ":", split (default "" (fields !! 2%nat)) ":" with
    | [la; lp], [ra; rp] =>
        Some (mkSocket (default "" (fields !! 9%nat)) net_ns family protocol
                (procDecodeAddressFromHex la family) (procDecodePortFromHex lp)
                (procDecodeAddressFromHex ra family) (procDecodePortFromHex rp) ""
                (if (protocol =? IPPROTO_TCP)%Z then tcp_state (default "" (fields !! 3%nat)) else ""))
    | _, _ => None
    end.

Definition invalid_header (path : string) : Status := mkStatus 1 ("Invalid file header for " +:+ path).

Definition procGetSocketListInet (family protocol net_ns : Z) (path content : string) (result : list SocketInfo) : Status * list SocketInfo :=
  match split content newline_text with
  | [] => (Status1 0, result)
  | header :: lines =>
      if negb (String.prefix "sl" header) && negb (String.prefix "sk" header) then (invalid_header path, result)
      else (Status1 0, result ++ omap (inet_line family protocol net_ns) lines)
  end.

Definition unix_line (net_ns : Z) (line : string) : option SocketInfo :=
  let fields := split line " " in
  if (length fields <? 7)%nat then None
  else Some (mkSocket (default "" (fields !! 6%nat)) net_ns AF_UNIX (i32 (atoll (default "" (fields !! 2%nat)))) "" 0 "" 0
               (default "" (fields !! 7%nat)) "").

Definition procGetSocketListUnix (net_ns : Z) (path content : string) (result : list SocketInfo) : Status * list SocketInfo :=
  match split content newline_text with
  | [] => (Status1 0, result)
  | header :: lines =>
      if negb (String.prefix "Num" header) then (invalid_header path, result)
      else (Status1 0, result ++ omap (unix_line net_ns) lines)
  end.

(** *** Processes *)

(** The variables of an environment: the strings up to one that is empty or begins with a
    byte that is negative as a char. *)
Definition env_row (pid variable : string) : Row :=
  match find_str "=" variable with
  | Some idx => {["pid" := pid; "key" := String.substring 0 idx variable;
                  "value" := String.substring (idx + 1) (String.length variable - (idx + 1)) variable]}
  | None => {["pid" := pid; "key" := variable; "value" := variable]}
  end.

(** The bytes before the first NUL, and those behind it. *)
Fixpoint to_nul (l : list ascii) : list ascii * list ascii :=
  match l with
  | [] => ([], [])
  | c :: l => if bool_decide (c = "000"%char) then ([], l) else let '(a, b) := to_nul l in (c :: a, b)
  end.

Definition positive_char (c : ascii) : bool := (0 <? byte_of c)%Z && (byte_of c <? 128)%Z.

Fixpoint env_rows (fuel : nat) (pid : string) (l : list ascii) : option QueryData :=
  match fuel with
  | O => None
  | S fuel =>
      match l with
      | [] => Some []
      | c :: _ =>
          if positive_char c then
            let '(variable, rest) := to_nul l in
            rows ← env_rows fuel pid rest; Some (env_row pid (of_chars variable) :: rows)
          else Some []
      end
  end.

(** A line of the memory map. *)
Definition map_row (pid line : string) : option Row :=
  match split line " " with
  | f0 :: f1 :: f2 :: f3 :: f4 :: rest =>
      let r : Row := {["pid" := pid]} in
      addressed ← (if is_empty f0 then Some r
                   else match split f0 "-" with
                        | a0 :: a1 :: _ => Some (<["end" := "0x" +:+ a1]> (<["start" := "0x" +:+ a0]> r))
                        | _ => None
                        end);
      let path := match rest with f5 :: _ => boost_trim f5 | [] => "" end in
      Some (<["pseudo" := if bool_decide (f4 = "0") && negb (is_empty path) then "1" else "0"]>
             (<["path" := path]> (<["inode" := f4]> (<["device" := f3]>
             (<["offset" := to_string (takeOr (tryTo TLongLong f2 16) (-1)%Z)]> (<["permissions" := f1]> addressed))))))
  | _ => None
  end.

Record SimpleProcStat := mkProcStat {
  ps_name : string; real_uid : string; real_gid : string; effective_uid : string; effective_gid : string;
  saved_uid : string; saved_gid : string; resident_size : string; total_size : string; ps_state : string;
  ps_parent : string; ps_group : string; nice : string; threads : string; user_time : string; system_time : string;
  start_time : string; ps_status : Status;
}.
Definition no_stat : SimpleProcStat := mkProcStat "" "" "" "" "" "" "" "" "" "" "" "" "" "" "" "" "" (Status1 0).

Definition set_status (s : SimpleProcStat) (st : Status) : SimpleProcStat :=
  mkProcStat (ps_name s) (real_uid s) (real_gid s) (effective_uid s) (effective_gid s) (saved_uid s) (saved_gid s)
    (resident_size s) (total_size s) (ps_state s) (ps_parent s) (ps_group s) (nice s) (threads s) (user_time s) (system_time s) (start_time s) st.

(** [content.find_last_of(")")]. *)
Fixpoint last_paren (s : string) : option nat :=
  match s with
  | EmptyString => None
  | String c s => match last_paren s with
                  | Some n => Some (S n)
                  | None => if bool_decide (c = ")"%char) then Some O else None
                  end
  end.

(** The fields of /proc/N/stat behind the name: [inr] is an error. *)
Definition parse_stat (content : string) : SimpleProcStat + Status :=
  match last_paren content with
  | None => inr (mkStatus 1 "Invalid /proc/stat header")
  | Some start =>
      if (String.length content <=? start + 2)%nat then inr (mkStatus 1 "Invalid /proc/stat header")
      else
        let details := split (String.substring (start + 2) (String.length content - (start + 2)) content) " " in
        if (length details <=? 19)%nat then inr (mkStatus 1 "Invalid /proc/stat content")
        else
          let at_ i := default "" (details !! i) in
          inl (mkProcStat "" "" "" "" "" "" "" "" "" (at_ 0%nat) (at_ 1%nat) (at_ 2%nat) (at_ 16%nat) (at_ 17%nat) (at_ 11%nat) (at_ 12%nat)
                 (match tryTo TLong (at_ 19%nat) 10 with inl st => to_string (Z.quot st 100) | inr _ => "-1" end) (Status1 0))
  end.

(** [erase(end() - 3, end())]; a text of fewer than three bytes has no such end. *)
Definition erase_unit (s : string) : option string :=
  if (String.length s <? 3)%nat then None else Some (String.substring 0 (String.length s - 3) s).

(** A line of /proc/N/status. *)
Definition status_field (line : string) (s : SimpleProcStat) : option SimpleProcStat :=
  match split_occurences line ":" 1 with
  | [key; value] =>
      let '(mkProcStat n ru rg eu eg su sg rs ts st pa gr ni th ut sy sta stt) := s in
      if bool_decide (key = "Name") then Some (mkProcStat value ru rg eu eg su sg rs ts st pa gr ni th ut sy sta stt)
      else if bool_decide (key = "VmRSS") then
        v ← erase_unit value; Some (mkProcStat n ru rg eu eg su sg (v +:+ "000") ts st pa gr ni th ut sy sta stt)
      else if bool_decide (key = "VmSize") then
        v ← erase_unit value; Some (mkProcStat n ru rg eu eg su sg rs (v +:+ "000") st pa gr ni th ut sy sta stt)
      else if bool_decide (key = "Gid") then
        match split value tab_text with
        | [a; b; c; _] => Some (mkProcStat n ru a eu b su c rs ts st pa gr ni th ut sy sta stt)
        | _ => Some s
        end
      else if bool_decide (key = "Uid") then
        match split value tab_text with
        | [a; b; c; _] => Some (mkProcStat n a rg b eg c sg rs ts st pa gr ni th ut sy sta stt)
        | _ => Some s
        end
      else Some s
  | _ => Some s
  end.

Fixpoint status_fields (lines : list string) (s : SimpleProcStat) : option SimpleProcStat :=
  match lines with
  | [] => Some s
  | line :: lines => s ← status_field line s; status_fields lines s
  end.

Record SimpleProcIo := mkProcIo { read_bytes : string; write_bytes : string; cancelled_write_bytes : string; io_status : Status }.

Definition io_field (s : SimpleProcIo) (line : string) : SimpleProcIo :=
  match split_occurences line ":" 1 with
  | [key; value] =>
      if bool_decide (key = "read_bytes") then mkProcIo value (write_bytes s) (cancelled_write_bytes s) (io_status s)
      else if bool_decide (key = "write_bytes") then mkProcIo (read_bytes s) value (cancelled_write_bytes s) (io_status s)
      else if bool_decide (key = "cancelled_write_bytes") then mkProcIo (read_bytes s) (write_bytes s) value (io_status s)
      else s
  | _ => s
  end.
End Parsers.

(** ** The tables *)

(** Files, links and directories; a directory that cannot be iterated is [inr]. *)
Class ProcHost (W : Type) := {
  ph_readFile : string -> M W (Status * string);
  ph_readlink : string -> M W (option string);
  ph_lstat : string -> M W bool;
  ph_stat_ino : string -> M W (option Z);
  ph_directory : string -> M W (list string + string);
  ph_is_directory : string -> M W bool;
  ph_pathExists : string -> M W bool;
  ph_maps_inode : string -> string -> option string;
}.

Section Tables.
Context {W : Type} {PH : ProcHost W} {B : Boost}.
Context (uninitialized : Z) (inet_ntop6 : list Z -> string) (kMSIn1CLKTCK : Z).

Definition procGetNamespaceInode (namespace_name process_namespace_root : string) : M W (Status * Z) :=
  let path := process_namespace_root +:+ "/" +:+ namespace_name in
  let* link := ph_readlink path in
  ret (match link with
       | None => (mkStatus 1 ("Failed to retrieve the inode for namespace " +:+ path), 0%Z)
       | Some d => match namespace_inode namespace_name d with
                   | inl inode => (mkStatus 0 "OK", inode)
                   | inr what => (mkStatus 1 (what +:+ path), 0%Z)
                   end
       end).

Definition add_namespace (root : string) (l : gmap string Z) (name : string) : M W (gmap string Z) :=
  let* (status, inode) := procGetNamespaceInode name root in
  ret (if Status_ok status then <[name := inode]> l else l).

(** The status is always that of a success. *)
Definition procGetProcessNamespaces (process_id : string) (namespaces : list string) : M W (Status * gmap string Z) :=
  let namespaces := match namespaces with [] => kUserNamespaceList | _ => namespaces end in
  let* l := for_fold namespaces ∅ (add_namespace (kLinuxProcPath +:+ "/" +:+ process_id +:+ "/ns")) in
  ret (mkStatus 0 "OK", l).

(** The file under /proc/N/net for a family and a protocol. *)
Definition socket_file (family protocol : Z) : string + Status :=
  let name := (list_find (fun p => p.1 = protocol) kLinuxProtocolNames) ≫= fun p => Some p.2.2 in
  let wrong what kind := inr (mkStatus 1 ("Invalid " +:+ what +:+ " " +:+ to_string protocol +:+ " for " +:+ kind +:+ " familiy")) in
  if (family =? AF_INET)%Z then match name with Some n => inl n | None => wrong "family" "AF_INET" end
  else if (family =? AF_INET6)%Z then match name with Some n => inl (n +:+ "6") | None => wrong "protocol" "AF_INET6" end
  else if (family =? AF_UNIX)%Z then if (protocol =? IPPROTO_IP)%Z then inl "unix" else wrong "protocol" "AF_UNIX"
  else inr (mkStatus 1 ("Invalid family " +:+ to_string family)).

Definition procGetSocketList (family protocol net_ns : Z) (pid : string) (result : list SocketInfo) : M W (Status * list SocketInfo) :=
  match socket_file family protocol with
  | inr s => ret (s, result)
  | inl file =>
      let path := kLinuxProcPath +:+ "/" +:+ pid +:+ "/net/" +:+ file in
      let* (s, content) := ph_readFile path in
      if negb (Status_ok s) then ret (mkStatus 1 ("Could not open socket information from " +:+ path), result)
      else ret (if (family =? AF_UNIX)%Z then procGetSocketListUnix net_ns path content result
                else procGetSocketListInet uninitialized inet_ntop6 family protocol net_ns path content result)
  end.

Definition procReadDescriptor (process descriptor : string) : M W (Status * string) :=
  let* link := ph_readlink (kLinuxProcPath +:+ "/" +:+ process +:+ "/fd/" +:+ descriptor) in
  ret (match link with Some p => (Status1 0, p) | None => (mkStatus 1 "Could not read path", "") end).

(** The callbacks used never stop the enumeration. A link that cannot be read is empty. *)
Definition procEnumerateProcessDescriptors {D} (pid : string) (callback : string -> string -> string -> D -> D) (data : D) : M W (Status * D) :=
  let* entries := ph_directory (kLinuxProcPath +:+ "/" +:+ pid +:+ "/fd") in
  match entries with
  | inr what => ret (mkStatus 1 what, data)
  | inl fds =>
      let* data := for_fold fds data (fun data fd => let* (_, link) := procReadDescriptor pid fd in ret (callback pid fd link data)) in
      ret (Status1 0, data)
  end.

Definition socket_callback (pid fd link : string) (m : gmap string SocketProcessInfo) : gmap string SocketProcessInfo :=
  if negb (String.prefix "socket:[" link) then m
  else <[String.substring 8 (String.length link - 9) link := mkOwner pid fd]> m.

Definition procGetSocketInodeToProcessInfoMap (pid : string) (m : gmap string SocketProcessInfo) : M W (Status * gmap string SocketProcessInfo) :=
  procEnumerateProcessDescriptors pid socket_callback m.

Definition procDescriptors (process : string) : M W (Status * gmap string string) :=
  procEnumerateProcessDescriptors process (fun _ fd link m => <[fd := link]> m) ∅.

(** The directories of /proc whose name begins with a positive number. *)
Definition procProcesses (processes : gset string) : M W (Status * gset string) :=
  let* entries := ph_directory kLinuxProcPath in
  match entries with
  | inr what => ret (mkStatus 1 what, processes)
  | inl names =>
      let* processes := for_fold names processes (fun acc name =>
        let* dir := ph_is_directory (kLinuxProcPath +:+ "/" +:+ name) in
        ret (if dir && (0 <? atoll name)%Z then {[name]} ∪ acc else acc)) in
      ret (Status1 0, processes)
  end.

(** *** Processes *)

Definition getProcAttr (attr pid : string) : string := "/proc/" +:+ pid +:+ "/" +:+ attr.

Definition readProcCMDLine (pid : string) : M W string :=
  let* (_, content) := ph_readFile (getProcAttr "cmdline" pid) in
  ret (boost_trim (of_chars ((fun c => if bool_decide (c = "000"%char) then " "%char else c) <$> chars content))).

Definition readProcLink (attr pid : string) : M W string :=
  let path := getProcAttr attr pid in
  let* there := ph_lstat path in
  if negb there then ret ""
  else let* link := ph_readlink path in ret (default "" link).

Definition deletedMatchesInode (path pid : string) : M W Status :=
  let maps_path := getProcAttr "maps" pid in
  let* (s, maps_contents) := ph_readFile maps_path in
  if negb (Status_ok s) then ret (mkStatus (-1) ("Cannot read maps file: " +:+ maps_path))
  else match ph_maps_inode maps_contents path with
       | None => ret (mkStatus (-1) ("Could not find binary inode in maps file: " +:+ maps_path))
       | Some inode =>
           let* st := ph_stat_ino path in
           ret (match st with
                | None => mkStatus (-1) ("Error in stat of binary: " +:+ path)
                | Some ino => if bool_decide (to_string ino = inode) then mkStatus 0 "Inodes match" else mkStatus 1 "Inodes do not match"
                end)
       end.

Definition kDeletedString : string := " (deleted)".
Definition strip_deleted (path : string) : string := String.substring 0 (String.length path - String.length kDeletedString) path.

Definition getOnDisk (pid path : string) : M W (Z * string) :=
  if is_empty path then ret ((-1)%Z, path)
  else
    let* there := ph_pathExists path in
    if negb (boost_ends_with path kDeletedString) then ret (if there then 1%Z else 0%Z, path)
    else if negb there then ret (0%Z, strip_deleted path)
    else
      let* deleted := deletedMatchesInode path pid in
      ret (if (code deleted =? -1)%Z then ((-1)%Z, path)
           else if (code deleted =? 0)%Z then (1%Z, path)
           else (0%Z, strip_deleted path)).

(** The status file is read behind the stat file: [readFile] appends. *)
Definition SimpleProcStat_new (pid : string) : M W (option SimpleProcStat) :=
  let* (s, stat) := ph_readFile (getProcAttr "stat" pid) in
  match (if Status_ok s then parse_stat stat else inl no_stat) with
  | inr status => ret (Some (set_status no_stat status))
  | inl stat_fields =>
      let* (s, status) := ph_readFile (getProcAttr "status" pid) in
      if negb (Status_ok s) then ret (Some (set_status stat_fields (mkStatus 1 "Cannot read /proc/status")))
      else ret (status_fields (split (stat +:+ status) newline_text) stat_fields)
  end.

Definition SimpleProcIo_new (pid : string) : M W SimpleProcIo :=
  let* (s, content) := ph_readFile (getProcAttr "io" pid) in
  ret (if negb (Status_ok s)
       then mkProcIo "" "" "" (mkStatus 1 ("Cannot read /proc/" +:+ pid +:+ "/io (is osquery running as root?)"))
       else foldl io_field (mkProcIo "" "" "" (Status1 0)) (split content newline_text)).

Definition ticks (s : string) : string := to_string (u64 ((strtoull 10 s).1 * kMSIn1CLKTCK)).

Definition genProcess (pid : string) (results : QueryData) : M W (option QueryData) :=
  let* proc_stat := SimpleProcStat_new pid in
  let* proc_io := SimpleProcIo_new pid in
  match proc_stat with
  | None => ret None
  | Some st =>
      if negb (Status_ok (ps_status st)) then ret (Some results)
      else
        let* path := readProcLink "exe" pid in
        let* cmdline := readProcCMDLine pid in
        let* cwd := readProcLink "cwd" pid in
        let* root := readProcLink "root" pid in
        let* (on_disk, path) := getOnDisk pid path in
        let r : Row := {["pid" := pid; "parent" := ps_parent st; "path" := path; "name" := ps_name st; "pgroup" := ps_group st;
          "state" := ps_state st; "nice" := nice st; "threads" := threads st; "cmdline" := cmdline; "cwd" := cwd; "root" := root]} in
        let r := <["sgid" := saved_gid st]> (<["egid" := effective_gid st]> (<["gid" := real_gid st]>
                 (<["suid" := saved_uid st]> (<["euid" := effective_uid st]> (<["uid" := real_uid st]> r))))) in
        let r := <["total_size" := total_size st]> (<["resident_size" := resident_size st]> (<["wired_size" := "0"]> (<["on_disk" := to_string on_disk]> r))) in
        let r := <["start_time" := start_time st]> (<["system_time" := ticks (system_time st)]> (<["user_time" := ticks (user_time st)]> r)) in
        let r := if negb (Status_ok (io_status proc_io)) then r
                 else <["disk_bytes_written" := to_string (takeOr (tryTo TLongLong (write_bytes proc_io) 10) 0 - takeOr (tryTo TLongLong (cancelled_write_bytes proc_io) 10) 0)%Z]>
                        (<["disk_bytes_read" := read_bytes proc_io]> r) in
        ret (Some (results ++ [r]))
  end.

Definition genProcessEnvironment (pid : string) (results : QueryData) : M W (option QueryData) :=
  let* (_, content) := ph_readFile (getProcAttr "environ" pid) in
  ret (rows ← env_rows (S (String.length content)) pid (chars content); Some (results ++ rows)).

Definition genProcessMap (pid : string) (results : QueryData) : M W (option QueryData) :=
  let* (_, content) := ph_readFile (getProcAttr "maps" pid) in
  ret (Some (results ++ omap (map_row pid) (split content newline_text))).

Definition genNamespaces (pid : string) (results : QueryData) : M W (option QueryData) :=
  let* (_, proc_ns) := procGetProcessNamespaces pid [] in
  ret (Some (results ++ [foldl (fun r p => <[p.1 +:+ "_namespace" := to_string p.2]> r) ({["pid" := pid]} : Row) (map_to_list proc_ns)])).

Definition getProcList (context : QueryContext) : M W (gset string) :=
  match constraints context !! "pid" with
  | Some l =>
      if exists_ EQUALS l then
        for_fold (set_sorted (getAll EQUALS l)) ∅ (fun acc pid =>
          let* dir := ph_is_directory ("/proc/" +:+ pid) in ret (if dir then {[pid]} ∪ acc else acc))
      else let* (_, pids) := procProcesses ∅ in ret pids
  | None => let* (_, pids) := procProcesses ∅ in ret pids
  end.

(** The four tables: one generator per process of the list. *)
Fixpoint for_processes (gen : string -> QueryData -> M W (option QueryData)) (pids : list string) (results : QueryData) : M W (option QueryData) :=
  match pids with
  | [] => ret (Some results)
  | pid :: pids =>
      let* r := gen pid results in
      match r with Some results => for_processes gen pids results | None => ret None end
  end.
Definition process_table (gen : string -> QueryData -> M W (option QueryData)) (context : QueryContext) : M W (option QueryData) :=
  let* pidlist := getProcList context in for_processes gen (set_sorted pidlist) [].

Definition genProcesses := process_table genProcess.
Definition genProcessEnvs := process_table genProcessEnvironment.
Definition genProcessMemoryMap := process_table genProcessMap.
Definition genProcessNamespaces := process_table genNamespaces.

(** *** Open files *)

Definition not_a_file (link : string) : bool :=
  bool_decide (is_Some (find_str "socket:" link)) || bool_decide (is_Some (find_str "anon_inode:" link)) || bool_decide (is_Some (find_str "pipe:" link)).

Definition genDescriptors (process : string) (descriptors : gmap string string) : QueryData :=
  (fun p => {["pid" := process; "fd" := p.1; "path" := p.2]}) <$> filter (fun p => not_a_file p.2 = false) (map_to_list descriptors).

Definition wanted_pids (context : QueryContext) : option (gset string) :=
  let l := default ConstraintList_new (constraints context !! "pid") in if exists_ EQUALS l then Some (getAll EQUALS l) else None.

Definition genOpenFiles (context : QueryContext) : M W QueryData :=
  let* pids := match wanted_pids context with Some pids => ret pids | None => let* (_, pids) := procProcesses ∅ in ret pids end in
  for_fold (set_sorted pids) [] (fun results process =>
    let* (s, descriptors) := procDescriptors process in
    ret (if Status_ok s then results ++ genDescriptors process descriptors else results)).

(** *** Open sockets *)

Record sockets := mkSockets { netns_list : gset Z; inode_proc_map : gmap string SocketProcessInfo; socket_list : list SocketInfo }.

(** The sockets of a network namespace, from the files of one of its processes. *)
Definition namespace_sockets (ns : Z) (pid : string) (l : list SocketInfo) : M W (list SocketInfo) :=
  let* l := for_fold kLinuxProtocolNames l (fun l pair =>
    let* (_, l) := procGetSocketList AF_INET pair.1 ns pid l in
    let* (_, l) := procGetSocketList AF_INET6 pair.1 ns pid l in ret l) in
  let* (_, l) := procGetSocketList AF_UNIX IPPROTO_IP ns pid l in ret l.

Definition add_process (s : sockets) (pid : string) : M W sockets :=
  let* (_, owners) := procGetSocketInodeToProcessInfoMap pid (inode_proc_map s) in
  let* (status, namespaces) := procGetProcessNamespaces pid ["net"] in
  let ns := if Status_ok status then default 0%Z (namespaces !! "net") else 0%Z in
  if bool_decide (ns ∈ netns_list s) then ret (mkSockets (netns_list s) owners (socket_list s))
  else
    let* l := namespace_sockets ns pid (socket_list s) in
    ret (mkSockets ({[ns]} ∪ netns_list s) owners l).

(** The row of a socket, unless it is filtered. *)
Definition socket_row (pid_filter : bool) (owners : gmap string SocketProcessInfo) (info : SocketInfo) : option Row :=
  owner ← match owners !! so_socket info with
          | Some o => Some (ow_pid o, ow_fd o)
          | None => if negb pid_filter then Some ("-1", "-1") else None
          end;
  Some (<["net_namespace" := to_string (so_net_ns info)]> {["pid" := owner.1; "fd" := owner.2; "socket" := so_socket info;
    "family" := to_string (so_family info); "protocol" := to_string (so_protocol info);
    "local_address" := so_local_address info; "local_port" := to_string (so_local_port info);
    "remote_address" := so_remote_address info; "remote_port" := to_string (so_remote_port info);
    "path" := so_unix_socket_path info; "state" := so_state info]}).

Definition socket_pids (context : QueryContext) : gset string :=
  default ∅ (wanted_pids context).
Definition is_filtered (pids : gset string) : bool := negb (bool_decide (pids = ∅) || bool_decide ("-1" ∈ pids)).

Definition genOpenSockets (context : QueryContext) : M W QueryData :=
  let pids := socket_pids context in
  let pid_filter := is_filtered pids in
  let* (status, pids) := if pid_filter then ret (Status1 0, pids) else procProcesses ∅ in
  if negb (Status_ok status) then ret []
  else
    let* s := for_fold (set_sorted pids) (mkSockets ∅ ∅ []) add_process in
    ret (omap (socket_row pid_filter (inode_proc_map s)) (socket_list s)).
End Tables.

(** * Linux processes: environments, names, addresses, sockets

    The environment the kernel shows is read back; the name of a process cannot shift its
    fields; addresses and ports are decoded; the sockets of a namespace are read once and
    attributed to the processes asked for. *)

(** ** Environments *)

(** Variables as the kernel shows them: name, equals sign, value, NUL. *)
Definition shown (v : list ascii * list ascii) : list ascii := v.1 ++ "="%char :: v.2 ++ ["000"%char].

Record variable_ok (v : list ascii * list ascii) : Prop := {
  vo_first : exists c r, v.1 = c :: r /\ positive_char c = true;
  vo_name : "="%char ∉ v.1;
  vo_nul : "000"%char ∉ v.1 /\ "000"%char ∉ v.2;
}.

Lemma to_nul_app a b : "000"%char ∉ a -> to_nul (a ++ "000"%char :: b) = (a, b).
Proof.
  induction a as [|c a IH]; intros H; [done|]. apply not_elem_of_cons in H as [Hc H]. cbn [app to_nul].
  rewrite bool_decide_eq_false_2 by congruence. by rewrite IH.
Qed.

Lemma find_equals a b : "="%char ∉ a -> find_str "=" (of_chars a +:+ String "=" b) = Some (length a).
Proof.
  induction a as [|c a IH]; intros H; [change (find_str "=" (String "=" b) = Some O); by destruct b|]. apply not_elem_of_cons in H as [Hc H].
  change (find_str "=" (String c (of_chars a +:+ String "=" b)) = Some (S (length a))). unfold find_str in *. cbn [String.index].
  rewrite (IH H). destruct (String.prefix "=" (String c _)) eqn:E; [|done].
  unfold String.prefix in E. destruct (Ascii.ascii_dec "=" c); [congruence|discriminate E].
Qed.

Lemma env_row_shown pid v : "="%char ∉ v.1 ->
  env_row pid (of_chars (v.1 ++ "="%char :: v.2)) = {["pid" := pid; "key" := of_chars v.1; "value" := of_chars v.2]}.
Proof.
  intros H. unfold env_row. rewrite of_chars_app. cbn [of_chars]. rewrite find_equals by done.
  assert (String.length (of_chars v.1) = length v.1) as Hl by (by rewrite <- length_chars, chars_of_chars).
  replace (String.substring 0 (length v.1) _) with (of_chars v.1) by (by rewrite <- Hl, substring_prefix).
  replace (String.substring (length v.1 + 1) _ _) with (of_chars v.2); [done|].
  change (of_chars v.1 +:+ String "=" (of_chars v.2)) with (of_chars v.1 +:+ (String "=" "" +:+ of_chars v.2)). rewrite <- app_assoc_str.
  assert (String.length (of_chars v.1 +:+ String "=" "") = length v.1 + 1)%nat as Hl' by (by rewrite length_app_str, Hl).
  rewrite <- Hl'. symmetry. apply substring_app.
Qed.

Lemma env_rows_shown pid vs rest fuel : Forall variable_ok vs -> (length vs < fuel)%nat ->
  env_rows fuel pid (concat (shown <$> vs) ++ rest) =
  r ← env_rows (fuel - length vs) pid rest;
  Some (((fun v => {["pid" := pid; "key" := of_chars v.1; "value" := of_chars v.2]}) <$> vs) ++ r).
Proof.
  revert fuel. induction vs as [|v vs IH]; intros fuel Hvs Hf.
  { cbn [length fmap list_fmap concat app]. rewrite Nat.sub_0_r. by destruct (env_rows fuel pid rest). }
  apply Forall_cons in Hvs as [[(c & r & Hc & Hpos) Hname [Hn1 Hn2]] Hvs]. destruct fuel as [|fuel]; [lia|]. cbn [length] in *.
  cbn [fmap list_fmap concat]. unfold shown at 1. rewrite <- !app_assoc. cbn [app]. rewrite <- app_assoc. cbn [app].
  pose proof (to_nul_app (v.1 ++ "="%char :: v.2) (concat (shown <$> vs) ++ rest)) as Hto. rewrite <- app_assoc in Hto. cbn [app] in Hto.
  cbn [env_rows]. rewrite Hc in *. cbn [app] in *. rewrite Hpos, Hto.
  2: { rewrite not_elem_of_cons, not_elem_of_app, not_elem_of_cons. rewrite not_elem_of_cons in Hn1. repeat split; try done; apply Hn1. }
  rewrite IH by (done || lia). rewrite Nat.sub_succ. destruct (env_rows (fuel - length vs) pid rest); [|done]. cbn [mbind option_bind app].
  do 2 f_equal. change (c :: r ++ "="%char :: v.2) with ((c :: r) ++ "="%char :: v.2). rewrite <- Hc. apply env_row_shown. by rewrite Hc.
Qed.

(** The environment of a process, as the kernel shows it, gives a row with the name and the
    value of each variable, in order. *)
Theorem environment_is_read_back pid vs :
  Forall variable_ok vs ->
  env_rows (S (length (concat (shown <$> vs)))) pid (concat (shown <$> vs)) =
  Some ((fun v => {["pid" := pid; "key" := of_chars v.1; "value" := of_chars v.2]}) <$> vs).
Proof.
  intros H. assert (length vs <= length (concat (shown <$> vs)))%nat.
  { clear. induction vs as [|v vs IH]; [done|]. cbn [fmap list_fmap concat length]. rewrite length_app. unfold shown at 1. rewrite length_app. cbn. lia. }
  pose proof (env_rows_shown pid vs [] (S (length (concat (shown <$> vs)))) H) as E. rewrite app_nil_r in E. rewrite E by lia.
  destruct (S (length (concat (shown <$> vs))) - length vs)%nat eqn:Ef; [lia|]. cbn. by rewrite app_nil_r.
Qed.

(** A variable whose name begins with a byte above 127 ends the table: it and all variables
    behind it are missing. *)
Theorem environment_ends_at_a_high_byte pid vs c rest :
  Forall variable_ok vs -> (128 <= byte_of c)%Z ->
  env_rows (S (length (concat (shown <$> vs) ++ c :: rest))) pid (concat (shown <$> vs) ++ c :: rest) =
  Some ((fun v => {["pid" := pid; "key" := of_chars v.1; "value" := of_chars v.2]}) <$> vs).
Proof.
  intros H Hc. assert (length vs <= length (concat (shown <$> vs)))%nat.
  { clear. induction vs as [|v vs IH]; [done|]. cbn [fmap list_fmap concat length]. rewrite length_app. unfold shown at 1. rewrite length_app. cbn. lia. }
  rewrite env_rows_shown by (done || (rewrite length_app; cbn; lia)). rewrite length_app. cbn [length].
  replace (S (length (concat (shown <$> vs)) + S (length rest)) - length vs)%nat with (S (length (concat (shown <$> vs)) + S (length rest) - length vs)) by lia.
  cbn [env_rows]. unfold positive_char. destruct (Z.ltb_spec (byte_of c) 128); [lia|]. rewrite andb_false_r. cbn. by rewrite app_nil_r.
Qed.

(** ** Names *)

Lemma last_paren_none s : ")"%char ∉ chars s -> last_paren s = None.
Proof.
  induction s as [|c s IH]; intros H; [done|]. apply not_elem_of_cons in H as [Hc H]. cbn [last_paren]. rewrite (IH H).
  by rewrite bool_decide_eq_false_2.
Qed.

Lemma last_paren_app a b : ")"%char ∉ chars b -> last_paren (a +:+ String ")" b) = Some (String.length a).
Proof.
  intros H. induction a as [|c a IH]; [change ("" +:+ String ")" b) with (String ")" b); cbn [last_paren]; by rewrite last_paren_none|].
  rewrite app_cons_str. cbn [last_paren]. by rewrite IH.
Qed.

(** Whatever a process calls itself, with spaces and parentheses too: its fields are those
    behind the last parenthesis. *)
Theorem name_does_not_shift_the_fields {B : Boost} name name' rest :
  ")"%char ∉ chars rest -> parse_stat (name +:+ ") " +:+ rest) = parse_stat (name' +:+ ") " +:+ rest).
Proof.
  intros H. assert (forall n, parse_stat (n +:+ ") " +:+ rest) = parse_stat (") " +:+ rest)) as E; [|by rewrite !E].
  intros n. assert (")"%char ∉ chars (String " " rest)) as Hs by (apply not_elem_of_cons; done).
  change (") " +:+ rest) with (String ")" (String " " rest)).
  unfold parse_stat. rewrite (last_paren_app n (String " " rest) Hs).
  pose proof (last_paren_app "" (String " " rest) Hs) as E0. change ("" +:+ String ")" (String " " rest)) with (String ")" (String " " rest)) in E0. rewrite E0.
  rewrite length_app_str. cbn [String.length].
  replace (String.length n + S (S (String.length rest)) <=? String.length n + 2)%nat with (S (S (String.length rest)) <=? 0 + 2)%nat
    by (destruct (Nat.leb_spec (S (S (String.length rest))) (0 + 2)), (Nat.leb_spec (String.length n + S (S (String.length rest))) (String.length n + 2)); lia || done).
  replace (String.substring (String.length n + 2) _ (n +:+ _)) with rest.
  2: { change (String ")" (String " " rest)) with (") " +:+ rest). rewrite <- app_assoc_str.
       replace (String.length n + 2)%nat with (String.length (n +:+ ") ")) by (by rewrite length_app_str).
       replace (String.length n + S (S (String.length rest)))%nat with (String.length ((n +:+ ") ") +:+ rest)) by (rewrite !length_app_str; cbn; lia).
       symmetry. apply substring_app. }
  replace (String.substring (0 + 2) _ _) with rest; [done|]. symmetry. apply (substring_app ") " rest).
Qed.

(** ** Addresses *)

Definition hex_upper (z : Z) : ascii := nth (Z.to_nat z) (chars "0123456789ABCDEF") "0"%char.

(** The last [n] hexadecimal digits of a number, the first ones first ("%0nX"). *)
Fixpoint hex_digits (n : nat) (z : Z) : string :=
  match n with O => "" | S n => String (hex_upper (Z.land (Z.shiftr z (4 * Z.of_nat n)) 15)) (hex_digits n z) end.

Lemma hex_upper_spec z : (0 <= z < 16)%Z ->
  digit_value 16 (hex_upper z) = Some z /\ Ascii.is_space (hex_upper z) = false /\
  hex_upper z <> "-"%char /\ hex_upper z <> "+"%char /\ hex_upper z <> "x"%char /\ hex_upper z <> "X"%char.
Proof.
  intros H. assert (Z.to_nat z < 16)%nat as Hn by lia. rewrite <- (Z2Nat.id z) by lia. revert Hn. generalize (Z.to_nat z). intros n Hn.
  do 16 (destruct n as [|n]; [by vm_compute; repeat split|]). lia.
Qed.

Lemma nibble z k : (0 <= Z.land (Z.shiftr z k) 15 < 16)%Z.
Proof. change 15%Z with (Z.ones 4). rewrite Z.land_ones by lia. apply Z.mod_pos_bound. lia. Qed.

Lemma digits_value_hex n z acc seen : (0 <= z)%Z ->
  digits_value 16 seen acc (hex_digits n z) = match n with O => if seen then Some acc else None | S _ => Some (acc * 16 ^ Z.of_nat n + z mod 16 ^ Z.of_nat n)%Z end.
Proof.
  intros Hz. revert acc seen. induction n as [|n IH]; intros acc seen; [done|]. cbn [hex_digits digits_value].
  destruct (hex_upper_spec _ (nibble z (4 * Z.of_nat n))) as [-> _]. rewrite IH.
  assert (16 ^ Z.of_nat (S n) = 16 * 16 ^ Z.of_nat n)%Z as Hp by (rewrite Nat2Z.inj_succ, Z.pow_succ_r; lia).
  assert (z mod 16 ^ Z.of_nat (S n) = Z.land (Z.shiftr z (4 * Z.of_nat n)) 15 * 16 ^ Z.of_nat n + z mod 16 ^ Z.of_nat n)%Z as Hm.
  { change 15%Z with (Z.ones 4). rewrite Z.land_ones, Z.shiftr_div_pow2 by lia. rewrite Z.pow_mul_r by lia. change (2 ^ 4)%Z with 16%Z.
    rewrite Hp, Z.mul_comm, Z.rem_mul_r by lia. lia. }
  destruct n as [|n]; [|f_equal; rewrite Hm, Hp; lia].
  change (16 ^ Z.of_nat 0)%Z with 1%Z in *. rewrite Z.mod_1_r in Hm. f_equal. rewrite Hm, Hp. lia.
Qed.

Lemma scan_hex_digits n z : (0 <= z)%Z -> (0 < n)%nat -> scan_hex (hex_digits n z) = Some (u32 (z mod 16 ^ Z.of_nat n)).
Proof.
  intros Hz Hn. destruct n as [|n]; [lia|]. unfold scan_hex, strto. pose proof (digits_value_hex (S n) z 0 false Hz) as Hd.
  assert (exists c r, hex_digits (S n) z = String c r /\ Ascii.is_space c = false /\ c <> "-"%char /\ c <> "+"%char /\
    skip_prefix 16 (hex_digits (S n) z) = hex_digits (S n) z) as (c & r & E & Hsp & Hm & Hp & Hpre).
  { cbn [hex_digits]. destruct (hex_upper_spec _ (nibble z (4 * Z.of_nat n))) as (_ & Hs & Hm & Hp & _). eexists _, _. split; [done|]. repeat split; try done.
    unfold skip_prefix. destruct n as [|n]; cbn [hex_digits]; [by repeat case_match|].
    destruct (hex_upper_spec _ (nibble z (4 * Z.of_nat n))) as (_ & _ & _ & _ & Hx & HX).
    rewrite (bool_decide_eq_false_2 _ Hx), (bool_decide_eq_false_2 _ HX), andb_false_r. cbn [andb orb]. by repeat case_match. }
  rewrite E in *. cbn [skip_space]. rewrite Hsp.
  replace (match String c r with String "-" r0 => (true, r0) | String "+" r0 => (false, r0) | _ => (false, String c r) end) with (false, String c r)
    by (clear -Hm Hp; destruct c as [[] [] [] [] [] [] [] []]; done).
  change (detect_base 16 (String c r)) with 16%Z. rewrite Hpre, Hd. done.
Qed.

(** A port the kernel shows as four hexadecimal digits is decoded. *)
Theorem ports_are_decoded n : (0 <= n < 65536)%Z -> procDecodePortFromHex (hex_digits 4 n) = n.
Proof.
  intros H. unfold procDecodePortFromHex. change (String.length (hex_digits 4 n)) with 4%nat. cbn [Nat.eqb].
  rewrite scan_hex_digits by lia. cbn [default from_option]. change (16 ^ Z.of_nat 4)%Z with 65536%Z. unfold u32. change (2 ^ 16)%Z with 65536%Z.
  rewrite (Z.mod_small n) by lia. rewrite (Z.mod_small n) by lia. by rewrite Z.mod_small.
Qed.

Lemma le_bytes_of b0 b1 b2 b3 : (0 <= b0 < 256)%Z -> (0 <= b1 < 256)%Z -> (0 <= b2 < 256)%Z -> (0 <= b3 < 256)%Z ->
  le_bytes (b0 + 256 * b1 + 65536 * b2 + 16777216 * b3)%Z = [b0; b1; b2; b3].
Proof.
  intros. unfold le_bytes. change 255%Z with (Z.ones 8). rewrite !Z.land_ones, !Z.shiftr_div_pow2 by lia.
  change (2 ^ 8)%Z with 256%Z. change (2 ^ 16)%Z with 65536%Z. change (2 ^ 24)%Z with 16777216%Z.
  repeat f_equal; [| | |]; symmetry.
  - apply (Z.mod_unique _ _ (b1 + 256 * b2 + 65536 * b3)); lia.
  - apply (Z.mod_unique _ _ (b2 + 256 * b3)); [lia|]. symmetry. apply (Z.div_unique _ _ _ b0); lia.
  - apply (Z.mod_unique _ _ b3); [lia|]. symmetry. apply (Z.div_unique _ _ _ (b0 + 256 * b1)); lia.
  - apply (Z.mod_unique _ _ 0); [lia|]. symmetry. apply (Z.div_unique _ _ _ (b0 + 256 * b1 + 65536 * b2)); lia.
Qed.

(** An address of four bytes, which the kernel shows as one word of its memory in
    hexadecimal, is decoded to the dotted form of its bytes. *)
Theorem addresses_are_decoded uninitialized inet_ntop6 b0 b1 b2 b3 :
  (0 <= b0 < 256)%Z -> (0 <= b1 < 256)%Z -> (0 <= b2 < 256)%Z -> (0 <= b3 < 256)%Z ->
  procDecodeAddressFromHex uninitialized inet_ntop6 (hex_digits 8 (b0 + 256 * b1 + 65536 * b2 + 16777216 * b3)) AF_INET =
  to_string b0 +:+ "." +:+ to_string b1 +:+ "." +:+ to_string b2 +:+ "." +:+ to_string b3.
Proof.
  intros. unfold procDecodeAddressFromHex. set (z := (b0 + 256 * b1 + 65536 * b2 + 16777216 * b3)%Z).
  change (AF_INET =? AF_INET)%Z with true. change (String.length (hex_digits 8 z)) with 8%nat. cbn [Nat.eqb].
  assert (0 <= z < 4294967296)%Z as Hz by (unfold z; lia).
  assert (scan_hex (hex_digits 8 z) = Some z) as ->.
  { rewrite scan_hex_digits by lia. change (16 ^ Z.of_nat 8)%Z with 4294967296%Z. unfold u32. change (2 ^ 32)%Z with 4294967296%Z. rewrite (Z.mod_small z) by done. by rewrite Z.mod_small. }
  change (default uninitialized (Some z)) with z. unfold z. by rewrite le_bytes_of.
Qed.

(** ** Sockets *)

Section Sockets.
Context {W : Type} {PH : ProcHost W} {B : Boost}.
Context (uninitialized : Z) (inet_ntop6 : list Z -> string).

Lemma socket_list_grows family protocol ns pid l w st l' w' :
  procGetSocketList uninitialized inet_ntop6 family protocol ns pid l w = (Ok (st, l'), w') ->
  exists new, l' = l ++ new /\ Forall (fun s => so_net_ns s = ns) new.
Proof.
  unfold procGetSocketList. intros E. destruct (socket_file family protocol) as [file|bad]; [|run_pure E; exists []; by rewrite app_nil_r].
  run_step E as sc w1 E1. destruct sc as [st1 content]. destruct (negb (Status_ok st1)); [run_pure E; exists []; by rewrite app_nil_r|].
  unfold ret in E. destruct (family =? AF_UNIX)%Z; injection E as E _.
  - unfold procGetSocketListUnix in E. destruct (split content newline_text) as [|h lines]; [injection E as _ <-; exists []; by rewrite app_nil_r|].
    destruct (negb _); injection E as _ <-; [exists []; by rewrite app_nil_r|]. eexists. split; [done|]. apply Forall_forall. intros x (line & _ & Hl)%list_elem_of_omap.
    unfold unix_line in Hl. destruct (_ <? _)%nat; [done|]. by injection Hl as <-.
  - unfold procGetSocketListInet in E. destruct (split content newline_text) as [|h lines]; [injection E as _ <-; exists []; by rewrite app_nil_r|].
    destruct (_ && _); injection E as _ <-; [exists []; by rewrite app_nil_r|]. eexists. split; [done|]. apply Forall_forall. intros x (line & _ & Hl)%list_elem_of_omap.
    unfold inet_line in Hl. destruct (_ <? _)%nat; [done|]. destruct (split _ ":") as [|la [|lp []]]; try done.
    destruct (split _ ":") as [|ra [|rp []]]; try done. by injection Hl as <-.
Qed.

Lemma namespace_sockets_grow ns pid l w l' w' :
  namespace_sockets uninitialized inet_ntop6 ns pid l w = (Ok l', w') -> exists new, l' = l ++ new /\ Forall (fun s => so_net_ns s = ns) new.
Proof.
  unfold namespace_sockets. generalize kLinuxProtocolNames. intros names E. run_step E as l1 w1 E1. run_step E as sl w2 E2. destruct sl as [st l2]. run_pure E.
  apply socket_list_grows in E2 as (n2 & -> & Hn2).
  assert (exists n1, l1 = l ++ n1 /\ Forall (fun s => so_net_ns s = ns) n1) as (n1 & -> & Hn1).
  { clear Hn2. revert l w E1. induction names as [|nm names IH]; intros l w E1; cbn [for_fold] in E1; [run_pure E1; exists []; by rewrite app_nil_r|].
    run_step E1 as a w3 E3. run_step E3 as s4 w4 E4. destruct s4 as [? l4]. run_step E3 as s5 w5 E5. destruct s5 as [? l5]. run_pure E3.
    apply socket_list_grows in E4 as (m4 & -> & H4), E5 as (m5 & -> & H5). destruct (IH _ _ E1) as (n & -> & Hn).
    exists (m4 ++ m5 ++ n). rewrite <- !app_assoc. split; [done|]. by repeat apply Forall_app_2. }
  exists (n1 ++ n2). rewrite <- app_assoc. split; [done|]. by apply Forall_app_2.
Qed.

(** What the processes seen so far left: owners among them, and the sockets of each
    namespace in one block. *)
Record sockets_inv (pids : list string) (s : sockets) : Prop := {
  si_owner inode o : inode_proc_map s !! inode = Some o -> ow_pid o ∈ pids;
  si_blocks : exists blocks : list (Z * list SocketInfo), NoDup blocks.*1 /\ socket_list s = concat blocks.*2 /\
    (forall ns, ns ∈ blocks.*1 <-> ns ∈ netns_list s) /\
    Forall (fun b => Forall (fun i => so_net_ns i = b.1) b.2) blocks;
}.

Lemma owners_run pid m w st m' w' : procGetSocketInodeToProcessInfoMap pid m w = (Ok (st, m'), w') ->
  forall inode o, m' !! inode = Some o -> m !! inode = Some o \/ ow_pid o = pid.
Proof.
  unfold procGetSocketInodeToProcessInfoMap, procEnumerateProcessDescriptors. intros E. run_step E as entries w1 E1.
  destruct entries as [fds|what]; [|run_pure E; by left]. run_step E as m1 w2 E2. run_pure E.
  clear E1. revert m w1 E2. induction fds as [|fd fds IH]; intros m w1 E2 inode o Ho; cbn [for_fold] in E2; [run_pure E2; by left|].
  run_step E2 as m2 w3 E3. run_step E3 as sl w4 E4. destruct sl as [? link]. run_pure E3.
  destruct (IH _ _ E2 inode o Ho) as [H|H]; [|by right]. unfold socket_callback in H. destruct (negb _); [by left|].
  apply lookup_insert_Some in H as [[_ <-]|[_ H]]; [by right|by left].
Qed.

Lemma add_process_inv pids s pid w s' w' : sockets_inv pids s ->
  add_process uninitialized inet_ntop6 s pid w = (Ok s', w') -> sockets_inv (pids ++ [pid]) s'.
Proof.
  intros [Ho (blocks & Hn & Hl & Hns & Hb)] E. unfold add_process in E. run_step E as so w1 E1. destruct so as [st owners].
  run_step E as sn w2 E2. destruct sn as [st2 namespaces].
  assert (forall inode o, owners !! inode = Some o -> ow_pid o ∈ pids ++ [pid]) as Ho'.
  { intros inode o H. rewrite elem_of_app, list_elem_of_singleton. destruct (owners_run _ _ _ _ _ _ E1 _ _ H) as [H1|H1]; [left; by eapply Ho|by right]. }
  set (ns := if Status_ok st2 then default 0%Z (namespaces !! "net") else 0%Z) in *.
  case_bool_decide as Hin; [run_pure E; split; [done|]; by exists blocks|].
  run_step E as l w3 E3. run_pure E. apply namespace_sockets_grow in E3 as (new & -> & Hnew). split; [done|]. cbn.
  exists (blocks ++ [(ns, new)]). rewrite !fmap_app, concat_app. cbn [fmap list_fmap fst snd concat]. rewrite app_nil_r. split; [|split; [by rewrite Hl|split]].
  - apply NoDup_app. split; [done|]. split; [|apply NoDup_singleton]. intros x Hx ->%list_elem_of_singleton. apply Hin. by apply Hns.
  - intros x. rewrite elem_of_app, list_elem_of_singleton, Hns. set_solver.
  - apply Forall_app_2; [done|]. by apply Forall_singleton.
Qed.

Lemma add_processes_inv l pids s w s' w' : sockets_inv pids s ->
  for_fold l s (add_process uninitialized inet_ntop6) w = (Ok s', w') -> sockets_inv (pids ++ l) s'.
Proof.
  revert pids s w. induction l as [|pid l IH]; intros pids s w Hs E; cbn [for_fold] in E; [run_pure E; by rewrite app_nil_r|].
  run_step E as s1 w1 E1. eapply IH in E; [|by eapply add_process_inv]. by rewrite <- app_assoc in E.
Qed.

Lemma sockets_inv_empty : sockets_inv [] (mkSockets ∅ ∅ []).
Proof. split; cbn; [by intros ?? ?%lookup_empty_Some|]. exists []. cbn. split; [apply NoDup_nil_2|]. split; [done|]. split; [set_solver|apply Forall_nil_2]. Qed.

(** The sockets of a network namespace are listed once, however many processes share it,
    and a query for certain processes gets only rows of these processes. *)
Theorem sockets_are_those_of_the_processes context rows w w' :
  genOpenSockets uninitialized inet_ntop6 context w = (Ok rows, w') ->
  (exists (blocks : list (Z * list SocketInfo)) owners,
     NoDup blocks.*1 /\ Forall (fun b => Forall (fun i => so_net_ns i = b.1) b.2) blocks /\
     rows = omap (socket_row (is_filtered (socket_pids context)) owners) (concat blocks.*2)) /\
  (is_filtered (socket_pids context) = true -> forall r, r ∈ rows -> exists pid, r !! "pid" = Some pid /\ pid ∈ socket_pids context).
Proof.
  unfold genOpenSockets. intros E. run_step E as sp w1 E1. destruct sp as [st pids].
  destruct (negb _); [run_pure E; split; [exists [], ∅; cbn; split; [apply NoDup_nil_2|]; split; [apply Forall_nil_2|done]|]; by intros _ r ?%not_elem_of_nil|].
  run_step E as s w2 E2. run_pure E. pose proof (add_processes_inv _ [] _ _ _ _ sockets_inv_empty E2) as [Ho (blocks & Hn & Hl & _ & Hb)].
  split; [exists blocks, (inode_proc_map s); by rewrite Hl|]. intros Hf r (info & _ & Hr)%list_elem_of_omap.
  rewrite Hf in E1. run_pure E1. unfold socket_row in Hr. rewrite Hf in Hr. destruct (inode_proc_map s !! so_socket info) as [o|] eqn:Eo; [|done].
  cbn in Hr. injection Hr as <-. exists (ow_pid o). split; [done|]. apply Ho in Eo. cbn in Eo. unfold set_sorted in Eo.
  rewrite merge_sort_Permutation in Eo. by apply elem_of_elements.
Qed.
End Sockets.
