(* ===== verification/System.v ===== *)
(** * The host and the process (osquery/core/system.cpp)

    A stored identifier outlives the process that made it, and one that could not be
    stored replaces the host name from the second call on. A daemon whose pid is in the
    file keeps a second one from starting. Privileges that were dropped come back as
    they were, but for a process that had no supplementary groups; while they are dropped
    no second handle drops them.

    The identifier of the host, the file that keeps a second daemon from starting, and
    giving up privileges for a while. The database is used through its interface; files,
    random identifiers and credentials are classes of operations. *)
From S2P Require Import Prelude Boost Conversions Json Database DatabaseFacts Query.

(** ** Identifiers *)

Definition kPlaceholderHardwareUUIDList : list string :=
  ["00000000-0000-0000-0000-000000000000"; "03000200-0400-0500-0006-000700080009";
   "03020100-0504-0706-0809-0a0b0c0d0e0f"; "10000000-0000-8000-0040-000000000000"].

Definition isPlaceholderHardwareUUID (uuid : string) : bool := bool_decide (lower uuid ∈ kPlaceholderHardwareUUIDList).

Inductive FLAGS_host_identifier := HI_uuid | HI_instance | HI_ephemeral | HI_specified | HI_hostname.

Class Identity (S : Type) := {
  (** The buffer [gethostname] filled. *)
  gethostname : M S string;
  (** [boost::uuids::to_string(random_generator()())]. *)
  generateNewUUID : M S string;
  id_readFile : string -> M S (Status * string);
}.

(** The process: [ident] is the static of [getHostIdentifier]. *)
Record HostProcess (S : Type) := mkHost { hp_world : S; ident_ : string }.
Arguments mkHost {S} _ _.
Arguments hp_world {S} _.
Arguments ident_ {S} _.

Section Identifiers.
Context {S : Type} {A : DatabaseAPI S} {ID : Identity S} {B : Boost}.
Context (flag : FLAGS_host_identifier) (FLAGS_specified_identifier : string).

Definition getHostname : M S string :=
  let* hostname := gethostname in ret (boost_trim (c_str hostname)).

Definition generateHostUUID : M S string :=
  let* (_, text) := id_readFile "/sys/class/dmi/id/product_uuid" in
  let text := boost_trim (of_chars (filter (fun c => c <> "010"%char) (chars text))) in
  let hardware_uuid := c_str text in
  if is_empty hardware_uuid then generateNewUUID
  else if isPlaceholderHardwareUUID hardware_uuid then generateNewUUID
  else ret hardware_uuid.

(** Look an identifier up, or make one and store it. *)
Definition stored_or (key : string) (generate : M S string) (ident : string) : M S (Status * string) :=
  let* (status, found) := api_get kPersistentSettings key in
  let ident := default ident found in
  if is_empty ident then
    let* ident := generate in
    let* status := api_set kPersistentSettings key ident in
    ret (status, ident)
  else ret (status, ident).

Definition getInstanceUUID (ident : string) : M S (Status * string) := stored_or "instance_uuid_v1" generateNewUUID ident.
Definition getHostUUID (ident : string) : M S (Status * string) := stored_or "host_uuid_v3" generateHostUUID ident.

Definition getEphemeralUUID (ident : string) : M S (Status * string) :=
  if is_empty ident then let* ident := generateNewUUID in ret (mkStatus 0 "OK", ident) else ret (mkStatus 0 "OK", ident).

Definition getSpecifiedUUID (ident : string) : M S (Status * string) :=
  ret (if is_empty FLAGS_specified_identifier then (mkStatus 1 "No specified identifier for host", ident)
       else (mkStatus 0 "OK", FLAGS_specified_identifier)).

Definition identify (ident : string) : M S (Status * string) :=
  match flag with
  | HI_uuid => getHostUUID ident
  | HI_instance => getInstanceUUID ident
  | HI_ephemeral => getEphemeralUUID ident
  | HI_specified => getSpecifiedUUID ident
  | HI_hostname => ret (Status1 2, ident)
  end.

Definition hp_on {X} (m : M S X) : M (HostProcess S) X := zoom hp_world (fun s p => mkHost s (ident_ p)) m.

(** The static keeps what the look-up left in it, also when it failed. *)
Definition getHostIdentifier : M (HostProcess S) string :=
  let* ident := gets ident_ in
  if is_empty ident then
    let* (result, ident) := hp_on (identify ident) in
    modify (fun p => mkHost (hp_world p) ident) ;;;
    if negb (Status_ok result) then hp_on getHostname else ret ident
  else ret ident.
End Identifiers.

(** ** The pid file *)

Class Pids (W : Type) := {
  pd_pathExists : string -> M W Status;
  pd_readFile : string -> M W (Status * string);
  pd_removePath : string -> M W bool;
  pd_writeTextFile : string -> string -> M W Status;
  pd_sql : string -> M W (Status * QueryData);
  pd_kill : Z -> M W bool;
  pd_sleep : M W unit;
  pd_getCurrentPid : M W Z;
}.

Section PidFile.
Context {W : Type} {PD : Pids W}.
Context (FLAGS_force : bool) (FLAGS_pidfile : string) (lexical_cast_int : string -> option Z).

Definition process_query (pid : Z) : string := "SELECT name FROM processes WHERE pid = " +:+ to_string pid +:+ " AND name LIKE 'osqueryd%';".

Definition checkStalePid (content : string) : M W Status :=
  match lexical_cast_int content with
  | None => ret (mkStatus 0 "Could not parse pid from existing pidfile")
  | Some pid =>
      let* (status, rows) := pd_sql (process_query pid) in
      if negb (Status_ok status) then ret (mkStatus 1 ("Error querying processes: " +:+ message status))
      else if (0 <? length rows)%nat then
        if FLAGS_force then
          let* killed := pd_kill pid in
          pd_sleep ;;;
          ret (mkStatus (if killed then 0 else -1) "Tried to force remove the existing osqueryd")
        else ret (mkStatus 1 ("osqueryd (" +:+ content +:+ ") is already running"))
      else ret (mkStatus 0 "OK")
  end.

(** The file is read, removed and written again in steps. *)
Definition write_pid_file : M W Status :=
  let* _ := pd_removePath FLAGS_pidfile in
  let* pid := pd_getCurrentPid in
  pd_writeTextFile FLAGS_pidfile (to_string pid).

Definition createPidFile : M W Status :=
  let* there := pd_pathExists FLAGS_pidfile in
  if Status_ok there then
    let* (read_status, content) := pd_readFile FLAGS_pidfile in
    if negb (Status_ok read_status) then ret (mkStatus 1 ("Could not read pidfile: " +:+ message read_status))
    else
      let* stale_status := checkStalePid content in
      if negb (Status_ok stale_status) then ret stale_status else write_pid_file
  else write_pid_file.
End PidFile.

(** ** Privileges *)

(** The credentials of the process and the calls that change them: [setresgid(-1, g, -1)]
    and [setresuid(-1, u, -1)] set the effective group and user. *)
Class Credentials (W : Type) := {
  cr_getuid : M W Z; cr_getgid : M W Z; cr_geteuid : M W Z; cr_getegid : M W Z;
  cr_getgroups : M W (list Z);
  cr_setgroups : list Z -> M W bool;
  cr_seteffective_gid : Z -> M W bool;
  cr_seteffective_uid : Z -> M W bool;
}.

Record DropPrivileges (W : Type) := mkDrop {
  dp_world : W;
  dropped_ : bool;
  to_user_ : Z;
  to_group_ : Z;
  (** [None] is the null pointer; [group_size_] is the length. *)
  original_groups_ : option (list Z);
}.
Arguments mkDrop {W} _ _ _ _ _.
Arguments dp_world {W} _.
Arguments dropped_ {W} _.
Arguments to_user_ {W} _.
Arguments to_group_ {W} _.
Arguments original_groups_ {W} _.

Section Privileges.
Context {W : Type} {CR : Credentials W}.
Abbreviation MD := (M (DropPrivileges W)).

Definition dp_on {A} (m : M W A) : MD A :=
  zoom dp_world (fun w d => mkDrop w (dropped_ d) (to_user_ d) (to_group_ d) (original_groups_ d)) m.
Definition set_groups_saved (g : option (list Z)) : MD unit :=
  modify (fun d => mkDrop (dp_world d) (dropped_ d) (to_user_ d) (to_group_ d) g).

(** The group first, while the user may still change it. *)
Definition setThreadEffective (uid gid : Z) : M W bool :=
  let* g := cr_seteffective_gid gid in if g then cr_seteffective_uid uid else ret false.

Definition restoreGroups : MD unit :=
  let* groups := gets original_groups_ in
  (match groups with Some ((_ :: _) as l) => let* _ := dp_on (cr_setgroups l) in ret tt | _ => ret tt end) ;;;
  set_groups_saved None.

(** A process without supplementary groups saves none. *)
Definition save_groups : MD unit :=
  let* groups := dp_on cr_getgroups in
  match groups with [] => ret tt | _ => set_groups_saved (Some groups) end.

(** [dropped()]: the effective identity is not the real one, whichever handle changed it. *)
Definition dropped : M W bool :=
  let* uid := cr_getuid in
  let* euid := cr_geteuid in
  let* gid := cr_getgid in
  let* egid := cr_getegid in
  ret (negb (uid =? euid)%Z || negb (gid =? egid)%Z).

Definition dropTo (uid gid : Z) : MD bool :=
  let* euid := dp_on cr_geteuid in
  let* egid := dp_on cr_getegid in
  if (uid =? euid)%Z && (gid =? egid)%Z then ret true
  else
    let* active := dp_on dropped in
    let* to := gets (fun d => (to_user_ d, to_group_ d)) in
    if active && (uid =? to.1)%Z && (gid =? to.2)%Z then ret true
    else if active : bool then ret false
    else
      let* saved := gets original_groups_ in
      (match saved with Some _ => restoreGroups | None => ret tt end) ;;;
      save_groups ;;;
      let* _ := dp_on (cr_setgroups [gid]) in
      let* ok := dp_on (setThreadEffective uid gid) in
      if negb ok then
        let* rgid := dp_on cr_getgid in
        let* _ := dp_on (cr_seteffective_gid rgid) in
        ret false
      else
        modify (fun d => mkDrop (dp_world d) true uid gid (original_groups_ d)) ;;;
        ret true.

(** The destructor. *)
Definition restore_privileges : MD unit :=
  let* dropped := gets dropped_ in
  (if dropped then
     let* uid := dp_on cr_getuid in
     let* gid := dp_on cr_getgid in
     let* _ := dp_on (setThreadEffective uid gid) in
     modify (fun d => mkDrop (dp_world d) false (to_user_ d) (to_group_ d) (original_groups_ d))
   else ret tt) ;;;
  let* saved := gets original_groups_ in
  match saved with Some _ => restoreGroups | None => ret tt end.

(** [DropPrivileges::get()]: a handle of its own, destroyed when the scope is left, also by
    an exception. *)
Definition with_handle {A} (body : MD A) : M W A := fun w =>
  let '(r, d) := body (mkDrop w false 0 0 None) in
  let '(_, d) := restore_privileges d in
  (r, dp_world d).

(** The overloads that look the user up; [row.at] throws when the column is missing. *)
Definition row_at (row : Row) (column : string) : result string :=
  match row !! column with Some v => Ok v | None => Throw (OutOfRange "map::at") end.

Definition ownerFromResult (row : Row) : MD (option (Z * Z)) :=
  let* uid := of_result (row_at row "uid") in
  let* gid := of_result (row_at row "gid") in
  ret (match tryTo TLong uid 10, tryTo TLong gid 10 with
       | inl uid, inl gid => Some (uid, gid)
       | _, _ => None
       end).

Definition dropTo_owner (row : Row) : MD bool :=
  let* owner := ownerFromResult row in
  match owner with
  | None => ret false
  | Some (uid, gid) => dropTo (u32 uid) (u32 gid)
  end.

Definition dropTo_user (users : M W QueryData) : MD bool :=
  let* result := dp_on users in
  match result with
  | [] => ret false
  | row :: _ => dropTo_owner row
  end.

Definition dropToParent (file_rows : M W QueryData) (lstat_owner : M W (option (Z * Z))) : MD bool :=
  let* result := dp_on file_rows in
  match result with
  | [] => ret false
  | row :: _ =>
      let* symlink := of_result (row_at row "symlink") in
      if bool_decide (symlink = "1") then
        let* o := dp_on lstat_owner in
        match o with None => ret false | Some (uid, gid) => dropTo uid gid end
      else dropTo_owner row
  end.

Definition dropTo_text (uid gid : string) : MD bool :=
  match tryTo TUInt uid 10, tryTo TUInt gid 10 with
  | inl uid, inl gid => dropTo uid gid
  | _, _ => ret false
  end.
End Privileges.

(** ** Time *)

Definition getUnixTime_of (ut : Z) : Z := if (ut <? 0)%Z then 0%Z else ut.

(** ** Facts: identifiers *)

Section IdentifierFacts.
Context {S : Type} {A : DatabaseAPI S} {L : DatabaseAPILaws S} {ID : Identity S} {B : Boost}.
Context (specified : string).

(** The flags whose identifier is kept in the database, with its key and its source. *)
Definition stored_key (flag : FLAGS_host_identifier) : option (string * M S string) :=
  match flag with
  | HI_uuid => Some ("host_uuid_v3", generateHostUUID)
  | HI_instance => Some ("instance_uuid_v1", generateNewUUID)
  | _ => None
  end.

Lemma identify_stored flag key generate ident :
  stored_key flag = Some (key, generate) -> identify flag specified ident = stored_or key generate ident.
Proof. by destruct flag; intros [= <- <-]. Qed.

Lemma hp_on_run {X} (m : M S X) s i x s' : m s = (Ok x, s') -> hp_on m (mkHost s i) = (Ok x, mkHost s' i).
Proof. unfold hp_on, zoom. cbn. by intros ->. Qed.

Lemma is_empty_false s : s <> "" -> is_empty s = false.
Proof. by destruct s. Qed.

Lemma getHostIdentifier_kept flag s i : i <> "" ->
  getHostIdentifier flag specified (mkHost s i) = (Ok i, mkHost s i).
Proof.
  intros Hi. unfold getHostIdentifier, bind at 1, gets. cbn [ident_]. by rewrite is_empty_false.
Qed.

Lemma stored_or_found key generate s v : api_ready s ->
  api_view s kPersistentSettings !! key = Some v -> v <> "" ->
  exists st, stored_or key generate "" s = (Ok (st, v), s) /\ Status_ok st = true.
Proof.
  intros Hr Hv Hne. destruct (api_get_law s _ key Hr kPersistentSettings_domain) as (st & E & Hst).
  exists st. split; [|apply Hst; by rewrite Hv].
  unfold stored_or. rewrite (bind_run _ _ _ _ _ E), Hv. cbn. by rewrite is_empty_false.
Qed.

Lemma stored_or_missing key generate s u s1 : api_ready s ->
  api_view s kPersistentSettings !! key = None -> generate s = (Ok u, s1) -> api_ready s1 ->
  exists st s2, stored_or key generate "" s = (Ok (st, u), s2) /\ api_set kPersistentSettings key u s1 = (Ok st, s2) /\
    api_ready s2 /\ (Status_ok st = true -> api_view s2 kPersistentSettings !! key = Some u).
Proof.
  intros Hr Hv Hg Hr1. destruct (api_get_law s _ key Hr kPersistentSettings_domain) as (st & E & _).
  destruct (api_set_run s1 _ key u Hr1 kPersistentSettings_domain) as (st2 & s2 & E2 & Hr2 & Hv2).
  exists st2, s2. split.
  { unfold stored_or. rewrite (bind_run _ _ _ _ _ E), Hv. cbn [default is_empty].
    by rewrite (bind_run _ _ _ _ _ Hg), (bind_run _ _ _ _ _ E2). }
  split; [done|]. split; [done|]. intros Hok. rewrite Hv2, Hok. unfold update_domain.
  rewrite decide_True by done. apply lookup_insert_eq.
Qed.

Lemma getHostIdentifier_run flag key generate s st u s2 :
  stored_key flag = Some (key, generate) -> stored_or key generate "" s = (Ok (st, u), s2) -> Status_ok st = true ->
  getHostIdentifier flag specified (mkHost s "") = (Ok u, mkHost s2 u).
Proof.
  intros Hf E Hok. unfold getHostIdentifier, bind at 1, gets. cbn [ident_ is_empty].
  rewrite (identify_stored _ _ _ _ Hf), (bind_run _ _ _ _ _ (hp_on_run _ _ _ _ _ E)).
  unfold bind at 1, modify. cbn [hp_world]. by rewrite Hok.
Qed.

(** The identifier the first process makes is the one every later process reads. *)
Theorem identifier_outlives_the_process flag key generate s u s1 st s2 :
  stored_key flag = Some (key, generate) ->
  api_ready s -> api_view s kPersistentSettings !! key = None ->
  generate s = (Ok u, s1) -> u <> "" -> api_ready s1 ->
  api_set kPersistentSettings key u s1 = (Ok st, s2) -> Status_ok st = true ->
  getHostIdentifier flag specified (mkHost s "") = (Ok u, mkHost s2 u) /\
  getHostIdentifier flag specified (mkHost s2 "") = (Ok u, mkHost s2 u).
Proof.
  intros Hf Hr Hv Hg Hu Hr1 Hset Hok.
  destruct (stored_or_missing key generate s u s1 Hr Hv Hg Hr1) as (st' & s2' & E & E' & Hr2 & Hv2).
  assert (st' = st /\ s2' = s2) as [-> ->] by (rewrite Hset in E'; by simplify_eq). split.
  - by apply (getHostIdentifier_run flag key generate s st).
  - destruct (stored_or_found key generate s2 u Hr2 (Hv2 Hok) Hu) as (st3 & E3 & Hok3).
    by apply (getHostIdentifier_run flag key generate s2 st3).
Qed.

(** An identifier that cannot be stored: the first call answers with the host name, but
    the static keeps the identifier, and every later call of the process returns it. *)
Theorem unstored_identifier_replaces_the_hostname flag key generate s u s1 st s2 name s3 :
  stored_key flag = Some (key, generate) ->
  api_ready s -> api_view s kPersistentSettings !! key = None ->
  generate s = (Ok u, s1) -> u <> "" -> api_ready s1 ->
  api_set kPersistentSettings key u s1 = (Ok st, s2) -> Status_ok st = false ->
  getHostname s2 = (Ok name, s3) ->
  getHostIdentifier flag specified (mkHost s "") = (Ok name, mkHost s3 u) /\
  forall s', getHostIdentifier flag specified (mkHost s' u) = (Ok u, mkHost s' u).
Proof.
  intros Hf Hr Hv Hg Hu Hr1 Hset Hok Hn. split; [|intros s'; by apply getHostIdentifier_kept].
  destruct (stored_or_missing key generate s u s1 Hr Hv Hg Hr1) as (st' & s2' & E & E' & _).
  assert (st' = st /\ s2' = s2) as [-> ->] by (rewrite Hset in E'; by simplify_eq).
  unfold getHostIdentifier, bind at 1, gets. cbn [ident_ is_empty].
  rewrite (identify_stored _ _ _ _ Hf), (bind_run _ _ _ _ _ (hp_on_run _ _ _ _ _ E)).
  unfold bind at 1, modify. cbn [hp_world]. rewrite Hok. cbn [negb]. by apply hp_on_run.
Qed.
End IdentifierFacts.

(** ** Facts: the pid file *)

(** The file and the processes that are named after the daemon, as the operations see them. *)
Class PidsLaws (W : Type) {PD : Pids W} (path : string) := {
  pid_file : W -> option string;
  osqueryd : W -> Z -> Prop;
  current_pid : W -> Z;
  pd_pathExists_law w : exists st, pd_pathExists path w = (Ok st, w) /\ (Status_ok st = true <-> is_Some (pid_file w));
  pd_readFile_law w : exists st text, pd_readFile path w = (Ok (st, text), w) /\ (Status_ok st = true -> pid_file w = Some text);
  pd_removePath_law w : exists removed w', pd_removePath path w = (Ok removed, w') /\ current_pid w' = current_pid w;
  pd_writeTextFile_law w text : exists st w', pd_writeTextFile path text w = (Ok st, w') /\
    (Status_ok st = true -> pid_file w' = Some text);
  pd_sql_law w pid : exists st rows, pd_sql (process_query pid) w = (Ok (st, rows), w) /\
    (Status_ok st = true -> (rows <> [] <-> osqueryd w pid));
  pd_getCurrentPid_law w : pd_getCurrentPid w = (Ok (current_pid w), w);
}.

Section PidFileFacts.
Context {W : Type} {PD : Pids W} (path : string) {L : PidsLaws W path}.
Context (lexical_cast_int : string -> option Z).
Hypothesis cast_to_string : forall z, (- 2 ^ 31 <= z < 2 ^ 31)%Z -> lexical_cast_int (to_string z) = Some z.

Lemma write_pid_file_run w : exists st w', write_pid_file path w = (Ok st, w') /\
  (Status_ok st = true -> pid_file w' = Some (to_string (current_pid w))).
Proof.
  destruct (pd_removePath_law w) as (b & w1 & E1 & Hp). destruct (pd_writeTextFile_law w1 (to_string (current_pid w1))) as (st & w2 & E2 & Hf).
  exists st, w2. rewrite <- Hp. split; [|done]. unfold write_pid_file.
  by rewrite (bind_run _ _ _ _ _ E1), (bind_run _ _ _ _ _ (pd_getCurrentPid_law w1)).
Qed.

Lemma live_pid_is_not_stale text pid w : lexical_cast_int text = Some pid -> osqueryd w pid ->
  exists st, checkStalePid false lexical_cast_int text w = (Ok st, w) /\ Status_ok st = false.
Proof.
  intros Hc Hl. destruct (pd_sql_law w pid) as (st & rows & E & Hrows).
  unfold checkStalePid. rewrite Hc, (bind_run _ _ _ _ _ E).
  destruct (Status_ok st) eqn:Hok; cbn [negb]; [|by eexists].
  destruct rows as [|r rows]; [by apply Hrows in Hl|]. cbn. by eexists.
Qed.

(** A live daemon's file stops the next one, which leaves the file as it is. *)
Lemma live_daemon_refuses text pid w : pid_file w = Some text -> lexical_cast_int text = Some pid -> osqueryd w pid ->
  exists st, createPidFile false path lexical_cast_int w = (Ok st, w) /\ Status_ok st = false.
Proof.
  intros Hf Hc Hl. destruct (pd_pathExists_law w) as (st1 & E1 & Hex). destruct (pd_readFile_law w) as (st2 & text' & E2 & Ht).
  unfold createPidFile. rewrite (bind_run _ _ _ _ _ E1), (proj2 Hex) by (rewrite Hf; eauto).
  rewrite (bind_run _ _ _ _ _ E2). destruct (Status_ok st2) eqn:Hok; cbn [negb]; [|by eexists].
  assert (text' = text) as -> by (specialize (Ht eq_refl); congruence).
  destruct (live_pid_is_not_stale _ _ _ Hc Hl) as (st3 & E3 & Hbad).
  exists st3. by rewrite (bind_run _ _ _ _ _ E3), Hbad.
Qed.

(** Once a daemon has made its pid file, a second one that finds the file while the
    first is running is refused and does not touch the file. *)
Theorem second_daemon_is_refused force w st w1 w2 :
  createPidFile force path lexical_cast_int w = (Ok st, w1) -> Status_ok st = true ->
  pid_file w = None -> (0 <= current_pid w < 2 ^ 31)%Z ->
  pid_file w2 = pid_file w1 -> osqueryd w2 (current_pid w) ->
  exists st2, createPidFile false path lexical_cast_int w2 = (Ok st2, w2) /\ Status_ok st2 = false.
Proof.
  intros E Hok Hno Hpid Hsame Hl. destruct (pd_pathExists_law w) as (st1 & E1 & Hex).
  unfold createPidFile in E. rewrite (bind_run _ _ _ _ _ E1) in E.
  destruct (Status_ok st1). { destruct (proj1 Hex eq_refl). congruence. }
  destruct (write_pid_file_run w) as (st' & w' & Ew & Hw). rewrite Ew in E. simplify_eq.
  apply (live_daemon_refuses (to_string (current_pid w)) (current_pid w)); [|apply cast_to_string; lia|done].
  rewrite Hsame. by apply Hw.
Qed.
End PidFileFacts.

(** ** Facts: privileges *)

(** A process's identities, as [credentials(7)] has them: the superuser may take any
    effective identity and set the supplementary groups; another process may take its
    real ones. A call that fails changes nothing. *)
Class CredentialsLaws (W : Type) {CR : Credentials W} := {
  ruid : W -> Z; rgid : W -> Z; euid : W -> Z; egid : W -> Z; groups : W -> list Z;
  cr_getuid_law w : cr_getuid w = (Ok (ruid w), w);
  cr_getgid_law w : cr_getgid w = (Ok (rgid w), w);
  cr_geteuid_law w : cr_geteuid w = (Ok (euid w), w);
  cr_getegid_law w : cr_getegid w = (Ok (egid w), w);
  cr_getgroups_law w : cr_getgroups w = (Ok (groups w), w);
  cr_setgroups_law w l : exists b w', cr_setgroups l w = (Ok b, w') /\ (euid w = 0%Z -> b = true) /\
    groups w' = (if b : bool then l else groups w) /\ ruid w' = ruid w /\ rgid w' = rgid w /\ euid w' = euid w /\ egid w' = egid w;
  cr_seteffective_gid_law w g : exists b w', cr_seteffective_gid g w = (Ok b, w') /\ (euid w = 0%Z \/ g = rgid w -> b = true) /\
    egid w' = (if b : bool then g else egid w) /\ ruid w' = ruid w /\ rgid w' = rgid w /\ euid w' = euid w /\ groups w' = groups w;
  cr_seteffective_uid_law w u : exists b w', cr_seteffective_uid u w = (Ok b, w') /\ (euid w = 0%Z \/ u = ruid w -> b = true) /\
    euid w' = (if b : bool then u else euid w) /\ ruid w' = ruid w /\ rgid w' = rgid w /\ egid w' = egid w /\ groups w' = groups w;
}.

Section PrivilegeFacts.
Context {W : Type} {CR : Credentials W} {L : CredentialsLaws W}.

Record creds := mkCreds { c_ruid : Z; c_rgid : Z; c_euid : Z; c_egid : Z; c_groups : list Z }.
Definition creds_of (w : W) : creds := mkCreds (ruid w) (rgid w) (euid w) (egid w) (groups w).

Lemma dp_on_run {A} (m : M W A) w d t u g a w' : m w = (Ok a, w') -> dp_on m (mkDrop w d t u g) = (Ok a, mkDrop w' d t u g).
Proof. unfold dp_on, zoom. cbn. by intros ->. Qed.

Lemma setgroups_root w l : euid w = 0%Z -> exists w', cr_setgroups l w = (Ok true, w') /\
  creds_of w' = mkCreds (ruid w) (rgid w) (euid w) (egid w) l.
Proof.
  intros H0. destruct (cr_setgroups_law w l) as (b & w' & E & Hb & H). rewrite (Hb H0) in *. exists w'. split; [done|].
  unfold creds_of. destruct H as (? & ? & ? & ? & ?). congruence.
Qed.

Lemma setThreadEffective_run u g w : euid w = 0%Z \/ (u = ruid w /\ g = rgid w) ->
  exists w', setThreadEffective u g w = (Ok true, w') /\
    creds_of w' = mkCreds (ruid w) (rgid w) u g (groups w).
Proof.
  intros H. destruct (cr_seteffective_gid_law w g) as (b1 & w1 & E1 & Hb1 & Hg1 & Hu1 & Hrg1 & He1 & Hgr1).
  rewrite Hb1 in * by tauto. destruct (cr_seteffective_uid_law w1 u) as (b2 & w2 & E2 & Hb2 & Hg2 & Hu2 & Hrg2 & He2 & Hgr2).
  rewrite Hb2 in * by (rewrite He1, Hu1; tauto).
  exists w2. unfold setThreadEffective. rewrite (bind_run _ _ _ _ _ E1). split; [done|].
  unfold creds_of. congruence.
Qed.

(** The groups that were there, when there were any, are kept aside. *)
Definition saved (w : W) : option (list Z) := match groups w with [] => None | l => Some l end.

Lemma save_groups_run w t u : save_groups (mkDrop w false t u None) = (Ok tt, mkDrop w false t u (saved w)).
Proof.
  unfold save_groups. rewrite (bind_run _ _ _ _ _ (dp_on_run _ _ _ _ _ _ _ _ (cr_getgroups_law w))).
  unfold saved, set_groups_saved, modify. by destruct (groups w).
Qed.

Lemma dropped_run w : dropped w = (Ok (negb (ruid w =? euid w)%Z || negb (rgid w =? egid w)%Z), w).
Proof.
  unfold dropped. rewrite (bind_run _ _ _ _ _ (cr_getuid_law w)), (bind_run _ _ _ _ _ (cr_geteuid_law w)).
  by rewrite (bind_run _ _ _ _ _ (cr_getgid_law w)), (bind_run _ _ _ _ _ (cr_getegid_law w)).
Qed.

(** A process that runs as what it is. *)
Definition own_identity (w : W) : Prop := euid w = ruid w /\ egid w = rgid w.

Lemma own_not_dropped w : own_identity w -> dropped w = (Ok false, w).
Proof. intros [H1 H2]. by rewrite dropped_run, H1, H2, !Z.eqb_refl. Qed.

(** A drop from the process's own identity to another one, up to the call that takes it. *)
Lemma dropTo_tries w t u uid gid : own_identity w -> (uid, gid) <> (euid w, egid w) ->
  exists w1, creds_of w1 = mkCreds (ruid w) (rgid w) (euid w) (egid w) (groups w1) /\
    (euid w = 0%Z -> groups w1 = [gid]) /\ (exists b, cr_setgroups [gid] w = (Ok b, w1)) /\
    dropTo uid gid (mkDrop w false t u None) =
      (let* ok := dp_on (setThreadEffective uid gid) in
       if negb ok then
         let* rgid := dp_on cr_getgid in
         let* _ := dp_on (cr_seteffective_gid rgid) in
         ret false
       else
         modify (fun d => mkDrop (dp_world d) true uid gid (original_groups_ d)) ;;;
         ret true) (mkDrop w1 false t u (saved w)).
Proof.
  intros Hown Hne. destruct (cr_setgroups_law w [gid]) as (b & w1 & E1 & Hb & Hg1 & Hu1 & Hrg1 & He1 & Hgr1).
  exists w1. split; [unfold creds_of; congruence|]. split; [intros H0; by rewrite Hg1, (Hb H0)|]. split; [by exists b|].
  unfold dropTo. rewrite (bind_run _ _ _ _ _ (dp_on_run _ _ _ _ _ _ _ _ (cr_geteuid_law w))).
  rewrite (bind_run _ _ _ _ _ (dp_on_run _ _ _ _ _ _ _ _ (cr_getegid_law w))).
  assert ((uid =? euid w)%Z && (gid =? egid w)%Z = false) as ->.
  { apply not_true_iff_false. rewrite andb_true_iff, !Z.eqb_eq. intros [-> ->]. done. }
  rewrite (bind_run _ _ _ _ _ (dp_on_run _ _ _ _ _ _ _ _ (own_not_dropped w Hown))). unfold bind at 1, gets.
  cbn [andb]. unfold bind at 1. cbn [original_groups_]. unfold bind at 1, ret at 1.
  rewrite (bind_run _ _ _ _ _ (save_groups_run w t u)).
  by rewrite (bind_run _ _ _ _ _ (dp_on_run _ _ _ _ _ _ _ _ E1)).
Qed.

Lemma dropTo_run w t u uid gid : own_identity w -> euid w = 0%Z -> (uid, gid) <> (euid w, egid w) ->
  exists w', dropTo uid gid (mkDrop w false t u None) = (Ok true, mkDrop w' true uid gid (saved w)) /\
    creds_of w' = mkCreds (ruid w) (rgid w) uid gid [gid].
Proof.
  intros Hown H0 Hne. destruct (dropTo_tries w t u uid gid Hown Hne) as (w1 & Hc1 & Hg & _ & ->). injection Hc1 as H1 H2 H3 H4.
  destruct (setThreadEffective_run uid gid w1) as (w2 & E2 & Hc); [left; congruence|].
  exists w2. rewrite (bind_run _ _ _ _ _ (dp_on_run _ _ _ _ _ _ _ _ E2)). split; [done|]. rewrite Hc, (Hg H0). congruence.
Qed.

Lemma restoreGroups_run w d t u l : euid w = 0%Z -> l <> [] ->
  exists w', restoreGroups (mkDrop w d t u (Some l)) = (Ok tt, mkDrop w' d t u None) /\
    creds_of w' = mkCreds (ruid w) (rgid w) (euid w) (egid w) l.
Proof.
  intros H0 Hl. destruct (setgroups_root w l H0) as (w1 & E1 & Hc). exists w1. split; [|done].
  unfold restoreGroups, bind at 1, gets. cbn [original_groups_]. destruct l as [|x l]; [done|].
  rewrite (bind_run _ _ _ tt (mkDrop w1 d t u (Some (x :: l)))); [done|]. cbv beta iota.
  by rewrite (bind_run _ _ _ _ _ (dp_on_run _ _ _ _ _ _ _ _ E1)).
Qed.

(** Whoever the process became, the destructor gives it its own identity back, with the
    groups that were saved; when none were, those of the user it had become stay. *)
Lemma restore_privileges_run w uid gid g : ruid w = 0%Z -> g <> Some [] ->
  exists w' d, restore_privileges (mkDrop w true uid gid g) = (Ok tt, d) /\ dp_world d = w' /\ dropped_ d = false /\
    creds_of w' = mkCreds (ruid w) (rgid w) (ruid w) (rgid w) (default (groups w) g).
Proof.
  intros H0 Hg. destruct (setThreadEffective_run (ruid w) (rgid w) w) as (w1 & E1 & Hc1); [by right|].
  injection Hc1 as Hr Hrg He Heg Hgr.
  assert (exists w' d, (match g with Some _ => restoreGroups | None => ret tt end) (mkDrop w1 false uid gid g) = (Ok tt, d) /\
    dp_world d = w' /\ dropped_ d = false /\
    creds_of w' = mkCreds (ruid w) (rgid w) (ruid w) (rgid w) (default (groups w) g)) as (w' & d & E & Hd).
  { destruct g as [l|].
    - destruct (restoreGroups_run w1 false uid gid l) as (w2 & E2 & Hc2); [congruence | congruence |].
      exists w2, (mkDrop w2 false uid gid None). split; [done|]. cbn [default dp_world dropped_]. rewrite Hc2.
      do 2 (split; [done|]). by rewrite Hr, Hrg, He, Heg.
    - exists w1, (mkDrop w1 false uid gid None). do 3 (split; [done|]). unfold creds_of. cbn. congruence. }
  exists w', d. split; [|done]. unfold restore_privileges, bind at 1, gets. cbn [dropped_].
  rewrite (bind_run _ _ _ tt (mkDrop w1 false uid gid g)).
  2: { rewrite (bind_run _ _ _ _ _ (dp_on_run _ _ _ _ _ _ _ _ (cr_getuid_law w))).
       rewrite (bind_run _ _ _ _ _ (dp_on_run _ _ _ _ _ _ _ _ (cr_getgid_law w))).
       by rewrite (bind_run _ _ _ _ _ (dp_on_run _ _ _ _ _ _ _ _ E1)). }
  unfold bind at 1. cbn [original_groups_]. exact E.
Qed.

(** A daemon of the superuser that drops its privileges runs with the identity it asked
    for and no group but that one; when the handle is destroyed it has its own identity
    and its supplementary groups back. *)
Theorem dropped_privileges_come_back w uid gid :
  ruid w = 0%Z -> euid w = 0%Z -> egid w = rgid w -> groups w <> [] -> (uid, gid) <> (euid w, egid w) ->
  exists w1 d, dropTo uid gid (mkDrop w false 0 0 None) = (Ok true, d) /\ dp_world d = w1 /\
    creds_of w1 = mkCreds 0 (rgid w) uid gid [gid] /\
    exists d', restore_privileges d = (Ok tt, d') /\ creds_of (dp_world d') = creds_of w.
Proof.
  intros Hr He Heg Hg Hne. destruct (dropTo_run w 0 0 uid gid ltac:(split; congruence) He Hne) as (w1 & E1 & Hc1).
  exists w1, (mkDrop w1 true uid gid (saved w)). rewrite Hr in Hc1. split; [done|]. split; [done|]. split; [done|].
  injection Hc1 as H1 H2 H3 H4 H5.
  destruct (restore_privileges_run w1 uid gid (saved w)) as (w2 & d & E2 & Hd & _ & Hc2); [done| |].
  { unfold saved. by destruct (groups w). }
  exists d. split; [done|]. rewrite Hd, Hc2. unfold creds_of, saved. destruct (groups w) eqn:Hgw; [done|]. cbn. congruence.
Qed.

(** A process without supplementary groups keeps the dropped-to group as one. *)
Theorem group_stays_after_restoring w uid gid :
  ruid w = 0%Z -> euid w = 0%Z -> egid w = rgid w -> groups w = [] -> (uid, gid) <> (euid w, egid w) ->
  exists d d', dropTo uid gid (mkDrop w false 0 0 None) = (Ok true, d) /\
    restore_privileges d = (Ok tt, d') /\ groups (dp_world d') = [gid].
Proof.
  intros Hr He Heg Hg Hne. destruct (dropTo_run w 0 0 uid gid ltac:(split; congruence) He Hne) as (w1 & E1 & Hc1).
  rewrite Hr in Hc1. injection Hc1 as H1 H2 H3 H4 H5.
  assert (saved w = None) as Hs by (unfold saved; by rewrite Hg). rewrite Hs in E1.
  destruct (restore_privileges_run w1 uid gid None) as (w2 & d & E2 & Hd & _ & Hc2); [done..|].
  eexists _, d. split; [exact E1|]. split; [exact E2|]. rewrite Hd. injection Hc2. cbn. congruence.
Qed.
(** While one handle has dropped the privileges, another one cannot drop them to anybody
    else: it refuses and changes nothing. *)
Theorem second_drop_is_refused w uid gid :
  ~ own_identity w -> (uid, gid) <> (euid w, egid w) -> (uid, gid) <> (0%Z, 0%Z) ->
  dropTo uid gid (mkDrop w false 0 0 None) = (Ok false, mkDrop w false 0 0 None).
Proof.
  intros Hown Hne H0. unfold dropTo. rewrite (bind_run _ _ _ _ _ (dp_on_run _ _ _ _ _ _ _ _ (cr_geteuid_law w))).
  rewrite (bind_run _ _ _ _ _ (dp_on_run _ _ _ _ _ _ _ _ (cr_getegid_law w))).
  assert ((uid =? euid w)%Z && (gid =? egid w)%Z = false) as ->.
  { apply not_true_iff_false. rewrite andb_true_iff, !Z.eqb_eq. intros [-> ->]. done. }
  assert (negb (ruid w =? euid w)%Z || negb (rgid w =? egid w)%Z = true) as Hd.
  { apply not_false_iff_true. rewrite orb_false_iff, !negb_false_iff, !Z.eqb_eq. intros [E1 E2]. by apply Hown. }
  pose proof (dropped_run w) as Er. rewrite Hd in Er. rewrite (bind_run _ _ _ _ _ (dp_on_run _ _ _ _ _ _ _ _ Er)).
  unfold bind, gets. cbn [to_user_ to_group_ fst snd andb].
  destruct ((uid =? 0)%Z && (gid =? 0)%Z) eqn:E; [|done]. apply andb_true_iff in E as [->%Z.eqb_eq ->%Z.eqb_eq]. done.
Qed.
(** *** What is done under a handle *)

(** Something the calls on credentials leave alone. *)
Context {X : Type} (f : W -> X).
Definition untouched_by {A} (m : M W A) : Prop := forall w a w', m w = (Ok a, w') -> f w' = f w.
Hypothesis f_setgroups : forall l, untouched_by (cr_setgroups l).
Hypothesis f_setgid : forall g, untouched_by (cr_seteffective_gid g).
Hypothesis f_setuid : forall u, untouched_by (cr_seteffective_uid u).

(** The same process, with [f] as it was. *)
Definition same_process (w w' : W) : Prop := ruid w' = ruid w /\ rgid w' = rgid w /\ f w' = f w.

(** A handle that has to restore the identity, or does not need to. *)
Definition restorable (d : DropPrivileges W) : Prop := dropped_ d = true \/ own_identity (dp_world d).

Lemma setThreadEffective_tries u g w : exists b w', setThreadEffective u g w = (Ok b, w') /\ same_process w w' /\
  (b = true -> euid w' = u /\ egid w' = g) /\ (b = false -> euid w' = euid w) /\ (u = ruid w -> g = rgid w -> b = true).
Proof.
  unfold setThreadEffective. destruct (cr_seteffective_gid_law w g) as (b1 & w1 & E1 & Hb1 & Hg1 & Hu1 & Hrg1 & He1 & _).
  pose proof (f_setgid _ _ _ _ E1) as F1. rewrite (bind_run _ _ _ _ _ E1). destruct b1.
  - destruct (cr_seteffective_uid_law w1 u) as (b2 & w2 & E2 & Hb2 & Hg2 & Hu2 & Hrg2 & He2 & _).
    pose proof (f_setuid _ _ _ _ E2) as F2. exists b2, w2. unfold same_process.
    split; [done|]. split; [split_and!; congruence|]. destruct b2; split_and!; try done; try (intros; split; congruence); try congruence.
    intros -> _. apply Hb2. right. by rewrite Hu1.
  - exists false, w1. unfold same_process. split_and!; try done; try congruence. intros _ ->. apply Hb1. by right.
Qed.

Lemma dropTo_keeps w uid gid : own_identity w -> exists b d, dropTo uid gid (mkDrop w false 0 0 None) = (Ok b, d) /\
  restorable d /\ same_process w (dp_world d) /\ (b = true -> euid (dp_world d) = uid /\ egid (dp_world d) = gid).
Proof.
  intros Hown. destruct (decide ((uid, gid) = (euid w, egid w))) as [[= -> ->]|Hne].
  { exists true, (mkDrop w false 0 0 None). split; [|split; [by right | done]]. unfold dropTo.
    rewrite (bind_run _ _ _ _ _ (dp_on_run _ _ _ _ _ _ _ _ (cr_geteuid_law w))).
    by rewrite (bind_run _ _ _ _ _ (dp_on_run _ _ _ _ _ _ _ _ (cr_getegid_law w))), !Z.eqb_refl. }
  destruct (dropTo_tries w 0 0 uid gid Hown Hne) as (w1 & Hc1 & _ & [b0 E0] & ->). injection Hc1 as H1 H2 H3 H4.
  pose proof (f_setgroups _ _ _ _ E0) as F0.
  destruct (setThreadEffective_tries uid gid w1) as (b & w2 & E2 & (P1 & P2 & P3) & Ht & Hf & _).
  rewrite (bind_run _ _ _ _ _ (dp_on_run _ _ _ _ _ _ _ _ E2)). destruct b.
  - eexists true, _. split; [reflexivity|]. split; [by left|]. split; [unfold same_process; cbn; split_and!; congruence|]. by intros _; apply Ht.
  - cbn [negb]. rewrite (bind_run _ _ _ _ _ (dp_on_run _ _ _ _ _ _ _ _ (cr_getgid_law w2))).
    destruct (cr_seteffective_gid_law w2 (rgid w2)) as (b3 & w3 & E3 & Hb3 & Hg3 & Hu3 & Hrg3 & He3 & _). rewrite Hb3 in * by (by right).
    pose proof (f_setgid _ _ _ _ E3) as F3.
    rewrite (bind_run _ _ _ _ _ (dp_on_run _ _ _ _ _ _ _ _ E3)). eexists false, _. split; [reflexivity|]. destruct Hown as [O1 O2].
    specialize (Hf eq_refl). split; [right; split; cbn; congruence|]. split; [|done]. unfold same_process. cbn. split_and!; congruence.
Qed.

Lemma restoreGroups_keeps d : exists d', restoreGroups d = (Ok tt, d') /\ same_process (dp_world d) (dp_world d') /\
  euid (dp_world d') = euid (dp_world d) /\ egid (dp_world d') = egid (dp_world d).
Proof.
  destruct d as [w dr t u g]. unfold restoreGroups, bind at 1, gets. cbn [original_groups_].
  destruct g as [[|x l]|]; [by eexists| |by eexists].
  destruct (cr_setgroups_law w (x :: l)) as (b & w1 & E1 & _ & _ & Hu1 & Hrg1 & He1 & Hgr1). pose proof (f_setgroups _ _ _ _ E1) as F1.
  exists (mkDrop w1 dr t u None). split; [|by split_and!].
  rewrite (bind_run _ _ _ tt (mkDrop w1 dr t u (Some (x :: l)))); [done|].
  by rewrite (bind_run _ _ _ _ _ (dp_on_run _ _ _ _ _ _ _ _ E1)).
Qed.

Lemma restore_keeps d : restorable d -> exists d', restore_privileges d = (Ok tt, d') /\
  same_process (dp_world d) (dp_world d') /\ own_identity (dp_world d').
Proof.
  intros Hr. destruct d as [w dr t u g].
  assert (exists w1, (if dr then let* uid := dp_on cr_getuid in let* gid := dp_on cr_getgid in
      let* _ := dp_on (setThreadEffective uid gid) in
      modify (fun d => mkDrop (dp_world d) false (to_user_ d) (to_group_ d) (original_groups_ d)) else ret tt) (mkDrop w dr t u g)
    = (Ok tt, mkDrop w1 false t u g) /\ same_process w w1 /\ own_identity w1) as (w1 & E1 & H1 & O1).
  { destruct dr.
    - rewrite (bind_run _ _ _ _ _ (dp_on_run _ _ _ _ _ _ _ _ (cr_getuid_law w))).
      rewrite (bind_run _ _ _ _ _ (dp_on_run _ _ _ _ _ _ _ _ (cr_getgid_law w))).
      destruct (setThreadEffective_tries (ruid w) (rgid w) w) as (b & w1 & E & (P1 & P2 & P3) & Ht & _ & Hb).
      rewrite (Hb eq_refl eq_refl) in *. exists w1. rewrite (bind_run _ _ _ _ _ (dp_on_run _ _ _ _ _ _ _ _ E)).
      destruct (Ht eq_refl). unfold same_process, own_identity. split_and!; [done | congruence..].
    - destruct Hr as [|Hr]; [done|]. by exists w. }
  unfold restore_privileges, bind at 1, gets. cbn [dropped_]. rewrite (bind_run _ _ _ _ _ E1). unfold bind at 1. cbn [original_groups_].
  destruct g as [l|]; [|by eexists]. destruct (restoreGroups_keeps (mkDrop w1 false t u (Some l))) as (d' & E' & H' & He & Hg).
  exists d'. split; [done|]. cbn [dp_world] in *. destruct H1 as (? & ? & ?), H' as (? & ? & ?), O1.
  unfold same_process, own_identity. split_and!; congruence.
Qed.

(** Work under a handle that may have taken the identity of a user: what [body] does is done
    with that identity when the drop succeeded, and the process has its own afterwards. *)
Lemma with_handle_run {A} uid gid (body : bool -> M W A) w (Q : A -> W -> W -> Prop) : own_identity w ->
  (forall b w1, same_process w w1 -> (b = true -> euid w1 = uid /\ egid w1 = gid) ->
     exists a w2, body b w1 = (Ok a, w2) /\ creds_of w2 = creds_of w1 /\ Q a w1 w2) ->
  exists a w1 w2 w', with_handle (let* b := dropTo uid gid in dp_on (body b)) w = (Ok a, w') /\
    f w1 = f w /\ Q a w1 w2 /\ f w' = f w2 /\ own_identity w' /\ ruid w' = ruid w /\ rgid w' = rgid w.
Proof.
  intros Hown Hbody. destruct (dropTo_keeps w uid gid Hown) as (b & [w1 dr t u g] & E1 & Hr & Hs & Hb). cbn [dp_world] in *.
  destruct (Hbody b w1 Hs Hb) as (a & w2 & E2 & Hc & HQ). injection Hc as C1 C2 C3 C4 C5.
  destruct (restore_keeps (mkDrop w2 dr t u g)) as (d' & E3 & (S1 & S2 & S3) & O3).
  { destruct Hr as [Hr|[R1 R2]]; [by left|]. right. cbn in *. unfold own_identity. cbn. split; congruence. }
  cbn [dp_world] in *. destruct Hs as (T1 & T2 & T3). exists a, w1, w2, (dp_world d').
  split; [|split_and!; try done; congruence]. unfold with_handle.
  rewrite (bind_run _ _ _ _ _ E1), (dp_on_run _ _ _ _ _ _ _ _ E2), E3. done.
Qed.
End PrivilegeFacts.
