(* ===== verification/Init.v ===== *)
(** * Start-up and shutdown (osquery/core/init.cpp)

    The process decides what it is from its name and arguments, adjusts its flags, opens
    the database, activates the plugins and starts the event threads; a request to stop
    and the signals decide the exit code. What a step needs of other components is a
    [call] with a status; the classes below it record the calls, so that the order of
    the start is a property of the record. An exit is a value of [outcome]. *)
From S2P Require Import Prelude Boost Conversions Filesystem.
Local Open Scope Z_scope.

Inductive ToolType := UNKNOWN | SHELL | DAEMON | TEST | EXTENSION | SHELL_DAEMON.
#[export] Instance ToolType_eq_dec : EqDecision ToolType.
Proof. solve_decision. Defined.

Definition EXIT_SUCCESS : Z := 0.
Definition EXIT_FAILURE : Z := 1.
Definition EXIT_CATASTROPHIC : Z := 78.

(** ** Signals *)

Definition SIGHUP : Z := 1.
Definition SIGINT : Z := 2.
Definition SIGABRT : Z := 6.
Definition SIGUSR1 : Z := 10.
Definition SIGALRM : Z := 14.
Definition SIGTERM : Z := 15.

(** The two globals, [kHandledSignal] and [kExitCode]. *)
Record SignalState := mkSignals { kHandledSignal : Z; kExitCode : Z }.

(** What a handler does to the process. *)
Inductive effect :=
  | Alarm
  | IgnoreChildren
  | RestoreDefault (num : Z)
  | BindFates
  | StopServices
  | Raise (num : Z).
#[export] Instance effect_eq_dec : EqDecision effect.
Proof. solve_decision. Defined.

Definition is_stop_signal (num : Z) : bool :=
  (num =? SIGTERM) || (num =? SIGINT) || (num =? SIGABRT) || (num =? SIGUSR1).

(** The part for the first signal. *)
Definition first_signal (hasWorker : bool) (num : Z) (s : SignalState) : list effect * SignalState :=
  if kHandledSignal s =? 0 then
    let code := if negb (num =? SIGUSR1) && (kExitCode s =? 0) then 128 + num else kExitCode s in
    let s := mkSignals num code in
    if num =? SIGHUP then ([], s)
    else if is_stop_signal num then
      ([Alarm; IgnoreChildren; RestoreDefault num; if hasWorker then BindFates else StopServices], s)
    else ([], s)
  else ([], s).

Definition signalHandler (hasWorker : bool) (num : Z) (s : SignalState) : list effect * SignalState :=
  let (l, s) := first_signal hasWorker num s in
  (l ++ (if num =? SIGALRM
         then [RestoreDefault SIGALRM; Raise (if negb (kHandledSignal s =? 0) then kHandledSignal s else SIGALRM)]
         else []), s).

(** The first lines of [requestShutdown]. *)
Definition want_exit (retcode : Z) (s : SignalState) : SignalState :=
  mkSignals (kHandledSignal s) (if kExitCode s =? 0 then retcode else kExitCode s).

(** From a thread that is not the main one, the signal is raised for the handler. *)
Definition thread_requestShutdown (hasWorker : bool) (retcode : Z) (s : SignalState) : list effect * SignalState :=
  signalHandler hasWorker SIGUSR1 (want_exit retcode s).

(** ** What the process needs of its components *)

Inductive call :=
  | SetStartTime | RaiseFileLimit (cur max : Z) | PrintUsage | PlatformTeardown | RegistryInit | CreateDatabaseDirectory
  | InstallHandler (num : Z) | InitStatusLogger | PlatformSetup
  | Daemonize | SystemLog (line : string) | CreatePidFile | BackgroundPriority
  | PathExists (path : string) | CreateSocket (home : string) | UpdateFlag (name value : string)
  | AllowOpen (b : bool) | RequireWrite (b : bool) | InitDatabase | SleepFor (ms : Z) | UpgradeDatabase
  | LoadExtensions | AddWatcher (use_worker : bool) | AddWatcherWatcher | ClearArguments
  | StartExtensionManager | SetActive (type name : string) | RegistrySetUp | LoadConfig | DumpDatabase
  | InitLogger | RecordStart | AttachEvents | DelayEvents
  | StopAll | CallShutdown | JoinServices | EndEvents | ReleaseFlags | CloseDatabase.
#[export] Instance call_eq_dec : EqDecision call.
Proof. solve_decision. Defined.

Class Components (W : Type) := {
  st_call : call -> M W Status;
  hasManagedExtensions : M W bool;
  getWorkerStatus : M W Z;
  isAppStartMonitorEnabled : M W bool;
  getrlimit : M W (option (Z * Z));
  homeDirectory : M W string;
  isDefault : string -> M W bool;
}.

(** The flags the start looks at. *)
Record StartFlags := mkStartFlags {
  disable_logging : bool; disable_watchdog : bool; disable_events : bool; disable_database : bool;
  disable_extensions : bool; disable_distributed : bool; ephemeral : bool; daemonize : bool;
  config_check : bool; config_dump : bool; database_dump : bool; enable_killswitch : bool; enable_numeric_monitoring : bool;
  watchdog_level : Z; database_path : string; flagfile : string;
  config_plugin : string; logger_plugin : string; distributed_plugin : string; killswitch_plugin : string;
  numeric_monitoring_plugins : string;
}.

Definition put_disables (logging watchdog events database extensions : bool) (f : StartFlags) : StartFlags :=
  mkStartFlags logging watchdog events database extensions (disable_distributed f) (ephemeral f) (daemonize f)
    (config_check f) (config_dump f) (database_dump f) (enable_killswitch f) (enable_numeric_monitoring f)
    (watchdog_level f) (database_path f) (flagfile f) (config_plugin f) (logger_plugin f) (distributed_plugin f)
    (killswitch_plugin f) (numeric_monitoring_plugins f).
Definition put_paths (database flags : string) (f : StartFlags) : StartFlags :=
  mkStartFlags (disable_logging f) (disable_watchdog f) (disable_events f) (disable_database f) (disable_extensions f)
    (disable_distributed f) (ephemeral f) (daemonize f) (config_check f) (config_dump f) (database_dump f) (enable_killswitch f)
    (enable_numeric_monitoring f) (watchdog_level f) database flags (config_plugin f) (logger_plugin f) (distributed_plugin f)
    (killswitch_plugin f) (numeric_monitoring_plugins f).

Definition no_logging (f : StartFlags) := put_disables true (disable_watchdog f) (disable_events f) (disable_database f) (disable_extensions f) f.
Definition no_watchdog (f : StartFlags) := put_disables (disable_logging f) true (disable_events f) (disable_database f) (disable_extensions f) f.
Definition no_events (f : StartFlags) := put_disables (disable_logging f) (disable_watchdog f) true (disable_database f) (disable_extensions f) f.
Definition no_database (f : StartFlags) := put_disables (disable_logging f) (disable_watchdog f) (disable_events f) true (disable_extensions f) f.
Definition no_extensions (f : StartFlags) := put_disables (disable_logging f) (disable_watchdog f) (disable_events f) (disable_database f) true f.

(** ** The process *)

Record Init (W : Type) := mkInit {
  i_world : W;
  kToolType : ToolType;
  binary_ : string;
  i_flags : StartFlags;
  i_signals : SignalState;
  (** [shutdown_ != nullptr]. *)
  shutdown_ : bool;
}.
Arguments mkInit {W} _ _ _ _ _ _.
Arguments i_world {W} _.
Arguments kToolType {W} _.
Arguments binary_ {W} _.
Arguments i_flags {W} _.
Arguments i_signals {W} _.
Arguments shutdown_ {W} _.

Inductive outcome (A : Type) := Go (a : A) | Exited (code : Z).
Arguments Go {A} a.
Arguments Exited {A} code.

Definition xbind {S A B} (m : M S (outcome A)) (k : A -> M S (outcome B)) : M S (outcome B) :=
  let* o := m in match o with Go a => k a | Exited c => ret (Exited c) end.
Definition go {S A} (m : M S A) : M S (outcome A) := let* a := m in ret (Go a).
Notation "'let!' x := c 'in' k" := (xbind c (fun x => k))
  (at level 10, x pattern, c at level 100, k at level 200) : osq_scope.
Notation "c ;! k" := (xbind c (fun _ => k)) (at level 199, right associativity) : osq_scope.

Section Init.
Context {W : Type} {CP : Components W}.
Abbreviation MI := (M (Init W)).
Abbreviation MX A := (M (Init W) (outcome A)).

(** [hasWorkerVariable()]: the environment does not change. *)
Context (isWorker : bool).

Definition with_flags (f : StartFlags) (p : Init W) : Init W :=
  mkInit (i_world p) (kToolType p) (binary_ p) f (i_signals p) (shutdown_ p).
Definition with_tool (t : ToolType) (b : string) (p : Init W) : Init W :=
  mkInit (i_world p) t b (i_flags p) (i_signals p) (shutdown_ p).
Definition with_signals (s : SignalState) (p : Init W) : Init W :=
  mkInit (i_world p) (kToolType p) (binary_ p) (i_flags p) s (shutdown_ p).
Definition with_shutdown (b : bool) (p : Init W) : Init W :=
  mkInit (i_world p) (kToolType p) (binary_ p) (i_flags p) (i_signals p) b.

Definition i_on {A} (m : M W A) : MI A :=
  zoom i_world (fun w p => mkInit w (kToolType p) (binary_ p) (i_flags p) (i_signals p) (shutdown_ p)) m.
Definition calls_ (c : call) : MI Status := i_on (st_call c).
Definition run_ (c : call) : MI unit := let* _ := calls_ c in ret tt.
Definition upd_flags (f : StartFlags -> StartFlags) : MI unit := modify (fun p => with_flags (f (i_flags p)) p).
Definition when (b : bool) (m : MI unit) : MI unit := if b then m else ret tt.

Definition isShell : MI bool := gets (fun p => bool_decide (kToolType p = SHELL)).
Definition isDaemon : MI bool := gets (fun p => bool_decide (kToolType p = DAEMON)).
Definition isWatcher : MI bool := gets (fun p => negb (disable_watchdog (i_flags p)) && negb isWorker).

(** ** Ending *)

Definition shutdown {A} (retcode : Z) : MX A := run_ PlatformTeardown ;;; ret (Exited retcode).

Definition finish : MI unit :=
  let* handler := gets shutdown_ in
  when handler (modify (with_shutdown false) ;;; run_ CallShutdown) ;;;
  run_ JoinServices ;;; run_ EndEvents ;;; run_ ReleaseFlags ;;; run_ CloseDatabase.

Definition waitForShutdown {A} : MX A :=
  finish ;;;
  let* code := gets (fun p => kExitCode (i_signals p)) in
  ret (Exited (if negb (code =? 0) then code else EXIT_SUCCESS)).

(** By the main thread. *)
Definition requestShutdown {A} (retcode : Z) : MX A :=
  modify (fun p => with_signals (want_exit retcode (i_signals p)) p) ;;;
  run_ StopAll ;;; waitForShutdown.

(** ** The constructor *)

Definition raised_limit (limits : option (Z * Z)) : option (Z * Z) :=
  match limits with
  | Some (cur, max) =>
      if (cur <? 1024) || (max <? 1024)
      then Some (if cur <? 1024 then 1024 else cur, if max <? 1024 then 1024 else max) else None
  | None => None
  end.

(** [-S], [-D], [--help] and a flag file among the arguments. *)
Fixpoint scan_arguments (tool : ToolType) (args : list string) (default_flags : bool) : MX bool :=
  match args with
  | [] => ret (Go default_flags)
  | help :: args =>
      (if bool_decide (help ∈ ["-S"; "--S"]) then modify (with_tool SHELL "osqueryi") ;;; ret (Go tt)
       else if bool_decide (help ∈ ["-D"; "--D"]) then modify (with_tool DAEMON "osqueryd") ;;; ret (Go tt)
       else if bool_decide (help ∈ ["--help"; "-help"; "--h"; "-h"]) && negb (bool_decide (tool = TEST)) then
         run_ PrintUsage ;;; shutdown EXIT_SUCCESS
       else ret (Go tt)) ;!
      scan_arguments tool args (default_flags && negb (String.prefix "--flagfile" help))
  end.

Definition deduce_tool (tool : ToolType) (filename : string) : MI unit :=
  if bool_decide (tool = SHELL_DAEMON) then
    match find_str "osqueryd" filename with
    | Some _ => modify (with_tool DAEMON "osqueryd")
    | None => modify (with_tool SHELL "osqueryi")
    end
  else modify (fun p => with_tool tool (binary_ p) p).

Definition kBackupDefaultFlagfile : string := "/etc/osquery/osquery.flags.default".

Definition initShell : MI unit :=
  let* homedir := i_on homeDirectory in
  let* there := calls_ (PathExists homedir) in
  (if Status_ok there then
     let* d := i_on (isDefault "database_path") in
     when d (upd_flags (fun f => put_paths (homedir +:+ "/shell.db") (flagfile f) f)) ;;;
     run_ (CreateSocket homedir)
   else upd_flags no_extensions ;;; upd_flags no_database) ;;;
  let* d := i_on (isDefault "hash_delay") in
  when d (run_ (UpdateFlag "hash_delay" "0")).

Definition initWorkDirectories : MI unit :=
  let* off := gets (fun p => disable_database (i_flags p)) in
  when (negb off) (run_ CreateDatabaseDirectory).

Definition shell_defaults : MI unit :=
  upd_flags no_logging ;;; upd_flags no_watchdog ;;; upd_flags no_events.

(** The shell and an ephemeral process use no database unless a flag says otherwise. *)
Definition transient_database : MI unit :=
  let* p := i_on (isDefault "database_path") in
  let* q := if p : bool then i_on (isDefault "disable_database") else ret false in
  when q (upd_flags no_database).

(** [parse] is what gflags makes of the flags and the arguments. *)
Definition Initializer_new (tool : ToolType) (filename : string) (args : list string)
    (isReadable : bool) (parse : StartFlags -> StartFlags) : MX unit :=
  go (run_ SetStartTime) ;!
  go (deduce_tool tool filename) ;!
  let! limits := go (i_on getrlimit) in
  go (match raised_limit limits with Some (cur, max) => run_ (RaiseFileLimit cur max) | None => ret tt end) ;!
  let! default_flags := scan_arguments tool args true in
  let! shell := go isShell in
  go (when shell shell_defaults) ;!
  go (when (default_flags && isReadable) (upd_flags (fun f => put_paths (database_path f) kBackupDefaultFlagfile f))) ;!
  go (upd_flags parse) ;!
  go (run_ RegistryInit) ;!
  let! eph := go (gets (fun p => ephemeral (i_flags p))) in
  go (when (shell || eph) transient_database) ;!
  go (when shell initShell) ;!
  let! daemon := go isDaemon in
  go (when daemon initWorkDirectories) ;!
  go (for_each [SIGABRT; SIGUSR1; SIGTERM; SIGINT; SIGHUP; SIGALRM] (fun n => run_ (InstallHandler n))) ;!
  let! check := go (gets (fun p => config_check (i_flags p))) in
  go (when check (upd_flags no_watchdog)) ;!
  let! watcher := go isWatcher in
  go (when watcher (upd_flags no_database ;;; upd_flags no_logging)) ;!
  go (run_ InitStatusLogger) ;! go (run_ PlatformSetup).

(** ** Daemon, watcher and worker *)

(** [daemon(0, 0) == -1] and the other failures are statuses that are not ok. *)
Definition initDaemon (kVersion : string) : MX unit :=
  let! daemon := go isDaemon in
  let! flags := go (gets i_flags) in
  if isWorker || negb daemon then ret (Go tt)
  else if config_check flags then ret (Go tt)
  else
    (if daemonize flags then
       let* st := calls_ Daemonize in
       if Status_ok st then ret (Go tt) else shutdown EXIT_FAILURE
     else ret (Go tt)) ;!
    let! name := go (gets binary_) in
    go (run_ (SystemLog (name +:+ " started [version=" +:+ kVersion +:+ "]"))) ;!
    (if negb (ephemeral flags) then
       let* pid_status := calls_ CreatePidFile in
       if Status_ok pid_status then ret (Go tt) else shutdown EXIT_FAILURE
     else ret (Go tt)) ;!
    go (when (negb (disable_watchdog flags) && (0 <=? watchdog_level flags)) (run_ BackgroundPriority)).

(** The code the watcher leaves with. *)
Definition watcher_code (signal worker_status : Z) : Z :=
  if 0 <? signal then 128 + signal else if 0 <=? worker_status then worker_status else EXIT_FAILURE.

Definition initWatcher : MX unit :=
  let! watcher := go isWatcher in
  go (when watcher (run_ (AllowOpen true) ;;; run_ InitDatabase)) ;!
  go (run_ LoadExtensions) ;!
  let! managed := go (i_on hasManagedExtensions) in
  let! flags := go (gets i_flags) in
  go (when (managed || negb (disable_watchdog flags)) (run_ (AddWatcher watcher))) ;!
  if watcher : bool then
    let! handler := go (gets shutdown_) in
    go (when handler (run_ CallShutdown ;;; modify (with_shutdown false))) ;!
    go (run_ JoinServices) ;!
    let! signal := go (gets (fun p => kHandledSignal (i_signals p))) in
    let! status := go (i_on getWorkerStatus) in
    requestShutdown (watcher_code signal status)
  else ret (Go tt).

Definition initWorker : MX unit := go (run_ ClearArguments ;;; run_ AddWatcherWatcher).

Definition initWorkerWatcher : MX unit := if isWorker then initWorker else initWatcher.

(** ** The start *)

(** [applyExtensionDelay] of Extensions.v. *)
Context (applyExtensionDelay : MI (Status * bool) -> MI Status).

Definition initActivePlugin (type name : string) : MX unit :=
  let* status := applyExtensionDelay (
    let* rs := calls_ (SetActive type name) in
    if Status_ok rs then ret (rs, false)
    else let* managed := i_on hasManagedExtensions in ret (rs, negb managed)) in
  if Status_ok status then ret (Go tt) else requestShutdown EXIT_CATASTROPHIC.

Definition kDatabaseMaxRetryCount : nat := 25.
Definition kDatabaseRetryDelay : Z := 200.

Definition database_failure : Z := if isWorker then EXIT_CATASTROPHIC else EXIT_FAILURE.

(** [tries] are left; the last one that fails asks for the end. *)
Fixpoint open_database (tries : nat) : MX unit :=
  match tries with
  | O => ret (Go tt)
  | S tries =>
      let* st := calls_ InitDatabase in
      if Status_ok st then ret (Go tt)
      else (match tries with O => requestShutdown database_failure | S _ => ret (Go tt) end) ;!
           go (run_ (SleepFor kDatabaseRetryDelay)) ;! open_database tries
  end.

Definition start_database : MX unit :=
  let! watcher := go isWatcher in
  if watcher : bool then ret (Go tt)
  else
    go (run_ (AllowOpen true)) ;!
    let! daemon := go isDaemon in
    go (run_ (RequireWrite daemon)) ;!
    open_database kDatabaseMaxRetryCount ;!
    let! upgraded := go (calls_ UpgradeDatabase) in
    if Status_ok upgraded then ret (Go tt) else requestShutdown database_failure.

(** The plugins that are used one at a time. *)
Definition start_plugins : MX unit :=
  let! flags := go (gets i_flags) in
  (if disable_logging flags then ret (Go tt)
   else initActivePlugin "logger" (logger_plugin flags) ;! go (run_ InitLogger)) ;!
  (if disable_distributed flags then ret (Go tt) else initActivePlugin "distributed" (distributed_plugin flags)) ;!
  (if enable_killswitch flags then initActivePlugin "killswitch" (killswitch_plugin flags) else ret (Go tt)) ;!
  (if enable_numeric_monitoring flags then initActivePlugin "numeric_monitoring" (numeric_monitoring_plugins flags)
   else ret (Go tt)).

Definition start : MX unit :=
  let! flags := go (gets i_flags) in
  let! managed := go (i_on hasManagedExtensions) in
  go (when ((config_check flags || config_dump flags) && negb managed) (upd_flags no_extensions)) ;!
  start_database ;!
  go (run_ StartExtensionManager) ;!
  initActivePlugin "config" (config_plugin flags) ;!
  go (run_ RegistrySetUp) ;!
  (if config_check flags then let! s := go (calls_ LoadConfig) in requestShutdown (code s) else ret (Go tt)) ;!
  (if database_dump flags then go (run_ DumpDatabase) ;! requestShutdown EXIT_SUCCESS else ret (Go tt)) ;!
  go (run_ LoadConfig) ;!
  start_plugins ;!
  let! monitored := go (i_on isAppStartMonitorEnabled) in
  go (when monitored (run_ RecordStart)) ;!
  go (run_ AttachEvents) ;! go (run_ DelayEvents).
End Init.

(** * Facts about starting and stopping

    The first exit code that is wanted is the one the process leaves with; a hang-up
    makes the process deaf to the signals that should stop it. A start either opens and
    upgrades the database before anything that needs it, or ends the process having done
    nothing of the kind; a check of the configuration ends before loggers and events. *)

(** ** Signals *)

(** What can happen to the two globals. *)
Inductive sig_step : SignalState -> SignalState -> Prop :=
  | step_signal worker num s : 0 < num -> sig_step s (signalHandler worker num s).2
  | step_request code s : sig_step s (want_exit code s)
  | step_thread worker code s : sig_step s (thread_requestShutdown worker code s).2.

Lemma handler_keeps_code worker num s : kExitCode s <> 0 -> kExitCode (signalHandler worker num s).2 = kExitCode s.
Proof.
  intros H. unfold signalHandler, first_signal. destruct s as [h c]. cbn in *. apply Z.eqb_neq in H. rewrite H, andb_false_r.
  repeat case_match; simplify_eq/=; done.
Qed.

Lemma want_exit_keeps_code code s : kExitCode s <> 0 -> kExitCode (want_exit code s) = kExitCode s.
Proof. intros H. unfold want_exit. cbn. apply Z.eqb_neq in H. by rewrite H. Qed.

(** Once some part of the process wanted it to end with a code, no signal and no other
    request changes the code. *)
Theorem first_exit_code_stands s s' : rtc sig_step s s' -> kExitCode s <> 0 -> kExitCode s' = kExitCode s.
Proof.
  induction 1 as [s|s s1 s' Hs _ IH]; [done|]. intros H.
  assert (kExitCode s1 = kExitCode s) as E; [|rewrite IH; congruence].
  destruct Hs as [w n s _|c s|w c s]; [by apply handler_keeps_code | by apply want_exit_keeps_code |].
  unfold thread_requestShutdown. rewrite handler_keeps_code; [by apply want_exit_keeps_code|].
  by rewrite want_exit_keeps_code.
Qed.

(** The first signal that asks for the end stops the services, or binds the worker to the
    watcher, and its number makes the exit code. *)
Theorem stop_signal_stops worker num s :
  is_stop_signal num = true -> kHandledSignal s = 0 -> kExitCode s = 0 ->
  let (l, s') := signalHandler worker num s in
  (if worker then BindFates else StopServices) ∈ l /\ kHandledSignal s' = num /\
  kExitCode s' = (if num =? SIGUSR1 then 0 else 128 + num).
Proof.
  intros Hn Hh He. unfold signalHandler, first_signal. rewrite Hh, He, Hn. cbn [Z.eqb].
  assert (num =? SIGHUP = false) as ->.
  { apply Z.eqb_neq. intros ->. done. }
  rewrite andb_true_r. destruct (num =? SIGUSR1); cbn [negb]; (split; [|done]); do 3 right; left.
Qed.

(** After a hang-up no signal stops the process any more: the handler returns without
    doing anything, and a shutdown a thread asks for is lost as well. *)
Lemma hung_up_ignores worker num s : kHandledSignal s = SIGHUP -> num <> SIGALRM ->
  signalHandler worker num s = ([], s).
Proof.
  intros H Hn. unfold signalHandler, first_signal. rewrite H. cbn [Z.eqb SIGHUP].
  apply Z.eqb_neq in Hn. by rewrite Hn.
Qed.

Theorem hangup_disarms_the_signals worker (nums : list Z) s :
  kHandledSignal s = 0 -> kExitCode s = 0 -> SIGALRM ∉ nums ->
  let s1 := (signalHandler worker SIGHUP s).2 in
  kExitCode s1 = 129 /\
  (forall num, num ∈ nums -> signalHandler worker num s1 = ([], s1)) /\
  (forall code, (thread_requestShutdown worker code s1).1 = []).
Proof.
  intros Hh He Ha. assert ((signalHandler worker SIGHUP s).2 = mkSignals SIGHUP 129) as ->.
  { unfold signalHandler, first_signal. by rewrite Hh, He. }
  split; [done|]. split.
  - intros num Hn. apply hung_up_ignores; [done|]. by intros ->.
  - intros code. unfold thread_requestShutdown. by rewrite hung_up_ignores.
Qed.

(** ** The record of a start *)

Class ComponentsLaws (W : Type) {CP : Components W} := {
  record : W -> list (call * bool);
  st_call_law c w : exists st w', st_call c w = (Ok st, w') /\ record w' = record w ++ [(c, Status_ok st)];
  managed_law w : exists b, hasManagedExtensions w = (Ok b, w);
  monitored_law w : exists b, isAppStartMonitorEnabled w = (Ok b, w);
}.

Section Start.
Context {W : Type} {CP : Components W} {L : ComponentsLaws W} (isWorker : bool).
Context (applyExtensionDelay : M (Init W) (Status * bool) -> M (Init W) Status).
(** What the wait for extensions promises: it ends, having only tried. *)
Hypothesis delay_law : forall (I : Init W -> Prop) predicate p,
  (forall p, I p -> exists st stop p', predicate p = (Ok (st, stop), p') /\ I p') -> I p ->
  exists st p', applyExtensionDelay predicate p = (Ok st, p') /\ I p'.

Abbreviation MX A := (M (Init W) (outcome A)).
Definition trace (p : Init W) : list (call * bool) := record (i_world p).

(** From [p] to [p'] the calls [l] were made and the exit code is still open. *)
Record made (l : list (call * bool)) (p p' : Init W) : Prop := {
  made_trace : trace p' = trace p ++ l;
  made_code : kExitCode (i_signals p') = kExitCode (i_signals p);
}.

Lemma made_refl p : made [] p p.
Proof. split; [by rewrite app_nil_r | done]. Qed.
Lemma made_trans l1 l2 p p1 p2 : made l1 p p1 -> made l2 p1 p2 -> made (l1 ++ l2) p p2.
Proof. intros [H1 C1] [H2 C2]. split; [by rewrite H2, H1, app_assoc | congruence]. Qed.

(** A step that makes only calls of a kind; when it exits, then with one of the codes. *)
Definition does {A} (kind : call -> Prop) (codes : Z -> Prop) (m : MX A) : Prop :=
  forall p, kExitCode (i_signals p) = 0 -> exists o p' l, m p = (Ok o, p') /\ Forall (fun c => kind c.1) l /\
    trace p' = trace p ++ l /\
    match o with Go _ => kExitCode (i_signals p') = 0 | Exited c => codes c end.

Lemma does_xbind {A B} kind codes (m : MX A) (k : A -> MX B) :
  does kind codes m -> (forall a, does kind codes (k a)) -> does kind codes (xbind m k).
Proof.
  intros Hm Hk p Hp. destruct (Hm p Hp) as (o & p1 & l1 & E1 & F1 & T1 & H1).
  unfold xbind. rewrite (bind_run _ _ _ _ _ E1). destruct o as [a|c].
  - destruct (Hk a p1 H1) as (o & p2 & l2 & E2 & F2 & T2 & H2). exists o, p2, (l1 ++ l2). rewrite E2.
    split; [done|]. split; [by apply Forall_app|]. split; [|done]. by rewrite T2, T1, app_assoc.
  - by exists (Exited c), p1, l1.
Qed.

Lemma does_weaken {A} (kind kind' : call -> Prop) (codes codes' : Z -> Prop) (m : MX A) :
  (forall c, kind c -> kind' c) -> (forall c, codes c -> codes' c) -> does kind codes m -> does kind' codes' m.
Proof.
  intros Hk Hc Hm p Hp. destruct (Hm p Hp) as (o & p1 & l1 & E1 & F1 & T1 & H1). exists o, p1, l1.
  split; [done|]. split; [by eapply Forall_impl; [exact F1|intros x; apply Hk]|]. split; [done|]. destruct o; [done|]. by apply Hc.
Qed.

Lemma does_go {A} (kind : call -> Prop) codes (a : A) : does kind codes (ret (Go a)).
Proof. intros p Hp. exists (Go a), p, []. by rewrite app_nil_r. Qed.

Lemma does_if {A} kind codes (b : bool) (m1 m2 : MX A) :
  (b = true -> does kind codes m1) -> (b = false -> does kind codes m2) -> does kind codes (if b then m1 else m2).
Proof. intros H1 H2. by destruct b; auto. Qed.

(** Plain steps: those that do not end the process. *)
Definition plain {A} (kind : call -> Prop) (m : M (Init W) A) : Prop :=
  forall p, exists a p' l, m p = (Ok a, p') /\ Forall (fun c => kind c.1) l /\ made l p p'.

Lemma plain_does {A} kind codes (m : M (Init W) A) : plain kind m -> does kind codes (go m).
Proof.
  intros Hm p Hp. destruct (Hm p) as (a & p' & l & E & F & [T C]). exists (Go a), p', l. unfold go.
  rewrite (bind_run _ _ _ _ _ E). split; [done|]. split; [done|]. split; [done|]. congruence.
Qed.

Lemma plain_bind {A B} kind (m : M (Init W) A) (k : A -> M (Init W) B) :
  plain kind m -> (forall a, plain kind (k a)) -> plain kind (bind m k).
Proof.
  intros Hm Hk p. destruct (Hm p) as (a & p1 & l1 & E1 & F1 & M1). destruct (Hk a p1) as (b & p2 & l2 & E2 & F2 & M2).
  exists b, p2, (l1 ++ l2). rewrite (bind_run _ _ _ _ _ E1), E2. split; [done|]. split; [by apply Forall_app|]. by eapply made_trans.
Qed.

Lemma plain_ret {A} kind (a : A) : plain kind (ret a).
Proof. intros p. exists a, p, []. split; [done|]. split; [done|]. apply made_refl. Qed.

Lemma plain_gets {A} kind (f : Init W -> A) : plain kind (gets f).
Proof. intros p. exists (f p), p, []. split; [done|]. split; [done|]. apply made_refl. Qed.

Lemma plain_call kind c : kind c -> plain kind (calls_ c).
Proof.
  intros Hc p. destruct (st_call_law c (i_world p)) as (st & w' & E & R).
  eexists st, _, [(c, Status_ok st)]. split; [unfold calls_, i_on, zoom; rewrite E; reflexivity|].
  split; [by apply Forall_singleton|]. split; [exact R | done].
Qed.

Lemma plain_run kind c : kind c -> plain kind (run_ c).
Proof. intros Hc. apply plain_bind; [by apply plain_call | intros; apply plain_ret]. Qed.

Lemma plain_flags kind f : plain kind (upd_flags f).
Proof. intros p. eexists tt, _, []. split; [reflexivity|]. split; [done|]. split; cbn; [by rewrite app_nil_r | done]. Qed.

Lemma plain_when kind b m : plain kind m -> plain kind (when b m).
Proof. intros Hm. destruct b; [done | apply plain_ret]. Qed.

Lemma plain_managed kind : plain kind (i_on hasManagedExtensions).
Proof.
  intros p. destruct (managed_law (i_world p)) as [b E]. exists b, p, []. unfold i_on, zoom. rewrite E.
  split; [by destruct p|]. split; [done|]. apply made_refl.
Qed.

Lemma plain_monitored kind : plain kind (i_on isAppStartMonitorEnabled).
Proof.
  intros p. destruct (monitored_law (i_world p)) as [b E]. exists b, p, []. unfold i_on, zoom. rewrite E.
  split; [by destruct p|]. split; [done|]. apply made_refl.
Qed.

Lemma plain_shutdown_flag kind b : plain kind (modify (with_shutdown b)).
Proof. intros p. eexists tt, _, []. split; [reflexivity|]. split; [done|]. split; cbn; [by rewrite app_nil_r | done]. Qed.

(** ** Ending *)

(** The calls of an orderly end. *)
Definition ending (c : call) : Prop := c ∈ [StopAll; CallShutdown; JoinServices; EndEvents; ReleaseFlags; CloseDatabase].

Lemma ending_plain (m : M (Init W) unit) (k : M (Init W) unit) : plain ending m -> plain ending k -> plain ending (m ;;; k).
Proof. intros Hm Hk. by apply plain_bind. Qed.

Ltac plain :=
  repeat first
    [ apply plain_ret | apply plain_gets | apply plain_flags | apply plain_managed | apply plain_monitored
    | apply plain_shutdown_flag | apply plain_when | (apply plain_bind; [|intros ?])
    | (apply plain_run; unfold ending; set_solver) | (apply plain_call; unfold ending; set_solver) ].

Lemma wait_run {A} p : exists p' l, waitForShutdown (A := A) p =
    (Ok (Exited (kExitCode (i_signals p))), p') /\ Forall (fun c => ending c.1) l /\ made l p p'.
Proof.
  assert (plain ending finish) as Hp by (unfold finish; plain).
  destruct (Hp p) as ([] & p' & l & E & F & [T C]). exists p', l. split; [|done].
  unfold waitForShutdown. rewrite (bind_run _ _ _ _ _ E). unfold bind, gets, ret. rewrite C.
  destruct (Z.eqb_spec (kExitCode (i_signals p)) 0) as [->|]; done.
Qed.

(** The process leaves with the first code that was wanted. *)
Lemma requestShutdown_run {A} code p : kExitCode (i_signals p) = 0 ->
  exists p' l, requestShutdown (A := A) code p = (Ok (Exited code), p') /\ Forall (fun c => ending c.1) l /\ trace p' = trace p ++ l.
Proof.
  intros Hc. set (p1 := with_signals (want_exit code (i_signals p)) p).
  destruct (plain_run ending StopAll ltac:(unfold ending; set_solver) p1) as ([] & p2 & l2 & E2 & F2 & [T2 C2]).
  destruct (wait_run (A := A) p2) as (p3 & l3 & E3 & F3 & [T3 C3]).
  exists p3, (l2 ++ l3). unfold requestShutdown. unfold bind at 1, modify. fold p1.
  rewrite (bind_run _ _ _ _ _ E2), E3, C2. unfold p1 at 1. cbn. rewrite Hc. split; [done|].
  split; [by apply Forall_app|]. rewrite T3, T2. unfold p1. cbn. by rewrite app_assoc.
Qed.

Lemma does_request {A} (kind : call -> Prop) (codes : Z -> Prop) code :
  (forall c, ending c -> kind c) -> codes code -> does (A := A) kind codes (requestShutdown code).
Proof.
  intros Hk Hc p Hp. destruct (requestShutdown_run (A := A) code p Hp) as (p' & l & E & F & T).
  exists (Exited code), p', l. split; [done|]. split; [|done]. eapply Forall_impl; [exact F|]. intros x. apply Hk.
Qed.

(** ** The database *)

Definition needs_database (c : call) : Prop :=
  match c with
  | SetActive _ _ | RegistrySetUp | LoadConfig | DumpDatabase | InitLogger | RecordStart | AttachEvents | DelayEvents => True
  | _ => False
  end.
Definition quiet (c : call) : Prop := ~ needs_database c.

Lemma ending_quiet c : ending c -> quiet c.
Proof. unfold ending, quiet. rewrite !elem_of_cons, elem_of_nil. intros H. destruct c; naive_solver. Qed.

(** How often the database was tried. *)
Definition tries_in (l : list (call * bool)) : nat := length (filter (fun c => c.1 = InitDatabase) l).

Lemma tries_app l1 l2 : tries_in (l1 ++ l2) = (tries_in l1 + tries_in l2)%nat.
Proof. unfold tries_in. by rewrite filter_app, length_app. Qed.

Lemma ending_untried l : Forall (fun c => ending c.1) l -> tries_in l = 0%nat /\ (InitDatabase, true) ∉ l.
Proof.
  intros F. assert (forall c, c ∈ l -> c.1 <> InitDatabase) as Hno.
  { intros c Hc E. rewrite Forall_forall in F. apply F in Hc. rewrite E in Hc. unfold ending in Hc. set_solver. }
  split; [|intros H; by apply Hno in H]. unfold tries_in.
  rewrite filter_none; [done|]. apply Forall_forall. intros c Hc. by apply Hno.
Qed.

(** Opening the database: at most so many tries; it is open afterwards, or all of them
    failed and the process ended. *)
Lemma open_database_run tries p : kExitCode (i_signals p) = 0 -> (0 < tries)%nat ->
  exists o p' l, open_database isWorker tries p = (Ok o, p') /\ trace p' = trace p ++ l /\ Forall (fun c => quiet c.1) l /\
    match o with
    | Go _ => kExitCode (i_signals p') = 0 /\ (InitDatabase, true) ∈ l /\ (tries_in l <= tries)%nat
    | Exited c => c = database_failure isWorker /\ tries_in l = tries
    end.
Proof.
  revert p. induction tries as [|tries IH]; intros p Hp Hpos; [lia|]. cbn [open_database].
  destruct (st_call_law InitDatabase (i_world p)) as (st & w1 & E & R).
  set (p1 := mkInit w1 (kToolType p) (binary_ p) (i_flags p) (i_signals p) (shutdown_ p)).
  assert (calls_ InitDatabase p = (Ok st, p1)) as E1 by (unfold calls_, i_on, zoom; by rewrite E).
  rewrite (bind_run _ _ _ _ _ E1). destruct (Status_ok st) eqn:Hok.
  { exists (Go tt), p1, [(InitDatabase, true)]. split; [done|]. split; [exact R|]. split; [apply Forall_singleton; by intros []|].
    split; [done|]. split; [by left|]. change (1 <= S tries)%nat. lia. }
  assert (tries_in [(InitDatabase, false)] = 1%nat) as H1 by done.
  destruct tries as [|tries].
  - destruct (requestShutdown_run (A := unit) (database_failure isWorker) p1 Hp) as (p2 & l2 & E2 & F2 & T2).
    exists (Exited (database_failure isWorker)), p2, ((InitDatabase, false) :: l2).
    unfold xbind at 1. rewrite (bind_run _ _ _ _ _ E2). split; [done|].
    split; [rewrite T2; unfold trace at 1; cbn [i_world p1]; by rewrite R, <- app_assoc|].
    split; [constructor; [by intros [] | eapply Forall_impl; [exact F2 | intros x; apply ending_quiet]]|].
    split; [done|]. change ((InitDatabase, false) :: l2) with ([(InitDatabase, false)] ++ l2).
    by rewrite tries_app, H1, (proj1 (ending_untried l2 F2)).
  - unfold xbind at 1. unfold bind at 1, ret at 1.
    destruct (plain_run quiet (SleepFor kDatabaseRetryDelay) ltac:(by intros []) p1) as ([] & p2 & l2 & E2 & F2 & [T2 C2]).
    assert (tries_in l2 = 0%nat) as H2.
    { destruct (st_call_law (SleepFor kDatabaseRetryDelay) w1) as (st2 & w2 & Es & Rs).
      unfold run_, calls_, i_on, zoom, bind, ret in E2. cbn in E2. rewrite Es in E2. simplify_eq/=.
      unfold trace in T2. cbn in T2. rewrite Rs in T2. apply app_inv_head in T2. by subst l2. }
    unfold xbind at 1. rewrite (bind_run _ _ _ (Go tt) p2) by (unfold go; by rewrite (bind_run _ _ _ _ _ E2)).
    destruct (IH p2) as (o & p3 & l3 & E3 & T3 & F3 & H3); [by rewrite C2|lia|].
    exists o, p3, ([(InitDatabase, false)] ++ l2 ++ l3). split; [exact E3|].
    split; [rewrite T3, T2; unfold trace at 1; cbn [i_world p1]; by rewrite R, <- !app_assoc|].
    split; [apply Forall_app; split; [apply Forall_singleton; by intros [] | by apply Forall_app]|].
    rewrite !tries_app, H1, H2. destruct o; [|destruct H3; split; [done|lia]].
    destruct H3 as (? & ? & ?). split; [done|]. split; [set_solver|lia].
Qed.

Lemma xbind_Go {A B} (m : MX A) (k : A -> MX B) p a p' : m p = (Ok (Go a), p') -> xbind m k p = k a p'.
Proof. intros E. unfold xbind. by rewrite (bind_run _ _ _ _ _ E). Qed.
Lemma xbind_Exited {A B} (m : MX A) (k : A -> MX B) p c p' : m p = (Ok (Exited c), p') -> xbind m k p = (Ok (Exited c), p').
Proof. intros E. unfold xbind. by rewrite (bind_run _ _ _ _ _ E). Qed.

(** A process that is not a watcher, when the database was started: it is open and
    upgraded, or the process ended. *)
Lemma start_database_run p : kExitCode (i_signals p) = 0 ->
  negb (disable_watchdog (i_flags p)) && negb isWorker = false ->
  exists o p' l, start_database isWorker p = (Ok o, p') /\ trace p' = trace p ++ l /\ Forall (fun c => quiet c.1) l /\
    (tries_in l <= kDatabaseMaxRetryCount)%nat /\
    match o with
    | Go _ => kExitCode (i_signals p') = 0 /\ (InitDatabase, true) ∈ l /\ (UpgradeDatabase, true) ∈ l
    | Exited c => c = database_failure isWorker
    end.
Proof.
  intros Hp Hw. assert (forall c, c <> InitDatabase -> quiet c -> forall q, exists q' b,
    run_ c q = (Ok tt, q') /\ made [(c, b)] q q') as Hrun.
  { intros c _ _ q. destruct (st_call_law c (i_world q)) as (st & w' & E & R). eexists _, (Status_ok st).
    unfold run_, calls_, i_on, zoom, bind, ret. rewrite E. split; [done|]. by split. }
  unfold start_database. rewrite (xbind_Go _ _ _ false p) by (unfold go, isWatcher, bind, gets, ret; by rewrite Hw).
  cbv iota. destruct (Hrun (AllowOpen true) ltac:(done) ltac:(by intros []) p) as (p1 & b1 & E1 & [T1 C1]).
  rewrite (xbind_Go _ _ _ tt p1) by (unfold go; by rewrite (bind_run _ _ _ _ _ E1)).
  rewrite (xbind_Go _ _ _ (bool_decide (kToolType p1 = DAEMON)) p1) by done.
  destruct (Hrun (RequireWrite (bool_decide (kToolType p1 = DAEMON))) ltac:(done) ltac:(by intros []) p1) as (p2 & b2 & E2 & [T2 C2]).
  rewrite (xbind_Go _ _ _ tt p2) by (unfold go; by rewrite (bind_run _ _ _ _ _ E2)).
  destruct (open_database_run kDatabaseMaxRetryCount p2) as (o & p3 & l3 & E3 & T3 & F3 & H3); [congruence|cbv; lia|].
  set (l0 := [(AllowOpen true, b1); (RequireWrite (bool_decide (kToolType p1 = DAEMON)), b2)]).
  assert (trace p3 = trace p ++ l0 ++ l3) as T by (by rewrite T3, T2, T1, <- !app_assoc).
  assert (Forall (fun c => quiet c.1) (l0 ++ l3)) as F.
  { apply Forall_app. split; [|done]. repeat constructor; by intros []. }
  assert (tries_in (l0 ++ l3) = tries_in l3) as Hl by (by rewrite tries_app).
  destruct o as [[]|c]; [|exists (Exited c), p3, (l0 ++ l3); rewrite (xbind_Exited _ _ _ c p3 E3), Hl; destruct H3 as [-> ->]; done].
  destruct H3 as (C3 & Hin & Hle). rewrite (xbind_Go _ _ _ tt p3 E3).
  destruct (st_call_law UpgradeDatabase (i_world p3)) as (st & w4 & E4 & R4).
  set (p4 := mkInit w4 (kToolType p3) (binary_ p3) (i_flags p3) (i_signals p3) (shutdown_ p3)).
  rewrite (xbind_Go _ _ _ st p4) by (unfold go, calls_, i_on, zoom, bind, ret; by rewrite E4).
  assert (trace p4 = trace p ++ l0 ++ l3 ++ [(UpgradeDatabase, Status_ok st)]) as T4.
  { unfold trace at 1. cbn [i_world p4]. rewrite R4. unfold trace in T. by rewrite T, <- !app_assoc. }
  assert (tries_in (l0 ++ l3 ++ [(UpgradeDatabase, Status_ok st)]) = tries_in l3) as Hl4.
  { rewrite !tries_app. change (tries_in l0) with 0%nat. by destruct (Status_ok st); change (tries_in [_]) with 0%nat; rewrite Nat.add_0_r. }
  assert (Forall (fun c => quiet c.1) (l0 ++ l3 ++ [(UpgradeDatabase, Status_ok st)])) as F4.
  { rewrite app_assoc. apply Forall_app. split; [done|]. apply Forall_singleton. by intros []. }
  destruct (Status_ok st).
  - exists (Go tt), p4, (l0 ++ l3 ++ [(UpgradeDatabase, true)]). rewrite Hl4. do 4 (split; [done|]). set_solver.
  - destruct (requestShutdown_run (A := unit) (database_failure isWorker) p4 C3) as (p5 & l5 & E5 & F5 & T5).
    exists (Exited (database_failure isWorker)), p5, ((l0 ++ l3 ++ [(UpgradeDatabase, false)]) ++ l5). rewrite E5.
    split; [done|]. split; [by rewrite T5, T4, !app_assoc|]. split.
    { apply Forall_app. split; [done|]. eapply Forall_impl; [exact F5|]. intros x. apply ending_quiet. }
    rewrite tries_app, Hl4, (proj1 (ending_untried l5 F5)). split; [lia|done].
Qed.

(** ** The rest of the start *)

Lemma does_active (kind : call -> Prop) (codes : Z -> Prop) type name :
  (forall c, ending c -> kind c) -> kind (SetActive type name) -> codes EXIT_CATASTROPHIC ->
  does kind codes (initActivePlugin applyExtensionDelay type name).
Proof.
  intros Hk Hs Hc p Hp.
  assert (exists st p1, applyExtensionDelay (let* rs := calls_ (SetActive type name) in
      if Status_ok rs then ret (rs, false) else let* managed := i_on hasManagedExtensions in ret (rs, negb managed)) p = (Ok st, p1) /\
    (kExitCode (i_signals p1) = 0 /\ exists l, trace p1 = trace p ++ l /\ Forall (fun c => kind c.1) l)) as (st & p1 & E & C1 & l1 & T1 & F1).
  { apply (delay_law (fun q => kExitCode (i_signals q) = 0 /\ exists l, trace q = trace p ++ l /\ Forall (fun c => kind c.1) l)).
    - intros q (Cq & l & Tq & Fq). assert (plain kind (let* rs := calls_ (SetActive type name) in
        if Status_ok rs then ret (rs, false) else let* managed := i_on hasManagedExtensions in ret (rs, negb managed))) as Hpl.
      { apply plain_bind; [by apply plain_call|]. intros rs. destruct (Status_ok rs); [apply plain_ret|].
        apply plain_bind; [apply plain_managed|]. intros b. apply plain_ret. }
      destruct (Hpl q) as ([st stop] & q' & l' & E & F & [T C]). exists st, stop, q'. split; [done|]. split; [congruence|].
      exists (l ++ l'). split; [by rewrite T, Tq, app_assoc | by apply Forall_app].
    - split; [done|]. exists []. by rewrite app_nil_r. }
  unfold initActivePlugin. rewrite (bind_run _ _ _ _ _ E). destruct (Status_ok st); [by exists (Go tt), p1, l1|].
  destruct (requestShutdown_run (A := unit) EXIT_CATASTROPHIC p1 C1) as (p2 & l2 & E2 & F2 & T2).
  exists (Exited EXIT_CATASTROPHIC), p2, (l1 ++ l2). split; [done|]. split.
  - apply Forall_app. split; [done|]. eapply Forall_impl; [exact F2|]. intros x. apply Hk.
  - split; [by rewrite T2, T1, app_assoc | done].
Qed.

Ltac does :=
  repeat first
    [ apply does_go | (apply does_active; [naive_solver | done | done]) | (apply does_request; [naive_solver | done])
    | (apply does_if; intros ?) | (apply does_xbind; [|intros ?])
    | (apply plain_does; repeat first
        [ apply plain_ret | apply plain_gets | apply plain_flags | apply plain_managed | apply plain_monitored
        | apply plain_when | (apply plain_bind; [|intros ?]) | (apply plain_run; done) | (apply plain_call; done) ]) ].

(** What a start does once the database is there. *)
Definition after_database (flags : StartFlags) : MX unit :=
  go (run_ StartExtensionManager) ;!
  initActivePlugin applyExtensionDelay "config" (config_plugin flags) ;!
  go (run_ RegistrySetUp) ;!
  (if config_check flags then let! s := go (calls_ LoadConfig) in requestShutdown (code s) else ret (Go tt)) ;!
  (if database_dump flags then go (run_ DumpDatabase) ;! requestShutdown EXIT_SUCCESS else ret (Go tt)) ;!
  go (run_ LoadConfig) ;!
  start_plugins applyExtensionDelay ;!
  let! monitored := go (i_on isAppStartMonitorEnabled) in
  go (when monitored (run_ RecordStart)) ;!
  go (run_ AttachEvents) ;! go (run_ DelayEvents).

Lemma after_database_ends flags : does (fun _ => True) (fun _ => True) (after_database flags).
Proof. unfold after_database, start_plugins. does. Qed.

Lemma start_split p : exists p1, trace p1 = trace p /\ i_signals p1 = i_signals p /\
  disable_watchdog (i_flags p1) = disable_watchdog (i_flags p) /\
  start isWorker applyExtensionDelay p = xbind (start_database isWorker) (fun _ => after_database (i_flags p)) p1.
Proof.
  destruct (managed_law (i_world p)) as [b E].
  set (f := if (config_check (i_flags p) || config_dump (i_flags p)) && negb b then no_extensions (i_flags p) else i_flags p).
  exists (with_flags f p). split; [done|]. split; [done|]. split; [cbn; unfold f; by case_match|].
  unfold start. rewrite (xbind_Go _ _ _ (i_flags p) p) by done.
  rewrite (xbind_Go _ _ _ b p) by (unfold go, i_on, zoom, bind, ret; rewrite E; by destruct p).
  rewrite (xbind_Go _ _ _ tt (with_flags f p)); [done|].
  unfold go, when, f. case_match; [done|]. by destruct p.
Qed.

(** C30: A start by a process that is not a watcher ends. Either it made nothing but quiet
    calls, tried the database at most 25 times and left with the code for a failure; or
    the database was opened and upgraded, after at most 25 tries, before the first call
    that needs it. *)
Theorem start_opens_the_database_first p :
  kExitCode (i_signals p) = 0 -> negb (disable_watchdog (i_flags p)) && negb isWorker = false ->
  exists o p' l1 l2, start isWorker applyExtensionDelay p = (Ok o, p') /\ trace p' = trace p ++ l1 ++ l2 /\
    Forall (fun c => quiet c.1) l1 /\ (tries_in l1 <= kDatabaseMaxRetryCount)%nat /\
    ((o = Exited (database_failure isWorker) /\ l2 = []) \/
     ((InitDatabase, true) ∈ l1 /\ (UpgradeDatabase, true) ∈ l1)).
Proof.
  intros Hp Hw. destruct (start_split p) as (p1 & T1 & S1 & D1 & ->).
  destruct (start_database_run p1) as (o & p2 & l & E & T & F & Hn & Ho); [by rewrite S1 | by rewrite D1 |]. rewrite T1 in T.
  destruct o as [[]|c].
  - destruct Ho as (C2 & Hi & Hu). rewrite (xbind_Go _ _ _ tt p2 E).
    destruct (after_database_ends (i_flags p) p2 C2) as (o & p3 & l3 & E3 & _ & T3 & _).
    exists o, p3, l, l3. split; [done|]. split; [by rewrite T3, T, app_assoc|]. auto.
  - exists (Exited c), p2, l, []. rewrite (xbind_Exited _ _ _ c p2 E), app_nil_r. split; [done|]. split; [done|].
    split; [done|]. split; [done|]. left. by rewrite Ho.
Qed.

(** What a daemon that only checks its configuration must not do. *)
Definition starting (c : call) : Prop := match c with InitLogger | RecordStart | AttachEvents | DelayEvents | DumpDatabase => True | _ => False end.

(** A step that ends the process. *)
Definition ends {A} (kind : call -> Prop) (m : MX A) : Prop :=
  forall p, kExitCode (i_signals p) = 0 -> exists c p' l, m p = (Ok (Exited c), p') /\
    Forall (fun c => kind c.1) l /\ trace p' = trace p ++ l.

Lemma ends_here {A B} kind (m : MX A) (k : A -> MX B) : ends kind m -> ends kind (xbind m k).
Proof.
  intros Hm p Hp. destruct (Hm p Hp) as (c & p' & l & E & H). exists c, p', l. by rewrite (xbind_Exited _ _ _ c p' E).
Qed.

Lemma ends_later {A B} kind codes (m : MX A) (k : A -> MX B) :
  does kind codes m -> (forall a, ends kind (k a)) -> ends kind (xbind m k).
Proof.
  intros Hm Hk p Hp. destruct (Hm p Hp) as ([a|c] & p1 & l1 & E1 & F1 & T1 & H1).
  - rewrite (xbind_Go _ _ _ a p1 E1). destruct (Hk a p1 H1) as (c & p2 & l2 & E2 & F2 & T2).
    exists c, p2, (l1 ++ l2). split; [done|]. split; [by apply Forall_app | by rewrite T2, T1, app_assoc].
  - exists c, p1, l1. by rewrite (xbind_Exited _ _ _ c p1 E1).
Qed.

Lemma ending_starts_nothing c : ending c -> ~ starting c.
Proof. intros H%ending_quiet Hs. apply H. by destruct c. Qed.

Lemma check_ends flags : config_check flags = true -> ends (fun c => ~ starting c) (after_database flags).
Proof.
  intros Hc. unfold after_database. rewrite Hc.
  apply (ends_later _ (fun _ => True)); [apply plain_does, plain_run; by intros []|]. intros _.
  apply (ends_later _ (fun _ => True)); [apply does_active; [apply ending_starts_nothing | by intros [] | done]|]. intros _.
  apply (ends_later _ (fun _ => True)); [apply plain_does, plain_run; by intros []|]. intros _. apply ends_here.
  apply (ends_later _ (fun _ => True)); [apply plain_does, plain_call; by intros []|]. intros st p Hp.
  destruct (requestShutdown_run (A := unit) (code st) p Hp) as (p' & l & E & F & T). exists (code st), p', l.
  split; [done|]. split; [|done]. eapply Forall_impl; [exact F|]. intros x. apply ending_starts_nothing.
Qed.

(** With [--config_check] the process always ends, and neither a logger nor the event
    threads were started. *)
Theorem config_check_starts_nothing p :
  kExitCode (i_signals p) = 0 -> negb (disable_watchdog (i_flags p)) && negb isWorker = false ->
  config_check (i_flags p) = true ->
  exists c p' l, start isWorker applyExtensionDelay p = (Ok (Exited c), p') /\ trace p' = trace p ++ l /\
    Forall (fun c => ~ starting c.1) l.
Proof.
  intros Hp Hw Hc. destruct (start_split p) as (p1 & T1 & S1 & D1 & ->).
  destruct (start_database_run p1) as (o & p2 & l & E & T & F & _ & Ho); [by rewrite S1 | by rewrite D1 |]. rewrite T1 in T.
  assert (Forall (fun c => ~ starting c.1) l) as F'.
  { eapply Forall_impl; [exact F|]. intros [[] ?] Hq Hs; try done; by apply Hq. }
  destruct o as [[]|c]; [|by exists c, p2, l; rewrite (xbind_Exited _ _ _ c p2 E)].
  destruct Ho as (C2 & _ & _). rewrite (xbind_Go _ _ _ tt p2 E).
  destruct (check_ends (i_flags p) Hc p2 C2) as (c & p3 & l3 & E3 & F3 & T3).
  exists c, p3, (l ++ l3). split; [done|]. split; [by rewrite T3, T, app_assoc | by apply Forall_app].
Qed.
End Start.

(** ** At a concrete input *)

(** Components that succeed and record what they are asked. *)
#[local] Instance willing_components : Components (list (call * bool)) := {|
  st_call c := fun w => (Ok (Status1 0), w ++ [(c, true)]);
  hasManagedExtensions := ret false; getWorkerStatus := ret 0; isAppStartMonitorEnabled := ret true;
  getrlimit := ret None; homeDirectory := ret "/root"; isDefault _ := ret true |}.
#[local] Instance willing_laws : ComponentsLaws (list (call * bool)).
Proof.
  apply (Build_ComponentsLaws _ willing_components (fun w => w)).
  - intros c w. by eexists _, _.
  - intros w. by exists false.
  - intros w. by exists true.
Defined.

(** A wait for extensions that asks once. *)
Definition ask_once (predicate : M (Init (list (call * bool))) (Status * bool)) : M (Init (list (call * bool))) Status :=
  let* r := predicate in ret r.1.

Definition worker_flags : StartFlags :=
  mkStartFlags false true false false false true false false false false false false false 0 "/var/osquery/osquery.db" ""
    "filesystem" "filesystem" "tls" "killswitch_filesystem" "numeric_monitoring_filesystem".

Definition worker_start : Init (list (call * bool)) :=
  mkInit [] DAEMON "osqueryd" worker_flags (mkSignals 0 0) true.

Lemma start_opens_the_database_first_witness :
  exists o p' l1 l2, start true ask_once worker_start = (Ok o, p') /\ trace p' = trace worker_start ++ l1 ++ l2 /\
    Forall (fun c => quiet c.1) l1 /\ (tries_in l1 <= kDatabaseMaxRetryCount)%nat /\
    ((o = Exited (database_failure true) /\ l2 = []) \/
     ((InitDatabase, true) ∈ l1 /\ (UpgradeDatabase, true) ∈ l1)).
Proof.
  apply (start_opens_the_database_first true ask_once); [|done..].
  intros I predicate p Hp HI. destruct (Hp p HI) as (st & stop & p' & E & HI'). exists st, p'.
  unfold ask_once. by rewrite (bind_run _ _ _ _ _ E).
Defined.
