(* ===== verification/TextTables.v ===== *)
(** * Tables made from text files (osquery/tables)

    Hosts, services and protocols, resolvers, cron tables, ssh keys and configurations,
    sudoers, shell histories, sysctl, kernel modules, memory, package sources and Python
    packages: a file is read, cut into lines and each line becomes a row. The files and the
    tables a table selects from are the class [TableHost]; the files of users are read
    under a handle of [DropPrivileges] (System.v); ini and JSON files and the resolver state are parsed by libraries, whose
    result is an argument. *)
From S2P Require Import Prelude Boost Conversions Json Database Query Tables System.

Class TableHost (W : Type) := {
  h_readFile : string -> M W (Status * string);
  h_forensicReadFile : string -> M W (Status * string);
  h_isReadable : string -> M W Status;
  h_pathExists : string -> M W Status;
  h_isDirectory : string -> M W Status;
  (** The paths a listing appends. *)
  h_listFiles : string -> M W (Status * list string);
  h_listDirectories : string -> bool -> M W (Status * list string);
  h_resolve : string -> M W (Status * list string);
  (** [SQL::selectAllFrom(table, column, EQUALS, value)], or of the whole table. *)
  h_select : string -> option (string * string) -> M W QueryData;
  h_getuid : M W Z;
  h_getpid : M W Z;
  (** [operator/]. *)
  h_append : string -> string -> string;
  h_filename : string -> string;
}.

Definition newline : string := String "010" "".
Definition blanks : string := String "009" " ".
Definition starts_with (p s : string) : bool := String.prefix p s.
Definition first_char (s : string) : option ascii := match s with String c _ => Some c | EmptyString => None end.

(** ** Lines *)

Section Lines.
Context {B : Boost}.

Definition lines_of (content : string) : list string := split content newline.

(** [boost::split] with [token_compress_on]: delimiters side by side are one, but those at
    the ends leave an empty token. *)
Definition split_compress (set s : string) : list string :=
  match boost_split (is_any_of set) s with
  | x :: ((_ :: _) as rest) =>
      x :: filter (fun t => is_empty t = false) (take (length rest - 1) rest) ++ option_list (last rest)
  | l => l
  end.

(** *** /etc/hosts *)

Fixpoint until_comment (l : list string) : list string :=
  match l with
  | [] => []
  | x :: l => if starts_with "#" x then [] else x :: until_comment l
  end.

Definition host_row (_line : string) : option Row :=
  match split _line blanks with
  | [] => None
  | address :: rest =>
      if starts_with "#" address then None
      else Some (match rest with
                 | [] => {["address" := address]}
                 | _ => {["address" := address; "hostnames" := boost_join (until_comment rest) " "]}
                 end)
  end.

Definition parseEtcHostsContent (content : string) : QueryData := omap host_row (lines_of content).

(** *** /etc/services and /etc/protocols *)

Definition comment_of (parts : list string) : Row :=
  match parts with _ :: ((_ :: _) as rest) => {["comment" := boost_join rest " # "]} | _ => ∅ end.

(** The first part is taken without a look at the size. *)
Definition service_row (line : string) : result (option Row) :=
  if is_empty line || starts_with "#" line then Ok None
  else match split line "#" with
       | [] => Throw AssertFailure
       | (info :: _) as parts =>
           match split info blanks with
           | name :: port_protocol :: aliases =>
               match split port_protocol "/" with
               | [port; protocol] =>
                   Ok (Some (comment_of parts ∪ {["name" := name; "port" := port; "protocol" := protocol;
                                                  "aliases" := boost_join aliases " "]}))
               | _ => Ok None
               end
           | _ => Ok None
           end
       end.

Definition protocol_row (line : string) : result (option Row) :=
  if is_empty line || starts_with "#" line then Ok None
  else match split line "#" with
       | [] => Throw AssertFailure
       | (info :: _) as parts =>
           match split info blanks with
           | name :: number :: more =>
               let alias : Row := match more with a :: _ => {["alias" := a]} | [] => ∅ end in
               Ok (Some (comment_of parts ∪ alias ∪ {["name" := name; "number" := number]}))
           | _ => Ok None
           end
       end.

Fixpoint rows_of (f : string -> result (option Row)) (lines : list string) : result QueryData :=
  match lines with
  | [] => Ok []
  | line :: lines =>
      match f line with
      | Throw e => Throw e
      | Ok r => match rows_of f lines with Throw e => Throw e | Ok rest => Ok (option_list r ++ rest) end
      end
  end.

Definition parseEtcServicesContent (content : string) : result QueryData := rows_of service_row (lines_of content).
Definition parseEtcProtocolsContent (content : string) : result QueryData := rows_of protocol_row (lines_of content).

(** *** Lines that are not comments *)

Definition not_comment (line : string) : bool :=
  match first_char line with None => false | Some c => negb (bool_decide (c = "#"%char)) end.

(** The lines of a cron table and of the sudoers file. *)
Definition trimmed_lines (content : string) : list string :=
  filter (fun line => not_comment line = true) (boost_trim <$> lines_of content).

(** *** Cron *)

Definition cron_field (index : nat) : string :=
  match index with 0 => "minute" | 1 => "hour" | 2 => "day_of_month" | 3 => "month" | _ => "day_of_week" end.

Fixpoint cron_columns (columns : list string) (index : nat) (r : Row) : result Row :=
  match columns with
  | [] => Ok r
  | x :: columns =>
      if (index =? 0)%nat then
        match first_char x with
        | None => Throw (OutOfRange "basic_string::at")
        | Some c => if bool_decide (c = "@"%char) then cron_columns columns 5 (<["event" := x]> r)
                    else cron_columns columns 1 (<["minute" := x]> r)
        end
      else if (index <? 5)%nat then cron_columns columns (S index) (<[cron_field index := x]> r)
      else if (index =? 5)%nat then cron_columns columns (S index) (<["command" := x]> r)
      else cron_columns columns (S index) (<["command" := default "" (r !! "command") +:+ " " +:+ x]> r)
  end.

Definition genCronLine (path line : string) : result (option Row) :=
  match cron_columns (split line (String " " (String "009" ""))) 0 {["path" := path]} with
  | Throw e => Throw e
  | Ok r => Ok (if is_empty (default "" (r !! "command")) then None else Some r)
  end.

(** *** sudoers *)

Definition sudo_row (line : string) : result Row :=
  match split line blanks with
  | [] => Throw (OutOfRange "vector::_M_range_check")
  | header :: cols => Ok {["header" := header; "rule_details" := boost_join cols " "]}
  end.

(** *** ssh *)

Definition key_rows (uid keys_file content : string) : QueryData :=
  (fun line => {["uid" := uid; "key" := line; "key_file" := keys_file]}) <$>
    filter (fun line => not_comment line = true) (lines_of content).

Fixpoint ssh_options (uid file block : string) (lines : list string) : QueryData :=
  match lines with
  | [] => []
  | line :: lines =>
      let line := lower (boost_trim line) in
      if negb (not_comment line) then ssh_options uid file block lines
      else if starts_with "host " line || starts_with "match " line then ssh_options uid file line lines
      else {["uid" := uid; "block" := block; "option" := line; "ssh_config_file" := file]}
             :: ssh_options uid file block lines
  end.

(** *** Shell histories *)

(** The expression [^#([0-9]+)$]. *)
Definition bash_timestamp (line : string) : option string :=
  match line with
  | String c r => if bool_decide (c = "#"%char) && negb (is_empty r) && all_digits r then Some r else None
  | EmptyString => None
  end.

(** The digits at the front, and what follows. *)
Fixpoint span_digits (s : string) : string * string :=
  match s with
  | String c r => if is_digit c then let (d, rest) := span_digits r in (String c d, rest) else ("", s)
  | EmptyString => ("", "")
  end.

Fixpoint skip_spaces (n : nat) (s : string) : string :=
  match n, s with
  | S n, String c r => if bool_decide (c = " "%char) then skip_spaces n r else s
  | _, _ => s
  end.

(** The expression for zsh: a colon, at most ten blanks, one to eleven digits, a colon,
    digits, a semicolon and the command. *)
Definition zsh_timestamp (line : string) : option (string * string) :=
  match line with
  | String ":" r =>
      let (time, r) := span_digits (skip_spaces 10 r) in
      if is_empty time || (11 <? String.length time)%nat then None
      else match r with
           | String ":" r =>
               let (d, r) := span_digits r in
               if is_empty d then None
               else match r with String ";" command => Some (time, command) | _ => None end
           | _ => None
           end
  | _ => None
  end.

Definition history_row (uid file time command : string) : Row :=
  {["time" := time; "command" := command; "uid" := uid; "history_file" := file]}.

Fixpoint history_rows (uid file prev : string) (lines : list string) : QueryData :=
  match lines with
  | [] => []
  | line :: lines =>
      match (if is_empty prev then bash_timestamp line else None) with
      | Some t => history_rows uid file t lines
      | None =>
          (if negb (is_empty prev) then history_row uid file prev line
           else match zsh_timestamp line with
                | Some (t, command) => history_row uid file t command
                | None => history_row uid file "0" line
                end) :: history_rows uid file "" lines
      end
  end.
End Lines.

(** ** The tables *)

Section Tables.
Context {W : Type} {H : TableHost W} {CR : Credentials W} {B : Boost}.

(** *** Users and processes a query is for *)

Definition fromContext (table column : string) (context : QueryContext) (all : bool) (self : M W Z) (keep : QueryData -> QueryData -> QueryData)
    : M W QueryData :=
  if hasConstraint column EQUALS context then
    for_fold (iteritems column EQUALS context) [] (fun rows expr =>
      let* row := h_select table (Some (column, expr)) in ret (keep rows row))
  else if all then h_select table None
  else let* id := self in h_select table (Some (column, to_string id)).

Definition usersFromContext (context : QueryContext) (all : bool) : M W QueryData :=
  fromContext "users" "uid" context all h_getuid (fun rows row => rows ++ row).

(** The range that is inserted is that of the results. *)
Definition pidsFromContext (context : QueryContext) (all : bool) : M W QueryData :=
  fromContext "processes" "pid" context all h_getpid (fun rows _ => rows ++ rows).

(** *** Single files *)

Definition genEtcHosts : M W QueryData :=
  let* (s, content) := h_readFile "/etc/hosts" in
  ret (if Status_ok s then parseEtcHostsContent content else []).

Definition genEtcServices : M W QueryData :=
  let* (s, content) := h_readFile "/etc/services" in
  if Status_ok s then of_result (parseEtcServicesContent content) else ret [].

Definition genEtcProtocols : M W QueryData :=
  let* (s, content) := h_readFile "/etc/protocols" in
  if Status_ok s then of_result (parseEtcProtocolsContent content) else ret [].

Definition genSudoers : M W QueryData :=
  let* readable := h_isReadable "/etc/sudoers" in
  if negb (Status_ok readable) then ret []
  else
    let* (s, contents) := h_forensicReadFile "/etc/sudoers" in
    if negb (Status_ok s) then ret []
    else for_fold (trimmed_lines contents) [] (fun results line =>
           let* r := of_result (sudo_row line) in ret (results ++ [r])).

(** *** Cron tables *)

Definition kSystemCron : string := "/etc/crontab".
Definition kCronSearchDirs : list string :=
  ["/etc/cron.d/"; "/var/at/tabs/"; "/var/spool/cron/"; "/var/spool/cron/crontabs/"].

Definition cronFromFile (path : string) : M W (list string) :=
  let* readable := h_isReadable path in
  if negb (Status_ok readable) then ret []
  else
    let* (s, content) := h_forensicReadFile path in
    ret (if Status_ok s then trimmed_lines content else []).

Definition cron_file (results : QueryData) (file_path : string) : M W QueryData :=
  let* lines := cronFromFile file_path in
  for_fold lines results (fun results line =>
    let* r := of_result (genCronLine file_path line) in ret (results ++ option_list r)).

Definition genCronTab : M W QueryData :=
  let* file_list := for_fold kCronSearchDirs [kSystemCron] (fun files cron_dir =>
    let* (_, found) := h_listFiles cron_dir in ret (files ++ found)) in
  for_fold file_list [] cron_file.

(** *** Files of a user, read with the user's privileges *)

(** The handle lives until the function returns. *)
Definition as_user (uid gid : string) (results : QueryData) (m : M W QueryData) : M W QueryData :=
  with_handle (let* dropped := dropTo_text uid gid in dp_on (if dropped : bool then m else ret results)).

(** [dropper->dropTo("nobody")]; the work goes on whether or not it succeeds. *)
Definition as_nobody {A} (m : M W A) : M W A :=
  with_handle (let* _ := dropTo_user (h_select "users" (Some ("username", "nobody"))) in dp_on m).

Definition key_file (uid directory : string) (results : QueryData) (kfile : string) : M W QueryData :=
  let keys_file := h_append directory kfile in
  let* (s, content) := h_forensicReadFile keys_file in
  ret (if Status_ok s then results ++ key_rows uid keys_file content else results).

Definition kSSHKnownHostskeys : list string := [".ssh/known_hosts"].
Definition kSSHAuthorizedkeys : list string := [".ssh/authorized_keys"; ".ssh/authorized_keys2"].

Definition genSSHkeysForHosts (uid gid directory : string) (results : QueryData) : M W QueryData :=
  as_user uid gid results (for_fold kSSHKnownHostskeys results (key_file uid directory)).
Definition genSSHkeysForUser (uid gid directory : string) (results : QueryData) : M W QueryData :=
  as_user uid gid results (for_fold kSSHAuthorizedkeys results (key_file uid directory)).

Definition genSshConfig (uid filepath : string) (results : QueryData) : M W QueryData :=
  let* (s, content) := h_forensicReadFile filepath in
  ret (if Status_ok s then results ++ ssh_options uid filepath "" (lines_of content) else results).
Definition kUserSshConfig : string := ".ssh/config".
Definition kSystemwideSshConfig : string := "/etc/ssh/ssh_config".
Definition genSshConfigForUser (uid gid directory : string) (results : QueryData) : M W QueryData :=
  as_user uid gid results (genSshConfig uid (h_append directory kUserSshConfig) results).

Definition kShellHistoryFiles : list string := [".bash_history"; ".zsh_history"; ".zhistory"; ".history"; ".sh_history"].
Definition genShellHistoryFromFile (uid : string) (results : QueryData) (history_file : string) : M W QueryData :=
  let* (s, content) := h_forensicReadFile history_file in
  ret (if Status_ok s then results ++ history_rows uid history_file "" (lines_of content) else results).
Definition genShellHistoryForUser (uid gid directory : string) (results : QueryData) : M W QueryData :=
  as_user uid gid results (for_fold (h_append directory <$> kShellHistoryFiles) results (genShellHistoryFromFile uid)).

(** With the privileges of the daemon. *)
Definition genShellHistoryFromBashSessions (uid directory : string) (results : QueryData) : M W QueryData :=
  let bash_sessions := h_append directory ".bash_sessions" in
  let* there := h_pathExists bash_sessions in
  if Status_ok there then
    let* (_, files) := h_resolve (h_append bash_sessions "*.history") in
    for_fold files results (genShellHistoryFromFile uid)
  else ret results.

(** The loop over the users, for those that have all three columns. *)
Definition for_users (users : QueryData) (f : string -> string -> string -> QueryData -> M W QueryData) : M W QueryData :=
  for_fold users [] (fun results row =>
    match row !! "uid", row !! "gid", row !! "directory" with
    | Some uid, Some gid, Some directory => f uid gid directory results
    | _, _, _ => ret results
    end).

Definition getKnownHostsKeys (context : QueryContext) : M W QueryData :=
  let* users := usersFromContext context false in for_users users genSSHkeysForHosts.
Definition getAuthorizedKeys (context : QueryContext) : M W QueryData :=
  let* users := usersFromContext context false in for_users users genSSHkeysForUser.
Definition getSshConfigs (context : QueryContext) : M W QueryData :=
  let* users := usersFromContext context false in
  let* results := for_users users genSshConfigForUser in
  genSshConfig "0" kSystemwideSshConfig results.
Definition genShellHistory (context : QueryContext) : M W QueryData :=
  let* users := usersFromContext context false in
  for_users users (fun uid gid directory results =>
    let* results := genShellHistoryForUser uid gid directory results in
    genShellHistoryFromBashSessions uid directory results).
End Tables.

(** ** More tables *)

(** *** The resolver *)

(** [struct __res_state]: the name servers and the sort list as text, the options and the
    search domains, of which there are [MAXDNSRCH]. *)
Record res_state := mkRes {
  nsaddr_list : list string;
  sort_list : list (string * Z);
  dnsrch : list (option string);
  res_options : Z;
}.

Definition search_row (first : option string) (options : Z) (i : nat) : result Row :=
  match first with
  | None => Throw AssertFailure
  | Some address => Ok {["id" := to_string (Z.of_nat i); "type" := "search"; "address" := address; "options" := to_string options]}
  end.

(** The address is always the first domain. *)
Fixpoint search_rows (first : option string) (options : Z) (i : nat) (l : list (option string)) : result QueryData :=
  match l with
  | [] => Ok []
  | None :: l => search_rows first options (S i) l
  | Some _ :: l =>
      match search_row first options i, search_rows first options (S i) l with
      | Ok r, Ok rest => Ok (r :: rest)
      | Throw e, _ => Throw e
      | _, Throw e => Throw e
      end
  end.

Definition genDNSResolvers (res : option res_state) : result QueryData :=
  match res with
  | None => Ok []
  | Some r =>
      match search_rows (mjoin (dnsrch r !! 0%nat)) (res_options r) 0 (dnsrch r) with
      | Throw e => Throw e
      | Ok search =>
          Ok (imap (fun i a => {["id" := to_string (Z.of_nat i); "type" := "nameserver"; "address" := a; "netmask" := "32";
                                 "options" := to_string (res_options r)]}) (nsaddr_list r) ++
              imap (fun i a => {["id" := to_string (Z.of_nat i); "type" := "sortlist"; "address" := a.1;
                                 "netmask" := to_string a.2; "options" := to_string (res_options r)]}) (sort_list r) ++
              search)
      end
  end.

Section More.
Context {W : Type} {H : TableHost W} {B : Boost}.

(** *** Listening ports *)

Definition kAF_UNIX : string := "1".
Definition kAF_INET : string := "2".
Definition kAF_INET6 : string := "10".

Definition at_ (r : Row) (k : string) : result string :=
  match r !! k with Some v => Ok v | None => Throw (OutOfRange "map::at") end.

(** Which sockets listen; [&&] only looks at a column when it has to. *)
Definition skipped_socket (socket : Row) : M W bool :=
  let* family := of_result (at_ socket "family") in
  if bool_decide (family = kAF_UNIX) then let* path := of_result (at_ socket "path") in ret (is_empty path)
  else if bool_decide (family = kAF_INET) || bool_decide (family = kAF_INET6) then
    let* port := of_result (at_ socket "remote_port") in ret (negb (bool_decide (port = "0")))
  else ret false.

Definition port_row (linux : bool) (socket : Row) : M W Row :=
  let* pid := of_result (at_ socket "pid") in
  let* family := of_result (at_ socket "family") in
  let* r :=
    (if bool_decide (family = kAF_UNIX) then
       let* path := of_result (at_ socket "path") in
       ret ({["pid" := pid; "port" := "0"; "path" := path; "socket" := "0"]} : Row)
     else
       let* address := of_result (at_ socket "local_address") in
       let* port := of_result (at_ socket "local_port") in
       ret {["pid" := pid; "address" := address; "port" := port; "socket" := default "0" (socket !! "socket")]}) in
  let* protocol := of_result (at_ socket "protocol") in
  let r := <["fd" := default "0" (socket !! "fd")]> (<["family" := family]> (<["protocol" := protocol]> r)) in
  if linux then let* ns := of_result (at_ socket "net_namespace") in ret (<["net_namespace" := ns]> r) else ret r.

Definition genListeningPorts (linux : bool) : M W QueryData :=
  let* sockets := h_select "process_open_sockets" None in
  for_fold sockets [] (fun results socket =>
    let* skip := skipped_socket socket in
    if skip : bool then ret results else let* r := port_row linux socket in ret (results ++ [r])).

(** *** The ARP cache *)

Definition arp_row (line : string) : option Row :=
  match boost_trim <$> split_compress " " line with
  | [address; _; flags; mac; _; interface] =>
      Some {["address" := address; "mac" := mac; "interface" := interface;
             "permanent" := if bool_decide (flags = "0x6") then "1" else "0"]}
  | _ => None
  end.

(** The lines of the stream after the header. *)
Definition arp_rows (lines : list string) : QueryData := omap arp_row (tail lines).

(** *** Kernel modules *)

Definition strip_comma (s : string) : string :=
  match last (chars s) with
  | Some c => if bool_decide (c = ","%char) then String.substring 0 (String.length s - 1) s else s
  | None => s
  end.

Definition module_row (module : string) : option Row :=
  match strip_comma ∘ boost_trim <$> split module " " with
  | name :: size :: _ :: used_by :: status :: address :: _ =>
      Some {["name" := name; "size" := size; "used_by" := used_by; "status" := status; "address" := address]}
  | _ => None
  end.

Definition genKernelModules (proc_modules : M W (option string)) : M W QueryData :=
  let* there := h_pathExists "/proc/modules" in
  if negb (Status_ok there) then ret []
  else let* o := proc_modules in
       ret (match o with None => [] | Some module_info => omap module_row (lines_of module_info) end).

(** *** Memory *)

(** In the order of the map's keys. *)
Definition kMemInfoMap : list (string * string) :=
  [("active", "Active:"); ("buffers", "Buffers:"); ("cached", "Cached:"); ("inactive", "Inactive:"); ("memory_free", "MemFree:");
   ("memory_total", "MemTotal:"); ("swap_cached", "SwapCached:"); ("swap_free", "SwapFree:"); ("swap_total", "SwapTotal:")].

(** A line that has no second field is not defined. *)
Definition memory_line (r : Row) (line : string) : result Row :=
  match list_find (fun m => starts_with m.2 line = true) kMemInfoMap with
  | None => Ok r
  | Some (_, (column, _)) =>
      match split_compress blanks line !! 1%nat with
      | None => Throw AssertFailure
      | Some v => Ok (match tryTo TLong v 10 with inl n => <[column := to_string (i64 (n * 1024))]> r | inr _ => r end)
      end
  end.

Definition getMemoryInfo : M W QueryData :=
  let* (s, content) := h_forensicReadFile "/proc/meminfo" in
  if Status_ok s then
    let* r := for_fold (lines_of content) ∅ (fun r line => of_result (memory_line r line)) in ret [r]
  else ret [∅].

Definition find_first_of (set s : string) : option nat := fst <$> list_find (fun c => c ∈ chars set) (chars s).

Definition iomem_row (line : string) : option Row :=
  match find_first_of "-" line, find_first_of " : " line with
  | Some b1, Some b2 =>
      if (String.length line <=? b2 + 3)%nat then None
      else Some {["start" := "0x" +:+ String.substring 0 b1 line;
                  (** The count is a [size_t]: it wraps when the blank comes first. *)
                  "end" := "0x" +:+ String.substring (b1 + 1)
                             (if (b1 <=? b2)%nat then b2 - b1 else String.length line)%nat line;
                  "name" := String.substring (b2 + 3) (String.length line) line]}
  | _, _ => None
  end.

Definition genMemoryMap : M W QueryData :=
  let* (_, content) := h_readFile "/proc/iomem" in ret (omap iomem_row (lines_of content)).

(** *** os-release *)

Definition kOSReleaseColumns : gmap string string :=
  {["NAME" := "name"; "VERSION" := "version"; "BUILD_ID" := "build"; "ID" := "platform"; "ID_LIKE" := "platform_like";
    "VERSION_CODENAME" := "codename"; "VERSION_ID" := "_id"]}.

Definition unquote (s : string) : string :=
  match s with String c _ => if bool_decide (c = "034"%char) then String.substring 1 (String.length s - 2) s else s | _ => s end.

Definition version_parts (v : string) (r : Row) : Row :=
  match split_occurences v "." 2 with
  | [major; minor; patch] => <["major" := major]> (<["minor" := minor]> (<["patch" := patch]> r))
  | [major; minor] => <["major" := major]> (<["minor" := minor]> r)
  | [major] => <["major" := major]> r
  | _ => r
  end.

Definition release_line (r : Row) (line : string) : Row :=
  match split_occurences line "=" 1 with
  | [key; value] =>
      match (match kOSReleaseColumns !! key with
             | Some column => Some column
             | None => if find_str "CODENAME" key then Some "codename" else None
             end) with
      | None => r
      | Some column =>
          let value := unquote value in
          let r := <[column := value]> r in
          if bool_decide (column = "_id") then version_parts value r else r
      end
  | _ => r
  end.

Definition genOSRelease (r : Row) : M W Row :=
  let* (s, content) := h_readFile "/etc/os-release" in
  ret (if Status_ok s then foldl release_line r (lines_of content) else r).
End More.

(** ** Packages and sources *)

Section Packages.
Context {W : Type} {H : TableHost W} {CR : Credentials W} {B : Boost}.

(** *** Python *)

Definition package_column (field : string) : option string :=
  match list_find (fun p => p.1 = field)
    [("Name", "name"); ("Version", "version"); ("Summary", "summary"); ("Author", "author"); ("License", "license")] with
  | Some (_, (_, column)) => Some column
  | None => None
  end.

(** The license ends the search. *)
Fixpoint package_lines (lines : list string) (r : Row) : Row :=
  match lines with
  | [] => r
  | line :: lines =>
      match split line ":" with
      | [field; value] =>
          match package_column field with
          | Some column =>
              let r := <[column := value]> r in
              if bool_decide (field = "License") then r else package_lines lines r
          | None => package_lines lines r
          end
      | _ => package_lines lines r
      end
  end.

Definition genPackage (path : string) (r : Row) : M W Row :=
  let* (s, content) := h_readFile path in ret (if Status_ok s then package_lines (lines_of content) r else r).

Definition info_file (directory : string) : option string :=
  if find_str ".dist-info" directory then Some (directory +:+ "/METADATA")
  else if find_str ".egg-info" directory then Some (directory +:+ "/PKG-INFO")
  else None.

Definition genSiteDirectories (site : string) (results : QueryData) : M W QueryData :=
  let* (s, directories) := h_listDirectories site true in
  if negb (Status_ok s) then ret results
  else for_fold directories results (fun results directory =>
    let* d := h_isDirectory directory in
    if negb (Status_ok d) then ret results
    else match info_file directory with
         | None => ret results
         | Some path =>
             let* r := genPackage path ∅ in
             ret (results ++ [<["path" := directory]> (<["directory" := site]> r)])
         end).

Definition kPythonPath : list string :=
  ["/Library/Python/2.7/site-packages/"; "/usr/lib/python2.7/dist-packages/"; "/usr/lib/python2.7/site-packages/";
   "/usr/local/lib/python2.7/dist-packages/"; "/usr/local/lib/python2.7/site-packages/"].

(** The directories of the constraints, or the default ones. *)
Definition search_directories (context : QueryContext) (defaults : list string) : list string :=
  match constraints context !! "directory" with
  | Some l => if exists_ EQUALS l then set_sorted (getAll EQUALS l) else defaults
  | None => defaults
  end.

(** On Linux. *)
Definition genPythonPackages (context : QueryContext) : M W QueryData :=
  for_fold (search_directories context kPythonPath) [] (fun results site => genSiteDirectories site results).

(** *** npm *)

Definition text_of_json (v : json) : string := match v with JString s => c_str s | _ => "" end.

Definition kPackageKeys : list string := ["name"; "version"; "description"].

Definition put_member (ms : members) (r : Row) (key : string) : Row :=
  match member key ms with Some v => <[key := text_of_json v]> r | None => r end.

(** [author["name"]] and [license["url"]]: a value that is no object makes rapidjson assert. *)
Definition author_of (ms : members) (r : Row) : result Row :=
  match member "author" ms with
  | None => Ok r
  | Some (JObject a) => Ok (match member "name" a with Some v => <["author" := text_of_json v]> r | None => r end)
  | Some _ => Throw AssertFailure
  end.

Definition license_of (ms : members) (r : Row) : result Row :=
  match member "license" ms with
  | None => Ok r
  | Some (JString s) => Ok (<["license" := c_str s]> r)
  | Some (JObject l) => Ok (match member "url" l with Some (JString u) => <["license" := c_str u]> r | _ => r end)
  | Some _ => Throw AssertFailure
  end.

Definition npm_row {R : RapidJSON} (directory package_path content : string) : result (option Row) :=
  match JSON_fromString content with
  | (st, Some (JObject ms)) =>
      if negb (Status_ok st) then Ok None
      else match author_of ms (foldl (put_member ms) ∅ kPackageKeys) with
      | Throw e => Throw e
      | Ok r => match license_of ms r with
                | Throw e => Throw e
                | Ok r => Ok (Some (<["directory" := directory]> (<["path" := package_path]> r)))
                end
      end
  | _ => Ok None
  end.

Definition npm_package {R : RapidJSON} (directory : string) (results : QueryData) (package_path : string) : M W QueryData :=
  let* (s, content) := h_readFile package_path in
  if negb (Status_ok s) then ret results
  else let* r := of_result (npm_row directory package_path content) in ret (results ++ option_list r).

Definition genPackageResults {R : RapidJSON} (results : QueryData) (directory : string) : M W QueryData :=
  let* (_, packages) := h_resolve (directory +:+ "/node_modules/%/package.json") in
  for_fold packages results (npm_package directory).

Definition kLinuxNodeModulesPath : string := "/usr/lib/".

Definition genNPMPackages {R : RapidJSON} (context : QueryContext) : M W QueryData :=
  for_fold (search_directories context [kLinuxNodeModulesPath]) [] genPackageResults.

(** *** Yum *)

(** What [read_ini] makes of a file: sections with their options, or an error. *)
Definition ini := list (string * list (string * string)).

Definition kYumReposDir : string := "/etc/yum.repos.d".
Definition yum_options : list string := ["baseurl"; "enabled"; "gpgcheck"; "name"; "gpgkey"].

Definition yum_section (options : list (string * string)) : Row :=
  foldl (fun r o => if bool_decide (o.1 ∈ yum_options) then <[o.1 := o.2]> r else r) ∅ options.

Definition repos_dir_of (tree : ini) : string :=
  match list_find (fun s => s.1 = "main") tree with
  | Some (_, (_, options)) =>
      match list_find (fun o => o.1 = "reposdir") options with Some (_, (_, v)) => v | None => kYumReposDir end
  | None => kYumReposDir
  end.

Definition parseYumConf (tree : option ini) (results : QueryData) : QueryData * string :=
  match tree with
  | None => (results, kYumReposDir)
  | Some tree =>
      (results ++ (yum_section ∘ snd <$> filter (fun s => s.1 <> "main") tree), repos_dir_of tree)
  end.

(** [read_ini] of a path; the directory is set again by each file, after it was used. *)
Definition genYumSrcs (read_ini : string -> M W (option ini)) : M W QueryData :=
  as_nobody
    (let* tree := read_ini "/etc/yum.conf" in
     let (results, repos_dir) := parseYumConf tree [] in
     let* (s, sources) := h_resolve (repos_dir +:+ "/%" +:+ ".repo") in
     if Status_ok s then
       for_fold sources results (fun results source => let* tree := read_ini source in ret (parseYumConf tree results).1)
     else ret results).

(** *** APT *)

Fixpoint uri_parts (comp : list string) : list string :=
  match comp with
  | [] => []
  | x :: comp => if bool_decide (first_char x = Some "#"%char) then [] else x :: uri_parts comp
  end.

Definition slash_to_underscore (c : ascii) : ascii := if bool_decide (c = "/"%char) then "_"%char else c.

(** The name of the source and of its cache file. *)
Definition apt_names (comp : list string) : option (string * string * string) :=
  match comp with
  | [] => None
  | first :: more =>
      if bool_decide (first_char first = Some "#"%char) then None
      else
        let '(uri, rest) :=
          match more with
          | second :: more' => if bool_decide (first_char first = Some "["%char) then (second, more') else (first, more)
          | [] => (first, [])
          end in
        match find_str "://" uri with
        | None => None
        | Some host =>
            let base := String.substring (host + 3) (String.length uri) uri in
            let parts := base :: uri_parts rest in
            let cache := take (length parts) (base :: "dists" :: uri_parts rest) in
            Some (uri, boost_join parts " ", of_chars (slash_to_underscore <$> chars (boost_join cache "_")))
        end
  end.

Definition apt_header_column (field : string) : option string :=
  match list_find (fun p => p.1 = field)
    [("Codename", "release"); ("Version", "version"); ("Origin", "maintainer"); ("Components", "components");
     ("Architectures", "architectures")] with
  | Some (_, (_, column)) => Some column
  | None => None
  end.

Fixpoint apt_headers (lines : list string) (r : Row) : Row :=
  match lines with
  | [] => r
  | header :: lines =>
      if is_empty header then apt_headers lines r
      else if bool_decide (header = "-----BEGIN PGP SIGNATURE-----") then r
      else match split header ":" with
           | [field; value] =>
               apt_headers lines (match apt_header_column field with Some column => <[column := value]> r | None => r end)
           | _ => apt_headers lines r
           end
  end.

Definition parseAptUrl (source line : string) (results : QueryData) : M W QueryData :=
  match apt_names (split line " ") with
  | None => ret results
  | Some (uri, name, cache_file) =>
      let r : Row := {["source" := source; "base_uri" := uri; "name" := name]} in
      let* (_, cache_files) := h_resolve ("/var/lib/apt/lists/" +:+ cache_file +:+ "_%Release") in
      match cache_files with
      | [] => ret results
      | file :: _ =>
          let* (s, content) := h_readFile file in
          ret (if Status_ok s then results ++ [apt_headers (lines_of content) r] else results)
      end
  end.

Definition apt_line (source : string) (results : QueryData) (line : string) : M W QueryData :=
  if is_empty line || starts_with "#" line then ret results
  else if starts_with "deb " line then parseAptUrl source (String.substring 4 (String.length line) line) results
  else ret results.

Definition parseAptSource (results : QueryData) (source : string) : M W QueryData :=
  let* (s, content) := h_readFile source in
  if Status_ok s then for_fold (lines_of content) results (apt_line source) else ret results.

Definition genAptSrcs : M W QueryData :=
  as_nobody
    (let* (s, sources) := h_resolve "/etc/apt/sources.list.d/%.list" in
     if Status_ok s then for_fold ("/etc/apt/sources.list" :: sources) [] parseAptSource else ret []).

(** ** Kernel settings *)

Definition kSystemControlPath : string := "/proc/sys/".

Definition dots (s : string) : string := of_chars ((fun c => if bool_decide (c = "/"%char) then "."%char else c) <$> chars s).
Definition slashes (s : string) : string := of_chars ((fun c => if bool_decide (c = "."%char) then "/"%char else c) <$> chars s).

Definition control_row (config : gmap string string) (mib_path : string) : M W Row :=
  let name := dots (String.substring (String.length kSystemControlPath) (String.length mib_path) mib_path) in
  match split name "." with
  | [] => throw AssertFailure
  | subsystem :: _ =>
      let r : Row := {["name" := name; "subsystem" := subsystem]} in
      let* readable := h_isReadable mib_path in
      let* r := (if Status_ok readable then
                   let* (_, content) := h_readFile mib_path in ret (<["current_value" := boost_trim content]> r)
                 else ret r) in
      let r := match config !! name with Some v => <["config_value" := v]> r | None => r end in
      ret (<["type" := "string"]> r)
  end.

(** The files are listed behind the directories, and both are gone through. *)
Fixpoint genControlInfo (fuel : nat) (config : gmap string string) (results : QueryData) (mib_path : string)
    : M W (option QueryData) :=
  match fuel with
  | O => ret None
  | S fuel =>
      let* d := h_isDirectory mib_path in
      if Status_ok d then
        let visit (acc : option QueryData) (item : string) : M W (option QueryData) :=
          match acc with None => ret None | Some results => genControlInfo fuel config results item end in
        let* (s1, directories) := h_listDirectories mib_path false in
        let* results := if Status_ok s1 then for_fold directories (Some results) visit else ret (Some results) in
        let* (s2, files) := h_listFiles mib_path in
        if Status_ok s2 then for_fold (directories ++ files) results visit else ret results
      else let* r := control_row config mib_path in ret (Some (results ++ [r]))
  end.

(** A line of a settings file. *)
Definition config_line (config : gmap string string) (line : string) : gmap string string :=
  let line := boost_trim line in
  if bool_decide (first_char line = Some "#"%char) || bool_decide (first_char line = Some ";"%char) then config
  else match split line "=" with
       | [k; v] => <[boost_trim k := boost_trim v]> config
       | _ => config
       end.

Definition genControlConfigFromPath (config : gmap string string) (path : string) : M W (gmap string string) :=
  let* (s, content) := h_readFile path in
  ret (if Status_ok s then foldl config_line config (lines_of content) else config).

Definition kControlSettingsFiles : list string := ["/etc/sysctl.conf"].
Definition kControlSettingsDirs : list string :=
  ["/run/sysctl.d/%.conf"; "/etc/sysctl.d/%.conf"; "/usr/local/lib/sysctl.d/%.conf"; "/usr/lib/sysctl.d/%.conf"; "/lib/sysctl.d/%.conf"].

Definition control_config : M W (gmap string string) :=
  let* config := for_fold kControlSettingsFiles ∅ genControlConfigFromPath in
  for_fold kControlSettingsDirs config (fun config dirs =>
    let* (s, configs) := h_resolve dirs in
    if Status_ok s then for_fold configs config genControlConfigFromPath else ret config).

Definition genAllControls (fuel : nat) (config : gmap string string) (subsystem : string) (results : option QueryData)
    : M W (option QueryData) :=
  let* (s, subsystems) := h_listDirectories "/proc/sys" false in
  if negb (Status_ok s) then ret results
  else for_fold subsystems results (fun results sub =>
    match results with
    | None => ret None
    | Some rows =>
        if negb (is_empty subsystem) && negb (bool_decide (h_filename sub = subsystem)) then ret (Some rows)
        else genControlInfo fuel config rows sub
    end).

Definition stringFromMIB (oid : list Z) : string :=
  foldl (fun s n => (if is_empty s then s else s +:+ ".") +:+ to_string n) "" oid.

(** Settings by number; [sysctl] gives the text of the response, or fails. *)
Definition genControlInfo_oid (sysctl : list Z -> M W (option string)) (oid : list Z) (results : QueryData) : M W QueryData :=
  let* response := sysctl oid in
  ret (match response with
       | None => results
       | Some text => results ++ [{["oid" := stringFromMIB oid; "current_value" := c_str text; "type" := "string"]}]
       end).

Definition CTL_DEBUG_MAXID : nat := 20.

(** [request[i] = atol(...)]: cut to an [int]. *)
Definition oid_number (s : string) : Z :=
  match strto 10 s with Some (neg, m) => i32 (if neg : bool then - m else m)%Z | None => 0%Z end.

Definition genControlInfoFromOIDString (sysctl : list Z -> M W (option string)) (results : QueryData) (oid_string : string) : M W QueryData :=
  let tokens := split oid_string "." in
  if (CTL_DEBUG_MAXID <? length tokens)%nat then ret results
  else genControlInfo_oid sysctl (oid_number <$> tokens) results.

Definition genControlInfoFromName (fuel : nat) (config : gmap string string) (results : option QueryData) (name : string)
    : M W (option QueryData) :=
  match results with
  | None => ret None
  | Some results => genControlInfo fuel config results (h_append kSystemControlPath (slashes name))
  end.

Definition equals_of (context : QueryContext) (column : string) : option (list string) :=
  match constraints context !! column with
  | Some l => if exists_ EQUALS l then Some (set_sorted (getAll EQUALS l)) else None
  | None => None
  end.

Definition genSystemControls (fuel : nat) (sysctl : list Z -> M W (option string)) (context : QueryContext) : M W (option QueryData) :=
  let* config := control_config in
  match equals_of context "name" with
  | Some names => for_fold names (Some []) (genControlInfoFromName fuel config)
  | None =>
      match equals_of context "oid" with
      | Some oids => let* rows := for_fold oids [] (genControlInfoFromOIDString sysctl) in ret (Some rows)
      | None =>
          match equals_of context "subsystem" with
          | Some subsystems => for_fold subsystems (Some []) (fun results s => genAllControls fuel config s results)
          | None => genAllControls fuel config "" (Some [])
          end
      end
  end.
End Packages.

(** * Facts about the tables of text files

    What is written in a file is what the rows say, for hosts, cron tables and histories;
    the files of a user are only read with the privileges of that user, those of bash
    sessions are not. A query for processes gets none, every search domain is shown as
    the first, and a kernel setting is listed twice for every directory above it. *)

(** ** Words and lines *)

Section Words.
Context {B : Boost} {BL : BoostLaws B}.

(** A word: no character of the set, no blank at its ends, not empty. *)
Record word (set s : string) : Prop := {
  word_nonempty : s <> "";
  word_trimmed : trimmed s;
  word_chars : all_chars (negb ∘ is_any_of set) s = true;
}.

(** Words that are joined by a delimiter of the set are found again. *)
Lemma split_words set d l : d ∈ chars set -> Forall (word set) l -> split (boost_join l (String d "")) set = l.
Proof.
  intros Hd Hl. unfold split.
  assert (l <> [] -> boost_split (is_any_of set) (boost_join l (String d "")) = l) as Hs.
  { clear -Hd Hl BL. induction Hl as [|a l Ha Hl IH]; [done|]. intros _. destruct l as [|b l].
    - rewrite join_one. apply split_no_delim, word_chars, Ha.
    - rewrite join_cons. change (String d "" +:+ boost_join (b :: l) (String d "")) with (String d (boost_join (b :: l) (String d ""))).
      rewrite split_delim; [f_equal; by apply IH | by apply word_chars, Ha | by apply bool_decide_true]. }
  destruct l as [|a l]; [by rewrite join_nil, split_no_delim|]. rewrite Hs by done. rewrite filter_all.
  - rewrite <- (list_fmap_id (a :: l)) at 2. apply list_fmap_ext. intros i x Hx.
    apply (Forall_lookup_1 _ _ _ _ Hl) in Hx. by apply trim_id, (word_trimmed set).
  - eapply Forall_impl; [exact Hl|]. intros x [Hne _ _]. by destruct x.
Qed.

(** Lines that are joined by newlines are found again. *)
Lemma lines_join l : Forall (word newline) l -> lines_of (boost_join l newline) = l.
Proof. intros Hl. apply split_words; [by left | done]. Qed.

Lemma trimmed_join set l d : l <> [] -> Forall (word set) l -> trimmed (boost_join l (String d "")) /\ boost_join l (String d "") <> "".
Proof.
  intros Hne Hl. induction Hl as [|a l Ha Hl IH]; [done|]. destruct l as [|b l].
  - rewrite join_one. split; [by apply (word_trimmed set) | by apply (word_nonempty set)].
  - destruct IH as [Ht Hn]; [done|]. rewrite join_cons. split.
    + apply trimmed_app; [by apply (word_trimmed set) | done | by apply (word_nonempty set) | done].
    + destruct a; [by destruct (word_nonempty _ _ Ha)|]. done.
Qed.

Lemma all_chars_join p l d : Forall (fun s => all_chars p s = true) l -> p d = true -> all_chars p (boost_join l (String d "")) = true.
Proof.
  intros Hl Hd. induction Hl as [|a l Ha Hl IH]; [by rewrite join_nil|]. destruct l as [|b l]; [by rewrite join_one|].
  rewrite join_cons, !all_chars_app, Ha, IH. cbn. by rewrite Hd.
Qed.

(** Words of a line with single blanks between them make a line. *)
Lemma line_of_words l : l <> [] -> Forall (word blanks) l -> Forall (fun s => all_chars (negb ∘ is_any_of newline) s = true) l ->
  word newline (boost_join l " ") /\ split (boost_join l " ") blanks = l.
Proof.
  intros Hne Hl Hn. destruct (trimmed_join blanks l " " Hne Hl) as [Ht Hx]. split.
  - split; [done | done|]. by apply all_chars_join.
  - apply split_words; [right; left | done].
Qed.

(** ** Hosts *)

(** An entry of a hosts file: an address, names and perhaps a comment behind them. *)
Record host_entry := mkHostEntry { he_address : string; he_names : list string; he_comment : option string }.

Definition plain_word (s : string) : Prop :=
  word blanks s /\ all_chars (negb ∘ is_any_of newline) s = true /\ starts_with "#" s = false.

Record host_entry_ok (e : host_entry) : Prop := {
  he_address_ok : plain_word (he_address e);
  he_names_ok : Forall plain_word (he_names e);
  he_some : he_names e <> [];
  he_comment_ok : forall c, he_comment e = Some c -> word blanks (String "#" c) /\ all_chars (negb ∘ is_any_of newline) (String "#" c) = true;
}.

Definition host_line (e : host_entry) : string :=
  boost_join (he_address e :: he_names e ++ option_list (String "#" <$> he_comment e)) " ".

Lemma until_comment_words l c : Forall plain_word l -> until_comment (l ++ option_list (String "#" <$> c)) = l.
Proof.
  induction 1 as [|x l (_ & _ & Hx) Hl IH]; [by destruct c as [[]|]|]. cbn [app until_comment]. by rewrite Hx, IH.
Qed.

Lemma host_line_row e : host_entry_ok e ->
  word newline (host_line e) /\
  host_row (host_line e) = Some {["address" := he_address e; "hostnames" := boost_join (he_names e) " "]}.
Proof.
  intros [Ha Hn Hs Hc]. unfold host_line.
  assert (Forall (fun s => word blanks s /\ all_chars (negb ∘ is_any_of newline) s = true)
    (he_address e :: he_names e ++ option_list (String "#" <$> he_comment e))) as Hw.
  { constructor; [by destruct Ha as (? & ? & _)|]. apply Forall_app. split.
    - eapply Forall_impl; [exact Hn|]. by intros x (? & ? & _).
    - destruct (he_comment e); [|done]. apply Forall_singleton. by apply Hc. }
  apply Forall_and in Hw as [Hw1 Hw2]. pose proof (fun Hne => line_of_words _ Hne Hw1 Hw2) as [Hl Hsp]; [done|]. split; [done|].
  unfold host_row. rewrite Hsp. destruct Ha as (_ & _ & ->). f_equal.
  rewrite until_comment_words by done. by destruct (he_names e).
Qed.

(** A hosts file, with comments behind the names or without, gives for every entry its
    address and its names. *)
Theorem hosts_file_is_read_back es : Forall host_entry_ok es ->
  parseEtcHostsContent (boost_join (host_line <$> es) newline) =
  (fun e => {["address" := he_address e; "hostnames" := boost_join (he_names e) " "]}) <$> es.
Proof.
  intros Hes. unfold parseEtcHostsContent. rewrite lines_join.
  - induction Hes as [|e es He Hes IH]; [done|]. cbn [fmap list_fmap omap list_omap].
    destruct (host_line_row e He) as [_ ->]. by rewrite IH.
  - apply Forall_fmap. eapply Forall_impl; [exact Hes|]. intros e He. by apply host_line_row.
Qed.

(** ** Cron *)

(** A line of a cron table: the fields in order, and the words of the command with single
    blanks between them. *)
Theorem cron_line_is_read_back path minute hour dom month dow c command :
  Forall (word (String " " (String "009" ""))) ([minute; hour; dom; month; dow; c] ++ command) ->
  first_char minute <> Some "@"%char ->
  genCronLine path (boost_join ([minute; hour; dom; month; dow; c] ++ command) " ") =
  Ok (Some {["command" := boost_join (c :: command) " "; "day_of_week" := dow; "month" := month; "day_of_month" := dom;
             "hour" := hour; "minute" := minute; "path" := path]}).
Proof.
  intros Hw Hm. unfold genCronLine. rewrite split_words by (by left || done).
  assert (forall l r x, r !! "command" = Some x -> x <> "" -> forall n, (6 <= n)%nat ->
    cron_columns l n r = Ok (<["command" := boost_join (x :: l) " "]> r)) as Hrest.
  { induction l as [|y l IH]; intros r x Hx Hne n Hn; cbn [cron_columns].
    - rewrite join_one. f_equal. apply map_eq. intros k. destruct (decide (k = "command")) as [->|];
        [by rewrite lookup_insert_eq | by rewrite lookup_insert_ne].
    - destruct n as [|[|[|[|[|[|n]]]]]]; try lia. cbn [Nat.eqb Nat.ltb Nat.leb]. rewrite Hx. cbn [default].
      rewrite (IH _ (x +:+ " " +:+ y)); [|by rewrite lookup_insert_eq | by destruct x | lia].
      rewrite insert_insert_eq. do 2 f_equal. destruct l as [|z l]; rewrite ?join_cons, ?join_one; [done|].
      by rewrite !app_assoc_str. }
  apply Forall_app in Hw as [Hw _]. assert (Forall (fun s => s <> "") [minute; hour; dom; month; dow; c]) as Hne.
  { eapply Forall_impl; [exact Hw|]. by intros x [? _ _]. }
  rewrite !Forall_cons in Hne. destruct Hne as (Hmin & _ & _ & _ & _ & Hc & _).
  cbn [app cron_columns Nat.eqb Nat.ltb Nat.leb cron_field]. destruct minute as [|ch minute]; [done|]. cbn [first_char] in *.
  rewrite bool_decide_false by congruence.
  erewrite Hrest; [|apply lookup_insert_eq | done | lia]. rewrite lookup_insert_eq. cbn [default].
  rewrite insert_insert_eq. unfold id.
  assert (is_empty (boost_join (c :: command) " ") = false) as ->.
  { destruct command; rewrite ?join_one, ?join_cons; destruct c; done. }
  done.
Qed.

(** ** Histories *)

(** A history of bash with times: each command follows its time. *)
Definition history_text (l : list (string * string)) : list string :=
  concat ((fun e => [String "#" e.1; e.2]) <$> l).

(** Every command gets the time before it, also one that looks like a time itself. *)
Theorem timed_history_is_read_back uid file l :
  Forall (fun e => e.1 <> "" /\ all_digits e.1 = true /\ word newline e.2) l ->
  history_rows uid file "" (lines_of (boost_join (history_text l) newline)) = (fun e => history_row uid file e.1 e.2) <$> l.
Proof.
  intros Hl. rewrite lines_join.
  - induction Hl as [|[time command] l (Hne & Hd & Hw) Hl IH]; [done|]. cbn [fst snd] in *.
    cbn [history_text fmap list_fmap concat app history_rows is_empty bash_timestamp fst snd].
    rewrite bool_decide_true by done. assert (is_empty time = false) as He by (by destruct time).
    rewrite He, Hd. cbn [andb negb]. rewrite He. cbn [negb]. f_equal. exact IH.
  - unfold history_text. induction Hl as [|[time command] l (Hne & Hd & Hw) Hl IH]; [done|]. cbn.
    constructor; [|constructor; [done|exact IH]]. cbn [fst] in *.
    assert (word newline time) as Ht.
    { destruct (token_digits "010" time) as (? & ? & ?); [done..|]. by split. }
    split; [done| |]. 
    + destruct Ht as [_ [_ Hr] _]. split; [intros ch r E; by simplify_eq/=|]. intros r ch E.
      destruct r as [|c' r]; [destruct time; [done|]; by simplify_eq|]. rewrite app_cons_str in E. simplify_eq. by eapply Hr.
    + cbn. by apply word_chars in Ht.
Qed.
End Words.

(** ** Who reads *)

(** The reads so far, each with the effective user and group it was made with. Reading and
    selecting leave the credentials, and the calls on credentials read nothing. *)
Class TableHostLaws (W : Type) {H : TableHost W} {CR : Credentials W} {CL : CredentialsLaws W} := {
  reads : W -> list (Z * Z * string);
  h_forensicReadFile_law p w : exists r w', h_forensicReadFile p w = (Ok r, w') /\
    creds_of w' = creds_of w /\ reads w' = reads w ++ [(euid w, egid w, p)];
  setgroups_reads l : untouched_by reads (cr_setgroups l);
  setgid_reads g : untouched_by reads (cr_seteffective_gid g);
  setuid_reads u : untouched_by reads (cr_seteffective_uid u);
  h_select_law table c w : exists rows w', h_select table c w = (Ok rows, w') /\ creds_of w' = creds_of w /\ reads w' = reads w;
  h_getuid_law w : exists z, h_getuid w = (Ok z, w);
  h_pathExists_law p w : exists st, h_pathExists p w = (Ok st, w);
  h_resolve_law p w : exists r, h_resolve p w = (Ok r, w);
}.

Section Reads.
Context {W : Type} {H : TableHost W} {CR : Credentials W} {CL : CredentialsLaws W} {L : TableHostLaws W} {B : Boost}.
Abbreviation read := (Z * Z * string)%type.

(** [m] returns, leaves the credentials as they are and makes only reads that [Q] allows,
    given the effective user and group it runs with. *)
Definition reads_only {A} (Q : Z * Z -> read -> Prop) (m : M W A) : Prop :=
  forall w, exists a w' l, m w = (Ok a, w') /\ creds_of w' = creds_of w /\ reads w' = reads w ++ l /\ Forall (Q (euid w, egid w)) l.

Lemma same_effective w w' : creds_of w' = creds_of w -> euid w' = euid w /\ egid w' = egid w /\ (own_identity w -> own_identity w').
Proof. intros [= H1 H2 H3 H4 H5]. unfold own_identity. split_and!; [done..|]. intros []. split; congruence. Qed.

Lemma reads_ret {A} Q (a : A) : reads_only Q (ret a).
Proof. intros w. exists a, w, []. by rewrite app_nil_r. Qed.

Lemma reads_bind {A C} Q (m : M W A) (k : A -> M W C) :
  reads_only Q m -> (forall a, reads_only Q (k a)) -> reads_only Q (bind m k).
Proof.
  intros Hm Hk w. destruct (Hm w) as (a & w1 & l1 & E1 & O1 & R1 & F1). destruct (Hk a w1) as (c & w2 & l2 & E2 & O2 & R2 & F2).
  exists c, w2, (l1 ++ l2). rewrite (bind_run _ _ _ _ _ E1), E2. split; [done|]. split; [congruence|].
  split; [by rewrite R2, R1, app_assoc|]. apply Forall_app. split; [done|].
  destruct (same_effective _ _ O1) as (<- & <- & _). done.
Qed.

Lemma reads_for_fold {A C} Q (l : list A) (acc : C) (f : C -> A -> M W C) :
  (forall acc x, x ∈ l -> reads_only Q (f acc x)) -> reads_only Q (for_fold l acc f).
Proof.
  revert acc. induction l as [|x l IH]; intros acc Hf; cbn [for_fold]; [apply reads_ret|].
  apply reads_bind; [apply Hf; left|]. intros c. apply IH. intros acc' y Hy. apply Hf. by right.
Qed.

Lemma reads_forensic Q p : (forall o, Q o (o, p)) -> reads_only Q (h_forensicReadFile p).
Proof.
  intros HQ w. destruct (h_forensicReadFile_law p w) as (r & w' & E & O & R).
  exists r, w', [(euid w, egid w, p)]. split; [done|]. split; [done|]. split; [done|]. by apply Forall_singleton.
Qed.

Lemma reads_select Q table c : reads_only Q (h_select table c).
Proof.
  intros w. destruct (h_select_law table c w) as (r & w' & E & O & R). exists r, w', []. by rewrite app_nil_r.
Qed.

Lemma reads_users Q context all : reads_only Q (usersFromContext context all).
Proof.
  unfold usersFromContext, fromContext. destruct (hasConstraint _ _ _).
  - apply reads_for_fold. intros acc x _. apply reads_bind; [apply reads_select|]. intros r. apply reads_ret.
  - destruct all; [apply reads_select|]. apply reads_bind; [|intros; apply reads_select].
    intros w. destruct (h_getuid_law w) as [z E]. exists z, w, []. by rewrite app_nil_r.
Qed.

(** A read made as the user the texts name. *)
Definition made_as (uid gid : string) (r : read) : Prop := tryTo TUInt uid 10 = inl r.1.1 /\ tryTo TUInt gid 10 = inl r.1.2.

(** A read of a file of the directory, as the user. *)
Definition reads_as (uid gid directory : string) (files : list string) (r : read) : Prop :=
  made_as uid gid r /\ exists f, f ∈ files /\ r.2 = h_append directory f.

(** The process is who it was, and not somebody else for a while. *)
Definition itself (w w' : W) : Prop := own_identity w' /\ ruid w' = ruid w /\ rgid w' = rgid w.

(** Whatever is done as a user, by a process with its own identity, is read as the user. *)
Lemma as_user_reads uid gid results m (P : string -> Prop) :
  reads_only (fun o r => r.1 = o /\ P r.2) m ->
  forall w, own_identity w -> exists rows w' l, as_user uid gid results m w = (Ok rows, w') /\ itself w w' /\
    reads w' = reads w ++ l /\ Forall (fun r => made_as uid gid r /\ P r.2) l.
Proof.
  intros Hm w Hw. unfold as_user, dropTo_text. unfold made_as.
  destruct (tryTo TUInt uid 10) as [u|]; [destruct (tryTo TUInt gid 10) as [g|]|].
  2, 3: exists results, w, []; rewrite app_nil_r; split; [reflexivity | by split_and!].
  destruct (with_handle_run reads setgroups_reads setgid_reads setuid_reads u g (fun b : bool => if b then m else ret results) w
    (fun _ w1 w2 => exists l, reads w2 = reads w1 ++ l /\ Forall (fun r => r.1 = (u, g) /\ P r.2) l) Hw)
    as (rows & w1 & w2 & w' & E & F1 & (l & R & F) & F2 & Ho & Hru & Hrg).
  - intros [] w1 _ Hb.
    + destruct (Hm w1) as (a & w2 & l & E2 & O2 & R2 & F2). destruct (Hb eq_refl) as [H1 H2]. rewrite H1, H2 in F2.
      exists a, w2. split; [done|]. split; [done|]. by exists l.
    + exists results, w1. do 2 (split; [done|]). exists []. by rewrite app_nil_r.
  - exists rows, w', l. split; [exact E|]. split; [by split_and!|]. split; [by rewrite F2, R, F1|].
    eapply Forall_impl; [exact F|]. intros [[a b] p] [[= -> ->] ?]. done.
Qed.

Lemma key_files_read uid directory results files :
  reads_only (fun o r => r.1 = o /\ exists f, f ∈ files /\ r.2 = h_append directory f)
    (for_fold files results (key_file uid directory)).
Proof.
  apply reads_for_fold. intros acc f Hf. unfold key_file.
  apply reads_bind; [|intros [s content]; apply reads_ret]. apply reads_forensic. intros o. cbn. eauto.
Qed.

(** The loop over users: every read is one a user's function makes. *)
Lemma for_users_reads f (Q : string -> string -> string -> read -> Prop) users :
  (forall uid gid directory results w, own_identity w ->
     exists rows w' l, f uid gid directory results w = (Ok rows, w') /\ itself w w' /\
       reads w' = reads w ++ l /\ Forall (Q uid gid directory) l) ->
  forall w, own_identity w ->
  exists rows w' l, for_users users f w = (Ok rows, w') /\ itself w w' /\ reads w' = reads w ++ l /\
    Forall (fun r => exists row uid gid directory, row ∈ users /\ row !! "uid" = Some uid /\ row !! "gid" = Some gid /\
                     row !! "directory" = Some directory /\ Q uid gid directory r) l.
Proof.
  intros Hf. unfold for_users. generalize ([] : QueryData). induction users as [|row users IH]; intros acc w Hw; cbn [for_fold].
  { exists acc, w, []. rewrite app_nil_r. by split_and!. }
  assert (exists rows w1 l1, (match row !! "uid", row !! "gid", row !! "directory" with
      | Some uid, Some gid, Some directory => f uid gid directory acc | _, _, _ => ret acc end) w = (Ok rows, w1) /\
    itself w w1 /\ reads w1 = reads w ++ l1 /\
    Forall (fun r => exists uid gid directory, row !! "uid" = Some uid /\ row !! "gid" = Some gid /\
                     row !! "directory" = Some directory /\ Q uid gid directory r) l1) as (rows & w1 & l1 & E1 & O1 & R1 & F1).
  { destruct (row !! "uid") as [uid|], (row !! "gid") as [gid|], (row !! "directory") as [directory|];
      try (exists acc, w, []; rewrite app_nil_r; by split_and!).
    destruct (Hf uid gid directory acc w Hw) as (rows & w1 & l1 & E1 & O1 & R1 & F1).
    exists rows, w1, l1. split; [done|]. split; [done|]. split; [done|].
    eapply Forall_impl; [exact F1|]. intros r Hr. by exists uid, gid, directory. }
  rewrite (bind_run _ _ _ _ _ E1). destruct (IH rows w1 (proj1 O1)) as (rows' & w2 & l2 & E2 & O2 & R2 & F2).
  exists rows', w2, (l1 ++ l2). split; [done|]. split; [destruct O1 as (? & ? & ?), O2 as (? & ? & ?); split_and!; congruence|]. split; [by rewrite R2, R1, app_assoc|]. apply Forall_app. split.
  - eapply Forall_impl; [exact F1|]. intros r (uid & gid & dir & ? & ? & ? & ?). exists row, uid, gid, dir. split; [left|done].
  - eapply Forall_impl; [exact F2|]. intros r (row' & uid & gid & dir & ? & ?). exists row', uid, gid, dir. split; [by right|done].
Qed.

(** C36: A process that runs as itself reads the keys of users with the effective user and
    group of the user they belong to, and reads no other file for them; afterwards its
    effective user and group are its own again. This holds whoever the process is, and
    whether or not it may become the user. (Its supplementary groups may have changed.) *)
Theorem keys_are_read_as_their_owner context w :
  own_identity w ->
  exists users w1 rows w' l, usersFromContext context false w = (Ok users, w1) /\
    getAuthorizedKeys context w = (Ok rows, w') /\ own_identity w' /\ ruid w' = ruid w /\ rgid w' = rgid w /\
    reads w' = reads w ++ l /\
    Forall (fun r => exists user uid gid directory f u g, user ∈ users /\ user !! "uid" = Some uid /\ user !! "gid" = Some gid /\
      user !! "directory" = Some directory /\ tryTo TUInt uid 10 = inl u /\ tryTo TUInt gid 10 = inl g /\
      r = (u, g, h_append directory f) /\ f ∈ kSSHAuthorizedkeys) l.
Proof.
  intros Hw. unfold getAuthorizedKeys.
  destruct (reads_users (fun _ _ => False) context false w) as (users & w1 & l1 & E1 & O1 & R1 & F1).
  exists users, w1. rewrite (bind_run _ _ _ _ _ E1). assert (l1 = []) as -> by (by destruct F1).
  destruct (for_users_reads genSSHkeysForUser (fun uid gid dir => reads_as uid gid dir kSSHAuthorizedkeys) users) with (w := w1)
    as (rows & w2 & l2 & E2 & O2 & R2 & F2).
  - intros uid gid dir results w' Hw'.
    apply (as_user_reads uid gid results _ (fun p => exists f, f ∈ kSSHAuthorizedkeys /\ p = h_append dir f)); [|done].
    apply key_files_read.
  - by eapply same_effective.
  - exists rows, w2, l2. destruct O2 as (O2 & Hru & Hrg). injection O1 as C1 C2 C3 C4 C5.
    do 3 (split; [done|]). split; [congruence|]. split; [congruence|]. split; [by rewrite R2, R1, app_nil_r|].
    eapply Forall_impl; [exact F2|]. intros [[u g] p] (row & uid & gid & dir & Hr & Hu & Hg & Hd & [Hou Hog] & f & Hf & Hp).
    exists row, uid, gid, dir, f, u, g. cbn in Hou, Hog, Hp. by subst.
Qed.

(** The histories of bash sessions, in a directory of the user, are read with the
    effective user and group of the process. *)
Theorem sessions_are_read_by_the_process uid directory results st files w :
  h_pathExists (h_append directory ".bash_sessions") w = (Ok st, w) -> Status_ok st = true ->
  h_resolve (h_append (h_append directory ".bash_sessions") "*.history") w = (Ok files, w) ->
  exists rows w', genShellHistoryFromBashSessions uid directory results w = (Ok rows, w') /\
    reads w' = reads w ++ (pair (euid w, egid w) <$> files.2).
Proof.
  intros Ep Hst Er. unfold genShellHistoryFromBashSessions. rewrite (bind_run _ _ _ _ _ Ep), Hst, (bind_run _ _ _ _ _ Er).
  destruct files as [s files]. cbn [snd]. clear Ep Er. revert results w.
  induction files as [|f files IH]; intros results w; cbn [for_fold fmap list_fmap].
  { exists results, w. by rewrite app_nil_r. }
  destruct (h_forensicReadFile_law f w) as ([s' content] & w1 & E1 & O1 & R1).
  unfold genShellHistoryFromFile at 1. rewrite (bind_run _ _ _ _ _ (bind_run _ _ _ _ _ E1)).
  destruct (IH (if Status_ok s' then results ++ history_rows uid f "" (lines_of content) else results) w1) as (rows & w2 & E2 & R2).
  exists rows, w2. split; [exact E2|]. destruct (same_effective _ _ O1) as (-> & -> & _) in R2. by rewrite R2, R1, <- app_assoc.
Qed.
End Reads.

(** ** What does not work *)

Section Lost.
Context {W : Type} {H : TableHost W}.
Context (select_law : forall table c w, exists rows w', h_select table c w = (Ok rows, w')).

(** A query for processes by their ids gets no process at all. *)
Theorem pids_of_a_constraint_are_lost context all w :
  hasConstraint "pid" EQUALS context = true -> exists w', pidsFromContext context all w = (Ok [], w').
Proof.
  intros Hc. unfold pidsFromContext, fromContext. rewrite Hc. generalize (iteritems "pid" EQUALS context). intros l. revert w.
  induction l as [|x l IH]; intros w; cbn [for_fold]; [by exists w|].
  destruct (select_law "processes" (Some ("pid", x)) w) as (rows & w1 & E1).
  rewrite (bind_run _ _ _ [] w1); [apply IH|]. by rewrite (bind_run _ _ _ _ _ E1).
Qed.
End Lost.

(** Every search domain is shown as the first one. *)
Lemma search_rows_first first options i l : exists rows,
  search_rows (Some first) options i l = Ok rows /\ length rows = length (filter is_Some l) /\
  Forall (fun r : Row => r !! "address" = Some first) rows.
Proof.
  revert i. induction l as [|[d|] l IH]; intros i; cbn [search_rows].
  - by exists [].
  - destruct (IH (S i)) as (rows & -> & Hlen & Hf). eexists. split; [reflexivity|]. rewrite filter_cons_True by done.
    split; [cbn; by rewrite Hlen|]. constructor; [done|done].
  - destruct (IH (S i)) as (rows & -> & Hlen & Hf). exists rows. rewrite filter_cons_False; [done|]. by intros [].
Qed.

Theorem search_domains_are_the_first_one r first rest :
  dnsrch r = Some first :: rest -> exists rows search,
  genDNSResolvers (Some r) = Ok (rows ++ search) /\ length search = length (filter is_Some (dnsrch r)) /\
  Forall (fun r : Row => r !! "address" = Some first) search.
Proof.
  intros E. unfold genDNSResolvers. assert (mjoin (dnsrch r !! 0%nat) = Some first) as -> by (by rewrite E).
  destruct (search_rows_first first (res_options r) 0 (dnsrch r)) as (search & -> & Hlen & Hf).
  eexists _, search. split; [by rewrite app_assoc|]. done.
Qed.

Section Controls.
Context {W : Type} {H : TableHost W} {B : Boost} (w : W).

(** A chain of [n] directories above a directory with one setting in it. *)
Context (n : nat) (chain : nat -> string) (leaf : string) (config : gmap string string) (row : Row).
Context (is_dir : forall i, (i <= n)%nat -> h_isDirectory (chain i) w = (Ok (mkStatus 0 "OK"), w)).
Context (leaf_file : h_isDirectory leaf w = (Ok (mkStatus 1 "not a directory"), w)).
Context (below : forall i, (i < n)%nat -> h_listDirectories (chain i) false w = (Ok (mkStatus 0 "OK", [chain (S i)]), w) /\
                                       h_listFiles (chain i) w = (Ok (mkStatus 0 "OK", []), w)).
Context (bottom : h_listDirectories (chain n) false w = (Ok (mkStatus 0 "OK", []), w) /\
                  h_listFiles (chain n) w = (Ok (mkStatus 0 "OK", [leaf]), w)).
Context (leaf_row : control_row config leaf w = (Ok row, w)).

Lemma chain_rows fuel k results : (k <= n)%nat -> (k + 1 < fuel)%nat ->
  genControlInfo fuel config results (chain (n - k)) w = (Ok (Some (results ++ replicate (2 ^ k) row)), w).
Proof.
  revert k results. induction fuel as [|fuel IH]; intros k results Hk Hf; [lia|].
  cbn [genControlInfo]. rewrite (bind_run _ _ _ _ _ (is_dir (n - k) ltac:(lia))). cbn [Status_ok code Z.eqb]. cbv zeta.
  destruct k as [|k].
  - rewrite Nat.sub_0_r. destruct bottom as [Ed Ef]. rewrite (bind_run _ _ _ _ _ Ed). cbn [Status_ok code Z.eqb for_fold].
    unfold bind at 1, ret at 1. rewrite (bind_run _ _ _ _ _ Ef). cbn [Status_ok code Z.eqb app for_fold].
    destruct fuel as [|fuel]; [lia|]. cbn [genControlInfo]. rewrite (bind_run _ _ _ (Some (results ++ [row])) w); [done|].
    rewrite (bind_run _ _ _ _ _ leaf_file). cbn [Status_ok code Z.eqb]. by rewrite (bind_run _ _ _ _ _ leaf_row).
  - replace (n - S k)%nat with (Nat.pred (n - k)) by lia.
    destruct (below (Nat.pred (n - k)) ltac:(lia)) as [Ed Ef]. replace (S (Nat.pred (n - k))) with (n - k)%nat in * by lia.
    rewrite (bind_run _ _ _ _ _ Ed). cbn [Status_ok code Z.eqb for_fold].
    rewrite (bind_run _ _ _ (Some (results ++ replicate (2 ^ k) row)) w).
    2: { rewrite (bind_run _ _ _ (Some (results ++ replicate (2 ^ k) row)) w); [done|]. apply IH; lia. }
    rewrite (bind_run _ _ _ _ _ Ef). cbn [Status_ok code Z.eqb app for_fold].
    rewrite (bind_run _ _ _ (Some ((results ++ replicate (2 ^ k) row) ++ replicate (2 ^ k) row)) w) by (apply IH; lia).
    unfold ret. rewrite <- app_assoc, <- replicate_add.
    replace (2 ^ S k)%nat with (2 ^ k + 2 ^ k)%nat by (cbn; lia). done.
Qed.

(** A setting below [n] nested directories is listed 2^n times. *)
Theorem nested_setting_is_listed_again fuel : (n + 1 < fuel)%nat ->
  genControlInfo fuel config [] (chain 0) w = (Ok (Some (replicate (2 ^ n) row)), w).
Proof.
  intros Hf. pose proof (chain_rows fuel n [] ltac:(lia) ltac:(lia)) as E. by rewrite Nat.sub_diag in E.
Qed.
End Controls.

(** ** At a concrete input *)

(** A process with its credentials and the reads it made, on a host with one user. *)
Record proc := mkProc { p_ruid : Z; p_rgid : Z; p_euid : Z; p_egid : Z; p_groups : list Z; p_reads : list (Z * Z * string) }.

#[local] Instance proc_credentials : Credentials proc := {|
  cr_getuid := gets p_ruid; cr_getgid := gets p_rgid; cr_geteuid := gets p_euid; cr_getegid := gets p_egid;
  cr_getgroups := gets p_groups;
  cr_setgroups l := fun c =>
    if (p_euid c =? 0)%Z then (Ok true, mkProc (p_ruid c) (p_rgid c) (p_euid c) (p_egid c) l (p_reads c)) else (Ok false, c);
  cr_seteffective_gid g := fun c =>
    if (p_euid c =? 0)%Z || (g =? p_rgid c)%Z then (Ok true, mkProc (p_ruid c) (p_rgid c) (p_euid c) g (p_groups c) (p_reads c)) else (Ok false, c);
  cr_seteffective_uid u := fun c =>
    if (p_euid c =? 0)%Z || (u =? p_ruid c)%Z then (Ok true, mkProc (p_ruid c) (p_rgid c) u (p_egid c) (p_groups c) (p_reads c)) else (Ok false, c) |}.

#[local] Instance proc_credentials_laws : CredentialsLaws proc.
Proof.
  refine {| ruid := p_ruid; rgid := p_rgid; euid := p_euid; egid := p_egid; groups := p_groups |}; try done.
  - intros w l. cbn. destruct (Z.eqb_spec (p_euid w) 0); by eexists _, _.
  - intros w g. cbn. destruct (Z.eqb_spec (p_euid w) 0), (Z.eqb_spec g (p_rgid w)); eexists _, _; cbn; split_and!; done || tauto.
  - intros w u. cbn. destruct (Z.eqb_spec (p_euid w) 0), (Z.eqb_spec u (p_ruid w)); eexists _, _; cbn; split_and!; done || tauto.
Defined.

Definition one_user : Row := list_to_map [("uid", "1000"); ("gid", "1000"); ("directory", "/home/a")].

#[local] Instance one_user_host : TableHost proc := {|
  h_readFile _ := ret (Status1 1, ""); h_isReadable _ := ret (Status1 0); h_isDirectory _ := ret (Status1 1);
  h_forensicReadFile p := fun w => (Ok (Status1 0, "ssh-rsa AAAA"),
    mkProc (p_ruid w) (p_rgid w) (p_euid w) (p_egid w) (p_groups w) (p_reads w ++ [(p_euid w, p_egid w, p)]));
  h_pathExists _ := ret (Status1 0); h_listFiles _ := ret (Status1 0, []); h_listDirectories _ _ := ret (Status1 0, []);
  h_resolve _ := ret (Status1 0, []); h_select _ _ := ret [one_user]; h_getuid := ret 0%Z; h_getpid := ret 1%Z;
  h_append a b := a +:+ "/" +:+ b; h_filename p := p |}.
#[local] Instance one_user_laws : TableHostLaws proc.
Proof.
  apply (Build_TableHostLaws _ one_user_host proc_credentials proc_credentials_laws p_reads).
  - intros p w. by eexists _, _.
  - intros l w b w'. cbn. destruct (_ =? _)%Z; by intros [= _ <-].
  - intros g w b w'. cbn. destruct (_ || _); by intros [= _ <-].
  - intros u w b w'. cbn. destruct (_ || _); by intros [= _ <-].
  - intros table c w. by eexists _, _.
  - intros w. by eexists _.
  - intros p w. by eexists _.
  - intros p w. by eexists _.
Defined.

Definition root_process : proc := mkProc 0 0 0 0 [0%Z; 27%Z] [].

Lemma keys_are_read_as_their_owner_witness :
  exists users w1 rows w' l, usersFromContext QueryContext_new false root_process = (Ok users, w1) /\
    getAuthorizedKeys QueryContext_new root_process = (Ok rows, w') /\ own_identity w' /\
    ruid w' = ruid root_process /\ rgid w' = rgid root_process /\ reads w' = reads root_process ++ l /\
    Forall (fun r => exists user uid gid directory f u g, user ∈ users /\ user !! "uid" = Some uid /\ user !! "gid" = Some gid /\
      user !! "directory" = Some directory /\ tryTo TUInt uid 10 = inl u /\ tryTo TUInt gid 10 = inl g /\
      r = (u, g, h_append directory f) /\ f ∈ kSSHAuthorizedkeys) l.
Proof. by apply (keys_are_read_as_their_owner QueryContext_new root_process). Defined.

Example keys_of_the_user_are_read :
  reads (getAuthorizedKeys QueryContext_new root_process).2 =
  (fun f => (1000%Z, 1000%Z, "/home/a/" +:+ f)) <$> kSSHAuthorizedkeys.
Proof. vm_compute. reflexivity. Qed.
