(* ===== verification/Printer.v ===== *)
(** * Printing results on a terminal (osquery/devtools/printer.cpp)

    The table the shell draws around the rows of a query and its JSON output. Two variables
    of the file outlive a call, [kOffset] and [kToken]; they are the state. [enhance] is
    whether the environment variable ENHANCE is set. A string longer than a string can be
    ([std::length_error], which nothing catches) is [None]. *)
From S2P Require Import Prelude Boost Conversions Json Database Query.

(** [utf8StringSize] returns for every string ([utf8_total] below). *)
Definition utf8 (s : string) : Z := Z.of_nat (default 0%nat (utf8StringSize s)).

(** [char] arithmetic. *)
Definition char_wrap (z : Z) : Z := (z + 128) mod 256 - 128.
Definition byte (z : Z) : ascii := Ascii.ascii_of_nat (Z.to_nat (z mod 256)).

Record Printer := mkPrinter { kOffset0 : Z; kOffset1 : Z; kToken : string }.
Definition printer_init : Printer := mkPrinter 0 0 "|".

(** [std::string(n, c)]: [n] is a [size_t]. *)
Definition max_size : Z := 2 ^ 63 - 1.
Definition fill (n : Z) (c : ascii) : option string :=
  if (max_size <? u64 n)%Z then None else Some (of_chars (replicate (Z.to_nat (u64 n)) c)).

(** One turn of the loop under ENHANCE: the third and fourth byte of [e]. *)
Definition enhance_step (st : Printer * Z * Z) : Printer * Z * Z * string :=
  let '(p, e2, _) := st in
  let e3 := char_wrap (-116 + kOffset0 p) in
  let p := mkPrinter (char_wrap (kOffset0 p + 1)) (kOffset1 p) (kToken p) in
  let '(p, e2, e3) :=
    if (e3 =? -65)%Z then
      let k1 := if ((3 <? kOffset1 p) && (kOffset1 p <? 8))%Z then 9%Z else kOffset1 p in
      let k1 := char_wrap (k1 + 1) in
      (mkPrinter 0 k1 (kToken p), char_wrap (-112 + k1), (-128)%Z)
    else (p, e2, e3) in
  let p := if (kOffset1 p =? 10)%Z then mkPrinter 0 0 (kToken p) else p in
  (p, e2, e3, c_str (of_chars [byte 0xF0; byte 0x9F; byte e2; byte e3])).

Fixpoint enhance_loop (n : nat) (st : Printer * Z * Z) (out : string) : Printer * string :=
  match n with
  | O => (st.1.1, out)
  | S n => let '(st, e) := enhance_step st in enhance_loop n st (out +:+ e)
  end.

Definition nl : string := String "010" "".

Definition column_length (lengths : gmap string Z) (col : string) : Z :=
  default (Z.of_nat (String.length col)) (lengths !! col).

Fixpoint token_columns (enhance : bool) (lengths : gmap string Z) (columns : list string)
    (p : Printer) (out : string) : option (Printer * string) :=
  match columns with
  | [] => Some (p, out)
  | col :: columns =>
      let size := u64 (column_length lengths col + 2) in
      if enhance then
        let e2 := char_wrap (-112 + kOffset1 p) in
        let e3 := char_wrap (-116 + kOffset0 p) in
        let '(p, out) := enhance_loop (Z.to_nat size) (p, e2, e3) out in
        token_columns enhance lengths columns p (out +:+ "+")
      else
        dashes ← fill size "-";
        token_columns enhance lengths columns p (out +:+ dashes +:+ "+")
  end.

Definition generateToken (enhance : bool) (lengths : gmap string Z) (columns : list string) (p : Printer)
    : option (Printer * string) :=
  '(p, out) ← token_columns enhance lengths columns p "+"; Some (p, out +:+ nl).

(** What follows the token in front of a column of the header. *)
Definition header_cell (lengths : gmap string Z) (col : string) : option string :=
  match lengths !! col with
  | Some len =>
      let buffer_size := i32 (u64 (len - utf8 col)) in
      if (0 <? buffer_size)%Z then pad ← fill buffer_size " "; Some (" " +:+ col +:+ pad)
      else Some (" " +:+ col)
  | None => Some (" " +:+ col)
  end.

Fixpoint header_columns (lengths : gmap string Z) (columns : list string) (kToken out : string)
    : option string :=
  match columns with
  | [] => Some out
  | col :: columns =>
      cell ← header_cell lengths col;
      header_columns lengths columns kToken (out +:+ cell +:+ " " +:+ kToken)
  end.

Definition thumb : string := of_chars [byte 0xF0; byte 0x9F; byte 0x91; byte 0x8D].

Definition generateHeader (enhance : bool) (lengths : gmap string Z) (columns : list string) (p : Printer)
    : option (Printer * string) :=
  let p := if enhance then mkPrinter (kOffset0 p) (kOffset1 p) thumb else p in
  out ← header_columns lengths columns (kToken p) (kToken p);
  Some (p, out +:+ nl).

(** One column of a row, without the token: the value when it fits, and the spaces. *)
Definition row_cell (FLAGS_nullvalue : string) (r : Row) (lengths : gmap string Z) (column : string)
    : option string :=
  match r !! column, lengths !! column with
  | Some v, Some len =>
      let buffer_size := i32 (u64 (len - utf8 v)) in
      if (0 <=? buffer_size)%Z then pad ← fill (buffer_size + 1) " "; Some (v +:+ pad)
      else fill 1 " "
  | _, _ =>
      pad ← fill (u64 (Z.of_nat (String.length column) - utf8 FLAGS_nullvalue) + 1) " ";
      Some (FLAGS_nullvalue +:+ pad)
  end.

Fixpoint row_columns (FLAGS_nullvalue : string) (r : Row) (lengths : gmap string Z) (order : list string)
    (kToken out : string) : option string :=
  match order with
  | [] => Some out
  | column :: order =>
      cell ← row_cell FLAGS_nullvalue r lengths column;
      row_columns FLAGS_nullvalue r lengths order kToken (out +:+ kToken +:+ " " +:+ cell)
  end.

Definition generateRow (FLAGS_nullvalue : string) (r : Row) (lengths : gmap string Z) (order : list string)
    (p : Printer) : option string :=
  out ← row_columns FLAGS_nullvalue r lengths order (kToken p) "";
  Some (if is_empty out then out else out +:+ kToken p +:+ nl).

Definition computeRowLengths (r : Row) (lengths : gmap string Z) (use_columns : bool) : gmap string Z :=
  foldl (fun lengths col =>
    let current := default 0%Z (lengths !! col.1) in
    let size := if use_columns then utf8 col.1 else utf8 col.2 in
    <[col.1 := if (current <? size)%Z then size else current]> lengths) lengths (map_sorted r).

(** The strings printed, in order ([printf] stops at a NUL), and the lengths left behind. *)
Definition prettyPrint (enhance : bool) (FLAGS_nullvalue : string) (results : QueryData) (columns : list string)
    (lengths : gmap string Z) (p : Printer) : option (Printer * list string * gmap string Z) :=
  match results with
  | [] => Some (p, [], lengths)
  | front :: _ =>
      let lengths := computeRowLengths front lengths true in
      '(p, separator) ← generateToken enhance lengths columns p;
      '(p, header) ← generateHeader enhance lengths columns p;
      rows ← mapM (fun row => generateRow FLAGS_nullvalue row lengths columns p) results;
      Some (p, c_str <$> ((separator +:+ header +:+ separator) :: rows ++ [separator]), lengths)
  end.

Section JsonPrint.
Context {R : RapidJSON}.

(** Only [i < q.size() - 1] decides on the comma; a row that does not serialize is left
    out, the comma of the row before it is not. *)
Fixpoint json_rows (q : QueryData) : string :=
  match q with
  | [] => ""
  | r :: q =>
      let '(status, row_string) := serializeRowJSON r in
      (if Status_ok status then
         "  " +:+ c_str row_string +:+ (match q with [] => "" | _ => "," +:+ nl end)
       else "") +:+ json_rows q
  end.

Definition jsonPrint (q : QueryData) : string := "[" +:+ nl +:+ json_rows q +:+ nl +:+ "]" +:+ nl.
End JsonPrint.

(** ** Widths *)

(** Characters of a text: the bytes that start one. *)
Definition width (s : string) : Z :=
  Z.of_nat (length (filter (fun c => utf8_break c = true) (chars s))).

(** The text starts at a character. *)
Definition at_char (s : string) : bool := match s with String c _ => utf8_break c | EmptyString => true end.

Lemma utf8_loop_total fuel l res : (length l <= fuel)%nat -> is_Some (utf8_loop fuel l res).
Proof.
  revert l res. induction fuel as [|fuel IH]; intros [|c l] res H; simpl in *; [done|lia|done|].
  apply IH. destruct (utf8_skip_spec l 1) as [? _]. lia.
Qed.

Lemma chars_length s : length (chars s) = String.length s.
Proof. induction s as [|c s IH]; simpl; [done|]. by rewrite IH. Qed.

Lemma utf8_total s : is_Some (utf8StringSize s).
Proof. apply utf8_loop_total. by rewrite chars_length. Qed.

Lemma utf8_width s : at_char s = true -> utf8 s = width s.
Proof.
  intros H. unfold utf8, utf8StringSize, width.
  rewrite utf8_loop_spec; [done | by rewrite chars_length | by destruct s; intros ? ? [= <- <-]].
Qed.

Lemma width_app s t : width (s +:+ t) = (width s + width t)%Z.
Proof. unfold width. rewrite chars_app, filter_app, length_app. lia. Qed.

Lemma utf8_range s : (0 <= utf8 s)%Z.
Proof. unfold utf8. lia. Qed.

Lemma width_fill n c pad : utf8_break c = true -> (0 <= n <= max_size)%Z -> fill n c = Some pad -> width pad = n.
Proof.
  unfold fill, max_size. intros Hc Hn. rewrite u64_small by (unfold in_u64; lia).
  destruct (Z.ltb_spec (2 ^ 63 - 1) n); [lia|]. intros [= <-]. unfold width.
  rewrite String.list_ascii_of_string_of_list_ascii, filter_all, length_replicate; [lia|].
  apply Forall_forall. by intros x [-> _]%elem_of_replicate.
Qed.

Lemma fill_some n c : (0 <= n <= max_size)%Z -> exists pad, fill n c = Some pad.
Proof.
  unfold fill, max_size. intros Hn. rewrite u64_small by (unfold in_u64; lia).
  destruct (Z.ltb_spec (2 ^ 63 - 1) n); [lia|]. eauto.
Qed.

(** *** Every line is as wide as the separator *)

(** Lengths small enough for the [int] of the padding. *)
Definition fits (lengths : gmap string Z) : Prop := forall c len, lengths !! c = Some len -> (0 <= len < 2 ^ 31 - 1)%Z.

(** The width of a line over the given columns, the newline not counted. *)
Definition line_width (lengths : gmap string Z) (columns : list string) : Z :=
  foldr (fun c n => (column_length lengths c + 3 + n)%Z) 1%Z columns.

Lemma i32_small z : (0 <= z < 2 ^ 31)%Z -> i32 (u64 z) = z.
Proof. intros H. rewrite u64_small by (unfold in_u64; lia). unfold i32. rewrite Z.mod_small; lia. Qed.

Lemma token_width lengths columns p out : fits lengths ->
  (forall c, c ∈ columns -> is_Some (lengths !! c)) ->
  exists out', token_columns false lengths columns p out = Some (p, out') /\
    width out' = (width out + line_width lengths columns - 1)%Z.
Proof.
  intros Hf. revert out. induction columns as [|c columns IH]; intros out Hc; simpl.
  { exists out. split; [done|]. lia. }
  destruct (Hc c) as [len Hl]; [by left|]. specialize (Hf c len Hl) as Hlen.
  unfold column_length at 1. rewrite Hl. simpl.
  rewrite u64_small by (unfold in_u64; lia).
  destruct (fill_some (len + 2) "-") as [pad Hp]; [unfold max_size; lia|]. rewrite Hp. simpl.
  destruct (IH (out +:+ pad +:+ "+")) as (out' & -> & Hw).
  { intros c' ?. apply Hc. by right. }
  exists out'. split; [done|]. rewrite Hw, !width_app.
  rewrite (width_fill (len + 2) "-" pad) by (done || unfold max_size; lia).
  unfold column_length. rewrite ?Hl. change (width "+") with 1%Z. simpl. lia.
Qed.

Lemma header_cell_width lengths c len : fits lengths -> lengths !! c = Some len -> (utf8 c <= len)%Z ->
  at_char c = true -> exists cell, header_cell lengths c = Some cell /\ width cell = (len + 1)%Z.
Proof.
  intros Hf Hl Hle Hc. unfold header_cell. rewrite Hl. specialize (Hf c len Hl).
  pose proof (utf8_range c). rewrite i32_small by lia.
  destruct (Z.ltb_spec 0 (len - utf8 c)).
  - destruct (fill_some (len - utf8 c) " ") as [pad Hp]; [unfold max_size; lia|]. rewrite Hp. simpl.
    eexists. split; [done|]. rewrite !width_app, (width_fill (len - utf8 c) " " pad) by (done || unfold max_size; lia).
    rewrite <- (utf8_width c) by done. change (width " ") with 1%Z. lia.
  - eexists. split; [done|]. rewrite width_app, <- (utf8_width c) by done. change (width " ") with 1%Z. lia.
Qed.

Lemma header_width lengths columns out : fits lengths ->
  (forall c, c ∈ columns -> at_char c = true /\ exists len, lengths !! c = Some len /\ (utf8 c <= len)%Z) ->
  exists out', header_columns lengths columns "|" out = Some out' /\
    width out' = (width out + line_width lengths columns - 1)%Z.
Proof.
  intros Hf. revert out. induction columns as [|c columns IH]; intros out Hc; simpl.
  { exists out. split; [done|]. lia. }
  destruct (Hc c) as (Ha & len & Hl & Hle); [by left|].
  destruct (header_cell_width lengths c len) as (cell & -> & Hw); [done..|]. simpl.
  destruct (IH (out +:+ cell +:+ " " +:+ "|")) as (out' & -> & Hw').
  { intros c' ?. apply Hc. by right. }
  exists out'. split; [done|]. rewrite Hw', !width_app, Hw. unfold column_length. rewrite Hl.
  change (width " ") with 1%Z. change (width "|") with 1%Z. simpl. lia.
Qed.

Lemma row_cell_width null (r : Row) lengths c v len : fits lengths -> r !! c = Some v -> lengths !! c = Some len ->
  (utf8 v <= len)%Z -> at_char v = true ->
  exists cell, row_cell null r lengths c = Some cell /\ width cell = (len + 1)%Z.
Proof.
  intros Hf Hv Hl Hle Ha. unfold row_cell. rewrite Hv, Hl. specialize (Hf c len Hl).
  pose proof (utf8_range v). rewrite i32_small by lia.
  destruct (Z.leb_spec 0 (len - utf8 v)); [|lia].
  destruct (fill_some (len - utf8 v + 1) " ") as [pad Hp]; [unfold max_size; lia|]. rewrite Hp. simpl.
  eexists. split; [done|]. rewrite width_app, (width_fill (len - utf8 v + 1) " " pad) by (done || unfold max_size; lia).
  rewrite <- (utf8_width v) by done. lia.
Qed.

Lemma row_width null (r : Row) lengths columns out : fits lengths ->
  (forall c, c ∈ columns -> exists v len, r !! c = Some v /\ lengths !! c = Some len /\ (utf8 v <= len)%Z /\
     at_char v = true) ->
  exists out', row_columns null r lengths columns "|" out = Some out' /\
    width out' = (width out + line_width lengths columns - 1)%Z.
Proof.
  intros Hf. revert out. induction columns as [|c columns IH]; intros out Hc; simpl.
  { exists out. split; [done|]. lia. }
  destruct (Hc c) as (v & len & Hv & Hl & Hle & Ha); [by left|].
  destruct (row_cell_width null r lengths c v len) as (cell & -> & Hw); [done..|]. simpl.
  destruct (IH (out +:+ "|" +:+ " " +:+ cell)) as (out' & -> & Hw').
  { intros c' ?. apply Hc. by right. }
  exists out'. split; [done|]. rewrite Hw', !width_app, Hw. unfold column_length. rewrite Hl.
  change (width " ") with 1%Z. change (width "|") with 1%Z. simpl. lia.
Qed.

(** *** Lengths *)

(** The lengths of a result as the callback of the shell accumulates them. *)
Definition result_lengths (results : QueryData) : gmap string Z :=
  foldl (fun lengths r => computeRowLengths r lengths false) ∅ results.

Lemma fold_lengths (f : string * string -> Z) (l : list (string * string)) (lengths : gmap string Z) c :
  NoDup l.*1 ->
  foldl (fun lengths col => <[col.1 := if (default 0 (lengths !! col.1) <? f col)%Z then f col
      else default 0%Z (lengths !! col.1)]> lengths) lengths l !! c
  = match (list_to_map l : gmap string string) !! c with
    | Some v => Some (Z.max (default 0%Z (lengths !! c)) (f (c, v)))
    | None => lengths !! c
    end.
Proof.
  revert lengths. induction l as [|[k v] l IH]; intros lengths Hnd; [done|]. csimpl.
  inversion Hnd as [|? ? Hk Hnd']; subst. cbn [foldl]. rewrite IH by done. cbn [fst list_to_map foldr uncurry].
  destruct (decide (c = k)) as [->|Hc].
  - rewrite (not_elem_of_list_to_map_1 l k) by done. cbn. rewrite !lookup_insert_eq.
    f_equal. destruct (Z.ltb_spec (default 0%Z (lengths !! k)) (f (k, v))); lia.
  - cbn. by rewrite !lookup_insert_ne by done.
Qed.

Lemma computeRowLengths_lookup r lengths use c :
  computeRowLengths r lengths use !! c
  = match r !! c with
    | Some v => Some (Z.max (default 0%Z (lengths !! c)) (if use then utf8 c else utf8 v))
    | None => lengths !! c
    end.
Proof.
  unfold computeRowLengths.
  rewrite (fold_lengths (fun col => if use then utf8 col.1 else utf8 col.2) (map_sorted r) lengths c)
    by apply NoDup_fst_map_sorted.
  by rewrite list_to_map_sorted.
Qed.

(** Bounds of the values and names printed. *)
Definition small (s : string) : Prop := (utf8 s < 2 ^ 31 - 1)%Z.
Definition small_row (r : Row) : Prop := map_Forall (fun c v => small c /\ small v) r.

Lemma computeRowLengths_fits r lengths use : small_row r -> fits lengths -> fits (computeRowLengths r lengths use).
Proof.
  intros Hr Hf c len. rewrite computeRowLengths_lookup. destruct (r !! c) as [v|] eqn:E; [|apply Hf].
  intros [= <-]. destruct (Hr c v E). unfold small in *. pose proof (utf8_range c). pose proof (utf8_range v).
  destruct (lengths !! c) as [n|] eqn:El; [apply Hf in El|]; destruct use; simpl; lia.
Qed.

Lemma computeRowLengths_grows r lengths use c n : lengths !! c = Some n ->
  exists m, computeRowLengths r lengths use !! c = Some m /\ (n <= m)%Z.
Proof.
  intros H. rewrite computeRowLengths_lookup, H. destruct (r !! c); [|by exists n].
  eexists. split; [done|]. simpl. lia.
Qed.

Lemma fold_rows_grow results lengths c n : lengths !! c = Some n ->
  exists m, foldl (fun lengths r => computeRowLengths r lengths false) lengths results !! c = Some m /\ (n <= m)%Z.
Proof.
  revert lengths n. induction results as [|r results IH]; intros lengths n H; simpl; [by exists n|].
  destruct (computeRowLengths_grows r lengths false c n H) as (m & Hm & ?).
  destruct (IH _ _ Hm) as (m' & ? & ?). exists m'. split; [done|lia].
Qed.

Lemma fold_rows_cover results lengths r c v : r ∈ results -> r !! c = Some v ->
  exists m, foldl (fun lengths r => computeRowLengths r lengths false) lengths results !! c = Some m /\ (utf8 v <= m)%Z.
Proof.
  revert lengths. induction results as [|r' results IH]; intros lengths Hr Hv; [by apply elem_of_nil in Hr|].
  apply elem_of_cons in Hr as [->|Hr]; simpl; [|by apply IH].
  destruct (fold_rows_grow results (computeRowLengths r' lengths false) c
    (Z.max (default 0%Z (lengths !! c)) (utf8 v))) as (m & ? & ?).
  { by rewrite computeRowLengths_lookup, Hv. }
  exists m. split; [done|lia].
Qed.

Lemma fold_rows_fits results lengths : Forall small_row results -> fits lengths ->
  fits (foldl (fun lengths r => computeRowLengths r lengths false) lengths results).
Proof.
  intros H. revert lengths. induction H as [|r results Hr _ IH]; intros lengths Hf; simpl; [done|].
  apply IH. by apply computeRowLengths_fits.
Qed.

(** ** The table *)

Lemma width_nonempty s : (0 < width s)%Z -> is_empty s = false.
Proof. by destruct s. Qed.

Lemma line_width_pos lengths columns : fits lengths -> (1 <= line_width lengths columns)%Z.
Proof.
  intros Hf. induction columns as [|c columns IH]; simpl; [lia|].
  unfold column_length. destruct (lengths !! c) eqn:E; simpl; [apply Hf in E|]; lia.
Qed.

(** A line of the table: a text of the given width and a newline. *)
Definition line_of (w : Z) (s : string) : Prop := exists t, s = t +:+ nl /\ width t = w.

(** A row whose values fit their columns is a line. *)
Definition row_fits (lengths : gmap string Z) (columns : list string) (r : Row) : Prop :=
  forall c, c ∈ columns ->
    exists v len, r !! c = Some v /\ lengths !! c = Some len /\ (utf8 v <= len)%Z /\ at_char v = true.

Lemma generateRow_line null r lengths columns p : kToken p = "|" -> columns <> [] -> fits lengths ->
  row_fits lengths columns r ->
  exists out, generateRow null r lengths columns p = Some out /\ line_of (line_width lengths columns) out.
Proof.
  intros Htok Hcol Hf Hr. destruct (row_width null r lengths columns "" Hf Hr) as (out & Hout & Hw).
  change (width "") with 0%Z in Hw. unfold generateRow. rewrite Htok, Hout. cbn [mbind option_bind].
  assert (is_empty out = false) as ->.
  { apply width_nonempty. rewrite Hw. destruct columns as [|c cs]; [done|].
    simpl. pose proof (line_width_pos lengths cs Hf). unfold column_length.
    destruct (lengths !! c) eqn:E; simpl; [apply Hf in E|]; lia. }
  eexists. split; [done|]. exists (out +:+ "|"). split; [by rewrite app_assoc_str|].
  rewrite width_app, Hw. change (width "|") with 1%Z. lia.
Qed.

Lemma generateRow_lines null rs lengths columns p : kToken p = "|" -> columns <> [] -> fits lengths ->
  (forall r c, r ∈ rs -> c ∈ columns ->
    exists v len, r !! c = Some v /\ lengths !! c = Some len /\ (utf8 v <= len)%Z /\ at_char v = true) ->
  exists rows, mapM (fun row => generateRow null row lengths columns p) rs = Some rows /\
    Forall (line_of (line_width lengths columns)) rows /\ length rows = length rs.
Proof.
  intros Htok Hcol Hf. induction rs as [|r rs IH]; intros Hin; [by exists []|].
  destruct IH as (rows & Hr1 & Hr2 & Hr3); [intros; apply Hin; [by right | done]|].
  destruct (generateRow_line null r lengths columns p) as (out & Hout & Hl); [done..| |].
  { intros c Hc. apply Hin; [by left | done]. }
  exists (out :: rows). cbn [mapM]. rewrite Hout. cbn [mbind option_bind]. rewrite Hr1.
  split; [done|]. split; [by constructor|]. simpl. by rewrite Hr3.
Qed.

(** C37: The table drawn for a result of the shell is rectangular: when every row has a value
    for every column, the lengths are those the callback accumulated and texts start at a
    character of UTF-8, the separator, the header and every row are lines of one width, with
    one line for each row. *)
Theorem table_lines_have_one_width null results columns p :
  kToken p = "|" -> results <> [] -> columns <> [] -> Forall small_row results ->
  (forall r c, r ∈ results -> c ∈ columns -> at_char c = true /\ exists v, r !! c = Some v /\ at_char v = true) ->
  exists w separator header rows lengths,
    prettyPrint false null results columns (result_lengths results) p
    = Some (p, c_str <$> ((separator +:+ header +:+ separator) :: rows ++ [separator]), lengths) /\
    line_of w separator /\ line_of w header /\ Forall (line_of w) rows /\ length rows = length results.
Proof.
  intros Htok Hne Hcol Hsmall Hcells. destruct results as [|front rest]; [done|].
  set (results := front :: rest) in *.
  set (lengths := computeRowLengths front (result_lengths results) true).
  assert (fits lengths) as Hfits.
  { apply computeRowLengths_fits; [by inversion Hsmall|].
    apply fold_rows_fits; [done|]. intros ? ? ?. by rewrite lookup_empty in *. }
  assert (forall r c v, r ∈ results -> r !! c = Some v -> exists len, lengths !! c = Some len /\ (utf8 v <= len)%Z) as Hlen.
  { intros r c v Hr Hv. destruct (fold_rows_cover results ∅ r c v Hr Hv) as (m & Hm & ?).
    destruct (computeRowLengths_grows front _ true c m Hm) as (m' & ? & ?). exists m'. split; [done|lia]. }
  assert (forall c, c ∈ columns -> at_char c = true /\ exists len, lengths !! c = Some len /\ (utf8 c <= len)%Z) as Hhead.
  { intros c Hc. destruct (Hcells front c) as (Ha & v & Hv & _); [by left | done |].
    split; [done|]. unfold lengths. rewrite computeRowLengths_lookup, Hv. eexists. split; [done|]. lia. }
  unfold prettyPrint, results at 1. fold results lengths. unfold generateToken, generateHeader.
  destruct (token_width lengths columns p "+" Hfits) as (sep & -> & Hsep).
  { intros c Hc. destruct (Hhead c Hc) as (_ & len & ? & _). by exists len. }
  cbn [mbind option_bind]. rewrite Htok.
  destruct (header_width lengths columns "|" Hfits Hhead) as (header & -> & Hheader). cbn [mbind option_bind].
  destruct (generateRow_lines null results lengths columns p) as (rows & Hr1 & Hr2 & Hr3); [done..| |].
  { intros r c Hr Hc. destruct (Hcells r c Hr Hc) as (_ & v & Hv & Ha).
    destruct (Hlen r c v Hr Hv) as (len & ? & ?). by exists v, len. }
  rewrite Hr1. cbn [mbind option_bind].
  exists (line_width lengths columns), (sep +:+ nl), (header +:+ nl), rows, lengths.
  split; [done|]. split; [|split; [|done]].
  - exists sep. split; [done|]. rewrite Hsep. change (width "+") with 1%Z. lia.
  - exists header. split; [done|]. rewrite Hheader. change (width "|") with 1%Z. lia.
Qed.

(** A row without the column and a null value longer than the column's name: the padding
    wraps around and no string is that long. *)
Lemma long_null_value_ends_the_process null (r : Row) lengths column p :
  r !! column = None -> (Z.of_nat (String.length column) + 1 < utf8 null < 2 ^ 62)%Z ->
  generateRow null r lengths [column] p = None.
Proof.
  intros Hr Hn. unfold generateRow, row_columns, row_cell. rewrite Hr. unfold fill.
  replace (u64 (u64 (Z.of_nat (String.length column) - utf8 null) + 1))
    with (Z.of_nat (String.length column) - utf8 null + 1 + 2 ^ 64)%Z.
  { unfold max_size. by destruct (Z.ltb_spec (2 ^ 63 - 1) (Z.of_nat (String.length column) - utf8 null + 1 + 2 ^ 64)); [|lia]. }
  unfold u64. rewrite Z.add_mod_idemp_l by lia.
  apply (Z.mod_unique_pos _ _ (-1)); lia.
Qed.

(** A result of two rows. *)
Definition example_results : QueryData :=
  [list_to_map [("name", "Mike Jones"); ("age", "39")]; list_to_map [("name", "Zoe"); ("age", "2000")]].

Lemma table_lines_have_one_width_witness :
  exists w separator header rows lengths,
    prettyPrint false "" example_results ["name"; "age"] (result_lengths example_results) printer_init
    = Some (printer_init, c_str <$> ((separator +:+ header +:+ separator) :: rows ++ [separator]), lengths) /\
    line_of w separator /\ line_of w header /\ Forall (line_of w) rows /\ length rows = length example_results.
Proof.
  apply (table_lines_have_one_width "" example_results ["name"; "age"] printer_init); [done..| |].
  - assert (forall l, Forall (fun kv => small kv.1 /\ small kv.2) l -> small_row (list_to_map l)) as Hl.
    { intros l Hall c v Hv. apply elem_of_list_to_map_2 in Hv. rewrite Forall_forall in Hall. apply (Hall (c, v) Hv). }
    repeat (apply Forall_cons_2; [apply Hl; repeat (apply Forall_cons_2; [done|]); apply Forall_nil_2|]). apply Forall_nil_2.
  - intros r c Hr Hc. set_unfold in Hr. set_unfold in Hc.
    destruct Hr as [->|[->|[]]], Hc as [->|[->|[]]]; (split; [done|]; eexists; split; [vm_compute; reflexivity | done]).
Defined.
