(* ===== verification/Shell.v ===== *)
(** * The interactive shell (osquery/devtools/shell.cpp)

    The loop that reads lines and runs statements and meta commands, the output modes, and
    the small parsers of the file. A [const char*] is a string without NUL; a buffer that is
    written in place is a list of bytes with its terminator, and reading past its end is
    [Undefined]. SQLite, the terminal and the parts of osquery the shell asks are the class
    [ShellHost]. What is printed is a list of strings, each with its stream. *)
From S2P Require Import Prelude Boost Conversions Json Database Query Tables Printer.

(** ** Characters *)

Definition NUL : ascii := Ascii.zero.
Definition DQUOTE : ascii := "034".
Definition num (c : ascii) : nat := Ascii.nat_of_ascii c.
Definition between (lo hi c : ascii) : bool := ((num lo <=? num c) && (num c <=? num hi))%nat.
Definition isprint (c : ascii) : bool := between " " "~" c.
Definition isalpha (c : ascii) : bool := between "a" "z" c || between "A" "Z" c.
Definition isalnum (c : ascii) : bool := isalpha c || between "0" "9" c.

Definition strlen30 (z : string) : Z := Z.land 0x3fffffff (i32 (Z.of_nat (String.length z))).

(** [strncmp(a, b, n) == 0]. *)
Fixpoint strncmp_eq (a b : string) (n : nat) : bool :=
  match n with
  | O => true
  | S n => match a, b with
           | EmptyString, EmptyString => true
           | String x a, String y b => bool_decide (x = y) && strncmp_eq a b n
           | _, _ => false
           end
  end.

(** ** Quoting *)

Definition octal_digit (n : nat) : ascii := Ascii.ascii_of_nat (48 + n).

(** What [output_c_string] prints for one character. *)
Definition c_escape (c : ascii) : list ascii :=
  if decide (c = "\"%char) then ["\"; "\"]%char
  else if decide (c = DQUOTE) then ["\"%char; DQUOTE]
  else if decide (c = "009"%char) then ["\"; "t"]%char
  else if decide (c = "010"%char) then ["\"; "n"]%char
  else if decide (c = "013"%char) then ["\"; "r"]%char
  else if isprint c then [c]
  else ["\"%char; octal_digit (num c / 64); octal_digit (num c / 8 mod 8); octal_digit (num c mod 8)].

Definition c_escapes (z : string) : list ascii := flat_map c_escape (chars z).

Definition output_c_string (z : string) : string := of_chars (DQUOTE :: c_escapes z ++ [DQUOTE]).

Definition is_octal (c : ascii) : bool := between "0" "7" c.

(** [c = (c << 3) + z[i] - '0'] in a [char]. *)
Definition push_octal (v : nat) (c : ascii) : nat := (v * 8 + (num c - 48)) mod 256.

(** The characters after a backslash: the one meant, and how many were read. [None]: the
    end of the buffer was passed. *)
Definition escape (l : list ascii) : option (ascii * nat) :=
  match l with
  | [] => None
  | c :: l =>
      if decide (c = "n"%char) then Some ("010"%char, 1%nat)
      else if decide (c = "t"%char) then Some ("009"%char, 1%nat)
      else if decide (c = "r"%char) then Some ("013"%char, 1%nat)
      else if decide (c = "\"%char) then Some ("\"%char, 1%nat)
      else if is_octal c then
        let v := (num c - 48)%nat in
        match l with
        | [] => None
        | c1 :: l =>
            if is_octal c1 then
              let v := push_octal v c1 in
              match l with
              | [] => None
              | c2 :: _ =>
                  if is_octal c2 then Some (Ascii.ascii_of_nat (push_octal v c2), 3%nat)
                  else Some (Ascii.ascii_of_nat v, 2%nat)
              end
            else Some (Ascii.ascii_of_nat v, 1%nat)
        end
      else Some (c, 1%nat)
  end.

(** [resolve_backslashes], on the part of a buffer that starts at [i] and is written from
    [j] on. A backslash in front of the terminator is followed by the terminator and what is
    behind it. *)
Fixpoint resolve_backslashes (fuel : nat) (z : list ascii) (i j : nat) : option (list ascii) :=
  match fuel with
  | O => None
  | S fuel =>
      match drop i z with
      | [] => None
      | c :: l =>
          if decide (c = NUL) then Some (<[j := NUL]> z)
          else if decide (c = "\"%char) then
            '(c, k) ← escape l;
            resolve_backslashes fuel (<[j := c]> z) (i + 1 + k) (S j)
          else resolve_backslashes fuel (<[j := c]> z) (S i) (S j)
      end
  end.

Definition needCsvQuote (c : ascii) : bool :=
  (num c <=? 32)%nat || bool_decide (c = DQUOTE) || bool_decide (c = "'"%char) || (127 <=? num c)%nat.

(** Whether the loop of [output_csv] meets a character that asks for quotes; [memcmp] looks
    at the start of the field, not at the character. *)
Definition csv_special (separator z : string) (c : ascii) : bool :=
  needCsvQuote c ||
  (bool_decide (c = char_at separator 0) &&
   ((strlen30 separator =? 1)%Z || strncmp_eq z separator (String.length separator))).

Definition csv_quoted (z : string) : list ascii :=
  DQUOTE :: flat_map (fun c => if decide (c = DQUOTE) then [c; c] else [c]) (chars z) ++ [DQUOTE].

Definition output_csv (nullvalue separator : string) (z : option string) (bSep : bool) : string :=
  (match z with
   | None => nullvalue
   | Some z => if existsb (csv_special separator z) (chars z) || is_empty z then of_chars (csv_quoted z) else z
   end) +:+ (if bSep then separator else "").

(** [set_table_name]: the name as it is stored. *)
Definition needQuote (zName : string) : bool :=
  negb (isalpha (char_at zName 0)) && negb (bool_decide (char_at zName 0 = "_"%char)) ||
  existsb (fun c => negb (isalnum c) && negb (bool_decide (c = "_"%char))) (chars zName).

Definition table_name (zName : string) : string :=
  let body := flat_map (fun c => if decide (c = "'"%char) then [c; c] else [c]) (chars zName) in
  of_chars (if needQuote zName then "'"%char :: body ++ ["'"%char] else body).

(** ** Numbers *)

Definition hexDigitValue (c : ascii) : Z :=
  if between "0" "9" c then Z.of_nat (num c) - 48
  else if between "a" "f" c then Z.of_nat (num c) - 97 + 10
  else if between "A" "F" c then Z.of_nat (num c) - 65 + 10
  else -1.

Definition aMult : list (string * Z) :=
  [("KiB", 1024); ("MiB", 1024 * 1024); ("GiB", 1024 * 1024 * 1024); ("KB", 1000); ("MB", 1000000);
   ("GB", 1000000000); ("K", 1000); ("M", 1000000); ("G", 1000000000)]%Z.

(** [sqlite3_stricmp(a, b) == 0]. *)
Definition stricmp_eq (a b : string) : bool := bool_decide (lower a = lower b).

Fixpoint hex_digits (v : Z) (z : string) : Z * string :=
  match z with
  | String c r => if (0 <=? hexDigitValue c)%Z then hex_digits (i64 (i64 (Z.shiftl v 4) + hexDigitValue c)) r else (v, z)
  | EmptyString => (v, z)
  end.

Fixpoint dec_digits (v : Z) (z : string) : Z * string :=
  match z with
  | String c r =>
      if between "0" "9" c then dec_digits (i64 (i64 (i64 (v * 10) + Z.of_nat (num c)) - 48)) r else (v, z)
  | EmptyString => (v, z)
  end.

(** [integerValue]: the arithmetic of [sqlite3_int64], wrapped around. *)
Definition integerValue (zArg : string) : Z :=
  let '(isNeg, zArg) := match zArg with
                        | String "-" r => (true, r)
                        | String "+" r => (false, r)
                        | _ => (false, zArg)
                        end in
  let '(v, rest) := match zArg with
                    | String "0" (String "x" r) => hex_digits 0 r
                    | _ => dec_digits 0 zArg
                    end in
  let v := match find (fun m => stricmp_eq m.1 rest) aMult with
           | Some m => i64 (v * m.2)
           | None => v
           end in
  if isNeg then i64 (- v) else v.

(** What is left after the digits [booleanValue] skips, and whether [i > 0]. *)
Fixpoint drop_while (p : ascii -> bool) (z : string) : string :=
  match z with
  | String c r => if p c then drop_while p r else z
  | EmptyString => z
  end.

Definition number_like (zArg : string) : bool :=
  match zArg with
  | String "0" (String "x" r) => is_empty (drop_while (fun c => (0 <=? hexDigitValue c)%Z) r)
  | String c _ => between "0" "9" c && is_empty (drop_while (between "0" "9") zArg)
  | EmptyString => false
  end.

(** The value, and what goes to [stderr]. *)
Definition booleanValue (zArg : string) : Z * list string :=
  if number_like zArg then (i32 (Z.land (integerValue zArg) 0xffffffff), [])
  else match stringToBool zArg with
       | inl b => (if b then 1 else 0, [])%Z
       | inr _ => (0%Z, ["ERROR: Not a boolean value: " +:+ String DQUOTE zArg +:+
                         String DQUOTE (". Assuming " +:+ String DQUOTE ("no" +:+ String DQUOTE ("." +:+ nl)))])
       end.

(** ** Lines *)

Definition line_contains_semicolon (z : string) : bool := existsb (fun c => bool_decide (c = ";"%char)) (chars z).

(** The end of a comment: the text behind the closing mark, [None] when there is none. *)
Fixpoint skip_comment (z : list ascii) : option (list ascii) :=
  match z with
  | [] => None
  | c :: r => match c, r with
              | "*"%char, "/"%char :: r' => Some r'
              | _, _ => skip_comment r
              end
  end.

Fixpoint skip_line (z : list ascii) : option (list ascii) :=
  match z with
  | [] => None
  | "010"%char :: r => Some r
  | _ :: r => skip_line r
  end.

Fixpoint all_whitespace (fuel : nat) (z : list ascii) : bool :=
  match fuel with
  | O => false
  | S fuel =>
      match z with
      | [] => true
      | c :: r =>
          if Ascii.is_space c then all_whitespace fuel r
          else match c, r with
               | "/"%char, "*"%char :: r => match skip_comment r with Some r => all_whitespace fuel r | None => false end
               | "-"%char, "-"%char :: r => match skip_line r with Some r => all_whitespace fuel r | None => true end
               | _, _ => false
               end
      end
  end.

Definition _all_whitespace (z : string) : bool := all_whitespace (S (String.length z)) (chars z).

(** ** State *)

Inductive output_mode := MODE_Line | MODE_Column | MODE_List | MODE_Semi | MODE_Csv | MODE_Pretty.

Definition modeDescr (m : output_mode) : string :=
  match m with
  | MODE_Line => "line" | MODE_Column => "column" | MODE_List => "list"
  | MODE_Semi => "semi" | MODE_Csv => "csv" | MODE_Pretty => "pretty"
  end.

Record prettyprint_data := mkPretty {
  pp_results : QueryData;
  pp_columns : list string;
  pp_lengths : gmap string Z;
}.
Definition pretty_empty : prettyprint_data := mkPretty [] [] ∅.

(** [callback_data], less the members that are cleared by [main_init] and never assigned
    ([traceOut], [pLog], [aiIndent] and its counters). *)
Record callback_data := mkData {
  echoOn : Z;
  cnt : Z;
  mode : output_mode;
  showHeader : Z;
  zDestTable : option string;
  separator : string;
  colWidth : list Z;
  actualWidth : list Z;
  nullvalue : string;
  outfile : string;
  (** Whether [pStmt] points to a statement. *)
  pStmt : bool;
  prettyPrint_ : prettyprint_data;
}.

Definition set_echoOn v p := mkData v (cnt p) (mode p) (showHeader p) (zDestTable p) (separator p) (colWidth p)
  (actualWidth p) (nullvalue p) (outfile p) (pStmt p) (prettyPrint_ p).
Definition set_cnt v p := mkData (echoOn p) v (mode p) (showHeader p) (zDestTable p) (separator p) (colWidth p)
  (actualWidth p) (nullvalue p) (outfile p) (pStmt p) (prettyPrint_ p).
Definition set_mode v p := mkData (echoOn p) (cnt p) v (showHeader p) (zDestTable p) (separator p) (colWidth p)
  (actualWidth p) (nullvalue p) (outfile p) (pStmt p) (prettyPrint_ p).
Definition set_showHeader v p := mkData (echoOn p) (cnt p) (mode p) v (zDestTable p) (separator p) (colWidth p)
  (actualWidth p) (nullvalue p) (outfile p) (pStmt p) (prettyPrint_ p).
Definition set_zDestTable v p := mkData (echoOn p) (cnt p) (mode p) (showHeader p) v (separator p) (colWidth p)
  (actualWidth p) (nullvalue p) (outfile p) (pStmt p) (prettyPrint_ p).
Definition set_separator v p := mkData (echoOn p) (cnt p) (mode p) (showHeader p) (zDestTable p) v (colWidth p)
  (actualWidth p) (nullvalue p) (outfile p) (pStmt p) (prettyPrint_ p).
Definition set_colWidth v p := mkData (echoOn p) (cnt p) (mode p) (showHeader p) (zDestTable p) (separator p) v
  (actualWidth p) (nullvalue p) (outfile p) (pStmt p) (prettyPrint_ p).
Definition set_actualWidth v p := mkData (echoOn p) (cnt p) (mode p) (showHeader p) (zDestTable p) (separator p)
  (colWidth p) v (nullvalue p) (outfile p) (pStmt p) (prettyPrint_ p).
Definition set_nullvalue v p := mkData (echoOn p) (cnt p) (mode p) (showHeader p) (zDestTable p) (separator p)
  (colWidth p) (actualWidth p) v (outfile p) (pStmt p) (prettyPrint_ p).
Definition set_pStmt v p := mkData (echoOn p) (cnt p) (mode p) (showHeader p) (zDestTable p) (separator p)
  (colWidth p) (actualWidth p) (nullvalue p) (outfile p) v (prettyPrint_ p).
Definition set_prettyPrint v p := mkData (echoOn p) (cnt p) (mode p) (showHeader p) (zDestTable p) (separator p)
  (colWidth p) (actualWidth p) (nullvalue p) (outfile p) (pStmt p) v.

(** ** Rows *)

(** [printf] of a string with a width and a precision, in bytes; a width below zero pads on
    the right and a precision below zero is none. *)
Definition spaces (n : Z) : string := of_chars (replicate (Z.to_nat n) " "%char).
Definition cut (prec : Z) (s : string) : string :=
  if (prec <? 0)%Z then s else String.substring 0 (Z.to_nat prec) s.
Definition pad_left (w : Z) (s : string) : string :=
  let gap := spaces (Z.abs w - Z.of_nat (String.length s)) in
  if (w <? 0)%Z then s +:+ gap else gap +:+ s.
Definition pad_right (w : Z) (s : string) : string := s +:+ spaces (Z.abs w - Z.of_nat (String.length s)).
(** A null pointer for [%s], as the GNU C library prints it. *)
Definition text (z : option string) : string := default "(null)" z.
Definition text_cut (prec : Z) (z : option string) : string :=
  match z with
  | Some s => cut prec s
  | None => if ((0 <=? prec) && (prec <? 6))%Z then "" else "(null)"
  end.

Definition ArraySize_width : nat := 100.

(** [i == nArg - 1 ? last : between]. *)
Definition after (last between : string) (i nArg : nat) : string := if (S i =? nArg)%nat then last else between.

Definition dashes : string := of_chars (replicate 93 "-"%char).

(** The cell of a column of width [w]: [%*.*s] of [-w], or [%-*.*s] of [w]. *)
Definition column_cell (w : Z) (z : option string) : string :=
  if (w <? 0)%Z then pad_left (i32 (- w)) (text_cut (i32 (- w)) z) else pad_right w (text_cut w z).

Definition width_at (l : list Z) (d : Z) (i : nat) : Z := if (i <? ArraySize_width)%nat then default 0%Z (l !! i) else d.

(** The width of a column of the first row. *)
Definition column_width (p : callback_data) (i : nat) (col value : option string) : Z :=
  let w := width_at (colWidth p) 0 i in
  if (w =? 0)%Z then
    let w := Z.max (strlen30 (default "" col)) 10 in
    Z.max w (strlen30 (default (nullvalue p) value))
  else w.

Definition indexed {A} (l : list A) : list (nat * A) := zip (seq 0 (length l)) l.

Definition value_at (azArg : option (list (option string))) (i : nat) : option string :=
  match azArg with Some l => mjoin (l !! i) | None => None end.

Definition column_header (p : callback_data) (azArg : option (list (option string))) (azCol : list (option string))
    : callback_data * string :=
  let nArg := length azCol in
  let widths := (fun '(i, col) => column_width p i col (value_at azArg i)) <$> indexed azCol in
  let p := set_actualWidth (take ArraySize_width widths ++ drop nArg (actualWidth p)) p in
  let header := (fun '(i, col) => column_cell (default 0%Z (widths !! i)) col +:+ after nl "  " i nArg) <$> indexed azCol in
  let rule := (fun i => let w := Z.abs (width_at (actualWidth p) 10 i) in
                        pad_right w (cut w dashes) +:+ after nl "  " i nArg) <$> seq 0 nArg in
  (p, if (showHeader p =? 0)%Z then "" else String.concat "" (header ++ rule)).

(** The row the pretty mode keeps. *)
Definition pretty_row (FLAGS_nullvalue : string) (azArg : list (option string)) (azCol : list (option string)) : Row :=
  foldl (fun r '(i, col) => match col with
                            | Some name => <[name := default FLAGS_nullvalue (mjoin (azArg !! i))]> r
                            | None => r
                            end) ∅ (indexed azCol).

Definition line_width_of (azCol : list (option string)) : Z :=
  foldl (fun w col => Z.max w (strlen30 (default "" col))) 5%Z azCol.

(** [shell_callback]: the callback data after the row and what is printed. A null name makes
    the string of the pretty mode throw. *)
Definition shell_callback (FLAGS_nullvalue : string) (p : callback_data) (azArg : option (list (option string)))
    (azCol : list (option string)) : result (callback_data * string) :=
  let nArg := length azCol in
  let first := (cnt p =? 0)%Z in
  let counted := set_cnt (cnt p + 1) p in
  match mode p with
  | MODE_Pretty =>
      let pp := prettyPrint_ p in
      match pp_columns pp, mapM id azCol with
      | [], None => Throw (RuntimeError "basic_string: construction from null is not valid")
      | cols, names =>
          let cols := match cols with [] => default [] names | _ => cols end in
          let r := pretty_row FLAGS_nullvalue (default [] azArg) azCol in
          Ok (set_prettyPrint (mkPretty (pp_results pp ++ [r]) cols (computeRowLengths r (pp_lengths pp) false)) p, "")
      end
  | MODE_Line =>
      match azArg with
      | None => Ok (p, "")
      | Some args =>
          let w := line_width_of azCol in
          let lines := (fun '(i, col) => pad_left w (text col) +:+ " = " +:+ default (nullvalue p) (mjoin (args !! i)) +:+ nl)
                       <$> indexed azCol in
          Ok (counted, String.concat "" ((if (0 <? cnt p)%Z then [nl] else []) ++ lines))
      end
  | MODE_Column =>
      let '(p, header) := if first then column_header counted azArg azCol else (counted, "") in
      match azArg with
      | None => Ok (p, header)
      | Some args =>
          let cells := (fun i => column_cell (width_at (actualWidth p) 10 i)
                                   (Some (default (nullvalue p) (mjoin (args !! i)))) +:+ after nl "  " i nArg) <$> seq 0 nArg in
          Ok (p, header +:+ String.concat "" cells)
      end
  | MODE_Semi | MODE_List =>
      let header := if first && negb (showHeader p =? 0)%Z
                    then String.concat "" ((fun '(i, col) => text col +:+ after nl (separator p) i nArg) <$> indexed azCol)
                    else "" in
      match azArg with
      | None => Ok (counted, header)
      | Some args =>
          let stop := match mode p with MODE_Semi => ";" +:+ nl | _ => nl end in
          let cells := (fun i => default (nullvalue p) (mjoin (args !! i)) +:+ after stop (separator p) i nArg) <$> seq 0 nArg in
          Ok (counted, header +:+ String.concat "" cells)
      end
  | MODE_Csv =>
      let csv z i := output_csv (nullvalue p) (separator p) z (S i <? nArg)%nat in
      let header := if first && negb (showHeader p =? 0)%Z
                    then String.concat "" ((fun '(i, col) => csv (Some (default "" col)) i) <$> indexed azCol) +:+ nl
                    else "" in
      match azArg with
      | None => Ok (counted, header)
      | Some args =>
          Ok (counted, header +:+ String.concat "" ((fun i => csv (mjoin (args !! i)) i) <$> seq 0 nArg) +:+ nl)
      end
  end.

(** ** The host *)

(** Flags the shell reads. *)
Record ShellFlags := mkShellFlags {
  FLAGS_csv : bool; FLAGS_json : bool; FLAGS_line : bool; FLAGS_list : bool;
  FLAGS_separator : string; FLAGS_header : bool; FLAGS_pack : string; FLAGS_L : bool; FLAGS_A : string;
  FLAGS_nullvalue : string; FLAGS_extensions_socket : string; FLAGS_tls_hostname : string;
  FLAGS_logger_plugin : string; FLAGS_logger_path : string; FLAGS_logger_tls_endpoint : string;
  FLAGS_distributed_plugin : string; FLAGS_config_plugin : string; FLAGS_config_path : string;
  FLAGS_config_tls_endpoint : string; FLAGS_database_path : string; FLAGS_flagfile : string;
}.

(** SQLite (statements are of type [St]), the C library and the rest of osquery, on a state
    [W]. *)
Class ShellHost (W St : Type) := {
  flags : ShellFlags;
  (** The environment: TERM, and whether ENHANCE is set. *)
  env_TERM : option string;
  env_ENHANCE : bool;
  kVersion : string;
  sqlite3_libversion : string;
  (** The result code, the statement (none for a comment) and the text after it. *)
  sqlite3_prepare : string -> W -> Z * option St * string * W;
  sqlite3_sql : St -> option string;
  sqlite3_step : St -> W -> Z * St * W;
  sqlite3_column_count : St -> nat;
  sqlite3_column_name : St -> nat -> option string;
  (** Whether the type is [SQLITE_NULL], and the text. *)
  sqlite3_column : St -> nat -> bool * option string;
  sqlite3_finalize : St -> W -> Z * W;
  sqlite3_errmsg : W -> string;
  sqlite3_complete : string -> bool;
  sqlite3_busy_timeout : Z -> W -> W;
  (** [dbc->clearAffectedTables()]. *)
  clearAffectedTables : W -> W;
  (** Whether an allocation of so many bytes succeeds. *)
  malloc : Z -> W -> bool * W;
  (** An upper bound of the rows a statement has still to return. *)
  rows_bound : St -> W -> nat;
  (** The prompt, and the line typed. *)
  linenoise : string -> W -> option string * W;
  linenoiseHistoryAdd : string -> W -> W;
  linenoiseHistoryLoad : W -> W;
  linenoiseHistorySave : W -> W;
  (** [attachFunctionInternal("shellstatic", ...)]. *)
  attach_shellstatic : W -> W;
  (** Whether SIGINT arrived by the time a line was read. *)
  sigint : W -> bool * W;
  (** The text [endTimer] prints after [beginTimer]. *)
  beginTimer : W -> W;
  endTimer : W -> string * W;
  table_names : W -> list string;
  table_columns : string -> W -> (Status * PluginResponse) * W;
  query_columns : string -> W -> (Status * list TableColumn) * W;
  osquery_SQL : string -> W -> QueryData * W;
  selectAllFrom : string -> W -> QueryData * W;
  active_database : W -> string;
  (** Name and schedule of the packs. *)
  config_packs : W -> list (string * list (string * string));
}.

Definition SQLITE_OK : Z := 0.
Definition SQLITE_NOMEM : Z := 7.
Definition SQLITE_ROW : Z := 100.

Inductive stream := Stdout | Stderr.

Record Shell (W : Type) := mkShell {
  data : callback_data;
  bail_on_error : Z;
  enableTimer : Z;
  seenInterrupt : Z;
  stdin_is_interactive : bool;
  mainPrompt : string;
  continuePrompt : string;
  printer : Printer;
  printed : list (stream * string);
  world : W;
}.
Arguments mkShell {W}. Arguments data {W}. Arguments bail_on_error {W}. Arguments enableTimer {W}.
Arguments seenInterrupt {W}. Arguments stdin_is_interactive {W}. Arguments mainPrompt {W}.
Arguments continuePrompt {W}. Arguments printer {W}. Arguments printed {W}. Arguments world {W}.

(** How a function of the shell ends: it returns, leaves the process by [exit], lets an
    exception through, or reads memory it must not. [OutOfFuel] is no behaviour of the
    program. *)
Inductive outcome (A : Type) :=
  | Done (a : A)
  | Exited (rc : Z)
  | Threw (e : exn)
  | Undefined
  | OutOfFuel.
Arguments Done {A} a. Arguments Exited {A} rc. Arguments Threw {A} e. Arguments Undefined {A}. Arguments OutOfFuel {A}.

Definition Sh (W A : Type) : Type := Shell W -> outcome A * Shell W.

Definition sbind {W A B} (m : Sh W A) (f : A -> Sh W B) : Sh W B :=
  fun s => match m s with
           | (Done a, s) => f a s
           | (Exited rc, s) => (Exited rc, s)
           | (Threw e, s) => (Threw e, s)
           | (Undefined, s) => (Undefined, s)
           | (OutOfFuel, s) => (OutOfFuel, s)
           end.
Definition sret {W A} (a : A) : Sh W A := fun s => (Done a, s).
Definition fail_with {W A} (o : outcome A) : Sh W A := fun s => (o, s).

Declare Scope sh_scope.
Delimit Scope sh_scope with sh.
Notation "'let!' x := c 'in' k" := (sbind c (fun x => k))
  (at level 10, x pattern, c at level 100, k at level 200) : sh_scope.
Notation "c ;! k" := (sbind c (fun _ => k)) (at level 199, right associativity) : sh_scope.

Section Shell.
Context {W St : Type} {H : ShellHost W St} {R : RapidJSON} {B : Boost}.
Open Scope sh_scope.

Definition get_ {A} (f : Shell W -> A) : Sh W A := fun s => (Done (f s), s).
Definition put_data (p : callback_data) : Sh W unit := fun s =>
  (Done tt, mkShell p (bail_on_error s) (enableTimer s) (seenInterrupt s) (stdin_is_interactive s) (mainPrompt s)
     (continuePrompt s) (printer s) (printed s) (world s)).
Definition set_bail (v : Z) : Sh W unit := fun s =>
  (Done tt, mkShell (data s) v (enableTimer s) (seenInterrupt s) (stdin_is_interactive s) (mainPrompt s)
     (continuePrompt s) (printer s) (printed s) (world s)).
Definition set_timer (v : Z) : Sh W unit := fun s =>
  (Done tt, mkShell (data s) (bail_on_error s) v (seenInterrupt s) (stdin_is_interactive s) (mainPrompt s)
     (continuePrompt s) (printer s) (printed s) (world s)).
Definition set_interrupt (v : Z) : Sh W unit := fun s =>
  (Done tt, mkShell (data s) (bail_on_error s) (enableTimer s) v (stdin_is_interactive s) (mainPrompt s)
     (continuePrompt s) (printer s) (printed s) (world s)).
Definition set_printer (v : Printer) : Sh W unit := fun s =>
  (Done tt, mkShell (data s) (bail_on_error s) (enableTimer s) (seenInterrupt s) (stdin_is_interactive s) (mainPrompt s)
     (continuePrompt s) v (printed s) (world s)).
Definition emit (c : stream) (t : string) : Sh W unit := fun s =>
  (Done tt, mkShell (data s) (bail_on_error s) (enableTimer s) (seenInterrupt s) (stdin_is_interactive s) (mainPrompt s)
     (continuePrompt s) (printer s) (printed s ++ [(c, t)]) (world s)).
(** A call of the host. *)
Definition host {A} (f : W -> A * W) : Sh W A := fun s =>
  let '(a, w) := f (world s) in
  (Done a, mkShell (data s) (bail_on_error s) (enableTimer s) (seenInterrupt s) (stdin_is_interactive s) (mainPrompt s)
     (continuePrompt s) (printer s) (printed s) w).
Definition host_ (f : W -> W) : Sh W unit := host (fun w => (tt, f w)).
Definition update_data (f : callback_data -> callback_data) : Sh W unit := let! p := get_ data in put_data (f p).
Definition out (t : string) : Sh W unit := emit Stdout t.
Definition err (t : string) : Sh W unit := emit Stderr t.
Definition when (b : bool) (m : Sh W unit) : Sh W unit := if b then m else sret tt.
Fixpoint seq_ {A} (l : list A) (f : A -> Sh W unit) : Sh W unit :=
  match l with [] => sret tt | x :: l => f x ;! seq_ l f end.

Definition print_bold (zText : string) : Sh W unit :=
  let! tty := get_ stdin_is_interactive in
  when tty (out (of_chars ["027"; "["; "1"; "m"]%char)) ;!
  out zText ;!
  when tty (out (of_chars ["027"; "["; "0"; "m"]%char)).

Definition interrupt_handler : Sh W unit := set_interrupt 1.

(** [set_table_name]. *)
Definition set_table_name (zName : option string) : Sh W unit :=
  update_data (set_zDestTable None) ;!
  match zName with
  | None => sret tt
  | Some z =>
      let name := table_name z in
      let! ok := host (malloc (Z.of_nat (String.length name) + 1)) in
      if (ok : bool) then update_data (set_zDestTable (Some name))
      else err ("Error: out of memory" +:+ nl) ;! fail_with (Exited 1)
  end.

Definition pretty_print_if_needed : Sh W unit :=
  let! p := get_ data in
  match mode p with
  | MODE_Pretty =>
      let pp := prettyPrint_ p in
      (if FLAGS_json flags then out (jsonPrint (pp_results pp))
       else let! pr := get_ printer in
            match prettyPrint env_ENHANCE (FLAGS_nullvalue flags) (pp_results pp) (pp_columns pp) (pp_lengths pp) pr with
            | Some (pr, texts, _) => set_printer pr ;! seq_ texts out
            | None => fail_with (Threw (RuntimeError "length_error"))
            end) ;!
      update_data (set_prettyPrint pretty_empty)
  | _ => sret tt
  end.

(** [save_err_msg]: none when there is no memory for the message. *)
Definition save_err_msg : Sh W (option string) :=
  let! msg := get_ (fun s => sqlite3_errmsg (world s)) in
  let! ok := host (malloc (1 + strlen30 msg)) in
  sret (if (ok : bool) then Some msg else None).

(** ** Running statements *)

Fixpoint skip_spaces (z : string) : string :=
  match z with
  | String c r => if Ascii.is_space c then skip_spaces r else z
  | EmptyString => z
  end.

(** The values of the current row; [None]: a text is missing that is not null. *)
Definition row_values (st : St) : option (list (option string)) :=
  mapM (fun i => let '(null, v) := sqlite3_column st i in
                 match v with
                 | None => if null then Some None else None
                 | Some v => Some (Some v)
                 end) (seq 0 (sqlite3_column_count st)).

(** The [do] loop over the rows: the result code and the statement it ends with. *)
Fixpoint exec_rows (fuel : nat) (st : St) (azCols : list (option string)) : Sh W (Z * St) :=
  match fuel with
  | O => fail_with OutOfFuel
  | S fuel =>
      match row_values st with
      | None => sret (SQLITE_NOMEM, st)
      | Some azVals =>
          let! p := get_ data in
          match shell_callback (FLAGS_nullvalue flags) p (Some azVals) azCols with
          | Throw e => fail_with (Threw e)
          | Ok (p, t) =>
              put_data p ;! out t ;!
              let! (rc, st) := host (fun w => let '(rc, st, w) := sqlite3_step st w in ((rc, st), w)) in
              if (rc =? SQLITE_ROW)%Z then exec_rows fuel st azCols else sret (rc, st)
          end
      end
  end.

(** A prepared statement is run: the code of [sqlite3_finalize], or that of the memory. *)
Definition exec_statement (zSql : string) (st : St) : Sh W Z :=
  update_data (fun p => set_cnt 0 (set_pStmt true p)) ;!
  let! p := get_ data in
  when (negb (echoOn p =? 0)%Z) (out (default zSql (sqlite3_sql st) +:+ nl)) ;!
  let! (rc, st) := host (fun w => let '(rc, st, w) := sqlite3_step st w in ((rc, st), w)) in
  let! (rc, st) :=
    (if (rc =? SQLITE_ROW)%Z then
       let nCol := sqlite3_column_count st in
       let! ok := host (malloc (3 * Z.of_nat nCol * 8 + 1)) in
       if (ok : bool) then
         let! fuel := get_ (fun s => rows_bound st (world s)) in
         exec_rows (S fuel) st (sqlite3_column_name st <$> seq 0 nCol)
       else sret (SQLITE_NOMEM, st)
     else sret (rc, st)) in
  let! rc2 := host (sqlite3_finalize st) in
  sret (if (rc =? SQLITE_NOMEM)%Z then rc else rc2).

(** The loop of [shell_exec]: the result code and the message. *)
Fixpoint exec_loop (fuel : nat) (zSql : string) (want_err : bool) : Sh W (Z * option string) :=
  match zSql with
  | EmptyString => sret (SQLITE_OK, None)
  | _ =>
      match fuel with
      | O => fail_with OutOfFuel
      | S fuel =>
          let! (rc, stmt, zLeftover) :=
            host (fun w => let '(rc, stmt, tail, w) := sqlite3_prepare zSql w in ((rc, stmt, tail), w)) in
          if negb (rc =? SQLITE_OK)%Z then
            let! msg := (if want_err then save_err_msg else sret None) in sret (rc, msg)
          else match stmt with
               | None => exec_loop fuel (skip_spaces zLeftover) want_err
               | Some st =>
                   let! rc := exec_statement zSql st in
                   if (rc =? SQLITE_OK)%Z then
                     update_data (set_pStmt false) ;! exec_loop fuel (skip_spaces zLeftover) want_err
                   else
                     let! msg := (if want_err then save_err_msg else sret None) in
                     update_data (set_pStmt false) ;! sret (rc, msg)
               end
      end
  end.

Definition shell_exec (zSql : string) (want_err : bool) : Sh W (Z * option string) :=
  let! r := exec_loop (String.length zSql) zSql want_err in
  host_ clearAffectedTables ;!
  pretty_print_if_needed ;!
  sret r.

(** ** Meta commands *)

(** *** Tokens *)

Definition ArraySize_azArg : nat := 50.

Fixpoint token_spaces (fuel : nat) (z : list ascii) (i : nat) : option nat :=
  match fuel, drop i z with
  | S fuel, c :: _ => if Ascii.is_space c then token_spaces fuel z (S i) else Some i
  | _, _ => None
  end.

(** The end of a quoted token. *)
Fixpoint token_quoted (fuel : nat) (z : list ascii) (i : nat) (delim : ascii) : option nat :=
  match fuel, drop i z with
  | S fuel, c :: l =>
      if decide (c = NUL) then Some i
      else if decide (c = delim) then Some i
      else if decide (c = "\"%char /\ delim = DQUOTE) then
        match l with
        | [] => None
        | c1 :: _ => if decide (c1 = NUL) then token_quoted fuel z (S i) delim
                     else token_quoted fuel z (S (S i)) delim
        end
      else token_quoted fuel z (S i) delim
  | _, _ => None
  end.

Fixpoint token_plain (fuel : nat) (z : list ascii) (i : nat) : option nat :=
  match fuel, drop i z with
  | S fuel, c :: _ => if decide (c = NUL) then Some i else if Ascii.is_space c then Some i else token_plain fuel z (S i)
  | _, _ => None
  end.

(** One token that starts at [i]: the buffer, the position after it and its start. *)
Definition one_token (z : list ascii) (i : nat) : option (list ascii * nat * nat) :=
  c ← z !! i;
  let fuel := S (length z) in
  if decide (c = "'"%char \/ c = DQUOTE) then
    let start := S i in
    e ← token_quoted fuel z start c;
    d ← z !! e;
    let '(z, e) := if decide (d = c) then (<[e := NUL]> z, S e) else (z, e) in
    z ← (if decide (c = DQUOTE) then resolve_backslashes fuel z start start else Some z);
    Some (z, e, start)
  else
    e ← token_plain fuel z i;
    d ← z !! e;
    let '(z, e) := if decide (d = NUL) then (z, e) else (<[e := NUL]> z, S e) in
    z ← resolve_backslashes fuel z i i;
    Some (z, e, i).

(** The tokens of a line: the buffer as it is left and where each token starts. *)
Fixpoint tokens (nArg : nat) (z : list ascii) (i : nat) (args : list nat) : option (list ascii * list nat) :=
  match nArg with
  | O => Some (z, args)
  | S nArg =>
      c ← z !! i;
      if decide (c = NUL) then Some (z, args)
      else
        i ← token_spaces (S (length z)) z i;
        c ← z !! i;
        if decide (c = NUL) then Some (z, args)
        else '(z, e, start) ← one_token z i; tokens nArg z e (args ++ [start])
  end.

(** The text at a position of a buffer. *)
Fixpoint c_string (z : list ascii) : option string :=
  match z with
  | [] => None
  | c :: z => if decide (c = NUL) then Some "" else String c <$> c_string z
  end.

(** [azArg] for a line: the buffer is the line and its terminator, the first character (the
    dot) is skipped. *)
Definition parse_tokens (zLine : string) : option (list string) :=
  '(z, args) ← tokens ArraySize_azArg (chars zLine ++ [NUL]) 1 [];
  mapM (fun i => c_string (drop i z)) args.

(** *** The commands *)

Definition meta_tables (azArg : list string) : Sh W unit :=
  let! tables := get_ (fun s => merge_sort String.le (table_names (world s))) in
  seq_ tables (fun t =>
    when (match azArg with
          | [_] => true
          | _ :: prefix :: _ => String.prefix prefix t
          | [] => false
          end) (out ("  => " +:+ t +:+ nl))).

Definition meta_types (zSql : string) : Sh W unit :=
  let! (status, columns) := host (query_columns zSql) in
  if Status_ok status then
    seq_ columns (fun c =>
      let! p := get_ data in
      match shell_callback (FLAGS_nullvalue flags) p
              (Some [Some (col_name c); Some (columnTypeName (col_type c))]) [Some "name"; Some "type"] with
      | Throw e => fail_with (Threw e)
      | Ok (p, t) => put_data p ;! out t
      end) ;!
    pretty_print_if_needed
  else out ("Error " +:+ to_string (code status) +:+ ": " +:+ message status +:+ nl).

Definition meta_schema (azArg : list string) : Sh W unit :=
  let! tables := get_ (fun s => table_names (world s)) in
  seq_ tables (fun t =>
    when (match azArg with _ :: prefix :: _ => String.prefix prefix t | _ => true end)
      (let! (status, response) := host (table_columns t) in
       when (Status_ok status)
         (out ("CREATE TABLE " +:+ t +:+ columnDefinition_response response true false +:+ ";" +:+ nl)))).

(** [row.at(name)]. *)
Definition at_ (r : Row) (name : string) : Sh W string :=
  match r !! name with Some v => sret v | None => fail_with (Threw (OutOfRange "map::at")) end.

Definition show_flags (indent : string) (rows : QueryData) : Sh W unit :=
  seq_ rows (fun flag =>
    let! name := at_ flag "name" in
    let! value := at_ flag "value" in
    out (indent +:+ name +:+ ": " +:+ value +:+ nl)).

Definition meta_features : Sh W unit :=
  let! rows := host (osquery_SQL ("select * from osquery_flags where (name like 'disable_%' or name like " +:+
                                  "'enable_%') and type = 'bool'")) in
  show_flags "" rows.

Definition meta_version : Sh W unit :=
  out ("osquery " +:+ kVersion +:+ nl) ;!
  out ("using SQLite " +:+ sqlite3_libversion +:+ nl).

(** [%13.13s: ]. *)
Definition label (name : string) : string := pad_left 13 (cut 13 name) +:+ ": ".

(** The details of a plugin: a path, a host, or nothing. *)
Definition plugin_detail (plugin path host_ endpoint : string) : string :=
  if bool_decide (plugin = "filesystem") then " (" +:+ path +:+ ")" +:+ nl
  else if bool_decide (plugin = "tls") then " (" +:+ host_ +:+ endpoint +:+ ")" +:+ nl
  else nl.

(** The widths up to the first that is zero. *)
Fixpoint leading_widths (l : list Z) : list Z :=
  match l with [] => [] | w :: l => if (w =? 0)%Z then [] else w :: leading_widths l end.

Definition show_settings (p : callback_data) : list string :=
  [nl +:+ "Shell settings:" +:+ nl;
   label "echo" +:+ (if (echoOn p =? 0)%Z then "off" else "on") +:+ nl;
   label "headers" +:+ (if (showHeader p =? 0)%Z then "off" else "on") +:+ nl;
   label "mode" +:+ modeDescr (mode p) +:+ nl;
   label "nullvalue" +:+ output_c_string (nullvalue p) +:+ nl;
   label "output" +:+ (if (strlen30 (outfile p) =? 0)%Z then "stdout" else outfile p) +:+ nl;
   label "separator" +:+ output_c_string (separator p) +:+ nl;
   label "width" +:+ String.concat "" ((fun w => to_string w +:+ " ") <$> leading_widths (colWidth p)) +:+ nl].

Definition meta_show : Sh W unit :=
  print_bold "osquery" ;!
  out (" - being built, with love, at Facebook" +:+ nl +:+ "~~~~~~~~~~~~~~~~~~~~~~~~~~~~~~~~~~~~~~~~~~~~~" +:+ nl) ;!
  meta_version ;!
  out (nl +:+ "General settings:" +:+ nl) ;!
  out (label "Flagfile" +:+ FLAGS_flagfile flags +:+ nl) ;!
  out (label "Config" +:+ FLAGS_config_plugin flags +:+
       plugin_detail (FLAGS_config_plugin flags) (FLAGS_config_path flags) (FLAGS_tls_hostname flags)
         (FLAGS_config_tls_endpoint flags)) ;!
  out (label "Logger" +:+ FLAGS_logger_plugin flags +:+
       plugin_detail (FLAGS_logger_plugin flags) (FLAGS_logger_path flags) (FLAGS_tls_hostname flags)
         (FLAGS_logger_tls_endpoint flags)) ;!
  out (label "Distributed" +:+ FLAGS_distributed_plugin flags +:+ nl) ;!
  let! database := get_ (fun s => active_database (world s)) in
  out (label "Database" +:+ database +:+
       (if bool_decide (database = "rocksdb") then " (" +:+ FLAGS_database_path flags +:+ ")" +:+ nl else nl)) ;!
  let! results := host (selectAllFrom "osquery_extensions") in
  match mapM (fun r : Row => r !! "name") results with
  | None => fail_with (Threw (OutOfRange "map::at"))
  | Some extensions =>
      out (label "Extensions" +:+ boost_join extensions ", " +:+ nl) ;!
      out (label "Socket" +:+ FLAGS_extensions_socket flags +:+ nl) ;!
      let! p := get_ data in
      seq_ (show_settings p) out ;!
      out (nl +:+ "Non-default flags/options:" +:+ nl) ;!
      let! rows := host (osquery_SQL "select * from osquery_flags where default_value <> value") in
      show_flags "  " rows
  end.

(** [sqlite3_snprintf] into one of the arrays of 20 bytes. *)
Definition snprintf20 (z : string) : string := String.substring 0 19 z.

Definition boolean_arg (z : string) (k : Z -> Sh W unit) : Sh W unit :=
  let '(v, complaint) := booleanValue z in seq_ complaint err ;! k v.

(** The mode a name stands for. *)
Definition mode_of (z : string) : option output_mode :=
  if bool_decide (z = "line") || bool_decide (z = "lines") then Some MODE_Line
  else if bool_decide (z = "column") || bool_decide (z = "columns") then Some MODE_Column
  else if bool_decide (z = "list") then Some MODE_List
  else if bool_decide (z = "pretty") then Some MODE_Pretty
  else if bool_decide (z = "csv") then Some MODE_Csv
  else None.

(** [.width]: the first element of the array gets the first argument. *)
Definition set_widths (azArg : list string) (widths : list Z) : list Z :=
  let args := take (ArraySize_width - 1) (drop 1 azArg) in
  ((fun z => i32 (integerValue z)) <$> args) ++ drop (length args) widths.


Definition zHelp : list string :=
  [
   "Welcome to the osquery shell. Please explore your OS!";
   "You are connected to a transient 'in-memory' virtual database.";
   "";
   ".all [TABLE]     Select all from a table";
   ".bail ON|OFF     Stop after hitting an error";
   ".echo ON|OFF     Turn command echo on or off";
   ".exit            Exit this program";
   ".features        List osquery's features and their statuses";
   ".headers ON|OFF  Turn display of headers on or off";
   ".help            Show this message";
   ".mode MODE       Set output mode where MODE is one of:";
   "                   csv      Comma-separated values";
   "                   column   Left-aligned columns see .width";
   "                   line     One value per line";
   "                   list     Values delimited by .separator string";
   "                   pretty   Pretty printed SQL results (default)";
   ".nullvalue STR   Use STRING in place of NULL values";
   ".print STR...    Print literal STRING";
   ".quit            Exit this program";
   ".schema [TABLE]  Show the CREATE statements";
   ".separator STR   Change separator used by output mode";
   ".socket          Show the osquery extensions socket path";
   ".show            Show the current values for various settings";
   ".summary         Alias for the show meta command";
   ".tables [TABLE]  List names of tables";
   ".types [SQL]     Show result of getQueryColumns for the given query";
   (".width [NUM1]+   Set column widths for " +:+ String DQUOTE ("column" +:+ String DQUOTE (" mode")))].
Definition zTimerHelp : string := ".timer ON|OFF      Turn the CPU timer measurement on or off".

(** [c == name[0] && strncmp(azArg[0], name, n) == 0]: the word typed is a beginning of the
    name, and not empty. *)
Definition is_cmd (azArg0 name : string) : bool :=
  bool_decide (char_at azArg0 0 = char_at name 0) && strncmp_eq azArg0 name (String.length azArg0).

(** [.all]: the callback data is copied byte by byte, so the copy prints into the tables of
    the original; the rest of the copy is dropped. *)
Definition select_all (table : string) : Sh W Z :=
  let! p := get_ data in
  let! (rc, _) := shell_exec ("SELECT * FROM " +:+ table) false in
  update_data (fun p' => set_prettyPrint (prettyPrint_ p') p) ;!
  when (negb (rc =? SQLITE_OK)%Z) (err ("Error querying table: " +:+ table +:+ nl)) ;!
  sret rc.

Definition unknown_command (azArg0 : string) : Sh W Z :=
  err ("Error: unknown command or invalid arguments:  " +:+ String DQUOTE azArg0 +:+ String DQUOTE
       (". Enter " +:+ String DQUOTE (".help" +:+ String DQUOTE (" for help" +:+ nl)))) ;!
  sret 1%Z.

Definition set_output_mode (z : string) : Sh W Z :=
  match mode_of z with
  | Some m =>
      update_data (set_mode m) ;!
      when (match m with MODE_Csv => true | _ => false end) (update_data (set_separator ",")) ;!
      sret 0%Z
  | None => err ("Error: mode should be one of: column csv line list pretty" +:+ nl) ;! sret 1%Z
  end.

(** The commands after the tokens are known. *)
Definition run_command (azArg : list string) : Sh W Z :=
  match azArg with
  | [] => sret 0%Z
  | a0 :: args =>
      let nArg := length azArg in
      let n := String.length a0 in
      let cmd := is_cmd a0 in
      let a1 := default "" (args !! 0%nat) in
      let done_ (m : Sh W unit) : Sh W Z := m ;! sret 0%Z in
      if cmd "all" && (nArg =? 2)%nat then select_all a1
      else if cmd "socket" && (nArg =? 1)%nat then done_ (out (FLAGS_extensions_socket flags +:+ nl))
      else if cmd "bail" && (3 <=? n)%nat && (nArg =? 2)%nat then done_ (boolean_arg a1 set_bail)
      else if cmd "echo" && (nArg =? 2)%nat then done_ (boolean_arg a1 (fun v => update_data (set_echoOn v)))
      else if cmd "exit" then
        let rc := i32 (integerValue a1) in
        if (1 <? nArg)%nat && negb (rc =? 0)%Z then fail_with (Exited rc) else sret 2%Z
      else if cmd "features" && (nArg =? 1)%nat then done_ meta_features
      else if (cmd "header" || cmd "headers") && (nArg =? 2)%nat then
        done_ (boolean_arg a1 (fun v => update_data (set_showHeader v)))
      else if cmd "help" then
        done_ (err (String.concat "" ((fun l => l +:+ nl) <$> zHelp)) ;! err (zTimerHelp +:+ nl))
      else if cmd "mode" && (nArg =? 2)%nat then set_output_mode a1
      else if cmd "nullvalue" && (nArg =? 2)%nat then done_ (update_data (set_nullvalue (snprintf20 a1)))
      else if cmd "print" && (3 <=? n)%nat then done_ (out (String.concat " " args +:+ nl))
      else if cmd "quit" && (nArg =? 1)%nat then sret 2%Z
      else if cmd "schema" && (nArg <? 3)%nat then done_ (meta_schema azArg)
      else if cmd "separator" && (nArg =? 2)%nat then done_ (update_data (set_separator (snprintf20 a1)))
      else if (cmd "show" || cmd "summary") && (nArg =? 1)%nat then done_ meta_show
      else if cmd "tables" && (1 <? n)%nat && (nArg <? 3)%nat then done_ (meta_tables azArg)
      else if cmd "list" && (1 <? n)%nat && (nArg <? 3)%nat then done_ (meta_tables azArg)
      else if cmd "timeout" && (4 <? n)%nat && (nArg =? 2)%nat then
        done_ (host_ (sqlite3_busy_timeout (i32 (integerValue a1))))
      else if cmd "timer" && (5 <=? n)%nat && (nArg =? 2)%nat then done_ (boolean_arg a1 set_timer)
      else if cmd "version" then done_ meta_version
      else if cmd "width" && (1 <? nArg)%nat then done_ (update_data (fun p => set_colWidth (set_widths azArg (colWidth p)) p))
      else unknown_command a0
  end.

Definition do_meta_command (zLine : string) : Sh W Z :=
  match parse_tokens zLine with
  | None => fail_with Undefined
  | Some azArg => run_command azArg
  end.

(** ** Input *)

(** [fgets(buffer, size, in)]: what is stored, and the rest of the file. *)
Fixpoint fgets_take (n : nat) (inp : list ascii) : list ascii * list ascii :=
  match n, inp with
  | S n, c :: inp => if decide (c = "010"%char) then ([c], inp)
                     else let '(l, r) := fgets_take n inp in (c :: l, r)
  | _, _ => ([], inp)
  end.

Definition fgets (size : nat) (inp : list ascii) : option (list ascii * list ascii) :=
  match inp with [] => None | _ => Some (fgets_take (size - 1) inp) end.

(** A reader of the buffer sees a chunk up to its first NUL. *)
Fixpoint until_nul (l : list ascii) : list ascii :=
  match l with [] => [] | c :: l => if decide (c = NUL) then [] else c :: until_nul l end.

(** The line without the newline and a carriage return before it, when it ends in one. *)
Definition chomp (line : list ascii) : option (list ascii) :=
  match reverse line with
  | "010"%char :: "013"%char :: l => Some (reverse l)
  | "010"%char :: l => Some (reverse l)
  | _ => None
  end.

(** The loop of [local_getline]: [line] is what [zLine] holds, [nLine] its size. *)
Fixpoint getline_loop (fuel : nat) (nLine : nat) (line inp : list ascii)
    : Sh W (option (list ascii) * list ascii) :=
  match fuel with
  | O => fail_with OutOfFuel
  | S fuel =>
      let n := length line in
      let grown := (nLine <? n + 100)%nat in
      let nLine := if grown then (nLine * 2 + 100)%nat else nLine in
      let! ok := (if grown then host (malloc (Z.of_nat nLine)) else sret true) in
      if negb ok then sret (None, inp)
      else match fgets (nLine - n) inp with
           | None => sret (if (n =? 0)%nat then None else Some line, inp)
           | Some (chunk, rest) =>
               let line := line ++ until_nul chunk in
               match chomp line with
               | Some l => sret (Some l, rest)
               | None => getline_loop fuel nLine line rest
               end
           end
  end.

(** [reuse]: there is a buffer of an earlier call. *)
Definition local_getline (reuse : bool) (inp : list ascii) : Sh W (option (list ascii) * list ascii) :=
  getline_loop (S (length inp)) (if reuse then 100 else 0) [] inp.

(** [one_input_line]: a file is the bytes left of it, [None] is the terminal. *)
Definition one_input_line (inp : option (list ascii)) (reuse isContinuation : bool)
    : Sh W (option string * option (list ascii)) :=
  match inp with
  | Some bytes =>
      let! (l, rest) := local_getline reuse bytes in
      sret (of_chars <$> l, Some rest)
  | None =>
      let! prompt := get_ (if isContinuation then continuePrompt else mainPrompt) in
      let! l := host (linenoise prompt) in
      match l with
      | Some (String _ _ as z) => host_ (linenoiseHistoryAdd z) ;! sret (l, None)
      | _ => sret (l, None)
      end
  end.

(** The variables of [process_input]; [nSql] is the length of [zSql]. *)
Record input_state := mkInput {
  zSql : string;
  nAlloc : Z;
  errCnt : Z;
  lineno : Z;
  startline : Z;
  typesQuery : bool;
}.
Definition input_init : input_state := mkInput "" 0 0 0 0 false.

(** A complete statement is run; the result is whether it counts as an error. *)
Definition run_sql (file : bool) (line : Z) (sql : string) : Sh W bool :=
  update_data (set_cnt 0) ;!
  let! t := get_ enableTimer in
  when (negb (t =? 0)%Z) (host_ beginTimer) ;!
  let! (rc, zErrMsg) := shell_exec sql true in
  let! t := get_ enableTimer in
  when (negb (t =? 0)%Z) (let! report := host endTimer in out report) ;!
  if negb (rc =? 0)%Z || match zErrMsg with Some _ => true | None => false end then
    let! tty := get_ stdin_is_interactive in
    let zPrefix := if file || negb tty then "Error: near line " +:+ to_string line +:+ ":" else "Error:" in
    match zErrMsg with Some m => err (zPrefix +:+ " " +:+ m +:+ nl) | None => sret tt end ;!
    sret true
  else sret false.

(** The first line of a statement, less the name of the command and the space in front.
    The seven characters are skipped whatever the line is. *)
Definition first_text (types : bool) (zLine : string) : option string :=
  if types then if (String.length zLine <? 7)%nat then None
                else Some (skip_spaces (String.substring 7 (String.length zLine) zLine))
  else Some (skip_spaces zLine).

(** The line joins the statement; the boolean tells whether it has a semicolon. *)
Definition add_line (st : input_state) (zLine : string) : Sh W (input_state * bool) :=
  let nSql := Z.of_nat (String.length (zSql st)) in
  let nLine := Z.of_nat (String.length zLine) in
  let grown := (nAlloc st <=? nSql + nLine + 2)%Z in
  let nAlloc := if grown then (nSql + nLine + 100)%Z else nAlloc st in
  let! ok := (if grown then host (malloc nAlloc) else sret true) in
  if negb ok then err ("Error: out of memory" +:+ nl) ;! fail_with (Exited 1)
  else
    let text := if is_empty (zSql st) then first_text (typesQuery st) zLine else Some (zSql st +:+ nl +:+ zLine) in
    match text with
    | None => fail_with Undefined
    | Some sql =>
        if (nAlloc <? Z.of_nat (String.length sql) + 1)%Z then fail_with Undefined
        else
          let start := if is_empty (zSql st) then lineno st else startline st in
          sret (mkInput sql nAlloc (errCnt st) (lineno st) start (typesQuery st),
                line_contains_semicolon (String.substring (String.length (zSql st)) (String.length sql) sql))
    end.

Definition clear_sql (st : input_state) : input_state :=
  mkInput "" (nAlloc st) (errCnt st) (lineno st) (startline st) (typesQuery st).

(** What is done with the statement collected so far. *)
Definition run_collected (file : bool) (st : input_state) (semicolon : bool) : Sh W input_state :=
  if negb (is_empty (zSql st)) && semicolon && sqlite3_complete (zSql st) then
    if typesQuery st then
      meta_types (zSql st) ;!
      sret (mkInput "" (nAlloc st) (errCnt st) (lineno st) (startline st) false)
    else
      let! failed := run_sql file (startline st) (zSql st) in
      sret (mkInput "" (nAlloc st) (errCnt st + if (failed : bool) then 1 else 0) (lineno st) (startline st) false)
  else if negb (is_empty (zSql st)) && _all_whitespace (zSql st) then
    let! p := get_ data in
    when (negb (echoOn p =? 0)%Z) (out (zSql st +:+ nl)) ;!
    sret (clear_sql st)
  else sret st.

(** One line of input: [Next] goes on, [Return] leaves the loop. *)
Definition process_line (file : bool) (st : input_state) (zLine : string) : Sh W (flow input_state input_state) :=
  let st := mkInput (zSql st) (nAlloc st) (errCnt st) (lineno st + 1) (startline st) (typesQuery st) in
  let! p := get_ data in
  let echo := when (negb (echoOn p =? 0)%Z) (out (zLine +:+ nl)) in
  let collect st :=
    let! (st, semicolon) := add_line st zLine in
    let! st := run_collected file st semicolon in
    sret (Next st) in
  if is_empty (zSql st) && _all_whitespace zLine then echo ;! sret (Next st)
  else if bool_decide (char_at zLine 0 = "."%char) && is_empty (zSql st) then
    echo ;!
    if strncmp_eq zLine ".types " 7 then
      collect (mkInput (zSql st) (nAlloc st) (errCnt st) (lineno st) (startline st) true)
    else
      let! rc := do_meta_command zLine in
      if (rc =? 2)%Z then sret (Return st)
      else sret (Next (mkInput (zSql st) (nAlloc st) (errCnt st + if (rc =? 0)%Z then 0 else 1) (lineno st)
                         (startline st) (typesQuery st)))
  else collect st.

(** After a line was read: whether the loop is left. *)
Definition check_interrupt (file : bool) : Sh W bool :=
  let! arrived := host sigint in
  when arrived interrupt_handler ;!
  let! seen := get_ seenInterrupt in
  if (seen =? 0)%Z then sret false
  else if file then sret true
  else set_interrupt 0 ;! sret false.

Fixpoint process_loop (fuel : nat) (inp : option (list ascii)) (reuse : bool) (st : input_state) : Sh W input_state :=
  match fuel with
  | O => fail_with OutOfFuel
  | S fuel =>
      let file := match inp with Some _ => true | None => false end in
      let! bail := get_ bail_on_error in
      let! tty := get_ stdin_is_interactive in
      if negb ((errCnt st =? 0)%Z || (bail =? 0)%Z || (negb file && tty)) then sret st
      else
        let! (zLine, inp) := one_input_line inp reuse (negb (is_empty (zSql st))) in
        match zLine with
        | None => when tty (out nl) ;! sret st
        | Some zLine =>
            let! stop := check_interrupt file in
            if (stop : bool) then sret st
            else
              let! next := process_line file st zLine in
              match next with
              | Next st => process_loop fuel inp true st
              | Return st => sret st
              end
        end
  end.

Definition process_input (fuel : nat) (inp : option (list ascii)) : Sh W Z :=
  let! st := process_loop fuel inp false input_init in
  when (negb (is_empty (zSql st)) && negb (_all_whitespace (zSql st)))
    (err ("Error: incomplete SQL: " +:+ zSql st +:+ nl)) ;!
  sret (if (0 <? errCnt st)%Z then 1 else 0)%Z.

(** ** The program *)

(** [main_init]: the callback data, and the two prompts. *)
Definition data_init : callback_data :=
  mkData 0 0 MODE_Pretty 1 None "|" (replicate ArraySize_width 0%Z) (replicate ArraySize_width 0%Z) "" "" false pretty_empty.

Definition purple (t : string) : string :=
  String "027" ("[38;5;147m" +:+ t +:+ String "027" "[0m").

Definition prompts : string * string :=
  if match env_TERM with Some t => bool_decide (is_Some (find_str "xterm-256color" t)) | None => false end
  then (String.substring 0 25 (purple "osquery> "), String.substring 0 25 (purple "    ...> "))
  else ("osquery> ", "    ...> ").

Definition main_init (tty : bool) (w : W) : Shell W :=
  mkShell data_init 0 0 0 tty prompts.1 prompts.2 printer_init [] w.

Definition tableCompletionFunction (prefix : string) (w : W) : list string :=
  filter (fun t => boost_starts_with t prefix = true) (table_names w).

Definition runQuery (query : string) : Sh W Z :=
  let! (rc, error) := shell_exec query true in
  match error with
  | Some e => err ("Error: " +:+ e +:+ nl) ;! sret (if (rc =? 0)%Z then 1%Z else rc)
  | None =>
      when (negb (rc =? 0)%Z) (err ("Error: unable to process SQL " +:+ String DQUOTE query +:+ String DQUOTE nl)) ;!
      sret rc
  end.

(** The queries of one pack, up to the first that fails. *)
Fixpoint run_schedule (schedule : list (string * string)) (rc : Z) : Sh W Z :=
  match schedule with
  | [] => sret rc
  | (name, query) :: schedule =>
      let! rc := runQuery query in
      if (rc =? 0)%Z then run_schedule schedule rc
      else err ("Could not execute query " +:+ name +:+ ": " +:+ query +:+ nl) ;! sret rc
  end.

Fixpoint run_packs (packs : list (string * list (string * string))) (rc : Z) : Sh W Z :=
  match packs with
  | [] => sret rc
  | (name, schedule) :: packs =>
      let! rc := (if bool_decide (name = FLAGS_pack flags) then run_schedule schedule rc else sret rc) in
      run_packs packs rc
  end.

Definition runPack : Sh W Z := let! packs := get_ (fun s => config_packs (world s)) in run_packs packs 0.

(** The settings of the command line. *)
Definition flag_mode : output_mode :=
  if FLAGS_list flags then MODE_List
  else if FLAGS_line flags then MODE_Line
  else if FLAGS_csv flags then MODE_Csv
  else MODE_Pretty.

Definition flag_data (p : callback_data) : callback_data :=
  let p := set_showHeader (if FLAGS_header flags then 1 else 0)%Z p in
  let p := set_mode flag_mode p in
  let p := match flag_mode with MODE_Csv => set_separator "," p | _ => p end in
  let p := set_separator (snprintf20 (FLAGS_separator flags)) p in
  set_nullvalue (snprintf20 (FLAGS_nullvalue flags)) p.

(** [launchIntoShell]: the argument of the command line, and standard input as a file. *)
Definition launchIntoShell (fuel : nat) (argv1 : option string) (stdin : list ascii) : Sh W Z :=
  host_ attach_shellstatic ;!
  update_data flag_data ;!
  let cleanup rc := set_table_name None ;! sret rc in
  if FLAGS_L flags || negb (is_empty (FLAGS_A flags)) then
    let! rc := do_meta_command (if FLAGS_L flags then ".tables" else ".all " +:+ FLAGS_A flags) in cleanup rc
  else if negb (is_empty (FLAGS_pack flags)) then let! rc := runPack in cleanup rc
  else match argv1 with
       | Some query =>
           if bool_decide (char_at query 0 = "."%char) then
             let! rc := do_meta_command query in cleanup (if (rc =? 2)%Z then 0%Z else rc)
           else
             let! rc := runQuery query in
             if (rc =? 0)%Z then cleanup rc else sret rc
       | None =>
           let! tty := get_ stdin_is_interactive in
           if (tty : bool) then
             out "Using a " ;! print_bold "virtual database" ;! out (". Need help, type '.help'" +:+ nl) ;!
             host_ linenoiseHistoryLoad ;!
             let! rc := process_input fuel None in
             host_ linenoiseHistorySave ;! cleanup rc
           else let! rc := process_input fuel (Some stdin) in cleanup rc
       end.
End Shell.


(** ** Quoting and reading back *)

(** How a character is printed: as itself, or as a backslash and text that is read back as
    the character. *)
Lemma c_escape_shape c : c <> NUL ->
  (c_escape c = [c] /\ c <> "\"%char /\ c <> DQUOTE) \/
  (exists x l, c_escape c = "\"%char :: x :: l /\ x <> NUL /\
     Forall (fun d => d <> NUL /\ d <> "\"%char /\ d <> DQUOTE) l /\
     forall r, escape (x :: l ++ r) = Some (c, S (length l))).
Proof.
  intros Hc. unfold c_escape. repeat case_decide; subst.
  1-5: right; eexists _, []; split; [done|]; split; [done|]; split; [constructor|]; by intros r.
  destruct (isprint c) eqn:E; [by left|]. right.
  eexists _, [_; _]. split; [done|].
  destruct c as [[] [] [] [] [] [] [] []]; try done.
  all: (split; [done|]; split; [repeat constructor; done|]; by intros r).
Qed.

Lemma drop_insert_here {A} (l : list A) j x : (j < length l)%nat -> drop j (<[j := x]> l) = x :: drop (S j) l.
Proof.
  intros Hj. rewrite (drop_S _ x j) by (by rewrite list_lookup_insert_eq).
  by rewrite drop_insert_lt by lia.
Qed.

Lemma drop_cons_lt {A} (l : list A) i x r : drop i l = x :: r -> (i < length l)%nat.
Proof. intros H. apply (f_equal length) in H. rewrite length_drop in H. simpl in H. lia. Qed.

Lemma drop_cons_app {A} (l : list A) i a r : drop i l = a ++ r -> drop (i + length a) l = r.
Proof. intros H. rewrite <- drop_drop, H. by rewrite drop_app_length. Qed.

(** One character of a quoted text is resolved. *)
Lemma resolve_char fuel z i j c r : c <> NUL -> drop i z = c_escape c ++ r ->
  resolve_backslashes (S fuel) z i j
  = resolve_backslashes fuel (<[j := c]> z) (i + length (c_escape c)) (S j).
Proof.
  intros Hc Hz. cbn [resolve_backslashes].
  destruct (c_escape_shape c Hc) as [(E & Hb & _)|(x & l & E & Hx & _ & Hr)]; rewrite E in Hz; rewrite Hz, E; cbn [app length].
  - rewrite (decide_False (P := c = NUL)), (decide_False (P := c = "\"%char)) by done. by rewrite Nat.add_1_r.
  - rewrite (decide_False (P := "\"%char = NUL)), (decide_True (P := "\"%char = "\"%char)) by done.
    rewrite Hr. cbn. f_equal. lia.
Qed.

Lemma c_escape_length c : (1 <= length (c_escape c))%nat.
Proof. unfold c_escape. repeat case_decide; simpl; try lia. case_match; simpl; lia. Qed.

(** A quoted text is resolved in place; what is behind its terminator is not touched. *)
Lemma resolve_escapes s z fuel i j post :
  Forall (fun c => c <> NUL) s -> drop i z = flat_map c_escape s ++ NUL :: post -> (j <= i)%nat ->
  (length s < fuel)%nat ->
  exists z' post', resolve_backslashes fuel z i j = Some z' /\ take j z' = take j z /\
    drop j z' = s ++ NUL :: post' /\ length z' = length z /\
    drop (S (i + length (flat_map c_escape s))) z' = drop (S (i + length (flat_map c_escape s))) z.
Proof.
  intros Hs. revert z fuel i j. induction Hs as [|c s Hc _ IH]; intros z fuel i j Hz Hj Hf.
  - destruct fuel as [|fuel]; [simpl in Hf; lia|]. simpl in *. rewrite Hz. simpl.
    apply drop_cons_lt in Hz. exists (<[j := NUL]> z), (drop (S j) z). split; [done|].
    split; [by rewrite take_insert_ge by lia|]. split; [by rewrite drop_insert_here by lia|].
    split; [apply length_insert|]. rewrite drop_insert_lt by lia. done.
  - destruct fuel as [|fuel]; [simpl in Hf; lia|]. simpl in Hz. rewrite <- app_assoc in Hz.
    rewrite (resolve_char _ z i j c _ Hc Hz). pose proof (c_escape_length c) as Hl.
    assert (i < length z)%nat as Hi.
    { destruct (c_escape c) as [|x l]; [simpl in Hl; lia|]. by eapply drop_cons_lt. }
    destruct (IH (<[j := c]> z) fuel (i + length (c_escape c))%nat (S j)) as (z' & post' & H1 & H2 & H3 & H4 & H5).
    { rewrite drop_insert_lt by lia. by apply drop_cons_app. }
    { lia. } { simpl in Hf. lia. }
    exists z', post'. split; [done|]. rewrite length_insert in H4.
    assert (j < length z')%nat by lia.
    assert (z' !! j = Some c) as Hjc.
    { rewrite <- (lookup_take_lt z' (S j)) by lia. rewrite H2, lookup_take_lt by lia.
      apply list_lookup_insert_eq. lia. }
    split.
    { assert (forall l : list ascii, take j (take (S j) l) = take j l) as Htt by (intros; rewrite take_take; f_equal; lia).
      rewrite <- (Htt z'), H2, Htt. by rewrite take_insert_ge by lia. }
    split; [by rewrite (drop_S _ c j Hjc), H3|]. split; [done|].
    simpl. rewrite length_app, Nat.add_assoc, H5. by rewrite drop_insert_lt by lia.
Qed.

(** The scan of a quoted token stops at the closing quote. *)
Lemma token_quoted_plain l z i fuel r : Forall (fun d => d <> NUL /\ d <> "\"%char /\ d <> DQUOTE) l ->
  drop i z = l ++ r -> token_quoted (length l + fuel) z i DQUOTE = token_quoted fuel z (i + length l) DQUOTE.
Proof.
  intros Hl. revert i. induction Hl as [|d l (H1 & H2 & H3) _ IH]; intros i Hz; simpl; [by rewrite Nat.add_0_r|].
  rewrite Hz. simpl. rewrite !decide_False by naive_solver.
  rewrite (IH (S i)); [f_equal; lia|]. rewrite <- Nat.add_1_r, <- drop_drop, Hz. done.
Qed.

Lemma token_quoted_escapes s z fuel i post : Forall (fun c => c <> NUL) s ->
  drop i z = flat_map c_escape s ++ DQUOTE :: post -> (length (flat_map c_escape s) < fuel)%nat ->
  token_quoted fuel z i DQUOTE = Some (i + length (flat_map c_escape s))%nat.
Proof.
  intros Hs. revert fuel i. induction Hs as [|c s Hc _ IH]; intros fuel i Hz Hf.
  - destruct fuel as [|fuel]; [simpl in Hf; lia|]. simpl in *. rewrite Hz. simpl. by rewrite Nat.add_0_r.
  - simpl in Hz, Hf. rewrite <- app_assoc in Hz. rewrite length_app in Hf.
    pose proof (drop_cons_app _ _ _ _ Hz) as Hz'.
    destruct (c_escape_shape c Hc) as [(E & Hb & Hq)|(x & l & E & Hx & Hl & _)].
    + replace fuel with (length (c_escape c) + (fuel - length (c_escape c)))%nat by lia.
      rewrite E in *. rewrite (token_quoted_plain [c] z i _ _ ltac:(by repeat constructor) Hz).
      simpl. rewrite (IH _ (i + 1)%nat Hz') by (simpl in *; lia). rewrite E. simpl. f_equal. lia.
    + rewrite E in *. simpl in Hf. destruct fuel as [|fuel]; [lia|].
      cbn [token_quoted]. rewrite Hz. cbn [app].
      rewrite (decide_False (P := "\"%char = NUL)), (decide_False (P := "\"%char = DQUOTE)),
        (decide_True (P := "\"%char = "\"%char /\ DQUOTE = DQUOTE)), (decide_False (P := x = NUL)) by done.
      replace fuel with (length l + (fuel - length l))%nat by lia.
      rewrite (token_quoted_plain l z (S (S i)) _ (flat_map c_escape s ++ DQUOTE :: post) Hl).
      2: { replace (S (S i)) with (i + 2)%nat by lia. by rewrite <- drop_drop, Hz. }
      rewrite (IH _ (S (S i) + length l)%nat); [cbn [flat_map]; rewrite length_app, E; simpl; f_equal; lia | | lia].
      rewrite <- Hz'. f_equal. simpl. lia.
Qed.

(** *** Tokens *)

(** A word: letters, digits and underscores. *)
Definition word_char (c : ascii) : bool := isalnum c || bool_decide (c = "_"%char).
Definition word (l : list ascii) : Prop := l <> [] /\ Forall (fun c => word_char c = true) l.

Lemma word_char_plain c : word_char c = true ->
  c_escape c = [c] /\ c <> NUL /\ Ascii.is_space c = false /\ c <> "'"%char /\ c <> DQUOTE.
Proof. destruct c as [[] [] [] [] [] [] [] []]; vm_compute; naive_solver. Qed.

Lemma word_escapes l : Forall (fun c => word_char c = true) l -> flat_map c_escape l = l.
Proof.
  induction 1 as [|c l Hc _ IH]; simpl; [done|]. destruct (word_char_plain c Hc) as (-> & _). by rewrite IH.
Qed.

Lemma c_string_spec l r : Forall (fun c => c <> NUL) l -> c_string (l ++ NUL :: r) = Some (of_chars l).
Proof.
  induction 1 as [|c l Hc _ IH]; simpl; [done|]. by rewrite decide_False, IH by done.
Qed.

Lemma lookup_of_drop {A} (z : list A) i c r : drop i z = c :: r -> z !! i = Some c.
Proof. intros E. rewrite <- (Nat.add_0_r i), <- lookup_drop. by rewrite E. Qed.

Lemma token_plain_word l z fuel i d r : Forall (fun c => word_char c = true) l -> Ascii.is_space d = true ->
  drop i z = l ++ d :: r -> (length l < fuel)%nat -> token_plain fuel z i = Some (i + length l)%nat.
Proof.
  intros Hl Hd. revert fuel i. induction Hl as [|c l Hc _ IH]; intros fuel i Hz Hf; (destruct fuel as [|fuel]; [simpl in Hf; lia|]).
  - simpl in *. rewrite Hz, Hd. case_decide; by rewrite Nat.add_0_r.
  - cbn [token_plain]. rewrite Hz. cbn [app]. destruct (word_char_plain c Hc) as (_ & Hn & Hs & _).
    rewrite (decide_False (P := c = NUL)), Hs by done.
    rewrite (IH fuel (S i)); [simpl; f_equal; lia | | simpl in Hf; lia].
    by rewrite <- Nat.add_1_r, <- drop_drop, Hz.
Qed.

(** The token of a word that a space ends. *)
Lemma one_token_word l z i d r : word l -> Ascii.is_space d = true -> d <> NUL -> drop i z = l ++ d :: r ->
  exists z', one_token z i = Some (z', S (i + length l), i) /\ take i z' = take i z /\ length z' = length z /\
    (exists post, drop i z' = l ++ NUL :: post) /\ drop (S (i + length l)) z' = r.
Proof.
  intros [Hne Hl] Hd Hdn Hz. unfold one_token.
  destruct l as [|c l0] eqn:El; [done|]. rewrite <- El in *.
  assert (word_char c = true) as Hc by (rewrite El in Hl; by inversion Hl).
  destruct (word_char_plain c Hc) as (_ & Hn & _ & Hq & Hdq).
  rewrite (lookup_of_drop z i c (l0 ++ d :: r)) by (by rewrite Hz, El). cbn [mbind option_bind].
  rewrite decide_False by naive_solver.
  pose proof (f_equal length Hz) as Hlen. rewrite length_drop, length_app in Hlen. simpl in Hlen.
  rewrite (token_plain_word l z _ i d r) by (done || lia). cbn [mbind option_bind].
  pose proof (drop_cons_app _ _ _ _ Hz) as Hz'.
  rewrite (lookup_of_drop z (i + length l) d r) by done. cbn [mbind option_bind].
  rewrite (decide_False (P := d = NUL)) by done.
  destruct (resolve_escapes l (<[i + length l := NUL]> z) (S (length z)) i i r) as (z' & post & H1 & H2 & H3 & H4 & H5).
  { eapply Forall_impl; [exact Hl|]. intros x Hx. by destruct (word_char_plain x Hx) as (_ & ? & _). }
  { rewrite word_escapes by done.
    rewrite <- (take_drop (length l) (drop i (<[i + length l := NUL]> z))).
    rewrite drop_drop, drop_insert_here by lia. f_equal.
    - rewrite take_drop_commute, take_insert_ge by lia. rewrite <- take_drop_commute, Hz. by rewrite take_app_length.
    - f_equal. rewrite <- Nat.add_1_r, <- drop_drop, Hz'. done. }
  { lia. } { lia. }
  rewrite H1. cbn [mbind option_bind]. exists z'. rewrite length_insert in H4. rewrite word_escapes in H5 by done.
  split; [done|]. split; [by rewrite H2, take_insert_ge by lia|]. split; [done|]. split; [by exists post|].
  rewrite H5, drop_insert_lt by lia. by rewrite <- Nat.add_1_r, <- drop_drop, Hz'.
Qed.

(** The token of a quoted text. *)
Lemma one_token_quoted s z i r : Forall (fun c => c <> NUL) s ->
  drop i z = DQUOTE :: flat_map c_escape s ++ DQUOTE :: r ->
  exists z', one_token z i = Some (z', S (S i + length (flat_map c_escape s)), S i) /\
    take (S i) z' = take (S i) z /\ (exists post, drop (S i) z' = s ++ NUL :: post) /\
    drop (S (S i + length (flat_map c_escape s))) z' = r.
Proof.
  intros Hs Hz. unfold one_token. rewrite (lookup_of_drop _ _ _ _ Hz). cbn [mbind option_bind].
  rewrite decide_True by (by right).
  pose proof (f_equal length Hz) as Hlen. rewrite length_drop in Hlen. cbn [length] in Hlen.
  rewrite length_app in Hlen. cbn [length] in Hlen.
  assert (drop (S i) z = flat_map c_escape s ++ DQUOTE :: r) as Hz1 by (by rewrite <- Nat.add_1_r, <- drop_drop, Hz).
  rewrite (token_quoted_escapes s z _ (S i) r) by (done || lia). cbn [mbind option_bind].
  pose proof (drop_cons_app _ _ _ _ Hz1) as Hz'.
  rewrite (lookup_of_drop _ _ _ _ Hz'). cbn [mbind option_bind].
  rewrite (decide_True (P := DQUOTE = DQUOTE)) by done.
  set (e := (S i + length (flat_map c_escape s))%nat) in *.
  assert (length s <= length (flat_map c_escape s))%nat as Hle.
  { clear. induction s as [|c s IH]; simpl; [lia|]. rewrite length_app. pose proof (c_escape_length c). lia. }
  destruct (resolve_escapes s (<[e := NUL]> z) (S (length z)) (S i) (S i) r) as (z' & post & H1 & H2 & H3 & H4 & H5).
  { done. }
  { rewrite <- (take_drop (length (flat_map c_escape s)) (drop (S i) (<[e := NUL]> z))).
    rewrite drop_drop. fold e. rewrite drop_insert_here by lia. f_equal.
    - rewrite take_drop_commute, take_insert_ge by lia. rewrite <- take_drop_commute, Hz1. by rewrite take_app_length.
    - f_equal. by rewrite <- Nat.add_1_r, <- drop_drop, Hz'. }
  { lia. } { lia. }
  rewrite H1. cbn [mbind option_bind]. exists z'. split; [done|].
  split; [by rewrite H2, take_insert_ge by lia|]. split; [by exists post|].
  fold e in H5. rewrite H5, drop_insert_lt by lia. by rewrite <- Nat.add_1_r, <- drop_drop, Hz'.
Qed.

Lemma tokens_step n z i args c r z' e start : drop i z = c :: r -> c <> NUL -> Ascii.is_space c = false ->
  one_token z i = Some (z', e, start) -> tokens (S n) z i args = tokens n z' e (args ++ [start]).
Proof.
  intros Hz Hc Hs Ht. cbn [tokens]. rewrite (lookup_of_drop _ _ _ _ Hz). cbn [mbind option_bind].
  rewrite (decide_False (P := c = NUL)) by done.
  assert (token_spaces (S (length z)) z i = Some i) as ->.
  { cbn [token_spaces]. by rewrite Hz, Hs. }
  cbn [mbind option_bind]. rewrite (lookup_of_drop _ _ _ _ Hz). cbn [mbind option_bind].
  rewrite (decide_False (P := c = NUL)), Ht by done. done.
Qed.

(** Text in front of the part of a buffer that changes. *)
Lemma text_kept (z1 z2 : list ascii) n l post : drop 1 z1 = l ++ NUL :: post -> take n z2 = take n z1 ->
  (S (length l) < n)%nat -> exists post', drop 1 z2 = l ++ NUL :: post'.
Proof.
  intros D K Hn. exists (take (n - 2 - length l) post ++ drop (n - 1) (drop 1 z2)).
  rewrite <- (take_drop (n - 1) (drop 1 z2)) at 1.
  rewrite app_comm_cons, app_assoc. f_equal.
  rewrite take_drop_commute. replace (1 + (n - 1))%nat with n by lia. rewrite K.
  replace n with (1 + (n - 1))%nat at 1 by lia. rewrite <- take_drop_commute, D.
  rewrite take_app_ge by lia. f_equal.
  replace (n - 1 - length l)%nat with (S (n - 2 - length l)) by lia. done.
Qed.

(** C38: Printing and reading a setting are inverse: a text that [.show] prints quoted, typed
    after a command, is one argument and the text again, whatever bytes it holds. *)
Theorem quoted_argument_is_read_back name s :
  word (chars name) -> all_chars (fun c => negb (bool_decide (c = NUL))) s = true ->
  parse_tokens ("." +:+ name +:+ " " +:+ output_c_string s) = Some [name; s].
Proof.
  intros Hname Hs. unfold parse_tokens.
  assert (Forall (fun c => c <> NUL) (chars s)) as Hs'.
  { apply Forall_forall. intros c Hc. unfold all_chars in Hs. rewrite forallb_forall in Hs.
    specialize (Hs c). rewrite <- list_elem_of_In in Hs. specialize (Hs Hc). by case_bool_decide. }
  rewrite !chars_app. unfold output_c_string. rewrite String.list_ascii_of_string_of_list_ascii.
  set (z := (_ ++ [NUL]) : list ascii).
  assert (drop 1 z = chars name ++ " "%char :: DQUOTE :: c_escapes s ++ [DQUOTE; NUL]) as Hz.
  { unfold z. change (chars ".") with ["."%char]. change (chars " ") with [" "%char].
    cbn [drop app]. rewrite <- !app_assoc. simpl. by rewrite <- app_assoc. }
  destruct (one_token_word (chars name) z 1 " "%char _ Hname eq_refl ltac:(done) Hz) as (z1 & T1 & K1 & L1 & (post1 & D1) & N1).
  destruct (one_token_quoted (chars s) z1 (S (1 + length (chars name))) [NUL] Hs' N1) as (z2 & T2 & K2 & (post2 & D2) & N2).
  destruct Hname as [Hne Hw]. destruct (chars name) as [|c0 n0] eqn:En; [done|]. rewrite <- En in *.
  assert (word_char c0 = true) as Hc0 by (rewrite En in Hw; by inversion Hw).
  destruct (word_char_plain c0 Hc0) as (_ & Hc1 & Hc2 & _ & _).
  unfold ArraySize_azArg.
  rewrite (tokens_step 49 z 1 [] c0 (n0 ++ " "%char :: DQUOTE :: c_escapes s ++ [DQUOTE; NUL]) z1 _ 1) by (done || by rewrite Hz, En).
  rewrite (tokens_step 48 z1 _ _ DQUOTE _ z2 _ _ N1) by done.
  cbn [tokens]. rewrite (lookup_of_drop _ _ _ _ N2). cbn [mbind option_bind app].
  rewrite (decide_True (P := NUL = NUL)) by done. cbn [mbind option_bind mapM].
  rewrite D2, c_string_spec by done.
  destruct (text_kept z1 z2 (S (S (1 + length (chars name)))) (chars name) post1 D1 K2 ltac:(lia)) as (post3 & ->).
  rewrite c_string_spec.
  - cbn. by rewrite !String.string_of_list_ascii_of_string.
  - eapply Forall_impl; [exact Hw|]. intros x Hx. by destruct (word_char_plain x Hx) as (_ & ? & _).
Qed.
(** *** Comma separated values *)

Definition LF : ascii := "010".

(** A reader of such files: quotes around a field, and a quote inside doubled. *)
Fixpoint csv_in_quotes (l : list ascii) : option (list ascii * list ascii) :=
  match l with
  | [] => None
  | c :: r =>
      if decide (c = DQUOTE) then
        match r with
        | d :: r' => if decide (d = DQUOTE) then '(f, rest) ← csv_in_quotes r'; Some (DQUOTE :: f, rest) else Some ([], r)
        | [] => Some ([], r)
        end
      else '(f, rest) ← csv_in_quotes r; Some (c :: f, rest)
  end.

Fixpoint csv_plain (sep : ascii) (l : list ascii) : list ascii * list ascii :=
  match l with
  | [] => ([], [])
  | c :: r => if decide (c = sep \/ c = LF) then ([], l) else let '(f, rest) := csv_plain sep r in (c :: f, rest)
  end.

Definition csv_field (sep : ascii) (l : list ascii) : option (list ascii * list ascii) :=
  match l with
  | c :: r => if decide (c = DQUOTE) then csv_in_quotes r else Some (csv_plain sep l)
  | [] => Some ([], [])
  end.

Fixpoint csv_record (fuel : nat) (sep : ascii) (l : list ascii) : option (list (list ascii) * list ascii) :=
  match fuel with
  | O => None
  | S fuel =>
      '(f, rest) ← csv_field sep l;
      match rest with
      | c :: rest => if decide (c = sep) then '(fs, rest) ← csv_record fuel sep rest; Some (f :: fs, rest)
                     else Some ([f], rest)
      | [] => None
      end
  end.

Lemma csv_in_quotes_spec l r : (forall d r', r = d :: r' -> d <> DQUOTE) ->
  csv_in_quotes (flat_map (fun c => if decide (c = DQUOTE) then [c; c] else [c]) l ++ DQUOTE :: r) = Some (l, r).
Proof.
  intros Hr. induction l as [|c l IH].
  - cbn [flat_map app csv_in_quotes]. rewrite (decide_True (P := DQUOTE = DQUOTE)) by done.
    destruct r as [|d r]; [done|]. by rewrite decide_False by (by eapply Hr).
  - cbn [flat_map]. rewrite <- app_assoc. destruct (decide (c = DQUOTE)) as [->|Hc].
    + cbn [app csv_in_quotes]. rewrite !(decide_True (P := DQUOTE = DQUOTE)) by done. by rewrite IH.
    + cbn [app csv_in_quotes]. rewrite (decide_False (P := c = DQUOTE)) by done. by rewrite IH.
Qed.

Lemma csv_plain_spec sep l r : Forall (fun c => c <> sep /\ c <> LF) l ->
  (forall d r', r = d :: r' -> d = sep \/ d = LF) -> csv_plain sep (l ++ r) = (l, r).
Proof.
  intros Hl Hr. induction Hl as [|c l (H1 & H2) _ IH].
  - destruct r as [|d r]; [done|]. cbn. by rewrite decide_True by (by eapply Hr).
  - cbn. by rewrite decide_False, IH by naive_solver.
Qed.

Lemma needCsvQuote_plain c : needCsvQuote c = false -> c <> DQUOTE /\ c <> LF.
Proof. intros Hc. split; intros ->; done. Qed.

(** One field of the output, with what follows it. *)
Lemma csv_field_spec null sep f d r : sep <> DQUOTE -> d = sep \/ d = LF ->
  csv_field sep (chars (output_csv null (String sep "") (Some f) false) ++ d :: r) = Some (chars f, d :: r).
Proof.
  intros Hsep Hd. unfold output_csv. rewrite app_nil_r_str.
  assert (d <> DQUOTE) as Hdq by (destruct Hd; subst; done).
  destruct (existsb _ _ || is_empty f) eqn:E.
  - rewrite String.list_ascii_of_string_of_list_ascii. unfold csv_quoted. rewrite <- app_comm_cons, <- app_assoc.
    cbn [csv_field app]. rewrite (decide_True (P := DQUOTE = DQUOTE)) by done.
    apply csv_in_quotes_spec. by intros ? ? [= <- <-].
  - apply orb_false_iff in E as [E Hne]. destruct (chars f) as [|c l] eqn:Ef; [by destruct f|].
    assert (Forall (fun c => c <> DQUOTE /\ c <> sep /\ c <> LF) (c :: l)) as Hall.
    { apply Forall_forall. intros x Hx. rewrite <- Ef in Hx. apply not_true_iff_false in E.
      destruct (csv_special (String sep "") f x) eqn:Ex.
      { destruct E. apply existsb_exists. exists x. by rewrite <- list_elem_of_In, <- Ef. }
      unfold csv_special in Ex. apply orb_false_iff in Ex as [Ex1 Ex2].
      apply needCsvQuote_plain in Ex1 as [??]. split; [done|]. split; [|done].
      intros ->. by rewrite bool_decide_true in Ex2. }
    cbn [csv_field app]. inversion Hall as [|? ? (Hc & _) ?]; subst.
    rewrite (decide_False (P := c = DQUOTE)) by done. f_equal.
    apply (csv_plain_spec sep (c :: l) (d :: r)).
    + eapply Forall_impl; [exact Hall|]. naive_solver.
    + intros ? ? [= <- <-]. done.
Qed.

Lemma output_csv_sep null sep z b :
  output_csv null sep z b = output_csv null sep z false +:+ (if b then sep else "").
Proof. unfold output_csv. by rewrite app_nil_r_str. Qed.

Lemma concat_cons (x : string) l : String.concat "" (x :: l) = x +:+ String.concat "" l.
Proof. destruct l; cbn; [by rewrite app_nil_r_str | done]. Qed.

Lemma csv_record_spec null sep (args : list (option string)) fs k fuel : sep <> DQUOTE -> sep <> LF -> fs <> [] ->
  drop k args = Some <$> fs -> (length fs < fuel)%nat ->
  csv_record fuel sep (chars (String.concat "" ((fun i => output_csv null (String sep "") (mjoin (args !! i))
      (S i <? k + length fs)%nat) <$> seq k (length fs)) +:+ nl))
  = Some (chars <$> fs, []).
Proof.
  intros Hs Hlf Hne. revert k fuel. induction fs as [|f fs IH]; intros k fuel Hd Hf; [done|].
  destruct fuel as [|fuel]; [simpl in Hf; lia|]. cbn [length seq fmap list_fmap].
  rewrite concat_cons, output_csv_sep.
  assert (args !! k = Some (Some f)) as Hk.
  { rewrite <- (Nat.add_0_r k), <- lookup_drop, Hd. done. }
  assert (drop (S k) args = Some <$> fs) as Hd' by (rewrite <- Nat.add_1_r, <- drop_drop, Hd; done).
  rewrite Hk. change (mjoin (Some (Some f))) with (Some f). rewrite !app_assoc_str, chars_app. cbn [csv_record].
  destruct fs as [|g fs].
  - cbn [length]. replace (S k <? k + 1)%nat with false by (symmetry; apply Nat.ltb_ge; lia).
    cbn [seq fmap list_fmap length]. change (chars ("" +:+ String.concat "" [] +:+ nl)) with [LF].
    rewrite csv_field_spec by (done || by right). cbn [mbind option_bind].
    by rewrite (decide_False (P := LF = sep)) by done.
  - cbn [length] in IH |- *. replace (S k <? k + S (S (length fs)))%nat with true by (symmetry; apply Nat.ltb_lt; simpl; lia).
    rewrite app_cons_str, chars_cons. cbn [app].
    rewrite csv_field_spec by (done || by left). cbn [mbind option_bind].
    rewrite (decide_True (P := sep = sep)) by done.
    replace (k + S (S (length fs)))%nat with (S k + S (length fs))%nat by lia.
    match goal with |- context [csv_record fuel sep (chars ("" +:+ ?x))] => change ("" +:+ x) with x end.
    rewrite (IH ltac:(done) (S k) fuel Hd' ltac:(simpl in *; lia)). done.
Qed.

(** In the csv mode a row is read back exactly by a reader of comma separated values,
    whatever bytes the values hold, as long as the separator is one character that is neither
    a quote nor a newline. *)
Theorem csv_row_is_read_back null p sep azCol values : mode p = MODE_Csv -> cnt p <> 0%Z ->
  separator p = String sep "" -> sep <> DQUOTE -> sep <> LF -> values <> [] -> length azCol = length values ->
  exists p' t, shell_callback null p (Some (Some <$> values)) azCol = Ok (p', t) /\
    csv_record (S (length values)) sep (chars t) = Some (chars <$> values, []).
Proof.
  intros Hm Hc Hsep Hq Hlf Hv Hlen. unfold shell_callback. rewrite Hm.
  destruct (Z.eqb_spec (cnt p) 0); [done|]. cbn [andb]. eexists _, _. split; [done|].
  rewrite Hsep, Hlen.
  exact (csv_record_spec (nullvalue p) sep (Some <$> values) values 0 (S (length values)) Hq Hlf Hv eq_refl ltac:(lia)).
Qed.

(** With a longer separator the search for it looks at the start of the field only. *)
Lemma long_separator_is_not_quoted :
  output_csv "" "::" (Some "a::b") true = "a::b::".
Proof. reflexivity. Qed.

(** ** Statements end *)

(** What the shell relies on of SQLite: a statement has finitely many rows, and preparing
    one consumes text. *)
Class ShellLaws {W St} (H : ShellHost W St) := {
  rows_bound_step st w st' w' : sqlite3_step st w = (SQLITE_ROW, st', w') -> (rows_bound st' w' < rows_bound st w)%nat;
  prepare_tail sql w st tail w' : sqlite3_prepare sql w = (SQLITE_OK, st, tail, w') -> sql <> "" ->
    (String.length tail < String.length sql)%nat;
}.

Create HintDb shell.

Section Returns.
Context {W St : Type} {H : ShellHost W St} {L : ShellLaws H} {R : RapidJSON} {B : Boost}.
Open Scope sh_scope.

(** A computation that ends, and leaves the mark of an interrupt alone. *)
Definition tame {A} (m : Sh W A) : Prop :=
  forall s, (m s).1 <> OutOfFuel /\ seenInterrupt (m s).2 = seenInterrupt s.

Lemma tame_sret {A} (a : A) : tame (sret a).
Proof. done. Qed.

Lemma tame_fail {A} (o : outcome A) : o <> OutOfFuel -> tame (fail_with o).
Proof. done. Qed.

Lemma tame_get {A} (f : Shell W -> A) : tame (get_ f).
Proof. done. Qed.

Lemma tame_host {A} (f : W -> A * W) : tame (host f).
Proof. intros s. unfold host. by destruct (f (world s)). Qed.

Lemma tame_host_ (f : W -> W) : tame (host_ f).
Proof. apply tame_host. Qed.

Lemma tame_put p : tame (put_data (W := W) p).
Proof. done. Qed.

Lemma tame_emit c t : tame (emit (W := W) c t).
Proof. done. Qed.

Lemma tame_printer p : tame (set_printer (W := W) p).
Proof. done. Qed.

Lemma tame_sbind {A C} (m : Sh W A) (f : A -> Sh W C) : tame m -> (forall a, tame (f a)) -> tame (sbind m f).
Proof.
  intros Hm Hf s. specialize (Hm s). unfold sbind. destruct (m s) as [[a| | | |] s'] eqn:E; simpl in *;
    try (split; [by destruct Hm | apply Hm]).
  destruct (Hf a s') as [? Hs]. split; [done|]. destruct Hm as [_ Hm]. by rewrite Hs, Hm.
Qed.

(** The rest may use what the host answered. *)
Lemma tame_host_bind {A C} (f : W -> A * W) (k : A -> Sh W C) :
  (forall w a w', f w = (a, w') -> tame (k a)) -> tame (sbind (host f) k).
Proof.
  intros Hk s. unfold sbind, host. destruct (f (world s)) as [a w'] eqn:E. exact (Hk _ _ _ E _).
Qed.

Lemma tame_when b (m : Sh W unit) : tame m -> tame (when b m).
Proof. by destruct b. Qed.

Lemma tame_seq {A} (l : list A) f : (forall x, tame (f x)) -> tame (seq_ (W := W) l f).
Proof. intros Hf. induction l as [|x l IH]; [done|]. by apply tame_sbind. Qed.

#[local] Hint Resolve tame_sret tame_get tame_host tame_host_ tame_put tame_emit tame_printer : shell.

(** Take a computation apart. *)
Ltac tame_tac :=
  repeat match goal with
         | |- forall _, tame _ => intro
         | |- tame (fail_with _) => by apply tame_fail
         | |- tame (when _ _) => apply tame_when
         | |- tame (seq_ _ _) => apply tame_seq
         | |- tame (match ?x with _ => _ end) => destruct x
         | |- tame _ => solve [auto 1 with shell]
         | |- tame (sbind _ _) => apply tame_sbind
         | |- tame (out _) => unfold out
         | |- tame (err _) => unfold err
         end.

Lemma tame_update f : tame (update_data (W := W) f).
Proof. unfold update_data. tame_tac. Qed.
#[local] Hint Resolve tame_update : shell.

Lemma tame_pretty_print : tame pretty_print_if_needed.
Proof. unfold pretty_print_if_needed. tame_tac. Qed.

Lemma tame_save_err_msg : tame save_err_msg.
Proof. unfold save_err_msg. tame_tac. Qed.
#[local] Hint Resolve tame_pretty_print tame_save_err_msg : shell.

(** The rows of a statement are read to the end. *)
Lemma exec_rows_tame fuel st cols s : (rows_bound st (world s) < fuel)%nat ->
  (exec_rows fuel st cols s).1 <> OutOfFuel /\ seenInterrupt (exec_rows fuel st cols s).2 = seenInterrupt s.
Proof.
  revert st s. induction fuel as [|fuel IH]; intros st s Hf; [lia|]. cbn [exec_rows].
  destruct (row_values st) as [vals|]; [|done].
  unfold sbind, get_, put_data, out, emit, host. cbn.
  destruct (shell_callback _ _ _ _) as [[p t]|e]; [|done]. cbn.
  destruct (sqlite3_step st (world s)) as [[rc st'] w'] eqn:E. cbn.
  destruct (Z.eqb_spec rc SQLITE_ROW) as [->|]; [|done].
  apply rows_bound_step in E.
  match goal with |- context [exec_rows fuel st' cols ?s'] => destruct (IH st' s') as [H1 H2]; [simpl; lia|] end.
  split; [done|]. by rewrite H2.
Qed.

Lemma exec_all_rows_tame st cols :
  tame (sbind (get_ (fun s => rows_bound st (world s))) (fun fuel => exec_rows (S fuel) st cols)).
Proof. intros s. unfold sbind, get_. cbv beta iota. apply exec_rows_tame. lia. Qed.
#[local] Hint Resolve exec_all_rows_tame : shell.

Lemma exec_statement_tame sql st : tame (exec_statement sql st).
Proof.
  unfold exec_statement. tame_tac.
Qed.
#[local] Hint Resolve exec_statement_tame : shell.

Lemma skip_spaces_length z : (String.length (skip_spaces z) <= String.length z)%nat.
Proof. induction z as [|c z IH]; simpl; [lia|]. destruct (Ascii.is_space c); simpl; lia. Qed.

Lemma exec_loop_tame fuel sql want : (String.length sql <= fuel)%nat -> tame (exec_loop fuel sql want).
Proof.
  revert sql. induction fuel as [|fuel IH]; intros [|c sql] Hf; simpl in Hf; try (done || lia).
  cbn [exec_loop]. apply tame_host_bind. intros w [[rc stmt] tail] w'.
  destruct (sqlite3_prepare (String c sql) w) as [[[rc' stmt'] tail'] w''] eqn:E. intros [= -> -> -> ->].
  destruct (Z.eqb_spec rc SQLITE_OK) as [->|]; cbn [negb]; [|tame_tac].
  apply prepare_tail in E; [|done]. simpl in E. pose proof (skip_spaces_length tail).
  assert (tame (exec_loop fuel (skip_spaces tail) want)) by (apply IH; lia). tame_tac.
Qed.

Lemma shell_exec_tame sql want : tame (shell_exec sql want).
Proof. unfold shell_exec. apply tame_sbind; [by apply exec_loop_tame|]. tame_tac. Qed.
#[local] Hint Resolve shell_exec_tame : shell.

Lemma run_sql_tame file line sql : tame (run_sql file line sql).
Proof.
  unfold run_sql. tame_tac.
Qed.

(** Executing SQL text from the shell ends: the text is cut into statements until nothing
    is left, and the rows of each are read until there are no more. *)
Theorem shell_exec_returns sql want s : (shell_exec sql want s).1 <> OutOfFuel.
Proof. apply shell_exec_tame. Qed.
End Returns.
(** ** Scripts *)

(** A host that has memory and gets no signal while it reads. *)
Class QuietHost {W St} (H : ShellHost W St) := {
  memory_available n w : malloc n w = (true, w);
  no_signal w : sigint w = (false, w);
}.

Section Script.
Context {W St : Type} {H : ShellHost W St} {L : ShellLaws H} {Q : QuietHost H} {R : RapidJSON} {B : Boost}.
Open Scope sh_scope.

Lemma host_id {A} (f : W -> A * W) a s : (forall w, f w = (a, w)) -> host f s = (Done a, s).
Proof. intros Hf. unfold host. rewrite Hf. by destruct s. Qed.

Definition text_char (c : ascii) : Prop := c <> NUL /\ c <> "010"%char.

Lemma until_nul_text l : Forall text_char l -> until_nul l = l.
Proof. induction 1 as [|c l [Hc _] _ IH]; cbn; [done|]. by rewrite decide_False, IH by done. Qed.

Lemma fgets_take_line k l r : Forall text_char l -> (length l < k)%nat ->
  fgets_take k (l ++ "010"%char :: r) = (l ++ ["010"%char], r).
Proof.
  intros Hl. revert k. induction Hl as [|c l [_ Hc] _ IH]; intros [|k] Hk; simpl in Hk; try lia; [done|].
  cbn. rewrite decide_False by done. by rewrite IH by lia.
Qed.

Lemma fgets_take_part k l r : Forall text_char l -> (k <= length l)%nat ->
  fgets_take k (l ++ r) = (take k l, drop k l ++ r).
Proof.
  intros Hl. revert k. induction Hl as [|c l [_ Hc] _ IH]; intros [|k] Hk; simpl in Hk; try lia; try done.
  cbn. rewrite decide_False by done. by rewrite IH by lia.
Qed.

Lemma chomp_text l : Forall text_char l -> chomp l = None.
Proof.
  intros Hl. unfold chomp. destruct (reverse l) as [|c r] eqn:E; [done|].
  assert (text_char c) as [_ Hc].
  { apply (Forall_forall _ l) with c in Hl; [done|]. rewrite <- (reverse_involutive l), E. set_solver. }
  destruct c as [[] [] [] [] [] [] [] []]; try done.
Qed.

Lemma chomp_line l : last l <> Some "013"%char -> chomp (l ++ ["010"%char]) = Some l.
Proof.
  intros Hl. unfold chomp. rewrite reverse_app. cbn [reverse rev_append app].
  change (reverse ["010"%char]) with ["010"%char]. cbn [app].
  destruct (reverse l) as [|c r] eqn:E.
  { by rewrite <- (reverse_involutive l), E. }
  assert (c <> "013"%char) as Hc.
  { intros ->. apply Hl. rewrite <- (reverse_involutive l), E, reverse_cons. by rewrite last_snoc. }
  replace l with (reverse (c :: r)) by (by rewrite <- E, reverse_involutive).
  destruct c as [[] [] [] [] [] [] [] []]; done.
Qed.

(** A line of a file is read whole, however often the buffer has to grow. *)
Lemma getline_loop_line fuel nLine line l r s :
  Forall text_char line -> Forall text_char l -> last (line ++ l) <> Some "013"%char ->
  (length line <= nLine)%nat -> (length l < fuel)%nat ->
  getline_loop fuel nLine line (l ++ "010"%char :: r) s = (Done (Some (line ++ l), r), s).
Proof.
  revert nLine line l. induction fuel as [|fuel IH]; intros nLine line l Hline Hl Hlast Hn Hf; [lia|].
  cbn [getline_loop].
  set (grown := (nLine <? length line + 100)%nat).
  set (nLine' := if grown then (nLine * 2 + 100)%nat else nLine).
  assert (length line + 100 <= nLine')%nat as Hsize.
  { unfold nLine', grown. destruct (Nat.ltb_spec nLine (length line + 100)); lia. }
  unfold sbind at 1.
  assert ((if grown then host (malloc (Z.of_nat nLine')) else sret true) s = (Done true, s)) as ->.
  { destruct grown; [|done]. apply host_id. apply memory_available. }
  cbn [negb].
  assert (fgets (nLine' - length line) (l ++ "010"%char :: r)
    = Some (fgets_take (nLine' - length line - 1) (l ++ "010"%char :: r))) as -> by (by destruct l).
  destruct (decide (length l < nLine' - length line - 1)%nat) as [Hlt|Hge].
  - rewrite fgets_take_line by done.
    assert (until_nul (l ++ ["010"%char]) = l ++ ["010"%char]) as ->.
    { clear -Hl. induction Hl as [|c l [Hc _] _ IH]; cbn; [done|]. by rewrite decide_False, IH by done. }
    rewrite app_assoc, chomp_line by done. done.
  - set (k := (nLine' - length line - 1)%nat) in *. rewrite fgets_take_part by (done || lia).
    rewrite until_nul_text by (by apply Forall_take).
    rewrite chomp_text by (apply Forall_app; split; [done | by apply Forall_take]).
    rewrite (IH nLine' (line ++ take k l) (drop k l)).
    + by rewrite <- app_assoc, take_drop.
    + apply Forall_app; split; [done | by apply Forall_take].
    + by apply Forall_drop.
    + by rewrite <- app_assoc, take_drop.
    + rewrite length_app, length_take. lia.
    + rewrite length_drop. lia.
Qed.

(** Text of a file the shell reads as one line. *)
Definition line_text (l : string) : Prop := Forall text_char (chars l) /\ last (chars l) <> Some "013"%char.

Lemma one_input_line_file l r reuse continuation s : line_text l ->
  one_input_line (Some (chars l ++ "010"%char :: r)) reuse continuation s = (Done (Some l, Some r), s).
Proof.
  intros [Hl Hlast]. unfold one_input_line, local_getline. unfold sbind.
  rewrite getline_loop_line; [| done.. | simpl; lia | rewrite length_app; simpl; lia].
  cbn. by rewrite String.string_of_list_ascii_of_string.
Qed.

Lemma one_input_line_end reuse continuation s :
  one_input_line (Some []) reuse continuation s = (Done (None, Some []), s).
Proof.
  unfold one_input_line, local_getline. cbn [length getline_loop]. unfold sbind.
  destruct reuse; [done|]. cbn [Nat.ltb Nat.leb Nat.add].
  by rewrite (host_id _ true s (memory_available _)).
Qed.

Lemma check_interrupt_quiet s : seenInterrupt s = 0%Z -> check_interrupt true s = (Done false, s).
Proof.
  intros Hs. unfold check_interrupt, sbind at 1. rewrite (host_id sigint false s no_signal).
  unfold sbind, when, get_, sret. rewrite Hs. done.
Qed.

(** *** Collecting the lines of a statement *)

Definition joined (acc l : string) : string := if is_empty acc then skip_spaces l else acc +:+ nl +:+ l.

(** Whether the text collected so far is run after this line. *)
Definition runs (acc l : string) : bool :=
  line_contains_semicolon (String.substring (String.length acc) (String.length (joined acc l)) (joined acc l)) &&
  sqlite3_complete (joined acc l).

Inductive collects : string -> list string -> string -> Prop :=
  | collect_last acc l : line_text l -> runs acc l = true -> joined acc l <> "" -> collects acc [l] (joined acc l)
  | collect_more acc l ls sql : line_text l -> runs acc l = false -> _all_whitespace (joined acc l) = false ->
      joined acc l <> "" -> collects (joined acc l) ls sql -> collects acc (l :: ls) sql.

(** The lines of one statement: the first is neither blank nor a command. *)
Definition statement (ls : list string) (sql : string) : Prop :=
  (forall l ls', ls = l :: ls' -> _all_whitespace l = false /\ char_at l 0 <> "."%char) /\ collects "" ls sql.

(** The text of a file with these lines. *)
Definition file_text (ls : list string) : list ascii := flat_map (fun l => chars l ++ ["010"%char]) ls.

Lemma string_length_app s t : String.length (s +:+ t) = (String.length s + String.length t)%nat.
Proof. induction s as [|c s IH]; [done|]. rewrite app_cons_str. simpl. by rewrite IH. Qed.

Lemma joined_length acc l : (String.length (joined acc l) <= String.length acc + 1 + String.length l)%nat.
Proof.
  unfold joined. destruct (is_empty acc) eqn:E; [pose proof (skip_spaces_length l); lia|].
  rewrite !string_length_app. simpl. lia.
Qed.

(** A line is added without leaving the buffer. *)
Lemma add_line_joined st l s : typesQuery st = false ->
  exists alloc, add_line st l s = (Done (mkInput (joined (zSql st) l) alloc (errCnt st) (lineno st)
      (if is_empty (zSql st) then lineno st else startline st) false,
    line_contains_semicolon (String.substring (String.length (zSql st)) (String.length (joined (zSql st) l)) (joined (zSql st) l))), s).
Proof.
  intros Ht. pose proof (joined_length (zSql st) l) as Hl. unfold add_line.
  set (need := (Z.of_nat (String.length (zSql st)) + Z.of_nat (String.length l))%Z).
  set (grown := (nAlloc st <=? need + 2)%Z). set (alloc := if grown then (need + 100)%Z else nAlloc st).
  exists alloc. unfold sbind.
  assert ((if grown then host (malloc alloc) else sret true) s = (Done true, s)) as ->.
  { destruct grown; [|done]. apply host_id. apply memory_available. }
  cbn [negb]. rewrite Ht. unfold first_text.
  assert ((if is_empty (zSql st) then Some (skip_spaces l) else Some (zSql st +:+ nl +:+ l)) = Some (joined (zSql st) l)) as ->.
  { unfold joined. by destruct (is_empty (zSql st)). }
  assert ((alloc <? Z.of_nat (String.length (joined (zSql st) l)) + 1)%Z = false) as ->; [|done].
  apply Z.ltb_ge. unfold alloc, grown. destruct (Z.leb_spec (nAlloc st) (need + 2)); unfold need in *; lia.
Qed.

(** The shell goes on reading: no error yet, or errors do not stop it. *)
Definition goes_on (errs : Z) (s : Shell W) : bool := (errs =? 0)%Z || (bail_on_error s =? 0)%Z.

Lemma process_loop_step fuel l r reuse st s : seenInterrupt s = 0%Z -> goes_on (errCnt st) s = true -> line_text l ->
  process_loop (S fuel) (Some (chars l ++ "010"%char :: r)) reuse st s
  = (let! next := process_line true st l in
     match next with Next st => process_loop fuel (Some r) true st | Return st => sret st end) s.
Proof.
  intros Hs Hg Hl. cbn [process_loop]. unfold sbind at 1 2, get_. unfold goes_on in Hg.
  rewrite Hg. cbn [negb andb orb].
  unfold sbind at 1. rewrite one_input_line_file by done. unfold sbind at 1. rewrite check_interrupt_quiet by done. done.
Qed.

(** One line of a statement. *)
Lemma process_line_collect st l s : typesQuery st = false -> joined (zSql st) l <> "" ->
  (zSql st = "" -> _all_whitespace l = false /\ char_at l 0 <> "."%char) ->
  exists alloc, let start := if is_empty (zSql st) then (lineno st + 1)%Z else startline st in
  process_line true st l s
  = (if runs (zSql st) l then
       let! failed := run_sql true start (joined (zSql st) l) in
       sret (Next (mkInput "" alloc (errCnt st + if (failed : bool) then 1 else 0) (lineno st + 1) start false))
     else if _all_whitespace (joined (zSql st) l) then
       let! p := get_ data in
       when (negb (echoOn p =? 0)%Z) (out (joined (zSql st) l +:+ nl)) ;!
       sret (Next (mkInput "" alloc (errCnt st) (lineno st + 1) start false))
     else sret (Next (mkInput (joined (zSql st) l) alloc (errCnt st) (lineno st + 1) start false))) s.
Proof.
  intros Ht Hj Hfirst.
  destruct (add_line_joined (mkInput (zSql st) (nAlloc st) (errCnt st) (lineno st + 1) (startline st) (typesQuery st)) l s Ht)
    as [alloc Hadd].
  exists alloc. cbn [zSql nAlloc errCnt lineno startline typesQuery] in Hadd |- *. unfold process_line.
  set (start := if is_empty (zSql st) then (lineno st + 1)%Z else startline st) in *.
  unfold sbind at 1, get_ at 1. cbn [zSql].
  assert (is_empty (zSql st) && _all_whitespace l = false) as ->.
  { destruct (is_empty (zSql st)) eqn:E; [|done]. apply is_empty_true in E. by destruct (Hfirst E) as [-> _]. }
  assert (bool_decide (char_at l 0 = "."%char) && is_empty (zSql st) = false) as ->.
  { destruct (is_empty (zSql st)) eqn:E; [|by rewrite andb_false_r]. apply is_empty_true in E.
    destruct (Hfirst E) as [_ ?]. by rewrite bool_decide_false. }
  cbv beta iota zeta. unfold sbind at 1 2. rewrite Hadd. unfold run_collected. cbn [zSql typesQuery nAlloc errCnt lineno startline].
  assert (is_empty (joined (zSql st) l) = false) as -> by (by destruct (joined (zSql st) l)).
  cbn [negb andb]. fold (runs (zSql st) l).
  destruct (runs (zSql st) l).
  - unfold sbind. by destruct (run_sql true start (joined (zSql st) l) s) as [[] ?].
  - destruct (_all_whitespace (joined (zSql st) l)); [|done]. unfold clear_sql, sbind, get_. cbn.
    destruct (when _ _ s) as [[] ?]; done.
Qed.

(** All lines of a statement: it is run once, under the number of its first line. *)
Lemma process_statement acc ls sql : collects acc ls sql -> forall fuel r reuse st s,
  zSql st = acc -> typesQuery st = false -> seenInterrupt s = 0%Z -> goes_on (errCnt st) s = true ->
  (forall l ls', ls = l :: ls' -> acc = "" -> _all_whitespace l = false /\ char_at l 0 <> "."%char) ->
  exists alloc, let start := if is_empty acc then (lineno st + 1)%Z else startline st in
    process_loop (length ls + fuel) (Some (file_text ls ++ r)) reuse st s
    = (let! failed := run_sql true start sql in
       process_loop fuel (Some r) true
         (mkInput "" alloc (errCnt st + if (failed : bool) then 1 else 0) (lineno st + Z.of_nat (length ls)) start false)) s.
Proof.
  induction 1 as [acc l Hl Hr Hj|acc l ls sql Hl Hr Hw Hj _ IH]; intros fuel r reuse st s Hacc Ht Hs Hg Hfirst; subst acc.
  - destruct (process_line_collect st l s Ht Hj (Hfirst l [] eq_refl)) as [alloc Hp]. exists alloc.
    cbn [file_text flat_map length Nat.add app]. rewrite app_nil_r, <- app_assoc. cbn [app].
    rewrite process_loop_step by done. unfold sbind at 1. cbv zeta in Hp. rewrite Hp, Hr.
    unfold sbind. by destruct (run_sql true _ _ s) as [[] ?].
  - destruct (process_line_collect st l s Ht Hj (Hfirst l ls eq_refl)) as [alloc Hp]. cbv zeta in Hp.
    rewrite Hr, Hw in Hp.
    set (st' := mkInput (joined (zSql st) l) alloc (errCnt st) (lineno st + 1)
      (if is_empty (zSql st) then (lineno st + 1)%Z else startline st) false) in *.
    destruct (IH fuel r true st' s) as [alloc' HIH]; [done..| |].
    { intros l' ls' _ Habs. done. }
    exists alloc'. cbn [file_text flat_map length Nat.add]. rewrite <- !app_assoc. cbn [app].
    rewrite process_loop_step by done. unfold sbind at 1. rewrite Hp. cbn [sret]. unfold file_text in HIH. rewrite HIH.
    replace (is_empty (joined (zSql st) l)) with false by (by destruct (joined (zSql st) l)).
    cbn [st' errCnt startline lineno]. unfold sbind. destruct (run_sql true _ _ s) as [[] ?]; [|done..].
    replace (lineno st + 1 + Z.of_nat (length ls))%Z with (lineno st + Z.of_nat (S (length ls)))%Z by lia. done.
Qed.

(** *** The script *)

(** The statements of a file with the line each starts at, after [n] lines. *)
Inductive script : Z -> list (list string) -> list (Z * string) -> Prop :=
  | script_nil n : script n [] []
  | script_cons n ls sql stmts sqls : statement ls sql -> script (n + Z.of_nat (length ls)) stmts sqls ->
      script n (ls :: stmts) ((n + 1, sql) :: sqls)%Z.

(** What running a script means: each statement in its order, until one fails when errors
    stop the shell. The result is the number of errors. *)
Fixpoint run_script (sqls : list (Z * string)) (errs : Z) : Sh W Z :=
  let! bail := get_ bail_on_error in
  if negb ((errs =? 0)%Z || (bail =? 0)%Z) then sret errs
  else match sqls with
       | [] => let! tty := get_ stdin_is_interactive in when tty (out nl) ;! sret errs
       | (line, sql) :: sqls =>
           let! failed := run_sql true line sql in
           run_script sqls (errs + if (failed : bool) then 1 else 0)
       end.

(** What follows the loop. *)
Definition finish (st : input_state) : Sh W Z :=
  when (negb (is_empty (zSql st)) && negb (_all_whitespace (zSql st)))
    (err ("Error: incomplete SQL: " +:+ zSql st +:+ nl)) ;!
  sret (if (0 <? errCnt st)%Z then 1 else 0)%Z.

Lemma process_script n stmts sqls : script n stmts sqls -> forall fuel reuse st s,
  zSql st = "" -> typesQuery st = false -> lineno st = n -> seenInterrupt s = 0%Z ->
  (length (concat stmts) < fuel)%nat ->
  sbind (process_loop fuel (Some (file_text (concat stmts))) reuse st) finish s
  = sbind (run_script sqls (errCnt st)) (fun errs => sret (if (0 <? errs)%Z then 1 else 0)%Z) s.
Proof.
  induction 1 as [n|n ls sql stmts sqls [Hfirst Hc] _ IH]; intros fuel reuse st s Hz Ht Hn Hs Hf.
  - destruct fuel as [|fuel]; [simpl in Hf; lia|].
    cbn [process_loop run_script concat file_text flat_map]. unfold sbind, get_. cbn [negb andb].
    rewrite orb_false_r. destruct ((errCnt st =? 0)%Z || (bail_on_error s =? 0)%Z); cbn [negb].
    2: { unfold sret at 1, finish, sbind. cbv beta iota. by rewrite Hz. }
    rewrite one_input_line_end. unfold finish, sbind. destruct (stdin_is_interactive s); cbn; by rewrite Hz.
  - destruct (goes_on (errCnt st) s) eqn:Hg.
    + cbn [concat] in *. rewrite length_app in Hf.
      replace fuel with (length ls + (fuel - length ls))%nat by lia.
      unfold file_text. rewrite flat_map_app. fold (file_text ls) (file_text (concat stmts)).
      destruct (process_statement "" ls sql Hc (fuel - length ls)%nat (file_text (concat stmts)) reuse st s)
        as [alloc Hp]; [done..| |].
      { intros l ls' ? _. by eapply Hfirst. }
      cbn [is_empty] in Hp. unfold sbind at 1. rewrite Hp.
      cbn [run_script]. unfold sbind at 2 3, get_. unfold goes_on in Hg. rewrite Hg. cbn [negb].
      unfold sbind at 1 2. subst n.
      destruct (run_sql_tame (L := L) true (lineno st + 1) sql s) as [_ Hseen].
      destruct (run_sql true (lineno st + 1) sql s) as [[failed| | | |] s'] eqn:Er; try done.
      apply IH; try done; [simpl in Hseen; by rewrite Hseen | lia].
    + destruct fuel as [|fuel]; [lia|]. cbn [process_loop run_script]. unfold sbind, get_, goes_on in *. rewrite Hg.
      cbn [negb andb orb]. unfold sret at 1, finish, sbind. cbv beta iota. by rewrite Hz.
Qed.

(** C20: A script given to the shell runs each of its statements once and in order, whether a
    statement is on one line or on several, reports each under the line it starts at, stops
    at the first error only when told to, and returns 1 when there was one. *)
Theorem script_runs_its_statements stmts sqls s : script 0 stmts sqls -> seenInterrupt s = 0%Z ->
  process_input (S (length (concat stmts))) (Some (file_text (concat stmts))) s
  = sbind (run_script sqls 0) (fun errs => sret (if (0 <? errs)%Z then 1 else 0)%Z) s.
Proof. intros Hsc Hs. apply (process_script 0 stmts sqls Hsc _ false input_init); done || lia. Qed.
End Script.
(** ** Settings and commands *)

Lemma tokens_bound n z i args z' args' : tokens n z i args = Some (z', args') ->
  (length args' <= n + length args)%nat.
Proof.
  revert z i args. induction n as [|n IH]; intros z i args; cbn [tokens]; [intros [= <- <-]; lia|].
  destruct (z !! i) as [c|]; [|done]. cbn [mbind option_bind]. case_decide; [intros [= <- <-]; lia|].
  destruct (token_spaces _ z i) as [i'|]; [|done]. cbn [mbind option_bind].
  destruct (z !! i') as [c'|]; [|done]. cbn [mbind option_bind]. case_decide; [intros [= <- <-]; lia|].
  destruct (one_token z i') as [[[z1 e] start]|]; [|done]. cbn [mbind option_bind].
  intros Ht%IH. rewrite length_app in Ht. simpl in Ht. lia.
Qed.

(** The array of the arguments is never overrun, nor that of the widths. *)
Lemma arguments_fit zLine azArg : parse_tokens zLine = Some azArg -> (length azArg <= ArraySize_azArg)%nat.
Proof.
  unfold parse_tokens. destruct (tokens _ _ _ _) as [[z args]|] eqn:E; [|done]. cbn [mbind option_bind].
  intros Hm%length_mapM. apply tokens_bound in E. unfold ArraySize_azArg in *. simpl in E. lia.
Qed.

Lemma set_widths_length azArg widths : length widths = ArraySize_width -> length (set_widths azArg widths) = ArraySize_width.
Proof.
  intros Hw. unfold set_widths. rewrite length_app, length_fmap, length_drop.
  pose proof (length_take_le (drop 1 azArg) (ArraySize_width - 1)) as Ht. rewrite length_take in *. unfold ArraySize_width in *. lia.
Qed.

(** A backslash at the end of a word swallows the terminator: the word after it is lost, and
    at the end of the line the read leaves the line. *)
Lemma trailing_backslash_loses_the_rest : parse_tokens ".print a\ b" = Some ["print"; "a"].
Proof. reflexivity. Qed.

Lemma trailing_backslash_leaves_the_line : parse_tokens ".print a\" = None.
Proof. reflexivity. Qed.

Section Settings.
Context {W St : Type} {H : ShellHost W St} {R : RapidJSON} {B : Boost}.
Open Scope sh_scope.

(** The help text promises [.echo ON], but "on" is not among the words the conversion to
    a boolean knows: the command complains and turns the setting off. *)
Lemma on_turns_the_setting_off z (s : Shell W) : lower z = "on" ->
  exists complaint s', run_command ["echo"; z] s = (Done 0%Z, s') /\ echoOn (data s') = 0%Z /\
    printed s' = printed s ++ [(Stderr, complaint)].
Proof.
  intros Hz.
  assert (number_like z = false) as Hn.
  { destruct z as [|c [|d [|? ?]]]; try done. unfold lower in Hz. cbn in Hz. injection Hz as Hc Hd.
    destruct c as [[] [] [] [] [] [] [] []]; try done. }
  assert (exists complaint, booleanValue z = (0%Z, [complaint])) as [complaint Hv].
  { unfold booleanValue, stringToBool. rewrite Hn, Hz. eexists. reflexivity. }
  eexists complaint, _. split.
  - unfold run_command. cbn [length]. change (is_cmd "echo") with (fun name => is_cmd "echo" name). cbn -[booleanValue].
    unfold boolean_arg. rewrite Hv. reflexivity.
  - done.
Qed.

(** [--csv] alone does not separate by commas: whatever the mode, the separator is the
    one of [--separator], a bar unless it is given. *)
Lemma csv_flag_keeps_the_separator p : separator (flag_data p) = snprintf20 (FLAGS_separator flags).
Proof. done. Qed.

(** [.types] without a query takes the first seven characters off the next line, and a
    shorter line is read past its end. *)
Lemma types_eats_the_next_line {Q : QuietHost H} alloc errs n start (s : Shell W) :
  (exists alloc', add_line (mkInput "" alloc errs n start true) "select 1;" s
     = (Done (mkInput "1;" alloc' errs n n true, true), s)) /\
  add_line (mkInput "" alloc errs n start true) "x;" s = (Undefined, s).
Proof.
  split; [exists (if (alloc <=? 11)%Z then 109%Z else alloc)|]; unfold add_line, sbind;
    cbn [zSql nAlloc is_empty typesQuery first_text].
  - change (Z.of_nat (String.length "") + Z.of_nat (String.length "select 1;") + 2)%Z with 11%Z.
    destruct (Z.leb_spec alloc 11); [by rewrite (host_id _ true s (memory_available _))|].
    cbn -[Z.ltb]. destruct (Z.ltb_spec alloc (Z.of_nat 2 + 1)); [lia|]. done.
  - destruct (alloc <=? _)%Z; [rewrite (host_id _ true s (memory_available _))|]; done.
Qed.
End Settings.

(** ** At concrete inputs *)

Lemma quoted_argument_is_read_back_witness :
  parse_tokens ("." +:+ "separator" +:+ " " +:+ output_c_string (of_chars ["a"; "\"; "034"; "009"; "255"]%char))
  = Some ["separator"; of_chars ["a"; "\"; "034"; "009"; "255"]%char].
Proof. apply quoted_argument_is_read_back; [split; [done | by repeat constructor] | done]. Defined.

(** The data of a shell in the csv mode, a row already printed. *)
Definition csv_data : callback_data := set_cnt 1 (set_separator "," (set_mode MODE_Csv data_init)).

Lemma csv_row_is_read_back_witness :
  exists p' t, shell_callback "" csv_data (Some (Some <$> ["a,b"; ""])) [Some "x"; Some "y"] = Ok (p', t) /\
    csv_record 3 "," (chars t) = Some (chars <$> ["a,b"; ""], []).
Proof. by apply (csv_row_is_read_back "" csv_data ","). Defined.

(** A library that takes statements apart at semicolons and gives one row for each; the
    state is the list of the statements prepared. *)
Fixpoint cut_statement (s : string) : string * string :=
  match s with
  | EmptyString => ("", "")
  | String c r => if decide (c = ";"%char) then (String c "", r)
                  else let '(a, b) := cut_statement r in (String c a, b)
  end.

Definition no_flags : ShellFlags :=
  mkShellFlags false false false true "|" true "" false "" "" "" "" "" "" "" "" "" "" "" "" "".

#[local] Instance listing_host : ShellHost (list string) (string * bool) := {|
  flags := no_flags; env_TERM := None; env_ENHANCE := false; kVersion := "3"; sqlite3_libversion := "3";
  sqlite3_prepare sql w := (SQLITE_OK, Some ((cut_statement sql).1, true), (cut_statement sql).2, w ++ [(cut_statement sql).1]);
  sqlite3_sql st := Some st.1;
  sqlite3_step st w := (if st.2 then SQLITE_ROW else 101%Z, (st.1, false), w);
  sqlite3_column_count _ := 1%nat; sqlite3_column_name _ _ := Some "statement"; sqlite3_column st _ := (false, Some st.1);
  sqlite3_finalize _ w := (SQLITE_OK, w); sqlite3_errmsg _ := "not an error"; sqlite3_complete s := line_contains_semicolon s;
  sqlite3_busy_timeout _ w := w; clearAffectedTables w := w; malloc _ w := (true, w);
  rows_bound st _ := if st.2 then 1%nat else 0%nat; linenoise _ w := (None, w); linenoiseHistoryAdd _ w := w;
  linenoiseHistoryLoad w := w; linenoiseHistorySave w := w; attach_shellstatic w := w; sigint w := (false, w);
  beginTimer w := w; endTimer w := ("", w); table_names _ := []; table_columns _ w := ((Status1 0, []), w);
  query_columns _ w := ((Status1 0, []), w); osquery_SQL _ w := ([], w); selectAllFrom _ w := ([], w);
  active_database _ := "rocksdb"; config_packs _ := [] |}.

#[local] Instance listing_quiet : QuietHost listing_host.
Proof. by split. Qed.

#[local] Instance listing_laws : ShellLaws listing_host.
Proof.
  split.
  - intros [q []] w st' w' [= <- <-]; simpl; lia.
  - intros sql w st tail w' [= <- <- <-]. induction sql as [|c sql IH]; [done|]. intros _. cbn [cut_statement].
    destruct (decide (c = ";"%char)); [simpl; lia|]. destruct (cut_statement sql) as [a b] eqn:E. cbn in *.
    destruct sql; [injection E as <- <-; simpl; lia|]. specialize (IH ltac:(done)). simpl in *. lia.
Qed.

Definition example_shell : Shell (list string) := main_init false [].
Definition example_script : list (list string) := [["select 1;"]; ["select 2"; "from t;"]].

Lemma script_runs_its_statements_witness :
  process_input 4 (Some (file_text (concat example_script))) example_shell
  = sbind (run_script [(1, "select 1;"); (2, "select 2" +:+ nl +:+ "from t;")]%Z 0)
      (fun errs => sret (if (0 <? errs)%Z then 1 else 0)%Z) example_shell.
Proof.
  apply (script_runs_its_statements example_script); [|done].
  assert (forall l, forallb (fun c => negb (bool_decide (c = NUL)) && negb (bool_decide (c = "010"%char))) (chars l) = true ->
    last (chars l) <> Some "013"%char -> line_text l) as Htext.
  { intros l Hl Hlast. split; [|done]. apply Forall_forall. intros c Hc. rewrite forallb_forall in Hl.
    rewrite list_elem_of_In in Hc. apply Hl, andb_true_iff in Hc as [H1 H2]. split; by intros ->. }
  apply (script_cons 0 ["select 1;"] "select 1;" [["select 2"; "from t;"]]).
  { split; [by intros ? ? [= <- <-]|]. by apply (collect_last "" "select 1;"); [apply Htext| |]. }
  apply (script_cons 1 ["select 2"; "from t;"] ("select 2" +:+ nl +:+ "from t;") []); [|constructor].
  split; [by intros ? ? [= <- <-]|].
  apply (collect_more "" "select 2"); [by apply Htext | done..|].
  by apply (collect_last "select 2" "from t;"); [apply Htext| |].
Defined.

Example example_script_prints :
  printed (process_input 4 (Some (file_text (concat example_script))) example_shell).2 <> [] /\
  world (process_input 4 (Some (file_text (concat example_script))) example_shell).2
  = ["select 1;"; "select 2" +:+ nl +:+ "from t;"].
Proof. split; [by vm_compute | vm_compute; reflexivity]. Qed.
