(* ===== verification/Docker.v ===== *)
(** * Docker tables (osquery/tables/applications/posix/docker.cpp)

    Rows made of what the Docker service answers. The socket, the JSON reader and the
    conversions of Boost's property tree, the C library's calendar and /proc are the class
    [DockerHost]. An exception of the property tree is a [RuntimeError], the kind the tables
    catch; others leave the table. *)
From S2P Require Import Prelude Boost Conversions Json Database Query Host Tables Printer.

(** [boost::property_tree::ptree]. *)
Inductive ptree := PNode (pt_data : string) (pt_children : list (string * ptree)).
Definition pdata (t : ptree) : string := match t with PNode d _ => d end.
Definition kids (t : ptree) : list (string * ptree) := match t with PNode _ k => k end.

(** What a request to the socket brings. *)
Inductive exchange := Refused (why : string) | AtEof | Answer (text : string) | Failed (what : string).

Class DockerHost (W : Type) := {
  docker_send : string -> M W exchange;
  pt_read_json : string -> ptree + string;
  (** [stream_translator] for [int], [uint64_t] and [bool]. *)
  pt_int : string -> option Z;
  pt_u64 : string -> option Z;
  pt_bool : string -> option bool;
  (** [std::mktime] of the time [std::get_time] reads with "%Y-%m-%dT%T". *)
  read_time : string -> option Z;
  utc_difference : Z;
  process_namespaces : string -> M W (Status * list (string * Z));
  kPlatformType : Z;
}.

(** ** Property trees *)

Definition child (key : string) (t : ptree) : option ptree :=
  snd <$> find (fun kv => bool_decide (kv.1 = key)) (kids t).

(** The keys of a path, which dots separate. *)
Fixpoint path_keys (s : string) (key : string) : list string :=
  match s with
  | EmptyString => [key]
  | String c r => if decide (c = "."%char) then key :: path_keys r "" else path_keys r (key +:+ String c "")
  end.

Fixpoint descend (keys : list string) (t : ptree) : option ptree :=
  match keys with
  | [] => Some t
  | k :: keys => c ← child k t; descend keys c
  end.

Definition find_path (t : ptree) (path : string) : option ptree := descend (path_keys path "") t.

(** [tree.get<T>(path, default)] for the types used. *)
Definition get_as {T} (read : string -> option T) (t : ptree) (path : string) (d : T) : T :=
  default d (find_path t path ≫= fun n => read (pdata n)).
Definition get_str (t : ptree) (path d : string) : string := get_as Some t path d.

Section Docker.
Context {B : Boost} {W : Type} {H : DockerHost W}.

Definition get_int (t : ptree) (path : string) (d : Z) : Z := get_as pt_int t path d.
Definition get_u64 (t : ptree) (path : string) (d : Z) : Z := get_as pt_u64 t path d.
Definition get_bool (t : ptree) (path : string) : bool := get_as pt_bool t path false.

(** [tree.get_child(path)]: [ptree_bad_path] when there is none. *)
Definition get_child (t : ptree) (path : string) : result ptree :=
  match find_path t path with Some n => Ok n | None => Throw (RuntimeError "No such node") end.

Definition rbind {A C} (r : result A) (f : A -> result C) : result C :=
  match r with Ok a => f a | Throw e => Throw e end.

(** [catch (const pt::ptree_error&)]. *)
Definition catch_ptree {A} (r : result A) (d : A) : result A :=
  match r with Throw (RuntimeError _) => Ok d | _ => r end.

Definition row (l : list (string * string)) : Row := list_to_map l.
Definition flag (b : bool) : string := if b then "1" else "0".

(** ** The service *)

Definition FLAGS_request (uri : string) : string :=
  "GET " +:+ uri +:+ " HTTP/1.0" +:+ String "013" nl +:+ "Accept: */" +:+ "*" +:+ String "013" nl +:+
  "Connection: close" +:+ String "013" nl +:+ String "013" nl.

(** [getline(stream, str)]: the line, the rest, and whether the end was met. *)
Fixpoint getline (s : string) : string * string * bool :=
  match s with
  | EmptyString => ("", "", true)
  | String c r => if decide (c = "010"%char) then ("", r, false)
                  else let '(l, rest, eof) := getline r in (String c l, rest, eof)
  end.

(** The lines up to the empty one are skipped. *)
Fixpoint skip_header (fuel : nat) (s : string) : string :=
  match fuel with
  | O => s
  | S fuel => let '(str, rest, eof) := getline s in
              if eof || bool_decide (str = String "013" "") then rest else skip_header fuel rest
  end.

Definition http_ok (line : string) : bool :=
  bool_decide (line = "HTTP/1.0 200 OK" +:+ String "013" "") || bool_decide (line = "HTTP/1.1 200 OK" +:+ String "013" "").

Definition empty_tree : ptree := PNode "" [].

Definition dockerApi (uri : string) : M W (Status * ptree) :=
  let* e := docker_send (FLAGS_request uri) in
  ret (match e with
       | Refused why => (mkStatus 1 ("Error connecting to docker sock: " +:+ why), empty_tree)
       | AtEof => (mkStatus 1 ("Empty docker API response for: " +:+ uri), empty_tree)
       | Failed what => (mkStatus 1 ("Error calling docker API: " +:+ what), empty_tree)
       | Answer text =>
           let '(str, rest, eof) := getline text in
           if negb (http_ok str) then (mkStatus 1 ("Invalid docker API response for " +:+ uri +:+ ": " +:+ str), empty_tree)
           else
             let body := if (eof : bool) then rest else skip_header (S (String.length rest)) rest in
             match pt_read_json body with
             | inl tree => (Status1 0, tree)
             | inr what => (mkStatus 1 ("Error reading docker API response for " +:+ uri +:+ ": " +:+ what), empty_tree)
             end
       end).

(** The rows of an answer; an error gives none. *)
Definition with_answer (uri : string) (rows : ptree -> M W QueryData) : M W QueryData :=
  let* (s, tree) := dockerApi uri in
  if Status_ok s then rows tree else ret [].

(** ** Version and information *)

Definition genVersion (context : QueryContext) : M W QueryData :=
  with_answer "/version" (fun tree => ret [row
    [("version", get_str tree "Version" ""); ("api_version", get_str tree "ApiVersion" "");
     ("min_api_version", get_str tree "MinAPIVersion" ""); ("git_commit", get_str tree "GitCommit" "");
     ("go_version", get_str tree "GoVersion" ""); ("os", get_str tree "Os" ""); ("arch", get_str tree "Arch" "");
     ("kernel_version", get_str tree "KernelVersion" ""); ("build_time", get_str tree "BuildTime" "")]]).

Definition genInfo (context : QueryContext) : M W QueryData :=
  with_answer "/info" (fun tree =>
    let s key := get_str tree key "" in
    let i key := to_string (get_int tree key 0) in
    let b key := flag (get_bool tree key) in
    ret [row
    [("id", s "ID"); ("containers", i "Containers"); ("containers_running", i "ContainersRunning");
     ("containers_paused", i "ContainersPaused"); ("containers_stopped", i "ContainersStopped"); ("images", i "Images");
     ("storage_driver", s "Driver"); ("memory_limit", b "MemoryLimit"); ("swap_limit", b "SwapLimit");
     ("kernel_memory", b "KernelMemory"); ("cpu_cfs_period", b "CpuCfsPeriod"); ("cpu_cfs_quota", b "CpuCfsQuota");
     ("cpu_shares", b "CPUShares"); ("cpu_set", b "CPUSet"); ("ipv4_forwarding", b "IPv4Forwarding");
     ("bridge_nf_iptables", b "BridgeNfIptables"); ("bridge_nf_ip6tables", b "BridgeNfIp6tables");
     ("oom_kill_disable", b "OomKillDisable"); ("logging_driver", s "LoggingDriver"); ("cgroup_driver", s "CgroupDriver");
     ("kernel_version", s "KernelVersion"); ("os", s "OperatingSystem"); ("os_type", s "OSType");
     ("architecture", s "Architecture"); ("cpus", i "NCPU"); ("memory", to_string (get_u64 tree "MemTotal" 0));
     ("http_proxy", s "HttpProxy"); ("https_proxy", s "HttpsProxy"); ("no_proxy", s "NoProxy"); ("name", s "Name");
     ("server_version", s "ServerVersion"); ("root_dir", s "DockerRootDir")]]).

(** ** Constraints *)

Definition isxdigit (c : ascii) : bool := bool_decide (is_Some (digit_value 16 c)).

Definition checkConstraintValue (str : string) : bool :=
  (String.length str <=? 64)%nat && all_chars isxdigit str.

Definition constraint_list (context : QueryContext) (key : string) : ConstraintList :=
  default ConstraintList_new (constraints context !! key).

(** The values asked for, in the order of the set. *)
Definition constraint_values (context : QueryContext) (key : string) : list string :=
  filter (fun v => checkConstraintValue v = true) (set_sorted (getAll EQUALS (constraint_list context key))).

(** [getQuery]: the query string and the values asked for. *)
Definition getQuery (context : QueryContext) (key : string) (add_all : bool) : string * list string :=
  if negb (exists_ EQUALS (constraint_list context key)) then ("", [])
  else
    let items := constraint_values context key in
    let key_str := String.concat "%2C" ((fun item => "%22" +:+ item +:+ "%22%3Atrue") <$> items) in
    ("?" +:+ (if add_all then "all=1&" else "") +:+ "filters=%7B%22" +:+ key +:+ "%22%3A%7B" +:+ key_str +:+ "%7D%7D", items).

(** A digest without the name of the hash. *)
Definition erase_sha256 (value : string) : string :=
  if boost_starts_with value "sha256:" then String.substring 7 (String.length value) value else value.

Definition getValue (tree : ptree) (set : list string) (key : string) : string :=
  let value := erase_sha256 (get_str tree key "") in
  match find (fun entry => boost_starts_with value entry) set with
  | Some entry => entry
  | None => value
  end.

(** ** Labels *)

Definition label_rows (items : list string) (column primary_key : string) (node : ptree) : result QueryData :=
  let pk := getValue node items primary_key in
  rbind (get_child node "Labels") (fun labels =>
  Ok ((fun label => row [(column, pk); ("key", c_str label.1); ("value", pdata label.2)]) <$> kids labels)).

(** The entries in order; the rows before an entry without labels are kept. *)
Fixpoint labels_of (items : list string) (column primary_key : string) (nodes : list (string * ptree)) (acc : QueryData)
    : QueryData :=
  match nodes with
  | [] => acc
  | entry :: nodes =>
      match label_rows items column primary_key entry.2 with
      | Ok rows => labels_of items column primary_key nodes (acc ++ rows)
      | Throw _ => acc
      end
  end.

Definition getLabels (context : QueryContext) (column primary_key url path : string) (filter add_all : bool) : M W QueryData :=
  let '(query, items) := getQuery context column add_all in
  with_answer (if filter then url +:+ query else url) (fun tree =>
    ret (match (if is_empty path then Ok tree else get_child tree path) with
         | Ok array => labels_of items column primary_key (kids array) []
         | Throw _ => []
         end)).

Definition genContainerLabels (context : QueryContext) := getLabels context "id" "Id" "/containers/json" "" true true.
Definition genNetworkLabels (context : QueryContext) := getLabels context "id" "Id" "/networks" "" true false.
Definition genVolumeLabels (context : QueryContext) := getLabels context "name" "Name" "/volumes" "Volumes" true false.
Definition genImageLabels (context : QueryContext) := getLabels context "id" "Id" "/images/json" "" false false.

(** ** Containers *)

Definition texts (t : ptree) : list string := (fun kv => pdata kv.2) <$> kids t.
Definition joined_texts (t : ptree) (path : string) : result string :=
  rbind (get_child t path) (fun n => Ok (boost_join (texts n) ", ")).

(** The columns of the inspection of a container; a missing part throws. *)
Definition detail_columns (d : ptree) : result (list (string * string)) :=
  rbind (get_child d "State") (fun state =>
  rbind (get_child d "HostConfig") (fun hc =>
  rbind (joined_texts d "Config.Entrypoint") (fun entry =>
  rbind (joined_texts d "HostConfig.SecurityOpt") (fun sec =>
  rbind (joined_texts d "Config.Env") (fun env =>
  Ok [("pid", to_string (get_int state "Pid" (-1))); ("started_at", get_str state "StartedAt" "");
      ("finished_at", get_str state "FinishedAt" ""); ("privileged", flag (get_bool hc "Privileged"));
      ("readonly_rootfs", flag (get_bool hc "ReadonlyRootfs")); ("path", get_str d "Path" "");
      ("config_entrypoint", entry); ("security_options", sec); ("env_variables", env)]))))).

Definition container_columns (ids : list string) (container : ptree) : list (string * string) :=
  [("id", getValue container ids "Id")] ++
  match find_path container "Names" with
  | Some names => match kids names with [] => [] | name :: _ => [("name", pdata name.2)] end
  | None => []
  end ++
  [("image_id", erase_sha256 (get_str container "ImageID" "")); ("image", get_str container "Image" "");
   ("command", get_str container "Command" ""); ("created", to_string (get_u64 container "Created" 0));
   ("state", get_str container "State" ""); ("status", get_str container "Status" "")].

Definition container_row (ids : list string) (container : ptree) : M W Row :=
  let columns := container_columns ids container in
  let id := getValue container ids "Id" in
  let* (s, details) := dockerApi ("/containers/" +:+ id +:+ "/json?stream=false") in
  let* columns := (if Status_ok s then let* more := of_result (detail_columns details) in ret (columns ++ more)
                   else ret columns) in
  let r := row columns in
  let pid := default "" (r !! "pid") in
  let r := <["pid" := pid]> r in
  if bool_decide (pid = "-1") then ret r
  else
    let* (s, namespaces) := process_namespaces pid in
    ret (if Status_ok s then foldl (fun r ns => <[ns.1 +:+ "_namespace" := to_string ns.2]> r) r namespaces else r).

Definition with_containers (context : QueryContext) (rows : list string -> ptree -> M W QueryData) : M W QueryData :=
  let '(query, ids) := getQuery context "id" true in
  with_answer ("/containers/json" +:+ query) (rows ids).

Definition genContainers (context : QueryContext) : M W QueryData :=
  with_containers context (fun ids containers =>
    for_fold (kids containers) [] (fun results entry =>
      let* r := container_row ids entry.2 in ret (results ++ [r]))).

(** The tables with a row for each part of a container: a container without the part has
    none. *)
Definition part_rows (path : string) (make : string -> string * ptree -> Row) (ids : list string) (container : ptree)
    : QueryData :=
  match get_child container path with
  | Ok parts => make (getValue container ids "Id") <$> kids parts
  | Throw _ => []
  end.

Definition gen_parts (path : string) (make : string -> string * ptree -> Row) (context : QueryContext) : M W QueryData :=
  with_containers context (fun ids containers =>
    ret (flat_map (fun entry => part_rows path make ids entry.2) (kids containers))).

Definition mount_row (id : string) (node : string * ptree) : Row :=
  let s key := get_str node.2 key "" in
  row [("id", id); ("type", s "Type"); ("name", s "Name"); ("source", s "Source"); ("destination", s "Destination");
       ("driver", s "Driver"); ("mode", s "Mode"); ("rw", flag (get_bool node.2 "RW")); ("propagation", s "Propagation")].

Definition network_row (id : string) (node : string * ptree) : Row :=
  let s key := get_str node.2 key "" in
  row [("id", id); ("name", c_str node.1); ("network_id", s "NetworkID"); ("endpoint_id", s "EndpointID");
       ("gateway", s "Gateway"); ("ip_address", s "IPAddress");
       ("ip_prefix_len", to_string (get_int node.2 "IPPrefixLen" 0)); ("ipv6_gateway", s "IPv6Gateway");
       ("ipv6_address", s "GlobalIPv6Address"); ("ipv6_prefix_len", to_string (get_int node.2 "GlobalIPv6PrefixLen" 0));
       ("mac_address", s "MacAddress")].

Definition port_row (id : string) (node : string * ptree) : Row :=
  row [("id", id); ("type", get_str node.2 "Type" ""); ("port", to_string (get_int node.2 "PrivatePort" 0));
       ("host_ip", get_str node.2 "IP" ""); ("host_port", to_string (get_int node.2 "PublicPort" 0))].

Definition genContainerMounts := gen_parts "Mounts" mount_row.
Definition genContainerNetworks := gen_parts "NetworkSettings.Networks" network_row.
Definition genContainerPorts := gen_parts "Ports" port_row.

(** ** Processes *)

Definition osx_ps_args : string :=
  "pid,state,uid,gid,svuid,svgid,rss,vsz,etime,ppid,pgid,wq,nice,user,time,pcpu,pmem,comm,command".
Definition linux_ps_args : string :=
  "pid,state,uid,gid,euid,egid,suid,sgid,rss,vsz,etime,ppid,pgrp,nlwp,nice,user,time,pcpu,pmem,comm,cmd".

(** [vector.at(i)]. *)
Definition at_ (v : list string) (i : nat) : result string :=
  match v !! i with Some x => Ok x | None => Throw (OutOfRange "vector::_M_range_check") end.

Definition process_columns (v : list string) : list (string * string) :=
  let c i := default "" (v !! i) in
  [("state", c 1%nat); ("uid", c 2%nat); ("gid", c 3%nat); ("euid", c 4%nat); ("egid", c 5%nat); ("suid", c 6%nat);
   ("sgid", c 7%nat); ("resident_size", c 8%nat +:+ "000"); ("total_size", c 9%nat +:+ "000"); ("start_time", c 10%nat);
   ("parent", c 11%nat); ("pgroup", c 12%nat); ("threads", c 13%nat); ("nice", c 14%nat); ("user", c 15%nat);
   ("time", c 16%nat); ("cpu", c 17%nat); ("mem", c 18%nat); ("name", c 19%nat); ("cmdline", c 20%nat)].

(** One process: [None] when its fields are not the ones asked for. *)
Definition process_row (id : string) (processes : ptree) : result (option Row) :=
  let v := texts processes in
  rbind (at_ v 0) (fun pid =>
  let common := [("id", id); ("pid", pid); ("wired_size", "0")] in
  let c i := default "" (v !! i) in
  Ok (if isPlatform TYPE_OSX kPlatformType && (length v =? 4)%nat then
        Some (row (common ++ [("uid", c 1%nat); ("time", c 2%nat); ("cmdline", c 3%nat)]))
      else if isPlatform TYPE_LINUX kPlatformType && (length v =? 21)%nat then Some (row (common ++ process_columns v))
      else None)).

Fixpoint process_rows (id : string) (l : list (string * ptree)) (acc : QueryData) : result QueryData :=
  match l with
  | [] => Ok acc
  | p :: l => rbind (process_row id p.2) (fun r => process_rows id l (acc ++ option_list r))
  end.

Definition container_processes (id : string) (container : ptree) : result QueryData :=
  match get_child container "Processes" with
  | Ok processes => process_rows id (kids processes) []
  | Throw (RuntimeError _) => Ok []
  | Throw e => Throw e
  end.

(** The answers for each id asked for, in order; an error skips the id. *)
Definition for_ids (context : QueryContext) (uri : string -> string) (rows : string -> ptree -> result QueryData)
    : M W QueryData :=
  for_fold (constraint_values context "id") [] (fun results id =>
    let* (s, container) := dockerApi (uri id) in
    if Status_ok s then let* r := of_result (rows id container) in ret (results ++ r) else ret results).

Definition genContainerProcesses (context : QueryContext) : M W QueryData :=
  if isPlatform TYPE_OSX kPlatformType then
    for_ids context (fun id => "/containers/" +:+ id +:+ "/top?ps_args=axwwo%20" +:+ osx_ps_args) container_processes
  else if isPlatform TYPE_LINUX kPlatformType then
    for_ids context (fun id => "/containers/" +:+ id +:+ "/top?ps_args=axwwo%20" +:+ linux_ps_args) container_processes
  else ret [].

(** ** Statistics *)

Definition getUnixTime (iso_8601 : string) (local : bool) : Z :=
  if is_empty iso_8601 then 0
  else match read_time iso_8601 with
       | None => 0
       | Some t => if local then t else t - utc_difference
       end.

(** The text behind the first dot. *)
Fixpoint after_dot (s : string) : option string :=
  match s with
  | EmptyString => None
  | String c r => if decide (c = "."%char) then Some r else after_dot r
  end.

(** A text that is not a number throws [std::invalid_argument], which is not caught. *)
Definition diffNanos (iso1 iso2 : string) : result Z :=
  if is_empty iso1 || is_empty iso2 then Ok 0%Z
  else match after_dot iso1, after_dot iso2 with
       | Some n1, Some n2 =>
           match rbind (stol 10 n1) (fun a => rbind (stol 10 n2) (fun b => Ok (i64 (a - b)))) with
           | Throw (OutOfRange _) => Ok 0%Z
           | r => r
           end
       | _, _ => Ok 0%Z
       end.

Definition getIOBytes (tree : ptree) (op : string) : string :=
  to_string (foldl (fun value entry =>
    if bool_decide (get_str entry.2 "op" "" = op) then u64 (value + get_u64 entry.2 "value" 0) else value)
    0%Z (kids tree)).

Definition getNetworkBytes (tree : ptree) (key : string) : string :=
  to_string (foldl (fun value node => u64 (value + get_u64 node.2 key 0)) 0%Z (kids tree)).

(** [r["pids"] = n] for an [int]: the assignment of a [char]. *)
Definition assign_int (n : Z) : string := String (byte n) "".

Definition stats_columns (id : string) (container : ptree) (t1 t0 nanos : Z) (io networks : ptree) : list (string * string) :=
  let u path := to_string (get_u64 container path 0) in
    [("id", id); ("name", get_str container "name" ""); ("pids", assign_int (get_int container "pids_stats.current" 0));
     ("read", to_string t1); ("preread", to_string t0); ("interval", to_string (i64 (i64 ((t1 - t0) * 1000000000) + nanos)));
     ("disk_read", getIOBytes io "Read"); ("disk_write", getIOBytes io "Write");
     ("num_procs", to_string (get_int container "num_procs" 0));
     ("cpu_total_usage", u "cpu_stats.cpu_usage.total_usage");
     ("cpu_kernelmode_usage", u "cpu_stats.cpu_usage.usage_in_kernelmode");
     ("cpu_usermode_usage", u "cpu_stats.cpu_usage.usage_in_usermode");
     ("system_cpu_usage", u "cpu_stats.system_cpu_usage"); ("online_cpus", u "cpu_stats.online_cpus");
     ("pre_cpu_total_usage", u "precpu_stats.cpu_usage.total_usage");
     ("pre_cpu_kernelmode_usage", u "precpu_stats.cpu_usage.usage_in_kernelmode");
     ("pre_cpu_usermode_usage", u "precpu_stats.cpu_usage.usage_in_usermode");
     ("pre_system_cpu_usage", u "precpu_stats.system_cpu_usage"); ("pre_online_cpus", u "precpu_stats.online_cpus");
     ("memory_usage", u "memory_stats.usage"); ("memory_max_usage", u "memory_stats.max_usage");
     ("memory_limit", u "memory_stats.limit");
     ("network_rx_bytes", getNetworkBytes networks "rx_bytes"); ("network_tx_bytes", getNetworkBytes networks "tx_bytes")].

Definition stats_row (id : string) (container : ptree) : result Row :=
  let read := get_str container "read" "" in
  let preread := get_str container "preread" "" in
  let t1 := getUnixTime read false in
  let t0 := getUnixTime preread false in
  rbind (diffNanos read preread) (fun nanos =>
  rbind (get_child container "blkio_stats.io_service_bytes_recursive") (fun io =>
  rbind (get_child container "networks") (fun networks =>
  Ok (row (stats_columns id container t1 t0 nanos io networks))))).

Definition genContainerStats (context : QueryContext) : M W QueryData :=
  for_ids context (fun id => "/containers/" +:+ id +:+ "/stats?stream=false") (fun id container =>
    catch_ptree (rbind (stats_row id container) (fun r => Ok [r])) []).

(** ** Networks, volumes and images *)

Definition network_columns (ids : list string) (node : ptree) : result Row :=
  rbind (get_child node "IPAM.Config") (fun config =>
  Ok (row ([("id", getValue node ids "Id"); ("name", get_str node "Name" ""); ("driver", get_str node "Driver" "");
            ("created", to_string (getUnixTime (get_str node "Created" "") true));
            ("enable_ipv6", flag (get_bool node "EnableIPv6"))] ++
           match kids config with
           | [] => []
           | details :: _ => [("subnet", get_str details.2 "Subnet" ""); ("gateway", get_str details.2 "Gateway" "")]
           end))).

(** A row for each entry; an entry the tree does not hold in full has none. *)
Definition entry_rows (make : ptree -> result Row) (nodes : list (string * ptree)) : QueryData :=
  omap (fun entry => match make entry.2 with Ok r => Some r | Throw _ => None end) nodes.

Definition genNetworks (context : QueryContext) : M W QueryData :=
  let '(query, ids) := getQuery context "id" false in
  with_answer ("/networks" +:+ query) (fun tree => ret (entry_rows (network_columns ids) (kids tree))).

Definition volume_columns (names : list string) (node : ptree) : result Row :=
  Ok (row [("name", getValue node names "Name"); ("driver", get_str node "Driver" "");
           ("mount_point", get_str node "Mountpoint" ""); ("type", get_str node "Options.type" "")]).

(** [tree.get_child("Volumes")] is outside the [try]. *)
Definition genVolumes (context : QueryContext) : M W QueryData :=
  let '(query, names) := getQuery context "name" false in
  with_answer ("/volumes" +:+ query) (fun tree =>
    let* volumes := of_result (get_child tree "Volumes") in
    ret (entry_rows (volume_columns names) (kids volumes))).

Definition join_tags (tags : list string) : string :=
  foldl (fun acc tag => (if is_empty acc then acc else acc +:+ ",") +:+ tag) "" tags.

Definition image_columns (node : ptree) : result Row :=
  rbind (get_child node "RepoTags") (fun tags =>
  Ok (row [("id", erase_sha256 (get_str node "Id" "")); ("created", to_string (get_u64 node "Created" 0));
           ("size_bytes", to_string (get_u64 node "Size" 0)); ("tags", join_tags (texts tags))])).

Definition genImages (context : QueryContext) : M W QueryData :=
  with_answer "/images/json" (fun tree => ret (entry_rows image_columns (kids tree))).
End Docker.

(** ** What is sent *)

(** Text that stays one word of a request line. *)
Definition clean (s : string) : bool :=
  all_chars (fun c => (33 <=? Ascii.nat_of_ascii c)%nat && (Ascii.nat_of_ascii c <=? 126)%nat) s.

Lemma clean_app s t : clean (s +:+ t) = clean s && clean t.
Proof. apply all_chars_app. Qed.

Lemma isxdigit_clean c : isxdigit c = true -> (33 <=? Ascii.nat_of_ascii c)%nat && (Ascii.nat_of_ascii c <=? 126)%nat = true.
Proof. destruct c as [[] [] [] [] [] [] [] []]; vm_compute; done. Qed.

Lemma constraint_value_clean v : checkConstraintValue v = true -> clean v = true.
Proof.
  unfold checkConstraintValue, clean, all_chars. intros [_ Hv]%andb_true_iff.
  rewrite forallb_forall in Hv |- *. intros c Hc. apply isxdigit_clean. by apply Hv.
Qed.

Lemma constraint_values_clean context key v : v ∈ constraint_values context key -> clean v = true.
Proof. unfold constraint_values. intros [Hv _]%list_elem_of_filter. by apply constraint_value_clean. Qed.

Lemma concat_clean sep l : clean sep = true -> Forall (fun s => clean s = true) l -> clean (String.concat sep l) = true.
Proof.
  intros Hs Hl. induction Hl as [|x l Hx Hl IH]; [done|]. cbn [String.concat].
  destruct l as [|y l]; [done|]. change (clean (x +:+ sep +:+ String.concat sep (y :: l)) = true).
  by rewrite !clean_app, Hx, Hs, IH.
Qed.

Lemma getQuery_clean context key all : clean key = true -> clean (getQuery context key all).1 = true.
Proof.
  intros Hk. unfold getQuery. destruct (negb _); [done|]. cbn [fst].
  rewrite !clean_app, Hk, concat_clean; [by destruct all | done |].
  apply Forall_forall. intros s (v & -> & Hv)%list_elem_of_fmap.
  by rewrite !clean_app, (constraint_values_clean _ _ _ Hv).
Qed.

Lemma Ok_inj {A} (a b : A) : Ok a = Ok b -> a = b.
Proof. congruence. Qed.

(** However the computation ends, [P] holds of the state it leaves. *)
Definition always {W A} (P : W -> Prop) (m : M W A) : Prop := forall w, P w -> P (m w).2.

Section Requests.
Context {B : Boost} {W : Type} {H : DockerHost W}.
Variable P : W -> Prop.
(** Requests for clean addresses keep [P]. *)
Hypothesis P_clean : forall uri, clean uri = true -> always P (docker_send (FLAGS_request uri)).

Lemma always_ret {A} (a : A) : always P (ret a).
Proof. by intros s. Qed.

Lemma always_of_result {A} (r : result A) : always P (of_result r).
Proof. by intros s. Qed.

Lemma always_bind {A C} (m : M W A) (k : A -> M W C) : always P m -> (forall a, always P (k a)) -> always P (bind m k).
Proof.
  intros Hm Hk s Hs. specialize (Hm s Hs). unfold bind. destruct (m s) as [[a|e] s']; [by apply Hk | done].
Qed.

Lemma always_if {A} (b : bool) (m1 m2 : M W A) : always P m1 -> always P m2 -> always P (if b then m1 else m2).
Proof. by destruct b. Qed.

Lemma always_dockerApi uri : clean uri = true -> always P (dockerApi uri).
Proof. intros Hu. unfold dockerApi. apply always_bind; [by apply P_clean|]. intros e. apply always_ret. Qed.

Lemma always_with_answer uri rows : clean uri = true -> (forall t, always P (rows t)) -> always P (with_answer uri rows).
Proof.
  intros Hu Hr. unfold with_answer. apply always_bind; [by apply always_dockerApi|]. intros [s tree].
  apply always_if; [done | apply always_ret].
Qed.

Lemma always_for_fold {A C} (l : list A) (acc : C) f : (forall acc x, x ∈ l -> always P (f acc x)) -> always P (for_fold l acc f).
Proof.
  revert acc. induction l as [|x l IH]; intros acc Hf; [apply always_ret|]. cbn [for_fold].
  apply always_bind; [apply Hf; by left|]. intros acc'. apply IH. intros acc'' y Hy. apply Hf. by right.
Qed.

Lemma always_for_ids context uri rows :
  (forall id, clean id = true -> clean (uri id) = true) -> always P (for_ids context uri rows).
Proof.
  intros Hu. unfold for_ids. apply always_for_fold. intros acc id Hid.
  apply always_bind; [apply always_dockerApi, Hu; by eapply constraint_values_clean|]. intros [s c].
  apply always_if; [|apply always_ret]. apply always_bind; [apply always_of_result|]. intros r. apply always_ret.
Qed.

Lemma always_getLabels context column pk url path f a : clean column = true -> clean url = true ->
  always P (getLabels context column pk url path f a).
Proof.
  intros Hc Hu. unfold getLabels. destruct (getQuery context column a) as [query items] eqn:E.
  apply always_with_answer; [|intros t; apply always_ret].
  destruct f; [|done]. rewrite clean_app, Hu. change query with (query, items).1. rewrite <- E. by apply getQuery_clean.
Qed.

Lemma always_gen_parts path make context : always P (gen_parts path make context).
Proof.
  unfold gen_parts, with_containers. destruct (getQuery context "id" true) as [query ids] eqn:E.
  apply always_with_answer; [|intros t; apply always_ret].
  rewrite clean_app. change query with (query, ids).1. rewrite <- E. by rewrite getQuery_clean.
Qed.

Lemma always_containers_query context url key all rows : clean url = true -> clean key = true ->
  (forall ids t, always P (rows ids t)) ->
  always P (let '(query, ids) := getQuery context key all in with_answer (url +:+ query) (rows ids)).
Proof.
  intros Hu Hk Hr. destruct (getQuery context key all) as [query ids] eqn:E.
  apply always_with_answer; [|done].
  rewrite clean_app, Hu. change query with (query, ids).1. rewrite <- E. by apply getQuery_clean.
Qed.

(** An id the service gave: that of an entry of its answer to a clean request. *)
Definition served (id : string) : Prop := exists uri w s tree w' entry,
  clean uri = true /\ dockerApi uri w = (Ok (s, tree), w') /\ entry ∈ kids tree /\ id = erase_sha256 (get_str entry.2 "Id" "").

Definition inspect_uri (id : string) : string := "/containers/" +:+ id +:+ "/json?stream=false".

(** The id of a row is one of those asked for, or the one of the answer. *)
Lemma getValue_source tree set key : getValue tree set key ∈ set \/ getValue tree set key = erase_sha256 (get_str tree key "").
Proof.
  unfold getValue. destruct (find _ _) as [e|] eqn:E; [|by right]. left.
  apply find_some in E as [E _]. by apply list_elem_of_In.
Qed.

Lemma always_container_row context ids container : (getQuery context "id" true).2 = ids ->
  served (erase_sha256 (get_str container "Id" "")) ->
  (forall id, served id -> always P (docker_send (FLAGS_request (inspect_uri id)))) ->
  (forall pid, always P (process_namespaces pid)) -> always P (container_row ids container).
Proof.
  intros Hids Hs Hi Hn. unfold container_row. apply always_bind.
  - destruct (getValue_source container ids "Id") as [Hv | ->].
    + apply always_dockerApi. rewrite !clean_app. cbn [andb clean]. rewrite andb_true_r.
      apply (constraint_values_clean context "id"). revert Hids Hv. generalize (getValue container ids "Id"). intros v.
      unfold getQuery. destruct (negb _); cbn [snd]; [by intros <- ?%elem_of_nil | by intros <-].
    + unfold dockerApi. apply always_bind; [by apply Hi|]. intros e. apply always_ret.
  - intros [s details]. apply always_bind.
    { apply always_if; [|apply always_ret]. apply always_bind; [apply always_of_result|]. intros more. apply always_ret. }
    intros columns. apply always_if; [apply always_ret|]. apply always_bind; [apply Hn|]. intros [s' ns]. apply always_ret.
Qed.

Lemma always_genContainers context :
  (forall id, served id -> always P (docker_send (FLAGS_request (inspect_uri id)))) ->
  (forall pid, always P (process_namespaces pid)) -> always P (genContainers context).
Proof.
  intros Hi Hn. unfold genContainers, with_containers. destruct (getQuery context "id" true) as [query ids] eqn:E.
  unfold with_answer. intros w Hw.
  assert (clean ("/containers/json" +:+ query) = true) as Hc.
  { rewrite clean_app. change query with (query, ids).1. rewrite <- E. by rewrite getQuery_clean. }
  pose proof (always_dockerApi _ Hc w Hw) as Hl. unfold bind at 1. destruct (dockerApi _ w) as [[[s tree]|e] w'] eqn:Ed; [|done]. cbn [snd] in Hl.
  destruct (Status_ok s); [|done]. revert w' Ed Hl. intros w' Ed. apply always_for_fold. intros acc entry Hentry.
  apply always_bind; [|intros r; apply always_ret].
  apply (always_container_row context); [by rewrite E | by eexists _, _, _, _, _, _ | done | done].
Qed.

(** C24: What a query compares a column with does not reach the Docker service unchecked:
    whatever text an SQL query asks for, each address requested by the tables that list
    processes, statistics, mounts, networks, ports, labels, volumes and images, by the
    version and by the information is one word without spaces or line ends, so that no
    second request or header can be slipped in. The table of containers requests such
    addresses too, and besides them only the inspection of containers whose ids the
    service itself gave, which are not checked. *)
Theorem constraints_cannot_alter_requests context :
  always P (genContainerProcesses context) /\ always P (genContainerStats context) /\
  always P (genContainerMounts context) /\ always P (genContainerNetworks context) /\ always P (genContainerPorts context) /\
  always P (genContainerLabels context) /\ always P (genNetworks context) /\ always P (genNetworkLabels context) /\
  always P (genVolumes context) /\ always P (genVolumeLabels context) /\ always P (genImageLabels context) /\
  always P (genImages context) /\ always P (genVersion context) /\ always P (genInfo context) /\
  ((forall id, served id -> always P (docker_send (FLAGS_request (inspect_uri id)))) ->
   (forall pid, always P (process_namespaces pid)) -> always P (genContainers context)).
Proof.
  split_and!; try (by apply always_gen_parts); try (by apply always_getLabels);
    try (by apply always_with_answer; [|intros t; apply always_ret]).
  - unfold genContainerProcesses. apply always_if; [|apply always_if; [|apply always_ret]];
      apply always_for_ids; intros id Hid; by rewrite !clean_app, Hid.
  - apply always_for_ids. intros id Hid. by rewrite !clean_app, Hid.
  - apply (always_containers_query context "/networks" "id" false); [done..|]. intros ids t. apply always_ret.
  - apply (always_containers_query context "/volumes" "name" false); [done..|]. intros ids t.
    apply always_bind; [apply always_of_result|]. intros v. apply always_ret.
  - apply always_genContainers.
Qed.
End Requests.

(** ** What is read *)

Lemma getline_line l r : all_chars (fun c => negb (bool_decide (c = "010"%char))) l = true ->
  getline (l +:+ String "010" r) = (l, r, false).
Proof.
  induction l as [|c l IH]; [done|]. rewrite all_chars_cons, app_cons_str. intros [Hc Hl]%andb_true_iff.
  cbn [getline]. rewrite decide_False by (by intros ->). by rewrite IH.
Qed.

(** A line of a header: no line end inside, and not empty. *)
Definition header_line (l : string) : Prop :=
  all_chars (fun c => negb (bool_decide (c = "010"%char))) l = true /\ l <> String "013" "".

Lemma skip_header_lines ls body fuel : Forall header_line ls -> (length ls < fuel)%nat ->
  skip_header fuel (String.concat "" ((fun l => l +:+ nl) <$> ls) +:+ String "013" (String "010" body)) = body.
Proof.
  intros Hl. revert fuel. induction Hl as [|l ls [Hn Hne] _ IH]; intros fuel Hf; (destruct fuel as [|fuel]; [simpl in Hf; lia|]).
  - change (String.concat "" _ +:+ ?x) with x. cbn [skip_header].
    change (String "013" (String "010" body)) with (String "013" "" +:+ String "010" body). by rewrite getline_line.
  - assert (String.concat "" ((fun l => l +:+ nl) <$> (l :: ls)) = (l +:+ nl) +:+ String.concat "" ((fun l => l +:+ nl) <$> ls)) as ->.
    { destruct ls; cbn; [by rewrite app_nil_r_str | done]. }
    rewrite !app_assoc_str. cbn [skip_header].
    change (nl +:+ ?x) with (String "010" x). rewrite getline_line by done. cbn [orb].
    rewrite bool_decide_false by done. apply IH. simpl in Hf. lia.
Qed.

Section Answers.
Context {B : Boost} {W : Type} {H : DockerHost W}.

(** An answer of the service with status 200 is read whole: the lines of its header are
    skipped, however many there are, and the tree is that of the body. *)
Theorem answer_body_is_parsed uri (w w' : W) version headers body tree :
  version ∈ ["HTTP/1.0 200 OK"; "HTTP/1.1 200 OK"] -> Forall header_line headers ->
  docker_send (FLAGS_request uri) w
    = (Ok (Answer (version +:+ String "013" nl +:+ String.concat "" ((fun l => l +:+ nl) <$> headers) +:+
                   String "013" (String "010" body))), w') ->
  pt_read_json body = inl tree ->
  dockerApi uri w = (Ok (Status1 0, tree), w').
Proof.
  intros Hv Hh Hsend Hread. unfold dockerApi, bind. rewrite Hsend. unfold ret. do 2 f_equal.
  set (rest := String.concat "" _ +:+ _).
  assert (getline (version +:+ String "013" nl +:+ rest) = (version +:+ String "013" "", rest, false)) as ->.
  { replace (version +:+ String "013" nl +:+ rest) with ((version +:+ String "013" "") +:+ String "010" rest)
      by (by rewrite app_assoc_str). apply getline_line. by set_unfold; destruct Hv as [->|[->|[]]]. }
  assert (http_ok (version +:+ String "013" "") = true) as -> by (by set_unfold; destruct Hv as [->|[->|[]]]).
  cbn [negb]. unfold rest at 2. rewrite skip_header_lines; [by rewrite Hread | done|].
  unfold rest. clear. induction headers as [|h hs IH]; [simpl; lia|].
  assert (String.concat "" ((fun l => l +:+ nl) <$> (h :: hs)) = (h +:+ nl) +:+ String.concat "" ((fun l => l +:+ nl) <$> hs)) as ->.
  { destruct hs; cbn; [by rewrite app_nil_r_str | done]. }
  rewrite !app_assoc_str. set (tail := String.concat "" _ +:+ _) in *.
  assert (forall s t, String.length (s +:+ t) = (String.length s + String.length t)%nat) as Hlen.
  { induction s as [|c s IHs]; intros t; [done|]. rewrite app_cons_str. simpl. by rewrite IHs. }
  rewrite !Hlen. simpl. lia.
Qed.

(** The number of processes of a container is shown as a character. *)
Lemma pids_column_is_one_character id container r :
  stats_row id container = Ok r -> exists c, r !! "pids" = Some (String c "").
Proof.
  unfold stats_row. destruct (diffNanos _ _) as [n|]; [|done]. cbn [rbind].
  destruct (get_child container "blkio_stats.io_service_bytes_recursive") as [io|]; [|done]. cbn [rbind].
  destruct (get_child container "networks") as [nets|]; [|done]. cbn [rbind]. intros <-%Ok_inj.
  eexists. unfold row, stats_columns. rewrite !list_to_map_cons, 2!lookup_insert_ne by done. apply lookup_insert_eq.
Qed.
End Answers.

(** ** At concrete inputs *)

(** A service that never answers; the state is the list of the requests. *)
#[local] Instance silent_service : DockerHost (list string) := {|
  docker_send r := fun w => (Ok AtEof, w ++ [r]);
  pt_read_json _ := inr "empty"; pt_int _ := None; pt_u64 _ := None; pt_bool _ := None;
  read_time _ := None; utc_difference := 0%Z; process_namespaces _ := ret (Status1 1, []);
  kPlatformType := TYPE_LINUX |}.

(** A query for an id, and for a text that tries to be more than an address. *)
Definition sly_context : QueryContext :=
  mkContext {["id" := mkConstraints TEXT_TYPE [mkConstraint EQUALS "12ab"; mkConstraint EQUALS "1/top HTTP/1.0"]]} None false ∅.

Definition one_word (r : string) : Prop := exists uri, clean uri = true /\ r = FLAGS_request uri.

Lemma constraints_cannot_alter_requests_witness :
  length (genContainerStats sly_context []).2 = 1%nat /\ Forall one_word (genContainerStats sly_context []).2.
Proof.
  split; [by vm_compute|].
  refine (proj1 (proj2 (constraints_cannot_alter_requests (Forall one_word) _ sly_context)) [] (Forall_nil_2 _)).
  intros uri Hu w Hw. cbn. apply Forall_app. split; [done|]. apply Forall_cons_2; [by exists uri | apply Forall_nil_2].
Defined.
