(* ===== verification/Witnesses.v ===== *)
(** * Concrete instances of the properties

    Every property with hypotheses is applied here to a concrete input: the
    in-memory store, the executable JSON and string libraries and the simulated
    host of Host.v, on which each hypothesis is evaluated. *)
From S2P Require Import Prelude Boost Conversions Json Database DatabaseFacts Query QueryFacts LogItemFacts Host.
From S2P Require Import Packs PacksFacts Config ConfigFacts Scheduler SchedulerFacts Events EventsFacts EventFactory.
From S2P Require Import Registry RegistryFacts.

#[local] Set Default Proof Using "Type".

(** ** Inputs *)

(** A daemon whose in-memory store holds the entries [l]. *)
Definition store (l : list (string * string * string)) : DbState Ephemeral.DBType :=
  mkDbState (foldl (fun db e => Ephemeral.setValue db e.1.1 e.1.2 (Ephemeral.VStr e.2)) ∅ l) ∅
    false true.

Lemma store_ready l : core_ready (store l).
Proof.
  split; [done|]. unfold store. simpl.
  assert (forall db, EphemeralFacts.ready db -> EphemeralFacts.ready
    (foldl (fun db e => Ephemeral.setValue db e.1.1 e.1.2 (Ephemeral.VStr e.2)) db l)) as H.
  { induction l as [|[[d k] v] l IH]; intros db Hdb; simpl; [done|].
    apply IH. by apply EphemeralFacts.setValue_spec. }
  apply H. intros d k v. unfold Ephemeral.domain_map. by rewrite lookup_empty.
Qed.

(** The same daemon with a clock. *)
Definition daemon (l : list (string * string * string)) : Sim := (store l, 1500000000%Z).

Lemma daemon_ready l : api_ready (daemon l).
Proof. exact (store_ready l). Qed.

Ltac domain := apply (bool_decide_eq_true_1 _); vm_compute; reflexivity.

Definition row1 : Row := {["pid" := "1"]}.
Definition row2 : Row := {["pid" := "2"]}.

(** Rows are checked by computation. *)
Definition row_wfb (r : Row) : bool :=
  forallb (fun kv => negb (is_empty kv.1) && bool_decide (nul_free kv.1) && bool_decide (nul_free kv.2))
    (map_to_list r).

Lemma row_wf_of r : row_wfb r = true -> row_wf r.
Proof.
  intros H k v Hk. unfold row_wfb in H. rewrite forallb_forall in H.
  specialize (H (k, v)). simpl in H.
  assert (In (k, v) (map_to_list r)) as Hin by by apply list_elem_of_In, elem_of_map_to_list.
  apply H in Hin. apply andb_true_iff in Hin as [[Ha ?%bool_decide_eq_true_1]%andb_true_iff ?%bool_decide_eq_true_1].
  split_and!; [by destruct k | done..].
Qed.

Lemma rows_wf_of rows : forallb row_wfb rows = true -> Forall row_wf rows.
Proof.
  rewrite forallb_forall. intros H. apply Forall_forall. intros r Hr.
  by apply row_wf_of, H, list_elem_of_In.
Qed.

Lemma runs_wf_of runs : forallb (forallb row_wfb) runs = true -> Forall (Forall row_wf) runs.
Proof.
  rewrite forallb_forall. intros H. apply Forall_forall. intros r Hr.
  by apply rows_wf_of, H, list_elem_of_In.
Qed.

Ltac rows := (apply runs_wf_of || apply rows_wf_of || apply row_wf_of); vm_compute; reflexivity.
(** An equality that holds by computation. *)
Ltac vmeq := match goal with |- _ = ?b => vm_cast_no_check (eq_refl b) end.
Ltac range := vm_compute; intuition congruence.

(** ** The backing store *)

Definition db1 : DbState Ephemeral.DBType := store [("queries", "q", "rows")].

Lemma extension_reads_refine_core_witness :
  getDatabaseValue true core_registry_call "queries" "q" db1
  = getDatabaseValue false core_registry_call "queries" "q" db1.
Proof.
  apply (extension_reads_refine_core db1 "queries" "q" "" 0);
    [apply store_ready | domain | range].
Defined.

Lemma extension_writes_refine_core_witness :
  exists st1 s1 st2 s2,
    setDatabaseBatch true core_registry_call "queries" [("a", "1"); ("b", "2")] db1 = (Ok st1, s1) /\
    setDatabaseBatch false core_registry_call "queries" [("a", "1"); ("b", "2")] db1 = (Ok st2, s2) /\
    Status_ok st1 = true /\ Status_ok st2 = true /\ core_ready s1 /\ core_ready s2 /\
    forall d', core_view s1 d' = core_view s2 d'.
Proof.
  apply (extension_writes_refine_core db1 "queries");
    [apply store_ready | domain | done | by repeat constructor].
Defined.

Lemma extension_range_delete_fails_witness :
  deleteDatabaseRange true core_registry_call "queries" "a" "z" db1
  = (Ok (mkStatus 1 "Missing range"), db1).
Proof. apply (extension_range_delete_fails db1); reflexivity. Defined.

Lemma reset_leaves_usable_store_witness :
  exists s', DatabasePlugin_call {["action" := "reset"]} db1 = (Ok (Status1 0, []), s') /\
    core_ready s' /\ active_ephemeral s' = negb (Status_ok (Status1 0)) /\
    (Status_ok (Status1 0) = false -> forall d, core_view s' d = ∅).
Proof.
  apply (reset_leaves_usable_store db1 (plugin db1) ∅); [reflexivity.. |].
  intros _. apply (store_ready []).
Defined.

(** A property tree that accepts no text. *)
Definition no_ptree : PTree := {| pt_children _ := None |}.

Lemma upgrade_terminates_witness :
  exists st s', upgradeDatabase (PT := no_ptree) 3 2 (daemon []) = (Ok (Some st), s') /\ api_ready s' /\
    (Status_ok st = true ->
     s' = daemon [] \/ api_view s' kPersistentSettings !! kDbVersionKey = Some (to_string 2)).
Proof. apply (upgrade_terminates 3 2); [lia | apply daemon_ready]. Defined.

(** ** Query results *)

Lemma query_data_json_roundtrip_witness :
  deserializeQueryDataJSON (serializeQueryDataJSON [row1; row2; row1]).2 [] = (Status_success, [row1; row2; row1]).
Proof.
  apply (query_data_json_roundtrip [row1; row2; row1]).
  rows.
Defined.

Lemma log_replay_rebuilds_last_results_witness :
  exists log s', run_all "q" "select 1" 7 [[row1]; [row2; row1]; [row2]] (daemon []) = (Ok log, s') /\
    ((fun r => r.1.2) <$> log) = [0; 1; 2]%Z /\
    foldl apply_diff [] ((fun r => r.2) <$> log) ≡ₚ [row2].
Proof.
  destruct (log_replay_rebuilds_last_results "q" "select 1" 7 [[row1]; [row2; row1]; [row2]] (daemon []))
    as (log & s' & E & _ & Hc & Hp & _);
    [ rows | done | range
    | apply daemon_ready | reflexivity |].
  exists log, s'. split; [exact E|]. split; [exact Hc | exact Hp].
Defined.

(** A daemon that holds the results of a query [q] at epoch 7. *)
Definition known (count : Z) (rows : QueryData) : Sim :=
  daemon [("queries", "q", (serializeQueryDataJSON rows).2); ("queries", "qepoch", "7");
          ("queries", "qcounter", to_string count); ("queries", "query.q", "select 1")].

Lemma known_holds : holds "q" "select 1" 7 3 [row1] (known 3 [row1]).
Proof.
  split; [apply daemon_ready | | vmeq..].
  exists (serializeQueryDataJSON [row1]).2, [row1]. split_and!; [vmeq | vmeq | done].
Qed.

Lemma epoch_change_resets_witness :
  exists st s', addNewResults "q" "select 2" [row2] 8 0 (mkDiff [] []) true (known 3 [row1])
      = (Ok (st, 0%Z, mkDiff [row2] []), s') /\
    Status_ok st = true /\ holds "q" "select 1" 8 0 [row2] s'.
Proof.
  apply (epoch_change_resets "q" "select 1" "select 2" 7 8 3 0 (mkDiff [] []) [row1] [row2]);
    [ rows | range | done
    | apply known_holds].
Defined.

Lemma unreadable_epoch_throws_witness :
  addNewResults "q" "select 1" [row1] 7 0 (mkDiff [] []) true
    (daemon [("queries", "q", "[]"); ("queries", "qepoch", "[]")])
  = (Throw (InvalidArgument "stoull"), daemon [("queries", "q", "[]"); ("queries", "qepoch", "[]")]).
Proof.
  apply (unreadable_epoch_throws "q" "select 1" 7 0 (mkDiff [] []) [row1] true "[]");
    [apply daemon_ready | by eexists | reflexivity..].
Defined.

Definition item1 : QueryLogItem :=
  {| results := mkDiff [row1] [row2]; snapshot_results := []; item_name := "q"; identifier := "host";
     item_time := 1500000000; epoch := 7; item_counter := 3; calendar_time := "now";
     decorations := {["user" := "root"]}; columns := [] |}.

Lemma log_item_json_roundtrip_witness :
  deserializeQueryLogItemJSON (serializeQueryLogItemJSON false item1).2 empty_item
  = Ok (Status_success, forget_epoch item1).
Proof.
  apply (log_item_json_roundtrip item1).
  split; [rows | rows | rows | range | range | range | range | rows | done].
Defined.

(** ** Packs *)

Lemma splay_stays_near_interval_witness :
  exists v s', splayValue 3600 10 (daemon []) = (Ok v, s') /\ same_store (daemon []) s' /\
    (1 <= v <= 2 * 3600)%Z /\
    ((1 <= 10 <= 100)%Z -> (Z.abs (v - 3600) <= possible_difference 3600 10 <= 3600)%Z).
Proof. apply (splay_stays_near_interval (daemon []) 3600 10); [apply daemon_ready | range | lia]. Defined.

Definition proc1 : Proc Sim := mkProc (daemon []) 0 10.

Lemma splay_is_sticky_witness :
  exists v p', restoreSplayedValue "pack_q" 3600 proc1 = (Ok v, p') /\ (0 < v < 2 ^ 63)%Z /\
    restoreSplayedValue "pack_q" 3600 p' = (Ok v, p').
Proof.
  destruct (splay_is_sticky "pack_q" 3600 proc1) as (v & p' & E & Hv & E' & _);
    [apply daemon_ready | range | range |].
  exists v, p'. split; [exact E|]. split; [exact Hv | exact E'].
Defined.

Definition pack_doc : json :=
  JObject [("platform", JString "linux"); ("version", JString "1.4.5");
           ("queries", JObject [("a", JObject [("query", JString "select 1"); ("interval", JInt 60)]);
                                ("b", JObject [("query", JString ""); ("interval", JInt 60)])])].

Definition made : result Pack * Proc Sim := Pack_initialize 3600 "pack" "main" pack_doc proc1.
Definition made_pack : Pack :=
  match made.1 with Ok pk => pk | Throw _ => mkPack "" "" 0 "" "" [] ∅ false end.

Lemma pack_queries_well_formed_witness :
  (map_sorted (schedule_ made_pack)).*1 = ["a"] /\ map_Forall (fun _ => query_ok) (schedule_ made_pack).
Proof.
  split; [vmeq|].
  apply (pack_queries_well_formed 3600 "pack" "main" pack_doc proc1 made.2 made_pack); [|vmeq].
  split; [apply daemon_ready | range].
Defined.

Definition pack1 : Pack := mkPack "pack" "main" 0 "" "" ["select 1"] ∅ true.

Definition checked : Pack := set_discovery (1500000000%Z, false) (mkPackStats 1 0 1) pack1.

Lemma discovery_answer_is_cached_witness :
  exists p'', checkDiscovery 3600 checked (store [], 1500000001%Z)
      = (Ok (false, p''), (store [], 1500000002%Z)) /\
    discovery_cache_ p'' = discovery_cache_ checked.
Proof.
  apply (discovery_answer_is_cached 3600 pack1 (daemon []) (store [], 1500000001%Z) false checked)
    with (t := 1500000001%Z); [vmeq | vmeq | reflexivity | range | range].
Defined.

Lemma version_at_least_is_numeric_witness :
  dotted [1; 10; 2]%Z = "1.10.2" /\
  versionAtLeast (dotted [1; 10; 2]%Z) (dotted [1; 9]%Z) = Ok (covers [1; 9]%Z [1; 10; 2]%Z).
Proof.
  split; [by vm_compute|].
  apply (version_at_least_is_numeric [1; 10; 2]%Z [1; 9]%Z);
    [repeat constructor; range | repeat constructor; range | by vm_compute..].
Defined.

(** ** The configuration *)

Definition sched1 : ScheduledQuery :=
  {| query := "select 1"; interval := 60; splayed_interval := 60; blacklisted := false;
     options := {["snapshot" := false]} |}.

Definition config_on (l : list (string * string * string)) (packs : list Pack)
    (b : gmap string Z) : Config Sim :=
  {| cfg_proc := mkProc (daemon l) 0 10; cfg_schedule := mkSchedule packs "" b;
     performance_ := ∅; files_ := ∅; hash_ := ∅; cfg_valid_ := false; loaded_ := false;
     is_first_time_refresh := true; refresh_sec_ := 0; started_thread_ := false; kStartTime := 0;
     shutdown_requested := false |}.

Definition main_pack : Pack := mkPack "main" "src" 0 "" "" [] {["q" := sched1]} true.

Lemma blacklist_roundtrip_witness :
  exists s1 now s2,
    saveScheduleBlacklist {["q" := 1600000000%Z; "r" := 5%Z]} (daemon []) = (Ok tt, s1) /\
    restoreScheduleBlacklist ∅ s1
    = (Ok (filter (fun kv => (now < kv.2)%Z) {["q" := 1600000000%Z; "r" := 5%Z]}), s2) /\
    same_store s1 s2.
Proof.
  apply (blacklist_roundtrip {["q" := 1600000000%Z; "r" := 5%Z]} (daemon [])); [apply daemon_ready|].
  repeat apply map_Forall_insert_2; try apply map_Forall_empty;
    (split; [|range]; split; [done|]; split; [|done];
     split; [intros c r [= <- <-]; done | intros r c E; apply (f_equal chars) in E; rewrite chars_app in E;
       destruct (chars r) as [|? [|]]; simplify_eq/=; done]).
Defined.

Lemma crashed_query_is_blacklisted_witness :
  exists c1, recordQueryStart "q" (config_on [] [] ∅) = (Ok tt, c1) /\
  exists b st now sa sb sc, restoreScheduleBlacklist ∅ (cfg_host c1) = (Ok b, sa) /\
    api_set kPersistentSettings kExecutingQuery "" sa = (Ok st, sb) /\
    getUnixTime sb = (Ok now, sc) /\
  exists sch s2, Schedule_new false (cfg_host c1) = (Ok sch, s2) /\
    failed_query_ sch = "q" /\ blacklist_ sch = <["q" := u64 (now + 86400)]> b.
Proof.
  destruct (crashed_query_is_blacklisted "q" (config_on [] [] ∅))
    as (c1 & E1 & b & st & now & sa & sb & sc & Ea & Eb & Ec & sch & s2 & E2 & Hf & Hb & _);
    [apply daemon_ready | done |].
  exists c1. split; [done|]. exists b, st, now, sa, sb, sc. do 3 (split; [done|]). by exists sch, s2.
Defined.

Definition counters1 : Row :=
  {["user_time" := "1"; "system_time" := "2"; "resident_size" := "3"]}.

Lemma completed_query_is_not_blacklisted_witness :
  exists c1 c2, recordQueryStart "q" (config_on [] [] ∅) = (Ok tt, c1) /\
    recordQueryPerformance "q" 1 10 counters1 counters1 c1 = (Ok tt, c2) /\
    executions <$> (performance_ c2 !! "q") = Some 1%Z.
Proof.
  destruct (completed_query_is_not_blacklisted "q" 1 10 counters1 counters1 (config_on [] [] ∅))
    as (c1 & c2 & E1 & E2 & Hn & _);
    [apply daemon_ready | split_and!; by eexists | split_and!; by eexists |].
  exists c1, c2. split; [exact E1|]. split; [exact E2 | exact Hn].
Defined.

Lemma config_backup_roundtrip_witness :
  exists c', backupConfig {["main" := "{}"]} (config_on [] [] ∅) = (Ok tt, c') /\
    restoreConfigBackup c' = (Ok (inl {["main" := "{}"]}), c').
Proof.
  destruct (config_backup_roundtrip {["main" := "{}"]} (config_on [] [] ∅)) as (c' & E & E' & _);
    [apply daemon_ready | exact (ex_intro _ c' (conj E E'))].
Defined.

Lemma schedule_one_pack_per_source_witness :
  exists c', Schedule_add "_" main_pack (config_on [] [main_pack] ∅) = (Ok tt, c') /\ unique_packs c' /\
     main_pack ∈ packs_ (cfg_schedule c').
Proof.
  destruct (schedule_one_pack_per_source "_" main_pack (config_on [] [main_pack] ∅))
    as [(c' & E & Hu & Hin & _) _]; [apply NoDup_singleton | exact (ex_intro _ c' (conj E (conj Hu Hin)))].
Defined.

Lemma invalid_source_fails_once_witness :
  exists c', updateSource "_" 3600 3600 false [] (fun _ => ret (Status_success, [])) "src" "{"
      (config_on [] [main_pack] ∅) = (Ok (mkStatus 1 "Error parsing the config JSON"), c') /\
    updateSource "_" 3600 3600 false [] (fun _ => ret (Status_success, [])) "src" "{" c'
      = (Ok (Status1 2), c').
Proof.
  destruct (invalid_source_fails_once "_" 3600 3600 false [] (fun _ => ret (Status_success, []))
              "src" "{" (config_on [] [main_pack] ∅)) as (c' & E & E' & _);
    [vm_compute; congruence | by vm_compute | exact (ex_intro _ c' (conj E E'))].
Defined.

Lemma blacklisted_query_is_skipped_witness :
  visit_query "_" (fun _ _ => throw AssertFailure) false 0 "main" ("q", sched1)
    (config_on [] [main_pack] {["q" := 1600000000%Z]})
  = set_query_blacklisted 0 "q" true
      (with_host (store [], 1500000001%Z) (config_on [] [main_pack] {["q" := 1600000000%Z]})).
Proof.
  apply (blacklisted_query_is_skipped "_" (fun _ _ => throw AssertFailure) 0 "main" ("q", sched1)
           1600000000 1500000000); [reflexivity | reflexivity | lia | done].
Defined.

Definition stale : list (string * string * string) :=
  [("queries", "qepoch", "7"); ("configurations", "timestamp.qepoch", "1000")].

Lemma purge_expires_live_epoch_witness :
  queryExists [main_pack] "q" = true /\
  exists c', purge_one "qepoch" (config_on stale [main_pack] ∅) = (Ok tt, c') /\
    api_view (cfg_host c') kQueries !! "qepoch" = None.
Proof.
  apply (purge_expires_live_epoch "q" main_pack 1000 1500000000 (store stale, 1500000001%Z)
           (config_on stale [main_pack] ∅));
    [apply daemon_ready | by apply list_elem_of_here | by eexists | by repeat constructor
    | reflexivity | reflexivity | range | lia | lia].
Defined.

(** ** The scheduler *)

Lemma columns_row1 : columns_ok row1 /\ columns_ok row2.
Proof. split; apply map_Forall_singleton; by vm_compute. Qed.

Lemma escaped_results_are_printable_witness :
  Forall row_wf (escapeResults [row1; {["path" := String "010" "x"]}]).
Proof.
  apply (escaped_results_are_printable [row1; {["path" := String "010" "x"]}]).
  repeat apply Forall_cons_2; try apply Forall_nil_2; apply map_Forall_singleton; by vm_compute.
Defined.

Definition sql_of (rows : QueryData) : SQLInternal :=
  {| sql_status := Status_success; sql_rows := rows; sql_columns := ["pid"]; eventBased := false |}.

Definition config_at (s : Sim) : Config Sim :=
  {| cfg_proc := mkProc s 0 10; cfg_schedule := mkSchedule [] "" ∅;
     performance_ := ∅; files_ := ∅; hash_ := ∅; cfg_valid_ := true; loaded_ := true;
     is_first_time_refresh := false; refresh_sec_ := 0; started_thread_ := false; kStartTime := 0;
     shutdown_requested := false |}.

Lemma differential_query_reports_difference_witness :
  exists st d h, query_results 7 false "q" sched1 (sql_of [row2]) (config_at (known 3 [row1]))
      = (Ok (st, 4%Z, d), with_host h (config_at (known 3 [row1]))) /\
    Status_ok st = true /\ [row1] ++ added d ≡ₚ escapeResults [row2] ++ removed d.
Proof.
  destruct (differential_query_reports_difference 7 false "q" sched1 (sql_of [row2]) 3 [row1]
              (config_at (known 3 [row1]))) as (st & d & h & E & Hok & _ & Hp & _);
    [ apply Forall_singleton, columns_row1 | range | range | reflexivity | exact known_holds |].
  exists st, d, h. split; [exact E|]. split; [exact Hok | exact Hp].
Defined.

(** An execution of the query that finds the row of the previous one. *)
Definition same_rows (_ : string) : M (Config Sim) SQLInternal := ret (sql_of [row1]).
Definition before_run : Config Sim := config_at (known 3 [row1]).
Definition after_run : Config Sim := (monitor same_rows (ret []) "q" sched1 before_run).2.
Definition at_log : Config Sim := (in_host getUnixTime after_run).2.

Lemma after_run_ok : monitor same_rows (ret []) "q" sched1 before_run = (Ok (sql_of [row1]), after_run).
Proof. vmeq. Qed.

Lemma at_log_host : cfg_host at_log
  = (store [("queries", "q", (serializeQueryDataJSON [row1]).2); ("queries", "qepoch", "7");
            ("queries", "qcounter", "3"); ("queries", "query.q", "select 1");
            ("configurations", "executing_query", "q");
            ("configurations", "timestamp.q", "1500000001")], 1500000004%Z).
Proof. vmeq. Qed.

Lemma at_log_holds : holds "q" "select 1" 7 3 [row1] (cfg_host at_log).
Proof.
  rewrite at_log_host. split; [apply store_ready | | vmeq..].
  exists (serializeQueryDataJSON [row1]).2, [row1]. split_and!; [vmeq | vmeq | done].
Qed.

Lemma at_log_ok : in_host getUnixTime after_run = (Ok 1500000003%Z, at_log).
Proof. vmeq. Qed.

Lemma unchanged_results_log_nothing_witness :
  exists st h, launchQuery 7 false same_rows (ret []) (ret tt) (ret ∅) (ret "host") (ret "now")
      (fun _ => throw AssertFailure) (fun _ => throw AssertFailure) "q" sched1 before_run
      = (Ok st, with_host h at_log) /\
    Status_ok st = true /\ holds "q" "select 1" 7 4 (escapeResults [row1]) h.
Proof.
  apply (unchanged_results_log_nothing 7 false same_rows (ret []) (ret tt) (ret ∅) (ret "host")
    (ret "now") (fun _ => throw AssertFailure) (fun _ => throw AssertFailure) "q" sched1
    (sql_of [row1]) 3 [row1] "host" 1500000003 "now" ∅ before_run before_run after_run at_log);
    [ reflexivity | exact after_run_ok | reflexivity | reflexivity | exact at_log_ok | reflexivity
    | reflexivity | reflexivity | reflexivity | apply Forall_singleton, columns_row1 | range | range
    | exact at_log_holds | by vm_compute].
Defined.

Lemma drift_is_bounded_witness :
  let '(wait, drift') := drift_step 1000 500 200 900 in
  (0 <= drift' <= 500)%Z /\
  match wait with
  | Some ms => (0 < ms)%Z /\ (900 + 200 + ms = 1000)%Z /\ drift' = 0%Z
  | None => (1000 <= 900 + 200)%Z /\ (drift' = 900 + 200 - 1000 \/ 500 < 900 + 200 - 1000)%Z
  end.
Proof. apply (drift_is_bounded 1000 500 200 900); lia. Defined.

Lemma scheduler_stops_at_timeout_witness :
  exists i' d' c', scheduler_loop "_" 3600 0 (fun _ _ _ => ret Status_success) (fun _ => ret tt)
    (ret tt) (ret tt) (ret 10%Z) (fun _ => ret tt) (ret false) 1000 500 5 10 1 0
    (config_on [] [main_pack] ∅) = (Ok (Some (i', d')), c') /\ cfg_ready c'.
Proof.
  apply scheduler_stops_at_timeout; try (intros; apply safe_ret); try lia.
  apply daemon_ready.
Defined.

Lemma scheduler_limit_is_absolute_time_witness :
  SchedulerRunner_start "_" 3600 0 (fun _ _ _ => throw AssertFailure) (fun _ => ret tt)
    (ret tt) (ret tt) (ret 10%Z) (fun _ => ret tt) (ret false) 1000 500 60 100
    (config_on [] [main_pack] ∅)
  = (Ok (Some (1500000000%Z, 0%Z)), with_host (store [], 1500000001%Z) (config_on [] [main_pack] ∅)).
Proof. apply scheduler_limit_is_absolute_time; [reflexivity | lia]. Defined.

(** ** Event subscribers *)

Definition sub_on (l : list (string * string * string)) : Sub Sim :=
  {| sub_host := daemon l; expire_time_ := 0; last_eid_ := 0; optimize_time_ := 0;
     optimize_eid_ := 0; min_expiration_ := 0; query_count_ := 0; queries_ := ∅; event_count_ := 0 |}.

Lemma index_order_is_numeric_witness :
  (String.le (toIndex 9) (toIndex 10) <-> (9 <= 10)%Z) /\ (toIndex 9 = toIndex 10 -> 9%Z = 10%Z).
Proof. apply (index_order_is_numeric 9 10); lia. Defined.

Lemma event_ids_increase_across_restarts_witness :
  exists nums u', issue_all "ns" [Issue; Restart; Issue] (sub_on []) = (Ok (toIndex <$> nums), u') /\
    StronglySorted Z.lt nums /\ Forall (fun n => (0 < n)%Z) nums.
Proof.
  apply (event_ids_increase_across_restarts "ns" [Issue; Restart; Issue] (sub_on []));
    [apply daemon_ready | reflexivity | reflexivity | range].
Defined.

Lemma recorded_events_read_back_witness :
  exists st u', recordEvents "ns" ["0000000001"; "0000000002"] 1500000000 (sub_on []) = (Ok st, u') /\
    Status_ok st = true /\
    getRecords "ns" false ["60.25000000"] false u'
    = (Ok [("0000000001", 1500000000%Z); ("0000000002", 1500000000%Z)], u').
Proof.
  destruct (recorded_events_read_back "ns" false ["0000000001"; "0000000002"] 1500000000 [] (sub_on []))
    as (st & u' & E & Hok & Hr & _);
    [ apply daemon_ready | done | constructor
    | repeat apply Forall_cons_2; try apply Forall_nil_2; split_and!;
        try (apply token_digits; by vm_compute); range
    | by vm_compute |].
  exists st, u'. split; [exact E|]. split; [exact Hok | exact Hr].
Defined.

Lemma upper_time_bounds_are_ignored_witness :
  exists start', time_window [mkConstraint LESS_THAN "5"] 3 0 = (start', 0%Z) /\ (3 <= start')%Z.
Proof.
  apply (upper_time_bounds_are_ignored [mkConstraint LESS_THAN "5"] 3); [lia | by repeat constructor].
Defined.

(** ** The event factory *)

Definition factory1 : Factory :=
  mkFactory {["audit" := set_subscriptions [mkSubscription "a" 1; mkSubscription "b" 2] new_publisher]}
    {["a" := {| es_state := EVENT_RUNNING; disabled := false; es_min_expiration := 0;
                es_query_count := 0; es_queries := ∅ |}]} [] [].

Lemma fire_reaches_running_subscribers_witness :
  exists called f', fire "audit" (Some (mkEC 0 0)) 5 9 factory1 = (Ok called, f') /\
    forall s, s ∈ called.*1 <-> s ∈ [mkSubscription "a" 1; mkSubscription "b" 2] /\
      es_state <$> (event_subs_ factory1 !! subscriber_name s) = Some EVENT_RUNNING.
Proof.
  destruct (fire_reaches_running_subscribers "audit" (Some (mkEC 0 0)) 5 9 factory1
    (set_subscriptions [mkSubscription "a" 1; mkSubscription "b" 2] new_publisher) eq_refl)
    as (called & f' & E & _ & H).
  destruct (H eq_refl) as (_ & Hc & _). exists called, f'. split; [exact E | exact Hc].
Defined.

Lemma publisher_runs_once_witness :
  exists f', run false (fun _ => ret (Status_failure "stop")) (fun _ => ret tt) 3 "audit" factory1
      = (Ok (Some (mkStatus 0 "OK")), f') /\
    run false (fun _ => ret (Status_failure "stop")) (fun _ => ret tt) 3 "audit" f'
    = (Ok (Some (mkStatus 1 "Cannot restart an event publisher")), f').
Proof.
  destruct (run false (fun _ => ret (Status_failure "stop")) (fun _ => ret tt) 3 "audit" factory1)
    as [[[st|]|] f'] eqn:E; [|by vm_compute in E..].
  destruct (publisher_runs_once (fun _ => ret (Status_failure "stop")) (fun _ => ret tt) "audit" 3 3
    factory1 (set_subscriptions [mkSubscription "a" 1; mkSubscription "b" 2] new_publisher) st f')
    as (-> & _ & E2); [by intros f a g Hs [= _ <-].. | reflexivity | reflexivity | exact E |].
  exists f'. split; [reflexivity | exact E2].
Defined.

Lemma retention_covers_slowest_query_witness : (3 * interval sched1 < expiration_for 60)%Z.
Proof.
  apply (retention_covers_slowest_query (fun _ => Some ["process_events"]) (fun _ => true) [sched1]
           "process_events" (mkDetails 60 1));
    [repeat constructor; range | reflexivity | range | by left | split; [done | by left]].
Defined.

(** ** The registry *)

Definition tables : Registry := mkRegistry "table" false {["time" := 1%Z]} ∅ ∅ ∅ [] "".
Definition rf1 : RegistryFactory := mkRF {["table" := tables]} ∅ ∅.

Lemma remove_undoes_broadcast_witness :
  exists f', addBroadcast (fun _ _ _ => ret Status_success) (fun _ _ => ret tt) false 5
      {["table" := {["ext" := []]}]} rf1 = (Ok Status_success, f') /\
    5%Z ∈ extensions_ f' /\
    removeBroadcast (fun _ _ => ret tt) 5 f' = (Ok (mkStatus 0 "OK"), rf1).
Proof.
  apply (remove_undoes_broadcast (fun _ _ _ => ret Status_success) (fun _ _ => ret tt));
    [by intros; eexists | done | done | |].
  - intros reg routes [<- <-]%lookup_singleton_Some. exists tables. split; [reflexivity|].
    by intros n info [<- <-]%lookup_singleton_Some.
  - intros reg r n Hr. change (({["table" := tables]} : gmap string Registry) !! reg = Some r) in Hr.
    by apply lookup_singleton_Some in Hr as [_ <-].
Defined.

Lemma failed_broadcast_leaves_route_witness :
  exists f', addBroadcast (fun _ _ _ => ret (Status_failure "no")) (fun _ _ => ret tt) false 5
      {["table" := {["ext" := []]}]} rf1 = (Ok (Status_failure "no"), f') /\
    5%Z ∈ extensions_ f' /\
    routes_ <$> (registries_ f' !! "table") = Some {["ext" := []]}.
Proof.
  apply (failed_broadcast_leaves_route (fun _ _ _ => ret (Status_failure "no")) (fun _ _ => ret tt)
           5 "table" "ext" [] tables); done.
Defined.
