(* ===== verification/ServiceWitnesses.v ===== *)
(** * Concrete instances of the properties of the services

    The forwarder, the distributed queries, the watcher and the tables on
    concrete inputs, as in Witnesses.v for the core. *)
From S2P Require Import Prelude Boost Conversions Json Database DatabaseFacts Query Host Scan Witnesses.
From S2P Require Import QueryFacts Buffered BufferedFacts Distributed DistributedFacts Process Watcher Tables TablesFacts.

(** ** The forwarder *)

(** A service that accepts everything and keeps it. *)
Definition accept_all (l : list string) (ty : string) : M (list (string * string)) Status :=
  fun r => (Ok Status_success, r ++ (pair ty <$> l)).

Lemma accept_all_service : service accept_all (fun r => r).
Proof. intros l ty r. by eexists _, _. Qed.

Lemma accept_all_accepting : accepting accept_all.
Proof. by intros l ty r st r' [= <- _]. Qed.

(** A tree writer that prints the pairs it was given. *)
#[local] Instance plain_writer : PTreeWriter := {
  ptree := string;
  pt_empty := "";
  pt_put t k v := t +:+ k +:+ "=" +:+ v +:+ ";";
  pt_put_child t k c := t +:+ k +:+ "={" +:+ c +:+ "}";
  pt_write_json t := inl (t +:+ "|");
}.

Definition forwarder (l : list (string * string * string)) (index count : Z)
    : Forwarder Sim (list (string * string)) := mkForwarder (daemon l) [] index count.

Definition two_lines : Forwarder Sim (list (string * string)) :=
  forwarder [("logs", "tls_r_1500000000_1", "a"); ("logs", "tls_s_1500000000_2", "b")] 2 2.

Lemma two_lines_settled : settled "tls" two_lines.
Proof.
  split; [exact (daemon_ready _) | vm_compute; reflexivity |].
  unfold own. assert (buffered "tls" two_lines = ["tls_r_1500000000_1"; "tls_s_1500000000_2"]) as -> by vmeq.
  constructor; [by left | constructor; [by right | constructor]].
Defined.

Lemma purge_deletes_the_oldest_witness :
  exists f', purge "tls" 1 two_lines = (Ok tt, f') /\
    counted "tls" f' /\ buffer_count_ f' = Z.min (buffer_count_ two_lines) 1 /\
    (forall x, x ∈ buffered "tls" f' -> x ∈ buffered "tls" two_lines) /\
    (forall x y, x ∈ buffered "tls" two_lines -> x ∉ buffered "tls" f' -> y ∈ buffered "tls" f' ->
       String.le (age "tls" x) (age "tls" y)).
Proof.
  apply (purge_deletes_the_oldest "tls" 1 two_lines); [apply two_lines_settled.. | lia].
Defined.

Lemma check_conserves_lines_witness :
  exists f', check "tls" 1024 1000000 accept_all two_lines = (Ok tt, f') /\ settled "tls" f' /\
    fwd_remote f' ++ lines "tls" f' ≡ₚ fwd_remote two_lines ++ lines "tls" two_lines.
Proof.
  apply (check_conserves_lines "tls" 1024 1000000 accept_all (fun r => r));
    [exact accept_all_service | exact two_lines_settled | lia | left; simpl; lia].
Defined.

Lemma buffer_drains_witness :
  exists f', Buffered.start "tls" 1 1000000 accept_all 2 two_lines = (Ok tt, f') /\
    settled "tls" f' /\ buffered "tls" f' = [] /\ buffer_count_ f' = 0%Z /\
    ((buffer_count_ two_lines <= 1000000)%Z \/ 1000000%Z = 0%Z ->
     fwd_remote f' ≡ₚ fwd_remote two_lines ++ lines "tls" two_lines).
Proof.
  apply (buffer_drains "tls" 1 1000000 accept_all (fun r => r));
    [exact accept_all_service | exact accept_all_accepting | exact two_lines_settled | lia | lia |].
  apply (Nat.leb_le _ _). vm_compute. reflexivity.
Defined.

Definition status_line : StatusLogLine := mkStatusLogLine 1%Z "main.cpp" 10%Z "started" "now" 1500000000%Z "host".

Lemma forwarder_is_lossless_witness :
  exists f', for_each [LogString "x" 0; LogStatus [status_line] 0; Check; LogString "y" 7]
      (run_op (S := Sim) "tls" 1024 0 accept_all "3.2.6" (ret ∅)) (forwarder [] 0 0) = (Ok tt, f') /\
    logging "tls" f' /\
    (0%Z = 0%Z -> fwd_remote f' ++ lines "tls" f' ≡ₚ
       fwd_remote (forwarder [] 0 0) ++ ([LogString "x" 0; LogStatus [status_line] 0; Check; LogString "y" 7]
               ≫= op_lines "3.2.6" ∅) ++ lines "tls" (forwarder [] 0 0)).
Proof.
  apply (forwarder_is_lossless (S := Sim) "tls" 1024 0 accept_all (fun r => r) accept_all_service
           "3.2.6" (ret ∅) ∅); [done | | | | lia].
  - assert (buffered "tls" (forwarder [] 0 0) = []) as E by vmeq.
    split; [|intros b t n _ _; rewrite E; apply not_elem_of_nil | simpl; lia].
    split; [exact (daemon_ready []) | vm_compute; reflexivity |].
    unfold own. rewrite E. constructor.
  - range.
  - do 2 (apply Forall_cons; split; [range|]). apply Forall_cons; split; [exact I|].
    apply Forall_cons; split; [range|]. apply Forall_nil. exact I.
Defined.

Definition restarted : Forwarder Sim (list (string * string)) :=
  forwarder [("logs", "tls_r_1500000000_1", "a"); ("logs", "tls_s_1500000000_2", "b")] 0 2.

Lemma restart_overwrites_a_line_witness :
  exists st f', logString "tls" "new" 1500000000 restarted = (Ok st, f') /\ Status_ok st = true /\
    logs f' = <[index_of "tls" true 1500000000 1 := "new"]> (logs restarted) /\
    buffered "tls" f' ≡ₚ buffered "tls" restarted /\
    buffer_count_ f' = (Z.of_nat (length (buffered "tls" f')) + 1)%Z.
Proof.
  apply (restart_overwrites_a_line "tls" restarted "new" "a" 1500000000).
  - split; [exact (daemon_ready _) | vm_compute; reflexivity |].
    unfold own. assert (buffered "tls" restarted = ["tls_r_1500000000_1"; "tls_s_1500000000_2"]) as -> by vmeq.
    constructor; [by left | constructor; [by right | constructor]].
  - reflexivity.
  - simpl; lia.
  - range.
  - lia.
  - vm_compute. reflexivity.
Defined.

(** ** Distributed queries *)

Definition result1 : DistributedQueryResult :=
  mkResult (mkRequest "select pid from processes" "q1") [row1; row2] ["pid"] Status_success.
Definition result2 : DistributedQueryResult :=
  mkResult (mkRequest "select nothing" "q2") [] [] (mkStatus 1 "no such column").

Ltac result_ok := split; [split; reflexivity | rows].

Lemma distributed_json_roundtrip_witness :
  deserializeDistributedQueryRequestJSON (serializeDistributedQueryRequestJSON (res_request result1)).2
    (res_request result2) = Ok (Status_success, res_request result1) /\
  deserializeDistributedQueryResultJSON (serializeDistributedQueryResultJSON result1).2 result2
  = Ok (Status_success, mkResult (res_request result1) (row_columns (res_columns result1) <$> res_results result1)
                          (res_columns result2) (res_status result2)).
Proof. apply (distributed_json_roundtrip result1 result2). result_ok. Defined.

Lemma report_holds_every_result_witness :
  exists ms qs ss arr,
    JSON_parse_if IsObject (JSON_toString (report [result1; result2])).2 = Some (JObject ms) /\
    member "queries" ms = Some (JObject qs) /\ member "statuses" ms = Some (JObject ss) /\
    member (result_id result1) qs = Some arr /\
    deserializeQueryData arr [] = (Status_success, row_columns (res_columns result1) <$> res_results result1) /\
    member (result_id result1) ss = Some (JInt (code (res_status result1))).
Proof.
  apply (report_holds_every_result [result1; result2] result1).
  - apply Forall_cons; split; [result_ok|]. apply Forall_cons; split; [split; [split; reflexivity | constructor]|].
    by apply Forall_nil.
  - apply Forall_cons; split; [range|]. apply Forall_cons; split; [range|]. by apply Forall_nil.
  - apply (bool_decide_eq_true_1 _). vm_compute. reflexivity.
  - by left.
Defined.

(** An engine that answers one query with a row and every other with none. *)
Definition engine (q : string) : M Sim (Status * QueryData * ColumnNames) :=
  ret (Status_success, if decide (q = "select 1") then [row1] else [], ["pid"]).

Definition taken (req : PluginRequest) : M Sim (Status * PluginResponse) := ret (Status_success, []).

Lemma engine_reads q : reads (engine q).
Proof. intros s Hs. by eexists _, s. Qed.

Lemma taken_reads req : reads (taken req).
Proof. intros s Hs. by eexists _, s. Qed.

Definition queue : Distributed Sim :=
  mkDistributed (daemon [("queries", "distributed.a", "select 1"); ("queries", "distributed.b", "select 2")]) [] "".

Lemma runQueries_runs_each_once_witness :
  exists st rs d', runQueries engine taken "tls" true 2 queue = (Ok (Some st), d') /\
    dist_ready d' /\ pending d' = [] /\
    res_request <$> rs = request_of queue <$> pending queue /\ Forall (answered engine) rs /\
    (forall dom k, dist_view d' dom !! k =
       if decide (dom = kQueries /\ k ∈ pending queue) then None else dist_view queue dom !! k) /\
    results_ d' = if Status_ok st then [] else results_ queue ++ rs.
Proof.
  apply (runQueries_runs_each_once engine taken "tls" true engine_reads taken_reads queue 2);
    [exact (daemon_ready _) | apply Nat.leb_le; vm_compute; reflexivity].
Defined.

Definition queries_entries : members := [("x", JString "select 1"); ("y", JString "select 2")].
Definition discovery_hit : members := [("y", JString "select 1")].
Definition discovery_miss : members := [("x", JString "select 2"); ("y", JString "select 3")].
Definition work_of (discovery : members) : members :=
  [("queries", JObject queries_entries); ("discovery", JObject discovery)].
Definition work_text (discovery : members) : string := (JSON_toString (JObject (work_of discovery))).2.

Ltac entries := repeat (apply Forall_cons; split; [eexists; split_and!; [reflexivity | done | done]|]); by apply Forall_nil.

Lemma acceptWork_queues_selected_witness :
  exists d', acceptWork engine true (work_text discovery_hit) queue = (Ok Status_success, d') /\
    dist_ready d' /\ results_ d' = results_ queue /\
    dist_view d' kQueries = put_all (dist_view queue kQueries) (queued {["y"]} queries_entries) /\
    (forall dom, dom <> kQueries -> dist_view d' dom = dist_view queue dom).
Proof.
  apply (acceptWork_queues_selected engine true (work_text discovery_hit) (work_of discovery_hit)
           queries_entries {["y"]} queue queue).
  - vmeq.
  - reflexivity.
  - reflexivity.
  - entries.
  - exact (daemon_ready _).
  - vmeq.
Defined.

Lemma unmatched_discovery_queues_all_witness :
  exists d', acceptWork engine true (work_text discovery_miss) queue = (Ok Status_success, d') /\
    dist_view d' kQueries = put_all (dist_view queue kQueries)
      ((fun e => (kDistributedQueryPrefix +:+ entry_name e, entry_query e)) <$> queries_entries).
Proof.
  apply (unmatched_discovery_queues_all engine true (work_text discovery_miss) (work_of discovery_miss)
           queries_entries discovery_miss queue).
  - vmeq.
  - reflexivity.
  - reflexivity.
  - reflexivity.
  - entries.
  - entries.
  - repeat (apply Forall_cons; split; [intros s Hs; by eexists _, s|]). by apply Forall_nil.
  - exact (daemon_ready _).
Defined.

(** ** The watcher *)

(** A kernel whose first poll reports that the child was killed by signal 9 and
    whose later polls find no child. *)
#[local] Instance sim_posix : Posix Sim := {
  sys_kill pid signal := ret 0%Z;
  sys_waitpid pid s :=
    if (s.2 =? 1500000000)%Z then (Ok (pid, 9, 0)%Z, (s.1, (s.2 + 1)%Z)) else (Ok ((-1)%Z, 0%Z, ECHILD), s);
  sys_spawn path argv := ret 42%Z;
  sys_getpid := ret 7%Z;
  sys_getppid := ret 1%Z;
  sleepFor ms := ret tt;
}.

Definition flags : WatchdogFlags := {|
  watchdog_level := 0; watchdog_memory_limit := 0; watchdog_utilization_limit := 0; watchdog_delay := 60;
  watchdog_max_delay := 600; enable_extensions_watchdog := false |}.

Definition process_row (user system size : string) : Row :=
  {["parent" := "7"; "user_time" := user; "system_time" := system; "resident_size" := size]}.

Definition watcher0 : Watcher Sim :=
  mkWatcher (daemon []) PerformanceState_new ∅ 42 0 ∅ true (-1) ∅ None.

Lemma latency_is_trailing_run_witness :
  let rs := [process_row "1000" "0" "1"; process_row "1100" "0" "1"; process_row "5000" "10" "1"] in
  let r := process_row "9000" "20" "1" in
  let qs := [(1000, 0); (1100, 0); (5000, 10); (9000, 20)]%Z in
  let st := PerformanceState_new in
  let n := Z.of_nat (trailing (busy_flags flags 4 (times st) qs)) in
  sustained_latency (foldl (next_state flags 4 (0, 0)%Z) st (rs ++ [r])) = n /\
  exceededCyclesLimit flags (getChange flags 4 (0, 0)%Z r (foldl (next_state flags 4 (0, 0)%Z) st rs)).1
  = (0 <? n)%Z && (getWorkerLimit flags LATENCY_LIMIT <=? n * iv_of flags)%Z.
Proof.
  apply (latency_is_trailing_run flags 4 (0, 0)%Z).
  - repeat (apply Forall2_cons; split; [vm_compute; reflexivity|]). by apply Forall2_nil.
  - range.
  - repeat (apply Forall_cons; split; [range|]). by apply Forall_nil.
  - repeat constructor; range.
  - reflexivity.
  - range.
Defined.

Lemma backward_counter_counts_as_busy_witness :
  sustained_latency (next_state flags 4 (0, 0)%Z (mkPerf 1 1000 0 0 1) (process_row "oops" "0" "1")) = 2%Z.
Proof.
  apply (backward_counter_counts_as_busy flags 4 (0, 0)%Z (process_row "oops" "0" "1") 0 0 (mkPerf 1 1000 0 0 1));
    [vm_compute; reflexivity | simpl; lia | simpl; lia | simpl; lia | simpl; lia | vm_compute; reflexivity | simpl; lia].
Defined.

Lemma memory_baseline_survives_respawn_witness :
  initial_footprint (foldl (perf_step flags 4 (0, 0)%Z) (mkPerf 0 0 0 0 5000)
    [Respawn 10; Poll (process_row "1" "1" "90000")]) = 5000%Z.
Proof. apply (memory_baseline_survives_respawn flags 4 (0, 0)%Z); simpl; lia. Defined.

Definition ok_bool (b : bool) : M Sim bool := ret b.
Definition no_rows (pid : Z) : M Sim QueryData := ret [].
Definition done_unit : M Sim unit := ret tt.

Lemma restarts_never_exceed_limit_witness :
  (0 <= worker_restarts_
    (Watcher.start flags 4 4 (0, 0)%Z true false [] 0 no_rows no_rows (ok_bool false) done_unit (fun p => ret p)
      (fun _ => ok_bool true) (fun _ => ok_bool true) done_unit (fun _ => done_unit) (ok_bool false)
      (ok_bool false) "" "" "" false 3 watcher0).2 <= getWorkerLimit flags RESPAWN_LIMIT)%Z.
Proof.
  apply (restarts_never_exceed_limit flags 4 4 (0, 0)%Z true false [] 0 no_rows no_rows (ok_bool false)
    done_unit (fun p => ret p) (fun _ => ok_bool true) (fun _ => ok_bool true) done_unit (fun _ => done_unit)
    (ok_bool false) (ok_bool false) "" "" "" false 3 watcher0). range.
Defined.



Lemma backoff_is_capped_exponential_witness :
  respawn_delay flags 3 = Ok (Z.min (watchdog_max_delay flags) (5 + 2 ^ 3)).
Proof. apply (backoff_is_capped_exponential flags 3); [simpl; lia | range]. Defined.

Lemma waitpid_returns pid : returns (S := Sim) (sys_waitpid pid).
Proof. intros s. simpl. destruct (s.2 =? 1500000000)%Z; by eexists _, _. Qed.

Lemma bound_fates_end_the_loop_witness :
  exists w', watcher_loop flags 4 4 (0, 0)%Z true false [] 0 no_rows no_rows (ok_bool false) done_unit (fun p => ret p)
      (fun _ => ok_bool true) (fun _ => ok_bool true) done_unit (fun _ => done_unit) (ok_bool true)
      (ok_bool false) "" "" "" false 1 7 PerformanceState_new watcher0 = (Ok true, w') /\ untouched watcher0 w'.
Proof.
  apply (bound_fates_end_the_loop flags 4 4 (0, 0)%Z true false [] 0 no_rows no_rows (ok_bool false)
    done_unit (fun p => ret p) (fun _ => ok_bool true) (fun _ => ok_bool true) done_unit (fun _ => done_unit)
    (ok_bool true) (ok_bool false) "" "" "" false 0 7 PerformanceState_new watcher0);
    [reflexivity | exact waitpid_returns | intros s; by eexists _, s | right; intros s; by exists s].
Defined.

Lemma killed_worker_reads_as_success_witness :
  exists w1 w2,
    watch flags 4 4 (0, 0)%Z true 0 no_rows done_unit (ok_bool false) 42 watcher0 = (Ok true, w1) /\
    watch flags 4 4 (0, 0)%Z true 0 no_rows done_unit (ok_bool false) 42 w1 = (Ok false, w2) /\
    worker_status_ w2 = EXIT_SUCCESS /\ ok (ok_bool false) w2 = (Ok false, w2).
Proof.
  apply (killed_worker_reads_as_success flags 4 4 (0, 0)%Z true 0 no_rows (ok_bool false) done_unit
    (ok_bool false) 42 9 0 0 watcher0 (store [], 1500000001%Z) (store [], 1500000001%Z)
    (store [], 1500000001%Z) (store [], 1500000001%Z)); [lia | reflexivity ..].
Defined.

(** ** Tables *)

#[local] Instance uset_exec : UnorderedSet := { uset_iter X := elements X }.
#[local] Instance uset_exec_laws : UnorderedSetLaws uset_exec.
Proof. by split. Qed.

Definition path_constraints : ConstraintList :=
  mkConstraints TEXT_TYPE [mkConstraint EQUALS "/etc"; mkConstraint LIKE "/etc/%"].

Definition context1 : QueryContext :=
  mkContext {["path" := path_constraints; "size" := mkConstraints BIGINT_TYPE []]} (Some {["path"; "size"]}) true ∅.

Lemma context_request_roundtrip_witness :
  queryContextFromRequest (setRequestFromContext context1 {["action" := "generate"]})
  = Ok (mkContext (constraints context1) (colsUsed context1) false ∅).
Proof.
  apply (context_request_roundtrip context1). split.
  - apply map_Forall_insert_2; [|apply map_Forall_singleton].
    + split; [reflexivity|]. repeat (apply Forall_cons; split; [split; [range | reflexivity]|]). by apply Forall_nil.
    + split; [reflexivity|]. by apply Forall_nil.
  - intros x. rewrite elem_of_union, !elem_of_singleton. by intros [-> | ->].
Defined.

Definition file_table : TablePlugin := {|
  table_name := "file";
  columns := [mkColumn "path" TEXT_TYPE 3; mkColumn "size" BIGINT_TYPE 0];
  aliases := ["files"];
  columnAliases := {["path" := {["filename"; "name"]}]};
  attributes := 1 |}.

Lemma route_definition_is_table_definition_witness :
  columnDefinition_response (routeInfo file_table) true false
  = columnDefinition (columns file_table ++
      alias_columns (column_types (columns file_table)) (alias_pairs file_table)) false.
Proof.
  apply (route_definition_is_table_definition file_table true false).
  repeat (apply Forall_cons; split; [range|]). by apply Forall_nil.
Defined.

(** The same by evaluation. *)
Example file_definition :
  columnDefinition_response (routeInfo file_table) true false
  = "(`path` TEXT, `size` BIGINT, `filename` TEXT HIDDEN, `name` TEXT HIDDEN, PRIMARY KEY (`path`)) WITHOUT ROWID".
Proof. vm_compute. reflexivity. Qed.

Definition between : ConstraintList :=
  mkConstraints INTEGER_TYPE [mkConstraint GREATER_THAN "5"; mkConstraint LESS_THAN_OR_EQUALS "10"].

Lemma matching_is_conjunction_witness :
  matches "7" between = true <-> exists v, tryTo TInt "7" 10 = inl v /\
    Forall (fun c => exists x, tryTo TInt (expr c) 10 = inl x /\ sql_compares Z.lt v x (op c)) (constraints_ between).
Proof.
  apply (matching_is_conjunction between "7").
  repeat (apply Forall_cons; split; [domain|]). by apply Forall_nil.
Defined.

Lemma unsupported_operator_hides_the_rest_witness :
  matches "/etc" (mkConstraints TEXT_TYPE ([mkConstraint EQUALS "/etc"] ++ mkConstraint LIKE "/%" :: [mkConstraint EQUALS "/usr"])) = true
  <-> Forall (satisfies text_literal "/etc") [mkConstraint EQUALS "/etc"].
Proof.
  apply (unsupported_operator_hides_the_rest (mkConstraint LIKE "/%") [mkConstraint EQUALS "/etc"]
           [mkConstraint EQUALS "/usr"] "/etc").
  - apply (bool_decide_eq_false_1 _). vm_compute. reflexivity.
  - apply Forall_cons; split; [domain | by apply Forall_nil].
Defined.

Lemma exists_equals_admits_glob_witness :
  (exists_ EQUALS path_constraints = true <->
     exists c, c ∈ constraints_ path_constraints /\ op c ∈ [EQUALS; GLOB; REGEXP]) /\
  (forall e, e ∈ getAll EQUALS path_constraints <->
     exists c, c ∈ constraints_ path_constraints /\ op c = EQUALS /\ expr c = e).
Proof.
  apply (exists_equals_admits_glob path_constraints).
  repeat (apply Forall_cons; split; [domain|]). by apply Forall_nil.
Defined.

Definition open_context : QueryContext :=
  mkContext {["path" := mkConstraints TEXT_TYPE []; "size" := mkConstraints BIGINT_TYPE []]} None true ∅.

Lemma table_cache_reads_back_witness :
  exists t', TablePlugin_setCache false file_table 100 60 open_context [row1; row2] (mkTableCache (daemon []) 0 0) = (Ok tt, t') /\
    TablePlugin_isCached false file_table 120 open_context t' = (Ok (120 <? 100 + 60)%Z, t') /\
    TablePlugin_getCache file_table t' = (Ok [row1; row2], t').
Proof.
  apply (table_cache_reads_back file_table (mkTableCache (daemon []) 0 0) 100 60 120 open_context [row1; row2]);
    [exact (daemon_ready _) | rows | vm_compute; reflexivity | lia | lia | lia].
Defined.
