(* ===== verification/AuditWitnesses.v ===== *)
(** * The audit properties at concrete inputs *)
From S2P Require Import Prelude Boost Conversions Query Events AuditRecords AuditFacts AuditReader ProcessFileEvents AuditTables.
Local Open Scope Z_scope.

Definition in_quotes (s : string) : string := String quote (s +:+ String quote "").

(** ** Parsing and assembling *)

Lemma audit_fields_roundtrip_witness :
  parse_fields (fields_text [("syscall", "59"); ("exe", in_quotes "/opt/a b"); ("key", "")]) =
  list_to_map [("syscall", "59"); ("exe", in_quotes "/opt/a b"); ("key", "")].
Proof.
  apply audit_fields_roundtrip.
  - apply Forall_cons_2; [split; [done | by left]|].
    apply Forall_cons_2; [split; [done | right; by exists "/opt/a b"]|].
    apply Forall_cons_2; [split; [done | by left] | done].
  - apply (bool_decide_unpack (NoDup _)). by vm_compute.
Defined.

Definition text_message (type : Z) (text : string) : netlink_message :=
  mkMessage type (Z.of_nat (String.length text)) 1 text.

Definition some_queue : list netlink_message :=
  [text_message AUDIT_SYSCALL "audit(1502125323.756:6): syscall=59 pid=7";
   text_message AUDIT_GET "";
   text_message AUDIT_EOE "audit(1502125323.756:6): "].

Definition never {S} : M S bool := ret false.

Lemma parser_turn_keeps_order_witness :
  AuditdNetlinkParser_turn false never 10 true (fun _ => 11) (mkContext some_queue [] false, tt) =
  (Ok tt, (mkContext [] ([] ++ omap (parsed false) some_queue)
             (false || existsb (control_lost 10 true (fun _ => 11)) some_queue), tt)).
Proof.
  apply (parser_turn_keeps_order false never 10 true (fun _ => 11) (mkContext some_queue [] false) tt).
  - done.
  - repeat constructor; (done || by vm_compute; lia).
Defined.

Definition some_data : SyscallAuditEventData := mkSyscallData 0 0 0 77 0 0 0 "".

Definition a_record (type : Z) (id : string) (l : list (string * string)) : AuditEventRecord :=
  mkRecord type 1502125323 id (list_to_map l) "".

Definition sys_fields (number : string) : list (string * string) :=
  [("exe", in_quotes "/bin/sh"); ("syscall", number); ("success", "yes"); ("pid", "7"); ("ppid", "1");
   ("uid", "0"); ("euid", "0"); ("gid", "0"); ("egid", "0")].

Definition sys_record : AuditEventRecord := a_record AUDIT_SYSCALL "1502125323.756:6" (sys_fields "59").
Definition cwd_record : AuditEventRecord := a_record AUDIT_CWD "1502125323.756:6" [("cwd", in_quotes "/")].
Definition eoe_record : AuditEventRecord := a_record AUDIT_EOE "1502125323.756:6" [].
Definition other_record (type : Z) : AuditEventRecord := a_record type "1502125323.756:7" (sys_fields "42").

Definition sys_event : AuditEvent :=
  mkAuditEvent SyscallEvent (SyscallData (mkSyscallData 59 7 1 77 0 0 0 "/bin/sh")) [sys_record].

Definition interleaved : list AuditEventRecord :=
  [other_record AUDIT_SYSCALL; sys_record; other_record AUDIT_PATH; cwd_record; other_record AUDIT_EOE; eoe_record].

Lemma interleaved_event_is_assembled_witness :
  (ProcessEvents "/usr/bin/osqueryd" some_data 1502125330 interleaved ∅).2 !! audit_id sys_record = None.
Proof.
  eapply (interleaved_event_is_assembled "/usr/bin/osqueryd" some_data 1502125330 interleaved ∅
            (audit_id sys_record) sys_record [cwd_record] eoe_record sys_event).
  - by intros id e E.
  - by vm_compute.
  - done.
  - by vm_compute.
  - by repeat constructor.
  - done.
Defined.

Lemma own_process_is_never_reported_witness :
  Forall (foreign "/bin/sh") (ProcessEvents "/bin/sh" some_data 1502125330 interleaved ∅).1.
Proof. apply (own_process_is_never_reported "/bin/sh" some_data 1502125330 interleaved ∅). done. Defined.

(** ** The reader *)

(** A service with one rule: the state is the list of replies to the listing. *)
#[local] Instance one_rule_service : Libaudit (list rule_reply) := {
  audit_open := ret 3; audit_close _ := ret tt; audit_set_pid _ _ := ret 1;
  audit_request_status _ := ret (mkRes 1 0); audit_is_enabled _ := ret 1; audit_set_enabled _ _ := ret 1;
  audit_set_backlog_wait_time _ _ := ret 1; audit_set_backlog_limit _ _ := ret 1; audit_set_failure _ _ := ret 1;
  audit_request_rules_list_data _ := ret 5;
  audit_get_reply _ := fun l =>
    match l with
    | [] => (Ok None, [])
    | mkRuleReply seq type error buflen data :: l => (Ok (Some (mkRuleReply seq type error (u32 buflen) data)), l)
    end;
  audit_add_rule_data _ _ := ret 1; audit_delete_rule_data _ _ := ret 1; getuid := ret 0; getpid := ret 10;
  poll _ _ := ret (mkRes 1 0, true); recvfrom _ := ret (mkReceived (-1) 0 0 (mkMessage 0 0 0 ""));
  sendto _ _ n := ret (mkRes n 0); unix_time := ret 100; sleep_for _ := ret tt; reader_interrupted := ret false;
  sizeof_reply := 9020; sizeof_sockaddr_nl := 12
}.

Definition listed_rules : list rule_reply :=
  [mkRuleReply 5 AUDIT_LIST_RULES 0 16 "rule"; mkRuleReply 5 NLMSG_DONE 0 0 ""].

Lemma clearing_never_deletes_a_rule_witness :
  let r := mkReader [] ∅ 3 (mkContext [] [] false) listed_rules in
  list_rules 5 5 105 0 [] r = (Ok (Listed [mkRuleObject 9036 "rule"]), set_rd_host [] r) /\
  delete_rules 5 [mkRuleObject 9036 "rule"] 0 (set_rd_host [] r) = (Ok (Some 1), set_rd_host [] r).
Proof.
  intros r.
  assert (list_rules 5 5 105 0 [] r = (Ok (Listed [mkRuleObject 9036 "rule"]), set_rd_host [] r)) as E by done.
  split; [exact E|].
  refine (post_Ok _ _ _ _ _ (clearing_never_deletes_a_rule 5 5 105 [mkRuleObject 9036 "rule"] r _ _) E eq_refl).
  - by vm_compute.
  - intros h [|[seq type error buflen data] l]; [done|]. intros x [= <-]. apply Z.mod_pos_bound. lia.
Defined.

(** ** File events *)

Definition sh_data (number : Z) : SyscallAuditEventData := mkSyscallData number 7 1 77 0 0 0 "/bin/sh".

Definition io_call (number : Z) (fd : string) : AuditEvent :=
  mkAuditEvent SyscallEvent (SyscallData (sh_data number))
    [a_record AUDIT_SYSCALL "1:1" [("exit", "1"); ("a0", fd)]].

Definition open_call (exit : string) : AuditEvent :=
  mkAuditEvent SyscallEvent (SyscallData (sh_data NR_open))
    [a_record AUDIT_SYSCALL "1:1" [("exit", exit); ("a1", "0")];
     a_record AUDIT_CWD "1:1" [("cwd", in_quotes "/etc")];
     a_record AUDIT_PATH "1:1" [("item", "0"); ("name", in_quotes "passwd"); ("inode", "99")]].

Definition watch_passwd : AuditdFimContext :=
  mkFim ["/etc/passwd"] (mkProcessMap ∅ ∅) fresh_inode_map.

Definition open_passwd : AuditdFimContext :=
  mkFim ["/etc/passwd"] (mkProcessMap ∅ {[7 := mkFdMap 7 0 {[3 := mkFd 99 OpOpen]}]})
    (ino_save 99 InoFile "/etc/passwd" fresh_inode_map).

Lemma io_call_read : io_event 7 3 false (io_call NR_read "3").
Proof. eexists _, _. repeat split; try done. by left. Qed.

Lemma io_call_write : io_event 7 3 true (io_call NR_write "3").
Proof. eexists _, _. repeat split; try done. by left. Qed.

Lemma descriptor_reports_first_read_and_write_witness :
  exists rows fim', fim_ProcessEvents id false true false 0 0
    [io_call NR_read "3"; io_call NR_read "3"; io_call NR_write "3"; io_call NR_read "3"] open_passwd = (Ok rows, fim') /\
    summary <$> rows = [(Some "read", Some "/etc/passwd"); (Some "write", Some "/etc/passwd")].
Proof.
  apply (descriptor_reports_first_read_and_write id false true false 0 0
           [io_call NR_read "3"; io_call NR_read "3"; io_call NR_write "3"; io_call NR_read "3"]
           [false; false; true; false] open_passwd 7 3 (mkFd 99 OpOpen) (mkInode InoFile "/etc/passwd")).
  - repeat constructor; first [apply io_call_read | apply io_call_write].
  - by vm_compute.
  - done.
  - by vm_compute.
  - by left.
Defined.

Definition open_run : result (list Row) * AuditdFimContext :=
  fim_ProcessEvents id false true false 0 0 [open_call "3"] watch_passwd.

Lemma emitted_rows_are_configured_witness :
  exists rows fim', open_run = (Ok rows, fim') /\ length rows = 1%nat /\
    tables_ok ["/etc/passwd"] fim' /\ Forall (about_included ["/etc/passwd"]) rows.
Proof.
  eexists _, _. split; [vm_compute; reflexivity|]. split; [done|].
  apply (emitted_rows_are_configured id false true false 0 0 [open_call "3"] watch_passwd).
  - split; [done|]. apply Nat.leb_le. by vm_compute.
  - by vm_compute.
Defined.

Lemma open_call_3 : opens_descriptor 7 3 99 "/etc" "passwd" false (open_call "3").
Proof. eexists _, _, _, _. repeat split; try done. by left. Qed.

Lemma open_call_10 : opens_descriptor 7 10 99 "/etc" "passwd" false (open_call "10").
Proof. eexists _, _, _, _. repeat split; try done. by left. Qed.

Lemma watch_passwd_room : process_room watch_passwd 7 /\ (size (inode_map watch_passwd) < inode_limit)%nat.
Proof. split; [right|]; apply Nat.ltb_lt; by vm_compute. Qed.

Lemma written_file_is_reported_below_ten_witness :
  (exists rows fim', fim_ProcessEvents id false false false 0 0 [open_call "3"; io_call NR_write "3"] watch_passwd =
     (Ok rows, fim') /\ summary <$> rows = [(Some "write", Some "/etc/passwd")]) /\
  (exists rows fim', fim_ProcessEvents id false false false 0 0 [open_call "10"; io_call NR_write "a"] watch_passwd =
     (Ok rows, fim') /\ summary <$> rows = []).
Proof.
  split.
  - apply (written_file_is_reported_below_ten id false false false 0 0 watch_passwd 7 3 99 "/etc" "passwd" false
             (open_call "3") (io_call NR_write "3")); [lia | apply open_call_3 | apply io_call_write | done | | | by left];
      apply watch_passwd_room.
  - apply (written_file_is_reported_below_ten id false false false 0 0 watch_passwd 7 10 99 "/etc" "passwd" false
             (open_call "10") (io_call NR_write "a")); [lia | apply open_call_10 | | done | | | by left];
      [|apply watch_passwd_room..]. eexists _, _. repeat split; try done. by left.
Defined.

Definition rename_context : AuditdFimSyscallContext :=
  set_paths {[0 := mkPathItem 0 1 "/etc"; 1 := mkPathItem 1 1 "/etc"; 2 := mkPathItem 2 99 "passwd";
              3 := mkPathItem 3 99 "passwd.old"]} (fresh_context (sh_data NR_rename)).

Lemma renamed_file_keeps_its_old_path_witness :
  exists s, HandleRenameSyscallRecord id (mkFs open_passwd rename_context) = (Ok true, s) /\
    inode_map (fs_fim s) !! 99 = Some (mkInode InoFile "/etc/passwd").
Proof.
  apply (renamed_file_keeps_its_old_path id open_passwd rename_context (mkInode InoFile "/etc/passwd")).
  - by vm_compute.
  - by vm_compute.
  - apply Nat.ltb_lt. by vm_compute.
Defined.

(** ** Tables *)

Lemma ip4_is_dotted_bytes_witness : ip4FromSaddr "020000350A0001FF0000" 8 = Ok "10.0.1.255".
Proof.
  apply (ip4_is_dotted_bytes "02000035" "0000" "0" "A" "0" "0" "0" "1" "F" "F" 10 0 1 255);
    by eexists _, _.
Defined.

Lemma eleventh_argument_comes_third_witness :
  cmdline (list_to_map [("argc", "11"); ("a0", in_quotes "w0"); ("a1", in_quotes "w1"); ("a2", in_quotes "w2");
    ("a3", in_quotes "w3"); ("a4", in_quotes "w4"); ("a5", in_quotes "w5"); ("a6", in_quotes "w6");
    ("a7", in_quotes "w7"); ("a8", in_quotes "w8"); ("a9", in_quotes "w9"); ("a10", in_quotes "w10")]) =
  "w0 w1 w10 w2 w3 w4 w5 w6 w7 w8 w9".
Proof. apply (eleventh_argument_comes_third (in_quotes "w0")). by vm_compute. Defined.

Definition connect_record : AuditEventRecord :=
  a_record AUDIT_SYSCALL "1:1" [("exe", in_quotes "/bin/sh"); ("syscall", "42"); ("pid", "7"); ("ppid", "1");
   ("uid", "0"); ("euid", "0"); ("gid", "0"); ("egid", "0"); ("a0", "3")].

Definition connect_event : AuditEvent :=
  mkAuditEvent SyscallEvent (SyscallData (sh_data NR_connect)) [connect_record].

Lemma missing_success_ends_the_process_witness :
  socket_event 0 false (push_record (a_record AUDIT_SOCKADDR "1:1" [("saddr", "02000035")]) connect_event) =
  Throw AssertFailure.
Proof.
  apply (missing_success_ends_the_process 0 "/usr/bin/osqueryd" some_data false connect_record
           (a_record AUDIT_SOCKADDR "1:1" [("saddr", "02000035")]) connect_event "02000035" "3");
    first [done | by vm_compute | by vm_compute; lia].
Defined.

Definition trunc_records : list AuditEventRecord :=
  [a_record AUDIT_SYSCALL "1502125323.756:6" (sys_fields "2" ++ [("exit", "3"); ("a1", "200")]);
   a_record AUDIT_CWD "1502125323.756:6" [("cwd", in_quotes "/etc")];
   a_record AUDIT_PATH "1502125323.756:6" [("item", "0"); ("name", in_quotes "passwd"); ("inode", "99")];
   a_record AUDIT_EOE "1502125323.756:6" []].

Definition trunc_run : result (list Row) * AuditdFimContext :=
  fim_ProcessEvents id false true false 0 0
    (ProcessEvents "/usr/bin/osqueryd" some_data 1502125330 trunc_records ∅).1 watch_passwd.

Lemma file_events_show_an_unset_uid_witness :
  exists rows fim', trunc_run = (Ok rows, fim') /\ length rows = 1%nat /\
    Forall (fun row => row !! "uid" = Some (to_string (u64 77))) rows.
Proof.
  eexists _, _. split; [vm_compute; reflexivity|]. split; [done|].
  eapply (file_events_show_an_unset_uid 0 "/usr/bin/osqueryd" some_data id false true false 0 1502125330 trunc_records watch_passwd).
  - split; [done|]. apply Nat.leb_le. by vm_compute.
  - by vm_compute.
Defined.

Lemma user_avc_is_never_shown_witness :
  selinux_row 0 (a_record AUDIT_USER_AVC "1:1" []) ∉
  selinux_ProcessEvents 0 (ProcessEvents "/usr/bin/osqueryd" some_data 1502125330
    [a_record AUDIT_USER_AVC "1:1" []; a_record AUDIT_AVC "1:2" []] ∅).1.
Proof. by apply (user_avc_is_never_shown 0 "/usr/bin/osqueryd" some_data). Defined.
