(* ===== verification/TableWitnesses.v ===== *)
(** * The properties of the virtual table adapter at concrete inputs *)
From S2P Require Import Prelude Boost Conversions Json Database Query Tables TablesFacts VirtualTable VirtualTableFacts.
Local Open Scope Z_scope.

#[local] Instance plain_set : UnorderedSet := { uset_iter := elements }.
(** Doubles are not printed or read here. *)
#[local] Instance no_doubles : Doubles := { double_to_string _ := ""; strtod _ := None }.

Definition file_columns : list TableColumn :=
  [mkColumn "path" TEXT_TYPE 3; mkColumn "size" BIGINT_TYPE 0; mkColumn "mode" INTEGER_TYPE 0].

Definition file_content : VirtualTableContent := mkContent "file" file_columns 0 ∅ ∅ ∅ ∅.

(** [WHERE path = '/etc/hosts' AND size > 10 AND path > 'a' AND size < ''], the third
    term not being sensible for a text and the last without a value. *)
Definition where_terms : list constraint_info :=
  [mkInfo 0 EQUALS true; mkInfo 1 GREATER_THAN true; mkInfo 0 GREATER_THAN true; mkInfo 1 LESS_THAN true].
Definition where_values : list (option string) := [Some "/etc/hosts"; Some "10"; Some "a"; Some ""].
Definition where_args : list (option string) := [Some "/etc/hosts"; Some "10"; Some ""].

Lemma where_terms_reach_the_table_witness :
  exists ctx set c'', filter_context true 7 where_args (xBestIndex 7 where_terms 3 file_content).2
    = Ok (ctx, set, c'') /\
    colsUsed ctx = Some (used_columns file_columns 3) /\
    constraints ctx !! "size" = Some (mkConstraints BIGINT_TYPE [mkConstraint GREATER_THAN "10"]).
Proof.
  destruct (where_terms_reach_the_table file_content (xBestIndex 7 where_terms 3 file_content).2 7 8 3
    where_terms where_values where_args (xBestIndex 7 where_terms 3 file_content).1.1 true)
    as (ctx & set & c'' & H1 & H2 & H3).
  - apply (bool_decide_unpack (NoDup _)). by vm_compute.
  - reflexivity.
  - reflexivity.
  - split; [reflexivity|]. intros i k v. destruct i as [|[|[|[|i]]]]; simpl; intros; simplify_eq; (done || lia).
  - exists ctx, set, c''. split; [exact H1|]. split; [exact H2|].
    apply (H3 (mkColumn "size" BIGINT_TYPE 0)). right. left.
Defined.

(** Two rows, one without a size. *)
Definition two_files : list Row := [{["path" := "/a"; "size" := "12"]}; {["path" := "/b"]}].
Definition opened : VtState unit := mkVt file_content fresh_cursor tt.
Definition no_constraints : QueryContext :=
  mkContext (foldl affinity_step ∅ file_columns) None false ∅.

Lemma scan_returns_every_row_witness :
  exists s', (let* _ := xFilter (GeneratorTable (fun _ => two_files)) false 0 [] in scan 3 [0; 1]%nat) opened
    = (Ok [[(SQLITE_OK, ResText "/a"); (SQLITE_OK, ResInt64 12)];
           [(SQLITE_OK, ResText "/b"); (SQLITE_OK, ResNull)]], s').
Proof.
  apply (scan_returns_every_row (GeneratorTable (fun _ => two_files)) false 0 [] [0; 1]%nat opened
    no_constraints [] file_content two_files tt 3).
  - reflexivity.
  - reflexivity.
  - repeat constructor.
  - reflexivity.
  - reflexivity.
  - simpl. lia.
Defined.

Lemma printed_number_as_a_value_witness :
  column_result BIGINT_TYPE "18446744073709551615" = ResNull /\
  column_result UNSIGNED_BIGINT_TYPE "18446744073709551615" = ResNull /\
  column_result INTEGER_TYPE "18446744073709551615" = ResNull.
Proof. apply (printed_number_as_a_value (2 ^ 64 - 1)). lia. Defined.

(** The table of users, with [username] also called [user]. *)
Definition user_content : VirtualTableContent :=
  mkContent "users" [mkColumn "uid" BIGINT_TYPE 1; mkColumn "username" TEXT_TYPE 0; mkColumn "user" UNKNOWN_TYPE 16]
    0 {["user" := 1%nat]} ∅ ∅ ∅.

Definition user_after : VirtualTableContent :=
  set_columns [mkColumn "uid" BIGINT_TYPE 1; mkColumn "username" TEXT_TYPE 0; mkColumn "username" TEXT_TYPE 16]
    user_content.

Lemma alias_is_replaced_when_read_witness :
  col_name <$> accepted (vt_columns user_content) (mkInfo 2 EQUALS true) = Some "user" /\
  col_name <$> accepted (vt_columns user_after) (mkInfo 2 EQUALS true) = Some "username" /\
  "username" = "username" /\ TEXT_TYPE = TEXT_TYPE.
Proof.
  exact (alias_is_replaced_when_read user_content user_after 2 1 (mkColumn "user" UNKNOWN_TYPE 16)
    (mkColumn "username" TEXT_TYPE 0) (mkColumn "username" TEXT_TYPE 16) (mkInfo 2 EQUALS true)
    eq_refl eq_refl eq_refl eq_refl eq_refl eq_refl eq_refl eq_refl).
Defined.

Definition user_table : TablePlugin := {|
  table_name := "users";
  columns := [mkColumn "uid" BIGINT_TYPE 1; mkColumn "username" TEXT_TYPE 0];
  aliases := [];
  columnAliases := {["username" := {["user"]}]};
  attributes := 1 |}.

Lemma declared_columns_line_up_witness :
  col_name <$> cr_columns (create_content (routeInfo user_table))
  = col_name <$> response_columns (routeInfo user_table) true /\
  take 2 (cr_columns (create_content (routeInfo user_table))) = columns user_table.
Proof.
  apply (declared_columns_line_up user_table).
  - repeat (apply Forall_cons; split; [unfold column_wf; simpl; lia|]). by apply Forall_nil.
  - replace (alias_pairs user_table) with [("username", "user")] by (vm_compute; reflexivity).
    apply Forall_singleton. right. left.
Defined.

Lemma update_values_arrive_witness :
  (length file_columns = 3%nat /\
     Forall2 value_fits file_columns [VText "/a"; VInteger 5; VNull] <->
   exists text, serializeUpdateParameters [VNull; VNull; VText "/a"; VInteger 5; VNull] file_columns = inr text) /\
  (forall text, serializeUpdateParameters [VNull; VNull; VText "/a"; VInteger 5; VNull] file_columns = inr text ->
     rj_parse text = Some (JArray [JString "/a"; JInt 5; JNull])).
Proof.
  apply (update_values_arrive file_columns VNull VNull [VText "/a"; VInteger 5; VNull]).
  - apply Forall_cons_2; [done|]. apply Forall_cons_2; [simpl; lia|]. apply Forall_cons_2; done.
  - simpl. lia.
Defined.

(** An extension that accepts the row and numbers it itself. *)
Definition accepting_table (request : PluginRequest) : M unit (Status * PluginResponse) :=
  ret (mkStatus 0 "OK", [{["status" := "success"; "id" := "42"]}]).

Lemma insert_sets_the_row_id_witness :
  exists id, up_rowid (mkUpdate SQLITE_OK (Some 42) None) = Some id /\ - 2 ^ 63 <= id < 2 ^ 63 /\
    forall z, VNull = VInteger z -> - 2 ^ 63 <= z < 2 ^ 63 -> id = z.
Proof.
  apply (insert_sets_the_row_id accepting_table VNull [VText "/a"; VInteger 5; VNull] opened opened).
  - vm_compute. reflexivity.
  - reflexivity.
Defined.
