(* ===== verification/ConfigWitnesses.v ===== *)
(** * The properties of the config parsers, the flags and the file system at
    concrete inputs *)
From S2P Require Import Prelude Boost Conversions Json Database DatabaseFacts Query Host Packs Config Witnesses.
From S2P Require Import Filesystem FilesystemFacts Decorators DecoratorsFacts Flags Parsers ParsersFacts.
Local Open Scope Z_scope.

(** ** A disk with one file, open or not *)

(** The state is what is still to be read of it. *)
Definition program_stat (size : Z) : stat := mkStat 0x81ed 0 size 7 (0, 0).

Definition disk (S : Type) (size : Z) (next : S -> string * S) : Posix S := {|
  sys_open _ _ _ := ret 3;
  sys_close _ := ret tt;
  sys_fstat _ := ret (Some (program_stat size));
  sys_stat _ := ret (Some (program_stat size));
  sys_lstat _ := ret (Some (program_stat size));
  sys_read _ _ := fun s => let (c, s) := next s in (Ok (inl c), s);
  sys_write _ b := ret (inl (Z.of_nat (String.length b)));
  sys_futimes _ _ := ret 0;
  sys_chmod _ _ := ret 0;
  sys_access _ _ := ret 0;
  sys_glob p := ret (if decide (p = "/a/**") then ["/a/b/"; "/a/c"] else if decide (p = "/a/**/**") then ["/a/b/d"] else []);
  sys_getuid := ret 1000;
  fs_exists _ := ret (true, 0, "");
  fs_is_directory _ := ret (false, 0, "");
  fs_rename _ _ := ret (0, "");
  fs_remove_all _ := ret (1, 0, "");
  fs_create_directories _ := ret (true, 0, "");
  fs_create_directory _ := ret (true, 0, "");
  fs_canonical p := ret p;
  fs_current_path := ret (Some "/");
  path_append a b := a +:+ "/" +:+ b;
  path_parent p := p;
  path_filename p := p |}.

Definition pop (l : list string) : string * list string := match l with [] => ("", []) | c :: l => (c, l) end.

#[local] Instance small_disk : Posix (list string) := disk (list string) 6 pop.

Lemma hosts_readable : readable "/etc/hosts" 3 (program_stat 6) ["abc"; "def"] ["abc"; "def"].
Proof.
  split.
  - intros m. eexists _, _. split; [reflexivity|]. eexists. split; [reflexivity|]. exists [].
    split; [done|]. split; [simpl; lia|]. eexists. split; [reflexivity|].
    split; [done|]. split; [simpl; lia|]. eexists. split; reflexivity.
  - done.
  - done.
  - simpl. lia.
  - intros s. by exists s.
Qed.

Lemma file_is_read_whole_witness :
  exists s', readFile_content 3 1024 true "/etc/hosts" 0 false false false ["abc"; "def"]
    = (Ok (ReadDone, mkStatus 0 "OK", "abcdef"), s').
Proof.
  apply (file_is_read_whole "/etc/hosts" 3 (program_stat 6) ["abc"; "def"] ["abc"; "def"] 3 1024 true false);
    [exact hosts_readable | lia | simpl; lia | simpl; lia | simpl; lia].
Defined.

Lemma file_of_the_limit_is_refused_witness :
  exists content s', readFile_content 3 6 true "/etc/hosts" 0 false false false ["abc"; "def"]
    = (Ok (ReadDone, limit_status, content), s').
Proof.
  apply (file_of_the_limit_is_refused "/etc/hosts" 3 (program_stat 6) ["abc"; "def"] ["abc"; "def"] 3 6 true false);
    [exact hosts_readable | lia | reflexivity | reflexivity | simpl; lia].
Defined.

Lemma loaded_program_is_safe_witness :
  is_Some (Some (program_stat 6)) /\ (false, 0, "").1.1 = false /\
  (exists d, Some (program_stat 6) = Some d /\ Z.testbit (st_mode d) 9 = false) /\
  exists h s1 s2 st, sys_open "/usr/lib/osquery/e.ext" O_RDONLY (-1) s1 = (Ok h, s2) /\ Some (program_stat 6) = Some st /\
    (st_uid st = 0 \/ st_uid st = 1000) /\ Z.testbit (st_mode st) 6 = true /\ Z.testbit (st_mode st) 1 = false.
Proof.
  apply (loaded_program_is_safe (S := list string) (P := small_disk) (fun _ => Some (program_stat 6)) (fun _ => Some (program_stat 6))
    (fun _ => Some (program_stat 6)) 1000 (fun _ => (false, 0, "")) (fun _ _ => eq_refl) (fun _ _ => eq_refl)
    (fun _ _ => eq_refl) (fun _ => eq_refl) (fun _ _ => eq_refl) "/usr/lib/osquery" "/usr/lib/osquery/e.ext" [] []).
  reflexivity.
Defined.

Definition two_levels (p : string) : list string :=
  if decide (p = "/a/**") then ["/a/b/"; "/a/c"] else if decide (p = "/a/**/**") then ["/a/b/d"] else [].

Lemma pattern_expands_by_depth_witness :
  genGlobs "/a/**" [] GLOB_FILES [] = (Ok ["/a/c"; "/a/b/d"], []).
Proof.
  apply (pattern_expands_by_depth (S := list string) (P := small_disk) two_levels (fun _ => Some (program_stat 6)) (fun _ _ => eq_refl) (fun _ _ => eq_refl)
    "/a/**" GLOB_FILES []).
  - reflexivity.
  - apply (bool_decide_unpack (NoDup _)). vm_compute. exact I.
  - apply (bool_decide_unpack (NoDup _)). vm_compute. exact I.
Defined.

(** ** Decorators *)

(** One query gives the host, everything else nothing. *)
Definition host_rows (q : string) : list Row := if decide (q = "host") then [{["hostname" := "a"]}] else [].
Definition host_sql (q : string) : M unit (list Row) := ret (host_rows q).

Lemma host_answers : answers host_sql host_rows.
Proof. done. Qed.

Definition decorators_doc : members :=
  [("load", JArray [JString "host"; JNull]); ("always", JArray [JString "q"]);
   ("interval", JObject [("60", JArray [JString "q"]); ("hourly", JArray [JString "q"])])].
Definition decorators_config : gmap string json := {["decorators" := JObject decorators_doc]}.

Lemma update_replaces_a_source_witness :
  exists d', Decorators_update host_sql false true "main" decorators_config (tt, no_decorators)
      = (Ok (mkStatus 0 "OK"), (tt, d')) /\
    default [] (load_ d' !! "main") = ["host"] /\ default [] (always_ d' !! "main") = ["q"] /\
    kDecorations d' !! "main" = Some {["hostname" := "a"]}.
Proof.
  destruct (update_replaces_a_source host_sql host_rows "main" decorators_config decorators_doc tt no_decorators)
    as (d' & E & H1 & H2 & _ & H4 & _); [exact host_answers | done | reflexivity |].
  exists d'. split; [exact E|]. split; [rewrite H1; reflexivity|]. split; [rewrite H2; reflexivity|].
  rewrite H4. vm_compute. reflexivity.
Defined.

Definition decorator_ops : list decorator_op :=
  [OpUpdate "main" {["decorators" := JObject [("always", JArray [JString "host"])]]}; OpRun DECORATE_ALWAYS 0 ""].

Lemma reset_leaves_no_decoration_witness :
  exists d d', for_each decorator_ops (run_op host_sql) (tt, no_decorators) = (Ok tt, (tt, d)) /\
    Decorators_reset (tt, d) = (Ok tt, (tt, d')) /\ getDecorations false ∅ (tt, d') = (Ok ∅, (tt, d')).
Proof.
  destruct (reset_leaves_no_decoration host_sql decorator_ops tt tt
    (for_each decorator_ops (run_op host_sql) (tt, no_decorators)).2.2 ∅) as (d' & E & H & _).
  - vm_compute. reflexivity.
  - exists (for_each decorator_ops (run_op host_sql) (tt, no_decorators)).2.2, d'. split; [vm_compute; reflexivity|].
    split; [exact E | exact H].
Defined.

Lemma invalid_interval_ends_the_process_witness :
  exists d', Decorators_update host_sql false true "main" decorators_config (tt, no_decorators)
      = (Ok (mkStatus 0 "OK"), (tt, d')) /\
    forall s, s.2 = d' -> (runDecorators host_sql false true DECORATE_INTERVAL 7 "" s).1 = Throw AssertFailure.
Proof.
  apply (invalid_interval_ends_the_process host_sql host_rows "main" "hourly" "q" decorators_config decorators_doc
    [("60", JArray [JString "q"]); ("hourly", JArray [JString "q"])] [JString "q"] tt no_decorators 7 CE_InvalidArgument).
  - exact host_answers.
  - done.
  - reflexivity.
  - reflexivity.
  - right. left.
  - left.
  - vm_compute. reflexivity.
Defined.

(** ** Flags *)

(** gflags as a map of values that accepts everything. *)
#[local] Instance map_flags : Gflags (gmap string string) := {|
  GetCommandLineFlagInfo n := fun s => (Ok ((fun v => mkFlagInfo n "string" "" v false) <$> s !! n), s);
  GetCommandLineOption n := fun s => (Ok (s !! n), s);
  SetCommandLineOption n v := fun s => (Ok tt, match s !! n with Some _ => <[n := v]> s | None => s end);
  GetAllFlags := fun s => (Ok [], s) |}.

#[local] Instance map_flags_laws : GflagsLaws (gmap string string).
Proof.
  refine {| gf_value s n := s !! n; gf_type _ := "string"; gf_accepts _ _ := true |}.
  - done.
  - intros name s. eexists. split; [reflexivity|]. by destruct (s !! name).
  - intros name value s. eexists. split; [reflexivity|]. intros other. case_decide as E.
    + subst. destruct (s !! name) eqn:E; simpl; [by rewrite lookup_insert_eq | done].
    + destruct (s !! name); [by rewrite lookup_insert_ne | done].
Defined.

Definition config_options : gmap string json :=
  {["options" := JObject [("host_identifier", JString "uuid"); ("schedule_splay", JInt 10)]]}.
Definition some_flags : Flag := mkFlag {["schedule_splay" := no_detail; "host_identifier" := no_detail]} ∅ ∅.
Definition flag_values : gmap string string := {["schedule_splay" := "0"; "host_identifier" := "hostname"]}.

Lemma options_reach_the_flags_witness :
  exists data s' f', Options_update (ret tt) config_options (JObject []) (flag_values, some_flags)
      = (Ok (Status_success, data), (s', f')) /\
    forall ext call, Flag_getValue ext call "schedule_splay" (s', f') = (Ok "10", (s', f')).
Proof.
  apply (options_reach_the_flags (ret tt) (fun s => ex_intro _ s (conj eq_refl (fun n => eq_refl)))
    [("host_identifier", JString "uuid"); ("schedule_splay", JInt 10)] config_options flag_values some_flags
    "schedule_splay" (JInt 10) "10").
  - reflexivity.
  - apply (bool_decide_unpack (NoDup _)). vm_compute. exact I.
  - apply Forall_cons_2; [by eexists | apply Forall_cons_2; [by eexists | apply Forall_nil_2]].
  - right. left.
  - reflexivity.
  - apply Forall_cons_2; [right; by vm_compute | apply Forall_cons_2; [by left | apply Forall_nil_2]].
  - reflexivity.
  - done.
  - done.
  - by eexists.
  - reflexivity.
  - done.
  - reflexivity.
  - by eexists.
Defined.

Lemma custom_flag_is_set_and_reported_missing_witness :
  exists f', Flag_updateValue "custom_team" "red" (flag_values, some_flags)
      = (Ok (mkStatus 1 "Flag not found"), (flag_values, f')) /\
    forall ext call, Flag_getValue ext call "custom_team" (flag_values, f') = (Ok "red", (flag_values, f')).
Proof. apply (custom_flag_is_set_and_reported_missing "custom_team" "red" flag_values some_flags); reflexivity. Defined.

(** ** Views and file paths *)

Definition views_doc : members := [("procs", JString "SELECT 1"); ("empty", JString "")].
Definition views_config : gmap string json := {["views" := JObject views_doc]}.
(** A statement on views fails when it names the view "bad". *)
Definition run_statement (q : string) : M Sim Status :=
  ret (match find_str "VIEW bad" q with Some _ => mkStatus 1 "no such view" | None => Status_success end).



Lemma stored_views_are_not_created_witness :
  exists data, Views_update run_statement views_config (JObject []) (daemon [("queries", "config_views.procs", "SELECT 1")])
    = (Ok (mkStatus 0 "OK", data), daemon [("queries", "config_views.procs", "SELECT 1")]).
Proof.
  apply (stored_views_are_not_created run_statement views_config views_doc []
    (daemon [("queries", "config_views.procs", "SELECT 1")])).
  - apply daemon_ready.
  - reflexivity.
  - intros v n q Hv. apply elem_of_cons in Hv as [->|Hv]; [intros [= <- <-]; vm_compute; reflexivity|].
    apply elem_of_cons in Hv as [->|Hv]; [done | by apply elem_of_nil in Hv].
  - intros k. assert (api_view (daemon [("queries", "config_views.procs", "SELECT 1")]) kQueries
      = {["config_views.procs" := "SELECT 1"]}) as -> by (vm_compute; reflexivity).
    assert (wanted views_doc = {["procs" := "SELECT 1"]}) as -> by (vm_compute; reflexivity).
    intros [q Hq]. apply lookup_singleton_Some in Hq as [E _].
    change "config_views.procs" with (kConfigViews +:+ "procs") in E. apply app_inj_l_str in E. subst k.
    by eexists.
Defined.

#[local] Instance config_disk : Posix (Config Sim) := disk (Config Sim) 6 (fun c => ("", c)).

Lemma plain_pattern (p : string) (c : Config Sim) :
  replaceGlobWildcards p GLOB_ALL c
  = (Ok (let p := match find_str "%" p with Some _ => boost_replace_all p "%" "*" | None => p end in
         if is_relative p then "/" +:+ "/" +:+ p else p), c).
Proof.
  unfold replaceGlobWildcards. set (p1 := match find_str "%" p with Some _ => _ | None => _ end).
  set (p2 := if is_relative p1 then "/" +:+ "/" +:+ p1 else p1).
  rewrite (bind_run _ _ _ p2 c) by (unfold p2; by destruct (is_relative p1)).
  change (let p3 := p1 in if is_relative p3 then "/" +:+ "/" +:+ p3 else p3) with p2.
  set (base := String.substring 0 (star_index p2) p2). destruct (is_empty base); [done|].
  rewrite (bind_run _ _ _ base c) by done. rewrite bool_decide_true by done. by rewrite andb_false_r.
Qed.

Definition etc_files : list (string * list string) := [("homes", ["/home/%%"]); ("etc", ["/etc/hosts"; ""; "/etc/ssl/%"])].
Definition paths_config : gmap string json := {["file_paths" := JObject (category_json <$> etc_files)]}.

Lemma update_replaces_the_files_witness :
  exists c' fp', FilePaths_update (fun _ => ret (true, [])) "main" paths_config
      (config_at (daemon []), mkFilePaths (JObject []) ∅) = (Ok Status_success, (c', fp')) /\
    default ∅ (files_ c' !! "main") = {["homes" := ["/home/**"]; "etc" := ["/etc/hosts"; "/etc/ssl/*"]]}.
Proof.
  destruct (update_replaces_the_files (fun _ => ret (true, [])) _ plain_pattern "main" paths_config etc_files
    (config_at (daemon [])) (mkFilePaths (JObject []) ∅)) as (c' & fp' & E & H & _).
  - reflexivity.
  - repeat (apply Forall_cons_2; [split; [reflexivity | repeat (apply Forall_cons_2; [reflexivity|]); apply Forall_nil_2]|]).
    apply Forall_nil_2.
  - exists c', fp'. split; [exact E|]. rewrite H. vm_compute. reflexivity.
Defined.
