(* ===== verification/DaemonWitnesses.v ===== *)
(** * The properties of the daemon's services at concrete inputs

    The stores, the services and the kernel are small executable instances; the laws
    that are assumed of them elsewhere are proved of these. *)
From S2P Require Import Prelude Boost Conversions Json Database DatabaseFacts Query Host Witnesses.
From S2P Require Import Filesystem Flags ConfigWitnesses Buffered Logger Aws Hashing Uri Http RocksDb Dispatcher System Syslog Keeps AuditReader PathSet Inotify.
Local Open Scope Z_scope.

(** ** RocksDB *)

(** Column families as maps. *)
Abbreviation families := (gmap string (gmap string string)).
Definition family (e : families) (cf : string) : gmap string string := default ∅ (e !! cf).
Definition rs_good : RStatus := mkRS 0 false false "OK".
Definition rs_missing : RStatus := mkRS 1 false false "NotFound: ".

#[local] Instance map_rocks : Rocks families := {|
  rk_Get e cf k := (if family e cf !! k then rs_good else rs_missing, family e cf !! k);
  rk_Write e _ cf data := (rs_good, <[cf := put_all (family e cf) data]> e);
  rk_Delete e _ cf k := (rs_good, <[cf := delete k (family e cf)]> e);
  rk_DeleteRange e _ cf low high :=
    (rs_good, <[cf := without_range low high (family e cf)]> e);
  rk_keys e cf := Some (map_to_list (family e cf)).*1;
  rk_Open _ _ := ret rs_good;
  rk_close := ret tt |}.

Lemma family_change ok e cf m : atomic_change ok (family e) (family (<[cf := m]> e)) cf m.
Proof.
  unfold family. split; [intros cf' H; by rewrite lookup_insert_ne|]. left. by rewrite lookup_insert_eq.
Qed.

#[local] Instance map_rocks_laws : RocksLaws families.
Proof.
  refine {| cf_view := family; rk_ready _ := True; rk_iter_ok _ _ := true |}.
  - intros e cf k _. cbn. by destruct (family e cf !! k) eqn:E; rewrite ?E; split.
  - intros e o cf data _. split; [done | apply family_change].
  - intros e o cf k _. split; [done | apply family_change].
  - intros e o cf low high _. split; [done | apply family_change].
  - intros e cf keys _. cbn. intros [= <-]. split; [apply NoDup_fst_map_to_list|]. split.
    + intros k ([k' v] & -> & H)%list_elem_of_fmap. apply elem_of_map_to_list in H. by eexists.
    + intros _ k [v H]. apply list_elem_of_fmap. exists (k, v). split; [done|]. by apply elem_of_map_to_list.
Defined.

#[local] Instance map_rocks_reliable : RocksReliable families.
Proof. split; try done. intros e cf k _. cbn. split; [done|]. by intros [v ->]. Qed.

#[local] Instance families_disk : Posix families := disk families 6 (fun e => ("", e)).

Definition open_rocks : RocksDB families :=
  mkRocksDB true "/var/osquery/osquery.db" false (kDefaultColumnFamilyName :: kDomains) (kDefaultColumnFamilyName :: kDomains)
    true false ∅.

Lemma rocksdb_implements_the_store_witness :
  (let '(st, v) := rocks_get open_rocks kEvents "k" in
   (Status_ok st = true -> is_Some v /\ v = rocks_view open_rocks kEvents !! "k") /\
   (code st = 1 -> rocks_view open_rocks kEvents !! "k" = None)) /\
  let '(st, d') := rocks_putBatch open_rocks kEvents [("k", "v")] in rocks_ready d' /\
    atomic_change (Status_ok st) (rocks_view open_rocks) (rocks_view d') kEvents
      (put_all (rocks_view open_rocks kEvents) [("k", "v")]).
Proof.
  destruct (rocksdb_implements_the_store open_rocks kEvents) as (Hget & Hput & _).
  - by split.
  - apply (bool_decide_unpack (kEvents ∈ kDomains)). vm_compute. exact I.
  - split; [apply (Hget "k") | apply (Hput [("k", "v")])].
Defined.

(** ** The AWS loggers *)

(** A service whose first answer is lost: the request fails although its records arrived;
    from then on it takes everything. The state: what was acknowledged, what arrived, and
    whether there was a request. *)
Record Stream := mkStream { acked : Batch; arrived : Batch; asked : bool }.

#[local] Instance taking : AwsService Stream := {|
  sv_send b := fun w =>
    if asked w then (Ok (Answered 0 ((fun _ => "") <$> b)), mkStream (acked w ++ b) (arrived w ++ b) true)
    else (Ok (RequestFailed "timeout"), mkStream (acked w) (arrived w ++ b) true);
  sv_pause _ := ret tt;
  sv_log _ := ret tt |}.

Lemma all_taken (b : Batch) :
  (filter (fun p : Aws.record * string => p.2 = "") (zip b ((fun _ => "") <$> b))).*1 = b.
Proof. induction b as [|r b IH]; [done|]. cbn [fmap list_fmap zip zip_with].
  rewrite filter_cons_True by done. cbn [fmap list_fmap fst]. f_equal. exact IH. Qed.

#[local] Instance taking_delivers : Delivering Stream.
Proof.
  refine {| acknowledged := acked; delivered := arrived |}.
  - intros b w. cbn. destruct (asked w).
    + eexists _, _, b. split; [reflexivity|]. cbn. rewrite all_taken, length_fmap. split_and!; try done. by induction b.
    + eexists _, _, b. split; [reflexivity|]. cbn. rewrite app_nil_r. split_and!; try done. apply submseteq_nil_l.
  - intros n w. by exists w.
  - intros s w. by exists w.
Defined.

(** A property tree that is its text. *)
#[local] Instance text_tree : PropertyTree := {|
  ptree := string;
  pt_read := inl;
  pt_put k v t := "{" +:+ k +:+ ":" +:+ v +:+ "}" +:+ t;
  pt_write t := inl (t +:+ " ") |}.

Definition make_record (t : string) : M Stream Aws.record := ret (Aws.mkRecord "" t).

Lemma successful_send_delivers_every_line_witness :
  exists status w' acks got, AwsLogForwarder_send kinesis "kinesis" make_record ["a"; "b"] "result" (mkStream [] [] false) = (Ok (Some status), w') /\
    acked w' = [] ++ acks /\ arrived w' = [] ++ got /\
    rec_data <$> acks ⊆+ record_text kinesis <$> accepted kinesis "result" ["a"; "b"] /\
    (Status_ok status = true -> record_text kinesis <$> accepted kinesis "result" ["a"; "b"] ⊆+ rec_data <$> got).
Proof.
  destruct (successful_send_delivers_every_line kinesis "kinesis" make_record ltac:(intros t w; by eexists _, w)
    "result" ["a"; "b"] (mkStream [] [] false)) as (status & w' & acks & got & E & Ha & Hd & Hs & _ & Hok); [done..|].
  exists status, w', acks, got. split_and!; try done. intros H. by apply Hok.
Defined.

(** ** File hashes *)

(** A world is a number, the time of modification of the one file and its content. *)
Definition one_stat (w : Z) (path : string) : option file_stat :=
  if decide (path = "/a") then Some (Hashing.mkStat w 7 1) else None.
Definition one_digest (w : Z) (path : string) : MultiHashes := mkHashes 7 (to_string w) "" "".

#[local] Instance one_file : HashHost Z := {|
  hh_stat path := fun w => (Ok (one_stat w path), w);
  hh_time := fun w => (Ok w, w) |}.
#[local] Existing Instance sorting_heap.

Lemma cached_hashes_are_those_of_the_files_witness :
  visits 1000 (fun path w => (Ok (one_digest w path), w)) [(1, "/a"); (1, "/a"); (2, "/a"); (2, "/b")] (empty_cache 0)
  = reference one_stat one_digest <$> [(1, "/a"); (1, "/a"); (2, "/a"); (2, "/b")].
Proof.
  apply (cached_hashes_are_those_of_the_files (HH := one_file) (SH := sorting_heap) 1000 (fun path w => (Ok (one_digest w path), w)) one_stat one_digest id
    (fun _ _ => eq_refl) (fun _ _ => eq_refl) (fun _ => eq_refl)).
  intros w w' path st st' _ _. unfold one_stat, one_digest. case_decide; [|done].
  intros [= <-] [= <-]. cbn. by intros -> _.
Defined.

(** ** HTTP *)

Lemma cycle_net_total : NetTotal (N := cycle_net).
Proof. by split; intros; eexists _, _. Qed.

Definition one_redirect : Options :=
  mkOptions None None None None None None None None None 0 16 true false true false.

Lemma connections_lead_where_the_options_say_witness :
  exists c, session (N := cycle_net) 3 [(one_redirect, cycle_request)] (Client_new tt) = (Ok tt, c) /\ settled c.
Proof.
  apply (connections_lead_where_the_options_say (N := cycle_net) (T := cycle_net_total)).
  - intros o r H%list_elem_of_singleton. injection H as -> ->. by eexists.
  - done.
Defined.

Definition example_uri : Uri := mkUri "https" "user" "pass" "example.com" true 8080 "/a/b" "q=1" "top".

Lemma uri_roundtrip_witness : Uri_new (print_uri example_uri) = Ok example_uri.
Proof.
  apply uri_roundtrip. split; try done.
  - by eexists _, _.
  - right. by eexists.
Defined.

(** ** The dispatcher *)

Definition after_start : option Dispatcher := run_all idle [AddCheck 1; AddThread 1; AddStore 1; Run 1; StopFlag; StopBegin; StopNext].
Definition stopping_state : Dispatcher := default idle after_start.
Definition stopped_state : Dispatcher := default idle (step stopping_state StopEnd).

Lemma stopping_interrupts_every_service_witness :
  interrupted_ (service stopped_state 1) = true /\ stops (service stopped_state 1) = 1%nat.
Proof.
  apply (stopping_interrupts_every_service [AddCheck 1; AddThread 1; AddStore 1; Run 1; StopFlag; StopBegin; StopNext]
    stopping_state stopped_state 1 Running); try (by vm_compute).
Defined.

(** ** Credentials *)

Record cred := mkCred { k_ruid : Z; k_rgid : Z; k_euid : Z; k_egid : Z; k_groups : list Z }.

#[local] Instance kernel_credentials : Credentials cred := {|
  cr_getuid := gets k_ruid; cr_getgid := gets k_rgid; cr_geteuid := gets k_euid; cr_getegid := gets k_egid;
  cr_getgroups := gets k_groups;
  cr_setgroups l := fun c => if k_euid c =? 0 then (Ok true, mkCred (k_ruid c) (k_rgid c) (k_euid c) (k_egid c) l) else (Ok false, c);
  cr_seteffective_gid g := fun c =>
    if (k_euid c =? 0) || (g =? k_rgid c) then (Ok true, mkCred (k_ruid c) (k_rgid c) (k_euid c) g (k_groups c)) else (Ok false, c);
  cr_seteffective_uid u := fun c =>
    if (k_euid c =? 0) || (u =? k_ruid c) then (Ok true, mkCred (k_ruid c) (k_rgid c) u (k_egid c) (k_groups c)) else (Ok false, c) |}.

#[local] Instance kernel_credentials_laws : CredentialsLaws cred.
Proof.
  refine {| ruid := k_ruid; rgid := k_rgid; euid := k_euid; egid := k_egid; groups := k_groups |}; try done.
  - intros w l. cbn. destruct (Z.eqb_spec (k_euid w) 0); by eexists _, _.
  - intros w g. cbn. destruct (Z.eqb_spec (k_euid w) 0), (Z.eqb_spec g (k_rgid w)); eexists _, _; cbn; split_and!; done || tauto.
  - intros w u. cbn. destruct (Z.eqb_spec (k_euid w) 0), (Z.eqb_spec u (k_ruid w)); eexists _, _; cbn; split_and!; done || tauto.
Defined.

Definition superuser : cred := mkCred 0 0 0 0 [0; 27].

Lemma dropped_privileges_come_back_witness :
  exists w1 d, dropTo 1000 100 (mkDrop superuser false 0 0 None) = (Ok true, d) /\ dp_world d = w1 /\
    creds_of w1 = mkCreds 0 (rgid superuser) 1000 100 [100] /\
    exists d', restore_privileges d = (Ok tt, d') /\ creds_of (dp_world d') = creds_of superuser.
Proof. by apply (dropped_privileges_come_back superuser 1000 100). Defined.

(** ** The syslog pipe *)

Lemma rsyslog_fields_roundtrip_witness :
  tokenize (of_chars (rsyslog_line [chars "a,b"; []; chars "c"])) = of_chars <$> [chars "a,b"; []; chars "c"].
Proof. by apply rsyslog_fields_roundtrip. Defined.

(** ** Status lines *)

Definition a_line : StatusLogLine := mkStatusLogLine 0 "core.cpp" 7 "hello" "now" 1700000000 "".

Definition empty_proc : list (string * StatusLogLine) * LogSink := ([], mkLogSink [] true ["tls"] []).
Definition log_line_step : M (list (string * StatusLogLine) * LogSink) unit :=
  sink_send (rec_active "tls") rec_call (rec_host "host") false true a_line true false 0.
Definition logged_proc := (log_line_step empty_proc).2.

Lemma status_lines_are_delivered_once_witness :
  (exists batches, w_flight (mkWorld logged_proc [] [a_line]) = Logger.status_request <$> batches /\
   receives "tls" logged_proc.1 ++ concat batches ++ (with_identifier "host" <$> logs_ logged_proc.2)
     ≡ₚ with_identifier "host" <$> [a_line]).
Proof.
  apply (status_lines_are_delivered_once "tls" "host" eq_refl (fun _ _ => ret true) ["tls"] true (mkWorld logged_proc [] [a_line]) "tls").
  - apply (bool_decide_unpack (NoDup _)). vm_compute. exact I.
  - by left.
  - by left.
  - apply rtc_once. apply (step_log "tls" "host" a_line true false 0 false true empty_proc [] []).
    + split; cbn; (done || lia).
    + reflexivity.
Defined.

(** ** inotify *)

(** Watches are numbered as they are added. *)
#[local] Instance counting_kernel : Kernel Z := {|
  inotify_init := ret 5;
  inotify_add_watch _ _ _ := fun n => (Ok n, n + 1);
  inotify_rm_watch _ _ := ret 0;
  close_handle _ := ret tt;
  poll_handle _ := ret (0, 0, false);
  read_handle _ _ := ret "";
  alloc n := ret (Some (nuls (Z.to_nat n)));
  stat_ctime _ := ret (Some 1);
  unix_time := ret 1700000000;
  file_paths_data := ret None |}.
#[local] Instance counting_disk : Posix Z := disk Z 6 (fun n => ("", n)).

Definition fresh_context (cs : gmap Z SubCtx) : Z := fresh (elements (dom (D := gset Z) cs)).

Lemma fresh_context_is_new cs : cs !! fresh_context cs = None.
Proof. apply (not_elem_of_dom (D := gset Z)). rewrite <- elem_of_elements. apply infinite_is_fresh. Qed.

Definition silent_callback (sub : ISub) (ec : EventCtx) : M (Ino Z) unit := ret tt.
Definition first_publisher : Ino Z := new_publisher 1 true.
Definition watching_publisher : Ino Z :=
  (createSubscriptionContext fresh_context "/etc/hosts" "etc" 2 first_publisher).2.

Lemma every_watch_has_one_owner_witness :
  agree watching_publisher /\
  (forall watch a1 a2, owned (contexts watching_publisher) watch a1 -> owned (contexts watching_publisher) watch a2 -> a1 = a2) /\
  (forall event, exists ec, createEventContextFrom event watching_publisher = (Ok ec, watching_publisher)).
Proof.
  apply (every_watch_has_one_owner (ret false) (fun _ => ret true) silent_callback
    (fun _ _ => keeps_ret _ false) (fun _ _ _ => keeps_ret _ true) (fun _ _ _ _ => keeps_ret _ tt)
    fresh_context fresh_context_is_new 1 true).
  apply rtc_once. eapply (step_context _ _ _ _ "/etc/hosts" "etc" 2). reflexivity.
Defined.
